(* ===== verification/_CoqProject ===== *)
-Q . S2P
Prelude.v
PyFloat.v
PyValue.v
ChannelNumber.v
NumberingPlan.v
NumberingApply.v
BulkLedger.v
BulkRun.v
MutationPlanStore.v
PyDict.v
PyText.v
TtlCache.v
MediaSessionCache.v
PyDatetime.v
PyState.v
TemplateEngine.v
AlertDigest.v
AlertManager.v
M3uChanges.v
M3uCapture.v
AuthHandlers.v
AuthSessions.v
AuthTheorems.v
Schedule.v
Retention.v
PipelineWritePlan.v
PipelineReplay.v
DatePlaceholders.v
RuleConditions.v
RuleTheorems.v
NameNormalizer.v
NameTheorems.v
RestoreContracts.v
Preflight.v
DestinationRead.v
ImportCategory.v
RestoreRun.v
RestoreTheorems.v
RestorePreview.v
RestoreDemo.v
PyNet.v
PyUrl.v
Ssrf.v
SsrfPolicy.v
StreamOutbound.v
StreamRelay.v
OutboundTheorems.v
RelayTheorems.v
PinnedUrl.v
OutboundDemo.v
NumberAllocation.v
AllocationTheorems.v
GuideMatch.v
GuideTheorems.v
ExecutorTypes.v
ExecutorIndex.v
ProfileMembership.v
ExecutorActions.v
ExecutorAssign.v
ExecutorRun.v
ExecutorLogic.v
ExecutorSafety.v
ExecutorPreview.v
ExecutorNumbers.v
ExecutorDemo.v
AssignTheorems.v
HoareLogic.v
ProfileReconcile.v
ProfileSweep.v
ReconcileTheorems.v
ReconcileOwners.v
SweepTheorems.v
ReconcileDemo.v
TaskEngine.v
TaskConfigs.v
TaskTheorems.v
