(* ===== verification/Prelude.v ===== *)
(** * Verification of Enhanced Channel Manager: the Python backend

    ** The program

    Enhanced Channel Manager (ECM) puts an editor, an automation pipeline and a set of
    background tasks in front of Dispatcharr, the service that owns channels, streams, groups
    and EPG data.  Its backend ([src/backend]) is one FastAPI process (two when the HTTPS
    listener is on: same code, same database, separate memory) with one event loop.  An
    editor's changes arrive as one bulk commit, which is accounted operation by operation and
    renumbers channels upstream.  The pipeline plans its writes on a recording client, has the
    plan approved, and replays it.  The task engine runs tasks on schedules; tasks refresh
    playlists, detect their changes, prune backups.  Alerts are queued and sent in digests.
    Rules decide which streams become channels; the normalizer decides what they are called.
    A backup of the whole configuration is restored category by category, with a ledger of
    what was created and a rollback.

    ** The files

    Each component is a [Module] of its own file, named after the Python module it models;
    its definitions keep the names of the code.

    - Shared ground: [Prelude] (tactics, results, sorting, lists), [PyFloat] (binary64 on
      [SpecFloat]), [PyValue] (JSON-shaped values, [str] and [repr] of them), [PyDict]
      (insertion-ordered dictionaries), [PyText] (string methods), [PyDatetime] (the calendar,
      naive datetimes as integers), [PyState] (code that changes shared objects and may raise,
      with what every step keeps lifted to what a whole computation keeps), [PyNet]
      ([ipaddress]: addresses, networks, their text), [PyUrl] ([urlsplit], [urljoin]).
    - Channel numbering: [ChannelNumber] ([channel_number.py]), [NumberingPlan]
      ([channel_number_plan.py]), [NumberingApply] ([channel_number_apply.py]).  The plan
      reads numbers through the contract; the order of writes and their compensation is what
      the bulk commit uses to put the plan in place.
    - Bulk commits: [BulkLedger] ([bulk_commit_accounting.py]) is the ledger; [BulkRun] runs
      the executor of [routers/channels.py] against it.
    - Plans: [MutationPlanStore] ([services/mutation_plan_store.py]) keeps a plan until it is
      claimed; [PipelineWritePlan] and [PipelineReplay] ([services/pipeline_write_plan.py])
      record, replay and compensate one.
    - Caches: [TtlCache] ([cache.py], [log_throttle.py]), [MediaSessionCache]
      ([services/emby_cache.py]).
    - Templates and rules: [TemplateEngine] ([template_engine.py]), [DatePlaceholders]
      ([date_placeholders.py]), [RuleConditions] and [RuleTheorems]
      ([channel_pipeline_evaluator.py], [channel_pipeline_schema.py],
      [channel_pipeline_analyzer.py]), [NameNormalizer] and [NameTheorems]
      ([normalization_engine.py]).
    - Alerts: [AlertDigest], [AlertManager] ([alert_methods.py]).
    - Playlists: [M3uChanges] ([m3u_change_detector.py]), [M3uCapture]
      ([tasks/m3u_refresh.py]).
    - Sign-in: [AuthHandlers], [AuthSessions], [AuthTheorems] ([auth/], [tls/routes.py]).
    - Schedules and backups: [Schedule] ([schedule_calculator.py]), [Retention]
      ([dbas/retention.py]).
    - Tasks: [TaskEngine] ([task_engine.py], [task_scheduler.py], [task_registry.py]),
      [TaskConfigs] (the configurations of [tasks/]), [TaskTheorems].  The engine is written
      against the class [Tasks] and its laws [TaskLaws]; [TaskConfigs] discharges them with
      the surfaces of twelve tasks and the calculator of [Schedule].
    - Restores: [RestoreContracts] ([dbas/restore_contracts.py]: report, remap table, ledger),
      [Preflight] ([dbas/preflight.py]), [DestinationRead] ([dbas/destination_read.py]: the
      client that writes nothing once a read failed, as a class [Upstream] and its laws),
      [ImportCategory] ([dbas/importers/groups_profiles.py]), [RestoreRun]
      ([dbas/restore_orchestrator.py]); [RestoreTheorems] and [RestorePreview] prove against
      the class, [RestoreDemo] discharges its laws and holds the witnesses.
    - Outbound requests: [Ssrf] ([security/ssrf.py]), [SsrfPolicy] (its policy as a table of
      ranges), [StreamOutbound] ([security/stream_outbound.py], the transport of
      [tasks/dbas_sync_client.py], the URLs of [cloud_storage/upload_security.py], the guide
      download of [routers/epg.py]), [StreamRelay] (the loopback relay), [OutboundTheorems],
      [RelayTheorems], [PinnedUrl]; [OutboundDemo] is a world they run on.
    - The pipeline's executor ([channel_pipeline_executor.py]): [NumberAllocation] and
      [AllocationTheorems] (channel numbers: what a rule may ask for and what it gets),
      [ExecutorTypes] (results, channels as shared objects, the calls made), [ExecutorIndex]
      (the lookups by name and their gates), [ProfileMembership], [ExecutorActions],
      [GuideMatch] and [GuideTheorems] (which guide entry is a channel's), [ExecutorAssign]
      (logos, guides, profiles under the group's lock, variables), [ExecutorRun] (the actions,
      dispatched by [execute]).  [ExecutorLogic] is a small
      program logic (what a computation keeps, and what every step of it follows);
      [ExecutorSafety], [ExecutorPreview] and [ExecutorNumbers] instantiate it;
      [ExecutorDemo] is a world they run on, and shows where previews and runs part;
      [AssignTheorems] has what the assignments promise.
    - Profile reconciliation ([services/profile_reconcile.py], [services/m3u_group_state.py]):
      [ProfileReconcile] (selections, owners, the locked body, the lock that follows the
      group), [ProfileSweep] (convergence of rows, the sweep and its coalescing).  [HoareLogic]
      has triples for computations that raise; [ReconcileTheorems], [ReconcileOwners] and
      [SweepTheorems] use them, [ReconcileDemo] is a world they are applied in.

    ** Conventions

    A Python call that may raise returns a [result] (or an [option], or a sum of its own).
    Code that runs between two [await]s of the event loop is one step, and a theorem about
    interleavings quantifies over lists of steps; a lock is modelled where it is held across
    an [await].  Values whose type the code does not fix (JSON bodies, ORM columns) are
    [pyval]s, and an attribute error or a type error is then a result like another.  Text is
    ASCII bytes.  What is outside [src/] (Dispatcharr, the regular-expression engine, hashes,
    the zone database, [strftime]) is a parameter, with what is assumed of it stated as a
    hypothesis or a class law and discharged by a concrete instance in the witnesses.

    ** What the theorems show

    - Numbering: sending writes in the computed order never gives two channels one number that
      they did not share, every write is sent, and compensation restores the lineup
      ([order_safe], [order_total], [compensation_restores]); a placement that was accepted
      was consented to.
    - Bulk commits: every run ends in an audited envelope that counts each operation once and
      calls nothing that landed failed ([run_finishes], [landed_never_failed], [audit_exact]).
    - Plans: claimed at most once and only as they were approved; a replay realises what was
      planned ([replay_realises_plan]), and a failed one whose compensation succeeds restores
      the channels, when the plan's writes are of the kinds that are compensated
      ([pipeline_compensation_restores]).
    - Sign-in: a refresh token rotates at most once over both processes, logout and reset are
      final, a lost answer can be asked for again.
    - Time: the next run of a schedule is the next occurrence of it (with the exceptions the
      findings list); a task has one run at a time, each run leaves the configuration it found
      (and undoes a save made during it), every due schedule runs in its turn; saves survive
      restarts.
    - Rules: what validation accepts evaluates without raising (infinite numbers of audio
      tracks apart), the three readers of a list of conditions agree, normalizing twice is
      normalizing once.
    - Caches and alerts: no stampede; no alert lost or sent twice while no flush is forced and
      nothing raises ([flush_comes], [exactly_once]).
    - Restores: a restore that says it was rolled back left the destination as it found it,
      when its importers record what they create, as those modelled do of rows with numeric ids
      ([rolled_back_restore_is_undone]); a preview or an unconfirmed restore changes nothing, a
      refused plan is not touched, a preview counts what the import will do, success means no
      failure and no shortfall.
    - Outbound requests: the policy is the table it is meant to be, every connection goes to
      an address it permits although resolver and servers change their answers, credentials
      stay with their origin, every URL of a relayed HLS manifest leads back to what it named.
    - The pipeline's executor: hand-built channels are left alone whatever actions run, but
      for those whose own streams an action removes or reorders
      ([hand_built_channels_left_alone]), a dry run writes nothing ([dry_run_writes_nothing]),
      no number is given twice ([numbered_channels_share_no_number],
      [number_handed_out_is_free]), assigned profiles are exact and flipped under the lock
      ([assigned_profiles_exact], [profile_flips_hold_the_lock]), guide entries are the best
      there are ([guide_entry_is_best]).
    - Profile reconciliation: no channel loses its last profile ([no_channel_is_stranded]),
      channels claimed for the rules it was told are live are left alone by a reconciliation
      that runs beside the pipeline
      ([pipeline_channels_left_alone]), a reconciled group is exact
      ([reconciled_group_is_exact]), rows converge ([written_rows_converge]).

    Where the code departs from this, the theorem is stated of what it does and the departure
    shown by an [Example]; the findings of the manifest list them.

    ** Fuel

    Loops that recurse on what they consume are [Fixpoint]s on it.  Those that do not carry
    fuel, and a theorem shows that what they are given is enough: the ordering of writes and
    the cycle walk ([order_total]), template rendering ([render_total]), the name normalizer's
    ten passes (which are the code's own bound, [normal_form]), the paging of streams
    ([grouped_exact]), the redirect loop ([redirects_end]), the walk
    to a free channel number (the size of the occupied set and two, [number_handed_out_is_free]).

    ** Not modelled

    Routers other than the bulk commit's executor (HTTP and ORM glue over the components
    above), the Dispatcharr client and the media-server clients (I/O), stream probing and
    ffmpeg builders (processes), cloud storage and TLS (I/O, cryptography), the database
    schema and its migrations, notifications' transport, log and metrics plumbing, the
    frontend and the MCP server (other programs).  The importers of [dbas/] other than groups
    and profiles, the re-attachment of streams and the wait for guide downloads are arguments
    of the restore.  Within reach and left for later: those importers, the executor's
    event synchronisation, the EPG and event matchers.  Non-ASCII text, wall-clock rounding
    of displayed durations and concurrent processes other than the two listeners are outside
    every model. *)
From stdpp Require Export base tactics list option strings gmap sorting.
From Stdlib Require Export ZArith Lia.
#[global] Unset Program Cases.

(** ** Tactics *)

(** [invc H] inverts and cleans up; [case_match_hyp] splits on a [match] in [H]. *)
Ltac invc H := inversion H; clear H; simplify_eq.

Ltac case_hyp H :=
  match type of H with
  | context [match ?x with _ => _ end] => let E := fresh "Hm" in destruct x eqn:E
  end.

(** [split_ok H]: run a monadic/conditional hypothesis [H : body = Ok _] to its leaves,
    discarding the branches that contradict it. *)
Ltac split_ok H := repeat (case_hyp H; simplify_eq/=; try discriminate).

(** [split_goal]: case analysis on every [match] of the goal. *)
Ltac split_goal :=
  repeat match goal with
  | |- context [match ?x with _ => _ end] => let E := fresh "Hm" in destruct x eqn:E; simplify_eq/=
  end.

(** Booleans to propositions, for [Z] and [nat] comparisons. *)
Ltac to_prop :=
  repeat match goal with
  | H : (_ && _)%bool = true |- _ => apply andb_prop in H as [? ?]
  | H : (_ || _)%bool = false |- _ => apply orb_false_elim in H as [? ?]
  | H : negb _ = true |- _ => apply negb_true_iff in H
  | H : negb _ = false |- _ => apply negb_false_iff in H
  | H : Z.ltb _ _ = true |- _ => apply Z.ltb_lt in H
  | H : Z.ltb _ _ = false |- _ => apply Z.ltb_ge in H
  | H : Z.leb _ _ = true |- _ => apply Z.leb_le in H
  | H : Z.leb _ _ = false |- _ => apply Z.leb_gt in H
  | H : Z.eqb _ _ = true |- _ => apply Z.eqb_eq in H
  | H : Z.eqb _ _ = false |- _ => apply Z.eqb_neq in H
  | H : Nat.ltb _ _ = true |- _ => apply Nat.ltb_lt in H
  | H : Nat.ltb _ _ = false |- _ => apply Nat.ltb_ge in H
  | H : Nat.leb _ _ = true |- _ => apply Nat.leb_le in H
  | H : Nat.leb _ _ = false |- _ => apply Nat.leb_gt in H
  | H : Nat.eqb _ _ = true |- _ => apply Nat.eqb_eq in H
  | H : Nat.eqb _ _ = false |- _ => apply Nat.eqb_neq in H
  | H : bool_decide _ = true |- _ => apply bool_decide_eq_true in H
  | H : bool_decide _ = false |- _ => apply bool_decide_eq_false in H
  end.

(** ** Results: a Python call returns a value or raises *)

Inductive result (E A : Type) : Type :=
| Ok (a : A)
| Raise (e : E).
Arguments Ok {E A} a.
Arguments Raise {E A} e.

Definition rbind {E A B} (m : result E A) (f : A -> result E B) : result E B :=
  match m with Ok a => f a | Raise e => Raise e end.

Declare Scope py_scope.
Delimit Scope py_scope with py.
Notation "'let!' x ':=' m 'in' k" := (rbind m (fun x => k))
  (at level 10, x name, m at level 100, k at level 200) : py_scope.
Notation "'let!' ' p ':=' m 'in' k" := (rbind m (fun x => match x with p => k end))
  (at level 10, p strict pattern, m at level 100, k at level 200) : py_scope.
Open Scope py_scope.

Definition is_ok {E A} (r : result E A) : bool :=
  match r with Ok _ => true | Raise _ => false end.

(** The list of the values of a call on each element, in order; the first that raises stops. *)
Section traverse.
Context {E A B : Type} (f : A -> result E B).

Fixpoint traverse (l : list A) : result E (list B) :=
    match l with
    | [] => Ok []
    | x :: l' => let! y := f x in let! ys := traverse l' in Ok (y :: ys)
    end.

Lemma traverse_Ok l r : traverse l = Ok r <-> Forall2 (fun x y => f x = Ok y) l r.
Proof.
  revert r. induction l as [|x l IH]; intros r; cbn.
  - split; [intros [= <-]; constructor|by intros ->%Forall2_nil_inv_l].
  - split.
    + intros H. destruct (f x) as [y|] eqn:Hx; [|done]. cbn in H.
      destruct (traverse l) as [ys|] eqn:Hl; [|done]. injection H as <-.
      constructor; [done|by apply IH].
    + intros (y & ys & Hx & Hl & ->)%Forall2_cons_inv_l. rewrite Hx. cbn.
      apply IH in Hl. by rewrite Hl.
Qed.
End traverse.

Section result_fold.
Context {E A B : Type} (f : B -> A -> result E B).

  (** The [for] loop whose body may raise. *)
Fixpoint foldM (acc : B) (l : list A) : result E B :=
    match l with
    | [] => Ok acc
    | x :: l' => match f acc x with Ok acc' => foldM acc' l' | Raise e => Raise e end
    end.

Lemma foldM_app acc l1 l2 :
    foldM acc (l1 ++ l2) = (let! r := foldM acc l1 in foldM r l2).
  Proof.
    revert acc; induction l1 as [|x l1 IH]; intros acc; [done|].
    simpl. destruct (f acc x); [apply IH | done].
  Qed.

  (** An invariant of the loop body is an invariant of the loop. *)
Lemma foldM_inv (P : B -> Prop) acc l r :
    (forall b x b', x ∈ l -> P b -> f b x = Ok b' -> P b') ->
    P acc -> foldM acc l = Ok r -> P r.
  Proof.
    revert acc; induction l as [|x l IH]; intros acc Hstep HP Hf; simpl in Hf.
    { by simplify_eq. }
    destruct (f acc x) as [acc'|e] eqn:Hx; [|done].
    eapply IH; [| |exact Hf].
    - intros b y b' Hy. apply Hstep. by right.
    - eapply Hstep; [by left|done|done].
  Qed.

  (** The same, with the items already processed. *)
Lemma foldM_prefix_inv (P : list A -> B -> Prop) acc l r :
    (forall l1 x l2 b b', l = l1 ++ x :: l2 -> P l1 b -> f b x = Ok b' -> P (l1 ++ [x]) b') ->
    P [] acc -> foldM acc l = Ok r -> P l r.
  Proof.
    intros Hstep. cut (forall l2 l1 b, l = l1 ++ l2 -> P l1 b -> foldM b l2 = Ok r -> P l r).
    { intros H. by apply (H l []). }
    induction l2 as [|x l2 IH]; intros l1 b Hl HP Hf; simpl in Hf.
    { simplify_eq. by rewrite app_nil_r. }
    destruct (f b x) as [b'|e] eqn:Hx; [|done].
    apply (IH (l1 ++ [x]) b'); [by rewrite <- app_assoc|by eapply Hstep|done].
  Qed.
End result_fold.

(** [enumerate(l)]. *)
Definition enumerate {A} (l : list A) : list (nat * A) := imap pair l.

Section enumerate.
Context {E A B : Type} (f : B -> nat * A -> result E B).

  (** Invariants of an indexed loop: [P i] holds before item [i] is processed. *)
Lemma foldM_enumerate_inv (P : nat -> B -> Prop) l acc r :
    (forall i x b b', l !! i = Some x -> P i b -> f b (i, x) = Ok b' -> P (S i) b') ->
    P 0%nat acc -> foldM f acc (enumerate l) = Ok r -> P (length l) r.
  Proof.
    unfold enumerate. intros Hstep. cut (forall k l' b, l = take k l ++ l' -> length (take k l) = k ->
      P k b -> foldM f b (imap (fun i x => ((k + i)%nat, x)) l') = Ok r -> P (length l) r).
    { intros H HP Hf. eapply (H 0%nat l acc); [done|done|done|]. exact Hf. }
    intros k l'. revert k. induction l' as [|x l' IH]; intros k b Hl Hk HP Hf.
    { simpl in Hf. simplify_eq. rewrite app_nil_r in Hl. by rewrite Hl, Hk. }
    cbn [imap foldM] in Hf. rewrite Nat.add_0_r in Hf.
    destruct (f b (k, x)) as [b'|] eqn:Hx; [|done].
    assert (Hlk : l !! k = Some x).
    { rewrite Hl. apply list_lookup_middle. by rewrite Hk. }
    apply (IH (S k) b').
    - rewrite (take_S_r _ _ _ Hlk), <- app_assoc. exact Hl.
    - rewrite (take_S_r _ _ _ Hlk), length_app, Hk. simpl. lia.
    - by eapply Hstep.
    - rewrite <- Hf. f_equal. apply imap_ext. intros i y _. simpl. f_equal. lia.
  Qed.

Lemma foldM_enumerate_ok l acc :
    (forall i x b, l !! i = Some x -> is_ok (f b (i, x)) = true) ->
    exists r, foldM f acc (enumerate l) = Ok r.
  Proof.
    unfold enumerate. intros Hstep. cut (forall (g : nat -> nat) l' b,
      (forall i x b, l' !! i = Some x -> is_ok (f b (g i, x)) = true) ->
      exists r, foldM f b (imap (fun i x => (g i, x)) l') = Ok r).
    { intros H. apply (H (fun i => i)). exact Hstep. }
    clear. intros g l'. revert g. induction l' as [|x l' IH]; intros g b Hs; [by eexists|].
    cbn [imap foldM]. specialize (Hs 0%nat x b eq_refl) as H0.
    destruct (f b (g 0%nat, x)) as [b'|]; [|done].
    apply (IH (fun i => g (S i)) b'). intros i y c Hy. by apply (Hs (S i)).
  Qed.
End enumerate.

(** ** Python's [sorted]: a stable sort *)

Section stable_sort.
Context {A : Type} (leb : A -> A -> bool).

  (** [insert_sorted x l] puts [x] in front of the first element that is not
      strictly before it, so equal elements keep their order of arrival when the list
      is sorted from its last element to its first. *)
Fixpoint insert_sorted (x : A) (l : list A) : list A :=
    match l with
    | [] => [x]
    | y :: l' => if leb x y then x :: l else y :: insert_sorted x l'
    end.

Fixpoint py_sorted (l : list A) : list A :=
    match l with
    | [] => []
    | x :: l' => insert_sorted x (py_sorted l')
    end.

Lemma insert_sorted_perm x l : insert_sorted x l ≡ₚ x :: l.
  Proof.
    induction l as [|y l IH]; simpl; [done|].
    destruct (leb x y); [done|]. rewrite IH. by constructor.
  Qed.

Lemma py_sorted_perm l : py_sorted l ≡ₚ l.
  Proof.
    induction l as [|x l IH]; simpl; [done|].
    rewrite insert_sorted_perm. by constructor.
  Qed.

Lemma py_sorted_length l : length (py_sorted l) = length l.
  Proof. apply Permutation_length, py_sorted_perm. Qed.

Lemma elem_of_py_sorted x l : x ∈ py_sorted l <-> x ∈ l.
  Proof. by rewrite py_sorted_perm. Qed.

Context (leb_total : forall x y, leb x y = false -> leb y x = true).
Context (leb_trans : forall x y z, leb x y = true -> leb y z = true -> leb x z = true).

Lemma insert_sorted_sorted x l :
    StronglySorted (fun a b => leb a b = true) l ->
    StronglySorted (fun a b => leb a b = true) (insert_sorted x l).
  Proof.
    induction 1 as [|y l Hl IH Hy]; simpl.
    { repeat constructor. }
    destruct (leb x y) eqn:Hxy.
    - repeat (constructor; [done|]). constructor; [by constructor|].
      constructor; [done|]. eapply Forall_impl; [exact Hy|]. eauto.
    - constructor; [done|].
      rewrite insert_sorted_perm. constructor; [by apply leb_total|done].
  Qed.

Lemma py_sorted_sorted l : StronglySorted (fun a b => leb a b = true) (py_sorted l).
  Proof. induction l; simpl; [constructor | by apply insert_sorted_sorted]. Qed.
End stable_sort.

(** On items with distinct keys a sort by key does not depend on the order of arrival. *)
Section sort_by_key.
Context {A K : Type} (key : A -> K) (leb : K -> K -> bool).
Context (leb_total : forall x y, leb x y = false -> leb y x = true).
Context (leb_trans : forall x y z, leb x y = true -> leb y z = true -> leb x z = true).
Context (leb_antisym : forall x y, leb x y = true -> leb y x = true -> x = y).
Let le (x y : A) : bool := leb (key x) (key y).

Lemma insert_sorted_comm x y l :
    key x <> key y -> insert_sorted le x (insert_sorted le y l) = insert_sorted le y (insert_sorted le x l).
  Proof.
    intros Hne. unfold le.
    assert (Hxy : leb (key x) (key y) = negb (leb (key y) (key x))).
    { destruct (leb (key x) (key y)) eqn:Exy, (leb (key y) (key x)) eqn:Eyx; try done.
      - by specialize (leb_antisym _ _ Exy Eyx).
      - apply leb_total in Exy. congruence. }
    induction l as [|z l IH]; cbn [insert_sorted]; rewrite ?Hxy.
    { by destruct (leb (key y) (key x)). }
    destruct (leb (key y) (key z)) eqn:Eyz, (leb (key x) (key z)) eqn:Exz;
      cbn [insert_sorted]; rewrite ?Eyz, ?Exz, ?Hxy;
      destruct (leb (key y) (key x)) eqn:Eyx; cbn [negb] in *; try done.
    - specialize (leb_trans _ _ _ Hxy Eyz). congruence.
    - specialize (leb_trans _ _ _ Eyx Exz). congruence.
    - by rewrite IH.
    - by rewrite IH.
  Qed.

Lemma py_sorted_unique l l' : NoDup (map key l) -> l ≡ₚ l' -> py_sorted le l = py_sorted le l'.
  Proof.
    intros Hnd Hp. revert Hnd. induction Hp as [|x l l' Hp IH|x y l|l1 l2 l3 H1 IH1 H2 IH2]; cbn; intros Hnd.
    - done.
    - apply NoDup_cons in Hnd as [_ Hnd]. by rewrite IH.
    - apply insert_sorted_comm. apply NoDup_cons in Hnd as [Hn _]. intros E. apply Hn. rewrite E. by left.
    - rewrite IH1 by done. apply IH2. by rewrite <- (Permutation_map key H1).
  Qed.
End sort_by_key.

Lemma elem_of_concat_map {A B} (f : A -> list B) (l : list A) (y : B) :
  y ∈ concat (map f l) <-> exists x, x ∈ l /\ y ∈ f x.
Proof.
  rewrite list_elem_of_In, in_concat. setoid_rewrite in_map_iff. setoid_rewrite list_elem_of_In.
  naive_solver.
Qed.

Lemma list_NoDup_filter {A} (f : A -> bool) l : NoDup l -> NoDup (List.filter f l).
Proof. rewrite !NoDup_ListNoDup. apply List.NoDup_filter. Qed.

Lemma elem_of_list_filter {A} (f : A -> bool) (l : list A) x :
  x ∈ List.filter f l <-> x ∈ l /\ f x = true.
Proof. by rewrite list_elem_of_In, filter_In, <- list_elem_of_In. Qed.

Lemma elem_of_map {A B} (f : A -> B) l y : y ∈ map f l <-> exists x, y = f x /\ x ∈ l.
Proof. exact (list_elem_of_fmap f l y). Qed.

Lemma elem_of_map_2 {A B} (f : A -> B) l x : x ∈ l -> f x ∈ map f l.
Proof. intros Hx. apply elem_of_map. eauto. Qed.

Lemma map_reverse {A B} (f : A -> B) l : map f (reverse l) = reverse (map f l).
Proof. exact (fmap_reverse f l). Qed.

Lemma sublist_map {A B} (f : A -> B) l k : l `sublist_of` k -> map f l `sublist_of` map f k.
Proof. exact (fmap_sublist f l k). Qed.

Lemma sublist_reverse {A} (l k : list A) : l `sublist_of` k -> reverse l `sublist_of` reverse k.
Proof.
  induction 1; [done| |]; rewrite ?reverse_cons; [by apply sublist_app|by apply sublist_inserts_r].
Qed.

Create HintDb ecm.
#[export] Hint Resolve py_sorted_perm : ecm.
