(* ===== verification/PyFloat.v ===== *)
(** * Python numbers: arbitrary precision [int] and IEEE binary64 [float].

    The float operations are those of [SpecFloat] at precision 53 and maximal exponent
    1024 (the executable specification of binary64 shipped with the prover; it uses no
    axiom).  This file adds the conversions Python does implicitly ([int] to [float],
    true division of [int]s, [round] to an [int], decimal literals) and proves that the
    rounding of [SpecFloat] is rounding to nearest, ties to even, of the exact rational
    result ([round_aux_spec]), from which the exactness results used for channel numbers
    follow. *)
From S2P Require Import Prelude.
From Corelib Require Import SpecFloat.
Open Scope Z_scope.

Abbreviation py_float := spec_float.

Module Float.

(** ** Operations used by the sources *)

Definition prec : Z := 53.
Definition emax : Z := 1024.

(** [float(n)] for an [int]; an infinity here is Python's [OverflowError]. *)
Definition of_Z (n : Z) : py_float := binary_normalize prec emax n 0 false.

(** Correctly rounded quotient of two positive integers: what a decimal literal
    [n / 10^k] and Python's [int / int] compute. *)
Definition of_ratio (n d : positive) : py_float :=
  let '(mz, ez, lz) := SFdiv_core_binary prec emax (Z.pos n) 0 (Z.pos d) 0 in
  binary_round_aux prec emax false mz ez lz.

(** Python's [n / d] on [int]s, [d] positive. *)
Definition int_truediv (n : Z) (d : positive) : py_float :=
  match n with
  | Z0 => S754_zero false
  | Zpos p => of_ratio p d
  | Zneg p => SFopp (of_ratio p d)
  end.

Definition mul : py_float -> py_float -> py_float := SFmul prec emax.
Definition add : py_float -> py_float -> py_float := SFadd prec emax.
Definition sub : py_float -> py_float -> py_float := SFsub prec emax.
Definition abs : py_float -> py_float := SFabs.
Definition eqb : py_float -> py_float -> bool := SFeqb.
Definition ltb : py_float -> py_float -> bool := SFltb.
Definition leb : py_float -> py_float -> bool := SFleb.

(** [math.isfinite] *)
Definition is_finite (f : py_float) : bool :=
  match f with S754_zero _ | S754_finite _ _ _ => true | _ => false end.

(** Rounding [n / d] to nearest, ties to even ([n >= 0], [d > 0]). *)
Definition rne (n d : Z) : Z :=
  let q := n / d in
  match Z.compare (2 * (n mod d)) d with
  | Lt => q
  | Eq => if Z.even q then q else q + 1
  | Gt => q + 1
  end.

Definition signed (s : bool) (z : Z) : Z := if s then - z else z.

(** Python's [round(f)] with no digits: an [int], ties to even.  Called on finite
    values only (Python raises on the others). *)
Definition round_int (f : py_float) : Z :=
  match f with
  | S754_finite s m e =>
      signed s (if 0 <=? e then Z.pos m * 2 ^ e else rne (Z.pos m) (2 ^ (- e)))
  | _ => 0
  end.

(** [int(f)]: truncation. *)
Definition trunc (f : py_float) : Z :=
  match f with
  | S754_finite s m e =>
      signed s (if 0 <=? e then Z.pos m * 2 ^ e else Z.pos m / 2 ^ (- e))
  | _ => 0
  end.

(** [f.is_integer()] *)
Definition is_integer (f : py_float) : bool :=
  match f with
  | S754_zero _ => true
  | S754_finite _ m e => (0 <=? e) || (Z.pos m mod 2 ^ (- e) =? 0)
  | _ => false
  end.

(** ** Rounding to nearest is what [SpecFloat] computes *)

(** The location of [n / d] with respect to [n / d] rounded down. *)
Definition loc_of (n d : Z) : location :=
  let r := n mod d in
  if r =? 0 then loc_Exact else loc_Inexact (Z.compare (2 * r) d).

(** The shift register of the exact value [n / d]. *)
Definition shr_of (n d : Z) : shr_record := shr_record_of_loc (n / d) (loc_of n d).

Lemma shr_of_fields n d :
  0 < d -> shr_of n d =
    {| shr_m := n / d; shr_r := d <=? 2 * (n mod d);
       shr_s := negb (n mod d =? 0) && negb (2 * (n mod d) =? d) |}.
Proof.
  intros Hd. unfold shr_of, loc_of. pose proof (Z.mod_pos_bound n d Hd).
  destruct (Z.eqb_spec (n mod d) 0) as [E|E]; simpl.
  { rewrite E. f_equal. symmetry. apply Z.leb_gt. lia. }
  destruct (Z.compare_spec (2 * (n mod d)) d) as [C|C|C]; simpl; f_equal; symmetry.
  all: try (apply Z.leb_le; lia); try (apply Z.leb_gt; lia).
  all: first [apply negb_true_iff, Z.eqb_neq; lia | apply negb_false_iff, Z.eqb_eq; lia].
Qed.

Lemma half_parts n d : 0 < d ->
  n / (d * 2) = (n / d) / 2 /\
  n mod (d * 2) = n mod d + d * ((n / d) mod 2).
Proof.
  intros Hd. split.
  - by rewrite Z.div_div by lia.
  - apply Z.rem_mul_r; lia.
Qed.

Lemma shr_1_shr_of n d : 0 <= n -> 0 < d -> shr_1 (shr_of n d) = shr_of n (d * 2).
Proof.
  intros Hn Hd. rewrite !shr_of_fields by lia.
  destruct (half_parts n d Hd) as [Hq Hr]. rewrite Hq, Hr.
  pose proof (Z.mod_pos_bound n d Hd) as Hb.
  assert (Hq0 : 0 <= n / d) by (apply Z.div_pos; lia).
  assert (Hs : ((d <=? 2 * (n mod d)) || negb (n mod d =? 0) && negb (2 * (n mod d) =? d))%bool
               = negb (n mod d =? 0)).
  { destruct (Z.leb_spec d (2 * (n mod d))), (Z.eqb_spec (n mod d) 0),
      (Z.eqb_spec (2 * (n mod d)) d); simpl; try done; lia. }
  set (r := n mod d) in *. set (q := n / d) in *.
  pose proof (Z_div_mod_eq_full q 2) as Hdm. pose proof (Z.mod_pos_bound q 2 ltac:(lia)) as Hm2.
  assert (Hcase : forall b, shr_1 {| shr_m := q; shr_r := d <=? 2 * r; shr_s := b |} =
     {| shr_m := q / 2; shr_r := q mod 2 =? 1; shr_s := (d <=? 2 * r) || b |}).
  { intros b. unfold shr_1.
    destruct q as [|p|p]; [reflexivity| |lia].
    destruct p as [p|p|]; [| |reflexivity].
    - assert (Z.pos p~1 / 2 = Z.pos p) as -> by (symmetry; apply (Z.div_unique _ _ _ 1); lia).
      assert (Z.pos p~1 mod 2 = 1) as ->; [|done].
      symmetry. apply (Z.mod_unique _ _ (Z.pos p)); lia.
    - assert (Z.pos p~0 / 2 = Z.pos p) as -> by (symmetry; apply (Z.div_unique _ _ _ 0); lia).
      assert (Z.pos p~0 mod 2 = 0) as ->; [|done].
      symmetry. apply (Z.mod_unique _ _ (Z.pos p)); lia. }
  rewrite Hcase, Hs. clear Hs Hcase Hq Hr.
  assert (q mod 2 = 0 \/ q mod 2 = 1) as [E|E] by lia; rewrite E; f_equal.
  - symmetry. apply Z.leb_gt. lia.
  - destruct (Z.eqb_spec r 0), (Z.eqb_spec (r + d * 0) 0),
      (Z.eqb_spec (2 * (r + d * 0)) (d * 2)); simpl; try done; lia.
  - symmetry. apply Z.leb_le. lia.
  - destruct (Z.eqb_spec r 0), (Z.eqb_spec (r + d * 1) 0),
      (Z.eqb_spec (2 * (r + d * 1)) (d * 2)); simpl; try done; lia.
Qed.

Lemma iter_shr_1 p n d :
  0 <= n -> 0 < d -> iter_pos shr_1 p (shr_of n d) = shr_of n (d * 2 ^ Z.pos p).
Proof.
  revert d. induction p as [p IH|p IH|]; intros d Hn Hd; simpl iter_pos.
  - rewrite shr_1_shr_of by done. rewrite !IH by (try done; nia). f_equal.
    replace (Z.pos p~1) with (1 + Z.pos p + Z.pos p) by lia.
    rewrite !Z.pow_add_r by lia. change (2 ^ 1) with 2. ring.
  - rewrite !IH by (try done; nia). f_equal.
    replace (Z.pos p~0) with (Z.pos p + Z.pos p) by lia.
    rewrite Z.pow_add_r by lia. ring.
  - by apply shr_1_shr_of.
Qed.

Lemma round_shr_of n d :
  0 < d -> round_nearest_even (shr_m (shr_of n d)) (loc_of_shr_record (shr_of n d)) = rne n d.
Proof.
  intros Hd. unfold shr_of, loc_of, rne. pose proof (Z.mod_pos_bound n d Hd).
  destruct (Z.eqb_spec (n mod d) 0) as [E|E].
  - rewrite E. by replace (2 * 0 ?= d) with Lt by (symmetry; apply Z.compare_lt_iff; lia).
  - by destruct (2 * (n mod d) ?= d).
Qed.

Lemma rne_1 n : rne n 1 = n.
Proof. unfold rne. by rewrite Z.div_1_r, Z.mod_1_r. Qed.

(** [rne] is the unique nearest integer, with ties to even. *)
Lemma rne_unique n d z :
  0 < d -> 2 * Z.abs (n - z * d) < d \/ (2 * Z.abs (n - z * d) = d /\ Z.even z = true) ->
  rne n d = z.
Proof.
  intros Hd H. unfold rne.
  pose proof (Z_div_mod_eq_full n d) as Hdm. pose proof (Z.mod_pos_bound n d Hd) as Hb.
  set (q := n / d) in *. set (r := n mod d) in *.
  assert (Hz : z = q \/ z = q + 1).
  { assert (-d < 2 * d * (q - z) + 2 * r + 1 /\ 2 * d * (q - z) + 2 * r <= d) by lia. nia. }
  assert (Hev : Z.even (q + 1) = negb (Z.even q)).
  { rewrite Z.add_1_r, Z.even_succ, <- Z.negb_even. done. }
  destruct (Z.compare_spec (2 * r) d) as [C|C|C].
  - destruct Hz as [-> | ->].
    + destruct H as [H|[_ ->]]; [exfalso; lia|done].
    + destruct H as [H|[_ H]]; [exfalso; lia|]. rewrite Hev in H. by destruct (Z.even q).
  - destruct Hz as [-> | ->]; [done|]. exfalso. destruct H; lia.
  - destruct Hz as [-> | ->]; [|done]. exfalso. destruct H; lia.
Qed.

Lemma rne_bound n d : 0 < d -> 2 * Z.abs (n - rne n d * d) <= d.
Proof.
  intros Hd. unfold rne.
  pose proof (Z_div_mod_eq_full n d) as Hdm. pose proof (Z.mod_pos_bound n d Hd) as Hb.
  set (q := n / d) in *. set (r := n mod d) in *.
  destruct (Z.compare_spec (2 * r) d) as [C|C|C]; [destruct (Z.even q)| |]; nia.
Qed.

Lemma rne_nonneg n d : 0 <= n -> 0 < d -> 0 <= rne n d.
Proof.
  intros Hn Hd. unfold rne. assert (0 <= n / d) by (apply Z.div_pos; lia).
  destruct (_ ?= _); [destruct (Z.even _)| |]; lia.
Qed.

(** ** Digits *)

Lemma digits_bounds m :
  2 ^ (Z.pos (digits2_pos m) - 1) <= Z.pos m < 2 ^ Z.pos (digits2_pos m).
Proof.
  induction m as [m IH|m IH|]; [| |simpl; lia]; cbn [digits2_pos];
    rewrite Pos2Z.inj_succ; replace (Z.succ (Z.pos (digits2_pos m)) - 1) with
      (Z.pos (digits2_pos m) - 1 + 1) by lia;
    rewrite Z.pow_succ_r, Z.pow_add_r by lia; change (2 ^ 1) with 2; lia.
Qed.

Lemma digits_unique m k :
  0 <= k -> 2 ^ (k - 1) <= Z.pos m < 2 ^ k -> 0 < k -> Z.pos (digits2_pos m) = k.
Proof.
  intros Hk0 Hm Hk. pose proof (digits_bounds m) as Hd.
  set (j := Z.pos (digits2_pos m)) in *. assert (0 < j) by lia.
  destruct (Z.lt_trichotomy j k) as [C|[C|C]]; [exfalso| done |exfalso].
  - assert (2 ^ j <= 2 ^ (k - 1)) by (apply Z.pow_le_mono_r; lia). lia.
  - assert (2 ^ k <= 2 ^ (j - 1)) by (apply Z.pow_le_mono_r; lia). lia.
Qed.


Lemma digits_lower m k : 0 <= k -> 2 ^ k <= Z.pos m -> k + 1 <= Z.pos (digits2_pos m).
Proof.
  intros Hk Hm. pose proof (digits_bounds m) as Hd.
  destruct (Z.le_gt_cases (k + 1) (Z.pos (digits2_pos m))) as [|C]; [done|exfalso].
  assert (2 ^ Z.pos (digits2_pos m) <= 2 ^ k) by (apply Z.pow_le_mono_r; lia). lia.
Qed.

Lemma digits_upper m k : 0 < k -> Z.pos m < 2 ^ k -> Z.pos (digits2_pos m) <= k.
Proof.
  intros Hk Hm. pose proof (digits_bounds m) as Hd.
  destruct (Z.le_gt_cases (Z.pos (digits2_pos m)) k) as [|C]; [done|exfalso].
  assert (2 ^ k <= 2 ^ (Z.pos (digits2_pos m) - 1)) by (apply Z.pow_le_mono_r; lia). lia.
Qed.

(** A positive float in canonical form, away from the subnormals. *)
Definition normal (m : positive) (e : Z) : Prop :=
  2 ^ 52 <= Z.pos m < 2 ^ 53 /\ -1074 <= e <= 971.

Lemma normal_digits m e : normal m e -> Z.pos (digits2_pos m) = 53.
Proof. intros [Hm _]. apply digits_unique; [lia|exact Hm|lia]. Qed.

Lemma shr_fexp_normal m e : normal m e ->
  shr_fexp prec emax (Z.pos m) e loc_Exact = (shr_record_of_loc (Z.pos m) loc_Exact, e).
Proof.
  intros Hn. unfold shr_fexp, Zdigits2. rewrite (normal_digits m e Hn).
  unfold fexp, emin, prec, emax. destruct Hn as [_ He].
  by replace (Z.max (53 + e - 53) (3 - 1024 - 53) - e) with 0 by lia.
Qed.

Lemma shr_fexp_first n d e k :
  0 <= n -> 0 < d -> 0 <= k -> 2 ^ (52 + k) <= n / d < 2 ^ (53 + k) -> -1074 <= e + k ->
  shr_fexp prec emax (n / d) e (loc_of n d) = (shr_of n (d * 2 ^ k), e + k).
Proof.
  intros Hn Hd Hk Hq He. unfold shr_fexp.
  assert (0 < 2 ^ (52 + k)) by (apply Z.pow_pos_nonneg; lia).
  assert (Zdigits2 (n / d) = 53 + k) as ->.
  { destruct (n / d) as [|p|p]; [lia| |lia]. simpl. apply digits_unique; [lia| |lia].
    by replace (53 + k - 1) with (52 + k) by lia. }
  unfold fexp, emin, prec, emax.
  replace (Z.max (53 + k + e - 53) (3 - 1024 - 53) - e) with k by lia.
  fold (shr_of n d). unfold shr.
  destruct k as [|p|p]; [|by rewrite iter_shr_1|lia].
  by rewrite Z.mul_1_r, Z.add_0_r.
Qed.

(** The rounding step of every operation of [SpecFloat], on the exact result [n / d]
    scaled by [2 ^ e]: the mantissa is [n / d] rounded to 53 bits, to nearest, ties to
    even. *)
Lemma round_aux_spec s n d e k m :
  0 <= n -> 0 < d -> 0 <= k -> 2 ^ (52 + k) <= n / d < 2 ^ (53 + k) ->
  normal m (e + k) -> rne n (d * 2 ^ k) = Z.pos m ->
  binary_round_aux prec emax s (n / d) e (loc_of n d) = S754_finite s m (e + k).
Proof.
  intros Hn Hd Hk Hq Hm Hr. unfold binary_round_aux.
  rewrite (shr_fexp_first n d e k) by (try done; apply Hm).
  rewrite round_shr_of, Hr by (assert (0 < 2 ^ k) by (apply Z.pow_pos_nonneg; lia); nia).
  rewrite shr_fexp_normal by done. cbn [shr_m shr_record_of_loc].
  destruct (Z.leb_spec (e + k) (emax - prec)) as [|C]; [done|].
  unfold normal, emax, prec in *. lia.
Qed.

(** When rounding carries into the next binade the mantissa is [2 ^ 52] there. *)
Lemma round_aux_carry s n d e k :
  0 <= n -> 0 < d -> 0 <= k -> 2 ^ (52 + k) <= n / d < 2 ^ (53 + k) ->
  -1074 <= e + k < 971 -> rne n (d * 2 ^ k) = 2 ^ 53 ->
  binary_round_aux prec emax s (n / d) e (loc_of n d) =
    S754_finite s (Z.to_pos (2 ^ 52)) (e + k + 1).
Proof.
  intros Hn Hd Hk Hq He Hr. unfold binary_round_aux.
  rewrite (shr_fexp_first n d e k) by (try done; lia).
  rewrite round_shr_of, Hr by (assert (0 < 2 ^ k) by (apply Z.pow_pos_nonneg; lia); nia).
  unfold shr_fexp. change (Zdigits2 (2 ^ 53)) with 54.
  unfold fexp, emin, prec, emax.
  replace (Z.max (54 + (e + k) - 53) (3 - 1024 - 53) - (e + k)) with 1 by lia.
  cbn -[Z.leb Z.add]. destruct (Z.leb_spec (e + k + 1) (1024 - 53)) as [|C]; [done|lia].
Qed.

(** The exact case: no digits are lost. *)
Lemma loc_of_1 n : loc_of n 1 = loc_Exact.
Proof. unfold loc_of. by rewrite Z.mod_1_r. Qed.

Lemma round_aux_exact s n e k m :
  0 <= k -> normal m (e + k) -> n = Z.pos m * 2 ^ k ->
  binary_round_aux prec emax s n e loc_Exact = S754_finite s m (e + k).
Proof.
  intros Hk Hm ->. assert (0 < 2 ^ k) by (apply Z.pow_pos_nonneg; lia).
  rewrite <- (Z.div_1_r (Z.pos m * 2 ^ k)), <- (loc_of_1 (Z.pos m * 2 ^ k)).
  apply round_aux_spec; [nia|lia|done| |done|].
  - rewrite Z.div_1_r, !(Z.add_comm _ k), !Z.pow_add_r by lia. destruct Hm; nia.
  - rewrite Z.mul_1_l. unfold rne. rewrite Z.div_mul, Z.mod_mul by lia.
    by replace (2 * 0 ?= 2 ^ k) with Lt by (symmetry; apply Z.compare_lt_iff; lia).
Qed.

(** ** Integers as floats *)

Lemma iter_xO p q : Z.pos (Pos.iter xO p q) = Z.pos p * 2 ^ Z.pos q.
Proof.
  induction q as [|q IH] using Pos.peano_ind; [simpl; lia|].
  rewrite Pos.iter_succ, Pos2Z.inj_succ, Z.pow_succ_r by lia.
  rewrite Pos2Z.inj_xO, IH. lia.
Qed.

(** The canonical float of a positive integer below [2 ^ 53]: the mantissa is
    normalised to 53 bits. *)
Lemma of_Z_small n : 0 < n < 2 ^ 53 -> exists m e,
  of_Z n = S754_finite false m e /\ normal m e /\ -52 <= e <= 0 /\ Z.pos m = n * 2 ^ (- e).
Proof.
  intros [Hn0 Hn]. destruct n as [|p|p]; [lia| |lia].
  pose proof (digits_bounds p) as Hb.
  pose proof (digits_upper p 53 ltac:(lia) Hn) as Hd.
  set (D := Z.pos (digits2_pos p)) in *. assert (1 <= D) by lia.
  assert (Hm : 2 ^ 52 <= Z.pos p * 2 ^ (53 - D) < 2 ^ 53).
  { replace (2 ^ 52) with (2 ^ (D - 1) * 2 ^ (53 - D)) by (rewrite <- Z.pow_add_r by lia; f_equal; lia).
    replace (2 ^ 53) with (2 ^ D * 2 ^ (53 - D)) by (rewrite <- Z.pow_add_r by lia; f_equal; lia).
    assert (0 < 2 ^ (53 - D)) by (apply Z.pow_pos_nonneg; lia). nia. }
  exists (Z.to_pos (Z.pos p * 2 ^ (53 - D))), (D - 53).
  assert (Hnorm : normal (Z.to_pos (Z.pos p * 2 ^ (53 - D))) (D - 53)).
  { split; [rewrite Z2Pos.id by lia; lia|lia]. }
  split_and!; [|done|lia|lia|rewrite Z2Pos.id by lia; do 2 f_equal; lia].
  unfold of_Z, binary_normalize, binary_round, shl_align. fold D.
  unfold fexp, emin, prec, emax.
  replace (Z.max (D + 0 - 53) (3 - 1024 - 53) - 0) with (D - 53) by lia.
  replace (Z.max (D + 0 - 53) (3 - 1024 - 53)) with (D - 53) by lia.
  destruct (D - 53) as [|q|q] eqn:Hs; [|lia|].
  - rewrite <- (Z.add_0_r 0). apply round_aux_exact; [lia| |].
    + by rewrite Z.add_0_r.
    + rewrite Z.pow_0_r, Z.mul_1_r, Z2Pos.id by lia.
      replace (53 - D) with 0 by lia. lia.
  - rewrite <- (Z.add_0_r (Z.neg q)). apply round_aux_exact; [lia| |].
    + by rewrite Z.add_0_r.
    + rewrite Z.pow_0_r, Z.mul_1_r, Z2Pos.id by lia.
      replace (53 - D) with (Z.pos q) by lia. apply iter_xO.
Qed.

(** The mantissa normalised to 53 bits of an integer, and its exponent. *)
Lemma of_Z_normal_eq n m e :
  0 < n < 2 ^ 53 -> normal m e -> -52 <= e <= 0 -> Z.pos m = n * 2 ^ (- e) ->
  of_Z n = S754_finite false m e.
Proof.
  intros Hn [Hm He] He0 Hv.
  destruct (of_Z_small n Hn) as (m' & e' & -> & [Hm' _] & He' & Hv').
  assert (e = e') as ->.
  { destruct (Z.lt_trichotomy e e') as [C|[C|C]]; [exfalso|done|exfalso].
    - assert (2 ^ (- e) = 2 ^ (- e') * 2 ^ (e' - e)) as Hp
        by (rewrite <- Z.pow_add_r by lia; f_equal; lia).
      assert (2 ^ 1 <= 2 ^ (e' - e)) by (apply Z.pow_le_mono_r; lia).
      change (2 ^ 53) with (2 * 2 ^ 52) in *. nia.
    - assert (2 ^ (- e') = 2 ^ (- e) * 2 ^ (e - e')) as Hp
        by (rewrite <- Z.pow_add_r by lia; f_equal; lia).
      assert (2 ^ 1 <= 2 ^ (e - e')) by (apply Z.pow_le_mono_r; lia).
      change (2 ^ 53) with (2 * 2 ^ 52) in *. nia. }
  f_equal. lia.
Qed.

(** ** The tenths grid: [fl(fl(t / 10) * 10) = t] *)

Lemma of_ratio_10 p : Z.pos p < 2 ^ 53 ->
  let D := Z.pos (digits2_pos p) in
  of_ratio p 10 = binary_round_aux prec emax false
    (Z.pos p * 2 ^ (57 - D) / 10) (D - 57) (loc_of (Z.pos p * 2 ^ (57 - D)) 10).
Proof.
  intros Hp D. pose proof (digits_upper p 53 ltac:(lia) Hp) as HD. fold D in HD.
  assert (1 <= D) by lia.
  assert (He : Z.min (fexp prec emax (Zdigits2 (Z.pos p) + 0 - (Zdigits2 10 + 0))) (0 - 0) = D - 57).
  { change (Zdigits2 (Z.pos p)) with D. change (Zdigits2 10) with 4.
    unfold fexp, emin, prec, emax. lia. }
  unfold of_ratio, SFdiv_core_binary. rewrite He.
  replace (0 - 0 - (D - 57)) with (57 - D) by lia.
  destruct (57 - D) as [|q|q] eqn:Hq; [lia| |lia].
  rewrite Z.shiftl_mul_pow2 by lia. unfold Z.div, loc_of, Z.modulo.
  destruct (Z.div_eucl (Z.pos p * 2 ^ Z.pos q) 10) as [a b].
  unfold new_location. change (Z.even 10) with true. cbn iota.
  unfold new_location_even. by destruct (b =? 0).
Qed.

Lemma tick_binade t D : 0 < t -> 1 <= D -> D <= 53 -> 2 ^ (D - 1) <= t < 2 ^ D ->
  2 ^ 52 <= t * 2 ^ (53 - D) < 2 ^ 53.
Proof.
  intros Ht HD HD' Hb.
  replace (2 ^ 52) with (2 ^ (D - 1) * 2 ^ (53 - D)) by (rewrite <- Z.pow_add_r by lia; f_equal; lia).
  replace (2 ^ 53) with (2 ^ D * 2 ^ (53 - D)) by (rewrite <- Z.pow_add_r by lia; f_equal; lia).
  assert (0 < 2 ^ (53 - D)) by (apply Z.pow_pos_nonneg; lia). nia.
Qed.

(** The quotient's mantissa [mq], whose exponent is [D - 57 + n], for the two positions
    of the binade: [n = 0] below [10 * 2 ^ 49], [n = 1] from there on. *)
Lemma of_ratio_10_mant p D M n :
  D = Z.pos (digits2_pos p) -> Z.pos p < 2 ^ 53 -> M = Z.pos p * 2 ^ (53 - D) ->
  (n = 0 /\ M < 10 * 2 ^ 49) \/ (n = 1 /\ 10 * 2 ^ 49 <= M) ->
  exists mq, of_ratio p 10 = S754_finite false mq (D - 57 + n) /\
    normal mq (D - 57 + n) /\ rne (16 * M) (10 * 2 ^ n) = Z.pos mq.
Proof.
  intros HD Hp HM Hn.
  pose proof (digits_upper p 53 ltac:(lia) Hp) as HD53. pose proof (digits_bounds p) as Hb.
  rewrite <- HD in *. assert (1 <= D) by lia.
  pose proof (tick_binade (Z.pos p) D ltac:(lia) ltac:(lia) HD53 Hb) as HMb. rewrite <- HM in HMb.
  assert (H16 : Z.pos p * 2 ^ (57 - D) = 16 * M).
  { replace (57 - D) with (53 - D + 4) by lia. rewrite HM, Z.pow_add_r by lia.
    change (2 ^ 4) with 16. ring. }
  assert (Hn01 : 0 <= n <= 1 /\ (2 ^ n = 1 \/ 2 ^ n = 2)) by (destruct Hn as [[-> _]|[-> _]]; lia).
  assert (Hrange : 2 ^ 52 <= rne (16 * M) (10 * 2 ^ n) < 2 ^ 53).
  { pose proof (rne_bound (16 * M) (10 * 2 ^ n) ltac:(lia)).
    destruct Hn as [[-> ?]|[-> ?]]; lia. }
  exists (Z.to_pos (rne (16 * M) (10 * 2 ^ n))).
  assert (Hnorm : normal (Z.to_pos (rne (16 * M) (10 * 2 ^ n))) (D - 57 + n)).
  { split; [rewrite Z2Pos.id by lia; lia|lia]. }
  split_and!; [|done|by rewrite Z2Pos.id by lia].
  rewrite of_ratio_10 by done. rewrite <- HD, H16.
  apply round_aux_spec; [lia|lia|lia| |done|by rewrite Z2Pos.id by lia].
  destruct Hn as [[-> Hlt]|[-> Hge]]; split.
  - apply Z.div_le_lower_bound; lia.
  - apply Z.div_lt_upper_bound; lia.
  - apply Z.div_le_lower_bound; lia.
  - apply Z.div_lt_upper_bound; lia.
Qed.

Lemma of_Z_10 : of_Z 10 = S754_finite false 5629499534213120 (-49).
Proof. reflexivity. Qed.

(** Multiplying the float nearest to [t / 10] by ten gives back the float of [t]. *)
Theorem tenth_scaled p :
  Z.pos p < 10 * 2 ^ 49 -> mul (of_ratio p 10) (of_Z 10) = of_Z (Z.pos p).
Proof.
  intros Hp. assert (Hp53 : Z.pos p < 2 ^ 53) by lia.
  remember (Z.pos (digits2_pos p)) as D eqn:HD.
  pose proof (digits_upper p 53 ltac:(lia) Hp53) as HD53. pose proof (digits_bounds p) as Hb.
  rewrite <- HD in *. assert (1 <= D) by lia.
  pose proof (tick_binade (Z.pos p) D ltac:(lia) ltac:(lia) HD53 Hb) as HMb.
  remember (Z.pos p * 2 ^ (53 - D)) as M eqn:HM.
  assert (Hpos : Z.pos (Z.to_pos M) = M) by (apply Z2Pos.id; lia).
  rewrite (of_Z_normal_eq (Z.pos p) (Z.to_pos M) (D - 53));
    [|lia|split; lia|lia|rewrite Hpos, HM; do 2 f_equal; lia].
  assert (Hev : 10 * 2 ^ 49 <= M -> Z.even M = true).
  { intros HMge. assert (D <= 52).
    { destruct (Z.eq_dec D 53) as [->|]; [|lia]. exfalso. change (2 ^ (53 - 53)) with 1 in HM. lia. }
    rewrite HM. replace (53 - D) with (1 + (52 - D)) by lia. rewrite Z.pow_add_r by lia.
    replace (Z.pos p * (2 ^ 1 * 2 ^ (52 - D))) with (2 * (Z.pos p * 2 ^ (52 - D))) by lia.
    apply Z.even_even. }
  assert (exists n, (n = 0 /\ M < 10 * 2 ^ 49) \/ (n = 1 /\ 10 * 2 ^ 49 <= M)) as [n Hn]
    by (destruct (Z.lt_ge_cases M (10 * 2 ^ 49)); eauto).
  destruct (of_ratio_10_mant p D M n HD Hp53 HM Hn) as (mq & -> & [Hmq _] & Hrne).
  rewrite of_Z_10. unfold mul, SFmul. cbn [xorb].
  assert (Hn01 : 0 <= n <= 1 /\ (2 ^ n = 1 \/ 2 ^ n = 2)) by (destruct Hn as [[-> _]|[-> _]]; lia).
  pose proof (rne_bound (16 * M) (10 * 2 ^ n) ltac:(lia)) as Hbd. rewrite Hrne in Hbd.
  rewrite <- (Z.div_1_r (Z.pos (mq * _))), <- (loc_of_1 (Z.pos (mq * 5629499534213120))).
  replace (D - 53) with (D - 57 + n + -49 + (53 - n)) by lia.
  assert (Hmul : Z.pos (mq * 5629499534213120) = 10 * Z.pos mq * 2 ^ 49) by lia.
  rewrite Hmul.
  apply round_aux_spec; [lia|lia|lia| |split; lia|].
  - rewrite Z.div_1_r. destruct Hn as [[-> ?]|[-> ?]].
    + change (2 ^ (52 + (53 - 0))) with (2 ^ 56 * 2 ^ 49).
      change (2 ^ (53 + (53 - 0))) with (2 ^ 57 * 2 ^ 49).
      destruct (Z.eq_dec M (2 ^ 52)) as [HMe|]; [|lia].
      rewrite HMe in Hrne. vm_compute in Hrne. lia.
    + change (2 ^ (52 + (53 - 1))) with (2 ^ 55 * 2 ^ 49).
      change (2 ^ (53 + (53 - 1))) with (2 ^ 56 * 2 ^ 49). lia.
  - rewrite Z.mul_1_l, Hpos. apply rne_unique; [apply Z.pow_pos_nonneg; lia|].
    destruct Hn as [[-> ?]|[-> ?]].
    + left. change (2 ^ (53 - 0)) with (16 * 2 ^ 49). lia.
    + change (2 ^ (53 - 1)) with (8 * 2 ^ 49).
      destruct (Z.eq_dec (Z.abs (10 * Z.pos mq - 8 * M)) 4); [right; split; [lia|by apply Hev]|left; lia].
Qed.


(** ** Integral floats *)

(** [f] is normal and its value is an integer. *)
Definition integral (f : py_float) : Prop :=
  exists m e, f = S754_finite false m e /\ normal m e /\
    (0 <= e \/ (-52 <= e < 0 /\ Z.pos m mod 2 ^ (- e) = 0)).

Lemma of_Z_shift m e : normal m e -> 0 <= e -> of_Z (Z.pos m * 2 ^ e) = S754_finite false m e.
Proof.
  intros Hm He. assert (0 < 2 ^ e) by (apply Z.pow_pos_nonneg; lia).
  destruct (Z.pos m * 2 ^ e) as [|q|q] eqn:Hq; [lia| |lia].
  unfold of_Z, binary_normalize, binary_round.
  assert (Z.pos (digits2_pos q) = 53 + e) as ->.
  { apply digits_unique; [lia| |lia]. rewrite <- Hq. destruct Hm as [Hm _].
    replace (53 + e - 1) with (52 + e) by lia. rewrite !Z.pow_add_r by lia. nia. }
  unfold fexp, emin. replace (Z.max (53 + e + 0 - prec) (3 - emax - prec)) with e
    by (unfold prec, emax; lia).
  assert (shl_align q 0 e = (q, 0)) as ->.
  { unfold shl_align. rewrite Z.sub_0_r. destruct e; [done|done|lia]. }
  rewrite <- (Z.add_0_l e). apply round_aux_exact; [done|by rewrite Z.add_0_l|done].
Qed.

Lemma of_Z_round_int f : integral f -> of_Z (round_int f) = f.
Proof.
  intros (m & e & -> & Hm & [He|[He Hdiv]]); unfold round_int, signed.
  - destruct (Z.leb_spec 0 e); [|lia]. by apply of_Z_shift.
  - destruct (Z.leb_spec 0 e); [lia|].
    assert (0 < 2 ^ (- e)) by (apply Z.pow_pos_nonneg; lia).
    pose proof (Z_div_mod_eq_full (Z.pos m) (2 ^ (- e))) as Hq. rewrite Hdiv, Z.add_0_r in Hq.
    assert (Hr : rne (Z.pos m) (2 ^ (- e)) = Z.pos m / 2 ^ (- e)).
    { apply rne_unique; [done|]. left. lia. }
    rewrite Hr. destruct Hm as [Hm He'].
    assert (2 ^ 1 <= 2 ^ (- e)) by (apply Z.pow_le_mono_r; lia).
    apply of_Z_normal_eq; [nia|by split|lia|lia].
Qed.

Lemma sub_diag f : is_finite f = true -> sub f f = S754_zero false.
Proof.
  destruct f as [[]| | |[] m e]; try done; intros _; unfold sub, SFsub;
    rewrite Z.min_id, Z.sub_diag; done.
Qed.

(** Scaling an integer by ten stays integral, with or without rounding. *)
Lemma mul_10_integral n : 0 < n < 2 ^ 53 -> integral (mul (of_Z n) (of_Z 10)).
Proof.
  intros Hn. destruct (of_Z_small n Hn) as (m & e & -> & [Hm He] & He0 & Hv).
  rewrite of_Z_10. unfold mul, SFmul. cbn [xorb].
  assert (HX : Z.pos (m * 5629499534213120) = 10 * Z.pos m * 2 ^ 49) by lia. rewrite HX.
  assert (exists c, 3 <= c <= 4 /\ 2 ^ (52 + c) <= 10 * Z.pos m < 2 ^ (53 + c)) as (c & Hc & Hb).
  { destruct (Z.lt_ge_cases (10 * Z.pos m) (2 ^ 56)); [exists 3|exists 4]; lia. }
  assert (Hpc : 2 ^ (49 + c) = 2 ^ 49 * 2 ^ c) by (apply Z.pow_add_r; lia).
  assert (H8 : 8 <= 2 ^ c <= 16).
  { split; [change 8 with (2 ^ 3)|change 16 with (2 ^ 4)]; apply Z.pow_le_mono_r; lia. }
  destruct (Z.le_gt_cases 0 (e + c)) as [Hec|Hec].
  - (* the exponent of the result is non-negative *)
    assert (Hrange : 2 ^ 52 <= rne (10 * Z.pos m * 2 ^ 49) (1 * 2 ^ (49 + c)) <= 2 ^ 53).
    { rewrite Z.mul_1_l. pose proof (rne_bound (10 * Z.pos m * 2 ^ 49) (2 ^ (49 + c)) ltac:(lia)).
      rewrite !Z.pow_add_r in Hb by lia. rewrite Hpc in *. nia. }
    rewrite <- (Z.div_1_r (10 * Z.pos m * 2 ^ 49)), <- (loc_of_1 (10 * Z.pos m * 2 ^ 49)).
    assert (Hk : 2 ^ (52 + (49 + c)) <= 10 * Z.pos m * 2 ^ 49 / 1 < 2 ^ (53 + (49 + c))).
    { rewrite Z.div_1_r. rewrite !Z.pow_add_r in * by lia. nia. }
    destruct (Z.eq_dec (rne (10 * Z.pos m * 2 ^ 49) (1 * 2 ^ (49 + c))) (2 ^ 53)) as [E|E].
    + rewrite (round_aux_carry _ _ _ _ (49 + c)) by (try done; lia).
      eexists _, _. split; [done|]. split; [split; [done|lia]|left; lia].
    + rewrite (round_aux_spec _ _ _ _ (49 + c)
        (Z.to_pos (rne (10 * Z.pos m * 2 ^ 49) (1 * 2 ^ (49 + c))))); [|lia|lia|lia|done| |].
      * eexists _, _. split; [done|]. split; [split; [rewrite Z2Pos.id by lia; lia|lia]|left; lia].
      * split; [rewrite Z2Pos.id by lia; lia|lia].
      * by rewrite Z2Pos.id by lia.
  - (* enough trailing zeros: nothing is lost *)
    assert (Hz : Z.pos m = n * 2 ^ (- e - c) * 2 ^ c).
    { rewrite Hv, <- Z.mul_assoc, <- Z.pow_add_r by lia. do 2 f_equal. lia. }
    assert (Hm' : 2 ^ 52 <= 10 * (n * 2 ^ (- e - c)) < 2 ^ 53).
    { rewrite !Z.pow_add_r in Hb by lia. nia. }
    rewrite (round_aux_exact _ _ _ (49 + c) (Z.to_pos (10 * (n * 2 ^ (- e - c))))).
    + eexists _, _. split; [done|]. split; [split; [rewrite Z2Pos.id by lia; lia|lia]|].
      right. split; [lia|]. rewrite Z2Pos.id by lia.
      replace (- (e + -49 + (49 + c))) with (- e - c) by lia.
      rewrite Z.mul_assoc. apply Z.mod_mul. pose proof (Z.pow_pos_nonneg 2 (- e - c)). lia.
    + lia.
    + split; [rewrite Z2Pos.id by lia; lia|lia].
    + rewrite Z2Pos.id by lia. rewrite Hpc, Hz. ring.
Qed.

(** Scaling an integer by ten is exact as long as the product fits 53 bits. *)
Lemma mul_10_small n : 0 < n -> 10 * n < 2 ^ 53 -> mul (of_Z n) (of_Z 10) = of_Z (10 * n).
Proof.
  intros Hn Hn10. destruct (of_Z_small n ltac:(lia)) as (m & e & -> & [Hm He] & He0 & Hv).
  rewrite of_Z_10. unfold mul, SFmul. cbn [xorb].
  assert (HX : Z.pos (m * 5629499534213120) = 10 * Z.pos m * 2 ^ 49) by lia. rewrite HX.
  assert (exists c, 3 <= c <= 4 /\ 2 ^ (52 + c) <= 10 * Z.pos m < 2 ^ (53 + c)) as (c & Hc & Hb).
  { destruct (Z.lt_ge_cases (10 * Z.pos m) (2 ^ 56)); [exists 3|exists 4]; lia. }
  assert (Hec : e + c <= 0).
  { destruct (Z.le_gt_cases (e + c) 0) as [|C]; [done|exfalso].
    assert (2 ^ (- e) <= 2 ^ (c - 1)) by (apply Z.pow_le_mono_r; lia).
    assert (2 ^ (52 + c) = 2 ^ 53 * 2 ^ (c - 1)) by (rewrite <- Z.pow_add_r by lia; f_equal; lia).
    nia. }
  assert (Hz : Z.pos m = n * 2 ^ (- e - c) * 2 ^ c).
  { rewrite Hv, <- Z.mul_assoc, <- Z.pow_add_r by lia. do 2 f_equal. lia. }
  assert (Hm' : 2 ^ 52 <= 10 * n * 2 ^ (- e - c) < 2 ^ 53).
  { assert (0 < 2 ^ c) by (apply Z.pow_pos_nonneg; lia).
    rewrite !Z.pow_add_r in Hb by lia. nia. }
  assert (Hnorm : normal (Z.to_pos (10 * n * 2 ^ (- e - c))) (e + c)).
  { split; [rewrite Z2Pos.id by lia; lia|lia]. }
  rewrite (of_Z_normal_eq (10 * n) (Z.to_pos (10 * n * 2 ^ (- e - c))) (e + c));
    [|lia|done|lia|rewrite Z2Pos.id by lia; do 2 f_equal; lia].
  replace (e + c) with (e + -49 + (49 + c)) by lia.
  apply round_aux_exact; [lia| |].
  - by replace (e + -49 + (49 + c)) with (e + c) by lia.
  - rewrite Z2Pos.id by lia. rewrite (Z.pow_add_r 2 49 c), Hz by lia. ring.
Qed.

(** From [2 ^ 53] up (and below the overflow threshold) a float of an [int] is a normal
    float of exponent at least one. *)
Lemma of_Z_big n : 2 ^ 53 <= n < 2 ^ 1023 -> exists m e,
  of_Z n = S754_finite false m e /\ normal m e /\ 1 <= e.
Proof.
  intros [Hn0 Hn]. destruct n as [|p|p]; [lia| |lia].
  pose proof (digits_lower p 53 ltac:(lia) Hn0) as Hl.
  pose proof (digits_upper p 1023 ltac:(lia) Hn) as Hu.
  pose proof (digits_bounds p) as Hb.
  unfold of_Z, binary_normalize, binary_round. set (D := Z.pos (digits2_pos p)) in *.
  unfold fexp, emin. replace (Z.max (D + 0 - prec) (3 - emax - prec)) with (D - 53)
    by (unfold prec, emax; lia).
  assert (shl_align p 0 (D - 53) = (p, 0)) as ->.
  { unfold shl_align. rewrite Z.sub_0_r. by destruct (D - 53) eqn:?; [lia| |lia]. }
  assert (Hpk : 2 ^ (D - 1) = 2 ^ 52 * 2 ^ (D - 53) /\ 2 ^ D = 2 ^ 53 * 2 ^ (D - 53)).
  { rewrite <- !Z.pow_add_r by lia. split; f_equal; lia. }
  assert (0 < 2 ^ (D - 53)) by (apply Z.pow_pos_nonneg; lia).
  assert (Hrange : 2 ^ 52 <= rne (Z.pos p) (1 * 2 ^ (D - 53)) <= 2 ^ 53).
  { rewrite Z.mul_1_l. pose proof (rne_bound (Z.pos p) (2 ^ (D - 53)) ltac:(lia)). nia. }
  rewrite <- (Z.div_1_r (Z.pos p)), <- (loc_of_1 (Z.pos p)).
  assert (Hk : 2 ^ (52 + (D - 53)) <= Z.pos p / 1 < 2 ^ (53 + (D - 53))).
  { rewrite Z.div_1_r, !Z.pow_add_r by lia. lia. }
  destruct (Z.eq_dec (rne (Z.pos p) (1 * 2 ^ (D - 53))) (2 ^ 53)) as [E|E].
  - rewrite (round_aux_carry _ _ _ _ (D - 53)) by (try done; lia).
    eexists _, _. split; [done|]. split; [split; [done|lia]|lia].
  - rewrite (round_aux_spec _ _ _ _ (D - 53) (Z.to_pos (rne (Z.pos p) (1 * 2 ^ (D - 53)))));
      [|lia|lia|lia|done| |].
    + eexists _, _. split; [done|]. split; [split; [rewrite Z2Pos.id by lia; lia|lia]|lia].
    + split; [rewrite Z2Pos.id by lia; lia|lia].
    + by rewrite Z2Pos.id by lia.
Qed.


(** Negation only flips the sign. *)
Lemma of_Z_neg p : of_Z (Z.neg p) = SFopp (of_Z (Z.pos p)).
Proof.
  unfold of_Z, binary_normalize, binary_round. destruct (shl_align _ _ _) as [mz ez].
  unfold binary_round_aux. destruct (shr_fexp _ _ _ _ _) as [r1 e1].
  destruct (shr_fexp _ _ _ _ _) as [r2 e2].
  destruct (shr_m r2); [done| |done]. by destruct (e2 <=? emax - prec).
Qed.

End Float.
