(* ===== verification/PyValue.v ===== *)
(** * Dynamically typed Python values and their text.

    JSON-shaped values ([pyval]), the number predicates the sources apply to them, the
    decimal text of [int] and [float] ([str]), and the parsing of decimal literals
    ([float(text)]).  Strings are ASCII. *)
From S2P Require Import Prelude PyFloat.
From stdpp Require Export strings.
From Stdlib Require Export Ascii.
From Stdlib Require Import DecimalString DecimalN DecimalFacts.
From Corelib Require Import SpecFloat.
Open Scope Z_scope.

#[warnings="-register-all"]
Inductive pyval : Type :=
| PNone
| PBool (b : bool)
| PInt (z : Z)
| PFloat (f : py_float)
| PStr (s : string)
| PList (l : list pyval)
| PDict (d : list (string * pyval)).

(** [isinstance(v, (int, float)) and not isinstance(v, bool)] *)
Definition is_number (v : pyval) : bool :=
  match v with PInt _ | PFloat _ => true | _ => false end.

(** [float(v)] on a number; an [int] too large for a float raises [OverflowError]
    ([None] here). *)
Definition to_float (v : pyval) : option py_float :=
  match v with
  | PInt n => let f := Float.of_Z n in if Float.is_finite f then Some f else None
  | PFloat f => Some f
  | _ => None
  end.

(** [a + b] on numbers: [int] addition when both are [int], float addition otherwise. *)
Definition py_add (a b : pyval) : option pyval :=
  match a, b with
  | PInt x, PInt y => Some (PInt (x + y))
  | _, _ => x ← to_float a; y ← to_float b; Some (PFloat (Float.add x y))
  end.

(** [d.get(key)] on a dict. *)
Fixpoint dict_get (d : list (string * pyval)) (key : string) : option pyval :=
  match d with
  | [] => None
  | (k, v) :: d' => if bool_decide (k = key) then Some v else dict_get d' key
  end.

(** Induction through lists and dicts. *)
Section pyval_ind.
  Variable P : pyval -> Prop.
  Hypothesis (PHNone : P PNone) (PHBool : forall b, P (PBool b)) (PHInt : forall z, P (PInt z))
    (PHFloat : forall f, P (PFloat f)) (PHStr : forall s, P (PStr s))
    (PHList : forall l, Forall P l -> P (PList l))
    (PHDict : forall d, Forall (fun x => P x.2) d -> P (PDict d)).

Fixpoint pyval_ind' (v : pyval) : P v :=
    match v with
    | PNone => PHNone
    | PBool b => PHBool b
    | PInt z => PHInt z
    | PFloat f => PHFloat f
    | PStr s => PHStr s
    | PList l => PHList l ((fix go l : Forall P l := match l with
        | [] => Forall_nil_2 _ | x :: l' => Forall_cons_2 _ _ _ (pyval_ind' x) (go l') end) l)
    | PDict d => PHDict d ((fix go d : Forall (fun x => P x.2) d := match d with
        | [] => Forall_nil_2 _ | x :: d' => Forall_cons_2 _ _ _ (pyval_ind' x.2) (go d') end) d)
    end.
End pyval_ind.

(** [v == n], with Python's numeric equality. *)
Definition py_eq_int (v : pyval) (n : Z) : bool :=
  match v with
  | PInt z => z =? n
  | PBool b => Z.b2z b =? n
  | PFloat f => Float.is_integer f && (Float.trunc f =? n)
  | _ => false
  end.

Definition hashable (v : pyval) : bool :=
  match v with PList _ | PDict _ => false | _ => true end.

(** [bool(v)] *)
Definition truthy (v : pyval) : bool :=
  match v with
  | PNone => false
  | PBool b => b
  | PInt z => negb (z =? 0)
  | PFloat f => match f with S754_zero _ => false | _ => true end
  | PStr s => negb (bool_decide (s = EmptyString))
  | PList l => match l with [] => false | _ => true end
  | PDict d => match d with [] => false | _ => true end
  end.

(** ** The order of strings *)

Lemma string_leb_total a b : String.leb a b = false -> String.leb b a = true.
Proof. destruct (String.leb_total a b) as [H|H]; congruence. Qed.

Lemma string_leb_antisym a b : String.leb a b = true -> String.leb b a = true -> a = b.
Proof. apply String.leb_antisym. Qed.

Lemma string_leb_trans a : forall b c,
  String.leb a b = true -> String.leb b c = true -> String.leb a c = true.
Proof.
  induction a as [|x a IH]; intros [|y b] [|z c]; unfold String.leb; cbn; try done.
  unfold Ascii.compare.
  destruct (N.compare_spec (Ascii.N_of_ascii x) (Ascii.N_of_ascii y)) as [Exy|Exy|Exy]; try done;
  destruct (N.compare_spec (Ascii.N_of_ascii y) (Ascii.N_of_ascii z)) as [Eyz|Eyz|Eyz]; try done;
  destruct (N.compare_spec (Ascii.N_of_ascii x) (Ascii.N_of_ascii z)) as [Exz|Exz|Exz]; try done; try lia.
  apply IH.
Qed.

(** ** Text *)

(** ASCII whitespace, as [str.strip] removes it. *)
Definition is_space (c : Ascii.ascii) : bool :=
  let n := Ascii.nat_of_ascii c in
  ((9 <=? n) && (n <=? 13) || (28 <=? n) && (n <=? 32))%nat%bool.

Fixpoint lstrip (s : string) : string :=
  match s with
  | EmptyString => s
  | String c s' => if is_space c then lstrip s' else s
  end.

Fixpoint rstrip (s : string) : string :=
  match s with
  | EmptyString => s
  | String c s' =>
      match rstrip s' with
      | EmptyString => if is_space c then EmptyString else String c EmptyString
      | t => String c t
      end
  end.

Definition strip (s : string) : string := rstrip (lstrip s).

(** [str(n)] *)
Definition str_of_Z (n : Z) : string :=
  match n with
  | Z.neg p => String.append "-" (NilZero.string_of_uint (N.to_uint (N.pos p)))
  | _ => NilZero.string_of_uint (N.to_uint (Z.to_N n))
  end.

(** Split at the first ['.']. *)
Fixpoint split_dot (s : string) : string * option string :=
  match s with
  | EmptyString => (EmptyString, None)
  | String c s' =>
      if bool_decide (c = "."%char) then (EmptyString, Some s')
      else let '(a, b) := split_dot s' in (String c a, b)
  end.

(** A non-empty run of digits. *)
Definition digits (s : string) : option N :=
  match s with
  | EmptyString => None
  | _ => d ← NilEmpty.uint_of_string s; Some (N.of_uint d)
  end.

(** [^\d+(?:\.\d+)?$] : the integer written without its point and the number of digits
    after the point. *)
Definition decimal_text (s : string) : option (N * nat) :=
  match split_dot s with
  | (a, None) => n ← digits a; Some (n, 0%nat)
  | (a, Some b) =>
      n ← digits a; m ← digits b;
      Some ((n * 10 ^ N.of_nat (String.length b) + m)%N, String.length b)
  end.

(** [float(text)] of such a text: the nearest float to [n / 10 ^ k]. *)
Definition float_of_decimal (n : N) (k : nat) : py_float :=
  match n with
  | N0 => S754_zero false
  | N.pos p => Float.of_ratio p (Z.to_pos (10 ^ Z.of_nat k))
  end.

(** *** Reading back what was printed *)

(** Characters a decimal [int] is printed with. *)
Fixpoint all_digits (s : string) : bool :=
  match s with
  | EmptyString => true
  | String c s' => negb (is_space c) && bool_decide (c <> "."%char) && all_digits s'
  end.

Lemma all_digits_of_uint d : all_digits (NilEmpty.string_of_uint d) = true.
Proof. induction d; simpl; rewrite ?IHd; reflexivity. Qed.

Lemma str_of_nat_uint n :
  0 <= n -> exists d, str_of_Z n = NilEmpty.string_of_uint d /\ d <> Decimal.Nil /\
    N.of_uint d = Z.to_N n.
Proof.
  intros Hn. exists (N.to_uint (Z.to_N n)).
  assert (Hnil : N.to_uint (Z.to_N n) <> Decimal.Nil).
  { destruct (Z.to_N n); [done|apply DecimalPos.Unsigned.to_uint_nonnil]. }
  split_and!; [|done|apply DecimalN.Unsigned.of_to].
  unfold str_of_Z, NilZero.string_of_uint.
  destruct n; [..|lia]; by destruct (N.to_uint _).
Qed.

Lemma digits_str_of_Z n : 0 <= n -> digits (str_of_Z n) = Some (Z.to_N n).
Proof.
  intros Hn. destruct (str_of_nat_uint n Hn) as (d & -> & Hnil & <-).
  unfold digits. rewrite NilEmpty.usu. by destruct d.
Qed.

Lemma all_digits_str_of_Z n : 0 <= n -> all_digits (str_of_Z n) = true.
Proof. intros Hn. destruct (str_of_nat_uint n Hn) as (d & -> & _). apply all_digits_of_uint. Qed.

Lemma str_of_Z_nonempty n : 0 <= n -> str_of_Z n <> EmptyString.
Proof. intros Hn. destruct (str_of_nat_uint n Hn) as (d & -> & Hnil & _). by destruct d. Qed.

Lemma split_dot_app a b :
  all_digits a = true -> split_dot (String.append a (String "."%char b)) = (a, Some b).
Proof.
  induction a as [|c a IH]; simpl; [done|]. intros H. to_prop.
  rewrite bool_decide_eq_false_2 by done. by rewrite IH.
Qed.

(** A text whose first and last characters are not spaces is already stripped. *)
Fixpoint no_space (s : string) : bool :=
  match s with
  | EmptyString => true
  | String c s' => negb (is_space c) && no_space s'
  end.

Lemma strip_no_space s : no_space s = true -> strip s = s.
Proof.
  intros H. unfold strip.
  assert (lstrip s = s) as ->.
  { destruct s as [|c s]; [done|]. simpl in *. to_prop. by rewrite H. }
  induction s as [|c s IH]; [done|]. simpl in *. to_prop. rewrite IH by done.
  destruct s; [by rewrite H|done].
Qed.

Lemma no_space_app a b :
  no_space a = true -> no_space b = true -> no_space (String.append a b) = true.
Proof. induction a as [|c a IH]; simpl; [done|]. intros ? ?. to_prop. by rewrite H, IH. Qed.

Lemma all_digits_no_space a : all_digits a = true -> no_space a = true.
Proof. induction a as [|c a IH]; simpl; [done|]. intros ?. to_prop. by rewrite H, IH. Qed.

(** The text [q.r] of a number of tenths. *)
Definition tenths_text (t : Z) : string :=
  String.append (str_of_Z (t / 10)) (String "."%char (str_of_Z (t mod 10))).

Lemma digit_length r : 0 <= r < 10 -> String.length (str_of_Z r) = 1%nat.
Proof.
  intros Hr. assert (r ∈ [0;1;2;3;4;5;6;7;8;9]) as Hin by (rewrite !elem_of_cons; lia).
  clear Hr. revert r Hin. apply Forall_forall. repeat constructor.
Qed.

Lemma decimal_tenths_text t : 0 <= t -> decimal_text (tenths_text t) = Some (Z.to_N t, 1%nat).
Proof.
  intros Ht. pose proof (Z.div_pos t 10 Ht ltac:(lia)) as Hq.
  pose proof (Z.mod_pos_bound t 10 ltac:(lia)) as Hr.
  unfold decimal_text, tenths_text.
  rewrite split_dot_app by by apply all_digits_str_of_Z.
  rewrite !digits_str_of_Z by lia. simpl. rewrite digit_length by lia.
  do 2 f_equal. pose proof (Z_div_mod_eq_full t 10). simpl. lia.
Qed.

Lemma strip_tenths_text t : 0 <= t -> strip (tenths_text t) = tenths_text t.
Proof.
  intros Ht. pose proof (Z.div_pos t 10 Ht ltac:(lia)) as Hq.
  pose proof (Z.mod_pos_bound t 10 ltac:(lia)) as Hr.
  apply strip_no_space, no_space_app; [by apply all_digits_no_space, all_digits_str_of_Z|].
  simpl. apply all_digits_no_space, all_digits_str_of_Z. lia.
Qed.

(** *** [str(f)]: the shortest decimal that reads back as [f] *)

(** The value of a positive finite float is [num / den]. *)
Definition ratio_of (m : positive) (e : Z) : positive * positive :=
  match e with
  | Z.neg p => (m, Pos.iter xO 1%positive p)
  | _ => (Pos.iter xO m (Z.to_pos (e + 1)), 2%positive)
  end.

(** [c * 10 ^ k] as a float. *)
Definition float_of_scientific (c : positive) (k : Z) : py_float :=
  if 0 <=? k then Float.of_ratio (c * Z.to_pos (10 ^ k)) 1
  else Float.of_ratio c (Z.to_pos (10 ^ (- k))).

(** Position of the decimal point: the least [p] with [value < 10 ^ p], searched
    downwards. *)
Fixpoint decpt (fuel : nat) (num den : Z) (p : Z) : Z :=
  match fuel with
  | O => p
  | S fuel' =>
      let below := if 0 <=? p - 1 then num <? den * 10 ^ (p - 1)
                   else num * 10 ^ (1 - p) <? den in
      if below then decpt fuel' num den (p - 1) else p
  end.

(** The nearest [n]-digit decimal that reads back as the float, if one does. *)
Definition try_digits (m : positive) (e : Z) (num den p : Z) (n : Z) : option Z :=
  let k := n - p in
  let '(a, b) := if 0 <=? k then (num * 10 ^ k, den) else (num, den * 10 ^ (- k)) in
  let lo := a / b in
  let ok c := match c with
              | Z.pos q => match float_of_scientific q (- k) with
                           | S754_finite false m' e' => (m =? m')%positive && (e =? e')
                           | _ => false
                           end
              | _ => false
              end in
  let '(near, far) := if 2 * (a mod b) <=? b then (lo, lo + 1) else (lo + 1, lo) in
  if ok near then Some near else if ok far then Some far else None.

Fixpoint shortest (fuel : nat) (m : positive) (e : Z) (num den p n : Z) : Z * Z :=
  match fuel with
  | O => (0, n)
  | S fuel' =>
      match try_digits m e num den p n with
      | Some c => (c, n)
      | None => shortest fuel' m e num den p (n + 1)
      end
  end.

Definition zeros (n : Z) : string := String.concat "" (repeat "0" (Z.to_nat n)).

(** Drop trailing zeros of the digit string (a carry such as [9.99.. -> 10]). *)
Definition layout (digs : string) (p : Z) : string :=
  let n := Z.of_nat (String.length digs) in
  let take k := String.substring 0 (Z.to_nat k) digs in
  let drop k := String.substring (Z.to_nat k) (Z.to_nat (n - k)) digs in
  if (-4 <? p) && (p <=? 16) then
    if p <=? 0 then String.append "0." (String.append (zeros (- p)) digs)
    else if n <=? p then String.append digs (String.append (zeros (p - n)) ".0")
    else String.append (take p) (String.append "." (drop p))
  else
    let ex := p - 1 in
    let exs := String.append (if ex <? 0 then "-" else "+")
                 (if Z.abs ex <? 10 then String.append "0" (str_of_Z (Z.abs ex))
                  else str_of_Z (Z.abs ex)) in
    let mant := if n =? 1 then digs else String.append (take 1) (String.append "." (drop 1)) in
    String.append mant (String.append "e" exs).

(** [str(f)] *)
Definition str_of_float (f : py_float) : string :=
  match f with
  | S754_nan => "nan"
  | S754_infinity false => "inf"
  | S754_infinity true => "-inf"
  | S754_zero false => "0.0"
  | S754_zero true => "-0.0"
  | S754_finite s m e =>
      let '(num, den) := ratio_of m e in
      let p := decpt 700 (Z.pos num) (Z.pos den) 310 in
      let '(c, n) := shortest 17 m e (Z.pos num) (Z.pos den) p 1 in
      (* a candidate [10 ^ n] stands for one more digit before the point *)
      let '(c, p) := if c =? 10 ^ n then (1, p + 1) else (c, p) in
      String.append (if s then "-" else "") (layout (str_of_Z c) p)
  end.

Example str_tenth : str_of_float (Float.of_ratio 11 10) = "1.1".
Proof. vm_compute. reflexivity. Qed.
Example str_sum : str_of_float (Float.add (Float.of_ratio 1 10) (Float.of_ratio 2 10))
  = "0.30000000000000004".
Proof. vm_compute. reflexivity. Qed.
Example str_small : str_of_float (Float.of_ratio 1 100000) = "1e-05".
Proof. vm_compute. reflexivity. Qed.
Example str_large : str_of_float (Float.of_Z (10 ^ 22)) = "1e+22".
Proof. vm_compute. reflexivity. Qed.
Example str_denormal : str_of_float (S754_finite false 1 (-1074)) = "5e-324".
Proof. vm_compute. reflexivity. Qed.
Example str_pow2 : str_of_float (S754_finite false 4503599627370496 (-96)) = "5.684341886080802e-14".
Proof. vm_compute. reflexivity. Qed.

(** ** [repr] and [str] *)

Fixpoint contains_char (c : Ascii.ascii) (s : string) : bool :=
  match s with
  | EmptyString => false
  | String c' s' => bool_decide (c' = c) || contains_char c s'
  end.

Definition char_of (n : nat) : string := String (Ascii.ascii_of_nat n) EmptyString.

Definition hex_of (n : nat) : string := char_of (if (n <? 10)%nat then 48 + n else 87 + n)%nat.

(** One character of [repr] of a string quoted by [q] (ASCII). *)
Definition repr_char (q c : Ascii.ascii) : string :=
  let n := Ascii.nat_of_ascii c in
  if bool_decide (c = q) || (n =? 92)%nat then String.append (char_of 92) (String c EmptyString)
  else if (n =? 10)%nat then String.append (char_of 92) "n"
  else if (n =? 13)%nat then String.append (char_of 92) "r"
  else if (n =? 9)%nat then String.append (char_of 92) "t"
  else if ((32 <=? n) && (n <=? 126))%nat then String c EmptyString
  else String.concat "" [char_of 92; "x"; hex_of (n / 16)%nat; hex_of (n mod 16)%nat].

Fixpoint repr_chars (q : Ascii.ascii) (s : string) : string :=
  match s with
  | EmptyString => EmptyString
  | String c s' => String.append (repr_char q c) (repr_chars q s')
  end.

Definition repr_string (s : string) : string :=
  let single := Ascii.ascii_of_nat 39 in let double := Ascii.ascii_of_nat 34 in
  let q := if contains_char single s && negb (contains_char double s) then double else single in
  String.concat "" [String q EmptyString; repr_chars q s; String q EmptyString].

Fixpoint py_repr (v : pyval) : string :=
  match v with
  | PNone => "None"
  | PBool b => if b then "True" else "False"
  | PInt z => str_of_Z z
  | PFloat f => str_of_float f
  | PStr s => repr_string s
  | PList l => String.concat "" ["["; String.concat ", " (map py_repr l); "]"]
  | PDict d =>
      String.concat "" ["{"; String.concat ", "
        (map (fun x => String.concat ": " [repr_string x.1; py_repr x.2]) d); "}"]
  end.

(** [str(v)] *)
Definition py_str (v : pyval) : string :=
  match v with PStr s => s | _ => py_repr v end.

Example repr_nested :
  py_repr (PDict [("a", PList [PInt (-1); PStr "x"; PNone])]) = "{'a': [-1, 'x', None]}".
Proof. reflexivity. Qed.
