(* ===== verification/ChannelNumber.v ===== *)
(** * The canonical channel-number contract ([backend/channel_number.py]).

    A channel number is a non-negative number with at most one decimal place.  The
    functions below are the module's, on dynamically typed values; the theorems prove,
    for every value of the documented ranges, what the module's comments report as
    measured: the tenths grid round trips below [2 ^ 49], every non-negative [int] is in
    contract, and operator text reads back as the number it shows. *)
From S2P Require Import Prelude PyFloat PyValue.
From Stdlib Require Import DecimalString DecimalN DecimalFacts.
From Corelib Require Import SpecFloat.
Open Scope Z_scope.

Module ChannelNumber.

Definition CHANNEL_NUMBER_TICKS_PER_UNIT : Z := 10.

(** [1e-9] *)
Definition TENTH_TOLERANCE : py_float := Float.of_ratio 1 1000000000.

(** [2.0**53] *)
Definition EXACT_INTEGER_FLOOR : py_float := Float.of_Z (2 ^ 53).

Inductive error :=
| InvalidChannelNumberError
| OverflowError
| PydanticCustomError.

Definition is_valid_channel_number (value : pyval) : bool :=
  if negb (is_number value) then false
  else match to_float value with
  | None => false
  | Some number =>
      if negb (Float.is_finite number) then false
      else if Float.ltb number (S754_zero false) then false
      else if Float.leb EXACT_INTEGER_FLOOR number then true
      else
        let scaled := Float.mul number (Float.of_Z CHANNEL_NUMBER_TICKS_PER_UNIT) in
        Float.leb (Float.abs (Float.sub scaled (Float.of_Z (Float.round_int scaled))))
          TENTH_TOLERANCE
  end.

Definition channel_number_ticks (value : pyval) : result error Z :=
  match value with
  | PInt n => Ok (n * CHANNEL_NUMBER_TICKS_PER_UNIT)
  | PFloat f =>
      if negb (Float.is_finite f) then Raise InvalidChannelNumberError
      else if Float.leb EXACT_INTEGER_FLOOR (Float.abs f)
      then Ok (Float.trunc f * CHANNEL_NUMBER_TICKS_PER_UNIT)
      else Ok (Float.round_int (Float.mul f (Float.of_Z CHANNEL_NUMBER_TICKS_PER_UNIT)))
  | _ => Raise InvalidChannelNumberError
  end.

(** [ticks / 10] on [int]s raises when the quotient overflows a float. *)
Definition channel_number_from_ticks (ticks : Z) : result error pyval :=
  let whole := ticks / CHANNEL_NUMBER_TICKS_PER_UNIT in
  let remainder := ticks mod CHANNEL_NUMBER_TICKS_PER_UNIT in
  if remainder =? 0 then Ok (PInt whole)
  else
    let q := Float.int_truediv ticks (Z.to_pos CHANNEL_NUMBER_TICKS_PER_UNIT) in
    if Float.is_finite q then Ok (PFloat q) else Raise OverflowError.

Definition validate_channel_number (value : pyval) (allow_none : bool)
    : result error (option py_float) :=
  match value with
  | PNone => if allow_none then Ok None else Raise InvalidChannelNumberError
  | _ =>
      if negb (is_valid_channel_number value) then Raise InvalidChannelNumberError
      else match to_float value with
           | Some f => Ok (Some f)
           | None => Raise OverflowError
           end
  end.

Definition parse_channel_number_text (text : pyval) (allow_empty : bool)
    : result error (option py_float) :=
  match text with
  | PNone => if allow_empty then Ok None else Raise InvalidChannelNumberError
  | PInt _ | PFloat _ => validate_channel_number text false
  | PStr s =>
      let stripped := strip s in
      if bool_decide (stripped = EmptyString) then
        if allow_empty then Ok None else Raise InvalidChannelNumberError
      else match decimal_text stripped with
           | None => Raise InvalidChannelNumberError
           | Some (n, k) => validate_channel_number (PFloat (float_of_decimal n k)) false
           end
  | _ => Raise InvalidChannelNumberError
  end.

Definition validate_channel_number_in_payload (payload : pyval) : result error unit :=
  match payload with
  | PDict d =>
      match dict_get d "channel_number" with
      | None => Ok tt
      | Some v => match validate_channel_number v true with
                  | Ok _ => Ok tt
                  | Raise e => Raise e
                  end
      end
  | _ => Ok tt
  end.

(** The [BeforeValidator] of the request models. *)
Definition pydantic_channel_number (value : pyval) : result error (option py_float) :=
  match value with
  | PNone => Ok None
  | PStr _ =>
      match parse_channel_number_text value true with
      | Ok v => Ok v
      | Raise InvalidChannelNumberError => Raise PydanticCustomError
      | Raise e => Raise e
      end
  | _ =>
      if negb (is_valid_channel_number value) then Raise PydanticCustomError
      else match to_float value with
           | Some f => Ok (Some f)
           | None => Raise OverflowError
           end
  end.

(** On numbers, [None], booleans and strings (the values a channel number field can
    hold).  [float(value)] raises [OverflowError] on an [int] beyond the floats. *)
Definition format_channel_number (value : pyval) : result error string :=
  match value with
  | PNone => Ok "None"
  | PBool b => Ok (if b then "True" else "False")
  | PStr s => Ok s
  | PInt n => match to_float value with
              | Some _ => Ok (str_of_Z n)
              | None => Raise OverflowError
              end
  | PFloat f => if Float.is_integer f then Ok (str_of_Z (Float.trunc f))
                else Ok (str_of_float f)
  | PList _ | PDict _ => Ok "<object>"
  end.

(** ** The grid *)

(** Closed facts about the two constants. *)
Lemma floor_value : EXACT_INTEGER_FLOOR = S754_finite false 4503599627370496 1.
Proof. reflexivity. Qed.

Lemma zero_tolerated : Float.leb (Float.abs (S754_zero false)) TENTH_TOLERANCE = true.
Proof. reflexivity. Qed.

Lemma below_floor m e : e <= 0 ->
  Float.leb EXACT_INTEGER_FLOOR (S754_finite false m e) = false.
Proof.
  intros He. rewrite floor_value. unfold Float.leb, SFleb, SFcompare.
  rewrite (proj2 (Z.compare_gt_iff 1 e)) by lia. reflexivity.
Qed.

Lemma leb_finite a b e e' :
  (e < e' \/ (e = e' /\ (a <= b)%positive)) ->
  Float.leb (S754_finite false a e) (S754_finite false b e') = true.
Proof.
  intros H. unfold Float.leb, SFleb, SFcompare.
  destruct (Z.compare_spec e e') as [->|C|C]; [|reflexivity|lia].
  destruct H as [|[_ H]]; [lia|]. fold (Pos.compare a b).
  destruct (Pos.compare_spec a b); [reflexivity|reflexivity|lia].
Qed.

Lemma above_floor m e : Float.normal m e -> 1 <= e ->
  Float.leb EXACT_INTEGER_FLOOR (S754_finite false m e) = true.
Proof. intros [Hm _] He. rewrite floor_value. apply leb_finite. lia. Qed.

Lemma positive_not_below_zero m e :
  Float.ltb (S754_finite false m e) (S754_zero false) = false.
Proof. done. Qed.

(** A scaled value that is integral passes the tolerance test. *)
Lemma scaled_integral_valid f :
  Float.integral f ->
  Float.leb (Float.abs (Float.sub f (Float.of_Z (Float.round_int f)))) TENTH_TOLERANCE = true.
Proof.
  intros Hf. rewrite Float.of_Z_round_int by done.
  destruct Hf as (m & e & -> & _). by rewrite Float.sub_diag.
Qed.

Lemma of_Z_small_integral n : 0 < n < 2 ^ 53 -> Float.integral (Float.of_Z n).
Proof.
  intros Hn. destruct (Float.of_Z_small n Hn) as (m & e & -> & Hm & He & Hv).
  exists m, e. split_and!; [done|done|].
  destruct (decide (0 <= e)); [left; done|right]. split; [lia|].
  rewrite Hv. apply Z.mod_mul. pose proof (Z.pow_pos_nonneg 2 (- e)). lia.
Qed.

Lemma of_Z_small_round n : 0 < n < 2 ^ 53 -> Float.round_int (Float.of_Z n) = n.
Proof.
  intros Hn. destruct (Float.of_Z_small n Hn) as (m & e & -> & Hm & He & Hv).
  unfold Float.round_int, Float.signed. rewrite Hv.
  destruct (Z.leb_spec 0 e) as [C|C].
  - assert (e = 0) as -> by lia. simpl. lia.
  - pose proof (Z.pow_pos_nonneg 2 (- e)). apply Float.rne_unique; [lia|left; lia].
Qed.

(** The float at a tenth of the grid, and its neighbourhood. *)
Lemma tenth_float t : 0 < t < 10 * 2 ^ 49 -> exists m e,
  Float.int_truediv t 10 = S754_finite false m e /\ e <= 0 /\
  Float.mul (S754_finite false m e) (Float.of_Z 10) = Float.of_Z t.
Proof.
  intros [Ht0 Ht]. destruct t as [|p|p]; [lia| |lia].
  pose proof (Float.tenth_scaled p Ht) as Hs.
  assert (Hp53 : Z.pos p < 2 ^ 53) by lia.
  pose proof (Float.digits_upper p 53 ltac:(lia) Hp53) as HD.
  assert (exists n, n <= 1 /\ ((n = 0 /\ Z.pos p * 2 ^ (53 - Z.pos (digits2_pos p)) < 10 * 2 ^ 49) \/
     (n = 1 /\ 10 * 2 ^ 49 <= Z.pos p * 2 ^ (53 - Z.pos (digits2_pos p))))) as (n & Hn1 & Hn).
  { destruct (Z.lt_ge_cases (Z.pos p * 2 ^ (53 - Z.pos (digits2_pos p))) (10 * 2 ^ 49));
      [exists 0|exists 1]; split; auto; lia. }
  destruct (Float.of_ratio_10_mant p _ _ n eq_refl Hp53 eq_refl Hn) as (mq & E & _ & _).
  simpl Float.int_truediv. rewrite E in Hs |- *.
  eexists _, _. split_and!; [done|lia|done].
Qed.

Lemma from_ticks_cases t : 0 <= t < 10 * 2 ^ 49 ->
  (exists k, channel_number_from_ticks t = Ok (PInt k) /\ t = 10 * k /\ 0 <= k < 2 ^ 49) \/
  (exists m e, channel_number_from_ticks t = Ok (PFloat (S754_finite false m e)) /\ e <= 0 /\
     0 < t /\ Float.mul (S754_finite false m e) (Float.of_Z 10) = Float.of_Z t).
Proof.
  intros Ht. unfold channel_number_from_ticks, CHANNEL_NUMBER_TICKS_PER_UNIT.
  pose proof (Z_div_mod_eq_full t 10) as Hq.
  destruct (Z.eqb_spec (t mod 10) 0) as [E|E].
  - left. exists (t / 10). split; [done|]. lia.
  - right. assert (t <> 0) by (intros ->; done).
    change (Z.to_pos 10) with 10%positive.
    destruct (tenth_float t ltac:(lia)) as (m & e & -> & He & Hs).
    exists m, e. simpl Float.is_finite. split_and!; [done|lia|lia|done].
Qed.


Lemma of_Z_small_finite n : 0 < n < 2 ^ 53 -> exists m e,
  Float.of_Z n = S754_finite false m e /\ Float.normal m e /\ e <= 0.
Proof.
  intros Hn. destruct (Float.of_Z_small n Hn) as (m & e & E & Hm & He & _). eauto with lia.
Qed.

Lemma valid_small_int n : 0 <= n < 2 ^ 53 -> is_valid_channel_number (PInt n) = true.
Proof.
  intros Hn. destruct (Z.eq_dec n 0) as [->|]; [reflexivity|].
  unfold is_valid_channel_number. cbn [is_number negb to_float].
  destruct (of_Z_small_finite n ltac:(lia)) as (m & e & E & Hm & He).
  rewrite E. cbn [Float.is_finite negb]. rewrite positive_not_below_zero, below_floor by done.
  rewrite <- E. apply scaled_integral_valid, Float.mul_10_integral. lia.
Qed.

Lemma valid_big_int n : 2 ^ 53 <= n < 2 ^ 1023 -> is_valid_channel_number (PInt n) = true.
Proof.
  intros Hn. unfold is_valid_channel_number. cbn [is_number negb to_float].
  destruct (Float.of_Z_big n Hn) as (m & e & -> & Hm & He).
  cbn [Float.is_finite negb]. by rewrite positive_not_below_zero, above_floor.
Qed.

Lemma negative_int_below n : - 2 ^ 1023 < n < 0 ->
  exists m e, Float.of_Z n = S754_finite true m e.
Proof.
  intros Hn. destruct n as [|p|p]; [lia|lia|].
  assert (exists m e, Float.of_Z (Z.pos p) = S754_finite false m e) as (m & e & E).
  { destruct (Z.lt_ge_cases (Z.pos p) (2 ^ 53)).
    - destruct (of_Z_small_finite (Z.pos p)) as (m & e & E & _); eauto with lia.
    - destruct (Float.of_Z_big (Z.pos p)) as (m & e & E & _); eauto with lia. }
  exists m, e. rewrite Float.of_Z_neg, E. done.
Qed.

(** For every [int] below [2 ^ 1023] in magnitude the predicate answers exactly "is it
    non-negative": integers are in contract at every magnitude, on both sides of the
    [2 ** 53] short-circuit. *)
Theorem int_contract n :
  - 2 ^ 1023 < n < 2 ^ 1023 -> is_valid_channel_number (PInt n) = (0 <=? n).
Proof.
  intros Hn. destruct (Z.leb_spec 0 n) as [C|C].
  - destruct (Z.lt_ge_cases n (2 ^ 53)); [apply valid_small_int|apply valid_big_int]; lia.
  - destruct (negative_int_below n ltac:(lia)) as (m & e & E).
    unfold is_valid_channel_number. cbn [is_number negb to_float]. by rewrite E.
Qed.

Lemma int_contract_witness :
  is_valid_channel_number (PInt 7) = true /\ is_valid_channel_number (PInt (-3)) = false.
Proof. split; [apply (int_contract 7)|apply (int_contract (-3))]; lia. Defined.

Lemma tenth_valid m e t :
  0 < t < 10 * 2 ^ 49 -> e <= 0 ->
  Float.mul (S754_finite false m e) (Float.of_Z 10) = Float.of_Z t ->
  is_valid_channel_number (PFloat (S754_finite false m e)) = true.
Proof.
  intros Ht He Hs. unfold is_valid_channel_number. cbn [is_number negb to_float Float.is_finite].
  rewrite positive_not_below_zero, below_floor by done.
  unfold CHANNEL_NUMBER_TICKS_PER_UNIT. rewrite Hs.
  apply scaled_integral_valid, of_Z_small_integral. lia.
Qed.

Lemma tenth_ticks m e t :
  0 < t < 10 * 2 ^ 49 -> e <= 0 ->
  Float.mul (S754_finite false m e) (Float.of_Z 10) = Float.of_Z t ->
  channel_number_ticks (PFloat (S754_finite false m e)) = Ok t.
Proof.
  intros Ht He Hs. unfold channel_number_ticks. cbn [Float.is_finite negb].
  change (Float.abs (S754_finite false m e)) with (S754_finite false m e).
  rewrite below_floor by done. unfold CHANNEL_NUMBER_TICKS_PER_UNIT. rewrite Hs.
  rewrite of_Z_small_round by lia. done.
Qed.

(** Below [2 ^ 49] the tenths grid and the contract agree exactly: every tick divides
    back to a channel number, that number is in contract, and its tick is the one it
    came from.  Float rounding never moves a number off its tick. *)
Theorem ticks_roundtrip t :
  0 <= t < 10 * 2 ^ 49 ->
  exists v, channel_number_from_ticks t = Ok v /\ is_valid_channel_number v = true /\
    channel_number_ticks v = Ok t.
Proof.
  intros Ht. destruct (from_ticks_cases t Ht) as [(k & E & -> & Hk)|(m & e & E & He & H0 & Hs)].
  - exists (PInt k). split_and!; [done|apply valid_small_int; lia|].
    simpl. f_equal. unfold CHANNEL_NUMBER_TICKS_PER_UNIT. lia.
  - exists (PFloat (S754_finite false m e)). split_and!; [done| |].
    + apply (tenth_valid m e t); [lia|done|done].
    + apply (tenth_ticks m e t); [lia|done|done].
Qed.

Lemma ticks_roundtrip_witness :
  exists v, channel_number_from_ticks 11 = Ok v /\ is_valid_channel_number v = true /\
    channel_number_ticks v = Ok 11.
Proof. apply (ticks_roundtrip 11). lia. Defined.

(** Distinct ticks below the bound are distinct channel numbers, and at the bound the
    grid stops being injective: two neighbouring ticks there divide back to one float. *)
Theorem ticks_injective :
  (forall t t' v, 0 <= t < 10 * 2 ^ 49 -> 0 <= t' < 10 * 2 ^ 49 ->
     channel_number_from_ticks t = Ok v -> channel_number_from_ticks t' = Ok v -> t = t') /\
  channel_number_from_ticks (10 * 2 ^ 49 + 2) = channel_number_from_ticks (10 * 2 ^ 49 + 3) /\
  channel_number_ticks (PFloat (Float.of_ratio 5629499534213123 10)) = Ok 5629499534213122.
Proof.
  split; [|split; reflexivity].
  intros t t' v Ht Ht' E E'.
  assert (Hback : forall u, 0 <= u < 10 * 2 ^ 49 -> channel_number_from_ticks u = Ok v ->
            channel_number_ticks v = Ok u).
  { intros u Hu Eu. destruct (from_ticks_cases u Hu) as [(k & F & -> & Hk)|(m & e & F & He & H0 & Hs)];
      rewrite F in Eu; injection Eu as <-.
    - simpl. f_equal. unfold CHANNEL_NUMBER_TICKS_PER_UNIT. lia.
    - apply (tenth_ticks m e u); [lia|done|done]. }
  pose proof (Hback t Ht E) as B. rewrite (Hback t' Ht' E') in B. congruence.
Qed.

(** a whole tick round trips at every magnitude and in both directions, with no float
    in the path. *)
Theorem whole_tick_roundtrip k :
  channel_number_from_ticks (k * 10) = Ok (PInt k) /\ channel_number_ticks (PInt k) = Ok (k * 10).
Proof.
  split; [|done]. unfold channel_number_from_ticks, CHANNEL_NUMBER_TICKS_PER_UNIT.
  rewrite Z.mod_mul, Z.div_mul by lia. done.
Qed.


(** Operator text reads back as the number it shows: the one-decimal text of every tick
    below the bound parses, passes the contract, and sits on that tick ([1.10], [07] and
    surrounding blanks are the parser's other accepted spellings). *)
Theorem text_roundtrip t allow_empty :
  0 <= t < 10 * 2 ^ 49 ->
  exists f, parse_channel_number_text (PStr (tenths_text t)) allow_empty = Ok (Some f) /\
    is_valid_channel_number (PFloat f) = true /\ channel_number_ticks (PFloat f) = Ok t.
Proof.
  intros Ht. unfold parse_channel_number_text.
  rewrite strip_tenths_text, decimal_tenths_text by lia.
  rewrite bool_decide_eq_false_2 by (unfold tenths_text; by destruct (str_of_Z (t / 10))).
  destruct (Z.eq_dec t 0) as [->|Hne]; [by exists (S754_zero false)|].
  destruct (tenth_float t ltac:(lia)) as (m & e & E & He & Hs).
  assert (float_of_decimal (Z.to_N t) 1 = S754_finite false m e) as ->.
  { destruct t as [|p|p]; [lia|exact E|lia]. }
  assert (is_valid_channel_number (PFloat (S754_finite false m e)) = true) as Hv
    by (apply (tenth_valid m e t); [lia|done|done]).
  exists (S754_finite false m e). unfold validate_channel_number. rewrite Hv.
  split_and!; [done|done|]. apply (tenth_ticks m e t); [lia|done|done].
Qed.

Lemma text_roundtrip_witness :
  exists f, parse_channel_number_text (PStr "4.1") true = Ok (Some f) /\
    is_valid_channel_number (PFloat f) = true /\ channel_number_ticks (PFloat f) = Ok 41.
Proof. apply (text_roundtrip 41 true). lia. Defined.

Lemma ticks_injective_witness : 11 = 11.
Proof.
  apply (proj1 ticks_injective 11 11 (PFloat (Float.of_ratio 11 10))); [lia|lia|reflexivity|reflexivity].
Defined.

(** Spellings. *)
Example parse_spellings :
  parse_channel_number_text (PStr " 07 ") true = Ok (Some (Float.of_Z 7)) /\
  parse_channel_number_text (PStr "1.10") true = Ok (Some (Float.of_ratio 11 10)) /\
  parse_channel_number_text (PStr "1.05") true = Raise InvalidChannelNumberError /\
  parse_channel_number_text (PStr "1e3") true = Raise InvalidChannelNumberError /\
  parse_channel_number_text (PStr "-1") true = Raise InvalidChannelNumberError /\
  parse_channel_number_text (PStr "  ") true = Ok None.
Proof. repeat split; reflexivity. Qed.

Example drift_accepted :
  is_valid_channel_number (PFloat (Float.add (Float.of_ratio 7 10) (Float.of_ratio 1 10))) = true.
Proof. reflexivity. Qed.

Example unrepresentable_rejected : is_valid_channel_number (PInt (10 ^ 400)) = false.
Proof. vm_compute. reflexivity. Qed.

End ChannelNumber.
