(* ===== verification/NumberingPlan.v ===== *)
(** * The final numbering a bulk commit proposes ([backend/channel_number_plan.py]).

    Materialises the lineup a request's operations would leave behind and reports what is
    wrong with it.  Numbers are dynamically typed ([pyval]), as they arrive from
    Dispatcharr and from free-form update payloads; converting an [int] beyond the floats
    raises [OverflowError].  Message text is kept as its interpolated parts. *)
From S2P Require Import Prelude PyFloat PyValue ChannelNumber.
From Corelib Require Import SpecFloat.
Open Scope Z_scope.

#[export] Instance spec_float_eq_dec : EqDecision spec_float.
Proof. solve_decision. Defined.

Module NumberingPlan.

Inductive error := OverflowError.
Abbreviation result := (result error).

(** [float(v)] of a number. *)
Definition float_of (v : pyval) : result py_float :=
  match to_float v with Some f => Ok f | None => Raise OverflowError end.

(** The slot key.  The source uses a string with a prefix per regime; two keys are equal
    exactly when prefix and payload are. *)
Inductive slot :=
| NonFinite (f : py_float)   (* "n..." *)
| ExactFloat (f : py_float)  (* "x..." *)
| Tick (t : Z).              (* "t..." *)

#[export] Instance slot_eq_dec : EqDecision slot.
Proof. solve_decision. Defined.

Definition slot_of_float (number : py_float) : slot :=
  if negb (Float.is_finite number) then NonFinite number
  else if Float.leb ChannelNumber.EXACT_INTEGER_FLOOR (Float.abs number) then ExactFloat number
  else Tick (Float.round_int (Float.mul number
               (Float.of_Z ChannelNumber.CHANNEL_NUMBER_TICKS_PER_UNIT))).

Definition slot_key (value : pyval) : result slot :=
  let! number := float_of value in Ok (slot_of_float number).

Definition same_number (a b : pyval) : result bool :=
  if negb (is_number a) || negb (is_number b) then Ok false
  else
    let! fa := float_of a in
    if negb (Float.is_finite fa) then Ok false
    else
      let! fb := float_of b in
      if negb (Float.is_finite fb) then Ok false
      else Ok (bool_decide (slot_of_float fa = slot_of_float fb)).

(** ** Requests *)

(** [acknowledgedDuplicate] as sent. *)
Record ack_payload := { ack_number : pyval; ack_occupantChannelIds : list pyval }.

(** The operations the numbering reads; every other type leaves it alone. *)
Inductive operation :=
| UpdateChannel (channelId : Z) (data : pyval) (acknowledgedDuplicate : option ack_payload)
| CreateChannel (tempId : Z) (name : string) (channelNumber : pyval)
    (acknowledgedDuplicate : option ack_payload)
| DeleteChannel (channelId : Z)
| BulkAssignChannelNumbers (channelIds : list Z) (startingNumber : pyval)
| OtherOperation.

Record existing_channel := { ec_id : option Z; ec_name : option string; ec_number : pyval }.

Record acknowledgement := { slot_acked : slot; occupant_ids : gset Z }.

Record placement := {
  channel_id : Z;
  name : string;
  number : pyval;
  base_number : pyval;
  is_new : bool;
  touched_by : list nat;
  acknowledged : option acknowledgement;
}.

Definition moved (p : placement) : result bool :=
  if is_new p then Ok true
  else match base_number p, number p with
  | PNone, PNone => Ok false
  | PNone, _ | _, PNone => Ok true
  | b, n => let! same := same_number b n in Ok (negb same)
  end.

(** The payload an operation carries, if it is one that can carry one. *)
Definition acknowledged_payload (op : operation) : option ack_payload :=
  match op with
  | UpdateChannel _ _ a | CreateChannel _ _ _ a => a
  | _ => None
  end.

(** [_acknowledgement(op)]: the payload, when its number is a finite number. *)
Definition acknowledgement_payload (op : operation) : result (option ack_payload) :=
  match acknowledged_payload op with
  | None => Ok None
  | Some a =>
      if negb (is_number (ack_number a)) then Ok None
      else let! f := float_of (ack_number a) in
           Ok (if Float.is_finite f then Some a else None)
  end.

(** The ids kept: [isinstance(cid, int) and not isinstance(cid, bool)]. *)
Definition int_ids (l : list pyval) : gset Z :=
  list_to_set (omap (fun v => match v with PInt z => Some z | _ => None end) l).

Definition acknowledgement_of (op : operation) : result (option acknowledgement) :=
  let! a := acknowledgement_payload op in
  match a with
  | None => Ok None
  | Some a =>
      let! s := slot_key (ack_number a) in
      Ok (Some {| slot_acked := s; occupant_ids := int_ids (ack_occupantChannelIds a) |})
  end.

(** The inner [set_number]. *)
Definition set_number (p : placement) (value : pyval) (index : nat) (op : operation)
    : result placement :=
  let! a := acknowledgement_of op in
  Ok {| channel_id := channel_id p; name := name p; number := value;
          base_number := base_number p; is_new := is_new p;
          touched_by := touched_by p ++ [index]; acknowledged := a |}.

Definition rename (p : placement) (n : string) : placement :=
  {| channel_id := channel_id p; name := n; number := number p;
     base_number := base_number p; is_new := is_new p;
     touched_by := touched_by p; acknowledged := acknowledged p |}.

(** [by_id] and [order]. *)
Record building := { by_id : gmap Z placement; order : list Z }.

Definition default_name (n : option string) (id : Z) : string :=
  match n with
  | Some (String c s) => String c s
  | _ => String.append "Channel " (str_of_Z id)
  end.

Definition add_existing (b : building) (c : existing_channel) : building :=
  match ec_id c with
  | None => b
  | Some id =>
      {| by_id := <[id := {| channel_id := id; name := default_name (ec_name c) id;
                             number := ec_number c; base_number := ec_number c;
                             is_new := false; touched_by := []; acknowledged := None |}]> (by_id b);
         order := order b ++ [id] |}
  end.

Definition with_placement (b : building) (id : Z) (p : placement) : building :=
  {| by_id := <[id := p]> (by_id b); order := order b |}.

(** One pass of the loop of [bulkAssignChannelNumbers]. *)
Definition assign_one (op : operation) (start : pyval) (index : nat) (b : building)
    (x : nat * Z) : result building :=
  let '(offset, id) := x in
  match by_id b !! id with
  | None => Ok b
  | Some p =>
      match py_add start (PInt (Z.of_nat offset)) with
      | None => Raise OverflowError
      | Some v => let! p' := set_number p v index op in Ok (with_placement b id p')
      end
  end.

Definition apply_operation (b : building) (x : nat * operation) : result building :=
  let '(index, op) := x in
  match op with
  | UpdateChannel id data _ =>
      match by_id b !! id with
      | None => Ok b
      | Some p =>
          let d := match data with PDict d => d | _ => [] end in
          let p := match dict_get d "name" with Some (PStr n) => rename p n | _ => p end in
          let! p := match dict_get d "channel_number" with
              | Some v => set_number p v index op
              | None => Ok p
              end in
          Ok (with_placement b id p)
      end
  | CreateChannel id n v _ =>
      let p := {| channel_id := id; name := default_name (Some n) id; number := PNone;
                  base_number := PNone; is_new := true; touched_by := [];
                  acknowledged := None |} in
      let! p := set_number p v index op in
      Ok {| by_id := <[id := p]> (by_id b); order := order b ++ [id] |}
  | DeleteChannel id =>
      match by_id b !! id with
      | None => Ok b
      | Some _ => Ok {| by_id := delete id (by_id b);
                          order := List.filter (fun c => negb (c =? id)) (order b) |}
      end
  | BulkAssignChannelNumbers ids start =>
      let start := match start with PNone => PInt 1 | _ => start end in
      foldM (assign_one op start index) b (enumerate ids)
  | OtherOperation => Ok b
  end.

Definition initial_building (existing : list existing_channel) : building :=
  fold_left add_existing existing {| by_id := ∅; order := [] |}.

Definition placements (b : building) : list placement :=
  omap (fun id => by_id b !! id) (order b).

Definition build_final_numbering_state (existing : list existing_channel)
    (operations : list operation) : result (list placement) :=
  let! b := foldM apply_operation (initial_building existing) (enumerate operations) in
  Ok (placements b).

(** [FinalNumberingState.number_of] *)
Fixpoint number_of (ps : list placement) (id : Z) : option pyval :=
  match ps with
  | [] => None
  | p :: ps' => if channel_id p =? id then Some (number p) else number_of ps' id
  end.

(** ** Issues *)

Inductive issue_type := duplicate_channel_number | invalid_channel_number.

(** The interpolated parts of the operator-facing sentence. *)
Inductive message :=
| InvalidMessage (name : string) (number : pyval)
| DuplicateMessage (number : pyval) (count : nat) (joining others : list string).

Record numbering_issue := {
  ni_type : issue_type;
  ni_message : message;
  ni_channel_number : pyval;
  ni_channel_ids : list Z;
  ni_operation_indexes : list nat;
}.

(** [as_validation_issue] *)
Record validation_issue := {
  vi_type : issue_type;
  vi_message : message;
  vi_channelNumber : pyval;
  vi_channelIds : list Z;
  vi_operationIndex : option nat;
  vi_operationIndexes : option (list nat);
  vi_channelId : option Z;
}.

Definition as_validation_issue (i : numbering_issue) : validation_issue :=
  {| vi_type := ni_type i; vi_message := ni_message i;
     vi_channelNumber := ni_channel_number i; vi_channelIds := ni_channel_ids i;
     vi_operationIndex := head (ni_operation_indexes i);
     vi_operationIndexes := match ni_operation_indexes i with [] => None | l => Some l end;
     vi_channelId := head (ni_channel_ids i) |}.

Definition touched (p : placement) : bool := match touched_by p with [] => false | _ => true end.

(** [placement.moved and bool(placement.touched_by)] *)
Definition placed (p : placement) : result bool :=
  let! m := moved p in Ok (m && touched p).

(** [by_slot.setdefault(key, []).append(placement)] on an insertion-ordered dict. *)
Fixpoint slot_append (key : slot) (p : placement) (d : list (slot * list placement))
    : list (slot * list placement) :=
  match d with
  | [] => [(key, [p])]
  | (k, ps) :: d' => if decide (k = key) then (k, ps ++ [p]) :: d' else (k, ps) :: slot_append key p d'
  end.

Definition invalid_issue (p : placement) : numbering_issue :=
  {| ni_type := invalid_channel_number; ni_message := InvalidMessage (name p) (number p);
     ni_channel_number := number p; ni_channel_ids := [channel_id p];
     ni_operation_indexes := touched_by p |}.

(** The first loop: out-of-contract placements, and the slots of the rest. *)
Definition classify (acc : list numbering_issue * list (slot * list placement)) (p : placement)
    : result (list numbering_issue * list (slot * list placement)) :=
  let '(issues, by_slot) := acc in
  match number p with
  | PNone => Ok acc
  | _ =>
      let! pl := placed p in
      if pl && negb (ChannelNumber.is_valid_channel_number (number p))
      then Ok (issues ++ [invalid_issue p], by_slot)
      else if negb (is_number (number p)) then Ok acc
      else
        let! f := float_of (number p) in
        if negb (Float.is_finite f) then Ok acc
        else Ok (issues, slot_append (slot_of_float f) p by_slot)
  end.

Definition last_touch (p : placement) : nat := default 0%nat (last (touched_by p)).

(** Split the occupants: those the request placed, those it did not. *)
Fixpoint split_placed (ps : list placement) : result (list placement * list placement) :=
  match ps with
  | [] => Ok ([], [])
  | p :: ps' =>
      let! pl := placed p in
      let! '(a, b) := split_placed ps' in
      Ok (if pl then (p :: a, b) else (a, p :: b))
  end.

Definition consents (key : slot) (standing : gset Z) (p : placement) : bool :=
  bool_decide (standing = ∅) ||
  match acknowledged p with
  | Some a => bool_decide (slot_acked a = key) && bool_decide (standing ⊆ occupant_ids a)
  | None => false
  end.

(** Newcomers in request order, each joining the standing occupants; the ones that did
    not consent are collected. *)
Fixpoint accidental_newcomers (key : slot) (standing : gset Z) (newcomers : list placement)
    : list placement :=
  match newcomers with
  | [] => []
  | p :: ps =>
      let rest := accidental_newcomers key ({[channel_id p]} ∪ standing) ps in
      if consents key standing p then rest else p :: rest
  end.

Definition by_arrival : list placement -> list placement :=
  py_sorted (fun p q => (last_touch p <=? last_touch q)%nat).

(** [sorted({...})] *)
Definition sorted_indexes (l : list nat) : list nat := py_sorted Nat.leb (remove_dups l).

Definition slot_issue (key : slot) (occupants : list placement)
    : result (option numbering_issue) :=
  if (length occupants <? 2)%nat then Ok None
  else
    match split_placed occupants with
    | Raise e => Raise e
    | Ok ([], _) => Ok None
    | Ok (contributors, rest) =>
        let standing : gset Z := list_to_set (map channel_id rest) in
        match accidental_newcomers key standing (by_arrival contributors) with
        | [] => Ok None
        | (a :: _) as accidental =>
            let others := List.filter (fun p => negb (bool_decide
              (channel_id p ∈ map channel_id accidental))) occupants in
            Ok (Some {|
              ni_type := duplicate_channel_number;
              ni_message := DuplicateMessage (number a) (length occupants)
                              (map name accidental) (map name others);
              ni_channel_number := number a;
              ni_channel_ids := map channel_id occupants;
              ni_operation_indexes := sorted_indexes (concat (map touched_by accidental)) |})
        end
    end.

(** The second loop. *)
Definition report_slot (issues : list numbering_issue) (x : slot * list placement)
    : result (list numbering_issue) :=
  let! i := slot_issue x.1 x.2 in
  Ok (match i with None => issues | Some i => issues ++ [i] end).

Definition evaluate_placements (ps : list placement) : result (list numbering_issue) :=
  match foldM classify ([], []) ps with
  | Ok (issues, by_slot) => foldM report_slot issues by_slot
  | Raise e => Raise e
  end.

Definition evaluate_final_numbering (existing : list existing_channel)
    (operations : list operation) : result (list numbering_issue) :=
  let! ps := build_final_numbering_state existing operations in
  evaluate_placements ps.


(** ** What a finished numbering state satisfies *)

(** A placement's history is made of this request's operations, and the acknowledgement
    it carries is the one of the operation that made its final placement. *)
Definition placement_ok (operations : list operation) (p : placement) : Prop :=
  Forall (fun i => i < length operations)%nat (touched_by p) /\
  match last (touched_by p) with
  | None => is_new p = false /\ number p = base_number p /\ acknowledged p = None
  | Some i => exists op, operations !! i = Some op /\
      acknowledgement_of op = Ok (acknowledged p)
  end.

Definition building_ok (operations : list operation) (b : building) : Prop :=
  map_Forall (fun id p => channel_id p = id /\ placement_ok operations p) (by_id b).

Lemma elem_of_enumerate {A} (l : list A) i x : (i, x) ∈ enumerate l -> l !! i = Some x.
Proof. intros (j & y & [= -> ->] & H)%elem_of_lookup_imap. done. Qed.

Lemma set_number_ok ops p v i op p' :
  ops !! i = Some op -> Forall (fun i => i < length ops)%nat (touched_by p) ->
  set_number p v i op = Ok p' ->
  placement_ok ops p' /\ channel_id p' = channel_id p.
Proof.
  intros Hop Hp. unfold set_number. destruct (acknowledgement_of op) as [a|] eqn:Ha; [|done].
  intros [= <-]. split; [|done]. split; simpl.
  - apply Forall_app. split; [done|]. constructor; [|done]. by eapply lookup_lt_Some.
  - rewrite last_snoc. eauto.
Qed.

Lemma rename_ok ops p n : placement_ok ops p -> placement_ok ops (rename p n).
Proof. done. Qed.

Lemma with_placement_ok ops b id p :
  building_ok ops b -> channel_id p = id -> placement_ok ops p ->
  building_ok ops (with_placement b id p).
Proof. intros Hb Hid Hp. apply map_Forall_insert_2; done. Qed.

Lemma assign_one_ok ops op start index b x b' :
  ops !! index = Some op -> building_ok ops b ->
  assign_one op start index b x = Ok b' -> building_ok ops b'.
Proof.
  intros Hop Hb. destruct x as [offset id]. unfold assign_one.
  destruct (by_id b !! id) as [p|] eqn:Hp; [|by intros [= <-]].
  destruct (Hb _ _ Hp) as [Hid [Ht _]].
  destruct (py_add _ _) as [v|]; [|done].
  destruct (set_number p v index op) as [p'|] eqn:Hs; [|done]. intros [= <-].
  destruct (set_number_ok ops p v index op p' Hop Ht Hs) as [? ?].
  apply with_placement_ok; [done|congruence|done].
Qed.

Lemma update_ok ops b id p p' :
  building_ok ops b -> placement_ok ops p' -> channel_id p' = channel_id p ->
  by_id b !! id = Some p -> building_ok ops (with_placement b id p').
Proof.
  intros Hb Hp' Hid Hp. apply with_placement_ok; [done| |done].
  rewrite Hid. by apply (Hb _ _ Hp).
Qed.

Lemma apply_operation_ok ops b index op b' :
  ops !! index = Some op -> building_ok ops b ->
  apply_operation b (index, op) = Ok b' -> building_ok ops b'.
Proof.
  intros Hop Hb. destruct op as [id data a|id n v a|id|ids start|]; simpl.
  - destruct (by_id b !! id) as [p|] eqn:Hp; [|by intros [= <-]].
    destruct (Hb _ _ Hp) as [Hid [Ht Hl]].
    set (q := match dict_get _ "name" with Some (PStr n) => rename p n | _ => p end).
    assert (placement_ok ops q /\ channel_id q = channel_id p) as [Hq Hqid].
    { unfold q. destruct (dict_get _ "name") as [[]|]; by split. }
    destruct (dict_get _ "channel_number") as [v|].
    + destruct (set_number q v index _) as [p'|] eqn:Hs; [|done]. intros [= <-].
      destruct (set_number_ok ops q v index _ p' Hop (proj1 Hq) Hs) as [? Hid'].
      apply (update_ok _ _ _ p); [done|done|congruence|done].
    + intros [= <-]. by apply (update_ok _ _ _ p).
  - destruct (set_number _ v index _) as [p'|] eqn:Hs; [|done]. intros [= <-].
    apply (set_number_ok ops) in Hs as [? Hid]; [|done|by constructor].
    apply map_Forall_insert_2; [by split|done].
  - destruct (by_id b !! id) as [p|] eqn:Hp; intros [= <-]; [|done].
    intros i q Hq. apply Hb. simpl in Hq. by apply lookup_delete_Some in Hq as [_ Hq].
  - intros Hf. revert Hf. apply (foldM_inv _ (building_ok ops)); [|done].
    intros b0 x b1 _ Hb0. by apply assign_one_ok.
  - by intros [= <-].
Qed.

Lemma initial_building_ok ops existing : building_ok ops (initial_building existing).
Proof.
  unfold initial_building.
  assert (Hg : forall l b, building_ok ops b -> building_ok ops (fold_left add_existing l b)).
  { induction l as [|c l IH]; intros b Hb; [done|]. apply IH. unfold add_existing.
    destruct (ec_id c) as [id|]; [|done]. apply map_Forall_insert_2; [|done].
    split; [done|]. split; [by constructor|done]. }
  apply Hg, map_Forall_empty.
Qed.

Lemma built_placements_ok existing ops ps :
  build_final_numbering_state existing ops = Ok ps -> Forall (placement_ok ops) ps.
Proof.
  unfold build_final_numbering_state.
  destruct (foldM _ _ _) as [b|] eqn:Hf; [|done]. intros [= <-].
  assert (Hb : building_ok ops b).
  { revert Hf. apply (foldM_inv _ (building_ok ops)); [|apply initial_building_ok].
    intros b0 [i op] b1 Hin Hb0. apply apply_operation_ok; [|done]. by apply elem_of_enumerate. }
  apply Forall_forall. intros p (id & _ & Hp)%list_elem_of_omap.
  by apply (Hb _ _ Hp).
Qed.

(** Consent is bound to one placement.  In the final state, the acknowledgement a
    channel carries is exactly the one of the last operation that set its number (none if
    that operation carried none), and a channel the request never numbered carries no
    acknowledgement and still has the number it started on. *)
Theorem acknowledgement_of_final_placement existing ops ps p :
  build_final_numbering_state existing ops = Ok ps -> p ∈ ps ->
  match last (touched_by p) with
  | None => is_new p = false /\ number p = base_number p /\ acknowledged p = None
  | Some i => exists op, ops !! i = Some op /\ acknowledgement_of op = Ok (acknowledged p)
  end.
Proof.
  intros Hb Hp. pose proof (built_placements_ok _ _ _ Hb) as Hok.
  rewrite Forall_forall in Hok. apply Hok in Hp. apply Hp.
Qed.


(** ** What an accepted request satisfies *)

(** The slot a placement occupies, if its number is a finite number. *)
Definition slot_of (p : placement) : option slot :=
  if negb (is_number (number p)) then None
  else match to_float (number p) with
       | Some f => if Float.is_finite f then Some (slot_of_float f) else None
       | None => None
       end.

Fixpoint slot_lookup (key : slot) (d : list (slot * list placement)) : list placement :=
  match d with
  | [] => []
  | (k, ps) :: d' => if decide (k = key) then ps else slot_lookup key d'
  end.

Lemma slot_lookup_append key k p d :
  slot_lookup key (slot_append k p d) =
    if decide (k = key) then slot_lookup key d ++ [p] else slot_lookup key d.
Proof.
  induction d as [|[k' ps] d IH]; simpl; [by repeat case_decide|].
  destruct (decide (k' = k)) as [->|Hk]; simpl; [by case_decide|].
  rewrite IH. destruct (decide (k' = key)) as [->|]; [|done].
  by destruct (decide (k = key)).
Qed.

Lemma slot_lookup_elem key d p : p ∈ slot_lookup key d -> (key, slot_lookup key d) ∈ d.
Proof.
  induction d as [|[k ps] d IH]; simpl; [by intros ?%elem_of_nil|].
  destruct (decide (k = key)) as [->|]; [by left|by right; auto].
Qed.

(** One pass of the first loop, seen from outside: it reports or it files. *)
Lemma classify_spec issues d p issues' d' :
  classify (issues, d) p = Ok (issues', d') ->
  (issues' = issues ++ [invalid_issue p] /\ placed p = Ok true) \/
  (issues' = issues /\
   (number p <> PNone -> placed p = Ok true -> ChannelNumber.is_valid_channel_number (number p) = true) /\
   forall key, slot_lookup key d' =
     if decide (slot_of p = Some key) then slot_lookup key d ++ [p] else slot_lookup key d).
Proof.
  unfold classify.
  assert (number p = PNone \/ number p <> PNone) as [Hn|Hn] by (destruct (number p); auto).
  { rewrite Hn. intros [= <- <-]. right. split_and!; [done|done|].
    intros key. unfold slot_of. by rewrite Hn. }
  assert (Hm : forall A (a b : A), match number p with PNone => a | _ => b end = b)
    by (by destruct (number p)).
  rewrite Hm. clear Hm. destruct (placed p) as [pl|] eqn:Hpl; [|done]. simpl.
  destruct (pl && negb _) eqn:Hinv.
  { intros [= <- <-]. left. apply andb_prop in Hinv as [-> _]. done. }
  assert (Hval : pl = true -> ChannelNumber.is_valid_channel_number (number p) = true).
  { intros ->. simpl in Hinv. by apply negb_false_iff in Hinv. }
  unfold slot_of, float_of. destruct (is_number (number p)) eqn:Hnum; simpl.
  - destruct (to_float (number p)) as [f|]; simpl; [|done].
    destruct (Float.is_finite f); simpl; intros [= <- <-]; right; split_and!; try done;
      try (intros _ [= ->]; by apply Hval).
    intros key. rewrite slot_lookup_append.
    destruct (decide (slot_of_float f = key)) as [->|]; [by rewrite decide_True|].
    rewrite decide_False; [done|congruence].
  - intros [= <- <-]. right. split_and!; [done|intros _ [= ->]; by apply Hval|done].
Qed.

Lemma classify_all ps issues d issues' d' :
  foldM classify (issues, d) ps = Ok (issues', d') ->
  exists new, issues' = issues ++ new /\
    (new = [] ->
      (forall p, p ∈ ps -> number p <> PNone -> placed p = Ok true ->
         ChannelNumber.is_valid_channel_number (number p) = true) /\
      forall key, slot_lookup key d' =
        slot_lookup key d ++ filter (fun p => slot_of p = Some key) ps).
Proof.
  revert issues d. induction ps as [|p ps IH]; intros issues d; cbn [foldM].
  { intros [= <- <-]. exists []. rewrite app_nil_r. split; [done|]. intros _.
    split; [by intros p ?%elem_of_nil|]. intros key. by rewrite app_nil_r. }
  destruct (classify (issues, d) p) as [[i1 d1]|] eqn:Hc; [|done].
  intros (new & -> & Hnew)%IH.
  apply classify_spec in Hc as [[-> _]|(-> & Hval & Hlook)].
  { exists (invalid_issue p :: new). rewrite <- app_assoc. by split. }
  exists new. split; [done|]. intros ->. destruct (Hnew eq_refl) as [Hv Hl].
  split.
  - intros q [->|Hq]%elem_of_cons; auto.
  - intros key. rewrite Hl, Hlook, filter_cons. repeat case_decide; try done.
    by rewrite <- app_assoc.
Qed.

Lemma report_all_nil d issues :
  foldM report_slot issues d = Ok [] ->
  issues = [] /\ forall key ps, (key, ps) ∈ d -> slot_issue key ps = Ok None.
Proof.
  revert issues. induction d as [|[k qs] d IH]; intros issues; cbn [foldM].
  { intros [= ->]. split; [done|]. by intros key ps ?%elem_of_nil. }
  unfold report_slot at 1. simpl. destruct (slot_issue k qs) as [[i|]|] eqn:Hs; simpl; [| |done].
  - intros [Hi _]%IH. by destruct issues.
  - intros [-> Hall]%IH. split; [done|]. intros key ps [[= -> ->]|Hin]%elem_of_cons; auto.
Qed.

Lemma accidental_nil key newcomers standing :
  accidental_newcomers key standing newcomers = [] ->
  forall l1 p l2, newcomers = l1 ++ p :: l2 ->
    consents key (list_to_set (map channel_id l1) ∪ standing) p = true.
Proof.
  revert standing. induction newcomers as [|q qs IH]; intros standing Hacc l1 p l2 Heq.
  { by destruct l1. }
  simpl in Hacc. destruct (consents key standing q) eqn:Hq; [|done].
  destruct l1 as [|q' l1]; injection Heq as <- ->.
  - simpl. by rewrite union_empty_l_L.
  - specialize (IH _ Hacc l1 p l2 eq_refl).
    by replace (list_to_set (map channel_id (q :: l1)) ∪ standing)
      with (list_to_set (map channel_id l1) ∪ ({[channel_id q]} ∪ standing)) by (simpl; set_solver +).
Qed.

Lemma split_placed_spec ps a b :
  split_placed ps = Ok (a, b) ->
  (forall p, p ∈ ps -> placed p = Ok true -> p ∈ a) /\
  (forall p, p ∈ ps -> placed p = Ok false -> p ∈ b).
Proof.
  revert a b. induction ps as [|p ps IH]; intros a b; simpl.
  { intros [= <- <-]. by split; intros ? ?%elem_of_nil. }
  destruct (placed p) as [pl|] eqn:Hp; simpl; [|done].
  destruct (split_placed ps) as [[a' b']|]; simpl; [|done].
  destruct (IH a' b' eq_refl) as [IH1 IH2].
  intros [= Hab]. split; intros q [->|Hq]%elem_of_cons Hpl; destruct pl; simplify_eq;
    rewrite ?elem_of_cons; auto; congruence.
Qed.

Lemma by_arrival_before l1 l2 p q newcomers :
  by_arrival newcomers = l1 ++ p :: l2 -> q ∈ newcomers ->
  (last_touch q < last_touch p)%nat -> q ∈ l1.
Proof.
  intros Heq Hq Hlt. apply (elem_of_py_sorted (fun p q => (last_touch p <=? last_touch q)%nat)) in Hq.
  change (py_sorted _ newcomers) with (by_arrival newcomers) in Hq. rewrite Heq in Hq.
  apply elem_of_app in Hq as [|[->|Hq]%elem_of_cons]; [done|lia|exfalso].
  assert (Hs : StronglySorted (fun a b => (last_touch a <=? last_touch b)%nat = true) (l1 ++ p :: l2)).
  { rewrite <- Heq. apply py_sorted_sorted.
    - intros x y ?. to_prop. apply Nat.leb_le. lia.
    - intros x y z ? ?. to_prop. apply Nat.leb_le. lia. }
  apply StronglySorted_app_1_r in Hs. apply StronglySorted_inv in Hs as [_ Hall].
  rewrite Forall_forall in Hall. specialize (Hall _ Hq). to_prop. lia.
Qed.

(** Everyone already standing on the slot when [p] arrived is named by [p]'s consent. *)
Lemma slot_accepted key occupants p q :
  slot_issue key occupants = Ok None -> p ∈ occupants -> q ∈ occupants ->
  channel_id p <> channel_id q -> placed p = Ok true ->
  placed q = Ok false \/ (placed q = Ok true /\ (last_touch q < last_touch p)%nat) ->
  exists a, acknowledged p = Some a /\ slot_acked a = key /\ channel_id q ∈ occupant_ids a.
Proof.
  intros Hs Hp Hq Hne Hpp Hqq. unfold slot_issue in Hs.
  destruct (Nat.ltb_spec (length occupants) 2) as [Hlen|_].
  { destruct occupants as [|x [|y l]]; simpl in Hlen; [by apply elem_of_nil in Hp| |lia].
    apply list_elem_of_singleton in Hp, Hq. congruence. }
  destruct (split_placed occupants) as [[contributors rest]|] eqn:Hsp; [|done].
  apply split_placed_spec in Hsp as [Hin1 Hin2]. pose proof (Hin1 p Hp Hpp) as Hpc.
  destruct contributors as [|c cs] eqn:Hc; [by apply elem_of_nil in Hpc|]. rewrite <- Hc in *.
  destruct (accidental_newcomers _ _ _) eqn:Hacc; [|done].
  pose proof Hpc as Hpa. apply (elem_of_py_sorted (fun p q => (last_touch p <=? last_touch q)%nat)) in Hpa.
  change (py_sorted _ contributors) with (by_arrival contributors) in Hpa.
  apply list_elem_of_split in Hpa as (l1 & l2 & Hsplit).
  pose proof (accidental_nil _ _ _ Hacc l1 p l2 Hsplit) as Hcons.
  assert (Hstand : channel_id q ∈ (list_to_set (map channel_id l1) ∪
             list_to_set (map channel_id rest) : gset Z)).
  { rewrite elem_of_union, !elem_of_list_to_set. destruct Hqq as [Hqf|[Hqt Hlt]].
    - right. apply list_elem_of_fmap_2. by apply Hin2.
    - left. apply list_elem_of_fmap_2. eapply by_arrival_before; eauto. }
  unfold consents in Hcons. apply orb_prop in Hcons as [Hcons|Hcons].
  { apply bool_decide_eq_true in Hcons. rewrite Hcons in Hstand. by apply not_elem_of_empty in Hstand. }
  destruct (acknowledged p) as [a|]; [|done]. to_prop. exists a. split_and!; [done|done|set_solver].
Qed.

(** No unconfirmed collision gets through.  If the check accepts a request, then every
    number the request put a channel on is in contract; and whenever a channel it placed
    shares a slot with another channel that was already there (untouched, or placed by an
    earlier operation), the newcomer's own final placement carries consent to that very
    slot naming that very channel. *)
Theorem accepted_placements_consented existing ops ps p :
  build_final_numbering_state existing ops = Ok ps ->
  evaluate_final_numbering existing ops = Ok [] ->
  p ∈ ps -> placed p = Ok true ->
  (number p <> PNone -> ChannelNumber.is_valid_channel_number (number p) = true) /\
  forall q key, q ∈ ps -> channel_id q <> channel_id p ->
    slot_of p = Some key -> slot_of q = Some key ->
    placed q = Ok false \/ (placed q = Ok true /\ (last_touch q < last_touch p)%nat) ->
    exists a, acknowledged p = Some a /\ slot_acked a = key /\ channel_id q ∈ occupant_ids a.
Proof.
  intros Hb He Hp Hpl. unfold evaluate_final_numbering in He. rewrite Hb in He. simpl in He.
  unfold evaluate_placements in He.
  destruct (foldM classify _ _) as [[issues d]|] eqn:Hc; [|done].
  apply report_all_nil in He as [-> Hrep].
  apply classify_all in Hc as (new & Hnew & Hspec).
  destruct (Hspec (eq_sym Hnew)) as [Hval Hlook]. split; [auto|].
  intros q key Hq Hne Hsp Hsq Hqq.
  assert (Hin : forall r, r ∈ ps -> slot_of r = Some key -> r ∈ slot_lookup key d).
  { intros r Hr Hsr. rewrite Hlook. apply elem_of_app. right. by apply list_elem_of_filter. }
  apply (slot_accepted key (slot_lookup key d) p q); auto.
  eapply Hrep, slot_lookup_elem, Hin; eauto.
Qed.


(** ** Slots are the tenths grid *)

Lemma slot_of_scaled f t :
  Float.is_finite f = true ->
  Float.leb ChannelNumber.EXACT_INTEGER_FLOOR (Float.abs f) = false ->
  Float.mul f (Float.of_Z 10) = Float.of_Z t -> 0 < t < 2 ^ 53 -> slot_of_float f = Tick t.
Proof.
  intros Hf Hfl Hm Ht. unfold slot_of_float, ChannelNumber.CHANNEL_NUMBER_TICKS_PER_UNIT.
  rewrite Hf, Hfl, Hm. simpl negb. by rewrite ChannelNumber.of_Z_small_round.
Qed.

Lemma slot_of_int k : 0 <= k < 2 ^ 49 -> slot_key (PInt k) = Ok (Tick (10 * k)).
Proof.
  intros Hk. destruct (Z.eq_dec k 0) as [->|]; [reflexivity|].
  destruct (ChannelNumber.of_Z_small_finite k ltac:(lia)) as (m & e & E & _ & He).
  unfold slot_key, float_of, to_float. rewrite E. simpl. do 2 f_equal.
  apply slot_of_scaled; [done|by apply ChannelNumber.below_floor| |lia].
  rewrite <- E. apply Float.mul_10_small; lia.
Qed.

(** Below [2 ^ 49] two channel numbers share a slot exactly when they are the same tick:
    [7] and [7.0] are one number, [7.1] is another, and no rounding merges or splits
    slots. *)
Theorem slots_are_ticks t v :
  0 <= t < 10 * 2 ^ 49 -> ChannelNumber.channel_number_from_ticks t = Ok v ->
  slot_key v = Ok (Tick t).
Proof.
  intros Ht Hv.
  destruct (ChannelNumber.from_ticks_cases t Ht) as [(k & E & -> & Hk)|(m & e & E & He & H0 & Hs)];
    rewrite E in Hv; injection Hv as <-.
  - by apply slot_of_int.
  - unfold slot_key, float_of. simpl. f_equal.
    apply slot_of_scaled; [done|by apply ChannelNumber.below_floor|done|lia].
Qed.

Lemma slots_are_ticks_witness : slot_key (PFloat (Float.of_ratio 71 10)) = Ok (Tick 71).
Proof. apply (slots_are_ticks 71); [lia|reflexivity]. Defined.

(** ** Issues are about this request *)

Lemma placed_touched p : placed p = Ok true -> touched_by p <> [].
Proof.
  unfold placed, touched. destruct (moved p) as [m|]; simpl; [|done].
  destruct (touched_by p); [|done]. by rewrite andb_false_r.
Qed.

Definition issue_about (n : nat) (i : numbering_issue) : Prop :=
  ni_operation_indexes i <> [] /\ Forall (fun k => k < n)%nat (ni_operation_indexes i).

Lemma elem_of_sorted_indexes x l : x ∈ sorted_indexes l <-> x ∈ l.
Proof. unfold sorted_indexes. by rewrite elem_of_py_sorted, elem_of_remove_dups. Qed.

Lemma accidental_subset key st l p : p ∈ accidental_newcomers key st l -> p ∈ l.
Proof.
  revert st. induction l as [|q l IH]; intros st; simpl; [done|].
  destruct (consents key st q); rewrite ?elem_of_cons; naive_solver.
Qed.

Lemma split_placed_sound ps a b :
  split_placed ps = Ok (a, b) -> forall p, p ∈ a -> p ∈ ps /\ placed p = Ok true.
Proof.
  revert a b. induction ps as [|p ps IH]; intros a b; simpl.
  { intros [= <- <-]. by intros ? ?%elem_of_nil. }
  destruct (placed p) as [pl|] eqn:Hp; simpl; [|done].
  destruct (split_placed ps) as [[a' b']|]; simpl; [|done].
  specialize (IH a' b' eq_refl). intros [= Hab] q Hq.
  destruct pl; simplify_eq; rewrite ?elem_of_cons in *; naive_solver.
Qed.

Lemma slot_issue_about ops key occupants i :
  Forall (placement_ok ops) occupants -> slot_issue key occupants = Ok (Some i) ->
  issue_about (length ops) i.
Proof.
  intros Hok. unfold slot_issue. destruct (_ <? 2)%nat; [done|].
  destruct (split_placed occupants) as [[contributors rest]|] eqn:Hsp; [|done].
  destruct contributors as [|c cs] eqn:Hc; [done|]. rewrite <- Hc in *.
  destruct (accidental_newcomers _ _ _) as [|a acc] eqn:Hacc; [done|]. intros [= <-].
  assert (Hin : forall p, p ∈ a :: acc -> p ∈ occupants /\ placed p = Ok true).
  { intros p Hp. rewrite <- Hacc in Hp. apply accidental_subset in Hp.
    apply elem_of_py_sorted in Hp. by eapply split_placed_sound. }
  rewrite Forall_forall in Hok. split; cbn [ni_operation_indexes].
  - destruct (Hin a) as [_ Ht%placed_touched]; [by left|].
    destruct (touched_by a) as [|k ks] eqn:Hta; [done|]. intros Hnil.
    apply (not_elem_of_nil k). rewrite <- Hnil, elem_of_sorted_indexes.
    by left.
  - apply Forall_forall. intros k Hk. rewrite elem_of_sorted_indexes in Hk.
    change (k ∈ concat (map touched_by (a :: acc))) in Hk.
    apply elem_of_concat_map in Hk as (p & Hp & Hk). destruct (Hin p Hp) as [Hpo _].
    destruct (Hok p Hpo) as [Hall _]. rewrite Forall_forall in Hall. auto.
Qed.

Lemma slot_append_Forall (P : placement -> Prop) key p d :
  P p -> Forall (fun x => Forall P x.2) d -> Forall (fun x => Forall P x.2) (slot_append key p d).
Proof.
  intros Hp. induction 1 as [|[k ps] d Hps Hd IH]; simpl; [by repeat constructor|].
  destruct (decide (k = key)); constructor; simpl; auto. apply Forall_app; auto.
Qed.

Lemma classify_shape issues d p issues' d' :
  classify (issues, d) p = Ok (issues', d') ->
  (issues' = issues ++ [invalid_issue p] /\ d' = d /\ placed p = Ok true) \/
  (issues' = issues /\ d' = d) \/
  (exists key, issues' = issues /\ d' = slot_append key p d).
Proof.
  unfold classify.
  assert (number p = PNone \/ number p <> PNone) as [Hn|Hn] by (destruct (number p); auto).
  { rewrite Hn. intros [= <- <-]. auto. }
  assert (Hm : forall A (a b : A), match number p with PNone => a | _ => b end = b)
    by (by destruct (number p)).
  rewrite Hm. clear Hm. destruct (placed p) as [pl|] eqn:Hpl; [|done]. simpl.
  destruct (pl && negb _) eqn:Hinv.
  { intros [= <- <-]. left. apply andb_prop in Hinv as [-> _]. done. }
  destruct (is_number (number p)); simpl; [|intros [= <- <-]; auto].
  unfold float_of. destruct (to_float (number p)) as [f|]; simpl; [|done].
  destruct (Float.is_finite f); simpl; intros [= <- <-]; eauto.
Qed.

Lemma classify_about ops issues d p issues' d' :
  placement_ok ops p -> Forall (issue_about (length ops)) issues ->
  Forall (fun x => Forall (placement_ok ops) x.2) d ->
  classify (issues, d) p = Ok (issues', d') ->
  Forall (issue_about (length ops)) issues' /\
  Forall (fun x => Forall (placement_ok ops) x.2) d'.
Proof.
  intros Hp Hi Hd Hc.
  apply classify_shape in Hc as [(-> & -> & Hpl)|[[-> ->]|(key & -> & ->)]]; [|done|].
  - split; [|done]. apply Forall_app. split; [done|]. constructor; [|done].
    split; [by apply placed_touched|apply Hp].
  - split; [done|by apply slot_append_Forall].
Qed.

(** The request is only ever blamed for what it did.  Every issue names at least one
    operation to change and only operations of this request; in particular a lineup's own
    duplicates and out-of-contract numbers are never reported. *)
Theorem issues_name_operations existing ops issues :
  evaluate_final_numbering existing ops = Ok issues ->
  Forall (issue_about (length ops)) issues.
Proof.
  unfold evaluate_final_numbering.
  destruct (build_final_numbering_state existing ops) as [ps|] eqn:Hb; [|done].
  apply built_placements_ok in Hb. simpl. unfold evaluate_placements.
  destruct (foldM classify ([], []) ps) as [[iss d]|] eqn:Hc; [|done]. intros Hr.
  assert (Hinv : Forall (issue_about (length ops)) iss /\
                 Forall (fun x => Forall (placement_ok ops) x.2) d).
  { refine (foldM_inv classify (fun acc => Forall (issue_about (length ops)) acc.1 /\
      Forall (fun x => Forall (placement_ok ops) x.2) acc.2) _ _ _ _ _ Hc); [|by split].
    intros [is0 d0] p [is1 d1] Hp [Hi Hd] Hcl. rewrite Forall_forall in Hb.
    apply (classify_about ops is0 d0 p); auto. }
  destruct Hinv as [Hi Hd].
  refine (foldM_inv report_slot (Forall (issue_about (length ops))) _ _ _ _ Hi Hr).
  intros is0 [key occ] is1 Hin Hi0. unfold report_slot. simpl.
  destruct (slot_issue key occ) as [[i|]|] eqn:Hs; simpl; [| |done]; intros [= <-]; [|done].
  apply Forall_app. split; [done|]. constructor; [|done].
  rewrite Forall_forall in Hd. eapply slot_issue_about; [|done]. by apply (Hd (key, occ)).
Qed.


(** ** Concrete requests *)

Section examples.
Let num n := PFloat (Float.of_Z n).
Definition lineup : list existing_channel :=
    [ {| ec_id := Some 1; ec_name := Some "ESPN"; ec_number := num 5 |};
      {| ec_id := Some 2; ec_name := Some "TNT"; ec_number := num 6 |};
      {| ec_id := Some 3; ec_name := Some "AMC"; ec_number := num 7 |} ].
Definition move (id : Z) (n : Z) (ack : option ack_payload) : operation :=
    UpdateChannel id (PDict [("channel_number", num n)]) ack.
Definition consent (n : Z) (ids : list Z) : option ack_payload :=
    Some {| ack_number := num n; ack_occupantChannelIds := map PInt ids |}.

  (** Moves that are individually legal and collide together. *)
Definition collide : list operation := [move 1 8 None; move 2 5 None; move 3 5 None].
  (** The same with the second arrival's consent to the first. *)
Definition collide_confirmed : list operation :=
    [move 1 8 None; move 2 5 None; move 3 5 (consent 5 [2])].
End examples.

Example collide_reported : exists i,
  evaluate_final_numbering lineup collide = Ok [i] /\
  ni_type i = duplicate_channel_number /\ ni_operation_indexes i = [2%nat].
Proof. eexists. by vm_compute. Qed.

Definition confirmed_state : list placement :=
  match build_final_numbering_state lineup collide_confirmed with Ok ps => ps | _ => [] end.

Definition confirmed_placement (i : nat) : placement :=
  nth i confirmed_state {| channel_id := 0; name := ""; number := PNone; base_number := PNone;
    is_new := false; touched_by := []; acknowledged := None |}.

Lemma accepted_placements_consented_witness : exists a,
  acknowledged (confirmed_placement 2) = Some a /\ slot_acked a = Tick 50 /\
  2 ∈ occupant_ids a.
Proof.
  assert (Hb : build_final_numbering_state lineup collide_confirmed = Ok confirmed_state)
    by (vm_compute; reflexivity).
  assert (Hin : forall i, (i < 3)%nat -> confirmed_placement i ∈ confirmed_state).
  { intros i Hi. apply list_elem_of_In, nth_In. exact Hi. }
  destruct (accepted_placements_consented lineup collide_confirmed confirmed_state
    (confirmed_placement 2) Hb) as [_ H].
  - vm_compute. reflexivity.
  - apply Hin. lia.
  - vm_compute. reflexivity.
  - apply (H (confirmed_placement 1) (Tick 50)).
    + apply Hin. lia.
    + vm_compute. discriminate.
    + vm_compute. reflexivity.
    + vm_compute. reflexivity.
    + right. split; [vm_compute; reflexivity|vm_compute; lia].
Defined.

Lemma acknowledgement_of_final_placement_witness :
  match last (touched_by (confirmed_placement 2)) with
  | None => False
  | Some i => exists op, collide_confirmed !! i = Some op /\
      acknowledgement_of op = Ok (acknowledged (confirmed_placement 2))
  end.
Proof.
  apply (acknowledgement_of_final_placement lineup collide_confirmed confirmed_state
    (confirmed_placement 2)).
  - vm_compute. reflexivity.
  - apply list_elem_of_In, nth_In. vm_compute. lia.
Defined.

Lemma issues_name_operations_witness : exists issues,
  evaluate_final_numbering lineup collide = Ok issues /\ issues <> [] /\
  Forall (issue_about 3) issues.
Proof.
  assert (exists i, evaluate_final_numbering lineup collide = Ok [i]) as [i E]
    by (eexists; vm_compute; reflexivity).
  exists [i]. split_and!; [done|done|].
  exact (issues_name_operations lineup collide [i] E).
Defined.

(** An untouched [int] that has no float aborts the whole check instead of being skipped. *)
Example untouched_unrepresentable_raises :
  evaluate_final_numbering
    [{| ec_id := Some 1; ec_name := Some "ESPN"; ec_number := PInt (10 ^ 400) |}] [] =
  Raise OverflowError.
Proof. by vm_compute. Qed.

End NumberingPlan.
