(* ===== verification/NumberingApply.v ===== *)
(** * The order numbering writes go in, and how half a run is put back
    ([backend/channel_number_apply.py]).

    A run is a sequence of unguarded upstream writes.  [order_numbering_writes] sends a
    write only once the channels that hold its number have left, breaking each cycle at one
    of its members; [NumberingCompensator] records what landed and computes the writes that
    put it back.  Positions into the submitted writes stand for the writes while the loop
    runs; the loop and the cycle walk carry fuel, which [order_total] shows never runs
    out. *)
From S2P Require Import Prelude PyFloat PyValue ChannelNumber NumberingPlan.
From Corelib Require Import SpecFloat.
Open Scope Z_scope.

#[export] Instance spec_float_countable : Countable spec_float.
Proof.
  refine (inj_countable'
    (fun f => match f with
              | S754_zero s => inl (inl s) | S754_infinity s => inl (inr s)
              | S754_nan => inr (inl tt) | S754_finite s m e => inr (inr (s, m, e)) end)
    (fun x => match x with
              | inl (inl s) => S754_zero s | inl (inr s) => S754_infinity s
              | inr (inl _) => S754_nan | inr (inr (s, m, e)) => S754_finite s m e end) _).
  by intros [].
Defined.

Module NumberingApply.

Inductive error := OverflowError | ValueError | OutOfFuel.
Abbreviation result := (result error).

(** [float(value)] of an [int] or a [float]. *)
Definition float_of (v : pyval) : result py_float :=
  match to_float v with Some f => Ok f | None => Raise OverflowError end.

Definition EXACT_INTEGER_FLOOR : py_float := Float.of_Z (2 ^ 53).

(** The slot a value occupies: two keys ["x..."], ["t..."] are equal exactly when prefix and
    payload are. *)
Inductive slot :=
| ExactFloat (f : py_float)  (* "x..." *)
| Tick (t : Z).              (* "t..." *)

#[export] Instance slot_eq_dec : EqDecision slot.
Proof. solve_decision. Defined.

#[export] Instance slot_countable : Countable slot.
Proof.
  refine (inj_countable'
    (fun s => match s with ExactFloat f => inl f | Tick t => inr t end)
    (fun x => match x with inl f => ExactFloat f | inr t => Tick t end) _).
  by intros [].
Defined.

Definition slot_key (value : pyval) : result (option slot) :=
  if negb (is_number value) then Ok None
  else
    let! number := float_of value in
    if negb (Float.is_finite number) then Ok None
    else if Float.leb EXACT_INTEGER_FLOOR (Float.abs number) then Ok (Some (ExactFloat number))
    else Ok (Some (Tick (Float.round_int (Float.mul number
               (Float.of_Z ChannelNumber.CHANNEL_NUMBER_TICKS_PER_UNIT))))).

Definition same_channel_number (a b : pyval) : result bool :=
  let! slot_a := slot_key a in
  match slot_a with
  | None => Ok false
  | Some _ => let! slot_b := slot_key b in Ok (bool_decide (slot_a = slot_b))
  end.

Record numbering_write := {
  channel_id : Z;
  name : string;
  before : pyval;
  after : pyval;
}.

(** [NumberingWrite.moves] *)
Definition moves (w : numbering_write) : result bool :=
  match before w, after w with
  | PNone, PNone => Ok false
  | PNone, _ | _, PNone => Ok true
  | b, a => let! same := same_channel_number b a in Ok (negb same)
  end.

(** [NumberingWrite.inverse] *)
Definition inverse (w : numbering_write) : numbering_write :=
  {| channel_id := channel_id w; name := name w; before := after w; after := before w |}.

(** ** [order_numbering_writes] *)

(** The writes leaving each slot. *)
Definition add_leaving (leaving : gmap slot (list nat)) (x : nat * numbering_write)
    : result (gmap slot (list nat)) :=
  let '(position, w) := x in
  let! m := moves w in
  if negb m then Ok leaving
  else
    let! s := slot_key (before w) in
    match s with
    | None => Ok leaving
    | Some s => Ok (<[s := default [] (leaving !! s) ++ [position]]> leaving)
    end.

(** [blockers] and [blocking]. *)
Record graph := { blockers : gmap nat (gset nat); blocking : gmap nat (gset nat) }.

Definition add_edge (position : nat) (g : graph) (holder : nat) : graph :=
  if (holder =? position)%nat then g
  else {| blockers := alter (fun s => {[holder]} ∪ s) position (blockers g);
          blocking := alter (fun s => {[position]} ∪ s) holder (blocking g) |}.

Definition add_blockers (leaving : gmap slot (list nat)) (g : graph)
    (x : nat * numbering_write) : result graph :=
  let '(position, w) := x in
  let! s := slot_key (after w) in
  match s with
  | None => Ok g
  | Some s => Ok (foldl (add_edge position) g (default [] (leaving !! s)))
  end.

Definition no_edges (n : nat) : gmap nat (gset nat) :=
  list_to_map (map (fun p => (p, ∅)) (seq 0 n)).

Definition build_graph (pending : list numbering_write) : result graph :=
  let! leaving := foldM add_leaving ∅ (enumerate pending) in
  foldM (add_blockers leaving)
    {| blockers := no_edges (length pending); blocking := no_edges (length pending) |}
    (enumerate pending).

(** The loop's state; [cycles] keeps each cycle as the positions walked. *)
Record ordering := {
  waiting : gmap nat (gset nat);
  remaining : list nat;
  ordered : list nat;
  broken : list (list nat);
}.

(** [list.remove] *)
Fixpoint list_remove (x : nat) (l : list nat) : result (list nat) :=
  match l with
  | [] => Raise ValueError
  | y :: l' => if (y =? x)%nat then Ok l' else let! l'' := list_remove x l' in Ok (y :: l'')
  end.

(** The inner [release]. *)
Definition release (blocking : gmap nat (gset nat)) (st : ordering) (position : nat)
    : result ordering :=
  let! remaining' := list_remove position (remaining st) in
  Ok {| waiting := foldr (alter (fun s => s ∖ {[position]})) (waiting st)
                     (elements (default ∅ (blocking !! position)));
        remaining := remaining';
        ordered := ordered st ++ [position];
        broken := broken st |}.

Definition waits (st : ordering) (position : nat) : gset nat :=
  default ∅ (waiting st !! position).

(** [min] of a set; [None] stands for the [ValueError] on an empty one. *)
Fixpoint min_of (l : list nat) : option nat :=
  match l with
  | [] => None
  | x :: l' => Some match min_of l' with Some y => Nat.min x y | None => x end
  end.

(** The part of [seen] from [cursor] on. *)
Fixpoint from_index (cursor : nat) (seen : list nat) : list nat :=
  match seen with
  | [] => []
  | x :: seen' => if (x =? cursor)%nat then seen else from_index cursor seen'
  end.

(** Walk until a position repeats; the cycle is the walk from its first visit. *)
Fixpoint walk (fuel : nat) (st : ordering) (seen : list nat) (cursor : nat)
    : result (list nat) :=
  if bool_decide (cursor ∈ seen) then Ok (from_index cursor seen)
  else
    match fuel with
    | O => Raise OutOfFuel
    | S fuel =>
        match min_of (elements (waits st cursor ∩ list_to_set (remaining st))) with
        | None => Raise ValueError
        | Some next => walk fuel st (seen ++ [cursor]) next
        end
    end.

(** One pass of the [while remaining] loop. *)
Definition pass (blocking : gmap nat (gset nat)) (st : ordering) : result ordering :=
  match List.filter (fun p => bool_decide (waits st p = ∅)) (remaining st) with
  | (_ :: _) as ready => foldM (release blocking) st ready
  | [] =>
      match remaining st with
      | [] => Ok st
      | cursor :: _ =>
          let! cycle := walk (length (remaining st)) st [] cursor in
          match min_of cycle with
          | None => Raise ValueError
          | Some b =>
              release blocking
                {| waiting := waiting st; remaining := remaining st; ordered := ordered st;
                   broken := broken st ++ [cycle] |} b
          end
      end
  end.

Fixpoint order_loop (fuel : nat) (blocking : gmap nat (gset nat)) (st : ordering)
    : result ordering :=
  match remaining st with
  | [] => Ok st
  | _ =>
      match fuel with
      | O => Raise OutOfFuel
      | S fuel => let! st' := pass blocking st in order_loop fuel blocking st'
      end
  end.

Record numbering_order := { writes : list numbering_write; cycles : list (list Z) }.

(** Tuple order: [tuple.__le__] on ids. *)
Fixpoint tuple_leb (a b : list Z) : bool :=
  match a, b with
  | [], _ => true
  | _ :: _, [] => false
  | x :: a', y :: b' => if x =? y then tuple_leb a' b' else x <? y
  end.

(** [tuple(sorted(pending[position].channel_id for position in cycle))] *)
Definition cycle_ids (pending : list numbering_write) (cycle : list nat) : list Z :=
  py_sorted Z.leb (omap (fun p => channel_id <$> pending !! p) cycle).

Definition order_numbering_writes (pending : list numbering_write) : result numbering_order :=
  match pending with
  | [] => Ok {| writes := []; cycles := [] |}
  | _ =>
      let! g := build_graph pending in
      let! st := order_loop (length pending) (blocking g)
        {| waiting := blockers g; remaining := seq 0 (length pending);
           ordered := []; broken := [] |} in
      Ok {| writes := omap (fun p => pending !! p) (ordered st);
            cycles := py_sorted tuple_leb (map (cycle_ids pending) (broken st)) |}
  end.

(** ** [NumberingCompensator] *)

Record compensator := {
  landed : list numbering_write;
  failed : list numbering_write;
  first_before : gmap Z pyval;
}.

Definition new_compensator : compensator :=
  {| landed := []; failed := []; first_before := ∅ |}.

Definition record_landed (c : compensator) (w : numbering_write) : compensator :=
  {| landed := landed c ++ [w]; failed := failed c;
     first_before := match first_before c !! channel_id w with
                     | None => <[channel_id w := before w]> (first_before c)
                     | Some _ => first_before c
                     end |}.

(** [self._first_before.get(channel_id)] *)
Definition first_before_of (c : compensator) (id : Z) : pyval :=
  default PNone (first_before c !! id).

Definition record_failed (c : compensator) (id : Z) (n : string) (intended : pyval)
    : compensator :=
  {| landed := landed c;
     failed := failed c ++ [{| channel_id := id; name := n;
                               before := first_before_of c id; after := intended |}];
     first_before := first_before c |}.

Definition half_applied (c : compensator) : bool :=
  match landed c, failed c with _ :: _, _ :: _ => true | _, _ => false end.

Definition restore_of (c : compensator) (w : numbering_write) : numbering_write :=
  {| channel_id := channel_id w; name := name w; before := after w;
     after := first_before_of c (channel_id w) |}.

(** One pass of the loop over the landed writes, newest first. *)
Definition compensate_one (c : compensator) (acc : list numbering_write * gset Z)
    (w : numbering_write) : result (list numbering_write * gset Z) :=
  let '(steps, seen) := acc in
  if bool_decide (channel_id w ∈ seen) then Ok acc
  else
    let seen := {[channel_id w]} ∪ seen in
    let! m := moves (restore_of c w) in
    if negb m then Ok (steps, seen) else Ok (steps ++ [restore_of c w], seen).

Definition compensation_steps (c : compensator) : result (list numbering_write) :=
  if negb (half_applied c) then Ok []
  else
    let! acc := foldM (compensate_one c) ([], ∅) (reverse (landed c)) in
    Ok acc.1.

(** ** [recovery_steps] *)

Record recovery := {
  rs_channelId : Z;
  rs_channelName : string;
  rs_currentNumber : pyval;
  rs_targetNumber : pyval;
  rs_step : string;
  rs_error : string;
}.

Definition quote : string := String (Ascii.ascii_of_nat 34) EmptyString.

Definition instruction (step : numbering_write) : Prelude.result ChannelNumber.error string :=
  let! current := ChannelNumber.format_channel_number (before step) in
  match after step with
  | PNone => Ok (String.concat "" ["Clear the channel number on "; quote; name step; quote;
      " (channel "; str_of_Z (channel_id step); "), which this run left on "; current;
      "; it had no number before."])
  | _ =>
      let! target := ChannelNumber.format_channel_number (after step) in
      Ok (String.concat "" ["Set "; quote; name step; quote; " (channel ";
        str_of_Z (channel_id step); ") back to channel number "; target;
        "; this run left it on "; current; "."])
  end.

Fixpoint recovery_steps (unrepaired : list (numbering_write * string))
    : Prelude.result ChannelNumber.error (list recovery) :=
  match unrepaired with
  | [] => Ok []
  | (step, error) :: rest =>
      let! i := instruction step in
      let! report := recovery_steps rest in
      Ok ({| rs_channelId := channel_id step; rs_channelName := name step;
             rs_currentNumber := before step; rs_targetNumber := after step;
             rs_step := i; rs_error := error |} :: report)
  end.

(** ** The dependency graph *)

(** Write [q] leaves slot [s]. *)
Definition leaves (pending : list numbering_write) (q : nat) (s : slot) : Prop :=
  exists w, pending !! q = Some w /\ moves w = Ok true /\ slot_key (before w) = Ok (Some s).

(** Write [p] lands on a slot that another write [q] leaves. *)
Definition waits_on (pending : list numbering_write) (p q : nat) : Prop :=
  p <> q /\ exists w s, pending !! p = Some w /\ slot_key (after w) = Ok (Some s) /\
    leaves pending q s.

Lemma leaving_spec pending leaving :
  foldM add_leaving ∅ (enumerate pending) = Ok leaving ->
  forall s q, q ∈ default [] (leaving !! s) <-> leaves pending q s.
Proof.
  intros Hf. cut (forall s q, q ∈ default [] (leaving !! s) <->
    (q < length pending)%nat /\ leaves pending q s).
  { intros H s q. rewrite H. split; [tauto|]. intros Hl. split; [|done].
    destruct Hl as (w & Hw & _). by apply lookup_lt_Some in Hw. }
  refine (foldM_enumerate_inv add_leaving (fun i lv => forall s q,
    q ∈ default [] (lv !! s) <-> (q < i)%nat /\ leaves pending q s) pending ∅ leaving _ _ Hf).
  - intros i w lv lv' Hi IH Hadd s q.
    assert (Hlt : (q < S i)%nat <-> (q < i)%nat \/ q = i) by lia.
    rewrite Hlt. unfold add_leaving in Hadd.
    assert (Hskip : lv' = lv -> (forall s', leaves pending i s' -> False) ->
      q ∈ default [] (lv' !! s) <-> (q < i \/ q = i)%nat /\ leaves pending q s).
    { intros -> Hno. rewrite IH. naive_solver. }
    destruct (moves w) as [m|] eqn:Hm; [|done]. destruct m; cbn in Hadd.
    + destruct (slot_key (before w)) as [[s'|]|] eqn:Hs; cbn in Hadd; simplify_eq.
      * destruct (decide (s' = s)) as [->|Hne].
        -- rewrite lookup_insert. case_decide; [|done]. cbn.
           rewrite elem_of_app, list_elem_of_singleton, IH.
           split; [|naive_solver].
           intros [[? ?]| ->]; [naive_solver|]. split; [tauto|]. by exists w.
        -- rewrite lookup_insert_ne by done. rewrite IH. split; [naive_solver|].
           intros [[?| ->] Hl]; [by split|]. destruct Hl as (w2 & ? & ? & Hs2). simplify_eq. congruence.
      * apply Hskip; [done|]. intros s' (w' & ? & ? & ?). simplify_eq. congruence.
    + simplify_eq. apply Hskip; [done|]. intros s' (w' & ? & ? & ?). simplify_eq. congruence.
  - intros s q. rewrite lookup_empty. cbn. rewrite elem_of_nil. split; [done|lia].
Qed.

(** Both maps have every position, and record the relation [R] and its converse. *)
Definition graph_ok (n : nat) (R : nat -> nat -> Prop) (g : graph) : Prop :=
  (forall p, (p < n)%nat -> exists b, blockers g !! p = Some b /\ forall q, q ∈ b <-> R p q) /\
  (forall q, (q < n)%nat -> exists d, blocking g !! q = Some d /\ forall p, p ∈ d <-> R p q).

Lemma graph_ok_ext n R R' g :
  (forall p q, R p q <-> R' p q) -> graph_ok n R g -> graph_ok n R' g.
Proof. unfold graph_ok. intros HR. by setoid_rewrite HR. Qed.

Lemma alter_union_ok n (R R' : nat -> nat -> Prop) (m : gmap nat (gset nat)) k x :
  (forall p q, R' p q <-> R p q \/ (p = k /\ q = x)) ->
  (forall p, (p < n)%nat -> exists b, m !! p = Some b /\ forall q, q ∈ b <-> R p q) ->
  forall p, (p < n)%nat -> exists b, alter (fun s => {[x]} ∪ s) k m !! p = Some b /\
    forall q, q ∈ b <-> R' p q.
Proof.
  intros HR Hm p Hp. destruct (Hm p Hp) as (b & Hb & Hq).
  destruct (decide (k = p)) as [->|Hne].
  - exists ({[x]} ∪ b). rewrite lookup_alter. case_decide; [|done]. rewrite Hb. split; [done|].
    intros q. rewrite HR, elem_of_union, elem_of_singleton, Hq. naive_solver.
  - exists b. rewrite lookup_alter_ne by done. split; [done|]. intros q. rewrite HR, Hq. naive_solver.
Qed.

Lemma add_edge_ok n R g p q :
  graph_ok n R g -> graph_ok n (fun a b => R a b \/ (a = p /\ b = q /\ p <> q)) (add_edge p g q).
Proof.
  intros [Hb Hd]. unfold add_edge. destruct (q =? p)%nat eqn:E; to_prop.
  - eapply graph_ok_ext; [|split; eassumption]. naive_solver.
  - split; cbn.
    + eapply alter_union_ok; [|exact Hb]. naive_solver.
    + eapply (alter_union_ok n (fun b a => R a b) (fun b a => R a b \/ _)); [|exact Hd].
      naive_solver.
Qed.

Lemma add_edges_ok n p l : forall R g,
  graph_ok n R g ->
  graph_ok n (fun a b => R a b \/ (a = p /\ b ∈ l /\ p <> b)) (foldl (add_edge p) g l).
Proof.
  induction l as [|q l IH]; intros R g Hg; cbn [foldl].
  - eapply graph_ok_ext; [|exact Hg]. intros a b. rewrite elem_of_nil. naive_solver.
  - eapply graph_ok_ext; [|apply IH, add_edge_ok, Hg]. intros a b. rewrite elem_of_cons.
    naive_solver.
Qed.

Lemma no_edges_lookup n p : (p < n)%nat -> no_edges n !! p = Some ∅.
Proof.
  intros Hp. unfold no_edges. apply elem_of_list_to_map.
  - rewrite <- list_fmap_compose. cbn. rewrite list_fmap_id. apply NoDup_seq.
  - apply list_elem_of_fmap. exists p. split; [done|]. apply elem_of_seq. lia.
Qed.

Lemma build_graph_ok pending g :
  build_graph pending = Ok g -> graph_ok (length pending) (waits_on pending) g.
Proof.
  unfold build_graph. destruct (foldM add_leaving _ _) as [lv|] eqn:Hlv; [|done]. cbn [rbind].
  specialize (leaving_spec _ _ Hlv) as Hs. intros Hf.
  cut (graph_ok (length pending) (fun p q => (p < length pending)%nat /\ waits_on pending p q) g).
  { apply graph_ok_ext. intros p q. split; [tauto|]. intros Hw. split; [|done].
    destruct Hw as (_ & w & s & Hw & _). by apply lookup_lt_Some in Hw. }
  refine (foldM_enumerate_inv (add_blockers lv) (fun i => graph_ok (length pending)
    (fun p q => (p < i)%nat /\ waits_on pending p q)) pending _ g _ _ Hf).
  - intros i w g0 g1 Hi Hg0 Hadd. unfold add_blockers in Hadd.
    assert (Hlt : forall p, (p < S i)%nat <-> (p < i)%nat \/ p = i) by lia.
    destruct (slot_key (after w)) as [[s|]|] eqn:Hk; cbn in Hadd; simplify_eq.
    + eapply graph_ok_ext; [|apply add_edges_ok, Hg0]. intros p q. cbn.
      rewrite Hs, Hlt. unfold waits_on. split.
      * intros [?|(-> & ? & ?)]; [naive_solver|]. split; [tauto|]. split; [done|]. eauto.
      * intros [[?| ->] (Hne & w' & s' & ? & Hk' & ?)]; [left; do 2 (split; [done|]); by exists w', s'|]. simplify_eq.
        right. assert (s' = s) as -> by congruence. done.
    + eapply graph_ok_ext; [|exact Hg0]. intros p q. cbn. rewrite Hlt. split; [intros [? ?]; split; [by left|done]|].
      intros [[?| ->] (Hne & w' & s' & ? & Hk' & ?)]; [|simplify_eq; congruence].
      do 2 (split; [done|]). by exists w', s'.
  - split; cbn; intros p Hp; exists ∅; (split; [by apply no_edges_lookup|]); intros q;
      rewrite elem_of_empty; split; [done|lia|done|lia].
Qed.

(** A write whose two numbers have floats. *)
Definition representable (w : numbering_write) : Prop :=
  is_ok (slot_key (before w)) = true /\ is_ok (slot_key (after w)) = true.

Lemma moves_ok w : representable w -> is_ok (moves w) = true.
Proof.
  intros [Hb Ha]. unfold moves, same_channel_number.
  destruct (slot_key (before w)) as [[]|] eqn:Eb; [| |done];
  destruct (slot_key (after w)) as [|] eqn:Ea; try done;
  destruct (before w), (after w); cbn [rbind]; rewrite ?Eb, ?Ea; done.
Qed.

Lemma build_graph_total pending : Forall representable pending -> exists g, build_graph pending = Ok g.
Proof.
  intros Hrep. rewrite Forall_lookup in Hrep. unfold build_graph.
  destruct (foldM_enumerate_ok add_leaving pending ∅) as [lv ->].
  { intros i w lv Hi. specialize (Hrep i w Hi) as Hr. unfold add_leaving.
    specialize (moves_ok w Hr) as Hm. destruct Hr as [Hb _].
    destruct (moves w) as [m|]; [|done]. cbn [rbind]. destruct m; [|done]. cbn [negb].
    destruct (slot_key (before w)) as [[]|]; done. }
  cbn [rbind]. apply foldM_enumerate_ok. intros i w g Hi.
  destruct (Hrep i w Hi) as [_ Ha]. unfold add_blockers.
  destruct (slot_key (after w)) as [[]|]; done.
Qed.

(** ** The loop *)

(** [l] followed by [c] is a path of [R]. *)
Fixpoint chain (R : nat -> nat -> Prop) (l : list nat) (c : nat) : Prop :=
  match l with
  | [] => True
  | x :: l' => R x (default c (head l')) /\ chain R l' c
  end.

(** Distinct positions, each waiting on the next and the last on the first. *)
Definition is_cycle (R : nat -> nat -> Prop) (c : list nat) : Prop :=
  match c with [] => False | x :: _ => NoDup c /\ chain R c x end.

Lemma chain_snoc R l x y : chain R l x -> R x y -> chain R (l ++ [x]) y.
Proof.
  induction l as [|a l IH]; simpl; [done|]. intros [Ha Hl] Hxy. split; [|auto].
  by destruct l.
Qed.

Lemma chain_suffix R l1 l2 c : chain R (l1 ++ l2) c -> chain R l2 c.
Proof. induction l1; simpl; tauto. Qed.

Lemma from_index_spec c seen : c ∈ seen -> exists l1 l2, seen = l1 ++ c :: l2 /\
  from_index c seen = c :: l2.
Proof.
  induction seen as [|x seen IH]; [by intros ?%elem_of_nil|]. cbn [from_index].
  destruct (x =? c)%nat eqn:E; to_prop; [subst; intros _; by exists [], seen|].
  intros [->|Hc]%elem_of_cons; [done|]. destruct (IH Hc) as (l1 & l2 & -> & ->).
  by exists (x :: l1), l2.
Qed.

Lemma min_of_elem l m : min_of l = Some m -> m ∈ l.
Proof.
  revert m. induction l as [|x l IH]; intros m; [done|]. cbn [min_of]. intros [= <-].
  destruct (min_of l) as [y|]; [|by left].
  destruct (Nat.min_spec x y) as [[_ ->]|[_ ->]]; [by left|right; auto].
Qed.

Lemma min_of_nonempty l x : x ∈ l -> exists m, min_of l = Some m.
Proof. destruct l; [by intros ?%elem_of_nil|]. eexists; reflexivity. Qed.

Lemma list_remove_ok x l : x ∈ l -> exists l', list_remove x l = Ok l' /\ l ≡ₚ x :: l'.
Proof.
  induction l as [|y l IH]; [by intros ?%elem_of_nil|]. cbn [list_remove].
  destruct (y =? x)%nat eqn:E; to_prop; [subst; eauto|].
  intros [->|Hx]%elem_of_cons; [done|]. destruct (IH Hx) as (l' & -> & Hl').
  eexists; split; [done|]. rewrite Hl'. apply Permutation_swap.
Qed.

Lemma foldr_alter_lookup (x : nat) l (m : gmap nat (gset nat)) p b :
  m !! p = Some b ->
  exists b', foldr (alter (fun s => s ∖ {[x]})) m l !! p = Some b' /\
    forall q, q ∈ b' <-> q ∈ b /\ (q <> x \/ p ∉ l).
Proof.
  intros Hm. induction l as [|k l (b' & Hb' & IH)]; cbn [foldr].
  { exists b. split; [done|]. intros q. rewrite elem_of_nil. tauto. }
  destruct (decide (k = p)) as [->|Hne].
  - exists (b' ∖ {[x]}). rewrite lookup_alter, Hb'. case_decide; [|done]. split; [done|].
    intros q. rewrite elem_of_difference, elem_of_singleton, IH, elem_of_cons. tauto.
  - exists b'. rewrite lookup_alter_ne by done. split; [done|].
    intros q. rewrite IH, elem_of_cons. destruct (decide (p ∈ l)); naive_solver.
Qed.

Section loop.
Context (n : nat) (R : nat -> nat -> Prop) (D : gmap nat (gset nat)).
Context (R_bound : forall p q, R p q -> (p < n)%nat /\ (q < n)%nat).
Context (D_ok : forall q, (q < n)%nat -> exists d, D !! q = Some d /\ forall p, p ∈ d <-> R p q).

(** [blockers] never names a released position, and each position is released once. *)
Definition loop_inv (st : ordering) : Prop :=
  ordered st ++ remaining st ≡ₚ seq 0 n /\
  forall p, (p < n)%nat -> exists b, waiting st !! p = Some b /\
    forall q, q ∈ b <-> R p q /\ q ∉ ordered st.

(** Every position released other than a cycle's break came after all it waits on. *)
Definition loop_safe (st : ordering) : Prop := exists breaks,
  (forall l1 p l2, ordered st = l1 ++ p :: l2 -> p ∈ breaks \/ forall q, R p q -> q ∈ l1) /\
  Forall2 (fun b c => is_cycle R c /\ min_of c = Some b) breaks (broken st).

Lemma remaining_bound st p : loop_inv st -> p ∈ remaining st -> (p < n)%nat.
Proof.
  intros [Hp _] Hr. assert (Hin : p ∈ seq 0 n) by (rewrite <- Hp, elem_of_app; by right).
  apply elem_of_seq in Hin. lia.
Qed.

Lemma remaining_NoDup st : loop_inv st -> NoDup (remaining st).
Proof.
  intros [Hp _]. assert (Hn : NoDup (ordered st ++ remaining st)) by (rewrite Hp; apply NoDup_seq).
  by apply NoDup_app in Hn as (_ & _ & ?).
Qed.

Lemma waits_spec st p : loop_inv st -> (p < n)%nat ->
  forall q, q ∈ waits st p <-> R p q /\ q ∉ ordered st.
Proof. intros [_ Hw] Hp. unfold waits. destruct (Hw p Hp) as (b & -> & Hb). exact Hb. Qed.

Lemma release_ok st p :
  loop_inv st -> p ∈ remaining st ->
  exists st', release D st p = Ok st' /\ loop_inv st' /\ ordered st' = ordered st ++ [p] /\
    remaining st ≡ₚ p :: remaining st' /\ broken st' = broken st.
Proof.
  intros Hinv Hp. specialize (remaining_bound _ _ Hinv Hp) as Hlt. destruct Hinv as [Hperm Hw].
  unfold release. destruct (list_remove_ok _ _ Hp) as (rem & -> & Hrem). cbn [rbind].
  eexists. split; [done|]. cbn [ordered remaining broken]. split_and!; [|done|done|done].
  split; cbn [waiting ordered remaining].
  - rewrite <- Hperm, Hrem, <- app_assoc. done.
  - intros a Ha. destruct (Hw a Ha) as (b & Hb & Hbq). destruct (D_ok p Hlt) as (d & -> & Hd).
    cbn [default id]. destruct (foldr_alter_lookup p (elements d) _ a b Hb) as (b' & -> & Hb').
    exists b'. split; [done|]. intros q.
    rewrite Hb', Hbq, elem_of_elements, Hd, elem_of_app, list_elem_of_singleton.
    destruct (decide (q = p)) as [->|]; tauto.
Qed.

Lemma loop_safe_release st st' p :
  ordered st' = ordered st ++ [p] -> broken st' = broken st ->
  (forall q, R p q -> q ∈ ordered st) -> loop_safe st -> loop_safe st'.
Proof.
  intros Ho Hb Hp (breaks & Hs & Hc). exists breaks. rewrite Ho, Hb. split; [|done].
  intros l1 a l2 Heq. destruct l2 as [|z l2 _] using rev_ind.
  - apply app_inj_tail in Heq as [? ?]. subst. by right.
  - rewrite app_comm_cons, app_assoc in Heq. apply app_inj_tail in Heq as [Heq ?]. subst. eauto.
Qed.

(** Releasing every position that is ready. *)
Lemma release_ready_ok ready : forall st,
  loop_inv st -> NoDup ready -> ready ⊆ remaining st ->
  (forall p q, p ∈ ready -> R p q -> q ∈ ordered st) ->
  exists st', foldM (release D) st ready = Ok st' /\ loop_inv st' /\
    ordered st' = ordered st ++ ready /\ remaining st ≡ₚ ready ++ remaining st' /\
    broken st' = broken st /\ (loop_safe st -> loop_safe st').
Proof.
  induction ready as [|p ready IH]; intros st Hinv Hnd Hsub Hr; cbn [foldM].
  { exists st. by rewrite app_nil_r. }
  apply NoDup_cons in Hnd as [Hp Hnd].
  destruct (release_ok st p Hinv) as (st1 & -> & Hinv1 & Ho1 & Hrem1 & Hb1); [apply Hsub; by left|].
  destruct (IH st1) as (st2 & -> & Hinv2 & Ho2 & Hrem2 & Hb2 & Hs2); try done.
  - intros a Ha. assert (Hin : a ∈ remaining st) by (apply Hsub; by right).
    rewrite Hrem1 in Hin. apply elem_of_cons in Hin as [->|]; done.
  - intros a q Ha HR. rewrite Ho1, elem_of_app. left. apply (Hr a q); [by right|done].
  - exists st2. split_and!; [done|done| | |congruence|].
    + rewrite Ho2, Ho1, <- app_assoc. done.
    + rewrite Hrem1, Hrem2. done.
    + intros Hs. apply Hs2, (loop_safe_release st st1 p); [done|done| |done].
      intros q. apply Hr. by left.
Qed.

(** The walk finds a genuine cycle among what remains. *)
Lemma walk_ok st : loop_inv st ->
  (forall p, p ∈ remaining st -> waits st p <> ∅) ->
  forall fuel seen cursor, NoDup seen -> seen ⊆ remaining st -> cursor ∈ remaining st ->
  chain R seen cursor -> (length (remaining st) <= fuel + length seen)%nat ->
  exists c, walk fuel st seen cursor = Ok c /\ is_cycle R c /\ c ⊆ remaining st.
Proof.
  intros Hinv Hne. induction fuel as [|fuel IH]; intros seen cursor Hnd Hsub Hc Hch Hf;
    cbn [walk]; case_bool_decide as Hseen.
  1,3: destruct (from_index_spec _ _ Hseen) as (l1 & l2 & -> & ->); exists (cursor :: l2);
    split_and!; [done| |]; [split; [by apply NoDup_app in Hnd as (_ & _ & ?)|
      by apply chain_suffix in Hch]|];
    intros a Ha; apply Hsub, elem_of_app; by right.
  - exfalso. assert (Hlen : (length (seen ++ [cursor]) <= length (remaining st))%nat).
    { apply submseteq_length, NoDup_submseteq.
      - apply NoDup_app. split_and!; [done| |apply NoDup_singleton].
        intros a Ha ->%list_elem_of_singleton. done.
      - intros a. rewrite elem_of_app, list_elem_of_singleton. intros [?| ->]; auto. }
    rewrite length_app in Hlen. simpl in Hlen. lia.
  - specialize (remaining_bound _ _ Hinv Hc) as Hlt.
    assert (Hin : forall q, q ∈ elements (waits st cursor ∩ list_to_set (remaining st)) <->
      R cursor q /\ q ∈ remaining st).
    { intros q. rewrite elem_of_elements, elem_of_intersection, elem_of_list_to_set,
        (waits_spec st cursor Hinv Hlt). split; [tauto|]. intros [HR Hq].
      split_and!; [done| |done]. intros Ho. destruct Hinv as [Hp _].
      assert (Hnd' : NoDup (ordered st ++ remaining st)) by (rewrite Hp; apply NoDup_seq).
      apply NoDup_app in Hnd' as (_ & Hd & _). by apply (Hd q). }
    assert (exists q, R cursor q /\ q ∈ remaining st) as (q0 & Hq0).
    { destruct (set_choose_L (waits st cursor) (Hne cursor Hc)) as [q Hq].
      apply (waits_spec st cursor Hinv Hlt) in Hq as [HR Ho]. exists q. split; [done|].
      destruct Hinv as [Hp _]. assert (Hs : q ∈ ordered st ++ remaining st).
      { rewrite Hp. apply elem_of_seq. specialize (R_bound _ _ HR). lia. }
      apply elem_of_app in Hs as [?|?]; done. }
    apply Hin in Hq0. destruct (min_of_nonempty _ _ Hq0) as [m Hm]. rewrite Hm.
    apply min_of_elem, Hin in Hm as [HR Hm].
    apply IH.
    + apply NoDup_app. split_and!; [done| |apply NoDup_singleton].
      intros a Ha ->%list_elem_of_singleton. done.
    + intros a. rewrite elem_of_app, list_elem_of_singleton. intros [?| ->]; auto.
    + done.
    + by eapply chain_snoc.
    + rewrite length_app. simpl. lia.
Qed.

(** Every pass succeeds, emits something and keeps the order safe. *)
Lemma pass_ok st :
  loop_inv st -> loop_safe st -> remaining st <> [] ->
  exists st', pass D st = Ok st' /\ loop_inv st' /\ loop_safe st' /\
    (length (remaining st') < length (remaining st))%nat.
Proof.
  intros Hinv Hsafe Hne. unfold pass.
  remember (List.filter (fun p => bool_decide (waits st p = ∅)) (remaining st)) as ready eqn:Er.
  assert (Hready : forall p, p ∈ ready <-> p ∈ remaining st /\ waits st p = ∅).
  { intros p. rewrite Er, list_elem_of_In, filter_In, <- list_elem_of_In.
    by rewrite bool_decide_eq_true. }
  destruct ready as [|r0 ready].
  - destruct (remaining st) as [|cursor rest] eqn:Hrem; [done|]. rewrite <- Hrem in *.
    destruct (walk_ok st Hinv) with (fuel := length (remaining st)) (seen := @nil nat)
      (cursor := cursor) as (c & -> & Hcyc & Hsub); [|constructor|..].
    + intros p Hp He. eapply not_elem_of_nil. by apply Hready.
    + apply list_subseteq_nil.
    + rewrite Hrem. by left.
    + done.
    + simpl. lia.
    + cbn [rbind]. destruct c as [|x c']; [done|]. set (c := x :: c') in *.
      destruct (min_of_nonempty c x) as [b Hb]; [by left|]. rewrite Hb.
      set (st1 := {| waiting := _ |}).
      destruct (release_ok st1 b Hinv) as (st2 & -> & Hinv2 & Ho & Hr & Hbr).
      { by apply Hsub, min_of_elem. }
      exists st2. split_and!; [done|done| |].
      * destruct Hsafe as (breaks & Hs & Hc2). exists (breaks ++ [b]). rewrite Ho, Hbr. split.
        -- intros l1 p l2 Heq. destruct l2 as [|z l2 _] using rev_ind.
           ++ apply app_inj_tail in Heq as [? ?]. subst. left. apply elem_of_app. right. by left.
           ++ rewrite app_comm_cons, app_assoc in Heq. apply app_inj_tail in Heq as [Heq ?].
              destruct (Hs l1 p l2 Heq) as [?|?]; [left|by right]. apply elem_of_app. by left.
        -- apply Forall2_app; [done|]. by apply Forall2_cons.
      * apply Permutation_length in Hr. simpl in Hr. rewrite Hr. lia.
  - destruct (release_ready_ok (r0 :: ready) st Hinv) as (st' & -> & Hinv' & _ & Hr & _ & Hs').
    + rewrite Er. apply list_NoDup_filter, remaining_NoDup, Hinv.
    + intros p Hp. by apply Hready.
    + intros p q Hp HR. apply Hready in Hp as [Hp Hw].
      destruct (decide (q ∈ ordered st)) as [|Hq]; [done|exfalso].
      apply (not_elem_of_empty (C := gset nat) q). rewrite <- Hw.
      apply waits_spec; [done|by eapply remaining_bound|done].
    + exists st'. split_and!; [done|done|auto|].
      apply Permutation_length in Hr. simpl in Hr. rewrite length_app in Hr. lia.
Qed.

Lemma order_loop_ok fuel : forall st,
  loop_inv st -> loop_safe st -> (length (remaining st) <= fuel)%nat ->
  exists st', order_loop fuel D st = Ok st' /\ loop_inv st' /\ loop_safe st' /\
    remaining st' = [].
Proof.
  induction fuel as [|fuel IH]; intros st Hinv Hs Hf; cbn [order_loop];
    destruct (remaining st) as [|p rest] eqn:Hr; eauto; [simpl in Hf; lia|].
  destruct (pass_ok st Hinv Hs) as (st1 & -> & Hinv1 & Hs1 & Hlt); [by rewrite Hr|].
  cbn [rbind]. apply IH; [done|done|]. rewrite Hr in Hlt. simpl in *. lia.
Qed.
End loop.

(** ** What the order promises *)

Lemma waits_on_bound pending p q :
  waits_on pending p q -> (p < length pending)%nat /\ (q < length pending)%nat.
Proof.
  intros (_ & w & s & Hw & _ & w' & Hw' & _). split; by eapply lookup_lt_Some.
Qed.

(** The positions an order comes from: a permutation of the submitted ones, the cycles and
    the member each was broken at. *)
Definition order_plan (pending : list numbering_write) (o : numbering_order)
    (positions breaks : list nat) (found : list (list nat)) : Prop :=
  positions ≡ₚ seq 0 (length pending) /\
  writes o = omap (fun p => pending !! p) positions /\
  Forall2 (fun b c => is_cycle (waits_on pending) c /\ min_of c = Some b) breaks found /\
  cycles o ≡ₚ map (cycle_ids pending) found.

(** [p] is sent after [q]. *)
Definition sent_after (positions : list nat) (p q : nat) : Prop :=
  exists l1 l2, positions = l1 ++ p :: l2 /\ q ∈ l1.

Lemma order_spec pending : Forall representable pending ->
  exists o positions breaks found,
    order_numbering_writes pending = Ok o /\ order_plan pending o positions breaks found /\
    forall p q, waits_on pending p q -> p ∈ breaks \/ sent_after positions p q.
Proof.
  intros Hrep. unfold order_numbering_writes. destruct pending as [|w0 ws] eqn:E.
  { eexists _, [], [], []. split_and!; [done|repeat split; by constructor|].
    intros p q [Hb _]%waits_on_bound. simpl in Hb. lia. }
  rewrite <- E in *. destruct (build_graph_total _ Hrep) as [g Hg]. rewrite Hg. cbn [rbind].
  destruct (build_graph_ok _ _ Hg) as [Hblk Hblg].
  set (st0 := {| waiting := _ |}).
  destruct (order_loop_ok (length pending) (waits_on pending) (blocking g)
    (waits_on_bound pending) Hblg (length pending) st0) as (st & -> & [Hperm _] & Hs & Hrem).
  - split; [done|]. cbn. intros p Hp. destruct (Hblk p Hp) as (b & Hb & Hq). exists b.
    split; [done|]. intros q. rewrite Hq. split; [|tauto]. intros ?. split; [done|].
    apply not_elem_of_nil.
  - exists []. split; [|by constructor]. intros l1 p l2 Heq. by destruct l1.
  - cbn. by rewrite length_seq.
  - rewrite Hrem, app_nil_r in Hperm. destruct Hs as (breaks & Hs & Hc). cbn [rbind].
    eexists _, (ordered st), breaks, (broken st). split; [done|]. split.
    + split_and!; [done|done|done|]. cbn. apply py_sorted_perm.
    + intros p q Hw. assert (Hin : p ∈ ordered st).
      { rewrite Hperm. apply elem_of_seq. apply waits_on_bound in Hw. lia. }
      apply list_elem_of_split in Hin as (l1 & l2 & Heq).
      destruct (Hs _ _ _ Heq) as [?|Hq]; [by left|right]. exists l1, l2. auto.
Qed.

Lemma omap_lookup_seq {A} (l : list A) : omap (fun p => l !! p) (seq 0 (length l)) = l.
Proof.
  cut (forall l' k, drop k l = l' -> omap (fun p => l !! p) (seq k (length l')) = l').
  { intros H. by apply (H l 0%nat). }
  induction l' as [|x l' IH]; intros k Hk; [done|].
  assert (Hx : l !! k = Some x).
  { rewrite <- (Nat.add_0_r k), <- lookup_drop, Hk. done. }
  simpl. rewrite Hx. f_equal. apply IH. rewrite (drop_S l x k Hx) in Hk. by simplify_eq.
Qed.

(** C39: The order is total.  On a plan whose numbers have floats the loop ends, the walk
    always finds its next step, and every submitted write is emitted exactly once. *)
Theorem order_total pending :
  Forall representable pending ->
  exists o, order_numbering_writes pending = Ok o /\ writes o ≡ₚ pending.
Proof.
  intros Hrep. destruct (order_spec pending Hrep) as (o & pos & br & fd & Ho & Hp & _).
  exists o. split; [done|]. destruct Hp as (Hperm & -> & _). rewrite Hperm.
  by rewrite omap_lookup_seq.
Qed.

(** C1: no write lands on a number the plan has not vacated, but the cycle breaks.  The
    order is a permutation of the submitted positions in which a write comes after every
    write that leaves its target slot, except for one member (the earliest submitted) of
    each reported cycle, and each reported cycle is one: distinct writes each waiting on
    the next and the last on the first. *)
Theorem order_safe pending o :
  Forall representable pending -> order_numbering_writes pending = Ok o ->
  exists positions breaks found, order_plan pending o positions breaks found /\
    forall p q, waits_on pending p q -> p ∈ breaks \/ sent_after positions p q.
Proof.
  intros Hrep Ho. destruct (order_spec pending Hrep) as (o' & pos & br & fd & Ho' & H & Hs).
  assert (o' = o) as -> by congruence. by exists pos, br, fd.
Qed.

(** Where a safe order exists it is the one chosen.  If the writes wait on each other in
    no cycle, none is reported and every write is sent after all those that leave its
    target slot. *)
Theorem acyclic_order_safe pending o :
  Forall representable pending -> (forall c, is_cycle (waits_on pending) c -> False) ->
  order_numbering_writes pending = Ok o ->
  cycles o = [] /\ exists positions, positions ≡ₚ seq 0 (length pending) /\
    writes o = omap (fun p => pending !! p) positions /\
    forall p q, waits_on pending p q -> sent_after positions p q.
Proof.
  intros Hrep Hac Ho.
  destruct (order_spec pending Hrep) as (o' & pos & br & fd & Ho' & (Hp & Hw & Hf & Hc) & Hs).
  assert (o' = o) as -> by congruence.
  destruct Hf as [|b c br fd [Hcy _] _]; [|by apply Hac in Hcy].
  split; [by apply Permutation_nil_r in Hc|]. exists pos. split_and!; [done|done|].
  intros p q [?%elem_of_nil|?]%Hs; done.
Qed.

(** ** Compensation *)

(** What a run tells the compensator. *)
Inductive event :=
| Landed (w : numbering_write)
| Failed (id : Z) (n : string) (intended : pyval).

Definition record (c : compensator) (e : event) : compensator :=
  match e with
  | Landed w => record_landed c w
  | Failed id n v => record_failed c id n v
  end.

Definition run (events : list event) : compensator := foldl record new_compensator events.

Definition landed_of (events : list event) : list numbering_write :=
  omap (fun e => match e with Landed w => Some w | _ => None end) events.

(** The lineup the writes leave. *)
Definition lineup : Type := Z -> pyval.

Definition put (L : lineup) (w : numbering_write) : lineup :=
  fun id => if id =? channel_id w then after w else L id.

(** Each write's [before] is the number its channel holds when it lands. *)
Fixpoint truthful (L : lineup) (ws : list numbering_write) : Prop :=
  match ws with
  | [] => True
  | w :: ws' => before w = L (channel_id w) /\ truthful (put L w) ws'
  end.

Lemma landed_run events : landed (run events) = landed_of events.
Proof.
  unfold run. cut (forall c, landed (foldl record c events) = landed c ++ landed_of events).
  { intros H. apply H. }
  induction events as [|[w|id n v] events IH]; intros c; cbn; [by rewrite app_nil_r| |by rewrite IH].
  rewrite IH. cbn. by rewrite <- app_assoc.
Qed.

(** [first_before] holds the number of the lineup the run started from. *)
Lemma first_before_run events L :
  truthful L (landed_of events) ->
  forall w, w ∈ landed_of events -> first_before_of (run events) (channel_id w) = L (channel_id w).
Proof.
  unfold run. cut (forall L' c, truthful L' (landed_of events) ->
    (forall id v, first_before c !! id = Some v -> v = L id) ->
    (forall id, first_before c !! id = None -> L' id = L id) ->
    forall w, w ∈ landed_of events \/ is_Some (first_before c !! channel_id w) ->
      first_before_of (foldl record c events) (channel_id w) = L (channel_id w)).
  { intros H Ht w Hw. apply (H L); auto. done. }
  induction events as [|[w0|id n v] events IH]; intros L' c Ht H1 H2 w Hw; cbn in *.
  - destruct Hw as [?%elem_of_nil|[v Hv]]; [done|]. unfold first_before_of. rewrite Hv. cbn. auto.
  - destruct Ht as [Hb Ht]. apply (IH (put L' w0)); [done| | |]; cbn;
      destruct (first_before c !! channel_id w0) as [v0|] eqn:E; [eauto| | | | |].
    + intros id v. rewrite lookup_insert_Some. intros [[<- <-]|[_ ?]]; [|eauto].
      rewrite Hb. by apply H2.
    + intros id Hid. unfold put. destruct (id =? channel_id w0) eqn:Ei; to_prop; [|auto]. congruence.
    + intros id Hid. apply lookup_insert_None in Hid as [Hid ?]. unfold put.
      destruct (id =? channel_id w0) eqn:Ei; to_prop; [congruence|auto].
    + destruct Hw as [[->|?]%elem_of_cons|?]; eauto.
    + destruct (decide (channel_id w0 = channel_id w)) as [->|Hne].
      * right. rewrite lookup_insert. by case_decide.
      * rewrite lookup_insert_ne by done. destruct Hw as [[->|?]%elem_of_cons|?]; auto. done.
  - by apply (IH L').
Qed.

Lemma foldl_put_notin ws L id : id ∉ map channel_id ws -> foldl put L ws id = L id.
Proof.
  revert L. induction ws as [|w ws IH]; intros L; cbn; [done|].
  rewrite not_elem_of_cons. intros [Hne Hn]. rewrite IH by done. unfold put.
  destruct (id =? channel_id w) eqn:E; to_prop; done.
Qed.

Lemma foldl_put_last ws1 w ws2 L :
  channel_id w ∉ map channel_id ws2 -> foldl put L (ws1 ++ w :: ws2) (channel_id w) = after w.
Proof.
  intros Hn. rewrite foldl_app. cbn. rewrite foldl_put_notin by done. unfold put.
  by rewrite Z.eqb_refl.
Qed.

(** Both are the number the channel had, canonically. *)
Definition same_or_eq (a b : pyval) : Prop := a = b \/ same_channel_number a b = Ok true.

Lemma moves_false w : moves w = Ok false -> same_or_eq (before w) (after w).
Proof.
  unfold moves, same_or_eq. destruct (before w), (after w); auto; try done;
  destruct (same_channel_number _ _) as [[]|]; done || auto.
Qed.

(** The compensating loop: one step per channel, from where it is to where it was. *)
Definition compensated (c : compensator) (now : lineup) (processed : list numbering_write)
    (acc : list numbering_write * gset Z) : Prop :=
  (forall id, id ∈ acc.2 <-> id ∈ map channel_id processed) /\
  NoDup (map channel_id acc.1) /\
  (forall s, s ∈ acc.1 -> channel_id s ∈ acc.2 /\ moves s = Ok true /\
     before s = now (channel_id s) /\ after s = first_before_of c (channel_id s)) /\
  (forall id, id ∈ acc.2 -> id ∉ map channel_id acc.1 -> same_or_eq (now id) (first_before_of c id)).

Lemma compensate_ok c L acc :
  foldM (compensate_one c) ([], ∅) (reverse (landed c)) = Ok acc ->
  compensated c (foldl put L (landed c)) (reverse (landed c)) acc.
Proof.
  refine (foldM_prefix_inv _ (compensated c (foldl put L (landed c))) _ _ acc _ _).
  - intros l1 w l2 [steps seen] acc' Hl (Hseen & Hnd & Hsteps & Hskip) Hc.
    cbn [fst snd] in *. unfold compensate_one in Hc.
    assert (Hids : forall id, id ∈ map channel_id (l1 ++ [w]) <-> id ∈ seen \/ id = channel_id w).
    { intros id. rewrite map_app, elem_of_app, Hseen. cbn. by rewrite list_elem_of_singleton. }
    destruct (bool_decide (channel_id w ∈ seen)) eqn:Ew; to_prop.
    { simplify_eq. split_and!; [|done|done|done]. intros id. rewrite Hids. cbn. naive_solver. }
    assert (Hnow : foldl put L (landed c) (channel_id w) = after w).
    { rewrite <- (reverse_involutive (landed c)), Hl, reverse_app, reverse_cons, <- app_assoc.
      apply foldl_put_last. rewrite map_reverse, elem_of_reverse.
      by rewrite <- Hseen. }
    assert (Hni : channel_id w ∉ map channel_id steps).
    { intros Hin. apply Ew. apply elem_of_map in Hin as (s & -> & Hs). by apply Hsteps. }
    destruct (moves (restore_of c w)) as [m|] eqn:Hm; [|done]. cbn [rbind] in Hc.
    destruct m; cbn [negb] in Hc; simplify_eq; unfold compensated; cbn [fst snd].
    + split_and!.
      * intros id. rewrite Hids. set_solver.
      * rewrite map_app. apply NoDup_app. split_and!; [done| |apply NoDup_singleton].
        intros id Hid ->%list_elem_of_singleton. done.
      * intros s [Hs| ->%list_elem_of_singleton]%elem_of_app.
        -- destruct (Hsteps s Hs) as (? & ? & ? & ?). split_and!; [set_solver|done..].
        -- cbn. split_and!; [set_solver|done|done|done].
      * intros id Hid. rewrite map_app, not_elem_of_app. intros [Hn1 Hn2].
        apply Hskip; [|done]. set_solver.
    + split_and!; [|done| |].
      * intros id. rewrite Hids. set_solver.
      * intros s Hs. destruct (Hsteps s Hs) as (? & ? & ? & ?). split_and!; [set_solver|done..].
      * intros id Hid Hn. destruct (decide (id = channel_id w)) as [->|Hne].
        -- rewrite Hnow. by apply moves_false in Hm.
        -- apply Hskip; [set_solver|done].
  - split_and!; cbn; [set_solver|constructor|by intros ? ?%elem_of_nil|set_solver].
Qed.

Lemma foldl_put_steps steps L : NoDup (map channel_id steps) ->
  forall s, s ∈ steps -> foldl put L steps (channel_id s) = after s.
Proof.
  intros Hnd s (l1 & l2 & ->)%list_elem_of_split. apply foldl_put_last.
  rewrite map_app in Hnd. apply NoDup_app in Hnd as (_ & _ & Hnd). cbn in Hnd.
  by apply NoDup_cons in Hnd as [? _].
Qed.

(** C3: compensation restores the lineup.  For a run whose writes recorded the numbers they
    replaced, the steps of a half-applied run are one effective write per channel, each
    from the number the channel is on, and applying them leaves every channel on the number
    it held before the run, however often the run moved it. *)
Theorem compensation_restores L events steps :
  truthful L (landed_of events) -> half_applied (run events) = true ->
  compensation_steps (run events) = Ok steps ->
  let now := foldl put L (landed_of events) in
  NoDup (map channel_id steps) /\
  Forall (fun s => moves s = Ok true /\ before s = now (channel_id s)) steps /\
  forall id, same_or_eq (foldl put now steps id) (L id).
Proof.
  intros Ht Hh Hs now. unfold compensation_steps in Hs. rewrite Hh in Hs. cbn [negb] in Hs.
  destruct (foldM _ _ _) as [acc|] eqn:Hf; [|done]. cbn [rbind] in Hs. simplify_eq.
  apply (compensate_ok _ L) in Hf as (Hseen & Hnd & Hsteps & Hskip).
  rewrite landed_run in *. fold now in Hsteps, Hskip.
  assert (Hfb : forall id, id ∈ acc.2 -> first_before_of (run events) id = L id).
  { intros id Hid%Hseen. rewrite map_reverse, elem_of_reverse in Hid.
    apply elem_of_map in Hid as (w & -> & Hw). by apply first_before_run. }
  split_and!; [done| |].
  - apply Forall_forall. intros s Hs. destruct (Hsteps s Hs) as (_ & ? & ? & _). done.
  - intros id. destruct (decide (id ∈ map channel_id acc.1)) as [Hin|Hni].
    + apply elem_of_map in Hin as (s & -> & Hs). rewrite foldl_put_steps by done.
      left. destruct (Hsteps s Hs) as (Hid & _ & _ & ->). auto.
    + rewrite foldl_put_notin by done. destruct (decide (id ∈ acc.2)) as [Hid|Hid].
      * rewrite <- Hfb by done. auto.
      * left. apply foldl_put_notin. intros Hin. apply Hid, Hseen.
        by rewrite map_reverse, elem_of_reverse.
Qed.

(** [a] lands on the slot [b] leaves. *)
Definition lands_on (a b : numbering_write) : Prop := exists s,
  slot_key (after a) = Ok (Some s) /\ slot_key (before b) = Ok (Some s).

(** In [l] no write lands on the slot a later one has not left. *)
Definition vacated_first (l : list numbering_write) : Prop :=
  forall a b, [a; b] `sublist_of` l -> lands_on a b -> False.

Lemma inverse_involutive w : inverse (inverse w) = w.
Proof. by destruct w. Qed.

Lemma inverse_vacated l : vacated_first l -> vacated_first (map inverse (reverse l)).
Proof.
  intros Hl a b Hab (s & Ha & Hb). apply (Hl (inverse b) (inverse a)); [|by exists s].
  apply sublist_reverse in Hab. rewrite <- map_reverse, reverse_involutive in Hab.
  apply (sublist_map inverse) in Hab.
  rewrite map_map in Hab. rewrite (map_ext _ id inverse_involutive), map_id in Hab. exact Hab.
Qed.

Lemma truthful_nodup L ws :
  truthful L ws -> NoDup (map channel_id ws) ->
  forall w, w ∈ ws -> before w = L (channel_id w).
Proof.
  revert L. induction ws as [|w0 ws IH]; intros L Ht Hnd w Hw; [by apply elem_of_nil in Hw|].
  destruct Ht as [Hb Ht]. cbn in Hnd. apply NoDup_cons in Hnd as [Hn Hnd].
  apply elem_of_cons in Hw as [->|Hw]; [done|]. rewrite (IH _ Ht Hnd w Hw). unfold put.
  destruct (channel_id w =? channel_id w0) eqn:E; [|done]. to_prop.
  exfalso. apply Hn. rewrite <- E. by apply elem_of_map_2.
Qed.

(** The safe order, run in reverse, is a safe order.  If the run wrote each channel once
    and no landed write landed on a slot a later one had yet to leave, then no compensating
    write lands on a slot a later compensating write has yet to leave. *)
Theorem compensation_safe L events steps :
  truthful L (landed_of events) -> NoDup (map channel_id (landed_of events)) ->
  vacated_first (landed_of events) ->
  compensation_steps (run events) = Ok steps -> vacated_first steps.
Proof.
  intros Ht Hnd Hv Hs.
  assert (Hinv : forall w, w ∈ landed_of events -> restore_of (run events) w = inverse w).
  { intros w Hw. unfold restore_of, inverse. f_equal.
    rewrite (first_before_run _ L) by done. symmetry. by apply (truthful_nodup _ _ Ht Hnd). }
  cut (steps `sublist_of` map inverse (reverse (landed_of events))).
  { intros Hsub a b Hab. apply (inverse_vacated _ Hv). by etrans. }
  unfold compensation_steps in Hs. destruct (half_applied _); cbn [negb] in Hs;
    [|simplify_eq; apply sublist_nil_l].
  destruct (foldM _ _ _) as [acc|] eqn:Hf; [|done]. cbn [rbind] in Hs. simplify_eq.
  rewrite landed_run in Hf.
  refine (foldM_prefix_inv _ (fun l acc => acc.1 `sublist_of` map inverse l) _ _ acc _ _ Hf); [|done].
  intros l1 w l2 [st seen] acc' Hl Hsub Hc. unfold compensate_one in Hc. rewrite map_app.
  assert (Hw : w ∈ landed_of events).
  { apply elem_of_reverse. rewrite Hl. apply elem_of_app. right. by left. }
  destruct (bool_decide _); [simplify_eq; by apply sublist_inserts_r|].
  rewrite Hinv in Hc by done. destruct (moves _) as [m|]; [|done]. cbn [rbind] in Hc.
  destruct m; cbn [negb] in Hc; simplify_eq; cbn [fst] in *.
  - by apply sublist_app.
  - by apply sublist_inserts_r.
Qed.


(** ** A concrete run *)

Definition tenth (t : Z) : pyval := PFloat (Float.of_ratio (Z.to_pos t) 10).

Definition move (id : Z) (b a : Z) : numbering_write :=
  {| channel_id := id; name := "ch"; before := tenth b; after := tenth a |}.

(** A swap on 5 and 6, and a chain 7, 8.1, 9. *)
Definition plan : list numbering_write :=
  [move 12 50 60; move 11 60 50; move 13 70 81; move 14 81 90].

Example plan_order :
  order_numbering_writes plan =
  Ok {| writes := [move 14 81 90; move 13 70 81; move 12 50 60; move 11 60 50];
        cycles := [[11; 12]] |}.
Proof. vm_compute. reflexivity. Qed.

Lemma plan_representable : Forall representable plan.
Proof. repeat constructor. Qed.

Lemma order_total_witness :
  exists o, order_numbering_writes plan = Ok o /\ writes o ≡ₚ plan.
Proof. apply order_total. repeat constructor. Defined.

Lemma order_safe_witness : exists o positions breaks found,
  order_plan plan o positions breaks found /\ cycles o = [[11; 12]] /\
  forall p q, waits_on plan p q -> p ∈ breaks \/ sent_after positions p q.
Proof.
  eexists. destruct (order_safe plan _ plan_representable plan_order) as (pos & br & fd & H & Hs).
  exists pos, br, fd. split; [exact H|]. split; [reflexivity|exact Hs].
Defined.

(** The chain alone. *)
Definition chain_plan : list numbering_write := [move 13 70 81; move 14 81 90].

Lemma chain_plan_waits p q : waits_on chain_plan p q -> p = 0%nat /\ q = 1%nat.
Proof.
  intros Hw. destruct (waits_on_bound _ _ _ Hw) as [Hp Hq]. simpl in Hp, Hq.
  destruct Hw as (Hne & w & s & Hpw & Ha & w' & Hqw & _ & Hb).
  destruct p as [|[|p]]; [| |lia]; (destruct q as [|[|q]]; [| |lia]); try done.
  vm_compute in Hpw, Hqw. simplify_eq. exfalso. revert Ha Hb. vm_compute. congruence.
Qed.

Lemma chain_plan_acyclic c : is_cycle (waits_on chain_plan) c -> False.
Proof.
  destruct c as [|x c]; [done|]. intros [Hnd Hc]. cbn in Hc. destruct Hc as [Hx Hc].
  apply chain_plan_waits in Hx as [-> Hx]. destruct c as [|y c]; [done|]. cbn in Hx. subst.
  cbn in Hc. destruct Hc as [Hy _]. apply chain_plan_waits in Hy as [? _]. done.
Qed.

Lemma acyclic_order_safe_witness : exists o,
  order_numbering_writes chain_plan = Ok o /\ cycles o = [].
Proof.
  assert (exists o, order_numbering_writes chain_plan = Ok o) as [o Ho]
    by (eexists; vm_compute; reflexivity).
  exists o. split; [exact Ho|].
  assert (Hrep : Forall representable chain_plan) by (repeat constructor).
  exact (proj1 (acyclic_order_safe chain_plan o Hrep chain_plan_acyclic Ho)).
Defined.

(** Channel 1 moved twice, channel 2 once onto the number channel 1 left; a third write
    failed. *)
Definition half_run : list event :=
  [Landed (move 1 50 60); Landed (move 2 70 50); Landed (move 1 60 65);
   Failed 3 "ch" (tenth 70)].

Definition before_run : lineup := fun id => if id =? 1 then tenth 50 else tenth 70.

Definition half_run_steps : list numbering_write := [move 1 65 50; move 2 50 70].

Lemma compensation_restores_witness :
  same_or_eq (foldl put (foldl put before_run (landed_of half_run)) half_run_steps 1)
    (before_run 1).
Proof.
  destruct (compensation_restores before_run half_run half_run_steps) as (_ & _ & H).
  - repeat split.
  - reflexivity.
  - vm_compute. reflexivity.
  - apply H.
Defined.

(** The first two writes of [plan_order] landed and the next one failed. *)
Definition prefix_run : list event :=
  [Landed (move 14 81 90); Landed (move 13 70 81); Failed 12 "ch" (tenth 60)].

Lemma prefix_vacated : vacated_first (landed_of prefix_run).
Proof.
  intros a b Hab (s & Ha & Hb).
  assert (a = move 14 81 90 /\ b = move 13 70 81) as [-> ->].
  { change (landed_of prefix_run) with [move 14 81 90; move 13 70 81] in Hab.
    assert (H2 : [a; b] = [move 14 81 90; move 13 70 81]).
    { apply sublist_cons_l in Hab as (k1 & k2 & Hk & Hab).
      apply (f_equal length) in Hk as Hlen. rewrite length_app in Hlen. cbn in Hlen.
      apply sublist_length in Hab as Hlen2. cbn in Hlen2.
      destruct k1; [|cbn in Hlen; lia]. cbn in Hk. simplify_eq.
      apply sublist_cons_l in Hab as (k1 & k2 & Hk & _).
      destruct k1 as [|? [|]]; cbn in Hk; simplify_eq. done. }
    by simplify_eq. }
  revert Ha Hb. vm_compute. congruence.
Qed.

Lemma compensation_safe_witness : vacated_first [move 13 81 70; move 14 90 81].
Proof.
  apply (compensation_safe (fun id => if id =? 14 then tenth 81 else tenth 70) prefix_run).
  - repeat split.
  - apply (bool_decide_unpack _). vm_compute. exact I.
  - exact prefix_vacated.
  - vm_compute. reflexivity.
Defined.

End NumberingApply.
