(* ===== verification/BulkLedger.v ===== *)
(** * The bulk-commit accounting ([backend/bulk_commit_accounting.py]).

    The ledger, its methods as state transformers that may raise (a method that raises
    keeps the changes it had made), the audit of the finished envelope and
    [finalize_bulk_commit_result].  The envelope keeps the keys this module reads or
    writes; a missing key reads as [None], as [result.get] does. *)
From S2P Require Import Prelude PyFloat PyValue.
Open Scope Z_scope.

Module BulkLedger.

(** [BulkCommitAccountingError], by the message it carries. *)
Inductive error :=
| ReasonRequired            (* nothing_to_journal / applied_without_writing, empty reason *)
| StillOpen                 (* begin on an open operation *)
| NoOperationOpen           (* applied_without_writing with none open *)
| EmptyRows                 (* an empty list of journal rows *)
| RowNotADict (row : pyval)
| ToldNothing               (* record_applied having told the ledger nothing *)
| OutcomeTwice              (* closing twice, or without opening *)
| EnvelopeViolation         (* the finished envelope contradicts itself *)
| TypeError.                (* an unhashable [tempId] *)
Abbreviation result := (result error).

(** [isinstance(reason, str) and reason.strip()] *)
Definition is_reason (reason : pyval) : bool :=
  match reason with PStr s => negb (bool_decide (strip s = EmptyString)) | _ => false end.

(** [JournalRowSpec]: a row or a list of rows as they are passed, or the sentinel. *)
Inductive journal_row_spec :=
| Row (v : pyval)
| NothingToJournal (reason : string).

(** [nothing_to_journal] and the constructor it calls. *)
Definition nothing_to_journal (reason : pyval) : result journal_row_spec :=
  match reason with
  | PStr s => if is_reason reason then Ok (NothingToJournal s) else Raise ReasonRequired
  | _ => Raise ReasonRequired
  end.

(** What the ledger counts over the run. *)
Record counters := {
  total_operations : Z;
  applied : Z;
  failed : Z;
  partially_applied : Z;
  setup_failures : Z;
  incomplete : Z;
  aborted : bool;
  applied_create_temp_ids : gset Z;
  journal_rows : list pyval;
}.

(** The private fields about the open operation. *)
Record open_operation := {
  is_open : bool;
  persisted : bool;
  side_effects : Z;
  no_write_reason : option string;
  pending_create_temp_id : option Z;
}.

Record ledger := { counts : counters; op : open_operation }.

Definition new_ledger (total : Z) : ledger :=
  {| counts := {| total_operations := total; applied := 0; failed := 0; partially_applied := 0;
                  setup_failures := 0; incomplete := 0; aborted := false;
                  applied_create_temp_ids := ∅; journal_rows := [] |};
     op := {| is_open := false; persisted := false; side_effects := 0;
              no_write_reason := None; pending_create_temp_id := None |} |}.

Definition attempted (l : ledger) : Z := applied (counts l) + failed (counts l).
Definition skipped (l : ledger) : Z := total_operations (counts l) - attempted l.
Definition side_effects_landed (l : ledger) : bool := 0 <? side_effects (op l).

(** ** Methods *)

(** A method call: the state it leaves, and what it raises. *)
Definition method : Type := ledger -> ledger * option error.

Definition begin_ : method := fun l =>
  if is_open (op l) then (l, Some StillOpen)
  else ({| counts := counts l;
           op := {| is_open := true; persisted := false; side_effects := 0;
                    no_write_reason := None; pending_create_temp_id := None |} |}, None).

Definition is_row (v : pyval) : bool := match v with PDict (_ :: _) => true | _ => false end.

Definition first_bad (rows : list pyval) : option pyval :=
  head (List.filter (fun v => negb (is_row v)) rows).

Definition rows_of (v : pyval) : list pyval := match v with PList rows => rows | _ => [v] end.

Definition queue_journal (spec : journal_row_spec) : method := fun l =>
  match spec with
  | NothingToJournal _ => (l, None)
  | Row v =>
      match rows_of v with
      | [] => (l, Some EmptyRows)
      | rows =>
          match first_bad rows with
          | Some row => (l, Some (RowNotADict row))
          | None =>
              let c := counts l in
              ({| counts := {| total_operations := total_operations c; applied := applied c;
                    failed := failed c; partially_applied := partially_applied c;
                    setup_failures := setup_failures c; incomplete := incomplete c;
                    aborted := aborted c;
                    applied_create_temp_ids := applied_create_temp_ids c;
                    journal_rows := journal_rows c ++ rows |};
                  op := op l |}, None)
          end
      end
  end.

Definition record_write (spec : journal_row_spec) : method := fun l =>
  let o := op l in
  queue_journal spec
    (if is_open o
     then {| counts := counts l;
             op := {| is_open := is_open o; persisted := persisted o;
                      side_effects := side_effects o + 1;
                      no_write_reason := no_write_reason o;
                      pending_create_temp_id := pending_create_temp_id o |} |}
     else l).

Definition record_persisted (spec : journal_row_spec) (create_temp_id : option Z) : method :=
  fun l =>
  match queue_journal spec l with
  | (l, Some e) => (l, Some e)
  | (l, None) =>
      let o := op l in
      ({| counts := counts l;
          op := {| is_open := is_open o; persisted := true; side_effects := side_effects o;
                   no_write_reason := no_write_reason o;
                   pending_create_temp_id := match create_temp_id with
                                             | Some t => Some t
                                             | None => pending_create_temp_id o
                                             end |} |}, None)
  end.

Definition applied_without_writing (reason : pyval) : method := fun l =>
  let o := op l in
  match reason with
  | PStr s =>
      if negb (is_reason reason) then (l, Some ReasonRequired)
      else if negb (is_open o) then (l, Some NoOperationOpen)
      else ({| counts := counts l;
               op := {| is_open := is_open o; persisted := persisted o;
                        side_effects := side_effects o; no_write_reason := Some s;
                        pending_create_temp_id := pending_create_temp_id o |} |}, None)
  | _ => (l, Some ReasonRequired)
  end.

Definition drain_journal_rows (l : ledger) : list pyval * ledger :=
  let c := counts l in
  (journal_rows c,
   {| counts := {| total_operations := total_operations c; applied := applied c;
        failed := failed c; partially_applied := partially_applied c;
        setup_failures := setup_failures c; incomplete := incomplete c; aborted := aborted c;
        applied_create_temp_ids := applied_create_temp_ids c; journal_rows := [] |};
      op := op l |}).

(** [_close] *)
Definition close : method := fun l =>
  let o := op l in
  if negb (is_open o) then (l, Some OutcomeTwice)
  else ({| counts := counts l;
           op := {| is_open := false; persisted := persisted o; side_effects := 0;
                    no_write_reason := None;
                    pending_create_temp_id := pending_create_temp_id o |} |}, None).

Definition told_nothing (o : open_operation) : bool :=
  negb (persisted o) && (side_effects o =? 0) &&
  match no_write_reason o with None => true | Some _ => false end.

Definition without_pending (o : open_operation) : open_operation :=
  {| is_open := is_open o; persisted := persisted o; side_effects := side_effects o;
     no_write_reason := no_write_reason o; pending_create_temp_id := None |}.

Definition record_applied (incomplete_ : bool) : method := fun l =>
  if told_nothing (op l) then (l, Some ToldNothing)
  else
    match close l with
    | (l, Some e) => (l, Some e)
    | (l, None) =>
        let c := counts l in
        ({| counts := {| total_operations := total_operations c; applied := applied c + 1;
              failed := failed c; partially_applied := partially_applied c;
              setup_failures := setup_failures c;
              incomplete := if incomplete_ then incomplete c + 1 else incomplete c;
              aborted := aborted c;
              applied_create_temp_ids := match pending_create_temp_id (op l) with
                | Some t => {[t]} ∪ applied_create_temp_ids c
                | None => applied_create_temp_ids c
                end;
              journal_rows := journal_rows c |};
            op := without_pending (op l) |}, None)
    end.

Definition record_failed : method := fun l =>
  let side := side_effects (op l) in
  match close l with
  | (l, Some e) => (l, Some e)
  | (l, None) =>
      let c := counts l in
      ({| counts := {| total_operations := total_operations c; applied := applied c;
            failed := failed c + 1;
            partially_applied := if side =? 0 then partially_applied c
                                 else partially_applied c + 1;
            setup_failures := setup_failures c; incomplete := incomplete c;
            aborted := aborted c; applied_create_temp_ids := applied_create_temp_ids c;
            journal_rows := journal_rows c |};
          op := without_pending (op l) |}, None)
  end.

Definition set_aborted (b : bool) (c : counters) : counters :=
  {| total_operations := total_operations c; applied := applied c; failed := failed c;
     partially_applied := partially_applied c; setup_failures := setup_failures c;
     incomplete := incomplete c; aborted := b || aborted c;
     applied_create_temp_ids := applied_create_temp_ids c; journal_rows := journal_rows c |}.

Definition abort_remaining : method := fun l =>
  ({| counts := set_aborted true (counts l); op := op l |}, None).

Definition record_setup_failure (aborted_run : bool) : method := fun l =>
  let c := counts l in
  ({| counts := set_aborted aborted_run
        {| total_operations := total_operations c; applied := applied c; failed := failed c;
           partially_applied := partially_applied c; setup_failures := setup_failures c + 1;
           incomplete := incomplete c; aborted := aborted c;
           applied_create_temp_ids := applied_create_temp_ids c;
           journal_rows := journal_rows c |};
      op := op l |}, None).

(** ** The audit *)

Definition dict : Type := list (string * pyval).

Record envelope := {
  operationsApplied : pyval;
  operationsFailed : pyval;
  operationsPartiallyApplied : pyval;
  success : pyval;
  partial : pyval;
  errors : list dict;
  normalizationFailures : list dict;
}.

(** [e.get(key) is True] *)
Definition marked (key : string) (e : dict) : bool :=
  match dict_get e key with Some (PBool true) => true | _ => false end.

Definition SIDE_EFFECTS_LANDED_KEY : string := "sideEffectsLanded".

(** The sentences, by what they say. *)
Inductive violation :=
| AppliedNotAnInt (v : pyval)
| FailedNotAnInt (v : pyval)
| AttemptedTooMany (attempted total : Z)
| AttemptedMismatch (applied failed total : Z)
| ErrorsMismatch (failed setup : Z) (entries : nat)
| PartialCountMismatch (reported : pyval) (recorded : Z)
| PartialExceedsFailed (partially failed : Z)
| MarkedMismatch (partially : Z) (entries : nat)
| SuccessMismatch (reported : pyval)
| PartialMismatch (reported : pyval)
| UnknownTempId (v : pyval).

(** A non-negative [int] that is not a [bool]. *)
Definition count_of (v : pyval) : option Z :=
  match v with PInt z => if z <? 0 then None else Some z | _ => None end.

Definition temp_id_of (e : dict) : pyval := default PNone (dict_get e "tempId").

(** [temp_id in applied_create_temp_ids] *)
Definition is_applied_create (ids : gset Z) (v : pyval) : bool :=
  existsb (py_eq_int v) (elements ids).

Fixpoint normalization_violations (ids : gset Z) (l : list dict) : result (list violation) :=
  match l with
  | [] => Ok []
  | e :: l' =>
      let t := temp_id_of e in
      if negb (hashable t) then Raise TypeError
      else
        let! rest := normalization_violations ids l' in
        Ok (if is_applied_create ids t then rest else UnknownTempId t :: rest)
  end.

Definition when (b : bool) (v : violation) : list violation := if b then [v] else [].

(** [v is b] *)
Definition is_bool (v : pyval) (b : bool) : bool :=
  match v with PBool b' => Bool.eqb b' b | _ => false end.

Definition expected_success (failed setup : Z) (applied_errors : nat) : bool :=
  (failed =? 0) && (applied_errors =? 0)%nat && (setup =? 0).

Definition expected_partial (applied failed partially : Z) (applied_errors : nat) : bool :=
  ((0 <? applied) || (0 <? partially)) && ((0 <? failed) || negb (applied_errors =? 0)%nat).

Definition attempted_violations (aborted_ : bool) (total applied failed : Z) : list violation :=
  if aborted_
  then when (total <? applied + failed) (AttemptedTooMany (applied + failed) total)
  else when (negb (applied + failed =? total)) (AttemptedMismatch applied failed total).

Definition bulk_commit_accounting_violations (r : envelope) (total : Z) (aborted_ : bool)
    (ids : gset Z) (setup partially : Z) : result (list violation) :=
  match count_of (operationsApplied r) with
  | None => Ok [AppliedNotAnInt (operationsApplied r)]
  | Some applied_ =>
  match count_of (operationsFailed r) with
  | None => Ok [FailedNotAnInt (operationsFailed r)]
  | Some failed_ =>
      let applied_errors := length (List.filter (marked "applied") (errors r)) in
      let unapplied_errors := length (List.filter (fun e => negb (marked "applied" e)) (errors r)) in
      let marked_errors := length (List.filter (marked SIDE_EFFECTS_LANDED_KEY) (errors r)) in
      let! names := normalization_violations ids (normalizationFailures r) in
      Ok (attempted_violations aborted_ total applied_ failed_ ++
          when (negb (failed_ + setup =? Z.of_nat unapplied_errors))
               (ErrorsMismatch failed_ setup unapplied_errors) ++
          when (negb (py_eq_int (operationsPartiallyApplied r) partially))
               (PartialCountMismatch (operationsPartiallyApplied r) partially) ++
          when (failed_ <? partially) (PartialExceedsFailed partially failed_) ++
          when (negb (Z.of_nat marked_errors =? partially))
               (MarkedMismatch partially marked_errors) ++
          when (negb (is_bool (success r) (expected_success failed_ setup applied_errors)))
               (SuccessMismatch (success r)) ++
          when (negb (is_bool (partial r)
                        (expected_partial applied_ failed_ partially applied_errors)))
               (PartialMismatch (partial r)) ++
          names)
  end
  end.

(** [finalize_bulk_commit_result]: the envelope it leaves, and whether it raised. *)
Definition derived (r : envelope) (c : counters) : envelope :=
  {| operationsApplied := PInt (applied c);
     operationsFailed := PInt (failed c);
     operationsPartiallyApplied := PInt (partially_applied c);
     success := PBool ((failed c =? 0) && (incomplete c =? 0) && (setup_failures c =? 0));
     partial := PBool (((0 <? applied c) || (0 <? partially_applied c)) &&
                       ((0 <? failed c) || (0 <? incomplete c)));
     errors := errors r;
     normalizationFailures := normalizationFailures r |}.

Definition finalize_bulk_commit_result (r : envelope) (l : ledger)
    : envelope * option error :=
  let c := counts l in
  let r := derived r c in
  match bulk_commit_accounting_violations r (total_operations c) (aborted c)
          (applied_create_temp_ids c) (setup_failures c) (partially_applied c) with
  | Raise e => (r, Some e)
  | Ok [] => (r, None)
  | Ok _ => (r, Some EnvelopeViolation)
  end.

(** ** Any sequence of calls *)

Inductive call :=
| Begin
| RecordWrite (spec : journal_row_spec)
| RecordPersisted (spec : journal_row_spec) (create_temp_id : option Z)
| AppliedWithoutWriting (reason : pyval)
| RecordApplied (incomplete : bool)
| RecordFailed
| AbortRemaining
| RecordSetupFailure (aborted_run : bool).

Definition perform (c : call) : method :=
  match c with
  | Begin => begin_
  | RecordWrite spec => record_write spec
  | RecordPersisted spec t => record_persisted spec t
  | AppliedWithoutWriting r => applied_without_writing r
  | RecordApplied i => record_applied i
  | RecordFailed => record_failed
  | AbortRemaining => abort_remaining
  | RecordSetupFailure b => record_setup_failure b
  end.

(** Calls made one after the other, whatever each of them raises. *)
Fixpoint perform_all (l : ledger) (cs : list call) : ledger * list (call * option error) :=
  match cs with
  | [] => (l, [])
  | c :: cs =>
      let '(l, e) := perform c l in
      let '(l, trace) := perform_all l cs in (l, (c, e) :: trace)
  end.

Definition begun (trace : list (call * option error)) : Z :=
  Z.of_nat (length (List.filter (fun x => match x with (Begin, None) => true | _ => false end) trace)).

(** The rows of the writes that were recorded, in order. *)
Definition recorded_rows (x : call * option error) : list pyval :=
  match x with
  | (RecordWrite (Row v), None) | (RecordPersisted (Row v) _, None) => rows_of v
  | _ => []
  end.

Definition counts_ok (c : counters) : Prop :=
  0 <= partially_applied c <= failed c /\ 0 <= incomplete c <= applied c /\
  0 <= setup_failures c.

Definition ledger_ok (l : ledger) : Prop :=
  counts_ok (counts l) /\ 0 <= side_effects (op l) /\
  Forall (fun v => is_row v = true) (journal_rows (counts l)).

Lemma new_ledger_ok total : ledger_ok (new_ledger total).
Proof. repeat split; cbn; try lia. constructor. Qed.

Lemma first_bad_none rows : first_bad rows = None -> Forall (fun v => is_row v = true) rows.
Proof.
  unfold first_bad. induction rows as [|v rows IH]; [by constructor|]. simpl.
  destruct (is_row v) eqn:E; [|done]. intros H. constructor; auto.
Qed.

(** Queueing appends the rows it is given, or raises and changes nothing. *)
Lemma queue_journal_spec spec l l' e :
  queue_journal spec l = (l', e) ->
  (l' = l /\ (e <> None \/ exists r, spec = NothingToJournal r)) \/
  (e = None /\ op l' = op l /\ exists v, spec = Row v /\
   Forall (fun v => is_row v = true) (rows_of v) /\
   counts l' = {| total_operations := total_operations (counts l); applied := applied (counts l);
     failed := failed (counts l); partially_applied := partially_applied (counts l);
     setup_failures := setup_failures (counts l); incomplete := incomplete (counts l);
     aborted := aborted (counts l);
     applied_create_temp_ids := applied_create_temp_ids (counts l);
     journal_rows := journal_rows (counts l) ++ rows_of v |}).
Proof.
  unfold queue_journal. destruct spec as [v|r]; [|intros [= <- <-]; eauto].
  destruct (rows_of v) as [|x xs] eqn:Er; [intros [= <- <-]; eauto|].
  destruct (first_bad (x :: xs)) as [b|] eqn:Eb; intros [= <- <-]; [eauto|].
  right. split_and!; [done|done|]. exists v. rewrite Er. split_and!; [done| |done].
  by apply first_bad_none.
Qed.

(** What one call does: it keeps the ledger in order, accounts for an operation it opens,
    and queues exactly the rows it was given. *)
Definition effect (l : ledger) (c : call) (l' : ledger) (e : option error) : Prop :=
  ledger_ok l' /\
  total_operations (counts l') = total_operations (counts l) /\
  attempted l' + Z.b2z (is_open (op l')) =
    attempted l + Z.b2z (is_open (op l)) + begun [(c, e)] /\
  journal_rows (counts l') = journal_rows (counts l) ++ recorded_rows (c, e).

Ltac effect_done :=
  repeat split; cbn in *; rewrite ?app_nil_r; try done; try lia;
  unfold begun; cbn; try lia.

Lemma effect_none l c e :
  ledger_ok l -> begun [(c, e)] = 0 -> recorded_rows (c, e) = [] -> effect l c l e.
Proof. intros Hl Hb Hr. unfold effect. rewrite Hb, Hr, app_nil_r. split_and!; try done; lia. Qed.

Lemma begin_effect l l' e : begin_ l = (l', e) -> ledger_ok l -> effect l Begin l' e.
Proof.
  unfold begin_. intros Hp Hl. destruct (is_open (op l)) eqn:Ho; simplify_eq; [by apply effect_none|].
  destruct Hl as ((? & ? & ?) & ? & ?). unfold effect, ledger_ok, counts_ok, attempted. rewrite Ho.
  effect_done.
Qed.

Lemma queue_effect spec c l0 l l' e :
  queue_journal spec l = (l', e) -> ledger_ok l -> counts l = counts l0 ->
  is_open (op l) = is_open (op l0) -> begun [(c, e)] = 0 ->
  (forall v, spec = Row v -> recorded_rows (c, e) = match e with Some _ => [] | None => rows_of v end) ->
  (forall r, spec = NothingToJournal r -> recorded_rows (c, e) = []) ->
  effect l0 c l' e.
Proof.
  intros Hq Hl Hc Ho Hb Hv Hr. unfold effect, attempted. rewrite Hb.
  apply queue_journal_spec in Hq as [[-> He]|(-> & Hop & v & -> & Hrows & Hcs)].
  - rewrite Hc, Ho. split_and!; [done|done|lia|].
    destruct spec as [v|r]; [|by rewrite (Hr r), app_nil_r].
    destruct He as [He|[? ?]]; [|done]. rewrite (Hv v) by done.
    destruct e; [by rewrite app_nil_r|done].
  - rewrite Hop, Ho, (Hv v) by done. destruct Hl as (Hcl & Hs & Hj).
    unfold ledger_ok, counts_ok in *. rewrite Hop, Hcs, <- Hc. cbn.
    split_and!; try apply Hcl; try done; [|lia]. by apply Forall_app.
Qed.

Lemma record_write_effect spec l l' e :
  record_write spec l = (l', e) -> ledger_ok l -> effect l (RecordWrite spec) l' e.
Proof.
  unfold record_write. intros Hq Hl. eapply queue_effect; [exact Hq|..]; try done.
  - destruct (is_open (op l)); [|done]. destruct Hl as (? & ? & ?).
    split_and!; [done| |done]. cbn. lia.
  - by destruct (is_open (op l)).
  - by destruct (is_open (op l)) eqn:E.
  - intros v ->. by destruct e.
  - by intros r ->.
Qed.

Lemma record_persisted_effect spec t l l' e :
  record_persisted spec t l = (l', e) -> ledger_ok l -> effect l (RecordPersisted spec t) l' e.
Proof.
  unfold record_persisted. intros Hq Hl. destruct (queue_journal spec l) as [l1 e1] eqn:Hj.
  assert (He : effect l (RecordPersisted spec t) l1 e1).
  { eapply queue_effect; [exact Hj|..]; try done; [intros v ->; by destruct e1|by intros r ->]. }
  destruct e1 as [e1|]; simplify_eq; [done|].
  destruct He as ((Hc & Hs & Hr) & Ht & Ha & Hrows). done.
Qed.

Lemma close_effect l l' e :
  close l = (l', e) ->
  (l' = l /\ is_open (op l) = false /\ e = Some OutcomeTwice) \/
  (e = None /\ is_open (op l) = true /\ counts l' = counts l /\ is_open (op l') = false /\
   side_effects (op l') = 0).
Proof. unfold close. destruct (is_open (op l)); intros [= <- <-]; auto. right. done. Qed.

Lemma record_applied_effect i l l' e :
  record_applied i l = (l', e) -> ledger_ok l -> effect l (RecordApplied i) l' e.
Proof.
  unfold record_applied. intros Hp Hl. destruct (told_nothing (op l)); simplify_eq;
    [by apply effect_none|].
  destruct (close l) as [l1 e1] eqn:Hc. apply close_effect in Hc as [(-> & Ho & ->)|(-> & Ho & Hk & Ho' & Hs)];
    simplify_eq; [by apply effect_none|].
  destruct Hl as ((? & ? & ?) & ? & ?). unfold effect, ledger_ok, counts_ok, attempted.
  cbn. rewrite Ho, Hk, Ho', Hs, app_nil_r. unfold begun. cbn. split_and!; try done; try lia; destruct i; lia.
Qed.

Lemma record_failed_effect l l' e :
  record_failed l = (l', e) -> ledger_ok l -> effect l RecordFailed l' e.
Proof.
  unfold record_failed. intros Hp Hl.
  destruct (close l) as [l1 e1] eqn:Hc. apply close_effect in Hc as [(-> & Ho & ->)|(-> & Ho & Hk & Ho' & Hs)];
    simplify_eq; [by apply effect_none|].
  destruct Hl as ((? & ? & ?) & ? & ?). unfold effect, ledger_ok, counts_ok, attempted.
  cbn. rewrite Ho, Hk, Ho', Hs, app_nil_r. unfold begun. cbn. split_and!; try done; try lia; case_match; lia.
Qed.

Lemma perform_effect c l l' e : perform c l = (l', e) -> ledger_ok l -> effect l c l' e.
Proof.
  intros Hp Hl. destruct c; cbn [perform] in Hp.
  - by apply begin_effect.
  - by apply record_write_effect.
  - by apply record_persisted_effect.
  - unfold applied_without_writing in Hp. destruct reason; simplify_eq; try by apply effect_none.
    destruct (negb (is_reason (PStr s))); simplify_eq; [by apply effect_none|].
    destruct (negb (is_open (op l))) eqn:E; simplify_eq; [by apply effect_none|].
    destruct Hl as ((? & ? & ?) & ? & ?). unfold effect, ledger_ok, counts_ok, attempted. effect_done.
  - by apply record_applied_effect.
  - by apply record_failed_effect.
  - injection Hp as <- <-. destruct Hl as ((? & ? & ?) & ? & ?).
    unfold effect, ledger_ok, counts_ok, attempted. effect_done.
  - injection Hp as <- <-. destruct Hl as ((? & ? & ?) & ? & ?).
    unfold effect, ledger_ok, counts_ok, attempted. effect_done.
Qed.

Lemma begun_cons x trace : begun (x :: trace) = begun [x] + begun trace.
Proof. unfold begun. cbn. destruct x as [[] [|]]; cbn; lia. Qed.

Lemma perform_all_effect cs : forall l l' trace,
  perform_all l cs = (l', trace) -> ledger_ok l ->
  ledger_ok l' /\ total_operations (counts l') = total_operations (counts l) /\
  attempted l' + Z.b2z (is_open (op l')) = attempted l + Z.b2z (is_open (op l)) + begun trace /\
  journal_rows (counts l') = journal_rows (counts l) ++ concat (map recorded_rows trace).
Proof.
  induction cs as [|c cs IH]; intros l l' trace Hp Hl; cbn in Hp.
  { simplify_eq. cbn. rewrite app_nil_r. split_and!; [done|done|unfold begun; cbn; lia|done]. }
  destruct (perform c l) as [l1 e] eqn:Hc. destruct (perform_all l1 cs) as [l2 tr] eqn:Hr.
  simplify_eq. apply perform_effect in Hc as (Hl1 & Ht & Ha & Hj); [|done].
  apply IH in Hr as (Hl2 & Ht2 & Ha2 & Hj2); [|done]. cbn [map concat].
  rewrite begun_cons, Hj2, Hj, <- app_assoc. split_and!; [done|congruence|lia|done].
Qed.

(** One outcome per operation.  Whatever is called on a new ledger and whatever those
    calls raise, the operations opened are those counted applied, those counted failed and
    the one still open if there is one; partial failures are failures and incomplete
    applications are applications. *)
Theorem one_outcome_per_operation total cs :
  let '(l, trace) := perform_all (new_ledger total) cs in
  begun trace = applied (counts l) + failed (counts l) + Z.b2z (is_open (op l)) /\
  0 <= partially_applied (counts l) <= failed (counts l) /\
  0 <= incomplete (counts l) <= applied (counts l) /\
  total_operations (counts l) = total.
Proof.
  destruct (perform_all _ cs) as [l trace] eqn:Hp.
  apply perform_all_effect in Hp as (((Hpa & Hi & _) & _) & Ht & Ha & _);
    [|apply new_ledger_ok].
  unfold attempted in Ha. cbn in Ha, Ht. split_and!; [lia|lia|lia|lia|lia|done].
Qed.

(** A landed write has its rows.  The queue holds exactly the rows of the writes that
    were recorded, in the order they were, each a non-empty row, whatever else was called
    and failed in between; draining takes all of them and leaves none to write twice. *)
Theorem rows_as_recorded total cs :
  let '(l, trace) := perform_all (new_ledger total) cs in
  let '(rows, l') := drain_journal_rows l in
  rows = concat (map recorded_rows trace) /\ Forall (fun v => is_row v = true) rows /\
  (drain_journal_rows l').1 = [] /\ op l' = op l.
Proof.
  destruct (perform_all _ cs) as [l trace] eqn:Hp.
  apply perform_all_effect in Hp as ((_ & _ & Hr) & _ & _ & Hj); [|apply new_ledger_ok].
  cbn in *. by rewrite <- Hj.
Qed.

(** ** The audit, as a predicate *)

Definition applied_entries (r : envelope) : list dict := List.filter (marked "applied") (errors r).
Definition unapplied_entries (r : envelope) : list dict :=
  List.filter (fun e => negb (marked "applied" e)) (errors r).
Definition landed_entries (r : envelope) : list dict :=
  List.filter (marked SIDE_EFFECTS_LANDED_KEY) (errors r).

(** Every failure normalization names is a create counted as applied. *)
Definition names_created (ids : gset Z) (l : list dict) : Prop :=
  Forall (fun e => hashable (temp_id_of e) = true /\
                   exists t, t ∈ ids /\ py_eq_int (temp_id_of e) t = true) l.

(** What the sentences deny. *)
Definition consistent (r : envelope) (total : Z) (aborted_ : bool) (ids : gset Z)
    (setup partially : Z) : Prop :=
  exists a f, operationsApplied r = PInt a /\ 0 <= a /\ operationsFailed r = PInt f /\ 0 <= f /\
    (if aborted_ then a + f <= total else a + f = total) /\
    f + setup = Z.of_nat (length (unapplied_entries r)) /\
    py_eq_int (operationsPartiallyApplied r) partially = true /\
    partially <= f /\ Z.of_nat (length (landed_entries r)) = partially /\
    success r = PBool (bool_decide (f = 0 /\ applied_entries r = [] /\ setup = 0)) /\
    partial r = PBool (bool_decide ((0 < a \/ 0 < partially) /\ (0 < f \/ applied_entries r <> []))) /\
    names_created ids (normalizationFailures r).

Lemma when_nil b v : when b v = [] <-> b = false.
Proof. by destruct b. Qed.

Lemma is_bool_spec v b : is_bool v b = true <-> v = PBool b.
Proof.
  destruct v; cbn; try done. rewrite Bool.eqb_true_iff. split; [by intros ->|by intros [=]].
Qed.

Lemma count_of_spec v n : count_of v = Some n <-> v = PInt n /\ 0 <= n.
Proof.
  destruct v; cbn; try naive_solver.
  destruct (z <? 0) eqn:E; to_prop; split; try done; [intros [[=] ?]; lia| |]; naive_solver.
Qed.

Lemma is_applied_create_spec ids v :
  is_applied_create ids v = true <-> exists t, t ∈ ids /\ py_eq_int v t = true.
Proof.
  unfold is_applied_create. rewrite existsb_exists.
  setoid_rewrite <- list_elem_of_In. by setoid_rewrite elem_of_elements.
Qed.

Lemma normalization_violations_spec ids l :
  normalization_violations ids l = Ok [] <-> names_created ids l.
Proof.
  unfold names_created. induction l as [|e l IH]; cbn; [by split; [constructor|]|].
  rewrite Forall_cons, <- IH, <- is_applied_create_spec.
  destruct (hashable (temp_id_of e)); cbn; [|naive_solver].
  destruct (normalization_violations ids l) as [names|]; cbn; [|naive_solver].
  destruct (is_applied_create ids (temp_id_of e)); naive_solver.
Qed.

Lemma length_zero {A} (l : list A) : (length l =? 0)%nat = true <-> l = [].
Proof. by destruct l. Qed.

Lemma expected_success_spec f setup r :
  expected_success f setup (length (applied_entries r)) =
  bool_decide (f = 0 /\ applied_entries r = [] /\ setup = 0).
Proof.
  unfold expected_success. apply Bool.eq_iff_eq_true.
  rewrite bool_decide_eq_true, !andb_true_iff, !Z.eqb_eq, length_zero. tauto.
Qed.

Lemma expected_partial_spec a f partially r :
  expected_partial a f partially (length (applied_entries r)) =
  bool_decide ((0 < a \/ 0 < partially) /\ (0 < f \/ applied_entries r <> [])).
Proof.
  unfold expected_partial. apply Bool.eq_iff_eq_true.
  rewrite bool_decide_eq_true, andb_true_iff, !orb_true_iff, !Z.ltb_lt, negb_true_iff,
    <- not_true_iff_false, length_zero. tauto.
Qed.

Lemma attempted_violations_spec aborted_ total a f :
  attempted_violations aborted_ total a f = [] <->
  if aborted_ then a + f <= total else a + f = total.
Proof.
  unfold attempted_violations. destruct aborted_; rewrite when_nil.
  - rewrite Z.ltb_ge. done.
  - rewrite negb_false_iff, Z.eqb_eq. done.
Qed.

(** The audit reports nothing exactly when the envelope is consistent: the counters are
    counts that cover the submitted operations, every error entry is counted once, the
    partially applied operations are failures that name themselves, [success] and
    [partial] say what the counts say, and every normalization failure names a channel
    that was created. *)
Theorem audit_exact r total aborted_ ids setup partially :
  bulk_commit_accounting_violations r total aborted_ ids setup partially = Ok [] <->
  consistent r total aborted_ ids setup partially.
Proof.
  unfold bulk_commit_accounting_violations, consistent.
  destruct (count_of (operationsApplied r)) as [a|] eqn:Ha.
  2:{ split; [done|]. intros (a & f & Hap & Ha0 & _).
      assert (Hc : count_of (operationsApplied r) = Some a) by (by apply count_of_spec).
      congruence. }
  destruct (count_of (operationsFailed r)) as [f|] eqn:Hf.
  2:{ split; [done|]. intros (a' & f & _ & _ & Hap & Hf0 & _).
      assert (Hc : count_of (operationsFailed r) = Some f) by (by apply count_of_spec).
      congruence. }
  apply count_of_spec in Ha as [Ha Ha0], Hf as [Hf Hf0].
  fold (applied_entries r) (unapplied_entries r) (landed_entries r).
  rewrite expected_success_spec, expected_partial_spec.
  destruct (normalization_violations ids (normalizationFailures r)) as [names|e] eqn:Hn; cbn [rbind].
  2:{ split; [done|]. intros (a' & f' & H). destruct_and! H.
      assert (Hc : normalization_violations ids (normalizationFailures r) = Ok [])
        by (by apply normalization_violations_spec). congruence. }
  assert (Hnames : names = [] <-> names_created ids (normalizationFailures r)).
  { rewrite <- normalization_violations_spec, Hn. naive_solver. }
  match goal with |- Ok ?x = Ok [] <-> _ => trans (x = []); [split; [by injection 1|by intros ->]|] end.
  rewrite !app_nil, !when_nil, attempted_violations_spec, Hnames, !negb_false_iff, !Z.eqb_eq,
    Z.ltb_ge, !is_bool_spec, Ha, Hf.
  split; [intros H; exists a, f; tauto|].
  intros (a' & f' & Ea & _ & Ef & _ & H). injection Ea as <-. injection Ef as <-. exact H.
Qed.

(** The error entries and normalization failures a run of this ledger leaves. *)
Definition envelope_matches (r : envelope) (l : ledger) : Prop :=
  let c := counts l in
  (if aborted c then attempted l <= total_operations c else attempted l = total_operations c) /\
  Z.of_nat (length (unapplied_entries r)) = failed c + setup_failures c /\
  Z.of_nat (length (applied_entries r)) = incomplete c /\
  Z.of_nat (length (landed_entries r)) = partially_applied c /\
  names_created (applied_create_temp_ids c) (normalizationFailures r).

(** Finalizing an envelope that matches the ledger does not raise. *)
Lemma finalize_matches r l :
  counts_ok (counts l) -> envelope_matches r l ->
  finalize_bulk_commit_result r l = (derived r (counts l), None).
Proof.
  intros (Hpa & Hi & Hs) (Hat & Hun & Hap & Hla & Hn). unfold finalize_bulk_commit_result.
  set (c := counts l) in *.
  assert (Hc : bulk_commit_accounting_violations (derived r c) (total_operations c) (aborted c)
    (applied_create_temp_ids c) (setup_failures c) (partially_applied c) = Ok []).
  { apply audit_exact. exists (applied c), (failed c). cbn.
    unfold applied_entries, unapplied_entries, landed_entries in *. cbn.
    assert (Hinc : incomplete c = 0 <-> List.filter (marked "applied") (errors r) = []).
    { rewrite <- Hap. rewrite <- length_zero. rewrite Nat.eqb_eq. lia. }
    split_and!; try done; try lia; f_equal; apply Bool.eq_iff_eq_true;
      rewrite bool_decide_eq_true, ?andb_true_iff, ?orb_true_iff, ?Z.eqb_eq, ?Z.ltb_lt.
    - tauto.
    - rewrite <- Hinc. lia. }
  by rewrite Hc.
Qed.

End BulkLedger.
