(* ===== verification/BulkRun.v ===== *)
(** * The accounting of a bulk-commit run ([backend/routers/channels.py], the executor).

    What each branch of the executor does upstream is kept as the calls it makes on the
    ledger, in order, and the exception that ends it if one does; which calls those are
    depends on upstream answers and is arbitrary here.  Around them this models the
    executor's own control flow: group creation, the operation loop with its outcome
    handler, the compensation pass, the journal flush, [finish] and the outer handler. *)
From S2P Require Import Prelude PyFloat PyValue BulkLedger.
Open Scope Z_scope.

Module BulkRun.
Import BulkLedger.

(** One statement of a branch, as the ledger and the envelope see it. *)
Inductive action :=
| Write (spec : journal_row_spec)
| GuardedWrite (spec : journal_row_spec)   (* resolve_logo_id, inside its own try *)
| Persist (spec : journal_row_spec)
| PersistCreate (spec : journal_row_spec) (temp_id : Z) (normalization_failure : option dict)
| NothingToWrite (reason : pyval)
| Throw (message : string).

Record operation := {
  op_id : string;
  op_type : string;
  op_channel : option (Z * string);
  op_stream : option (Z * string);
  op_name : option string;
  branch : list action;
}.

Record state := { st_ledger : ledger; st_errors : list dict; st_norms : list dict }.

Definition on_ledger (st : state) (m : method) : state * option error :=
  let '(l, e) := m (st_ledger st) in
  ({| st_ledger := l; st_errors := st_errors st; st_norms := st_norms st |}, e).

(** [str(e)] of a ledger error; its text is not modelled. *)
Definition raised_text (e : option error) : option string :=
  match e with Some _ => Some "accounting error" | None => None end.

(** The entry of [normalizationFailures]: the keys built before the create, then the id. *)
Definition normalization_entry (temp_id : Z) (rest : dict) : dict := ("tempId", PInt temp_id) :: rest.

Definition perform_action (a : action) (st : state) : state * option string :=
  match a with
  | Write spec => let '(st, e) := on_ledger st (record_write spec) in (st, raised_text e)
  | GuardedWrite spec => let '(st, _) := on_ledger st (record_write spec) in (st, None)
  | Persist spec => let '(st, e) := on_ledger st (record_persisted spec None) in (st, raised_text e)
  | PersistCreate spec t nf =>
      match on_ledger st (record_persisted spec (Some t)) with
      | (st, Some e) => (st, raised_text (Some e))
      | (st, None) =>
          ({| st_ledger := st_ledger st; st_errors := st_errors st;
              st_norms := match nf with
                          | Some rest => st_norms st ++ [normalization_entry t rest]
                          | None => st_norms st
                          end |}, None)
      end
  | NothingToWrite r => let '(st, e) := on_ledger st (applied_without_writing r) in
                        (st, raised_text e)
  | Throw message => (st, Some message)
  end.

(** A branch: its actions until one raises, and what was raised. *)
Fixpoint run_branch (acts : list action) (st : state) : state * option string :=
  match acts with
  | [] => (st, None)
  | a :: acts => match perform_action a st with
                 | (st, Some message) => (st, Some message)
                 | (st, None) => run_branch acts st
                 end
  end.

Definition named (kid kname : string) (x : option (Z * string)) : dict :=
  match x with Some (i, n) => [(kid, PInt i); (kname, PStr n)] | None => [] end.

Definition error_details (o : operation) (message : string) : dict :=
  [("operationId", PStr (op_id o)); ("operationType", PStr (op_type o));
   ("error", PStr message)] ++
  named "channelId" "channelName" (op_channel o) ++
  named "streamId" "streamName" (op_stream o) ++
  match op_name o with Some n => [("entityName", PStr n)] | None => [] end.

Definition add_error (st : state) (e : dict) : state :=
  {| st_ledger := st_ledger st; st_errors := st_errors st ++ [e]; st_norms := st_norms st |}.

(** The [except Exception] of the operation loop. *)
Definition handle_failure (o : operation) (message : string) (st : state)
    : state * option error :=
  if persisted (op (st_ledger st)) then
    let '(st, e) := on_ledger st (record_applied true) in
    match e with
    | Some _ => (st, e)
    | None => (add_error st (error_details o message ++ [("applied", PBool true)]), None)
    end
  else
    let side := side_effects_landed (st_ledger st) in
    let '(st, e) := on_ledger st record_failed in
    match e with
    | Some _ => (st, e)
    | None => (add_error st (error_details o message ++
                 (if side then [(SIDE_EFFECTS_LANDED_KEY, PBool true)] else [])), None)
    end.

(** One pass of the loop: did the operation end in the handler, and what escaped it. *)
Definition run_operation (o : operation) (st : state) : state * bool * option error :=
  match on_ledger st begin_ with
  | (st, Some e) => (st, true, Some e)
  | (st, None) =>
      match run_branch (branch o) st with
      | (st, Some message) => let '(st, e) := handle_failure o message st in (st, true, e)
      | (st, None) =>
          match on_ledger st (record_applied false) with
          | (st, None) => (st, false, None)
          | (st, Some _) =>
              let '(st, e) := handle_failure o "accounting error" st in (st, true, e)
          end
      end
  end.

(** The loop; an error without [continueOnError] stops it. *)
Fixpoint run_operations (continueOnError : bool) (ops : list operation) (st : state)
    : state * option error :=
  match ops with
  | [] => (st, None)
  | o :: ops =>
      match run_operation o st with
      | (st, _, Some e) => (st, Some e)
      | (st, true, None) =>
          if continueOnError then run_operations continueOnError ops st
          else (let '(st, _) := on_ledger st abort_remaining in (st, None))
      | (st, false, None) => run_operations continueOnError ops st
      end
  end.

(** ** Around the loop *)

Definition operation_error (id : string) (message : string) : dict :=
  [("operationId", PStr id); ("error", PStr message)].

Definition setup_failure (st : state) (aborted_run : bool) : state :=
  (on_ledger st (record_setup_failure aborted_run)).1.

(** A group of Phase 1: what was written for it, and the error that aborts the run. *)
Record group_step := {
  g_name : string;
  g_write : option journal_row_spec;
  g_error : option string;
}.

Definition create_group (g : group_step) (st : state) : state * option string :=
  match g_write g with
  | None => (st, g_error g)
  | Some spec =>
      match on_ledger st (record_write spec) with
      | (st, Some _) => (st, Some "journal row")
      | (st, None) => (st, g_error g)
      end
  end.

(** Phase 1: [true] when a group failed and the run returns at once. *)
Fixpoint create_groups (gs : list group_step) (st : state) : state * bool :=
  match gs with
  | [] => (st, false)
  | g :: gs =>
      match create_group g st with
      | (st, None) => create_groups gs st
      | (st, Some e) =>
          (setup_failure (add_error st
             (operation_error (String.append "create-group-" (g_name g)) e)) true, true)
      end
  end.

(** Phase 2b: the compensating writes, and those that failed. *)
Record compensation := { comp_writes : list journal_row_spec; comp_unrepaired : nat }.

Fixpoint write_all (specs : list journal_row_spec) (st : state) : state * option error :=
  match specs with
  | [] => (st, None)
  | s :: specs => match on_ledger st (record_write s) with
                  | (st, Some e) => (st, Some e)
                  | (st, None) => write_all specs st
                  end
  end.

Definition compensate (c : compensation) (st : state) : state * option error :=
  match write_all (comp_writes c) st with
  | (st, Some e) => (st, Some e)
  | (st, None) =>
      (match comp_unrepaired c with
       | O => st
       | _ => setup_failure (add_error st
                (operation_error "bulk-commit-numbering-recovery" "")) false
       end, None)
  end.

(** [flush_journal], the first time it runs: [unwritten] rows were lost. *)
Definition flush_journal (unwritten : nat) (st : state) : state :=
  let '(_, l) := drain_journal_rows (st_ledger st) in
  let st := {| st_ledger := l; st_errors := st_errors st; st_norms := st_norms st |} in
  match unwritten with
  | O => st
  | _ => setup_failure (add_error st (operation_error "bulk-commit-journal" "")) false
  end.

Definition raw_envelope (st : state) : envelope :=
  {| operationsApplied := PInt 0; operationsFailed := PInt 0;
     operationsPartiallyApplied := PInt 0; success := PBool true; partial := PBool false;
     errors := st_errors st; normalizationFailures := st_norms st |}.

(** [finish()]; [flushed] says whether the journal was flushed before. *)
Definition finish (flushed : bool) (unwritten : nat) (st : state) : state * envelope * option error :=
  let st := if flushed then st else flush_journal unwritten st in
  let '(r, e) := finalize_bulk_commit_result (raw_envelope st) (st_ledger st) in (st, r, e).

(** What the world does to a run: the groups, the branches, an exception between the
    groups and the loop, the compensation, an exception after it, the rows lost. *)
Record scenario := {
  sc_groups : list group_step;
  sc_before_loop : option string;
  sc_operations : list operation;
  sc_continueOnError : bool;
  sc_compensation : compensation;
  sc_after_loop : option string;
  sc_unwritten : nat;
}.

(** The phases up to [finish]: returned, or an exception for the outer handler. *)
Definition phases (sc : scenario) (st : state) : state * bool :=
  match create_groups (sc_groups sc) st with
  | (st, true) => (st, false)
  | (st, false) =>
      match sc_before_loop sc with
      | Some _ => (st, true)
      | None =>
          match run_operations (sc_continueOnError sc) (sc_operations sc) st with
          | (st, Some _) => (st, true)
          | (st, None) =>
              match compensate (sc_compensation sc) st with
              | (st, Some _) => (st, true)
              | (st, None) =>
                  (st, match sc_after_loop sc with Some _ => true | None => false end)
              end
          end
      end
  end.

Inductive outcome :=
| Finished (r : envelope)      (* an envelope that passed its audit *)
| Unaudited (r : envelope).    (* the raw counts after the audit raised twice *)

(** The outer handler. *)
Definition crashed (flushed : bool) (unwritten : nat) (st : state) : outcome :=
  let st := setup_failure (add_error st (operation_error "bulk-commit" "")) true in
  match finish flushed unwritten st with
  | (_, r, None) => Finished r
  | (st, r, Some _) =>
      Unaudited {| operationsApplied := PInt (applied (counts (st_ledger st)));
                   operationsFailed := PInt (failed (counts (st_ledger st)));
                   operationsPartiallyApplied := operationsPartiallyApplied r;
                   success := PBool false; partial := partial r;
                   errors := errors r; normalizationFailures := normalizationFailures r |}
  end.

Definition run (sc : scenario) : outcome :=
  let st := {| st_ledger := new_ledger (Z.of_nat (length (sc_operations sc)));
               st_errors := []; st_norms := [] |} in
  match phases sc st with
  | (st, true) => crashed false (sc_unwritten sc) st
  | (st, false) =>
      match finish false (sc_unwritten sc) st with
      | (_, r, None) => Finished r
      | (st, _, Some _) => crashed true (sc_unwritten sc) st
      end
  end.

(** ** The loop's invariant *)

Definition same_counts (c c0 : counters) : Prop :=
  total_operations c = total_operations c0 /\ applied c = applied c0 /\ failed c = failed c0 /\
  partially_applied c = partially_applied c0 /\ setup_failures c = setup_failures c0 /\
  incomplete c = incomplete c0 /\ aborted c = aborted c0 /\
  applied_create_temp_ids c = applied_create_temp_ids c0.

Lemma same_counts_refl c : same_counts c c.
Proof. repeat split. Qed.

Lemma same_counts_trans c1 c2 c3 : same_counts c1 c2 -> same_counts c2 c3 -> same_counts c1 c3.
Proof. unfold same_counts. intuition congruence. Qed.

Lemma queue_same spec l l' e : queue_journal spec l = (l', e) ->
  op l' = op l /\ same_counts (counts l') (counts l).
Proof.
  intros [[-> _]|(_ & Ho & v & _ & _ & Hc)]%queue_journal_spec; [split; [done|apply same_counts_refl]|].
  split; [done|]. rewrite Hc. repeat split.
Qed.

(** An open operation: what its branch may have changed since it was opened on [st0]. *)
Definition during (st0 st : state) : Prop :=
  let o := op (st_ledger st) in
  is_open o = true /\ 0 <= side_effects o /\
  same_counts (counts (st_ledger st)) (counts (st_ledger st0)) /\
  st_errors st = st_errors st0 /\
  exists extra, st_norms st = st_norms st0 ++ extra /\
    match pending_create_temp_id o with
    | None => extra = []
    | Some t => persisted o = true /\ Forall (fun e => temp_id_of e = PInt t) extra
    end.

(** The creates of a branch, and the ones it may still make. *)
Definition creates (acts : list action) : nat :=
  length (List.filter (fun a => match a with PersistCreate _ _ _ => true | _ => false end) acts).

Definition may_create (st : state) (acts : list action) : Prop :=
  (creates acts <= match pending_create_temp_id (op (st_ledger st)) with None => 1 | Some _ => 0 end)%nat.

Lemma record_write_during st0 st spec l e :
  record_write spec (st_ledger st) = (l, e) -> during st0 st ->
  let st' := {| st_ledger := l; st_errors := st_errors st; st_norms := st_norms st |} in
  during st0 st' /\
  pending_create_temp_id (op l) = pending_create_temp_id (op (st_ledger st)).
Proof.
  unfold record_write. intros Hw (Ho & Hs & Hc & He & Hn). rewrite Ho in Hw.
  apply queue_same in Hw as [Hop Hsc]. unfold during. cbn [st_ledger st_errors st_norms].
  rewrite Hop. cbn. split_and!; try done; [lia|]. by eapply same_counts_trans.
Qed.

Lemma record_persisted_during st0 st spec l e :
  record_persisted spec None (st_ledger st) = (l, e) -> during st0 st ->
  let st' := {| st_ledger := l; st_errors := st_errors st; st_norms := st_norms st |} in
  during st0 st' /\
  pending_create_temp_id (op l) = pending_create_temp_id (op (st_ledger st)).
Proof.
  unfold record_persisted. intros Hw (Ho & Hs & Hc & He & extra & Hn & Hp).
  destruct (queue_journal spec (st_ledger st)) as [l1 e1] eqn:Hq.
  apply queue_same in Hq as [Hop Hsc]. unfold during.
  destruct e1; simplify_eq; cbn; rewrite Hop; (split; [|done]); split_and!; try done;
    try (by eapply same_counts_trans); exists extra; (split; [done|]); [done|].
  destruct (pending_create_temp_id _); [|done]. by split; [|apply Hp].
Qed.

Lemma perform_action_during st0 st st' a e :
  perform_action a st = (st', e) -> during st0 st -> may_create st [a] ->
  during st0 st' /\
  (forall acts, (e = None -> may_create st (a :: acts) -> may_create st' acts)).
Proof.
  intros Hp Hd Hm. destruct a; cbn in Hp; unfold on_ledger in Hp.
  - destruct (record_write spec (st_ledger st)) as [l e1] eqn:Hw. simplify_eq.
    apply (record_write_during st0) in Hw as [Hd' Hpe]; [|done]. split; [done|].
    intros acts _. unfold may_create, creates. cbn. by rewrite Hpe.
  - destruct (record_write spec (st_ledger st)) as [l e1] eqn:Hw. simplify_eq.
    apply (record_write_during st0) in Hw as [Hd' Hpe]; [|done]. split; [done|].
    intros acts _. unfold may_create, creates. cbn. by rewrite Hpe.
  - destruct (record_persisted spec None (st_ledger st)) as [l e1] eqn:Hw. simplify_eq.
    apply (record_persisted_during st0) in Hw as [Hd' Hpe]; [|done]. split; [done|].
    intros acts _. unfold may_create, creates. cbn. by rewrite Hpe.
  - unfold may_create, creates in Hm. cbn in Hm.
    destruct Hd as (Ho & Hs & Hc & He & extra & Hn & Hpe).
    destruct (pending_create_temp_id (op (st_ledger st))) as [t|] eqn:Ht; [lia|]. subst extra.
    unfold record_persisted in Hp. destruct (queue_journal spec (st_ledger st)) as [l1 e1] eqn:Hq.
    apply queue_same in Hq as [Hop Hsc].
    destruct e1; cbn in Hp; simplify_eq; unfold during; cbn.
    + split; [|done]. rewrite Hop, Ht. split_and!; try done; [by eapply same_counts_trans|].
      by exists [].
    + rewrite Hop. split.
      * split_and!; try done; [by eapply same_counts_trans|].
        destruct normalization_failure as [rest|].
        -- exists [normalization_entry temp_id rest]. rewrite Hn, app_nil_r.
           split_and!; [done|done|]. by repeat constructor.
        -- exists []. split_and!; [by rewrite Hn|done|constructor].
      * intros acts _. unfold may_create, creates. cbn. rewrite Ht. lia.
  - destruct (applied_without_writing reason (st_ledger st)) as [l e1] eqn:Hw. simplify_eq.
    destruct Hd as (Ho & Hs & Hc & He & Hn). unfold applied_without_writing in Hw.
    unfold during, may_create, creates. cbn.
    destruct reason; simplify_eq; try done.
    destruct (negb (is_reason _)); simplify_eq; [done|].
    rewrite Ho in Hw. cbn in Hw. simplify_eq. cbn. done.
  - simplify_eq. split; [done|]. intros acts [=].
Qed.

Lemma run_branch_during acts : forall st0 st st' e,
  run_branch acts st = (st', e) -> during st0 st -> may_create st acts -> during st0 st'.
Proof.
  induction acts as [|a acts IH]; intros st0 st st' e Hr Hd Hm; cbn in Hr; [by simplify_eq|].
  destruct (perform_action a st) as [st1 e1] eqn:Ha.
  apply (perform_action_during st0) in Ha as [Hd1 Hm1]; [|done|].
  - destruct e1; simplify_eq; [done|]. by eapply IH; [..|apply Hm1].
  - revert Hm. unfold may_create, creates. destruct a; cbn; lia.
Qed.

(** Between operations: the envelope's entries are the ledger's counts. *)
Definition settled (st : state) : Prop :=
  let c := counts (st_ledger st) in
  let r := raw_envelope st in
  is_open (op (st_ledger st)) = false /\ counts_ok c /\
  Z.of_nat (length (unapplied_entries r)) = failed c + setup_failures c /\
  Z.of_nat (length (applied_entries r)) = incomplete c /\
  Z.of_nat (length (landed_entries r)) = partially_applied c /\
  names_created (applied_create_temp_ids c) (st_norms st) /\
  (aborted c = true -> st_errors st <> []).

Lemma marked_details key o message extra :
  key ∈ ["applied"; SIDE_EFFECTS_LANDED_KEY] ->
  marked key (error_details o message ++ extra) = marked key extra.
Proof.
  intros Hk. unfold marked. f_equal.
  cut (dict_get (error_details o message ++ extra) key = dict_get extra key); [by intros ->|].
  unfold error_details, named.
  rewrite !elem_of_cons, elem_of_nil in Hk. destruct Hk as [->|[->|[]]];
    destruct (op_channel o) as [[]|], (op_stream o) as [[]|], (op_name o); reflexivity.
Qed.

(** An error entry joins the list its markers put it in. *)
Lemma add_error_entries st e :
  let r := raw_envelope st in
  let r' := raw_envelope (add_error st e) in
  Z.of_nat (length (unapplied_entries r')) =
    Z.of_nat (length (unapplied_entries r)) + Z.b2z (negb (marked "applied" e)) /\
  Z.of_nat (length (applied_entries r')) =
    Z.of_nat (length (applied_entries r)) + Z.b2z (marked "applied" e) /\
  Z.of_nat (length (landed_entries r')) =
    Z.of_nat (length (landed_entries r)) + Z.b2z (marked SIDE_EFFECTS_LANDED_KEY e).
Proof.
  unfold unapplied_entries, applied_entries, landed_entries. cbn.
  rewrite !List.filter_app, !length_app. cbn.
  split_and!; case_match; cbn; lia.
Qed.

Lemma names_created_mono ids ids' l : ids ⊆ ids' -> names_created ids l -> names_created ids' l.
Proof.
  intros Hs Hn. eapply Forall_impl; [exact Hn|]. cbn. intros e (Hh & t & Ht & He).
  split; [done|]. exists t. split; [by apply Hs|done].
Qed.

Lemma names_created_extra ids t extra :
  Forall (fun e => temp_id_of e = PInt t) extra -> names_created ({[t]} ∪ ids) extra.
Proof.
  intros He. eapply Forall_impl; [exact He|]. cbn. intros e ->. split; [done|]. exists t.
  split; [set_solver|]. cbn. apply Z.eqb_refl.
Qed.

(** What an operation's end leaves, from a settled state: exactly one more outcome, and a
    landed outcome is never a failure. *)
Definition concluded (st st' : state) (handled : bool) : Prop :=
  let c := counts (st_ledger st) in
  let c' := counts (st_ledger st') in
  settled st' /\ total_operations c' = total_operations c /\ aborted c' = aborted c /\
  (if persisted (op (st_ledger st'))
   then applied c' = applied c + 1 /\ failed c' = failed c
   else if handled then applied c' = applied c /\ failed c' = failed c + 1
   else applied c' = applied c + 1 /\ failed c' = failed c) /\
  (handled = true -> st_errors st' <> []).

Lemma close_open l : is_open (op l) = true ->
  close l = ({| counts := counts l;
    op := {| is_open := false; persisted := persisted (op l); side_effects := 0;
             no_write_reason := None;
             pending_create_temp_id := pending_create_temp_id (op l) |} |}, None).
Proof. unfold close. by intros ->. Qed.

(** The names a closing operation leaves: its own create is applied with it. *)
Lemma during_names st0 st ids :
  during st0 st -> names_created ids (st_norms st0) ->
  (persisted (op (st_ledger st)) = false -> names_created ids (st_norms st)) /\
  names_created (match pending_create_temp_id (op (st_ledger st)) with
                 | Some t => {[t]} ∪ ids
                 | None => ids
                 end) (st_norms st).
Proof.
  intros (_ & _ & _ & _ & extra & -> & Hp) Hn.
  destruct (pending_create_temp_id _) as [t|].
  - destruct Hp as [-> He]. split; [done|]. apply Forall_app. split.
    + eapply names_created_mono; [|exact Hn]. set_solver.
    + by apply names_created_extra.
  - subst. rewrite app_nil_r. done.
Qed.

Lemma counts_ok_same c c0 : same_counts c c0 -> counts_ok c0 -> counts_ok c.
Proof. unfold same_counts, counts_ok. intros H. destruct_and! H. intuition congruence. Qed.

(** A new error entry and the counts it goes with keep the state settled. *)
Lemma settled_add st0 st1 e :
  settled st0 -> st_errors st1 = st_errors st0 ->
  let c0 := counts (st_ledger st0) in let c := counts (st_ledger st1) in
  is_open (op (st_ledger st1)) = false -> counts_ok c ->
  failed c + setup_failures c = failed c0 + setup_failures c0 + Z.b2z (negb (marked "applied" e)) ->
  incomplete c = incomplete c0 + Z.b2z (marked "applied" e) ->
  partially_applied c = partially_applied c0 + Z.b2z (marked SIDE_EFFECTS_LANDED_KEY e) ->
  names_created (applied_create_temp_ids c) (st_norms st1) ->
  settled (add_error st1 e) /\ st_errors (add_error st1 e) <> [].
Proof.
  intros (_ & _ & Hu & Ha & Hl & _ & _) He c0 c Ho Hok Hf Hi Hp Hn.
  destruct (add_error_entries st1 e) as (F1 & F2 & F3). cbn zeta in *.
  assert (Hne : st_errors (add_error st1 e) <> []).
  { cbn. intros [_ ?]%app_nil. done. }
  split; [|done]. unfold settled. cbn zeta. rewrite F1, F2, F3.
  unfold unapplied_entries, applied_entries, landed_entries, raw_envelope in *. cbn [errors] in *.
  rewrite He, Hu, Ha, Hl. split_and!; try done; cbn [add_error st_ledger]; fold c c0; lia.
Qed.

Lemma settled_same st0 st1 :
  settled st0 -> st_errors st1 = st_errors st0 ->
  let c0 := counts (st_ledger st0) in let c := counts (st_ledger st1) in
  is_open (op (st_ledger st1)) = false -> counts_ok c ->
  failed c = failed c0 -> setup_failures c = setup_failures c0 -> incomplete c = incomplete c0 ->
  partially_applied c = partially_applied c0 -> aborted c = aborted c0 ->
  names_created (applied_create_temp_ids c) (st_norms st1) -> settled st1.
Proof.
  intros (_ & _ & Hu & Ha & Hl & _ & Hab) He c0 c Ho Hok Hf Hs Hi Hp Habt Hn.
  unfold settled, unapplied_entries, applied_entries, landed_entries, raw_envelope in *.
  cbn [errors] in *. cbn zeta. rewrite He. fold c. rewrite Hf, Hs, Hi, Hp, Habt. done.
Qed.

(** The markers read back. *)
Lemma marked_applied :
  marked "applied" [("applied", PBool true)] = true /\
  marked SIDE_EFFECTS_LANDED_KEY [("applied", PBool true)] = false.
Proof. done. Qed.

Lemma marked_landed (b : bool) :
  let e := if b then [(SIDE_EFFECTS_LANDED_KEY, PBool true)] else [] in
  marked "applied" e = false /\ marked SIDE_EFFECTS_LANDED_KEY e = b.
Proof. by destruct b. Qed.

Lemma applied_key : "applied" ∈ ["applied"; SIDE_EFFECTS_LANDED_KEY].
Proof. by left. Qed.

Lemma landed_key : SIDE_EFFECTS_LANDED_KEY ∈ ["applied"; SIDE_EFFECTS_LANDED_KEY].
Proof. right. by left. Qed.

(** Closing as applied; [inc] comes with the handler's entry. *)
Lemma applied_concludes st0 st (inc : bool) o message :
  settled st0 -> during st0 st -> told_nothing (op (st_ledger st)) = false ->
  (inc = true -> persisted (op (st_ledger st)) = true) ->
  exists st1, on_ledger st (record_applied inc) = (st1, None) /\
    concluded st0 (if inc then add_error st1 (error_details o message ++ [("applied", PBool true)])
                   else st1) inc.
Proof.
  intros Hst Hd Ht Hinc. pose proof Hd as (Ho & Hs & Hc & He & _).
  unfold on_ledger, record_applied. rewrite Ht, close_open by done.
  eexists. split; [reflexivity|].
  destruct (during_names _ _ _ Hd (proj1 (proj2 (proj2 (proj2 (proj2 (proj2 Hst))))))) as [_ Hnames].
  destruct Hc as (E1 & E2 & E3 & E4 & E5 & E6 & E7 & E8). rewrite <- E8 in Hnames.
  pose proof Hst as (_ & (? & ? & ?) & _). set (st1 := {| st_ledger := _ |}).
  assert (Hok : counts_ok (counts (st_ledger st1))).
  { unfold counts_ok. cbn. rewrite E2, E3, E4, E5, E6. destruct inc; lia. }
  destruct inc.
  - destruct (settled_add st0 st1 (error_details o message ++ [("applied", PBool true)]))
      as [Hset Hne]; try done.
    + rewrite marked_details, (proj1 marked_applied) by apply applied_key. cbn. lia.
    + rewrite marked_details, (proj1 marked_applied) by apply applied_key. cbn. lia.
    + rewrite marked_details, (proj2 marked_applied) by apply landed_key. cbn. lia.
    + unfold concluded. cbn zeta. split_and!; try done; cbn; [by rewrite Hinc; [split; lia|]].
  - unfold concluded. cbn zeta. split_and!; try done.
    + by apply (settled_same st0 st1).
    + cbn. rewrite E2, E3. destruct (persisted _); split; done.
Qed.

(** Closing as failed. *)
Lemma failed_concludes st0 st o message :
  settled st0 -> during st0 st -> persisted (op (st_ledger st)) = false ->
  exists st1, on_ledger st record_failed = (st1, None) /\
    concluded st0 (add_error st1 (error_details o message ++
      (if side_effects_landed (st_ledger st) then [(SIDE_EFFECTS_LANDED_KEY, PBool true)] else []))) true.
Proof.
  intros Hst Hd Hper. pose proof Hd as (Ho & Hs & Hc & He & _).
  unfold on_ledger, record_failed. rewrite close_open by done.
  eexists. split; [reflexivity|].
  destruct (during_names _ _ _ Hd (proj1 (proj2 (proj2 (proj2 (proj2 (proj2 Hst))))))) as [Hnames _].
  specialize (Hnames Hper).
  destruct Hc as (E1 & E2 & E3 & E4 & E5 & E6 & E7 & E8). rewrite <- E8 in Hnames.
  pose proof Hst as (_ & (? & ? & ?) & _). set (st1 := {| st_ledger := _ |}).
  assert (Hside : side_effects_landed (st_ledger st) = negb (side_effects (op (st_ledger st)) =? 0)).
  { unfold side_effects_landed. destruct (Z.ltb_spec 0 (side_effects (op (st_ledger st)))),
      (Z.eqb_spec (side_effects (op (st_ledger st))) 0); try done; lia. }
  rewrite Hside.
  assert (Hok : counts_ok (counts (st_ledger st1))).
  { unfold counts_ok. cbn. rewrite E2, E3, E4, E5, E6. case_match; lia. }
  destruct (settled_add st0 st1 (error_details o message ++
    (if negb (side_effects (op (st_ledger st)) =? 0) then [(SIDE_EFFECTS_LANDED_KEY, PBool true)] else [])))
    as [Hset Hne]; try done.
  - rewrite marked_details, (proj1 (marked_landed _)) by apply applied_key. cbn. lia.
  - rewrite marked_details, (proj1 (marked_landed _)) by apply applied_key. cbn. lia.
  - rewrite marked_details, (proj2 (marked_landed _)) by apply landed_key. cbn.
    destruct (_ =? 0); cbn; lia.
  - unfold concluded. cbn zeta. split_and!; try done; cbn. rewrite Hper. lia.
Qed.

(** One operation, whatever its branch does: no exception escapes, and it ends with exactly
    one outcome. *)
Lemma run_operation_concludes o st :
  settled st -> (creates (branch o) <= 1)%nat ->
  exists st' handled, run_operation o st = (st', handled, None) /\ concluded st st' handled.
Proof.
  intros Hst Hcr. unfold run_operation, on_ledger at 1, begin_.
  pose proof Hst as (Hop & _). rewrite Hop. set (st1 := {| st_ledger := _ |}).
  assert (Hd1 : during st st1).
  { split_and!; try done. exists []. by rewrite app_nil_r. }
  destruct (run_branch (branch o) st1) as [st2 e] eqn:Hb.
  apply (run_branch_during _ st) in Hb as Hd2; [|done|done].
  assert (Hfail : forall message, exists st', handle_failure o message st2 = (st', None) /\
    concluded st st' true).
  { intros message. unfold handle_failure.
    destruct (persisted (op (st_ledger st2))) eqn:Hp.
    - destruct (applied_concludes st st2 true o message) as (st3 & -> & Hc); try done.
      + unfold told_nothing. by rewrite Hp.
      + eauto.
    - destruct (failed_concludes st st2 o message) as (st3 & -> & Hc); try done. eauto. }
  destruct e as [message|].
  - destruct (Hfail message) as (st3 & -> & Hc). eauto.
  - destruct (told_nothing (op (st_ledger st2))) eqn:Ht.
    + unfold on_ledger, record_applied. rewrite Ht.
      replace {| st_ledger := st_ledger st2; st_errors := st_errors st2; st_norms := st_norms st2 |}
        with st2 by (by destruct st2).
      destruct (Hfail "accounting error") as (st3 & -> & Hc). eauto.
    + destruct (applied_concludes st st2 false o "") as (st3 & -> & Hc); try done. eauto.
Qed.

(** ** The run *)

(** A settled run over [n] operations, none counted twice. *)
Definition bounded (n : Z) (st : state) : Prop :=
  settled st /\ total_operations (counts (st_ledger st)) = n /\ 0 <= attempted (st_ledger st) <= n.

(** Every operation was reached, unless the run says it aborted. *)
Definition complete (n : Z) (st : state) : Prop :=
  aborted (counts (st_ledger st)) = false -> attempted (st_ledger st) = n.

Lemma run_operations_settled cont n ops : forall st,
  Forall (fun o => (creates (branch o) <= 1)%nat) ops ->
  bounded n st -> attempted (st_ledger st) + Z.of_nat (length ops) = n ->
  exists st', run_operations cont ops st = (st', None) /\ bounded n st' /\ complete n st'.
Proof.
  induction ops as [|o ops IH]; intros st Hcr (Hs & Ht & Ha) Hn; cbn [run_operations].
  { exists st. split; [done|]. split; [done|]. intros _. cbn in Hn. lia. }
  apply Forall_cons in Hcr as [Hc Hcr].
  destruct (run_operation_concludes o st Hs Hc) as (st' & handled & -> & Hs' & Ht' & Hab & Hout & He).
  assert (Hatt : attempted (st_ledger st') = attempted (st_ledger st) + 1).
  { unfold attempted. destruct (persisted _), handled; lia. }
  rewrite length_cons in Hn.
  assert (Hb : bounded n st') by (split_and!; [done|congruence|lia|lia]).
  destruct handled; [destruct cont|].
  - apply IH; try done. lia.
  - eexists. split; [reflexivity|]. split.
    + destruct Hb as (_ & Hb2 & Hb3). split; [|exact (conj Hb2 Hb3)].
      destruct Hs' as (? & ? & ? & ? & ? & ? & ?). split_and!; try done.
    + intros Hf. done.
  - apply IH; try done. lia.
Qed.

Lemma setup_failure_settled n st b id message :
  bounded n st ->
  let st' := setup_failure (add_error st (operation_error id message)) b in
  bounded n st' /\ aborted (counts (st_ledger st')) = b || aborted (counts (st_ledger st)) /\
  attempted (st_ledger st') = attempted (st_ledger st).
Proof.
  intros (Hs & Ht & Ha). cbn zeta. split_and!; [|done|done]. unfold bounded.
  assert (Hc : settled (setup_failure (add_error st (operation_error id message)) b)); [|done].
  pose proof Hs as (Ho & (? & ? & ?) & Hu & Hap & Hl & Hn & _).
  destruct (add_error_entries st (operation_error id message)) as (F1 & F2 & F3).
  assert (E1 : marked "applied" (operation_error id message) = false) by reflexivity.
  assert (E2 : marked SIDE_EFFECTS_LANDED_KEY (operation_error id message) = false) by reflexivity.
  cbn zeta in *. rewrite E1 in F1, F2. rewrite E2 in F3. cbn [negb Z.b2z] in *.
  unfold settled. cbn zeta.
  change (raw_envelope (setup_failure ?x b)) with (raw_envelope x). rewrite F1, F2, F3, Hu, Hap, Hl.
  split_and!; try done; cbn; try lia; [unfold counts_ok; cbn; lia|by intros _ [_ ?]%app_nil].
Qed.

(** Ledger calls between operations that only queue rows. *)
Lemma settled_counts n st l :
  bounded n st -> op l = op (st_ledger st) -> same_counts (counts l) (counts (st_ledger st)) ->
  let st' := {| st_ledger := l; st_errors := st_errors st; st_norms := st_norms st |} in
  bounded n st' /\ aborted (counts l) = aborted (counts (st_ledger st)) /\
  attempted l = attempted (st_ledger st).
Proof.
  intros (Hs & Ht & Ha) Ho (E1 & E2 & E3 & E4 & E5 & E6 & E7 & E8). cbn zeta.
  split_and!; [|done|unfold attempted; congruence].
  pose proof Hs as (Hop & (? & ? & ?) & Hu & Hap & Hl & Hn & Hab). unfold bounded, attempted in *. cbn.
  split_and!; [|congruence|lia|lia].
  eapply settled_same; [exact Hs|done|..]; cbn; try congruence.
  unfold counts_ok. rewrite E2, E3, E4, E5, E6. lia.
Qed.

Lemma between_write n st spec st' e :
  bounded n st -> on_ledger st (record_write spec) = (st', e) ->
  bounded n st' /\ aborted (counts (st_ledger st')) = aborted (counts (st_ledger st)) /\
  attempted (st_ledger st') = attempted (st_ledger st).
Proof.
  intros Hb. pose proof Hb as ((Ho & _) & _). unfold on_ledger, record_write. rewrite Ho.
  destruct (queue_journal spec (st_ledger st)) as [l e1] eqn:Hq. intros [= <- <-].
  apply queue_same in Hq as [Hop Hsc]. by apply settled_counts.
Qed.

Lemma create_groups_bounded n gs : forall st st' b,
  create_groups gs st = (st', b) -> bounded n st ->
  bounded n st' /\ attempted (st_ledger st') = attempted (st_ledger st) /\
  (b = true -> aborted (counts (st_ledger st')) = true).
Proof.
  induction gs as [|g gs IH]; intros st st' b Hg Hb; cbn in Hg; [by simplify_eq|].
  destruct (create_group g st) as [st1 e] eqn:Hc.
  assert (H1 : bounded n st1 /\ attempted (st_ledger st1) = attempted (st_ledger st)).
  { unfold create_group in Hc. destruct (g_write g) as [spec|]; [|by simplify_eq].
    destruct (on_ledger st (record_write spec)) as [st2 e2] eqn:Hw.
    apply (between_write n) in Hw as (? & _ & ?); [|done]. by destruct e2; simplify_eq. }
  destruct H1 as [Hb1 Ha1]. destruct e as [e|].
  - simplify_eq.
    destruct (setup_failure_settled n st1 true (String.append "create-group-" (g_name g)) e Hb1)
      as (Hb2 & Hab2 & Hat2). split_and!; [exact Hb2|rewrite <- Ha1; exact Hat2|intros _; exact Hab2].
  - apply IH in Hg as (? & ? & ?); [|done]. split_and!; [done|congruence|done].
Qed.

Lemma write_all_bounded n specs : forall st st' e,
  write_all specs st = (st', e) -> bounded n st ->
  bounded n st' /\ aborted (counts (st_ledger st')) = aborted (counts (st_ledger st)) /\
  attempted (st_ledger st') = attempted (st_ledger st).
Proof.
  induction specs as [|s specs IH]; intros st st' e Hw Hb; cbn in Hw; [by simplify_eq|].
  destruct (on_ledger st (record_write s)) as [st1 e1] eqn:Hs.
  apply (between_write n) in Hs as (Hb1 & Hab & Hat); [|done].
  destruct e1; simplify_eq; [done|]. apply IH in Hw as (? & ? & ?); [|done].
  split_and!; [done|congruence|congruence].
Qed.

Lemma compensate_bounded n c st st' e :
  compensate c st = (st', e) -> bounded n st ->
  bounded n st' /\ aborted (counts (st_ledger st')) = aborted (counts (st_ledger st)) /\
  attempted (st_ledger st') = attempted (st_ledger st).
Proof.
  unfold compensate. destruct (write_all _ st) as [st1 e1] eqn:Hw. intros Hc Hb.
  apply (write_all_bounded n) in Hw as (Hb1 & Hab & Hat); [|done].
  destruct e1; simplify_eq; [done|]. destruct (comp_unrepaired c); [done|].
  destruct (setup_failure_settled n st1 false "bulk-commit-numbering-recovery" "" Hb1) as (Hb2 & Hab2 & Hat2).
  split_and!; [exact Hb2|rewrite <- Hab; exact Hab2|rewrite <- Hat; exact Hat2].
Qed.

Lemma flush_bounded n u st : bounded n st ->
  bounded n (flush_journal u st) /\
  aborted (counts (st_ledger (flush_journal u st))) = aborted (counts (st_ledger st)) /\
  attempted (st_ledger (flush_journal u st)) = attempted (st_ledger st).
Proof.
  intros Hb. unfold flush_journal. cbn [drain_journal_rows].
  set (l := (drain_journal_rows (st_ledger st)).2).
  destruct (settled_counts n st l) as (Hb1 & Hab & Hat); [done|done|repeat split|]. cbn in Hb1.
  destruct u; [by split_and!|].
  destruct (setup_failure_settled n _ false "bulk-commit-journal" "" Hb1) as (? & ? & ?).
  split_and!; [done|done|done].
Qed.

(** What a finished envelope says of a run over [n] operations. *)
Definition faithful (n : Z) (r : envelope) : Prop :=
  exists a f, operationsApplied r = PInt a /\ operationsFailed r = PInt f /\
    0 <= a /\ 0 <= f /\ a + f <= n /\
    (success r = PBool true <-> errors r = []) /\
    (success r = PBool true -> a = n /\ f = 0).

Lemma finish_faithful n flushed u st :
  bounded n st -> complete n st ->
  exists st' r, finish flushed u st = (st', r, None) /\ faithful n r.
Proof.
  intros Hb Hcomp. unfold finish.
  assert (H : exists st1, (if flushed then st else flush_journal u st) = st1 /\
    bounded n st1 /\ complete n st1).
  { eexists. split; [reflexivity|]. destruct flushed; [done|].
    destruct (flush_bounded n u st Hb) as (Hb1 & Hab & Hat). split; [done|].
    unfold complete in *. by rewrite Hab, Hat. }
  destruct H as (st1 & -> & (Hs & Ht & Ha) & Hc1).
  pose proof Hs as (_ & Hok & Hu & Hap & Hl & Hn & Hab).
  rewrite finalize_matches; [|done|].
  2:{ split_and!; try done. destruct (aborted _) eqn:E; [lia|]. rewrite Ht. auto. }
  eexists _, _. split; [reflexivity|]. destruct Hok as (? & ? & ?).
  unfold faithful, derived, unapplied_entries, applied_entries, attempted in *. cbn in *.
  assert (Hlen : length (st_errors st1) =
    (length (List.filter (marked "applied") (st_errors st1)) +
     length (List.filter (fun e => negb (marked "applied" e)) (st_errors st1)))%nat).
  { clear. induction (st_errors st1) as [|e l IH]; [done|]. cbn.
    destruct (marked "applied" e); cbn; lia. }
  assert (Hsucc : PBool ((failed (counts (st_ledger st1)) =? 0) &&
    (incomplete (counts (st_ledger st1)) =? 0) && (setup_failures (counts (st_ledger st1)) =? 0)) =
    PBool true <-> st_errors st1 = []).
  { rewrite <- length_zero, Nat.eqb_eq. split.
    - intros [= H']. to_prop. lia.
    - intros Hnil. f_equal. rewrite !andb_true_iff, !Z.eqb_eq. lia. }
  exists (applied (counts (st_ledger st1))), (failed (counts (st_ledger st1))).
  do 2 (split; [done|]). do 3 (split; [lia|]). split; [exact Hsucc|].
  intros He. apply Hsucc in He. assert (aborted (counts (st_ledger st1)) = false) as Hna.
  { destruct (aborted _); [by apply Hab in He|done]. }
  apply Hc1 in Hna. rewrite He in Hu, Hap. cbn in Hu, Hap. unfold attempted in Hna. lia.
Qed.

(** C2: every run finishes with an envelope that passes its audit, whatever upstream does:
    branches that raise at any point, rows that are refused, groups that fail, exceptions
    outside the loop, writes that cannot be compensated, journal rows that are lost.  The
    envelope never counts more outcomes than operations, claims success exactly when it
    carries no error entry, and then every submitted operation was applied. *)
Theorem run_finishes sc :
  Forall (fun o => (creates (branch o) <= 1)%nat) (sc_operations sc) ->
  exists r, run sc = Finished r /\ faithful (Z.of_nat (length (sc_operations sc))) r.
Proof.
  intros Hcr. unfold run. set (n := Z.of_nat _). set (st0 := {| st_ledger := _ |}).
  assert (Hb0 : bounded n st0).
  { split; [|split; [done|unfold attempted, n; cbn; lia]]. split_and!; try done; apply Forall_nil_2. }
  assert (Hcrash : forall flushed st, bounded n st ->
    exists r, crashed flushed (sc_unwritten sc) st = Finished r /\ faithful n r).
  { intros flushed st Hb. unfold crashed.
    destruct (setup_failure_settled n st true "bulk-commit" "" Hb) as (Hb1 & Hab & Hat).
    destruct (finish_faithful n flushed (sc_unwritten sc) _ Hb1) as (st' & r & -> & Hf); [|eauto].
    unfold complete. rewrite Hab. done. }
  assert (Hdone : forall st, bounded n st -> complete n st ->
    exists r, match finish false (sc_unwritten sc) st with
      | (_, r, None) => Finished r
      | (st, _, Some _) => crashed true (sc_unwritten sc) st
      end = Finished r /\ faithful n r).
  { intros st Hb Hc. destruct (finish_faithful n false (sc_unwritten sc) st Hb Hc) as (st' & r & -> & Hf).
    eauto. }
  unfold phases. destruct (create_groups (sc_groups sc) st0) as [st1 b] eqn:Hg.
  apply (create_groups_bounded n) in Hg as (Hb1 & Hat1 & Hab1); [|done]. destruct b.
  { apply Hdone; [done|]. unfold complete. by rewrite Hab1. }
  destruct (sc_before_loop sc); [by apply Hcrash|].
  destruct (run_operations_settled (sc_continueOnError sc) n (sc_operations sc) st1 Hcr Hb1)
    as (st2 & -> & Hb2 & Hc2).
  { rewrite Hat1. unfold attempted, n. cbn. lia. }
  destruct (compensate (sc_compensation sc) st2) as [st3 e] eqn:Hcomp.
  apply (compensate_bounded n) in Hcomp as (Hb3 & Hab3 & Hat3); [|done].
  destruct e; [by apply Hcrash|]. destruct (sc_after_loop sc); [by apply Hcrash|].
  apply Hdone; [done|]. unfold complete in *. by rewrite Hab3, Hat3.
Qed.

(** *** What a branch's own statements make of its outcome *)

(** A row the journal takes. *)
Definition good_row (spec : journal_row_spec) : bool :=
  match spec with
  | NothingToJournal _ => true
  | Row v => match rows_of v with [] => false | rows => forallb is_row rows end
  end.

(** The statement raises; records the operation's own write; tells the ledger anything. *)
Definition stops (a : action) : bool :=
  match a with
  | Write spec | Persist spec | PersistCreate spec _ _ => negb (good_row spec)
  | GuardedWrite _ => false
  | NothingToWrite reason => negb (is_reason reason)
  | Throw _ => true
  end.
Definition records (a : action) : bool :=
  match a with Persist spec | PersistCreate spec _ _ => good_row spec | _ => false end.
Definition tells (a : action) : bool :=
  match a with
  | Write _ | GuardedWrite _ => true
  | Persist spec | PersistCreate spec _ _ => good_row spec
  | NothingToWrite reason => is_reason reason
  | Throw _ => false
  end.

(** A statement with [f] is reached. *)
Fixpoint comes_to (f : action -> bool) (acts : list action) : bool :=
  match acts with [] => false | a :: acts => f a || negb (stops a) && comes_to f acts end.
Definition raises : list action -> bool := existsb stops.
Definition landed : list action -> bool := comes_to records.

Lemma queue_good spec l : exists l' e, queue_journal spec l = (l', e) /\ op l' = op l /\
  match e with None => good_row spec = true | Some _ => good_row spec = false end.
Proof.
  unfold queue_journal, good_row. destruct spec as [v|r]; [|by exists l, None].
  destruct (rows_of v) as [|x rows]; [by exists l, (Some EmptyRows)|].
  assert (Hb : first_bad (x :: rows) = None <-> forallb is_row (x :: rows) = true).
  { unfold first_bad. induction (x :: rows) as [|y ys IH]; [done|]. cbn [List.filter forallb].
    destruct (is_row y); cbn [negb andb]; [exact IH|done]. }
  destruct (first_bad (x :: rows)) as [row|] eqn:E; eexists _, _; (split; [reflexivity|]); (split; [done|]).
  - destruct (forallb is_row (x :: rows)); [|done]. by destruct Hb as [_ Hb]; specialize (Hb eq_refl).
  - by apply Hb.
Qed.

Lemma action_told a st st' e :
  is_open (op (st_ledger st)) = true -> 0 <= side_effects (op (st_ledger st)) -> perform_action a st = (st', e) ->
  let o := op (st_ledger st) in let o' := op (st_ledger st') in
  is_open o' = true /\ 0 <= side_effects o' /\ persisted o' = persisted o || records a /\
  told_nothing o' = told_nothing o && negb (tells a) /\
  match e with None => stops a = false | Some _ => stops a = true end.
Proof.
  intros Ho Hs. cbn zeta. destruct a as [spec|spec|spec|spec t nf|reason|m]; cbn [perform_action]; unfold on_ledger;
    try (unfold record_write; rewrite Ho; edestruct (queue_good spec) as (l' & e' & -> & Ho' & Hg); intros [= <- <-];
         cbn [st_ledger stops records tells]; rewrite Ho'; cbn; unfold told_nothing; cbn;
         rewrite orb_false_r, andb_false_r;
         split_and!; [done|lia|done|by rewrite (proj2 (Z.eqb_neq _ _)) by lia; rewrite andb_false_r|by destruct e'; cbn; rewrite ?Hg]).
  - unfold record_persisted. destruct (queue_good spec (st_ledger st)) as (l' & [e'|] & -> & Ho' & Hg); intros [= <- <-];
      cbn [st_ledger stops records tells op]; rewrite Ho'; cbn; unfold told_nothing; cbn; rewrite Hg, ?orb_false_r, ?orb_true_r, ?andb_true_r, ?andb_false_r;
      split_and!; done.
  - unfold record_persisted. destruct (queue_good spec (st_ledger st)) as (l' & [e'|] & -> & Ho' & Hg); intros [= <- <-];
      cbn [st_ledger stops records tells op]; rewrite Ho'; cbn; unfold told_nothing; cbn; rewrite Hg, ?orb_false_r, ?orb_true_r, ?andb_true_r, ?andb_false_r;
      split_and!; done.
  - unfold applied_without_writing. cbn [stops records tells]. rewrite orb_false_r.
    assert (Hbad : forall e', e = raised_text (Some e') -> is_reason reason = false -> st' = st ->
      is_open (op (st_ledger st')) = true /\ 0 <= side_effects (op (st_ledger st')) /\
      persisted (op (st_ledger st')) = persisted (op (st_ledger st)) /\
      told_nothing (op (st_ledger st')) = told_nothing (op (st_ledger st)) && negb (is_reason reason) /\
      match e with None => negb (is_reason reason) = false | Some _ => negb (is_reason reason) = true end)
      by (intros e' -> -> ->; rewrite andb_true_r; by split_and!).
    destruct reason as [| | | |r| |]; try (intros [= <- <-]; by apply (Hbad ReasonRequired); [done|done|destruct st]).
    rewrite Ho. destruct (is_reason (PStr r)) eqn:Er; [|intros [= <- <-]; by apply (Hbad ReasonRequired); [done|done|destruct st]].
    intros [= <- <-]. cbn. unfold told_nothing. cbn. rewrite !andb_false_r. by split_and!.
  - intros [= <- <-]. cbn. rewrite orb_false_r, andb_true_r. by split_and!.
Qed.

Lemma branch_told acts : forall st st' e,
  is_open (op (st_ledger st)) = true -> 0 <= side_effects (op (st_ledger st)) -> run_branch acts st = (st', e) ->
  let o := op (st_ledger st) in let o' := op (st_ledger st') in
  is_open o' = true /\ persisted o' = persisted o || landed acts /\
  told_nothing o' = told_nothing o && negb (comes_to tells acts) /\
  match e with None => raises acts = false | Some _ => raises acts = true end.
Proof.
  induction acts as [|a acts IH]; intros st st' e Ho Hs; cbn [run_branch].
  { intros [= <- <-]. cbn. by rewrite orb_false_r, andb_true_r. }
  destruct (perform_action a st) as [st1 e1] eqn:E. destruct (action_told a st st1 e1 Ho Hs E) as (Ho1 & Hs1 & Hp & Ht & He).
  unfold landed, raises. cbn [comes_to existsb]. destruct e1 as [m|]; [intros [= <- <-]|intros Hr]; rewrite He; cbn.
  - rewrite Hp, Ht, !orb_false_r. by split_and!.
  - destruct (IH st1 st' e Ho1 Hs1 Hr) as (Ho2 & Hp2 & Ht2 & He2). rewrite Hp2, Ht2, Hp, Ht.
    split_and!; [done|by rewrite orb_assoc|by rewrite negb_orb, andb_assoc|done].
Qed.

Lemma landed_tells acts : landed acts = true -> comes_to tells acts = true.
Proof.
  assert (Ha : forall a, records a = true -> tells a = true) by by intros [].
  unfold landed. induction acts as [|a acts IH]; [done|]. cbn [comes_to]. rewrite !orb_true_iff, !andb_true_iff. naive_solver.
Qed.

Lemma handled_counts o message st : is_open (op (st_ledger st)) = true ->
  exists st', handle_failure o message st = (st', None) /\
    let c := counts (st_ledger st) in let c' := counts (st_ledger st') in let b := persisted (op (st_ledger st)) in
    applied c' = applied c + Z.b2z b /\ failed c' = failed c + Z.b2z (negb b) /\ incomplete c' = incomplete c + Z.b2z b.
Proof.
  intros Ho. unfold handle_failure, on_ledger, record_applied, record_failed, close, told_nothing.
  destruct (persisted (op (st_ledger st))) eqn:Hp; cbn [negb andb]; rewrite Ho; cbn; eexists; (split; [reflexivity|]); cbn;
    split_and!; lia.
Qed.

(** C27: an outcome that landed is never reported as a failure.  From a settled state, an
    operation (of at most one create) raises nothing and gets exactly one outcome, which is
    read off its branch: when the branch came to a statement that records its own write, and
    the journal took the row, it is counted applied, even when the branch then raised, which
    is counted as incomplete and gets an entry marked applied; one that returned having told
    the ledger anything is counted applied; any other is counted failed. *)
Theorem landed_never_failed o st :
  settled st -> (creates (branch o) <= 1)%nat ->
  exists st' handled, run_operation o st = (st', handled, None) /\ settled st' /\
    let c := counts (st_ledger st) in
    let c' := counts (st_ledger st') in
    let ok := landed (branch o) || negb (raises (branch o)) && comes_to tells (branch o) in
    applied c' = applied c + Z.b2z ok /\ failed c' = failed c + Z.b2z (negb ok) /\
    incomplete c' = incomplete c + Z.b2z (landed (branch o) && raises (branch o)).
Proof.
  intros Hs Hc. destruct (run_operation_concludes o st Hs Hc) as (st' & h & Hr & Hs' & _).
  exists st', h. split_and!; [done|done|]. cbn zeta. revert Hr. clear Hs'. unfold run_operation, on_ledger at 1, begin_.
  pose proof Hs as (Hop & _). rewrite Hop. set (st1 := {| st_ledger := _ |}).
  destruct (run_branch (branch o) st1) as [st2 e] eqn:Hb.
  assert (Hd1 : during st st1) by (split_and!; try done; exists []; by rewrite app_nil_r).
  destruct (run_branch_during _ st _ _ _ Hb Hd1) as (_ & _ & (_ & Ha & Hf & _ & _ & Hi & _) & _); [done|].
  destruct (branch_told (branch o) st1 st2 e eq_refl (Z.le_refl 0) Hb) as (Ho2 & Hp & Ht & He). cbn in Hp, Ht.
  pose proof (landed_tells (branch o)) as Hlt.
  destruct e as [m|]; rewrite He.
  - destruct (handled_counts o m st2 Ho2) as (st3 & -> & Ha3 & Hf3 & Hi3). intros [= <- _]. rewrite Hp in *.
    destruct (landed (branch o)); cbn in *; lia.
  - destruct (comes_to tells (branch o)) eqn:Et; cbn in Ht.
    + unfold on_ledger, record_applied, close. rewrite Ht, Ho2. cbn. intros [= <- _]. cbn.
      destruct (landed (branch o)); cbn; lia.
    + unfold on_ledger, record_applied. rewrite Ht.
      replace {| st_ledger := st_ledger st2; st_errors := st_errors st2; st_norms := st_norms st2 |} with st2 by (by destruct st2).
      destruct (handled_counts o "accounting error" st2 Ho2) as (st3 & -> & Ha3 & Hf3 & Hi3). intros [= <- _]. rewrite Hp in *.
      destruct (landed (branch o)); [by specialize (Hlt eq_refl)|]. cbn in *. lia.
Qed.

(** ** A concrete run *)

Definition row (n : string) : journal_row_spec := Row (PDict [("entity_name", PStr n)]).

Definition an_operation (t : string) (acts : list action) : operation :=
  {| op_id := "op"; op_type := t; op_channel := Some (7, "ESPN"); op_stream := None;
     op_name := None; branch := acts |}.

(** A group delete that moved its channels and then failed; a create that landed without a
    usable id and could not be normalized; an add-stream that was already done. *)
Definition mixed : list operation :=
  [an_operation "deleteChannelGroup" [Write (row "moved"); Throw "400"];
   an_operation "createChannel"
     [PersistCreate (row "created") (-1) (Some [("name", PStr "raw")]); Throw "no id"];
   an_operation "addStreamToChannel" [NothingToWrite (PStr "already there")]].

Definition mixed_run (cont : bool) : scenario :=
  {| sc_groups := [{| g_name := "News"; g_write := Some (row "News"); g_error := None |}];
     sc_before_loop := None; sc_operations := mixed; sc_continueOnError := cont;
     sc_compensation := {| comp_writes := []; comp_unrepaired := 0 |};
     sc_after_loop := None; sc_unwritten := 0 |}.

Example mixed_counts : exists r, run (mixed_run true) = Finished r /\
  operationsApplied r = PInt 2 /\ operationsFailed r = PInt 1 /\
  operationsPartiallyApplied r = PInt 1 /\ success r = PBool false /\ partial r = PBool true.
Proof. eexists. vm_compute. repeat split; reflexivity. Qed.

(** Stopping at the first error leaves the rest unattempted, with nothing applied and still
    something to reconcile. *)
Example stopped_counts : exists r, run (mixed_run false) = Finished r /\
  operationsApplied r = PInt 0 /\ operationsFailed r = PInt 1 /\ partial r = PBool true.
Proof. eexists. vm_compute. repeat split; reflexivity. Qed.

Lemma run_finishes_witness : exists r, run (mixed_run true) = Finished r /\ faithful 3 r.
Proof.
  apply (run_finishes (mixed_run true)). repeat constructor.
Defined.

Definition fresh (n : Z) : state :=
  {| st_ledger := new_ledger n; st_errors := []; st_norms := [] |}.

Lemma fresh_settled n : settled (fresh n).
Proof. split_and!; try done. apply Forall_nil_2. Qed.

Lemma landed_never_failed_witness : exists st' handled,
  run_operation (nth 1 mixed (an_operation "" [])) (fresh 3) = (st', handled, None) /\
  handled = true /\ applied (counts (st_ledger st')) = 1 /\ failed (counts (st_ledger st')) = 0.
Proof.
  destruct (landed_never_failed (nth 1 mixed (an_operation "" [])) (fresh 3))
    as (st' & h & Hr & _ & Ho).
  - apply fresh_settled.
  - repeat constructor.
  - exists st', h. assert (Hc := Hr). revert Hc. vm_compute.
    intros [= <- <-]. repeat split.
Defined.

End BulkRun.
