(* ===== verification/MutationPlanStore.v ===== *)
(** * Short-lived mutation plans ([backend/services/mutation_plan_store.py]).

    The canonical JSON text a payload is hashed by, and the bounded store whose claims are
    validated and consumed under one lock (so a call is one step).  Clock readings are
    whole microseconds; [sha256] and the plan ids [uuid4] draws are parameters. *)
From S2P Require Import Prelude PyFloat PyValue.
Open Scope Z_scope.

Module MutationPlanStore.

Definition PLAN_TTL_SECONDS : Z := 300.
Definition PLAN_MAX_ENTRIES : nat := 128.
Definition PLAN_MAX_BYTES : Z := 2 * 1024 * 1024.

Inductive error :=
| TooLarge
| UnknownPlan          (* expired, unknown, or already consumed *)
| OperationMismatch
| HashMismatch
| PrincipalMismatch.
Abbreviation result := (result error).

(** ** [json.dumps(value, sort_keys=True, separators=(",", ":"), ensure_ascii=True)] *)

Definition char (n : nat) : string := String (Ascii.ascii_of_nat n) EmptyString.
Definition cat : list string -> string := String.concat "".

Definition hex_digit (n : nat) : string :=
  char (if (n <? 10)%nat then 48 + n else 87 + n)%nat.

(** One character of a JSON string (code points below 256). *)
Definition escape_char (c : Ascii.ascii) : string :=
  let n := Ascii.nat_of_ascii c in
  if (n =? 34)%nat then cat [char 92; char 34]
  else if (n =? 92)%nat then cat [char 92; char 92]
  else if (n =? 10)%nat then cat [char 92; "n"]
  else if (n =? 13)%nat then cat [char 92; "r"]
  else if (n =? 9)%nat then cat [char 92; "t"]
  else if (n =? 12)%nat then cat [char 92; "f"]
  else if (n =? 8)%nat then cat [char 92; "b"]
  else if ((32 <=? n) && (n <=? 126))%nat then String c EmptyString
  else cat [char 92; "u00"; hex_digit (n / 16)%nat; hex_digit (n mod 16)%nat].

Fixpoint escape (s : string) : string :=
  match s with
  | EmptyString => EmptyString
  | String c s' => String.append (escape_char c) (escape s')
  end.

Definition json_string (s : string) : string := cat [char 34; escape s; char 34].

Definition json_float (f : py_float) : string :=
  match f with
  | SpecFloat.S754_nan => "NaN"
  | SpecFloat.S754_infinity s => if s then "-Infinity" else "Infinity"
  | _ => str_of_float f
  end.

(** [sort_keys]: the items by key. *)
Definition key_leb {A} (x y : string * A) : bool := String.leb x.1 y.1.

Definition json_item (x : string * string) : string := cat [json_string x.1; ":"; x.2].

Fixpoint json_dumps (v : pyval) : string :=
  match v with
  | PNone => "null"
  | PBool b => if b then "true" else "false"
  | PInt z => str_of_Z z
  | PFloat f => json_float f
  | PStr s => json_string s
  | PList l => cat ["["; String.concat "," (map json_dumps l); "]"]
  | PDict d =>
      cat ["{"; String.concat "," (map json_item (py_sorted key_leb
                  (map (fun x => (x.1, json_dumps x.2)) d))); "}"]
  end.

(** ** The store *)

Section store.
Variable sha256 : string -> string.

Definition canonical_hash (value : pyval) : string := sha256 (json_dumps value).

Record plan := {
  plan_id : string;
  operation : string;
  payload : pyval;
  payload_hash : string;
  state_hash : string;
  principal : string;
  created_at : Z;
  expires_at : Z;
}.

(** [_plans]: the plans in dict order, each under its id. *)
Definition store : Type := list plan.

Definition lookup_plan (id : string) (s : store) : option plan :=
  find (fun p => bool_decide (plan_id p = id)) s.

(** [dict.pop(id, None)] *)
Definition remove_plan (id : string) (s : store) : store :=
  List.filter (fun p => negb (bool_decide (plan_id p = id))) s.

(** [dict[id] = plan] *)
Fixpoint put_plan (p : plan) (s : store) : store :=
  match s with
  | [] => [p]
  | q :: s' => if bool_decide (plan_id q = plan_id p) then p :: s' else q :: put_plan p s'
  end.

Definition unexpired (now : Z) (s : store) : store :=
  List.filter (fun p => now <? expires_at p) s.

Definition prune (now : Z) (s : store) : store :=
  let s := unexpired now s in
  if (PLAN_MAX_ENTRIES <=? length s)%nat then
    let oldest := py_sorted (fun p q => created_at p <=? created_at q) s in
    fold_left (fun s p => remove_plan (plan_id p) s)
      (take (length s - PLAN_MAX_ENTRIES + 1) oldest) s
  else s.

Definition create (id : string) (now : Z) (operation : string) (payload : pyval)
    (state_hash principal : string) (s : store) : store * result plan :=
  if PLAN_MAX_BYTES <? Z.of_nat (String.length (json_dumps payload)) then (s, Raise TooLarge)
  else
    let p := {| plan_id := id; operation := operation; payload := payload;
                payload_hash := canonical_hash payload; state_hash := state_hash;
                principal := principal; created_at := now;
                expires_at := now + PLAN_TTL_SECONDS * 1000000 |} in
    (put_plan p (prune now s), Ok p).

Definition consume (now : Z) (id op hash who : string) (s : store) : store * result plan :=
  let s := prune now s in
  match lookup_plan id s with
  | None => (s, Raise UnknownPlan)
  | Some p =>
      if negb (bool_decide (operation p = op)) then (s, Raise OperationMismatch)
      else if negb (bool_decide (payload_hash p = hash)) then (s, Raise HashMismatch)
      else if negb (bool_decide (principal p = who)) then (s, Raise PrincipalMismatch)
      else (remove_plan id s, Ok p)
  end.

(** ** Lookups and pruning *)

Lemma elem_of_remove_plan id s p : p ∈ remove_plan id s <-> p ∈ s /\ plan_id p <> id.
Proof.
  unfold remove_plan. rewrite elem_of_list_filter, negb_true_iff, bool_decide_eq_false. done.
Qed.

Lemma elem_of_unexpired now s p : p ∈ unexpired now s <-> p ∈ s /\ now < expires_at p.
Proof. unfold unexpired. by rewrite elem_of_list_filter, Z.ltb_lt. Qed.

Lemma lookup_plan_spec id s p : lookup_plan id s = Some p -> p ∈ s /\ plan_id p = id.
Proof.
  intros H. apply find_some in H as [Hin Hd]. rewrite <- list_elem_of_In in Hin.
  by apply bool_decide_eq_true in Hd.
Qed.

Definition ids (s : store) : list string := map plan_id s.

Lemma remove_plan_ids_sublist id s : ids (remove_plan id s) `sublist_of` ids s.
Proof.
  induction s as [|p s IH]; [done|]. cbn. destruct (negb _); cbn.
  - by apply sublist_skip.
  - by apply sublist_cons.
Qed.

Lemma fold_remove_sublist l : forall s,
  fold_left (fun s p => remove_plan (plan_id p) s) l s `sublist_of` s.
Proof.
  assert (Hf : forall id s, remove_plan id s `sublist_of` s).
  { intros id s. unfold remove_plan. induction s as [|p s IH]; [done|]. cbn.
    destruct (negb _); [by apply sublist_skip|by apply sublist_cons]. }
  induction l as [|p l IH]; intros s; cbn; [done|]. etrans; [apply IH|apply Hf].
Qed.

Lemma filter_sublist {A} (f : A -> bool) l : List.filter f l `sublist_of` l.
Proof.
  induction l as [|x l IH]; [done|]. cbn. destruct (f x); [by apply sublist_skip|by apply sublist_cons].
Qed.

Lemma prune_sublist now s : prune now s `sublist_of` s.
Proof.
  unfold prune. destruct (_ <=? _)%nat; [|apply filter_sublist].
  etrans; [apply fold_remove_sublist|apply filter_sublist].
Qed.

Lemma prune_elem now s p : p ∈ prune now s -> p ∈ s /\ now < expires_at p.
Proof.
  intros Hp. apply elem_of_unexpired. revert Hp. unfold prune. destruct (_ <=? _)%nat; [|done].
  intros Hp. by eapply elem_of_sublist; [|apply fold_remove_sublist].
Qed.

(** Below the cap pruning drops the expired plans and nothing else. *)
Lemma prune_below now s : (length (unexpired now s) < PLAN_MAX_ENTRIES)%nat ->
  prune now s = unexpired now s.
Proof.
  intros Hl. unfold prune. destruct (_ <=? _)%nat eqn:E; [|done]. to_prop. lia.
Qed.

Lemma remove_plan_length id s : NoDup (ids s) -> id ∈ ids s ->
  S (length (remove_plan id s)) = length s.
Proof.
  induction s as [|p s IH]; cbn; [by intros _ ?%elem_of_nil|].
  intros [Hn Hnd]%NoDup_cons Hid. destruct (decide (plan_id p = id)) as [<-|Hne].
  - rewrite bool_decide_true by done. cbn. f_equal.
    assert (Hall : remove_plan (plan_id p) s = s); [|by unfold remove_plan in Hall; rewrite Hall].
    clear -Hn. induction s as [|q s IH]; [done|]. cbn in *.
    apply not_elem_of_cons in Hn as [Hn1 Hn2]. rewrite bool_decide_false by done. cbn.
    f_equal. by apply IH.
  - rewrite bool_decide_false by done. cbn. f_equal. apply IH; [done|].
    apply elem_of_cons in Hid as [->|]; done.
Qed.

Lemma fold_remove_length l : forall s,
  NoDup (ids s) -> NoDup (ids l) -> ids l ⊆ ids s ->
  (length (fold_left (fun s p => remove_plan (plan_id p) s) l s) + length l = length s)%nat.
Proof.
  induction l as [|p l IH]; intros s Hs Hl Hsub; cbn; [lia|].
  cbn in Hl. apply NoDup_cons in Hl as [Hn Hl].
  assert (Hin : plan_id p ∈ ids s) by (apply Hsub; by left).
  specialize (IH (remove_plan (plan_id p) s)).
  rewrite <- (remove_plan_length (plan_id p) s Hs Hin).
  rewrite <- IH; [lia| |done|].
  - eapply sublist_NoDup; [exact Hs|apply remove_plan_ids_sublist].
  - intros id Hid. assert (Hne : id <> plan_id p) by (by intros ->).
    assert (Hids : id ∈ ids s) by (apply Hsub; by right).
    apply elem_of_map in Hids as (q & -> & Hq). apply elem_of_map_2.
    by apply elem_of_remove_plan.
Qed.

(** Pruning makes room for one more plan. *)
Lemma prune_room now s : NoDup (ids s) -> (length (prune now s) < PLAN_MAX_ENTRIES)%nat.
Proof.
  intros Hnd. unfold prune. destruct (PLAN_MAX_ENTRIES <=? _)%nat eqn:E; to_prop; [|lia].
  set (u := unexpired now s) in *.
  assert (Hu : NoDup (ids u)).
  { eapply sublist_NoDup; [exact Hnd|]. apply sublist_map, filter_sublist. }
  set (l := py_sorted _ u). set (k := (length u - PLAN_MAX_ENTRIES + 1)%nat).
  assert (Hlen : length l = length u) by apply py_sorted_length.
  assert (Hpl : ids l ≡ₚ ids u) by (apply Permutation_map, py_sorted_perm).
  pose proof (fold_remove_length (take k l) u Hu) as H.
  assert (Htk : length (take k l) = k).
  { rewrite length_take, Hlen. subst k. unfold PLAN_MAX_ENTRIES in *. lia. }
  rewrite Htk in H. cut (length (fold_left (fun s p => remove_plan (plan_id p) s) (take k l) u) + k =
    length u)%nat; [subst k; unfold PLAN_MAX_ENTRIES in *; lia|].
  apply H.
  - eapply sublist_NoDup; [|apply sublist_map, sublist_take]. by rewrite Hpl.
  - intros id Hid. rewrite <- Hpl. eapply elem_of_sublist; [exact Hid|].
    apply sublist_map, sublist_take.
Qed.

(** ** Any sequence of calls *)

Inductive call :=
| Create (id : string) (now : Z) (operation : string) (payload : pyval)
    (state_hash principal : string)
| Consume (now : Z) (id op hash who : string).

Definition perform (c : call) (s : store) : store * result plan :=
  match c with
  | Create id now op payload st who => create id now op payload st who s
  | Consume now id op hash who => consume now id op hash who s
  end.

Definition trace : Type := list (call * result plan).

Definition step (acc : store * trace) (c : call) : store * trace :=
  let '(s, r) := perform c acc.1 in (s, acc.2 ++ [(c, r)]).

Definition run (calls : list call) : store * trace := fold_left step calls ([], []).

(** The plans made and the plans claimed. *)
Definition created (t : trace) : list plan :=
  omap (fun x => match x with (Create _ _ _ _ _ _, Ok p) => Some p | _ => None end) t.
Definition claimed (t : trace) : list plan :=
  omap (fun x => match x with (Consume _ _ _ _ _, Ok p) => Some p | _ => None end) t.

(** The ids [uuid4] drew for the calls. *)
Definition drawn (calls : list call) : list string :=
  omap (fun c => match c with Create id _ _ _ _ _ => Some id | _ => None end) calls.

Record run_ok (s : store) (t : trace) (seen : list string) : Prop := {
  ok_ids : NoDup (ids s);
  ok_size : (length s <= PLAN_MAX_ENTRIES)%nat;
  ok_created : s ⊆ created t;
  ok_once : NoDup (ids (claimed t));
  ok_gone : forall id, id ∈ ids (claimed t) -> id ∉ ids s;
  ok_claimed : claimed t ⊆ created t;
  ok_seen : ids (created t) ⊆ seen;
}.

Lemma put_plan_fresh p s : plan_id p ∉ ids s -> put_plan p s = s ++ [p].
Proof.
  induction s as [|q s IH]; cbn; [done|]. intros [Hne Hn]%not_elem_of_cons.
  rewrite bool_decide_false by done. by rewrite IH.
Qed.

Lemma created_app t1 t2 : created (t1 ++ t2) = created t1 ++ created t2.
Proof. apply omap_app. Qed.

Lemma claimed_app t1 t2 : claimed (t1 ++ t2) = claimed t1 ++ claimed t2.
Proof. apply omap_app. Qed.

(** A call that shrinks the store and neither makes nor claims a plan. *)
Lemma run_ok_shrink s s' t seen c r :
  run_ok s t seen -> s' `sublist_of` s -> created [(c, r)] = [] -> claimed [(c, r)] = [] ->
  run_ok s' (t ++ [(c, r)]) seen.
Proof.
  intros [H1 H2 H3 H4 H5 H6 H7] Hs Hc Hd.
  split; rewrite ?created_app, ?claimed_app, ?Hc, ?Hd, ?app_nil_r; try done.
  - eapply sublist_NoDup; [exact H1|]. by apply sublist_map.
  - apply sublist_length in Hs. lia.
  - intros p Hp. apply H3. by eapply elem_of_sublist.
  - intros id Hid Hin. apply (H5 id Hid). eapply elem_of_sublist; [exact Hin|]. by apply sublist_map.
Qed.

Lemma consume_cases now id op hash who s s' r :
  consume now id op hash who s = (s', r) ->
  (exists e, r = Raise e /\ s' = prune now s) \/
  (exists p, r = Ok p /\ s' = remove_plan id (prune now s) /\ p ∈ prune now s /\ plan_id p = id /\
    operation p = op /\ payload_hash p = hash /\ principal p = who).
Proof.
  unfold consume. destruct (lookup_plan id _) as [p|] eqn:Hl; [|intros [= <- <-]; eauto].
  apply lookup_plan_spec in Hl as [Hin Hid].
  destruct (negb (bool_decide (operation p = op))) eqn:E1; [intros [= <- <-]; eauto|].
  destruct (negb (bool_decide (payload_hash p = hash))) eqn:E2; [intros [= <- <-]; eauto|].
  destruct (negb (bool_decide (principal p = who))) eqn:E3; [intros [= <- <-]; eauto|].
  to_prop. intros [= <- <-]. right. exists p. by split_and!.
Qed.

Lemma run_ok_claim s t seen now id op hash who p :
  run_ok s t seen -> p ∈ prune now s -> plan_id p = id ->
  run_ok (remove_plan id (prune now s)) (t ++ [(Consume now id op hash who, Ok p)]) seen.
Proof.
  intros [H1 H2 H3 H4 H5 H6 H7] Hp <-.
  assert (Hsub : remove_plan (plan_id p) (prune now s) `sublist_of` s).
  { etrans; [apply filter_sublist|apply prune_sublist]. }
  apply prune_elem in Hp as [Hps _].
  split; rewrite ?created_app, ?claimed_app; cbn; rewrite ?app_nil_r; try done.
  - eapply sublist_NoDup; [exact H1|]. by apply sublist_map.
  - apply sublist_length in Hsub. lia.
  - intros q Hq. apply H3. by eapply elem_of_sublist.
  - unfold ids. rewrite map_app. apply NoDup_app. split_and!; [done| |apply NoDup_singleton].
    intros id Hid ->%list_elem_of_singleton. apply (H5 _ Hid). by apply elem_of_map_2.
  - unfold ids. rewrite map_app. intros id [Hid|Hid]%elem_of_app Hin.
    + apply (H5 id Hid). eapply elem_of_sublist; [exact Hin|]. by apply sublist_map.
    + apply list_elem_of_singleton in Hid as ->. apply elem_of_map in Hin as (q & Hq & Hin).
      by apply elem_of_remove_plan in Hin as [_ ?].
  - intros q [?| ->%list_elem_of_singleton]%elem_of_app; auto.
Qed.

Lemma run_ok_create s t seen id now op payload st who p s' :
  run_ok s t seen -> id ∉ seen -> create id now op payload st who s = (s', Ok p) ->
  run_ok s' (t ++ [(Create id now op payload st who, Ok p)]) (seen ++ [id]).
Proof.
  intros [H1 H2 H3 H4 H5 H6 H7] Hid. unfold create. destruct (_ <? _); [done|]. intros [= <- Hp].
  assert (Hpid : plan_id p = id) by (by subst p).
  assert (Hfresh : id ∉ ids s).
  { intros (q & -> & Hq)%elem_of_map. apply Hid, H7, elem_of_map_2. auto. }
  assert (Hpr : plan_id p ∉ ids (prune now s)).
  { rewrite Hpid. intros Hin. apply Hfresh. eapply elem_of_sublist; [exact Hin|].
    apply sublist_map, prune_sublist. }
  rewrite Hp, put_plan_fresh by done.
  assert (Hnd : NoDup (ids (prune now s))).
  { eapply sublist_NoDup; [exact H1|]. apply sublist_map, prune_sublist. }
  split; rewrite ?created_app, ?claimed_app; cbn; rewrite ?app_nil_r; try done.
  - unfold ids. rewrite map_app. apply NoDup_app. split_and!; [done| |apply NoDup_singleton].
    intros i Hi ->%list_elem_of_singleton. done.
  - rewrite length_app. cbn. pose proof (prune_room now s H1). lia.
  - intros q [Hq|Hq]%elem_of_app; apply elem_of_app; [left|by right].
    apply H3. apply prune_elem in Hq. tauto.
  - intros i Hi. unfold ids. rewrite map_app. intros [Hin|Hin]%elem_of_app.
    + apply (H5 i Hi). eapply elem_of_sublist; [exact Hin|]. apply sublist_map, prune_sublist.
    + apply list_elem_of_singleton in Hin as ->. apply Hid. rewrite <- Hpid. apply H7.
      apply elem_of_map in Hi as (q & -> & Hq). apply elem_of_map_2. auto.
  - intros q Hq. apply elem_of_app. auto.
  - unfold ids. rewrite map_app. intros i [Hi|Hi]%elem_of_app; apply elem_of_app; [left; auto|right].
    apply list_elem_of_singleton in Hi as ->. rewrite Hpid. by left.
Qed.

Lemma run_snoc calls c : run (calls ++ [c]) = step (run calls) c.
Proof. unfold run. by rewrite fold_left_app. Qed.

Lemma drawn_snoc calls c : drawn (calls ++ [c]) = drawn calls ++ drawn [c].
Proof. apply omap_app. Qed.

Lemma run_ok_weaken s t seen seen' : run_ok s t seen -> seen ⊆ seen' -> run_ok s t seen'.
Proof. intros [H1 H2 H3 H4 H5 H6 H7] Hs. split; try done. by etrans. Qed.

Lemma run_is_ok calls : NoDup (drawn calls) -> run_ok (run calls).1 (run calls).2 (drawn calls).
Proof.
  induction calls as [|c calls IH] using rev_ind.
  { intros _. split; cbn; try constructor; try (by intros ? ?%elem_of_nil). unfold PLAN_MAX_ENTRIES. lia. }
  rewrite drawn_snoc. intros (Hnd & Hdis & _)%NoDup_app. specialize (IH Hnd).
  rewrite run_snoc. unfold step. destruct (run calls) as [s t]. cbn [fst snd] in *.
  destruct c as [id now opn pl st who|now id opn hash who]; cbn [perform].
  - destruct (create id now opn pl st who s) as [s' [p|e]] eqn:Hc; cbn [fst snd].
    + eapply run_ok_create; [exact IH| |exact Hc]. intros Hin. apply (Hdis id Hin). by left.
    + unfold create in Hc. destruct (_ <? _); simplify_eq.
      eapply run_ok_weaken; [eapply run_ok_shrink; [exact IH|done|done|done]|].
      intros i Hi. apply elem_of_app. by left.
  - cbn [drawn omap list_omap]. rewrite app_nil_r.
    destruct (consume now id opn hash who s) as [s' r] eqn:Hc; cbn [fst snd].
    apply consume_cases in Hc as [(e & -> & ->)|(p & -> & -> & Hp & Hid & _)].
    + eapply run_ok_shrink; [exact IH|apply prune_sublist|done|done].
    + by apply run_ok_claim.
Qed.

(** Plans are claimed at most once and the store is bounded.  In any sequence of calls
    whose drawn ids are distinct no plan id is claimed twice, every plan claimed is one
    that was created, and there are never more than [PLAN_MAX_ENTRIES] plans. *)
Theorem claimed_once calls :
  NoDup (drawn calls) ->
  let '(s, t) := run calls in
  NoDup (ids (claimed t)) /\ claimed t ⊆ created t /\ (length s <= PLAN_MAX_ENTRIES)%nat.
Proof.
  intros Hnd. apply run_is_ok in Hnd. destruct (run calls) as [s t]. by destruct Hnd.
Qed.

(** A claim is answered with the stored plan it names, unexpired and matching in
    operation, payload hash and principal; the answer removes that plan, so the same claim
    fails next. *)
Theorem claim_validated now id op hash who s s' p :
  NoDup (ids s) -> consume now id op hash who s = (s', Ok p) ->
  p ∈ s /\ plan_id p = id /\ now < expires_at p /\ operation p = op /\
  payload_hash p = hash /\ principal p = who /\
  forall now' op' hash' who', (consume now' id op' hash' who' s').2 = Raise UnknownPlan.
Proof.
  intros Hnd [(e & ? & _)|(q & [= <-] & -> & Hp & Hid & Ho & Hh & Hw)]%consume_cases; [done|].
  apply prune_elem in Hp as [Hps Hexp]. split_and!; try done.
  intros now' op' hash' who'. unfold consume.
  destruct (lookup_plan id (prune now' _)) as [r|] eqn:Hl; [exfalso|done].
  apply lookup_plan_spec in Hl as [Hin Hr]. apply prune_elem in Hin as [Hin _].
  apply elem_of_remove_plan in Hin as [_ ?]. done.
Qed.

(** An invalid claim leaves the plans intact while the store has room: below the cap a
    refused claim drops the expired plans and nothing else. *)
Theorem refused_claim_keeps_plans now id op hash who s s' e :
  (length (unexpired now s) < PLAN_MAX_ENTRIES)%nat ->
  consume now id op hash who s = (s', Raise e) ->
  forall p, p ∈ s' <-> p ∈ s /\ now < expires_at p.
Proof.
  intros Hl [(e' & _ & ->)|(q & ? & _)]%consume_cases; [|done]. intros p.
  rewrite prune_below by done. apply elem_of_unexpired.
Qed.

(** At the cap it does not: any refused claim on a full store evicts an unexpired plan,
    although a claim adds none. *)
Theorem full_store_claim_evicts now id op hash who s s' e :
  NoDup (ids s) -> (PLAN_MAX_ENTRIES <= length (unexpired now s))%nat ->
  consume now id op hash who s = (s', Raise e) ->
  exists p, p ∈ s /\ now < expires_at p /\ p ∉ s'.
Proof.
  intros Hnd Hl [(e' & _ & ->)|(q & ? & _)]%consume_cases; [|done].
  pose proof (prune_room now s Hnd) as Hr.
  destruct (decide (Forall (fun p => plan_id p ∈ ids (prune now s)) (unexpired now s))) as [Hall|Hn].
  - exfalso. assert (Hsub : ids (unexpired now s) ⊆ ids (prune now s)).
    { intros i (p & -> & Hp)%elem_of_map. rewrite Forall_forall in Hall. auto. }
    assert (Hu : NoDup (ids (unexpired now s))).
    { eapply sublist_NoDup; [exact Hnd|]. apply sublist_map, filter_sublist. }
    apply (NoDup_submseteq _ _ Hu) in Hsub. apply submseteq_length in Hsub.
    unfold ids in Hsub. rewrite !length_map in Hsub. lia.
  - apply not_Forall_Exists in Hn; [|apply _]. apply Exists_exists in Hn as (p & Hp & Hn).
    cbn in Hn. apply elem_of_unexpired in Hp as [Hp He]. exists p. split_and!; [done|done|].
    intros Hin. apply Hn. by apply elem_of_map_2.
Qed.

End store.

(** ** The canonical text *)

Lemma json_dict_perm d d' :
  NoDup (map fst d) -> d ≡ₚ d' -> json_dumps (PDict d) = json_dumps (PDict d').
Proof.
  intros Hnd Hp. cbn [json_dumps]. do 3 f_equal. do 2 f_equal.
  apply (py_sorted_unique fst String.leb).
  - by intros x y; apply string_leb_total.
  - intros x y z. apply string_leb_trans.
  - intros x y. apply string_leb_antisym.
  - by rewrite map_map.
  - by apply Permutation_map.
Qed.

(** The plan hash does not depend on the order of a payload's keys. *)
Theorem hash_canonical sha256 d d' :
  NoDup (map fst d) -> d ≡ₚ d' -> canonical_hash sha256 (PDict d) = canonical_hash sha256 (PDict d').
Proof. intros Hnd Hp. unfold canonical_hash. by rewrite (json_dict_perm d d'). Qed.

(** ** Concrete stores *)

Definition no_hash : string -> string := fun s => s.

Definition nth_plan (i : nat) : plan :=
  {| plan_id := str_of_Z (Z.of_nat i); operation := "bulk"; payload := PNone;
     payload_hash := "h"; state_hash := "s"; principal := "api";
     created_at := Z.of_nat i; expires_at := Z.of_nat i + 300000000 |}.

Definition few : store := map nth_plan (seq 0 3).
Definition full : store := map nth_plan (seq 0 128).

Example json_text :
  json_dumps (PDict [("b", PList [PInt 1; PBool true]); ("a", PStr (cat ["x"; char 34; char 10]))]) =
  cat ["{"; char 34; "a"; char 34; ":"; char 34; "x"; char 92; char 34; char 92; "n"; char 34; ",";
       char 34; "b"; char 34; ":[1,true]}"].
Proof. reflexivity. Qed.

Lemma claimed_once_witness :
  let t := (run no_hash [Create "a" 0 "bulk" PNone "s" "api";
                         Consume 1 "a" "bulk" "null" "api";
                         Consume 2 "a" "bulk" "null" "api"]).2 in
  ids (claimed t) = ["a"] /\ NoDup (ids (claimed t)).
Proof.
  split; [vm_compute; reflexivity|].
  pose proof (claimed_once no_hash [Create "a" 0 "bulk" PNone "s" "api";
                         Consume 1 "a" "bulk" "null" "api";
                         Consume 2 "a" "bulk" "null" "api"]) as H.
  destruct (run _ _) as [s t]. apply H. apply (NoDup_singleton "a").
Defined.

Lemma few_ids : NoDup (ids few).
Proof. apply (bool_decide_unpack _). vm_compute. exact I. Qed.

Lemma full_ids : NoDup (ids full).
Proof. apply (bool_decide_unpack _). vm_compute. exact I. Qed.

Lemma claim_validated_witness :
  (consume 5 "1" "bulk" "h" "api" (consume 5 "1" "bulk" "h" "api" few).1).2 = Raise UnknownPlan.
Proof.
  destruct (claim_validated 5 "1" "bulk" "h" "api" few (consume 5 "1" "bulk" "h" "api" few).1
    (nth_plan 1) few_ids) as (_ & _ & _ & _ & _ & _ & H).
  - vm_compute. reflexivity.
  - apply H.
Defined.

Lemma refused_claim_keeps_plans_witness : nth_plan 2 ∈ (consume 5 "1" "bulk" "other" "api" few).1.
Proof.
  apply (refused_claim_keeps_plans 5 "1" "bulk" "other" "api" few
    (consume 5 "1" "bulk" "other" "api" few).1 HashMismatch).
  - vm_compute. lia.
  - vm_compute. reflexivity.
  - split; [|vm_compute; reflexivity]. apply elem_of_map_2, elem_of_seq. lia.
Defined.

Lemma full_store_claim_evicts_witness : exists p,
  p ∈ full /\ 5 < expires_at p /\ p ∉ (consume 5 "unknown" "bulk" "h" "api" full).1.
Proof.
  apply (full_store_claim_evicts 5 "unknown" "bulk" "h" "api" full
    (consume 5 "unknown" "bulk" "h" "api" full).1 UnknownPlan).
  - exact full_ids.
  - apply Nat.leb_le. vm_compute. reflexivity.
  - vm_compute. reflexivity.
Defined.

(** The plan evicted may be the one claimed. *)
Example oldest_claim_fails_on_full_store :
  (consume 5 "0" "bulk" "h" "api" full).2 = Raise UnknownPlan.
Proof. vm_compute. reflexivity. Qed.

Lemma hash_canonical_witness :
  canonical_hash no_hash (PDict [("b", PInt 1); ("a", PInt 2)]) =
  canonical_hash no_hash (PDict [("a", PInt 2); ("b", PInt 1)]).
Proof.
  apply hash_canonical; [|apply Permutation_swap].
  apply (bool_decide_unpack _). vm_compute. exact I.
Defined.

End MutationPlanStore.
