(* ===== verification/PyDict.v ===== *)
(** * Insertion-ordered dictionaries.

    A Python [dict] as the list of its items in insertion order: setting a key that is
    present keeps its place, deleting and setting again moves it to the end. *)
From S2P Require Import Prelude PyValue.

Definition dict_of (A : Type) : Type := list (string * A).

Section dict.
Context {K : Type} `{!EqDecision K} {A : Type}.
Implicit Types d : list (K * A).

(** [d.get(k)] *)
Fixpoint d_get (k : K) d : option A :=
  match d with
  | [] => None
  | (k', v) :: d' => if bool_decide (k' = k) then Some v else d_get k d'
  end.

(** [d[k] = v] *)
Fixpoint d_set (k : K) (v : A) d : list (K * A) :=
  match d with
  | [] => [(k, v)]
  | (k', v') :: d' => if bool_decide (k' = k) then (k, v) :: d' else (k', v') :: d_set k v d'
  end.

(** [d.pop(k, None)], the dict left. *)
Definition d_del (k : K) d : list (K * A) :=
  List.filter (fun x => negb (bool_decide (x.1 = k))) d.

(** [k in d] *)
Definition d_mem (k : K) d : bool :=
  match d_get k d with Some _ => true | None => false end.

Definition keys d : list K := map fst d.

Lemma d_get_set k v d k' : d_get k' (d_set k v d) = if bool_decide (k = k') then Some v else d_get k' d.
Proof.
  induction d as [|[k0 v0] d IH]; cbn [d_set d_get]; [done|].
  destruct (decide (k0 = k)) as [->|Hne].
  - rewrite bool_decide_true by done. cbn [d_get]. by case_bool_decide.
  - rewrite (bool_decide_false (k0 = k)) by done. cbn [d_get]. rewrite IH.
    case_bool_decide; case_bool_decide; congruence.
Qed.

Lemma d_get_set_same k v d : d_get k (d_set k v d) = Some v.
Proof. by rewrite d_get_set, bool_decide_true. Qed.

Lemma d_get_filter (f : K -> bool) k d :
  d_get k (List.filter (fun x => f x.1) d) = if f k then d_get k d else None.
Proof.
  induction d as [|[k0 v0] d IH]; cbn; [by destruct (f k)|].
  destruct (f k0) eqn:Hf; cbn; rewrite IH; case_bool_decide; subst; by rewrite ?Hf.
Qed.

Lemma d_get_del k d k' : d_get k' (d_del k d) = if bool_decide (k' = k) then None else d_get k' d.
Proof.
  pose proof (d_get_filter (fun x : K => negb (bool_decide (x = k))) k' d) as H.
  unfold d_del. cbn beta in H. rewrite H.
  by case_bool_decide.
Qed.

Lemma d_get_None k d : d_get k d = None <-> k ∉ keys d.
Proof.
  induction d as [|[k0 v0] d IH]; cbn; [split; [intros _; apply not_elem_of_nil|done]|].
  rewrite not_elem_of_cons, <- IH. case_bool_decide; naive_solver.
Qed.

Lemma d_get_elem k v d : d_get k d = Some v -> (k, v) ∈ d.
Proof.
  induction d as [|[k0 v0] d IH]; cbn; [done|]. case_bool_decide; [intros [= ->]; subst; by left|].
  intros Hg. right. auto.
Qed.

Lemma elem_d_get k v d : NoDup (keys d) -> (k, v) ∈ d -> d_get k d = Some v.
Proof.
  induction d as [|[k0 v0] d IH]; cbn; [by intros _ ?%elem_of_nil|].
  intros [Hn Hnd]%NoDup_cons [[= -> ->]|Hin]%elem_of_cons; [by rewrite bool_decide_true|].
  rewrite bool_decide_false; [auto|]. intros ->. apply Hn. by apply (elem_of_map_2 fst) in Hin.
Qed.

Lemma keys_set k v d : keys (d_set k v d) = if d_mem k d then keys d else keys d ++ [k].
Proof.
  unfold d_mem, keys. induction d as [|[k0 v0] d IH]; cbn; [done|].
  destruct (decide (k0 = k)) as [->|Hne].
  - by rewrite !bool_decide_true by done.
  - rewrite !bool_decide_false by done. cbn. rewrite IH. by destruct (d_get k d).
Qed.

Lemma keys_NoDup_set k v d : NoDup (keys d) -> NoDup (keys (d_set k v d)).
Proof.
  intros Hnd. rewrite keys_set. unfold d_mem. destruct (d_get k d) eqn:E; [done|].
  apply d_get_None in E. apply NoDup_app. split_and!; [done| |apply NoDup_singleton].
  by intros x Hx ->%list_elem_of_singleton.
Qed.

Lemma keys_NoDup_filter (f : K * A -> bool) d : NoDup (keys d) -> NoDup (keys (List.filter f d)).
Proof.
  induction d as [|x d IH]; cbn; [done|]. intros [Hn Hnd]%NoDup_cons.
  destruct (f x); cbn; [|by apply IH]. apply NoDup_cons. split; [|by apply IH].
  intros Hin. apply Hn. apply elem_of_map in Hin as (y & -> & Hy).
  apply elem_of_list_filter in Hy as [Hy _]. by apply elem_of_map_2.
Qed.

(** [d.update(e)] *)
Definition d_update d (e : list (K * A)) : list (K * A) := fold_left (fun d x => d_set x.1 x.2 d) e d.

Lemma d_get_update d e k :
  NoDup (keys e) ->
  d_get k (d_update d e) = match d_get k e with Some v => Some v | None => d_get k d end.
Proof.
  revert d. induction e as [|[k0 v0] e IH]; intros d; [done|].
  change (keys ((k0, v0) :: e)) with (k0 :: keys e). intros [Hn Hnd]%NoDup_cons.
  change (d_update d ((k0, v0) :: e)) with (d_update (d_set k0 v0 d) e).
  rewrite IH by done. cbn [d_get]. rewrite d_get_set.
  destruct (decide (k0 = k)) as [->|Hne].
  - apply d_get_None in Hn. by rewrite Hn, bool_decide_true.
  - by rewrite (bool_decide_false (k0 = k)).
Qed.
End dict.
