(* ===== verification/PyText.v ===== *)
(** * Python string methods on ASCII text.

    Splitting at a character, case, stripping, replacing and truncating, with the lemmas on
    concatenation the components that scan text share. *)
From S2P Require Import Prelude PyValue.

(** ** Concatenation *)

Lemma s_app_cons c a b : (String c a ++ b)%string = String c (a ++ b).
Proof. reflexivity. Qed.

Lemma s_app_nil_r a : (a ++ "")%string = a.
Proof. induction a as [|c a IH]; [done|]. by rewrite s_app_cons, IH. Qed.

Lemma s_app_assoc a b c : (a ++ (b ++ c))%string = ((a ++ b) ++ c)%string.
Proof. induction a as [|x a IH]; [done|]. by rewrite !s_app_cons, IH. Qed.

Lemma s_length_app a b : String.length (a ++ b) = (String.length a + String.length b)%nat.
Proof. induction a as [|c a IH]; [done|]. rewrite s_app_cons. cbn. by rewrite IH. Qed.

(** [s.join(l)] with an empty separator. *)
Fixpoint s_concat (l : list string) : string :=
  match l with [] => EmptyString | x :: l' => (x ++ s_concat l')%string end.

Lemma s_concat_app l1 l2 : s_concat (l1 ++ l2) = (s_concat l1 ++ s_concat l2)%string.
Proof. induction l1 as [|x l1 IH]; [done|]. cbn. by rewrite IH, s_app_assoc. Qed.

(** ** Characters *)

Fixpoint has_char (c : Ascii.ascii) (s : string) : bool :=
  match s with EmptyString => false | String c' s' => bool_decide (c' = c) || has_char c s' end.

Lemma has_char_app c a b : has_char c (a ++ b) = has_char c a || has_char c b.
Proof. induction a as [|x a IH]; [done|]. rewrite s_app_cons. cbn. by rewrite IH, orb_assoc. Qed.

(** The text before the first [c] and the text after it: [s.find(c)] as a split. *)
Fixpoint split_char (c : Ascii.ascii) (s : string) : option (string * string) :=
  match s with
  | EmptyString => None
  | String c' s' =>
      if bool_decide (c' = c) then Some (EmptyString, s')
      else match split_char c s' with Some (a, b) => Some (String c' a, b) | None => None end
  end.

Lemma split_char_None c s : split_char c s = None <-> has_char c s = false.
Proof.
  induction s as [|x s IH]; cbn; [done|]. case_bool_decide; cbn; [done|].
  destruct (split_char c s) as [[a b]|]; [|tauto]. split; [done|]. intros H1. by apply IH in H1.
Qed.

Lemma split_char_Some c s a b :
  split_char c s = Some (a, b) <-> s = (a ++ String c b)%string /\ has_char c a = false.
Proof.
  revert a. induction s as [|x s IH]; intros a; cbn.
  - split; [done|]. intros [H _]. by destruct a.
  - case_bool_decide as Hx.
    + subst x. split; [by intros [= <- <-]|]. intros [H Ha].
      destruct a as [|y a]; [rewrite s_app_cons in H || cbn in H; by injection H as ->|].
      rewrite s_app_cons in H. injection H as -> _. cbn in Ha. by rewrite bool_decide_true in Ha.
    + split.
      * destruct (split_char c s) as [[a' b']|]; [|done]. intros [= <- <-].
        destruct (proj1 (IH a') eq_refl) as [-> Ha]. rewrite s_app_cons. split; [done|].
        cbn. by rewrite bool_decide_false.
      * intros [H Ha]. destruct a as [|y a]; [by injection H as <-|].
        rewrite s_app_cons in H. injection H as -> ->. cbn in Ha. apply orb_false_iff in Ha as [_ Ha].
        by rewrite (proj2 (IH a) (conj eq_refl Ha)).
Qed.

Lemma split_char_app c a b : has_char c a = false -> split_char c (a ++ String c b) = Some (a, b).
Proof. intros H. by apply split_char_Some. Qed.

Lemma split_char_length c s a b :
  split_char c s = Some (a, b) -> (String.length s = String.length a + S (String.length b))%nat.
Proof. intros [-> _]%split_char_Some. by rewrite s_length_app. Qed.

(** ** Methods *)

Fixpoint s_map (f : Ascii.ascii -> Ascii.ascii) (s : string) : string :=
  match s with EmptyString => EmptyString | String c s' => String (f c) (s_map f s') end.

Fixpoint s_filter (p : Ascii.ascii -> bool) (s : string) : string :=
  match s with
  | EmptyString => EmptyString
  | String c s' => if p c then String c (s_filter p s') else s_filter p s'
  end.

Definition code (c : Ascii.ascii) : nat := Ascii.nat_of_ascii c.
Definition is_upper (c : Ascii.ascii) : bool := ((65 <=? code c) && (code c <=? 90))%nat.
Definition is_lower (c : Ascii.ascii) : bool := ((97 <=? code c) && (code c <=? 122))%nat.
Definition is_decimal (c : Ascii.ascii) : bool := ((48 <=? code c) && (code c <=? 57))%nat.
Definition is_alpha (c : Ascii.ascii) : bool := is_upper c || is_lower c.

Definition to_upper (c : Ascii.ascii) : Ascii.ascii :=
  if is_lower c then Ascii.ascii_of_nat (code c - 32) else c.
Definition to_lower (c : Ascii.ascii) : Ascii.ascii :=
  if is_upper c then Ascii.ascii_of_nat (code c + 32) else c.

Definition upper : string -> string := s_map to_upper.
Definition lower : string -> string := s_map to_lower.

(** [s.title()]: a letter after a letter is lowered, any other raised. *)
Fixpoint title_from (after_letter : bool) (s : string) : string :=
  match s with
  | EmptyString => EmptyString
  | String c s' =>
      String (if after_letter then to_lower c else to_upper c) (title_from (is_alpha c) s')
  end.
Definition title : string -> string := title_from false.

(** [s.strip(chars)] *)
Fixpoint lstrip_chars (p : Ascii.ascii -> bool) (s : string) : string :=
  match s with
  | String c s' => if p c then lstrip_chars p s' else s
  | EmptyString => s
  end.
Fixpoint rstrip_chars (p : Ascii.ascii -> bool) (s : string) : string :=
  match s with
  | EmptyString => EmptyString
  | String c s' =>
      match rstrip_chars p s' with
      | EmptyString => if p c then EmptyString else String c EmptyString
      | t => String c t
      end
  end.
Definition strip_chars (p : Ascii.ascii -> bool) (s : string) : string := rstrip_chars p (lstrip_chars p s).

(** The rest of [s] after the prefix [p]. *)
Fixpoint drop_prefix (p s : string) : option string :=
  match p, s with
  | EmptyString, _ => Some s
  | String c p', String c' s' => if bool_decide (c = c') then drop_prefix p' s' else None
  | String _ _, EmptyString => None
  end.

Definition starts_with (p s : string) : bool :=
  match drop_prefix p s with Some _ => true | None => false end.

Lemma drop_prefix_Some p s r : drop_prefix p s = Some r <-> s = (p ++ r)%string.
Proof.
  revert s. induction p as [|c p IH]; intros s; cbn; [split; [by intros [= ->]|by intros ->]|].
  rewrite s_app_cons. destruct s as [|c' s]; [done|]. case_bool_decide.
  - subst. rewrite IH. split; [by intros ->|by intros [= ->]].
  - split; [done|]. intros [= -> _]. done.
Qed.

(** [sub in text] *)
Fixpoint contains (sub text : string) : bool :=
  starts_with sub text || match text with EmptyString => false | String _ text' => contains sub text' end.

(** [text.split()] *)
Fixpoint words_from (word : string) (s : string) : list string :=
  match s with
  | EmptyString => match word with EmptyString => [] | _ => [word] end
  | String c s =>
      if is_space c then match word with EmptyString => words_from EmptyString s | _ => word :: words_from EmptyString s end
      else words_from (word ++ String c EmptyString)%string s
  end.
Definition split_words (s : string) : list string := words_from EmptyString s.

(** The text before the suffix [p], when [s] ends with it. *)
Fixpoint drop_suffix (p s : string) : option string :=
  if bool_decide (s = p) then Some EmptyString
  else match s with
       | EmptyString => None
       | String c s' => String c <$> drop_suffix p s'
       end.

(** [s.replace(src, dst)]: left to right without overlap; an empty [src] matches between
    any two characters and at both ends. *)
Fixpoint interleave (dst s : string) : string :=
  match s with
  | EmptyString => dst
  | String c s' => (dst ++ String c (interleave dst s'))%string
  end.
Fixpoint replace_from (fuel : nat) (src dst s : string) : string :=
  match fuel with
  | O => s
  | S fuel' =>
      match s with
      | EmptyString => EmptyString
      | String c s' =>
          match drop_prefix src s with
          | Some r => (dst ++ replace_from fuel' src dst r)%string
          | None => String c (replace_from fuel' src dst s')
          end
      end
  end.
Definition py_replace (src dst s : string) : string :=
  match src with
  | EmptyString => interleave dst s
  | _ => replace_from (String.length s) src dst s
  end.

(** [s[:n]] *)
Fixpoint s_take (n : nat) (s : string) : string :=
  match n, s with S n', String c s' => String c (s_take n' s') | _, _ => EmptyString end.

Lemma s_take_length n s : String.length (s_take n s) = Nat.min n (String.length s).
Proof. revert s. induction n as [|n IH]; intros [|c s]; cbn; [done..|]. by rewrite IH. Qed.

Lemma s_filter_length p s : (String.length (s_filter p s) <= String.length s)%nat.
Proof. induction s as [|c s IH]; cbn; [lia|]. destruct (p c); cbn; lia. Qed.

Lemma s_map_length f s : String.length (s_map f s) = String.length s.
Proof. induction s as [|c s IH]; cbn; [done|]. by rewrite IH. Qed.

Example text_methods :
  title "fox sports 1ST" = "Fox Sports 1St" /\ strip_chars (fun c => has_char c "-x") "x-a-x" = "a" /\
  py_replace "aa" "b" "aaaaa" = "bba" /\ py_replace "" "-" "ab" = "-a-b-" /\
  upper "a1Z" = "A1Z".
Proof. repeat split. Qed.
