(* ===== verification/TtlCache.v ===== *)
(** * The in-memory cache ([backend/cache.py]) and the log throttle ([backend/log_throttle.py]).

    Clock readings and ages are whole microseconds, TTLs whole seconds (microseconds for the
    throttle window).  The rounding of the ages and of the hit rate that [stats] displays is
    left out. *)
From S2P Require Import Prelude PyFloat PyValue PyDict.
Open Scope Z_scope.

Module TtlCache.

Section cache.
Context {V : Type}.

Record entry := { data : V; cached_at : Z }.

Record cache := {
  entries : dict_of entry;
  default_ttl : Z;
  hits : Z;
  misses : Z;
}.

Definition new_cache (ttl : Z) : cache :=
  {| entries := []; default_ttl := ttl; hits := 0; misses := 0 |}.

Definition with_entries (c : cache) (d : dict_of entry) : cache :=
  {| entries := d; default_ttl := default_ttl c; hits := hits c; misses := misses c |}.

Definition miss (c : cache) : cache :=
  {| entries := entries c; default_ttl := default_ttl c; hits := hits c; misses := misses c + 1 |}.

Definition hit (c : cache) : cache :=
  {| entries := entries c; default_ttl := default_ttl c; hits := hits c + 1; misses := misses c |}.

Definition microseconds (seconds : Z) : Z := seconds * 1000000.

Definition get (now : Z) (key : string) (ttl : option Z) (c : cache) : cache * option V :=
  match d_get key (entries c) with
  | None => (miss c, None)
  | Some e =>
      let effective_ttl := match ttl with Some t => t | None => default_ttl c end in
      let age := now - cached_at e in
      if microseconds effective_ttl <? age
      then (with_entries (miss c) (d_del key (entries c)), None)
      else (hit c, Some (data e))
  end.

Definition set (now : Z) (key : string) (value : V) (c : cache) : cache :=
  with_entries c (d_set key {| data := value; cached_at := now |} (entries c)).

Definition invalidate (key : string) (c : cache) : cache * bool :=
  if d_mem key (entries c) then (with_entries c (d_del key (entries c)), true) else (c, false).

(** [k.startswith(prefix)] *)
Definition starts_with (prefix k : string) : bool := String.prefix prefix k.

Definition invalidate_prefix (prefix : string) (c : cache) : cache * nat :=
  let keys_to_remove := List.filter (starts_with prefix) (keys (entries c)) in
  (with_entries c (fold_left (fun d k => d_del k d) keys_to_remove (entries c)),
   length keys_to_remove).

Definition clear (c : cache) : cache * nat := (with_entries c [], length (entries c)).

Record stats := {
  entry_count : nat;
  st_hits : Z;
  st_misses : Z;
  hit_rate_percent : py_float;
  ages : list (string * Z);
}.

Definition stats_of (now : Z) (c : cache) : stats :=
  let total_requests := hits c + misses c in
  {| entry_count := length (entries c); st_hits := hits c; st_misses := misses c;
     hit_rate_percent :=
       if 0 <? total_requests
       then Float.mul (Float.int_truediv (hits c) (Z.to_pos total_requests)) (Float.of_Z 100)
       else Float.of_Z 0;
     ages := map (fun x => (x.1, now - cached_at x.2)) (entries c) |}.

(** ** What a reader sees *)

Inductive call :=
| Get (key : string)
| Set_ (key : string) (value : V)
| Invalidate (key : string)
| InvalidatePrefix (prefix : string)
| Clear.

(** A call at a clock reading. *)
Definition event : Type := Z * call.

Definition perform (c : cache) (e : event) : cache :=
  let '(now, k) := e in
  match k with
  | Get key => (get now key None c).1
  | Set_ key v => set now key v c
  | Invalidate key => (invalidate key c).1
  | InvalidatePrefix p => (invalidate_prefix p c).1
  | Clear => (clear c).1
  end.

Definition run (ttl : Z) (events : list event) : cache := fold_left perform events (new_cache ttl).

(** The last value written under a key and not removed since; reads do not matter. *)
Definition written_step (key : string) (w : option entry) (e : event) : option entry :=
  match e.2 with
  | Get _ => w
  | Set_ k v => if bool_decide (k = key) then Some {| data := v; cached_at := e.1 |} else w
  | Invalidate k => if bool_decide (k = key) then None else w
  | InvalidatePrefix p => if starts_with p key then None else w
  | Clear => None
  end.

Definition written (key : string) (events : list event) : option entry :=
  fold_left (written_step key) events None.

Definition gets (events : list event) : Z :=
  Z.of_nat (length (List.filter (fun e => match e.2 with Get _ => true | _ => false end) events)).

(** Clock readings never go back. *)
Fixpoint monotone (t : Z) (events : list event) : Prop :=
  match events with
  | [] => True
  | e :: events => t <= e.1 /\ monotone e.1 events
  end.

Definition expired (ttl now : Z) (e : entry) : Prop := microseconds ttl < now - cached_at e.

Lemma fold_del_get ks : forall (d : dict_of entry) k,
  d_get k (fold_left (fun d k => d_del k d) ks d) = if bool_decide (k ∈ ks) then None else d_get k d.
Proof.
  induction ks as [|k0 ks IH]; intros d k; cbn.
  { rewrite bool_decide_false; [done|apply not_elem_of_nil]. }
  rewrite IH, d_get_del. repeat case_bool_decide; try done; set_solver.
Qed.

(** The cache agrees with the history up to entries that have expired by [t]. *)
Definition agrees (ttl t : Z) (c : cache) (w : string -> option entry) : Prop :=
  default_ttl c = ttl /\
  forall key, d_get key (entries c) = w key \/
    (d_get key (entries c) = None /\ exists e, w key = Some e /\ expired ttl t e).

Lemma agrees_later ttl t t' c w : t <= t' -> agrees ttl t c w -> agrees ttl t' c w.
Proof.
  intros Ht [Hd H]. split; [done|]. intros key. destruct (H key) as [?|(? & e & ? & He)]; [by left|].
  right. split; [done|]. exists e. split; [done|]. unfold expired in *. lia.
Qed.

Lemma perform_agrees ttl t c w e :
  agrees ttl t c w -> t <= e.1 -> agrees ttl e.1 (perform c e) (fun key => written_step key (w key) e).
Proof.
  intros Ha Ht. apply (agrees_later _ _ e.1) in Ha; [|done]. destruct e as [now k]. cbn [fst] in *.
  destruct Ha as [Hd H]. destruct k as [key|key v|key|p|]; cbn [perform]; unfold written_step; cbn [fst snd].
  - unfold get. destruct (d_get key (entries c)) as [e|] eqn:E; [|by split].
    rewrite Hd. destruct (_ <? _) eqn:Hexp; [|by split]. to_prop. split; [done|]. intros key'. cbn.
    rewrite d_get_del. case_bool_decide as Hk; [subst|apply H]. right. split; [done|].
    exists e. split; [|done]. destruct (H key) as [<-|[? _]]; congruence.
  - split; [done|]. intros key'. cbn. rewrite d_get_set.
    case_bool_decide; [by left|apply H].
  - unfold invalidate, d_mem. split; [by case_match|]. intros key'.
    assert (Hg : d_get key' (entries (if match d_get key (entries c) with Some _ => true | None => false end
      then (with_entries c (d_del key (entries c)), true) else (c, false)).1) =
      if bool_decide (key = key') then None else d_get key' (entries c)).
    { destruct (d_get key (entries c)) eqn:E; cbn.
      - rewrite d_get_del. repeat case_bool_decide; congruence.
      - case_bool_decide; congruence. }
    rewrite Hg. case_bool_decide; [by left|apply H].
  - split; [done|]. intros key'. cbn. rewrite fold_del_get.
    destruct (starts_with p key') eqn:Hp.
    + left. case_bool_decide as Hin; [done|]. destruct (d_get key' (entries c)) eqn:E; [|done].
      exfalso. apply Hin, elem_of_list_filter. split; [|done].
      apply d_get_elem in E. by apply (elem_of_map_2 fst) in E.
    + rewrite bool_decide_false; [apply H|]. intros [_ ?]%elem_of_list_filter. congruence.
  - split; [done|]. intros key'. by left.
Qed.

Lemma fold_agrees ttl events : forall t c w,
  agrees ttl t c w -> monotone t events ->
  agrees ttl (fold_left (fun _ e => e.1) events t) (fold_left perform events c)
    (fun key => fold_left (written_step key) events (w key)).
Proof.
  induction events as [|e events IH]; intros t c w Ha Hm; [done|]. destruct Hm as [Ht Hm]. cbn [fold_left].
  apply (IH e.1 _ (fun key => written_step key (w key) e)); [|done]. by eapply perform_agrees.
Qed.

Lemma monotone_snoc events e : forall t,
  monotone t (events ++ [e]) <-> monotone t events /\ fold_left (fun _ e => e.1) events t <= e.1.
Proof.
  induction events as [|a events IH]; intros t; cbn; [tauto|]. rewrite IH. tauto.
Qed.

(** A read returns the last value written.  Under a clock that does not go back, a read
    with the default TTL answers the last value set under the key, if it was not
    invalidated since and is at most the TTL old, and misses otherwise, whatever was read
    and evicted in between. *)
Theorem read_last_written ttl events now key :
  monotone 0 (events ++ [(now, Get key)]) ->
  (get now key None (run ttl events)).2 =
  match written key events with
  | Some e => if microseconds ttl <? now - cached_at e then None else Some (data e)
  | None => None
  end.
Proof.
  intros [Hm Ht]%monotone_snoc. cbn [fst] in Ht.
  assert (H0 : agrees ttl 0 (new_cache ttl) (fun _ => None)) by (split; [done|by left]).
  apply (fold_agrees ttl events) in H0; [|done]. destruct H0 as [Hd H]. specialize (H key).
  fold (run ttl events) in *. unfold written, get. rewrite Hd.
  destruct H as [->|(-> & e & -> & He)].
  - destruct (fold_left (written_step key) events None); [|done]. by destruct (_ <? _).
  - unfold expired in He. destruct (_ <? _) eqn:E; [done|]. to_prop. lia.
Qed.

(** the counters count the reads. *)
Theorem reads_counted ttl events :
  hits (run ttl events) + misses (run ttl events) = gets events.
Proof.
  unfold run, gets. cut (forall c, hits (fold_left perform events c) + misses (fold_left perform events c) =
    hits c + misses c + Z.of_nat (length (List.filter
      (fun e => match e.2 with Get _ => true | _ => false end) events))).
  { intros H. by rewrite H. }
  induction events as [|[now k] events IH]; intros c; cbn [fold_left List.filter]; [cbn; lia|].
  rewrite IH. destruct k as [key|key v|key|p|]; cbn [perform snd]; try done.
  - cbn [length]. unfold get. destruct (d_get key (entries c)); [destruct (_ <? _)|]; cbn; lia.
  - unfold invalidate. by destruct (d_mem key (entries c)).
Qed.

End cache.
Arguments entry : clear implicits.
Arguments cache : clear implicits.
Arguments call : clear implicits.
Arguments event : clear implicits.

Lemma read_last_written_witness :
  (get 1000000 "k" None (run 300 [(0, Set_ "k" 1); (5, Get "j"); (6, Set_ "k" 2)])).2 = Some 2.
Proof.
  rewrite (read_last_written (V := Z) 300 [(0, Set_ "k" 1); (5, Get "j"); (6, Set_ "k" 2)]).
  - reflexivity.
  - cbn. lia.
Defined.

(** A read with a shorter TTL does evict what a longer one would have found. *)
Example short_ttl_read_evicts :
  let c := (get 20000000 "k" (Some 10) (set 0 "k" 1 (new_cache 300))).1 in
  (get 20000000 "k" None c).2 = None.
Proof. reflexivity. Qed.

(** ** The log throttle *)

Section throttle.

(** [_last_logged_at] *)
Definition throttle : Type := dict_of Z.

Definition DEFAULT_WINDOW_SECONDS : Z := 300000000.

Definition should_log (now : Z) (key : string) (window : Z) (last_logged_at : throttle)
    : throttle * bool :=
  match d_get key last_logged_at with
  | Some last => if now - last <? window then (last_logged_at, false)
                 else (d_set key now last_logged_at, true)
  | None => (d_set key now last_logged_at, true)
  end.

Definition reset (key : option string) (last_logged_at : throttle) : throttle :=
  match key with
  | None => []
  | Some k => d_del k last_logged_at
  end.

(** Ticks: a key and the reading it is evaluated at; the readings that logged [key]. *)
Definition tick : Type := Z * string.

Definition log_tick (window : Z) (acc : throttle * list tick) (x : tick) : throttle * list tick :=
  let '(t, logged) := should_log x.1 x.2 window acc.1 in
  (t, if logged then acc.2 ++ [x] else acc.2).

Definition log_ticks (window : Z) (ticks : list tick) : throttle * list tick :=
  fold_left (log_tick window) ticks ([], []).

Definition logged_at (key : string) (ticks : list tick) : list Z :=
  omap (fun x => if bool_decide (x.2 = key) then Some x.1 else None) ticks.

(** Consecutive elements are at least [w] apart. *)
Fixpoint spaced (w : Z) (l : list Z) : Prop :=
  match l with
  | a :: (b :: _) as l' => w <= b - a /\ spaced w l'
  | _ => True
  end.

Lemma spaced_snoc w l x :
  spaced w l -> (forall y, last l = Some y -> w <= x - y) -> spaced w (l ++ [x]).
Proof.
  induction l as [|a [|b l] IH]; intros Hs Hx; [done| |].
  - cbn. split; [|done]. by apply Hx.
  - destruct Hs as [Hab Hs]. cbn [app spaced]. split; [done|]. apply IH; [done|].
    intros y Hy. by apply Hx.
Qed.

Lemma logged_at_snoc key l x :
  logged_at key (l ++ [x]) = logged_at key l ++ (if bool_decide (x.2 = key) then [x.1] else []).
Proof. unfold logged_at. rewrite omap_app. cbn. by case_bool_decide. Qed.

Definition throttled (window : Z) (acc : throttle * list tick) : Prop := forall key,
  d_get key acc.1 = last (logged_at key acc.2) /\ spaced window (logged_at key acc.2).

Lemma log_tick_throttled window acc x : throttled window acc -> throttled window (log_tick window acc x).
Proof.
  destruct acc as [t logs], x as [now k]. intros H key. unfold log_tick, should_log. cbn [fst snd].
  assert (Hset : (forall y, last (logged_at k logs) = Some y -> window <= now - y) ->
    d_get key (d_set k now t) = last (logged_at key (logs ++ [(now, k)])) /\
    spaced window (logged_at key (logs ++ [(now, k)]))).
  { intros Hy. destruct (H key) as [Hg Hs]. cbn [fst snd] in *.
    rewrite d_get_set, logged_at_snoc. cbn [fst snd].
    case_bool_decide as E; [subst|by rewrite app_nil_r].
    split; [by rewrite last_snoc|]. by apply spaced_snoc. }
  destruct (H k) as [Hk _]. cbn [fst snd] in Hk. rewrite <- Hk in Hset.
  destruct (d_get k t) as [y|] eqn:E.
  - destruct (now - y <? window) eqn:Hw; [apply H|]. to_prop. cbn [fst snd]. apply Hset.
    intros y' [= <-]. done.
  - cbn [fst snd]. by apply Hset.
Qed.

Lemma log_ticks_throttled window ticks : throttled window (log_ticks window ticks).
Proof.
  unfold log_ticks. cut (forall acc, throttled window acc -> throttled window (fold_left (log_tick window) ticks acc)).
  { intros H. apply H. intros key. done. }
  induction ticks as [|x ticks IH]; intros acc Ha; [done|]. cbn. by apply IH, log_tick_throttled.
Qed.

(** A condition is logged at most once per window and key: the readings at which a key
    was logged are at least a window apart, whatever other keys do. *)
Theorem logged_once_per_window window ticks key :
  spaced window (logged_at key (log_ticks window ticks).2).
Proof. apply log_ticks_throttled. Qed.

(** A reading is suppressed only inside the window of a logged one. *)
Lemma suppressed_in_window window ticks now key :
  (should_log now key window (log_ticks window ticks).1).2 = false ->
  exists last, last ∈ logged_at key (log_ticks window ticks).2 /\ now - last < window.
Proof.
  unfold should_log. destruct (log_ticks_throttled window ticks key) as [Hg _].
  destruct (d_get key _) as [y|] eqn:E; [|done]. destruct (now - y <? window) eqn:Hw; [|done].
  intros _. to_prop. exists y. split; [|done]. symmetry in Hg.
  apply last_Some in Hg as (l & ->). apply elem_of_app. right. by left.
Qed.

End throttle.
End TtlCache.
