(* ===== verification/MediaSessionCache.v ===== *)
(** * The Emby session cache ([backend/services/emby_cache.py]).

    One module-level slot and one [asyncio.Lock] shared by every caller.  The code between
    two [await]s is one step: a call, a waiter waking up with the lock, the end of a fetch.
    The lock hands itself to its waiters in order.  Time is [time.monotonic] in
    microseconds, taken once per step; what the upstream answers is a parameter of the step
    that ends a fetch, and cancellation is not modelled. *)
From S2P Require Import Prelude.
Open Scope Z_scope.

Module MediaSessionCache.

Section cache.
Context {session : Type}.

Definition CACHE_TTL_SECONDS : Z := 5000000.

(** [_Entry] *)
Record entry := { sessions : list session; cached_at : Z }.

(** What the client's [get_sessions] did: [EmbyClientError] is the one exception absorbed. *)
Inductive answer :=
| Sessions (l : list session)
| EmbyClientError
| OtherError.

(** A caller: in the lock's queue, fetching, or done. *)
Inductive phase :=
| Waiting
| Fetching
| Returned (l : list session)
| Raised.

(** Upstream traffic, in order. *)
Inductive traffic :=
| FetchStarted (t : Z)
| EntryStored (t : Z) (l : list session).

Record settings := { emby_enabled : bool; emby_base_url : string }.

Record world := {
  now : Z;
  config : settings;
  cached_entry : option entry;
  lock_holder : option nat;
  lock_waiters : list nat;
  callers : gmap nat phase;
  log : list traffic;
}.

Definition initial (t : Z) (s : settings) : world :=
  {| now := t; config := s; cached_entry := None; lock_holder := None; lock_waiters := [];
     callers := ∅; log := [] |}.

Definition configured (s : settings) : bool :=
  emby_enabled s && negb (bool_decide (emby_base_url s = "")).

(** The cache hit of either check: an entry younger than the TTL. *)
Definition fresh_sessions (w : world) : option (list session) :=
  match cached_entry w with
  | Some e => if now w - cached_at e <? CACHE_TTL_SECONDS then Some (sessions e) else None
  | None => None
  end.

Definition set_caller (w : world) (i : nat) (p : phase) : world :=
  {| now := now w; config := config w; cached_entry := cached_entry w;
     lock_holder := lock_holder w; lock_waiters := lock_waiters w;
     callers := <[i := p]> (callers w); log := log w |}.

Definition set_lock (w : world) (h : option nat) (q : list nat) : world :=
  {| now := now w; config := config w; cached_entry := cached_entry w;
     lock_holder := h; lock_waiters := q; callers := callers w; log := log w |}.

(** Inside the lock: re-check, else start the fetch and keep the lock. *)
Definition under_lock (w : world) (i : nat) : world :=
  match fresh_sessions w with
  | Some l => set_caller w i (Returned l)
  | None =>
      let w := set_caller (set_lock w (Some i) (lock_waiters w)) i Fetching in
      {| now := now w; config := config w; cached_entry := cached_entry w;
         lock_holder := lock_holder w; lock_waiters := lock_waiters w;
         callers := callers w; log := log w ++ [FetchStarted (now w)] |}
  end.

(** [_store_entry] *)
Definition store_entry (w : world) (l : list session) : world :=
  {| now := now w; config := config w;
     cached_entry := Some {| sessions := l; cached_at := now w |};
     lock_holder := lock_holder w; lock_waiters := lock_waiters w;
     callers := callers w; log := log w ++ [EntryStored (now w) l] |}.

Inductive step_label :=
| Tick (d : Z)
| Call (i : nat)
| Wake
| FetchEnds (a : answer).

(** A call up to its first [await]. *)
Definition call (w : world) (i : nat) : world :=
  if negb (configured (config w)) then set_caller w i (Returned [])
  else
    match fresh_sessions w with
    | Some l => set_caller w i (Returned l)
    | None =>
        match lock_holder w, lock_waiters w with
        | None, [] => under_lock w i
        | _, q => set_caller (set_lock w (lock_holder w) (q ++ [i])) i Waiting
        end
    end.

(** The end of a fetch: store and return, fall back to the stale entry, or fail. *)
Definition fetch_ends (w : world) (i : nat) (a : answer) : world :=
  let w := set_lock w None (lock_waiters w) in
  match a with
  | Sessions l => set_caller (store_entry w l) i (Returned l)
  | EmbyClientError =>
      set_caller w i (Returned match cached_entry w with Some e => sessions e | None => [] end)
  | OtherError => set_caller w i Raised
  end.

(** The step a label makes, where it can be made. *)
Definition step (w : world) (s : step_label) : option world :=
  match s with
  | Tick d =>
      if d <? 0 then None
      else Some {| now := now w + d; config := config w; cached_entry := cached_entry w;
                   lock_holder := lock_holder w; lock_waiters := lock_waiters w;
                   callers := callers w; log := log w |}
  | Call i => match callers w !! i with Some _ => None | None => Some (call w i) end
  | Wake =>
      match lock_holder w, lock_waiters w with
      | None, i :: q => Some (under_lock (set_lock w None q) i)
      | _, _ => None
      end
  | FetchEnds a =>
      match lock_holder w with
      | Some i => Some (fetch_ends w i a)
      | None => None
      end
  end.

(** Worlds reached from a start with an empty cache. *)
Inductive reachable (t0 : Z) (s0 : settings) : world -> Prop :=
| reach_start : reachable t0 s0 (initial t0 s0)
| reach_step w s w' : reachable t0 s0 w -> step w s = Some w' -> reachable t0 s0 w'.

(** ** The invariant *)

(** The lock's holder is the one caller fetching; the queue is the callers waiting. *)
Definition lock_ok (w : world) : Prop :=
  (forall i, callers w !! i = Some Fetching <-> lock_holder w = Some i) /\
  (forall i, callers w !! i = Some Waiting <-> i ∈ lock_waiters w) /\
  NoDup (lock_waiters w).

(** The entry is the last one stored, in the past; fetches start when there is no entry or
    the last stored one has expired. *)
Fixpoint spaced (last : option Z) (l : list traffic) : Prop :=
  match l with
  | [] => True
  | FetchStarted t :: l' =>
      match last with Some s => CACHE_TTL_SECONDS <= t - s | None => True end /\ spaced last l'
  | EntryStored t _ :: l' => spaced (Some t) l'
  end.

Definition last_stored (start : option entry) (l : list traffic) : option entry :=
  fold_left (fun e x => match x with
                        | EntryStored t s => Some {| sessions := s; cached_at := t |}
                        | FetchStarted _ => e
                        end) l start.

Definition slot_ok (w : world) : Prop :=
  cached_entry w = last_stored None (log w) /\ spaced None (log w).

(** Every list a caller got is empty or was fetched. *)
Definition answers_ok (w : world) : Prop := forall i l,
  callers w !! i = Some (Returned l) -> l = [] \/ exists t, EntryStored t l ∈ log w.

Definition world_ok (w : world) : Prop := lock_ok w /\ slot_ok w /\ answers_ok w.

Lemma last_stored_app e l1 l2 : last_stored e (l1 ++ l2) = last_stored (last_stored e l1) l2.
Proof. apply fold_left_app. Qed.

Lemma last_stored_elem l e : last_stored None l = Some e -> EntryStored (cached_at e) (sessions e) ∈ l.
Proof.
  induction l as [|x l IH] using rev_ind; [done|]. rewrite last_stored_app. cbn.
  intros H. apply elem_of_app. destruct x; simplify_eq; [left; auto|right; by left].
Qed.

Lemma spaced_app last l1 l2 :
  spaced last (l1 ++ l2) <->
  spaced last l1 /\ spaced (match last_stored None l1 with Some e => Some (cached_at e) | None => last end) l2.
Proof.
  assert (Hls : forall l e, last_stored (Some e) l = Some (default e (last_stored None l))).
  { intros l. induction l as [|x l IH] using rev_ind; intros e; [done|]. rewrite !last_stored_app. cbn.
    destruct x; [apply IH|done]. }
  revert last. induction l1 as [|[t|t s] l1 IH]; intros last; cbn [app spaced].
  - cbn. tauto.
  - rewrite IH. change (last_stored None (FetchStarted t :: l1)) with (last_stored None l1). tauto.
  - rewrite IH. change (last_stored None (EntryStored t s :: l1)) with
      (last_stored (Some {| sessions := s; cached_at := t |}) l1). rewrite Hls.
    by destruct (last_stored None l1).
Qed.

Lemma fresh_returned w l : slot_ok w -> fresh_sessions w = Some l -> exists t, EntryStored t l ∈ log w.
Proof.
  intros [Hc _]. unfold fresh_sessions. destruct (cached_entry w) as [e|]; [|done].
  destruct (_ <? _); [|done]. intros [= <-]. eexists. apply last_stored_elem. by rewrite <- Hc.
Qed.

(** A caller that ends outside the lock. *)
Lemma set_returned_ok w i l :
  world_ok w -> callers w !! i <> Some Fetching -> i ∉ lock_waiters w ->
  (l = [] \/ exists t, EntryStored t l ∈ log w) -> world_ok (set_caller w i (Returned l)).
Proof.
  intros ((Hf & Hw & Hnd) & Hs & Ha) Hi Hq Hl. split; [|split; [done|]].
  - split; [|split; [|done]]; intros j; cbn; destruct (decide (i = j)) as [->|Hne];
      rewrite ?lookup_insert_eq, ?lookup_insert_ne by done; try done.
    rewrite <- Hf. split; [done|]. intros H. by rewrite H in Hi.
  - intros j l'. cbn. destruct (decide (i = j)) as [->|Hne].
    + rewrite lookup_insert_eq. intros [= <-]. done.
    + rewrite lookup_insert_ne by done. apply Ha.
Qed.

Lemma waiting_not_fetching w i : world_ok w -> i ∈ lock_waiters w -> callers w !! i <> Some Fetching.
Proof. intros ((_ & Hw & _) & _) Hi. apply Hw in Hi. by rewrite Hi. Qed.

(** Entering the lock, from a world where it is free and [i] is not queued. *)
Lemma under_lock_ok w i :
  world_ok w -> lock_holder w = None -> callers w !! i = None -> i ∉ lock_waiters w ->
  world_ok (under_lock w i).
Proof.
  intros Hok Hh Hi Hq. unfold under_lock. destruct (fresh_sessions w) as [l|] eqn:Hfr.
  - apply set_returned_ok; [done|by rewrite Hi|done|]. right. eapply fresh_returned; [apply Hok|done].
  - destruct Hok as ((Hf & Hw & Hnd) & (Hc & Hsp) & Ha). split; [|split; [split|]].
    + split; [|split; [|done]]; intros j; cbn; destruct (decide (i = j)) as [->|Hne];
        rewrite ?lookup_insert_eq, ?lookup_insert_ne by done; try done.
      rewrite Hf, Hh. split; [done|]. by intros [= ->].
    + simpl cached_entry. simpl log. by rewrite last_stored_app.
    + simpl log. apply spaced_app. split; [done|]. cbn. split; [|done].
      unfold fresh_sessions in Hfr. rewrite Hc in Hfr.
      destruct (last_stored None (log w)); [|done]. destruct (_ <? _) eqn:E; [done|]. to_prop. lia.
    + intros j l. cbn. destruct (decide (i = j)) as [->|Hne]; rewrite ?lookup_insert_eq,
        ?lookup_insert_ne by done; [done|]. intros Hj. destruct (Ha j l Hj) as [?|[t Ht]]; [by left|].
      right. exists t. apply elem_of_app. by left.
Qed.

(** A waiter leaves the queue before it enters the lock: it is nobody in between. *)
Lemma dequeue_ok w i q :
  world_ok w -> lock_holder w = None -> lock_waiters w = i :: q ->
  let w' := {| now := now w; config := config w; cached_entry := cached_entry w;
               lock_holder := None; lock_waiters := q;
               callers := delete i (callers w); log := log w |} in
  world_ok w' /\ callers w' !! i = None /\ i ∉ q.
Proof.
  intros ((Hf & Hw & Hnd) & Hs & Ha) Hh Hl. rewrite Hl in Hnd. apply NoDup_cons in Hnd as [Hn Hnd].
  cbn. split_and!; [|by rewrite lookup_delete_eq|done]. split; [|split; [done|]].
  - split; [|split; [|done]]; intros j; cbn; destruct (decide (i = j)) as [->|Hne];
      rewrite ?lookup_delete_eq, ?lookup_delete_ne by done; try done.
    + rewrite Hf, Hh. done.
    + rewrite Hw, Hl, elem_of_cons. split; [|by right]. by intros [->|?].
  - intros j l. cbn. destruct (decide (i = j)) as [->|Hne]; rewrite ?lookup_delete_eq,
      ?lookup_delete_ne by done; [done|]. apply Ha.
Qed.

Lemma under_lock_dequeued w i q :
  under_lock (set_lock w None q) i =
  under_lock {| now := now w; config := config w; cached_entry := cached_entry w;
                lock_holder := None; lock_waiters := q;
                callers := delete i (callers w); log := log w |} i.
Proof.
  unfold under_lock, fresh_sessions, set_caller, set_lock. cbn.
  destruct (cached_entry w) as [e|]; [destruct (_ <? _)|]; cbn; f_equal; by rewrite insert_delete_eq.
Qed.

(** The end of a fetch frees the lock and answers its holder. *)
Lemma release_lock_ok w i :
  world_ok w -> lock_holder w = Some i ->
  let w' := {| now := now w; config := config w; cached_entry := cached_entry w;
               lock_holder := None; lock_waiters := lock_waiters w;
               callers := delete i (callers w); log := log w |} in
  world_ok w' /\ callers w' !! i = None /\ i ∉ lock_waiters w.
Proof.
  intros ((Hf & Hw & Hnd) & Hs & Ha) Hh. cbn. split; [|split; [by rewrite lookup_delete_eq|]].
  - split; [|split; [done|]].
    + split; [|split; [|done]]; intros j; cbn; destruct (decide (i = j)) as [->|Hne];
        rewrite ?lookup_delete_eq, ?lookup_delete_ne by done; try done.
      * rewrite Hf, Hh. split; [intros [= ->]; done|done].
      * split; [done|]. intros Hj. apply Hw in Hj. by rewrite (proj2 (Hf j)) in Hj.
    + intros j l. cbn. destruct (decide (i = j)) as [->|Hne]; rewrite ?lookup_delete_eq,
        ?lookup_delete_ne by done; [done|]. apply Ha.
  - intros Hi. apply Hw in Hi. by rewrite (proj2 (Hf i)) in Hi.
Qed.

Lemma raised_ok w i :
  world_ok w -> callers w !! i = None -> i ∉ lock_waiters w -> world_ok (set_caller w i Raised).
Proof.
  intros ((Hf & Hw & Hnd) & Hs & Ha) Hi Hq. split; [|split; [done|]].
  - split; [|split; [|done]]; intros j; cbn; destruct (decide (i = j)) as [->|Hne];
      rewrite ?lookup_insert_eq, ?lookup_insert_ne by done; try done.
    rewrite <- Hf, Hi. done.
  - intros j l. cbn. destruct (decide (i = j)) as [->|Hne]; rewrite ?lookup_insert_eq,
      ?lookup_insert_ne by done; [done|]. apply Ha.
Qed.

Lemma store_entry_ok w l : world_ok w -> world_ok (store_entry w l).
Proof.
  intros (Hl & (Hc & Hsp) & Ha). split; [done|split; [split|]].
  - simpl cached_entry. simpl log. by rewrite last_stored_app.
  - simpl log. apply spaced_app. done.
  - intros j l' Hj. destruct (Ha j l' Hj) as [?|[t Ht]]; [by left|]. right. exists t.
    cbn. apply elem_of_app. by left.
Qed.

Lemma set_caller_delete w i p h q c lg :
  set_caller {| now := now w; config := config w; cached_entry := c; lock_holder := h;
                lock_waiters := q; callers := delete i (callers w); log := lg |} i p =
  set_caller {| now := now w; config := config w; cached_entry := c; lock_holder := h;
                lock_waiters := q; callers := callers w; log := lg |} i p.
Proof. unfold set_caller. cbn. f_equal. apply insert_delete_eq. Qed.

Lemma fetch_ends_ok w i a :
  world_ok w -> lock_holder w = Some i -> world_ok (fetch_ends w i a).
Proof.
  intros Hok Hh. destruct (release_lock_ok w i Hok Hh) as (Hok' & Hi & Hq).
  set (w' := {| now := now w; callers := delete i (callers w) |}) in *.
  unfold fetch_ends, store_entry, set_lock. cbn. destruct a as [l| |]; rewrite <- set_caller_delete.
  - apply (set_returned_ok (store_entry w' l) i l).
    + by apply store_entry_ok.
    + cbn. by rewrite lookup_delete_eq.
    + done.
    + right. exists (now w). cbn. apply elem_of_app. right. by left.
  - apply (set_returned_ok w' i); [done|by rewrite Hi|done|].
    destruct (cached_entry w) as [e|] eqn:Hc; [right|by left].
    exists (cached_at e). cbn. apply last_stored_elem. destruct Hok as (_ & [<- _] & _). done.
  - by apply (raised_ok w' i).
Qed.

Lemma enqueue_ok w i :
  world_ok w -> callers w !! i = None ->
  world_ok (set_caller (set_lock w (lock_holder w) (lock_waiters w ++ [i])) i Waiting).
Proof.
  intros ((Hf & Hw & Hnd) & Hs & Ha) Hi. split; [|split; [done|]].
  - split; [|split]; try (intros j; cbn; destruct (decide (i = j)) as [->|Hne];
      rewrite ?lookup_insert_eq, ?lookup_insert_ne by done).
    + rewrite <- Hf, Hi. done.
    + apply Hf.
    + rewrite elem_of_app, list_elem_of_singleton. split; auto.
    + rewrite Hw, elem_of_app, list_elem_of_singleton. split; [by left|]. by intros [?| ->].
    + cbn. apply NoDup_app. split_and!; [done| |apply NoDup_singleton].
      intros j Hj ->%list_elem_of_singleton. apply Hw in Hj. congruence.
  - intros j l. cbn. destruct (decide (i = j)) as [->|Hne]; rewrite ?lookup_insert_eq,
      ?lookup_insert_ne by done; [done|]. apply Ha.
Qed.

Lemma not_queued w i : world_ok w -> callers w !! i = None -> i ∉ lock_waiters w.
Proof. intros ((_ & Hw & _) & _) Hi Hq. apply Hw in Hq. congruence. Qed.

Lemma step_ok w s w' : world_ok w -> step w s = Some w' -> world_ok w'.
Proof.
  intros Hok. destruct s as [d|i| |a]; cbn [step].
  - destruct (d <? 0); [done|]. intros [= <-]. exact Hok.
  - destruct (callers w !! i) eqn:Hi; [done|]. intros [= <-].
    pose proof (not_queued w i Hok Hi) as Hq. unfold call.
    destruct (negb _); [apply set_returned_ok; auto; by rewrite Hi|].
    destruct (fresh_sessions w) as [l|] eqn:Hfr.
    { apply set_returned_ok; [done|by rewrite Hi|done|]. right. eapply fresh_returned; [apply Hok|done]. }
    destruct (lock_holder w) as [h|] eqn:Hh.
    + rewrite <- Hh. by apply enqueue_ok.
    + destruct (lock_waiters w) as [|j q] eqn:Hl.
      * apply under_lock_ok; [done|done|done|by rewrite Hl].
      * rewrite <- Hh, <- Hl. by apply enqueue_ok.
  - destruct (lock_holder w) eqn:Hh; [done|]. destruct (lock_waiters w) as [|i q] eqn:Hl; [done|].
    intros [= <-]. rewrite under_lock_dequeued.
    destruct (dequeue_ok w i q Hok Hh Hl) as (Hok' & Hi & Hq). by apply under_lock_ok.
  - destruct (lock_holder w) as [i|] eqn:Hh; [|done]. intros [= <-]. by apply fetch_ends_ok.
Qed.

Lemma reachable_ok t0 s0 w : reachable t0 s0 w -> world_ok w.
Proof.
  induction 1 as [|w s w' _ IH Hs]; [|by eapply step_ok].
  split; [split; [|split; [|constructor]]; intros i; cbn|split; [done|]].
  - rewrite lookup_empty. done.
  - rewrite lookup_empty, elem_of_nil. done.
  - intros i l. cbn. by rewrite lookup_empty.
Qed.

(** ** What the cache promises *)

(** C19: misses do not stampede.  In every reachable world at most one caller is fetching,
    and a fetch is started only if nothing was stored within the TTL before it, whatever
    the interleaving of callers, failures and clock. *)
Theorem no_stampede t0 s0 w :
  reachable t0 s0 w ->
  (forall i j, callers w !! i = Some Fetching -> callers w !! j = Some Fetching -> i = j) /\
  spaced None (log w).
Proof.
  intros ((Hf & _) & [_ Hs] & _)%reachable_ok. split; [|done].
  intros i j Hi%Hf Hj%Hf. congruence.
Qed.

(** Callers that queued behind a successful fetch share its answer: woken within the
    TTL they return it and upstream sees no further call. *)
Theorem waiters_share_fetch t0 s0 w i a q l w' :
  reachable t0 s0 w -> lock_holder w = Some i -> lock_waiters w = a :: q ->
  forall d, 0 <= d < CACHE_TTL_SECONDS ->
  step (fetch_ends w i (Sessions l)) (Tick d) = Some w' ->
  exists w'', step w' Wake = Some w'' /\ callers w'' !! a = Some (Returned l) /\
    log w'' = log w ++ [EntryStored (now w) l] /\ lock_waiters w'' = q.
Proof.
  intros Hr Hh Hl d Hd. cbn [step]. destruct (d <? 0) eqn:E; [done|]. intros [= <-]. cbn.
  rewrite Hl. eexists. split; [reflexivity|]. unfold under_lock, fresh_sessions. cbn.
  assert (Hlt : (now w + d - now w <? CACHE_TTL_SECONDS) = true) by (apply Z.ltb_lt; lia).
  rewrite Hlt. cbn. by rewrite lookup_insert_eq.
Qed.

(** A failed fetch does not erase the picture.  While upstream raises nothing but
    [EmbyClientError] every call that has ended returned a list, and each such list is
    empty or was fetched; after a failure the answer is the entry last stored if there is
    one. *)
Theorem stale_fallback t0 s0 w i :
  reachable t0 s0 w -> lock_holder w = Some i ->
  callers (fetch_ends w i EmbyClientError) !! i =
    Some (Returned match last_stored None (log w) with Some e => sessions e | None => [] end) /\
  cached_entry (fetch_ends w i EmbyClientError) = cached_entry w /\
  forall j l, callers w !! j = Some (Returned l) -> l = [] \/ exists t, EntryStored t l ∈ log w.
Proof.
  intros (_ & [Hc _] & Ha)%reachable_ok Hh. cbn. rewrite lookup_insert_eq, Hc. done.
Qed.

End cache.
Arguments world : clear implicits.
Arguments answer : clear implicits.

(** ** A concrete interleaving *)

Definition emby_on : settings := {| emby_enabled := true; emby_base_url := "http://emby" |}.

(** Three callers miss together; the first fetches and the others queue. *)
Definition three_calls : list (step_label (session := Z)) := [Call 1; Call 2; Call 3].

Fixpoint steps (w : world Z) (l : list step_label) : option (world Z) :=
  match l with
  | [] => Some w
  | s :: l => match step w s with Some w' => steps w' l | None => None end
  end.

Lemma steps_reachable t0 s0 l : forall w w', reachable t0 s0 w -> steps w l = Some w' -> reachable t0 s0 w'.
Proof.
  induction l as [|s l IH]; intros w w' Hr; cbn; [by intros [= <-]|].
  destruct (step w s) as [w1|] eqn:E; [|done]. apply IH. by econstructor.
Qed.

Definition after_three : world Z :=
  match steps (initial 0 emby_on) three_calls with Some w => w | None => initial 0 emby_on end.

Lemma after_three_reachable : reachable 0 emby_on after_three.
Proof. apply (steps_reachable _ _ three_calls (initial 0 emby_on)); [constructor|reflexivity]. Qed.

Lemma no_stampede_witness : spaced None (log after_three) /\ lock_waiters after_three = [2%nat; 3%nat].
Proof. split; [apply (no_stampede 0 emby_on after_three after_three_reachable)|reflexivity]. Defined.

Lemma waiters_share_fetch_witness : exists w'',
  steps after_three [FetchEnds (Sessions [7]); Tick 5; Wake] = Some w'' /\
  callers w'' !! 2%nat = Some (Returned [7]).
Proof.
  destruct (waiters_share_fetch 0 emby_on after_three 1 2 [3%nat] [7]
    (match steps after_three [FetchEnds (Sessions [7]); Tick 5] with Some w => w | None => after_three end)
    after_three_reachable eq_refl eq_refl 5) as (w'' & Hw & Hc & _).
  - unfold CACHE_TTL_SECONDS. lia.
  - reflexivity.
  - exists w''. split; [|exact Hc]. exact Hw.
Defined.

(** Any other exception (a 200 whose body is not JSON) leaves the call. *)
Example other_error_raises :
  callers (fetch_ends after_three 1 OtherError) !! 1%nat = Some Raised.
Proof. reflexivity. Qed.

Lemma stale_fallback_witness :
  callers (fetch_ends after_three 1 EmbyClientError) !! 1%nat = Some (Returned []).
Proof. apply (stale_fallback 0 emby_on after_three 1 after_three_reachable eq_refl). Defined.

End MediaSessionCache.
