(* ===== verification/PyDatetime.v ===== *)
(** * The [datetime] the sources use: the proleptic Gregorian calendar and wall clocks.

    A naive datetime is one integer, the microseconds since midnight of the day before
    0001-01-01, so that comparison and [timedelta] arithmetic are those of integers; its
    date is read back from the ordinal of its day. *)
From S2P Require Import Prelude PyValue.
Open Scope Z_scope.

Module Datetime.

Definition DAY : Z := 86400000000.
Definition HOUR : Z := 3600000000.
Definition MINUTE : Z := 60000000.
Definition SECOND : Z := 1000000.

Definition is_leap (y : Z) : bool :=
  (y mod 4 =? 0) && (negb (y mod 100 =? 0) || (y mod 400 =? 0)).

(** The days of month [m] in a leap year or not. *)
Definition month_days (leap : bool) (m : Z) : Z :=
  if m =? 2 then (if leap then 29 else 28)
  else if (m =? 4) || (m =? 6) || (m =? 9) || (m =? 11) then 30 else 31.

(** [monthrange(y, m)[1]] *)
Definition days_in_month (y m : Z) : Z := month_days (is_leap y) m.

Definition days_before_year (y : Z) : Z :=
  let p := y - 1 in p * 365 + p / 4 - p / 100 + p / 400.

(** The days of the year before month [m]. *)
Definition cumulative (m : Z) : Z :=
  match m with
  | 1 => 0 | 2 => 31 | 3 => 59 | 4 => 90 | 5 => 120 | 6 => 151 | 7 => 181 | 8 => 212
  | 9 => 243 | 10 => 273 | 11 => 304 | _ => 334
  end.

Definition days_before_month (leap : bool) (m : Z) : Z :=
  cumulative m + (if (2 <? m) && leap then 1 else 0).

(** [date.toordinal] *)
Definition ymd2ord (y m d : Z) : Z := days_before_year y + days_before_month (is_leap y) m + d.

(** The month and day of day [n] (from 0) of a year. *)
Fixpoint month_of (fuel : nat) (leap : bool) (m n : Z) : Z * Z :=
  match fuel with
  | O => (m, n + 1)
  | S fuel => if n <? month_days leap m then (m, n + 1)
              else month_of fuel leap (m + 1) (n - month_days leap m)
  end.

(** The year and the day of the year of day [r] (both days from 0) of a 400-year cycle:
    the 100-, 4- and 1-year cycles. *)
Definition cycle_year (r : Z) : Z * Z :=
  let n100 := r / 36524 in let r1 := r mod 36524 in
  let n4 := r1 / 1461 in let r2 := r1 mod 1461 in
  let n1 := r2 / 365 in let r3 := r2 mod 365 in
  let y := n100 * 100 + n4 * 4 + n1 + 1 in
  if (n1 =? 4) || (n100 =? 4) then (y - 1, 365) else (y, r3).

(** [date.fromordinal] *)
Definition ord2ymd (n : Z) : Z * Z * Z :=
  let '(y0, k) := cycle_year ((n - 1) mod 146097) in
  let y := y0 + 400 * ((n - 1) / 146097) in
  let '(m, d) := month_of 11 (is_leap y) 1 k in (y, m, d).

Definition valid_date (y m d : Z) : bool :=
  (1 <=? y) && (y <=? 9999) && (1 <=? m) && (m <=? 12) && (1 <=? d) && (d <=? days_in_month y m).

(** ** Years *)

Lemma leap_period y k : is_leap (y + 400 * k) = is_leap y.
Proof.
  unfold is_leap.
  replace (y + 400 * k) with (y + (100 * k) * 4) at 1 by lia. rewrite Z.mod_add by lia.
  replace (y + 400 * k) with (y + (4 * k) * 100) at 1 by lia. rewrite Z.mod_add by lia.
  replace (y + 400 * k) with (y + k * 400) by lia. by rewrite Z.mod_add by lia.
Qed.

Lemma days_before_year_period y k : days_before_year (y + 400 * k) = days_before_year y + 146097 * k.
Proof.
  unfold days_before_year. cbn zeta.
  replace (y + 400 * k - 1) with ((y - 1) + (100 * k) * 4) at 2 by lia. rewrite Z.div_add by lia.
  replace (y + 400 * k - 1) with ((y - 1) + (4 * k) * 100) at 2 by lia. rewrite Z.div_add by lia.
  replace (y + 400 * k - 1) with ((y - 1) + k * 400) at 2 by lia. rewrite Z.div_add by lia. lia.
Qed.

(** The leap years of a cycle by their place in it. *)
Lemma leap_place a b c : 0 <= a <= 3 -> 0 <= b <= 24 -> 0 <= c <= 3 ->
  is_leap (a * 100 + b * 4 + c + 1) = (c =? 3) && (negb (b =? 24) || (a =? 3)).
Proof.
  intros Ha Hb Hc. unfold is_leap.
  assert (H4 : ((a * 100 + b * 4 + c + 1) mod 4 =? 0) = (c =? 3)).
  { apply Bool.eq_iff_eq_true. rewrite !Z.eqb_eq. Z.to_euclidean_division_equations. lia. }
  assert (H100 : ((a * 100 + b * 4 + c + 1) mod 100 =? 0) = (b =? 24) && (c =? 3)).
  { apply Bool.eq_iff_eq_true. rewrite andb_true_iff, !Z.eqb_eq.
    Z.to_euclidean_division_equations. lia. }
  assert (H400 : ((a * 100 + b * 4 + c + 1) mod 400 =? 0) = (a =? 3) && (b =? 24) && (c =? 3)).
  { apply Bool.eq_iff_eq_true. rewrite !andb_true_iff, !Z.eqb_eq.
    Z.to_euclidean_division_equations. lia. }
  rewrite H4, H100, H400. by destruct (c =? 3), (b =? 24), (a =? 3).
Qed.

Lemma before_place a b c : 0 <= a <= 3 -> 0 <= b <= 24 -> 0 <= c <= 3 ->
  days_before_year (a * 100 + b * 4 + c + 1) = 36524 * a + 1461 * b + 365 * c.
Proof.
  intros Ha Hb Hc. unfold days_before_year. cbn zeta.
  replace (a * 100 + b * 4 + c + 1 - 1) with (a * 100 + b * 4 + c) by lia.
  Z.to_euclidean_division_equations. lia.
Qed.

Lemma next_year y : days_before_year (y + 1) = days_before_year y + 365 + Z.b2z (is_leap y).
Proof.
  set (q := (y - 1) / 400). set (p := (y - 1) mod 400).
  assert (Hp : 0 <= p < 400) by (apply Z.mod_pos_bound; lia).
  assert (Hy : y = p / 100 * 100 + (p mod 100) / 4 * 4 + (p mod 4) + 1 + 400 * q).
  { unfold p, q. Z.to_euclidean_division_equations. lia. }
  set (a := p / 100) in *. set (b := (p mod 100) / 4) in *. set (c := p mod 4) in *.
  assert (0 <= a <= 3) by (unfold a; Z.to_euclidean_division_equations; lia).
  assert (0 <= b <= 24) by (unfold b; Z.to_euclidean_division_equations; lia).
  assert (0 <= c <= 3) by (unfold c; Z.to_euclidean_division_equations; lia).
  clearbody a b c q. subst y. clear p Hp.
  replace (a * 100 + b * 4 + c + 1 + 400 * q + 1) with ((a * 100 + b * 4 + c + 1 + 1) + 400 * q) by lia.
  rewrite !days_before_year_period, leap_period, leap_place, before_place by done.
  destruct (Z.eqb_spec c 3) as [->|]; cbn [andb].
  - destruct (Z.eqb_spec b 24) as [->|]; cbn [negb orb].
    + destruct (Z.eqb_spec a 3) as [->|]; cbn [Z.b2z].
      * change (days_before_year (3 * 100 + 24 * 4 + 3 + 1 + 1)) with 146097. lia.
      * replace (a * 100 + 24 * 4 + 3 + 1 + 1) with ((a + 1) * 100 + 0 * 4 + 0 + 1) by lia.
        rewrite before_place by lia. lia.
    + replace (a * 100 + b * 4 + 3 + 1 + 1) with (a * 100 + (b + 1) * 4 + 0 + 1) by lia.
      rewrite before_place by lia. cbn. lia.
  - replace (a * 100 + b * 4 + c + 1 + 1) with (a * 100 + b * 4 + (c + 1) + 1) by lia.
    rewrite before_place by lia. cbn. lia.
Qed.

Lemma later_year y y' : y < y' -> days_before_year y + 365 + Z.b2z (is_leap y) <= days_before_year y'.
Proof.
  intros Hy. rewrite <- next_year. replace y' with ((y + 1) + Z.of_nat (Z.to_nat (y' - y - 1))) by lia.
  generalize (Z.to_nat (y' - y - 1)) as n. induction n as [|n IH]; [rewrite Z.add_0_r; lia|].
  etrans; [exact IH|]. replace (y + 1 + Z.of_nat (S n)) with ((y + 1 + Z.of_nat n) + 1) by lia.
  rewrite next_year. destruct (is_leap _); cbn; lia.
Qed.

(** A day determines its year. *)
Lemma year_unique y k y' k' :
  0 <= k < 365 + Z.b2z (is_leap y) -> 0 <= k' < 365 + Z.b2z (is_leap y') ->
  days_before_year y + k = days_before_year y' + k' -> y = y' /\ k = k'.
Proof.
  intros Hk Hk' E. destruct (Z.lt_trichotomy y y') as [H|[->|H]]; [| |]; [|lia|];
    apply later_year in H; lia.
Qed.

Lemma cycle_year_spec r : 0 <= r < 146097 ->
  let '(y, k) := cycle_year r in
  1 <= y <= 400 /\ 0 <= k < 365 + Z.b2z (is_leap y) /\ days_before_year y + k = r.
Proof.
  intros Hr. unfold cycle_year. cbn zeta.
  set (a := r / 36524). set (r1 := r mod 36524). set (b := r1 / 1461). set (r2 := r1 mod 1461).
  set (c := r2 / 365). set (k := r2 mod 365).
  assert (Ha : r = 36524 * a + r1 /\ 0 <= r1 < 36524 /\ 0 <= a <= 4)
    by (unfold a, r1; Z.to_euclidean_division_equations; lia).
  assert (Hb : r1 = 1461 * b + r2 /\ 0 <= r2 < 1461 /\ 0 <= b <= 24)
    by (unfold b, r2; Z.to_euclidean_division_equations; lia).
  assert (Hc : r2 = 365 * c + k /\ 0 <= k < 365 /\ 0 <= c <= 4)
    by (unfold c, k; Z.to_euclidean_division_equations; lia).
  clearbody a b c k r1 r2.
  destruct (Z.eqb_spec c 4) as [->|Hc4]; cbn [orb].
  - replace (a * 100 + b * 4 + 4 + 1 - 1) with (a * 100 + b * 4 + 3 + 1) by lia.
    rewrite leap_place, before_place by lia. cbn [andb].
    rewrite (proj2 (Z.eqb_eq 3 3)) by done. cbn [andb].
    destruct (Z.eqb_spec b 24) as [->|]; cbn [negb orb].
    + destruct (Z.eqb_spec a 3) as [->|]; cbn; lia.
    + cbn. lia.
  - destruct (Z.eqb_spec a 4) as [->|Ha4].
    + assert (r1 = 0 /\ b = 0 /\ c = 0) as (-> & -> & ->) by lia. assert (r = 146096) as -> by lia. split_and!; vm_compute; congruence.
    + rewrite leap_place, before_place by lia. split; [lia|]. split; [|lia].
      destruct (_ && _); cbn; lia.
Qed.

(** ** Months, checked day by day *)

Definition zrange (n : nat) : list Z := map Z.of_nat (seq 0 n).

Lemma elem_of_zrange n z : 0 <= z < Z.of_nat n -> z ∈ zrange n.
Proof.
  intros Hz. apply elem_of_map. exists (Z.to_nat z). split; [lia|]. apply elem_of_seq. lia.
Qed.

Lemma forallb_zrange f n z : forallb f (zrange n) = true -> 0 <= z < Z.of_nat n -> f z = true.
Proof.
  intros Hf Hz. rewrite forallb_forall in Hf. apply Hf. rewrite <- list_elem_of_In.
  by apply elem_of_zrange.
Qed.

Definition day_ok (leap : bool) (k : Z) : bool :=
  let '(m, d) := month_of 11 leap 1 k in
  (1 <=? m) && (m <=? 12) && (1 <=? d) && (d <=? month_days leap m) &&
  (days_before_month leap m + d =? k + 1).

Lemma all_days_ok (leap : bool) : forallb (day_ok leap) (zrange (if leap then 366 else 365)) = true.
Proof. destruct leap; vm_compute; reflexivity. Qed.

Definition date_ok (leap : bool) (m d : Z) : bool :=
  let k := days_before_month leap m + d - 1 in
  let '(m', d') := month_of 11 leap 1 k in
  (0 <=? k) && (k <? 365 + Z.b2z leap) && (m' =? m) && (d' =? d).

Lemma all_dates_ok (leap : bool) :
  forallb (fun m => forallb (fun d => date_ok leap (m + 1) (d + 1))
                            (zrange (Z.to_nat (month_days leap (m + 1))))) (zrange 12) = true.
Proof. destruct leap; vm_compute; reflexivity. Qed.

Lemma month_of_spec leap k : 0 <= k < 365 + Z.b2z leap ->
  let '(m, d) := month_of 11 leap 1 k in
  1 <= m <= 12 /\ 1 <= d <= month_days leap m /\ days_before_month leap m + d = k + 1.
Proof.
  intros Hk. pose proof (forallb_zrange _ _ k (all_days_ok leap)) as H.
  unfold day_ok in H. destruct (month_of 11 leap 1 k) as [m d].
  destruct leap; cbn in Hk; specialize (H ltac:(cbn; lia)); to_prop; lia.
Qed.

Lemma date_of_spec leap m d : 1 <= m <= 12 -> 1 <= d <= month_days leap m ->
  let k := days_before_month leap m + d - 1 in
  0 <= k < 365 + Z.b2z leap /\ month_of 11 leap 1 k = (m, d).
Proof.
  intros Hm Hd. pose proof (forallb_zrange _ _ (m - 1) (all_dates_ok leap)) as H.
  specialize (H ltac:(cbn; lia)). cbn beta in H. replace (m - 1 + 1) with m in H by lia.
  apply (forallb_zrange _ _ (d - 1)) in H; [|lia]. cbn beta in H. replace (d - 1 + 1) with d in H by lia.
  unfold date_ok in H. cbn zeta in *. destruct (month_of 11 leap 1 _) as [m' d'].
  to_prop. subst. split; [lia|done].
Qed.

(** ** Dates and ordinals are inverse *)

Definition is_date (y m d : Z) : Prop := 1 <= m <= 12 /\ 1 <= d <= days_in_month y m.

Lemma ord2ymd_spec n :
  let '(y, m, d) := ord2ymd n in is_date y m d /\ ymd2ord y m d = n.
Proof.
  unfold ord2ymd. set (r := (n - 1) mod 146097). set (q := (n - 1) / 146097).
  assert (Hr : 0 <= r < 146097) by (apply Z.mod_pos_bound; lia).
  assert (Hn : n - 1 = 146097 * q + r) by (apply Z.div_mod; lia).
  pose proof (cycle_year_spec r Hr) as H. destruct (cycle_year r) as [y0 k].
  destruct H as (_ & Hk & Hy). rewrite leap_period.
  pose proof (month_of_spec _ _ Hk) as Hm. destruct (month_of 11 _ 1 k) as [m d].
  destruct Hm as (Hm & Hd & E). unfold is_date, days_in_month, ymd2ord.
  rewrite leap_period, days_before_year_period. split; [done|]. lia.
Qed.

Lemma ymd2ord_inj y m d y' m' d' :
  is_date y m d -> is_date y' m' d' -> ymd2ord y m d = ymd2ord y' m' d' ->
  (y, m, d) = (y', m', d').
Proof.
  intros [Hm Hd] [Hm' Hd'] E. unfold ymd2ord in E.
  destruct (date_of_spec _ _ _ Hm Hd) as [Hk E1]. destruct (date_of_spec _ _ _ Hm' Hd') as [Hk' E2].
  cbn zeta in *. destruct (year_unique _ _ _ _ Hk Hk') as [-> Ek]; [lia|].
  rewrite Ek, E2 in E1. by injection E1 as -> ->.
Qed.

Lemma ord2ymd_ymd2ord y m d : is_date y m d -> ord2ymd (ymd2ord y m d) = (y, m, d).
Proof.
  intros Hd. pose proof (ord2ymd_spec (ymd2ord y m d)) as H.
  destruct (ord2ymd _) as [[y' m'] d']. destruct H as [Hd' E]. by apply ymd2ord_inj.
Qed.

(** ** Wall clocks *)

Inductive error := ValueError | OverflowError.

(** The last ordinal, 9999-12-31. *)
Definition MAXORD : Z := 3652059.

Definition ordinal (w : Z) : Z := w / DAY.
Definition time_of_day (w : Z) : Z := w mod DAY.
Definition date_of (w : Z) : Z * Z * Z := ord2ymd (ordinal w).

(** [datetime.weekday()], Monday = 0. *)
Definition weekday (w : Z) : Z := (ordinal w + 6) mod 7.

Definition in_range (w : Z) : bool := (DAY <=? w) && (w <? (MAXORD + 1) * DAY).

(** [w + timedelta] *)
Definition add_delta (w delta : Z) : result error Z :=
  if in_range (w + delta) then Ok (w + delta) else Raise OverflowError.

(** [hour:minute:00.000000] *)
Definition clock (hour minute : Z) : Z := hour * HOUR + minute * MINUTE.

Definition valid_clock (hour minute : Z) : bool :=
  (0 <=? hour) && (hour <? 24) && (0 <=? minute) && (minute <? 60).

(** [w.replace(hour, minute, second=0, microsecond=0)] *)
Definition replace_clock (w hour minute : Z) : result error Z :=
  if valid_clock hour minute then Ok (ordinal w * DAY + clock hour minute) else Raise ValueError.

(** [w.replace(year, month, day, hour, minute, second=0, microsecond=0)] *)
Definition replace_date (y m d hour minute : Z) : result error Z :=
  if valid_date y m d && valid_clock hour minute
  then Ok (ymd2ord y m d * DAY + clock hour minute) else Raise ValueError.

(** The Monday of ISO week 1 of year [y], as an ordinal. *)
Definition iso_week1_monday (y : Z) : Z :=
  let firstday := ymd2ord y 1 1 in
  let firstweekday := (firstday + 6) mod 7 in
  let week1monday := firstday - firstweekday in
  if 3 <? firstweekday then week1monday + 7 else week1monday.

(** [w.isocalendar()[1]] *)
Definition iso_week (w : Z) : Z :=
  let today := ordinal w in
  let '(y, _, _) := date_of w in
  let week := (today - iso_week1_monday y) / 7 in
  if week <? 0 then (today - iso_week1_monday (y - 1)) / 7 + 1
  else if (52 <=? week) && (iso_week1_monday (y + 1) <=? today) then 1
  else week + 1.

Lemma clock_bounds hour minute : valid_clock hour minute = true -> 0 <= clock hour minute < DAY.
Proof. unfold valid_clock, clock, HOUR, MINUTE, DAY. intros H. to_prop. lia. Qed.

Lemma wall_split n t : 0 <= t < DAY -> ordinal (n * DAY + t) = n /\ time_of_day (n * DAY + t) = t.
Proof.
  intros Ht. unfold ordinal, time_of_day. split.
  - rewrite Z.add_comm, Z.div_add by done. rewrite Z.div_small by done. lia.
  - rewrite Z.add_comm, Z.mod_add by done. by apply Z.mod_small.
Qed.

Lemma wall_join w : w = ordinal w * DAY + time_of_day w /\ 0 <= time_of_day w < DAY.
Proof.
  unfold ordinal, time_of_day. split; [rewrite Z.mul_comm; by apply Z.div_mod|].
  by apply Z.mod_pos_bound.
Qed.

(** Whole days do not move the clock. *)
Lemma add_days_split w k : ordinal (w + k * DAY) = ordinal w + k /\
  time_of_day (w + k * DAY) = time_of_day w.
Proof.
  unfold ordinal, time_of_day. by rewrite Z.div_add, Z.mod_add.
Qed.

Lemma weekday_days w k : weekday (w + k * DAY) = (weekday w + k) mod 7.
Proof.
  unfold weekday. rewrite (proj1 (add_days_split w k)).
  rewrite Z.add_mod_idemp_l by done. f_equal. lia.
Qed.

Lemma weekday_bounds w : 0 <= weekday w < 7.
Proof. by apply Z.mod_pos_bound. Qed.

(** Times with the same clock on the same weekday are whole weeks apart. *)
Lemma same_clock_apart w w' : time_of_day w = time_of_day w' -> w' = w + (ordinal w' - ordinal w) * DAY.
Proof. intros E. destruct (wall_join w) as [Hw _], (wall_join w') as [Hw' _]. lia. Qed.

(** The date of a wall built from a date. *)
Lemma date_of_wall y m d t : is_date y m d -> 0 <= t < DAY -> date_of (ymd2ord y m d * DAY + t) = (y, m, d).
Proof. intros Hd Ht. unfold date_of. rewrite (proj1 (wall_split _ t Ht)). by apply ord2ymd_ymd2ord. Qed.

(** Earlier dates have smaller ordinals. *)
Lemma ymd2ord_month_lt y m d y' m' d' :
  is_date y m d -> is_date y' m' d' -> y * 12 + m < y' * 12 + m' -> ymd2ord y m d < ymd2ord y' m' d'.
Proof.
  intros [Hm Hd] [Hm' Hd'] Hlt. unfold ymd2ord.
  destruct (date_of_spec _ _ _ Hm Hd) as [Hk _]. destruct (date_of_spec _ _ _ Hm' Hd') as [Hk' _].
  cbn zeta in *. destruct (Z.lt_trichotomy y y') as [Hy|[->|Hy]]; [|clear Hk Hk'|lia].
  - apply later_year in Hy. lia.
  - assert (Hmm : m < m') by lia. unfold days_in_month in *.
    cut (days_before_month (is_leap y') m + month_days (is_leap y') m <=
         days_before_month (is_leap y') m'); [lia|].
    generalize (is_leap y'). intros leap.
    assert (Hc : forallb (fun a => forallb (fun b => negb (a <? b) ||
      (days_before_month leap (a + 1) + month_days leap (a + 1) <=? days_before_month leap (b + 1)))
      (zrange 12)) (zrange 12) = true) by (destruct leap; vm_compute; reflexivity).
    apply (forallb_zrange _ _ (m - 1)) in Hc; [|lia]. cbn beta in Hc.
    apply (forallb_zrange _ _ (m' - 1)) in Hc; [|lia]. cbn beta in Hc.
    replace (m - 1 + 1) with m in Hc by lia. replace (m' - 1 + 1) with m' in Hc by lia.
    apply orb_prop in Hc as [Hc|Hc]; to_prop; lia.
Qed.

End Datetime.

(** ** Text *)

(** [s.split(sep)] for a one-character separator. *)
Fixpoint split_on (sep : Ascii.ascii) (s : string) : list string :=
  match s with
  | EmptyString => [EmptyString]
  | String c s' =>
      if bool_decide (c = sep) then EmptyString :: split_on sep s'
      else match split_on sep s' with
           | w :: ws => String c w :: ws
           | [] => [String c EmptyString]
           end
  end.

(** The digits of an [int] literal: single underscores may separate them. *)
Fixpoint int_digits (acc : Z) (s : string) : option Z :=
  match s with
  | EmptyString => Some acc
  | String c s' =>
      let n := Z.of_nat (Ascii.nat_of_ascii c) in
      if (48 <=? n) && (n <=? 57) then int_digits (acc * 10 + (n - 48)) s'
      else if n =? 95 then
        match s' with
        | String c' s'' =>
            let n' := Z.of_nat (Ascii.nat_of_ascii c') in
            if (48 <=? n') && (n' <=? 57) then int_digits (acc * 10 + (n' - 48)) s'' else None
        | EmptyString => None
        end
      else None
  end.

Definition unsigned_int (s : string) : option Z :=
  match s with
  | EmptyString => None
  | String c _ => if bool_decide (Ascii.nat_of_ascii c = 95%nat) then None else int_digits 0 s
  end.

(** [int(s)] on ASCII text; [None] is the [ValueError]. *)
Definition py_int (s : string) : option Z :=
  match strip s with
  | String c s' =>
      let n := Ascii.nat_of_ascii c in
      if bool_decide (n = 45%nat) then Z.opp <$> unsigned_int s'
      else if bool_decide (n = 43%nat) then unsigned_int s'
      else unsigned_int (String c s')
  | EmptyString => None
  end.

Example py_int_forms :
  (py_int " 07 ", py_int "-1", py_int "1_0", py_int "1__0", py_int "", py_int "7.5") =
  (Some 7, Some (-1), Some 10, None, None, None).
Proof. reflexivity. Qed.

Example iso_weeks :
  (Datetime.iso_week (Datetime.ymd2ord 2021 1 3 * Datetime.DAY),
   Datetime.iso_week (Datetime.ymd2ord 2021 1 4 * Datetime.DAY),
   Datetime.iso_week (Datetime.ymd2ord 2020 12 31 * Datetime.DAY),
   Datetime.iso_week (Datetime.ymd2ord 2024 12 30 * Datetime.DAY)) = (53, 1, 53, 1).
Proof. vm_compute. reflexivity. Qed.
