(* ===== verification/PyState.v ===== *)
(** * Python code that changes shared objects and may raise.

    A computation takes the shared state and leaves one, whether it returns or raises.  What
    every step of a computation keeps between the states before and after it (a preorder) the
    whole computation keeps: [moves].  An exception is what its handlers look at: which of the
    HTTP client's classes it belongs to, its class's name and its text. *)
From S2P Require Import Prelude PyFloat PyValue PyText PyDatetime.
From stdpp Require Import relations.
Open Scope Z_scope.

(** [HTTPStatusError] with its status, [SSRFError], [TimeoutException] (a [RequestError]),
    another [RequestError], anything else. *)
Inductive exc_class := HttpStatus (status : Z) | Ssrf | Timeout | Request | Other.
Record exc := Exc { exc_kind : exc_class; exc_name : string; exc_text : string }.

(** The message of the error of [int(v)]. *)
Definition int_error (v : pyval) : string :=
  let bad t := String.concat "" ["int() argument must be a string, a bytes-like object or a real number, not '"; t; "'"] in
  match v with
  | PNone => bad "NoneType"
  | PList _ => bad "list"
  | PDict _ => bad "dict"
  | PStr s => String.concat "" ["invalid literal for int() with base 10: "; repr_string s]
  | PFloat f => if Float.eqb f f then "cannot convert float infinity to integer" else "cannot convert float NaN to integer"
  | _ => ""
  end.

Definition int_error_class (v : pyval) : string :=
  match v with
  | PStr _ => "ValueError"
  | PFloat f => if Float.eqb f f then "OverflowError" else "ValueError"
  | _ => "TypeError"
  end.

(** [int(v)] *)
Definition int_value (v : pyval) : result exc Z :=
  let fail := Raise (Exc Other (int_error_class v) (int_error v)) in
  match v with
  | PInt z => Ok z
  | PBool b => Ok (Z.b2z b)
  | PFloat f => if Float.is_finite f then Ok (Float.trunc f) else fail
  | PStr s => match py_int s with Some z => Ok z | None => fail end
  | _ => fail
  end.

Section monad.
Context {S : Type}.

Definition M (A : Type) : Type := S -> result exc A * S.

Definition ret {A} (a : A) : M A := fun s => (Ok a, s).
Definition raise {A} (e : exc) : M A := fun s => (Raise e, s).
Definition bind {A B} (m : M A) (k : A -> M B) : M B :=
  fun s => match m s with (Ok a, s') => k a s' | (Raise e, s') => (Raise e, s') end.
Definition pure {A} (r : result exc A) : M A := fun s => (r, s).
Definition gets {A} (f : S -> A) : M A := fun s => (Ok (f s), s).
Definition modify (f : S -> S) : M unit := fun s => (Ok tt, f s).
(** [try: m except Exception as e: h(e)] *)
Definition try_except {A} (m : M A) (h : exc -> M A) : M A :=
  fun s => match m s with (Ok a, s') => (Ok a, s') | (Raise e, s') => h e s' end.

(** The call with its exception as a value. *)
Definition attempt {A} (m : M A) : M (result exc A) := fun s => let '(r, s') := m s in (Ok r, s').

(** [for x in l: body(x)] *)
Fixpoint for_each {A} (l : list A) (body : A -> M unit) : M unit :=
  match l with [] => ret tt | x :: l => bind (body x) (fun _ => for_each l body) end.

Lemma for_each_app {A} (l k : list A) body s :
  for_each (l ++ k) body s = bind (for_each l body) (fun _ => for_each k body) s.
Proof.
  revert s; induction l as [|x l IH]; intros s; [reflexivity|]; cbn; unfold bind.
  destruct (body x s) as [[[]|e] s']; [apply IH|reflexivity].
Qed.

(** ** What every step keeps *)

Section moves.
Variable R : S -> S -> Prop.
Context {pre : PreOrder R}.

Definition moves {A} (m : M A) : Prop := forall s, R s (m s).2.

Lemma moves_ret {A} (a : A) : moves (ret a).
Proof. now intros s. Qed.
Lemma moves_raise {A} (e : exc) : moves (raise (A := A) e).
Proof. now intros s. Qed.
Lemma moves_pure {A} (r : result exc A) : moves (pure r).
Proof. now intros s. Qed.
Lemma moves_gets {A} (f : S -> A) : moves (gets f).
Proof. now intros s. Qed.
Lemma moves_modify f : (forall s, R s (f s)) -> moves (modify f).
Proof. now intros H s. Qed.

Lemma moves_bind {A B} (m : M A) (k : A -> M B) : moves m -> (forall a, moves (k a)) -> moves (bind m k).
Proof.
  intros Hm Hk s; specialize (Hm s); unfold bind; destruct (m s) as [[a|e] s']; [|exact Hm].
  etransitivity; [exact Hm|apply Hk].
Qed.

Lemma moves_try {A} (m : M A) (h : exc -> M A) : moves m -> (forall e, moves (h e)) -> moves (try_except m h).
Proof.
  intros Hm Hh s; specialize (Hm s); unfold try_except; destruct (m s) as [[a|e] s']; [exact Hm|].
  etransitivity; [exact Hm|apply Hh].
Qed.

Lemma moves_attempt {A} (m : M A) : moves m -> moves (attempt m).
Proof. intros Hm s. specialize (Hm s). unfold attempt. now destruct (m s). Qed.

Lemma moves_for {A} (l : list A) body : (forall x, x ∈ l -> moves (body x)) -> moves (for_each l body).
Proof.
  induction l as [|x l IH]; intros Hb; [apply moves_ret|].
  apply moves_bind; [apply Hb; now left|intros _; apply IH; intros y Hy; apply Hb; now right].
Qed.
End moves.

(** ** Two computations in step *)

(** From related states the same result, in related states. *)
Section lockstep.
Variable R : S -> S -> Prop.

Definition lockstep {A} (m n : M A) : Prop := forall s t, R s t -> (m s).1 = (n t).1 /\ R (m s).2 (n t).2.

Lemma lockstep_pure {A} (r : result exc A) : lockstep (pure r) (pure r).
Proof. now intros s t H. Qed.
Lemma lockstep_ret {A} (a : A) : lockstep (ret a) (ret a).
Proof. now intros s t H. Qed.
Lemma lockstep_modify f g : (forall s t, R s t -> R (f s) (g t)) -> lockstep (modify f) (modify g).
Proof. intros H s t Hst. now split; [|apply H]. Qed.

Lemma lockstep_gets {A} (f g : S -> A) : (forall s t, R s t -> f s = g t) -> lockstep (gets f) (gets g).
Proof. intros H s t Hst. unfold gets. cbn. split; [f_equal; now apply H|done]. Qed.
Lemma lockstep_ext {A} (m n n' : M A) : (forall t, n t = n' t) -> lockstep m n' -> lockstep m n.
Proof. intros H Hm s t Hst. rewrite H. now apply Hm. Qed.

Lemma lockstep_bind {A B} (m n : M A) (k l : A -> M B) :
  lockstep m n -> (forall a, lockstep (k a) (l a)) -> lockstep (bind m k) (bind n l).
Proof.
  intros Hm Hk s t Hst. destruct (Hm s t Hst) as [Hr Hs]. unfold bind.
  destruct (m s) as [r s'], (n t) as [r' t']; cbn in *. subst r'. destruct r; [now apply Hk|now split].
Qed.

Lemma lockstep_for {A} (l : list A) (f g : A -> M unit) :
  (forall x, lockstep (f x) (g x)) -> lockstep (for_each l f) (for_each l g).
Proof. intros H. induction l as [|x l IH]; [apply lockstep_ret|]. now apply lockstep_bind. Qed.
End lockstep.
End monad.
Arguments M S A : clear implicits.

Notation "'do!' x ':=' m 'in' k" := (bind m (fun x => k))
  (at level 10, x name, m at level 100, k at level 200) : py_scope.
Notation "m ';;' k" := (bind m (fun _ => k)) (at level 100, k at level 200, right associativity) : py_scope.

Create HintDb moves.
#[export] Hint Resolve moves_ret moves_raise moves_pure moves_gets moves_modify moves_bind moves_try moves_attempt moves_for : moves.

Create HintDb lockstep.
#[export] Hint Resolve lockstep_pure lockstep_ret lockstep_modify lockstep_bind lockstep_for : lockstep.
