(* ===== verification/TemplateEngine.v ===== *)
(** * The dummy-EPG template engine ([backend/template_engine.py]).

    Placeholders with pipes, nested conditionals and the render trace.  The scanning
    position of the code is the rest of the text here.  Text is ASCII; compiling and
    searching a user pattern is a parameter, behind the length cap of [safe_regex]. *)
From S2P Require Import Prelude PyValue PyDict PyText PyDatetime.

Module TemplateEngine.

Definition MAX_TEMPLATE_LEN : nat := 4096.
Definition MAX_INPUT_LEN : nat := 1024.
Definition DEFAULT_MAX_PATTERN_LEN : nat := 500.

(** [TemplateSyntaxError], by what it says; [OutOfFuel] never happens. *)
Inductive error :=
| TemplateTooLong
| Unclosed (position : nat)
| UnmatchedEndif
| NoMatchingEndif
| UnknownTransform (name : string)
| OutOfFuel.
Abbreviation result := (result error).

(** ** Transforms *)

Definition is_lower_alnum (c : Ascii.ascii) : bool := is_lower c || is_decimal c.
Definition legacy_normalize (value : string) : string := s_filter is_lower_alnum (lower value).

Definition colon : Ascii.ascii := ":"%char.
Definition pipe : Ascii.ascii := "|"%char.

Definition t_strip (value : string) (arg : option string) : string :=
  match arg with
  | Some ((String _ _) as chars) => strip_chars (fun c => has_char c chars) value
  | _ => strip value
  end.

(** [replace:<from>:<to>] *)
Definition t_replace (value : string) (arg : option string) : string :=
  match arg with
  | None => value
  | Some arg =>
      let '(src, dst) := match split_char colon arg with Some x => x | None => (arg, EmptyString) end in
      py_replace src dst value
  end.

Definition TRANSFORMS : dict_of (string -> option string -> string) :=
  [("uppercase", fun v _ => upper v); ("lowercase", fun v _ => lower v);
   ("titlecase", fun v _ => title v); ("trim", fun v _ => strip v); ("strip", t_strip);
   ("replace", t_replace); ("normalize", fun v _ => legacy_normalize v)].

Definition truncate (value : string) : string :=
  if (MAX_INPUT_LEN <? String.length value)%nat then s_take MAX_INPUT_LEN value else value.

(** ** The trace *)

Record pipe_step := {
  transform : string; step_arg : option string; step_input : string; step_output : string;
}.

Inductive condition_kind := Truthy | Equality | Regex.

#[warnings="-register-all"]
Inductive trace :=
| TLiteral (text : string)
| TPlaceholder (raw group_name initial_value : string) (pipes : list pipe_step) (final_value : string)
| TConditional (condition : string) (kind : condition_kind) (taken : bool) (value : string)
    (body : list trace).

(** ** Conditions and placeholders *)

Section engine.
(** Whether a pattern compiles, and whether a compiled one is found in a text in time. *)
Context (compiles : string -> bool) (search : string -> string -> bool).

Definition groups : Type := dict_of string.
Definition group (g : groups) (name : string) : string := default EmptyString (d_get name g).

Definition evaluate_condition (condition : string) (g : groups) : bool * (condition_kind * string) :=
  let regex :=
    match split_char "~"%char condition with
    | Some (name, pattern) =>
        let value := group g name in
        let matched := (String.length pattern <=? DEFAULT_MAX_PATTERN_LEN)%nat &&
                       compiles pattern && search pattern value in
        (matched, (Regex, value))
    | None => let value := group g condition in
              (negb (bool_decide (value = EmptyString)), (Truthy, value))
    end in
  match split_char "="%char condition with
  | Some (name, expected) =>
      if has_char "~"%char name then regex
      else let value := group g name in (bool_decide (value = expected), (Equality, value))
  | None => regex
  end.

(** [name:arg], the argument optional. *)
Definition parse_pipe (spec : string) : string * option string :=
  match split_char colon spec with Some (a, b) => (a, Some b) | None => (spec, None) end.

(** The text before the first [|] and the pipes. *)
Definition split_pipes (body : string) : string * list string :=
  match split_on pipe body with x :: l => (x, l) | [] => (EmptyString, []) end.

(** The pipes of a placeholder: the value after them and the steps taken. *)
Fixpoint run_pipes (value : string) (pipes : list string) : result (string * list pipe_step) :=
  match pipes with
  | [] => Ok (value, [])
  | spec :: pipes' =>
      let spec := strip spec in
      if bool_decide (spec = EmptyString) then run_pipes value pipes'
      else
        let '(name, arg) := parse_pipe spec in
        match d_get name TRANSFORMS with
        | None => Raise (UnknownTransform name)
        | Some f =>
            let out := f value arg in
            let! '(final, steps) := run_pipes out pipes' in
            Ok (final, {| transform := name; step_arg := arg; step_input := value;
                          step_output := out |} :: steps)
        end
  end.

(** [_render_placeholder]: the value and its trace entry. *)
Definition render_placeholder (body : string) (g : groups) : result (string * trace) :=
  let raw := ("{" ++ body ++ "}")%string in
  let '(head, pipes) := split_pipes body in
  let name := strip head in
  match (if d_mem name g then None else drop_suffix "_normalize" name) with
  | Some base =>
      let initial := group g base in
      let final := legacy_normalize initial in
      Ok (final, TPlaceholder raw base initial
            [{| transform := "normalize"; step_arg := None; step_input := initial;
                step_output := final |}] final)
  | None =>
      let initial := group g name in
      let! '(value, steps) := run_pipes initial pipes in
      let final := truncate value in
      Ok (final, TPlaceholder raw name initial steps final)
  end.

(** ** Rendering *)

(** The next directive: the text before its brace, the directive, the text after it. *)
Inductive scanned := NoBrace | OpenBrace (literal : string) | Directive (literal directive after : string).

Definition scan (s : string) : scanned :=
  match split_char "{"%char s with
  | None => NoBrace
  | Some (literal, rest) =>
      match split_char "}"%char rest with
      | None => OpenBrace literal
      | Some (directive, after) => Directive literal directive after
      end
  end.

(** [_find_matching_endif]: the body and the text after its [{/if}]; [body] is the text
    already passed. *)
Fixpoint find_matching_endif (fuel depth : nat) (body s : string) : option (string * string) :=
  match fuel with
  | O => None
  | S fuel' =>
      match scan s with
      | NoBrace | OpenBrace _ => None
      | Directive literal directive after =>
          let passed := (body ++ literal ++ "{" ++ directive ++ "}")%string in
          if starts_with "if:" directive then find_matching_endif fuel' (S depth) passed after
          else if bool_decide (directive = "/if") then
            match depth with
            | S (S d) => find_matching_endif fuel' (S d) passed after
            | _ => Some ((body ++ literal)%string, after)
            end
          else find_matching_endif fuel' depth passed after
      end
  end.

Definition literal_trace (text : string) : list trace :=
  if bool_decide (text = EmptyString) then [] else [TLiteral text].

(** [_render_segment] from offset [position] of the segment, whose rest is [s]. *)
Fixpoint render_segment (tracing : bool) (g : groups) (fuel position : nat) (s : string)
    : result (string * list trace) :=
  let emit t := if tracing then t else [] in
  match fuel with
  | O => Raise OutOfFuel
  | S fuel' =>
      match scan s with
      | NoBrace => Ok (s, emit (literal_trace s))
      | OpenBrace literal => Raise (Unclosed (position + String.length literal))
      | Directive literal directive after =>
          let next := (position + String.length literal + String.length directive + 2)%nat in
          if starts_with "if:" directive then
            match find_matching_endif (String.length after) 1 EmptyString after with
            | None => Raise NoMatchingEndif
            | Some (body, rest) =>
                let condition := default EmptyString (drop_prefix "if:" directive) in
                let '(taken, (kind, value)) := evaluate_condition condition g in
                let! '(out, body_trace) :=
                  if taken then render_segment tracing g fuel' 0 body else Ok (EmptyString, []) in
                let! '(out', t) :=
                  render_segment tracing g fuel'
                    (next + String.length body + 5)%nat rest in
                Ok ((literal ++ out ++ out')%string,
                    emit (literal_trace literal ++ [TConditional condition kind taken value body_trace]) ++ t)
            end
          else if bool_decide (directive = "/if") then Raise UnmatchedEndif
          else
            let! '(out, entry) := render_placeholder directive g in
            let! '(out', t) := render_segment tracing g fuel' next after in
            Ok ((literal ++ out ++ out')%string, emit (literal_trace literal ++ [entry]) ++ t)
      end
  end.

(** The group values, as text and truncated. *)
Definition bounded_groups (g : dict_of pyval) : groups :=
  map (fun x => (x.1, truncate (py_str x.2))) g.

Definition render_both (tracing : bool) (template : option string) (g : dict_of pyval)
    : result (string * list trace) :=
  match template with
  | None => Ok (EmptyString, [])
  | Some t =>
      if (MAX_TEMPLATE_LEN <? String.length t)%nat then Raise TemplateTooLong
      else render_segment tracing (bounded_groups g) (S (String.length t)) 0 t
  end.

Definition render (template : option string) (g : dict_of pyval) : result string :=
  let! '(out, _) := render_both false template g in Ok out.

Definition render_with_trace (template : option string) (g : dict_of pyval)
    : result (string * list trace) := render_both true template g.

(** ** Scanning *)

Lemma scan_length s l d a :
  scan s = Directive l d a ->
  String.length s = (String.length l + String.length d + String.length a + 2)%nat.
Proof.
  unfold scan. destruct (split_char "{"%char s) as [[l' r]|] eqn:E1; [|done].
  destruct (split_char "}"%char r) as [[d' a']|] eqn:E2; [|done]. intros [= -> -> ->].
  apply split_char_length in E1, E2. lia.
Qed.

Lemma scan_literal l s : has_char "{"%char l = false ->
  scan (l ++ s) = match scan s with
                  | NoBrace => NoBrace
                  | OpenBrace x => OpenBrace (l ++ x)
                  | Directive x d a => Directive (l ++ x) d a
                  end.
Proof.
  intros Hl. unfold scan. destruct (split_char "{"%char s) as [[x r]|] eqn:E.
  - apply split_char_Some in E as [-> Hx]. rewrite s_app_assoc.
    rewrite split_char_app by by rewrite has_char_app, Hl, Hx.
    by destruct (split_char "}"%char r) as [[d a]|].
  - apply split_char_None in E. rewrite (proj2 (split_char_None _ _)); [done|].
    by rewrite has_char_app, Hl, E.
Qed.

Lemma scan_directive d t : has_char "}"%char d = false ->
  scan ("{" ++ d ++ "}" ++ t) = Directive EmptyString d t.
Proof.
  intros Hd. unfold scan. change ("{" ++ d ++ "}" ++ t)%string with (String "{" (d ++ String "}" t)).
  cbn [split_char]. rewrite bool_decide_true by done. by rewrite split_char_app.
Qed.

Lemma find_fuel f f' depth body s :
  (String.length s <= f)%nat -> (String.length s <= f')%nat ->
  find_matching_endif f depth body s = find_matching_endif f' depth body s.
Proof.
  revert f' depth body s. induction f as [|f IH]; intros f' depth body s Hf Hf'.
  - destruct s; [|cbn in Hf; lia]. by destruct f'.
  - destruct f' as [|f']; [destruct s; [done|cbn in Hf'; lia]|]. cbn [find_matching_endif].
    destruct (scan s) as [|l|l d a] eqn:E; [done|done|]. apply scan_length in E.
    destruct (starts_with "if:" d); [by apply IH; lia|].
    case_bool_decide; [|by apply IH; lia]. destruct depth as [|[|depth]]; [done|done|by apply IH; lia].
Qed.

Lemma find_shorter f depth body s b r :
  find_matching_endif f depth body s = Some (b, r) ->
  (String.length b + String.length r + 5 <= String.length body + String.length s)%nat.
Proof.
  revert depth body s. induction f as [|f IH]; intros depth body s; cbn; [done|].
  destruct (scan s) as [|l|l d a] eqn:E; [done|done|]. apply scan_length in E.
  assert (Hp : String.length (body ++ l ++ "{" ++ d ++ "}") =
    (String.length body + String.length l + String.length d + 2)%nat)
    by (rewrite !s_length_app; cbn; lia).
  destruct (starts_with "if:" d); [intros H; apply IH in H; lia|].
  case_bool_decide as Hd; [|intros H; apply IH in H; lia].
  destruct depth as [|[|depth]]; [| |intros H; apply IH in H; lia];
    intros [= <- <-]; rewrite s_length_app; subst d; cbn in E; lia.
Qed.

(** Enough fuel: more gives the same. *)
Lemma render_fuel tracing g f f' pos s :
  (String.length s < f)%nat -> (String.length s < f')%nat ->
  render_segment tracing g f pos s = render_segment tracing g f' pos s.
Proof.
  revert f' pos s. induction f as [|f IH]; intros f' pos s Hf Hf'; [lia|].
  destruct f' as [|f']; [lia|]. cbn [render_segment].
  destruct (scan s) as [|l|l d a] eqn:E; [done|done|]. apply scan_length in E.
  destruct (starts_with "if:" d).
  - destruct (find_matching_endif _ _ _ a) as [[b r]|] eqn:Ef; [|done].
    apply find_shorter in Ef. cbn in Ef.
    destruct (evaluate_condition _ g) as [taken [kind value]].
    rewrite (IH f' 0%nat b) by lia. by rewrite (IH f' _ r) by lia.
  - case_bool_decide; [done|]. destruct (render_placeholder d g) as [[o e]|]; [|done]. cbn [rbind].
    by rewrite (IH f' _ a) by lia.
Qed.

Lemma run_pipes_fuel v l : run_pipes v l <> Raise OutOfFuel.
Proof.
  revert v. induction l as [|p l IH]; intros v; cbn [run_pipes]; [done|].
  case_bool_decide; [apply IH|]. destruct (parse_pipe (strip p)) as [name arg].
  destruct (d_get name TRANSFORMS) as [f|]; [|done].
  specialize (IH (f v arg)). destruct (run_pipes _ l) as [[? ?]|]; [done|]. cbn. congruence.
Qed.

Lemma placeholder_fuel d g : render_placeholder d g <> Raise OutOfFuel.
Proof.
  unfold render_placeholder. destruct (split_pipes d) as [head pipes].
  destruct (if d_mem _ g then _ else _); [done|].
  pose proof (run_pipes_fuel (group g (strip head)) pipes) as H.
  destruct (run_pipes _ pipes) as [[? ?]|]; [done|]. cbn. congruence.
Qed.

Lemma segment_fuel tracing g f pos s :
  (String.length s < f)%nat -> render_segment tracing g f pos s <> Raise OutOfFuel.
Proof.
  revert pos s. induction f as [|f IH]; intros pos s Hf; [lia|]. cbn [render_segment].
  destruct (scan s) as [|l|l d a] eqn:E; [done|done|]. apply scan_length in E.
  destruct (starts_with "if:" d).
  - destruct (find_matching_endif _ _ _ a) as [[b r]|] eqn:Ef; [|done].
    apply find_shorter in Ef. cbn in Ef.
    destruct (evaluate_condition _ g) as [taken [kind value]].
    pose proof (IH 0%nat b ltac:(lia)) as Hb.
    pose proof (fun p => IH p r ltac:(lia)) as Hr.
    destruct (if taken then _ else _) as [[o bt]|] eqn:Eb; cbn [rbind]; [|by destruct taken; congruence].
    specialize (Hr (pos + String.length l + String.length d + 2 + String.length b + 5)%nat).
    destruct (render_segment tracing g f _ r) as [[? ?]|]; [done|]. cbn. congruence.
  - case_bool_decide; [done|]. pose proof (placeholder_fuel d g).
    destruct (render_placeholder d g) as [[o e]|]; cbn [rbind]; [|congruence].
    pose proof (IH (pos + String.length l + String.length d + 2)%nat a ltac:(lia)).
    destruct (render_segment tracing g f _ a) as [[? ?]|]; [done|]. cbn. congruence.
Qed.

(** Rendering terminates: the fuel given covers every template, and more would change
    nothing, so a render returns text, a trace or a syntax error of the template. *)
Theorem render_total tracing template g :
  render_both tracing template g <> Raise OutOfFuel /\
  forall t f, template = Some t -> (String.length t < f)%nat ->
    (String.length t <= MAX_TEMPLATE_LEN)%nat ->
    render_both tracing template g = render_segment tracing (bounded_groups g) f 0 t.
Proof.
  split.
  - unfold render_both. destruct template as [t|]; [|done]. destruct (MAX_TEMPLATE_LEN <? String.length t)%nat; [done|]. apply segment_fuel. lia.
  - intros t f -> Hf Hlen. unfold render_both.
    destruct (MAX_TEMPLATE_LEN <? String.length t)%nat eqn:E; to_prop; [lia|]. apply render_fuel; lia.
Qed.

(** ** The trace accounts for the output *)

Fixpoint trace_out (t : trace) : string :=
  match t with
  | TLiteral text => text
  | TPlaceholder _ _ _ _ final => final
  | TConditional _ _ _ _ body => s_concat (map trace_out body)
  end.

(** Each step takes the output of the one before it, from [v] to [final]. *)
Fixpoint chained (v : string) (steps : list pipe_step) (final : string) : Prop :=
  match steps with
  | [] => final = v
  | x :: steps' => step_input x = v /\ chained (step_output x) steps' final
  end.

(** A placeholder's entry starts at its group's value and its steps lead to its value. *)
Fixpoint trace_ok (g : groups) (t : trace) : Prop :=
  match t with
  | TLiteral text => text <> EmptyString
  | TPlaceholder _ name initial steps final =>
      initial = group g name /\
      exists v, chained initial steps v /\ (final = v \/ final = truncate v)
  | TConditional condition kind taken value body =>
      evaluate_condition condition g = (taken, (kind, value)) /\
      (taken = false -> body = []) /\
      (fix all l := match l with [] => True | x :: l' => trace_ok g x /\ all l' end) body
  end.

Lemma trace_ok_all g body :
  (fix all l := match l with [] => True | x :: l' => trace_ok g x /\ all l' end) body <->
  Forall (trace_ok g) body.
Proof. induction body as [|x l IH]; [done|]. by rewrite Forall_cons, IH. Qed.

Lemma run_pipes_chained v l final steps : run_pipes v l = Ok (final, steps) -> chained v steps final.
Proof.
  revert v steps. induction l as [|p l IH]; intros v steps; cbn [run_pipes]; [by intros [= <- <-]|].
  case_bool_decide; [apply IH|]. destruct (parse_pipe (strip p)) as [name arg].
  destruct (d_get name TRANSFORMS) as [f|]; [|done].
  destruct (run_pipes (f v arg) l) as [[v' steps']|] eqn:E; [|done].
  intros [= <- <-]. split; [done|]. by apply IH.
Qed.

Lemma placeholder_traced d g o e :
  render_placeholder d g = Ok (o, e) -> trace_out e = o /\ trace_ok g e.
Proof.
  unfold render_placeholder. destruct (split_pipes d) as [head pipes].
  destruct (if d_mem (strip head) g then None else drop_suffix "_normalize" (strip head)) as [base|].
  - intros [= <- <-]. split; [done|]. split; [done|]. eexists. split; [|by left]. done.
  - destruct (run_pipes (group g (strip head)) pipes) as [[v steps]|] eqn:E; [|done].
    intros [= <- <-]. split; [done|]. split; [done|]. exists v. split; [by eapply run_pipes_chained|by right].
Qed.

Lemma literal_traced g l : s_concat (map trace_out (literal_trace l)) = l /\ Forall (trace_ok g) (literal_trace l).
Proof.
  unfold literal_trace. case_bool_decide; [by subst|]. cbn. rewrite s_app_nil_r. split; [done|].
  by constructor.
Qed.

Lemma segment_traced g f pos s o t :
  render_segment true g f pos s = Ok (o, t) -> s_concat (map trace_out t) = o /\ Forall (trace_ok g) t.
Proof.
  revert pos s o t. induction f as [|f IH]; intros pos s o t; cbn [render_segment]; [done|].
  destruct (scan s) as [|l|l d a]; [|done|].
  { intros [= <- <-]. apply literal_traced. }
  destruct (literal_traced g l) as [Hlo Hlk]. destruct (starts_with "if:" d).
  - destruct (find_matching_endif _ _ _ a) as [[b r]|]; [|done].
    destruct (evaluate_condition _ g) as [taken [kind value]] eqn:Ec.
    destruct (if taken then render_segment true g f 0 b else _) as [[bo bt]|] eqn:Eb; [|done]. cbn [rbind].
    destruct (render_segment true g f _ r) as [[o' t']|] eqn:Er; [|done]. cbn [rbind].
    intros [= <- <-]. apply IH in Er as [<- Hr].
    assert (Hb : s_concat (map trace_out bt) = bo /\ Forall (trace_ok g) bt /\ (taken = false -> bt = [])).
    { destruct taken; [apply IH in Eb as [? ?]; by split_and!|]. by injection Eb as <- <-. }
    destruct Hb as (<- & Hbk & Hbn). rewrite map_app, s_concat_app, map_app, s_concat_app, Hlo. cbn.
    rewrite s_app_nil_r, s_app_assoc. split; [done|].
    rewrite !Forall_app. split; [split; [done|]|done]. constructor; [|done]. split; [done|].
    split; [done|]. by apply trace_ok_all.
  - case_bool_decide; [done|]. destruct (render_placeholder d g) as [[po e]|] eqn:Ep; [|done]. cbn [rbind].
    destruct (render_segment true g f _ a) as [[o' t']|] eqn:Er; [|done]. cbn [rbind].
    intros [= <- <-]. apply IH in Er as [<- Hr]. apply placeholder_traced in Ep as [<- He].
    rewrite map_app, s_concat_app, map_app, s_concat_app, Hlo. cbn. rewrite s_app_nil_r, s_app_assoc.
    split; [done|]. rewrite !Forall_app. split; [split; [done|]|done]. by constructor.
Qed.

Definition outcome (r : result (string * list trace)) : result string := let! '(out, _) := r in Ok out.

Lemma segment_untraced g f pos s :
  outcome (render_segment false g f pos s) = outcome (render_segment true g f pos s).
Proof.
  revert pos s. induction f as [|f IH]; intros pos s; cbn [render_segment]; [done|].
  destruct (scan s) as [|l|l d a]; [done|done|]. destruct (starts_with "if:" d).
  - destruct (find_matching_endif _ _ _ a) as [[b r]|]; [|done].
    destruct (evaluate_condition _ g) as [taken [kind value]].
    assert (Hb : outcome (if taken then render_segment false g f 0 b else Ok (EmptyString, [])) =
                 outcome (if taken then render_segment true g f 0 b else Ok (EmptyString, [])))
      by (destruct taken; [apply IH|done]).
    specialize (IH (pos + String.length l + String.length d + 2 + String.length b + 5)%nat r).
    destruct (if taken then render_segment false g f 0 b else _) as [[o1 t1]|e1],
             (if taken then render_segment true g f 0 b else _) as [[o2 t2]|e2];
      cbn in Hb; simplify_eq; [|done]. cbn [rbind].
    destruct (render_segment false g f _ r) as [[? ?]|], (render_segment true g f _ r) as [[? ?]|];
      cbn in IH |- *; by simplify_eq.
  - case_bool_decide; [done|]. destruct (render_placeholder d g) as [[po e]|]; [|done]. cbn [rbind].
    specialize (IH (pos + String.length l + String.length d + 2)%nat a).
    destruct (render_segment false g f _ a) as [[? ?]|], (render_segment true g f _ a) as [[? ?]|];
      cbn in IH |- *; by simplify_eq.
Qed.

(** The trace accounts for the output.  A traced render succeeds with the output of the
    plain one, or fails as it does; the pieces of the trace put together are that output;
    each placeholder's entry starts at its group's value and its pipes lead, one into the
    next, to the value shown; and each conditional's says how its condition was decided,
    with no body when it was not taken. *)
Theorem trace_accounts template g out entries :
  render_with_trace template g = Ok (out, entries) ->
  render template g = Ok out /\ s_concat (map trace_out entries) = out /\
  Forall (trace_ok (bounded_groups g)) entries.
Proof.
  unfold render_with_trace, render, render_both. destruct template as [t|]; [|by intros [= <- <-]].
  destruct (MAX_TEMPLATE_LEN <? String.length t)%nat; [done|]. intros H. split.
  - pose proof (segment_untraced (bounded_groups g) (S (String.length t)) 0 t) as Hu. rewrite H in Hu. exact Hu.
  - by eapply segment_traced.
Qed.

(** ** Templates as trees *)

#[warnings="-register-all"]
Inductive node :=
| Lit (text : string)
| Hole (body : string)
| Cond (condition : string) (body : list node).

Section node_ind.
Context (P : node -> Prop) (HL : forall s, P (Lit s)) (HH : forall s, P (Hole s))
  (HC : forall c b, Forall P b -> P (Cond c b)).

Fixpoint node_ind' (n : node) : P n :=
  match n with
  | Lit s => HL s
  | Hole s => HH s
  | Cond c b =>
      HC c b ((fix all l : Forall P l :=
        match l with [] => Forall_nil_2 _ | x :: l' => Forall_cons_2 _ _ _ (node_ind' x) (all l') end) b)
  end.
End node_ind.

Fixpoint show (n : node) : string :=
  match n with
  | Lit s => s
  | Hole s => ("{" ++ s ++ "}")%string
  | Cond c b => ("{" ++ ("if:" ++ c) ++ "}" ++ s_concat (map show b) ++ ("{" ++ "/if" ++ "}"))%string
  end.

(** Trees whose text reads back: braces only where the grammar has them. *)
Fixpoint wf (n : node) : bool :=
  match n with
  | Lit s => negb (has_char "{"%char s)
  | Hole s => negb (has_char "}"%char s) && negb (starts_with "if:" s) && negb (bool_decide (s = "/if"))
  | Cond c b => negb (has_char "}"%char c) && forallb wf b
  end.

(** The meaning of a tree: pieces from left to right, the first error wins, and the body of
    a conditional that is not taken is not looked at. *)
Fixpoint eval (g : groups) (n : node) : result string :=
  match n with
  | Lit s => Ok s
  | Hole s => let! '(out, _) := render_placeholder s g in Ok out
  | Cond c b =>
      if (evaluate_condition c g).1 then
        (fix all l := match l with
                      | [] => Ok EmptyString
                      | x :: l' => let! a := eval g x in let! r := all l' in Ok (a ++ r)%string
                      end) b
      else Ok EmptyString
  end.

Definition eval_all (g : groups) : list node -> result string :=
  fix all l := match l with
               | [] => Ok EmptyString
               | x :: l' => let! a := eval g x in let! r := all l' in Ok (a ++ r)%string
               end.

Definition find (depth : nat) (body s : string) : option (string * string) :=
  find_matching_endif (String.length s) depth body s.

Lemma find_unfold depth body s :
  find depth body s =
    match scan s with
    | NoBrace | OpenBrace _ => None
    | Directive l d a =>
        let passed := (body ++ l ++ "{" ++ d ++ "}")%string in
        if starts_with "if:" d then find (S depth) passed a
        else if bool_decide (d = "/if") then
          match depth with S (S d) => find (S d) passed a | _ => Some ((body ++ l)%string, a) end
        else find depth passed a
    end.
Proof.
  unfold find. rewrite (find_fuel _ (S (String.length s))) by lia. cbn [find_matching_endif].
  destruct (scan s) as [|l|l d a] eqn:E; [done|done|]. apply scan_length in E. cbn zeta.
  destruct (starts_with "if:" d); [by apply find_fuel; lia|].
  case_bool_decide; [|by apply find_fuel; lia]. destruct depth as [|[|?]]; [done|done|by apply find_fuel; lia].
Qed.

Lemma find_literal depth body l s :
  has_char "{"%char l = false -> find depth body (l ++ s) = find depth (body ++ l) s.
Proof.
  intros Hl. rewrite (find_unfold depth body), (find_unfold depth (body ++ l)%string), scan_literal by done.
  destruct (scan s) as [|x|x d a]; [done|done|]. cbn zeta. by rewrite !s_app_assoc.
Qed.

Definition find_skips (t : string) : Prop :=
  forall depth body s, find (S depth) body (t ++ s) = find (S depth) (body ++ t) s.

Lemma find_skips_all l : Forall (fun n => find_skips (show n)) l -> find_skips (s_concat (map show l)).
Proof.
  induction 1 as [|n l Hn _ IH]; intros depth body s; cbn; [by rewrite s_app_nil_r|].
  by rewrite <-s_app_assoc, Hn, IH, s_app_assoc.
Qed.

Lemma scan_if c t : has_char "}"%char c = false ->
  scan ("{" ++ "if:" ++ c ++ "}" ++ t) = Directive EmptyString ("if:" ++ c) t.
Proof. exact (scan_directive ("if:" ++ c) t). Qed.

Lemma scan_endif t : scan ("{" ++ "/if" ++ "}" ++ t) = Directive EmptyString "/if" t.
Proof. by apply scan_directive. Qed.

Lemma starts_with_if c : starts_with "if:" ("if:" ++ c) = true.
Proof. by destruct c. Qed.

Lemma forallb_wf b x : forallb wf b -> x ∈ b -> wf x.
Proof. intros H Hx. apply Is_true_true in H. rewrite forallb_forall in H. apply Is_true_true, H. by apply list_elem_of_In. Qed.

Lemma find_show n : wf n -> find_skips (show n).
Proof.
  induction n as [t|t|c b IH] using node_ind'; cbn [wf show]; intros Hwf.
  - intros depth body s. apply find_literal. by destruct (has_char _ t).
  - intros depth body s. destruct (has_char "}"%char t) eqn:E; [done|].
    rewrite <-!s_app_assoc, find_unfold, scan_directive by done. cbn zeta.
    destruct (starts_with "if:" t); [done|]. case_bool_decide; [done|]. by cbn.
  - destruct (has_char "}"%char c) eqn:E; [done|]. cbn in Hwf. intros depth body s.
    assert (Hb : find_skips (s_concat (map show b))).
    { apply find_skips_all. rewrite Forall_forall in IH |- *. intros x Hx. apply IH; [done|].
      by apply (forallb_wf b). }
    rewrite <-!s_app_assoc, find_unfold, (scan_if c) by done. cbn zeta.
    rewrite starts_with_if. rewrite Hb, find_unfold, scan_endif. cbn zeta.
    change (starts_with "if:" "/if") with false. rewrite bool_decide_true by done. cbn iota.
    rewrite <-!s_app_assoc. reflexivity.
Qed.

(** Rendering with the fuel the code's loop needs. *)
Definition rendered (tracing : bool) (g : groups) (pos : nat) (s : string) : result string :=
  outcome (render_segment tracing g (S (String.length s)) pos s).

Lemma rendered_fuel tracing g f pos s :
  (String.length s < f)%nat -> rendered tracing g pos s = outcome (render_segment tracing g f pos s).
Proof. intros H. unfold rendered. f_equal. apply render_fuel; lia. Qed.

Lemma rendered_unfold tracing g pos s :
  rendered tracing g pos s =
    match scan s with
    | NoBrace => Ok s
    | OpenBrace l => Raise (Unclosed (pos + String.length l))
    | Directive l d a =>
        let next := (pos + String.length l + String.length d + 2)%nat in
        if starts_with "if:" d then
          match find 1 EmptyString a with
          | None => Raise NoMatchingEndif
          | Some (b, r) =>
              let! o := if (evaluate_condition (default EmptyString (drop_prefix "if:" d)) g).1
                        then rendered tracing g 0 b else Ok EmptyString in
              let! o' := rendered tracing g (next + String.length b + 5) r in
              Ok (l ++ o ++ o')%string
          end
        else if bool_decide (d = "/if") then Raise UnmatchedEndif
        else let! '(o, _) := render_placeholder d g in
             let! o' := rendered tracing g next a in
             Ok (l ++ o ++ o')%string
    end.
Proof.
  unfold rendered at 1. cbn [render_segment]. destruct (scan s) as [|l|l d a] eqn:E; [done|done|].
  apply scan_length in E. cbn zeta. unfold find. destruct (starts_with "if:" d).
  - destruct (find_matching_endif _ _ _ a) as [[b r]|] eqn:Ef; [|done]. apply find_shorter in Ef. cbn in Ef.
    rewrite (rendered_fuel tracing g (String.length s) 0 b) by lia.
    rewrite (rendered_fuel tracing g (String.length s) _ r) by lia.
    destruct (evaluate_condition _ g) as [[] [kind value]]; cbn [fst].
    + destruct (render_segment tracing g _ 0 b) as [[? ?]|]; [|done]. cbn [rbind outcome].
      by destruct (render_segment tracing g _ _ r) as [[? ?]|].
    + cbn [rbind]. by destruct (render_segment tracing g _ _ r) as [[? ?]|].
  - case_bool_decide; [done|]. destruct (render_placeholder d g) as [[po e]|]; [|done]. cbn [rbind].
    rewrite (rendered_fuel tracing g (String.length s) _ a) by lia.
    by destruct (render_segment tracing g _ _ a) as [[? ?]|].
Qed.

(** A piece of text renders to [r] whatever follows it. *)
Definition renders (tracing : bool) (g : groups) (t : string) (r : result string) : Prop :=
  forall pos s, exists pos',
    rendered tracing g pos (t ++ s) =
      (let! a := r in let! o := rendered tracing g pos' s in Ok (a ++ o)%string).

Lemma renders_literal tracing g l : has_char "{"%char l = false -> renders tracing g l (Ok l).
Proof.
  intros Hl pos s. exists (pos + String.length l)%nat. cbn [rbind].
  rewrite rendered_unfold, (rendered_unfold _ _ _ s), scan_literal by done.
  destruct (scan s) as [|x|x d a]; [done|by rewrite s_length_app, Nat.add_assoc|]. cbn zeta.
  rewrite s_length_app, (Nat.add_assoc pos).
  destruct (starts_with "if:" d).
  - destruct (find 1 _ a) as [[b r]|]; [|done].
    destruct (if (evaluate_condition _ g).1 then _ else _) as [o|]; [|done]. cbn [rbind].
    destruct (rendered tracing g _ r) as [o'|]; [|done]. cbn [rbind]. by rewrite !s_app_assoc.
  - case_bool_decide; [done|]. destruct (render_placeholder d g) as [[o e]|]; [|done]. cbn [rbind].
    destruct (rendered tracing g _ a) as [o'|]; [|done]. cbn [rbind]. by rewrite !s_app_assoc.
Qed.

Lemma renders_hole tracing g d : wf (Hole d) -> renders tracing g (show (Hole d)) (eval g (Hole d)).
Proof.
  cbn. intros Hwf pos s. destruct (has_char "}"%char d) eqn:E; [done|].
  destruct (starts_with "if:" d) eqn:Ei; [done|]. destruct (decide (d = "/if")) as [->|Hd]; [done|].
  eexists. rewrite <-!s_app_assoc, rendered_unfold, scan_directive by done. cbn zeta.
  rewrite Ei, bool_decide_false by done. destruct (render_placeholder d g) as [[o e]|]; cbn [rbind]; [|done].
  cbn [String.append]. reflexivity.
Qed.

Lemma renders_all tracing g l :
  Forall (fun n => renders tracing g (show n) (eval g n)) l ->
  renders tracing g (s_concat (map show l)) (eval_all g l).
Proof.
  induction 1 as [|n l Hn _ IH]; intros pos s; cbn [map s_concat eval_all].
  - exists pos. change (EmptyString ++ s)%string with s. by destruct (rendered tracing g pos s).
  - rewrite <-s_app_assoc. destruct (Hn pos (s_concat (map show l) ++ s)%string) as [p1 ->].
    destruct (IH p1 s) as [p2 ->]. exists p2. fold (eval_all g l). destruct (eval g n) as [a|]; [|done]. cbn [rbind].
    destruct (eval_all g l) as [r|]; [|done]. cbn [rbind].
    destruct (rendered tracing g p2 s) as [o|]; [|done]. cbn [rbind]. by rewrite s_app_assoc.
Qed.

Lemma renders_exact tracing g t r pos : renders tracing g t r -> rendered tracing g pos t = r.
Proof.
  intros H. destruct (H pos EmptyString) as [p Hp]. rewrite s_app_nil_r in Hp. rewrite Hp.
  destruct r as [a|]; [|done]. rewrite rendered_unfold. cbn. by rewrite s_app_nil_r.
Qed.

Lemma renders_show tracing g n : wf n -> renders tracing g (show n) (eval g n).
Proof.
  induction n as [t|t|c b IH] using node_ind'; [| |]; intros Hwf.
  - cbn [wf] in Hwf. apply renders_literal. cbn [show]. by destruct (has_char _ t).
  - by apply renders_hole.
  - cbn [wf] in Hwf. destruct (has_char "}"%char c) eqn:E; [done|]. cbn in Hwf.
    assert (Hb : renders tracing g (s_concat (map show b)) (eval_all g b)).
    { apply renders_all. rewrite Forall_forall in IH |- *. intros x Hx. apply IH; [done|].
      by apply (forallb_wf b). }
    assert (Hf : find_skips (s_concat (map show b))).
    { apply find_skips_all, Forall_forall. intros x Hx. apply find_show. by apply (forallb_wf b). }
    intros pos s. eexists. cbn [show]. rewrite <-!s_app_assoc, rendered_unfold, (scan_if c) by done.
    cbn zeta. rewrite starts_with_if, Hf, find_unfold, scan_endif. cbn zeta.
    change (starts_with "if:" "/if") with false. rewrite bool_decide_true by done. cbn iota.
    rewrite (proj2 (drop_prefix_Some "if:" ("if:" ++ c) c)) by done. cbn [default]. unfold id.
    rewrite !s_app_nil_r. change (EmptyString ++ s_concat (map show b))%string with (s_concat (map show b)).
    rewrite (renders_exact _ _ _ _ 0 Hb). cbn [eval]. fold (eval_all g b).
    destruct (if (evaluate_condition c g).1 then eval_all g b else _) as [o|]; reflexivity.
Qed.

(** C36: a template means what its tree says.  The text of any tree of literals,
    placeholders and nested conditionals, within the length cap, renders to the pieces'
    values put together from left to right, each conditional standing for its body exactly
    when its condition holds in the bounded groups, and fails with the first error of a
    piece it looks at; scanning and matching of [{/if}] add nothing and lose nothing. *)
Theorem template_meaning l g :
  Forall (fun n => Is_true (wf n)) l -> (String.length (s_concat (map show l)) <= MAX_TEMPLATE_LEN)%nat ->
  render (Some (s_concat (map show l))) g = eval_all (bounded_groups g) l.
Proof.
  intros Hwf Hlen. unfold render, render_both.
  destruct (MAX_TEMPLATE_LEN <? String.length (s_concat (map show l)))%nat eqn:E; to_prop; [lia|].
  apply (renders_exact false _ _ _ 0), renders_all, (Forall_impl _ _ _ Hwf). intros n. apply renders_show.
Qed.

(** ** Bounds *)

Lemma truncate_length v : (String.length (truncate v) <= MAX_INPUT_LEN)%nat.
Proof.
  unfold truncate. destruct (MAX_INPUT_LEN <? String.length v)%nat eqn:E; to_prop; [|done].
  rewrite s_take_length. lia.
Qed.

Definition bounded (g : groups) : Prop := forall name, (String.length (group g name) <= MAX_INPUT_LEN)%nat.

Lemma bounded_groups_bounded g : bounded (bounded_groups g).
Proof.
  intros name. unfold group. induction g as [|[k v] g IH]; cbn; [lia|].
  case_bool_decide; [apply truncate_length|apply IH].
Qed.

Lemma placeholder_length d g o e :
  bounded g -> render_placeholder d g = Ok (o, e) -> (String.length o <= MAX_INPUT_LEN)%nat.
Proof.
  intros Hg. unfold render_placeholder. destruct (split_pipes d) as [head pipes].
  destruct (if d_mem (strip head) g then None else drop_suffix "_normalize" (strip head)) as [base|].
  - intros [= <- _]. unfold legacy_normalize, lower. etransitivity; [apply s_filter_length|].
    rewrite s_map_length. apply Hg.
  - destruct (run_pipes _ pipes) as [[v steps]|]; [|done]. intros [= <- _]. apply truncate_length.
Qed.

Lemma segment_length tracing g f pos s o t :
  bounded g -> render_segment tracing g f pos s = Ok (o, t) -> (String.length o <= 512 * String.length s)%nat.
Proof.
  intros Hg. revert pos s o t. induction f as [|f IH]; intros pos s o t; cbn [render_segment]; [done|].
  destruct (scan s) as [|l|l d a] eqn:E; [intros [= <- _]; lia|done|]. apply scan_length in E.
  destruct (starts_with "if:" d).
  - destruct (find_matching_endif _ _ _ a) as [[b r]|] eqn:Ef; [|done]. apply find_shorter in Ef. cbn in Ef.
    destruct (evaluate_condition _ g) as [taken [kind value]].
    destruct (if taken then render_segment tracing g f 0 b else _) as [[bo bt]|] eqn:Eb; [|done]. cbn [rbind].
    destruct (render_segment tracing g f _ r) as [[o' t']|] eqn:Er; [|done]. cbn [rbind].
    intros [= <- _]. apply IH in Er. rewrite !s_length_app.
    assert (String.length bo <= 512 * String.length b)%nat; [|lia].
    destruct taken; [by apply IH in Eb|injection Eb as <- _; cbn; lia].
  - case_bool_decide; [done|]. destruct (render_placeholder d g) as [[po e]|] eqn:Ep; [|done]. cbn [rbind].
    destruct (render_segment tracing g f _ a) as [[o' t']|] eqn:Er; [|done]. cbn [rbind].
    intros [= <- _]. apply IH in Er. apply placeholder_length in Ep; [|done]. unfold MAX_INPUT_LEN in Ep.
    rewrite !s_length_app. lia.
Qed.

(** A rendered text is bounded: at most 512 characters for each character of the
    template, and so never more than two mebichars, whatever the groups and the pipes. *)
Theorem render_bounded template g out :
  render template g = Ok out ->
  (String.length out <= 512 * String.length (default EmptyString template))%nat /\
  (Z.of_nat (String.length out) <= 2 * 1024 * 1024)%Z.
Proof.
  unfold render, render_both. destruct template as [t|]; cbn [default]; [|by intros [= <-]].
  destruct (MAX_TEMPLATE_LEN <? String.length t)%nat eqn:E; to_prop; [done|].
  destruct (render_segment false _ _ 0 t) as [[o tr]|] eqn:Er; [|done]. intros [= <-].
  apply segment_length in Er; [|apply bounded_groups_bounded]. unfold id. split; [done|].
  assert (Z.of_nat (String.length t) <= 4096)%Z by (apply (inj_le _ 4096%nat); exact E). lia.
Qed.

Fixpoint s_repeat (n : nat) (c : Ascii.ascii) : string :=
  match n with O => EmptyString | S n' => String c (s_repeat n' c) end.

Lemma replace_doubles f n : (n <= f)%nat ->
  replace_from f "a" "aa" (s_repeat n "a"%char) = s_repeat (n + n) "a"%char.
Proof.
  revert n. induction f as [|f IH]; intros [|n] Hn; [done|lia|done|].
  replace (S n + S n)%nat with (S (S (n + n))) by lia.
  change (("aa" ++ replace_from f "a" "aa" (s_repeat n "a"%char))%string =
    String "a" (String "a" (s_repeat (n + n) "a"%char))).
  by rewrite IH by lia.
Qed.

Lemma s_repeat_length n c : String.length (s_repeat n c) = n.
Proof. induction n as [|n IH]; cbn; by rewrite ?IH. Qed.

Lemma run_pipes_doubling v l :
  run_pipes v ("replace:a:aa" :: l) =
    (let out := t_replace v (Some "a:aa"%string) in
     let! '(final, steps) := run_pipes out l in
     Ok (final, {| transform := "replace"; step_arg := Some "a:aa"%string; step_input := v;
                   step_output := out |} :: steps)).
Proof. reflexivity. Qed.

(** The values between the pipes of a placeholder have no such bound: the cut comes
    after the last pipe, so each [replace:a:aa] doubles the value and [k] of them make it
    [2 ^ k] characters long. *)
Theorem pipes_double k :
  exists steps, run_pipes "a" (repeat "replace:a:aa" k) = Ok (s_repeat (2 ^ k) "a"%char, steps).
Proof.
  cut (forall n, exists steps, run_pipes (s_repeat n "a"%char) (repeat "replace:a:aa" k) =
    Ok (s_repeat (n * 2 ^ k) "a"%char, steps)).
  { intros H. destruct (H 1%nat) as [steps Hs]. exists steps. by rewrite Nat.mul_1_l in Hs. }
  induction k as [|k IH]; intros n; [rewrite Nat.mul_1_r; by eexists|].
  destruct (IH (n + n)%nat) as [steps Hs].
  cbn [repeat]. rewrite run_pipes_doubling. cbn zeta.
  change (t_replace (s_repeat n "a"%char) (Some "a:aa"%string)) with
    (replace_from (String.length (s_repeat n "a"%char)) "a" "aa" (s_repeat n "a"%char)).
  rewrite replace_doubles by by rewrite s_repeat_length. rewrite Hs. cbn [rbind].
  replace (n * 2 ^ S k)%nat with ((n + n) * 2 ^ k)%nat by (rewrite Nat.pow_succ_r'; lia). by eexists.
Qed.

End engine.
(** ** Concrete renders *)

(** A search for a plain substring stands for the pattern engine. *)
Fixpoint substring_of (pattern s : string) : bool :=
  starts_with pattern s || match s with EmptyString => false | String _ s' => substring_of pattern s' end.
Definition sample_groups : dict_of pyval :=
  [("sport", PStr "Hockey"); ("home", PStr " leafs "); ("week", PInt 7)].
Definition sample_tree : list node :=
  [Lit "Week "; Hole "week"; Cond "sport~ock" [Lit ": "; Hole "home|trim|titlecase"; Cond "away" [Hole "away"]];
   Cond "sport=Golf" [Hole "home|nonsense"]].

Example sample_render :
  render (fun _ => true) substring_of (Some (s_concat (map show sample_tree))) sample_groups =
    Ok "Week 7: Leafs"%string.
Proof. vm_compute. reflexivity. Qed.

Example sample_errors :
  render (fun _ => true) substring_of (Some "a{if:x}b{/if"%string) [] = Raise NoMatchingEndif /\
  render (fun _ => true) substring_of (Some "{x}{/if}"%string) [] = Raise UnmatchedEndif /\
  render (fun _ => true) substring_of (Some "ab{x"%string) [] = Raise (Unclosed 2) /\
  render (fun _ => true) substring_of (Some "{x|shout}"%string) [] = Raise (UnknownTransform "shout").
Proof. vm_compute. repeat split. Qed.

Lemma template_meaning_witness :
  render (fun _ => true) substring_of (Some (s_concat (map show sample_tree))) sample_groups =
    eval_all (fun _ => true) substring_of (bounded_groups sample_groups) sample_tree.
Proof.
  apply template_meaning; [|apply Nat.leb_le; vm_compute; reflexivity].
  repeat constructor.
Defined.

Lemma trace_accounts_witness :
  exists out entries,
    render_with_trace (fun _ => true) substring_of (Some (s_concat (map show sample_tree))) sample_groups =
      Ok (out, entries) /\
    render (fun _ => true) substring_of (Some (s_concat (map show sample_tree))) sample_groups = Ok out /\
    length entries = 4%nat.
Proof.
  eexists _, _. split; [vm_compute; reflexivity|]. split; [|reflexivity].
  eapply trace_accounts. vm_compute. reflexivity.
Defined.

Lemma render_bounded_witness :
  (String.length "Week 7: Leafs" <=
   512 * String.length (default EmptyString (Some (s_concat (map show sample_tree)))))%nat /\
  (Z.of_nat (String.length "Week 7: Leafs") <= 2 * 1024 * 1024)%Z.
Proof.
  apply (render_bounded (fun _ => true) substring_of _ sample_groups). vm_compute. reflexivity.
Defined.

Lemma render_total_witness :
  render_both (fun _ => true) substring_of true (Some "{x}"%string) sample_groups =
    render_segment (fun _ => true) substring_of true (bounded_groups sample_groups) 9 0 "{x}".
Proof.
  apply (proj2 (render_total (fun _ => true) substring_of true (Some "{x}"%string) sample_groups));
    [reflexivity|apply Nat.ltb_lt; reflexivity|apply Nat.leb_le; reflexivity].
Defined.

End TemplateEngine.
