(* ===== verification/AlertDigest.v ===== *)
(** * Alert messages and filters ([backend/alert_methods.py]).

    Messages, their text, the digest of several of them, the validation of a method's
    configuration, the registry and the filter by source.  Strings are bytes (the emojis
    are their UTF-8), and a JSON column is what [json.loads] makes of it. *)
From Stdlib Require Import SpecFloat.
From S2P Require Import Prelude PyFloat PyValue PyDict PyText PyDatetime.
Open Scope Z_scope.

Module AlertDigest.

Inductive error :=
| MissingMethodType
| AttributeError
| TypeError
| OverflowError.
Abbreviation result := (result error).

(** [AlertMessage] *)
Record alert := {
  title : string;
  message : string;
  notification_type : string;
  source : option string;
  metadata : dict_of pyval;
  timestamp : Z;
}.

Definition newline : string := String (Ascii.ascii_of_nat 10) EmptyString.

Definition text_or_empty (s : option string) : string := default EmptyString s.

(** [AlertMethod.format_message] *)
Definition format_message (m : alert) : string :=
  String.concat newline
    ((if bool_decide (title m = EmptyString) then [] else ["**" ++ title m ++ "**"])%string ++
     [message m] ++
     (if bool_decide (text_or_empty (source m) = EmptyString) then []
      else ["Source: " ++ text_or_empty (source m)])%string).

(** [AlertMethod.get_emoji] *)
Definition get_emoji (type : string) : string :=
  default "📢"
    (d_get type [("info", "ℹ️"); ("success", "✅"); ("warning", "⚠️"); ("error", "❌")]).

(** ** The digest *)

Definition count_type (counts : dict_of Z) (m : alert) : dict_of Z :=
  d_set (notification_type m) (default 0 (d_get (notification_type m) counts) + 1) counts.
Definition type_counts (messages : list alert) : dict_of Z :=
  fold_left count_type messages [("success", 0); ("error", 0); ("warning", 0); ("info", 0)].
Definition count_of (type : string) (counts : dict_of Z) : Z := default 0 (d_get type counts).

Definition overall_type (counts : dict_of Z) : string :=
  if 0 <? count_of "error" counts then "error"
  else if 0 <? count_of "warning" counts then "warning"
  else if 0 <? count_of "success" counts then "success"
  else "info".

Definition summary_part (counts : dict_of Z) (type label : string) : list string :=
  let n := count_of type counts in
  if n =? 0 then [] else [(str_of_Z n ++ " " ++ label)%string].
Definition summary (counts : dict_of Z) : list string :=
  summary_part counts "success" "succeeded" ++ summary_part counts "error" "failed" ++
  summary_part counts "warning" "warnings" ++ summary_part counts "info" "info".

Definition digest_line (m : alert) : string :=
  (get_emoji (notification_type m) ++ " " ++ title m ++ ": " ++ message m)%string.

(** [AlertMethod._build_digest], made at [now]. *)
Definition build_digest (now : Z) (messages : list alert) : alert :=
  let counts := type_counts messages in
  {| title := "ECM Digest (" ++ String.concat ", " (summary counts) ++ ")";
     message := String.concat newline (map digest_line messages);
     notification_type := overall_type counts;
     source := Some "ECM Digest"%string;
     metadata := [("message_count", PInt (Z.of_nat (length messages)));
                  ("counts", PDict (map (fun x => (x.1, PInt x.2)) counts))];
     timestamp := now |}.

(** [AlertMethod.send_digest]: what is given to [send], if anything is. *)
Definition digest_message (now : Z) (messages : list alert) : option alert :=
  match messages with
  | [] => None
  | [m] => Some m
  | _ => Some (build_digest now messages)
  end.

(** ** Methods and their registry *)

Record method_class := {
  method_type : string;
  display_name : string;
  required_config_fields : list string;
  optional_config_fields : dict_of pyval;
}.

(** [AlertMethod.validate_config]: the fields missing or empty, [[]] for a valid one. *)
Definition missing_fields (cls : method_class) (config : dict_of pyval) : list string :=
  List.filter (fun f => match d_get f config with Some v => negb (truthy v) | None => true end)
    (required_config_fields cls).
Definition validate_config (cls : method_class) (config : dict_of pyval) : bool * string :=
  match missing_fields cls config with
  | [] => (true, EmptyString)
  | missing => (false, ("Missing required fields: " ++ String.concat ", " missing)%string)
  end.

Definition registry : Type := dict_of method_class.
Definition register_method (r : registry) (cls : method_class) : result registry :=
  if bool_decide (method_type cls = EmptyString) then Raise MissingMethodType
  else Ok (d_set (method_type cls) cls r).

Record method := { class : method_class; method_id : Z; name : string; config : pyval }.
Definition create_method (r : registry) (type : string) (id : Z) (name : string) (config : pyval)
    : option method :=
  match d_get type r with
  | None => None
  | Some cls => Some {| class := cls; method_id := id; name := name; config := config |}
  end.

(** ** Filtering by source *)

(** A text column holding JSON: null or empty, not JSON, or the value it reads as. *)
Inductive column := Null | Invalid | Parsed (v : pyval).

(** [v.get(key, default)] *)
Definition py_get (v : pyval) (key : string) (dflt : pyval) : result pyval :=
  match v with PDict d => Ok (default dflt (d_get key d)) | _ => Raise AttributeError end.

(** [id in v], for an [int]. *)
Definition int_in (id : Z) (v : pyval) : result bool :=
  match v with
  | PList l => Ok (existsb (fun x => py_eq_int x id) l)
  | PDict _ => Ok false
  | _ => Raise TypeError
  end.

(** [n >= v], for an [int]: exact against a float. *)
Definition int_ge (n : Z) (v : pyval) : result bool :=
  match v with
  | PInt z => Ok (z <=? n)
  | PBool b => Ok (Z.b2z b <=? n)
  | PFloat f =>
      Ok match f with
         | S754_nan => false
         | S754_infinity s => s
         | _ => if Float.is_integer f || Float.ltb f (Float.of_Z 0) then Float.trunc f <=? n
                else Float.trunc f <? n
         end
  | _ => Raise TypeError
  end.

Definition has_entity (entity : option Z) : option Z :=
  match entity with Some id => if id =? 0 then None else Some id | None => None end.

(** The filter of one kind of refresh: mode [all], [only_selected] or [all_except], any
    other mode passing. *)
Definition selected (category ids_key : string) (sources : pyval) (entity : option Z) : result bool :=
  let! config := py_get sources category (PDict []) in
  let! enabled := py_get config "enabled" (PBool true) in
  if negb (truthy enabled) then Ok false
  else
    let! mode := py_get config "filter_mode" (PStr "all") in
    let! ids := py_get config ids_key (PList []) in
    match mode with
    | PStr "all" => Ok true
    | PStr "only_selected" =>
        match has_entity entity with Some id => int_in id ids | None => Ok false end
    | PStr "all_except" =>
        match has_entity entity with
        | Some id => let! b := int_in id ids in Ok (negb b)
        | None => Ok true
        end
    | _ => Ok true
    end.

Definition enough_failures (sources : pyval) (failed_count : Z) : result bool :=
  let! config := py_get sources "probe_failures" (PDict []) in
  let! enabled := py_get config "enabled" (PBool true) in
  if negb (truthy enabled) then Ok false
  else
    let! min_failures := py_get config "min_failures" (PInt 1) in
    if failed_count =? 0 then Ok true else int_ge failed_count min_failures.

(** [_should_alert_for_source] *)
Definition should_alert_for_source (alert_sources : column) (category : option string)
    (entity : option Z) (failed_count : Z) : result bool :=
  match alert_sources with
  | Null | Invalid => Ok true
  | Parsed sources =>
      match text_or_empty category with
      | "" => Ok true
      | "epg_refresh" => selected "epg_refresh" "source_ids" sources entity
      | "m3u_refresh" => selected "m3u_refresh" "account_ids" sources entity
      | "probe_failures" => enough_failures sources failed_count
      | _ => Ok true
      end%string
  end.

(** [_coerce_failure_count]: only an infinite float escapes. *)
Definition coerce_failure_count (metadata : dict_of pyval) (key : string) : result Z :=
  match default PNone (d_get key metadata) with
  | PInt z => Ok z
  | PBool b => Ok (Z.b2z b)
  | PFloat f => match f with S754_infinity _ => Raise OverflowError | _ => Ok (Float.trunc f) end
  | PStr s => Ok (default 0 (py_int s))
  | _ => Ok 0
  end.
Definition failed_count (metadata : dict_of pyval) : result Z :=
  if d_mem "failed_count" metadata then coerce_failure_count metadata "failed_count"
  else if d_mem "streams_failed" metadata then coerce_failure_count metadata "streams_failed"
  else Ok 0.

(** ** The digest accounts for its messages *)

Definition of_type (type : string) (m : alert) : bool := bool_decide (notification_type m = type).
Definition total (counts : dict_of Z) : Z := fold_right Z.add 0 (map snd counts).

Lemma count_of_set type t n counts :
  count_of type (d_set t n counts) = if bool_decide (t = type) then n else count_of type counts.
Proof. unfold count_of. rewrite d_get_set. by case_bool_decide. Qed.

Lemma total_set t n counts : NoDup (keys counts) ->
  total (d_set t n counts) = total counts - count_of t counts + n.
Proof.
  unfold total, count_of. induction counts as [|[k v] counts IH]; cbn; [lia|].
  intros [Hn Hnd]%NoDup_cons. case_bool_decide as Hk; cbn; [lia|]. rewrite IH by done. lia.
Qed.

Lemma counts_fold messages counts : NoDup (keys counts) ->
  let c := fold_left count_type messages counts in
  NoDup (keys c) /\ total c = total counts + Z.of_nat (length messages) /\
  forall type, count_of type c = count_of type counts + Z.of_nat (length (List.filter (of_type type) messages)).
Proof.
  revert counts. induction messages as [|m ms IH]; intros counts Hnd.
  { cbn zeta. cbn [fold_left List.filter length]. split_and!; [done|lia|intros; lia]. }
  cbn zeta. cbn [fold_left]. destruct (IH (count_type counts m)) as (H1 & H2 & H3); [by apply keys_NoDup_set|].
  split; [exact H1|]. split.
  - rewrite H2. unfold count_type. rewrite total_set by done. fold (count_of (notification_type m) counts).
    cbn [length]. lia.
  - intros type. rewrite H3. unfold count_type. rewrite count_of_set. fold (count_of (notification_type m) counts).
    cbn [List.filter]. unfold of_type at 2. case_bool_decide as Ht; [subst; cbn [length]; lia|done].
Qed.

Lemma counts_spec messages :
  total (type_counts messages) = Z.of_nat (length messages) /\
  forall type, count_of type (type_counts messages) = Z.of_nat (length (List.filter (of_type type) messages)).
Proof.
  destruct (counts_fold messages [("success", 0); ("error", 0); ("warning", 0); ("info", 0)]) as (_ & Ht & Hc);
    [apply (bool_decide_unpack _); vm_compute; exact I|].
  split; [unfold type_counts; rewrite Ht; reflexivity|]. intros type. unfold type_counts. rewrite Hc.
  assert (H0 : count_of type [("success", 0); ("error", 0); ("warning", 0); ("info", 0)] = 0)
    by (unfold count_of; cbn; by repeat case_bool_decide). lia.
Qed.

Lemma filter_existsb {A} (f : A -> bool) l : (0 <? Z.of_nat (length (List.filter f l))) = existsb f l.
Proof. induction l as [|x l IH]; [done|]. cbn. by destruct (f x); cbn. Qed.

(** A digest accounts for its messages.  Its counts are, for every type, the number of
    messages of the type, and add up to the number of messages, which its metadata names;
    its type is the gravest among them; its body has one line per message, in order. *)
Theorem digest_accounts now messages :
  let d := build_digest now messages in
  let counts := type_counts messages in
  d_get "counts" (metadata d) = Some (PDict (map (fun x => (x.1, PInt x.2)) counts)) /\
  d_get "message_count" (metadata d) = Some (PInt (total counts)) /\
  total counts = Z.of_nat (length messages) /\
  (forall type, count_of type counts = Z.of_nat (length (List.filter (of_type type) messages))) /\
  notification_type d =
    default "info"%string (List.find (fun t => existsb (of_type t) messages) ["error"; "warning"; "success"]%string) /\
  message d = String.concat newline (map digest_line messages).
Proof.
  cbn zeta. destruct (counts_spec messages) as [Ht Hc].
  split; [done|]. split; [by rewrite Ht|]. split; [done|]. split; [done|]. split; [|done].
  cbn [notification_type build_digest]. unfold overall_type. rewrite !Hc, !filter_existsb. cbn [List.find].
  by destruct (existsb (of_type "error") messages), (existsb (of_type "warning") messages),
    (existsb (of_type "success") messages).
Qed.

(** ** The source filter on well-formed settings *)

Inductive filter_mode := All | OnlySelected | AllExcept.
Definition mode_text (m : filter_mode) : string :=
  match m with All => "all" | OnlySelected => "only_selected" | AllExcept => "all_except" end.
Definition filter_settings (ids_key : string) (on : bool) (m : filter_mode) (ids : list Z) : pyval :=
  PDict [("enabled", PBool on); ("filter_mode", PStr (mode_text m)); (ids_key, PList (map PInt ids))].

Lemma int_in_ids id ids : int_in id (PList (map PInt ids)) = Ok (bool_decide (id ∈ ids)).
Proof.
  cbn. f_equal. induction ids as [|x ids IH]; cbn; [by rewrite bool_decide_false by apply not_elem_of_nil|].
  rewrite IH. destruct (Z.eqb_spec x id) as [->|Hne]; cbn.
  - by rewrite bool_decide_true by by left.
  - apply bool_decide_ext. rewrite elem_of_cons. naive_solver.
Qed.

(** What a refresh filter decides: a disabled one nothing; [only_selected] and [all_except]
    are each other's opposite for a named source, and for an unnamed one ([None] or [0])
    the first takes nothing and the second everything. *)
Lemma refresh_filter on m ids entity n :
  should_alert_for_source (Parsed (PDict [("epg_refresh", filter_settings "source_ids" on m ids)]))
    (Some "epg_refresh"%string) entity n =
  Ok (on && match m, has_entity entity with
            | All, _ => true
            | OnlySelected, Some id => bool_decide (id ∈ ids)
            | OnlySelected, None => false
            | AllExcept, Some id => negb (bool_decide (id ∈ ids))
            | AllExcept, None => true
            end).
Proof.
  transitivity (if on then
      match m, has_entity entity with
      | All, _ => Ok true
      | OnlySelected, Some id => int_in id (PList (map PInt ids))
      | OnlySelected, None => Ok false
      | AllExcept, Some id => let! b := int_in id (PList (map PInt ids)) in Ok (negb b)
      | AllExcept, None => Ok true
      end else Ok false).
  { by destruct on, m. }
  destruct on, m, (has_entity entity) as [id|]; rewrite ?int_in_ids; done.
Qed.

Example filter_errors :
  should_alert_for_source (Parsed (PDict [("epg_refresh", PNone)])) (Some "epg_refresh"%string) None 0 =
    Raise AttributeError /\
  should_alert_for_source (Parsed (PDict [("probe_failures", PDict [("min_failures", PNone)])]))
    (Some "probe_failures"%string) None 3 = Raise TypeError /\
  should_alert_for_source (Parsed (PDict [])) (Some "probe_failures"%string) None 3 = Ok true.
Proof. vm_compute. repeat split. Qed.

End AlertDigest.
