(* ===== verification/AlertManager.v ===== *)
(** * The alert manager ([backend/alert_methods.py], [AlertMethodManager]).

    Alerts are queued per method under one [asyncio.Lock] and flushed as digests by one
    task that sleeps for the digest window.  The code between two [await]s is one step;
    only a flush holds the lock across one.  Time is in seconds, the alert-method table is
    the list of its rows, and what a method's [send] does is a parameter of the step that
    ends it.  A database that is down fails every query. *)
From S2P Require Import Prelude PyValue PyDict AlertDigest.
Open Scope Z_scope.

Module AlertManager.
Import AlertDigest.

Section manager.
Context (digest_window : Z) (method_registry : registry).

(** A row of the alert-method table. *)
Record row := {
  row_name : string;
  row_type : string;
  enabled : bool;
  row_config : column;
  notify_info : bool; notify_success : bool; notify_warning : bool; notify_error : bool;
  alert_sources : column;
  last_sent_at : option Z;
}.

(** What [send_alert] is called with, the failures already counted. *)
Record request := {
  body : alert;
  alert_category : option string;
  entity_id : option Z;
  failures : Z;
  channel_settings : option (dict_of bool);
}.

(** The task the manager points at; [NoTask] when there is none or it is done. *)
Inductive task := NoTask | Sleeping (deadline : Z) | AwaitingLock | Sending.

(** A flush that holds the lock, awaiting the digest of [current]. *)
Record flush := { forced : bool; current : Z * list alert; rest : list (Z * list alert) }.

(** Who waits for the lock. *)
Inductive waiter := WSend (r : request) | WTask | WForced.

Inductive failure := BadFilter (e : error) | DatabaseDown.

Inductive event :=
| Queued (id : Z) (m : alert) (t : Z)
| SendRaised (f : failure)
| Handed (id : Z) (ms : list alert) (ok : bool)
| Skipped (id : Z) (ms : list alert)
| FlushDone
| FlushRaised
| FlushCancelled
| FlushForced.

Record world := {
  now : Z;
  db_up : bool;
  rows : list (Z * row);
  methods : list (Z * method);
  buffer : list (Z * list alert);
  flush_task : task;
  cancelling : bool;
  flushing : option flush;
  queue : list waiter;
  log : list event;
}.

Definition initial (t : Z) (rs : list (Z * row)) : world :=
  {| now := t; db_up := true; rows := rs; methods := []; buffer := []; flush_task := NoTask;
     cancelling := false; flushing := None; queue := []; log := [] |}.

(** ** Updates of one field *)

Definition set_methods (w : world) (ms : list (Z * method)) : world :=
  {| now := now w; db_up := db_up w; rows := rows w; methods := ms; buffer := buffer w;
     flush_task := flush_task w; cancelling := cancelling w; flushing := flushing w;
     queue := queue w; log := log w |}.
Definition set_rows (w : world) (rs : list (Z * row)) : world :=
  {| now := now w; db_up := db_up w; rows := rs; methods := methods w; buffer := buffer w;
     flush_task := flush_task w; cancelling := cancelling w; flushing := flushing w;
     queue := queue w; log := log w |}.
Definition set_buffer (w : world) (b : list (Z * list alert)) : world :=
  {| now := now w; db_up := db_up w; rows := rows w; methods := methods w; buffer := b;
     flush_task := flush_task w; cancelling := cancelling w; flushing := flushing w;
     queue := queue w; log := log w |}.
Definition set_task (w : world) (t : task) : world :=
  {| now := now w; db_up := db_up w; rows := rows w; methods := methods w; buffer := buffer w;
     flush_task := t; cancelling := cancelling w; flushing := flushing w;
     queue := queue w; log := log w |}.
Definition set_cancelling (w : world) (b : bool) : world :=
  {| now := now w; db_up := db_up w; rows := rows w; methods := methods w; buffer := buffer w;
     flush_task := flush_task w; cancelling := b; flushing := flushing w;
     queue := queue w; log := log w |}.
Definition set_flushing (w : world) (f : option flush) : world :=
  {| now := now w; db_up := db_up w; rows := rows w; methods := methods w; buffer := buffer w;
     flush_task := flush_task w; cancelling := cancelling w; flushing := f;
     queue := queue w; log := log w |}.
Definition set_queue (w : world) (q : list waiter) : world :=
  {| now := now w; db_up := db_up w; rows := rows w; methods := methods w; buffer := buffer w;
     flush_task := flush_task w; cancelling := cancelling w; flushing := flushing w;
     queue := q; log := log w |}.
Definition add_log (w : world) (l : list event) : world :=
  {| now := now w; db_up := db_up w; rows := rows w; methods := methods w; buffer := buffer w;
     flush_task := flush_task w; cancelling := cancelling w; flushing := flushing w;
     queue := queue w; log := log w ++ l |}.
Definition set_clock (w : world) (t : Z) (up : bool) : world :=
  {| now := t; db_up := up; rows := rows w; methods := methods w; buffer := buffer w;
     flush_task := flush_task w; cancelling := cancelling w; flushing := flushing w;
     queue := queue w; log := log w |}.

(** ** Loading methods *)

(** The configuration a row's column gives; [None] when it is not JSON. *)
Definition load_config (c : column) : option pyval :=
  match c with Null => Some (PDict []) | Invalid => None | Parsed v => Some v end.

Definition load_row (id : Z) (r : row) : option method :=
  c ← load_config (row_config r); create_method method_registry (row_type r) id (row_name r) c.

(** [load_methods]: the enabled rows that make a method; a bad row is skipped. *)
Definition load_one (ms : list (Z * method)) (x : Z * row) : list (Z * method) :=
  if enabled x.2 then
    match load_row x.1 x.2 with Some m => d_set x.1 m ms | None => ms end
  else ms.
Definition load_methods (w : world) : world :=
  if db_up w then set_methods w (fold_left load_one (rows w) []) else w.

(** [reload_method]; a configuration that is not JSON, or no database, raises and leaves
    the method as it was. *)
Definition reload_method (w : world) (id : Z) : world :=
  if negb (db_up w) then w
  else
    match d_get id (rows w) with
    | None => set_methods w (d_del id (methods w))
    | Some r =>
        if negb (enabled r) then set_methods w (d_del id (methods w))
        else match load_row id r with
             | Some m => set_methods w (d_set id m (methods w))
             | None => w
             end
    end.

(** ** Queueing an alert *)

Definition channel_key (type : string) : option string :=
  if bool_decide (type = "smtp") then Some "send_to_email"%string
  else if bool_decide (type = "discord") then Some "send_to_discord"%string
  else if bool_decide (type = "telegram") then Some "send_to_telegram"%string
  else None.

Definition channel_enabled (settings : option (dict_of bool)) (type : string) : bool :=
  match settings with
  | None => true
  | Some s => match channel_key type with Some k => default true (d_get k s) | None => true end
  end.

Definition type_enabled (r : row) (type : string) : bool :=
  default false (d_get type [("info", notify_info r); ("success", notify_success r);
                             ("warning", notify_warning r); ("error", notify_error r)]).

(** Whether the method of row [r] takes the alert; a malformed source filter raises. *)
Definition accepts (q : request) (r : row) : result bool :=
  if negb (channel_enabled (channel_settings q) (row_type r)) then Ok false
  else if negb (type_enabled r (notification_type (body q))) then Ok false
  else should_alert_for_source (alert_sources r) (alert_category q) (entity_id q) (failures q).

Definition append_alert (id : Z) (m : alert) (b : list (Z * list alert)) : list (Z * list alert) :=
  d_set id (default [] (d_get id b) ++ [m]) b.

(** The loop over the methods: the buffer, the methods queued, and what stopped it. *)
Fixpoint queue_all (up : bool) (rs : list (Z * row)) (q : request) (ms : list (Z * method))
    (b : list (Z * list alert)) (ids : list Z) : list (Z * list alert) * list Z * option failure :=
  match ms with
  | [] => (b, ids, None)
  | (id, _) :: ms' =>
      if negb up then (b, ids, Some DatabaseDown)
      else
        match d_get id rs with
        | None => queue_all up rs q ms' b ids
        | Some r =>
            match accepts q r with
            | Raise e => (b, ids, Some (BadFilter e))
            | Ok false => queue_all up rs q ms' b ids
            | Ok true => queue_all up rs q ms' (append_alert id (body q) b) (ids ++ [id])
            end
        end
  end.

(** [send_alert] once it has the lock, up to its end. *)
Definition send_locked (w : world) (q : request) : world :=
  let '(b, ids, stopped) := queue_all (db_up w) (rows w) q (methods w) (buffer w) [] in
  let w := add_log (set_buffer w b) (map (fun id => Queued id (body q) (now w)) ids) in
  match stopped with
  | Some f => add_log w [SendRaised f]
  | None =>
      match b, flush_task w with
      | _ :: _, NoTask => set_task w (Sleeping (now w + digest_window))
      | _, _ => w
      end
  end.

(** ** Flushing *)

Definition release_flush (w : world) (f : bool) : world :=
  set_flushing (if f then w else set_task w NoTask) None.

(** The loop of [_flush_buffer] up to the next digest, or to the end of the flush. *)
Fixpoint next_digest (w : world) (f : bool) (items : list (Z * list alert)) : world :=
  match items with
  | [] => release_flush (set_buffer (add_log w [FlushDone]) []) f
  | (id, ms) :: items' =>
      match ms with
      | [] => next_digest w f items'
      | _ =>
          match d_get id (methods w) with
          | None => next_digest (add_log w [Skipped id ms]) f items'
          | Some _ =>
              if negb (db_up w) then release_flush (add_log w [FlushRaised]) f
              else
                match d_get id (rows w) with
                | None => next_digest (add_log w [Skipped id ms]) f items'
                | Some _ => set_flushing w (Some {| forced := f; current := (id, ms); rest := items' |})
                end
          end
      end
  end.

(** [_flush_buffer] once it has the lock; [f] tells [flush_now] from the task. *)
Definition begin_flush (w : world) (f : bool) : world :=
  let w := if f then w else set_task w Sending in
  match buffer w with [] => release_flush w f | items => next_digest w f items end.

(** What the method's [send_digest] did. *)
Inductive answer := Sent (ok : bool) | SendError.

Definition mark_sent (rs : list (Z * row)) (id t : Z) : list (Z * row) :=
  match d_get id rs with
  | None => rs
  | Some r =>
      d_set id {| row_name := row_name r; row_type := row_type r; enabled := enabled r;
                  row_config := row_config r; notify_info := notify_info r;
                  notify_success := notify_success r; notify_warning := notify_warning r;
                  notify_error := notify_error r; alert_sources := alert_sources r;
                  last_sent_at := Some t |} rs
  end.

(** A digest's [await] ends: the result is kept, a success stamped, and the loop goes on. *)
Definition digest_ends (w : world) (f : flush) (a : answer) : world :=
  let '(id, ms) := current f in
  let stamped := match a with Sent true => db_up w && d_mem id (rows w) | _ => false end in
  let w := if stamped then set_rows w (mark_sent (rows w) id (now w)) else w in
  next_digest (add_log w [Handed id ms stamped]) (forced f) (rest f).

(** ** Steps *)

Inductive label :=
| Tick (d : Z)
| Database (up : bool)
| SetRows (rs : list (Z * row))
| LoadMethods
| ReloadMethod (id : Z)
| SendAlert (q : request)
| TimerFires
| Wake
| DigestEnds (a : answer)
| FlushNow
| DeliverCancel.

Definition is_task_waiter (x : waiter) : bool := match x with WTask => true | _ => false end.

(** The first step of a call that wants the lock: take it, or queue behind the others. *)
Definition lock_free (w : world) : bool :=
  match flushing w, queue w with None, [] => true | _, _ => false end.

Definition flush_now (w : world) : world :=
  let w := add_log (match flush_task w with NoTask => w | _ => set_cancelling w true end) [FlushForced] in
  if lock_free w then begin_flush w true else set_queue w (queue w ++ [WForced]).

(** The cancelled task gets its [CancelledError] where it awaits. *)
Definition deliver_cancel (w : world) : world :=
  let w := set_cancelling w false in
  match flush_task w with
  | NoTask => w
  | Sleeping _ => set_task w NoTask
  | AwaitingLock => set_task (set_queue w (List.filter (fun x => negb (is_task_waiter x)) (queue w))) NoTask
  | Sending => release_flush (add_log w [FlushCancelled]) false
  end.

(** The step a label makes, where it can be made. *)
Definition step (w : world) (s : label) : option world :=
  match s with
  | Tick d => if d <? 0 then None else Some (set_clock w (now w + d) (db_up w))
  | Database up => Some (set_clock w (now w) up)
  | SetRows rs => Some (set_rows w rs)
  | LoadMethods => Some (load_methods w)
  | ReloadMethod id => Some (reload_method w id)
  | SendAlert q =>
      Some (if lock_free w then send_locked w q else set_queue w (queue w ++ [WSend q]))
  | TimerFires =>
      match flush_task w with
      | Sleeping d =>
          if cancelling w || (now w <? d) then None
          else Some (if lock_free w then begin_flush w false
                     else set_task (set_queue w (queue w ++ [WTask])) AwaitingLock)
      | _ => None
      end
  | Wake =>
      match flushing w, queue w with
      | None, WSend q :: rest => Some (send_locked (set_queue w rest) q)
      | None, WForced :: rest => Some (begin_flush (set_queue w rest) true)
      | None, WTask :: rest =>
          if cancelling w then None else Some (begin_flush (set_queue w rest) false)
      | _, _ => None
      end
  | DigestEnds a =>
      match flushing w with
      | Some f => if negb (forced f) && cancelling w then None else Some (digest_ends w f a)
      | None => None
      end
  | FlushNow => Some (flush_now w)
  | DeliverCancel => if cancelling w then Some (deliver_cancel w) else None
  end.

Inductive reachable (t0 : Z) (rs0 : list (Z * row)) : world -> Prop :=
| reach_start : reachable t0 rs0 (initial t0 rs0)
| reach_step w s w' : reachable t0 rs0 w -> step w s = Some w' -> reachable t0 rs0 w'.

(** ** The log *)

Definition queued_event (id : Z) (e : event) : list alert :=
  match e with Queued i m _ => if bool_decide (i = id) then [m] else [] | _ => [] end.
Definition out_event (id : Z) (e : event) : list alert :=
  match e with Handed i ms _ | Skipped i ms => if bool_decide (i = id) then ms else [] | _ => [] end.

(** The alerts queued for a method, and those a flush has taken out, in order. *)
Definition queued (id : Z) (l : list event) : list alert := concat (map (queued_event id) l).
Definition taken (id : Z) (l : list event) : list alert := concat (map (out_event id) l).

Definition get_all (id : Z) (b : list (Z * list alert)) : list alert := default [] (d_get id b).

(** What the running flush, or the next one, still has to take. *)
Definition items (w : world) : list (Z * list alert) :=
  match flushing w with Some f => current f :: rest f | None => buffer w end.
Definition pending (id : Z) (w : world) : list alert := get_all id (items w).

(** No flush stopped before its end. *)
Definition unbroken (e : event) : Prop :=
  match e with FlushRaised | FlushCancelled => False | _ => True end.
(** Nothing raised, and no flush was forced. *)
Definition calm (e : event) : Prop :=
  match e with SendRaised _ | FlushRaised | FlushForced => False | _ => True end.

(** When the alerts of the buffer were queued. *)
Definition note_time (l : list Z) (e : event) : list Z :=
  match e with Queued _ _ t => l ++ [t] | FlushDone => [] | _ => l end.
Definition pending_times (l : list event) : list Z := fold_left note_time l [].

Definition skips (l : list (Z * list alert)) : list event := map (fun x => Skipped x.1 x.2) l.

Lemma queued_app id l1 l2 : queued id (l1 ++ l2) = queued id l1 ++ queued id l2.
Proof. unfold queued. by rewrite map_app, concat_app. Qed.

Lemma taken_app id l1 l2 : taken id (l1 ++ l2) = taken id l1 ++ taken id l2.
Proof. unfold taken. by rewrite map_app, concat_app. Qed.

Lemma queued_skips id l : queued id (skips l) = [].
Proof. by induction l as [|x l IH]. Qed.

Lemma pending_times_app l1 l2 : pending_times (l1 ++ l2) = fold_left note_time l2 (pending_times l1).
Proof. apply fold_left_app. Qed.

Lemma pending_times_skips l k : fold_left note_time (skips k) l = l.
Proof. revert l. by induction k as [|x k IH]. Qed.

Lemma get_all_app id a b :
  NoDup (keys (a ++ b)) -> get_all id (a ++ b) = get_all id a ++ get_all id b.
Proof.
  unfold get_all. induction a as [|[k v] a IH]; [done|]. cbn [app keys map fst d_get].
  intros [Hn Hnd]%NoDup_cons. case_bool_decide as Hk; [|by apply IH]. subst.
  assert (Hb : d_get id b = None).
  { apply d_get_None. intros Hb. apply Hn. unfold keys. rewrite map_app. apply elem_of_app. by right. }
  rewrite Hb. cbn. by rewrite app_nil_r.
Qed.

Lemma taken_skips id l : NoDup (keys l) -> taken id (skips l) = get_all id l.
Proof.
  induction l as [|[k v] l IH]; [done|]. intros Hnd.
  pose proof (get_all_app id [(k, v)] l Hnd) as Hg. cbn [app] in Hg. rewrite Hg.
  apply NoDup_cons in Hnd as [_ Hnd].
  rewrite <-IH by done. unfold taken, get_all. cbn. by case_bool_decide.
Qed.

Lemma NoDup_keys_app {A} (a b : list (Z * A)) : NoDup (keys (a ++ b)) -> NoDup (keys a) /\ NoDup (keys b).
Proof. unfold keys. rewrite map_app. intros (? & _ & ?)%NoDup_app. done. Qed.

Lemma get_all_append id i m b :
  get_all id (append_alert i m b) = get_all id b ++ (if bool_decide (i = id) then [m] else []).
Proof.
  unfold get_all, append_alert. rewrite d_get_set. case_bool_decide; [by subst|by rewrite app_nil_r].
Qed.

(** ** The shape of the manager's state *)

Definition nonempty (x : Z * list alert) : Prop := x.2 <> [].
Definition buffer_ok (b : list (Z * list alert)) : Prop := NoDup (keys b) /\ Forall nonempty b.

Lemma append_alert_ok i m b : buffer_ok b -> buffer_ok (append_alert i m b).
Proof.
  intros [Hnd Hne]. split; [by apply keys_NoDup_set|]. unfold append_alert.
  generalize (default [] (d_get i b)) as old. intros old. clear Hnd.
  assert (Hn : nonempty (i, old ++ [m])) by (unfold nonempty; cbn; by destruct old).
  induction Hne as [|[k v] b Hv Hb IH]; cbn; [by repeat constructor|].
  case_bool_decide; by constructor.
Qed.

Definition waiting_tasks (q : list waiter) : nat := length (List.filter is_task_waiter q).

#[local] Arguments waiting_tasks _ : simpl never.
#[local] Arguments pending_times _ : simpl never.

(** The task, the lock and the queue tell one story. *)
Record shape (w : world) : Prop := {
  buffer_shape : buffer_ok (buffer w);
  flush_shape : forall f, flushing w = Some f ->
    (exists done, buffer w = done ++ current f :: rest f) /\
    (forced f = false <-> flush_task w = Sending);
  lock_shape : flushing w = None -> flush_task w <> Sending;
  queue_shape : waiting_tasks (queue w) = match flush_task w with AwaitingLock => 1%nat | _ => 0%nat end;
  cancel_shape : cancelling w = true -> flush_task w <> NoTask;
  deadline_shape : forall d, flush_task w = Sleeping d -> d <= now w + digest_window;
}.

Lemma add_log_twice w l1 l2 : add_log (add_log w l1) l2 = add_log w (l1 ++ l2).
Proof. unfold add_log. cbn. by rewrite app_assoc. Qed.

(** How the flush loop can leave the world: done, raising at an item, or awaiting one. *)
Inductive flush_result (w : world) (f : bool) : list (Z * list alert) -> world -> Prop :=
| flush_finishes items :
    flush_result w f items (release_flush (set_buffer (add_log w (skips items ++ [FlushDone])) []) f)
| flush_raises pre x post :
    flush_result w f (pre ++ x :: post) (release_flush (add_log w (skips pre ++ [FlushRaised])) f)
| flush_awaits pre x post :
    flush_result w f (pre ++ x :: post)
      (set_flushing (add_log w (skips pre)) (Some {| forced := f; current := x; rest := post |})).

Lemma next_digest_result w f items :
  Forall nonempty items -> flush_result w f items (next_digest w f items).
Proof.
  intros Hne. revert w. induction Hne as [|[id ms] items Hms _ IH]; intros w; [apply (flush_finishes w f [])|].
  assert (Hskip : flush_result w f ((id, ms) :: items) (next_digest (add_log w [Skipped id ms]) f items)).
  { destruct (IH (add_log w [Skipped id ms])) as [l|pre x post|pre x post]; rewrite add_log_twice.
    - exact (flush_finishes w f ((id, ms) :: l)).
    - exact (flush_raises w f ((id, ms) :: pre) x post).
    - exact (flush_awaits w f ((id, ms) :: pre) x post). }
  cbn [next_digest]. destruct ms as [|m ms]; [done|]. destruct (d_get id (methods w)); [|exact Hskip].
  destruct (negb (db_up w)); [exact (flush_raises w f [] _ items)|].
  destruct (d_get id (rows w)); [|exact Hskip].
  assert (Hw : add_log w (skips []) = w) by (destruct w; unfold add_log; cbn; by rewrite app_nil_r).
  pose proof (flush_awaits w f [] (id, m :: ms) items) as H. by rewrite Hw in H.
Qed.

(** A world in the flush loop, [items] still to visit. *)
Record in_loop (w : world) (f : bool) (items : list (Z * list alert)) : Prop := {
  loop_buffer : buffer_ok (buffer w);
  loop_items : exists visited, buffer w = visited ++ items;
  loop_task : f = false <-> flush_task w = Sending;
  loop_queue : waiting_tasks (queue w) = match flush_task w with AwaitingLock => 1%nat | _ => 0%nat end;
  loop_cancel : cancelling w = true -> f = true /\ flush_task w <> NoTask;
  loop_deadline : forall d, flush_task w = Sleeping d -> d <= now w + digest_window;
}.

Lemma release_shape w f b l :
  in_loop w f b -> buffer_ok l -> shape (release_flush (set_buffer w l) f).
Proof.
  intros [Hb Hi Ht Hq Hc Hd] Hl. unfold release_flush. destruct f.
  - assert (Hs : flush_task w <> Sending) by (intros H; by apply Ht in H).
    constructor; cbn; try done. intros H. by apply Hc in H as [_ H].
  - assert (Hs : flush_task w = Sending) by by apply Ht. rewrite Hs in Hq.
    constructor; cbn; try done. intros H. by apply Hc in H as [? _].
Qed.

Lemma add_log_in_loop w f b l : in_loop w f b -> in_loop (add_log w l) f b.
Proof. by intros []; constructor. Qed.

Lemma release_shape_log w f b l : in_loop w f b -> shape (release_flush (add_log w l) f).
Proof.
  intros H. assert (Hw : add_log w l = set_buffer (add_log w l) (buffer w)) by by destruct w. rewrite Hw.
  eapply release_shape; [by apply add_log_in_loop|apply H].
Qed.

Lemma flush_result_shape w f items w' : in_loop w f items -> flush_result w f items w' -> shape w'.
Proof.
  intros H Hr. destruct Hr as [l|pre x post|pre x post].
  - eapply release_shape; [by apply add_log_in_loop|]. by split; constructor.
  - by eapply release_shape_log.
  - destruct H as [Hb [v Hi] Ht Hq Hc Hd]. constructor; cbn; try done.
    + intros f0 [= <-]. cbn. split; [|done]. exists (v ++ pre). by rewrite <-app_assoc.
    + intros Hx. by apply Hc in Hx as [_ ?].
Qed.

Lemma items_nonempty w f l : in_loop w f l -> Forall nonempty l.
Proof. intros [[_ Hb] [v Hi] _ _ _ _]. rewrite Hi in Hb. by apply Forall_app in Hb as [_ Hb]. Qed.

Lemma next_digest_shape w f items : in_loop w f items -> shape (next_digest w f items).
Proof. intros H. eapply flush_result_shape; [done|]. apply next_digest_result. by eapply items_nonempty. Qed.

(** The task may start a flush when it is not being cancelled and nobody holds the lock. *)
Definition may_flush (w : world) (f : bool) : Prop :=
  flushing w = None /\ (f = false -> cancelling w = false /\ waiting_tasks (queue w) = 0%nat).

Lemma begin_flush_in_loop w f :
  shape w -> may_flush w f -> in_loop (if f then w else set_task w Sending) f (buffer w).
Proof.
  intros [Hb Hf Hl Hq Hc Hd] [Hn Hm]. destruct f.
  - constructor; cbn; try done; [by exists []| |].
    + split; [done|]. intros H. by apply Hl in Hn.
    + intros H. split; [done|by apply Hc].
  - destruct Hm as [Hc0 Hq0]; [done|]. constructor; cbn; try done; [by exists []|].
    by rewrite Hc0.
Qed.

Lemma begin_flush_loop w (f : bool) :
  in_loop (if f then w else set_task w Sending) f (buffer w) -> shape (begin_flush w f).
Proof.
  intros H. unfold begin_flush.
  assert (Hbuf : buffer (if f then w else set_task w Sending) = buffer w) by by destruct f.
  rewrite Hbuf. destruct (buffer w) as [|x l] eqn:E.
  - pose proof (release_shape_log _ _ _ [] H) as Hr. unfold add_log in Hr. rewrite app_nil_r in Hr.
    by destruct f, w.
  - by apply next_digest_shape.
Qed.

Lemma begin_flush_shape w f : shape w -> may_flush w f -> shape (begin_flush w f).
Proof. intros Hs Hm. by apply begin_flush_loop, begin_flush_in_loop. Qed.

(** The task gets the lock it queued for. *)
Lemma wake_task_in_loop w q :
  shape w -> flushing w = None -> queue w = WTask :: q -> cancelling w = false ->
  in_loop (set_task (set_queue w q) Sending) false (buffer w).
Proof.
  intros [Hb Hf Hl Hq Hc Hd] Hn Eq Ec. constructor; cbn; try done; [by exists []| |by rewrite Ec].
  rewrite Eq in Hq. unfold waiting_tasks in Hq |- *. cbn in Hq. destruct (flush_task w); lia.
Qed.

Lemma digest_ends_in_loop w f (rs : list (Z * row)) l :
  shape w -> flushing w = Some f -> (forced f = false -> cancelling w = false) ->
  in_loop (add_log (set_rows w rs) l) (forced f) (rest f).
Proof.
  intros [Hb Hf Hl Hq Hc Hd] Hw Hcan. destruct (Hf f Hw) as [[v Hv] Ht].
  constructor; cbn; try done; [exists (v ++ [current f]); by rewrite <-app_assoc|].
  intros H. split; [|by apply Hc]. destruct (forced f); [done|]. rewrite Hcan in H; done.
Qed.

Lemma digest_ends_shape w f a :
  shape w -> flushing w = Some f -> (forced f = false -> cancelling w = false) -> shape (digest_ends w f a).
Proof.
  intros Hs Hw Hcan. unfold digest_ends. destruct (current f) as [id ms]. apply next_digest_shape.
  set (rs := if match a with Sent true => db_up w && d_mem id (rows w) | _ => false end
             then mark_sent (rows w) id (now w) else rows w).
  pose proof (digest_ends_in_loop w f rs) as H. unfold rs in H.
  destruct (match a with Sent true => db_up w && d_mem id (rows w) | _ => false end); [by apply H|].
  specialize (H [Handed id ms false] Hs Hw Hcan). by destruct w.
Qed.

Lemma queue_all_buffer_ok up rs q ms b ids b' ids' e :
  buffer_ok b -> queue_all up rs q ms b ids = (b', ids', e) -> buffer_ok b'.
Proof.
  revert b ids. induction ms as [|[id m] ms IH]; intros b ids Hb; cbn; [by intros [= <- _ _]|].
  destruct (negb up); [by intros [= <- _ _]|]. destruct (d_get id rs); [|by apply IH].
  destruct (accepts q r) as [[]|]; [apply IH; by apply append_alert_ok|by apply IH|by intros [= <- _ _]].
Qed.

(** What [send_locked] is made of. *)
Lemma send_locked_spec w q : exists b ids stopped,
  queue_all (db_up w) (rows w) q (methods w) (buffer w) [] = (b, ids, stopped) /\
  let w' := add_log (set_buffer w b) (map (fun id => Queued id (body q) (now w)) ids) in
  send_locked w q =
    match stopped with
    | Some f => add_log w' [SendRaised f]
    | None => match b, flush_task w with
              | _ :: _, NoTask => set_task w' (Sleeping (now w + digest_window))
              | _, _ => w'
              end
    end.
Proof.
  unfold send_locked. destruct (queue_all _ _ _ _ _ _) as [[b ids] stopped].
  by exists b, ids, stopped.
Qed.

Lemma send_locked_shape w q : shape w -> flushing w = None -> shape (send_locked w q).
Proof.
  intros [Hb Hf Hl Hq Hc Hd] Hn. destruct (send_locked_spec w q) as (b & ids & stopped & Eq & ->).
  apply queue_all_buffer_ok in Eq; [|done].
  assert (Hnone : forall f, flushing w = Some f -> False) by congruence.
  destruct stopped as [e|]; [constructor; cbn; try done; intros f H; by apply Hnone in H|].
  destruct b as [|x b]; [constructor; cbn; try done; intros f H; by apply Hnone in H|].
  destruct (flush_task w) eqn:Et; constructor; cbn; rewrite ?Et; try done;
    try (intros f H; by apply Hnone in H).
  by intros d [= <-].
Qed.

Lemma waiting_tasks_app q1 q2 : waiting_tasks (q1 ++ q2) = (waiting_tasks q1 + waiting_tasks q2)%nat.
Proof. unfold waiting_tasks. by rewrite List.filter_app, length_app. Qed.

Lemma queue_shape_app w x : is_task_waiter x = false -> shape w -> shape (set_queue w (queue w ++ [x])).
Proof.
  intros Hx [Hb Hf Hl Hq Hc Hd]. constructor; cbn; try done. rewrite waiting_tasks_app.
  unfold waiting_tasks at 2. cbn. rewrite Hx. cbn. lia.
Qed.

Lemma lock_free_spec w : lock_free w = true -> flushing w = None /\ queue w = [].
Proof. unfold lock_free. by destruct (flushing w), (queue w). Qed.

Lemma forcing_shape w :
  shape w -> shape (add_log (match flush_task w with NoTask => w | _ => set_cancelling w true end) [FlushForced]).
Proof.
  intros [Hb Hf Hl Hq Hc Hd]. destruct (flush_task w) eqn:Et; constructor; cbn; rewrite ?Et; try done.
Qed.

Lemma flush_now_shape w : shape w -> shape (flush_now w).
Proof.
  intros Hs. unfold flush_now.
  set (w1 := add_log (match flush_task w with NoTask => w | _ => set_cancelling w true end) [FlushForced]).
  assert (H1 : shape w1) by by apply forcing_shape.
  destruct (lock_free w1) eqn:El; [|by apply queue_shape_app].
  apply lock_free_spec in El as [El _]. apply begin_flush_shape; [done|]. by split.
Qed.

Lemma deliver_cancel_shape w : shape w -> cancelling w = true -> shape (deliver_cancel w).
Proof.
  intros [Hb Hf Hl Hq Hc Hd] Hcan. unfold deliver_cancel. cbn [flush_task set_cancelling].
  destruct (flush_task w) eqn:Et; [by apply Hc in Hcan| | |].
  - constructor; cbn; try done. intros f H. destruct (Hf f H) as [? Hx]. split; [done|].
    by rewrite Hx.
  - constructor; cbn; try done.
    + intros f H. destruct (Hf f H) as [? Hx]. split; [done|]. by rewrite Hx.
    + unfold waiting_tasks. clear Hq. induction (queue w) as [|x l IH]; [done|]. cbn.
      destruct (is_task_waiter x) eqn:E; cbn; [done|by rewrite E].
  - constructor; cbn; try done.
Qed.

Lemma step_shape w s w' : shape w -> step w s = Some w' -> shape w'.
Proof.
  intros Hs. destruct s; cbn [step].
  - destruct (d <? 0) eqn:E; [done|]. intros [= <-]. to_prop. destruct Hs as [Hb Hf Hl Hq Hc Hd].
    constructor; cbn; try done. intros d0 H0. apply Hd in H0. lia.
  - intros [= <-]. by destruct Hs; constructor.
  - intros [= <-]. by destruct Hs; constructor.
  - intros [= <-]. unfold load_methods. destruct (db_up w); [|done]. by destruct Hs; constructor.
  - intros [= <-]. unfold reload_method. destruct (negb (db_up w)); [done|].
    destruct (d_get id (rows w)) as [r|]; [|by destruct Hs; constructor].
    destruct (negb (enabled r)); [by destruct Hs; constructor|].
    destruct (load_row id r); [by destruct Hs; constructor|done].
  - intros [= <-]. destruct (lock_free w) eqn:E; [|by apply queue_shape_app].
    apply send_locked_shape; [done|]. by apply lock_free_spec in E as [? _].
  - destruct (flush_task w) as [|d| |] eqn:Et; try done. destruct (cancelling w || (now w <? d)) eqn:Ec; [done|].
    intros [= <-]. apply orb_false_iff in Ec as [Ec _]. destruct (lock_free w) eqn:E.
    + apply lock_free_spec in E as [E Eq]. apply begin_flush_shape; [done|]. split; [done|].
      intros _. by rewrite Eq.
    + destruct Hs as [Hb Hf Hl Hq Hc Hd]. constructor; cbn; try done.
      * intros f H. destruct (Hf f H) as [? Hx]. split; [done|]. rewrite Et in Hx. by rewrite Hx.
      * rewrite waiting_tasks_app, Hq, Et. done.
  - destruct (flushing w) as [f|] eqn:Ef; [done|]. destruct (queue w) as [|x q] eqn:Eq; [done|].
    assert (Hx : shape (set_queue w q) \/ x = WTask).
    { destruct x; [left|by right|left]; destruct Hs as [Hb Hf Hl Hq Hc Hd]; constructor; cbn; try done;
        rewrite <-Hq, Eq; done. }
    destruct x as [r| |].
    + intros [= <-]. destruct Hx as [Hx|]; [|done]. by apply send_locked_shape.
    + destruct (cancelling w) eqn:Ec; [done|]. intros [= <-].
      apply begin_flush_loop. exact (wake_task_in_loop w q Hs Ef Eq Ec).
    + intros [= <-]. destruct Hx as [Hx|]; [|done]. by apply begin_flush_shape.
  - destruct (flushing w) as [f|] eqn:Ef; [|done]. destruct (negb (forced f) && cancelling w) eqn:Ec; [done|].
    intros [= <-]. apply digest_ends_shape; [done..|]. intros H. by rewrite H in Ec.
  - intros [= <-]. by apply flush_now_shape.
  - destruct (cancelling w) eqn:E; [|done]. intros [= <-]. by apply deliver_cancel_shape.
Qed.

Lemma reachable_shape t0 rs0 w : reachable t0 rs0 w -> shape w.
Proof.
  induction 1 as [|w s w' _ IH Hs]; [|by eapply step_shape].
  constructor; cbn; try done. by split; constructor.
Qed.

(** ** Every alert is handed out once *)

Definition accounted (l : list event) (rest : list (Z * list alert)) : Prop :=
  forall id, queued id l = taken id l ++ get_all id rest.
Definition accounts (w : world) : Prop := Forall unbroken (log w) -> accounted (log w) (items w).

Lemma release_log w f : log (release_flush w f) = log w.
Proof. by destruct f. Qed.
Lemma release_items w f : items (release_flush w f) = buffer w.
Proof. by destruct f. Qed.

Lemma accounted_neutral l e rest :
  (forall id, queued_event id e = []) -> (forall id, out_event id e = []) ->
  accounted (l ++ [e]) rest <-> accounted l rest.
Proof.
  intros Hq Ht. unfold accounted. setoid_rewrite queued_app. setoid_rewrite taken_app.
  unfold queued at 2, taken at 2. cbn. split; intros H id; specialize (H id);
    rewrite Hq, Ht, !app_nil_r in *; done.
Qed.

Lemma accounted_skips l pre post :
  NoDup (keys (pre ++ post)) -> accounted l (pre ++ post) -> accounted (l ++ skips pre) post.
Proof.
  intros Hnd H id. specialize (H id). destruct (NoDup_keys_app _ _ Hnd) as [Hp _].
  rewrite queued_app, taken_app, queued_skips, app_nil_r, taken_skips by done.
  rewrite H, get_all_app, app_assoc by done. done.
Qed.

Lemma flush_result_accounts w f l w' :
  NoDup (keys l) -> (Forall unbroken (log w) -> accounted (log w) l) -> flush_result w f l w' -> accounts w'.
Proof.
  intros Hnd Ha Hr. unfold accounts.
  destruct Hr as [l|pre x post|pre x post]; rewrite ?release_log, ?release_items; cbn.
  - rewrite Forall_app. intros [Hu _]. rewrite app_assoc. apply accounted_neutral; [done..|].
    apply accounted_skips; rewrite app_nil_r; auto.
  - rewrite Forall_app, Forall_app, Forall_singleton. by intros (_ & _ & []).
  - rewrite Forall_app. intros [Hu _]. apply accounted_skips; auto.
Qed.

Lemma in_loop_NoDup w f l : in_loop w f l -> NoDup (keys l).
Proof. intros [[Hb _] [v Hi] _ _ _ _]. rewrite Hi in Hb. by apply NoDup_keys_app in Hb as [_ Hb]. Qed.

Lemma next_digest_accounts w f l :
  in_loop w f l -> (Forall unbroken (log w) -> accounted (log w) l) -> accounts (next_digest w f l).
Proof.
  intros H Ha. eapply flush_result_accounts; [by eapply in_loop_NoDup|exact Ha|].
  apply next_digest_result. by eapply items_nonempty.
Qed.

Lemma begin_flush_accounts w (f : bool) :
  in_loop (if f then w else set_task w Sending) f (buffer w) -> flushing w = None -> accounts w ->
  accounts (begin_flush w f).
Proof.
  intros Hl Hn Ha. unfold accounts, items in Ha. rewrite Hn in Ha. unfold begin_flush.
  set (w1 := if f then w else set_task w Sending) in *.
  assert (Hw : buffer w1 = buffer w /\ log w1 = log w) by by destruct f. destruct Hw as [-> Hlog].
  destruct (buffer w) as [|x l] eqn:E.
  - unfold accounts. rewrite release_log, release_items.
    replace (buffer w1) with (buffer w) by by destruct f. by rewrite E, Hlog.
  - apply next_digest_accounts; [done|by rewrite Hlog].
Qed.

Lemma queue_all_accounts up rs q ms b ids b' ids' e :
  queue_all up rs q ms b ids = (b', ids', e) ->
  exists new, ids' = ids ++ new /\
    forall id t, get_all id b' = get_all id b ++ queued id (map (fun i => Queued i (body q) t) new).
Proof.
  assert (Hstop : forall b ids, (b, ids, e) = (b', ids', e) -> exists new, ids' = ids ++ new /\
    forall id t, get_all id b' = get_all id b ++ queued id (map (fun i => Queued i (body q) t) new)).
  { intros b0 ids0 [= <- <-]. exists []. split; [by rewrite app_nil_r|]. intros id t. by rewrite app_nil_r. }
  revert b ids. induction ms as [|[i m] ms IH]; intros b ids; cbn [queue_all].
  { intros H. apply Hstop. congruence. }
  destruct (negb up); [intros H; apply Hstop; congruence|]. destruct (d_get i rs) as [r|]; [|apply IH].
  destruct (accepts q r) as [[]|]; [|apply IH|intros H; apply Hstop; congruence].
  intros H. apply IH in H as (new & -> & Hnew). exists (i :: new). split; [by rewrite <-app_assoc|].
  intros id t. rewrite (Hnew id t), get_all_append, <-app_assoc. done.
Qed.

Lemma queued_not_taken id q t l : taken id (map (fun i => Queued i (body q) t) l) = [].
Proof. by induction l as [|x l IH]. Qed.

Lemma send_locked_accounts w q : flushing w = None -> accounts w -> accounts (send_locked w q).
Proof.
  intros Hn Ha. destruct (send_locked_spec w q) as (b & ids & stopped & Eq & ->).
  apply queue_all_accounts in Eq as (new & -> & Hnew). cbn [app].
  set (w1 := add_log (set_buffer w b) (map (fun i => Queued i (body q) (now w)) new)).
  assert (H1 : accounts w1).
  { unfold accounts, items in *. cbn. rewrite Hn in *. rewrite Forall_app. intros [Hu _] id.
    rewrite queued_app, taken_app, queued_not_taken, (Ha Hu id), (Hnew id (now w)), app_nil_r.
    by rewrite app_assoc. }
  destruct stopped as [e|].
  - unfold accounts. cbn. rewrite Forall_app. intros [Hu _]. apply accounted_neutral; [done..|].
    by apply H1.
  - destruct b; [exact H1|]. destruct (flush_task w); exact H1.
Qed.

Lemma flush_now_accounts w : shape w -> accounts w -> accounts (flush_now w).
Proof.
  intros Hs Ha. pose proof (flush_now_shape w Hs) as _. unfold flush_now.
  set (w1 := add_log (match flush_task w with NoTask => w | _ => set_cancelling w true end) [FlushForced]).
  assert (H1 : shape w1 /\ accounts w1).
  { split; [by apply forcing_shape|].
    - unfold w1. assert (Hneutral : accounts (add_log w [FlushForced])).
      { unfold accounts. cbn. rewrite Forall_app. intros [Hu _]. apply accounted_neutral; [done..|].
        by apply Ha. }
      by destruct (flush_task w). }
  destruct H1 as [Hs1 Ha1]. destruct (lock_free w1) eqn:El; [|exact Ha1].
  apply lock_free_spec in El as [El _]. apply begin_flush_accounts; [|done..].
  by apply (begin_flush_in_loop w1 true).
Qed.

Lemma digest_ends_accounts w f a :
  shape w -> flushing w = Some f -> (forced f = false -> cancelling w = false) -> accounts w ->
  accounts (digest_ends w f a).
Proof.
  intros Hs Hw Hcan Ha. unfold digest_ends. destruct (current f) as [id ms] eqn:Ec.
  set (stamped := match a with Sent true => db_up w && d_mem id (rows w) | _ => false end).
  assert (Hset : exists rs, (if stamped then set_rows w (mark_sent (rows w) id (now w)) else w) = set_rows w rs).
  { destruct stamped; [by eexists|]. exists (rows w). by destruct w. }
  destruct Hset as [rs ->]. apply next_digest_accounts; [by apply digest_ends_in_loop|].
  cbn. rewrite Forall_app. intros [Hu _]. unfold accounts, items in Ha. rewrite Hw, Ec in Ha.
  specialize (Ha Hu). intros i. rewrite queued_app, taken_app, (Ha i).
  destruct (digest_ends_in_loop w f (rows w) [] Hs Hw Hcan) as [[Hb _] _ _ _ _ _]. cbn in Hb.
  destruct Hs as [_ Hf _ _ _ _]. destruct (Hf f Hw) as [[v Hv] _]. rewrite Hv, Ec in Hb.
  apply NoDup_keys_app in Hb as [_ Hb]. pose proof (get_all_app i [(id, ms)] (rest f) Hb) as Hg.
  cbn [app] in Hg. rewrite Hg. unfold queued at 1, taken at 2, get_all at 1. cbn. rewrite !app_nil_r.
  case_bool_decide; by rewrite <-?app_assoc.
Qed.

(** A step is an operation of the manager, or changes neither buffer, task nor lock. *)
Definition same_manager (w w' : world) : Prop :=
  buffer w' = buffer w /\ flush_task w' = flush_task w /\ cancelling w' = cancelling w /\
  flushing w' = flushing w /\ log w' = log w /\ now w <= now w'.

Inductive step_kind (w : world) : label -> world -> Prop :=
| k_same s w' : same_manager w w' -> queue w' = queue w ->
    match s with TimerFires | Wake | DigestEnds _ => False | _ => True end -> step_kind w s w'
| k_send q : flushing w = None -> queue w = [] -> step_kind w (SendAlert q) (send_locked w q)
| k_queue_send q : step_kind w (SendAlert q) (set_queue w (queue w ++ [WSend q]))
| k_timer d : flush_task w = Sleeping d -> cancelling w = false -> d <= now w ->
    flushing w = None -> queue w = [] -> step_kind w TimerFires (begin_flush w false)
| k_timer_waits d : flush_task w = Sleeping d -> cancelling w = false ->
    step_kind w TimerFires (set_task (set_queue w (queue w ++ [WTask])) AwaitingLock)
| k_wake_send q l : flushing w = None -> queue w = WSend q :: l ->
    step_kind w Wake (send_locked (set_queue w l) q)
| k_wake_forced l : flushing w = None -> queue w = WForced :: l ->
    step_kind w Wake (begin_flush (set_queue w l) true)
| k_wake_task l : flushing w = None -> queue w = WTask :: l -> cancelling w = false ->
    step_kind w Wake (begin_flush (set_queue w l) false)
| k_digest f a : flushing w = Some f -> (forced f = false -> cancelling w = false) ->
    step_kind w (DigestEnds a) (digest_ends w f a)
| k_flush_now : step_kind w FlushNow (flush_now w)
| k_cancel : cancelling w = true -> step_kind w DeliverCancel (deliver_cancel w).

Lemma step_kinds w s w' : step w s = Some w' -> step_kind w s w'.
Proof.
  destruct s; cbn [step].
  - destruct (d <? 0) eqn:E; [done|]. intros [= <-]. to_prop. apply k_same; [|done..].
    by repeat split; cbn; try lia.
  - intros [= <-]. apply k_same; [|done..]. by repeat split; cbn; try lia.
  - intros [= <-]. apply k_same; [|done..]. by repeat split; cbn; try lia.
  - intros [= <-]. unfold load_methods. destruct (db_up w); (apply k_same; [|done..]);
      by repeat split; cbn; try lia.
  - intros [= <-].
    assert (H : forall ms, step_kind w (ReloadMethod id) (set_methods w ms))
      by (intros ms; apply k_same; [|done..]; by repeat split; cbn; try lia).
    assert (Hw : step_kind w (ReloadMethod id) w) by (specialize (H (methods w)); by destruct w).
    unfold reload_method. destruct (negb (db_up w)); [done|].
    destruct (d_get id (rows w)) as [r|]; [|done]. destruct (negb (enabled r)); [done|].
    by destruct (load_row id r).
  - intros [= <-]. destruct (lock_free w) eqn:E; [|apply k_queue_send].
    apply lock_free_spec in E as [? ?]. by apply k_send.
  - destruct (flush_task w) as [|d| |] eqn:Et; try done. destruct (cancelling w || (now w <? d)) eqn:Ec; [done|].
    intros [= <-]. apply orb_false_iff in Ec as [Ec Hd]. to_prop.
    destruct (lock_free w) eqn:E; [|by eapply k_timer_waits].
    apply lock_free_spec in E as [? ?]. by eapply k_timer.
  - destruct (flushing w) as [f|] eqn:Ef; [done|]. destruct (queue w) as [|[q| |] l] eqn:Eq; [done| | |].
    + intros [= <-]. by apply k_wake_send.
    + destruct (cancelling w) eqn:Ec; [done|]. intros [= <-]. by apply k_wake_task.
    + intros [= <-]. by apply k_wake_forced.
  - destruct (flushing w) as [f|] eqn:Ef; [|done]. destruct (negb (forced f) && cancelling w) eqn:Ec; [done|].
    intros [= <-]. apply k_digest; [done|]. intros H. by rewrite H in Ec.
  - intros [= <-]. apply k_flush_now.
  - destruct (cancelling w) eqn:E; [|done]. intros [= <-]. by apply k_cancel.
Qed.

Lemma step_accounts w s w' : shape w -> accounts w -> step_kind w s w' -> accounts w'.
Proof.
  intros Hs Ha Hk. destruct Hk as [s w' (Hb & Ht & Hc & Hf & Hl & _) _ _|q Hn _|q|d Et Ec Hd Hn Hq|d Et Ec
    |q l Hn Hq|l Hn Hq|l Hn Hq Hc|f a Hf Hc| |Hc].
  - unfold accounts, items. by rewrite Hl, Hf, Hb.
  - by apply send_locked_accounts.
  - exact Ha.
  - apply begin_flush_accounts; [|done..]. apply (begin_flush_in_loop w false); [done|]. split; [done|].
    by rewrite Hq.
  - exact Ha.
  - by apply send_locked_accounts.
  - apply begin_flush_accounts; [|done..]. apply (begin_flush_in_loop _ true); [|by split].
    destruct Hs as [? ? ? Hqs ? ?]. constructor; cbn; try done. by rewrite <-Hqs, Hq.
  - apply begin_flush_accounts; [|done..]. exact (wake_task_in_loop w l Hs Hn Hq Hc).
  - by apply digest_ends_accounts.
  - by apply flush_now_accounts.
  - unfold deliver_cancel. cbn [flush_task set_cancelling]. destruct (flush_task w); try exact Ha.
    unfold accounts. rewrite release_log. cbn. rewrite Forall_app, Forall_singleton. by intros [_ []].
Qed.

Lemma reachable_accounts t0 rs0 w : reachable t0 rs0 w -> accounts w.
Proof.
  induction 1 as [|w s w' Hr IH Hs]; [by intros _ id|].
  eapply step_accounts; [by eapply reachable_shape|exact IH|by apply step_kinds].
Qed.

(** C31: every alert is handed over exactly once, in order.  Whatever the interleaving of
    senders, flushes, configuration changes and time, as long as no flush was stopped before
    its end: for each method, the alerts queued are, in the order they were queued, those
    flushes took out (given to the method as digests, or dropped because the method was
    gone) followed by those still waiting; none is lost between, repeated or overtaken. *)
Theorem exactly_once t0 rs0 w id :
  reachable t0 rs0 w -> Forall unbroken (log w) ->
  queued id (log w) = taken id (log w) ++ pending id w.
Proof. intros Hr Hu. by apply (reachable_accounts _ _ _ Hr Hu). Qed.

(** ** An alert in the buffer is on its way *)

(** Nothing raised, no flush forced: the task alone flushes, it runs exactly while there is
    something to flush, and its sleep ends within the window of every alert it will take. *)
Record quiet (w : world) : Prop := {
  quiet_cancel : cancelling w = false;
  quiet_queue : WForced ∉ queue w;
  quiet_flush : forall f, flushing w = Some f -> forced f = false;
  quiet_task : buffer w = [] <-> flush_task w = NoTask;
  quiet_empty : buffer w = [] -> pending_times (log w) = [];
  quiet_past : Forall (fun t => t <= now w) (pending_times (log w));
  quiet_window : forall d, flush_task w = Sleeping d ->
    Forall (fun t => d <= t + digest_window) (pending_times (log w));
}.

Lemma flush_result_quiet w l w' :
  flush_task w = Sending -> cancelling w = false -> WForced ∉ queue w -> buffer w <> [] ->
  Forall (fun t => t <= now w) (pending_times (log w)) ->
  flush_result w false l w' -> Forall calm (log w') -> quiet w'.
Proof.
  intros Ht Hc Hq Hb Hp Hr Hcalm. destruct Hr as [l|pre x post|pre x post].
  - cbn in *. assert (Hnil : pending_times (log w ++ skips l ++ [FlushDone]) = [])
      by by rewrite pending_times_app, fold_left_app, pending_times_skips.
    constructor; cbn; rewrite ?Hnil; try done; by constructor.
  - rewrite release_log in Hcalm. cbn in Hcalm. rewrite !Forall_app, Forall_singleton in Hcalm. naive_solver.
  - assert (Hsame : pending_times (log w ++ skips pre) = pending_times (log w))
      by by rewrite pending_times_app, pending_times_skips.
    constructor; cbn; rewrite ?Hsame; try done; [by intros f [= <-]| |].
    + rewrite Ht. split; [intros H; by destruct Hb|done].
    + by rewrite Ht.
Qed.

Lemma begin_flush_quiet w :
  in_loop (set_task w Sending) false (buffer w) -> cancelling w = false -> WForced ∉ queue w ->
  buffer w <> [] -> Forall (fun t => t <= now w) (pending_times (log w)) ->
  Forall calm (log (begin_flush w false)) -> quiet (begin_flush w false).
Proof.
  intros Hl Hc Hq Hb Hp. unfold begin_flush. cbn [buffer set_task].
  destruct (buffer w) as [|x l] eqn:E; [done|]. intros Hcalm.
  eapply flush_result_quiet; [| | | | |apply next_digest_result; by eapply items_nonempty|exact Hcalm];
    cbn; rewrite ?E; done.
Qed.

Lemma queue_all_buffer up rs q ms b ids b' ids' e :
  queue_all up rs q ms b ids = (b', ids', e) -> (b' = [] -> b = []) /\ (b = [] -> e = None -> b' = [] -> ids' = ids).
Proof.
  revert b ids. induction ms as [|[i m] ms IH]; intros b ids; cbn [queue_all]; [by intros [= <- <- <-]|].
  destruct (negb up); [by intros [= <- <- <-]|]. destruct (d_get i rs) as [r|]; [|apply IH].
  destruct (accepts q r) as [[]|]; [|apply IH|by intros [= <- <- <-]].
  intros H. apply IH in H as [H1 _]. assert (Hne : append_alert i (body q) b <> []).
  { unfold append_alert. destruct b as [|[k v] b]; cbn; [done|]. by case_bool_decide. }
  split; intros; exfalso; apply Hne; auto.
Qed.

Lemma pending_times_queued l id m t ids :
  fold_left note_time (map (fun i => Queued i m t) (id :: ids)) l = l ++ repeat t (length (id :: ids)).
Proof.
  revert l id. induction ids as [|i ids IH]; intros l id; [done|].
  change (fold_left note_time (map (fun i => Queued i m t) (i :: ids)) (l ++ [t]) =
    l ++ repeat t (S (length (i :: ids)))). rewrite IH. by rewrite <-app_assoc.
Qed.

Lemma pending_times_send l q t ids :
  fold_left note_time (map (fun i => Queued i (body q) t) ids) l = l ++ repeat t (length ids).
Proof. destruct ids; [by rewrite app_nil_r|apply pending_times_queued]. Qed.

Lemma send_locked_quiet w q :
  shape w -> flushing w = None -> quiet w -> Forall calm (log (send_locked w q)) -> quiet (send_locked w q).
Proof.
  intros Hs Hn [Hc Hq Hf Ht He Hp Hd]. destruct (send_locked_spec w q) as (b & ids & stopped & Eq & ->).
  apply queue_all_buffer in Eq as [Hb Hb0]. destruct stopped as [e|].
  { cbn. rewrite Forall_app, Forall_singleton. by intros [_ []]. }
  intros _. set (l := map (fun i => Queued i (body q) (now w)) ids).
  assert (Hl : pending_times (log w ++ l) = pending_times (log w) ++ repeat (now w) (length ids))
    by (unfold l; by rewrite pending_times_app, pending_times_send).
  assert (Hp' : Forall (fun t => t <= now w) (pending_times (log w ++ l))).
  { rewrite Hl, Forall_app. split; [done|]. apply Forall_forall. intros t Hx.
    apply list_elem_of_In, repeat_spec in Hx. lia. }
  destruct b as [|x b].
  - specialize (Hb eq_refl). assert (Hids : ids = []) by auto. unfold l in *. subst ids. cbn in *.
    rewrite app_nil_r in *. constructor; cbn; rewrite ?app_nil_r; try done; tauto.
  - destruct (flush_task w) as [|d| |] eqn:Et.
    + assert (Hbe : buffer w = []) by by apply Ht. rewrite He in Hl by done.
      constructor; cbn; try done. intros d [= <-]. rewrite Hl. apply Forall_forall. intros t Hx.
      apply list_elem_of_In, repeat_spec in Hx. lia.
    + constructor; cbn; rewrite ?Et; try done. intros d0 [= <-]. rewrite Hl, Forall_app.
      split; [by apply Hd|]. apply Forall_forall. intros t Hx. apply list_elem_of_In, repeat_spec in Hx.
      destruct Hs as [_ _ _ _ _ Hdl]. specialize (Hdl d Et). lia.
    + constructor; cbn; rewrite ?Et; done.
    + constructor; cbn; rewrite ?Et; done.
Qed.

Lemma next_digest_log w f l : Forall nonempty l -> exists k, log (next_digest w f l) = log w ++ k.
Proof.
  intros H. destruct (next_digest_result w f l H); rewrite ?release_log; cbn; by eexists.
Qed.

Lemma begin_flush_log w (f : bool) :
  in_loop (if f then w else set_task w Sending) f (buffer w) -> exists k, log (begin_flush w f) = log w ++ k.
Proof.
  intros H. apply items_nonempty in H. unfold begin_flush.
  destruct (buffer (if f then w else set_task w Sending)) as [|x l] eqn:E.
  - exists []. rewrite release_log, app_nil_r. by destruct f.
  - replace (log w) with (log (if f then w else set_task w Sending)) by by destruct f.
    apply next_digest_log. rewrite <-E. by destruct f.
Qed.

Lemma flush_now_log w : shape w -> exists k, log (flush_now w) = log w ++ [FlushForced] ++ k.
Proof.
  intros Hs. unfold flush_now.
  set (w1 := add_log (match flush_task w with NoTask => w | _ => set_cancelling w true end) [FlushForced]).
  assert (H1 : log w1 = log w ++ [FlushForced]) by (unfold w1; by destruct (flush_task w)).
  destruct (lock_free w1) eqn:El; [|by exists []].
  destruct (begin_flush_log w1 true) as [k Hk]; [|exists k; rewrite app_assoc, <-H1; exact Hk].
  apply (begin_flush_in_loop w1 true); [by apply forcing_shape|]. apply lock_free_spec in El as [El _].
  by split.
Qed.

Lemma step_log w s w' : shape w -> step_kind w s w' -> exists k, log w' = log w ++ k.
Proof.
  assert (Hid : exists k, log w = log w ++ k) by (exists []; by rewrite app_nil_r).
  intros Hs Hk. destruct Hk as [s w' (_ & _ & _ & _ & Hl & _) _ _|q _ _|q|d Et Ec _ Hn Hq|d _ _
    |q l Hn Hq|l Hn Hq|l Hn Hq Hc|f a Hf Hc| |Hc].
  - by rewrite Hl.
  - destruct (send_locked_spec w q) as (b & ids & st & _ & ->).
    destruct st; [rewrite add_log_twice; by eexists|].
    destruct b; [by eexists|]. destruct (flush_task w); by eexists.
  - done.
  - apply begin_flush_log. apply (begin_flush_in_loop w false); [done|]. split; [done|]. by rewrite Hq.
  - done.
  - destruct (send_locked_spec (set_queue w l) q) as (b & ids & st & _ & ->).
    destruct st; [rewrite add_log_twice; by eexists|].
    destruct b; [by eexists|]. cbn [flush_task set_queue]. destruct (flush_task w); by eexists.
  - apply (begin_flush_log (set_queue w l)). apply (begin_flush_in_loop _ true); [|by split].
    destruct Hs as [? ? ? Hqs ? ?]. constructor; cbn; try done. by rewrite <-Hqs, Hq.
  - apply (begin_flush_log (set_queue w l) false). exact (wake_task_in_loop w l Hs Hn Hq Hc).
  - unfold digest_ends. destruct (current f) as [id ms] eqn:Ecf.
    match goal with |- exists k, log (next_digest (add_log ?w1 ?e) _ _) = _ =>
      destruct (next_digest_log (add_log w1 e) (forced f) (rest f)) as [k ->];
      [|cbn; exists (e ++ k); rewrite app_assoc; f_equal; by destruct (match a with Sent true => _ | _ => _ end)]
    end.
    pose proof (digest_ends_in_loop w f (rows w) [] Hs Hf Hc) as Hin. by eapply items_nonempty.
  - destruct (flush_now_log w Hs) as [k Hk]. by exists ([FlushForced] ++ k).
  - unfold deliver_cancel. cbn [flush_task set_cancelling]. destruct (flush_task w); try done.
    rewrite release_log. by eexists.
Qed.

Lemma dequeue_shape w x l :
  shape w -> queue w = x :: l -> is_task_waiter x = false -> shape (set_queue w l).
Proof.
  intros [Hb Hf Hl Hq Hc Hd] Hx Hn. constructor; cbn; try done.
  rewrite <-Hq, Hx. unfold waiting_tasks. cbn. by rewrite Hn.
Qed.

Lemma quiet_queue_changes w q : quiet w -> WForced ∉ q -> quiet (set_queue w q).
Proof. by intros [] ?; constructor. Qed.

Lemma digest_ends_quiet w f a :
  shape w -> quiet w -> flushing w = Some f -> Forall calm (log (digest_ends w f a)) ->
  quiet (digest_ends w f a).
Proof.
  intros Hs Hqt Hw. pose proof (quiet_flush _ Hqt f Hw) as Hf. destruct Hqt as [Hc Hq _ Ht _ Hp _].
  unfold digest_ends. destruct (current f) as [id ms]. rewrite Hf.
  set (stamped := match a with Sent true => db_up w && d_mem id (rows w) | _ => false end).
  assert (Hset : exists rs, (if stamped then set_rows w (mark_sent (rows w) id (now w)) else w) = set_rows w rs).
  { destruct stamped; [by eexists|]. exists (rows w). by destruct w. }
  destruct Hset as [rs ->]. intros Hcalm.
  assert (Hsend : flush_task w = Sending) by (destruct Hs as [_ Hfs _ _ _ _]; by apply (Hfs f Hw)).
  pose proof (digest_ends_in_loop w f rs [Handed id ms stamped] Hs Hw (fun _ => Hc)) as Hin.
  eapply flush_result_quiet; [| | | | |apply next_digest_result; by eapply items_nonempty|exact Hcalm];
    cbn; try done.
  - intros H. apply Ht in H. by rewrite Hsend in H.
  - by rewrite pending_times_app.
Qed.

Lemma step_quiet w s w' :
  shape w -> quiet w -> step_kind w s w' -> Forall calm (log w') -> quiet w'.
Proof.
  intros Hs Hqt Hk. pose proof Hqt as [Hc Hq Hf Ht He Hp Hd].
  assert (Hne : flush_task w <> NoTask -> buffer w <> []) by (intros H Hb; by apply H, Ht).
  destruct Hk as [s w' (Eb & Et & Ec & Ef & El & En) Eq _|q Hn _|q|d Et Ec Hdl Hn Hql|d Et Ec
    |q l Hn Hql|l Hn Hql|l Hn Hql _|f a Hfl _| |Hcan]; intros Hcalm.
  - constructor; rewrite ?Eb, ?Et, ?Ec, ?Ef, ?El, ?Eq; try done.
    apply (Forall_impl _ _ _ Hp). intros t Hx. cbn in *. lia.
  - by apply send_locked_quiet.
  - apply quiet_queue_changes; [done|]. intros [|Hx%list_elem_of_singleton]%elem_of_app; done.
  - apply begin_flush_quiet; try done; [|apply Hne; by rewrite Et].
    apply (begin_flush_in_loop w false); [done|]. split; [done|]. by rewrite Hql.
  - constructor; cbn; try done; [intros [|Hx%list_elem_of_singleton]%elem_of_app; done|].
    split; [|done]. intros Hx. apply Ht in Hx. by rewrite Et in Hx.
  - apply send_locked_quiet; [by eapply dequeue_shape|done| |done].
    apply quiet_queue_changes; [done|]. intros Hx. apply Hq. rewrite Hql. by right.
  - destruct Hq. rewrite Hql. by left.
  - apply begin_flush_quiet; try done.
    + exact (wake_task_in_loop w l Hs Hn Hql Hc).
    + cbn. intros Hx. apply Hq. rewrite Hql. by right.
    + apply Hne. destruct Hs as [_ _ _ Hqs _ _]. rewrite Hql in Hqs. by destruct (flush_task w).
  - by apply digest_ends_quiet.
  - destruct (flush_now_log w Hs) as [k Hk]. rewrite Hk, !Forall_app, Forall_singleton in Hcalm. naive_solver.
  - by rewrite Hcan in Hc.
Qed.

Lemma reachable_quiet t0 rs0 w : reachable t0 rs0 w -> Forall calm (log w) -> quiet w.
Proof.
  induction 1 as [|w s w' Hr IH Hs]; intros Hcalm.
  - constructor; cbn; try done. by intros ?%elem_of_nil.
  - apply step_kinds in Hs. pose proof (reachable_shape _ _ _ Hr) as Hsh.
    destruct (step_log w s w' Hsh Hs) as [k Hk]. eapply step_quiet; [done| |done..].
    apply IH. rewrite Hk in Hcalm. by apply Forall_app in Hcalm as [? _].
Qed.

Lemma has_flush t0 rs0 w :
  reachable t0 rs0 w -> Forall calm (log w) ->
  cancelling w = false /\
  match flush_task w with
  | NoTask => buffer w = []
  | Sleeping d => buffer w <> [] /\
      Forall (fun t => t <= now w /\ d <= t + digest_window) (pending_times (log w))
  | AwaitingLock => buffer w <> [] /\ WTask ∈ queue w
  | Sending => buffer w <> [] /\ exists f, flushing w = Some f /\ forced f = false
  end.
Proof.
  intros Hr Hcalm. pose proof (reachable_shape _ _ _ Hr) as Hs.
  destruct (reachable_quiet _ _ _ Hr Hcalm) as [Hc Hq Hf Ht He Hp Hd]. split; [done|].
  assert (Hne : flush_task w <> NoTask -> buffer w <> []) by (intros H Hb; by apply H, Ht).
  destruct (flush_task w) as [|d| |] eqn:Et; [by apply Ht|split; [by apply Hne|]..].
  - apply Forall_and. split; [done|by apply Hd].
  - destruct Hs as [_ _ _ Hqs _ _]. rewrite Et in Hqs. clear -Hqs. unfold waiting_tasks in Hqs.
    induction (queue w) as [|x l IH]; [done|]. cbn in Hqs.
    destruct x; cbn in Hqs; [right; by apply IH|by left|right; by apply IH].
  - destruct Hs as [_ _ Hl _ _ _]. destruct (flushing w) as [f|] eqn:Ef; [|by destruct Hl].
    exists f. split; [done|]. by apply Hf.
Qed.

(** An alert in the buffer always has a flush coming, in time.  While nothing raised
    and no flush was forced: whenever the buffer holds an alert, the manager's task is
    sleeping towards a deadline at most one digest window after each of the buffer's
    alerts was queued, or waits for the lock, or is sending; with the buffer empty there is
    no task. *)
Theorem alert_has_flush t0 rs0 w :
  reachable t0 rs0 w -> Forall calm (log w) ->
  cancelling w = false /\
  match flush_task w with
  | NoTask => buffer w = []
  | Sleeping d => buffer w <> [] /\
      Forall (fun t => t <= now w /\ d <= t + digest_window) (pending_times (log w))
  | AwaitingLock => buffer w <> [] /\ WTask ∈ queue w
  | Sending => buffer w <> [] /\ exists f, flushing w = Some f /\ forced f = false
  end.
Proof. apply has_flush. Qed.

(** ** The flush comes *)

Fixpoint position (q : list waiter) : nat :=
  match q with [] | WTask :: _ => 0%nat | _ :: q' => S (position q') end.

(** How far the task is from the end of its flush: its stage, and what is before it there. *)
Definition rank (w : world) : nat * nat :=
  match flush_task w with
  | NoTask => (0, 0)%nat
  | Sleeping _ => (2, 0)%nat
  | AwaitingLock => (1, position (queue w))%nat
  | Sending => (0, match flushing w with Some f => length (rest f) | None => 0 end)%nat
  end.

Definition rank_lt (a b : nat * nat) : Prop := (a.1 < b.1 \/ a.1 = b.1 /\ a.2 < b.2)%nat.

(** The steps that serve the task: its timer, the lock passed on, its digest's end. *)
Definition serves (w : world) (s : label) : bool :=
  match flush_task w, s with
  | Sleeping _, TimerFires | AwaitingLock, Wake | Sending, DigestEnds _ => true
  | _, _ => false
  end.

(** After a step the buffer is flushed, or the task is no farther, and nearer if served. *)
Definition advances (w : world) (s : label) (w' : world) : Prop :=
  buffer w' = [] \/
  flush_task w' <> NoTask /\ (rank w' = rank w \/ rank_lt (rank w') (rank w)) /\
  (serves w s = true -> rank_lt (rank w') (rank w)).

Lemma position_app q x : WTask ∈ q -> position (q ++ [x]) = position q.
Proof.
  induction q as [|y q IH]; [by intros ?%elem_of_nil|]. intros [<-|Hq]%elem_of_cons; [done|].
  destruct y; cbn; by rewrite ?IH.
Qed.

Lemma flush_result_advances w l w' :
  flush_task w = Sending -> flush_result w false l w' -> Forall calm (log w') ->
  buffer w' = [] \/ flush_task w' = Sending /\ exists f, flushing w' = Some f /\ (length (rest f) < length l)%nat.
Proof.
  intros Ht Hr Hcalm. destruct Hr as [l|pre x post|pre x post]; [by left| |right].
  - rewrite release_log in Hcalm. cbn in Hcalm. rewrite !Forall_app, Forall_singleton in Hcalm. naive_solver.
  - split; [done|]. eexists. split; [done|]. cbn. rewrite length_app. cbn. lia.
Qed.

Lemma begin_flush_sends w :
  in_loop (set_task w Sending) false (buffer w) -> Forall calm (log (begin_flush w false)) ->
  buffer (begin_flush w false) = [] \/ flush_task (begin_flush w false) = Sending.
Proof.
  intros Hl. unfold begin_flush. cbn [buffer set_task]. destruct (buffer w) as [|x l] eqn:E.
  { intros _. by left. }
  intros Hcalm. destruct (flush_result_advances (set_task w Sending) (x :: l)
    (next_digest (set_task w Sending) false (x :: l))) as [H|[H _]];
    [done|apply next_digest_result; by eapply items_nonempty|done|by left|by right].
Qed.

Lemma sends_advances w s w' :
  (0 < (rank w).1)%nat -> buffer w' = [] \/ flush_task w' = Sending -> advances w s w'.
Proof.
  intros Hr [H|H]; [by left|]. right. split; [by rewrite H|].
  assert (Hlt : rank_lt (rank w') (rank w)) by (left; unfold rank at 1; by rewrite H).
  by split; [right|].
Qed.

Lemma send_locked_task w q :
  flush_task w <> NoTask -> flush_task (send_locked w q) = flush_task w /\ flushing (send_locked w q) = flushing w
    /\ queue (send_locked w q) = queue w.
Proof.
  intros Ht. destruct (send_locked_spec w q) as (b & ids & st & _ & ->).
  destruct st; [done|]. destruct b; [done|]. by destruct (flush_task w) eqn:Et.
Qed.

Lemma digest_ends_advances w f a :
  shape w -> quiet w -> flushing w = Some f -> Forall calm (log (digest_ends w f a)) ->
  advances w (DigestEnds a) (digest_ends w f a).
Proof.
  intros Hs Hqt Hw. pose proof (quiet_flush _ Hqt f Hw) as Hf. pose proof (quiet_cancel _ Hqt) as Hc.
  assert (Hsend : flush_task w = Sending) by (destruct Hs as [_ Hfs _ _ _ _]; by apply (Hfs f Hw)).
  unfold digest_ends. destruct (current f) as [id ms]. rewrite Hf.
  set (stamped := match a with Sent true => db_up w && d_mem id (rows w) | _ => false end).
  assert (Hset : exists rs, (if stamped then set_rows w (mark_sent (rows w) id (now w)) else w) = set_rows w rs).
  { destruct stamped; [by eexists|]. exists (rows w). by destruct w. }
  destruct Hset as [rs ->]. intros Hcalm.
  pose proof (digest_ends_in_loop w f rs [Handed id ms stamped] Hs Hw (fun _ => Hc)) as Hin.
  set (w1 := add_log (set_rows w rs) [Handed id ms stamped]) in *.
  destruct (flush_result_advances w1 (rest f) (next_digest w1 false (rest f))) as [H|(Ht & g & Hg & Hlen)];
    [done|apply next_digest_result; by eapply items_nonempty|done|by left|right].
  rewrite Ht. split; [done|].
  assert (Hlt : rank_lt (rank (next_digest w1 false (rest f))) (rank w))
    by (right; unfold rank; rewrite Ht, Hg, Hsend, Hw; cbn; lia).
  by split; [right|].
Qed.

Lemma step_advances w s w' :
  shape w -> quiet w -> flush_task w <> NoTask -> step_kind w s w' -> Forall calm (log w') -> advances w s w'.
Proof.
  intros Hs Hqt Hnt Hk. pose proof Hqt as [Hc Hq Hf Ht He Hp Hd].
  assert (Hsame : forall w1 s1, flush_task w1 = flush_task w -> flushing w1 = flushing w -> queue w1 = queue w ->
    serves w s1 = false -> advances w s1 w1).
  { intros w1 s1 E1 E2 E3 E4. right. split; [by rewrite E1|]. split; [left|by rewrite E4].
    unfold rank. by rewrite E1, E2, E3. }
  assert (Hwait : flush_task w = AwaitingLock -> WTask ∈ queue w).
  { intros Et. destruct Hs as [_ _ _ Hqs _ _]. rewrite Et in Hqs. clear -Hqs. unfold waiting_tasks in Hqs.
    induction (queue w) as [|x l IH]; [done|]. destruct x; cbn in Hqs; [right|left|right]; auto. }
  destruct Hk as [s w' (Eb & Et & Ec & Ef & El & En) Eq Hserve|q Hn Hqe|q|d Et Ec Hdl Hn Hql|d Et Ec
    |q l Hn Hql|l Hn Hql|l Hn Hql _|f a Hfl Hfc| |Hcan]; intros Hcalm.
  - apply Hsame; try done. unfold serves. by destruct (flush_task w), s.
  - destruct (send_locked_task w q Hnt) as (E1 & E2 & E3). apply Hsame; try done. by unfold serves; destruct (flush_task w).
  - right. split; [done|]. split; [left|by unfold serves; destruct (flush_task w)].
    unfold rank. cbn. destruct (flush_task w) eqn:Et; try done. by rewrite position_app by by apply Hwait.
  - apply sends_advances; [unfold rank; rewrite Et; cbn; lia|]. apply begin_flush_sends; [|done].
    apply (begin_flush_in_loop w false); [done|]. split; [done|]. by rewrite Hql.
  - right. split; [done|]. assert (Hlt : rank_lt (1, position (queue w ++ [WTask]))%nat (rank w))
      by (left; unfold rank; rewrite Et; cbn; lia). by split; [right|].
  - destruct (send_locked_task (set_queue w l) q Hnt) as (E1 & E2 & E3). right. rewrite E1. split; [done|].
    unfold rank, serves. rewrite E1, E2, E3, Hql. cbn.
    destruct (flush_task w) eqn:Et; cbn; [done|by split; [left|]| |].
    + split; [right|intros _]; right; cbn; lia.
    + rewrite Hn. by split; [left|].
  - destruct Hq. rewrite Hql. by left.
  - pose proof (wake_task_in_loop w l Hs Hn Hql Hc) as Hin.
    assert (Et : flush_task w = AwaitingLock).
    { destruct Hs as [_ _ _ Hqs _ _]. rewrite Hql in Hqs. by destruct (flush_task w). }
    apply sends_advances; [unfold rank; rewrite Et; cbn; lia|]. by apply begin_flush_sends.
  - by apply digest_ends_advances.
  - destruct (flush_now_log w Hs) as [k Hk]. rewrite Hk, !Forall_app, Forall_singleton in Hcalm. naive_solver.
  - by rewrite Hcan in Hc.
Qed.

(** C16: flushes come.  While nothing raised and no flush was forced, and the buffer holds an
    alert: the task can be served now, or sleeps until a deadline ahead; and every step, of
    the task or of anyone else (senders, waiters, configuration, time), leaves the buffer
    flushed or the task no farther from its flush's end, and strictly nearer when the step
    serves it.  The rank being well founded, finitely many serving steps hand every alert
    of the buffer over, whatever runs between them. *)
Theorem flush_comes t0 rs0 w :
  reachable t0 rs0 w -> Forall calm (log w) -> buffer w <> [] ->
  ((exists d, flush_task w = Sleeping d /\ now w < d) \/
   exists s w', serves w s = true /\ step w s = Some w') /\
  forall s w', step w s = Some w' -> Forall calm (log w') -> advances w s w'.
Proof.
  intros Hr Hcalm Hb. pose proof (reachable_shape _ _ _ Hr) as Hs.
  pose proof (reachable_quiet _ _ _ Hr Hcalm) as Hq.
  assert (Hnt : flush_task w <> NoTask) by (intros H; by apply Hb, (quiet_task _ Hq)).
  split; [|intros s w' Hst Hcalm'; apply step_advances; [..|by apply step_kinds|]; done].
  destruct (has_flush _ _ _ Hr Hcalm) as [Hc Ht]. unfold serves, step.
  destruct (flush_task w) as [|d| |] eqn:Et; [done|..].
  - destruct (now w <? d) eqn:E; [left; exists d; by to_prop|right].
    exists TimerFires. rewrite Hc. cbn. destruct (lock_free w); by eexists.
  - right. exists Wake. destruct Ht as [_ Hin]. destruct (flushing w) as [f|] eqn:Ef.
    { destruct Hs as [_ Hfs _ _ _ _]. apply (quiet_flush _ Hq) in Ef as Hf. apply (Hfs f Ef) in Hf. congruence. }
    destruct (queue w) as [|x l] eqn:Eq; [by apply elem_of_nil in Hin|].
    rewrite Hc. destruct x; by eexists.
  - right. destruct Ht as (_ & f & Ef & Hf). exists (DigestEnds SendError). rewrite Ef, Hf, Hc. by eexists.
Qed.

(** ** Whom an alert reaches *)

(** The loaded methods that take the alert, in order. *)
Definition taker (rs : list (Z * row)) (q : request) (x : Z * method) : bool :=
  match d_get x.1 rs with
  | Some r => match accepts q r with Ok b => b | Raise _ => false end
  | None => false
  end.
Definition takers (rs : list (Z * row)) (q : request) (ms : list (Z * method)) : list Z :=
  map fst (List.filter (taker rs q) ms).

Definition filters_ok (rs : list (Z * row)) (q : request) (ms : list (Z * method)) : Prop :=
  forall id r, id ∈ keys ms -> d_get id rs = Some r -> is_ok (accepts q r) = true.

Lemma queue_all_takers rs q ms b ids :
  filters_ok rs q ms ->
  queue_all true rs q ms b ids =
    (fold_left (fun b id => append_alert id (body q) b) (takers rs q ms) b, ids ++ takers rs q ms, None).
Proof.
  unfold takers. revert b ids. induction ms as [|[id m] ms IH]; intros b ids Hok; cbn; [by rewrite app_nil_r|].
  assert (Hok' : filters_ok rs q ms) by (intros i r Hi; apply Hok; by right).
  assert (Htk : taker rs q (id, m) = match d_get id rs with
    | Some r => match accepts q r with Ok b => b | Raise _ => false end | None => false end) by done.
  destruct (d_get id rs) as [r|] eqn:Er; [|rewrite Htk; by apply IH].
  assert (Ha : is_ok (accepts q r) = true) by (apply (Hok id r); [by left|done]).
  destruct (accepts q r) as [[]|]; [|rewrite Htk; by apply IH|done].
  rewrite Htk, IH by done. by rewrite <-app_assoc.
Qed.

Lemma get_all_fold id m l b :
  NoDup l -> get_all id (fold_left (fun b id => append_alert id m b) l b) =
    get_all id b ++ (if bool_decide (id ∈ l) then [m] else []).
Proof.
  revert b. induction l as [|i l IH]; intros b Hnd; cbn [fold_left].
  { rewrite bool_decide_false by apply not_elem_of_nil. by rewrite app_nil_r. }
  apply NoDup_cons in Hnd as [Hn Hnd]. rewrite IH by done. rewrite get_all_append, <-app_assoc. f_equal.
  destruct (decide (i = id)) as [->|Hne].
  - rewrite (bool_decide_true (id = id)), (bool_decide_false (id ∈ l)) by done.
    by rewrite bool_decide_true by by left.
  - rewrite (bool_decide_false (i = id)) by done.
    assert (Hb : bool_decide (id ∈ i :: l) = bool_decide (id ∈ l))
      by (apply bool_decide_ext; rewrite elem_of_cons; naive_solver). by rewrite Hb.
Qed.

(** An alert reaches exactly the methods whose filters take it.  With the database up
    and every loaded method's filter well formed: one entry per method that is loaded, has
    a row, is enabled for the alert's type and the task's channels and passes the source
    filter, in the order the methods were loaded; each of their queues grows by the alert,
    and no other queue changes. *)
Theorem send_reaches w q :
  db_up w = true -> NoDup (keys (methods w)) -> filters_ok (rows w) q (methods w) ->
  let ids := takers (rows w) q (methods w) in
  log (send_locked w q) = log w ++ map (fun id => Queued id (body q) (now w)) ids /\
  forall id, get_all id (buffer (send_locked w q)) =
    get_all id (buffer w) ++ (if bool_decide (id ∈ ids) then [body q] else []).
Proof.
  intros Hup Hnd Hok. cbn zeta. destruct (send_locked_spec w q) as (b & ids & st & Eq & ->).
  rewrite Hup, queue_all_takers in Eq by done. cbn [app] in Eq. injection Eq as <- <- <-.
  assert (Ht : NoDup (takers (rows w) q (methods w))) by by apply keys_NoDup_filter.
  set (b := fold_left _ _ _). assert (Hg : forall id, get_all id b = get_all id (buffer w) ++
    (if bool_decide (id ∈ takers (rows w) q (methods w)) then [body q] else [])) by (intros id; by apply get_all_fold).
  clearbody b. destruct b as [|x b]; [done|]. by destruct (flush_task w).
Qed.

(** ** Runs *)

Fixpoint run (w : world) (l : list label) : option world :=
  match l with [] => Some w | s :: l' => match step w s with Some w' => run w' l' | None => None end end.

Lemma run_reachable t0 rs0 w l w' : reachable t0 rs0 w -> run w l = Some w' -> reachable t0 rs0 w'.
Proof.
  revert w. induction l as [|s l IH]; intros w Hr; cbn; [by intros [= <-]|].
  destruct (step w s) as [w1|] eqn:E; [|done]. apply IH. by econstructor.
Qed.

End manager.

Definition discord : method_class :=
  {| method_type := "discord"; display_name := "Discord"; required_config_fields := ["webhook_url"];
     optional_config_fields := [] |}.
Definition sample_row (sources : column) : row :=
  {| row_name := "ops"; row_type := "discord"; enabled := true; row_config := Null;
     notify_info := false; notify_success := true; notify_warning := true; notify_error := true;
     alert_sources := sources; last_sent_at := None |}.
Definition sample_alert : alert :=
  {| title := "EPG"; message := "refreshed"; notification_type := "success"; source := None;
     metadata := []; timestamp := 0 |}.
Definition sample_request : request :=
  {| body := sample_alert; alert_category := Some "epg_refresh"%string; entity_id := Some 4; failures := 0;
     channel_settings := None |}.
Definition sample_rows : list (Z * row) := [(1, sample_row Null); (2, sample_row Null)].
Definition run_sample (rs : list (Z * row)) (l : list label) : option world :=
  run 30 [("discord"%string, discord)] (initial 0 rs) l.

(** Two methods, one alert, its digest handed to the first. *)
Definition half_flushed : list label :=
  [LoadMethods; SendAlert sample_request; Tick 30; TimerFires; DigestEnds (Sent true)].

Example flush_goes_out :
  option_map (fun w => (taken 1 (log w), taken 2 (log w), buffer w, flush_task w))
    (run_sample sample_rows (half_flushed ++ [DigestEnds (Sent false)])) =
  Some ([sample_alert], [sample_alert], [], NoTask).
Proof. vm_compute. reflexivity. Qed.

(** A row whose source filter has a null category raises in [send_alert]: the alert queued
    for the methods before it stays in the buffer, with no flush to come. *)
Example malformed_filter_strands :
  option_map (fun w => (buffer w, flush_task w))
    (run_sample [(1, sample_row Null); (2, sample_row (Parsed (PDict [("epg_refresh", PNone)])))]
       [LoadMethods; SendAlert sample_request]) =
  Some ([(1, [sample_alert])], NoTask).
Proof. vm_compute. reflexivity. Qed.

(** A database error in the flush ends it with the buffer kept and no flush to come; what
    was handed over before the error is handed over again by the next one. *)
Example database_error_strands :
  option_map (fun w => (buffer w, flush_task w, taken 1 (log w)))
    (run_sample sample_rows ([LoadMethods; SendAlert sample_request; Tick 30; TimerFires;
       Database false; DigestEnds (Sent true)])) =
  Some ([(1, [sample_alert]); (2, [sample_alert])], NoTask, [sample_alert]) /\
  option_map (fun w => taken 1 (log w))
    (run_sample sample_rows [LoadMethods; SendAlert sample_request; Tick 30; TimerFires;
       Database false; DigestEnds (Sent true); Database true; SendAlert sample_request; Tick 30;
       TimerFires; DigestEnds (Sent true)]) =
  Some [sample_alert; sample_alert; sample_alert].
Proof. vm_compute. split; reflexivity. Qed.

(** [flush_now] during a flush cancels it between two digests and starts over: the first
    method gets the same digest twice. *)
Example forced_flush_repeats :
  option_map (fun w => (queued 1 (log w), taken 1 (log w)))
    (run_sample sample_rows (half_flushed ++
       [FlushNow; DeliverCancel; Wake; DigestEnds (Sent true); DigestEnds (Sent true)])) =
  Some ([sample_alert], [sample_alert; sample_alert]).
Proof. vm_compute. reflexivity. Qed.

(** An alert sent before the cancelled task has run sees it as not done and schedules no
    flush. *)
Example forced_then_send_strands :
  option_map (fun w => (buffer w, flush_task w))
    (run_sample [(1, sample_row Null)]
       [LoadMethods; SendAlert sample_request; SetRows []; FlushNow; SetRows [(1, sample_row Null)];
        SendAlert sample_request; DeliverCancel]) =
  Some ([(1, [sample_alert])], NoTask).
Proof. vm_compute. reflexivity. Qed.

(** ** Witnesses *)

Lemma run_sample_reachable rs l w :
  run_sample rs l = Some w -> reachable 30 [("discord"%string, discord)] 0 rs w.
Proof. intros H. eapply run_reachable; [constructor|exact H]. Qed.

Lemma exactly_once_witness :
  exists w, run_sample sample_rows half_flushed = Some w /\
    queued 2 (log w) = taken 2 (log w) ++ pending 2 w /\ pending 2 w = [sample_alert].
Proof.
  eexists. split; [vm_compute; reflexivity|]. split; [|reflexivity].
  apply (exactly_once 30 [("discord"%string, discord)] 0 sample_rows).
  - apply (run_sample_reachable _ half_flushed). vm_compute. reflexivity.
  - repeat constructor.
Defined.

Lemma alert_has_flush_witness :
  exists w, run_sample sample_rows [LoadMethods; Tick 7; SendAlert sample_request] = Some w /\
    flush_task w = Sleeping 37 /\ cancelling w = false /\
    Forall (fun t => t <= now w /\ 37 <= t + 30) (pending_times (log w)).
Proof.
  eexists. split; [vm_compute; reflexivity|]. split; [reflexivity|].
  match goal with |- cancelling ?w = false /\ _ =>
    destruct (alert_has_flush 30 [("discord"%string, discord)] 0 sample_rows w) as [Hc [_ Ht]] end.
  - apply (run_sample_reachable _ [LoadMethods; Tick 7; SendAlert sample_request]). vm_compute. reflexivity.
  - repeat constructor.
  - split; [exact Hc|exact Ht].
Defined.

Lemma flush_comes_witness :
  exists w w', run_sample sample_rows half_flushed = Some w /\
    step 30 [("discord"%string, discord)] w (DigestEnds (Sent true)) = Some w' /\
    advances w (DigestEnds (Sent true)) w'.
Proof.
  eexists _, _. split; [vm_compute; reflexivity|]. split; [vm_compute; reflexivity|].
  refine (proj2 (flush_comes 30 [("discord"%string, discord)] 0 sample_rows _ _ _ _) _ _ _ _).
  - apply (run_sample_reachable _ half_flushed). vm_compute. reflexivity.
  - repeat constructor.
  - discriminate.
  - vm_compute. reflexivity.
  - repeat constructor.
Defined.

Lemma send_reaches_witness :
  exists w, run_sample sample_rows [LoadMethods] = Some w /\
    log (send_locked 30 w sample_request) = [Queued 1 sample_alert 0; Queued 2 sample_alert 0].
Proof.
  eexists. split; [vm_compute; reflexivity|].
  match goal with |- log (send_locked _ ?w _) = _ =>
    destruct (send_reaches 30 w sample_request) as [Hl _] end.
  - reflexivity.
  - apply (bool_decide_unpack _). vm_compute. exact I.
  - intros id r Hid. vm_compute in Hid. intros Hr. unfold keys in Hid.
    apply elem_of_cons in Hid as [->|Hid]; [vm_compute in Hr; injection Hr as <-; reflexivity|].
    apply list_elem_of_singleton in Hid as ->. vm_compute in Hr. injection Hr as <-. reflexivity.
  - rewrite Hl. reflexivity.
Defined.

End AlertManager.
