(* ===== verification/M3uChanges.v ===== *)
(** * M3U change detection ([backend/m3u_change_detector.py]).

    Snapshots of a playlist's groups, the changes between a state and the last snapshot,
    their log and its summary.  The two tables are the state; a snapshot's JSON column is
    the groups it was given, which [json] reads back.  A Python set is iterated in an order
    nobody chooses, a parameter here. *)
From stdpp Require Import gmap sets.
From S2P Require Import Prelude PyValue PyDict.
Open Scope Z_scope.

Module M3uChanges.

(** ** Data *)

(** One group of a state: the keys the callers write and the snapshot adds. *)
Record group := {
  name : string;
  stream_count : Z;
  group_enabled : bool;
  is_stale : bool;
  stream_names : option (list string);
}.

Record group_change := {
  gc_name : string;
  gc_count : Z;
  gc_enabled : bool;
}.

Record stream_change := {
  sc_name : string;
  sc_names : list string;
  sc_count : Z;
  sc_enabled : bool;
}.

(** [M3UChangeSet] *)
Record change_set := {
  account : Z;
  previous_snapshot_id : option Z;
  current_snapshot_id : Z;
  change_time : Z;
  groups_added : list group_change;
  groups_removed : list group_change;
  streams_added : list stream_change;
  streams_removed : list stream_change;
  total_streams_before : Z;
  total_streams_after : Z;
}.

Definition has_changes (c : change_set) : bool :=
  match groups_added c, groups_removed c, streams_added c, streams_removed c with
  | [], [], [], [] => false
  | _, _, _, _ => true
  end.

Definition total_changes (c : change_set) : nat :=
  (length (groups_added c) + length (groups_removed c) + length (streams_added c) +
   length (streams_removed c))%nat.

Definition stream_count_delta (c : change_set) : Z := total_streams_after c - total_streams_before c.

(** [M3USnapshot] and [M3UChangeLog] rows. *)
Record snapshot := {
  snapshot_id : Z;
  snapshot_account : Z;
  snapshot_time : Z;
  snapshot_groups : list group;
  total_streams : Z;
  dispatcharr_updated_at : option string;
}.

Record change_log := {
  log_id : Z;
  log_account : Z;
  log_time : Z;
  change_type : string;
  log_group : string;
  log_names : list string;
  log_count : Z;
  log_enabled : bool;
  log_snapshot : Z;
}.

Record db := { snapshots : list snapshot; logs : list change_log; next_id : Z; next_log : Z }.

Definition set_snapshots (d : db) (l : list snapshot) (n : Z) : db :=
  {| snapshots := l; logs := logs d; next_id := n; next_log := next_log d |}.
Definition set_logs (d : db) (l : list change_log) (n : Z) : db :=
  {| snapshots := snapshots d; logs := l; next_id := next_id d; next_log := n |}.

(** ** Snapshots *)

Definition names_of (lookup : option (dict_of (list string))) (n : string) : option (list string) :=
  match lookup with Some d => d_get n d | None => None end.

(** A group as it is stored: with its captured names, if there are any for it. *)
Definition enrich (lookup : option (dict_of (list string))) (g : group) : group :=
  match names_of lookup (name g) with
  | Some l => {| name := name g; stream_count := stream_count g; group_enabled := group_enabled g;
                 is_stale := is_stale g; stream_names := Some l |}
  | None => g
  end.

Definition create_snapshot (d : db) (now acct : Z) (groups : list group) (total : Z)
    (updated : option string) (lookup : option (dict_of (list string))) : db * snapshot :=
  let s := {| snapshot_id := next_id d; snapshot_account := acct; snapshot_time := now;
              snapshot_groups := map (enrich lookup) groups; total_streams := total;
              dispatcharr_updated_at := updated |} in
  (set_snapshots d (snapshots d ++ [s]) (next_id d + 1), s).

(** The latest of the snapshots that pass. *)
Definition latest (p : snapshot -> bool) (l : list snapshot) : option snapshot :=
  fold_left (fun best s =>
    if p s then
      match best with
      | Some b => if snapshot_time b <? snapshot_time s then Some s else best
      | None => Some s
      end
    else best) l None.

Definition get_latest_snapshot (d : db) (acct : Z) : option snapshot :=
  latest (fun s => snapshot_account s =? acct) (snapshots d).

Definition get_previous_snapshot (d : db) (acct before : Z) : option snapshot :=
  latest (fun s => (snapshot_account s =? acct) && (snapshot_id s <? before)) (snapshots d).

(** ** The multiset difference of two lists of names *)

Definition counter (l : list string) : dict_of nat :=
  fold_left (fun c x => d_set x (S (default 0%nat (d_get x c))) c) l [].

(** [Counter(a) - Counter(b)]: the positive differences, in [a]'s order. *)
Definition minus_count (b : dict_of nat) (x : string * nat) : string * nat :=
  (x.1, (x.2 - default 0 (d_get x.1 b))%nat).
Definition counter_sub (a b : dict_of nat) : dict_of nat :=
  List.filter (fun x => (0 <? x.2)%nat) (map (minus_count b) a).

Definition elements_of (c : dict_of nat) : list string := concat (map (fun x => repeat x.1 x.2) c).

Definition names_gained (before after : list string) : list string :=
  elements_of (counter_sub (counter after) (counter before)).

(** ** Detection *)

Section detect.
(** The order a set is iterated in. *)
Context (set_list : gset string -> list string).

Definition MAX_STREAM_NAMES : Z := 500.

(** [{g["name"]: g for g in groups}] *)
Definition by_name (groups : list group) : dict_of group :=
  fold_left (fun d g => d_set (name g) g d) groups [].

Definition group_names (d : dict_of group) : gset string := list_to_set (keys d).

Definition group_change_of (g : group) (n : string) : group_change :=
  {| gc_name := n; gc_count := stream_count g; gc_enabled := group_enabled g |}.

Definition change_of (n : string) (names : list string) (count : Z) (enabled : bool) : stream_change :=
  {| sc_name := n; sc_names := names; sc_count := count; sc_enabled := enabled |}.

(** The first state of an account: every group added, and the streams of each that has any. *)
Definition baseline_streams (lookup : option (dict_of (list string))) (g : group) : list stream_change :=
  if 0 <? stream_count g then
    [change_of (name g) (default [] (names_of lookup (name g))) (stream_count g) (group_enabled g)]
  else [].

(** The names in one list and not in another, when both are known. *)
Definition fresh_names (these others : list string) : list string :=
  match these, others with
  | [], _ => []
  | _, [] => set_list (list_to_set these)
  | _, _ => set_list (list_to_set these ∖ list_to_set others)
  end.

(** The stream changes of a group in both states: additions and removals. *)
Definition common_changes (lookup : option (dict_of (list string))) (n : string) (prev curr : group)
    : list stream_change * list stream_change :=
  let prev_names := default [] (stream_names prev) in
  let curr_names := default [] (names_of lookup n) in
  let enabled := group_enabled curr in
  if stream_count prev <? stream_count curr then
    ([change_of n (fresh_names curr_names prev_names) (stream_count curr - stream_count prev) enabled], [])
  else if stream_count curr <? stream_count prev then
    ([], [change_of n (fresh_names prev_names curr_names) (stream_count prev - stream_count curr) enabled])
  else
    match prev_names, curr_names with
    | _ :: _, _ :: _ =>
        if (stream_count prev <? MAX_STREAM_NAMES) && (stream_count curr <? MAX_STREAM_NAMES) then
          let added := names_gained prev_names curr_names in
          let removed := names_gained curr_names prev_names in
          (match added with [] => [] | _ => [change_of n added (Z.of_nat (length added)) enabled] end,
           match removed with [] => [] | _ => [change_of n removed (Z.of_nat (length removed)) enabled] end)
        else ([], [])
    | _, _ => ([], [])
    end.

Definition change_at {A} (d : dict_of group) (f : group -> string -> A) (n : string) : list A :=
  match d_get n d with Some g => [f g n] | None => [] end.

Definition common_at (lookup : option (dict_of (list string))) (prev curr : dict_of group) (n : string)
    : list stream_change * list stream_change :=
  match d_get n prev, d_get n curr with
  | Some p, Some c => common_changes lookup n p c
  | _, _ => ([], [])
  end.

(** The four lists of changes between two states. *)
Definition diff (lookup : option (dict_of (list string))) (prev curr : list group)
    : (list group_change * list group_change) * (list stream_change * list stream_change) :=
  let p := by_name prev in
  let c := by_name curr in
  let common := set_list (group_names p ∩ group_names c) in
  ((concat (map (change_at c group_change_of) (set_list (group_names c ∖ group_names p))),
    concat (map (change_at p group_change_of) (set_list (group_names p ∖ group_names c)))),
   (concat (map (fun n => (common_at lookup p c n).1) common),
    concat (map (fun n => (common_at lookup p c n).2) common))).

Definition detect_changes (d : db) (now acct : Z) (groups : list group) (total : Z)
    (lookup : option (dict_of (list string))) (updated : option string) : db * change_set :=
  let previous := get_latest_snapshot d acct in
  let '(d', current) := create_snapshot d now acct groups total updated lookup in
  (d',
   match previous with
   | None =>
       {| account := acct; previous_snapshot_id := None; current_snapshot_id := snapshot_id current;
          change_time := now;
          groups_added := map (fun g => group_change_of g (name g)) groups; groups_removed := [];
          streams_added := concat (map (baseline_streams lookup) groups); streams_removed := [];
          total_streams_before := 0; total_streams_after := total |}
   | Some p =>
       let '((ga, gr), (sa, sr)) := diff lookup (snapshot_groups p) groups in
       {| account := acct; previous_snapshot_id := Some (snapshot_id p);
          current_snapshot_id := snapshot_id current; change_time := now;
          groups_added := ga; groups_removed := gr; streams_added := sa; streams_removed := sr;
          total_streams_before := total_streams p; total_streams_after := total |}
   end).
End detect.

(** ** The log *)

Definition log_of_group (c : change_set) (type : string) (g : group_change) (id : Z) : change_log :=
  {| log_id := id; log_account := account c; log_time := change_time c; change_type := type;
     log_group := gc_name g; log_names := []; log_count := gc_count g; log_enabled := gc_enabled g;
     log_snapshot := current_snapshot_id c |}.
Definition log_of_streams (c : change_set) (type : string) (s : stream_change) (id : Z) : change_log :=
  {| log_id := id; log_account := account c; log_time := change_time c; change_type := type;
     log_group := sc_name s; log_names := sc_names s; log_count := sc_count s;
     log_enabled := sc_enabled s; log_snapshot := current_snapshot_id c |}.

Definition entries (c : change_set) : list (Z -> change_log) :=
  map (log_of_group c "group_added") (groups_added c) ++
  map (log_of_group c "group_removed") (groups_removed c) ++
  map (log_of_streams c "streams_added") (streams_added c) ++
  map (log_of_streams c "streams_removed") (streams_removed c).

(** [persist_changes] *)
Definition persist_changes (d : db) (c : change_set) : db * list change_log :=
  let new := map (fun x => x.2 (next_log d + Z.of_nat x.1)) (enumerate (entries c)) in
  if has_changes c then (set_logs d (logs d ++ new) (next_log d + Z.of_nat (length new)), new)
  else (d, []).

(** [get_changes_since], latest first. *)
Definition in_scope (since : Z) (acct : option Z) (l : change_log) : bool :=
  (since <=? log_time l) && match acct with Some a => log_account l =? a | None => true end.
Definition newest_first (a b : change_log) : bool := log_time b <=? log_time a.
Definition get_changes_since (d : db) (since : Z) (acct : option Z) : list change_log :=
  py_sorted newest_first (List.filter (in_scope since acct) (logs d)).

Record summary := {
  sum_changes : nat;
  sum_groups_added : Z;
  sum_groups_removed : Z;
  sum_streams_added : Z;
  sum_streams_removed : Z;
  accounts_affected : gset Z;
}.

Definition empty_summary (n : nat) : summary :=
  {| sum_changes := n; sum_groups_added := 0; sum_groups_removed := 0; sum_streams_added := 0;
     sum_streams_removed := 0; accounts_affected := ∅ |}.

Definition tally (s : summary) (l : change_log) : summary :=
  let kind t := bool_decide (change_type l = t) in
  {| sum_changes := sum_changes s;
     sum_groups_added := sum_groups_added s + (if kind "group_added" then 1 else 0);
     sum_groups_removed := sum_groups_removed s + (if kind "group_removed" then 1 else 0);
     sum_streams_added := sum_streams_added s + (if kind "streams_added" then log_count l else 0);
     sum_streams_removed := sum_streams_removed s + (if kind "streams_removed" then log_count l else 0);
     accounts_affected := {[ log_account l ]} ∪ accounts_affected s |}.

Definition get_change_summary (d : db) (since : Z) (acct : option Z) : summary :=
  let changes := get_changes_since d since acct in
  fold_left tally changes (empty_summary (length changes)).

(** ** Multiset differences *)

Definition occurrences (x : string) (l : list string) : nat := count_occ String.string_dec l x.

Lemma occurrences_app x a b : occurrences x (a ++ b) = (occurrences x a + occurrences x b)%nat.
Proof. apply count_occ_app. Qed.

Lemma occurrences_repeat x y n : occurrences x (repeat y n) = if bool_decide (y = x) then n else 0%nat.
Proof.
  unfold occurrences. case_bool_decide as H; [subst; by apply count_occ_repeat_eq|].
  by apply count_occ_repeat_neq.
Qed.

Lemma occurrences_perm a b : (forall x, occurrences x a = occurrences x b) <-> a ≡ₚ b.
Proof. symmetry. apply (Permutation_count_occ String.string_dec). Qed.

Definition tally_of (x : string) (c : dict_of nat) : nat := default 0%nat (d_get x c).

Lemma counter_spec l : NoDup (keys (counter l)) /\ forall x, tally_of x (counter l) = occurrences x l.
Proof.
  unfold counter. assert (H : forall c, NoDup (keys c) ->
    let r := fold_left (fun c x => d_set x (S (default 0%nat (d_get x c))) c) l c in
    NoDup (keys r) /\ forall x, tally_of x r = (tally_of x c + occurrences x l)%nat).
  { induction l as [|y l IH]; intros c Hc; cbn zeta; cbn [fold_left].
    - split; [done|]. intros x. cbn. lia.
    - destruct (IH (d_set y (S (default 0%nat (d_get y c))) c)) as [H1 H2]; [by apply keys_NoDup_set|].
      split; [done|]. intros x. rewrite H2. unfold tally_of, occurrences. cbn [count_occ].
      rewrite d_get_set. destruct (String.string_dec y x) as [->|Hne].
      + rewrite bool_decide_true by done. cbn. lia.
      + by rewrite bool_decide_false. }
  apply (H []). apply NoDup_nil_2.
Qed.

Lemma occurrences_elements x c : NoDup (keys c) -> occurrences x (elements_of c) = tally_of x c.
Proof.
  unfold elements_of, tally_of. induction c as [|[k n] c IH]; [done|].
  change (keys ((k, n) :: c)) with (k :: keys c). intros [Hn Hnd]%NoDup_cons. cbn [map concat d_get].
  rewrite occurrences_app, occurrences_repeat, IH by done. cbn [fst snd].
  case_bool_decide; [|done]. subst. apply d_get_None in Hn. rewrite Hn. cbn. lia.
Qed.

Lemma counter_sub_spec a b : NoDup (keys a) ->
  NoDup (keys (counter_sub a b)) /\ forall x, tally_of x (counter_sub a b) = (tally_of x a - tally_of x b)%nat.
Proof.
  unfold counter_sub, tally_of. intros Hnd.
  assert (Hk : keys (map (minus_count b) a) = keys a) by (unfold keys; rewrite map_map; by apply map_ext).
  split; [apply keys_NoDup_filter; by rewrite Hk|]. intros x.
  induction a as [|[k n] a IH]; [done|]. change (keys ((k, n) :: a)) with (k :: keys a) in Hnd.
  apply NoDup_cons in Hnd as [Hn Hnd]. assert (Hka : keys (map (minus_count b) a) = keys a) by (unfold keys; rewrite map_map; by apply map_ext).
  specialize (IH Hnd Hka). cbn [map List.filter].
  change (minus_count b (k, n)) with (k, (n - default 0 (d_get k b))%nat). cbn [d_get fst snd].
  destruct (0 <? n - default 0 (d_get k b))%nat eqn:E; to_prop.
  - cbn [d_get]. case_bool_decide; [subst; reflexivity|exact IH].
  - case_bool_decide; [subst|exact IH]. cbn [default from_option]. unfold id.
    assert (H0 : d_get x (List.filter (fun x => (0 <? x.2)%nat) (map (minus_count b) a)) = None).
    { apply d_get_None. intros Hin. apply Hn. rewrite <-Hka. unfold keys in *.
      apply elem_of_map in Hin as (y & -> & Hy). apply elem_of_list_filter in Hy as [Hy _].
      by apply elem_of_map_2. }
    rewrite H0. change (0 = n - default 0 (d_get x b))%nat. lia.
Qed.

Lemma gained_occurrences before after x :
  occurrences x (names_gained before after) = (occurrences x after - occurrences x before)%nat.
Proof.
  unfold names_gained. destruct (counter_spec after) as [Ha Hta], (counter_spec before) as [_ Htb].
  destruct (counter_sub_spec (counter after) (counter before) Ha) as [Hnd Ht].
  by rewrite occurrences_elements, Ht, Hta, Htb.
Qed.

(** What was there and what came is what is there and what went. *)
Lemma gained_exchange before after :
  before ++ names_gained before after ≡ₚ after ++ names_gained after before.
Proof. apply occurrences_perm. intros x. rewrite !occurrences_app, !gained_occurrences. lia. Qed.

Lemma gained_length before after :
  (length before + length (names_gained before after) = length after + length (names_gained after before))%nat.
Proof. pose proof (Permutation_length (gained_exchange before after)) as Hl. by rewrite !length_app in Hl. Qed.

Lemma gained_same l : names_gained l l = [].
Proof.
  apply Permutation_nil_r. apply occurrences_perm. intros x. rewrite gained_occurrences. cbn. lia.
Qed.

(** ** Changes realise the new state *)

(** The stream count of each group. *)
Definition counts (d : dict_of group) : gmap string Z := list_to_map (map (fun x => (x.1, stream_count x.2)) d).

Lemma counts_lookup d n : counts d !! n = stream_count <$> d_get n d.
Proof.
  unfold counts. induction d as [|[k g] d IH]; [done|]. cbn [map list_to_map fst snd d_get].
  rewrite list_to_map_cons. destruct (decide (k = n)) as [->|Hne].
  - by rewrite lookup_insert_eq, bool_decide_true.
  - by rewrite lookup_insert_ne, bool_decide_false.
Qed.

(** What a reader of the changes does to the counts it had. *)
Definition adjust (sign : Z) (m : gmap string Z) (s : stream_change) : gmap string Z :=
  alter (fun k => k + sign * sc_count s) (sc_name s) m.
Definition add_group (m : gmap string Z) (g : group_change) : gmap string Z := <[gc_name g := gc_count g]> m.
Definition drop_group (m : gmap string Z) (g : group_change) : gmap string Z := delete (gc_name g) m.
Definition apply_changes (c : change_set) (m : gmap string Z) : gmap string Z :=
  let m := fold_left (adjust 1) (streams_added c) m in
  let m := fold_left (adjust (-1)) (streams_removed c) m in
  fold_left add_group (groups_added c) (fold_left drop_group (groups_removed c) m).

Definition sum_counts (l : list stream_change) : Z := fold_right (fun s z => sc_count s + z) 0 l.

Lemma adjust_own sign n l m k :
  Forall (fun s => sc_name s = n) l ->
  fold_left (adjust sign) l m !! k =
    if bool_decide (k = n) then (fun z => z + sign * sum_counts l) <$> m !! k else m !! k.
Proof.
  intros Hl. revert m. induction Hl as [|s l Hs _ IH]; intros m; cbn [fold_left sum_counts fold_right].
  - case_bool_decide; [|done]. destruct (m !! k); cbn; [|done]. f_equal. lia.
  - rewrite IH. unfold adjust at 1. case_bool_decide as Hk.
    + subst k. rewrite Hs, lookup_alter_eq. destruct (m !! n); cbn; [|done]. f_equal. fold (sum_counts l). ring.
    + unfold adjust. rewrite lookup_alter_ne; [done|]. congruence.
Qed.

Lemma adjust_all sign (F : string -> list stream_change) L m k :
  (forall n, Forall (fun s => sc_name s = n) (F n)) -> NoDup L ->
  fold_left (adjust sign) (concat (map F L)) m !! k =
    if bool_decide (k ∈ L) then (fun z => z + sign * sum_counts (F k)) <$> m !! k else m !! k.
Proof.
  intros HF. revert m. induction L as [|n L IH]; intros m Hnd; [by rewrite bool_decide_false by apply not_elem_of_nil|].
  apply NoDup_cons in Hnd as [Hn Hnd]. cbn [map concat]. rewrite fold_left_app, IH by done.
  rewrite (adjust_own _ n) by apply HF. destruct (decide (k = n)) as [->|Hne].
  - rewrite (bool_decide_false (n ∈ L)), !bool_decide_true by (done || by left). done.
  - rewrite (bool_decide_false (k = n)) by done.
    assert (Hk : bool_decide (k ∈ n :: L) = bool_decide (k ∈ L))
      by (apply bool_decide_ext; rewrite elem_of_cons; naive_solver).
    by rewrite Hk.
Qed.

Lemma change_at_own {A} (d : dict_of group) (f : group -> string -> A) n x :
  x ∈ change_at d f n -> exists g, d_get n d = Some g /\ x = f g n.
Proof.
  unfold change_at. destruct (d_get n d) as [g|]; [|by intros ?%elem_of_nil].
  intros ->%list_elem_of_singleton. by exists g.
Qed.

Lemma add_groups_lookup d L m k :
  (forall n, n ∈ L -> d_get n d <> None) -> NoDup L ->
  fold_left add_group (concat (map (change_at d group_change_of) L)) m !! k =
    if bool_decide (k ∈ L) then stream_count <$> d_get k d else m !! k.
Proof.
  revert m. induction L as [|n L IH]; intros m HL Hnd; [by rewrite bool_decide_false by apply not_elem_of_nil|].
  apply NoDup_cons in Hnd as [Hn Hnd]. cbn [map concat]. rewrite fold_left_app, IH;
    [|intros x Hx; apply HL; by right|done].
  unfold change_at. destruct (d_get n d) as [g|] eqn:Eg; [|by destruct (HL n); [left|]]. cbn [fold_left].
  unfold add_group. cbn. destruct (decide (k = n)) as [->|Hne].
  - rewrite (bool_decide_false (n ∈ L)), bool_decide_true by (done || by left).
    by rewrite lookup_insert_eq, Eg.
  - rewrite lookup_insert_ne by done.
    assert (Hk : bool_decide (k ∈ n :: L) = bool_decide (k ∈ L))
      by (apply bool_decide_ext; rewrite elem_of_cons; naive_solver).
    by rewrite Hk.
Qed.

Lemma drop_groups_lookup d L m k :
  (forall n, n ∈ L -> d_get n d <> None) ->
  fold_left drop_group (concat (map (change_at d group_change_of) L)) m !! k =
    if bool_decide (k ∈ L) then None else m !! k.
Proof.
  revert m. induction L as [|n L IH]; intros m HL; [by rewrite bool_decide_false by apply not_elem_of_nil|].
  cbn [map concat]. rewrite fold_left_app, IH by (intros x Hx; apply HL; by right).
  unfold change_at. destruct (d_get n d) as [g|] eqn:Eg; [|by destruct (HL n); [left|]]. cbn [fold_left].
  unfold drop_group. cbn. destruct (decide (k = n)) as [->|Hne].
  - rewrite (bool_decide_true (n ∈ n :: L)) by by left. rewrite lookup_delete_eq. by case_bool_decide.
  - rewrite lookup_delete_ne by done.
    assert (Hk : bool_decide (k ∈ n :: L) = bool_decide (k ∈ L))
      by (apply bool_decide_ext; rewrite elem_of_cons; naive_solver).
    by rewrite Hk.
Qed.

(** What the changes of a group whose count did not move add to it: they are taken from the
    captured lists, when there are two below the cap, and these may not be equally long. *)
Definition drift (lookup : option (dict_of (list string))) (p c : group) : Z :=
  match default [] (stream_names p), default [] (names_of lookup (name c)) with
  | _ :: _ as pn, _ :: _ as cn =>
      if bool_decide (stream_count p = stream_count c) && (stream_count c <? MAX_STREAM_NAMES)
      then Z.of_nat (length cn) - Z.of_nat (length pn) else 0
  | _, _ => 0
  end.
Definition drift_from (lookup : option (dict_of (list string))) (prev : option group) (c : group) : Z :=
  match prev with Some p => drift lookup p c | None => 0 end.

(** The captured lists of a group whose count did not move are equally long, below the cap:
    so it is when each list is complete. *)
Definition balanced (lookup : option (dict_of (list string))) (n : string) (p c : group) : Prop :=
  let pn := default [] (stream_names p) in
  let cn := default [] (names_of lookup n) in
  stream_count p = stream_count c -> stream_count c < MAX_STREAM_NAMES -> pn <> [] -> cn <> [] ->
  length pn = length cn.

Lemma balanced_drift lookup p c : balanced lookup (name c) p c -> drift lookup p c = 0.
Proof.
  unfold balanced, drift. intros Hb. destruct (default [] (stream_names p)) as [|x l]; [done|].
  destruct (default [] (names_of lookup (name c))) as [|y k]; [done|].
  destruct (bool_decide _ && _) eqn:E; [|done]. to_prop.
  specialize (Hb ltac:(done) ltac:(done) ltac:(done) ltac:(done)). cbn [length] in *. lia.
Qed.

Section order.
Context (set_list : gset string -> list string).
Context (set_list_perm : forall X, set_list X ≡ₚ elements X).

Lemma elem_of_set_list n X : n ∈ set_list X <-> n ∈ X.
Proof. by rewrite set_list_perm, elem_of_elements. Qed.

Lemma NoDup_set_list X : NoDup (set_list X).
Proof. rewrite set_list_perm. apply NoDup_elements. Qed.

Lemma common_changes_names lookup n p c :
  Forall (fun s => sc_name s = n) (common_changes set_list lookup n p c).1 /\
  Forall (fun s => sc_name s = n) (common_changes set_list lookup n p c).2.
Proof.
  unfold common_changes. destruct (stream_count p <? stream_count c); [by repeat constructor|].
  destruct (stream_count c <? stream_count p); [by repeat constructor|].
  destruct (default [] (stream_names p)) as [|x l]; [by repeat constructor|].
  destruct (default [] (names_of lookup n)) as [|y k]; [by repeat constructor|].
  destruct ((_ <? _) && _); [|by repeat constructor].
  cbn [fst snd]. split; destruct (names_gained _ _); by repeat constructor.
Qed.

Lemma common_changes_sum lookup p c :
  stream_count p + sum_counts (common_changes set_list lookup (name c) p c).1 -
    sum_counts (common_changes set_list lookup (name c) p c).2 = stream_count c + drift lookup p c.
Proof.
  unfold drift, common_changes.
  destruct (default [] (stream_names p)) as [|x l], (default [] (names_of lookup (name c))) as [|y k];
    destruct (stream_count p <? stream_count c) eqn:E1; to_prop; try (rewrite ?bool_decide_false by lia; cbn; lia);
    destruct (stream_count c <? stream_count p) eqn:E2; to_prop; try (rewrite ?bool_decide_false by lia; cbn; lia);
    try (cbn; lia).
  assert (E : stream_count p = stream_count c) by lia. rewrite E, bool_decide_true, andb_diag by done.
  destruct (stream_count c <? MAX_STREAM_NAMES); [|cbn; lia].
  pose proof (gained_length (x :: l) (y :: k)) as Hg. cbn [andb fst snd].
  destruct (names_gained (x :: l) (y :: k)), (names_gained (y :: k) (x :: l));
    cbn [sum_counts fold_right change_of sc_count length] in *; lia.
Qed.

Lemma by_name_own groups n g : d_get n (by_name groups) = Some g -> name g = n.
Proof.
  unfold by_name. induction groups as [|h gs IH] using rev_ind; [done|].
  rewrite fold_left_app. cbn [fold_left]. rewrite d_get_set. case_bool_decide; [by intros [= <-]|done].
Qed.

Lemma elem_of_group_names n d : n ∈ group_names d <-> d_get n d <> None.
Proof.
  unfold group_names. rewrite elem_of_list_to_set. destruct (d_get n d) eqn:E; split; try done.
  - intros _. destruct (decide (n ∈ keys d)); [done|]. by apply d_get_None in n0; rewrite n0 in E.
  - intros Hn. by apply d_get_None in E.
Qed.

Lemma reconcile_drift d now acct groups total lookup updated p n :
  get_latest_snapshot d acct = Some p ->
  apply_changes (detect_changes set_list d now acct groups total lookup updated).2
    (counts (by_name (snapshot_groups p))) !! n =
  (fun c => stream_count c + drift_from lookup (d_get n (by_name (snapshot_groups p))) c) <$> d_get n (by_name groups).
Proof.
  intros Hp. unfold detect_changes. rewrite Hp. unfold apply_changes, diff.
  cbn [fst snd groups_added groups_removed streams_added streams_removed create_snapshot snapshot_groups].
  set (P := by_name (snapshot_groups p)) in *. set (C := by_name groups) in *.
  assert (Hdom : forall x X Y, x ∈ set_list (group_names X ∖ group_names Y) <->
    d_get x X <> None /\ d_get x Y = None).
  { intros x X Y. rewrite elem_of_set_list, elem_of_difference, !elem_of_group_names.
    destruct (d_get x Y); naive_solver. }
  rewrite add_groups_lookup; [|intros x Hx; by apply Hdom in Hx as [? _]|apply NoDup_set_list].
  rewrite drop_groups_lookup by (intros x Hx; by apply Hdom in Hx as [? _]).
  set (common := set_list (group_names P ∩ group_names C)).
  assert (Hown : forall x, Forall (fun s => sc_name s = x) (common_at set_list lookup P C x).1 /\
    Forall (fun s => sc_name s = x) (common_at set_list lookup P C x).2).
  { intros x. unfold common_at. destruct (d_get x P), (d_get x C); try by repeat constructor.
    apply common_changes_names. }
  rewrite !adjust_all by (apply NoDup_set_list || intros x; apply Hown).
  rewrite !counts_lookup.
  assert (Hcommon : n ∈ common <-> d_get n P <> None /\ d_get n C <> None)
    by (unfold common; by rewrite elem_of_set_list, elem_of_intersection, !elem_of_group_names).
  destruct (decide (n ∈ set_list (group_names C ∖ group_names P))) as [Ha|Ha].
  { rewrite bool_decide_true by done. apply Hdom in Ha as [_ ->]. destruct (d_get n C); [cbn; f_equal; lia|done]. }
  rewrite bool_decide_false by done.
  destruct (decide (n ∈ set_list (group_names P ∖ group_names C))) as [Hr|Hr].
  { rewrite bool_decide_true by done. apply Hdom in Hr as [_ ->]. done. }
  rewrite (bool_decide_false (n ∈ set_list (group_names P ∖ group_names C))) by done.
  rewrite Hdom in Ha, Hr. unfold common_at.
  destruct (d_get n P) as [g|] eqn:EP, (d_get n C) as [c|] eqn:EC; [|naive_solver..|].
  - rewrite bool_decide_true by by apply Hcommon. cbn. f_equal.
    rewrite <-(common_changes_sum lookup g c), (by_name_own groups n c EC). ring.
  - by case_bool_decide.
Qed.

Lemma reconcile d now acct groups total lookup updated p :
  get_latest_snapshot d acct = Some p ->
  (forall n g c, d_get n (by_name (snapshot_groups p)) = Some g -> d_get n (by_name groups) = Some c ->
    balanced lookup n g c) ->
  apply_changes (detect_changes set_list d now acct groups total lookup updated).2
    (counts (by_name (snapshot_groups p))) = counts (by_name groups).
Proof.
  intros Hp Hb. apply map_eq. intros n. rewrite (reconcile_drift _ _ _ _ _ _ _ p n Hp), counts_lookup.
  destruct (d_get n (by_name groups)) as [c|] eqn:Ec; [|done]. cbn. f_equal. unfold drift_from.
  destruct (d_get n (by_name (snapshot_groups p))) as [g|] eqn:Eg; [|lia].
  rewrite balanced_drift; [lia|]. rewrite (by_name_own groups n c Ec). by apply Hb.
Qed.

(** C22: the changes of a refresh are the difference of the two states.  Applied to the
    stream counts of the previous snapshot's groups, adding and removing the groups and
    streams the change set names, they give the new state's groups, and no other, each with its
    new count, whatever order the sets are iterated in.  One kind of group comes out off by its
    [drift]: its count stood still below the cap of captured names, and the two captured lists
    are not equally long (then the changes tell how the lists differ, not the counts). *)
Theorem changes_reconcile d now acct groups total lookup updated p n :
  get_latest_snapshot d acct = Some p ->
  apply_changes (detect_changes set_list d now acct groups total lookup updated).2
    (counts (by_name (snapshot_groups p))) !! n =
  (fun c => stream_count c + drift_from lookup (d_get n (by_name (snapshot_groups p))) c) <$> d_get n (by_name groups).
Proof. apply reconcile_drift. Qed.

(** ** Detecting twice *)

Lemma by_name_fold groups d n :
  d_get n (fold_left (fun d g => d_set (name g) g d) groups d) =
    match d_get n (by_name groups) with Some g => Some g | None => d_get n d end.
Proof.
  unfold by_name. revert d. induction groups as [|g gs IH] using rev_ind; intros d; [done|].
  rewrite !fold_left_app. cbn [fold_left]. rewrite !d_get_set, IH. by case_bool_decide.
Qed.

Lemma by_name_enrich lookup groups n :
  d_get n (by_name (map (enrich lookup) groups)) = enrich lookup <$> d_get n (by_name groups).
Proof.
  unfold by_name. induction groups as [|g gs IH] using rev_ind; [done|].
  rewrite map_app, !fold_left_app. cbn [fold_left map]. rewrite !d_get_set, IH.
  assert (Hname : name (enrich lookup g) = name g) by (unfold enrich; by destruct (names_of lookup (name g))).
  rewrite Hname. by case_bool_decide.
Qed.

Lemma enrich_names lookup g :
  stream_names (enrich lookup g) = match names_of lookup (name g) with Some l => Some l | None => stream_names g end
  /\ stream_count (enrich lookup g) = stream_count g.
Proof. unfold enrich. by destruct (names_of lookup (name g)). Qed.

Lemma latest_last p l s :
  p s = true -> (forall x, x ∈ l -> p x = true -> snapshot_time x < snapshot_time s) -> latest p (l ++ [s]) = Some s.
Proof.
  intros Hp Hl. unfold latest. rewrite fold_left_app. cbn [fold_left]. rewrite Hp.
  assert (Hb : forall l best b, (forall x, x ∈ l -> p x = true -> snapshot_time x < snapshot_time s) ->
    (forall b, best = Some b -> snapshot_time b < snapshot_time s) ->
    fold_left (fun best s => if p s then match best with
      | Some b => if snapshot_time b <? snapshot_time s then Some s else best
      | None => Some s end else best) l best = Some b -> snapshot_time b < snapshot_time s).
  { clear l Hl. induction l as [|x l IH]; intros best b Hl Hbest; [by apply Hbest|].
    cbn [fold_left]. apply IH; [intros y Hy; apply Hl; by right|].
    assert (Hx : p x = true -> snapshot_time x < snapshot_time s) by (apply Hl; by left).
    destruct (p x); [|done]. destruct best as [b0|]; [|intros b1 [= <-]; by apply Hx].
    destruct (snapshot_time b0 <? snapshot_time x); [intros b1 [= <-]; by apply Hx|done]. }
  destruct (fold_left _ l None) as [b|] eqn:E; [|done].
  apply Hb in E; [|done..]. by rewrite (proj2 (Z.ltb_lt _ _) E).
Qed.

Lemma latest_after d now acct groups total updated lookup :
  (forall s, s ∈ snapshots d -> snapshot_account s = acct -> snapshot_time s < now) ->
  get_latest_snapshot (create_snapshot d now acct groups total updated lookup).1 acct =
    Some (create_snapshot d now acct groups total updated lookup).2.
Proof.
  intros H. apply latest_last; cbn; [by rewrite Z.eqb_refl|]. intros x Hx Ha. apply H; [done|]. by apply Z.eqb_eq.
Qed.

Lemma set_list_empty X : X ≡ ∅ -> set_list X = [].
Proof.
  intros HX. apply Permutation_nil_r. rewrite set_list_perm. apply leibniz_equiv in HX. by rewrite HX, elements_empty.
Qed.

Lemma common_changes_same lookup n g :
  name g = n -> common_changes set_list lookup n (enrich lookup g) g = ([], []).
Proof.
  intros <-. unfold common_changes. destruct (enrich_names lookup g) as [-> ->]. rewrite Z.ltb_irrefl.
  destruct (names_of lookup (name g)) as [l|]; cbn [default from_option]; unfold id.
  - destruct l as [|x l]; [done|]. rewrite gained_same. by destruct (_ && _).
  - by destruct (stream_names g) as [[]|].
Qed.

(** A state is reported once.  Detecting again the state of the last detection finds no
    change, whatever it was compared with the first time; so what is lost if the changes of
    a committed snapshot are not persisted is not found again. *)
Theorem detected_once d t1 t2 acct groups total1 total2 lookup updated1 updated2 :
  (forall s, s ∈ snapshots d -> snapshot_account s = acct -> snapshot_time s < t1) ->
  let d1 := (detect_changes set_list d t1 acct groups total1 lookup updated1).1 in
  has_changes (detect_changes set_list d1 t2 acct groups total2 lookup updated2).2 = false.
Proof.
  intros Ht. cbn zeta. pose proof (latest_after d t1 acct groups total1 updated1 lookup Ht) as Hl.
  unfold detect_changes at 2. destruct (create_snapshot d t1 _ _ _ _ _) as [d1 s1] eqn:E1.
  cbn [fst snd] in *. unfold detect_changes. rewrite Hl.
  assert (Hs : snapshot_groups s1 = map (enrich lookup) groups) by by injection E1 as <- <-.
  destruct (create_snapshot d1 t2 _ _ _ _ _) as [d2 s2]. unfold diff. cbn [snd]. rewrite Hs.
  set (C := by_name groups). set (P := by_name (map (enrich lookup) groups)).
  assert (HP : forall n, d_get n P = enrich lookup <$> d_get n C) by apply by_name_enrich.
  assert (Hsame : group_names P ≡ group_names C).
  { intros n. rewrite !elem_of_group_names, HP. by destruct (d_get n C). }
  rewrite (set_list_empty (group_names C ∖ group_names P)) by set_solver.
  rewrite (set_list_empty (group_names P ∖ group_names C)) by set_solver.
  assert (Hc : forall n, common_at set_list lookup P C n = ([], [])).
  { intros n. unfold common_at. rewrite HP. destruct (d_get n C) as [g|] eqn:Eg; [|done].
    apply common_changes_same. by eapply by_name_own. }
  unfold has_changes. cbn [groups_added groups_removed streams_added streams_removed].
  assert (Hnil : forall l, concat (map (fun n => (common_at set_list lookup P C n).1) l) = [] /\
    concat (map (fun n => (common_at set_list lookup P C n).2) l) = []).
  { induction l as [|n l [IH1 IH2]]; [done|]. cbn [map concat]. by rewrite Hc, IH1, IH2. }
  by destruct (Hnil (set_list (group_names P ∩ group_names C))) as [-> ->].
Qed.
End order.

(** ** The log and its summary *)

Definition tot (f : change_log -> Z) (l : list change_log) : Z := fold_right Z.add 0 (map f l).

Lemma tot_app f a b : tot f (a ++ b) = tot f a + tot f b.
Proof. unfold tot. induction a as [|x a IH]; cbn; [done|]. rewrite IH. lia. Qed.

Lemma tot_perm f a b : a ≡ₚ b -> tot f a = tot f b.
Proof. unfold tot. induction 1; cbn; lia. Qed.

(** What an entry of a type counts for. *)
Definition once (type : string) (l : change_log) : Z := if bool_decide (change_type l = type) then 1 else 0.
Definition amount (type : string) (l : change_log) : Z := if bool_decide (change_type l = type) then log_count l else 0.

Lemma summary_sums d since acct :
  let l := List.filter (in_scope since acct) (logs d) in
  let s := get_change_summary d since acct in
  sum_changes s = length l /\
  sum_groups_added s = tot (once "group_added") l /\ sum_groups_removed s = tot (once "group_removed") l /\
  sum_streams_added s = tot (amount "streams_added") l /\
  sum_streams_removed s = tot (amount "streams_removed") l /\
  (forall a, a ∈ accounts_affected s <-> exists x, x ∈ l /\ log_account x = a).
Proof.
  cbn zeta. unfold get_change_summary, get_changes_since. set (l := List.filter _ _).
  assert (Hp : py_sorted newest_first l ≡ₚ l) by apply py_sorted_perm.
  revert Hp. generalize (py_sorted newest_first l) as k. intros k Hp.
  assert (Hfold : forall s, let r := fold_left tally k s in
    sum_changes r = sum_changes s /\
    sum_groups_added r = sum_groups_added s + tot (once "group_added") k /\
    sum_groups_removed r = sum_groups_removed s + tot (once "group_removed") k /\
    sum_streams_added r = sum_streams_added s + tot (amount "streams_added") k /\
    sum_streams_removed r = sum_streams_removed s + tot (amount "streams_removed") k /\
    (forall a, a ∈ accounts_affected r <-> a ∈ accounts_affected s \/ exists x, x ∈ k /\ log_account x = a)).
  { clear Hp. induction k as [|x k IH]; intros s; cbn zeta; cbn [fold_left].
    - unfold tot. cbn. split_and!; try lia. intros a. split; [by left|]. intros [|(x & Hx & _)]; [done|].
      by apply elem_of_nil in Hx.
    - destruct (IH (tally s x)) as (H1 & H2 & H3 & H4 & H5 & H6). rewrite H1, H2, H3, H4, H5.
      unfold tot, tally, once, amount. cbn [map fold_right sum_changes sum_groups_added sum_groups_removed
        sum_streams_added sum_streams_removed].
      split_and!; try lia. intros a. rewrite H6. cbn [accounts_affected tally]. rewrite elem_of_union, elem_of_singleton.
      setoid_rewrite elem_of_cons. naive_solver. }
  rewrite (Permutation_length Hp).
  destruct (Hfold (empty_summary (length l))) as (H1 & H2 & H3 & H4 & H5 & H6).
  rewrite H1, H2, H3, H4, H5. cbn [empty_summary sum_changes sum_groups_added sum_groups_removed sum_streams_added
    sum_streams_removed]. rewrite !(tot_perm _ _ _ Hp). split_and!; try lia.
  intros a. rewrite H6. cbn. setoid_rewrite Hp. set_solver.
Qed.

(** What a change set adds to the log, whatever the ids. *)
Lemma persisted_tot (f : change_log -> Z) (d : db) (l : list (Z -> change_log)) :
  (forall e i j, e ∈ l -> f (e i) = f (e j)) ->
  tot f (map (fun x => x.2 (next_log d + Z.of_nat x.1)) (enumerate l)) = fold_right Z.add 0 (map (fun e => f (e 0)) l).
Proof.
  unfold tot, enumerate. intros Hf.
  assert (H : forall g : nat -> nat, fold_right Z.add 0 (map f (map (fun x => x.2 (next_log d + Z.of_nat x.1))
    (imap (fun i e => (g i, e)) l))) = fold_right Z.add 0 (map (fun e => f (e 0)) l)); [|exact (H (fun i => i))].
  induction l as [|e l IH]; intros g; [done|]. cbn [imap map fold_right fst snd].
  rewrite (Hf e _ 0) by by left. f_equal. apply (IH (fun e' i j He => Hf e' i j ltac:(by right)) (fun i => g (S i))).
Qed.

Lemma entry_cases c e : e ∈ entries c ->
  (exists g, e = log_of_group c "group_added" g /\ g ∈ groups_added c) \/
  (exists g, e = log_of_group c "group_removed" g /\ g ∈ groups_removed c) \/
  (exists s, e = log_of_streams c "streams_added" s /\ s ∈ streams_added c) \/
  (exists s, e = log_of_streams c "streams_removed" s /\ s ∈ streams_removed c).
Proof.
  unfold entries. rewrite !elem_of_app, !elem_of_map. naive_solver.
Qed.

Definition sum_over {A} (f : A -> Z) (l : list A) : Z := fold_right Z.add 0 (map f l).

Lemma sum_over_app {A} (f : A -> Z) a b : sum_over f (a ++ b) = sum_over f a + sum_over f b.
Proof. unfold sum_over. induction a as [|x a IH]; cbn; [done|]. rewrite IH. lia. Qed.

Lemma sum_over_map {A B} (f : B -> Z) (g : A -> B) l : sum_over f (map g l) = sum_over (fun x => f (g x)) l.
Proof. unfold sum_over. by rewrite map_map. Qed.

Lemma sum_over_zero {A} (f : A -> Z) l : (forall x, f x = 0) -> sum_over f l = 0.
Proof. intros H. unfold sum_over. induction l as [|x l IH]; cbn; [done|]. by rewrite H, IH. Qed.

Lemma sum_over_one {A} (f : A -> Z) l : (forall x, f x = 1) -> sum_over f l = Z.of_nat (length l).
Proof. intros H. unfold sum_over. induction l as [|x l IH]; cbn; [done|]. rewrite H, IH. lia. Qed.

Lemma sum_over_counts (f : stream_change -> Z) l : (forall x, f x = sc_count x) -> sum_over f l = sum_counts l.
Proof. intros H. unfold sum_over, sum_counts. induction l as [|x l IH]; cbn; [done|]. by rewrite H, IH. Qed.

(** The sum of a measure over what is persisted, by kind of entry. *)
Lemma persisted_sum (f : change_log -> Z) d c :
  (forall e i j, e ∈ entries c -> f (e i) = f (e j)) ->
  tot f (logs (persist_changes d c).1) = tot f (logs d) +
    sum_over (fun g => f (log_of_group c "group_added" g 0)) (groups_added c) +
    sum_over (fun g => f (log_of_group c "group_removed" g 0)) (groups_removed c) +
    sum_over (fun s => f (log_of_streams c "streams_added" s 0)) (streams_added c) +
    sum_over (fun s => f (log_of_streams c "streams_removed" s 0)) (streams_removed c).
Proof.
  intros Hf. assert (Hlogs : logs (persist_changes d c).1 =
    logs d ++ map (fun x => x.2 (next_log d + Z.of_nat x.1)) (enumerate (entries c))).
  { unfold persist_changes. destruct (has_changes c) eqn:E; [done|]. cbn.
    assert (Hnil : entries c = []).
    { unfold has_changes in E. unfold entries. by destruct (groups_added c), (groups_removed c),
        (streams_added c), (streams_removed c). }
    by rewrite Hnil, app_nil_r. }
  rewrite Hlogs, tot_app, persisted_tot by done.
  change (fold_right Z.add 0 (map (fun e => f (e 0)) (entries c))) with (sum_over (fun e => f (e 0)) (entries c)).
  unfold entries. rewrite !sum_over_app, !sum_over_map. lia.
Qed.

Lemma tot_filter f p l : tot f (List.filter p l) = tot (fun x => if p x then f x else 0) l.
Proof. unfold tot. induction l as [|x l IH]; [done|]. cbn. destruct (p x); cbn; by rewrite IH. Qed.

Lemma sum_over_ext {A} (f g : A -> Z) l : (forall x, x ∈ l -> f x = g x) -> sum_over f l = sum_over g l.
Proof.
  unfold sum_over. induction l as [|x l IH]; intros H; [done|]. cbn.
  rewrite (H x) by by left. rewrite IH; [done|]. intros y Hy. apply H. by right.
Qed.

Definition covers (since : Z) (acct : option Z) (c : change_set) : Prop :=
  since <= change_time c /\ match acct with Some a => account c = a | None => True end.

Lemma persisted_in_scope c since acct e i :
  covers since acct c -> e ∈ entries c -> in_scope since acct (e i) = true.
Proof.
  intros [Hs Ha] He. unfold in_scope.
  assert (Hshape : log_time (e i) = change_time c /\ log_account (e i) = account c)
    by (destruct (entry_cases c e He) as [(g & -> & _)|[(g & -> & _)|[(g & -> & _)|(g & -> & _)]]]; done).
  destruct Hshape as [-> ->]. rewrite (proj2 (Z.leb_le _ _) Hs). destruct acct; [|done]. cbn. by apply Z.eqb_eq.
Qed.

Lemma covered_sum f d c since acct :
  covers since acct c -> (forall e i j, e ∈ entries c -> f (e i) = f (e j)) ->
  tot f (List.filter (in_scope since acct) (logs (persist_changes d c).1)) =
    tot f (List.filter (in_scope since acct) (logs d)) +
    sum_over (fun g => f (log_of_group c "group_added" g 0)) (groups_added c) +
    sum_over (fun g => f (log_of_group c "group_removed" g 0)) (groups_removed c) +
    sum_over (fun s => f (log_of_streams c "streams_added" s 0)) (streams_added c) +
    sum_over (fun s => f (log_of_streams c "streams_removed" s 0)) (streams_removed c).
Proof.
  intros Hc Hf. rewrite !tot_filter, persisted_sum.
  - assert (Hw : forall A (mk : A -> Z -> change_log) l, (forall x, x ∈ l -> mk x ∈ entries c) ->
      sum_over (fun x => if in_scope since acct (mk x 0) then f (mk x 0) else 0) l = sum_over (fun x => f (mk x 0)) l).
    { intros A mk l Hl. apply sum_over_ext. intros x Hx. by rewrite (persisted_in_scope c) by auto. }
    rewrite (Hw _ (log_of_group c "group_added")), (Hw _ (log_of_group c "group_removed")),
      (Hw _ (log_of_streams c "streams_added")), (Hw _ (log_of_streams c "streams_removed")); [done|..];
      intros x Hx; unfold entries; rewrite !elem_of_app, !elem_of_map; naive_solver.
  - intros e i j He. rewrite !(persisted_in_scope c) by done. by apply Hf.
Qed.

Lemma once_any_id c t e i j : e ∈ entries c -> once t (e i) = once t (e j).
Proof.
  intros He. by destruct (entry_cases c e He) as [(g & -> & _)|[(g & -> & _)|[(g & -> & _)|(g & -> & _)]]].
Qed.
Lemma amount_any_id c t e i j : e ∈ entries c -> amount t (e i) = amount t (e j).
Proof.
  intros He. by destruct (entry_cases c e He) as [(g & -> & _)|[(g & -> & _)|[(g & -> & _)|(g & -> & _)]]].
Qed.

(** The summary counts what was persisted.  Persisting a change set moves the summary of
    any period and account it falls in by exactly its own numbers: each group added or
    removed once, each stream change by its count, the total by the number of its changes. *)
Theorem summary_accounts d c since acct :
  since <= change_time c -> match acct with Some a => account c = a | None => True end ->
  let before := get_change_summary d since acct in
  let after := get_change_summary (persist_changes d c).1 since acct in
  sum_changes after = (sum_changes before + total_changes c)%nat /\
  sum_groups_added after = sum_groups_added before + Z.of_nat (length (groups_added c)) /\
  sum_groups_removed after = sum_groups_removed before + Z.of_nat (length (groups_removed c)) /\
  sum_streams_added after = sum_streams_added before + sum_counts (streams_added c) /\
  sum_streams_removed after = sum_streams_removed before + sum_counts (streams_removed c).
Proof.
  intros Hs Ha. cbn zeta. assert (Hc : covers since acct c) by done.
  destruct (summary_sums d since acct) as (B1 & B2 & B3 & B4 & B5 & _).
  destruct (summary_sums (persist_changes d c).1 since acct) as (A1 & A2 & A3 & A4 & A5 & _).
  rewrite A1, A2, A3, A4, A5, B1, B2, B3, B4, B5. clear A1 A2 A3 A4 A5 B1 B2 B3 B4 B5.
  assert (Hlen : forall l : list change_log, Z.of_nat (length l) = tot (fun _ => 1) l)
    by (intros l; unfold tot; induction l as [|x l IH]; cbn in *; lia).
  split.
  { apply Nat2Z.inj. rewrite Nat2Z.inj_add, !Hlen, covered_sum by done.
    rewrite !sum_over_one by done. unfold total_changes. lia. }
  rewrite !covered_sum by (done || apply once_any_id || apply amount_any_id).
  split_and!.
  - rewrite (sum_over_one _ (groups_added c)), !sum_over_zero by done. lia.
  - rewrite (sum_over_one _ (groups_removed c)), !sum_over_zero by done. lia.
  - rewrite (sum_over_counts _ (streams_added c)), !sum_over_zero by done. lia.
  - rewrite (sum_over_counts _ (streams_removed c)), !sum_over_zero by done. lia.
Qed.

(** ** Concrete states *)

Definition a_group (n : string) (c : Z) (names : option (list string)) : group :=
  {| name := n; stream_count := c; group_enabled := true; is_stale := false; stream_names := names |}.
Definition empty_db : db := {| snapshots := []; logs := []; next_id := 1; next_log := 1 |}.
Definition order (X : gset string) : list string := elements X.
Lemma order_perm X : order X ≡ₚ elements X.
Proof. done. Qed.

(** Monday's state, and Tuesday's: a slot renamed, one group gone and one new. *)
Definition monday : list group := [a_group "PPV" 2 None; a_group "News" 1 None].
Definition monday_names : dict_of (list string) := [("PPV", ["Event A"; "Event A"]%string); ("News", ["N1"]%string)].
Definition tuesday : list group := [a_group "PPV" 2 None; a_group "Sports" 3 None].
Definition tuesday_names : dict_of (list string) := [("PPV", ["Event A"; "Event B"]%string)].
Definition after_monday : db := (detect_changes order empty_db 10 7 monday 3 (Some monday_names) None).1.

Example tuesday_changes :
  let c := (detect_changes order after_monday 20 7 tuesday 5 (Some tuesday_names) None).2 in
  (map gc_name (groups_added c), map gc_name (groups_removed c),
   map sc_names (streams_added c), map sc_names (streams_removed c)) =
  (["Sports"], ["News"], [["Event B"]], [["Event A"]])%string.
Proof. vm_compute. reflexivity. Qed.

(** The first state counts its groups' streams as added; a group that comes later does not:
    the same group with four streams moves the summary's streams by four or by nothing. *)
Example new_group_streams :
  sum_counts (streams_added (detect_changes order empty_db 10 7 [a_group "Sports" 4 None] 4 None None).2) = 4 /\
  sum_counts (streams_added (detect_changes order after_monday 20 7
    (monday ++ [a_group "Sports" 4 None]) 7 (Some monday_names) None).2) = 0.
Proof. vm_compute. split; reflexivity. Qed.

(** A count that moves hides what moved the other way: two streams came and one went, and
    only an addition of one is recorded, with both names. *)
Example netted_changes :
  let c := (detect_changes order after_monday 20 7 [a_group "PPV" 2 None; a_group "News" 2 None] 4
    (Some [("PPV", ["Event A"; "Event A"]); ("News", ["N2"; "N3"])]%string) None).2 in
  (map sc_count (streams_added c), map (fun x => length (sc_names x)) (streams_added c), streams_removed c) =
  ([1], [2%nat], []).
Proof. vm_compute. reflexivity. Qed.

(** Two streams of one name were counted, and are: but one is captured now. *)
Definition wednesday : list group := [a_group "PPV" 2 None; a_group "News" 4 None].
Definition wednesday_names : dict_of (list string) := [("PPV", ["Event A"]%string)].

Lemma changes_reconcile_witness :
  (forall n, apply_changes (detect_changes order after_monday 20 7 tuesday 5 (Some tuesday_names) None).2
    (counts (by_name (map (enrich (Some monday_names)) monday))) !! n = counts (by_name tuesday) !! n) /\
  apply_changes (detect_changes order after_monday 20 7 wednesday 6 (Some wednesday_names) None).2
    (counts (by_name (map (enrich (Some monday_names)) monday))) !! "PPV"%string = Some 1.
Proof.
  set (p := {| snapshot_id := 1; snapshot_account := 7; snapshot_time := 10;
       snapshot_groups := map (enrich (Some monday_names)) monday; total_streams := 3; dispatcharr_updated_at := None |}).
  assert (Hp : get_latest_snapshot after_monday 7 = Some p) by (vm_compute; reflexivity). split.
  - intros n. etransitivity; [exact (changes_reconcile order order_perm after_monday 20 7 tuesday 5 (Some tuesday_names) None p n Hp)|].
    rewrite counts_lookup. destruct (d_get n (by_name tuesday)) as [c|] eqn:Hc; [|done]. cbn [fmap option_fmap option_map].
    f_equal. destruct (decide (n = "PPV"%string)) as [->|Hn]; [vm_compute in Hc; injection Hc as <-; reflexivity|].
    replace (d_get n (by_name (snapshot_groups p))) with (@None group); [cbn; lia|].
    destruct (decide (n = "News"%string)) as [->|Hn2]; [vm_compute in Hc; discriminate|].
    symmetry. apply d_get_None. change (n ∉ ["PPV"; "News"]%string). set_solver.
  - etransitivity; [exact (changes_reconcile order order_perm after_monday 20 7 wednesday 6 (Some wednesday_names) None p "PPV"%string Hp)|].
    vm_compute. reflexivity.
Defined.

Lemma detected_once_witness :
  has_changes (detect_changes order after_monday 30 7 monday 3 (Some monday_names) None).2 = false.
Proof.
  apply (detected_once order order_perm empty_db 10 30 7 monday 3 3 (Some monday_names) None None).
  intros s Hs. vm_compute in Hs. by apply elem_of_nil in Hs.
Defined.

Lemma summary_accounts_witness :
  let c := (detect_changes order after_monday 20 7 tuesday 5 (Some tuesday_names) None).2 in
  sum_streams_added (get_change_summary (persist_changes after_monday c).1 15 (Some 7)) = 1.
Proof.
  cbn zeta. set (c := (detect_changes order after_monday 20 7 tuesday 5 (Some tuesday_names) None).2).
  destruct (summary_accounts after_monday c 15 (Some 7)) as (_ & _ & _ & H & _).
  - vm_compute. discriminate.
  - vm_compute. reflexivity.
  - rewrite H. vm_compute. reflexivity.
Defined.

End M3uChanges.
