(* ===== verification/M3uCapture.v ===== *)
(** * Capturing an account's state ([backend/tasks/m3u_refresh.py]).

    The paginated pull of an account's streams, grouped by channel-group name, and
    [capture_m3u_changes], which turns it into a state, has it compared with the last
    snapshot and its changes persisted.  The service is a parameter: each call answers or
    raises. *)
From stdpp Require Import gmap sets.
From S2P Require Import Prelude PyValue PyDict M3uChanges.
Open Scope Z_scope.

Module M3uCapture.
Import M3uChanges.

Inductive error := ServiceError | OutOfPages.
Abbreviation result := (result error).

(** A stream of the service, and an account's row for one of its groups. *)
Record stream := { channel_group : option Z; stream_name : string }.
Record account_group := { acg_group : option Z; acg_enabled : bool; acg_stale : bool }.

(** Counts and captured names by group name. *)
Record grouped := { stream_count_lookup : dict_of Z; stream_names_by_group : dict_of (list string) }.
Definition no_streams : grouped := {| stream_count_lookup := []; stream_names_by_group := [] |}.

Definition name_cap : nat := 500.
Definition STREAM_PULL_PAGE_SIZE : nat := 1000.

(** The name of a stream's group, if there is one to show. *)
Definition group_of (group_lookup : gmap Z string) (id : option Z) : option string :=
  match id with
  | Some i => match group_lookup !! i with Some n => if bool_decide (n = EmptyString) then None else Some n | None => None end
  | None => None
  end.

Definition capture_name (n x : string) (d : dict_of (list string)) : dict_of (list string) :=
  let names := default [] (d_get n d) in
  d_set n (if (length names <? name_cap)%nat then names ++ [x] else names) d.

(** The body of the loop over a page. *)
Definition note_stream (group_lookup : gmap Z string) (enabled : gset string) (acc : grouped) (s : stream)
    : grouped :=
  match group_of group_lookup (channel_group s) with
  | None => acc
  | Some n =>
      {| stream_count_lookup := d_set n (default 0 (d_get n (stream_count_lookup acc)) + 1) (stream_count_lookup acc);
         stream_names_by_group :=
           if bool_decide (n ∈ enabled) then capture_name n (stream_name s) (stream_names_by_group acc)
           else stream_names_by_group acc |}
  end.

Section capture.
(** The service: a page of an account's streams with their total, the account's groups, all
    channel groups; and the order sets are iterated in. *)
Context (get_streams : Z -> nat -> result (list stream * nat)).
Context (get_m3u_account : Z -> result (list account_group)).
Context (get_channel_groups : result (list (Z * string))).
Context (set_list : gset string -> list string).

(** The paginated loop of [get_streams_grouped], from [page]. *)
Fixpoint pull (fuel : nat) (account_id : Z) (group_lookup : gmap Z string) (enabled : gset string)
    (page fetched : nat) (acc : grouped) : result grouped :=
  match fuel with
  | O => Raise OutOfPages
  | S fuel' =>
      let! '(results, total) := get_streams account_id page in
      let acc := fold_left (note_stream group_lookup enabled) results acc in
      let fetched := (fetched + length results)%nat in
      if (total <=? fetched)%nat || bool_decide (results = []) then Ok acc
      else pull fuel' account_id group_lookup enabled (S page) fetched acc
  end.

Definition get_streams_grouped (fuel : nat) (account_id : Z) (group_lookup : gmap Z string)
    (enabled : gset string) : result grouped :=
  pull fuel account_id group_lookup enabled 1 0 no_streams.

(** The account's groups known by id ([0] is no id). *)
Definition known (group_lookup : gmap Z string) (a : account_group) : option string :=
  match acg_group a with
  | Some i => if i =? 0 then None else group_lookup !! i
  | None => None
  end.

Definition enabled_group_names (group_lookup : gmap Z string) (l : list account_group) : gset string :=
  list_to_set (omap (fun a => if acg_enabled a then known group_lookup a else None) l).

Definition current_group (group_lookup : gmap Z string) (counts : dict_of Z) (a : account_group) : option group :=
  n ← known group_lookup a;
  Some {| name := n; stream_count := default 0 (d_get n counts); group_enabled := acg_enabled a;
          is_stale := acg_stale a; stream_names := None |}.

Definition lookup_of (l : list (Z * string)) : gmap Z string :=
  fold_left (fun m x => <[x.1 := x.2]> m) l ∅.

(** What is captured of the account: its groups, their total and the captured names. *)
Definition capture_state (fuel : nat) (account_id : Z) : result (list group * Z * dict_of (list string)) :=
  let! account_groups := get_m3u_account account_id in
  let! all_groups := get_channel_groups in
  let group_lookup := lookup_of all_groups in
  let! g := get_streams_grouped fuel account_id group_lookup (enabled_group_names group_lookup account_groups) in
  let current := omap (current_group group_lookup (stream_count_lookup g)) account_groups in
  Ok (current, fold_right Z.add 0 (map stream_count current), stream_names_by_group g).

(** [capture_m3u_changes]: a call that raises leaves the database as it was. *)
Definition capture_m3u_changes (fuel : nat) (d : db) (now account_id : Z) (updated : option string)
    : db * option change_set :=
  match capture_state fuel account_id with
  | Raise _ => (d, None)
  | Ok (current, total, names) =>
      let '(d, c) := detect_changes set_list d now account_id current total (Some names) updated in
      if has_changes c then ((persist_changes d c).1, Some c) else (d, None)
  end.
End capture.

(** ** Grouping *)

(** The streams of a group, in order. *)
Definition in_group (group_lookup : gmap Z string) (n : string) (s : stream) : bool :=
  bool_decide (group_of group_lookup (channel_group s) = Some n).
Definition members (group_lookup : gmap Z string) (n : string) (l : list stream) : list string :=
  map stream_name (List.filter (in_group group_lookup n) l).

Definition note_all (group_lookup : gmap Z string) (enabled : gset string) (l : list stream) : grouped :=
  fold_left (note_stream group_lookup enabled) l no_streams.

Lemma members_app gl n a b : members gl n (a ++ b) = members gl n a ++ members gl n b.
Proof. unfold members. by rewrite List.filter_app, map_app. Qed.

Lemma d_get_capture k n x d :
  d_get k (capture_name n x d) =
    if bool_decide (n = k) then
      Some (let names := default [] (d_get n d) in if (length names <? name_cap)%nat then names ++ [x] else names)
    else d_get k d.
Proof. unfold capture_name. by rewrite d_get_set. Qed.

(** What grouping a list of streams leaves for each name. *)
Lemma note_all_spec gl enabled l n :
  default 0 (d_get n (stream_count_lookup (note_all gl enabled l))) = Z.of_nat (length (members gl n l)) /\
  default [] (d_get n (stream_names_by_group (note_all gl enabled l))) =
    if bool_decide (n ∈ enabled) then take name_cap (members gl n l) else [].
Proof.
  unfold note_all. induction l as [|s l IH] using rev_ind; [by case_bool_decide|].
  rewrite fold_left_app, members_app. cbn [fold_left]. unfold note_stream at 1 3.
  set (acc := fold_left (note_stream gl enabled) l no_streams) in *. destruct IH as [IHc IHn].
  unfold members at 2 4. cbn [List.filter]. unfold in_group.
  destruct (group_of gl (channel_group s)) as [m|] eqn:Em; [|by rewrite bool_decide_false, app_nil_r].
  cbn [stream_count_lookup stream_names_by_group]. rewrite d_get_set.
  destruct (decide (m = n)) as [->|Hne].
  - rewrite !(bool_decide_true (n = n)), !(bool_decide_true (Some n = Some n)) by done. cbn [map default].
    split; [rewrite IHc, length_app; cbn; lia|].
    case_bool_decide as He; [|done]. rewrite d_get_capture, bool_decide_true by done. cbn [default]. rewrite IHn.
    rewrite length_take. destruct (Nat.min name_cap (length (members gl n l)) <? name_cap)%nat eqn:E; to_prop.
    + rewrite !take_ge by (rewrite ?length_app; cbn; lia). done.
    + rewrite take_app_le by lia. done.
  - rewrite (bool_decide_false (m = n)), (bool_decide_false (Some m = Some n)) by congruence.
    cbn [map]. rewrite !app_nil_r. split; [done|].
    destruct (bool_decide (m ∈ enabled)); [|done]. by rewrite d_get_capture, bool_decide_false.
Qed.

(** ** The pull *)

(** A service whose listing of an account is stable: each page a slice of it. *)
Definition serves_listing (get_streams : Z -> nat -> result (list stream * nat)) (acct : Z) (l : list stream) : Prop :=
  forall p, get_streams acct (S p) =
    Ok (take STREAM_PULL_PAGE_SIZE (drop (STREAM_PULL_PAGE_SIZE * p) l), length l).

Section pull.
Context (get_streams : Z -> nat -> result (list stream * nat)).

Lemma pull_listing acct gl en l fuel p :
  serves_listing get_streams acct l ->
  (length l < STREAM_PULL_PAGE_SIZE * (p + fuel))%nat -> (STREAM_PULL_PAGE_SIZE * p <= length l)%nat ->
  pull get_streams fuel acct gl en (S p) (STREAM_PULL_PAGE_SIZE * p)
    (note_all gl en (take (STREAM_PULL_PAGE_SIZE * p) l)) = Ok (note_all gl en l).
Proof.
  unfold serves_listing. assert (Hpos : (0 < STREAM_PULL_PAGE_SIZE)%nat) by (unfold STREAM_PULL_PAGE_SIZE; lia).
  revert Hpos p. generalize STREAM_PULL_PAGE_SIZE. intros P Hpos p Hl. revert p.
  induction fuel as [|fuel IH]; intros p Hlen Hp; [lia|]. cbn [pull]. rewrite Hl. cbn [rbind].
  assert (Hacc : fold_left (note_stream gl en) (take P (drop (P * p) l)) (note_all gl en (take (P * p) l)) =
    note_all gl en (take (P * S p) l)).
  { unfold note_all. rewrite <-fold_left_app. f_equal. rewrite Nat.mul_succ_r. apply take_take_drop. }
  rewrite Hacc, length_take, length_drop.
  destruct (length l <=? P * p + P `min` (length l - P * p))%nat eqn:E; to_prop; cbn [orb].
  - rewrite take_ge by lia. done.
  - assert (Hfull : (P `min` (length l - P * p) = P)%nat) by lia.
    rewrite bool_decide_false.
    + replace (P * p + P `min` (length l - P * p))%nat with (P * S p)%nat by lia. apply IH; lia.
    + intros Hnil. apply (f_equal length) in Hnil. rewrite length_take, length_drop in Hnil. cbn in Hnil. lia.
Qed.

(** The pull groups every stream once and ends.  Against a service whose listing does
    not change meanwhile, with one page of fuel more than the listing fills: the counts are
    those of all the streams by group name, and the captured names of an enabled group are
    its streams' names in order, up to the cap, so all of them when its count is below. *)
Theorem grouped_exact acct gl en l fuel :
  serves_listing get_streams acct l -> (length l < STREAM_PULL_PAGE_SIZE * fuel)%nat ->
  exists g, get_streams_grouped get_streams fuel acct gl en = Ok g /\
    forall n, default 0 (d_get n (stream_count_lookup g)) = Z.of_nat (length (members gl n l)) /\
      default [] (d_get n (stream_names_by_group g)) =
        (if bool_decide (n ∈ en) then take name_cap (members gl n l) else []).
Proof.
  intros Hl Hf. exists (note_all gl en l). split; [|intros n; apply note_all_spec].
  pose proof (pull_listing acct gl en l fuel 0 Hl Hf) as H. rewrite Nat.mul_0_r in H. apply H. lia.
Qed.

(** Whatever the service answers, what a pull returns is the grouping of some streams. *)
Lemma pull_note_all acct gl en fuel page fetched l g :
  pull get_streams fuel acct gl en page fetched (note_all gl en l) = Ok g -> exists l', g = note_all gl en l'.
Proof.
  revert page fetched l. induction fuel as [|fuel IH]; intros page fetched l; cbn [pull]; [done|].
  destruct (get_streams acct page) as [[results total]|]; [|done]. cbn [rbind].
  assert (Hacc : fold_left (note_stream gl en) results (note_all gl en l) = note_all gl en (l ++ results))
    by (unfold note_all; by rewrite fold_left_app).
  rewrite Hacc. destruct (_ || _); [|apply IH]. intros [= <-]. by eexists.
Qed.
End pull.

(** ** A capture follows the last one *)

(** The captured names of a group are as many as its streams, up to the cap. *)
Definition captured_ok (current : list group) (names : dict_of (list string)) : Prop :=
  forall g, g ∈ current -> stream_names g = None /\
    (default [] (d_get (name g) names) = [] \/
     Z.of_nat (length (default [] (d_get (name g) names))) = Z.min 500 (stream_count g)).

Lemma capture_state_ok gs ga gc fuel acct current total names :
  capture_state gs ga gc fuel acct = Ok (current, total, names) -> captured_ok current names.
Proof.
  unfold capture_state. destruct (ga acct) as [groups|]; [|done]. cbn [rbind].
  destruct gc as [all|]; [|done]. cbn [rbind].
  destruct (get_streams_grouped _ _ _ _ _) as [r|] eqn:E; [|done]. intros [= <- _ <-].
  destruct (pull_note_all _ _ _ _ _ _ _ [] _ E) as [l ->].
  intros g Hg. apply list_elem_of_omap in Hg as (a & _ & Ha). unfold current_group in Ha.
  destruct (known _ a) as [n|]; [|done]. injection Ha as <-. cbn. split; [done|].
  destruct (note_all_spec (lookup_of all) (enabled_group_names (lookup_of all) groups) l n) as [-> ->].
  case_bool_decide; [right|by left]. rewrite length_take. unfold name_cap. lia.
Qed.

Lemma by_name_elem groups n g : d_get n (by_name groups) = Some g -> g ∈ groups /\ name g = n.
Proof.
  intros H. split; [|by eapply by_name_own]. revert H. unfold by_name.
  induction groups as [|h gs IH] using rev_ind; [done|]. rewrite fold_left_app. cbn [fold_left].
  rewrite d_get_set, elem_of_app. case_bool_decide; [intros [= <-]; right; by left|left; auto].
Qed.

Lemma captured_balanced current1 names1 current2 names2 n g c :
  captured_ok current1 names1 -> captured_ok current2 names2 ->
  d_get n (by_name (map (enrich (Some names1)) current1)) = Some g -> d_get n (by_name current2) = Some c ->
  balanced (Some names2) n g c.
Proof.
  intros H1 H2 Hg Hc. rewrite by_name_enrich in Hg.
  destruct (d_get n (by_name current1)) as [g0|] eqn:E; [|done]. injection Hg as <-.
  apply by_name_elem in E as [E En]. apply by_name_elem in Hc as [Hc Hcn].
  destruct (H1 g0 E) as [Hnone Hl1], (H2 c Hc) as [_ Hl2]. unfold balanced. cbn [names_of].
  destruct (enrich_names (Some names1) g0) as [-> ->]. cbn [names_of]. rewrite En, Hcn in *. rewrite Hnone.
  intros Heq _. assert (Hd : forall o : option (list string), default [] (match o with Some l => Some l | None => None end) = default [] o)
    by by intros [].
  rewrite Hd. intros Hp Hc'. destruct Hl1 as [|Hl1]; [done|]. destruct Hl2 as [|Hl2]; [done|]. lia.
Qed.

Lemma no_changes_apply c m : has_changes c = false -> apply_changes c m = m.
Proof.
  unfold has_changes, apply_changes.
  by destruct (groups_added c), (groups_removed c), (streams_added c), (streams_removed c).
Qed.

Section follow.
Context (set_list : gset string -> list string).
Context (set_list_perm : forall X, set_list X ≡ₚ elements X).

Lemma capture_latest gs ga gc fuel d now acct updated current total names :
  capture_state gs ga gc fuel acct = Ok (current, total, names) ->
  (forall s, s ∈ snapshots d -> snapshot_account s = acct -> snapshot_time s < now) ->
  exists s, get_latest_snapshot (capture_m3u_changes gs ga gc set_list fuel d now acct updated).1 acct = Some s /\
    snapshot_groups s = map (enrich (Some names)) current.
Proof.
  intros Hs Ht. unfold capture_m3u_changes. rewrite Hs.
  pose proof (latest_after d now acct current total updated (Some names) Ht) as Hl.
  unfold detect_changes. destruct (create_snapshot d now acct current total updated (Some names)) as [d1 s] eqn:E.
  cbn [fst snd] in Hl. exists s. split; [|by injection E as _ <-].
  match goal with |- context [has_changes ?c] => generalize c end. intros c.
  unfold persist_changes. destruct (has_changes c); exact Hl.
Qed.

(** C40: Captures chain.  Take two captures of an account, the second the next after the
    first, whatever the service answered each time: the change set the second one persists
    (none, when it finds no change) turns the stream counts the first one saw into those
    the second one saw, group by group. *)
Theorem captures_chain gs1 ga1 gc1 fuel1 gs2 ga2 gc2 fuel2 d t1 t2 acct updated1 updated2
    current1 total1 names1 current2 total2 names2 :
  capture_state gs1 ga1 gc1 fuel1 acct = Ok (current1, total1, names1) ->
  capture_state gs2 ga2 gc2 fuel2 acct = Ok (current2, total2, names2) ->
  (forall s, s ∈ snapshots d -> snapshot_account s = acct -> snapshot_time s < t1) ->
  let d1 := (capture_m3u_changes gs1 ga1 gc1 set_list fuel1 d t1 acct updated1).1 in
  match (capture_m3u_changes gs2 ga2 gc2 set_list fuel2 d1 t2 acct updated2).2 with
  | Some c => apply_changes c (counts (by_name current1)) = counts (by_name current2)
  | None => counts (by_name current1) = counts (by_name current2)
  end.
Proof.
  intros H1 H2 Ht. cbn zeta.
  destruct (capture_latest gs1 ga1 gc1 fuel1 d t1 acct updated1 _ _ _ H1 Ht) as (s & Hs & Hg).
  set (d1 := (capture_m3u_changes gs1 ga1 gc1 set_list fuel1 d t1 acct updated1).1) in *.
  assert (Hcounts : counts (by_name (snapshot_groups s)) = counts (by_name current1)).
  { apply map_eq. intros n. rewrite !counts_lookup, Hg, by_name_enrich.
    destruct (d_get n (by_name current1)) as [g|]; [|done]. cbn. by destruct (enrich_names (Some names1) g) as [_ ->]. }
  pose proof (reconcile set_list set_list_perm d1 t2 acct current2 total2 (Some names2) updated2 s Hs) as Hr.
  rewrite Hcounts in Hr. unfold capture_m3u_changes. rewrite H2.
  destruct (detect_changes set_list d1 t2 acct current2 total2 (Some names2) updated2) as [d2 c]. cbn [snd] in Hr.
  assert (Hok : apply_changes c (counts (by_name current1)) = counts (by_name current2)).
  { apply Hr. intros n g c0 Hn Hc. rewrite Hg in Hn. eapply captured_balanced; [| |done..]; by eapply capture_state_ok. }
  destruct (has_changes c) eqn:E; [done|]. by rewrite no_changes_apply in Hok.
Qed.
End follow.

(** ** Concrete captures *)

(** A service listing [l] for every account. *)
Definition listing (l : list stream) (acct : Z) (p : nat) : result (list stream * nat) :=
  Ok (take STREAM_PULL_PAGE_SIZE (drop (STREAM_PULL_PAGE_SIZE * pred p) l), length l).
Definition account_rows (acct : Z) : result (list account_group) :=
  Ok [{| acg_group := Some 1; acg_enabled := true; acg_stale := false |};
      {| acg_group := Some 2; acg_enabled := false; acg_stale := false |}].
Definition all_groups : result (list (Z * string)) := Ok [(1, "PPV"%string); (2, "News"%string)].
Definition a_stream (g : Z) (n : string) : stream := {| channel_group := Some g; stream_name := n |}.
Definition before : list stream := [a_stream 1 "Event A"; a_stream 2 "N1"; a_stream 1 "Event C"].
Definition after : list stream := [a_stream 1 "Event B"; a_stream 2 "N1"; a_stream 2 "N2"; a_stream 1 "Event C"].

Lemma grouped_exact_witness :
  exists g, get_streams_grouped (listing before) 1 7 (lookup_of [(1, "PPV"%string)]) {["PPV"%string]} = Ok g /\
    default [] (d_get "PPV"%string (stream_names_by_group g)) = ["Event A"; "Event C"]%string.
Proof.
  destruct (grouped_exact (listing before) 7 (lookup_of [(1, "PPV"%string)]) {["PPV"%string]} before 1)
    as (g & Hg & Hn).
  - intros p. reflexivity.
  - apply Nat.ltb_lt. vm_compute. reflexivity.
  - exists g. split; [exact Hg|]. destruct (Hn "PPV"%string) as [_ ->]. vm_compute. reflexivity.
Defined.

Definition seen_before : list group :=
  [a_group "PPV" 2 None; {| name := "News"; stream_count := 1; group_enabled := false; is_stale := false; stream_names := None |}].
Definition seen_after : list group :=
  [a_group "PPV" 2 None; {| name := "News"; stream_count := 2; group_enabled := false; is_stale := false; stream_names := None |}].

Lemma captures_chain_witness :
  let d1 := (capture_m3u_changes (listing before) account_rows all_groups order 1 empty_db 10 7 None).1 in
  match (capture_m3u_changes (listing after) account_rows all_groups order 1 d1 20 7 None).2 with
  | Some c => apply_changes c (counts (by_name seen_before)) = counts (by_name seen_after)
  | None => counts (by_name seen_before) = counts (by_name seen_after)
  end.
Proof.
  apply (captures_chain order order_perm _ _ _ _ _ _ _ _ _ _ _ _ _ _
    seen_before 3 [("PPV", ["Event A"; "Event C"])]%string seen_after 4 [("PPV", ["Event B"; "Event C"])]%string).
  - vm_compute. reflexivity.
  - vm_compute. reflexivity.
  - intros s Hs. by apply elem_of_nil in Hs.
Defined.

End M3uCapture.
