(* ===== verification/AuthHandlers.v ===== *)
(** * Sign-in handlers ([backend/auth/tokens.py], [backend/auth/routes.py],
    [backend/auth/dependencies.py], [backend/auth/password.py], [backend/auth/admin_routes.py]
    and the activation hook of [backend/tls/routes.py]).

    The HTTP and the HTTPS listener are two processes over one database
    ([tls/https_server.py]), each with its own set of revoked token ids.  A handler has no
    [await]: a process runs it to its end before it takes another call.  The two processes
    interleave where a handler reads, lets the other write, and then writes on a condition:
    the refresh, the reset and the re-issue of a reset link are each a read that leaves the
    process busy and a [Continue] that writes.  One clock reading serves a half of a handler.
    Row ids are SQLite's, one more than the largest in the table.  Times are microseconds. *)
From S2P Require Import Prelude PyValue PyText PyDatetime.
Open Scope Z_scope.

Module AuthHandlers.
Import Datetime.

(** ** Statements on a table *)

Definition first_where {A} (p : A -> bool) (l : list A) : option A := List.find p l.
Definition update_where {A} (p : A -> bool) (f : A -> A) (l : list A) : list A :=
  map (fun x => if p x then f x else x) l.
Definition delete_where {A} (p : A -> bool) (l : list A) : list A :=
  List.filter (fun x => negb (p x)) l.
Definition count_where {A} (p : A -> bool) (l : list A) : nat := length (List.filter p l).
Definition next_rowid (ids : list Z) : Z := 1 + foldr Z.max 0 ids.

(** ** Rows *)

Record user := User {
  u_id : Z; u_username : string; u_email : option string; u_password_hash : option string;
  u_auth_provider : string; u_is_admin : bool; u_is_active : bool; u_auth_epoch : Z;
  u_updated_at : Z; u_last_login_at : option Z }.

Record identity := Identity {
  i_user_id : Z; i_provider : string; i_identifier : string; i_last_used_at : option Z }.

Record session_row := SessionRow {
  s_id : Z; s_user_id : Z; s_refresh_token_hash : string;
  s_prior_refresh_token_hash : option string; s_rotated_at : option Z;
  s_expires_at : Z; s_last_used_at : Z; s_is_revoked : bool }.

Record reset_row := ResetRow {
  r_id : Z; r_user_id : Z; r_token_hash : string; r_expires_at : Z;
  r_used_at : option Z; r_attempt_count : Z; r_created_at : Z }.

(** ** Tokens *)

(** The payload of a token.  [sub] is the integer [decode_token] makes of its text. *)
Record claims := Claims {
  c_sub : option Z; c_username : option string; c_type : option string; c_exp : Z;
  c_iat : Z; c_jti : option string; c_auth_epoch : option Z }.

Inductive jwt_reply := Payload (c : claims) | ExpiredSignature | BadToken.

Inductive token_error := TokenExpired | InvalidToken | TokenRevoked.

(** What the handlers use of PyJWT, [hashlib], [bcrypt], [secrets], the list of common
    passwords and the key of the MCP service. *)
Class Credentials := {
  jwt_encode : claims -> string;
  jwt_decode : Z -> string -> jwt_reply;
  hash_token : string -> string;
  bcrypt_hash : nat -> string -> string;
  bcrypt_check : string -> string -> bool;
  jti_of : nat -> string;
  raw_of : nat -> string;
  common_passwords : list string;
  is_service_key : string -> bool }.

(** Their documented behaviour: a signed token decodes to its payload until it expires
    ([exp] is kept in whole seconds), has three parts, and no two draws or hashes collide. *)
Class CredentialLaws `{Credentials} : Prop := {
  jwt_roundtrip : forall now c, jwt_decode now (jwt_encode c) =
    if c_exp c / SECOND * SECOND <=? now then ExpiredSignature else Payload c;
  jwt_parts : forall c, length (split_on "."%char (jwt_encode c)) = 3%nat;
  hash_token_inj : forall t t', hash_token t = hash_token t' -> t = t';
  jti_inj : forall n n', jti_of n = jti_of n' -> n = n';
  jti_nonempty : forall n, jti_of n <> EmptyString }.

(** ** The processes and the database *)

(** A call a process has begun and not written yet. *)
Inductive request :=
| Rotating (token : string) (c : claims) (row : Z) (u : user)
| Issuing (u : user)
| Resetting (row : Z) (u : user) (password_hash : string).

Record server := Server {
  users : list user; identities : list identity; sessions : list session_row;
  resets : list reset_row;
  revoked : list (nat * string);     (* [_revoked_tokens] of each process *)
  busy : list (nat * request);
  drawn : nat;                       (* draws from [secrets] so far *)
  access_minutes : Z; refresh_days : Z; clock : Z }.

Definition with_users (f : list user -> list user) (s : server) : server :=
  Server (f (users s)) (identities s) (sessions s) (resets s) (revoked s) (busy s) (drawn s)
    (access_minutes s) (refresh_days s) (clock s).
Definition with_identities (f : list identity -> list identity) (s : server) : server :=
  Server (users s) (f (identities s)) (sessions s) (resets s) (revoked s) (busy s) (drawn s)
    (access_minutes s) (refresh_days s) (clock s).
Definition with_sessions (f : list session_row -> list session_row) (s : server) : server :=
  Server (users s) (identities s) (f (sessions s)) (resets s) (revoked s) (busy s) (drawn s)
    (access_minutes s) (refresh_days s) (clock s).
Definition with_resets (f : list reset_row -> list reset_row) (s : server) : server :=
  Server (users s) (identities s) (sessions s) (f (resets s)) (revoked s) (busy s) (drawn s)
    (access_minutes s) (refresh_days s) (clock s).
Definition with_revoked (f : list (nat * string) -> list (nat * string)) (s : server) : server :=
  Server (users s) (identities s) (sessions s) (resets s) (f (revoked s)) (busy s) (drawn s)
    (access_minutes s) (refresh_days s) (clock s).
Definition with_busy (f : list (nat * request) -> list (nat * request)) (s : server) : server :=
  Server (users s) (identities s) (sessions s) (resets s) (revoked s) (f (busy s)) (drawn s)
    (access_minutes s) (refresh_days s) (clock s).
Definition draw (s : server) : server :=
  Server (users s) (identities s) (sessions s) (resets s) (revoked s) (busy s) (S (drawn s))
    (access_minutes s) (refresh_days s) (clock s).
Definition with_clock (f : Z -> Z) (s : server) : server :=
  Server (users s) (identities s) (sessions s) (resets s) (revoked s) (busy s) (drawn s)
    (access_minutes s) (refresh_days s) (f (clock s)).
Definition with_lifetimes (minutes days : Z) (s : server) : server :=
  Server (users s) (identities s) (sessions s) (resets s) (revoked s) (busy s) (drawn s)
    minutes days (clock s).

(** The answer to a call; [Reading] leaves the process busy, [Waiting] is the answer of a
    process that is. *)
Inductive reply :=
| Refused (status : Z) (detail : string)
| LoggedIn (access refresh : string)
| Rotated (presented access refresh : string)
| Answered (presented access : string)
| EmailSent (user_id : Z) (raw : string)
| PasswordReset (user_id : Z)
| Done
| Reading
| Waiting.

Section handlers.
Context `{Credentials}.
Implicit Types (s : server) (w : nat).

Definition user_by_id (id : Z) s : option user := first_where (fun u => u_id u =? id) (users s).

(** ** [auth/password.py] *)

Definition hash_password (salt : nat) (password : string) : string := bcrypt_hash salt password.

Definition verify_password (password password_hash : string) : bool :=
  if bool_decide (password = "") || bool_decide (password_hash = "") then false
  else bcrypt_check password password_hash.

(** [None] when valid, else the error. *)
Definition validate_password (password username : string) : option string :=
  if (String.length password <? 8)%nat then Some "Password must be at least 8 characters long."
  else if negb (bool_decide (username = "")) && contains (lower username) (lower password) then
    Some "Password cannot contain your username."
  else if existsb (String.eqb (lower password)) common_passwords then
    Some "This password is too common. Please choose a stronger password."
  else None.

(** ** [auth/tokens.py] *)

Definition create_access_token (user_id : Z) (username : string) (auth_epoch : Z) s : string :=
  jwt_encode (Claims (Some user_id) (Some username) (Some "access")
    (clock s + access_minutes s * MINUTE) (clock s) None (Some auth_epoch)).

(** The token of the next draw. *)
Definition create_refresh_token (user_id : Z) s : string :=
  jwt_encode (Claims (Some user_id) None (Some "refresh")
    (clock s + refresh_days s * DAY) (clock s) (Some (jti_of (drawn s))) None).

Definition is_revoked_jti w (jti : option string) s : bool :=
  match jti with
  | Some j => negb (bool_decide (j = "")) && bool_decide ((w, j) ∈ revoked s)
  | None => false
  end.

Definition decode_token w (ignore_revocation : bool) (token : string) s : Prelude.result token_error claims :=
  if bool_decide (token = "") then Raise InvalidToken
  else if negb (length (split_on "."%char token) =? 3)%nat then Raise InvalidToken
  else match jwt_decode (clock s) token with
  | ExpiredSignature => Raise TokenExpired
  | BadToken => Raise InvalidToken
  | Payload c => if negb ignore_revocation && is_revoked_jti w (c_jti c) s then Raise TokenRevoked
                 else Ok c
  end.

Definition revoke_token w (jti : option string) s : server :=
  match jti with
  | Some j => if bool_decide (j = "") then s else with_revoked (cons (w, j)) s
  | None => s
  end.

(** ** [auth/dependencies.py] *)

Definition token_matches_user_auth_epoch (c : claims) (u : user) : bool :=
  default 0 (c_auth_epoch c) =? u_auth_epoch u.

Inductive principal := ServicePrincipal | Account (u : user).

Definition get_current_user w (token : string) s : Prelude.result string principal :=
  if bool_decide (token = "") then Raise "Not authenticated"
  else if is_service_key token then Ok ServicePrincipal
  else match decode_token w false token s with
  | Raise TokenExpired => Raise "Token has expired"
  | Raise TokenRevoked => Raise "Token has been revoked"
  | Raise InvalidToken => Raise "Invalid token"
  | Ok c =>
      match c_sub c with
      | None => Raise "Invalid token payload"
      | Some id =>
          match user_by_id id s with
          | None => Raise "User not found"
          | Some u => if negb (u_is_active u) then Raise "User account is disabled"
                      else if negb (token_matches_user_auth_epoch c u) then Raise "Token has been invalidated"
                      else Ok (Account u)
          end
      end
  end.

(** The admin's id; the service principal is admin and has an id no row has. *)
Definition get_current_active_admin w (token : string) s : Prelude.result (Z * string) (option Z) :=
  match get_current_user w token s with
  | Raise e => Raise (401, e)
  | Ok ServicePrincipal => Ok None
  | Ok (Account u) => if u_is_admin u then Ok (Some (u_id u)) else Raise (403, "Admin access required")
  end.

(** ** Sessions *)

Definition _cleanup_expired_sessions (user_id : Z) s : server :=
  with_sessions (delete_where (fun r => (s_user_id r =? user_id) && (s_expires_at r <? clock s))) s.

Definition revoke_row (r : session_row) : session_row :=
  SessionRow (s_id r) (s_user_id r) (s_refresh_token_hash r) (s_prior_refresh_token_hash r)
    (s_rotated_at r) (s_expires_at r) (s_last_used_at r) true.

Definition touch_row (now : Z) (r : session_row) : session_row :=
  SessionRow (s_id r) (s_user_id r) (s_refresh_token_hash r) (s_prior_refresh_token_hash r)
    (s_rotated_at r) (s_expires_at r) now (s_is_revoked r).

(** The row [login] adds. *)
Definition session_of (user_id : Z) (token : string) s : session_row :=
  SessionRow (next_rowid (map s_id (sessions s))) user_id (hash_token token) None None
    (clock s + refresh_days s * DAY) (clock s) false.

Definition use_identity (i : identity) (now : Z) : list identity -> list identity :=
  update_where (fun i' => bool_decide (i_provider i' = i_provider i) &&
                          bool_decide (i_identifier i' = i_identifier i))
    (fun i' => Identity (i_user_id i') (i_provider i') (i_identifier i') (Some now)).

Definition logged_in (now : Z) (u : user) : user :=
  User (u_id u) (u_username u) (u_email u) (u_password_hash u) (u_auth_provider u)
    (u_is_admin u) (u_is_active u) (u_auth_epoch u) (u_updated_at u) (Some now).

Definition login (plaintext : bool) (username password : string) s : server * reply :=
  if plaintext then (s, Refused 403 "plaintext") else
  let identity := first_where (fun i => bool_decide (i_provider i = "local") &&
                                        bool_decide (i_identifier i = username)) (identities s) in
  let found := match identity with
               | Some i => user_by_id (i_user_id i) s
               | None => first_where (fun u => bool_decide (u_username u = username)) (users s)
               end in
  match found with
  | None => (s, Refused 401 "Invalid username or password")
  | Some u =>
      let has_local_identity :=
        existsb (fun i => (i_user_id i =? u_id u) && bool_decide (i_provider i = "local")) (identities s) in
      if negb has_local_identity && negb (bool_decide (u_auth_provider u = "local")) then
        (s, Refused 401 "Please use your configured authentication provider to log in")
      else if negb (match u_password_hash u with
                    | Some h => verify_password password h
                    | None => false
                    end) then (s, Refused 401 "Invalid username or password")
      else if negb (u_is_active u) then (s, Refused 401 "User account is disabled")
      else
        let access := create_access_token (u_id u) (u_username u) (u_auth_epoch u) s in
        let refresh := create_refresh_token (u_id u) s in
        let s1 := with_sessions (fun l => l ++ [session_of (u_id u) refresh s]) s in
        let s2 := with_identities (match identity with Some i => use_identity i (clock s) | None => id end) s1 in
        let s3 := with_users (update_where (fun u' => u_id u' =? u_id u) (logged_in (clock s))) s2 in
        (_cleanup_expired_sessions (u_id u) (draw s3), LoggedIn access refresh)
  end.

(** [_refresh_via_predecessor] *)
Definition _refresh_via_predecessor (token : string) (user_id : Z) s : server * reply :=
  match first_where (fun r => bool_decide (s_prior_refresh_token_hash r = Some (hash_token token)) &&
                              (s_user_id r =? user_id) && negb (s_is_revoked r)) (sessions s) with
  | None => (s, Refused 401 "Session not found or revoked")
  | Some r =>
      if s_expires_at r <=? clock s then (s, Refused 401 "Session expired")
      else match user_by_id user_id s with
      | None => (s, Refused 401 "User not found or disabled")
      | Some u =>
          if negb (u_is_active u) then (s, Refused 401 "User not found or disabled")
          else (with_sessions (update_where (fun r' => s_id r' =? s_id r) (touch_row (clock s))) s,
                Answered token (create_access_token (u_id u) (u_username u) (u_auth_epoch u) s))
      end
  end.

(** [refresh_tokens] up to the rotation: the row it is about to rotate, or the answer. *)
Definition refresh_tokens w (plaintext : bool) (token : option string) s : server * reply :=
  if plaintext then (s, Refused 403 "plaintext") else
  match token with
  | None => (s, Refused 401 "No refresh token provided")
  | Some token =>
      match (match decode_token w false token s with
             | Raise TokenRevoked => decode_token w true token s
             | r => r
             end) with
      | Raise TokenExpired => (s, Refused 401 "Refresh token expired")
      | Raise TokenRevoked => (s, Refused 401 "Refresh token revoked")
      | Raise InvalidToken => (s, Refused 401 "Invalid refresh token")
      | Ok c =>
          if negb (bool_decide (c_type c = Some "refresh")) then (s, Refused 401 "Invalid token type")
          else match c_sub c with
          | None => (s, Refused 401 "Invalid token payload")
          | Some user_id =>
              match first_where (fun r => bool_decide (s_refresh_token_hash r = hash_token token) &&
                                          negb (s_is_revoked r)) (sessions s) with
              | None => _refresh_via_predecessor token user_id s
              | Some r =>
                  if s_expires_at r <=? clock s then (s, Refused 401 "Session expired")
                  else match user_by_id user_id s with
                  | Some u =>
                      if u_is_active u then
                        (with_busy (cons (w, Rotating token c (s_id r) u)) s, Reading)
                      else (s, Refused 401 "User not found or disabled")
                  | None => (s, Refused 401 "User not found or disabled")
                  end
              end
          end
      end
  end.

(** The rotated row. *)
Definition rotate_row (token successor : string) (now days : Z) (r : session_row) : session_row :=
  SessionRow (s_id r) (s_user_id r) (hash_token successor) (Some (hash_token token)) (Some now)
    (now + days * DAY) now (s_is_revoked r).

(** The rest of [refresh_tokens], from [rotate_refresh_token]. *)
Definition rotate w (token : string) (c : claims) (row : Z) (u : user) s : server * reply :=
  match decode_token w false token s with
  | Raise TokenExpired => (s, Refused 401 "Refresh token expired")
  | Raise TokenRevoked => (s, Refused 401 "Refresh token revoked")
  | Raise InvalidToken => (s, Refused 401 "Invalid refresh token")
  | Ok c' =>
      if negb (bool_decide (c_type c' = Some "refresh")) then (s, Refused 401 "Invalid refresh token")
      else
      let user_id := default 0 (c_sub c) in
      let access := create_access_token (default 0 (c_sub c')) (u_username u) (u_auth_epoch u) s in
      let successor := create_refresh_token (default 0 (c_sub c')) s in
      let s1 := draw (revoke_token w (c_jti c') s) in
      let guard r := (s_id r =? row) && bool_decide (s_refresh_token_hash r = hash_token token) &&
                     negb (s_is_revoked r) in
      if (count_where guard (sessions s1) =? 0)%nat then _refresh_via_predecessor token user_id s1
      else (_cleanup_expired_sessions user_id
              (with_sessions (update_where guard
                 (rotate_row token successor (clock s) (refresh_days s))) s1),
            Rotated token access successor)
  end.

Definition mentions (h : string) (r : session_row) : bool :=
  bool_decide (s_refresh_token_hash r = h) || bool_decide (s_prior_refresh_token_hash r = Some h).

Definition logout (token : option string) s : server * reply :=
  match token with
  | None => (s, Done)
  | Some token =>
      match first_where (mentions (hash_token token)) (sessions s) with
      | None => (s, Done)
      | Some r => (with_sessions (update_where (fun r' => s_id r' =? s_id r) revoke_row) s, Done)
      end
  end.

(** ** Passwords *)

Definition set_password (h : string) (now epoch : Z) (u : user) : user :=
  User (u_id u) (u_username u) (u_email u) (Some h) (u_auth_provider u)
    (u_is_admin u) (u_is_active u) epoch now (u_last_login_at u).

Definition change_password w (token current new : string) s : server * reply :=
  match get_current_user w token s with
  | Raise e => (s, Refused 401 e)
  | Ok ServicePrincipal => (s, Refused 403 "MCP service principal cannot modify a user account")
  | Ok (Account u) =>
      if negb (match u_password_hash u with
               | Some h => verify_password current h
               | None => false
               end) then (s, Refused 401 "Current password is incorrect")
      else match validate_password new (u_username u) with
      | Some e => (s, Refused 422 e)
      | None =>
          (draw (with_users (update_where (fun u' => u_id u' =? u_id u)
                   (fun u' => set_password (hash_password (drawn s) new) (clock s) (u_auth_epoch u') u')) s), Done)
      end
  end.

Definition PASSWORD_RESET_ACCOUNT_COOLDOWN : Z := 5 * MINUTE.
Definition PASSWORD_RESET_MAX_ATTEMPTS : Z := 10.

Definition unused (r : reset_row) : bool := match r_used_at r with None => true | Some _ => false end.

Definition use_reset (now : Z) (r : reset_row) : reset_row :=
  ResetRow (r_id r) (r_user_id r) (r_token_hash r) (r_expires_at r) (Some now)
    (r_attempt_count r) (r_created_at r).

Definition reset_of (user_id : Z) (raw : string) s : reset_row :=
  ResetRow (next_rowid (map r_id (resets s))) user_id (hash_token raw) (clock s + HOUR) None 0 (clock s).

(** The insertion of a new reset token, under the partial unique index of unused tokens,
    the sweep of the account's other tokens, and the email. *)
Definition issue_reset (u : user) s : server * reply :=
  if existsb (fun r => (r_user_id r =? u_id u) && unused r) (resets s) then (s, Done)
  else
    let raw := raw_of (drawn s) in
    let row := reset_of (u_id u) raw s in
    (with_resets (fun l => delete_where (fun r => (r_user_id r =? u_id u) && negb (r_id r =? r_id row))
                             (l ++ [row])) (draw s),
     EmailSent (u_id u) raw).

Definition forgot_password w (email : string) s : server * reply :=
  match first_where (fun u => bool_decide (u_email u = Some email)) (users s) with
  | Some u =>
      if u_is_active u && bool_decide (u_auth_provider u = "local") then
        let now := clock s in
        let s1 := with_resets (delete_where (fun r => (r_user_id r =? u_id u) &&
                    (negb (unused r) || (r_expires_at r <=? now)))) s in
        let active := first_where (fun r => (r_user_id r =? u_id u) && unused r && (now <? r_expires_at r))
                        (py_sorted (fun r r' => r_created_at r' <=? r_created_at r) (resets s1)) in
        match active with
        | Some a =>
            if now - PASSWORD_RESET_ACCOUNT_COOLDOWN <? r_created_at a then (s1, Done)
            else
              let superseded r := (r_id r =? r_id a) && unused r in
              let s2 := with_resets (update_where superseded (use_reset now)) s1 in
              if negb (count_where superseded (resets s1) =? 1)%nat then (s2, Done)
              else (with_busy (cons (w, Issuing u)) s2, Reading)
        | None => issue_reset u s1
        end
      else (s, Done)
  | None => (s, Done)
  end.

(** [reset_password] up to the consumption of the token. *)
Definition reset_password w (raw new_password : string) s : server * reply :=
  let now := clock s in
  match first_where (fun r => bool_decide (r_token_hash r = hash_token raw) && unused r &&
                              (now <? r_expires_at r)) (resets s) with
  | None => (s, Refused 400 "Invalid or expired reset token")
  | Some valid_token =>
      let claimable r := (r_id r =? r_id valid_token) && unused r &&
                         (r_attempt_count r <? PASSWORD_RESET_MAX_ATTEMPTS) in
      let s1 := with_resets (update_where claimable (fun r =>
                  ResetRow (r_id r) (r_user_id r) (r_token_hash r) (r_expires_at r) (r_used_at r)
                    (r_attempt_count r + 1) (r_created_at r))) s in
      if negb (count_where claimable (resets s) =? 1)%nat then
        (s1, Refused 429 "Too many password reset attempts. Request a new reset link.")
      else match user_by_id (r_user_id valid_token) s1 with
      | Some u =>
          if negb (u_is_active u) then (s1, Refused 400 "Invalid or expired reset token")
          else match validate_password new_password (u_username u) with
          | Some e => (s1, Refused 422 e)
          | None =>
              (with_busy (cons (w, Resetting (r_id valid_token) u (hash_password (drawn s) new_password)))
                 (draw s1), Reading)
          end
      | None => (s1, Refused 400 "Invalid or expired reset token")
      end
  end.

(** [_consume_reset_token], the rows it writes and whether it wrote one. *)
Definition _consume_reset_token (token_id consumed_at : Z) s : server * bool :=
  let claimable r := (r_id r =? token_id) && unused r && (consumed_at <? r_expires_at r) in
  (with_resets (update_where claimable (use_reset consumed_at)) s,
   (count_where claimable (resets s) =? 1)%nat).

(** The rest of [reset_password]: one transaction.  [user.auth_epoch += 1] writes one more
    than the epoch that was loaded. *)
Definition commit_reset (token_id : Z) (u : user) (password_hash : string) s : server * reply :=
  match _consume_reset_token token_id (clock s) s with
  | (_, false) => (s, Refused 400 "Invalid or expired reset token")
  | (s1, true) =>
      if negb (existsb (fun u' => u_id u' =? u_id u) (users s)) then (s, Refused 500 "StaleDataError")
      else
        let s2 := with_users (update_where (fun u' => u_id u' =? u_id u)
                    (set_password password_hash (clock s) (u_auth_epoch u + 1))) s1 in
        (with_sessions (update_where (fun r => (s_user_id r =? u_id u) && negb (s_is_revoked r)) revoke_row) s2,
         PasswordReset (u_id u))
  end.

(** ** Accounts *)

Definition admin_create_user w (token username password : string) (email : option string)
    (is_admin : bool) s : server * reply :=
  match get_current_active_admin w token s with
  | Raise (code, e) => (s, Refused code e)
  | Ok _ =>
      if existsb (fun u => bool_decide (u_username u = username)) (users s) then
        (s, Refused 409 "Username already exists")
      else if match email with
              | Some e => negb (bool_decide (e = "")) &&
                          existsb (fun u => bool_decide (u_email u = Some e)) (users s)
              | None => false
              end then (s, Refused 409 "Email already registered")
      else match validate_password password username with
      | Some e => (s, Refused 422 e)
      | None =>
          let u := User (next_rowid (map u_id (users s))) username email
                     (Some (hash_password (drawn s) password)) "local" is_admin true 0 (clock s) None in
          (draw (with_users (fun l => l ++ [u]) s), Done)
      end
  end.

(** The body of [PATCH /api/admin/users/{user_id}]; [None] leaves the field. *)
Record user_update := UserUpdate {
  up_email : option string; up_is_admin : option bool; up_is_active : option bool;
  up_password : option string }.

Definition is_self (admin : option Z) (user_id : Z) : bool := bool_decide (admin = Some user_id).

Definition update_row (up : user_update) (h : option string) (now : Z) (u : user) : user :=
  User (u_id u) (u_username u)
    (match up_email up with Some e => Some e | None => u_email u end)
    (match h with Some h => Some h | None => u_password_hash u end) (u_auth_provider u)
    (default (u_is_admin u) (up_is_admin up)) (default (u_is_active u) (up_is_active up))
    (u_auth_epoch u) now (u_last_login_at u).

Definition admin_update_user w (token : string) (user_id : Z) (up : user_update) s : server * reply :=
  match get_current_active_admin w token s with
  | Raise (code, e) => (s, Refused code e)
  | Ok admin =>
      match user_by_id user_id s with
      | None => (s, Refused 404 "User not found")
      | Some u =>
          if match up_email up with
             | Some e => existsb (fun u' => bool_decide (u_email u' = Some e) && negb (u_id u' =? user_id)) (users s)
             | None => false
             end then (s, Refused 409 "Email already registered")
          else if is_self admin user_id && bool_decide (up_is_admin up = Some false) then
            (s, Refused 400 "Cannot remove your own admin status")
          else if is_self admin user_id && bool_decide (up_is_active up = Some false) then
            (s, Refused 400 "Cannot deactivate your own account")
          else match (p ← up_password up; validate_password p (u_username u)) with
          | Some e => (s, Refused 422 e)
          | None =>
              (draw (with_users (update_where (fun u' => u_id u' =? user_id)
                       (update_row up (hash_password (drawn s) <$> up_password up) (clock s))) s), Done)
          end
      end
  end.

(** [DELETE /api/admin/users/{user_id}] of [auth/admin_routes.py]: a deactivation. *)
Definition admin_delete_user w (token : string) (user_id : Z) s : server * reply :=
  match get_current_active_admin w token s with
  | Raise (code, e) => (s, Refused code e)
  | Ok admin =>
      match user_by_id user_id s with
      | None => (s, Refused 404 "User not found")
      | Some _ =>
          if is_self admin user_id then (s, Refused 400 "Cannot delete your own account")
          else (with_users (update_where (fun u' => u_id u' =? user_id)
                  (update_row (UserUpdate None None (Some false) None) None (clock s))) s, Done)
      end
  end.

(** [DELETE /api/auth/admin/users/{user_id}] of [auth/routes.py]: the rows go. *)
Definition delete_user w (token : string) (user_id : Z) s : server * reply :=
  match get_current_active_admin w token s with
  | Raise (code, e) => (s, Refused code e)
  | Ok admin =>
      match user_by_id user_id s with
      | None => (s, Refused 404 "User not found")
      | Some _ =>
          if is_self admin user_id then (s, Refused 400 "Cannot delete your own account")
          else
            let s1 := with_sessions (delete_where (fun r => s_user_id r =? user_id)) s in
            let s2 := with_resets (delete_where (fun r => r_user_id r =? user_id)) s1 in
            let s3 := with_identities (delete_where (fun i => i_user_id i =? user_id)) s2 in
            (with_users (delete_where (fun u => u_id u =? user_id)) s3, Done)
      end
  end.

Definition next_epoch (u : user) : user :=
  User (u_id u) (u_username u) (u_email u) (u_password_hash u) (u_auth_provider u)
    (u_is_admin u) (u_is_active u) (u_auth_epoch u + 1) (u_updated_at u) (u_last_login_at u).

Definition _revoke_sessions_on_tls_activation (was_terminating terminating : bool) s : server * reply :=
  if was_terminating || negb terminating then (s, Done)
  else (with_users (map next_epoch)
          (with_sessions (update_where (fun r => negb (s_is_revoked r)) revoke_row) s), Done).

(** ** Runs *)

Inductive call :=
| Login (plaintext : bool) (username password : string)
| Refresh (plaintext : bool) (token : option string)
| Logout (token : option string)
| ChangePassword (token current new : string)
| ForgotPassword (email : string)
| ResetPassword (raw new_password : string)
| AdminCreateUser (token username password : string) (email : option string) (is_admin : bool)
| AdminUpdateUser (token : string) (user_id : Z) (up : user_update)
| AdminDeleteUser (token : string) (user_id : Z)
| DeleteUser (token : string) (user_id : Z)
| ActivateTls (was_terminating terminating : bool).

Definition handle w (c : call) s : server * reply :=
  match c with
  | Login plaintext username password => login plaintext username password s
  | Refresh plaintext token => refresh_tokens w plaintext token s
  | Logout token => logout token s
  | ChangePassword token current new => change_password w token current new s
  | ForgotPassword email => forgot_password w email s
  | ResetPassword raw new_password => reset_password w raw new_password s
  | AdminCreateUser token username password email is_admin =>
      admin_create_user w token username password email is_admin s
  | AdminUpdateUser token user_id up => admin_update_user w token user_id up s
  | AdminDeleteUser token user_id => admin_delete_user w token user_id s
  | DeleteUser token user_id => delete_user w token user_id s
  | ActivateTls was_terminating terminating =>
      _revoke_sessions_on_tls_activation was_terminating terminating s
  end.

Definition resume w (q : request) s : server * reply :=
  match q with
  | Rotating token c row u => rotate w token c row u s
  | Issuing u => issue_reset u s
  | Resetting row u h => commit_reset row u h s
  end.

(** What can happen: a call reaches a process, a busy process goes on, time passes, a
    process restarts, the lifetimes are configured. *)
Inductive op :=
| Call (w : nat) (c : call)
| Continue (w : nat)
| Tick (d : nat)
| Restart (w : nat)
| Configure (minutes days : Z).

Definition pending w s : option request := snd <$> first_where (fun x => (x.1 =? w)%nat) (busy s).
Definition release w : server -> server := with_busy (delete_where (fun x => (x.1 =? w)%nat)).

Definition exec (o : op) s : server * reply :=
  match o with
  | Call w c => match pending w s with Some _ => (s, Waiting) | None => handle w c s end
  | Continue w => match pending w s with Some q => resume w q (release w s) | None => (s, Done) end
  | Tick d => (with_clock (Z.add (Z.of_nat d)) s, Done)
  | Restart w => (with_revoked (delete_where (fun x => (x.1 =? w)%nat)) (release w s), Done)
  | Configure minutes days => (with_lifetimes minutes days s, Done)
  end.

Fixpoint run (l : list op) s : server :=
  match l with [] => s | o :: l' => run l' (exec o s).1 end.

Fixpoint replies (l : list op) s : list reply :=
  match l with [] => [] | o :: l' => (exec o s).2 :: replies l' (exec o s).1 end.

(** A refresh no other process comes between. *)
Definition refresh w (token : string) s : server * reply :=
  match exec (Call w (Refresh false (Some token))) s with
  | (s1, Reading) => exec (Continue w) s1
  | x => x
  end.

(** A fresh installation: the users the setup made, nothing else. *)
Definition installed (us : list user) (now minutes days : Z) : server :=
  Server us [] [] [] [] [] 0 minutes days now.

End handlers.
End AuthHandlers.
