(* ===== verification/AuthSessions.v ===== *)
(** * Refresh-token sessions.

    What the handlers of [AuthHandlers] promise of a session, over every interleaving of the
    two processes: a refresh token is rotated at most once, its predecessor answers until the
    successor is used and never again after, logout and a password reset are final. *)
From S2P Require Import Prelude PyValue PyText PyDatetime AuthHandlers.
Open Scope Z_scope.

Module AuthSessions.
Import Datetime AuthHandlers.

Section sessions.
Context `{CredentialLaws}.
Implicit Types (s : server) (w : nat) (l : list session_row) (r : session_row).

(** ** Tokens *)

Lemma jwt_encode_inj c c' : jwt_encode c = jwt_encode c' -> c = c'.
Proof.
  intros Hc. set (now := Z.min (c_exp c / SECOND * SECOND) (c_exp c' / SECOND * SECOND) - 1).
  pose proof (jwt_roundtrip now c) as H1. pose proof (jwt_roundtrip now c') as H2.
  rewrite (proj2 (Z.leb_gt _ _)) in H1 by lia. rewrite (proj2 (Z.leb_gt _ _)) in H2 by lia. congruence.
Qed.

(** The payload of the refresh token of draw [n] for user [uid]. *)
Definition refresh_claims (n : nat) (uid : Z) (c : claims) : Prop :=
  c_jti c = Some (jti_of n) /\ c_sub c = Some uid /\ c_type c = Some "refresh".

Definition token_of (n : nat) (uid : Z) (t : string) : Prop :=
  exists c, refresh_claims n uid c /\ t = jwt_encode c.

Lemma token_of_inj n uid n' uid' t : token_of n uid t -> token_of n' uid' t -> n = n' /\ uid = uid'.
Proof.
  intros (c & (Hj & Hs & _) & ->) (c' & (Hj' & Hs' & _) & Hc). apply jwt_encode_inj in Hc as <-.
  rewrite Hj in Hj'. rewrite Hs in Hs'. simplify_eq. split; [|done]. by apply jti_inj.
Qed.

Lemma created_token uid s : token_of (drawn s) uid (create_refresh_token uid s).
Proof. eexists. split; [|reflexivity]. by repeat split. Qed.

(** [h] is the hash of a refresh token of [uid] drawn before the [n]th. *)
Definition issued (n : nat) (uid : Z) (h : string) : Prop :=
  exists k t, (k < n)%nat /\ token_of k uid t /\ h = hash_token t.

Lemma issued_token k n uid c : (k < n)%nat -> refresh_claims k uid c -> issued n uid (hash_token (jwt_encode c)).
Proof. intros Hk Hc. exists k, (jwt_encode c). split_and!; [done|by exists c|done]. Qed.

Lemma issued_later n n' uid h : (n <= n')%nat -> issued n uid h -> issued n' uid h.
Proof. intros Hn (k & t & Hk & Ht). exists k, t. split; [lia|done]. Qed.

Lemma issued_fresh n uid h uid' t : issued n uid h -> token_of n uid' t -> h <> hash_token t.
Proof.
  intros (k & t' & Hk & Ht' & ->) Ht He. apply hash_token_inj in He as ->.
  destruct (token_of_inj _ _ _ _ _ Ht Ht'). lia.
Qed.

(** ** Rows *)

Definition hashes r : list string :=
  s_refresh_token_hash r :: match s_prior_refresh_token_hash r with Some h => [h] | None => [] end.

Lemma current_in h r : s_refresh_token_hash r = h -> h ∈ hashes r.
Proof. intros <-. by left. Qed.

Lemma mentions_hashes h r : mentions h r = true <-> h ∈ hashes r.
Proof.
  unfold mentions, hashes. rewrite orb_true_iff, !bool_decide_eq_true, elem_of_cons.
  destruct (s_prior_refresh_token_hash r) as [h'|].
  - rewrite list_elem_of_singleton. split; intros [?|?]; simplify_eq; eauto.
  - split; intros [?|Hx]; eauto; [done|by apply elem_of_nil in Hx].
Qed.

Record rows_ok (n : nat) l : Prop := {
  ok_ids : NoDup (map s_id l);
  ok_hashes : NoDup (concat (map hashes l));
  ok_issued : forall r h, r ∈ l -> h ∈ hashes r -> issued n (s_user_id r) h;
  ok_draws : forall r r' k u u' t t', r ∈ l -> r' ∈ l -> token_of k u t -> token_of k u' t' ->
    hash_token t ∈ hashes r -> hash_token t' ∈ hashes r' -> t = t' }.

Lemma same_id n l r r' : rows_ok n l -> r ∈ l -> r' ∈ l -> s_id r = s_id r' -> r = r'.
Proof.
  intros [Hid _ _ _]. induction l as [|x l IH]; [by intros ?%elem_of_nil|].
  cbn in Hid. apply NoDup_cons in Hid as [Hx Hid].
  intros [->|Hr]%elem_of_cons [->|Hr']%elem_of_cons He; [done| | |by apply IH].
  - destruct Hx. rewrite He. by apply elem_of_map_2.
  - destruct Hx. rewrite <- He. by apply elem_of_map_2.
Qed.

Lemma same_hash n l r r' h : rows_ok n l -> r ∈ l -> r' ∈ l -> h ∈ hashes r -> h ∈ hashes r' -> r = r'.
Proof.
  intros [_ Hh _ _]. induction l as [|x l IH]; [by intros ?%elem_of_nil|].
  cbn [map concat] in Hh. apply NoDup_app in Hh as (_ & Hx & Hh).
  intros [->|Hr]%elem_of_cons [->|Hr']%elem_of_cons H1 H2; [done| | |by apply IH].
  - destruct (Hx h H1). apply elem_of_concat_map. eauto.
  - destruct (Hx h H2). apply elem_of_concat_map. eauto.
Qed.

(** What a step may do to the table: one row is added or rotated ([grow]), then rows are
    touched, revoked or removed ([prune]); [Q] holds of each row it ends. *)
Inductive grow (n : nat) (Q : session_row -> Prop) : list session_row -> list session_row -> Prop :=
| grow_same l : grow n Q l l
| grow_new l r t : token_of n (s_user_id r) t -> s_refresh_token_hash r = hash_token t ->
    s_prior_refresh_token_hash r = None -> s_is_revoked r = false ->
    s_id r = next_rowid (map s_id l) -> grow n Q l (l ++ [r])
| grow_rotate l1 l2 r token t now days : token_of n (s_user_id r) t ->
    s_refresh_token_hash r = hash_token token -> s_is_revoked r = false -> Q r ->
    grow n Q (l1 ++ r :: l2) (l1 ++ rotate_row token t now days r :: l2).

Definition lesser (Q : session_row -> Prop) r (o : option session_row) : Prop :=
  match o with
  | None => Q r
  | Some r' => s_id r' = s_id r /\ s_user_id r' = s_user_id r /\
      s_refresh_token_hash r' = s_refresh_token_hash r /\
      s_prior_refresh_token_hash r' = s_prior_refresh_token_hash r /\
      s_expires_at r' = s_expires_at r /\
      (s_is_revoked r' = s_is_revoked r \/ s_is_revoked r' = true /\ Q r)
  end.

Definition prune (Q : session_row -> Prop) l l' : Prop :=
  exists f, l' = omap f l /\ forall r, r ∈ l -> lesser Q r (f r).

Lemma omap_some {A B} (g : A -> B) (l : list A) : omap (fun x => Some (g x)) l = map g l.
Proof.
  induction l as [|x l IH]; [done|].
  change (g x :: omap (fun x => Some (g x)) l = g x :: map g l). by rewrite IH.
Qed.

Lemma prune_refl Q l : prune Q l l.
Proof. exists Some. split; [by rewrite (omap_some id), map_id|]. intros r _. cbn. tauto. Qed.

Lemma prune_update Q p f l :
  (forall r, r ∈ l -> p r = true -> lesser Q r (Some (f r))) -> prune Q l (update_where p f l).
Proof.
  intros Hf. exists (fun r => Some (if p r then f r else r)). split.
  - by rewrite omap_some.
  - intros r Hr. destruct (p r) eqn:Hp; [by apply Hf|]. cbn. tauto.
Qed.

Lemma prune_delete Q p l : (forall r, r ∈ l -> p r = true -> Q r) -> prune Q l (delete_where p l).
Proof.
  intros Hp. exists (fun r => if p r then None else Some r). split.
  - clear Hp. induction l as [|x l IH]; [done|]. unfold delete_where in *. cbn [List.filter].
    cbn [omap list_omap]. rewrite IH. by destruct (p x).
  - intros r Hr. destruct (p r) eqn:Hr'; cbn; [by apply Hp|tauto].
Qed.

Lemma pruned_elem Q l l' r' : prune Q l l' -> r' ∈ l' -> exists r, r ∈ l /\ lesser Q r (Some r').
Proof.
  intros (f & -> & Hf) (r & Hr & He)%list_elem_of_omap. exists r. split; [done|].
  rewrite <- He. by apply Hf.
Qed.

Lemma lesser_hashes Q r r' : lesser Q r (Some r') -> hashes r' = hashes r.
Proof. intros (_ & _ & He & Hp & _). unfold hashes. by rewrite He, Hp. Qed.

Lemma omap_sublist {A B} (g : A -> B) (f : A -> option A) (l : list A) :
  (forall x y, x ∈ l -> f x = Some y -> g y = g x) -> map g (omap f l) `sublist_of` map g l.
Proof.
  induction l as [|x l IH]; intros Hf; [done|].
  assert (IH' : map g (omap f l) `sublist_of` map g l) by (apply IH; intros; eapply Hf; [by right|done]).
  change (map g (omap f (x :: l)) `sublist_of` g x :: map g l). cbn [omap list_omap].
  destruct (f x) as [y|] eqn:Hy; [|by apply sublist_cons].
  cbn. rewrite (Hf x y); [|by left|done]. by apply sublist_skip.
Qed.

Lemma concat_sublist {A} (l l' : list (list A)) : l `sublist_of` l' -> concat l `sublist_of` concat l'.
Proof.
  induction 1 as [|x l l' Hl IH|x l l' Hl IH]; cbn; [done|by apply sublist_app|].
  by apply sublist_inserts_l.
Qed.

Lemma prune_ok Q n l l' : prune Q l l' -> rows_ok n l -> rows_ok n l'.
Proof.
  intros Hp [Hid Hh Hi Hdr]. pose proof Hp as (f & -> & Hf).
  assert (Hsome : forall x y, x ∈ l -> f x = Some y -> lesser Q x (Some y)).
  { intros x y Hx <-. by apply Hf. }
  split.
  - eapply sublist_NoDup; [exact Hid|]. apply omap_sublist. intros x y Hx Hy. by destruct (Hsome x y).
  - eapply sublist_NoDup; [exact Hh|]. apply concat_sublist, omap_sublist.
    intros x y Hx Hy. eapply lesser_hashes. by apply Hsome.
  - intros r' h (r & Hr & Hl)%(pruned_elem _ _ _ _ Hp) Hin. rewrite (lesser_hashes _ _ _ Hl) in Hin.
    destruct Hl as (_ & -> & _). by apply (Hi r).
  - intros r1' r2' k u u' t t' (r1 & Hr1 & Hl1)%(pruned_elem _ _ _ _ Hp) (r2 & Hr2 & Hl2)%(pruned_elem _ _ _ _ Hp).
    rewrite (lesser_hashes _ _ _ Hl1), (lesser_hashes _ _ _ Hl2). by apply Hdr.
Qed.

Lemma next_rowid_fresh (ids : list Z) : next_rowid ids ∉ ids.
Proof.
  assert (Hle : forall i, i ∈ ids -> i <= foldr Z.max 0 ids).
  { induction ids as [|x ids IH]; [by intros ? ?%elem_of_nil|].
    intros i [->|Hi]%elem_of_cons; cbn; [lia|]. pose proof (IH i Hi). lia. }
  intros Hin%Hle. unfold next_rowid in Hin. lia.
Qed.

Lemma rotated_hashes l1 l2 r token t now days :
  s_refresh_token_hash r = hash_token token ->
  concat (map hashes (l1 ++ rotate_row token t now days r :: l2)) ≡ₚ
    hash_token t :: concat (map hashes l1) ++ [hash_token token] ++ concat (map hashes l2) /\
  concat (map hashes l1) ++ [hash_token token] ++ concat (map hashes l2) `sublist_of`
    concat (map hashes (l1 ++ r :: l2)).
Proof.
  intros He. rewrite !map_app, !concat_app. cbn [map concat]. split.
  - unfold hashes at 2. cbn. by rewrite (Permutation_middle (concat (map hashes l1))).
  - apply sublist_app; [done|]. apply sublist_app; [|done]. unfold hashes. rewrite He.
    apply sublist_skip, sublist_nil_l.
Qed.

(** The hashes after a growth are those before and the new token's. *)
Lemma grow_hash Q n l l' : grow n Q l l' -> exists t0 u0, token_of n u0 t0 /\ forall r' h, r' ∈ l' -> h ∈ hashes r' ->
  (exists r, r ∈ l /\ h ∈ hashes r /\ s_user_id r = s_user_id r') \/ h = hash_token t0 /\ s_user_id r' = u0.
Proof.
  intros Hg. destruct Hg as [l|l r t Ht He Hp _ _|l1 l2 r token t now days Ht He _ _].
  - exists (jwt_encode (Claims (Some 0) None (Some "refresh") 0 0 (Some (jti_of n)) None)), 0.
    split; [eexists; split; [|done]; by repeat split|]. intros r' h Hr' Hh. left. by exists r'.
  - exists t, (s_user_id r). split; [done|]. intros r' h Hr' Hh.
    apply elem_of_app in Hr' as [Hr'|Hr'%list_elem_of_singleton]; [left; by exists r'|subst r'].
    right. unfold hashes in Hh. rewrite He, Hp in Hh. by apply list_elem_of_singleton in Hh.
  - exists t, (s_user_id r). split; [done|]. intros r' h Hr' Hh. apply elem_of_app in Hr' as [Hr'|[->|Hr']%elem_of_cons].
    1, 3: left; exists r'; split; [apply elem_of_app; first [by left|right; by right]|done].
    unfold hashes in Hh. cbn in Hh. apply elem_of_cons in Hh as [->|Hh%list_elem_of_singleton]; [by right|].
    left. exists r. split; [apply elem_of_app; right; by left|]. split; [apply current_in; congruence|done].
Qed.

Lemma grow_ids Q n l l' : grow n Q l l' -> NoDup (map s_id l) -> NoDup (map s_id l').
Proof.
  intros Hg Hid. destruct Hg as [l|l r t Ht He Hp Hv Hn|l1 l2 r token t now days Ht He Hv HQ]; [done| |].
  - rewrite map_app. apply NoDup_app. split_and!; [done| |apply NoDup_singleton].
    intros i Hin. cbn [map]. rewrite list_elem_of_singleton. intros ->. rewrite Hn in Hin.
    by apply next_rowid_fresh in Hin.
  - rewrite map_app in *. done.
Qed.

Lemma grow_hashes Q n l l' : grow n Q l l' -> rows_ok n l -> NoDup (concat (map hashes l')).
Proof.
  intros Hg [_ Hh Hi _]. destruct Hg as [l|l r t Ht He Hp Hv Hn|l1 l2 r token t now days Ht He Hv HQ]; [done| |].
  - assert (Hhr : hashes r = [hash_token t]) by (unfold hashes; by rewrite He, Hp).
    rewrite map_app, concat_app. cbn [map concat]. rewrite app_nil_r, Hhr. apply NoDup_app.
    split_and!; [done| |apply NoDup_singleton].
    intros h (r' & Hr' & Hin)%elem_of_concat_map. rewrite list_elem_of_singleton.
    eapply issued_fresh; [by eapply Hi|done].
  - destruct (rotated_hashes l1 l2 r token t now days He) as [Hperm Hsub].
    rewrite Hperm. apply NoDup_cons. split; [|by eapply sublist_NoDup].
    intros Hin. apply (elem_of_sublist _ _ _ Hin) in Hsub as Hin'. clear Hin.
    apply elem_of_concat_map in Hin' as (r' & Hr' & Hin).
    by eapply issued_fresh; [by eapply Hi| |].
Qed.

(** A hash issued before the [n]th draw is not of a token of that draw. *)
Lemma issued_draw n uid k u t : issued n uid (hash_token t) -> token_of k u t -> (k < n)%nat.
Proof.
  intros (k' & t' & Hk & Ht' & <-%hash_token_inj) Ht. by destruct (token_of_inj _ _ _ _ _ Ht Ht') as [-> _].
Qed.

Lemma grow_ok Q n l l' : grow n Q l l' -> rows_ok n l -> rows_ok (S n) l'.
Proof.
  intros Hg Hok. destruct (grow_hash _ _ _ _ Hg) as (t0 & u0 & Ht0 & Hold). split.
  - eapply grow_ids; [exact Hg|apply Hok].
  - by eapply grow_hashes.
  - intros r' h Hr' Hh. destruct (Hold _ _ Hr' Hh) as [(r & Hr & Hh' & <-)|[-> ->]].
    + eapply issued_later; [|by eapply Hok]. lia.
    + exists n, t0. split; [lia|done].
  - intros r r' k u u' t t' Hr Hr' Ht Ht' Hh Hh'.
    destruct (Hold _ _ Hr Hh) as [(x & Hx & Hhx & _)|[Hhx _]], (Hold _ _ Hr' Hh') as [(y & Hy & Hhy & _)|[Hhy _]].
    + by eapply (ok_draws _ _ Hok x y).
    + apply hash_token_inj in Hhy as ->. destruct (token_of_inj _ _ _ _ _ Ht' Ht0) as [-> _].
      pose proof (issued_draw _ _ _ _ _ (ok_issued _ _ Hok _ _ Hx Hhx) Ht). lia.
    + apply hash_token_inj in Hhx as ->. destruct (token_of_inj _ _ _ _ _ Ht Ht0) as [-> _].
      pose proof (issued_draw _ _ _ _ _ (ok_issued _ _ Hok _ _ Hy Hhy) Ht'). lia.
    + apply hash_token_inj in Hhx as ->. by apply hash_token_inj in Hhy as ->.
Qed.

(** [h] is current in no live row; [h] is in no live row. *)
Definition retired (h : string) l : Prop :=
  forall r, r ∈ l -> s_is_revoked r = false -> s_refresh_token_hash r <> h.
Definition dead (h : string) l : Prop :=
  forall r, r ∈ l -> s_is_revoked r = false -> h ∉ hashes r.

Lemma lesser_live Q r r' : lesser Q r (Some r') -> s_is_revoked r' = false -> s_is_revoked r = false.
Proof. intros (_ & _ & _ & _ & _ & [He|[He _]]); congruence. Qed.

Lemma retired_prune Q h l l' : prune Q l l' -> retired h l -> retired h l'.
Proof.
  intros Hp Hr r' (r & Hin & Hl)%(pruned_elem _ _ _ _ Hp) Hv.
  pose proof Hl as (_ & _ & -> & _). eapply Hr; [done|by eapply lesser_live].
Qed.

Lemma dead_prune Q h l l' : prune Q l l' -> dead h l -> dead h l'.
Proof.
  intros Hp Hr r' (r & Hin & Hl)%(pruned_elem _ _ _ _ Hp) Hv.
  rewrite (lesser_hashes _ _ _ Hl). eapply Hr; [done|by eapply lesser_live].
Qed.

Lemma retired_grow Q n uid h l l' : grow n Q l l' -> issued n uid h -> retired h l -> retired h l'.
Proof.
  intros Hg Hi Hr. destruct Hg as [l|l r t Ht He _ _ _|l1 l2 r token t now days Ht He Hv HQ]; [done| |].
  - intros r' [Hr'|Hr'%list_elem_of_singleton]%elem_of_app Hv; [by apply Hr|subst r'].
    rewrite He. intros E. by eapply issued_fresh in Hi.
  - intros r' Hr' Hv'. apply elem_of_app in Hr' as [Hr'|[->|Hr']%elem_of_cons].
    1, 3: apply Hr; [|done]; apply elem_of_app; first [by left|right; by right].
    cbn. intros E. by eapply issued_fresh in Hi.
Qed.

Lemma dead_grow Q n uid h l l' : grow n Q l l' -> issued n uid h -> dead h l -> dead h l'.
Proof.
  intros Hg Hi Hr. destruct Hg as [l|l r t Ht He Hp _ _|l1 l2 r token t now days Ht He Hv HQ]; [done| |].
  - intros r' [Hr'|Hr'%list_elem_of_singleton]%elem_of_app Hv; [by apply Hr|subst r'].
    unfold hashes. rewrite He, Hp, list_elem_of_singleton. intros E. by eapply issued_fresh in Hi.
  - intros r' Hr' Hv'. apply elem_of_app in Hr' as [Hr'|[->|Hr']%elem_of_cons].
    1, 3: apply Hr; [|done]; apply elem_of_app; first [by left|right; by right].
    unfold hashes. cbn. rewrite elem_of_cons, list_elem_of_singleton. intros [E|E].
    + by eapply issued_fresh in Hi.
    + apply (Hr r); [apply elem_of_app; right; by left|done|]. rewrite E, <- He. by left.
Qed.

(** ** The invariant *)

(** What a refresh that is to go on has read: the payload of a token the server drew, and
    the only row the token is current in. *)
Definition rotating_ok s (token : string) (c : claims) (row : Z) (u : user) : Prop :=
  (exists n uid, (n < drawn s)%nat /\ refresh_claims n uid c /\ token = jwt_encode c) /\
  (forall r n u u' t, r ∈ sessions s -> token_of n u token -> token_of n u' t -> hash_token t ∈ hashes r ->
    t = token /\ (s_refresh_token_hash r = hash_token token -> s_id r = row)).

Record wf s : Prop := {
  wf_rows : rows_ok (drawn s) (sessions s);
  wf_revoked : forall w j, (w, j) ∈ revoked s -> exists n, (n < drawn s)%nat /\ j = jti_of n /\
    forall u t, token_of n u t -> retired (hash_token t) (sessions s);
  wf_busy : forall w token c row u, (w, Rotating token c row u) ∈ busy s -> rotating_ok s token c row u }.

Lemma wf_installed us now minutes days : wf (installed us now minutes days).
Proof.
  split; cbn.
  - split; [apply NoDup_nil_2|apply NoDup_nil_2|by intros ? ? ?%elem_of_nil|by intros ? ? ? ? ? ? ? ?%elem_of_nil].
  - by intros ? ? ?%elem_of_nil.
  - by intros ? ? ? ? ? ?%elem_of_nil.
Qed.

Record effect (Q : session_row -> Prop) s s' : Prop := {
  e_drawn : (drawn s <= drawn s')%nat;
  e_sessions : exists mid, grow (drawn s) Q (sessions s) mid /\ prune Q mid (sessions s') /\
    (mid = sessions s \/ (drawn s < drawn s')%nat);
  e_revoked : forall w j, (w, j) ∈ revoked s' -> (w, j) ∈ revoked s \/
    exists n, (n < drawn s')%nat /\ j = jti_of n /\
      forall u t, token_of n u t -> retired (hash_token t) (sessions s');
  e_busy : forall w token c row u, (w, Rotating token c row u) ∈ busy s' ->
    (w, Rotating token c row u) ∈ busy s \/ rotating_ok s' token c row u }.

Lemma rows_later n n' l : (n <= n')%nat -> rows_ok n l -> rows_ok n' l.
Proof. intros Hn [? ? Hi ?]. split; [done..| |done]. intros. eapply issued_later; [done|by eapply Hi]. Qed.

Lemma effect_rows Q s s' : effect Q s s' -> rows_ok (drawn s) (sessions s) -> rows_ok (drawn s') (sessions s').
Proof.
  intros [Hd (mid & Hg & Hp & Hmid) _ _] Hok. eapply prune_ok; [exact Hp|].
  destruct Hmid as [->|Hlt]; [by eapply rows_later|]. eapply rows_later; [exact Hlt|by eapply grow_ok].
Qed.

Lemma effect_retired Q s s' uid h :
  effect Q s s' -> issued (drawn s) uid h -> retired h (sessions s) -> retired h (sessions s').
Proof. intros [_ (mid & Hg & Hp & _) _ _] Hi Hr. eapply retired_prune; [exact Hp|by eapply retired_grow]. Qed.

Lemma effect_dead Q s s' uid h :
  effect Q s s' -> issued (drawn s) uid h -> dead h (sessions s) -> dead h (sessions s').
Proof. intros [_ (mid & Hg & Hp & _) _ _] Hi Hr. eapply dead_prune; [exact Hp|by eapply dead_grow]. Qed.

(** A row a token is in, or current in, was so before the step. *)
Lemma hash_before Q s s' uid h r' :
  effect Q s s' -> issued (drawn s) uid h -> r' ∈ sessions s' -> h ∈ hashes r' ->
  exists r, r ∈ sessions s /\ h ∈ hashes r /\
    (s_refresh_token_hash r' = h -> s_refresh_token_hash r = h /\ s_id r' = s_id r).
Proof.
  intros [_ (mid & Hg & Hp & _) _ _] Hi Hr' Hh.
  destruct (pruned_elem _ _ _ _ Hp Hr') as (r & Hr & Hl).
  rewrite (lesser_hashes _ _ _ Hl) in Hh. destruct Hl as (-> & _ & -> & _).
  destruct Hg as [l|l x t Ht Hx Hpx _ _|l1 l2 x token t now days Ht Hx _ _]; [by exists r| |].
  - apply elem_of_app in Hr as [Hr|Hr%list_elem_of_singleton]; [by exists r|]. subst r.
    exfalso. unfold hashes in Hh. rewrite Hx, Hpx in Hh. apply list_elem_of_singleton in Hh as ->.
    by eapply issued_fresh in Hi.
  - apply elem_of_app in Hr as [Hr|[->|Hr]%elem_of_cons].
    1, 3: exists r; split; [apply elem_of_app; first [by left|right; by right]|done].
    exists x. split; [apply elem_of_app; right; by left|].
    unfold hashes in Hh. cbn in Hh. apply elem_of_cons in Hh as [->|Hh%list_elem_of_singleton];
      [exfalso; by eapply issued_fresh in Hi|].
    subst h. split; [by apply current_in|]. cbn. intros He. by destruct (issued_fresh _ _ _ _ _ Hi Ht).
Qed.

Lemma rotating_effect Q s s' token c row u : effect Q s s' -> rotating_ok s token c row u -> rotating_ok s' token c row u.
Proof.
  intros He [(n & uid & Hn & Hc & ->) Hr]. pose proof (e_drawn _ _ _ He). split; [exists n, uid; split; [lia|done]|].
  intros r' n' u1 u' t Hr' Ht0 Ht Hh. assert (n' = n) as -> by (eapply token_of_inj; [exact Ht0|by exists c]).
  assert (Hi : issued (drawn s) u' (hash_token t)) by (exists n, t; by split_and!).
  destruct (hash_before _ _ _ _ _ _ He Hi Hr' Hh) as (r & Hin & Hh' & Hcur).
  destruct (Hr r n u1 u' t Hin Ht0 Ht Hh') as [-> Hid]. split; [done|].
  intros [Hc1 ->]%Hcur. by apply Hid.
Qed.

Lemma wf_effect Q s s' : effect Q s s' -> wf s -> wf s'.
Proof.
  intros He [Hrows Hrev Hbusy]. split.
  - by eapply effect_rows.
  - intros w j Hin. destruct (e_revoked _ _ _ He _ _ Hin) as [Hin'|?]; [|done].
    destruct (Hrev _ _ Hin') as (n & Hn & -> & Hr). pose proof (e_drawn _ _ _ He).
    exists n. split_and!; [lia|done|]. intros u t Ht.
    eapply effect_retired; [exact He|exists n, t; by split_and!|by eapply Hr].
  - intros w token c row u Hin. destruct (e_busy _ _ _ He _ _ _ _ _ Hin) as [Hin'|?]; [|done].
    eapply rotating_effect; [exact He|by eapply Hbusy].
Qed.

(** ** The handlers *)

Definition expired s r : bool := s_expires_at r <? clock s.

(** The rows a step may revoke, remove or rotate. *)
Definition ends (o : op) s r : bool :=
  expired s r ||
  match o with
  | Call w c =>
      match pending w s with
      | Some _ => false
      | None => match c with
          | Logout (Some token) => mentions (hash_token token) r
          | DeleteUser _ user_id => s_user_id r =? user_id
          | ActivateTls was_terminating terminating => negb was_terminating && terminating
          | _ => false
          end
      end
  | Continue w =>
      match pending w s with
      | Some (Rotating token _ _ _) => bool_decide (s_refresh_token_hash r = hash_token token)
      | Some (Resetting _ u _) => s_user_id r =? u_id u
      | _ => false
      end
  | _ => false
  end.

(** A step that leaves the sessions alone; one that only ends rows. *)
Definition calm s s' : Prop :=
  (drawn s <= drawn s')%nat /\ sessions s' = sessions s /\
  (forall x, x ∈ revoked s' -> x ∈ revoked s) /\
  (forall w token c row u, (w, Rotating token c row u) ∈ busy s' -> (w, Rotating token c row u) ∈ busy s).

Lemma calm_refl s : calm s s.
Proof. by repeat split. Qed.

Lemma effect_prune Q s s1 s' : calm s s1 -> prune Q (sessions s1) (sessions s') ->
  drawn s' = drawn s1 -> revoked s' = revoked s1 -> busy s' = busy s1 -> effect Q s s'.
Proof.
  intros (Hd & Hs & Hr & Hb) Hp Hd' Hr' Hb'. split.
  - by rewrite Hd'.
  - exists (sessions s). split; [constructor|]. rewrite <- Hs at 1. split; [done|by left].
  - rewrite Hr'. eauto.
  - rewrite Hb'. eauto.
Qed.

Lemma effect_calm Q s s' : calm s s' -> effect Q s s'.
Proof. intros Hc. by apply (effect_prune Q s s' s'); [|apply prune_refl|..]. Qed.

Ltac calm_leaf := first [exact (calm_refl _) | repeat split; cbn; try done; try lia].

Lemma calm_issue u s : calm s (issue_reset u s).1.
Proof. unfold issue_reset. split_goal; calm_leaf. Qed.

Lemma calm_change_password w token current new s : calm s (change_password w token current new s).1.
Proof. unfold change_password. split_goal; calm_leaf. Qed.

Lemma calm_reset_password w raw new s : calm s (reset_password w raw new s).1.
Proof.
  unfold reset_password. split_goal; calm_leaf. intros ? ? ? ? ? [?|?]%elem_of_cons; done.
Qed.

Lemma calm_forgot w email s : calm s (forgot_password w email s).1.
Proof.
  unfold forgot_password. destruct (first_where _ (users s)) as [u|]; [|calm_leaf].
  destruct (_ && _); [|calm_leaf]. destruct (first_where _ _).
  - split_goal; calm_leaf. intros ? ? ? ? ? [?|?]%elem_of_cons; done.
  - match goal with |- calm _ (issue_reset _ ?s1).1 => destruct (calm_issue u s1) as (? & ? & ? & ?) end.
    by repeat split.
Qed.

Lemma calm_create w token name pw email adm s : calm s (admin_create_user w token name pw email adm s).1.
Proof. unfold admin_create_user. split_goal; calm_leaf. Qed.
Lemma calm_update w token id up s : calm s (admin_update_user w token id up s).1.
Proof. unfold admin_update_user. split_goal; calm_leaf. Qed.
Lemma calm_deactivate w token id s : calm s (admin_delete_user w token id s).1.
Proof. unfold admin_delete_user. split_goal; calm_leaf. Qed.

Lemma first_where_Some {A} (p : A -> bool) (l : list A) x :
  first_where p l = Some x -> x ∈ l /\ p x = true.
Proof. intros [Hin Hp]%find_some. by apply list_elem_of_In in Hin. Qed.

Lemma first_where_None {A} (p : A -> bool) (l : list A) :
  first_where p l = None -> forall x, x ∈ l -> p x = false.
Proof. intros Hn x Hx%list_elem_of_In. by eapply find_none. Qed.

Lemma count_where_0 {A} (p : A -> bool) (l : list A) :
  count_where p l = 0%nat -> forall x, x ∈ l -> p x = false.
Proof.
  intros Hc%nil_length_inv x Hx. destruct (p x) eqn:Hp; [|done].
  assert (Hin : x ∈ List.filter p l) by (by apply elem_of_list_filter).
  rewrite Hc in Hin. by apply elem_of_nil in Hin.
Qed.

(** An update that can only hit one id hits one row. *)
Lemma update_where_split p f l i : NoDup (map s_id l) -> (forall r, p r = true -> s_id r = i) ->
  count_where p l <> 0%nat -> exists l1 r l2, l = l1 ++ r :: l2 /\ p r = true /\
    update_where p f l = l1 ++ f r :: l2.
Proof.
  intros Hid Hp. unfold count_where, update_where.
  induction l as [|x l IH]; [done|]. cbn [List.filter map]. cbn in Hid.
  apply NoDup_cons in Hid as [Hx Hid]. destruct (p x) eqn:Hpx.
  - intros _. exists [], x, l. split_and!; [done..|]. cbn. f_equal.
    transitivity (map (fun y => y) l); [|apply map_id]. apply map_ext_in. intros y Hy%list_elem_of_In.
    destruct (p y) eqn:Hpy; [|done]. destruct Hx. rewrite (Hp _ Hpx), <- (Hp _ Hpy). by apply elem_of_map_2.
  - intros Hc. destruct (IH Hid Hc) as (l1 & r & l2 & -> & Hr & He). exists (x :: l1), r, l2.
    split_and!; [done..|]. cbn. f_equal. exact He.
Qed.

Lemma cleanup_prune (Q : session_row -> Prop) uid s : (forall r, expired s r = true -> Q r) ->
  prune Q (sessions s) (sessions (_cleanup_expired_sessions uid s)).
Proof. intros HQ. apply prune_delete. intros r _ Hr. apply HQ. unfold expired. by apply andb_prop in Hr as [_ Hr]. Qed.

Lemma effect_login (Q : session_row -> Prop) plaintext name pw s : (forall r, expired s r = true -> Q r) ->
  effect Q s (login plaintext name pw s).1.
Proof.
  intros HQ. unfold login. destruct plaintext; [apply effect_calm, calm_refl|]. cbv zeta.
  destruct (match first_where _ (identities s) with Some _ => _ | None => _ end) as [u|];
    [|apply effect_calm, calm_refl].
  repeat match goal with
  | |- context [if ?b then (s, _) else _] => destruct b; [apply effect_calm, calm_refl|]
  end.
  cbn [fst]. split; [cbn; lia| |cbn; eauto..].
  exists (sessions s ++ [session_of (u_id u) (create_refresh_token (u_id u) s) s]). split_and!.
  - eapply grow_new; [apply (created_token (u_id u))|done..].
  - apply cleanup_prune. exact HQ.
  - right. cbn. lia.
Qed.

(** The predecessor's answer touches one row. *)
Lemma predecessor_prune (Q : session_row -> Prop) token uid s (s' := (_refresh_via_predecessor token uid s).1) :
  prune Q (sessions s) (sessions s') /\ drawn s' = drawn s /\ revoked s' = revoked s /\ busy s' = busy s.
Proof.
  assert (Hs : prune Q (sessions s) (sessions s)) by apply prune_refl.
  subst s'. unfold _refresh_via_predecessor. destruct (first_where _ _) as [r|]; [|done].
  destruct (_ <=? _); [done|]. destruct (user_by_id _ _) as [u|]; [|done].
  destruct (negb _); [done|]. split_and!; [|done..]. apply prune_update. intros. cbn. tauto.
Qed.

Lemma decode_Ok w (ig : bool) c c' s : decode_token w ig (jwt_encode c) s = Ok c' -> c' = c.
Proof. unfold decode_token. rewrite jwt_roundtrip. intros Hd. split_ok Hd. by case_match; simplify_eq. Qed.

(** The token a row is found by is one the server drew for the row's user. *)
Lemma row_token n l r token : rows_ok n l -> r ∈ l -> hash_token token ∈ hashes r ->
  exists k c, (k < n)%nat /\ refresh_claims k (s_user_id r) c /\ token = jwt_encode c.
Proof.
  intros [_ _ Hi _] Hr Hh. destruct (Hi _ _ Hr Hh) as (k & t & Hk & (c & Hc & ->) & ->%hash_token_inj).
  by exists k, c.
Qed.

Lemma effect_refresh (Q : session_row -> Prop) w plaintext token s : wf s ->
  effect Q s (refresh_tokens w plaintext token s).1.
Proof.
  intros Hwf. unfold refresh_tokens.
  destruct plaintext; [apply effect_calm, calm_refl|]. destruct token as [token|]; [|apply effect_calm, calm_refl].
  destruct (match decode_token w false token s with Ok _ => _ | Raise _ => _ end) as [c|[]] eqn:Hd;
    [|apply effect_calm, calm_refl..].
  destruct (negb _); [apply effect_calm, calm_refl|].
  destruct (c_sub c) as [uid|] eqn:Hsub; [|apply effect_calm, calm_refl].
  destruct (first_where _ _) as [r|] eqn:Hf; 
    [|destruct (predecessor_prune Q token uid s) as (? & ? & ? & ?);
      by apply (effect_prune _ _ s); [apply calm_refl|..]].
  destruct (_ <=? _); [apply effect_calm, calm_refl|].
  destruct (user_by_id _ _) as [u|]; [|apply effect_calm, calm_refl].
  destruct (u_is_active u); [|apply effect_calm, calm_refl]. cbn [fst].
  apply first_where_Some in Hf as [Hr Hp]. to_prop.
  assert (Hin : hash_token token ∈ hashes r) by by apply current_in.
  destruct (row_token _ _ _ _ (wf_rows _ Hwf) Hr Hin) as (k & c0 & Hk & Hc & ->).
  assert (c = c0) as ->.
  { destruct (decode_token w false _ s) as [c1|[]] eqn:Hd1; simplify_eq.
    - by eapply decode_Ok.
    - by eapply decode_Ok. }
  split; cbn; [lia| |by eauto|].
  - exists (sessions s). split; [constructor|]. split; [apply prune_refl|by left].
  - intros w' token' c' row' u' [Hx|Hx]%elem_of_cons; [|by left]. simplify_eq. right. split; [by exists k, (s_user_id r)|].
    intros r' n u0 u1 t Hr' Ht0 Ht Hh. cbn in Hr'. split.
    + by eapply (ok_draws _ _ (wf_rows _ Hwf) r' r).
    + intros He. assert (r' = r) as ->; [|done].
      eapply same_hash; [exact (wf_rows _ Hwf)|done..|by apply current_in|exact Hin].
Qed.

Lemma revoke_drawn w n s : revoke_token w (Some (jti_of n)) s = with_revoked (cons (w, jti_of n)) s.
Proof. unfold revoke_token. rewrite bool_decide_false; [done|apply jti_nonempty]. Qed.

(** The rows the rotation's [UPDATE] may hit. *)
Definition guarded (row : Z) (token : string) r : bool :=
  (s_id r =? row) && bool_decide (s_refresh_token_hash r = hash_token token) && negb (s_is_revoked r).

Lemma guarded_spec row token r : guarded row token r = true <->
  s_id r = row /\ s_refresh_token_hash r = hash_token token /\ s_is_revoked r = false.
Proof.
  unfold guarded. rewrite !andb_true_iff, Z.eqb_eq, bool_decide_eq_true, negb_true_iff. tauto.
Qed.

(** A lost race: no row is left to rotate, the predecessor's answer touches one. *)
Lemma effect_lost (Q : session_row -> Prop) w n uid c row u s s' :
  (n < drawn s)%nat -> refresh_claims n uid c -> rotating_ok s (jwt_encode c) c row u ->
  count_where (guarded row (jwt_encode c)) (sessions s) = 0%nat ->
  prune Q (sessions s) (sessions s') -> drawn s' = S (drawn s) -> busy s' = busy s ->
  revoked s' = (w, jti_of n) :: revoked s -> effect Q s s'.
Proof.
  intros Hn Hc [_ Hrow] Hcount Hp Hd Hb Hr. split.
  - lia.
  - exists (sessions s). split; [constructor|]. split; [done|by left].
  - rewrite Hr. intros w' j [Hx|Hx]%elem_of_cons; [right|by left]. simplify_eq.
    exists n. split_and!; [lia|done|]. intros u' t Ht.
    eapply retired_prune; [exact Hp|]. intros r Hin Hv He.
    destruct (Hrow r n uid u' t Hin) as [-> Hid]; [by exists c|done|by apply current_in|].
    assert (Hg : guarded row (jwt_encode c) r = true) by (apply guarded_spec; auto).
    by rewrite (count_where_0 _ _ Hcount r Hin) in Hg.
  - rewrite Hb. by left.
Qed.

(** After a rotation no row holds a token of the presented one's draw as current. *)
Lemma won_retired (Q : session_row -> Prop) n uid c r l1 l2 s (l := l1 ++ r :: l2) u t days
    (r' := rotate_row (jwt_encode c) (create_refresh_token uid s) (clock s) days r) :
  rows_ok (drawn s) l -> (n < drawn s)%nat -> token_of n u t ->
  grow (drawn s) Q l (l1 ++ r' :: l2) -> s_refresh_token_hash r = hash_token (jwt_encode c) ->
  (forall x, x ∈ l -> hash_token t ∈ hashes x -> t = jwt_encode c) -> retired (hash_token t) (l1 ++ r' :: l2).
Proof.
  intros Hok Hn Ht Hgrow He Honly x Hx _ Hcur.
  assert (Hfresh : s_refresh_token_hash r' <> hash_token t).
  { cbn. intros Hcr%hash_token_inj. destruct (token_of_inj n u (drawn s) uid t); [done| |lia].
    rewrite <- Hcr. apply created_token. }
  assert (Hx' : x ∈ l).
  { apply elem_of_app in Hx as [Hx|[->|Hx]%elem_of_cons]; [|done|]; apply elem_of_app; first [by left|right; by right]. }
  assert (t = jwt_encode c) as ->.
  { apply (Honly x Hx'). by apply current_in. }
  assert (x = r') as ->; [|done].
  eapply same_hash; [eapply grow_ok; [exact Hgrow|exact Hok]|exact Hx| |by apply current_in|right; by left].
  apply elem_of_app. right. by left.
Qed.

(** A won one: the row is rotated, the presented token becomes its predecessor. *)
Lemma effect_won (Q : session_row -> Prop) w n uid c row u s s' :
  rows_ok (drawn s) (sessions s) -> (n < drawn s)%nat -> refresh_claims n uid c ->
  rotating_ok s (jwt_encode c) c row u ->
  count_where (guarded row (jwt_encode c)) (sessions s) <> 0%nat ->
  (forall r, s_refresh_token_hash r = hash_token (jwt_encode c) -> Q r) ->
  prune Q (update_where (guarded row (jwt_encode c))
    (rotate_row (jwt_encode c) (create_refresh_token uid s) (clock s) (refresh_days s)) (sessions s)) (sessions s') ->
  drawn s' = S (drawn s) -> busy s' = busy s -> revoked s' = (w, jti_of n) :: revoked s -> effect Q s s'.
Proof.
  intros Hok Hn Hc [_ Hrow] Hcount HQ Hp Hd Hb Hrev.
  destruct (update_where_split (guarded row (jwt_encode c))
    (rotate_row (jwt_encode c) (create_refresh_token uid s) (clock s) (refresh_days s)) (sessions s) row)
    as (l1 & r & l2 & Hl & (Hid & He & Hv)%guarded_spec & Hu); [apply Hok|by intros x (? & _)%guarded_spec|done|].
  rewrite Hu in Hp. assert (Hr : r ∈ sessions s) by (rewrite Hl; apply elem_of_app; right; by left).
  destruct (row_token _ _ _ _ Hok Hr (current_in _ _ He)) as (k & c1 & Hk & Hc1 & <-%jwt_encode_inj).
  assert (s_user_id r = uid) as Huid by (destruct Hc as (_ & Hs & _), Hc1 as (_ & Hs1 & _); congruence).
  set (r' := rotate_row _ _ _ _ _) in Hp.
  assert (Hgrow : grow (drawn s) Q (sessions s) (l1 ++ r' :: l2)).
  { rewrite Hl. apply grow_rotate; [rewrite Huid; apply created_token|done..|by apply HQ]. }
  split; [lia| | |rewrite Hb; by left].
  - exists (l1 ++ r' :: l2). split; [exact Hgrow|]. split; [done|right; lia].
  - rewrite Hrev. intros w' j [Hx|Hx]%elem_of_cons; [right|by left]. injection Hx as -> ->.
    exists n. split_and!; [lia|done|]. intros u' t Ht.
    eapply retired_prune; [exact Hp|]. apply (won_retired Q n uid c r l1 l2 s u' t (refresh_days s)); try done; [by rewrite <- Hl|by rewrite <- Hl|].
    rewrite <- Hl.
    intros x Hx Hh. apply (Hrow x n uid u' t Hx); [by exists c|done..].
Qed.

Lemma effect_rotate (Q : session_row -> Prop) w token c row u s : wf s -> rotating_ok s token c row u ->
  (forall r, expired s r = true -> Q r) -> (forall r, s_refresh_token_hash r = hash_token token -> Q r) ->
  effect Q s (rotate w token c row u s).1.
Proof.
  intros Hwf Hrot Hexp HQ. pose proof Hrot as [(n & uid & Hn & Hc & ->) _]. unfold rotate.
  destruct (decode_token _ _ _ _) as [c'|[]] eqn:Hd; [|apply effect_calm, calm_refl..].
  apply decode_Ok in Hd as ->. pose proof Hc as (Hj & Hs & Hty). rewrite Hty, bool_decide_true by done.
  cbn [negb]. cbv zeta. rewrite Hj, Hs, revoke_drawn. cbn [default from_option id].
  fold (guarded row (jwt_encode c)). destruct (_ =? _)%nat eqn:Hcount; cbn [fst].
  - apply Nat.eqb_eq in Hcount.
    destruct (predecessor_prune Q (jwt_encode c) uid (draw (with_revoked (cons (w, jti_of n)) s))) as (Hp & Hd' & Hr' & Hb').
    exact (effect_lost Q w n uid c row u s _ Hn Hc Hrot Hcount Hp Hd' Hb' Hr').
  - apply Nat.eqb_neq in Hcount. apply (effect_won Q w n uid c row u s _ (wf_rows _ Hwf) Hn Hc Hrot Hcount HQ); [|done..].
    apply (cleanup_prune Q uid (with_sessions _ (draw (with_revoked (cons (w, jti_of n)) s)))). exact Hexp.
Qed.

Lemma lesser_revoke (Q : session_row -> Prop) r : Q r -> lesser Q r (Some (revoke_row r)).
Proof. intros HQ. cbn. tauto. Qed.

Lemma effect_logout (Q : session_row -> Prop) token s : wf s ->
  (forall t r, token = Some t -> mentions (hash_token t) r = true -> Q r) -> effect Q s (logout token s).1.
Proof.
  intros Hwf HQ. unfold logout. destruct token as [token|]; [|apply effect_calm, calm_refl].
  destruct (first_where _ _) as [r|] eqn:Hf; [|apply effect_calm, calm_refl].
  apply first_where_Some in Hf as [Hr Hm]. apply (effect_prune _ _ s); [apply calm_refl| |done..].
  apply prune_update. intros r' Hr' Hid. to_prop.
  assert (r' = r) as -> by (by eapply same_id; [apply wf_rows|..]). apply lesser_revoke. by eapply HQ.
Qed.

Lemma effect_commit_reset (Q : session_row -> Prop) row u h s :
  (forall r, s_user_id r = u_id u -> Q r) -> effect Q s (commit_reset row u h s).1.
Proof.
  intros HQ. unfold commit_reset. destruct (_consume_reset_token row (clock s) s) as [s1 []] eqn:Hc;
    [|apply effect_calm, calm_refl].
  injection Hc as <- _. destruct (negb _); [apply effect_calm, calm_refl|].
  apply (effect_prune _ _ s); [apply calm_refl| |done..]. apply prune_update.
  intros r _ Hr. to_prop. by apply lesser_revoke, HQ.
Qed.

Lemma effect_delete_user (Q : session_row -> Prop) w token id s :
  (forall r, s_user_id r = id -> Q r) -> effect Q s (delete_user w token id s).1.
Proof.
  intros HQ. unfold delete_user. split_goal; try (apply effect_calm, calm_refl).
  apply (effect_prune _ _ s); [apply calm_refl| |done..]. apply prune_delete. intros r _ Hr. to_prop. by apply HQ.
Qed.

Lemma effect_tls (Q : session_row -> Prop) was now s : (negb was && now = true -> forall r, Q r) ->
  effect Q s (_revoke_sessions_on_tls_activation was now s).1.
Proof.
  intros HQ. unfold _revoke_sessions_on_tls_activation.
  destruct (was || negb now) eqn:Hb; [apply effect_calm, calm_refl|].
  apply (effect_prune _ _ s); [apply calm_refl| |done..]. apply prune_update.
  intros r _ _. apply lesser_revoke, HQ. by destruct was, now.
Qed.

(** The state a step is the effect on: a busy process lets its call go first. *)
Definition base (o : op) s : server := 
  match o with
  | Continue w => match pending w s with Some _ => release w s | None => s end
  | _ => s
  end.

Lemma calm_release w s : calm s (release w s).
Proof.
  unfold calm. split_and!; [done..|]. cbn. intros w' token c row u Hin%elem_of_list_filter. by destruct Hin.
Qed.

Lemma wf_base o s : wf s -> wf (base o s).
Proof.
  intros Hwf. destruct o as [|w| | |]; try done. cbn. destruct (pending w s); [|done]. eapply (wf_effect (fun _ => True)), Hwf. apply effect_calm, calm_release.
Qed.

Lemma pending_in w q s : pending w s = Some q -> exists w', (w', q) ∈ busy s.
Proof.
  unfold pending. intros Hq. apply fmap_Some in Hq as ([w' q'] & [Hin _]%first_where_Some & ->). by exists w'.
Qed.

Lemma exec_effect o s : wf s -> effect (fun r => ends o s r = true) (base o s) (exec o s).1.
Proof.
  intros Hwf. assert (Hexp : forall r, expired s r = true -> ends o s r = true) by (intros r He; unfold ends; by rewrite He).
  assert (Hor : forall (b b' : bool), b' = true -> (b || b')%bool = true) by (intros b b' ->; apply orb_true_r).
  destruct o as [w c|w|d|w|minutes days]; cbn [exec base];
    try (apply effect_calm; by unfold calm; split_and!).
  - unfold ends in *. destruct (pending w s) eqn:Hp; [apply effect_calm, calm_refl|]. destruct c; cbn [handle].
    + by apply effect_login.
    + by apply effect_refresh.
    + apply effect_logout; [done|]. intros t r -> Hm. by apply Hor.
    + apply effect_calm, calm_change_password.
    + apply effect_calm, calm_forgot.
    + apply effect_calm, calm_reset_password.
    + apply effect_calm, calm_create.
    + apply effect_calm, calm_update.
    + apply effect_calm, calm_deactivate.
    + apply effect_delete_user. intros r Hr. apply Hor. by apply Z.eqb_eq.
    + apply effect_tls. intros Hb r. by apply Hor.
  - unfold ends in *. destruct (pending w s) as [q|] eqn:Hp; [|apply effect_calm, calm_refl].
    destruct q as [token c row u|u|row u h]; cbn [resume].
    + destruct (pending_in _ _ _ Hp) as (w' & Hin).
      pose proof (wf_busy _ Hwf _ _ _ _ _ Hin) as Hrot.
      apply effect_rotate; [eapply wf_effect, Hwf; by apply (effect_calm (fun _ => True)), calm_release|exact Hrot|exact Hexp|].
      intros r Hr. apply Hor. by apply bool_decide_eq_true.
    + apply effect_calm, calm_issue.
    + apply effect_commit_reset. intros r Hr. apply Hor. by apply Z.eqb_eq.
  - apply effect_calm. unfold calm. split_and!; [done..| |]; cbn.
    + intros x Hin%elem_of_list_filter. by destruct Hin.
    + intros ? ? ? ? ? Hin%elem_of_list_filter. by destruct Hin.
Qed.

(** ** Runs *)

Lemma base_same o s : sessions (base o s) = sessions s /\ drawn (base o s) = drawn s.
Proof. destruct o; try done. cbn. by destruct (pending _ _). Qed.

Lemma wf_exec o s : wf s -> wf (exec o s).1.
Proof. intros Hwf. eapply wf_effect; [by apply exec_effect|by apply wf_base]. Qed.

Lemma wf_run ops s : wf s -> wf (run ops s).
Proof. revert s. induction ops as [|o ops IH]; [done|]. intros s Hwf. cbn. by apply IH, wf_exec. Qed.

Lemma issued_exec o s uid h : wf s -> issued (drawn s) uid h -> issued (drawn (exec o s).1) uid h.
Proof.
  intros Hwf. destruct (base_same o s) as [_ <-]. apply issued_later. by eapply e_drawn, exec_effect.
Qed.

Lemma retired_exec o s uid h : wf s -> issued (drawn s) uid h -> retired h (sessions s) ->
  retired h (sessions (exec o s).1).
Proof.
  intros Hwf. destruct (base_same o s) as [<- <-]. by eapply effect_retired, exec_effect.
Qed.

Lemma dead_exec o s uid h : wf s -> issued (drawn s) uid h -> dead h (sessions s) ->
  dead h (sessions (exec o s).1).
Proof.
  intros Hwf. destruct (base_same o s) as [<- <-]. by eapply effect_dead, exec_effect.
Qed.

(** The reply accepts the token. *)
Definition accepted (token : string) (x : reply) : bool :=
  match x with
  | Rotated t _ _ | Answered t _ => bool_decide (t = token)
  | _ => false
  end.

Lemma predecessor_accepts token token' uid s :
  accepted token' (_refresh_via_predecessor token uid s).2 = true ->
  token' = token /\ exists r, r ∈ sessions s /\ s_is_revoked r = false /\
    s_prior_refresh_token_hash r = Some (hash_token token).
Proof.
  unfold _refresh_via_predecessor. destruct (first_where _ _) as [r|] eqn:Hf; [|done].
  intros Ha. split_ok Ha. apply first_where_Some in Hf as [Hr Hp]. to_prop. eauto.
Qed.

Lemma prior_in h r : s_prior_refresh_token_hash r = Some h -> h ∈ hashes r.
Proof. unfold hashes. intros ->. right. by left. Qed.

Lemma revoke_sessions w j s : sessions (revoke_token w j s) = sessions s.
Proof. unfold revoke_token. destruct j; [|done]. by case_bool_decide. Qed.

Lemma guarded_hit row token l : count_where (guarded row token) l <> 0%nat ->
  exists r, r ∈ l /\ s_refresh_token_hash r = hash_token token /\ s_is_revoked r = false.
Proof.
  unfold count_where. destruct (List.filter (guarded row token) l) as [|r l'] eqn:Hl; [done|]. intros _.
  assert (Hr : r ∈ List.filter (guarded row token) l) by (rewrite Hl; by left).
  apply elem_of_list_filter in Hr as [Hr (_ & He & Hv)%guarded_spec]. eauto.
Qed.

Lemma rotate_accepts token token' w c row u s : accepted token' (rotate w token c row u s).2 = true ->
  token' = token /\ exists r, r ∈ sessions s /\ s_is_revoked r = false /\ hash_token token ∈ hashes r.
Proof.
  unfold rotate. destruct (decode_token _ _ _ _) as [c'|[]]; [|done..]. destruct (negb _); [done|]. cbv zeta.
  fold (guarded row token). destruct (_ =? _)%nat eqn:Hc.
  - intros [-> (r & Hr & Hv & Hp)]%predecessor_accepts. split; [done|]. exists r.
    cbn in Hr. rewrite revoke_sessions in Hr. eauto using prior_in.
  - cbn. intros He%bool_decide_eq_true. split; [done|]. apply Nat.eqb_neq in Hc.
    destruct (guarded_hit _ _ _ Hc) as (r & Hr & Hh & Hv). cbn in Hr. rewrite revoke_sessions in Hr.
    eauto using current_in.
Qed.

Lemma refresh_accepts_live token w plaintext presented s :
  accepted token (refresh_tokens w plaintext presented s).2 = true ->
  exists r, r ∈ sessions s /\ s_is_revoked r = false /\ hash_token token ∈ hashes r.
Proof.
  unfold refresh_tokens. destruct plaintext; [done|]. destruct presented as [t|]; [|done].
  destruct (match decode_token w false t s with Ok _ => _ | Raise _ => _ end) as [c|[]]; [|done..].
  destruct (negb _); [done|]. destruct (c_sub c) as [uid|]; [|done].
  destruct (first_where _ _); [intros Ha; by split_ok Ha|].
  intros [-> (r & Hr & Hv & Hp)]%predecessor_accepts. eauto using prior_in.
Qed.

(** A token is only accepted on a live row that holds it. *)
Lemma accepted_live token o s : accepted token (exec o s).2 = true ->
  exists r, r ∈ sessions s /\ s_is_revoked r = false /\ hash_token token ∈ hashes r.
Proof.
  intros Ha. destruct o as [w c|w|d|w|minutes days]; cbn [exec] in Ha; try done.
  - destruct (pending w s); [done|]. destruct c; cbn [handle] in Ha.
    + unfold login in Ha. by split_ok Ha.
    + by eapply refresh_accepts_live.
    + unfold logout in Ha. by split_ok Ha.
    + unfold change_password in Ha. by split_ok Ha.
    + unfold forgot_password, issue_reset in Ha. by split_ok Ha.
    + unfold reset_password in Ha. by split_ok Ha.
    + unfold admin_create_user in Ha. by split_ok Ha.
    + unfold admin_update_user in Ha. by split_ok Ha.
    + unfold admin_delete_user in Ha. by split_ok Ha.
    + unfold delete_user in Ha. by split_ok Ha.
    + unfold _revoke_sessions_on_tls_activation in Ha. by split_ok Ha.
  - destruct (pending w s) as [[token' c row u|u|row u h]|]; cbn [resume] in Ha; [| | |done].
    + apply rotate_accepts in Ha as [-> (r & Hr & Hv & Hh)]. by exists r.
    + unfold issue_reset in Ha. by split_ok Ha.
    + unfold commit_reset in Ha. by split_ok Ha.
Qed.

Lemma dead_refused token o s : dead (hash_token token) (sessions s) -> accepted token (exec o s).2 = false.
Proof.
  intros Hd. destruct (accepted _ _) eqn:Ha; [|done].
  apply accepted_live in Ha as (r & Hr & Hv & Hh). by destruct (Hd r Hr Hv).
Qed.

Lemma dead_replies ops s uid token : wf s -> issued (drawn s) uid (hash_token token) ->
  dead (hash_token token) (sessions s) -> forall x, x ∈ replies ops s -> accepted token x = false.
Proof.
  revert s. induction ops as [|o ops IH]; intros s Hwf Hi Hd x; cbn; [by intros ?%elem_of_nil|].
  intros [->|Hx]%elem_of_cons; [by apply dead_refused|].
  eapply IH; [by apply wf_exec|by apply issued_exec|by eapply dead_exec|done].
Qed.

(** What a rotation does to the table. *)
Record rotation s (token token2 : string) (s' : server) : Prop := {
  rot_wf : wf s;
  rot_row : exists l1 r l2 now days, sessions s = l1 ++ r :: l2 /\
    s_refresh_token_hash r = hash_token token /\ s_is_revoked r = false /\
    token_of (drawn s) (s_user_id r) token2 /\
    prune (fun _ => True) (l1 ++ rotate_row token token2 now days r :: l2) (sessions s') }.

Lemma rotate_spec w token c row u s s' token' a token2 :
  wf s -> rotating_ok s token c row u -> rotate w token c row u s = (s', Rotated token' a token2) ->
  token' = token /\ rotation s token token2 s'.
Proof.
  intros Hwf [(n & uid & Hn & Hc & ->) _]. unfold rotate.
  destruct (decode_token _ _ _ _) as [c'|[]] eqn:Hd; [|done..].
  apply decode_Ok in Hd as ->. pose proof Hc as (Hj & Hs & Hty). rewrite Hty, bool_decide_true by done.
  cbn [negb]. cbv zeta. rewrite Hj, Hs, revoke_drawn. cbn [default from_option id].
  fold (guarded row (jwt_encode c)). destruct (_ =? _)%nat eqn:Hcount.
  { intros Hx. exfalso. unfold _refresh_via_predecessor in Hx. by split_ok Hx. }
  intros [= <- <- _ <-]. split; [done|]. split; [done|]. apply Nat.eqb_neq in Hcount.
  pose proof (wf_rows _ Hwf) as Hok.
  destruct (update_where_split (guarded row (jwt_encode c))
    (rotate_row (jwt_encode c) (create_refresh_token uid s) (clock s) (refresh_days s)) (sessions s) row)
    as (l1 & r & l2 & Hl & (Hid & He & Hv)%guarded_spec & Hu); [apply Hok|by intros x (? & _)%guarded_spec|done|].
  assert (Hr : r ∈ sessions s) by (rewrite Hl; apply elem_of_app; right; by left).
  destruct (row_token _ _ _ _ Hok Hr (current_in _ _ He)) as (k & c1 & Hk & Hc1 & <-%jwt_encode_inj).
  assert (s_user_id r = uid) as Huid by (destruct Hc1 as (_ & Hs1 & _); congruence).
  exists l1, r, l2, (clock s), (refresh_days s). split_and!; [done..|rewrite Huid; apply created_token|].
  rewrite <- Hu. apply (cleanup_prune _ uid (with_sessions _ (draw (with_revoked (cons (w, jti_of n)) s)))). done.
Qed.

Lemma rotation_exec o s token a token2 : wf s -> (exec o s).2 = Rotated token a token2 ->
  rotation (base o s) token token2 (exec o s).1.
Proof.
  intros Hwf Hx. destruct o as [w c|w|d|w|minutes days]; cbn [exec base] in *; try done.
  - exfalso. destruct (pending w s); [done|]. destruct c; cbn [handle] in Hx.
    2: { unfold refresh_tokens, _refresh_via_predecessor in Hx. by split_ok Hx. }
    all: unfold login, logout, change_password, forgot_password, issue_reset, reset_password, admin_create_user,
      admin_update_user, admin_delete_user, delete_user, _revoke_sessions_on_tls_activation in Hx; by split_ok Hx.
  - destruct (pending w s) as [q|] eqn:Hp; [|done]. destruct (pending_in _ _ _ Hp) as (w' & Hin).
    destruct q as [token' c row u|u|row u h]; cbn [resume] in *.
    + assert (Hwf' : wf (release w s)) by (eapply wf_effect, Hwf; by apply (effect_calm (fun _ => True)), calm_release).
      pose proof (wf_busy _ Hwf _ _ _ _ _ Hin) as Hrot.
      destruct (rotate w token' c row u (release w s)) as [s' x] eqn:Hr. cbn in Hx. subst x.
      by apply rotate_spec in Hr as [-> ?].
    + unfold issue_reset in Hx. by split_ok Hx.
    + unfold commit_reset in Hx. by split_ok Hx.
Qed.

(** The only live row that holds [h1] has [h2] as current. *)
Definition linked (h1 h2 : string) l : Prop :=
  forall r, r ∈ l -> s_is_revoked r = false -> h1 ∈ hashes r -> s_refresh_token_hash r = h2.

Lemma linked_prune Q h1 h2 l l' : prune Q l l' -> linked h1 h2 l -> linked h1 h2 l'.
Proof.
  intros Hp Hl r' (r & Hr & Hle)%(pruned_elem _ _ _ _ Hp) Hv Hh.
  rewrite (lesser_hashes _ _ _ Hle) in Hh. pose proof Hle as (_ & _ & -> & _).
  apply Hl; [done|by eapply lesser_live|done].
Qed.

Lemma linked_grow Q n uid h1 h2 l l' : grow n Q l l' -> issued n uid h1 -> h1 <> h2 ->
  linked h1 h2 l -> linked h1 h2 l'.
Proof.
  intros Hg Hi Hne Hr. destruct Hg as [l|l r t Ht He Hp _ _|l1 l2 r token t now days Ht He Hv HQ]; [done| |].
  - intros r' [Hr'|Hr'%list_elem_of_singleton]%elem_of_app Hv; [by apply Hr|subst r'].
    unfold hashes. rewrite He, Hp, list_elem_of_singleton. intros E. by eapply issued_fresh in Hi.
  - intros r' Hr' Hv'. apply elem_of_app in Hr' as [Hr'|[->|Hr']%elem_of_cons].
    1, 3: apply Hr; [|done]; apply elem_of_app; first [by left|right; by right].
    unfold hashes. cbn. rewrite elem_of_cons, list_elem_of_singleton. intros [E|E]; [by eapply issued_fresh in Hi|].
    destruct Hne. subst h1. rewrite <- He. apply Hr; [apply elem_of_app; right; by left|done|by apply current_in].
Qed.

Lemma linked_exec o s uid h1 h2 : wf s -> issued (drawn s) uid h1 -> h1 <> h2 ->
  linked h1 h2 (sessions s) -> linked h1 h2 (sessions (exec o s).1).
Proof.
  intros Hwf. destruct (base_same o s) as [<- <-]. intros Hi Hne Hl.
  destruct (e_sessions _ _ _ (exec_effect o s Hwf)) as (mid & Hg & Hp & _).
  eapply linked_prune; [exact Hp|]. by eapply linked_grow.
Qed.

(** The rotated row is the only one the presented token is in. *)
Lemma rotation_row s token token2 s' : rotation s token token2 s' ->
  exists l r now days, r ∈ sessions s /\ s_refresh_token_hash r = hash_token token /\
    s_is_revoked r = false /\ token_of (drawn s) (s_user_id r) token2 /\
    prune (fun _ => True) l (sessions s') /\
    forall x, x ∈ l -> (x = rotate_row token token2 now days r) \/
                      (x ∈ sessions s /\ hash_token token ∉ hashes x).
Proof.
  intros [Hwf (l1 & r & l2 & now & days & Hl & He & Hv & Ht & Hp)].
  assert (Hr : r ∈ sessions s) by (rewrite Hl; apply elem_of_app; right; by left).
  exists (l1 ++ rotate_row token token2 now days r :: l2), r, now, days. split_and!; [done..|].
  pose proof (wf_rows _ Hwf) as Hok. set (r' := rotate_row _ _ _ _ _).
  assert (Hg : grow (drawn s) (fun _ => True) (sessions s) (l1 ++ r' :: l2)) by (rewrite Hl; by apply grow_rotate).
  intros x Hx. destruct (decide (hash_token token ∈ hashes x)) as [Hin|Hout].
  - left. eapply same_hash; [eapply grow_ok; [exact Hg|exact Hok]|exact Hx| |exact Hin|right; by left].
    apply elem_of_app. right. by left.
  - apply elem_of_app in Hx as [Hx|[->|Hx]%elem_of_cons]; [right|by left|right];
      (split; [rewrite Hl; apply elem_of_app; first [by left|right; by right]|done]).
Qed.

Lemma rotation_issued s token token2 s' : rotation s token token2 s' -> exists uid,
  issued (drawn s) uid (hash_token token) /\ hash_token token <> hash_token token2.
Proof.
  intros Hrot. destruct (rotation_row _ _ _ _ Hrot) as (l & r & now & days & Hr & He & _ & Ht & _).
  pose proof (ok_issued _ _ (wf_rows _ (rot_wf _ _ _ _ Hrot)) r _ Hr (current_in _ _ He)) as Hi.
  exists (s_user_id r). split; [done|]. by eapply issued_fresh.
Qed.

(** After it, the presented token is the successor's predecessor ... *)
Lemma rotation_linked s token token2 s' : rotation s token token2 s' ->
  linked (hash_token token) (hash_token token2) (sessions s').
Proof.
  intros Hrot. destruct (rotation_row _ _ _ _ Hrot) as (l & r & now & days & _ & _ & _ & _ & Hp & Hl).
  eapply linked_prune; [exact Hp|]. intros x Hx _ Hh. by destruct (Hl x Hx) as [->|[_ Hout]].
Qed.

(** ... current nowhere ... *)
Lemma rotation_retired s token token2 s' : rotation s token token2 s' -> retired (hash_token token) (sessions s').
Proof.
  intros Hrot. destruct (rotation_issued _ _ _ _ Hrot) as (_ & _ & Hne).
  intros x Hx Hv He. rewrite (rotation_linked _ _ _ _ Hrot x Hx Hv (current_in _ _ He)) in He. by destruct Hne.
Qed.

(** ... and its own predecessor is dead. *)
Lemma rotation_kills s token token2 s' uid h : rotation s token token2 s' ->
  issued (drawn s) uid h -> h <> hash_token token -> linked h (hash_token token) (sessions s) -> dead h (sessions s').
Proof.
  intros Hrot Hi Hne Hlink. destruct (rotation_row _ _ _ _ Hrot) as (l & r & now & days & _ & _ & _ & Ht & Hp & Hl).
  eapply dead_prune; [exact Hp|]. intros x Hx Hv Hh. destruct (Hl x Hx) as [->|[Hin Hout]].
  - unfold hashes in Hh. cbn in Hh. apply elem_of_cons in Hh as [Hh|Hh%list_elem_of_singleton]; [|done].
    by destruct (issued_fresh _ _ _ _ _ Hi Ht).
  - destruct Hout. apply current_in. by apply Hlink.
Qed.

(** The reply rotates the token. *)
Definition rotates (token : string) (x : reply) : bool :=
  match x with Rotated t _ _ => bool_decide (t = token) | _ => false end.

Lemma rotates_spec token x : rotates token x = true -> exists a token2, x = Rotated token a token2.
Proof. destruct x; try done. cbn. intros ->%bool_decide_eq_true. eauto. Qed.

Lemma rotation_after o s token a token2 : wf s -> (exec o s).2 = Rotated token a token2 -> exists uid,
  issued (drawn s) uid (hash_token token) /\ hash_token token <> hash_token token2 /\
  retired (hash_token token) (sessions (exec o s).1) /\
  linked (hash_token token) (hash_token token2) (sessions (exec o s).1).
Proof.
  intros Hwf Hx. pose proof (rotation_exec _ _ _ _ _ Hwf Hx) as Hrot.
  destruct (rotation_issued _ _ _ _ Hrot) as (uid & Hi & Hne). destruct (base_same o s) as [_ Hd].
  rewrite Hd in Hi. exists uid. split_and!; [done..|by eapply rotation_retired|by eapply rotation_linked].
Qed.

Lemma retired_rotates o s token : wf s -> retired (hash_token token) (sessions s) -> rotates token (exec o s).2 = false.
Proof.
  intros Hwf Hr. destruct (rotates _ _) eqn:Hx; [|done]. apply rotates_spec in Hx as (a & token2 & Hx).
  destruct (rotation_row _ _ _ _ (rotation_exec _ _ _ _ _ Hwf Hx)) as (_ & r & _ & _ & Hin & He & Hv & _).
  destruct (base_same o s) as [Hs _]. rewrite Hs in Hin. by destruct (Hr r Hin Hv).
Qed.

Definition count_rotations (token : string) (l : list reply) : nat := length (List.filter (rotates token) l).

Lemma retired_run ops s uid token : wf s -> issued (drawn s) uid (hash_token token) ->
  retired (hash_token token) (sessions s) -> count_rotations token (replies ops s) = 0%nat.
Proof.
  unfold count_rotations. revert s. induction ops as [|o ops IH]; intros s Hwf Hi Hr; cbn; [done|].
  rewrite retired_rotates by done. apply IH; [by apply wf_exec|by apply issued_exec|by eapply retired_exec].
Qed.

Lemma rotations_once ops s token : wf s -> (count_rotations token (replies ops s) <= 1)%nat.
Proof.
  revert s. induction ops as [|o ops IH]; intros s Hwf; [cbn; lia|].
  unfold count_rotations in *. cbn [replies List.filter]. destruct (rotates token (exec o s).2) eqn:Hx.
  - apply rotates_spec in Hx as (a & token2 & Hx).
    destruct (rotation_after _ _ _ _ _ Hwf Hx) as (uid & Hi & _ & Hr & _). cbn [length].
    pose proof (retired_run ops (exec o s).1 uid token (wf_exec _ _ Hwf) (issued_exec _ _ _ _ Hwf Hi) Hr) as H0'.
    unfold count_rotations in H0'. lia.
  - by apply IH, wf_exec.
Qed.

Lemma linked_run ops s token a token2 : wf s -> Rotated token a token2 ∈ replies ops s -> exists uid,
  issued (drawn (run ops s)) uid (hash_token token) /\ hash_token token <> hash_token token2 /\
  linked (hash_token token) (hash_token token2) (sessions (run ops s)).
Proof.
  assert (Hstay : forall uid ops' s1, wf s1 -> issued (drawn s1) uid (hash_token token) ->
    hash_token token <> hash_token token2 -> linked (hash_token token) (hash_token token2) (sessions s1) ->
    issued (drawn (run ops' s1)) uid (hash_token token) /\
    linked (hash_token token) (hash_token token2) (sessions (run ops' s1))).
  { intros uid ops'. induction ops' as [|o ops' IH]; intros s1 Hwf Hi Hne Hl; cbn; [done|].
    apply IH; [by apply wf_exec|by apply issued_exec|done|by eapply linked_exec]. }
  revert s. induction ops as [|o ops IH]; intros s Hwf; cbn; [by intros ?%elem_of_nil|].
  intros [Hx|Hx]%elem_of_cons; [|by apply IH; [apply wf_exec|]].
  destruct (rotation_after _ _ _ _ _ Hwf (eq_sym Hx)) as (uid & Hi & Hne & _ & Hl). exists uid.
  destruct (Hstay uid ops (exec o s).1) as [? ?]; [by apply wf_exec|by apply issued_exec|done..].
Qed.

Lemma superseded ops s o token1 a1 token2 a2 token3 : wf s ->
  Rotated token1 a1 token2 ∈ replies ops s -> (exec o (run ops s)).2 = Rotated token2 a2 token3 ->
  exists uid, issued (drawn (exec o (run ops s)).1) uid (hash_token token1) /\
    dead (hash_token token1) (sessions (exec o (run ops s)).1).
Proof.
  intros Hwf H1 H2. destruct (linked_run _ _ _ _ _ Hwf H1) as (uid & Hi & Hne & Hl).
  pose proof (wf_run ops s Hwf) as Hwf'. exists uid. split; [by apply issued_exec|].
  destruct (base_same o (run ops s)) as [Hs Hd].
  eapply (rotation_kills _ _ _ _ uid); [by apply rotation_exec in H2|by rewrite Hd|done|by rewrite Hs].
Qed.

(** A row that is revoked takes all its tokens with it. *)
Lemma revoked_dead s r h l' : wf s -> r ∈ sessions s -> h ∈ hashes r ->
  prune (fun _ => True) (sessions s) l' -> (forall r', r' ∈ l' -> s_id r' = s_id r -> s_is_revoked r' = true) -> dead h l'.
Proof.
  intros Hwf Hr Hh Hp Hrev x Hx Hv Hin.
  destruct (pruned_elem _ _ _ _ Hp Hx) as (y & Hy & Hle). rewrite (lesser_hashes _ _ _ Hle) in Hin.
  assert (y = r) as -> by (by eapply same_hash; [apply wf_rows|..]).
  destruct Hle as [Hid _]. by rewrite (Hrev x Hx Hid) in Hv.
Qed.

Lemma logout_kills w token s r h : wf s -> pending w s = None -> r ∈ sessions s ->
  hash_token token ∈ hashes r -> h ∈ hashes r -> dead h (sessions (exec (Call w (Logout (Some token))) s).1).
Proof.
  intros Hwf Hp Hr Ht Hh. cbn. rewrite Hp. unfold logout.
  destruct (first_where _ _) as [r0|] eqn:Hf.
  - apply first_where_Some in Hf as [Hr0 Hm%mentions_hashes].
    assert (r0 = r) as -> by (by eapply same_hash; [apply wf_rows|..]).
    eapply (revoked_dead s r); [done..| |]; cbn.
    + apply prune_update. intros x _ _. by apply lesser_revoke.
    + intros x Hx Hid. apply elem_of_map in Hx as (y & -> & Hy). destruct (s_id y =? s_id r) eqn:Hyid; [done|].
      apply Z.eqb_neq in Hyid. done.
  - pose proof (first_where_None _ _ Hf r Hr) as Hm. by rewrite (proj2 (mentions_hashes _ _) Ht) in Hm.
Qed.

(** ** Credential epochs *)

(** The user exists, and neither the row nor a reset under way has an epoch below [k]. *)
Record floor (uid k : Z) s : Prop := {
  fl_exists : exists u, u ∈ users s /\ u_id u = uid;
  fl_users : forall u, u ∈ users s -> u_id u = uid -> k <= u_auth_epoch u;
  fl_busy : forall w row u h, (w, Resetting row u h) ∈ busy s -> u_id u = uid -> k <= u_auth_epoch u }.

(** No call removes the row of [uid]. *)
Definition keeps (uid : Z) (o : op) : bool :=
  match o with Call _ (DeleteUser _ id) => negb (id =? uid) | _ => true end.

(** What a step may do to the users and to the resets under way, for an account it keeps. *)
Record user_step (uid k : Z) s s' : Prop := {
  us_users : forall u', u' ∈ users s' -> u_id u' = uid ->
    (exists u, u ∈ users s /\ u_id u = uid /\ u_auth_epoch u <= u_auth_epoch u') \/ k <= u_auth_epoch u' \/
    (forall u, u ∈ users s -> u_id u <> uid);
  us_kept : forall u, u ∈ users s -> u_id u = uid -> exists u', u' ∈ users s' /\ u_id u' = uid;
  us_busy : forall w row u h, (w, Resetting row u h) ∈ busy s' -> u_id u = uid ->
    (w, Resetting row u h) ∈ busy s \/ u ∈ users s }.

Lemma floor_step uid k s s' : user_step uid k s s' -> floor uid k s -> floor uid k s'.
Proof.
  intros [Hu Hk Hb] [(u0 & Hu0 & Hid0) Hf Hfb]. split.
  - by eapply Hk.
  - intros u' Hu' Hid'. destruct (Hu u' Hu' Hid') as [(u & Hin & Hid & He)|[?|Hno]]; [|done|by destruct (Hno u0)].
    specialize (Hf u Hin Hid). lia.
  - intros w row u h Hin Hid. destruct (Hb _ _ _ _ Hin Hid); [by eapply Hfb|by apply Hf].
Qed.

Lemma user_step_same uid k s s' : users s' = users s ->
  (forall w row u h, (w, Resetting row u h) ∈ busy s' -> (w, Resetting row u h) ∈ busy s \/ u ∈ users s) ->
  user_step uid k s s'.
Proof.
  intros He Hb. split.
  - intros u' Hu' Hid. rewrite He in Hu'. left. exists u'. split_and!; [done..|lia].
  - intros u Hu Hid. exists u. by rewrite He.
  - intros. by eapply Hb.
Qed.

Lemma user_step_update uid k s s' p f : users s' = update_where p f (users s) -> busy s' = busy s ->
  (forall u, u_id (f u) = u_id u) ->
  (forall u, u ∈ users s -> p u = true -> u_id u = uid -> u_auth_epoch u <= u_auth_epoch (f u) \/ k <= u_auth_epoch (f u)) ->
  user_step uid k s s'.
Proof.
  intros He Hb Hid Hep. split.
  - intros u' Hu' Hid'. rewrite He in Hu'. apply elem_of_map in Hu' as (u & -> & Hu).
    destruct (p u) eqn:Hp; [|left; exists u; split_and!; [done..|lia]].
    rewrite Hid in Hid'. destruct (Hep u Hu Hp Hid') as [?|?]; [left; by exists u|by right; left].
  - intros u Hu Hid'. exists (if p u then f u else u). rewrite He. split; [by apply (elem_of_map_2 (fun x => if p x then f x else x))|].
    by destruct (p u); rewrite ?Hid.
  - rewrite Hb. by left.
Qed.

Ltac same_users := apply user_step_same; [done|by left].

Lemma us_login uid k plaintext name pw s : user_step uid k s (login plaintext name pw s).1.
Proof.
  unfold login. destruct plaintext; [same_users|]. cbv zeta.
  destruct (match first_where _ (identities s) with Some _ => _ | None => _ end) as [u|]; [|same_users].
  repeat match goal with
  | |- context [if ?b then (s, _) else _] => destruct b; [same_users|]
  end.
  eapply user_step_update; [done..|]. cbn. intros. left. lia.
Qed.

Lemma us_predecessor uid k token id s : user_step uid k s (_refresh_via_predecessor token id s).1.
Proof. unfold _refresh_via_predecessor. split_goal; same_users. Qed.

Lemma us_refresh uid k w plaintext token s : user_step uid k s (refresh_tokens w plaintext token s).1.
Proof.
  unfold refresh_tokens. destruct plaintext; [same_users|]. destruct token as [token|]; [|same_users].
  destruct (match decode_token w false token s with Ok _ => _ | Raise _ => _ end) as [c|[]]; [|same_users..].
  destruct (negb _); [same_users|]. destruct (c_sub c); [|same_users].
  destruct (first_where _ _); [|apply us_predecessor]. split_goal; try same_users.
  apply user_step_same; [done|]. intros ? ? ? ? [?|?]%elem_of_cons; [done|by left].
Qed.

Lemma us_rotate uid k w token c row u s : user_step uid k s (rotate w token c row u s).1.
Proof.
  unfold rotate. destruct (decode_token _ _ _ _) as [c'|[]]; [|same_users..]. destruct (negb _); [same_users|].
  cbv zeta. set (s1 := draw _).
  assert (Hs1 : users s1 = users s /\ busy s1 = busy s).
  { unfold s1, revoke_token. destruct (c_jti c'); [|done]. by case_bool_decide. }
  destruct Hs1 as [Hu Hb]. destruct (_ =? _)%nat.
  - destruct (us_predecessor uid k token (default 0 (c_sub c)) s1) as [H1 H2 H3].
    split; [by rewrite <- Hu|by rewrite <- Hu|by rewrite <- Hb, <- Hu].
  - apply user_step_same; [exact Hu|]. intros w' row' u' h Hin. left. rewrite <- Hb. exact Hin.
Qed.

Lemma us_issue uid k u s : user_step uid k s (issue_reset u s).1.
Proof. unfold issue_reset. split_goal; same_users. Qed.

Lemma us_forgot uid k w email s : user_step uid k s (forgot_password w email s).1.
Proof.
  unfold forgot_password. destruct (first_where _ (users s)) as [u|]; [|same_users].
  destruct (_ && _); [|same_users]. destruct (first_where _ _).
  - split_goal; try same_users. apply user_step_same; [done|]. intros ? ? ? ? [?|?]%elem_of_cons; [done|by left].
  - match goal with |- user_step _ _ _ (issue_reset _ ?s1).1 => destruct (us_issue uid k u s1) as [H1 H2 H3] end.
    by split.
Qed.

Lemma us_reset uid k w raw new s : user_step uid k s (reset_password w raw new s).1.
Proof.
  unfold reset_password. destruct (first_where _ _) as [x|]; [|same_users].
  destruct (negb _); [same_users|]. destruct (user_by_id _ _) as [u|] eqn:Hu; [|same_users].
  destruct (negb _); [same_users|]. destruct (validate_password _ _); [same_users|].
  apply first_where_Some in Hu as [Hu _]. apply user_step_same; [done|].
  intros ? ? ? ? [Hx|?]%elem_of_cons; [|by left]. simplify_eq. by right.
Qed.

Lemma us_create uid k w token name pw email adm s : user_step uid k s (admin_create_user w token name pw email adm s).1.
Proof.
  unfold admin_create_user. split_goal; try same_users. split; cbn; [| |by left].
  - intros u' [Hu'|Hu'%list_elem_of_singleton]%elem_of_app Hid; [left; exists u'; split_and!; [done..|lia]|].
    right. right. intros u Hu Hid'. subst u'. cbn in Hid.
    apply (next_rowid_fresh (map u_id (users s))). rewrite Hid, <- Hid'. by apply elem_of_map_2.
  - intros u Hu Hid. exists u. split; [apply elem_of_app; by left|done].
Qed.

Lemma us_admin_update uid k w token id up s : user_step uid k s (admin_update_user w token id up s).1.
Proof.
  unfold admin_update_user. split_goal; try same_users. eapply user_step_update; [done..|]. cbn. intros. left. lia.
Qed.

Lemma us_deactivate uid k w token id s : user_step uid k s (admin_delete_user w token id s).1.
Proof.
  unfold admin_delete_user. split_goal; try same_users. eapply user_step_update; [done..|]. cbn. intros. left. lia.
Qed.

Lemma us_delete uid k w token id s : id <> uid -> user_step uid k s (delete_user w token id s).1.
Proof.
  intros Hne. unfold delete_user. split_goal; try same_users. split; cbn; [| |by left].
  - intros u' [Hu' _]%elem_of_list_filter Hid. left. exists u'. split_and!; [done..|lia].
  - intros u' Hu' Hid. exists u'. split; [|done]. apply elem_of_list_filter. split; [done|].
    rewrite Hid. apply negb_true_iff, Z.eqb_neq. congruence.
Qed.

Lemma us_tls uid k was now s : user_step uid k s (_revoke_sessions_on_tls_activation was now s).1.
Proof.
  unfold _revoke_sessions_on_tls_activation. destruct (_ || _); [same_users|].
  apply (user_step_update uid k _ _ (fun _ => true) next_epoch); [done..|]. cbn. intros. left. lia.
Qed.

Lemma us_commit uid k row u h s : (u_id u = uid -> k <= u_auth_epoch u) ->
  user_step uid k s (commit_reset row u h s).1.
Proof.
  intros Hk. unfold commit_reset, _consume_reset_token.
  destruct (_ =? _)%nat; [|same_users]. destruct (negb _); [same_users|].
  eapply user_step_update; [done..|]. cbn. intros x _ Hid Hx. right. to_prop.
  assert (u_id u = uid) as Hu by congruence. specialize (Hk Hu). lia.
Qed.

Lemma floor_release uid k w s : floor uid k s -> floor uid k (release w s).
Proof.
  intros [He Hu Hb]. split; [done..|]. cbn. intros w' row u h [Hin _]%elem_of_list_filter. by eapply Hb.
Qed.

Lemma floor_exec uid k o s : keeps uid o = true -> floor uid k s -> floor uid k (exec o s).1.
Proof.
  intros Hkeep Hf. destruct o as [w c|w|d|w|minutes days]; cbn [exec].
  - destruct (pending w s); [done|]. eapply floor_step, Hf. destruct c; cbn [handle].
    + apply us_login. + apply us_refresh.
    + unfold logout. split_goal; same_users.
    + unfold change_password. split_goal; try same_users.
      eapply user_step_update; [done..|]. cbn. intros. left. lia.
    + apply us_forgot. + apply us_reset. + apply us_create. + apply us_admin_update. + apply us_deactivate.
    + apply us_delete. cbn in Hkeep. by apply negb_true_iff, Z.eqb_neq in Hkeep.
    + apply us_tls.
  - destruct (pending w s) as [q|] eqn:Hp; [|done]. destruct (pending_in _ _ _ Hp) as (w' & Hin).
    eapply floor_step, floor_release, Hf. destruct q; cbn [resume].
    + apply us_rotate. + apply us_issue. + apply us_commit. intros Hid. by eapply (fl_busy _ _ _ Hf).
  - destruct Hf. by split.
  - eapply (floor_step _ _ (release w s)), floor_release, Hf. same_users.
  - destruct Hf. by split.
Qed.

Lemma floor_run uid k ops s : forallb (keeps uid) ops = true -> floor uid k s -> floor uid k (run ops s).
Proof.
  revert s. induction ops as [|o ops IH]; [done|]. intros s [Ho Hops]%andb_prop Hf. cbn.
  by apply IH, floor_exec.
Qed.

(** An access token of an epoch below the floor authenticates nobody. *)
Lemma floor_rejects uid k s c w u : floor uid k s -> c_sub c = Some uid -> default 0 (c_auth_epoch c) < k ->
  get_current_user w (jwt_encode c) s <> Ok (Account u).
Proof.
  intros Hf Hs Hk. unfold get_current_user. case_bool_decide; [done|]. destruct (is_service_key _); [done|].
  destruct (decode_token _ _ _ _) as [c'|[]] eqn:Hd; [|done..]. apply decode_Ok in Hd as ->. rewrite Hs.
  destruct (user_by_id uid s) as [u'|] eqn:Hu; [|done]. apply first_where_Some in Hu as [Hin Hid]. to_prop.
  destruct (negb (u_is_active u')); [done|]. pose proof (fl_users _ _ _ Hf u' Hin Hid) as Hle.
  unfold token_matches_user_auth_epoch. destruct (_ =? _) eqn:He; [to_prop; lia|done].
Qed.

Lemma commit_reset_floor w row u h s : pending w s = Some (Resetting row u h) ->
  (forall w' row' u' h', (w', Resetting row' u' h') ∈ busy s -> w' = w \/ u_id u' <> u_id u) ->
  (exec (Continue w) s).2 = PasswordReset (u_id u) -> floor (u_id u) (u_auth_epoch u + 1) (exec (Continue w) s).1.
Proof.
  intros Hp Hothers. cbn [exec]. rewrite Hp. cbn [resume]. unfold commit_reset, _consume_reset_token.
  destruct (_ =? _)%nat; [|done]. destruct (existsb _ _) eqn:He; [|done]. intros _. cbn [negb fst].
  set (f := set_password h (clock (release w s)) (u_auth_epoch u + 1)).
  set (p := fun u' : user => u_id u' =? u_id u). split.
  - apply existsb_exists in He as (u0 & Hin%list_elem_of_In & Hid). exists (f u0).
    split; [|by to_prop]. cbn. apply elem_of_map. exists u0. unfold p. cbn in Hid. by rewrite Hid.
  - cbn. intros x Hx Hxid. apply elem_of_map in Hx as (y & -> & Hy). subst p. cbn beta in *.
    destruct (u_id y =? u_id u) eqn:Hyid; [cbn; lia|]. apply Z.eqb_neq in Hyid. by destruct Hyid.
  - cbn. intros w' row' u' h' [Hin Hw]%elem_of_list_filter Hid. cbn in Hw. to_prop.
    destruct (Hothers _ _ _ _ Hin) as [->|?]; [done|done].
Qed.

Lemma commit_reset_kills w row u h s r hash : wf s -> pending w s = Some (Resetting row u h) ->
  (exec (Continue w) s).2 = PasswordReset (u_id u) -> r ∈ sessions s -> s_user_id r = u_id u ->
  hash ∈ hashes r -> dead hash (sessions (exec (Continue w) s).1).
Proof.
  intros Hwf Hp. cbn [exec]. rewrite Hp. cbn [resume]. unfold commit_reset, _consume_reset_token.
  destruct (_ =? _)%nat; [|done]. destruct (negb _); [done|]. intros _ Hr Hu Hh. cbn [fst].
  eapply (revoked_dead s r); [done..| |]; cbn.
  - apply prune_update. intros x _ _. by apply lesser_revoke.
  - intros x Hx Hid. apply elem_of_map in Hx as (y & -> & Hy).
    assert (y = r) as ->.
    { eapply same_id; [exact (wf_rows _ Hwf)|exact Hy|exact Hr|]. by destruct (_ && _). }
    rewrite Hu, Z.eqb_refl. cbn. by destruct (s_is_revoked r) eqn:?.
Qed.

Lemma activation_floor uid k w s : pending w s = None -> (exists u, u ∈ users s /\ u_id u = uid) ->
  (forall w' row u h, (w', Resetting row u h) ∉ busy s) ->
  (forall u, u ∈ users s -> u_id u = uid -> k <= u_auth_epoch u) ->
  floor uid (k + 1) (exec (Call w (ActivateTls false true)) s).1.
Proof.
  intros Hp (u & Hu & Hid) Hb Hk. cbn. rewrite Hp. cbn. split; cbn.
  - exists (next_epoch u). split; [by apply (elem_of_map_2 next_epoch)|done].
  - intros x Hx Hxid. apply elem_of_map in Hx as (y & -> & Hy). cbn in *. specialize (Hk y Hy Hxid). lia.
  - intros w' row u' h Hin. by destruct (Hb w' row u' h).
Qed.

Lemma activation_kills w s h : pending w s = None -> dead h (sessions (exec (Call w (ActivateTls false true)) s).1).
Proof.
  intros Hp. cbn. rewrite Hp. cbn. intros x Hx. apply elem_of_map in Hx as (y & -> & Hy).
  by destruct (s_is_revoked y) eqn:Hv; cbn; rewrite ?Hv.
Qed.

(** ** Reset tokens *)

Definition total (f : reset_row -> Z) (l : list reset_row) : Z := foldr (fun (r : reset_row) n => f r + n) 0 l.

Lemma total_app f (l l' : list reset_row) : total f (l ++ l') = total f l + total f l'.
Proof. unfold total. induction l; cbn; lia. Qed.

Lemma total_update f p g (l : list reset_row) : (forall r : reset_row, p r = true -> f (g r) + 1 <= f r) ->
  total f (update_where p g l) + Z.of_nat (count_where p l) <= total f l.
Proof.
  intros Hp. unfold total, update_where, count_where. induction l as [|x l IH]; cbn; [lia|].
  destruct (p x) eqn:Hx; cbn [length]; [pose proof (Hp x Hx)|]; lia.
Qed.

Lemma total_update_le f p g (l : list reset_row) : (forall r : reset_row, p r = true -> f (g r) <= f r) -> total f (update_where p g l) <= total f l.
Proof.
  intros Hp. unfold total, update_where. induction l as [|x l IH]; cbn; [lia|].
  destruct (p x) eqn:Hx; [pose proof (Hp x Hx)|]; lia.
Qed.

Lemma total_delete f p (l : list reset_row) : (forall r : reset_row, 0 <= f r) -> total f (delete_where p l) <= total f l.
Proof.
  intros Hf. unfold total, delete_where. induction l as [|x l IH]; cbn; [lia|].
  pose proof (Hf x). destruct (p x); cbn; lia.
Qed.

(** The resets and the attempts a row is still good for. *)
Definition good_for (r : reset_row) : Z := Z.b2z (unused r).
Definition attempts_left (r : reset_row) : Z :=
  if unused r then Z.max 0 (PASSWORD_RESET_MAX_ATTEMPTS - r_attempt_count r) else 0.

Lemma good_for_nonneg (r : reset_row) : 0 <= good_for r.
Proof. unfold good_for. destruct (unused r); cbn; lia. Qed.
Lemma attempts_left_nonneg (r : reset_row) : 0 <= attempts_left r.
Proof. unfold attempts_left. destruct (unused r); lia. Qed.
#[local] Hint Resolve good_for_nonneg attempts_left_nonneg : core.

Definition is_email (x : reply) : bool := match x with EmailSent _ _ => true | _ => false end.
Definition is_reset (x : reply) : bool := match x with PasswordReset _ => true | _ => false end.

(** The call checked a new password against a reset token. *)
Definition validates (o : op) (x : reply) : bool :=
  match o, x with
  | Call _ (ResetPassword _ _), Reading => true
  | Call _ (ResetPassword _ _), Refused code _ => code =? 422
  | _, _ => false
  end.

Definition count (p : reply -> bool) (l : list reply) : Z := Z.of_nat (length (List.filter p l)).

Fixpoint validations (ops : list op) s : Z :=
  match ops with
  | [] => 0
  | o :: ops' => Z.b2z (validates o (exec o s).2) + validations ops' (exec o s).1
  end.

(** What a step spends: resets and [v] validations, against what its email grants. *)
Definition accounted (v : Z) s (x : server * reply) : Prop :=
  Z.b2z (is_reset x.2) + total good_for (resets x.1) <= Z.b2z (is_email x.2) + total good_for (resets s) /\
  v + total attempts_left (resets x.1) <=
    PASSWORD_RESET_MAX_ATTEMPTS * Z.b2z (is_email x.2) + total attempts_left (resets s).

Lemma accounted_same s x : resets x.1 = resets s -> is_reset x.2 = false -> is_email x.2 = false -> accounted 0 s x.
Proof. intros Hr He Hm. unfold accounted. rewrite Hr, He, Hm. cbn. lia. Qed.

Lemma accounted_less s x : total good_for (resets x.1) <= total good_for (resets s) ->
  total attempts_left (resets x.1) <= total attempts_left (resets s) ->
  is_reset x.2 = false -> is_email x.2 = false -> accounted 0 s x.
Proof. intros H1 H2 He Hm. unfold accounted. rewrite He, Hm. cbn. lia. Qed.

Lemma accounted_issue u s : accounted 0 s (issue_reset u s).
Proof.
  unfold issue_reset. destruct (existsb _ _); [by apply accounted_same|]. unfold accounted. cbn [fst snd].
  cbn [resets with_resets draw is_reset is_email Z.b2z]. set (row := reset_of _ _ _).
  split; (etransitivity; [apply Z.add_le_mono_l, total_delete; auto|]); rewrite total_app; cbn; unfold PASSWORD_RESET_MAX_ATTEMPTS; lia.
Qed.

Lemma accounted_after v s s1 x : total good_for (resets s1) <= total good_for (resets s) ->
  total attempts_left (resets s1) <= total attempts_left (resets s) -> accounted v s1 x -> accounted v s x.
Proof. unfold accounted. lia. Qed.

Lemma use_reset_less (f : reset_row -> Z) now (r : reset_row) : (forall r' : reset_row, unused r' = false -> f r' = 0) -> 0 <= f r -> f (use_reset now r) <= f r.
Proof. intros Hf Hr. by rewrite Hf. Qed.

Lemma good_for_used (r : reset_row) : unused r = false -> good_for r = 0.
Proof. unfold good_for. by intros ->. Qed.
Lemma attempts_left_used (r : reset_row) : unused r = false -> attempts_left r = 0.
Proof. unfold attempts_left. by intros ->. Qed.

Lemma accounted_forgot w email s : accounted 0 s (forgot_password w email s).
Proof.
  unfold forgot_password. destruct (first_where _ (users s)) as [u|]; [|by apply accounted_same].
  destruct (_ && _); [|by apply accounted_same]. cbv zeta. set (s1 := with_resets (delete_where _) s).
  apply (accounted_after _ s s1); [by apply total_delete..|].
  destruct (first_where _ _) as [a|]; [|apply accounted_issue].
  destruct (_ <? _); [by apply accounted_same|].
  destruct (negb _); (apply accounted_less; [| |done|done]); cbn [fst resets with_resets with_busy];
    apply total_update_le; intros r _; apply use_reset_less; auto using good_for_used, attempts_left_used.
Qed.

Lemma accounted_reset w raw new s :
  accounted (Z.b2z (validates (Call w (ResetPassword raw new)) (reset_password w raw new s).2)) s
    (reset_password w raw new s).
Proof.
  unfold reset_password. destruct (first_where _ _) as [a|]; [|by apply accounted_same]. cbv zeta.
  set (p := fun r : reset_row => _ && (r_attempt_count r <? _)). set (g := fun r : reset_row => ResetRow _ _ _ _ _ _ _).
  set (s1 := with_resets _ s).
  assert (Hgood : total good_for (resets s1) <= total good_for (resets s)).
  { apply total_update_le. intros r _. apply Z.eq_le_incl. done. }
  assert (Hatt : total attempts_left (resets s1) + Z.of_nat (count_where p (resets s)) <= total attempts_left (resets s)).
  { apply total_update. intros r Hr. subst p g. cbn beta in Hr. to_prop. unfold attempts_left. cbn.
    assert (Hu : unused r = true) by done. unfold unused in *. cbn. rewrite Hu.
    unfold PASSWORD_RESET_MAX_ATTEMPTS in *. lia. }
  destruct (negb _) eqn:Hc; [apply accounted_less; [done|cbn [fst]; lia|done|done]|].
  apply negb_false_iff, Nat.eqb_eq in Hc. rewrite Hc in Hatt.
  destruct (user_by_id _ _) as [u|]; [|apply accounted_less; [done|cbn [fst]; lia|done|done]].
  destruct (negb _); [apply accounted_less; [done|cbn [fst]; lia|done|done]|].
  destruct (validate_password _ _); (split;
    [change (0 + total good_for (resets s1) <= 0 + total good_for (resets s))
    |change (1 + total attempts_left (resets s1) <= PASSWORD_RESET_MAX_ATTEMPTS * 0 + total attempts_left (resets s))]; lia).
Qed.

Lemma accounted_commit row u h s : accounted 0 s (commit_reset row u h s).
Proof.
  unfold commit_reset, _consume_reset_token. set (p := fun r : reset_row => _ && (clock s <? _)).
  destruct (_ =? _)%nat eqn:Hc; [|by apply accounted_same]. destruct (negb _); [by apply accounted_same|].
  apply Nat.eqb_eq in Hc. set (l' := update_where p (use_reset (clock s)) (resets s)).
  assert (Hgood : total good_for l' + 1 <= total good_for (resets s)).
  { pose proof (total_update good_for p (use_reset (clock s)) (resets s)) as Ht. rewrite Hc in Ht. apply Ht.
    intros r Hr. subst p. cbn beta in Hr. to_prop. unfold good_for.
    assert (Hu : unused r = true) by done. rewrite Hu. cbn. lia. }
  assert (Hatt : total attempts_left l' <= total attempts_left (resets s)).
  { apply total_update_le. intros r _. apply use_reset_less; auto using attempts_left_used. }
  split; [change (1 + total good_for l' <= 0 + total good_for (resets s))
         |change (0 + total attempts_left l' <= PASSWORD_RESET_MAX_ATTEMPTS * 0 + total attempts_left (resets s))]; lia.
Qed.

Lemma accounted_exec o s : accounted (Z.b2z (validates o (exec o s).2)) s (exec o s).
Proof.
  destruct o as [w c|w|d|w|minutes days]; cbn [exec]; try (by apply accounted_same).
  - destruct (pending w s); [by destruct c; apply accounted_same|]. destruct c; cbn [handle].
    6: apply accounted_reset. 5: apply accounted_forgot.
    all: try (cbn [validates Z.b2z]).
    + unfold login. split_goal; by apply accounted_same.
    + unfold refresh_tokens, _refresh_via_predecessor. split_goal; by apply accounted_same.
    + unfold logout. split_goal; by apply accounted_same.
    + unfold change_password. split_goal; by apply accounted_same.
    + unfold admin_create_user. split_goal; by apply accounted_same.
    + unfold admin_update_user. split_goal; by apply accounted_same.
    + unfold admin_delete_user. split_goal; by apply accounted_same.
    + unfold delete_user. split_goal; try (by apply accounted_same).
      apply accounted_less; [by apply total_delete..|done|done].
    + unfold _revoke_sessions_on_tls_activation. split_goal; by apply accounted_same.
  - cbn [validates]. destruct (pending w s) as [[token c row u|u|row u h]|]; cbn [resume Z.b2z].
    + apply (accounted_after _ s (release w s)); [done..|].
      unfold rotate, _refresh_via_predecessor, revoke_token. split_goal; by apply accounted_same.
    + apply (accounted_after _ s (release w s)); [done..|]. apply accounted_issue.
    + apply (accounted_after _ s (release w s)); [done..|]. apply accounted_commit.
    + by apply accounted_same.
Qed.

Lemma accounted_run ops s :
  count is_reset (replies ops s) <= count is_email (replies ops s) + total good_for (resets s) /\
  validations ops s <= PASSWORD_RESET_MAX_ATTEMPTS * count is_email (replies ops s) + total attempts_left (resets s).
Proof.
  revert s. assert (Hn : forall f (l : list reset_row), (forall r : reset_row, 0 <= f r) -> 0 <= total f l).
  { intros f l Hf. unfold total. induction l as [|y l IH]; cbn; [lia|]. specialize (Hf y). lia. }
  induction ops as [|o ops IH]; intros s; cbn [replies validations].
  - pose proof (Hn good_for (resets s) good_for_nonneg).
    pose proof (Hn attempts_left (resets s) attempts_left_nonneg).
    unfold count, PASSWORD_RESET_MAX_ATTEMPTS. cbn [List.filter length]. lia.
  - destruct (accounted_exec o s) as [H1 H2]. destruct (IH (exec o s).1) as [H3 H4].
    unfold count in *. cbn [List.filter].
    destruct (is_reset (exec o s).2), (is_email (exec o s).2); cbn [length Z.b2z] in *; rewrite ?Nat2Z.inj_succ;
      unfold PASSWORD_RESET_MAX_ATTEMPTS in *; lia.
Qed.

End sessions.
End AuthSessions.
