(* ===== verification/AuthTheorems.v ===== *)
(** * What the sign-in handlers guarantee: the refresh rule, the chain of a session, the end of
    a session, the budget of a reset link; a concrete signer and the behaviours it shows. *)
From S2P Require Import Prelude PyValue PyText PyDatetime AuthHandlers AuthSessions.
Open Scope Z_scope.

Module AuthTheorems.
Import Datetime AuthHandlers AuthSessions.

Section theorems.
Context `{CredentialLaws}.
Implicit Types (s : server) (w : nat) (l : list session_row) (r : session_row).

(** ** A refresh no other process comes between *)

Definition token_live (c : claims) s : bool := clock s <? c_exp c / SECOND * SECOND.

Lemma decode_encode w (ig : bool) c s : decode_token w ig (jwt_encode c) s =
  if negb (token_live c s) then Raise TokenExpired
  else if negb ig && is_revoked_jti w (c_jti c) s then Raise TokenRevoked else Ok c.
Proof.
  unfold decode_token, token_live. pose proof (jwt_parts c) as Hp.
  rewrite bool_decide_false by (intros He; rewrite He in Hp; done). rewrite Hp, jwt_roundtrip, <- Z.leb_antisym.
  cbn [Nat.eqb negb]. by destruct (_ <=? _).
Qed.

Lemma hashes_differ n l r h : rows_ok n l -> r ∈ l -> s_prior_refresh_token_hash r = Some h ->
  s_refresh_token_hash r <> h.
Proof.
  intros [_ Hh _ _] Hr Hp He. apply list_elem_of_split in Hr as (l1 & l2 & ->).
  rewrite map_app, concat_app in Hh. cbn [map concat] in Hh. apply NoDup_app in Hh as (_ & _ & Hh).
  apply NoDup_app in Hh as (Hh & _). unfold hashes in Hh. rewrite Hp in Hh.
  apply NoDup_cons in Hh as [Hne _]. apply Hne. rewrite He. by left.
Qed.

(** The account's side of a refresh. *)
Definition active_user (uid : Z) s : option user :=
  match user_by_id uid s with Some u => if u_is_active u then Some u else None | None => None end.

Lemma find_current s token r : wf s -> r ∈ sessions s -> s_refresh_token_hash r = hash_token token ->
  s_is_revoked r = false ->
  first_where (fun r => bool_decide (s_refresh_token_hash r = hash_token token) && negb (s_is_revoked r)) (sessions s) = Some r.
Proof.
  intros Hwf Hr He Hv. destruct (first_where _ _) as [r'|] eqn:Hf.
  - apply first_where_Some in Hf as [Hr' Hp]. to_prop. f_equal.
    eapply same_hash; [apply (wf_rows _ Hwf)|done..|by apply current_in|by apply current_in].
  - pose proof (first_where_None _ _ Hf r Hr) as Hp. cbn in Hp. by rewrite Hv, bool_decide_true in Hp.
Qed.

Lemma find_prior s token r : wf s -> r ∈ sessions s -> s_prior_refresh_token_hash r = Some (hash_token token) ->
  s_is_revoked r = false ->
  first_where (fun r => bool_decide (s_refresh_token_hash r = hash_token token) && negb (s_is_revoked r)) (sessions s) = None /\
  first_where (fun r' => bool_decide (s_prior_refresh_token_hash r' = Some (hash_token token)) &&
                              (s_user_id r' =? s_user_id r) && negb (s_is_revoked r')) (sessions s) = Some r.
Proof.
  intros Hwf Hr Hp Hv. pose proof (wf_rows _ Hwf) as Hok. split; destruct (first_where _ _) as [r'|] eqn:Hf; [|done| |].
  - exfalso. apply first_where_Some in Hf as [Hr' Hx]. to_prop.
    assert (r' = r) as -> by (eapply same_hash; [exact Hok|done..|by apply current_in|by apply prior_in]).
    by destruct (hashes_differ _ _ _ _ Hok Hr Hp).
  - apply first_where_Some in Hf as [Hr' Hx]. to_prop. f_equal.
    eapply same_hash; [exact Hok|done..|by apply prior_in|by apply prior_in].
  - pose proof (first_where_None _ _ Hf r Hr) as Hx. cbn in Hx. by rewrite Hv, bool_decide_true, Z.eqb_refl in Hx.
Qed.

Lemma pending_head w q s : pending w (with_busy (cons (w, q)) s) = Some q.
Proof. unfold pending. cbn. by rewrite Nat.eqb_refl. Qed.

(** A current token's id is revoked in no process. *)
Lemma current_not_revoked w n uid c s r : wf s -> refresh_claims n uid c -> r ∈ sessions s ->
  s_refresh_token_hash r = hash_token (jwt_encode c) -> s_is_revoked r = false -> is_revoked_jti w (c_jti c) s = false.
Proof.
  intros Hwf (Hj & Hs) Hr He Hv. rewrite Hj. cbn. rewrite (bool_decide_false (jti_of n = "")) by apply jti_nonempty.
  apply bool_decide_eq_false. intros Hin. destruct (wf_revoked _ Hwf _ _ Hin) as (n' & _ & <-%jti_inj & Hret).
  assert (Ht : token_of n uid (jwt_encode c)) by by exists c.
  by destruct (Hret uid (jwt_encode c) Ht r Hr Hv).
Qed.

(** The first decoding, its fallback included. *)
Lemma decode_either w n uid c s : refresh_claims n uid c ->
  match decode_token w false (jwt_encode c) s with
  | Raise TokenRevoked => decode_token w true (jwt_encode c) s
  | r => r
  end = if token_live c s then Ok c else Raise TokenExpired.
Proof.
  intros _. rewrite !decode_encode. destruct (token_live c s); cbn; [|done]. by destruct (is_revoked_jti _ _ _).
Qed.

Lemma refresh_current w n c s r : wf s -> pending w s = None -> r ∈ sessions s ->
  refresh_claims n (s_user_id r) c -> s_refresh_token_hash r = hash_token (jwt_encode c) -> s_is_revoked r = false ->
  (token_live c s && (clock s <? s_expires_at r) = true /\ active_user (s_user_id r) s <> None <->
   exists a t2, (refresh w (jwt_encode c) s).2 = Rotated (jwt_encode c) a t2) /\
  (forall a, (refresh w (jwt_encode c) s).2 <> Answered (jwt_encode c) a).
Proof.
  intros Hwf Hp Hr Hc He Hv. pose proof Hc as (Hj & Hs & Hty).
  unfold refresh. cbn [exec handle]. rewrite Hp. unfold refresh_tokens. rewrite (decode_either _ _ _ _ _ Hc).
  destruct (token_live c s) eqn:Hl; [|split; [split; [by intros [? _]|by intros (? & ? & ?)]|done]].
  rewrite Hty, bool_decide_true, Hs by done. cbn [negb]. rewrite (find_current _ _ _ Hwf Hr He Hv), Z.leb_antisym.
  destruct (clock s <? s_expires_at r) eqn:Hx; cbn [negb andb];
    [|split; [split; [by intros [? _]|by intros (? & ? & ?)]|done]].
  unfold active_user. destruct (user_by_id (s_user_id r) s) as [u|];
    [|split; [split; [by intros [_ ?]|by intros (? & ? & ?)]|done]].
  destruct (u_is_active u); [|split; [split; [by intros [_ ?]|by intros (? & ? & ?)]|done]].
  rewrite pending_head. cbn [resume]. unfold rotate. rewrite decode_encode.
  change (token_live c (release w (with_busy (cons (w, Rotating (jwt_encode c) c (s_id r) u)) s))) with (token_live c s).
  rewrite Hl. change (is_revoked_jti w (c_jti c) (release w ?x)) with (is_revoked_jti w (c_jti c) s).
  rewrite (current_not_revoked w n _ c s r Hwf Hc Hr He Hv). cbn [negb andb].
  rewrite Hty, bool_decide_true by done. cbn [negb]. cbv zeta. rewrite Hj, revoke_drawn. fold (guarded (s_id r) (jwt_encode c)).
  destruct (_ =? _)%nat eqn:Hcount; [|cbn [snd]; split; [split; eauto|done]].
  exfalso. apply Nat.eqb_eq in Hcount. pose proof (count_where_0 _ _ Hcount r Hr) as Hg.
  by rewrite (proj2 (guarded_spec _ _ _)) in Hg.
Qed.

Lemma refresh_prior w n c s r : wf s -> pending w s = None -> r ∈ sessions s ->
  refresh_claims n (s_user_id r) c -> s_prior_refresh_token_hash r = Some (hash_token (jwt_encode c)) -> s_is_revoked r = false ->
  (refresh w (jwt_encode c) s).2 =
    if negb (token_live c s) then Refused 401 "Refresh token expired"
    else if s_expires_at r <=? clock s then Refused 401 "Session expired"
    else match active_user (s_user_id r) s with
         | Some u => Answered (jwt_encode c) (create_access_token (u_id u) (u_username u) (u_auth_epoch u) s)
         | None => Refused 401 "User not found or disabled"
         end.
Proof.
  intros Hwf Hp Hr Hc He Hv. pose proof Hc as (Hj & Hs & Hty).
  unfold refresh. cbn [exec handle]. rewrite Hp. unfold refresh_tokens. rewrite (decode_either _ _ _ _ _ Hc).
  destruct (token_live c s); cbn [negb]; [|done]. rewrite Hty, bool_decide_true, Hs by done. cbn [negb].
  destruct (find_prior _ _ _ Hwf Hr He Hv) as [-> Hf]. unfold _refresh_via_predecessor. rewrite Hf.
  destruct (_ <=? _); [done|]. unfold active_user. destruct (user_by_id _ _) as [u|]; [|done].
  by destruct (u_is_active u).
Qed.

Lemma refresh_live w token s : accepted token (refresh w token s).2 = true ->
  exists r, r ∈ sessions s /\ s_is_revoked r = false /\ hash_token token ∈ hashes r.
Proof.
  unfold refresh. destruct (exec (Call w (Refresh false (Some token))) s) as [s1 x] eqn:Hx. intros Ha.
  assert (Hcall : accepted token x = true -> exists r, r ∈ sessions s /\ s_is_revoked r = false /\ hash_token token ∈ hashes r).
  { intros Hax. apply (accepted_live token (Call w (Refresh false (Some token)))). by rewrite Hx. }
  destruct x; try (by apply Hcall). apply accepted_live in Ha as (r & Hr & Hrest). exists r. split; [|done].
  cbn [exec] in Hx. destruct (pending w s); [done|]. cbn [handle] in Hx.
  unfold refresh_tokens, _refresh_via_predecessor in Hx. by split_ok Hx.
Qed.

(** ** A row no step ends *)

Definition kept r r' : Prop := lesser (fun _ => False) r (Some r').

Lemma kept_refl r : kept r r.
Proof. unfold kept, lesser. tauto. Qed.

Lemma kept_trans r r' r'' : kept r r' -> kept r' r'' -> kept r r''.
Proof. unfold kept, lesser. intuition congruence. Qed.

Lemma kept_ends o s r r' : kept r r' -> ends o s r' = ends o s r.
Proof.
  intros (Hid & Hu & Hc & Hp & Hx & _). unfold ends, expired, mentions. by rewrite Hu, Hc, Hp, Hx.
Qed.

Lemma survives o s r : wf s -> r ∈ sessions s -> ends o s r = false ->
  exists r', r' ∈ sessions (exec o s).1 /\ kept r r'.
Proof.
  intros Hwf Hr Hq. destruct (base_same o s) as [Hs _]. rewrite <- Hs in Hr.
  destruct (e_sessions _ _ _ (exec_effect o s Hwf)) as (mid & Hg & (f & -> & Hf) & _).
  assert (Hmid : r ∈ mid).
  { destruct Hg as [l|l x t|l1 l2 x token t now days]; [done|apply elem_of_app; by left|].
    apply elem_of_app in Hr as [Hr|[->|Hr]%elem_of_cons]; [apply elem_of_app; by left|congruence|].
    apply elem_of_app. right. by right. }
  specialize (Hf r Hmid). destruct (f r) as [r'|] eqn:Hfr; cbn in Hf; [|congruence].
  exists r'. split; [apply list_elem_of_omap; by exists r|]. unfold kept, lesser.
  destruct Hf as (? & ? & ? & ? & ? & [?|[_ ?]]); [tauto|congruence].
Qed.

(** No step of the run ends the row. *)
Fixpoint spared r (ops : list op) s : bool :=
  match ops with
  | [] => true
  | o :: ops' => negb (ends o s r) && spared r ops' (exec o s).1
  end.

Lemma spared_run r ops s : wf s -> r ∈ sessions s -> spared r ops s = true ->
  exists r', r' ∈ sessions (run ops s) /\ kept r r'.
Proof.
  cut (forall r0, kept r r0 -> wf s -> r0 ∈ sessions s -> spared r ops s = true ->
    exists r', r' ∈ sessions (run ops s) /\ kept r r').
  { intros Hcut. apply Hcut, kept_refl. }
  revert s. induction ops as [|o ops IH]; intros s r0 Hk Hwf Hr; [by eauto|]. cbn [spared run].
  intros [Ho Hops]%andb_prop. apply negb_true_iff in Ho. rewrite <- (kept_ends _ _ _ _ Hk) in Ho.
  destruct (survives o s r0 Hwf Hr Ho) as (r1 & Hr1 & Hk1).
  apply (IH (exec o s).1 r1); [by eapply kept_trans|by apply wf_exec|done..].
Qed.

Lemma wf_reached ops us now minutes days : wf (run ops (installed us now minutes days)).
Proof. apply wf_run, wf_installed. Qed.

(** C17: in any reachable state, a refresh that no other process comes between rotates a token
    exactly when it is the current token of a session that is neither revoked nor past
    [expires_at], it has not expired itself, and the account is active; it is answered without
    a rotation exactly when it is the predecessor in such a session. *)
Theorem refresh_accepts us now minutes days ops w token (s := run ops (installed us now minutes days)) :
  pending w s = None ->
  ((exists a t2, (refresh w token s).2 = Rotated token a t2) <->
   exists c r, token = jwt_encode c /\ token_live c s = true /\ r ∈ sessions s /\
     s_refresh_token_hash r = hash_token token /\ s_is_revoked r = false /\
     clock s < s_expires_at r /\ active_user (s_user_id r) s <> None) /\
  ((exists a, (refresh w token s).2 = Answered token a) <->
   exists c r, token = jwt_encode c /\ token_live c s = true /\ r ∈ sessions s /\
     s_prior_refresh_token_hash r = Some (hash_token token) /\ s_is_revoked r = false /\
     clock s < s_expires_at r /\ active_user (s_user_id r) s <> None).
Proof.
  intros Hp. pose proof (wf_reached ops us now minutes days) as Hwf. fold s in Hwf.
  assert (Hrow : forall r, r ∈ sessions s -> hash_token token ∈ hashes r ->
    exists n c, refresh_claims n (s_user_id r) c /\ token = jwt_encode c).
  { intros r Hr Hh. destruct (row_token _ _ _ _ (wf_rows _ Hwf) Hr Hh) as (n & c & _ & ?). by exists n, c. }
  assert (Hlive : forall x, (refresh w token s).2 = x -> accepted token x = true -> exists n c r, r ∈ sessions s /\
    s_is_revoked r = false /\ refresh_claims n (s_user_id r) c /\ token = jwt_encode c /\
    (s_refresh_token_hash r = hash_token token \/ s_prior_refresh_token_hash r = Some (hash_token token))).
  { intros x <- (r & Hr & Hv & Hh)%refresh_live. destruct (Hrow r Hr Hh) as (n & c & Hc & He). exists n, c, r.
    apply mentions_hashes, orb_true_iff in Hh. rewrite !bool_decide_eq_true in Hh. done. }
  split; split.
  - intros (a & t2 & Hx). destruct (Hlive _ Hx) as (n & c & r & Hr & Hv & Hc & -> & [He|He]); [by cbn; apply bool_decide_eq_true| |].
    + destruct (proj2 (proj1 (refresh_current w n c s r Hwf Hp Hr Hc He Hv)) (ex_intro _ a (ex_intro _ t2 Hx))) as [[? ?]%andb_prop ?].
      exists c, r. split_and!; try done. by apply Z.ltb_lt.
    + rewrite (refresh_prior w n c s r Hwf Hp Hr Hc He Hv) in Hx. by split_ok Hx.
  - intros (c & r & -> & Hl & Hr & He & Hv & Hx & Hu). destruct (Hrow r Hr (current_in _ _ He)) as (n & c' & Hc & <-%jwt_encode_inj).
    apply (refresh_current w n c s r); try done. split; [|done]. rewrite Hl. by apply Z.ltb_lt.
  - intros (a & Hx). destruct (Hlive _ Hx) as (n & c & r & Hr & Hv & Hc & -> & [He|He]); [by cbn; apply bool_decide_eq_true| |].
    + by destruct (proj2 (refresh_current w n c s r Hwf Hp Hr Hc He Hv) a).
    + rewrite (refresh_prior w n c s r Hwf Hp Hr Hc He Hv) in Hx. exists c, r.
      destruct (token_live c s); [|done]. cbn [negb] in Hx. destruct (_ <=? _) eqn:Hle; [done|]. apply Z.leb_gt in Hle.
      split_and!; try done. intros Hn. by rewrite Hn in Hx.
  - intros (c & r & -> & Hl & Hr & He & Hv & Hx & Hu). destruct (Hrow r Hr (prior_in _ _ He)) as (n & c' & Hc & <-%jwt_encode_inj).
    rewrite (refresh_prior w n c s r Hwf Hp Hr Hc He Hv), Hl. cbn [negb]. rewrite (proj2 (Z.leb_gt _ _) Hx).
    destruct (active_user _ _); [by eexists|done].
Qed.

(** C5: whatever the interleaving of the two processes, a refresh token is rotated at most
    once: of any number of racing refreshes one installs a successor. *)
Theorem one_rotation us now minutes days ops token :
  (count_rotations token (replies ops (installed us now minutes days)) <= 1)%nat.
Proof. apply rotations_once, wf_installed. Qed.

(** C37: once the successor of a token has been rotated in turn, the token is never accepted
    again, in any continuation of the run. *)
Theorem superseded_dead us now minutes days ops o ops2 token1 a1 token2 a2 token3
    (s := run ops (installed us now minutes days)) :
  Rotated token1 a1 token2 ∈ replies ops (installed us now minutes days) ->
  (exec o s).2 = Rotated token2 a2 token3 ->
  forall x, x ∈ replies ops2 (exec o s).1 -> accepted token1 x = false.
Proof.
  intros H1 H2. pose proof (wf_installed us now minutes days) as Hwf.
  destruct (superseded _ _ _ _ _ _ _ _ Hwf H1 H2) as (uid & Hi & Hd).
  apply (dead_replies _ _ uid); [by apply wf_exec, wf_run|done|done].
Qed.

(** Until its successor is used the predecessor answers: as long as no step ends the
    session (a logout with one of its tokens, the rotation of the successor, a password reset
    or a deletion of the user, a TLS activation, its expiry), the token expires later and the
    account is active, a refresh with the predecessor yields an access token. *)
Theorem predecessor_answers us now minutes days ops r c ops2 w u
    (s := run ops (installed us now minutes days)) (s' := run ops2 s) :
  r ∈ sessions s -> s_is_revoked r = false ->
  s_prior_refresh_token_hash r = Some (hash_token (jwt_encode c)) -> spared r ops2 s = true ->
  pending w s' = None -> clock s' < s_expires_at r -> token_live c s' = true ->
  active_user (s_user_id r) s' = Some u ->
  (refresh w (jwt_encode c) s').2 =
    Answered (jwt_encode c) (create_access_token (u_id u) (u_username u) (u_auth_epoch u) s').
Proof.
  intros Hr Hv He Hsp Hp Hx Hl Hu. assert (Hwf : wf s) by apply wf_reached.
  destruct (spared_run r ops2 s Hwf Hr Hsp) as (r' & Hr' & (Hid & Hu' & Hc' & Hp' & Hx' & Hv')).
  assert (Hwf' : wf s') by by apply wf_run. rewrite <- Hp' in He. rewrite <- Hx' in Hx. rewrite <- Hu' in Hu.
  destruct (row_token _ _ _ _ (wf_rows _ Hwf') Hr' (prior_in _ _ He)) as (n & c' & _ & Hc & <-%jwt_encode_inj).
  rewrite (refresh_prior w n c s' r'); try done; [|by destruct Hv' as [->|[_ []]]].
  rewrite Hl, Hu. cbn [negb]. by rewrite (proj2 (Z.leb_gt _ _) Hx).
Qed.

(** In every reachable state the session rows have distinct ids, no token is in two
    places (two rows, or current and predecessor of one), and a row's tokens are refresh
    tokens the server drew, whose [sub] is the row's user. *)
Theorem session_table us now minutes days ops (s := run ops (installed us now minutes days)) :
  NoDup (map s_id (sessions s)) /\ NoDup (concat (map hashes (sessions s))) /\
  forall r token, r ∈ sessions s -> mentions (hash_token token) r = true ->
    exists n c, (n < drawn s)%nat /\ token = jwt_encode c /\ refresh_claims n (s_user_id r) c.
Proof.
  pose proof (wf_rows _ (wf_reached ops us now minutes days)) as Hok. split_and!; [apply Hok..|].
  intros r token Hr Hm%mentions_hashes. destruct (row_token _ _ _ _ Hok Hr Hm) as (n & c & ?). exists n, c. tauto.
Qed.

Lemma dead_token ops2 s1 s2 r token : wf s1 -> wf s2 -> (drawn s1 <= drawn s2)%nat -> r ∈ sessions s1 ->
  mentions (hash_token token) r = true -> dead (hash_token token) (sessions s2) ->
  forall x, x ∈ replies ops2 s2 -> accepted token x = false.
Proof.
  intros Hwf1 Hwf2 Hd Hr Hm%mentions_hashes. apply (dead_replies _ _ (s_user_id r)); [done|].
  eapply issued_later; [exact Hd|]. by apply (ok_issued _ _ (wf_rows _ Hwf1)).
Qed.

Lemma drawn_exec o s : wf s -> (drawn s <= drawn (exec o s).1)%nat.
Proof. intros Hwf. destruct (base_same o s) as [_ <-]. by eapply e_drawn, exec_effect. Qed.

(** A logout with either token of a session ends both for good, whatever the other
    process has under way. *)
Theorem logout_final us now minutes days ops w token r token' ops2
    (s := run ops (installed us now minutes days)) (o := Call w (Logout (Some token))) :
  pending w s = None -> r ∈ sessions s ->
  mentions (hash_token token) r = true -> mentions (hash_token token') r = true ->
  forall x, x ∈ replies ops2 (exec o s).1 -> accepted token' x = false.
Proof.
  intros Hp Hr Hm Hm'. assert (Hwf : wf s) by apply wf_reached.
  apply (dead_token _ s _ r); [done|by apply wf_exec|by apply drawn_exec|done..|].
  apply logout_kills with r; [done..|by apply mentions_hashes|by apply mentions_hashes].
Qed.


(** Once TLS is activated, no token of a session from before is accepted and, when no
    reset is under way, no access token issued before authenticates while its user exists. *)
Theorem activation_final us now minutes days ops w ops2
    (s := run ops (installed us now minutes days)) (s' := (exec (Call w (ActivateTls false true)) s).1) :
  pending w s = None ->
  (forall r token, r ∈ sessions s -> mentions (hash_token token) r = true ->
    forall x, x ∈ replies ops2 s' -> accepted token x = false) /\
  ((forall w' row u h, (w', Resetting row u h) ∉ busy s) ->
   forall uid c w' u', (exists u, u ∈ users s /\ u_id u = uid) -> forallb (keeps uid) ops2 = true ->
    c_sub c = Some uid ->
    (forall u, u ∈ users s -> u_id u = uid -> default 0 (c_auth_epoch c) <= u_auth_epoch u) ->
    get_current_user w' (jwt_encode c) (run ops2 s') <> Ok (Account u')).
Proof.
  intros Hp. assert (Hwf : wf s) by apply wf_reached. split.
  - intros r token Hr Hm. apply (dead_token _ s _ r); [done|by apply wf_exec|by apply drawn_exec|done..|].
    by apply activation_kills.
  - intros Hb uid c w' u' Hu Hk Hs He.
    apply (floor_rejects uid (default 0 (c_auth_epoch c) + 1)); [|done|lia].
    by apply floor_run, activation_floor.
Qed.
End theorems.

(** Over any run and interleaving, from a fresh installation, the passwords that are reset
    number at most the reset emails sent, and the new passwords checked against a reset token
    at most ten per email. *)
Theorem reset_budget `{Credentials} us now minutes days ops (s := installed us now minutes days) :
  count is_reset (replies ops s) <= count is_email (replies ops s) /\
  validations ops s <= PASSWORD_RESET_MAX_ATTEMPTS * count is_email (replies ops s).
Proof.
  destruct (accounted_run ops s) as [H1 H2]. unfold total in *. cbn [resets s installed foldr] in *. lia.
Qed.

(** ** A concrete signer *)

Fixpoint bits (p : positive) : string :=
  match p with
  | xH => EmptyString
  | xO p => String "0" (bits p)
  | xI p => String "1" (bits p)
  end.

Fixpoint unbits (s : string) : option positive :=
  match s with
  | EmptyString => Some xH
  | String c s' =>
      p ← unbits s'; if bool_decide (c = "0"%char) then Some (xO p) else Some (xI p)
  end.

Lemma unbits_bits p : unbits (bits p) = Some p.
Proof. induction p as [p IH|p IH|]; cbn; rewrite ?IH; done. Qed.

Lemma split_bits p : split_on "."%char (bits p ++ ".s")%string = [bits p; "s"].
Proof.
  induction p as [p IH|p IH|]; [| |done]; cbn [bits]; rewrite s_app_cons; cbn [split_on]; rewrite IH;
    by rewrite bool_decide_false.
Qed.

Definition to_tuple (c : claims) : option Z * option string * option string * Z * Z * option string * option Z :=
  (c_sub c, c_username c, c_type c, c_exp c, c_iat c, c_jti c, c_auth_epoch c).
Definition of_tuple (x : option Z * option string * option string * Z * Z * option string * option Z) : claims :=
  match x with (sub, name, ty, ex, iat, jti, epoch) => Claims sub name ty ex iat jti epoch end.

Definition sign (c : claims) : string := String "h" (String "." (bits (encode (to_tuple c)) ++ ".s")).

Definition open_token (now : Z) (t : string) : jwt_reply :=
  match split_on "."%char t with
  | [_; b; _] =>
      match (p ← unbits b; decode p) with
      | Some x => let c := of_tuple x in
                  if c_exp c / SECOND * SECOND <=? now then ExpiredSignature else Payload c
      | None => BadToken
      end
  | _ => BadToken
  end.

Definition numbered (c : Ascii.ascii) (n : nat) : string := String c (bits (Pos.of_succ_nat n)).

#[local] Instance signer : Credentials := {|
  jwt_encode := sign; jwt_decode := open_token; hash_token := fun t => t;
  bcrypt_hash := fun _ p => p; bcrypt_check := String.eqb;
  jti_of := numbered "j"; raw_of := numbered "r";
  common_passwords := ["password"; "12345678"]; is_service_key := String.eqb "mcp-key" |}.

Lemma split_sign c : split_on "."%char (sign c) = ["h"; bits (encode (to_tuple c)); "s"].
Proof. unfold sign. cbn [split_on]. rewrite split_bits. reflexivity. Qed.

#[local] Instance signer_laws : CredentialLaws.
Proof.
  split.
  - intros now c. cbn. unfold open_token. rewrite split_sign, unbits_bits. cbn. rewrite countable.decode_encode.
    destruct c. reflexivity.
  - intros c. change (length (split_on "."%char (sign c)) = 3%nat). by rewrite split_sign.
  - done.
  - intros n n'. cbn. unfold numbered. intros [= He]. apply (f_equal unbits) in He. rewrite !unbits_bits in He.
    injection He. lia.
  - done.
Qed.

Definition alice : user := User 1 "alice" (Some "alice@x") (Some "tulip-field") "local" true true 0 0 None.
Definition bob : user := User 2 "bob" (Some "bob@x") (Some "river-stone") "local" false true 0 0 None.
Definition day0 : Z := 800000 * DAY.
Abbreviation fresh := (installed [alice; bob] day0 30 7).

Definition bob_login : op := Call 0 (Login false "bob" "river-stone").
Definition refresh_of (x : reply) : string :=
  match x with LoggedIn _ t | Rotated _ _ t => t | _ => "" end.
Definition access_of (x : reply) : string :=
  match x with LoggedIn t _ | Rotated _ t _ | Answered _ t => t | _ => "" end.

(** The tokens of [bob]'s session: the login's, its successor, the next. *)
Definition t0 : string := Eval vm_compute in refresh_of (exec bob_login fresh).2.
Abbreviation s0 := (run [bob_login] fresh).
Definition t1 : string := Eval vm_compute in refresh_of (refresh 0 t0 s0).2.
Definition ask (w : nat) (t : string) : op := Call w (Refresh false (Some t)).
Abbreviation s1 := (run [bob_login; ask 0 t0; Continue 0] fresh).

Example lifecycle :
  map (accepted t0) (replies [bob_login; ask 0 t0; Continue 0; ask 0 t0; ask 0 t1; Continue 0; ask 0 t0] fresh) =
    [false; false; true; true; false; false; false].
Proof. vm_compute. reflexivity. Qed.

(** Both processes read the login's token before either writes: one rotates, the other
    answers from the predecessor. *)
Definition race : list op := [bob_login; ask 0 t0; ask 1 t0; Continue 0; Continue 1].

Example photo_finish :
  map (fun x => (rotates t0 x, accepted t0 x)) (replies race fresh) =
    [(false, false); (false, false); (false, false); (true, true); (false, true)].
Proof. vm_compute. reflexivity. Qed.

Lemma one_rotation_witness : (count_rotations t0 (replies race fresh) <= 1)%nat /\
  count_rotations t0 (replies race fresh) = 1%nat.
Proof. split; [apply (one_rotation [alice; bob] day0 30 7 race t0)|vm_compute; reflexivity]. Defined.

Definition claims_of (t : string) : claims :=
  match open_token day0 t with Payload c => c | _ => Claims None None None 0 0 None None end.

Lemma refresh_accepts_witness : pending 0 s0 = None /\
  (exists a t2, (refresh 0 t0 s0).2 = Rotated t0 a t2) /\ (exists a, (refresh 0 t0 s1).2 = Answered t0 a) /\
  ~ (exists a, (refresh 0 t0 s0).2 = Answered t0 a).
Proof.
  assert (Hp : pending 0 s0 = None) by (vm_compute; reflexivity). split_and!; [exact Hp| | |].
  - apply (proj1 (refresh_accepts [alice; bob] day0 30 7 [bob_login] 0 t0 Hp)).
    exists (claims_of t0), (List.hd (session_of 0 "" fresh) (sessions s0)).
    split_and!; [vm_compute; reflexivity|vm_compute; reflexivity|by left|vm_compute; reflexivity|vm_compute; reflexivity|vm_compute; reflexivity|vm_compute; discriminate].
  - exists (access_of (refresh 0 t0 s1).2). vm_compute. reflexivity.
  - intros (a & Ha). revert Ha. vm_compute. discriminate.
Defined.

Definition successor_read : list op := [bob_login; ask 0 t0; Continue 0; ask 1 t1].
Definition t2 : string := Eval vm_compute in refresh_of (exec (Continue 1) (run successor_read fresh)).2.
Definition access1 : string := Eval vm_compute in access_of (refresh 0 t0 s0).2.
Definition access2 : string := Eval vm_compute in access_of (exec (Continue 1) (run successor_read fresh)).2.

Lemma superseded_dead_witness : Rotated t0 access1 t1 ∈ replies successor_read fresh /\
  forall x, x ∈ replies [ask 0 t0; ask 1 t0] (exec (Continue 1) (run successor_read fresh)).1 -> accepted t0 x = false.
Proof.
  assert (Hin : Rotated t0 access1 t1 ∈ replies successor_read fresh) by (apply list_elem_of_In; vm_compute; tauto).
  assert (Hnext : (exec (Continue 1) (run successor_read fresh)).2 = Rotated t1 access2 t2) by (vm_compute; reflexivity).
  split; [exact Hin|].
  exact (superseded_dead [alice; bob] day0 30 7 successor_read (Continue 1) [ask 0 t0; ask 1 t0] t0 access1 t1 access2 t2 Hin Hnext).
Defined.

Definition row1 : session_row := List.hd (session_of 0 "" fresh) (sessions s1).

(** The answer to the rotation was lost; three days later, after a restart of the process and
    another login, the client still comes back in with the token it holds. *)
Definition three_days : list op :=
  [Restart 0; bob_login; Tick (Z.to_nat 5); ask 0 t0; Configure 30 1].

Definition bob_now : user := Eval vm_compute in
  match active_user 2 (run three_days s1) with Some u => u | None => bob end.

Lemma predecessor_answers_witness : spared row1 three_days s1 = true /\ jwt_encode (claims_of t0) = t0 /\
  (refresh 1 (jwt_encode (claims_of t0)) (run three_days s1)).2 =
    Answered (jwt_encode (claims_of t0)) (create_access_token (u_id bob_now) (u_username bob_now) (u_auth_epoch bob_now) (run three_days s1)).
Proof.
  assert (Hs : spared row1 three_days s1 = true) by (vm_compute; reflexivity).
  assert (Hr : row1 ∈ sessions s1) by (apply list_elem_of_In; vm_compute; tauto).
  assert (Hv : s_is_revoked row1 = false) by (vm_compute; reflexivity).
  assert (Ht : jwt_encode (claims_of t0) = t0) by (vm_compute; reflexivity).
  assert (He : s_prior_refresh_token_hash row1 = Some (hash_token (jwt_encode (claims_of t0)))) by (vm_compute; reflexivity).
  assert (Hp : pending 1 (run three_days s1) = None) by (vm_compute; reflexivity).
  assert (Hx : clock (run three_days s1) < s_expires_at row1) by (vm_compute; reflexivity).
  assert (Hl : token_live (claims_of t0) (run three_days s1) = true) by (vm_compute; reflexivity).
  assert (Hu : active_user (s_user_id row1) (run three_days s1) = Some bob_now) by (vm_compute; reflexivity).
  split; [exact Hs|]. split; [exact Ht|].
  exact (predecessor_answers [alice; bob] day0 30 7 [bob_login; ask 0 t0; Continue 0] row1 (claims_of t0)
    three_days 1 bob_now Hr Hv He Hs Hp Hx Hl Hu).
Defined.

Lemma session_table_witness : mentions t1 row1 = true /\
  NoDup (map s_id (sessions s1)) /\ NoDup (concat (map hashes (sessions s1))) /\
  forall r token, r ∈ sessions s1 -> mentions (hash_token token) r = true ->
    exists n c, (n < drawn s1)%nat /\ token = jwt_encode c /\ refresh_claims n (s_user_id r) c.
Proof.
  split; [vm_compute; reflexivity|].
  exact (session_table [alice; bob] day0 30 7 [bob_login; ask 0 t0; Continue 0]).
Defined.

(** Logged out with the stale cookie while the other process has the successor's refresh
    under way: neither token is accepted again. *)
Lemma logout_final_witness :
  Forall (fun x => accepted t1 x = false)
    (replies [Continue 1; ask 0 t1; ask 0 t0] (exec (Call 0 (Logout (Some t0))) (run successor_read fresh)).1).
Proof.
  assert (Hp : pending 0 (run successor_read fresh) = None) by (vm_compute; reflexivity).
  assert (Hr : row1 ∈ sessions (run successor_read fresh)) by (apply list_elem_of_In; vm_compute; tauto).
  assert (H0 : mentions (hash_token t0) row1 = true) by (vm_compute; reflexivity).
  assert (H1 : mentions (hash_token t1) row1 = true) by (vm_compute; reflexivity).
  apply Forall_forall.
  exact (logout_final [alice; bob] day0 30 7 successor_read 0 t0 row1 t1 [Continue 1; ask 0 t1; ask 0 t0] Hp Hr H0 H1).
Defined.

Definition raw1 : string := Eval vm_compute in
  match (exec (Call 1 (ForgotPassword "bob@x")) s0).2 with EmailSent _ raw => raw | _ => "" end.
Definition reset_read : list op :=
  [bob_login; Call 1 (ForgotPassword "bob@x"); Call 1 (ResetPassword raw1 "meadow-lantern")].
Abbreviation before_reset := (run reset_read fresh).
Definition loaded : user := Eval vm_compute in
  match pending 1 before_reset with Some (Resetting _ u _) => u | _ => bob end.
Definition access0 : string := Eval vm_compute in access_of (exec bob_login fresh).2.


Lemma activation_final_witness :
  (forall x, x ∈ replies [ask 0 t1; ask 0 t0] (exec (Call 0 (ActivateTls false true)) s1).1 -> accepted t1 x = false) /\
  (forall w' u', get_current_user w' (jwt_encode (claims_of access0))
    (run [ask 0 t1; ask 0 t0] (exec (Call 0 (ActivateTls false true)) s1).1) <> Ok (Account u')).
Proof.
  assert (Hp : pending 0 s1 = None) by (vm_compute; reflexivity).
  assert (Hb : forall w' row u h, (w', Resetting row u h) ∉ busy s1).
  { intros w' row u h Hin%list_elem_of_In. revert Hin. vm_compute. tauto. }
  assert (Hr : row1 ∈ sessions s1) by (apply list_elem_of_In; vm_compute; tauto).
  assert (Hm : mentions (hash_token t1) row1 = true) by (vm_compute; reflexivity).
  assert (Hs : c_sub (claims_of access0) = Some 2) by (vm_compute; reflexivity).
  assert (Hu : exists u, u ∈ users s1 /\ u_id u = 2).
  { exists loaded. split; [apply list_elem_of_In; vm_compute; tauto|reflexivity]. }
  assert (He : forall u, u ∈ users s1 -> u_id u = 2 -> default 0 (c_auth_epoch (claims_of access0)) <= u_auth_epoch u).
  { intros u Hin%list_elem_of_In. revert Hin. vm_compute. intros [<-|[<-|[]]] _; discriminate. }
  destruct (activation_final [alice; bob] day0 30 7 [bob_login; ask 0 t0; Continue 0] 0 [ask 0 t1; ask 0 t0] Hp) as [H1 H2].
  split; [exact (H1 row1 t1 Hr Hm)|]. intros w' u'. exact (H2 Hb 2 (claims_of access0) w' u' Hu eq_refl Hs He).
Defined.

Definition authenticates (w : nat) (t : string) (s : server) : option Z :=
  match get_current_user w t s with Ok (Account u) => Some (u_id u) | _ => None end.

(** [get_current_user] asks neither for [type] nor for an [auth_epoch]: a refresh token is an
    access token for its seven days, after the logout too, while the epoch is zero. *)
Example refresh_token_as_access :
  map (authenticates 0 t0) [s0; (exec (Call 0 (Logout (Some t0))) s0).1;
    run [Call 0 (Logout (Some t0)); Restart 0; Tick (Z.to_nat 1000)] s0] = [Some 2; Some 2; Some 2].
Proof. vm_compute. reflexivity. Qed.

(** A changed password leaves every session and access token in place. *)
Example change_keeps_sessions :
  let s := (exec (Call 0 (ChangePassword access0 "river-stone" "meadow-lantern")) s0).1 in
  authenticates 0 access0 s = Some 2 /\ rotates t0 (refresh 0 t0 s).2 = true.
Proof. vm_compute. split; reflexivity. Qed.

(** An activation while the other process hashes the new password: the reset writes the epoch
    it loaded plus one, and the access token of a login in between outlives the reset. *)
Definition between : list op :=
  [Call 1 (ForgotPassword "bob@x"); Call 1 (ResetPassword raw1 "meadow-lantern");
   Call 0 (ActivateTls false true); bob_login].

Example activation_lost_update :
  let s := run between s0 in let stolen := access_of (exec bob_login (run (List.firstn 3 between) s0)).2 in
  (authenticates 0 stolen s, (exec (Continue 1) s).2, authenticates 0 stolen (exec (Continue 1) s).1) =
    (Some 2, PasswordReset 2, Some 2).
Proof. vm_compute. reflexivity. Qed.

(** A deleted account's id goes to the next account created, and its access tokens with it. *)
Definition admin_access : string := Eval vm_compute in
  access_of (exec (Call 0 (Login false "alice" "tulip-field")) s0).2.

Example reused_id :
  let s := run [Call 0 (Login false "alice" "tulip-field"); Call 0 (DeleteUser admin_access 2);
                Call 0 (AdminCreateUser admin_access "carol" "harbour-light" None false)] s0 in
  (map u_username (users s), authenticates 0 access0 s) = (["alice"; "carol"], Some 2).
Proof. vm_compute. reflexivity. Qed.

(** Ten wrong passwords use up a link; the eleventh attempt is refused unseen. *)
Example ten_attempts :
  let tries := List.repeat (Call 1 (ResetPassword raw1 "bob-and-more")) 11 in
  validations tries (run (List.firstn 2 reset_read) fresh) = 10.
Proof. vm_compute. reflexivity. Qed.
End AuthTheorems.
