(* ===== verification/Schedule.v ===== *)
(** * Next runs of a schedule ([backend/schedule_calculator.py]).

    Local times are wall clocks of [PyDatetime] with their [fold]; comparing two of them
    compares the walls, as Python does within one zone.  The zone database is a parameter:
    a zone gives the offset of a wall time and its fold.  The clock readings are arguments. *)
From S2P Require Import Prelude PyValue PyDatetime.
Open Scope Z_scope.

Module Schedule.
Import Datetime.

Inductive error := ValueError | OverflowError | IndexError | ZoneInfoNotFoundError.
Abbreviation result := (result error).

(** The errors of [datetime] arithmetic. *)
Definition lift {A} (r : Prelude.result Datetime.error A) : result A :=
  match r with
  | Ok a => Ok a
  | Raise Datetime.ValueError => Raise ValueError
  | Raise Datetime.OverflowError => Raise OverflowError
  end.

Record zone := { utcoffset : Z -> bool -> Z }.
Record local := { wall : Z; fold : bool }.

(** [t.astimezone(ZoneInfo("UTC")).replace(tzinfo=None)] *)
Definition to_utc (tz : zone) (t : local) : result Z :=
  lift (add_delta (wall t) (- utcoffset tz (wall t) (fold t))).

(** [hour, minute = map(int, schedule_time.split(":"))] *)
Definition parse_time (s : string) : option (Z * Z) :=
  match split_on (Ascii.ascii_of_nat 58) s with
  | [h; m] => h ← py_int h; m ← py_int m; Some (h, m)
  | _ => None
  end.

(** [t.replace(hour=hour, minute=minute, second=0, microsecond=0)]: the fold is kept. *)
Definition at_clock (t : local) (hour minute : Z) : result local :=
  let! w := lift (replace_clock (wall t) hour minute) in Ok {| wall := w; fold := fold t |}.

(** [t + timedelta(days=n)]: the fold is reset. *)
Definition plus_days (t : local) (n : Z) : result local :=
  let! w := lift (add_delta (wall t) (n * DAY)) in Ok {| wall := w; fold := false |}.

(** An absent or empty [schedule_time]. *)
Definition no_time (schedule_time : option string) : bool :=
  match schedule_time with Some (String _ _) => false | _ => true end.

Definition time_of (schedule_time : option string) : option (Z * Z) :=
  match schedule_time with Some s => parse_time s | None => None end.

(** ** Interval *)

Definition calculate_interval_next_run (interval_seconds last_run : option Z) (now_utc : Z)
    : result (option Z) :=
  match interval_seconds with
  | None => Ok None
  | Some i =>
      if i <=? 0 then Ok None
      else
        match last_run with
        | Some l =>
            let! next_run := lift (add_delta l (i * SECOND)) in
            if next_run <=? now_utc
            then let! n := lift (add_delta now_utc (i * SECOND)) in Ok (Some n)
            else Ok (Some next_run)
        | None => let! n := lift (add_delta now_utc (i * SECOND)) in Ok (Some n)
        end
  end.

(** ** Daily *)

Definition daily_target (now : local) (hour minute : Z) : result local :=
  let! target := at_clock now hour minute in
  if wall target <=? wall now then plus_days target 1 else Ok target.

Definition some_utc (tz : zone) (r : result local) : result (option Z) :=
  let! t := r in let! u := to_utc tz t in Ok (Some u).

Definition calculate_daily_next_run (schedule_time : option string) (tz : zone) (now : local)
    : result (option Z) :=
  if no_time schedule_time then Ok None
  else match time_of schedule_time with
       | None => Ok None
       | Some (hour, minute) => some_utc tz (daily_target now hour minute)
       end.

(** ** Weekly *)

(** [(now_local.weekday() + 1) % 7]: Sunday = 0. *)
Definition current_weekday (now : local) : Z := (weekday (wall now) + 1) mod 7.

(** One pass of the loop over the days. *)
Definition weekly_step (now : local) (hour minute : Z) (best_next : option local) (target_day : Z)
    : result (option local) :=
  let days_ahead := (target_day - current_weekday now) mod 7 in
  let! target := at_clock now hour minute in
  let! target := plus_days target days_ahead in
  if (days_ahead =? 0) && (wall target <=? wall now) then Ok best_next
  else match best_next with
       | None => Ok (Some target)
       | Some b => Ok (if wall target <? wall b then Some target else Some b)
       end.

Definition best_this_week (now : local) (hour minute : Z) (days : list Z) : result (option local) :=
  foldM (weekly_step now hour minute) None (py_sorted Z.leb days).

(** [min(days)] of a non-empty list. *)
Definition min_day (d : Z) (days : list Z) : Z := fold_left Z.min days d.

Definition weekly_target (now : local) (hour minute : Z) (d : Z) (days : list Z) : result local :=
  let! best_next := best_this_week now hour minute (d :: days) in
  match best_next with
  | Some b => Ok b
  | None =>
      let ahead := (min_day d days - current_weekday now) mod 7 in
      let days_ahead := if ahead =? 0 then 7 else ahead in
      let! b := at_clock now hour minute in
      plus_days b days_ahead
  end.

Definition calculate_weekly_next_run (schedule_time : option string) (tz : zone) (now : local)
    (days_of_week : option (list Z)) : result (option Z) :=
  match no_time schedule_time, days_of_week with
  | false, Some (d :: days) =>
      match time_of schedule_time with
      | None => Ok None
      | Some (hour, minute) => some_utc tz (weekly_target now hour minute d days)
      end
  | _, _ => Ok None
  end.

(** ** Biweekly *)

Definition biweekly_target (now : local) (hour minute : Z) (d : Z) (days : list Z)
    (week_parity : option Z) : result local :=
  let current_parity := iso_week (wall now) mod 2 in
  let is_our_week := current_parity =? default current_parity week_parity in
  let! best_next := if is_our_week then best_this_week now hour minute (d :: days) else Ok None in
  match best_next with
  | Some b => Ok b
  | None =>
      let days_to_next_week :=
        if is_our_week then 7 - current_weekday now + 7 else 7 - current_weekday now in
      let! b := at_clock now hour minute in
      plus_days b (days_to_next_week + min_day d days)
  end.

Definition calculate_biweekly_next_run (schedule_time : option string) (tz : zone) (now : local)
    (days_of_week : option (list Z)) (week_parity : option Z) : result (option Z) :=
  match no_time schedule_time, days_of_week with
  | false, Some (d :: days) =>
      match time_of schedule_time with
      | None => Ok None
      | Some (hour, minute) => some_utc tz (biweekly_target now hour minute d days week_parity)
      end
  | _, _ => Ok None
  end.

(** ** Monthly *)

(** The inner [get_actual_day]. *)
Definition get_actual_day (day_of_month y m : Z) : Z :=
  if day_of_month =? -1 then days_in_month y m else Z.min day_of_month (days_in_month y m).

Definition next_month (y m : Z) : Z * Z := if 12 <? m + 1 then (y + 1, 1) else (y, m + 1).

(** [now_local.replace(year, month, day=get_actual_day(year, month), ...)] *)
Definition in_month (now : local) (hour minute day_of_month y m : Z) : result local :=
  let! w := lift (replace_date y m (get_actual_day day_of_month y m) hour minute) in
  Ok {| wall := w; fold := fold now |}.

Definition monthly_target (now : local) (hour minute day_of_month : Z) : result local :=
  let '(year, month, _) := date_of (wall now) in
  let '(year, month, target) :=
    match in_month now hour minute day_of_month year month with
    | Raise ValueError =>
        let '(year, month) := next_month year month in
        (year, month, in_month now hour minute day_of_month year month)
    | r => (year, month, r)
    end in
  let! target := target in
  if wall target <=? wall now
  then let '(year, month) := next_month year month in
       in_month now hour minute day_of_month year month
  else Ok target.

Definition calculate_monthly_next_run (schedule_time : option string) (tz : zone) (now : local)
    (day_of_month : option Z) : result (option Z) :=
  match no_time schedule_time, day_of_month with
  | false, Some day =>
      match time_of schedule_time with
      | None => Ok None
      | Some (hour, minute) => some_utc tz (monthly_target now hour minute day)
      end
  | _, _ => Ok None
  end.

(** ** [calculate_next_run] *)

Record schedule := {
  schedule_type : string;
  interval_seconds : option Z;
  schedule_time : option string;
  timezone : option string;
  days_of_week : option (list Z);
  day_of_month : option Z;
  week_parity : option Z;
}.

(** [zones] is [ZoneInfo]; [now_in tz] is [datetime.now(tz)]. *)
Definition calculate_next_run (zones : string -> option zone) (now_utc : Z) (now_in : zone -> local)
    (s : schedule) (last_run : option Z) : result (option Z) :=
  let name := match timezone s with Some (String c n) => String c n | _ => "UTC" end in
  match zones name with
  | None => Raise ZoneInfoNotFoundError
  | Some tz =>
      let now := now_in tz in
      if bool_decide (schedule_type s = "interval") then
        calculate_interval_next_run (interval_seconds s) last_run now_utc
      else if bool_decide (schedule_type s = "daily") then
        calculate_daily_next_run (schedule_time s) tz now
      else if bool_decide (schedule_type s = "weekly") then
        calculate_weekly_next_run (schedule_time s) tz now (days_of_week s)
      else if bool_decide (schedule_type s = "biweekly") then
        calculate_biweekly_next_run (schedule_time s) tz now (days_of_week s) (week_parity s)
      else if bool_decide (schedule_type s = "monthly") then
        calculate_monthly_next_run (schedule_time s) tz now (day_of_month s)
      else Ok None
  end.

Definition get_seconds_until (next_run : option Z) (now : Z) : option Z :=
  match next_run with
  | None => None
  | Some n => Some (Z.max 0 (Z.quot (n - now) SECOND))
  end.

(** ** Descriptions *)

Definition DAY_NAMES : list string :=
  ["Sunday"; "Monday"; "Tuesday"; "Wednesday"; "Thursday"; "Friday"; "Saturday"].
Definition DAY_NAMES_SHORT : list string := ["Sun"; "Mon"; "Tue"; "Wed"; "Thu"; "Fri"; "Sat"].

(** [l[i]] of a list, negative indexes from its end. *)
Definition py_nth (l : list string) (i : Z) : result string :=
  let j := if i <? 0 then i + Z.of_nat (length l) else i in
  if j <? 0 then Raise IndexError
  else match l !! Z.to_nat j with Some s => Ok s | None => Raise IndexError end.

Fixpoint py_names (l : list string) (days : list Z) : result (list string) :=
  match days with
  | [] => Ok []
  | d :: days => let! n := py_nth l d in let! ns := py_names l days in Ok (n :: ns)
  end.

Definition cat : list string -> string := String.concat "".

Definition plural (n : Z) : string := if n =? 1 then "" else "s".

Definition describe_interval (seconds : Z) : string :=
  if seconds <? 60 then cat ["Every "; str_of_Z seconds; " seconds"]
  else if seconds <? 3600 then
    let minutes := seconds / 60 in cat ["Every "; str_of_Z minutes; " minute"; plural minutes]
  else if seconds <? 86400 then
    let hours := seconds / 3600 in
    let remaining_minutes := (seconds mod 3600) / 60 in
    if remaining_minutes =? 0 then cat ["Every "; str_of_Z hours; " hour"; plural hours]
    else cat ["Every "; str_of_Z hours; "h "; str_of_Z remaining_minutes; "m"]
  else
    let days := seconds / 86400 in
    let remaining_hours := (seconds mod 86400) / 3600 in
    if remaining_hours =? 0 then cat ["Every "; str_of_Z days; " day"; plural days]
    else cat ["Every "; str_of_Z days; "d "; str_of_Z remaining_hours; "h"].

Definition describe_days (days : list Z) : result string :=
  match days with
  | [] => Ok "no days"
  | _ =>
      if (length days =? 7)%nat then Ok "every day"
      else if bool_decide (days = [1; 2; 3; 4; 5]) then Ok "weekdays"
      else if bool_decide (days = [0; 6]) then Ok "weekends"
      else
        let! names := py_names (if (length days <=? 3)%nat then DAY_NAMES else DAY_NAMES_SHORT)
                        (py_sorted Z.leb days) in
        Ok (String.concat ", " names)
  end.

(** [f"{n:02d}"] *)
Definition pad2 (n : Z) : string :=
  if (0 <=? n) && (n <? 10) then String.append "0" (str_of_Z n) else str_of_Z n.

Definition format_time (schedule_time : string) : string :=
  match parse_time schedule_time with
  | None => schedule_time
  | Some (hour, minute) =>
      let period := if hour <? 12 then "AM" else "PM" in
      let display_hour := if hour mod 12 =? 0 then 12 else hour mod 12 in
      cat [str_of_Z display_hour; ":"; pad2 minute; " "; period]
  end.

Definition tz_suffix (timezone : option string) : string :=
  match timezone with
  | Some (String c n as z) => if bool_decide (z = "UTC") then "" else cat [" ("; z; ")"]
  | _ => ""
  end.

Definition at_time (s : schedule) : string :=
  cat [" at "; format_time (default "" (schedule_time s)); tz_suffix (timezone s)].

Definition describe_schedule (s : schedule) : result string :=
  if bool_decide (schedule_type s = "interval") then
    match interval_seconds s with
    | None | Some 0 => Ok "No interval set"
    | Some i => Ok (describe_interval i)
    end
  else if bool_decide (schedule_type s = "daily") then
    if no_time (schedule_time s) then Ok "Daily (no time set)"
    else Ok (cat ["Daily"; at_time s])
  else if bool_decide (schedule_type s = "weekly") then
    match no_time (schedule_time s), days_of_week s with
    | false, Some ((_ :: _) as days) =>
        let! d := describe_days days in Ok (cat ["Weekly on "; d; at_time s])
    | _, _ => Ok "Weekly (incomplete)"
    end
  else if bool_decide (schedule_type s = "biweekly") then
    match no_time (schedule_time s), days_of_week s with
    | false, Some ((_ :: _) as days) =>
        let! d := describe_days days in Ok (cat ["Every 2 weeks on "; d; at_time s])
    | _, _ => Ok "Bi-weekly (incomplete)"
    end
  else if bool_decide (schedule_type s = "monthly") then
    match no_time (schedule_time s), day_of_month s with
    | false, Some day =>
        Ok (cat ["Monthly on "; if day =? -1 then "last day" else cat ["day "; str_of_Z day]; at_time s])
    | _, _ => Ok "Monthly (incomplete)"
    end
  else Ok (cat ["Unknown schedule type: "; schedule_type s]).

(** ** The next occurrence *)

(** [w] shows the clock and is after [now]. *)
Definition upcoming (now c w : Z) : Prop := now < w /\ time_of_day w = c.

(** [w] is the first time after [now] that shows the clock and satisfies [on]. *)
Definition next_occurrence (now c : Z) (on : Z -> Prop) (w : Z) : Prop :=
  upcoming now c w /\ on w /\ forall w', upcoming now c w' -> on w' -> w <= w'.

(** The clock of today, and the days from it to any upcoming time. *)
Definition today_at (now c : Z) : Z := ordinal now * DAY + c.

Lemma upcoming_days now c w :
  0 <= c < DAY -> upcoming now c w ->
  exists k, w = today_at now c + k * DAY /\ 0 <= k /\ (today_at now c <= now -> 0 < k).
Proof.
  intros Hc [Hw Ht]. exists (ordinal w - ordinal now). unfold today_at in *.
  destruct (wall_join w) as [E _], (wall_join now) as [En Hn]. rewrite Ht in E.
  assert (DAY = 86400000000) by reflexivity. split_and!; [lia|nia|]. intros Hle. nia.
Qed.

Lemma today_at_near now c : 0 <= c < DAY -> now - DAY < today_at now c < now + DAY.
Proof. intros Hc. destruct (wall_join now) as [E H]. unfold today_at. lia. Qed.

Lemma today_at_days now c k : 0 <= c < DAY ->
  time_of_day (today_at now c + k * DAY) = c /\
  weekday (today_at now c + k * DAY) = (weekday now + k) mod 7.
Proof.
  intros Hc. split.
  - rewrite (proj2 (add_days_split _ k)). by apply wall_split.
  - rewrite weekday_days. unfold weekday, today_at. by rewrite (proj1 (wall_split _ c Hc)).
Qed.

Lemma lift_ok {A} (r : Prelude.result Datetime.error A) a : lift r = Ok a -> r = Ok a.
Proof. destruct r as [x|[]]; cbn; congruence. Qed.

Lemma at_clock_ok now hour minute t :
  at_clock now hour minute = Ok t ->
  valid_clock hour minute = true /\ wall t = today_at (wall now) (clock hour minute) /\ fold t = fold now.
Proof.
  unfold at_clock, replace_clock. destruct (valid_clock hour minute); cbn; [|done].
  by intros [= <-].
Qed.

Lemma plus_days_ok t n t' : plus_days t n = Ok t' -> wall t' = wall t + n * DAY /\ fold t' = false.
Proof.
  unfold plus_days, add_delta. destruct (in_range _); cbn; [|done]. by intros [= <-].
Qed.

(** The daily run is the next one.  The target is the first time after now that shows
    the clock, at most a day away. *)
Theorem daily_next now hour minute t :
  daily_target now hour minute = Ok t ->
  next_occurrence (wall now) (clock hour minute) (fun _ => True) (wall t) /\
  wall t <= wall now + DAY.
Proof.
  unfold daily_target. destruct (at_clock now hour minute) as [b|] eqn:Hb; cbn; [|done].
  apply at_clock_ok in Hb as (Hv & Hw & _). pose proof (clock_bounds _ _ Hv) as Hc.
  pose proof (today_at_near (wall now) _ Hc) as Hnear.
  destruct (wall b <=? wall now) eqn:E; to_prop.
  - intros Ht. apply plus_days_ok in Ht as [-> _]. rewrite Hw in E |- *.
    split; [|lia]. split; [split; [lia|by apply today_at_days]|split; [done|]].
    intros w' Hu _. apply upcoming_days in Hu as (k & -> & Hk & Hpos); [|done].
    specialize (Hpos E). nia.
  - intros [= <-]. rewrite Hw in E |- *. split; [|lia].
    split; [split; [lia|]|split; [done|]].
    + by apply wall_split.
    + intros w' Hu _. apply upcoming_days in Hu as (k & -> & Hk & _); [|done]. nia.
Qed.

(** ** Weekly *)

(** [w] falls on one of the days, counted from Sunday. *)
Definition on_days (days : list Z) (w : Z) : Prop :=
  exists d, d ∈ days /\ (weekday w + 1) mod 7 = d mod 7.

(** The days from today to the next [d], today included. *)
Definition days_to (now : local) (d : Z) : Z := (d - current_weekday now) mod 7.

Definition candidate (now : local) (c d : Z) : Z := today_at (wall now) c + days_to now d * DAY.

(** The loop counts every day but today once its time has passed. *)
Definition counted (now : local) (c d : Z) : Prop :=
  days_to now d <> 0 \/ wall now < today_at (wall now) c.

Definition best_ok (now : local) (c : Z) (processed : list Z) (best : option local) : Prop :=
  match best with
  | None => forall d, d ∈ processed -> ~ counted now c d
  | Some b =>
      (exists d, d ∈ processed /\ counted now c d /\ wall b = candidate now c d) /\
      forall d, d ∈ processed -> counted now c d -> wall b <= candidate now c d
  end.

Lemma weekly_step_ok now hour minute processed best d best' :
  best_ok now (clock hour minute) processed best ->
  weekly_step now hour minute best d = Ok best' ->
  valid_clock hour minute = true /\ best_ok now (clock hour minute) (processed ++ [d]) best'.
Proof.
  intros Hbest. unfold weekly_step. fold (days_to now d). set (c := clock hour minute) in *.
  destruct (at_clock now hour minute) as [b0|] eqn:Hb0; cbn [rbind]; [|done].
  apply at_clock_ok in Hb0 as (Hv & Hw0 & _). fold c in Hw0.
  destruct (plus_days b0 (days_to now d)) as [t|] eqn:Ht; cbn [rbind]; [|done].
  apply plus_days_ok in Ht as [Ht _]. rewrite Hw0 in Ht. fold (candidate now c d) in Ht.
  intros Hr. split; [done|].
  destruct ((days_to now d =? 0) && (wall t <=? wall now)) eqn:Eskip.
  - simplify_eq. to_prop. assert (Hnc : ~ counted now c d).
    { unfold counted, candidate in *. rewrite H, Z.mul_0_l, Z.add_0_r in Ht. intros [?|?]; [done|lia]. }
    destruct best' as [b|]; cbn in *.
    + destruct Hbest as [(d0 & Hd0 & Hc0 & E) Hmin]. split.
      * exists d0. split; [apply elem_of_app; by left|done].
      * intros d' [Hd'| ->%list_elem_of_singleton]%elem_of_app Hc'; [auto|done].
    + intros d' [Hd'| ->%list_elem_of_singleton]%elem_of_app; [auto|done].
  - assert (Hcd : counted now c d).
    { apply andb_false_iff in Eskip as [E|E]; to_prop; [by left|]. unfold counted.
      destruct (decide (days_to now d = 0)) as [E0|]; [right|by left].
      unfold candidate in Ht. rewrite E0, Z.mul_0_l, Z.add_0_r in Ht. lia. }
    assert (Hin : d ∈ processed ++ [d]) by (apply elem_of_app; right; by left).
    destruct best as [b|]; simplify_eq; cbn in Hbest |- *.
    + destruct Hbest as [(d0 & Hd0 & Hc0 & E) Hmin].
      destruct (wall t <? wall b) eqn:Elt; to_prop; cbn; split.
      * exists d. done.
      * intros d' [Hd'| ->%list_elem_of_singleton]%elem_of_app Hc'; [|lia].
        specialize (Hmin d' Hd' Hc'). lia.
      * exists d0. split; [apply elem_of_app; by left|done].
      * intros d' [Hd'| ->%list_elem_of_singleton]%elem_of_app Hc'; [auto|lia].
    + split; [exists d; done|].
      intros d' [Hd'| ->%list_elem_of_singleton]%elem_of_app Hc'; [|lia].
      by specialize (Hbest d' Hd').
Qed.

Lemma best_this_week_ok now hour minute days best :
  best_this_week now hour minute days = Ok best -> best_ok now (clock hour minute) days best.
Proof.
  intros Hb.
  assert (H : best_ok now (clock hour minute) (py_sorted Z.leb days) best).
  { refine (foldM_prefix_inv _ (best_ok now (clock hour minute)) _ _ best _ _ Hb).
    - intros l1 x l2 b b' _ Hok Hs. by eapply weekly_step_ok.
    - cbn. intros d Hd%elem_of_nil. done. }
  destruct best as [b|]; cbn in *; setoid_rewrite elem_of_py_sorted in H; exact H.
Qed.

Lemma days_to_bounds now d : 0 <= days_to now d < 7.
Proof. by apply Z.mod_pos_bound. Qed.

(** Any upcoming time on a day is the day's candidate or whole weeks later. *)
Lemma on_day_weeks now c d w :
  0 <= c < DAY -> upcoming (wall now) c w -> (weekday w + 1) mod 7 = d mod 7 ->
  exists n, 0 <= n /\ w = candidate now c d + n * (7 * DAY).
Proof.
  intros Hc Hu Hd. apply upcoming_days in Hu as (k & -> & Hk & _); [|done].
  rewrite (proj2 (today_at_days _ _ _ Hc)) in Hd. unfold candidate, days_to, current_weekday.
  rewrite Zplus_mod_idemp_l in Hd. rewrite Zminus_mod_idemp_r.
  exists (k / 7). pose proof (Z.div_mod k 7 ltac:(lia)) as Ek.
  assert (Em : k mod 7 = (d - (weekday (wall now) + 1)) mod 7).
  { replace k with ((weekday (wall now) + k + 1) - (weekday (wall now) + 1)) at 1 by lia.
    rewrite Zminus_mod, Hd, <- Zminus_mod. done. }
  rewrite <- Em. split; [apply Z.div_pos; lia|]. lia.
Qed.

Lemma candidate_on now c d days :
  0 <= c < DAY -> d ∈ days -> counted now c d ->
  upcoming (wall now) c (candidate now c d) /\ on_days days (candidate now c d).
Proof.
  intros Hc Hd Hcd. unfold candidate. pose proof (days_to_bounds now d) as Hb.
  pose proof (today_at_near (wall now) c Hc) as Hn.
  destruct (today_at_days (wall now) c (days_to now d) Hc) as [Ht Hw].
  split; [split; [|done]|].
  - destruct Hcd as [?|?]; nia.
  - exists d. split; [done|]. rewrite Hw. unfold days_to, current_weekday.
    rewrite Zplus_mod_idemp_l, Zminus_mod_idemp_r.
    replace (weekday (wall now) + (d - (weekday (wall now) + 1)) mod 7 + 1) with
      ((weekday (wall now) + 1) + (d - (weekday (wall now) + 1)) mod 7) by lia.
    rewrite Zplus_mod_idemp_r. f_equal. lia.
Qed.

Lemma best_clock_valid now hour minute days b :
  days <> [] -> best_this_week now hour minute days = Ok b -> valid_clock hour minute = true.
Proof.
  intros Hne Hbest. unfold best_this_week in Hbest. destruct (py_sorted Z.leb days) as [|x l] eqn:Es.
  - destruct days; [done|]. apply (f_equal length) in Es. by rewrite py_sorted_length in Es.
  - cbn [foldM] in Hbest. unfold weekly_step, at_clock, replace_clock in Hbest.
    by destruct (valid_clock hour minute).
Qed.

(** The best candidate of this week is the next occurrence. *)
Lemma best_is_next now c days d0 :
  0 <= c < DAY -> d0 ∈ days -> counted now c d0 ->
  (forall d', d' ∈ days -> counted now c d' -> candidate now c d0 <= candidate now c d') ->
  next_occurrence (wall now) c (on_days days) (candidate now c d0).
Proof.
  intros Hc Hd0 Hc0 Hmin. destruct (candidate_on now c d0 days Hc Hd0 Hc0) as [Hup Hon].
  split; [exact Hup|split; [exact Hon|]]. intros w' Hu (d' & Hd' & Hw').
  destruct (on_day_weeks _ _ _ _ Hc Hu Hw') as (n & Hn & ->).
  destruct (decide (counted now c d')) as [Hcd|Hncd]; [specialize (Hmin d' Hd' Hcd); nia|].
  (* today's time has passed: the next such day is a week away *)
  assert (Hz : days_to now d' = 0 /\ today_at (wall now) c <= wall now).
  { unfold counted in Hncd. split; [|lia]. destruct (decide (days_to now d' = 0)); tauto. }
  destruct Hz as [Hz Hpast]. destruct Hu as [Hlt _]. unfold candidate in *.
  rewrite Hz in *. assert (0 < n) by nia. pose proof (days_to_bounds now d0). nia.
Qed.

Lemma min_day_elem d days : min_day d days ∈ d :: days.
Proof.
  unfold min_day. revert d. induction days as [|x l IH]; intros d; cbn; [by left|].
  destruct (Z.min_spec d x) as [[_ ->]|[_ ->]]; specialize (IH d) as H1; specialize (IH x) as H2;
    rewrite ?elem_of_cons in *; tauto.
Qed.

(** When every day is today with its time passed, the run is a week away. *)
Lemma week_away_is_next now c d days :
  0 <= c < DAY ->
  (forall x, x ∈ d :: days -> days_to now x = 0 /\ today_at (wall now) c <= wall now) ->
  next_occurrence (wall now) c (on_days (d :: days)) (today_at (wall now) c + 7 * DAY).
Proof.
  intros Hc Hz. destruct (today_at_days (wall now) c 7 Hc) as [Htod Hwd].
  pose proof (today_at_near (wall now) c Hc) as Hnear. split; [split|split].
  - lia.
  - exact Htod.
  - exists d. split; [by left|]. rewrite Hwd.
    destruct (Hz d ltac:(by left)) as [Hd0 _]. unfold days_to, current_weekday in Hd0.
    replace (weekday (wall now) + 7) with (weekday (wall now) + 1 * 7) by lia.
    rewrite Z.mod_add by done. rewrite Zplus_mod_idemp_l. rewrite Zminus_mod_idemp_r in Hd0.
    apply Z.mod_divide in Hd0 as [q Hq]; [|done].
    replace d with (weekday (wall now) + 1 + q * 7) by lia. by rewrite Z.mod_add.
  - intros w' Hu (d' & Hd' & Hw'). destruct (on_day_weeks _ _ _ _ Hc Hu Hw') as (n & Hn & ->).
    destruct (Hz d' Hd') as [Hd0 Hpast]. destruct Hu as [Hlt _]. unfold candidate in *.
    rewrite Hd0 in *. assert (HD : 0 < DAY) by done. assert (0 < n) by nia. nia.
Qed.

(** C7: the weekly run is the next one.  The target is the first time after now that shows
    the clock on one of the days. *)
Theorem weekly_next now hour minute d days t :
  weekly_target now hour minute d days = Ok t ->
  next_occurrence (wall now) (clock hour minute) (on_days (d :: days)) (wall t).
Proof.
  unfold weekly_target. set (c := clock hour minute).
  destruct (best_this_week _ _ _ _) as [best|] eqn:Hbest; cbn [rbind]; [|done].
  pose proof (clock_bounds _ _ (best_clock_valid now hour minute (d :: days) best ltac:(done) Hbest)) as Hc. fold c in Hc.
  apply best_this_week_ok in Hbest. fold c in Hbest. destruct best as [b|].
  - intros [= <-]. destruct Hbest as [(d0 & Hd0 & Hc0 & ->) Hmin]. by apply best_is_next.
  - assert (Hz : forall x, x ∈ d :: days -> days_to now x = 0 /\ today_at (wall now) c <= wall now).
    { intros x Hx. specialize (Hbest x Hx). unfold counted in Hbest. split; [|lia].
      destruct (decide (days_to now x = 0)); tauto. }
    fold (days_to now (min_day d days)). rewrite (proj1 (Hz _ (min_day_elem d days))). cbn [Z.eqb].
    destruct (at_clock now hour minute) as [b|] eqn:Hb; cbn [rbind]; [|done].
    apply at_clock_ok in Hb as (_ & Hw & _). fold c in Hw.
    intros Ht. apply plus_days_ok in Ht as [-> _]. rewrite Hw. by apply week_away_is_next.
Qed.

(** ** Monthly *)

(** [w] falls on the day of its month the schedule runs on. *)
Definition on_month_day (day : Z) (w : Z) : Prop :=
  let '(y, m, d) := date_of w in d = get_actual_day day y m.

(** The month a wall is in, as one number. *)
Definition month_index (w : Z) : Z := let '(y, m, _) := date_of w in y * 12 + m.

Definition schedulable (day : Z) : Prop := day = -1 \/ 1 <= day.

Lemma days_in_month_pos y m : 28 <= days_in_month y m <= 31.
Proof. unfold days_in_month, month_days. repeat case_match; lia. Qed.

Lemma actual_day_valid day y m : schedulable day -> 1 <= get_actual_day day y m <= days_in_month y m.
Proof.
  intros Hd. unfold get_actual_day. pose proof (days_in_month_pos y m).
  destruct (Z.eqb_spec day (-1)); [lia|]. unfold schedulable in Hd. lia.
Qed.

Lemma date_of_is_date w : let '(y, m, d) := date_of w in is_date y m d /\ ymd2ord y m d = ordinal w.
Proof. apply ord2ymd_spec. Qed.

Lemma later_month_later w w' : month_index w < month_index w' -> w < w'.
Proof.
  unfold month_index. pose proof (date_of_is_date w) as H. pose proof (date_of_is_date w') as H'.
  destruct (date_of w) as [[y m] d], (date_of w') as [[y' m'] d'].
  destruct H as [Hd E], H' as [Hd' E']. intros Hlt.
  apply (ymd2ord_month_lt _ _ _ _ _ _ Hd Hd') in Hlt. rewrite E, E' in Hlt.
  destruct (wall_join w) as [Hw Hb], (wall_join w') as [Hw' Hb']. unfold DAY in *. lia.
Qed.

(** The run of a month. *)
Definition month_run (c day y m : Z) : Z := ymd2ord y m (get_actual_day day y m) * DAY + c.

Lemma month_run_on c day y m : 0 <= c < DAY -> 1 <= m <= 12 -> schedulable day ->
  time_of_day (month_run c day y m) = c /\ on_month_day day (month_run c day y m) /\
  month_index (month_run c day y m) = y * 12 + m.
Proof.
  intros Hc Hm Hd. unfold month_run, on_month_day, month_index.
  rewrite date_of_wall; [|split; [done|by apply actual_day_valid]|done].
  split; [by apply wall_split|done].
Qed.

(** A time on the schedule is the run of its month. *)
Lemma on_month_is_run c day y m w :
  time_of_day w = c -> on_month_day day w -> month_index w = y * 12 + m -> 1 <= m <= 12 ->
  w = month_run c day y m.
Proof.
  intros Ht Hon Hi Hm. unfold on_month_day, month_index in *. pose proof (date_of_is_date w) as H.
  destruct (date_of w) as [[y' m'] d']. destruct H as [[Hm' _] E].
  assert (y' = y /\ m' = m) as [-> ->] by lia. unfold month_run. rewrite <- Hon, E.
  destruct (wall_join w) as [Hw _]. by rewrite <- Ht.
Qed.

Lemma next_month_index y m : 1 <= m <= 12 ->
  let '(y', m') := next_month y m in 1 <= m' <= 12 /\ y' * 12 + m' = y * 12 + m + 1.
Proof. intros Hm. unfold next_month. destruct (12 <? m + 1) eqn:E; to_prop; lia. Qed.

Lemma in_month_ok now hour minute day y m t :
  in_month now hour minute day y m = Ok t ->
  valid_clock hour minute = true /\ 1 <= m <= 12 /\ wall t = month_run (clock hour minute) day y m /\
  fold t = fold now.
Proof.
  unfold in_month, replace_date. destruct (valid_date _ _ _ && valid_clock hour minute) eqn:E; cbn; [|done].
  intros [= <-]. apply andb_prop in E as [Hd Hv]. unfold valid_date in Hd. to_prop. done.
Qed.

Lemma in_month_raises now hour minute day y m e :
  in_month now hour minute day y m = Raise e ->
  e = ValueError /\ (valid_date y m (get_actual_day day y m) = false \/ valid_clock hour minute = false).
Proof.
  unfold in_month, replace_date. destruct (valid_date _ _ _ && valid_clock hour minute) eqn:E; cbn; [done|].
  intros [= <-]. apply andb_false_iff in E as [?|?]; auto.
Qed.

(** A year of the calendar. *)
Lemma year_in_range w : in_range w = true -> let '(y, m, _) := date_of w in 1 <= y <= 9999 /\ 1 <= m <= 12.
Proof.
  unfold in_range. intros Hr. to_prop. pose proof (date_of_is_date w) as Hmi.
  destruct (date_of w) as [[y m] d]. destruct Hmi as [[Hm Hd] E]. split; [|done].
  destruct (wall_join w) as [Hw Hb]. unfold DAY, MAXORD in *.
  assert (Ho : 1 <= ymd2ord y m d <= 3652059) by lia. clear -Ho Hm Hd.
  assert (H1 : is_date 1 1 1) by (split; [lia|vm_compute; split; congruence]).
  assert (H2 : is_date 9999 12 31) by (split; [lia|vm_compute; split; congruence]).
  destruct (Z.lt_trichotomy (y * 12 + m) (1 * 12 + 1)) as [Hlt|[Heq|Hgt]]; [exfalso| |].
  - apply (ymd2ord_month_lt y m d 1 1 1) in Hlt; [|done|done]. change (ymd2ord 1 1 1) with 1 in Hlt. lia.
  - lia.
  - destruct (Z.lt_ge_cases (9999 * 12 + 12) (y * 12 + m)) as [Hlt|Hle]; [exfalso|lia].
    apply (ymd2ord_month_lt 9999 12 31 y m d) in Hlt; [|done|done].
    change (ymd2ord 9999 12 31) with 3652059 in Hlt. lia.
Qed.

Lemma first_month_ok now hour minute day y m t :
  in_range (wall now) = true -> schedulable day ->
  in_month now hour minute day y m = Ok t -> month_index (wall now) = y * 12 + m ->
  wall now < wall t ->
  next_occurrence (wall now) (clock hour minute) (on_month_day day) (wall t).
Proof.
  intros Hr Hs Ht Hi Hlt. apply in_month_ok in Ht as (Hv & Hm & Ht & _). rewrite Ht in *.
  pose proof (clock_bounds _ _ Hv) as Hc. destruct (month_run_on _ day y m Hc Hm Hs) as (Htod & Hon & Hidx).
  split; [by split|split; [done|]]. intros w' [Hw' Htod'] Hon'.
  destruct (Z.lt_trichotomy (month_index w') (y * 12 + m)) as [H|[H|H]].
  - rewrite <- Hi in H. apply later_month_later in H. lia.
  - rewrite (on_month_is_run _ day y m w' Htod' Hon' H Hm). lia.
  - rewrite <- Hidx in H. apply later_month_later in H. lia.
Qed.

Lemma second_month_ok now hour minute day y m y' m' t0 t :
  schedulable day -> next_month y m = (y', m') ->
  in_month now hour minute day y m = Ok t0 -> month_index (wall now) = y * 12 + m ->
  wall t0 <= wall now -> in_month now hour minute day y' m' = Ok t ->
  next_occurrence (wall now) (clock hour minute) (on_month_day day) (wall t).
Proof.
  intros Hs Hnext Ht0 Hi Hle Ht. apply in_month_ok in Ht0 as (Hv & Hm & Ht0 & _).
  apply in_month_ok in Ht as (_ & Hm' & Ht & _). rewrite Ht0 in Hle. rewrite Ht. clear Ht Ht0.
  pose proof (next_month_index y m Hm) as Hidx. rewrite Hnext in Hidx. destruct Hidx as [_ Hidx].
  pose proof (clock_bounds _ _ Hv) as Hc.
  destruct (month_run_on _ day y' m' Hc Hm' Hs) as (Htod & Hon & Hj).
  split; [split; [|done]|split; [done|]].
  - apply later_month_later. lia.
  - intros w' [Hw' Htod'] Hon'.
    destruct (Z.lt_trichotomy (month_index w') (y' * 12 + m')) as [H|[H|H]].
    + destruct (decide (month_index w' = y * 12 + m)) as [E|Hne].
      * rewrite (on_month_is_run _ day y m w' Htod' Hon' E Hm) in Hw'. lia.
      * assert (Hlt : month_index w' < month_index (wall now)) by lia.
        apply later_month_later in Hlt. lia.
    + rewrite (on_month_is_run _ day y' m' w' Htod' Hon' H Hm'). lia.
    + rewrite <- Hj in H. apply later_month_later in H. lia.
Qed.

(** The monthly run is the next one.  For a day of the month from 1 up, or -1, the
    target is the first time after now that shows the clock on that day of its month,
    shorter months and -1 meaning the last. *)
Theorem monthly_next now hour minute day t :
  in_range (wall now) = true -> schedulable day ->
  monthly_target now hour minute day = Ok t ->
  next_occurrence (wall now) (clock hour minute) (on_month_day day) (wall t).
Proof.
  intros Hr Hs. unfold monthly_target.
  assert (Hi : month_index (wall now) = month_index (wall now)) by done.
  unfold month_index in Hi at 2. pose proof (year_in_range _ Hr) as Hy.
  destruct (date_of (wall now)) as [[y m] d] eqn:Ed. destruct Hy as [Hy Hm].
  destruct (in_month now hour minute day y m) as [t0|e] eqn:Hf.
  - cbn [rbind]. destruct (wall t0 <=? wall now) eqn:E; to_prop.
    + destruct (next_month y m) as [y' m'] eqn:En. intros Ht. by eapply second_month_ok.
    + intros [= <-]. by eapply first_month_ok.
  - (* a valid day of a month of the calendar: only the clock can be refused, twice *)
    apply in_month_raises in Hf as [-> [Hbad|Hbad]].
    { pose proof (actual_day_valid day y m Hs). unfold valid_date in Hbad. exfalso.
      assert (Hok : valid_date y m (get_actual_day day y m) = true); [|unfold valid_date in Hok; congruence].
      unfold valid_date. rewrite !andb_true_iff, !Z.leb_le. lia. }
    destruct (next_month y m) as [y' m']. destruct (in_month now hour minute day y' m') as [t1|] eqn:H1; [|done].
    apply in_month_ok in H1 as [Hv _]. congruence.
Qed.

(** A day of the month that is neither positive nor -1 is not answered with [None]: both
    attempts raise and the second is outside the handler, so [ValueError] leaves the
    call whatever the clock and the calendar say. *)
Theorem monthly_bad_day_raises now hour minute day :
  day <= 0 -> day <> -1 -> monthly_target now hour minute day = Raise ValueError.
Proof.
  intros Hd Hn.
  assert (Hin : forall y m, in_month now hour minute day y m = Raise ValueError).
  { intros y m. unfold in_month, replace_date, get_actual_day.
    destruct (Z.eqb_spec day (-1)); [done|].
    assert (Hv : valid_date y m (Z.min day (days_in_month y m)) = false); [|by rewrite Hv].
    unfold valid_date. apply andb_false_iff. left. apply andb_false_iff. right. apply Z.leb_gt. lia. }
  unfold monthly_target. destruct (date_of (wall now)) as [[y m] d]. rewrite Hin.
  destruct (next_month y m) as [y' m']. by rewrite Hin.
Qed.

(** ** Interval *)

(** An interval run is in the future, and at most one interval away when the last run is
    not ahead of the clock; a run that was not missed is exactly one interval after the
    last. *)
Theorem interval_next i last_run now n :
  calculate_interval_next_run (Some i) last_run now = Ok (Some n) ->
  0 < i /\ now < n /\
  (forall l, last_run = Some l -> (n = l + i * SECOND \/ n = now + i * SECOND) /\
     (l <= now -> n <= now + i * SECOND)) /\
  (last_run = None -> n = now + i * SECOND).
Proof.
  unfold calculate_interval_next_run, add_delta. destruct (i <=? 0) eqn:Ei; [done|]. to_prop.
  assert (HS : 0 < SECOND) by done. destruct last_run as [l|].
  - destruct (in_range (l + _)); cbn; [|done]. destruct (_ <=? now) eqn:E; to_prop.
    + destruct (in_range (now + _)); cbn; [|done]. intros [= <-].
      split_and!; [done|nia| |done]. intros l' [= <-]. split; [by right|lia].
    + intros [= <-]. split_and!; [done|done| |done]. intros l' [= <-]. split; [by left|nia].
  - destruct (in_range (now + _)); cbn; [|done]. intros [= <-]. split_and!; [done|nia|done|done].
Qed.

(** ** Concrete clocks *)

Definition at_ (y m d hour minute : Z) (f : bool) : local :=
  {| wall := ymd2ord y m d * DAY + clock hour minute; fold := f |}.

(** Wednesday 2026-03-04, 10:30. *)
Definition wednesday : local := at_ 2026 3 4 10 30 false.

Example wednesday_is : (current_weekday wednesday, iso_week (wall wednesday)) = (3, 10).
Proof. vm_compute. reflexivity. Qed.

Lemma daily_next_witness :
  next_occurrence (wall wednesday) (clock 9 15) (fun _ => True) (wall (at_ 2026 3 5 9 15 false)).
Proof.
  apply (daily_next wednesday 9 15 (at_ 2026 3 5 9 15 false)). vm_compute. reflexivity.
Defined.

Lemma weekly_next_witness :
  next_occurrence (wall wednesday) (clock 9 15) (on_days [3; 1]) (wall (at_ 2026 3 9 9 15 false)).
Proof.
  apply (weekly_next wednesday 9 15 3 [1] (at_ 2026 3 9 9 15 false)). vm_compute. reflexivity.
Defined.

Lemma monthly_next_witness :
  next_occurrence (wall wednesday) (clock 9 15) (on_month_day 31) (wall (at_ 2026 3 31 9 15 false)).
Proof.
  apply (monthly_next wednesday 9 15 31 (at_ 2026 3 31 9 15 false)).
  - vm_compute. reflexivity.
  - right. lia.
  - vm_compute. reflexivity.
Defined.

(** February is the month after this January's 31st has passed. *)
Example short_month :
  monthly_target (at_ 2026 1 31 23 0 false) 9 15 31 = Ok (at_ 2026 2 28 9 15 false).
Proof. vm_compute. reflexivity. Qed.

Lemma monthly_bad_day_raises_witness : monthly_target wednesday 9 15 0 = Raise ValueError.
Proof. apply (monthly_bad_day_raises wednesday 9 15 0); [lia|discriminate]. Defined.

Lemma interval_next_witness : wall wednesday < wall wednesday + 60 * SECOND.
Proof.
  apply (interval_next 60 None (wall wednesday) (wall wednesday + 60 * SECOND)).
  vm_compute. reflexivity.
Defined.

(** A biweekly run may fall in the off week: on Friday of an "our" week (ISO week 10) the
    next Monday is taken as a day of this week, although it opens week 11. *)
Example biweekly_next_monday_is_off_week :
  let t := at_ 2026 3 9 9 0 false in
  biweekly_target (at_ 2026 3 6 10 30 false) 9 0 1 [] (Some 0) = Ok t /\
  iso_week (wall t) mod 2 = 1.
Proof. vm_compute. split; reflexivity. Qed.

(** And on the Sunday that closes an off week (ISO week 10) the coming Monday, which is in
    an "our" week, is passed over for the one after, which is not. *)
Example biweekly_sunday_skips_our_week :
  let t := at_ 2026 3 16 9 0 false in
  biweekly_target (at_ 2026 3 8 10 30 false) 9 0 1 [] (Some 1) = Ok t /\
  iso_week (wall t) mod 2 = 0.
Proof. vm_compute. split; reflexivity. Qed.

(** New York around the end of daylight saving, 2024-11-03: 01:00 to 02:00 happens twice. *)
Definition new_york : zone :=
  {| utcoffset := fun w f =>
       if w <? wall (at_ 2024 11 3 1 0 false) then - 4 * HOUR
       else if w <? wall (at_ 2024 11 3 2 0 false) then (if f then - 5 * HOUR else - 4 * HOUR)
       else - 5 * HOUR |}.

(** Adding zero days resets the fold: in the second 01:30 of the night a weekly run at 01:45
    is placed before now, in the first. *)
Example weekly_run_in_the_past :
  let now := at_ 2024 11 3 1 30 true in
  calculate_weekly_next_run (Some "01:45") new_york now (Some [0]) =
    Ok (Some (wall (at_ 2024 11 3 5 45 false))) /\
  to_utc new_york now = Ok (wall (at_ 2024 11 3 6 30 false)).
Proof. vm_compute. split; reflexivity. Qed.

(** The daily run keeps the fold. *)
Example daily_run_keeps_fold :
  calculate_daily_next_run (Some "01:45") new_york (at_ 2024 11 3 1 30 true) =
    Ok (Some (wall (at_ 2024 11 3 6 45 false))).
Proof. vm_compute. reflexivity. Qed.

Example descriptions :
  describe_schedule {| schedule_type := "weekly"; interval_seconds := None;
    schedule_time := Some "14:05"; timezone := Some "America/New_York";
    days_of_week := Some [5; 1]; day_of_month := None; week_parity := None |} =
  Ok "Weekly on Monday, Friday at 2:05 PM (America/New_York)".
Proof. reflexivity. Qed.

End Schedule.
