(* ===== verification/Retention.v ===== *)
(** * Backup retention ([backend/dbas/retention.py]).

    Which backups are pruned, and the two passes that prune them.  A destination is the list
    of its file names; what an unlink or a cloud call does is an argument.  Names are ASCII;
    ages are compared exactly instead of through a division in floats. *)
From S2P Require Import Prelude PyValue PyDatetime.
Open Scope Z_scope.

Module Retention.
Import Datetime.

Definition DEFAULT_LAST_N : Z := 7.
Definition DEFAULT_MAX_AGE_DAYS : Z := 30.

(** ** File names *)

Definition is_digit (c : Ascii.ascii) : bool :=
  let n := Ascii.nat_of_ascii c in ((48 <=? n) && (n <=? 57))%nat.

(** Each character of [shape] is matched: [#] by a digit, any other by itself; the rest. *)
Fixpoint match_shape (shape s : string) : option string :=
  match shape, s with
  | EmptyString, _ => Some s
  | String p shape', String c s' =>
      if (if bool_decide (p = "#"%char) then is_digit c else bool_decide (p = c))
      then match_shape shape' s' else None
  | String _ _, EmptyString => None
  end.

Definition zip_shape : string := "ecm-backup-####-##-##_######.zip".

(** [_BACKUP_ZIP_FILENAME_RE.fullmatch(name)] *)
Definition is_backup_name (name : string) : bool :=
  match match_shape zip_shape name with Some EmptyString => true | _ => false end.

(** The number of the [n] digits from position [i]. *)
Fixpoint number_from (acc : Z) (n : nat) (s : string) : Z :=
  match n, s with
  | S n', String c s' => number_from (acc * 10 + (Z.of_nat (Ascii.nat_of_ascii c) - 48)) n' s'
  | _, _ => acc
  end.

Fixpoint drop_chars (i : nat) (s : string) : string :=
  match i, s with S i', String _ s' => drop_chars i' s' | _, _ => s end.

Definition field (s : string) (i n : nat) : Z := number_from 0 n (drop_chars i s).

(** [strptime(ts, "%Y-%m-%d_%H%M%S")] on a name of the shape. *)
Definition parse_timestamp (name : string) : option Z :=
  let y := field name 11 4 in let m := field name 16 2 in let d := field name 19 2 in
  let h := field name 22 2 in let mi := field name 24 2 in let s := field name 26 2 in
  if valid_date y m d && valid_clock h mi && (s <? 60)
  then Some (ymd2ord y m d * DAY + clock h mi + s * SECOND) else None.

Definition newline : string := String (Ascii.ascii_of_nat 10) EmptyString.

(** [_filename_timestamp]: [_TS_RE.search] for the shape at the end of the name, where [$]
    also matches before a final newline. *)
Fixpoint filename_timestamp (name : string) : option Z :=
  match match_shape zip_shape name with
  | Some rest =>
      if bool_decide (rest = EmptyString) || bool_decide (rest = newline) then parse_timestamp name
      else match name with String _ name' => filename_timestamp name' | EmptyString => None end
  | None => match name with String _ name' => filename_timestamp name' | EmptyString => None end
  end.

(** ** [select_prunable] *)

Inductive reason := last_n | age.

Fixpoint eligible (filenames : list string) : list (Z * string) :=
  match filenames with
  | [] => []
  | name :: names =>
      if negb (is_backup_name name) then eligible names
      else match filename_timestamp name with
           | None => eligible names
           | Some ts => (ts, name) :: eligible names
           end
  end.

(** [sort(key=timestamp, reverse=True)], stable. *)
Definition newest_first (l : list (Z * string)) : list (Z * string) :=
  py_sorted (fun x y => y.1 <=? x.1) l.

Definition floor_of (n : Z) : nat := Z.to_nat (Z.max n 1).

Definition prune_reason (max_age_days now ts : Z) : reason :=
  if max_age_days * DAY <? now - ts then age else last_n.

Fixpoint split_floor (floor : nat) (max_age_days now : Z) (idx : nat) (l : list (Z * string))
    : list string * list (string * reason) :=
  match l with
  | [] => ([], [])
  | (ts, name) :: l' =>
      let '(kept, pruned) := split_floor floor max_age_days now (S idx) l' in
      if (idx <? floor)%nat then (name :: kept, pruned)
      else (kept, (name, prune_reason max_age_days now ts) :: pruned)
  end.

Definition select_prunable (filenames : list string) (n max_age_days now : Z)
    : list string * list (string * reason) :=
  split_floor (floor_of n) max_age_days now 0 (newest_first (eligible filenames)).

(** ** The passes *)

Record audit_row := { au_filename : string; au_reason : reason; au_destination : string }.

Inductive skipped := unverified | list_failed.

Record summary := { deleted : nat; failed : nat; skipped_reason : option skipped }.

Definition nothing (why : option skipped) : summary :=
  {| deleted := 0; failed := 0; skipped_reason := why |}.

(** A destination and the journal rows written about it. *)
Record destination := { files : list string; journal : list audit_row }.

Definition without (name : string) (l : list string) : list string :=
  List.filter (fun f => negb (bool_decide (f = name))) l.

(** What the file system answers at the sink. *)
Inductive sink := Unlinked | Refused (* OSError *) | Escapes (* not under the root *).

(** One file of the local loop. *)
Definition prune_one (dest : string) (answer : string -> sink) (acc : destination * summary)
    (x : string * reason) : destination * summary :=
  let '(d, s) := acc in
  let '(name, r) := x in
  if negb (is_backup_name name) then (d, s)
  else
    match answer name with
    | Escapes => (d, s)
    | Refused => (d, {| deleted := deleted s; failed := S (failed s); skipped_reason := None |})
    | Unlinked =>
        ({| files := without name (files d);
            journal := journal d ++ [{| au_filename := name; au_reason := r; au_destination := dest |}] |},
         {| deleted := S (deleted s); failed := failed s; skipped_reason := None |})
    end.

(** [s.endswith(suffix)] *)
Fixpoint ends_with (suffix s : string) : bool :=
  bool_decide (s = suffix) || match s with String _ s' => ends_with suffix s' | EmptyString => false end.

(** [glob("ecm-backup-*.zip")]: the prefix and the suffix do not overlap. *)
Definition globbed (name : string) : bool :=
  String.prefix "ecm-backup-" name && ends_with ".zip" (drop_chars 11 name).

(** [exists] is [target_dir.exists()]. *)
Definition prune_local_backups (verified_success dir_exists : bool) (n max_age_days now : Z)
    (answer : string -> sink) (d : destination) : destination * summary :=
  if negb verified_success then (d, nothing (Some unverified))
  else if negb dir_exists then (d, nothing None)
  else
    let pruned := (select_prunable (List.filter globbed (files d)) n max_age_days now).2 in
    fold_left (prune_one "local" answer) pruned (d, nothing None).

(** [Path(str(n)).name] on a POSIX path. *)
Definition path_name (s : string) : string :=
  default "" (last (List.filter (fun c => negb (bool_decide (c = "") || bool_decide (c = ".")))
                      (split_on (Ascii.ascii_of_nat 47) s))).

(** [adapter.delete] of a remote path: whether it answered true, [None] when it raised. *)
Definition cloud_sink (delete : string -> option bool) (prefix name : string) : sink :=
  let remote_path := if bool_decide (prefix = "") then name else String.concat "/" [prefix; name] in
  match delete remote_path with
  | Some true => Unlinked
  | Some false | None => Refused
  end.

(** [s.strip("/")] *)
Fixpoint lstrip_slash (s : string) : string :=
  match s with
  | String c s' => if bool_decide (Ascii.nat_of_ascii c = 47%nat) then lstrip_slash s' else s
  | EmptyString => s
  end.
Fixpoint rstrip_slash (s : string) : string :=
  match s with
  | EmptyString => EmptyString
  | String c s' =>
      match rstrip_slash s' with
      | EmptyString => if bool_decide (Ascii.nat_of_ascii c = 47%nat) then EmptyString
                       else String c EmptyString
      | r => String c r
      end
  end.
Definition strip_slash (s : string) : string := rstrip_slash (lstrip_slash s).

(** [listing] is [adapter.list_files]: [None] when it raised.  The files of the destination
    are the base names of its listing. *)
Definition prune_cloud_destination (listing : option (list string)) (delete : string -> option bool)
    (remote_dir dest_name : string) (verified_success : bool) (n max_age_days now : Z)
    (rows : list audit_row) : destination * summary :=
  let d := {| files := map path_name (default [] listing); journal := rows |} in
  if negb verified_success then (d, nothing (Some unverified))
  else match listing with
       | None => (d, nothing (Some list_failed))
       | Some _ =>
           let pruned := (select_prunable (files d) n max_age_days now).2 in
           fold_left (prune_one dest_name (cloud_sink delete (strip_slash remote_dir))) pruned
             (d, nothing None)
       end.

(** ** The selection *)

Lemma elem_of_eligible ts name l :
  (ts, name) ∈ eligible l <-> name ∈ l /\ is_backup_name name = true /\ filename_timestamp name = Some ts.
Proof.
  induction l as [|n l IH]; cbn.
  - rewrite !elem_of_nil. tauto.
  - destruct (is_backup_name n) eqn:Hb; cbn [negb].
    + destruct (filename_timestamp n) as [t|] eqn:Ht; rewrite !elem_of_cons, IH || rewrite elem_of_cons, IH;
        intuition (simplify_eq; auto; congruence).
    + rewrite elem_of_cons, IH. intuition congruence.
Qed.

Lemma split_floor_spec floor max_age now idx l :
  split_floor floor max_age now idx l =
  (map snd (take (floor - idx) l),
   map (fun x => (x.2, prune_reason max_age now x.1)) (drop (floor - idx) l)).
Proof.
  revert idx. induction l as [|[ts name] l IH]; intros idx; cbn [split_floor].
  { by rewrite take_nil, drop_nil. }
  rewrite IH. destruct (idx <? floor)%nat eqn:E; to_prop.
  - replace (floor - idx)%nat with (S (floor - S idx)) by lia. done.
  - replace (floor - idx)%nat with 0%nat by lia. replace (floor - S idx)%nat with 0%nat by lia. done.
Qed.

Lemma select_split filenames n max_age now :
  let l := newest_first (eligible filenames) in
  select_prunable filenames n max_age now =
  (map snd (take (floor_of n) l),
   map (fun x => (x.2, prune_reason max_age now x.1)) (drop (floor_of n) l)).
Proof. cbn zeta. unfold select_prunable. by rewrite split_floor_spec, Nat.sub_0_r. Qed.

Lemma newest_first_sorted l : StronglySorted (fun x y => y.1 <= x.1) (newest_first l).
Proof.
  assert (H : StronglySorted (fun x y : Z * string => (y.1 <=? x.1) = true) (newest_first l)).
  { apply py_sorted_sorted; intros; to_prop; apply Z.leb_le; lia. }
  induction H as [|x l' H IH Hx]; constructor; [done|].
  eapply Forall_impl; [exact Hx|]. intros y Hy. by apply Z.leb_le.
Qed.

Lemma sorted_take_drop {A} (R : A -> A -> Prop) k l :
  StronglySorted R l -> forall x y, x ∈ take k l -> y ∈ drop k l -> R x y.
Proof.
  intros H. revert k. induction H as [|a l H IH Ha]; intros k x y.
  - rewrite take_nil. by intros ?%elem_of_nil.
  - destruct k as [|k]; cbn; [by intros ?%elem_of_nil|].
    intros [->|Hx]%elem_of_cons Hy; [|by eapply IH].
    rewrite Forall_forall in Ha. apply Ha. eapply elem_of_sublist; [exact Hy|apply sublist_drop].
Qed.

Lemma selection_spec filenames n max_age now :
  let kept := (select_prunable filenames n max_age now).1 in
  let pruned := (select_prunable filenames n max_age now).2 in
  kept ++ map fst pruned ≡ₚ map snd (eligible filenames) /\
  length kept = Nat.min (floor_of n) (length (eligible filenames)) /\
  (forall a b r ta tb, a ∈ kept -> (b, r) ∈ pruned ->
     filename_timestamp a = Some ta -> filename_timestamp b = Some tb ->
     tb <= ta /\ (r = age <-> max_age * DAY < now - tb)).
Proof.
  cbn zeta. rewrite select_split. cbn [fst snd]. set (l := newest_first (eligible filenames)).
  assert (Hl : l ≡ₚ eligible filenames) by apply py_sorted_perm.
  assert (Hts : forall ts name, (ts, name) ∈ l -> filename_timestamp name = Some ts).
  { intros ts name Hin. rewrite Hl in Hin. apply elem_of_eligible in Hin. tauto. }
  split_and!.
  - rewrite map_map. cbn. rewrite <- map_app, take_drop. by rewrite Hl.
  - rewrite length_map, length_take. by rewrite Hl.
  - intros a b r ta tb Ha Hb Hta Htb.
    apply elem_of_map in Ha as ([ta' a'] & -> & Ha). apply elem_of_map in Hb as ([tb' b'] & [= -> ->] & Hb).
    pose proof (sorted_take_drop _ (floor_of n) l (newest_first_sorted _) _ _ Ha Hb) as Hle. cbn in *.
    assert (Ha' : (ta', a') ∈ l) by (eapply elem_of_sublist; [exact Ha|apply sublist_take]).
    assert (Hb' : (tb', b') ∈ l) by (eapply elem_of_sublist; [exact Hb|apply sublist_drop]).
    clear Ha Hb. rename Ha' into Ha, Hb' into Hb.
    apply Hts in Ha, Hb. simplify_eq. split; [done|].
    unfold prune_reason. destruct (_ <? _) eqn:E; to_prop; split; try done; lia.
Qed.

(** The selection partitions the eligible backups at the floor.  The kept and the pruned
    are together exactly the names that are backups with a timestamp; the newest
    [max(last_n, 1)] are kept, no pruned backup is newer than a kept one, and the reason
    is [age] exactly past the threshold. *)
Theorem selection_at_floor filenames n max_age now :
  let '(kept, pruned) := select_prunable filenames n max_age now in
  kept ++ map fst pruned ≡ₚ map snd (eligible filenames) /\
  length kept = Nat.min (floor_of n) (length (eligible filenames)) /\
  (forall a b r ta tb, a ∈ kept -> (b, r) ∈ pruned ->
     filename_timestamp a = Some ta -> filename_timestamp b = Some tb ->
     tb <= ta /\ (r = age <-> max_age * DAY < now - tb)).
Proof.
  pose proof (selection_spec filenames n max_age now) as H.
  by destruct (select_prunable filenames n max_age now).
Qed.

(** The age threshold never decides what is pruned, only the reason recorded: with the
    same floor any two thresholds and clocks keep and prune the same files. *)
Theorem age_only_labels filenames n max_age now max_age' now' :
  (select_prunable filenames n max_age now).1 = (select_prunable filenames n max_age' now').1 /\
  map fst (select_prunable filenames n max_age now).2 =
  map fst (select_prunable filenames n max_age' now').2.
Proof. rewrite !select_split. cbn. by rewrite !map_map. Qed.

(** ** The passes *)

Lemma elem_of_without f name l : f ∈ without name l <-> f ∈ l /\ f <> name.
Proof. unfold without. by rewrite elem_of_list_filter, negb_true_iff, bool_decide_eq_false. Qed.

(** What a pass removed is journalled and was selected; the rest stays. *)
Definition pass_ok (dest : string) (d0 : destination) (processed : list (string * reason))
    (acc : destination * summary) : Prop :=
  let '(d, s) := acc in
  (exists rows, journal d = journal d0 ++ rows /\ deleted s = length rows /\
     (forall f, f ∈ files d <-> f ∈ files d0 /\ f ∉ map au_filename rows) /\
     Forall (fun row => (au_filename row, au_reason row) ∈ processed /\ au_destination row = dest) rows) /\
  (deleted s + failed s <= length processed)%nat.

Lemma prune_one_ok dest answer d0 processed acc x :
  pass_ok dest d0 processed acc -> pass_ok dest d0 (processed ++ [x]) (prune_one dest answer acc x).
Proof.
  destruct acc as [d s], x as [name r]. intros [(rows & Hj & Hdel & Hf & Hrows) Hcount].
  assert (Hmono : Forall (fun row => (au_filename row, au_reason row) ∈ processed ++ [(name, r)] /\
    au_destination row = dest) rows).
  { eapply Forall_impl; [exact Hrows|]. cbn. intros row [H1 H2]. split; [|done].
    apply elem_of_app. by left. }
  assert (Hskip : forall s', deleted s' = deleted s -> (deleted s' + failed s' <= S (length processed))%nat ->
    pass_ok dest d0 (processed ++ [(name, r)]) (d, s')).
  { intros s' Hd Hc. split; [|rewrite length_app; cbn; lia]. exists rows. rewrite Hd. done. }
  unfold prune_one. destruct (negb _); [apply Hskip; [done|lia]|].
  destruct (answer name); [|apply Hskip; cbn; [done|lia]|apply Hskip; [done|lia]].
  split; [|cbn; rewrite length_app; cbn; lia].
  exists (rows ++ [{| au_filename := name; au_reason := r; au_destination := dest |}]). cbn.
  split_and!.
  - by rewrite Hj, <- app_assoc.
  - rewrite length_app. cbn. lia.
  - intros f. rewrite elem_of_without, Hf, map_app, not_elem_of_app. cbn. 
    rewrite list_elem_of_singleton. tauto.
  - apply Forall_app. split; [done|]. constructor; [|constructor]. cbn. split; [|done].
    apply elem_of_app. right. by left.
Qed.

Lemma pass_fold dest answer d pruned :
  pass_ok dest d pruned (fold_left (prune_one dest answer) pruned (d, nothing None)).
Proof.
  induction pruned as [|x pruned IH] using rev_ind.
  - split; [|cbn; lia]. exists []. rewrite app_nil_r. split_and!; [done|done| |constructor].
    intros f. rewrite elem_of_nil. tauto.
  - rewrite fold_left_app. cbn. by apply prune_one_ok.
Qed.

(** The names a selection keeps are not among those it prunes, if no name is listed twice. *)
Lemma kept_not_pruned filenames n max_age now :
  NoDup filenames ->
  forall a, a ∈ (select_prunable filenames n max_age now).1 ->
  a ∉ map fst (select_prunable filenames n max_age now).2.
Proof.
  intros Hnd a Ha Hp. pose proof (selection_spec filenames n max_age now) as [Hperm _].
  destruct (select_prunable filenames n max_age now) as [kept pruned]. cbn in *.
  assert (Hel : NoDup (map snd (eligible filenames))).
  { clear -Hnd. induction Hnd as [|n l Hn Hnd IH]; cbn; [constructor|].
    destruct (negb _); [done|]. destruct (filename_timestamp n); [|done]. cbn. constructor; [|done].
    intros ([ts nm] & -> & Hin)%elem_of_map. apply elem_of_eligible in Hin as [Hin _]. done. }
  rewrite <- Hperm in Hel. apply NoDup_app in Hel as (_ & Hd & _). by apply (Hd a).
Qed.

Lemma floor_pos n : (1 <= floor_of n)%nat.
Proof. unfold floor_of. lia. Qed.

(** *** Backup names are globbed *)

Lemma match_shape_app p q s r :
  match_shape (p ++ q) s = Some r ->
  exists s1 s2, s = (s1 ++ s2)%string /\ match_shape p s1 = Some EmptyString /\ match_shape q s2 = Some r.
Proof.
  revert s. induction p as [|c p IH]; intros s H; [by exists EmptyString, s|].
  destruct s as [|c' s]; [done|]. change (String c p ++ q)%string with (String c (p ++ q)) in H. cbn [match_shape] in H.
  destruct (if bool_decide (c = "#"%char) then is_digit c' else bool_decide (c = c')) eqn:E; [|done].
  apply IH in H as (s1 & s2 & -> & H1 & H2). exists (String c' s1), s2.
  split; [done|]. cbn [match_shape]. by rewrite E.
Qed.

Fixpoint literal (p : string) : bool :=
  match p with
  | EmptyString => true
  | String c p' => negb (bool_decide (c = "#"%char)) && literal p'
  end.

Lemma match_shape_literal p s : literal p = true -> match_shape p s = Some EmptyString -> s = p.
Proof.
  revert s. induction p as [|c p IH]; intros s Hl H; cbn in *; [congruence|].
  destruct s as [|c' s]; [done|]. apply andb_true_iff in Hl as [Hc Hl].
  rewrite negb_true_iff in Hc. rewrite Hc in H.
  destruct (bool_decide (c = c')) eqn:E; [|done]. to_prop. subst. by rewrite (IH s Hl H).
Qed.

Lemma prefix_app p s : String.prefix p (p ++ s) = true.
Proof.
  induction p as [|c p IH]; [by destruct s|]. change (String c p ++ s)%string with (String c (p ++ s)).
  cbn [String.prefix]. by destruct (Ascii.ascii_dec c c).
Qed.

Lemma ends_with_app p s : ends_with s (p ++ s) = true.
Proof.
  induction p as [|c p IH].
  - change (EmptyString ++ s)%string with s. destruct s; cbn [ends_with]; by rewrite bool_decide_eq_true_2.
  - change (String c p ++ s)%string with (String c (p ++ s)). cbn [ends_with].
    by rewrite IH, orb_true_r.
Qed.

Lemma backup_globbed name : is_backup_name name = true -> globbed name = true.
Proof.
  unfold is_backup_name. destruct (match_shape zip_shape name) as [[|]|] eqn:E; try done. intros _.
  change zip_shape with ("ecm-backup-" ++ ("####-##-##_######" ++ ".zip"))%string in E.
  apply match_shape_app in E as (s1 & s2 & -> & H1 & H2).
  apply match_shape_app in H2 as (s3 & s4 & -> & _ & H4).
  apply match_shape_literal in H1 as ->; [|done]. apply match_shape_literal in H4 as ->; [|done].
  unfold globbed. rewrite prefix_app. cbn [andb].
  change (drop_chars 11 ("ecm-backup-" ++ (s3 ++ ".zip"))) with (s3 ++ ".zip")%string. apply ends_with_app.
Qed.

Lemma eligible_globbed l : eligible (List.filter globbed l) = eligible l.
Proof.
  induction l as [|name l IH]; [done|]. cbn [List.filter].
  destruct (globbed name) eqn:Hg; cbn [eligible]; rewrite IH; [done|].
  destruct (is_backup_name name) eqn:Hb; [|done]. apply backup_globbed in Hb. congruence.
Qed.

(** *** What the passes leave *)

(** A backup the selection reads: an allowlisted name with a timestamp. *)
Definition backup (name : string) : Prop :=
  is_backup_name name = true /\ is_Some (filename_timestamp name).

Lemma kept_backup filenames n max_age now a :
  a ∈ (select_prunable filenames n max_age now).1 -> a ∈ filenames /\ backup a.
Proof.
  intros Ha. pose proof (selection_spec filenames n max_age now) as (Hperm & _ & _).
  assert (Hel : a ∈ map snd (eligible filenames)).
  { rewrite <- Hperm. apply elem_of_app. by left. }
  apply elem_of_map in Hel as ([ts a'] & -> & Hin). apply elem_of_eligible in Hin as (? & ? & ?).
  by split; [|split; [|eexists]].
Qed.

Lemma pruned_backup filenames n max_age now b r :
  (b, r) ∈ (select_prunable filenames n max_age now).2 -> b ∈ filenames /\ backup b.
Proof.
  intros Hb. pose proof (selection_spec filenames n max_age now) as (Hperm & _ & _).
  assert (Hel : b ∈ map snd (eligible filenames)).
  { rewrite <- Hperm. apply elem_of_app. right. by apply (elem_of_map_2 fst) in Hb. }
  apply elem_of_map in Hel as ([ts b'] & -> & Hin). apply elem_of_eligible in Hin as (? & ? & ?).
  by split; [|split; [|eexists]].
Qed.

(** What every pass guarantees of a destination: the rows written and the count agree with
    the files removed, each removed file was selected, and [failed] bounds the rest. *)
Definition pass_effect (dest : string) (pruned : list (string * reason))
    (d d' : destination) (s : summary) : Prop :=
  exists rows, journal d' = journal d ++ rows /\ deleted s = length rows /\
    (deleted s + failed s <= length pruned)%nat /\
    (forall f, f ∈ files d' <-> f ∈ files d /\ f ∉ map au_filename rows) /\
    Forall (fun row => (au_filename row, au_reason row) ∈ pruned /\ au_destination row = dest) rows.

(** The destination keeps what the floor keeps and whatever is not a backup. *)
Definition floor_survives (kept : list string) (d d' : destination) : Prop :=
  (forall f, f ∈ kept -> f ∈ files d') /\
  (forall f, f ∈ files d -> ~ backup f -> f ∈ files d') /\
  ((exists f, f ∈ files d /\ backup f) -> exists f, f ∈ files d' /\ backup f).

Lemma pass_effect_fold dest answer d pruned :
  let '(d', s) := fold_left (prune_one dest answer) pruned (d, nothing None) in
  pass_effect dest pruned d d' s.
Proof.
  pose proof (pass_fold dest answer d pruned) as H.
  destruct (fold_left _ _ _) as [d' s]. destruct H as [(rows & H1 & H2 & H3 & H4) H5].
  exists rows. tauto.
Qed.

Lemma pass_effect_nothing dest pruned d w : pass_effect dest pruned d d (nothing w).
Proof.
  exists []. rewrite app_nil_r. cbn. split_and!; [done|done|lia| |constructor].
  intros f. rewrite elem_of_nil. tauto.
Qed.

Lemma pass_survives dest filenames n max_age now d d' s :
  let '(kept, pruned) := select_prunable filenames n max_age now in
  NoDup filenames -> filenames ⊆ files d ->
  (forall f, f ∈ files d -> backup f -> f ∈ filenames) ->
  pass_effect dest pruned d d' s -> floor_survives kept d d'.
Proof.
  pose proof (kept_not_pruned filenames n max_age now) as Hkp.
  pose proof (kept_backup filenames n max_age now) as Hk.
  pose proof (pruned_backup filenames n max_age now) as Hp.
  pose proof (selection_spec filenames n max_age now) as (Hperm & Hlen & _).
  destruct (select_prunable filenames n max_age now) as [kept pruned]. cbn in *.
  intros Hnd Hsub Hall (rows & _ & _ & _ & Hf & Hrows).
  assert (Hgone : forall f, f ∈ map au_filename rows -> f ∈ map fst pruned).
  { intros f (row & -> & Hin)%elem_of_map. rewrite Forall_forall in Hrows.
    destruct (Hrows _ Hin) as [Hin' _]. by apply (elem_of_map_2 fst) in Hin'. }
  assert (Hkeep : forall f, f ∈ kept -> f ∈ files d').
  { intros f Hin. apply Hf. split; [by apply Hsub, Hk|]. intros Hg. by apply (Hkp Hnd f), Hgone. }
  split; [done|split].
  - intros f Hin Hnb. apply Hf. split; [done|]. intros Hg. apply Hgone in Hg.
    apply elem_of_map in Hg as ([b r] & -> & Hin'). by apply Hnb, (Hp b r).
  - intros (f & Hin & Hb).
    assert (Hne : eligible filenames <> []).
    { destruct Hb as [Hb1 [ts Hts]]. pose proof (Hall f Hin (conj Hb1 (ex_intro _ ts Hts))) as Hin'.
      intros Hnil. assert (Hel : (ts, f) ∈ eligible filenames) by (apply elem_of_eligible; done).
      rewrite Hnil in Hel. by apply elem_of_nil in Hel. }
    destruct kept as [|k kept].
    + destruct (eligible filenames); [done|]. pose proof (floor_pos n). cbn in Hlen. lia.
    + exists k. split; [apply Hkeep; left|]. apply (Hk k). left.
Qed.

(** Never zero, locally.  A pass after a run that is not verified changes nothing;
    otherwise the journal gains one row for each file removed, each removed file was
    selected for pruning, every backup within the floor and every file that is not a backup
    survive, and a directory that had a backup still has one, whatever each unlink answers. *)
Theorem local_never_zero verified dir_exists n max_age now answer d :
  NoDup (files d) ->
  let '(kept, pruned) := select_prunable (List.filter globbed (files d)) n max_age now in
  let '(d', s) := prune_local_backups verified dir_exists n max_age now answer d in
  (verified = false -> d' = d /\ s = nothing (Some unverified)) /\
  pass_effect "local" pruned d d' s /\ floor_survives kept d d'.
Proof.
  intros Hnd. set (names := List.filter globbed (files d)).
  assert (Hsurv := fun d' s => pass_survives "local" names n max_age now d d' s).
  assert (Hpass := fun pruned => pass_effect_fold "local" answer d pruned).
  assert (Hnames : NoDup names) by by apply list_NoDup_filter.
  assert (Hsub : names ⊆ files d) by (intros f Hf; apply elem_of_list_filter in Hf; tauto).
  assert (Hall : forall f, f ∈ files d -> backup f -> f ∈ names).
  { intros f Hf [Hb _]. apply elem_of_list_filter. split; [done|by apply backup_globbed]. }
  unfold prune_local_backups. fold names. destruct (select_prunable names n max_age now) as [kept pruned].
  cbn [snd]. specialize (Hpass pruned).
  assert (Hs : forall d' s, pass_effect "local" pruned d d' s -> floor_survives kept d d')
    by (intros ? ?; by apply Hsurv).
  destruct verified; cbn [negb]; [|split; [done|split; [|apply (Hs d (nothing None))]; apply pass_effect_nothing]].
  destruct dir_exists; cbn [negb]; [|split; [done|split; [|apply (Hs d (nothing None))]; apply pass_effect_nothing]].
  destruct (fold_left _ _ _) as [d' s]. by split; [|split; [|apply (Hs d' s)]].
Qed.

(** Never zero, at a cloud destination whose listing names no file twice: a pass after an
    upload that is not verified, or whose listing fails, removes nothing; otherwise what the
    floor keeps and what is not a backup survive, and a destination with a backup keeps
    one, whatever each delete answers. *)
Theorem cloud_never_zero listing delete remote_dir dest verified n max_age now rows :
  NoDup (map path_name (default [] listing)) ->
  let d := {| files := map path_name (default [] listing); journal := rows |} in
  let '(kept, pruned) := select_prunable (files d) n max_age now in
  let '(d', s) := prune_cloud_destination listing delete remote_dir dest verified n max_age now rows in
  (verified = false \/ listing = None -> d' = d /\ deleted s = 0%nat) /\
  pass_effect dest pruned d d' s /\ floor_survives kept d d'.
Proof.
  intros Hnd d.
  assert (Hsurv := fun d' s => pass_survives dest (files d) n max_age now d d' s).
  assert (Hpass := fun pruned =>
    pass_effect_fold dest (cloud_sink delete (strip_slash remote_dir)) d pruned).
  unfold prune_cloud_destination. fold d.
  destruct (select_prunable (files d) n max_age now) as [kept pruned]. cbn [snd]. specialize (Hpass pruned).
  assert (Hs : forall d' s, pass_effect dest pruned d d' s -> floor_survives kept d d')
    by (intros ? ?; by apply Hsurv).
  destruct verified; cbn [negb]; [|split; [done|split; [|apply (Hs d (nothing None))]; apply pass_effect_nothing]].
  destruct listing; [|split; [done|split; [|apply (Hs d (nothing None))]; apply pass_effect_nothing]].
  destruct (fold_left _ _ _) as [d' s]. split; [|by split; [|apply (Hs d' s)]].
  by intros [?|?].
Qed.

(** ** Concrete runs *)

Definition jan (dd : string) : string := ("ecm-backup-2026-01-" ++ dd ++ "_030000.zip")%string.
Definition local_files : list string := [jan "01"; "notes.txt"; jan "03"; jan "02"; "ecm-backup-x.zip"].
Definition feb_1 : Z := ymd2ord 2026 2 1 * DAY.

Example shape_examples :
  is_backup_name (jan "01") = true /\ is_backup_name (jan "1") = false /\
  is_backup_name (jan "99") = true /\ filename_timestamp (jan "99") = None /\
  filename_timestamp (jan "01") = Some (ymd2ord 2026 1 1 * DAY + 3 * HOUR).
Proof. vm_compute. split_and!; reflexivity. Qed.

(** A floor of zero still keeps the newest; the other two are pruned, the older one of them
    past the thirty days. *)
Example local_run :
  let '(d, s) := prune_local_backups true true 0 30 feb_1 (fun _ => Unlinked)
                   {| files := local_files; journal := [] |} in
  files d = ["notes.txt"; jan "03"; "ecm-backup-x.zip"] /\ deleted s = 2%nat /\
  map (fun r => (au_filename r, au_reason r)) (journal d) = [(jan "02", last_n); (jan "01", age)].
Proof. vm_compute. split_and!; reflexivity. Qed.

(** A listing that names a file twice, as a store that allows equal names gives, defeats the
    floor: the second occurrence is pruned by the name of the first. *)
Example duplicate_listing_empties :
  let '(d, s) := prune_cloud_destination (Some [jan "01"; jan "01"]) (fun _ => Some true) "/" "drive"
                   true 1 30 feb_1 [] in
  files d = [] /\ deleted s = 1%nat.
Proof. vm_compute. split; reflexivity. Qed.

Lemma local_never_zero_witness :
  NoDup local_files /\
  let '(d, s) := prune_local_backups true true 0 30 feb_1 (fun _ => Unlinked)
                   {| files := local_files; journal := [] |} in
  deleted s = 2%nat /\ exists f, f ∈ files d /\ backup f.
Proof.
  assert (Hnd : NoDup local_files) by (apply (bool_decide_unpack _); vm_compute; exact I).
  split; [exact Hnd|].
  pose proof (local_never_zero true true 0 30 feb_1 (fun _ => Unlinked)
    {| files := local_files; journal := [] |} Hnd) as H.
  destruct (select_prunable _ _ _ _) as [kept pruned].
  destruct (prune_local_backups _ _ _ _ _ _ _) as [d s] eqn:E.
  destruct H as (_ & _ & _ & _ & H). split.
  - vm_compute in E. by injection E as <- <-.
  - apply H. exists (jan "01"). split; [left|]. split; [reflexivity|]. vm_compute. by eexists.
Defined.

Lemma cloud_never_zero_witness :
  NoDup (map path_name (default [] (Some local_files))) /\
  let '(d, s) := prune_cloud_destination (Some local_files) (fun _ => Some true) "/b/" "s3" true 1 30 feb_1 [] in
  exists f, f ∈ files d /\ backup f.
Proof.
  assert (Hnd : NoDup (map path_name (default [] (Some local_files))))
    by (apply (bool_decide_unpack _); vm_compute; exact I).
  split; [exact Hnd|].
  pose proof (cloud_never_zero (Some local_files) (fun _ => Some true) "/b/" "s3" true 1 30 feb_1 [] Hnd) as H.
  cbn zeta in H. destruct (select_prunable _ _ _ _) as [kept pruned].
  destruct (prune_cloud_destination _ _ _ _ _ _ _ _ _) as [d s] eqn:E.
  destruct H as (_ & _ & _ & _ & H). apply H. exists (jan "01").
  split; [apply (bool_decide_unpack _); vm_compute; exact I|]. split; [reflexivity|]. vm_compute. by eexists.
Defined.

End Retention.
