(* ===== verification/PipelineWritePlan.v ===== *)
(** * Recorded writes of a pipeline plan ([backend/services/pipeline_write_plan.py]).

    The planning client that records writes instead of making them, the validation of the
    read set, the replay with temporary ids remapped and its compensation, and the journal
    rows of a plan.  The service behind the client is a parameter: reads are functions of its
    state and a call answers with a new state.  Every copy the code takes is deep, so dicts
    are values here.  Stream and channel ids are [int]; text is ASCII. *)
From S2P Require Import Prelude PyFloat PyValue PyDict PyDatetime MutationPlanStore.
Open Scope Z_scope.

Module PipelineWritePlan.

(** What a call may raise; [Upstream] is what the service raised. *)
#[warnings="-register-all"]
Inductive error :=
| Upstream (message : string)
| AttributeError | TypeError | IndexError | KeyError | ValueError | OverflowError
| GroupNotFound (group_id : Z)
| ProfileNotFound (profile_id : Z)
| ChannelDrifted (raw_id : string)
| GroupDrifted (raw_id : string)
| ProfileDrifted (key : string)
| Unresolved (temp_id : Z)
| NoIdReturned (method : string)
| PartialReplay (failed_index : nat) (completed : list string)
    (compensation_errors : list (string * error)).
Abbreviation result := (result error).

Definition fields : Type := dict_of pyval.

(** The service behind the client. *)
Class Service (W : Type) := {
  get_channel : Z -> W -> result pyval;
  get_channel_groups : W -> result (list pyval);
  get_channel_profiles : W -> result (list pyval);
  call : string -> list pyval -> fields -> W -> W * result pyval;
}.

Definition PIPELINE_WRITE_METHODS : list string :=
  ["assign_channel_numbers"; "create_channel"; "create_channel_group"; "create_logo";
   "delete_channel"; "delete_channel_group"; "update_channel"; "update_profile_channel"].

Record planned_write := { method : string; args : list pyval; kwargs : fields }.

Record plan := {
  writes : list planned_write;
  channel_preconditions : dict_of fields;
  group_preconditions : dict_of fields;
  profile_preconditions : dict_of bool;
}.

Definition empty_plan : plan :=
  {| writes := []; channel_preconditions := []; group_preconditions := [];
     profile_preconditions := [] |}.

(** ** Reading Python values *)

(** [v.get(key)], [None] when absent. *)
Definition py_get (v : pyval) (key : string) : result pyval :=
  match v with PDict d => Ok (default PNone (d_get key d)) | _ => Raise AttributeError end.

(** [list(v or [])] *)
Definition list_or_empty (v : pyval) : result (list pyval) :=
  if negb (truthy v) then Ok []
  else match v with
       | PList l => Ok l
       | PStr s => Ok (map (fun c => PStr (String c EmptyString)) (String.list_ascii_of_string s))
       | PDict d => Ok (map (fun x => PStr x.1) d)
       | _ => Raise TypeError
       end.

(** [int(v)] *)
Definition int_of (v : pyval) : result Z :=
  match v with
  | PInt z => Ok z
  | PBool b => Ok (Z.b2z b)
  | PFloat f => if Float.is_finite f then Ok (Float.trunc f)
                else if Float.eqb f f then Raise OverflowError else Raise ValueError
  | PStr s => match py_int s with Some z => Ok z | None => Raise ValueError end
  | _ => Raise TypeError
  end.

(** [v > 0] *)
Definition positive_id (v : pyval) : result bool :=
  match v with
  | PInt z => Ok (0 <? z)
  | PBool b => Ok b
  | PFloat f => Ok (Float.ltb (Float.of_Z 0) f)
  | _ => Raise TypeError
  end.

(** An [int] used as an id. *)
Definition as_id (v : pyval) : result Z :=
  match v with PInt z => Ok z | _ => Raise TypeError end.

(** The ids among the [channels] of a profile: [{item.get("id") if isinstance(item, dict)
    else item for item in (profile.get("channels") or [])}]. *)
Definition member_id (item : pyval) : result pyval :=
  let! v := match item with PDict _ => py_get item "id" | _ => Ok item end in
  if hashable v then Ok v else Raise TypeError.

Definition members (profile : pyval) : result (list pyval) :=
  let! v := py_get profile "channels" in
  let! l := list_or_empty v in
  traverse member_id l.

Definition is_member (channel_id : Z) (ids : list pyval) : bool :=
  existsb (fun v => py_eq_int v channel_id) ids.

(** [next((item for item in l if item.get("id") == id), None)] *)
Fixpoint find_id (id : Z) (l : list pyval) : result (option pyval) :=
  match l with
  | [] => Ok None
  | item :: l' =>
      let! v := py_get item "id" in
      if py_eq_int v id then Ok (Some item) else find_id id l'
  end.

(** ** Accounting *)

(** An entity a write targets; a create is a target of its own. *)
Inductive target := TChannel (id : Z) | TGroup (id : Z) | TCreate (method : string) (index : nat).
#[export] Instance target_eq_dec : EqDecision target.
Proof. solve_decision. Defined.

Definition arg (n : nat) (w : planned_write) : result pyval :=
  match args w !! n with Some v => Ok v | None => Raise IndexError end.

Definition targets_of (index : nat) (w : planned_write) : result (list target) :=
  if bool_decide (method w = "assign_channel_numbers") then
    let! ids := arg 0 w in
    match ids with
    | PList l => traverse (fun v => let! id := as_id v in Ok (TChannel id)) l
    | _ => Raise TypeError
    end
  else if bool_decide (method w = "update_profile_channel") then
    let! v := arg 1 w in let! id := as_id v in Ok [TChannel id]
  else if bool_decide (method w ∈ ["update_channel"; "delete_channel"]) then
    let! v := arg 0 w in let! id := as_id v in Ok [TChannel id]
  else if bool_decide (method w = "delete_channel_group") then
    let! v := arg 0 w in let! id := as_id v in Ok [TGroup id]
  else Ok [TCreate (method w) index].

(** The write and the unique-target counts. *)
Definition accounting (p : plan) : result (nat * nat) :=
  let! l := traverse (fun x => targets_of x.1 x.2) (enumerate (writes p)) in
  Ok (length (writes p), length (remove_dups (List.concat l))).

(** ** The planning client *)

Record planner := {
  the_plan : plan;
  next_temp_id : Z;
  shadow : gmap Z fields;
}.

Definition new_planner : planner :=
  {| the_plan := empty_plan; next_temp_id := -1; shadow := ∅ |}.

(** What [_channel_before] keeps of a channel. *)
Definition relevant (channel_id : Z) (channel : pyval) : result fields :=
  let! name := py_get channel "name" in
  let! streams := py_get channel "streams" in
  let! stream_list := list_or_empty streams in
  let! group := py_get channel "channel_group_id" in
  let! logo := py_get channel "logo_id" in
  let! tvg := py_get channel "tvg_id" in
  let! number := py_get channel "channel_number" in
  let! profile := py_get channel "stream_profile_id" in
  let! epg := py_get channel "epg_data_id" in
  Ok [("id", PInt channel_id); ("name", name); ("streams", PList stream_list);
      ("channel_group_id", group); ("logo_id", logo); ("tvg_id", tvg);
      ("channel_number", number); ("stream_profile_id", profile); ("epg_data_id", epg)].

(** [d.setdefault(key, v)] *)
Definition d_setdefault {A} (key : string) (v : A) (d : dict_of A) : dict_of A :=
  if d_mem key d then d else d_set key v d.

Section planning.
Context {W : Type} `{Service W} (w : W).

(** A method of the planning client: it reads the service at [w] and never changes it. *)
Definition planning (A : Type) : Type := planner -> planner * result A.

Definition planned_get_channel (channel_id : Z) : planning pyval := fun p =>
  match shadow p !! channel_id with
  | Some d => (p, Ok (PDict d))
  | None => (p, get_channel channel_id w)
  end.

Definition channel_before (channel_id : Z) : planning fields := fun p =>
  match shadow p !! channel_id with
  | Some d => (p, Ok d)
  | None =>
      match (let! channel := get_channel channel_id w in relevant channel_id channel) with
      | Raise e => (p, Raise e)
      | Ok r =>
          ({| the_plan :=
                {| writes := writes (the_plan p);
                   channel_preconditions :=
                     d_setdefault (str_of_Z channel_id) r (channel_preconditions (the_plan p));
                   group_preconditions := group_preconditions (the_plan p);
                   profile_preconditions := profile_preconditions (the_plan p) |};
              next_temp_id := next_temp_id p;
              shadow := <[channel_id := r]> (shadow p) |}, Ok r)
      end
  end.

Definition with_plan (p : planner) (q : plan) : planner :=
  {| the_plan := q; next_temp_id := next_temp_id p; shadow := shadow p |}.

Definition with_shadow (p : planner) (s : gmap Z fields) : planner :=
  {| the_plan := the_plan p; next_temp_id := next_temp_id p; shadow := s |}.

(** [_record(method, *args)] *)
Definition record (m : string) (a : list pyval) (p : planner) : planner :=
  let q := the_plan p in
  with_plan p
    {| writes := writes q ++ [{| method := m; args := a; kwargs := [] |}];
       channel_preconditions := channel_preconditions q;
       group_preconditions := group_preconditions q;
       profile_preconditions := profile_preconditions q |}.

Definition take_temp_id (p : planner) : planner * Z :=
  ({| the_plan := the_plan p; next_temp_id := next_temp_id p - 1; shadow := shadow p |},
   next_temp_id p).

(** A step after a value of the planning client. *)
Definition then_ {A B} (m : planning A) (f : A -> planning B) : planning B := fun p =>
  match m p with
  | (p', Ok a) => f a p'
  | (p', Raise e) => (p', Raise e)
  end.

Definition planned_create_channel (data : fields) : planning fields := fun p =>
  let '(p, temp_id) := take_temp_id p in
  let created := d_update [("id", PInt temp_id)] data in
  let p := with_shadow p (<[temp_id := created]> (shadow p)) in
  (record "create_channel" [PDict data] p, Ok created).

Definition planned_create_channel_group (name : string) : planning fields := fun p =>
  let '(p, temp_id) := take_temp_id p in
  (record "create_channel_group" [PStr name] p, Ok [("id", PInt temp_id); ("name", PStr name)]).

Definition planned_create_logo (data : fields) : planning fields := fun p =>
  let '(p, temp_id) := take_temp_id p in
  (record "create_logo" [PDict data] p, Ok (d_update [("id", PInt temp_id)] data)).

Definition planned_update_channel (channel_id : Z) (data : fields) : planning fields :=
  then_ (channel_before channel_id) (fun current p =>
    let current := d_update current data in
    let p := with_shadow p (<[channel_id := current]> (shadow p)) in
    (record "update_channel" [PInt channel_id; PDict data] p, Ok current)).

Definition planned_delete_channel (channel_id : Z) : planning unit :=
  then_ (channel_before channel_id) (fun _ p =>
    let p := record "delete_channel" [PInt channel_id] p in
    (with_shadow p (delete channel_id (shadow p)), Ok tt)).

Definition planned_delete_channel_group (group_id : Z) : planning unit := fun p =>
  match (let! groups := get_channel_groups w in
         let! group := find_id group_id groups in
         match group with
         | None => Raise (GroupNotFound group_id)
         | Some g => py_get g "name"
         end) with
  | Raise e => (p, Raise e)
  | Ok name =>
      let q := the_plan p in
      let p := with_plan p
        {| writes := writes q; channel_preconditions := channel_preconditions q;
           group_preconditions := d_set (str_of_Z group_id)
             [("id", PInt group_id); ("name", name)] (group_preconditions q);
           profile_preconditions := profile_preconditions q |} in
      (record "delete_channel_group" [PInt group_id] p, Ok tt)
  end.

Fixpoint channels_before (ids : list Z) : planning unit :=
  match ids with
  | [] => fun p => (p, Ok tt)
  | id :: ids' => then_ (channel_before id) (fun _ => channels_before ids')
  end.

Definition planned_assign_channel_numbers (ids : list Z) (starting_number : pyval)
    : planning fields :=
  then_ (channels_before ids) (fun _ p =>
    (record "assign_channel_numbers" [PList (map PInt ids); starting_number] p,
     Ok [("status", PStr "planned")])).

Definition membership_key (profile_id channel_id : Z) : string :=
  String.concat ":" [str_of_Z profile_id; str_of_Z channel_id].

Definition planned_update_profile_channel (profile_id channel_id : Z) (data : fields)
    : planning fields :=
  then_ (channel_before channel_id) (fun _ p =>
    match (let! profiles := get_channel_profiles w in
           let! profile := find_id profile_id profiles in
           match profile with
           | None => Raise (ProfileNotFound profile_id)
           | Some pr => members pr
           end) with
    | Raise e => (p, Raise e)
    | Ok ids =>
        let q := the_plan p in
        let p := with_plan p
          {| writes := writes q; channel_preconditions := channel_preconditions q;
             group_preconditions := group_preconditions q;
             profile_preconditions := d_set (membership_key profile_id channel_id)
               (is_member channel_id ids) (profile_preconditions q) |} in
        (record "update_profile_channel" [PInt profile_id; PInt channel_id; PDict data] p, Ok data)
    end).

End planning.

(** ** Validation *)

Section replay.
Context {W : Type} `{Service W} (sha256 : string -> string).

Definition canonical_hash (v : pyval) : string := MutationPlanStore.canonical_hash sha256 v.

(** [raise e] unless [b]. *)
Definition require (b : bool) (e : error) : result unit := if b then Ok tt else Raise e.

(** [{key: current.get(key) for key in expected if key != "id"}], then [id]. *)
Definition actual_of (id : Z) (current : pyval) (expected : fields) : result fields :=
  let! l := traverse (fun x => let! v := py_get current x.1 in Ok (x.1, v))
              (List.filter (fun x => negb (bool_decide (x.1 = "id"))) expected) in
  Ok (l ++ [("id", PInt id)]).

Definition validate_channel (w : W) (x : string * fields) : result unit :=
  let '(raw_id, expected) := x in
  let! id := int_of (PStr raw_id) in
  let! current := get_channel id w in
  let! actual := actual_of id current expected in
  require (bool_decide (canonical_hash (PDict actual) = canonical_hash (PDict expected)))
    (ChannelDrifted raw_id).

(** The last item of [l] under the key [id] of a dict built from them. *)
Fixpoint last_under (same : pyval -> bool) (l : list pyval) : result (option pyval) :=
  match l with
  | [] => Ok None
  | item :: l' =>
      let! v := py_get item "id" in
      let! later := last_under same l' in
      Ok (match later with Some _ => later | None => if same v then Some item else None end)
  end.

(** [a == b] for the names of groups. *)
Definition same_name (a b : pyval) : bool :=
  match a, b with
  | PNone, PNone => true
  | PStr s, PStr t => bool_decide (s = t)
  | _, _ => false
  end.

Definition validate_group (groups : list pyval) (x : string * fields) : result unit :=
  let '(raw_id, expected) := x in
  let! current := last_under (fun v => bool_decide (py_str v = raw_id)) groups in
  match current with
  | None => Raise (GroupDrifted raw_id)
  | Some g =>
      let! name := py_get g "name" in
      let! planned := py_get (PDict expected) "name" in
      require (same_name name planned) (GroupDrifted raw_id)
  end.

Definition colon : Ascii.ascii := Ascii.ascii_of_nat 58.

Definition validate_profile (profiles : list pyval) (x : string * bool) : result unit :=
  let '(key, expected) := x in
  let! parts := traverse (fun s => int_of (PStr s)) (split_on colon key) in
  match parts with
  | [profile_id; channel_id] =>
      let! profile := last_under (fun v => py_eq_int v profile_id) profiles in
      let! ids := match profile with
                  | Some pr => if truthy pr then members pr else Ok []
                  | None => Ok []
                  end in
      require (Bool.eqb (is_member channel_id ids) expected) (ProfileDrifted key)
  | _ => Raise ValueError
  end.

Definition validate_read_set (p : plan) (w : W) : result unit :=
  let! _ := traverse (validate_channel w) (channel_preconditions p) in
  let! _ :=
    match group_preconditions p with
    | [] => Ok []
    | _ => let! groups := get_channel_groups w in
           traverse (validate_group groups) (group_preconditions p)
    end in
  let! _ :=
    match profile_preconditions p with
    | [] => Ok []
    | _ => let! profiles := get_channel_profiles w in
           let! _ := traverse (fun item => let! v := py_get item "id" in
                                require (hashable v) TypeError) profiles in
           traverse (validate_profile profiles) (profile_preconditions p)
    end in
  Ok tt.

(** ** Replay *)

(** [mapped(value)]: every negative [int] stands for a created entity. *)
Fixpoint mapped (remap : gmap Z Z) (v : pyval) : result pyval :=
  match v with
  | PInt z =>
      if z <? 0 then
        match remap !! z with Some real => Ok (PInt real) | None => Raise (Unresolved z) end
      else Ok v
  | PList l => let! l' := traverse (mapped remap) l in Ok (PList l')
  | PDict d =>
      let! d' := traverse (fun x => let! y := mapped remap x.2 in Ok (x.1, y)) d in Ok (PDict d')
  | _ => Ok v
  end.

Definition mapped_args (remap : gmap Z Z) (l : list pyval) : result (list pyval) :=
  traverse (mapped remap) l.

Definition mapped_kwargs (remap : gmap Z Z) (d : fields) : result fields :=
  traverse (fun x => let! y := mapped remap x.2 in Ok (x.1, y)) d.

Definition is_create (m : string) : bool := String.prefix "create_" m.

Record replaying := {
  world : W;
  remap : gmap Z Z;
  next_temp : Z;
  completed : list (planned_write * list pyval * pyval);
}.

Definition with_world (st : replaying) (w : W) : replaying :=
  {| world := w; remap := remap st; next_temp := next_temp st; completed := completed st |}.

(** The id a create answered with. *)
Definition created_id (m : string) (value : pyval) : result Z :=
  let! id := match value with PDict _ => py_get value "id" | _ => Ok PNone end in
  match id with PNone => Raise (NoIdReturned m) | _ => int_of id end.

(** One iteration of the replay loop. *)
Definition replay_one (st : replaying) (wr : planned_write) : replaying * result unit :=
  match (let! a := mapped_args (remap st) (args wr) in
         let! k := mapped_kwargs (remap st) (kwargs wr) in Ok (a, k)) with
  | Raise e => (st, Raise e)
  | Ok (a, k) =>
      let '(w, answer) := call (method wr) a k (world st) in
      let st := with_world st w in
      match answer with
      | Raise e => (st, Raise e)
      | Ok value =>
          let done remap next_temp :=
            {| world := w; remap := remap; next_temp := next_temp;
               completed := completed st ++ [(wr, a, value)] |} in
          if is_create (method wr) then
            match created_id (method wr) value with
            | Raise e => (st, Raise e)
            | Ok real => (done (<[next_temp st := real]> (remap st)) (next_temp st - 1), Ok tt)
            end
          else (done (remap st) (next_temp st), Ok tt)
      end
  end.

Fixpoint replay_loop (st : replaying) (l : list planned_write) : replaying * result unit :=
  match l with
  | [] => (st, Ok tt)
  | wr :: l' =>
      match replay_one st wr with
      | (st, Ok _) => replay_loop st l'
      | (st, Raise e) => (st, Raise e)
      end
  end.

(** The undoing of one completed write. *)
Definition compensate_one (p : plan) (w : W) (x : planned_write * list pyval * pyval)
    : W * result unit :=
  let '(wr, a, value) := x in
  let made := match value with
              | PDict d => match d_get "id" d with Some v => Ok v | None => Raise KeyError end
              | _ => Raise TypeError
              end in
  let settle (x : W * result pyval) : W * result unit :=
    (x.1, let! _ := x.2 in Ok tt) in
  if bool_decide (method wr = "create_channel") then
    match made with Raise e => (w, Raise e) | Ok id => settle (call "delete_channel" [id] [] w) end
  else if bool_decide (method wr = "create_channel_group") then
    match made with
    | Raise e => (w, Raise e)
    | Ok id => settle (call "delete_channel_group" [id] [] w)
    end
  else if bool_decide (method wr = "update_channel") then
    match (let! id := match a with v :: _ => Ok v | [] => Raise IndexError end in
           let! positive := positive_id id in Ok (id, positive)) with
    | Raise e => (w, Raise e)
    | Ok (id, positive) =>
        if negb positive then (w, Ok tt)
        else match d_get (py_str id) (channel_preconditions p) with
             | Some ((_ :: _) as before) =>
                 settle (call "update_channel"
                           [id; PDict (List.filter (fun x => negb (bool_decide (x.1 = "id"))) before)]
                           [] w)
             | _ => (w, Ok tt)
             end
    end
  else (w, Ok tt).

Definition compensate_step (p : plan) (acc : W * list (string * error))
    (x : planned_write * list pyval * pyval) : W * list (string * error) :=
  let '(w, errors) := acc in
  match compensate_one p w x with
  | (w, Ok _) => (w, errors)
  | (w, Raise e) => (w, errors ++ [(method x.1.1, e)])
  end.

Definition compensate (p : plan) (done : list (planned_write * list pyval * pyval)) (w : W)
    : W * list (string * error) :=
  fold_left (compensate_step p) (reverse done) (w, []).

Definition completed_target (x : planned_write * list pyval * pyval) : string :=
  String.concat ":" [method x.1.1; match x.1.2 with v :: _ => py_str v | [] => "<no-arg>" end].

Definition start (w : W) : replaying :=
  {| world := w; remap := ∅; next_temp := -1; completed := [] |}.

(** The results of the writes and the remapping, or the error, and the service after it. *)
Definition replay_write_plan (p : plan) (read_set_validated : bool) (w : W)
    : W * result (list pyval * gmap Z Z) :=
  match (if read_set_validated then Ok tt else validate_read_set p w) with
  | Raise e => (w, Raise e)
  | Ok _ =>
      match replay_loop (start w) (writes p) with
      | (st, Ok _) => (world st, Ok (map snd (completed st), remap st))
      | (st, Raise _) =>
          let '(w, errors) := compensate p (completed st) (world st) in
          (w, Raise (PartialReplay (length (completed st))
                       (map completed_target (completed st)) errors))
      end
  end.

End replay.

(** ** Journal rows *)

Record entry := {
  action_type : string;
  entity_id : pyval;
  entity_name : pyval;
  description : string;
  before_value : pyval;
  after_value : pyval;
  batch_id : string;
}.

Definition text (l : list string) : string := String.concat "" l.

Definition ints (l : list Z) : pyval := PList (map PInt l).

(** [set(v or [])] of stream ids, in increasing order. *)
Definition stream_set (v : pyval) : result (list Z) :=
  let! l := list_or_empty v in
  let! ids := traverse as_id l in
  Ok (py_sorted Z.leb (remove_dups ids)).

(** [sorted(a - b)] *)
Definition set_minus (a b : list Z) : list Z := List.filter (fun x => negb (bool_decide (x ∈ b))) a.

(** [remap.get(v, v)] *)
Definition resolve (remap : gmap Z Z) (v : pyval) : result pyval :=
  if hashable v then
    match v with PInt z => Ok (PInt (default z (remap !! z))) | _ => Ok v end
  else Raise TypeError.

(** [shadow.get(v)] *)
Definition shadow_get (s : gmap Z fields) (v : pyval) : option fields :=
  match v with PInt z => s !! z | _ => None end.

Definition get_field (key : string) (d : fields) : pyval := default PNone (d_get key d).

Record journalling := {
  rows : list entry;
  shadows : gmap Z fields;
  next_created : Z;
}.

Section journal.
Context (p : plan) (remap : gmap Z Z) (execution_id : Z).

Definition row (action : string) (id name : pyval) (desc : string) (before after : pyval) : entry :=
  {| action_type := action; entity_id := id; entity_name := name; description := desc;
     before_value := before; after_value := after; batch_id := str_of_Z execution_id |}.

Definition executed (m : string) (id : pyval) : string :=
  text ["Planned pipeline executed "; m; " for "; py_str id].

Definition journal_create (st : journalling) (w : planned_write) : journalling :=
  let m := method w in
  let id := default (next_created st) (remap !! next_created st) in
  let payload := match args w with v :: _ => v | [] => PDict [] end in
  let name := match payload with PDict d => get_field "name" d | _ => PStr (py_str payload) end in
  {| rows := rows st ++ [row m (PInt id) name (executed m (PInt id)) PNone payload];
     shadows :=
       match payload with
       | PDict d => if bool_decide (m = "create_channel")
                    then <[id := d_update [("id", PInt id)] d]> (shadows st) else shadows st
       | _ => shadows st
       end;
     next_created := next_created st - 1 |}.

(** One channel of a bulk numbering. *)
Definition journal_number (starting_number : pyval) (st : journalling) (index : nat) (v : pyval)
    : result journalling :=
  let! raw := as_id v in
  let id := default raw (remap !! raw) in
  let before := default [] (shadows st !! id) in
  let! new := match starting_number with
              | PNone => Ok PNone
              | n => match py_add n (PInt (Z.of_nat index)) with
                     | Some v => Ok v | None => Raise TypeError
                     end
              end in
  Ok {| rows := rows st ++
          [row "assign_channel_number" (PInt id) (get_field "name" before)
             "Planned pipeline assigned channel number"
             (PDict [("channel_number", get_field "channel_number" before)])
             (PDict [("channel_number", new)])];
        shadows := <[id := d_set "channel_number" new before]> (shadows st);
        next_created := next_created st |}.

Definition journal_assign (st : journalling) (w : planned_write) : result journalling :=
  let! starting_number := arg 1 w in
  let! ids := arg 0 w in
  match ids with
  | PList l => foldM (fun st x => journal_number starting_number st x.1 x.2) st (enumerate l)
  | _ => Raise TypeError
  end.

Definition journal_profile (st : journalling) (w : planned_write) : result journalling :=
  match args w with
  | [profile_id; raw_id; payload] =>
      let! id := resolve remap raw_id in
      Ok {| rows := rows st ++
              [row "assign_channel_profile" id PNone
                 (text ["Planned pipeline updated profile "; py_str profile_id; " membership"])
                 (PDict [("profile_id", profile_id)]) payload];
            shadows := shadows st; next_created := next_created st |}
  | _ => Raise ValueError
  end.

Definition merge_row (id name : pyval) (old : list Z) (stream : Z) : entry :=
  row "merge_stream" id name
    (text ["Planned pipeline attached stream "; str_of_Z stream; " to channel "; py_str id])
    (PDict [("stream_ids", ints old)]) (PDict [("stream_id", PInt stream)]).

Definition remove_row (id name : pyval) (new : list Z) (stream : Z) : entry :=
  row "remove_stream" id name
    (text ["Planned pipeline removed stream "; str_of_Z stream; " from channel "; py_str id])
    (PDict [("stream_id", PInt stream)]) (PDict [("stream_ids", ints new)]).

(** The rows of an update that sets [streams]. *)
Definition update_rows (id : pyval) (before payload : fields) : result (list entry) :=
  let name := get_field "name" before in
  let! old := stream_set (get_field "streams" before) in
  let! new := stream_set (get_field "streams" payload) in
  let remaining := List.filter (fun x => negb (bool_decide (x.1 = "streams"))) payload in
  Ok (map (merge_row id name old) (set_minus new old) ++
      map (remove_row id name new) (set_minus old new) ++
      match remaining with
      | [] => []
      | _ => [row "update_channel" id name (text ["Planned pipeline updated channel "; py_str id])
                (PDict before) (PDict remaining)]
      end).

Definition journal_other (st : journalling) (w : planned_write) : result journalling :=
  let m := method w in
  let raw_id := match args w with v :: _ => v | [] => PNone end in
  let! id := resolve remap raw_id in
  let before := match shadow_get (shadows st) id with
                | Some d => d
                | None => default [] (d_get (py_str raw_id) (channel_preconditions p))
                end in
  let payload := match args w with _ :: v :: _ => v | _ => PNone end in
  let streams_of_update :=
    match payload with
    | PDict d => if bool_decide (m = "update_channel") && d_mem "streams" d then Some d else None
    | _ => None
    end in
  let! new_rows :=
    match streams_of_update with
    | Some d => update_rows id before d
    | None => Ok [row m id (get_field "name" before) (executed m id) (PDict before) payload]
    end in
  let! shadows' :=
    match payload with
    | PDict d =>
        if bool_decide (m = "update_channel") then
          let! z := as_id id in Ok (<[z := d_update before d]> (shadows st))
        else if bool_decide (m = "delete_channel") then
          let! z := as_id id in Ok (delete z (shadows st))
        else Ok (shadows st)
    | _ => if bool_decide (m = "delete_channel") then
             let! z := as_id id in Ok (delete z (shadows st))
           else Ok (shadows st)
    end in
  Ok {| rows := rows st ++ new_rows; shadows := shadows'; next_created := next_created st |}.

Definition journal_one (st : journalling) (w : planned_write) : result journalling :=
  if is_create (method w) then Ok (journal_create st w)
  else if bool_decide (method w = "assign_channel_numbers") then journal_assign st w
  else if bool_decide (method w = "update_profile_channel") then journal_profile st w
  else journal_other st w.

(** [{int(channel_id): value for ...}] *)
Definition initial_shadows : result (gmap Z fields) :=
  foldM (fun s x => let! id := int_of (PStr x.1) in Ok (<[id := x.2]> s)) ∅
    (channel_preconditions p).

Definition journal_entries_for_plan : result (list entry) :=
  let! s := initial_shadows in
  let! st := foldM journal_one {| rows := []; shadows := s; next_created := -1 |} (writes p) in
  Ok (rows st).

End journal.

(** ** What the service promises *)

(** The keys of a channel that a call other than on a channel writes. *)
Definition written_keys (m : string) : list string :=
  if bool_decide (m = "assign_channel_numbers") then ["channel_number"]
  else if bool_decide (m = "delete_channel_group") then ["channel_group_id"] else [].

(** Equal but for the id and the keys of [K]. *)
Definition same_outside (K : list string) (c c' : fields) : Prop :=
  forall k, k <> "id" -> k ∉ K -> d_get k c = d_get k c'.

(** The documented behaviour the replay relies on: a create stores its data under a fresh
    positive id, an update replaces the keys it is given, a delete removes the channel, and
    the other calls write no channel beyond [written_keys]. *)
Class Dispatcharr (W : Type) `{Service W} := {
  channel_of : W -> Z -> option fields;
  channel_positive : forall w id c, channel_of w id = Some c -> 0 < id;
  get_channel_spec : forall w id v,
    get_channel id w = Ok v -> exists c, v = PDict c /\ channel_of w id = Some c;
  create_spec : forall w data w' v,
    NoDup (keys data) -> call "create_channel" [PDict data] [] w = (w', Ok v) ->
    exists d id c, v = PDict d /\ d_get "id" d = Some (PInt id) /\ channel_of w id = None /\
      channel_of w' id = Some c /\
      (forall k x, k <> "id" -> d_get k data = Some x -> d_get k c = Some x) /\
      (forall id', id' <> id -> channel_of w' id' = channel_of w id');
  update_spec : forall w id data w' v,
    NoDup (keys data) -> call "update_channel" [PInt id; PDict data] [] w = (w', Ok v) ->
    exists c c', channel_of w id = Some c /\ channel_of w' id = Some c' /\
      (forall k, k <> "id" -> d_get k c' = match d_get k data with Some x => Some x | None => d_get k c end) /\
      (forall id', id' <> id -> channel_of w' id' = channel_of w id');
  delete_spec : forall w id w' v,
    call "delete_channel" [PInt id] [] w = (w', Ok v) ->
    channel_of w' id = None /\ (forall id', id' <> id -> channel_of w' id' = channel_of w id');
  other_spec : forall m a k w w' v,
    m ∉ ["create_channel"; "update_channel"; "delete_channel"] -> call m a k w = (w', Ok v) ->
    forall id, match channel_of w id, channel_of w' id with
               | Some c, Some c' => same_outside (written_keys m) c c'
               | None, None => True
               | _, _ => False
               end;
}.

(** ** Operations of a planning run *)

Inductive op :=
| CreateChannel (data : fields)
| CreateGroup (name : string)
| CreateLogo (data : fields)
| UpdateChannel (id : Z) (data : fields)
| DeleteChannel (id : Z)
| DeleteGroup (id : Z)
| AssignNumbers (ids : list Z) (starting_number : pyval)
| UpdateProfile (profile_id id : Z) (data : fields).

(** The planner after a call; the run goes on after one that raised. *)
Definition plan_op {W} `{Service W} (w : W) (p : planner) (o : op) : planner :=
  match o with
  | CreateChannel data => (planned_create_channel data p).1
  | CreateGroup name => (planned_create_channel_group name p).1
  | CreateLogo data => (planned_create_logo data p).1
  | UpdateChannel id data => (planned_update_channel w id data p).1
  | DeleteChannel id => (planned_delete_channel w id p).1
  | DeleteGroup id => (planned_delete_channel_group w id p).1
  | AssignNumbers ids n => (planned_assign_channel_numbers w ids n p).1
  | UpdateProfile profile_id id data => (planned_update_profile_channel w profile_id id data p).1
  end.

Definition run_plan {W} `{Service W} (w : W) (ops : list op) : planner :=
  fold_left (plan_op w) ops new_planner.

(** The channels an operation reads or writes. *)
Definition touched (o : op) : list Z :=
  match o with
  | UpdateChannel id _ | DeleteChannel id | UpdateProfile _ id _ => [id]
  | AssignNumbers ids _ => ids
  | _ => []
  end.

(** A dict has each key once. *)
Definition op_dict (o : op) : Prop :=
  match o with
  | CreateChannel data | UpdateChannel _ data => NoDup (keys data)
  | _ => True
  end.

Definition deleted_by (o : op) : list Z := match o with DeleteChannel id => [id] | _ => [] end.

(** No operation touches a channel an earlier one deleted. *)
Definition no_reuse (ops : list op) : Prop :=
  forall l o l', ops = l ++ o :: l' -> forall id, id ∈ List.concat (map deleted_by l) -> id ∉ touched o.

(** The keys of a channel the run writes past its shadow. *)
Definition unshadowed (ops : list op) : list string :=
  List.concat (map (fun o => match o with
                             | AssignNumbers _ _ => ["channel_number"]
                             | DeleteGroup _ => ["channel_group_id"]
                             | _ => []
                             end) ops).

(** ** A service that keeps the promises *)

Module Demo.
Abbreviation state := (gmap Z (dict_of pyval)).

Definition top (w : state) : Z := map_fold (fun k _ m => Z.max k m) 0 w.

Definition lookup_channel (w : state) (id : Z) : option fields :=
  if 0 <? id then w !! id else None.

Definition demo_call (m : string) (a : list pyval) (w : state) : state * result pyval :=
  match a with
  | [PDict d] =>
      if bool_decide (m = "create_channel") then
        let id := top w + 1 in
        let c := d_set "id" (PInt id) d in (<[id := c]> w, Ok (PDict c))
      else (w, Ok (PDict [("id", PInt 50)]))
  | [PInt id; PDict d] =>
      if bool_decide (m = "update_channel") then
        match lookup_channel w id with
        | Some c => if d_mem "reject" d then (w, Raise (Upstream "400"))
                    else (<[id := d_update c d]> w, Ok (PDict (d_update c d)))
        | None => (w, Raise (Upstream "404"))
        end
      else (w, Ok PNone)
  | [PInt id] =>
      if bool_decide (m = "delete_channel") then
        match lookup_channel w id with
        | Some _ => (delete id w, Ok PNone)
        | None => (w, Raise (Upstream "404"))
        end
      else (w, Ok PNone)
  | _ => (w, if is_create m then Ok (PDict [("id", PInt 60)]) else Ok PNone)
  end.

#[export] Instance service : Service state := {
  get_channel id w := match lookup_channel w id with
                      | Some c => Ok (PDict c) | None => Raise (Upstream "404") end;
  get_channel_groups _ := Ok [PDict [("id", PInt 4); ("name", PStr "Sports")]];
  get_channel_profiles _ := Ok [PDict [("id", PInt 2); ("channels", PList [PInt 7])]];
  call m a _ w := demo_call m a w;
}.

Lemma top_spec (w : state) : 0 <= top w /\ forall id c, w !! id = Some c -> id <= top w.
Proof.
  unfold top. apply (map_fold_weak_ind (fun m w => 0 <= m /\ forall id c, w !! id = Some c -> id <= m)).
  - split; [lia|]. intros id c. by rewrite lookup_empty.
  - intros k c m r _ [H0 IH]. split; [lia|].
    intros id c' [[<- <-]|[_ Hid]]%lookup_insert_Some; [lia|]. apply IH in Hid. lia.
Qed.

#[export] Instance dispatcharr : Dispatcharr state.
Proof.
  refine {| channel_of := lookup_channel |}.
  - intros w id c. unfold lookup_channel. destruct (0 <? id) eqn:E; [by to_prop|done].
  - cbn. intros w id v. destruct (lookup_channel w id) as [c|]; [|done]. intros [= <-]. by exists c.
  - cbn. intros w data w' v _ H. rewrite bool_decide_true in H by done. injection H as <- <-.
    destruct (top_spec w) as [H0 Htop]. set (id := top w + 1).
    exists (d_set "id" (PInt id) data), id, (d_set "id" (PInt id) data).
    assert (Hpos : (0 <? id) = true) by (unfold id; apply Z.ltb_lt; lia).
    split_and!; [done|apply d_get_set_same| | | |].
    + unfold lookup_channel. rewrite Hpos. destruct (w !! id) eqn:E; [|done]. apply Htop in E. lia.
    + unfold lookup_channel. by rewrite Hpos, lookup_insert_eq.
    + intros k x Hk Hg. by rewrite d_get_set, bool_decide_false.
    + intros id' Hne. unfold lookup_channel. by rewrite lookup_insert_ne by done.
  - cbn. intros w id data w' v Hnd H. rewrite bool_decide_true in H by done.
    destruct (lookup_channel w id) as [c|] eqn:Ec; [|done].
    destruct (d_mem "reject" data); [done|]. injection H as <- <-.
    exists c, (d_update c data). unfold lookup_channel in *. destruct (0 <? id) eqn:E; [|done].
    split_and!; [done|by rewrite lookup_insert_eq| |].
    + intros k _. by apply d_get_update.
    + intros id' Hne. by rewrite lookup_insert_ne by done.
  - cbn. intros w id w' v H. rewrite bool_decide_true in H by done.
    destruct (lookup_channel w id) as [c|] eqn:Ec; [|done]. injection H as <- <-.
    split; [|intros id' Hne]; unfold lookup_channel.
    + rewrite lookup_delete_eq. by destruct (0 <? id).
    + by rewrite lookup_delete_ne by done.
  - cbn. intros m a k w w' v Hm H id.
    assert (w' = w) as ->.
    { apply not_elem_of_cons in Hm as [H1 Hm]. apply not_elem_of_cons in Hm as [H2 Hm].
      apply not_elem_of_cons in Hm as [H3 _]. unfold demo_call in H.
      rewrite !bool_decide_false in H by done. repeat case_match; simplify_eq; done. }
    destruct (lookup_channel w id); [|done]. by intros ? ? ?.
Defined.
End Demo.

(** ** Stream rows *)

Lemma stream_set_spec v raw l :
  list_or_empty v = Ok raw -> stream_set v = Ok l ->
  exists ids, raw = map PInt ids /\ NoDup l /\ forall z, z ∈ l <-> z ∈ ids.
Proof.
  unfold stream_set. intros ->. cbn [rbind].
  destruct (traverse as_id raw) as [ids|] eqn:E; [|done]. intros [= <-]. exists ids. split_and!.
  - apply traverse_Ok in E. induction E as [|x y raw ids Hxy E IH]; [done|].
    cbn. rewrite IH. f_equal. destruct x; try done. cbn in Hxy. by simplify_eq.
  - rewrite py_sorted_perm. apply NoDup_remove_dups.
  - intros z. by rewrite elem_of_py_sorted, elem_of_remove_dups.
Qed.

Lemma elem_of_ints v l : v ∈ map PInt l <-> exists z, v = PInt z /\ z ∈ l.
Proof. apply elem_of_map. Qed.

Lemma elem_of_set_minus z a b : z ∈ set_minus a b <-> z ∈ a /\ z ∉ b.
Proof. unfold set_minus. by rewrite elem_of_list_filter, negb_true_iff, bool_decide_eq_false. Qed.

#[export] Instance PInt_inj : Inj eq eq PInt.
Proof. by intros ? ? [= ->]. Qed.

Lemma elem_of_ints_dec v l : v ∈ map PInt l \/ v ∉ map PInt l.
Proof.
  destruct v; try (right; intros (? & ? & _)%elem_of_ints; done).
  destruct (decide (z ∈ l)) as [Hz|Hz]; [left; apply elem_of_ints; by exists z|right].
  by intros (? & [= <-] & ?)%elem_of_ints.
Qed.

Lemma ints_minus a b as_ bs v :
  (forall z, z ∈ a <-> z ∈ as_) -> (forall z, z ∈ b <-> z ∈ bs) ->
  v ∈ map PInt (set_minus a b) <-> v ∈ map PInt as_ /\ v ∉ map PInt bs.
Proof.
  intros Ha Hb. rewrite !elem_of_ints. split.
  - intros (z & -> & [Hz1 Hz2]%elem_of_set_minus). split; [exists z; by rewrite <- Ha|].
    intros (z' & [= <-] & Hz'). by apply Hz2, Hb.
  - intros [(z & -> & Hz) Hn]. exists z. split; [done|]. apply elem_of_set_minus.
    split; [by apply Ha|]. intros Hz'. apply Hn. exists z. by rewrite <- Hb.
Qed.

(** The stream a row of [action] names in the value [side]. *)
Definition row_stream (action : string) (side : entry -> pyval) (e : entry) : option pyval :=
  if bool_decide (action_type e = action)
  then match side e with PDict [("stream_id", v)] => Some v | _ => None end else None.

Lemma row_streams_merge rm eid id name old l :
  omap (row_stream "merge_stream" after_value) (map (merge_row eid id name old) l) = map PInt l /\
  omap (row_stream "remove_stream" before_value) (map (merge_row eid id name old) l) = [] /\
  omap (row_stream "merge_stream" after_value) (map (remove_row eid id name rm) l) = [] /\
  omap (row_stream "remove_stream" before_value) (map (remove_row eid id name rm) l) = map PInt l.
Proof. induction l as [|z l (IH1 & IH2 & IH3 & IH4)]; [done|]. cbn. by rewrite IH1, IH2, IH3, IH4. Qed.

(** The rows of an update that sets streams account for it.  A stream is named by a
    [merge_stream] row exactly when the payload has it and the channel did not, by a
    [remove_stream] row exactly when the channel had it and the payload does not, each by
    at most one row, so that the rows take the old streams to the new ones. *)
Theorem stream_rows_account execution_id id before payload old new rows :
  update_rows execution_id id before payload = Ok rows ->
  list_or_empty (get_field "streams" before) = Ok old ->
  list_or_empty (get_field "streams" payload) = Ok new ->
  let merged := omap (row_stream "merge_stream" after_value) rows in
  let removed := omap (row_stream "remove_stream" before_value) rows in
  NoDup merged /\ NoDup removed /\
  (forall v, v ∈ merged <-> v ∈ new /\ v ∉ old) /\ (forall v, v ∈ removed <-> v ∈ old /\ v ∉ new) /\
  forall v, v ∈ new <-> (v ∈ old \/ v ∈ merged) /\ v ∉ removed.
Proof.
  intros Hr Hold Hnew merged removed. unfold update_rows in Hr.
  destruct (stream_set (get_field "streams" before)) as [o|] eqn:Eo; [|done]. cbn [rbind] in Hr.
  destruct (stream_set (get_field "streams" payload)) as [n|] eqn:En; [|done]. cbn [rbind] in Hr.
  destruct (stream_set_spec _ _ _ Hold Eo) as (os & -> & Hno & Ho).
  destruct (stream_set_spec _ _ _ Hnew En) as (ns & -> & Hnn & Hn).
  assert (Hmr : merged = map PInt (set_minus n o) /\ removed = map PInt (set_minus o n)).
  { subst merged removed. injection Hr as <-. rewrite !omap_app.
    destruct (row_streams_merge n execution_id id (get_field "name" before) o (set_minus n o))
      as (-> & -> & _ & _).
    destruct (row_streams_merge n execution_id id (get_field "name" before) o (set_minus o n))
      as (_ & _ & -> & ->).
    destruct (List.filter _ payload); by rewrite ?app_nil_r. }
  destruct Hmr as [-> ->].
  assert (Hmerged := fun v => ints_minus n o ns os v Hn Ho).
  assert (Hremoved := fun v => ints_minus o n os ns v Ho Hn).
  split_and!.
  - apply (NoDup_fmap_2 PInt), list_NoDup_filter, Hnn.
  - apply (NoDup_fmap_2 PInt), list_NoDup_filter, Hno.
  - exact Hmerged.
  - exact Hremoved.
  - intros v. rewrite Hmerged, Hremoved.
    destruct (elem_of_ints_dec v os), (elem_of_ints_dec v ns); tauto.
Qed.

(** ** Concrete runs *)

Import Demo.

Definition seven : fields :=
  [("id", PInt 7); ("name", PStr "Old"); ("streams", PList [PInt 1; PInt 2]);
   ("channel_number", PInt 40); ("custom_properties", PDict [("color", PStr "red")])].
Definition demo_world : state := {[7 := seven]}.

Lemma stream_rows_account_witness :
  exists rows,
    update_rows 1 (PInt 7) seven [("streams", PList [PInt 2; PInt 3])] = Ok rows /\
    forall v, v ∈ omap (row_stream "merge_stream" after_value) rows <->
      v ∈ [PInt 2; PInt 3] /\ v ∉ [PInt 1; PInt 2].
Proof.
  destruct (update_rows 1 (PInt 7) seven [("streams", PList [PInt 2; PInt 3])]) as [rows|e] eqn:E;
    [|by vm_compute in E].
  exists rows. split; [done|].
  pose proof (stream_rows_account 1 (PInt 7) seven [("streams", PList [PInt 2; PInt 3])]
    [PInt 1; PInt 2] [PInt 2; PInt 3] rows E eq_refl eq_refl) as (_ & _ & H & _).
  exact H.
Defined.

(** *** What the shadow misses *)

(** Once a channel is in the shadow a read of it answers only the snapshot's keys, so its
    [custom_properties] are no longer there to merge into. *)
Example shadowed_read_drops_custom_properties :
  let '(p, _) := planned_update_profile_channel demo_world 2 7 [("enabled", PBool true)] new_planner in
  let '(_, r) := planned_get_channel demo_world 7 p in
  r = Ok (PDict [("id", PInt 7); ("name", PStr "Old"); ("streams", PList [PInt 1; PInt 2]);
                 ("channel_group_id", PNone); ("logo_id", PNone); ("tvg_id", PNone);
                 ("channel_number", PInt 40); ("stream_profile_id", PNone); ("epg_data_id", PNone)]).
Proof. vm_compute. reflexivity. Qed.

(** A channel the plan deletes is still read, from the service. *)
Example deleted_is_still_read :
  let '(p, r) := planned_delete_channel demo_world 7 new_planner in
  r = Ok tt /\ (planned_get_channel demo_world 7 p).2 = Ok (PDict seven).
Proof. vm_compute. split; reflexivity. Qed.

(** A number the plan assigns is not seen by a later read. *)
Example assigned_number_not_read :
  let '(p, _) := planned_assign_channel_numbers demo_world [7] (PInt 100) new_planner in
  match (planned_get_channel demo_world 7 p).2 with
  | Ok c => py_get c "channel_number" = Ok (PInt 40)
  | Raise _ => False
  end.
Proof. vm_compute. reflexivity. Qed.

(** A channel whose [streams] are null is recorded with none and then always found drifted. *)
Example null_streams_always_drift :
  let w : state := {[7 := [("id", PInt 7); ("name", PStr "Old"); ("streams", PNone)]]} in
  validate_read_set (fun s => s) (the_plan (run_plan w [UpdateChannel 7 [("name", PStr "B")]])) w =
  Raise (ChannelDrifted "7").
Proof. vm_compute. reflexivity. Qed.
End PipelineWritePlan.
