(* ===== verification/PipelineReplay.v ===== *)
(** * What a replay does to the service ([backend/services/pipeline_write_plan.py]).

    Two theorems about [replay_write_plan] on a service that keeps the promises of
    [Dispatcharr]: a successful replay realises the plan a planning run computed, and a
    failed one whose compensation succeeds restores the channels.  Both are proved by
    following the replay and the planner, or the completed writes, step by step. *)
From S2P Require Import Prelude PyFloat PyValue PyDict PipelineWritePlan.
Open Scope Z_scope.

Module PipelineReplay.
Import PipelineWritePlan.

(** ** A replay realises its plan *)

Lemma mapped_mono (r r' : gmap Z Z) v x : r ⊆ r' -> mapped r v = Ok x -> mapped r' v = Ok x.
Proof.
  intros Hsub. revert x. induction v as [| | z | | |l IH|d IH] using pyval_ind'; intros x; cbn; try done.
  - destruct (z <? 0); [|done]. destruct (r !! z) as [y|] eqn:E; [|done]. intros [= <-].
    by rewrite (lookup_weaken _ _ _ _ E Hsub).
  - destruct (traverse (mapped r) l) as [l'|] eqn:E; [|done]. intros [= <-].
    apply traverse_Ok in E. assert (traverse (mapped r') l = Ok l') as ->; [|done].
    apply traverse_Ok. clear -IH E. induction E as [|a b l l' Hab E IHE]; [constructor|].
    apply Forall_cons in IH as [Ha IH]. constructor; auto.
  - destruct (traverse _ d) as [d'|] eqn:E; [|done]. intros [= <-].
    apply traverse_Ok in E.
    assert (traverse (fun x => let! y := mapped r' x.2 in Ok (x.1, y)) d = Ok d') as ->; [|done].
    apply traverse_Ok. clear -IH E. induction E as [|a b d d' Hab E IHE]; [constructor|].
    apply Forall_cons in IH as [Ha IH]. constructor; [|by apply IHE].
    destruct (mapped r a.2) as [y|] eqn:Ey; [|done]. by rewrite (Ha _ eq_refl).
Qed.

(** The id a planned id stands for. *)
Definition real_id (r : gmap Z Z) (t : Z) : option Z := if t <? 0 then r !! t else Some t.

(** The snapshot's value [v] of the value [x] under [k]: itself, or its list of streams. *)
Definition reads_as (k : string) (v x : pyval) : Prop :=
  v = x \/ (k = "streams" /\ exists l, v = PList l /\ list_or_empty x = Ok l).

(** The fields a write sets on channel [t]. *)
Definition sets (t : Z) (wr : planned_write) : list string :=
  if bool_decide (method wr = "update_channel") then
    match args wr with
    | [PInt t'; PDict d] => if bool_decide (t' = t) then keys d else []
    | _ => []
    end
  else [].

(** Whether the writes of [l] set the field [k] of the planned channel [t]: a channel the plan
    creates has no other fields. *)
Definition written (l : list planned_write) (t : Z) (k : string) : bool :=
  (t <? 0) || bool_decide (k ∈ List.concat (map (sets t) l)).

Lemma written_snoc l wr t k : written (l ++ [wr]) t k = written l t k || bool_decide (k ∈ sets t wr).
Proof.
  unfold written. rewrite map_app, concat_app. cbn [map List.concat]. rewrite app_nil_r.
  destruct (t <? 0); [done|]. cbn [orb]. rewrite <- bool_decide_or. apply bool_decide_ext, elem_of_app.
Qed.

Lemma written_other l wr t k : method wr <> "update_channel" -> written (l ++ [wr]) t k = written l t k.
Proof.
  intros Hm. rewrite written_snoc. unfold sets. rewrite (bool_decide_false (method wr = _)) by done.
  rewrite (bool_decide_false (k ∈ [])) by apply not_elem_of_nil. apply orb_false_r.
Qed.

Lemma written_update l t d t' k :
  written (l ++ [{| method := "update_channel"; args := [PInt t; PDict d]; kwargs := [] |}]) t' k =
  written l t' k || bool_decide (t' = t) && bool_decide (k ∈ keys d).
Proof.
  rewrite written_snoc. f_equal. unfold sets. cbn [method args]. rewrite (bool_decide_true ("update_channel" = _)) by done.
  destruct (decide (t' = t)) as [->|Hne]; [rewrite !(bool_decide_true (t = t)) by done; done|].
  rewrite !(bool_decide_false (_ = _)) by congruence. by rewrite bool_decide_false by apply not_elem_of_nil.
Qed.

(** The service's value [x] under [k] for the plan's value [v]: the remapping of what the plan
    wrote, the value read while planning of what it did not write. *)
Definition shows (planned : bool) (r : gmap Z Z) (k : string) (v x : pyval) : Prop :=
  if planned then mapped r v = Ok x else reads_as k v x.

Definition mirrors (P : string -> bool) (K : list string) (r : gmap Z Z) (f c : fields) : Prop :=
  forall k v, k <> "id" -> k ∉ K -> d_get k f = Some v -> shows (P k) r k v (get_field k c).

Lemma mirrors_mono P K K' r r' f c : r ⊆ r' -> K ⊆ K' -> mirrors P K r f c -> mirrors P K' r' f c.
Proof.
  intros Hr HK H k v Hid Hk Hg. specialize (H k v Hid ltac:(set_solver) Hg). unfold shows in *.
  destruct (P k); [by eapply mapped_mono|done].
Qed.

Lemma mirrors_ext P P' K r f c : (forall k, P k = P' k) -> mirrors P K r f c -> mirrors P' K r f c.
Proof. intros HP H k v Hid Hk Hg. rewrite <- HP. by apply H. Qed.

Lemma mirrors_same P K r f c c' : same_outside K c c' -> mirrors P K r f c -> mirrors P K r f c'.
Proof. intros Hs H k v Hid Hk Hg. unfold get_field. rewrite <- Hs by done. by apply H. Qed.

Lemma relevant_reads id c f k v :
  relevant id (PDict c) = Ok f -> k <> "id" -> d_get k f = Some v -> reads_as k v (get_field k c).
Proof.
  unfold relevant, py_get. cbn [rbind].
  destruct (list_or_empty (default PNone (d_get "streams" c))) as [l|] eqn:El; [|done].
  intros [= <-] Hid Hg. cbn [d_get] in Hg.
  repeat (case_bool_decide; [simplify_eq|]); try done; [by left|right|by left..].
  split; [done|]. by eexists.
Qed.

Lemma relevant_mirrors P id c f K r :
  (forall k, P k = false) -> relevant id (PDict c) = Ok f -> mirrors P K r f c.
Proof. intros HP Hr k v Hid _ Hg. unfold shows. rewrite HP. by eapply relevant_reads. Qed.

Lemma relevant_keys id v f : relevant id v = Ok f ->
  keys f = ["id"; "name"; "streams"; "channel_group_id"; "logo_id"; "tvg_id"; "channel_number";
            "stream_profile_id"; "epg_data_id"].
Proof.
  unfold relevant, py_get. destruct v as [| | | | | |c]; cbn [rbind]; try done.
  destruct (list_or_empty (default PNone (d_get "streams" c))) as [l|]; [|done]. by intros [= <-].
Qed.

Lemma elem_of_keys_get (k : string) (d : fields) : k ∈ keys d <-> d_get k d <> None.
Proof. rewrite d_get_None. split; [by intros ? []|intros H; by destruct (decide (k ∈ keys d))]. Qed.

Lemma mirrors_update P K r f c c' data data' :
  NoDup (keys data) ->
  traverse (fun x => let! y := mapped r x.2 in Ok (x.1, y)) data = Ok data' ->
  (forall k, k <> "id" -> d_get k c' = match d_get k data' with Some x => Some x | None => d_get k c end) ->
  mirrors P K r f c -> mirrors (fun k => P k || bool_decide (k ∈ keys data)) K r (d_update f data) c'.
Proof.
  intros Hnd Ht Hc H k v Hid Hk. rewrite d_get_update by done. unfold get_field. rewrite Hc by done.
  apply traverse_Ok in Ht.
  assert (Hget : match d_get k data with
                 | Some y => exists x, mapped r y = Ok x /\ d_get k data' = Some x
                 | None => d_get k data' = None
                 end).
  { clear -Ht. induction Ht as [|[k0 y] b data data' Hb Ht IH]; [done|]. cbn in Hb.
    destruct (mapped r y) as [x|] eqn:Ey; [|done]. injection Hb as <-. cbn [d_get].
    case_bool_decide; [by exists x|done]. }
  assert (Hkey : k ∈ keys data <-> d_get k data <> None) by apply elem_of_keys_get.
  destruct (d_get k data) as [y|].
  - destruct Hget as (x & Hx & ->). intros [= <-]. unfold shows. rewrite bool_decide_true, orb_true_r; [done|].
    apply Hkey. congruence.
  - rewrite Hget, bool_decide_false, orb_false_r by (intros Hin; by apply Hkey in Hin). by apply H.
Qed.

Lemma mapped_keys r data data' :
  traverse (fun x => let! y := mapped r x.2 in Ok (x.1, y)) data = Ok data' -> @keys string _ data' = keys data.
Proof.
  intros Ht%traverse_Ok. induction Ht as [|[k0 y] b data data' Hb Ht IH]; [done|]. cbn in Hb.
  destruct (mapped r y) as [x|] eqn:Ey; [|done]. injection Hb as <-.
  unfold keys in *. cbn. by rewrite IH.
Qed.

Lemma mirrors_create P K r t data data' c :
  NoDup (keys data) ->
  traverse (fun x => let! y := mapped r x.2 in Ok (x.1, y)) data = Ok data' ->
  (forall k x, k <> "id" -> d_get k data' = Some x -> d_get k c = Some x) ->
  (forall k, P k = true) -> mirrors P K r (d_update [("id", PInt t)] data) c.
Proof.
  intros Hnd Ht Hc HP k v Hid _. rewrite d_get_update by done.
  destruct (d_get k data) as [y|] eqn:Ey.
  - intros [= <-]. unfold shows. rewrite HP. unfold get_field.
    assert (exists x, mapped r y = Ok x /\ d_get k data' = Some x) as (x & Hx & Hd).
    { apply traverse_Ok in Ht. clear -Ht Ey. induction Ht as [|[k0 z] b data data' Hb Ht IH]; [done|].
      cbn in Hb. destruct (mapped r z) as [x|] eqn:Ez; [|done]. injection Hb as <-. cbn [d_get] in *.
      case_bool_decide; [|by apply IH]. simplify_eq. by exists x. }
    by rewrite (Hc _ _ Hid Hd).
  - cbn. by rewrite bool_decide_false by done.
Qed.

Section simulation.
Context {W : Type} {S : Service W} {D : Dispatcharr W} (w0 : W).
Implicit Types (p : planner) (st : @replaying W).

(** The replay has reached [st] when the planner, reading [w0], has reached [p]: each
    channel of the shadow is on the service as the plan sees it, under distinct ids, and
    the channels neither in the shadow nor in [gone] are as they were.  [l] are the writes made. *)
Record follows (K : list string) (gone : list Z) (l : list planned_write) p st : Prop := {
  f_next : next_temp_id p = next_temp st;
  f_neg : next_temp st < 0;
  f_dom : forall z r, remap st !! z = Some r -> next_temp st < z;
  f_shadow : forall t f, shadow p !! t = Some f ->
    exists r c, real_id (remap st) t = Some r /\ channel_of (world st) r = Some c /\
      mirrors (written l t) K (remap st) f c;
  f_written : forall t k, 0 <= t -> written l t k = true -> t ∈ gone \/ is_Some (shadow p !! t);
  f_inj : forall t1 t2 f1 f2 r, shadow p !! t1 = Some f1 -> shadow p !! t2 = Some f2 ->
    real_id (remap st) t1 = Some r -> real_id (remap st) t2 = Some r -> t1 = t2;
  f_rest : forall id c, id ∉ gone -> shadow p !! id = None -> channel_of w0 id = Some c ->
    exists c', channel_of (world st) id = Some c' /\ same_outside K c c';
  f_fresh : forall t f r, shadow p !! t = Some f -> t < 0 -> remap st !! t = Some r ->
    channel_of w0 r = None \/ r ∈ gone;
}.

Lemma follows_start K gone : follows K gone [] new_planner (start w0).
Proof.
  constructor; cbn; try done; try (intros *; rewrite lookup_empty; done).
  - intros t k Ht. unfold written. cbn. rewrite (proj2 (Z.ltb_ge _ _) Ht). cbn.
    by rewrite bool_decide_false by apply not_elem_of_nil.
  - intros id c _ _ Hc. exists c. by split.
Qed.

(** A write that sets no field of a planned channel. *)
Lemma follows_wrote K gone l wr p st :
  method wr <> "update_channel" -> follows K gone l p st -> follows K gone (l ++ [wr]) p st.
Proof.
  intros Hm []. constructor; try done.
  - intros t f Ht. destruct (f_shadow0 t f Ht) as (r & c & ? & ? & ?). exists r, c. split_and!; [done..|].
    eapply mirrors_ext; [|done]. intros k. symmetry. by apply written_other.
  - intros t k Ht. rewrite written_other by done. by apply f_written0.
Qed.

Lemma follows_mono K K' gone gone' l p st :
  K ⊆ K' -> gone ⊆ gone' -> follows K gone l p st -> follows K' gone' l p st.
Proof.
  intros HK Hg []. constructor; try done.
  - intros t f Ht. destruct (f_shadow0 t f Ht) as (r & c & ? & ? & ?). exists r, c. split_and!; [done..|].
    by eapply mirrors_mono.
  - intros t k Ht Hw. destruct (f_written0 t k Ht Hw); [left; set_solver|by right].
  - intros id c Hid Hs Hc. destruct (f_rest0 id c) as (c' & ? & Hsame); [set_solver|done..|].
    exists c'. split; [done|]. intros k Hk HkK. apply Hsame; [done|set_solver].
  - intros t f r Ht Hneg Hr. destruct (f_fresh0 t f r Ht Hneg Hr); [by left|right; set_solver].
Qed.

(** The planner after a read of a channel that is not gone. *)
Lemma follows_channel_before K gone l p st id :
  id ∉ gone -> follows K gone l p st ->
  let '(p', r) := channel_before w0 id p in
  writes (the_plan p') = writes (the_plan p) /\ follows K gone l p' st /\
  match r with Ok d => shadow p' !! id = Some d | Raise _ => True end.
Proof.
  intros Hid Hf. unfold channel_before.
  destruct (shadow p !! id) as [d|] eqn:Es; [by split|].
  destruct (get_channel id w0) as [v|] eqn:Eg; cbn [rbind]; [|by split].
  destruct (get_channel_spec _ _ _ Eg) as (c & -> & Hc).
  destruct (relevant id (PDict c)) as [f|] eqn:Er; [|by split].
  split; [done|]. cbn [the_plan shadow writes]. split; [|by rewrite lookup_insert_eq].
  pose proof (channel_positive _ _ _ Hc) as Hpos.
  destruct Hf. destruct (f_rest0 id c Hid Es Hc) as (c' & Hc' & Hsame).
  assert (Hreal : real_id (remap st) id = Some id).
  { unfold real_id. destruct (id <? 0) eqn:E; to_prop; [lia|done]. }
  assert (Hother : forall t f', shadow p !! t = Some f' -> real_id (remap st) t = Some id -> False).
  { intros t f' Ht. unfold real_id. destruct (t <? 0) eqn:E; to_prop.
    - intros Hr. destruct (f_fresh0 t f' id Ht E Hr) as [Hn|Hg]; [congruence|done].
    - intros [= ->]. congruence. }
  constructor; cbn [shadow next_temp_id]; try done.
  - intros t f' [[<- <-]|[Hne Ht]]%lookup_insert_Some; [|by apply f_shadow0].
    exists id, c'. split_and!; [done|done|]. eapply mirrors_same; [done|]. eapply relevant_mirrors; [|done]. intros k.
    destruct (written l id k) eqn:E; [|done]. destruct (f_written0 id k ltac:(lia) E) as [?|[? ?]]; [done|congruence].
  - intros t k Ht Hw. destruct (f_written0 t k Ht Hw) as [?|Hs]; [by left|right]. by apply lookup_insert_is_Some'; right.
  - intros t1 t2 f1 f2 r [[<- <-]|[Hn1 Ht1]]%lookup_insert_Some [[<- <-]|[Hn2 Ht2]]%lookup_insert_Some Hr1 Hr2;
      [done| | |by eapply f_inj0].
    + exfalso. rewrite Hreal in Hr1. simplify_eq. by eapply Hother.
    + exfalso. rewrite Hreal in Hr2. simplify_eq. by eapply Hother.
  - intros id' c0 Hg Hs. apply f_rest0; [done|]. by apply lookup_insert_None in Hs as [? _].
  - intros t f' r [[<- <-]|[Hne Ht]]%lookup_insert_Some Hneg Hr; [lia|by eapply f_fresh0].
Qed.

Lemma follows_channels_before K gone l p st ids :
  (forall id, id ∈ ids -> id ∉ gone) -> follows K gone l p st ->
  let '(p', _) := channels_before w0 ids p in
  writes (the_plan p') = writes (the_plan p) /\ follows K gone l p' st.
Proof.
  revert p. induction ids as [|id ids IH]; intros p Hids Hf; [by split|].
  cbn. unfold then_.
  pose proof (follows_channel_before K gone l p st id) as H.
  destruct (channel_before w0 id p) as [p' [d|e]].
  - destruct H as (Hw & Hf' & _); [apply Hids; left|done|].
    specialize (IH p'). destruct (channels_before w0 ids p') as [p'' r'].
    destruct IH as (Hw' & Hf''); [intros i Hi; apply Hids; by right|done|]. by rewrite Hw', Hw.
  - destruct H as (Hw & Hf' & _); [apply Hids; left|done|]. by split.
Qed.

Lemma follows_ext K gone l p p' st st' :
  shadow p' = shadow p -> next_temp_id p' = next_temp_id p -> world st' = world st ->
  remap st' = remap st -> next_temp st' = next_temp st -> follows K gone l p st -> follows K gone l p' st'.
Proof.
  intros Hs Hn Hw Hr Ht []. constructor; rewrite ?Hs, ?Hn, ?Hw, ?Hr, ?Ht; done.
Qed.

(** A call that writes no channel but for the keys of [K]. *)
Lemma follows_other K gone l p st w' :
  follows K gone l p st ->
  (forall id, match channel_of (world st) id, channel_of w' id with
              | Some c, Some c' => same_outside K c c' | None, None => True | _, _ => False end) ->
  follows K gone l p (with_world st w').
Proof.
  intros [] Hw. constructor; try done.
  - intros t f Ht. destruct (f_shadow0 t f Ht) as (r & c & Hr & Hc & Hm).
    specialize (Hw r). rewrite Hc in Hw. cbn [world with_world].
    destruct (channel_of w' r) as [c'|] eqn:Ec; [|done]. exists r, c'. split_and!; [done|done|].
    by eapply mirrors_same.
  - intros id c Hid Hs Hc. destruct (f_rest0 id c Hid Hs Hc) as (c1 & Hc1 & Hs1).
    specialize (Hw id). rewrite Hc1 in Hw. cbn [world with_world].
    destruct (channel_of w' id) as [c'|]; [|done]. exists c'. split; [done|].
    intros k Hk HkK. by rewrite Hs1, Hw.
Qed.

(** A create takes the next temporary id on both sides. *)
Lemma follows_take K gone l p st real n' :
  follows K gone l p st -> n' = next_temp st - 1 ->
  follows K gone l (take_temp_id p).1
    {| world := world st; remap := <[next_temp st := real]> (remap st);
       next_temp := n'; completed := completed st |}.
Proof.
  intros [] ->.
  assert (Hfresh : remap st !! next_temp st = None).
  { destruct (remap st !! next_temp st) eqn:E; [|done]. apply f_dom0 in E. lia. }
  assert (Hreal : forall t f, shadow p !! t = Some f ->
    real_id (<[next_temp st := real]> (remap st)) t = real_id (remap st) t).
  { intros t f Ht. destruct (f_shadow0 t f Ht) as (r & c & Hr & _). unfold real_id in *.
    destruct (t <? 0); [|done]. apply lookup_insert_ne. congruence. }
  constructor; cbn; try lia; try done.
  - intros z r [[<- <-]|[Hne Hz]]%lookup_insert_Some; [lia|]. apply f_dom0 in Hz. lia.
  - intros t f Ht. destruct (f_shadow0 t f Ht) as (r & c & Hr & Hc & Hm). exists r, c.
    split_and!; [by erewrite Hreal|done|]. eapply mirrors_mono; [by apply insert_subseteq|done|done].
  - intros t1 t2 f1 f2 r Ht1 Ht2. erewrite !Hreal by done. by eapply f_inj0.
  - intros t f r Ht Hneg Hr. eapply f_fresh0; [done..|].
    pose proof (Hreal _ _ Ht) as Hr'. unfold real_id in Hr'. destruct (t <? 0) eqn:E; to_prop; [|lia].
    congruence.
Qed.

(** A new channel under a temporary id. *)
Lemma follows_create K gone l p st t f id c w' :
  follows K gone l p st -> shadow p !! t = None -> t < 0 -> remap st !! t = Some id ->
  channel_of (world st) id = None -> channel_of w' id = Some c ->
  (forall id', id' <> id -> channel_of w' id' = channel_of (world st) id') ->
  mirrors (written l t) K (remap st) f c ->
  follows K gone l (with_shadow p (<[t := f]> (shadow p))) (with_world st w').
Proof.
  intros Hf Ht Hneg Hr Hnone Hc Hothers Hm. pose proof (channel_positive _ _ _ Hc) as Hpos.
  destruct Hf.
  assert (Hreal : real_id (remap st) t = Some id).
  { unfold real_id. destruct (t <? 0) eqn:E; to_prop; [done|lia]. }
  assert (Hne : forall t' f', shadow p !! t' = Some f' -> real_id (remap st) t' = Some id -> False).
  { intros t' f' Ht' Hr'. destruct (f_shadow0 t' f' Ht') as (r & c' & Hr'' & Hc' & _). congruence. }
  constructor; cbn [shadow with_shadow world with_world remap next_temp next_temp_id]; try done.
  - intros t' f' [[<- <-]|[Hn Ht']]%lookup_insert_Some; [by exists id, c|].
    destruct (f_shadow0 t' f' Ht') as (r & c' & Hr' & Hc' & Hm'). exists r, c'.
    split_and!; [done| |done]. rewrite Hothers; [done|]. intros ->. by eapply Hne.
  - intros t' k Ht' Hw. destruct (f_written0 t' k Ht' Hw) as [?|Hs]; [by left|right]. by apply lookup_insert_is_Some'; right.
  - intros t1 t2 f1 f2 r [[<- <-]|[Hn1 Ht1]]%lookup_insert_Some [[<- <-]|[Hn2 Ht2]]%lookup_insert_Some Hr1 Hr2;
      [done| | |by eapply f_inj0]; exfalso; simplify_eq; by eapply Hne.
  - intros id' c0 Hg [Hs Hn]%lookup_insert_None Hc0.
    destruct (f_rest0 id' c0 Hg Hs Hc0) as (c' & Hc' & ?). exists c'. split; [|done].
    rewrite Hothers; [done|]. intros ->. congruence.
  - intros t' f' r [[<- <-]|[Hn Ht']]%lookup_insert_Some Hneg' Hr'; [|by eapply f_fresh0].
    assert (r = id) as -> by congruence. destruct (decide (id ∈ gone)) as [Hg|Hg]; [by right|left].
    destruct (channel_of w0 id) as [c0|] eqn:Ec0; [|done]. exfalso.
    destruct (shadow p !! id) as [f0|] eqn:Es.
    + eapply (Hne id f0); [done|]. unfold real_id. destruct (id <? 0) eqn:E; to_prop; [lia|done].
    + destruct (f_rest0 id c0 Hg Es Ec0) as (c' & ? & _). congruence.
Qed.

(** A channel outside the shadow is not what a planned one stands for. *)
Lemma rest_not_real K gone l p st t f r id c :
  follows K gone l p st -> shadow p !! t = Some f -> real_id (remap st) t = Some r ->
  id ∉ gone -> shadow p !! id = None -> channel_of w0 id = Some c -> id <> r.
Proof.
  intros [] Ht Hr Hid Hs Hc ->. unfold real_id in Hr. destruct (t <? 0) eqn:E; to_prop.
  - destruct (f_fresh0 t f r Ht E Hr); congruence.
  - simplify_eq.
Qed.

Lemma follows_update K gone l l' p st t f f' r c' w' :
  follows K gone l p st -> shadow p !! t = Some f -> real_id (remap st) t = Some r ->
  channel_of w' r = Some c' ->
  (forall id', id' <> r -> channel_of w' id' = channel_of (world st) id') ->
  mirrors (written l' t) K (remap st) f' c' ->
  (forall t' k, t' <> t -> written l' t' k = written l t' k) ->
  follows K gone l' (with_shadow p (<[t := f']> (shadow p))) (with_world st w').
Proof.
  intros Hf Ht Hr Hc' Hothers Hm Hl.
  pose proof (fun id c => rest_not_real K gone l p st t f r id c Hf Ht Hr) as Hrest. destruct Hf.
  assert (Hin : forall t' f'', <[t := f']> (shadow p) !! t' = Some f'' -> exists f0, shadow p !! t' = Some f0).
  { intros t' f'' [[<- <-]|[Hn Ht']]%lookup_insert_Some; by eexists. }
  constructor; cbn [shadow with_shadow world with_world remap next_temp next_temp_id]; try done.
  - intros t' f'' [[<- <-]|[Hn Ht']]%lookup_insert_Some; [by exists r, c'|].
    destruct (f_shadow0 t' f'' Ht') as (r' & c & Hr' & Hc & Hm'). exists r', c.
    split_and!; [done| |eapply mirrors_ext; [|done]; intros k; by rewrite Hl].
    rewrite Hothers; [done|]. intros ->. by apply Hn, (f_inj0 t t' f f'' r).
  - intros t' k Ht' Hw. destruct (decide (t' = t)) as [->|Hne]; [right; rewrite lookup_insert_eq; by eexists|].
    rewrite Hl in Hw by done. destruct (f_written0 t' k Ht' Hw) as [?|Hs]; [by left|right]. by apply lookup_insert_is_Some'; right.
  - intros t1 t2 f1 f2 r' [? ?]%Hin [? ?]%Hin. by eapply f_inj0.
  - intros id c Hg [Hs Hn]%lookup_insert_None Hc. rewrite Hothers by (by eapply Hrest). by apply f_rest0.
  - intros t' f'' r' [? ?]%Hin. by eapply f_fresh0.
Qed.

Lemma follows_delete K gone l p st t f r w' :
  follows K gone l p st -> shadow p !! t = Some f -> real_id (remap st) t = Some r ->
  (forall id', id' <> r -> channel_of w' id' = channel_of (world st) id') ->
  follows K (gone ++ [t]) l (with_shadow p (delete t (shadow p))) (with_world st w').
Proof.
  intros Hf Ht Hr Hothers.
  pose proof (fun id c => rest_not_real K gone l p st t f r id c Hf Ht Hr) as Hrest. destruct Hf.
  constructor; cbn [shadow with_shadow world with_world remap next_temp next_temp_id]; try done.
  - intros t' f' [Hn Ht']%lookup_delete_Some.
    destruct (f_shadow0 t' f' Ht') as (r' & c & Hr' & Hc & Hm'). exists r', c.
    split_and!; [done| |done]. rewrite Hothers; [done|]. intros ->. by apply Hn, (f_inj0 t t' f f' r).
  - intros t' k Ht' Hw. destruct (decide (t' = t)) as [->|Hne]; [left; apply elem_of_app; right; by left|].
    destruct (f_written0 t' k Ht' Hw) as [?|Hs]; [left; apply elem_of_app; by left|right]. by rewrite lookup_delete_ne.
  - intros t1 t2 f1 f2 r' [_ ?]%lookup_delete_Some [_ ?]%lookup_delete_Some. by eapply f_inj0.
  - intros id c [Hg Hn]%not_elem_of_app Hs Hc. rewrite list_elem_of_singleton in Hn.
    apply lookup_delete_None in Hs as [->|Hs]; [done|].
    rewrite Hothers by (by eapply Hrest). by apply f_rest0.
  - intros t' f' r' [_ Ht']%lookup_delete_Some Hneg Hr'.
    destruct (f_fresh0 t' f' r' Ht' Hneg Hr'); [by left|right]. apply elem_of_app. by left.
Qed.

(** *** Steps of the replay *)

Definition write_of (m : string) (a : list pyval) : planned_write :=
  {| method := m; args := a; kwargs := [] |}.

Lemma replay_one_done st m a st' u :
  replay_one st (write_of m a) = (st', Ok u) ->
  exists a' v, mapped_args (remap st) a = Ok a' /\ call m a' [] (world st) = (world st', Ok v) /\
    completed st' = completed st ++ [(write_of m a, a', v)] /\
    if is_create m
    then exists real, created_id m v = Ok real /\ remap st' = <[next_temp st := real]> (remap st) /\
      next_temp st' = next_temp st - 1
    else remap st' = remap st /\ next_temp st' = next_temp st.
Proof.
  unfold replay_one. cbn [args kwargs method write_of].
  destruct (mapped_args (remap st) a) as [a'|]; [|done]. cbn [rbind mapped_kwargs traverse].
  destruct (call m a' [] (world st)) as [w' [v|]] eqn:Ecall; [|done].
  intros H. exists a', v. split; [done|]. destruct (is_create m).
  - destruct (created_id m v) as [real|] eqn:Ec; [|done]. injection H as <- _.
    split; [done|split; [done|]]. by exists real.
  - injection H as <- _. by split.
Qed.

Lemma replay_one_ok st m a st' u :
  replay_one st (write_of m a) = (st', Ok u) ->
  exists a' v, mapped_args (remap st) a = Ok a' /\ call m a' [] (world st) = (world st', Ok v) /\
    if is_create m
    then exists real, created_id m v = Ok real /\ remap st' = <[next_temp st := real]> (remap st) /\
      next_temp st' = next_temp st - 1
    else remap st' = remap st /\ next_temp st' = next_temp st.
Proof. intros (a' & v & ? & ? & _ & ?)%replay_one_done. by exists a', v. Qed.

Lemma replay_loop_app st l1 l2 :
  replay_loop st (l1 ++ l2) =
  match replay_loop st l1 with (st', Ok _) => replay_loop st' l2 | (st', Raise e) => (st', Raise e) end.
Proof.
  revert st. induction l1 as [|x l1 IH]; intros st; cbn; [done|].
  destruct (replay_one st x) as [st' [|]]; [apply IH|done].
Qed.

Lemma replay_loop_one st x st' u : replay_loop st [x] = (st', Ok u) -> replay_one st x = (st', Ok tt).
Proof. cbn. destruct (replay_one st x) as [st1 [[]|]]; congruence. Qed.

Lemma mapped_args_id r t a l :
  mapped_args r (PInt t :: a) = Ok l ->
  exists real a', l = PInt real :: a' /\ real_id r t = Some real /\ mapped_args r a = Ok a'.
Proof.
  unfold mapped_args, real_id. cbn. destruct (t <? 0).
  - destruct (r !! t) as [x|]; [|done]. cbn. destruct (traverse _ a) as [a'|]; [|done].
    intros [= <-]. by exists x, a'.
  - cbn. destruct (traverse _ a) as [a'|]; [|done]. intros [= <-]. by exists t, a'.
Qed.

Lemma mapped_args_dict r d a l :
  mapped_args r (PDict d :: a) = Ok l ->
  exists d' a', l = PDict d' :: a' /\ mapped_args r a = Ok a' /\
    traverse (fun x => let! y := mapped r x.2 in Ok (x.1, y)) d = Ok d'.
Proof.
  unfold mapped_args. cbn. destruct (traverse _ d) as [d'|]; [|done]. cbn.
  destruct (traverse _ a) as [a'|]; [|done]. intros [= <-]. by exists d', a'.
Qed.

(** A recorded call that writes no channel beyond [K]. *)
Lemma follows_other_call K gone l p st m a st' u :
  follows K gone l p st -> m ∉ ["create_channel"; "update_channel"; "delete_channel"] ->
  written_keys m ⊆ K -> replay_one st (write_of m a) = (st', Ok u) ->
  follows K gone l (if is_create m then (take_temp_id p).1 else p) st'.
Proof.
  intros Hf Hm HK (a' & v & Ha & Hcall & Hrest)%replay_one_ok.
  assert (Hw : follows K gone l p (with_world st (world st'))).
  { apply follows_other; [done|]. intros id.
    pose proof (other_spec _ _ _ _ _ _ Hm Hcall id) as H.
    destruct (channel_of (world st) id), (channel_of (world st') id); try done.
    intros k Hk Hn. apply H; [done|]. set_solver. }
  destruct (is_create m).
  - destruct Hrest as (real & _ & Hr & Hn).
    by eapply follows_ext; [..|exact (follows_take _ _ _ _ _ real _ Hw Hn)].
  - destruct Hrest as [Hr Hn]. by eapply follows_ext; [..|exact Hw].
Qed.

Lemma follows_create_call K gone l p st data st' u :
  follows K gone l p st -> NoDup (keys data) ->
  replay_one st (write_of "create_channel" [PDict data]) = (st', Ok u) ->
  follows K gone l (planned_create_channel data p).1 st'.
Proof.
  intros Hf Hnd (a' & v & Ha & Hcall & real & Hreal & Hr & Hn)%replay_one_ok.
  apply mapped_args_dict in Ha as (data' & a'' & -> & [= <-] & Hdata).
  pose proof (mapped_keys _ _ _ Hdata) as Hkeys.
  destruct (create_spec _ _ _ _ ltac:(by rewrite Hkeys) Hcall) as
    (d & id & c & -> & Hid & Hnone & Hc & Hvals & Hothers).
  unfold created_id in Hreal. cbn [rbind py_get] in Hreal. rewrite Hid in Hreal.
  cbn in Hreal. injection Hreal as <-.
  pose proof (follows_take K gone l p st id _ Hf Hn) as Hg.
  assert (Hsub : remap st ⊆ remap st').
  { rewrite Hr. apply insert_subseteq. destruct (remap st !! next_temp st) eqn:E; [|done].
    apply (f_dom _ _ _ _ _ Hf) in E. lia. }
  assert (Hsh : shadow p !! next_temp_id p = None).
  { destruct (shadow p !! next_temp_id p) as [f|] eqn:E; [|done]. exfalso.
    destruct (f_shadow _ _ _ _ _ Hf _ _ E) as (r & c0 & Hr0 & _). rewrite (f_next _ _ _ _ _ Hf) in Hr0.
    unfold real_id in Hr0. pose proof (f_neg _ _ _ _ _ Hf). destruct (next_temp st <? 0) eqn:E0; to_prop; [|lia].
    apply (f_dom _ _ _ _ _ Hf) in Hr0. lia. }
  eapply follows_ext; [..|eapply (follows_create _ _ _ _ _ (next_temp_id p)
      (d_update [("id", PInt (next_temp_id p))] data) id c (world st') Hg)]; try done; cbn.
  - rewrite (f_next _ _ _ _ _ Hf). apply (f_neg _ _ _ _ _ Hf).
  - rewrite (f_next _ _ _ _ _ Hf). apply lookup_insert_eq.
  - rewrite <- Hr. eapply mirrors_mono; [exact Hsub|done|]. eapply mirrors_create; [done..|]. intros k.
    unfold written. rewrite (f_next _ _ _ _ _ Hf). pose proof (f_neg _ _ _ _ _ Hf). by rewrite (proj2 (Z.ltb_lt _ _)).
Qed.

Lemma follows_update_call K gone l p st t f data st' u :
  follows K gone l p st -> NoDup (keys data) -> shadow p !! t = Some f ->
  replay_one st (write_of "update_channel" [PInt t; PDict data]) = (st', Ok u) ->
  follows K gone (l ++ [write_of "update_channel" [PInt t; PDict data]])
    (with_shadow p (<[t := d_update f data]> (shadow p))) st'.
Proof.
  intros Hf Hnd Ht (a' & v & Ha & Hcall & Hr & Hn)%replay_one_ok.
  apply mapped_args_id in Ha as (r & a1 & -> & Hreal & Ha).
  apply mapped_args_dict in Ha as (data' & a2 & -> & [= <-] & Hdata).
  pose proof (mapped_keys _ _ _ Hdata) as Hkeys.
  destruct (update_spec _ _ _ _ _ ltac:(by rewrite Hkeys) Hcall) as (c & c' & Hc & Hc' & Hvals & Hothers).
  destruct (f_shadow _ _ _ _ _ Hf _ _ Ht) as (r' & c0 & Hr' & Hc0 & Hm). simplify_eq.
  eapply follows_ext; [..|eapply (follows_update _ _ _ _ _ _ t f (d_update f data) r c' (world st') Hf)]; try done.
  - eapply mirrors_ext; [|by eapply mirrors_update]. intros k. unfold write_of. by rewrite written_update, (bool_decide_true (t = t)) by done.
  - intros t' k Hne. unfold write_of. rewrite written_update, (bool_decide_false (t' = t)) by done. by rewrite orb_false_r.
Qed.

Lemma follows_delete_call K gone l p st t f st' u :
  follows K gone l p st -> shadow p !! t = Some f ->
  replay_one st (write_of "delete_channel" [PInt t]) = (st', Ok u) ->
  follows K (gone ++ [t]) l (with_shadow p (delete t (shadow p))) st'.
Proof.
  intros Hf Ht (a' & v & Ha & Hcall & Hr & Hn)%replay_one_ok.
  apply mapped_args_id in Ha as (r & a1 & -> & Hreal & [= <-]).
  destruct (delete_spec _ _ _ _ Hcall) as [_ Hothers].
  by eapply follows_ext; [..|eapply (follows_delete _ _ _ _ _ t f r (world st') Hf)].
Qed.

Definition unshadowed_by (o : op) : list string := unshadowed [o].

(** An operation records at most one write, and its replay keeps the two sides together. *)
Definition op_step K gone p p' gone' : Prop :=
  exists l, writes (the_plan p') = writes (the_plan p) ++ l /\
    forall st st' u, follows K gone (writes (the_plan p)) p st -> replay_loop st l = (st', Ok u) ->
      follows K gone' (writes (the_plan p')) p' st'.

Lemma op_step_skip K gone p p' gone' :
  writes (the_plan p') = writes (the_plan p) -> gone ⊆ gone' ->
  (forall l st, follows K gone l p st -> follows K gone l p' st) -> op_step K gone p p' gone'.
Proof.
  intros Hw Hg Hf. exists []. split; [by rewrite app_nil_r|].
  intros st st' u Hst [= <-]. rewrite Hw. eapply follows_mono; [done|exact Hg|]. by apply Hf.
Qed.

Lemma op_step_write K gone p p' gone' m a :
  writes (the_plan p') = writes (the_plan p) ++ [write_of m a] ->
  (forall l st st' u, follows K gone l p st -> replay_one st (write_of m a) = (st', Ok u) ->
     follows K gone' (l ++ [write_of m a]) p' st') -> op_step K gone p p' gone'.
Proof.
  intros Hw Hf. exists [write_of m a]. split; [done|].
  intros st st' u Hst Hl%replay_loop_one. rewrite Hw. by eapply Hf.
Qed.

Lemma channel_before_reads p id :
  let '(p', r) := channel_before w0 id p in
  writes (the_plan p') = writes (the_plan p) /\
  match r with Ok d => shadow p' !! id = Some d | Raise _ => True end.
Proof.
  unfold channel_before. destruct (shadow p !! id) as [d|] eqn:Es; [by split|].
  destruct (let! channel := get_channel id w0 in relevant id channel) as [r|]; [|by split].
  split; [done|]. apply lookup_insert_eq.
Qed.

(** Reading a channel first changes nothing the two sides disagree on. *)
Lemma op_step_after_read {A} K gone p id (f : fields -> planning A) gone' :
  id ∉ gone -> gone ⊆ gone' ->
  (forall d p1, shadow p1 !! id = Some d -> op_step K gone p1 (f d p1).1 gone') ->
  op_step K gone p (then_ (channel_before w0 id) f p).1 gone'.
Proof.
  intros Hid Hg Hop. unfold then_.
  assert (Hread := fun l st => follows_channel_before K gone l p st id Hid).
  pose proof (channel_before_reads p id) as Hreads.
  destruct (channel_before w0 id p) as [p1 [d|e]]; destruct Hreads as [Hwr Hsh].
  - destruct (Hop d p1 Hsh) as (l & Hl & Hf). exists l. split; [by rewrite Hl, Hwr|].
    intros st st' u Hst. apply Hf. rewrite Hwr. by apply Hread.
  - apply op_step_skip; [done|done|]. intros l st Hst. by apply Hread.
Qed.

Lemma other_step K gone p p' m a :
  shadow p' = shadow p -> next_temp_id p' = next_temp_id p ->
  writes (the_plan p') = writes (the_plan p) ++ [write_of m a] -> is_create m = false ->
  m ∉ ["create_channel"; "update_channel"; "delete_channel"] -> written_keys m ⊆ K ->
  op_step K gone p p' gone.
Proof.
  intros Hs Hn Hw Hc Hm HK. eapply op_step_write; [exact Hw|]. intros l st st' u Hst Hr.
  eapply follows_other_call in Hr; [|done..]. rewrite Hc in Hr.
  apply follows_wrote; [intros E; cbn in E; set_solver|]. by eapply follows_ext; [..|exact Hr].
Qed.

Lemma take_step K gone p p' m a :
  shadow p' = shadow p -> next_temp_id p' = next_temp_id p - 1 ->
  writes (the_plan p') = writes (the_plan p) ++ [write_of m a] -> is_create m = true ->
  m ∉ ["create_channel"; "update_channel"; "delete_channel"] -> written_keys m ⊆ K ->
  op_step K gone p p' gone.
Proof.
  intros Hs Hn Hw Hc Hm HK. eapply op_step_write; [exact Hw|]. intros l st st' u Hst Hr.
  eapply follows_other_call in Hr; [|done..]. rewrite Hc in Hr.
  apply follows_wrote; [intros E; cbn in E; set_solver|]. by eapply follows_ext; [..|exact Hr].
Qed.

Lemma assign_step K gone p ids n :
  (forall id, id ∈ ids -> id ∉ gone) -> ["channel_number"] ⊆ K ->
  op_step K gone p (planned_assign_channel_numbers w0 ids n p).1 gone.
Proof.
  intros Hids HK. unfold planned_assign_channel_numbers, then_.
  assert (Hread := fun l st => follows_channels_before K gone l p st ids Hids).
  assert (Hwr : writes (the_plan (channels_before w0 ids p).1) = writes (the_plan p)).
  { clear. revert p. induction ids as [|id ids IH]; intros p; [done|]. cbn. unfold then_.
    pose proof (channel_before_reads p id) as Hr.
    destruct (channel_before w0 id p) as [p1 [d|e]]; destruct Hr as [Hw _]; [by rewrite IH|done]. }
  destruct (channels_before w0 ids p) as [p1 [[]|e]]; cbn [fst] in Hwr.
  - destruct (other_step K gone p1
      (record "assign_channel_numbers" [PList (map PInt ids); n] p1)
      "assign_channel_numbers" [PList (map PInt ids); n]) as (l & Hl & Hf); [done..|set_solver|exact HK|].
    exists l. cbn [fst]. split; [by rewrite Hl, Hwr|]. intros st st' u Hst. apply Hf. rewrite Hwr. by apply Hread.
  - apply op_step_skip; [done|done|]. intros l st Hst. by apply Hread.
Qed.

Lemma follows_op K gone p o :
  op_dict o -> (forall id, id ∈ touched o -> id ∉ gone) -> unshadowed_by o ⊆ K ->
  op_step K gone p (plan_op w0 p o) (gone ++ deleted_by o).
Proof.
  intros Hd Ht HK. destruct o as [data|name|data|id data|id|id|ids n|pid id data]; cbn [plan_op deleted_by touched] in *;
    rewrite ?app_nil_r.
  - eapply op_step_write; [done|]. intros l st st' u Hst Hr. apply follows_wrote; [done|]. by eapply follows_create_call.
  - eapply take_step; [done..|set_solver|set_solver].
  - eapply take_step; [done..|set_solver|set_solver].
  - apply op_step_after_read; [apply Ht; left|done|]. intros d p1 Hs. eapply op_step_write; [done|].
    intros l st st' u Hst Hr. eapply follows_ext; [..|by eapply follows_update_call]; done.
  - apply op_step_after_read; [apply Ht; left|set_solver|]. intros d p1 Hs. eapply op_step_write; [done|].
    intros l st st' u Hst Hr. apply follows_wrote; [done|]. eapply follows_ext; [..|by eapply follows_delete_call]; done.
  - unfold planned_delete_channel_group. destruct (rbind _ _) as [name|]; [|by apply op_step_skip].
    eapply other_step; [done..|set_solver|exact HK].
  - apply assign_step; [exact Ht|exact HK].
  - apply op_step_after_read; [apply Ht; left|done|]. intros d p1 Hs. destruct (rbind _ _) as [l|]; [|by apply op_step_skip].
    eapply other_step; [done..|set_solver|set_solver].
Qed.

Lemma follows_run K ops :
  Forall op_dict ops -> no_reuse ops -> unshadowed ops ⊆ K ->
  forall st u, replay_loop (start w0) (writes (the_plan (run_plan w0 ops))) = (st, Ok u) ->
  follows K (List.concat (map deleted_by ops)) (writes (the_plan (run_plan w0 ops))) (run_plan w0 ops) st.
Proof.
  induction ops as [|o ops IH] using rev_ind; intros Hd Hr HK st u.
  { intros [= <- _]. apply follows_start. }
  apply Forall_app in Hd as [Hd Ho]. rewrite Forall_singleton in Ho.
  assert (HKs : unshadowed ops ⊆ K /\ unshadowed_by o ⊆ K).
  { unfold unshadowed_by, unshadowed in *. rewrite map_app, concat_app in HK.
    split; (etrans; [|exact HK]); intros k Hk; apply elem_of_app; auto. }
  destruct HKs as [HKs HKo].
  assert (Hr' : no_reuse ops).
  { intros l o' l' -> id Hid. apply (Hr l o' (l' ++ [o])); [by rewrite <- app_assoc|done]. }
  unfold run_plan. rewrite fold_left_app. cbn [fold_left]. fold (run_plan w0 ops).
  rewrite map_app, concat_app. cbn [map List.concat]. rewrite app_nil_r.
  destruct (follows_op K (List.concat (map deleted_by ops)) (run_plan w0 ops) o) as (l & Hl & Hf);
    [done| |exact HKo|].
  { intros id Hid Hg. by apply (Hr ops o [] eq_refl id Hg). }
  rewrite Hl at 1. rewrite replay_loop_app. destruct (replay_loop (start w0) _) as [st1 [u1|]] eqn:E; [|done].
  apply Hf. by eapply IH.
Qed.
End simulation.

(** *** What a remapped value is *)

(** [x] is [v] with each temporary id replaced by the id it stands for, however deep. *)
#[warnings="-register-all"]
Inductive stands_for (r : gmap Z Z) : pyval -> pyval -> Prop :=
| stands_id z real : z < 0 -> r !! z = Some real -> stands_for r (PInt z) (PInt real)
| stands_int z : 0 <= z -> stands_for r (PInt z) (PInt z)
| stands_list l l' : Forall2 (stands_for r) l l' -> stands_for r (PList l) (PList l')
| stands_dict d d' : Forall2 (fun x y => x.1 = y.1 /\ stands_for r x.2 y.2) d d' -> stands_for r (PDict d) (PDict d')
| stands_other v : match v with PInt _ | PList _ | PDict _ => False | _ => True end -> stands_for r v v.

Lemma mapped_stands_for r v x : mapped r v = Ok x -> stands_for r v x.
Proof.
  revert x. induction v as [| | z | | |l IH|d IH] using pyval_ind'; intros x; cbn; try (intros [= <-]; by constructor).
  - destruct (z <? 0) eqn:Ez; to_prop; [|intros [= <-]; by constructor].
    destruct (r !! z) as [y|] eqn:E; [|done]. intros [= <-]. by constructor.
  - destruct (traverse (mapped r) l) as [l'|] eqn:E; [|done]. intros [= <-]. constructor.
    apply traverse_Ok in E. induction E as [|a b l l' Hab E IHE]; [constructor|].
    apply Forall_cons in IH as [Ha IH]. constructor; auto.
  - destruct (traverse _ d) as [d'|] eqn:E; [|done]. intros [= <-]. constructor.
    apply traverse_Ok in E. induction E as [|a b d d' Hab E IHE]; [constructor|].
    apply Forall_cons in IH as [Ha IH]. constructor; [|by apply IHE].
    destruct (mapped r a.2) as [y|] eqn:Ey; [|done]. injection Hab as <-. split; [done|]. by apply Ha.
Qed.

(** A channel [c] of the service is the planned [f]: under each key, but [K], it has what the
    plan's value stands for if the plan's writes [l] set it, or else what was read. *)
Definition realised (l : list planned_write) (t : Z) (K : list string) (r : gmap Z Z) (f c : fields) : Prop :=
  forall k v, k <> "id" -> k ∉ K -> d_get k f = Some v ->
    if written l t k then stands_for r v (get_field k c) else reads_as k v (get_field k c).

Lemma mirrors_realised l t K r f c : mirrors (written l t) K r f c -> realised l t K r f c.
Proof.
  intros H k v Hid Hk Hg. specialize (H k v Hid Hk Hg). unfold shows in H.
  destruct (written l t k); [by apply mapped_stands_for|done].
Qed.

(** *** What a temporary id stands for *)

Definition made (l : list (planned_write * pyval)) : list (planned_write * pyval) :=
  List.filter (fun x => is_create (method x.1)) l.

(** The id that the answer to a create carries. *)
Definition answered_id (v : pyval) (real : Z) : Prop :=
  exists d x, v = PDict d /\ d_get "id" d = Some x /\ int_of x = Ok real.

(** The temporary ids -1, -2, ... are the ids answered to the creates, in their order. *)
Definition numbered_answers (l : list (planned_write * pyval)) (r : gmap Z Z) : Prop :=
  forall k wr v, made l !! k = Some (wr, v) -> exists real, answered_id v real /\ r !! (-1 - Z.of_nat k) = Some real.

Definition outcomes {W} (st : @replaying W) : list (planned_write * pyval) := map (fun x => (x.1.1, x.2)) (completed st).

Lemma created_id_answered m v real : created_id m v = Ok real -> answered_id v real.
Proof.
  unfold created_id, py_get. destruct v as [| | | | | |d]; try done. cbn [rbind].
  destruct (d_get "id" d) as [x|] eqn:E; [|done]. cbn. intros H. exists d, x. split_and!; [done|done|]. by destruct x.
Qed.

Lemma replay_loop_answers {W} `{Service W} l : forall (st st' : @replaying W) u,
  next_temp st = -1 - Z.of_nat (length (made (outcomes st))) -> numbered_answers (outcomes st) (remap st) ->
  replay_loop st l = (st', Ok u) ->
  map fst (outcomes st') = map fst (outcomes st) ++ l /\ numbered_answers (outcomes st') (remap st').
Proof.
  induction l as [|wr l IH]; intros st st' u Hn Ha; cbn [replay_loop]; [intros [= <- _]; by rewrite app_nil_r|].
  destruct (replay_one st wr) as [st1 [[]|e]] eqn:E; [|done]. intros Hl.
  assert (H1 : next_temp st1 = -1 - Z.of_nat (length (made (outcomes st1))) /\ numbered_answers (outcomes st1) (remap st1) /\
    map fst (outcomes st1) = map fst (outcomes st) ++ [wr]).
  { unfold replay_one in E. destruct (let! a := _ in _) as [[a k]|]; [|done].
    destruct (call (method wr) a k (world st)) as [w' [v|]]; [|done].
    assert (Hout : forall s0 : @replaying W, completed s0 = completed st ++ [(wr, a, v)] -> outcomes s0 = outcomes st ++ [(wr, v)])
      by (intros s0 Hs0; unfold outcomes; by rewrite Hs0, map_app).
    destruct (is_create (method wr)) eqn:Ec.
    - destruct (created_id (method wr) v) as [real|] eqn:Ei; [|done]. injection E as <-.
      rewrite !Hout by done. rewrite map_app. unfold numbered_answers, made in *. cbn [with_world remap next_temp]. rewrite List.filter_app. cbn [List.filter fst]. rewrite Ec, length_app. cbn [length].
      split_and!; [lia| |done]. intros i wr' v' [Hi|[Hi [Hz [= <- <-]]%list_lookup_singleton_Some]]%lookup_app_Some.
      + destruct (Ha i wr' v' Hi) as (x & Hx & Hr). exists x. split; [done|]. apply lookup_lt_Some in Hi.
        rewrite lookup_insert_ne by lia. done.
      + exists real. split; [by eapply created_id_answered|]. apply lookup_insert_Some. left. split; [lia|done].
    - injection E as <-. rewrite !Hout by done. rewrite map_app.
      unfold numbered_answers, made in *. cbn [with_world remap next_temp]. rewrite List.filter_app. cbn [List.filter fst]. rewrite Ec, app_nil_r. by split_and!. }
  destruct H1 as (Hn1 & Ha1 & Hm1). destruct (IH st1 st' u Hn1 Ha1 Hl) as [Hm2 Ha2].
  split; [|done]. by rewrite Hm2, Hm1, <- app_assoc.
Qed.

(** C4: a replay realises its plan.  Let a planning run over the service at [w] record a plan,
    and its replay from [w] succeed.  Then the writes were answered one by one, and each
    temporary id stands for the id its create was answered with; every channel of the plan's
    shadow, existing or created, is a channel of the service under the id it stands for,
    distinct channels under distinct ids; each of its fields that the plan wrote holds what
    was written, with every temporary id inside replaced by the id it stands for, and each
    other field what was read while planning; and a channel the run neither shadowed nor
    deleted is as it was.  Excepted are the keys the run writes past its shadow: numbers a bulk
    numbering assigns, and the groups of channels when a group is deleted.  (No operation
    touches a channel an earlier one deleted, and a payload has each key once.) *)
Theorem replay_realises_plan {W} `{Dispatcharr W} sha256 w ops validated w' results r :
  Forall op_dict ops -> no_reuse ops ->
  let p := run_plan w ops in
  replay_write_plan sha256 (the_plan p) validated w = (w', Ok (results, r)) ->
  length results = length (writes (the_plan p)) /\ numbered_answers (zip (writes (the_plan p)) results) r /\
  (forall t f, shadow p !! t = Some f ->
     exists id c, real_id r t = Some id /\ channel_of w' id = Some c /\
       realised (writes (the_plan p)) t (unshadowed ops) r f c) /\
  (forall t1 t2 f1 f2 id, shadow p !! t1 = Some f1 -> shadow p !! t2 = Some f2 ->
     real_id r t1 = Some id -> real_id r t2 = Some id -> t1 = t2) /\
  (forall id c, channel_of w id = Some c -> shadow p !! id = None ->
     id ∉ List.concat (map deleted_by ops) ->
     exists c', channel_of w' id = Some c' /\ same_outside (unshadowed ops) c c').
Proof.
  intros Hd Hr p Hrep. unfold replay_write_plan in Hrep.
  destruct (if validated then _ else _); [|done].
  destruct (replay_loop (start w) (writes (the_plan p))) as [st [u|]] eqn:E;
    [|by destruct (compensate _ _ _)].
  injection Hrep as <- <- <-.
  pose proof (follows_run w (unshadowed ops) ops Hd Hr (reflexivity _) st u E) as [].
  destruct (replay_loop_answers _ (start w) st u eq_refl ltac:(by intros k wr v) E) as [Hm Ha].
  cbn [outcomes start completed map app] in Hm. rewrite <- Hm.
  assert (Hz : zip (map fst (outcomes st)) (map snd (completed st)) = outcomes st).
  { unfold outcomes. clear. induction (completed st) as [|x l IH]; [done|]. cbn. f_equal. exact IH. }
  split_and!; [unfold outcomes; by rewrite !length_map|by rewrite Hz| |exact f_inj0|].
  - intros t f Ht. destruct (f_shadow0 t f Ht) as (id & c & Hid & Hc & Hmir). exists id, c. split_and!; [done..|].
    rewrite Hm. by apply mirrors_realised.
  - intros id c Hc Hs Hg. by eapply f_rest0.
Qed.

(** ** Compensation *)

(** Writes the compensation undoes, or that leave no channel behind. *)
Inductive reversible : planned_write -> Prop :=
| rev_create data : NoDup (keys data) -> reversible (write_of "create_channel" [PDict data])
| rev_group name : reversible (write_of "create_channel_group" [PStr name])
| rev_logo data : reversible (write_of "create_logo" [PDict data])
| rev_update t data : NoDup (keys data) -> reversible (write_of "update_channel" [PInt t; PDict data]).

(** A completed write with its mapped arguments and its answer. *)
Abbreviation done_write := (planned_write * list pyval * pyval)%type.

Definition created_by (x : done_write) : option Z :=
  if bool_decide (method x.1.1 = "create_channel") then
    match x.2 with
    | PDict d => match d_get "id" d with Some (PInt id) => Some id | _ => None end
    | _ => None
    end
  else None.

Definition updated_by (x : done_write) : option Z :=
  if bool_decide (method x.1.1 = "update_channel") then
    match x.1.2 with [PInt id; PDict _] => Some id | _ => None end
  else None.

(** What the replay of a reversible write completed with. *)
Definition done_ok (x : done_write) : Prop :=
  (method x.1.1 = "create_channel" /\ is_Some (created_by x)) \/
  method x.1.1 = "create_channel_group" \/ method x.1.1 = "create_logo" \/
  (method x.1.1 = "update_channel" /\ is_Some (updated_by x)).

(** The groups of channels may change when a created group is deleted again. *)
Definition regrouped (l : list planned_write) : list string :=
  if existsb (fun wr => bool_decide (method wr = "create_channel_group")) l
  then ["channel_group_id"] else [].

Section compensation.
Context {W : Type} {S : Service W} {D : Dispatcharr W} (w0 : W) (p : plan).
Implicit Types (w : W) (st : @replaying W).

(** A channel is as it was outside [K], or absent as it was. *)
Definition channels_same (K : list string) w w' : Prop :=
  forall id, match channel_of w id, channel_of w' id with
             | Some c, Some c' => same_outside K c c'
             | None, None => True
             | _, _ => False
             end.

Lemma same_outside_trans K c1 c2 c3 : same_outside K c1 c2 -> same_outside K c2 c3 -> same_outside K c1 c3.
Proof. intros H1 H2 k Hk HkK. by rewrite H1, H2. Qed.

(** The service after the writes of [done]. *)
Record reached (done : list done_write) w : Prop := {
  r_kept : forall id c, channel_of w0 id = Some c -> exists c', channel_of w id = Some c' /\
    (id ∉ omap updated_by done -> same_outside [] c c');
  r_here : forall id c, channel_of w id = Some c ->
    is_Some (channel_of w0 id) \/ id ∈ omap created_by done;
  r_new : forall id, id ∈ omap created_by done -> channel_of w0 id = None;
  r_done : Forall done_ok done;
}.

Lemma reached_same done w w' : channels_same [] w w' -> reached done w -> reached done w'.
Proof.
  intros Hs []. constructor; [| |done|done].
  - intros id c Hc. destruct (r_kept0 id c Hc) as (c1 & Hc1 & Hu). specialize (Hs id). rewrite Hc1 in Hs.
    destruct (channel_of w' id) as [c'|]; [|done]. exists c'. split; [done|].
    intros Hn. eapply same_outside_trans; [by apply Hu|exact Hs].
  - intros id c' Hc'. specialize (Hs id). rewrite Hc' in Hs.
    destruct (channel_of w id) as [c|] eqn:Ec; [by eapply r_here0|done].
Qed.

(** Extending [done] by a write of another kind. *)
Lemma reached_app done w x :
  reached done w -> created_by x = None -> done_ok x ->
  reached (done ++ [x]) w.
Proof.
  intros [] Hc Hx. constructor; try rewrite omap_app; cbn [omap list_omap].
  - intros id c Hid. destruct (r_kept0 id c Hid) as (c' & ? & Hu). exists c'. split; [done|].
    intros Hn. apply Hu. intros Hin. apply Hn, elem_of_app. by left.
  - rewrite Hc, app_nil_r. done.
  - rewrite Hc, app_nil_r. done.
  - apply Forall_app. split; [done|]. by constructor.
Qed.

Lemma reached_create done w w' x id c :
  reached done w -> method x.1.1 = "create_channel" -> created_by x = Some id ->
  channel_of w id = None -> channel_of w' id = Some c ->
  (forall id', id' <> id -> channel_of w' id' = channel_of w id') -> reached (done ++ [x]) w'.
Proof.
  intros [] Hm Hx Hnone Hc Hothers. constructor; try rewrite omap_app; cbn [omap list_omap]; rewrite ?Hx.
  - intros id' c' Hid'. destruct (r_kept0 id' c' Hid') as (c1 & Hc1 & Hu).
    exists c1. rewrite Hothers by congruence. split; [done|]. intros Hn. apply Hu.
    intros Hin. apply Hn, elem_of_app. by left.
  - intros id' c' Hc'. destruct (decide (id' = id)) as [->|Hne].
    + right. apply elem_of_app. right. by left.
    + rewrite Hothers in Hc' by done. destruct (r_here0 id' c' Hc'); [by left|right].
      apply elem_of_app. by left.
  - intros id' [Hin|Hin]%elem_of_app; [by apply r_new0|]. apply list_elem_of_singleton in Hin as ->.
    destruct (channel_of w0 id) as [c0|] eqn:E; [|done]. destruct (r_kept0 id c0 E) as (? & ? & _). congruence.
  - apply Forall_app. split; [done|]. constructor; [|done]. left. by rewrite Hx.
Qed.

Lemma reached_update done w w' x id c c' :
  reached done w -> method x.1.1 = "update_channel" -> updated_by x = Some id ->
  channel_of w id = Some c -> channel_of w' id = Some c' ->
  (forall id', id' <> id -> channel_of w' id' = channel_of w id') -> reached (done ++ [x]) w'.
Proof.
  intros [] Hm Hx Hc Hc' Hothers.
  assert (Hcr : created_by x = None) by (unfold created_by; by rewrite Hm).
  constructor; try rewrite omap_app; cbn [omap list_omap]; rewrite ?Hx, ?Hcr, ?app_nil_r.
  - intros id' c0 Hid'. destruct (r_kept0 id' c0 Hid') as (c1 & Hc1 & Hu).
    destruct (decide (id' = id)) as [->|Hne].
    + exists c'. split; [done|]. intros Hn. exfalso. apply Hn, elem_of_app. right. by left.
    + exists c1. rewrite Hothers by done. split; [done|]. intros Hn. apply Hu.
      intros Hin. apply Hn, elem_of_app. by left.
  - intros id' c0 Hid'. destruct (decide (id' = id)) as [->|Hne]; [by apply (r_here0 id c)|].
    rewrite Hothers in Hid' by done. by eapply r_here0.
  - done.
  - apply Forall_app. split; [done|]. constructor; [|done]. right; right; right. by rewrite Hx.
Qed.

Lemma reached_one done st wr st' u :
  reversible wr -> reached done (world st) -> replay_one st wr = (st', Ok u) ->
  exists x, completed st' = completed st ++ [x] /\ x.1.1 = wr /\ reached (done ++ [x]) (world st').
Proof.
  intros Hrev Hr Hone. destruct Hrev as [data Hnd|name|data|t data Hnd];
    pose proof Hone as (a' & v & Ha & Hcall & Hdone & _)%replay_one_done; eexists; (split; [exact Hdone|]);
    (split; [done|]).
  - apply mapped_args_dict in Ha as (data' & ? & -> & [= <-] & Hdata).
    destruct (create_spec _ _ _ _ ltac:(by rewrite (mapped_keys _ _ _ Hdata)) Hcall)
      as (d & id & c & -> & Hid & Hnone & Hc & _ & Hothers).
    eapply (reached_create _ _ _ _ id c); try done. unfold created_by. cbn. by rewrite Hid.
  - apply reached_app; [|done|by right; left].
    eapply reached_same; [|exact Hr]. intros id. refine (other_spec _ _ _ _ _ _ _ Hcall id). set_solver.
  - apply reached_app; [|done|by right; right; left].
    eapply reached_same; [|exact Hr]. intros id. refine (other_spec _ _ _ _ _ _ _ Hcall id). set_solver.
  - apply mapped_args_id in Ha as (id & ? & -> & _ & Ha).
    apply mapped_args_dict in Ha as (data' & ? & -> & [= <-] & Hdata).
    destruct (update_spec _ _ _ _ _ ltac:(by rewrite (mapped_keys _ _ _ Hdata)) Hcall)
      as (c & c' & Hc & Hc' & _ & Hothers).
    by eapply reached_update.
Qed.

(** The preconditions are the snapshots of the channels the plan was made over. *)
Definition recorded : Prop := forall id before, 0 < id ->
  d_get (str_of_Z id) (channel_preconditions p) = Some before ->
  exists c, channel_of w0 id = Some c /\ relevant id (PDict c) = Ok before.

Definition restored (before c : fields) : Prop :=
  forall k v, k <> "id" -> k ∉ regrouped (writes p) -> d_get k before = Some v ->
  reads_as k v (get_field k c).

Lemma restored_same before c c' :
  same_outside (regrouped (writes p)) c c' -> restored before c -> restored before c'.
Proof. intros Hs H k v Hid Hk Hg. unfold get_field. rewrite <- Hs by done. by apply H. Qed.

(** The service when the writes of [back] have been undone and those of [rest] have not. *)
Record undone (rest back : list done_write) w : Prop := {
  u_kept : forall id c, channel_of w0 id = Some c -> exists c', channel_of w id = Some c' /\
    forall before, d_get (str_of_Z id) (channel_preconditions p) = Some before ->
    id ∈ omap updated_by back \/ id ∉ omap updated_by (rest ++ back) -> restored before c';
  u_here : forall id c, channel_of w id = Some c ->
    is_Some (channel_of w0 id) \/ id ∈ omap created_by rest;
  u_new : forall id, id ∈ omap created_by rest -> channel_of w0 id = None;
  u_done : Forall done_ok rest;
}.

Lemma undone_start l w : recorded -> reached l w -> undone l [] w.
Proof.
  intros Hrec []. constructor; try done. rewrite app_nil_r. intros id c Hc.
  destruct (r_kept0 id c Hc) as (c' & Hc' & Hu). exists c'. split; [done|].
  intros before Hb [Hin|Hn]; [by apply elem_of_nil in Hin|].
  destruct (Hrec id before (channel_positive _ _ _ Hc) Hb) as (c0 & Hc0 & Hrel). simplify_eq.
  intros k v Hid Hk Hg. unfold get_field. rewrite <- (Hu Hn k Hid) by set_solver.
  by eapply relevant_reads.
Qed.

(** Undoing a write that leaves the channels but for their groups. *)
Lemma undone_other rest back x w w' :
  undone (rest ++ [x]) back w -> updated_by x = None -> created_by x = None ->
  channels_same (regrouped (writes p)) w w' -> undone rest (x :: back) w'.
Proof.
  intros [] Hu Hc Hs. rewrite omap_app in u_here0, u_new0. cbn in u_here0, u_new0.
  rewrite Hc, app_nil_r in u_here0, u_new0. apply Forall_app in u_done0 as [? _].
  constructor; [| |done|done].
  - intros id c Hid. destruct (u_kept0 id c Hid) as (c1 & Hc1 & Hr). specialize (Hs id). rewrite Hc1 in Hs.
    destruct (channel_of w' id) as [c'|]; [|done]. exists c'. split; [done|]. intros before Hb Hin.
    eapply restored_same; [exact Hs|]. apply Hr; [done|]. cbn in Hin. rewrite Hu in Hin.
    by rewrite <- app_assoc.
  - intros id c' Hc'. specialize (Hs id). rewrite Hc' in Hs.
    destruct (channel_of w id) as [c|] eqn:Ec; [by eapply u_here0|done].
Qed.

Lemma undone_create rest back x w w' id :
  undone (rest ++ [x]) back w -> updated_by x = None -> created_by x = Some id ->
  channel_of w' id = None -> (forall id', id' <> id -> channel_of w' id' = channel_of w id') ->
  undone rest (x :: back) w'.
Proof.
  intros [] Hu Hc Hnone Hothers. rewrite omap_app in u_here0, u_new0. cbn in u_here0, u_new0.
  rewrite Hc in u_here0, u_new0. apply Forall_app in u_done0 as [? _].
  constructor; [| | |done].
  - intros id' c Hid. destruct (u_kept0 id' c Hid) as (c1 & Hc1 & Hr).
    exists c1. rewrite Hothers.
    + split; [done|]. intros before Hb Hin. apply Hr; [done|]. cbn in Hin. rewrite Hu in Hin.
      by rewrite <- app_assoc.
    + intros ->. rewrite u_new0 in Hid; [done|]. apply elem_of_app. right. by left.
  - intros id' c' Hc'. destruct (decide (id' = id)) as [->|Hne]; [congruence|].
    rewrite Hothers in Hc' by done. destruct (u_here0 id' c' Hc') as [?|Hin]; [by left|right].
    apply elem_of_app in Hin as [?|Hin]; [done|]. by apply list_elem_of_singleton in Hin.
  - intros id' Hin. apply u_new0, elem_of_app. by left.
Qed.

Lemma undone_update rest back x w w' id :
  undone (rest ++ [x]) back w -> updated_by x = Some id -> created_by x = None ->
  (forall c, channel_of w0 id = Some c -> exists c', channel_of w' id = Some c' /\
     forall before, d_get (str_of_Z id) (channel_preconditions p) = Some before -> restored before c') ->
  (forall c', channel_of w' id = Some c' -> is_Some (channel_of w id)) ->
  (forall id', id' <> id -> channel_of w' id' = channel_of w id') ->
  undone rest (x :: back) w'.
Proof.
  intros [] Hu Hc Hid Hback Hothers. rewrite omap_app in u_here0, u_new0. cbn in u_here0, u_new0.
  rewrite Hc, app_nil_r in u_here0, u_new0. apply Forall_app in u_done0 as [? _].
  constructor; [| |done|done].
  - intros id' c Hc'. destruct (decide (id' = id)) as [->|Hne].
    + destruct (Hid c Hc') as (c' & ? & Hr). exists c'. split; [done|]. intros before Hb _. by apply Hr.
    + destruct (u_kept0 id' c Hc') as (c1 & Hc1 & Hr). exists c1. rewrite Hothers by done.
      split; [done|]. intros before Hb Hin. apply Hr; [done|]. cbn in Hin. rewrite Hu in Hin.
      rewrite <- app_assoc. destruct Hin as [[?|?]%elem_of_cons|Hn]; [done|by left|by right].
  - intros id' c' Hc'. destruct (decide (id' = id)) as [->|Hne].
    + destruct (Hback c' Hc') as [c Hc0]. by eapply u_here0.
    + rewrite Hothers in Hc' by done. by eapply u_here0.
Qed.

(** The items an update writes back. *)
Definition writable (before : fields) : fields :=
  List.filter (fun x => negb (bool_decide (x.1 = "id"))) before.

Lemma d_get_writable k before : k <> "id" -> d_get k (writable before) = d_get k before.
Proof.
  intros Hk. unfold writable.
  pose proof (d_get_filter (fun s : string => negb (bool_decide (s = "id"))) k before) as H.
  cbn beta in H. rewrite H. by rewrite bool_decide_false.
Qed.

Lemma writable_NoDup id v before : relevant id v = Ok before -> NoDup (keys (writable before)).
Proof.
  intros Hr%relevant_keys. apply keys_NoDup_filter. rewrite Hr. apply (bool_decide_unpack _). vm_compute. exact I.
Qed.

Lemma undo_update_call rest back x w w' id d v before :
  recorded -> undone (rest ++ [x]) back w -> method x.1.1 = "update_channel" ->
  x.1.2 = [PInt id; PDict d] -> 0 < id ->
  d_get (str_of_Z id) (channel_preconditions p) = Some before ->
  call "update_channel" [PInt id; PDict (writable before)] [] w = (w', Ok v) ->
  undone rest (x :: back) w'.
Proof.
  intros Hrec Hun Hm Hargs Hpos Hb Hcall.
  destruct (Hrec id before Hpos Hb) as (c0 & Hc0 & Hrel).
  destruct (update_spec _ _ _ _ _ (writable_NoDup _ _ _ Hrel) Hcall) as (c & c' & Hc & Hc' & Hvals & Hothers).
  eapply (undone_update _ _ x w w' id Hun); [|unfold created_by; by rewrite Hm| |by rewrite Hc|done].
  - unfold updated_by. rewrite Hm, Hargs. done.
  - intros c1 _. exists c'. split; [done|]. intros before' Hb' k v' Hid Hk Hg. simplify_eq.
    unfold get_field. rewrite Hvals by done. rewrite d_get_writable, Hg by done. by left.
Qed.

Lemma undo_update_skip rest back x w id d :
  undone (rest ++ [x]) back w -> method x.1.1 = "update_channel" -> x.1.2 = [PInt id; PDict d] ->
  (0 < id -> default [] (d_get (str_of_Z id) (channel_preconditions p)) = []) ->
  undone rest (x :: back) w.
Proof.
  intros Hun Hm Hargs Hskip.
  eapply (undone_update _ _ x w w id Hun); [|unfold created_by; by rewrite Hm| |by eexists|done].
  - unfold updated_by. by rewrite Hm, Hargs.
  - intros c Hc. destruct (u_kept _ _ _ Hun id c Hc) as (c' & Hc' & _). exists c'. split; [done|].
    intros before Hb. pose proof (channel_positive _ _ _ Hc) as Hpos. specialize (Hskip Hpos).
    rewrite Hb in Hskip. cbn in Hskip. subst before. by intros k v _ _ Hg.
Qed.

Lemma undone_one rest back x w w' u :
  recorded -> undone (rest ++ [x]) back w -> x.1.1 ∈ writes p ->
  compensate_one p w x = (w', Ok u) -> undone rest (x :: back) w'.
Proof.
  intros Hrec Hun Hin Hone. pose proof (u_done _ _ _ Hun) as Hok.
  apply Forall_app in Hok as [_ Hok]. rewrite Forall_singleton in Hok.
  destruct x as [[wr a] value]. unfold done_ok, created_by, updated_by in Hok. cbn [fst snd] in *.
  unfold compensate_one in Hone. destruct Hok as [[Hm Hid]|[Hm|[Hm|[Hm Hid]]]]; rewrite Hm in Hone, Hin || rewrite Hm in Hone; cbn in Hone.
  - rewrite Hm in Hid. cbn in Hid. destruct value as [| | | | | |d]; try by destruct Hid.
    destruct (d_get "id" d) as [[| |id| | | |]|] eqn:Ed; try by destruct Hid. cbn in Hone.
    destruct (call "delete_channel" [PInt id] [] w) as [w1 [v|]] eqn:Ec; [|done]. cbn in Hone.
    injection Hone as <- _. destruct (delete_spec _ _ _ _ Ec) as [Hnone Hothers].
    eapply (undone_create _ _ _ w w1 id); try done; unfold updated_by, created_by; cbn; rewrite Hm; [done|].
    cbn. by rewrite Ed.
  - destruct (match value with PDict d => _ | _ => _ end) as [gid|]; [|done].
    destruct (call "delete_channel_group" [gid] [] w) as [w1 [v|]] eqn:Ec; [|done]. cbn in Hone.
    injection Hone as <- _.
    eapply (undone_other _ _ _ w w1); try done; [unfold updated_by|unfold created_by|]; cbn; rewrite ?Hm; [done..|].
    assert (regrouped (writes p) = ["channel_group_id"]) as ->.
    { unfold regrouped. destruct (existsb _ _) eqn:E; [done|]. exfalso.
      apply Bool.not_true_iff_false in E. apply E, existsb_exists. exists wr.
      split; [by apply list_elem_of_In|]. by apply bool_decide_eq_true. }
    intros id. refine (other_spec _ _ _ _ _ _ _ Ec id). set_solver.
  - injection Hone as <- _. eapply (undone_other _ _ _ w w); try done;
      [unfold updated_by|unfold created_by|]; cbn; rewrite ?Hm; [done..|].
    intros id. by destruct (channel_of w id).
  - rewrite Hm in Hid. cbn in Hid. destruct a as [|[| |id| | | |] a]; try by destruct Hid.
    destruct a as [|[| | | | | |d] [|]]; try by destruct Hid. cbn in Hone.
    destruct (0 <? id) eqn:Hpos; to_prop; cbn in Hone.
    + destruct (d_get (str_of_Z id) (channel_preconditions p)) as [[|y before]|] eqn:Eb.
      * injection Hone as <- _. eapply undo_update_skip; [done..|]. by rewrite Eb.
      * fold (writable (y :: before)) in Hone.
        destruct (call "update_channel" _ [] w) as [w1 [v|]] eqn:Ec; [|done]. cbn in Hone.
        injection Hone as <- _. by eapply undo_update_call.
      * injection Hone as <- _. eapply undo_update_skip; [done..|]. by rewrite Eb.
    + injection Hone as <- _. eapply undo_update_skip; [done..|]. lia.
Qed.

Lemma compensate_errors l w errs w' errs' :
  fold_left (compensate_step p) l (w, errs) = (w', errs') -> exists more, errs' = errs ++ more.
Proof.
  revert w errs. induction l as [|x l IH]; intros w errs; cbn.
  - intros [= _ <-]. exists []. by rewrite app_nil_r.
  - destruct (compensate_one p w x) as [w1 [u|e]]; [by apply IH|].
    intros H. apply IH in H as (more & ->). exists ((method x.1.1, e) :: more). by rewrite <- app_assoc.
Qed.

Lemma undone_all rest back w w' :
  recorded -> undone rest back w -> (forall x, x ∈ rest -> x.1.1 ∈ writes p) ->
  fold_left (compensate_step p) (reverse rest) (w, []) = (w', []) -> undone [] (rest ++ back) w'.
Proof.
  intros Hrec. revert back w. induction rest as [|x rest IH] using rev_ind; intros back w Hun Hin; [by intros [= <-]|].
  rewrite reverse_snoc. cbn [fold_left compensate_step].
  destruct (compensate_one p w x) as [w1 [u|e]] eqn:E.
  - intros H. rewrite <- app_assoc. apply (IH _ w1); [|intros y Hy; apply Hin, elem_of_app; by left|done].
    eapply undone_one; [done|done| |done]. apply Hin, elem_of_app. right. by left.
  - by intros (more & ?)%compensate_errors.
Qed.

(** A call that raises has written no channel. *)
Context (raise_inert : forall m a k w w' e, call m a k w = (w', Raise e) ->
  forall id, channel_of w' id = channel_of w id).

Lemma channels_same_refl K w w' :
  (forall id, channel_of w' id = channel_of w id) -> channels_same K w w'.
Proof. intros H id. rewrite H. by destruct (channel_of w id). Qed.

Lemma replay_one_fail st wr st' e :
  reversible wr -> replay_one st wr = (st', Raise e) ->
  completed st' = completed st /\ channels_same [] (world st) (world st').
Proof.
  intros Hrev H.
  assert (exists m a, wr = write_of m a) as (m & a & ->) by (destruct Hrev; by eexists _, _).
  unfold replay_one in H. cbn [args kwargs method write_of] in H.
  destruct (mapped_args (remap st) a) as [a'|e'] eqn:Ea; cbn [rbind mapped_kwargs traverse] in H;
    [|injection H as <- _; split; [done|by apply channels_same_refl]].
  destruct (call m a' [] (world st)) as [w' [v|e']] eqn:Ecall;
    [|injection H as <- _; split; [done|apply channels_same_refl; by eapply raise_inert]].
  destruct (is_create m) eqn:Hc; [|done].
  destruct (created_id m v) as [real|e'] eqn:Eid; [done|]. injection H as <- _. split; [done|].
  inversion Hrev; subst; try done.
  - exfalso. apply mapped_args_dict in Ea as (data' & ? & -> & [= <-] & Hdata).
    destruct (create_spec _ _ _ _ ltac:(by rewrite (mapped_keys _ _ _ Hdata)) Ecall)
      as (d & id & c & -> & Hid & _). unfold created_id in Eid. cbn in Eid. by rewrite Hid in Eid.
  - intros id. refine (other_spec _ _ _ _ _ _ _ Ecall id). set_solver.
  - intros id. refine (other_spec _ _ _ _ _ _ _ Ecall id). set_solver.
Qed.

Lemma reached_loop l st st' r :
  Forall reversible l -> reached (completed st) (world st) -> replay_loop st l = (st', r) ->
  reached (completed st') (world st') /\
  forall x, x ∈ completed st' -> x ∈ completed st \/ x.1.1 ∈ l.
Proof.
  revert st. induction l as [|wr l IH]; intros st Hrev Hr; cbn.
  - intros [= <- _]. split; [done|]. by left.
  - apply Forall_cons in Hrev as [Hwr Hrev]. destruct (replay_one st wr) as [st1 [u|e]] eqn:E.
    + intros H. destruct (reached_one _ _ _ _ _ Hwr Hr E) as (x & Hx & Hwx & Hr1). rewrite <- Hx in Hr1.
      destruct (IH st1 Hrev Hr1 H) as [Hr' Hin]. split; [done|]. intros y Hy.
      destruct (Hin y Hy) as [Hy'|?]; [|right; by right]. rewrite Hx in Hy'.
      apply elem_of_app in Hy' as [?|Hy']; [by left|right]. apply list_elem_of_singleton in Hy' as ->.
      rewrite Hwx. by left.
    + intros [= <- _]. destruct (replay_one_fail _ _ _ _ Hwr E) as [Hc Hs]. rewrite Hc.
      split; [by eapply reached_same|]. by left.
Qed.
End compensation.

(** *** A planning run records the channels it read *)

Lemma str_of_Z_inj a b : 0 <= a -> 0 <= b -> str_of_Z a = str_of_Z b -> a = b.
Proof.
  intros Ha Hb E. pose proof (digits_str_of_Z a Ha) as Hda. rewrite E, (digits_str_of_Z b Hb) in Hda.
  injection Hda. lia.
Qed.

(** Every precondition is the snapshot of a channel of [w], under its id. *)
Definition snapshots {W} `{Dispatcharr W} (w : W) (d : dict_of fields) : Prop :=
  forall key before, d_get key d = Some before ->
  exists id c, key = str_of_Z id /\ channel_of w id = Some c /\ relevant id (PDict c) = Ok before.

Section recording.
Context {W : Type} {S : Service W} {D : Dispatcharr W} (w : W).

Definition faithful (p : planner) : Prop := snapshots w (channel_preconditions (the_plan p)).

Lemma faithful_channel_before id p : faithful p -> faithful (channel_before w id p).1.
Proof.
  intros Hf. unfold channel_before. destruct (shadow p !! id) as [d|]; [done|].
  destruct (get_channel id w) as [v|] eqn:Eg; [|done]. cbn [rbind].
  destruct (get_channel_spec _ _ _ Eg) as (c & -> & Hc).
  destruct (relevant id (PDict c)) as [r|] eqn:Er; [|done].
  intros key before. cbn [fst the_plan channel_preconditions]. unfold d_setdefault.
  destruct (d_mem _ _); [apply Hf|]. rewrite d_get_set. case_bool_decide; [|apply Hf].
  intros [= <-]. by exists id, c.
Qed.

Lemma faithful_after {A} id (f : fields -> planning A) p :
  (forall d p1, faithful p1 -> faithful (f d p1).1) -> faithful p ->
  faithful (then_ (channel_before w id) f p).1.
Proof.
  intros Hf Hp. apply (faithful_channel_before id) in Hp. unfold then_.
  destruct (channel_before w id p) as [p1 [d|e]]; [by apply Hf|done].
Qed.

Lemma faithful_op p o : faithful p -> faithful (plan_op w p o).
Proof.
  intros Hp. destruct o; cbn [plan_op]; try done; try (apply faithful_after; [|done]; intros d p1 H1).
  - done.
  - done.
  - unfold planned_delete_channel_group. by destruct (rbind _ _).
  - unfold planned_assign_channel_numbers, then_.
    assert (Hb : faithful (channels_before w ids p).1).
    { revert p Hp. induction ids as [|id ids IH]; intros p Hp; [done|]. cbn.
      apply faithful_after; [|done]. intros _ p1. apply IH. }
    by destruct (channels_before w ids p) as [p1 [u|e]].
  - by destruct (rbind _ _).
Qed.

Lemma run_plan_recorded ops : recorded w (the_plan (run_plan w ops)).
Proof.
  assert (Hf : faithful (run_plan w ops)).
  { unfold run_plan. assert (H0 : faithful new_planner) by done. revert H0. generalize new_planner.
    induction ops as [|o ops IH]; intros p Hp; [done|]. cbn. by apply IH, faithful_op. }
  intros id before Hpos Hg. destruct (Hf _ _ Hg) as (id' & c & Heq & Hc & Hr).
  pose proof (channel_positive _ _ _ Hc). apply str_of_Z_inj in Heq; [|lia..]. subst id'. by exists c.
Qed.
End recording.

(** C25: a failed replay of a plan that only creates channels, groups and logos and updates
    channels ([reversible]; deletes, profile memberships and bulk numberings the code does not
    undo), whose compensating calls all succeed, restores the channels.  Let the plan's
    preconditions be the snapshots of the channels of [w], and a call that raises change no
    channel.  If the validated replay from [w] then fails part way with no compensation error,
    no channel exists that did not before, every channel that existed still does, and each one
    with a precondition reads on the snapshot's keys as it was recorded (but for its group, when
    the plan creates groups: one that was created had to be deleted).  Of fields outside the
    snapshot nothing is claimed ([failing_replay]). *)
Theorem pipeline_compensation_restores {W} `{Dispatcharr W} sha256 w p w' k completed :
  (forall m a kw v v' e, call m a kw v = (v', Raise e) -> forall id, channel_of v' id = channel_of v id) ->
  recorded w p -> Forall reversible (writes p) ->
  replay_write_plan sha256 p true w = (w', Raise (PartialReplay k completed [])) ->
  (forall id, channel_of w id = None -> channel_of w' id = None) /\
  forall id c, channel_of w id = Some c ->
    exists c', channel_of w' id = Some c' /\
      forall before, d_get (str_of_Z id) (channel_preconditions p) = Some before -> restored p before c'.
Proof.
  intros Hinert Hrec Hrev Hrep. unfold replay_write_plan in Hrep.
  destruct (replay_loop (start w) (writes p)) as [st [u1|e1]] eqn:El; [done|].
  destruct (compensate p (PipelineWritePlan.completed st) (world st)) as [w1 errs] eqn:Ec.
  injection Hrep as <- _ _ ->.
  assert (Hst0 : reached w [] w).
  { constructor; try done; [|by left|by intros ? ?%elem_of_nil].
    intros id c Hc. exists c. by split. }
  destruct (reached_loop w Hinert _ (start w) _ _ Hrev Hst0 El) as [Hr Hin].
  pose proof (undone_start w p _ _ Hrec Hr) as Hun.
  eapply undone_all in Hun; [|done| |exact Ec].
  2: { intros x Hx. by destruct (Hin x Hx) as [?%elem_of_nil|?]. }
  rewrite app_nil_r in Hun. destruct Hun. split.
  - intros id Hid. destruct (channel_of w1 id) as [c|] eqn:E; [|done].
    destruct (u_here0 id c E) as [[c' ?]|?%elem_of_nil]; [congruence|done].
  - intros id c Hc. destruct (u_kept0 id c Hc) as (c' & Hc' & Hb). exists c'. split; [done|].
    intros before Hbe. apply Hb; [done|]. cbn.
    destruct (decide (id ∈ omap updated_by (PipelineWritePlan.completed st))); auto.
Qed.

(** ** Concrete runs *)

Import Demo.

(** A group, a channel in it, streams for that channel, and an update of channel 7. *)
Definition demo_ops : list op :=
  [CreateGroup "News"; CreateChannel [("name", PStr "A"); ("channel_group_id", PInt (-1))];
   UpdateChannel (-2) [("streams", PList [PInt 5])]; UpdateChannel 7 [("name", PStr "B")]].

Definition demo_replay : state * result (list pyval * gmap Z Z) :=
  replay_write_plan (fun s => s) (the_plan (run_plan demo_world demo_ops)) false demo_world.

Example demo_replay_result :
  let '(w, r) := demo_replay in
  w !! 8 = Some [("name", PStr "A"); ("channel_group_id", PInt 60); ("id", PInt 8);
                 ("streams", PList [PInt 5])] /\
  (d_get "name" <$> w !! 7) = Some (Some (PStr "B")) /\ is_ok r = true.
Proof. vm_compute. split_and!; reflexivity. Qed.

Lemma replay_realises_plan_witness :
  exists w results r,
    replay_write_plan (fun s => s) (the_plan (run_plan demo_world demo_ops)) false demo_world =
      (w, Ok (results, r)) /\
    exists id c, real_id r (-2) = Some id /\ lookup_channel w id = Some c /\
      stands_for r (PInt (-1)) (get_field "channel_group_id" c).
Proof.
  destruct demo_replay as [w [[results r]|e]] eqn:E; [|by vm_compute in E].
  exists w, results, r. split; [exact E|].
  assert (Hd : Forall op_dict demo_ops).
  { repeat constructor; cbn; try apply (bool_decide_unpack _); vm_compute; exact I. }
  assert (Hr : no_reuse demo_ops).
  { intros l o l' Hl id Hid. exfalso.
    assert (Hnil : List.concat (map deleted_by demo_ops) = []) by reflexivity.
    rewrite Hl, map_app, concat_app in Hnil. apply app_eq_nil in Hnil as [Hnil _].
    rewrite Hnil in Hid. by apply elem_of_nil in Hid. }
  pose proof (replay_realises_plan (fun s => s) demo_world demo_ops false w results r Hd Hr E) as (_ & _ & Hs & _ & _).
  destruct (shadow (run_plan demo_world demo_ops) !! (-2)) as [f|] eqn:Ef; [|by vm_compute in Ef].
  destruct (Hs (-2) f Ef) as (id & c & Hid & Hc & Hm). exists id, c. split; [exact Hid|split; [exact Hc|]].
  apply (Hm "channel_group_id" (PInt (-1))); [done|by apply (bool_decide_unpack _)|]. vm_compute in Ef. by injection Ef as <-.
Defined.

(** A create and an update that land, and an update the service refuses. *)
Definition failing_ops : list op :=
  [CreateChannel [("name", PStr "A")];
   UpdateChannel 7 [("name", PStr "B"); ("custom_properties", PDict [])];
   UpdateChannel 7 [("reject", PBool true)]].

Definition failing_plan : plan := the_plan (run_plan demo_world failing_ops).

(** The compensation deletes the created channel and restores the name, but not the
    [custom_properties] the update replaced, which the snapshot does not hold. *)
Example failing_replay :
  let '(w, r) := replay_write_plan (fun s => s) failing_plan true demo_world in
  r = Raise (PartialReplay 2 ["create_channel:{'name': 'A'}"; "update_channel:7"] []) /\
  w !! 8 = None /\ (d_get "name" <$> w !! 7) = Some (Some (PStr "Old")) /\
  (d_get "custom_properties" <$> w !! 7) = Some (Some (PDict [])).
Proof. vm_compute. split_and!; reflexivity. Qed.

Lemma pipeline_compensation_restores_witness :
  exists w completed,
    replay_write_plan (fun s => s) failing_plan true demo_world =
      (w, Raise (PartialReplay 2 completed [])) /\
    lookup_channel w 8 = None.
Proof.
  destruct (replay_write_plan (fun s => s) failing_plan true demo_world) as [w r] eqn:E.
  assert (Hr : exists completed, r = Raise (PartialReplay 2 completed [])).
  { vm_compute in E. injection E as <- <-. by eexists. }
  destruct Hr as [completed ->]. exists w, completed. split; [done|].
  assert (Hinert : forall m a kw (v v' : state) e, call m a kw v = (v', Raise e) ->
    forall id, channel_of v' id = channel_of v id).
  { cbn. intros m a kw v v' e Hc id. assert (v' = v) as ->; [|done].
    unfold demo_call in Hc. repeat case_match; simplify_eq; done. }
  assert (Hrev : Forall reversible (writes failing_plan)).
  { vm_compute. repeat constructor; apply (bool_decide_unpack _); vm_compute; exact I. }
  pose proof (pipeline_compensation_restores (fun s => s) demo_world failing_plan w 2 completed Hinert
    (run_plan_recorded demo_world failing_ops) Hrev E) as [Hnone _].
  apply (Hnone 8). reflexivity.
Defined.

End PipelineReplay.
