(* ===== verification/DatePlaceholders.v ===== *)
(** * Date placeholders ([backend/date_placeholders.py]).

    [{date}], [{today}], [{date+3d}], [{date-1w:%d %b}] in a condition's text, expanded into
    today's date or into a group of alternatives before the text is matched.  Text is ASCII;
    the clock is read once. *)
From S2P Require Import Prelude PyValue PyText PyDatetime.
Open Scope Z_scope.

Module DatePlaceholders.

Definition MAX_DATE_RANGE_DAYS : Z := 90.

(** Python refuses to convert longer decimal literals. *)
Definition MAX_STR_DIGITS : nat := 4300.

(** The longest prefix whose characters satisfy [p], and the rest. *)
Fixpoint span (p : ascii -> bool) (s : string) : string * string :=
  match s with
  | String c s' => if p c then let '(a, b) := span p s' in (String c a, b) else (EmptyString, s)
  | EmptyString => (EmptyString, s)
  end.

Record offset := Offset { o_negative : bool; o_digits : string; o_unit : option ascii }.

(** A match of [_DATE_TOKEN_PATTERN]: the matched text and its two groups. *)
Record token := Token { tk_text : string; tk_offset : option offset; tk_format : option string }.

(** [([+-]\d+[dw]?)?] *)
Definition match_offset (s : string) : option offset * string :=
  match s with
  | String sign r =>
      if bool_decide (sign = "+"%char) || bool_decide (sign = "-"%char) then
        match span is_decimal r with
        | (EmptyString, _) => (None, s)
        | (ds, r') =>
            let neg := bool_decide (sign = "-"%char) in
            match r' with
            | String u r'' =>
                if bool_decide (u = "d"%char) || bool_decide (u = "w"%char)
                then (Some (Offset neg ds (Some u)), r'') else (Some (Offset neg ds None), r')
            | EmptyString => (Some (Offset neg ds None), r')
            end
        end
      else (None, s)
  | EmptyString => (None, s)
  end.

(** [(:[^}]+)?] *)
Definition match_format (s : string) : option string * string :=
  match s with
  | String c r =>
      if bool_decide (c = ":"%char) then
        match span (fun c => negb (bool_decide (c = "}"%char))) r with
        | (EmptyString, _) => (None, s)
        | (f, r') => (Some f, r')
        end
      else (None, s)
  | EmptyString => (None, s)
  end.

Definition offset_text (o : offset) : string :=
  (String (if o_negative o then "-" else "+")%char (o_digits o) ++
   match o_unit o with Some u => String u EmptyString | None => EmptyString end)%string.

(** One match at the start of [s], and what follows it. *)
Definition match_token (s : string) : option (token * string) :=
  '(word, r) ← match drop_prefix "{date" s with
               | Some r => Some ("{date", r)
               | None => r ← drop_prefix "{today" s; Some ("{today", r)
               end;
  let '(o, r1) := match_offset r in
  let '(f, r2) := match_format r1 in
  rest ← drop_prefix "}" r2;
  Some (Token (word ++ from_option offset_text EmptyString o ++
               from_option (fun f => ":" ++ f) EmptyString f ++ "}")%string o f, rest).

(** [range(0, stop, step)] *)
Fixpoint range_up (n : nat) (i step stop : Z) : list Z :=
  match n with
  | O => []
  | S n => if (if 0 <? step then i <? stop else stop <? i) then i :: range_up n (i + step) step stop else []
  end.
Definition py_range (stop step : Z) : list Z := range_up (Z.to_nat (Z.abs stop)) 0 step stop.

(** [int(val_str)] *)
Definition offset_value (o : offset) : option Z :=
  if (MAX_STR_DIGITS <? String.length (o_digits o))%nat then None
  else n ← int_digits 0 (o_digits o); Some (if o_negative o then - n else n).

(** The days of the range of a non-zero offset. *)
Definition range_days (val : Z) (unit : option ascii) : list Z :=
  let days := if bool_decide (unit = Some "w"%char) then val * 7 else val in
  let days := if MAX_DATE_RANGE_DAYS <? days then MAX_DATE_RANGE_DAYS
              else if days <? - MAX_DATE_RANGE_DAYS then - MAX_DATE_RANGE_DAYS else days in
  let step := if 0 <? days then 1 else -1 in
  py_range (days + step) step.

Section expand.
(** [(datetime.now() + timedelta(days=i)).strftime(fmt)]; [None] is its [ValueError]. *)
Variable strftime : Z -> string -> option string.
(** The substitution in this text runs out of its budget. *)
Variable timed_out : string -> bool.

(** [replace_match] *)
Definition replace_match (allow_ranges : bool) (t : token) : string :=
  let fmt := default "%Y-%m-%d" (tk_format t) in
  match tk_offset t with
  | Some o =>
      if allow_ranges then
        match offset_value o with
        | None => tk_text t
        | Some val =>
            if val =? 0 then default (tk_text t) (strftime 0 fmt)
            else match mapM (fun i => strftime i fmt) (range_days val (o_unit o)) with
                 | Some dates => ("(" ++ String.concat "|" dates ++ ")")%string
                 | None => tk_text t
                 end
        end
      else tk_text t
  | None => default (tk_text t) (strftime 0 fmt)
  end.

(** The substitution, left to right; [fuel] bounds the matches and the characters between them. *)
Fixpoint expand_from (fuel : nat) (allow_ranges : bool) (s : string) : string :=
  match fuel with
  | O => s
  | S fuel =>
      match match_token s with
      | Some (t, rest) => (replace_match allow_ranges t ++ expand_from fuel allow_ranges rest)%string
      | None => match s with
                | String c s' => String c (expand_from fuel allow_ranges s')
                | EmptyString => EmptyString
                end
      end
  end.

Definition expand_text (allow_ranges : bool) (text : string) : string :=
  if negb (contains_char "{" text) then text
  else if timed_out text then text
  else expand_from (S (String.length text)) allow_ranges text.

(** On any value: what is not a string comes back as it is. *)
Definition expand_date_placeholders (v : pyval) (allow_ranges : bool) : pyval :=
  match v with PStr s => PStr (expand_text allow_ranges s) | _ => v end.

(** ** The scan *)

Lemma span_app p s a b : span p s = (a, b) -> s = (a ++ b)%string.
Proof.
  revert a b. induction s as [|c s IH]; intros a b; cbn; [by intros [= <- <-]|].
  destruct (p c); [|by intros [= <- <-]]. destruct (span p s) as [a' b'] eqn:E.
  intros [= <- <-]. by rewrite s_app_cons, <- (IH a' b' eq_refl).
Qed.

Lemma match_offset_app s o r : match_offset s = (o, r) -> s = (from_option offset_text EmptyString o ++ r)%string.
Proof.
  unfold match_offset, from_option, offset_text. destruct s as [|sign s]; [by intros [= <- <-]|].
  destruct (bool_decide (sign = "+"%char) || bool_decide (sign = "-"%char)) eqn:Es; [|by intros [= <- <-]].
  destruct (span is_decimal s) as [ds r'] eqn:Esp. apply span_app in Esp as ->.
  destruct ds as [|d ds]; [by intros [= <- <-]|].
  assert (Hsign : sign = (if bool_decide (sign = "-"%char) then "-" else "+")%char).
  { apply orb_true_iff in Es as [Es|Es]; apply bool_decide_eq_true in Es as ->; reflexivity. }
  intros H. rewrite Hsign. clear Hsign Es.
  destruct r' as [|u r''].
  - injection H as <- <-. cbn. by rewrite !s_app_nil_r.
  - destruct (bool_decide (u = "d"%char) || bool_decide (u = "w"%char)); injection H as <- <-; cbn;
      rewrite !s_app_cons, ?s_app_nil_r, <- ?s_app_assoc; reflexivity.
Qed.

Lemma match_format_app s f r :
  match_format s = (f, r) -> s = (from_option (fun f => ":" ++ f) EmptyString f ++ r)%string.
Proof.
  unfold match_format. destruct s as [|c s]; [by intros [= <- <-]|]. case_bool_decide as Hc; [|by intros [= <- <-]].
  destruct (span _ s) as [f' r'] eqn:E. apply span_app in E as ->. subst c.
  destruct f'; [by intros [= <- <-]|]. intros [= <- <-]. cbn. by rewrite ?s_app_cons.
Qed.

Lemma match_token_text s t rest :
  match_token s = Some (t, rest) -> s = (tk_text t ++ rest)%string /\ (String.length rest < String.length s)%nat.
Proof.
  intros H. assert (Hs : s = (tk_text t ++ rest)%string).
  { unfold match_token in H. apply bind_Some in H as [[word r] [Hw H]].
    destruct (match_offset r) as [o r1] eqn:Eo. destruct (match_format r1) as [f r2] eqn:Ef.
    apply bind_Some in H as [rest' [Hr H]]. injection H as <- <-. cbn [tk_text].
    apply match_offset_app in Eo as ->. apply match_format_app in Ef as ->. apply drop_prefix_Some in Hr as ->.
    assert (s = (word ++ (from_option offset_text EmptyString o ++
      from_option (fun f0 => ":" ++ f0) EmptyString f ++ "}" ++ rest'))%string) as ->.
    { destruct (drop_prefix "{date" s) eqn:Ed; [injection Hw as <- <-; by apply drop_prefix_Some|].
      apply bind_Some in Hw as [r' [Hd Hw]]. injection Hw as <- <-. by apply drop_prefix_Some. }
    by rewrite <- !s_app_assoc. }
  split; [done|]. rewrite Hs, s_length_app. enough (1 <= String.length (tk_text t))%nat by lia.
  unfold match_token in H. apply bind_Some in H as [[word r] [Hw H]].
  destruct (match_offset r) as [o r1]. destruct (match_format r1) as [f r2].
  apply bind_Some in H as [rest' [_ H]]. injection H as <- _. cbn [tk_text].
  rewrite !s_length_app. cbn. lia.
Qed.

(** Enough fuel: more does not change the expansion. *)
Lemma expand_from_fuel allow n m s :
  (String.length s < n)%nat -> (String.length s < m)%nat -> expand_from n allow s = expand_from m allow s.
Proof.
  revert m s. induction n as [|n IH]; intros m s Hn Hm; [lia|]. destruct m as [|m]; [lia|]. cbn [expand_from].
  destruct (match_token s) as [[t rest]|] eqn:E.
  - apply match_token_text in E as [_ Hl]. f_equal. apply IH; lia.
  - destruct s as [|c s]; [done|]. cbn in Hn, Hm. f_equal. apply IH; lia.
Qed.

End expand.

(** ** The dates of a range *)

Lemma range_up_length n i step stop : (length (range_up n i step stop) <= n)%nat.
Proof. revert i. induction n as [|n IH]; intros i; cbn; [lia|]. destruct (if 0 <? step then _ else _); cbn; [|lia]. specialize (IH (i + step)). lia. Qed.

Lemma range_up_lookup s n stop : s = 1 \/ s = -1 -> (n <= Z.to_nat (s * stop))%nat -> forall i, i = s * (s * stop - Z.of_nat n) ->
  range_up n i s stop = map (fun k => i + s * Z.of_nat k) (seq 0 n).
Proof.
  intros Hs. induction n as [|n IH]; intros Hn i Hi; [done|]. cbn [range_up seq map].
  assert ((if 0 <? s then i <? stop else stop <? i) = true) as ->.
  { destruct Hs as [-> | ->]; cbn; apply Z.ltb_lt; lia. }
  rewrite IH; [|lia|destruct Hs as [-> | ->]; lia]. f_equal; [lia|]. rewrite <- seq_shift, map_map.
  apply map_ext. intros k. lia.
Qed.

Definition days_of (val : Z) (unit : option ascii) : Z :=
  Z.min MAX_DATE_RANGE_DAYS (Z.abs val * if bool_decide (unit = Some "w"%char) then 7 else 1).

(** A non-zero offset of [n] days or weeks stands for consecutive days: today first, then
    one day after the other in the direction of the offset, up to the offset or up to ninety
    days, whichever is nearer; so for at most ninety-one dates. *)
Theorem range_days_spec val unit : val <> 0 ->
  range_days val unit = map (fun k => Z.sgn val * Z.of_nat k) (seq 0 (S (Z.to_nat (days_of val unit)))) /\
  (length (range_days val unit) <= 91)%nat.
Proof.
  intros Hval.
  enough (H : range_days val unit = map (fun k => Z.sgn val * Z.of_nat k) (seq 0 (S (Z.to_nat (days_of val unit))))).
  { split; [done|]. rewrite H, length_map, length_seq. unfold days_of, MAX_DATE_RANGE_DAYS. lia. }
  unfold range_days, days_of, MAX_DATE_RANGE_DAYS.
  set (days := if bool_decide (unit = Some "w"%char) then val * 7 else val).
  replace (Z.abs val * (if bool_decide (unit = Some "w"%char) then 7 else 1)) with (Z.abs days)
    by (unfold days; case_bool_decide; lia).
  assert (Hd : Z.sgn days = Z.sgn val /\ days <> 0) by (unfold days; case_bool_decide; lia). clearbody days.
  set (d := if 90 <? days then 90 else if days <? - (90) then - (90) else days).
  assert (Hd' : d = Z.sgn val * Z.min 90 (Z.abs days))
    by (unfold d; destruct (Z.ltb_spec 90 days); [|destruct (Z.ltb_spec days (- (90)))]; lia).
  assert (Hs : (if 0 <? d then 1 else -1) = Z.sgn val) by (destruct (Z.ltb_spec 0 d); lia).
  rewrite Hs. unfold py_range. clearbody d.
  assert (Hn : Z.to_nat (Z.abs (d + Z.sgn val)) = S (Z.to_nat (Z.min 90 (Z.abs days)))) by lia.
  rewrite Hn, (range_up_lookup (Z.sgn val)); [apply map_ext; lia|lia|lia|].
  destruct (Z.sgn_spec val) as [[? ->]|[[? ->]|[? ->]]]; lia.
Qed.

Lemma range_days_spec_witness : -2 <> 0 /\ (length (range_days (-2) (Some "w"%char)) <= 91)%nat.
Proof. split; [lia|]. apply (range_days_spec (-2) (Some "w"%char)). lia. Defined.

(** A calendar in which every day prints as its number. *)
Definition plain_days (i : Z) (fmt : string) : option string :=
  if bool_decide (fmt = "%") then None else Some (String.concat "" [str_of_Z i; "/"; fmt]).

Example expansions :
  map (fun '(allow, s) => expand_text plain_days (fun _ => false) allow s)
    [(true, "a{date+2:D}b{today:D}"); (false, "a{date+2:D}b{today:D}"); (true, "{date-1w:D}");
     (true, "{date+}{dat}{date+3x}"); (true, "{date:%}"); (true, "{date+0:D}")] =
  ["a(0/D|1/D|2/D)b0/D"; "a{date+2:D}b0/D"; "(0/D|-1/D|-2/D|-3/D|-4/D|-5/D|-6/D|-7/D)";
   "{date+}{dat}{date+3x}"; "{date:%}"; "0/D"].
Proof. vm_compute. reflexivity. Qed.

End DatePlaceholders.
