(* ===== verification/RuleConditions.v ===== *)
(** * The conditions of a pipeline rule ([backend/channel_pipeline_evaluator.py], the
    conditions of [backend/channel_pipeline_schema.py], the rule loop of
    [backend/channel_pipeline_engine.py]).

    A condition's value is whatever JSON holds, so evaluating one may raise; the stream and
    the channels are typed.  Text is ASCII.  The regular-expression engine behind
    [safe_regex], [strftime] and the name normalizer the evaluator is built with are
    parameters. *)
From S2P Require Import Prelude PyFloat PyValue PyText PyDatetime DatePlaceholders.
From stdpp Require Import gmap.
From Corelib Require Import SpecFloat.
Open Scope Z_scope.

Module RuleConditions.

Inductive error := TypeError | AttributeError | ValueError | OverflowError.
Abbreviation result := (Prelude.result error).

(** ** Conditions *)

#[warnings="-register-all"]
Inductive condition := Condition {
  c_type : string; c_value : pyval; c_conditions : option (list condition);
  c_connector : string; c_case_sensitive : bool; c_negate : bool }.

Section condition_ind.
  Variable P : condition -> Prop.
  Hypothesis HC : forall ty v subs conn cs neg, Forall P (default [] subs) -> P (Condition ty v subs conn cs neg).

Fixpoint condition_ind' (c : condition) : P c :=
    match c with
    | Condition ty v subs conn cs neg =>
        HC ty v subs conn cs neg
          (match subs as o return Forall P (default [] o) with
           | Some l => (fix go (l : list condition) : Forall P l :=
                          match l with
                          | [] => Forall_nil_2 P
                          | c :: l' => Forall_cons_2 P c l' (condition_ind' c) (go l')
                          end) l
           | None => Forall_nil_2 P
           end)
    end.
End condition_ind.

Definition field (k : string) (v : pyval) (present : bool) : list (string * pyval) :=
  if present then [(k, v)] else [].

Definition not_none (v : pyval) : bool := match v with PNone => false | _ => true end.

Fixpoint to_dict (c : condition) : pyval :=
  PDict ([("type", PStr (c_type c))] ++ field "value" (c_value c) (not_none (c_value c)) ++
    match c_conditions c with
    | Some ((_ :: _) as l) => [("conditions", PList (map to_dict l))]
    | _ => []
    end ++
    field "connector" (PStr (c_connector c))
      (negb (bool_decide (c_connector c = "")) && negb (bool_decide (c_connector c = "and"))) ++
    field "case_sensitive" (PBool true) (c_case_sensitive c) ++
    field "negate" (PBool true) (c_negate c)).

Definition get_str (d : list (string * pyval)) (k dflt : string) : option string :=
  match dict_get d k with None => Some dflt | Some (PStr s) => Some s | Some _ => None end.
Definition get_bool (d : list (string * pyval)) (k : string) : option bool :=
  match dict_get d k with None => Some false | Some (PBool b) => Some b | Some _ => None end.

(** [data["conditions"]] when it is there: each one read in turn. *)
Definition read_all (read : pyval -> option condition) : list pyval -> option (list condition) :=
  fix all l := match l with
               | [] => Some []
               | x :: l' => c ← read x; cs ← all l'; Some (c :: cs)
               end.

Definition read_conditions (read : pyval -> option condition) :
    list (string * pyval) -> option (option (list condition)) :=
  fix find d := match d with
                | [] => Some None
                | (k, v) :: d' =>
                    if bool_decide (k = "conditions")
                    then match v with PList l => Some <$> read_all read l | _ => None end
                    else find d'
                end.

(** [None]: a dict whose fields are not of the annotated types, which this does not model. *)
Fixpoint from_dict (data : pyval) : option condition :=
  match data with
  | PDict d =>
      ty ← get_str d "type" "always"; conn ← get_str d "connector" "and";
      cs ← get_bool d "case_sensitive"; neg ← get_bool d "negate";
      subs ← read_conditions from_dict d;
      Some (Condition ty (default PNone (dict_get d "value")) subs conn cs neg)
  | _ => None
  end.

(** ** Streams and channels *)

(** The columns of [StreamStats] the context is made of. *)
Record stream_stats := StreamStats {
  st_resolution : option string; st_video_codec : option string; st_audio_channels : option Z }.

Record context := StreamContext {
  stream_name : string; group_name : option string; tvg_id : option string;
  logo_url : option string; m3u_account_id : option Z; resolution_height : option Z;
  video_codec : option string; audio_tracks : option Z; channel_id : option Z }.

(** The [StreamContext] of a stream and its statistics. *)
Definition resolution_height_of (stats : option stream_stats) : option Z :=
  match stats with
  | Some st => match st_resolution st with
               | Some text => match split_on "x"%char text with [_; h] => py_int h | _ => None end
               | None => None
               end
  | None => None
  end.

Definition audio_tracks_of (stats : option stream_stats) : option Z :=
  match stats with Some st => st_audio_channels st | None => Some 1 end.

Definition from_dispatcharr_stream (name : string) (group tvg logo : option string)
    (account channel : option Z) (stats : option stream_stats) : context :=
  StreamContext name group tvg logo account (resolution_height_of stats)
    (st ← stats; st_video_codec st) (audio_tracks_of stats) channel.

(** [channel.get("channel_group", {})]: no key, a null, or a dict with an id. *)
Inductive nested := NoKey | Null | Nested (id : option Z).

Record channel := Channel {
  ch_id : Z; ch_name : string; ch_group_id : option Z; ch_group : nested; ch_streams : Z }.

(** [channel.get("channel_group_id") or channel.get("channel_group", {}).get("id")] *)
Definition group_of (ch : channel) : result (option Z) :=
  match ch_group_id ch with
  | Some (Zpos _ as g) | Some (Zneg _ as g) => Ok (Some g)
  | _ => match ch_group ch with
         | NoKey => Ok None
         | Null => Raise AttributeError
         | Nested id => Ok id
         end
  end.

(** ** Values *)

(** [z <op> f]: an integer and a float compare exactly; [None] with a NaN. *)
Definition compare_float (z : Z) (f : py_float) : option comparison :=
  match f with
  | S754_zero _ => Some (z ?= 0)
  | S754_infinity s => Some (if s then Gt else Lt)
  | S754_nan => None
  | S754_finite s m e =>
      let m := if s then Zneg m else Zpos m in
      Some (if 0 <=? e then z ?= m * 2 ^ e else z * 2 ^ (- e) ?= m)
  end.

(** [actual <op> v], from the comparison; an ordering with a non-number raises. *)
Definition order_with (z : Z) (v : pyval) (op : comparison -> bool) : result bool :=
  match v with
  | PInt n => Ok (op (z ?= n))
  | PBool b => Ok (op (z ?= Z.b2z b))
  | PFloat f => Ok (match compare_float z f with Some c => op c | None => false end)
  | _ => Raise TypeError
  end.

Definition at_least (c : comparison) : bool := match c with Lt => false | _ => true end.
Definition at_most (c : comparison) : bool := match c with Gt => false | _ => true end.

(** [int(v)] *)
Definition to_int (v : pyval) : result Z :=
  match v with
  | PInt n => Ok n
  | PBool b => Ok (Z.b2z b)
  | PFloat f => match f with
                | S754_nan => Raise ValueError
                | S754_infinity _ => Raise OverflowError
                | _ => Ok (Float.trunc f)
                end
  | PStr s => match py_int s with Some n => Ok n | None => Raise ValueError end
  | _ => Raise TypeError
  end.

(** [v.lower()] *)
Definition lower_of (v : pyval) : result string :=
  match v with PStr s => Ok (lower s) | _ => Raise AttributeError end.

(** [^\d+\s*\|\s*] removed *)
Definition strip_channel_number (name : string) : string :=
  match name with
  | String c _ =>
      if is_decimal c then
        match lstrip (lstrip_chars is_decimal name) with
        | String p rest => if bool_decide (p = "|"%char) then lstrip rest else name
        | EmptyString => name
        end
      else name
  | EmptyString => name
  end.

(** [EvaluationResult], without its explanation. *)
Record evaluation := EvaluationResult { matched : bool; condition_type : string }.

(** ** The condition types *)

Inductive condition_kind :=
  STREAM_NAME_MATCHES | STREAM_NAME_CONTAINS | STREAM_GROUP_CONTAINS | STREAM_GROUP_MATCHES
| STREAM_GROUP_IS | TVG_ID_EXISTS | TVG_ID_MATCHES | LOGO_EXISTS | PROVIDER_IS | QUALITY_MIN
| QUALITY_MAX | CODEC_IS | HAS_AUDIO_TRACKS | HAS_CHANNEL | CHANNEL_EXISTS_WITH_NAME
| CHANNEL_EXISTS_MATCHING | CHANNEL_IN_GROUP | CHANNEL_HAS_STREAMS | NORMALIZED_NAME_IN_GROUP
| NORMALIZED_NAME_NOT_IN_GROUP | NORMALIZED_NAME_EXISTS | NORMALIZED_NAME_NOT_EXISTS
| AND | OR | NOT | ALWAYS | NEVER.

Definition ConditionType : list (string * condition_kind) :=
  [("stream_name_matches", STREAM_NAME_MATCHES); ("stream_name_contains", STREAM_NAME_CONTAINS);
   ("stream_group_contains", STREAM_GROUP_CONTAINS); ("stream_group_matches", STREAM_GROUP_MATCHES);
   ("stream_group_is", STREAM_GROUP_IS); ("tvg_id_exists", TVG_ID_EXISTS);
   ("tvg_id_matches", TVG_ID_MATCHES); ("logo_exists", LOGO_EXISTS); ("provider_is", PROVIDER_IS);
   ("quality_min", QUALITY_MIN); ("quality_max", QUALITY_MAX); ("codec_is", CODEC_IS);
   ("has_audio_tracks", HAS_AUDIO_TRACKS); ("has_channel", HAS_CHANNEL);
   ("channel_exists_with_name", CHANNEL_EXISTS_WITH_NAME);
   ("channel_exists_matching", CHANNEL_EXISTS_MATCHING); ("channel_in_group", CHANNEL_IN_GROUP);
   ("channel_has_streams", CHANNEL_HAS_STREAMS);
   ("normalized_name_in_group", NORMALIZED_NAME_IN_GROUP);
   ("normalized_name_not_in_group", NORMALIZED_NAME_NOT_IN_GROUP);
   ("normalized_name_exists", NORMALIZED_NAME_EXISTS);
   ("normalized_name_not_exists", NORMALIZED_NAME_NOT_EXISTS);
   ("and", AND); ("or", OR); ("not", NOT); ("always", ALWAYS); ("never", NEVER)].

Fixpoint lookup_type (l : list (string * condition_kind)) (s : string) : option condition_kind :=
  match l with
  | [] => None
  | (k, t) :: l => if bool_decide (k = s) then Some t else lookup_type l s
  end.

(** [ConditionType(s)]; [None] is the [ValueError]. *)
Definition kind_of (s : string) : option condition_kind := lookup_type ConditionType s.

(** ** The regular expressions ([backend/safe_regex.py]) *)

Inductive reply := Found | NotFound | TimedOut | SyntaxError.

Definition DEFAULT_MAX_PATTERN_LEN : nat := 500.

(** What the evaluator calls: [regex.search(pattern, text)], ignoring case or not;
    [regex.compile(pattern)], with the text of its error; the digest of a pattern; the clock
    and the budget of the date placeholders. *)
Class Environment := {
  regex_search : bool -> string -> string -> reply;
  regex_error : bool -> string -> option string;
  sha256 : string -> string;
  strftime : Z -> string -> option string;
  timed_out : string -> bool }.

Section evaluate.
Context {env : Environment}.

Definition expand : pyval -> bool -> pyval := DatePlaceholders.expand_date_placeholders strftime timed_out.

(** [safe_regex.search] of a text pattern: a match or not. *)
Definition safe_search (ignorecase : bool) (pattern text : string) : bool :=
  if (DEFAULT_MAX_PATTERN_LEN <? String.length pattern)%nat then false
  else match regex_search ignorecase pattern text with Found => true | _ => false end.

(** [safe_regex.search] of a compiled pattern. *)
Definition compiled_search (ignorecase : bool) (pattern text : string) : bool :=
  match regex_search ignorecase pattern text with Found => true | _ => false end.

(** [safe_regex.compile]: the text of its [SafeRegexError], if it raises one. *)
Definition safe_compile (ignorecase : bool) (pattern : string) : option string :=
  if (DEFAULT_MAX_PATTERN_LEN <? String.length pattern)%nat then
    Some (String.concat "" ["pattern length "; str_of_Z (Z.of_nat (String.length pattern));
      " exceeds max_pattern_len="; str_of_Z (Z.of_nat DEFAULT_MAX_PATTERN_LEN);
      " (sha256="; sha256 pattern; ")"])
  else match regex_error ignorecase pattern with
       | Some e => Some (String.concat "" ["failed to compile pattern (sha256="; sha256 pattern; "): "; e])
       | None => None
       end.

(** ** The evaluator *)

(** [NormalizationEngine.normalize(name).normalized]; [None] when it raises. *)
Definition normalizer : Type := string -> option string.

Record evaluator := Evaluator {
  existing_channels : list channel;
  normalization_engine : option normalizer;
  channel_by_id : gmap Z channel;
  channel_names : gset string;
  channels_by_group : gmap Z (list channel);
  channel_names_by_group : gmap Z (gset string);
  all_channel_names : gset string }.

Definition add_to_group (groups : gmap Z (list channel)) (ch : channel) : result (gmap Z (list channel)) :=
  let! g := group_of ch in
  Ok (match g with
      | Some (Zpos _ as g) | Some (Zneg _ as g) => <[g := default [] (groups !! g) ++ [ch]]> groups
      | _ => groups
      end).

(** The names a channel is found by in its group. *)
Definition names_of (engine : option normalizer) (ch : channel) : gset string :=
  let raw := ch_name ch in
  let stripped := strip_channel_number raw in
  {[ lower raw ]} ∪ (if bool_decide (stripped = raw) then ∅ else {[ lower stripped ]}) ∪
  match engine with
  | Some normalize => match normalize stripped with
                      | Some (String _ _ as normalized) => {[ lower normalized ]}
                      | _ => ∅
                      end
  | None => ∅
  end.

(** [ConditionEvaluator.__init__] *)
Definition new_evaluator (channels : list channel) (engine : option normalizer) : result evaluator :=
  let! groups := foldM add_to_group ∅ channels in
  let names := (fun chs => ⋃ map (names_of engine) chs) <$> groups in
  Ok (Evaluator channels engine
        (foldl (fun m ch => <[ch_id ch := ch]> m) ∅ channels)
        (list_to_set (map (fun ch => lower (ch_name ch)) channels))
        groups names (⋃ (map_to_list names).*2)).

Section context.
Variable ev : evaluator.
Variable ctx : context.

Definition _evaluate_regex (pattern : pyval) (value : string) (case_sensitive : bool) : result bool :=
  let pattern := expand pattern true in
  if negb (truthy pattern) then Ok false
  else match pattern with
       | PStr p => Ok (safe_search (negb case_sensitive) p value)
       | _ => Raise AttributeError
       end.

Definition _evaluate_contains (substring : pyval) (value : string) (case_sensitive : bool) : result bool :=
  let substring := expand substring false in
  if negb (truthy substring) then Ok false
  else if case_sensitive then
    match substring with PStr s => Ok (contains s value) | _ => Raise TypeError end
  else let! s := lower_of substring in Ok (contains s (lower value)).

Definition _evaluate_equals (expected : pyval) (actual : string) (case_sensitive : bool) : result bool :=
  if negb (truthy expected) then Ok false
  else if case_sensitive then
    Ok (match expected with PStr s => bool_decide (actual = s) | _ => false end)
  else Ok (bool_decide (lower actual = lower (py_str expected))).

(** [has == (value if value is not None else True)] *)
Definition expects (has : bool) (value : pyval) : bool :=
  py_eq_int (match value with PNone => PBool true | _ => value end) (Z.b2z has).

Definition _evaluate_provider_is (expected : pyval) : bool :=
  match m3u_account_id ctx with
  | None => false
  | Some actual => match expected with
                   | PList l => existsb (fun v => py_eq_int v actual) l
                   | _ => py_eq_int expected actual
                   end
  end.

Definition _evaluate_quality_min (min_height : pyval) : result bool :=
  match resolution_height ctx with None => Ok false | Some h => order_with h min_height at_least end.

Definition _evaluate_quality_max (max_height : pyval) : result bool :=
  match resolution_height ctx with None => Ok true | Some h => order_with h max_height at_most end.

Definition _evaluate_codec_is (expected : pyval) : result bool :=
  match video_codec ctx with
  | None => Ok false
  | Some actual => match expected with
                   | PList l => let! codecs := traverse lower_of l in
                                Ok (bool_decide (lower actual ∈ codecs))
                   | _ => let! codec := lower_of expected in Ok (bool_decide (lower actual = codec))
                   end
  end.

Definition _evaluate_audio_tracks (value : pyval) : result bool :=
  let! min_tracks := (if truthy value then to_int value else Ok 1) in
  match audio_tracks ctx with Some n => Ok (min_tracks <=? n) | None => Raise TypeError end.

Definition _evaluate_channel_exists_name (name : pyval) : result bool :=
  let! name := lower_of (expand name false) in Ok (bool_decide (name ∈ channel_names ev)).

Definition _evaluate_channel_exists_regex (pattern : pyval) (case_sensitive : bool) : result bool :=
  match expand pattern true with
  | PStr p =>
      match safe_compile (negb case_sensitive) p with
      | Some _ => Ok false
      | None => Ok (existsb (fun ch => compiled_search (negb case_sensitive) p (ch_name ch)) (existing_channels ev))
      end
  | _ => Raise TypeError
  end.

Definition _evaluate_channel_in_group (group_id : pyval) : result bool :=
  match channel_id ctx with
  | None => Ok false
  | Some id =>
      match channel_by_id ev !! id with
      | None => Ok false
      | Some ch =>
          let! g := group_of ch in
          Ok (match g with
              | Some g => py_eq_int group_id g
              | None => match group_id with PNone => true | _ => false end
              end)
      end
  end.

Definition _evaluate_channel_has_streams (min_streams : pyval) : result bool :=
  match channel_id ctx with
  | None => Ok false
  | Some id => match channel_by_id ev !! id with
               | None => Ok false
               | Some ch => order_with (ch_streams ch) min_streams at_least
               end
  end.

(** [_normalize_stream_name] *)
Definition _normalize_stream_name : string :=
  match normalization_engine ev with
  | Some normalize => default (stream_name ctx) (normalize (stream_name ctx))
  | None => stream_name ctx
  end.

(** The integer a dictionary key equals. *)
Definition key_of (v : pyval) : option Z :=
  match v with
  | PInt n => Some n
  | PBool b => Some (Z.b2z b)
  | PFloat f => if Float.is_integer f then Some (Float.trunc f) else None
  | _ => None
  end.

Definition _evaluate_normalized_name_in_group (group_id : pyval) : result bool :=
  if negb (truthy group_id) then Ok false
  else if negb (hashable group_id) then Raise TypeError
  else match (g ← key_of group_id; channel_names_by_group ev !! g) with
       | None => Ok false
       | Some names => if bool_decide (names = ∅) then Ok false
                       else Ok (bool_decide (lower _normalize_stream_name ∈ names))
       end.

Definition _evaluate_normalized_name_not_in_group (group_id : pyval) : result bool :=
  let! matched := _evaluate_normalized_name_in_group group_id in Ok (negb matched).

Definition _evaluate_normalized_name_exists : bool :=
  if bool_decide (all_channel_names ev = ∅) then false
  else bool_decide (lower _normalize_stream_name ∈ all_channel_names ev).

Definition _evaluate_normalized_name_not_exists : bool := negb _evaluate_normalized_name_exists.

Definition is_none {A} (o : option A) : bool := match o with None => true | Some _ => false end.
(** [bool(text)] *)
Definition has_text (o : option string) : bool := match o with Some (String _ _) => true | _ => false end.

(** The condition types that hold no conditions. *)
Definition evaluate_leaf (kind : condition_kind) (value : pyval) (case_sensitive : bool) : result bool :=
  let group := default EmptyString (group_name ctx) in
  match kind with
  | ALWAYS => Ok true
  | STREAM_NAME_MATCHES => _evaluate_regex value (stream_name ctx) case_sensitive
  | STREAM_NAME_CONTAINS => _evaluate_contains value (stream_name ctx) case_sensitive
  | STREAM_GROUP_CONTAINS => _evaluate_contains value group case_sensitive
  | STREAM_GROUP_MATCHES => _evaluate_regex value group case_sensitive
  | STREAM_GROUP_IS => _evaluate_equals value group case_sensitive
  | TVG_ID_EXISTS => Ok (expects (has_text (tvg_id ctx)) value)
  | TVG_ID_MATCHES => _evaluate_regex value (default EmptyString (tvg_id ctx)) case_sensitive
  | LOGO_EXISTS => Ok (expects (has_text (logo_url ctx)) value)
  | PROVIDER_IS => Ok (_evaluate_provider_is value)
  | QUALITY_MIN => _evaluate_quality_min value
  | QUALITY_MAX => _evaluate_quality_max value
  | CODEC_IS => _evaluate_codec_is value
  | HAS_AUDIO_TRACKS => _evaluate_audio_tracks value
  | HAS_CHANNEL => Ok (expects (negb (is_none (channel_id ctx))) value)
  | CHANNEL_EXISTS_WITH_NAME => _evaluate_channel_exists_name value
  | CHANNEL_EXISTS_MATCHING => _evaluate_channel_exists_regex value case_sensitive
  | CHANNEL_IN_GROUP => _evaluate_channel_in_group value
  | CHANNEL_HAS_STREAMS => _evaluate_channel_has_streams value
  | NORMALIZED_NAME_IN_GROUP => _evaluate_normalized_name_in_group value
  | NORMALIZED_NAME_NOT_IN_GROUP => _evaluate_normalized_name_not_in_group value
  | NORMALIZED_NAME_EXISTS => Ok _evaluate_normalized_name_exists
  | NORMALIZED_NAME_NOT_EXISTS => Ok _evaluate_normalized_name_not_exists
  | NEVER | AND | OR | NOT => Ok false
  end.

(** The conditions of an [and], until one does not match; of an [or], until one does. *)
Definition _evaluate_and (evaluate : condition -> result evaluation) : list condition -> result evaluation :=
  fix go l := match l with
              | [] => Ok (EvaluationResult true "and")
              | c :: l => let! r := evaluate c in
                          if matched r then go l else Ok (EvaluationResult false "and")
              end.

Definition _evaluate_or (evaluate : condition -> result evaluation) : list condition -> result evaluation :=
  fix go l := match l with
              | [] => Ok (EvaluationResult false "or")
              | c :: l => let! r := evaluate c in
                          if matched r then Ok (EvaluationResult true "or") else go l
              end.

(** [if condition.negate] *)
Definition negated (c : condition) (r : evaluation) : evaluation :=
  if c_negate c
  then EvaluationResult (negb (matched r)) (String.concat "" ["not("; condition_type r; ")"])
  else r.

(** [evaluate], with [_evaluate_condition]. *)
Fixpoint evaluate (c : condition) : result evaluation :=
  let! r := match kind_of (c_type c) with
            | None => Ok (EvaluationResult false (c_type c))
            | Some AND => match c_conditions c with
                          | None | Some [] => Ok (EvaluationResult false "and")
                          | Some l => _evaluate_and evaluate l
                          end
            | Some OR => match c_conditions c with
                         | None | Some [] => Ok (EvaluationResult false "or")
                         | Some l => _evaluate_or evaluate l
                         end
            | Some NOT => match c_conditions c with
                          | Some [sub] => let! r := evaluate sub in Ok (EvaluationResult (negb (matched r)) "not")
                          | _ => Ok (EvaluationResult false "not")
                          end
            | Some kind => let! m := evaluate_leaf kind (c_value c) (c_case_sensitive c) in
                           Ok (EvaluationResult m (c_type c))
            end in
  Ok (negated c r).

(** ** A rule's list of conditions *)

(** The groups between the [or]s: the closed ones and the current one. *)
Definition add_condition (groups : list (list condition) * list condition) (c : condition) :
    list (list condition) * list condition :=
  let '(closed, current) := groups in
  match current with
  | _ :: _ => if bool_decide (c_connector c = "or") then (closed ++ [current], [c]) else (closed, current ++ [c])
  | [] => (closed, [c])
  end.

Definition or_groups (conditions : list condition) : list (list condition) :=
  let '(closed, current) := foldl add_condition ([], []) conditions in closed ++ [current].

Fixpoint group_matches (group : list condition) : result bool :=
  match group with
  | [] => Ok true
  | c :: group => let! r := evaluate c in if matched r then group_matches group else Ok false
  end.

Fixpoint any_group (groups : list (list condition)) : result bool :=
  match groups with
  | [] => Ok false
  | group :: groups => let! m := group_matches group in if m then Ok true else any_group groups
  end.

(** [evaluate_conditions], after it has built its evaluator. *)
Definition conditions_match (conditions : list condition) : result bool :=
  match conditions with [] => Ok true | _ => any_group (or_groups conditions) end.

(** An entry of the engine's [conditions_log], without the explanation. *)
Record log_entry := LogEntry {
  l_type : string; l_value : pyval; l_matched : bool; l_connector : string }.

Definition log_condition (c : condition) (r : evaluation) : log_entry :=
  LogEntry (condition_type r) (c_value c) (matched r) (c_connector c).

(** The engine's loop over the conditions of a group, then over the groups. *)
Fixpoint log_group (group : list condition) (acc : bool * list log_entry) : result (bool * list log_entry) :=
  match group with
  | [] => Ok acc
  | c :: group => let! r := evaluate c in
                  log_group group (if matched r then acc.1 else false, acc.2 ++ [log_condition c r])
  end.

Fixpoint log_groups (groups : list (list condition)) (acc : bool * list log_entry) : result (bool * list log_entry) :=
  match groups with
  | [] => Ok acc
  | group :: groups => let! g := log_group group (true, acc.2) in
                       log_groups groups (if fst g then true else acc.1, g.2)
  end.

Definition rule_match (conditions : list condition) : result (bool * list log_entry) :=
  log_groups (or_groups conditions) (false, []).

End context.

(** [evaluate_conditions]: its evaluator has no normalizer. *)
Definition evaluate_conditions (conditions : list condition) (ctx : context) (channels : list channel) : result bool :=
  let! ev := new_evaluator channels None in conditions_match ev ctx conditions.

(** ** Validation ([Condition.validate]) *)

Definition line (parts : list string) : string := String.concat "" parts.

Definition is_int (v : pyval) : bool := match v with PInt _ | PBool _ => true | _ => false end.
Definition is_str (v : pyval) : bool := match v with PStr _ => true | _ => false end.

(** [isinstance(v, (int, float)) and not v < 0] *)
Definition nonnegative (v : pyval) : bool :=
  match v with
  | PInt n => negb (n <? 0)
  | PBool _ => true
  | PFloat f => negb (Float.ltb f (S754_zero false))
  | _ => false
  end.

(** A pattern's check: the errors of an uncompilable one; [len(v)] of another value raises. *)
Definition check_pattern (type : string) (v : pyval) : result (list string) :=
  match expand v true with
  | PStr p => Ok (match safe_compile false p with
                  | Some e => [line ["Invalid regex pattern for "; type; ": "; e]]
                  | None => []
                  end)
  | _ => Raise TypeError
  end.

Definition error_if (bad : bool) (type text : string) : list string :=
  if bad then [line [type; text]] else [].

Definition validate_leaf (kind : condition_kind) (type : string) (v : pyval) : result (list string) :=
  let text := error_if (negb (truthy v) || negb (is_str v)) type " requires a string value" in
  match kind with
  | STREAM_NAME_CONTAINS | STREAM_GROUP_CONTAINS | STREAM_GROUP_IS | CHANNEL_EXISTS_WITH_NAME => Ok text
  | STREAM_NAME_MATCHES | STREAM_GROUP_MATCHES | TVG_ID_MATCHES | CHANNEL_EXISTS_MATCHING =>
      let! pattern := check_pattern type v in Ok (text ++ pattern)
  | QUALITY_MIN | QUALITY_MAX | CHANNEL_HAS_STREAMS | HAS_AUDIO_TRACKS =>
      Ok (error_if (negb (nonnegative v)) type " requires a positive number")
  | PROVIDER_IS =>
      Ok (match v with
          | PList l => error_if (negb (forallb is_int l)) type " list must contain only integers"
          | _ => error_if (negb (is_int v)) type " requires an integer or list of integers"
          end)
  | CODEC_IS =>
      Ok (match v with
          | PList l => error_if (negb (forallb is_str l)) type " list must contain only strings"
          | _ => error_if (negb (is_str v)) type " requires a string or list of strings"
          end)
  | CHANNEL_IN_GROUP | NORMALIZED_NAME_IN_GROUP | NORMALIZED_NAME_NOT_IN_GROUP =>
      Ok (error_if (negb (is_int v)) type " requires a group ID (integer)")
  | TVG_ID_EXISTS | LOGO_EXISTS | HAS_CHANNEL =>
      Ok (match v with PNone | PBool _ => [] | _ => error_if true type " value should be boolean or omitted" end)
  | _ => Ok []
  end.

(** The errors of the conditions of an [and] or an [or], each with its position. *)
Definition validate_subs (validate : condition -> result (list string)) (type : string) :
    Z -> list condition -> result (list string) :=
  fix go i l := match l with
                | [] => Ok []
                | sub :: l => let! errors := validate sub in let! rest := go (i + 1) l in
                              Ok (map (fun e => line [type; "["; str_of_Z i; "]: "; e]) errors ++ rest)
                end.

Fixpoint validate (c : condition) : result (list string) :=
  let type := c_type c in
  match kind_of type with
  | None => Ok [line ["Unknown condition type: "; type]]
  | Some (AND | OR) => match c_conditions c with
                       | None | Some [] => Ok [line [type; " requires at least 1 sub-condition"]]
                       | Some l => validate_subs validate type 0 l
                       end
  | Some NOT => match c_conditions c with
                | Some [sub] => validate sub
                | _ => Ok ["'not' requires exactly 1 sub-condition"]
                end
  | Some kind => validate_leaf kind type (c_value c)
  end.

(** ** The static checks of a rule ([backend/channel_pipeline_rule_analyzer.py]) *)

Definition split_or_groups (conditions : list condition) : list (list condition) :=
  match conditions with
  | [] => []
  | _ => filter (fun g => g <> []) (or_groups conditions)
  end.

Definition _group_has_guard (group : list condition) (guard_type : string) : bool :=
  existsb (fun c => bool_decide (c_type c = guard_type)) group.

Definition _conditions_contain_only_never (group : list condition) : bool := _group_has_guard group "never".

(** A frozen set: in no particular order. *)
Definition _GUARD_TYPES : list string :=
  ["normalized_name_in_group"; "normalized_name_not_in_group"; "normalized_name_exists";
   "provider_is"; "stream_group_is"].

(** The detail of a finding: the guard and the groups with it and without it. *)
Record dropped_guard := DroppedGuard { guard_type : string; with_guard : list nat; missing_guard : list nat }.

Definition groups_where (p : list condition -> bool) (groups : list (list condition)) : list nat :=
  (filter (fun x => p x.2 = true) (enumerate groups)).*1.

Definition _check_andor_drops_guard (conditions : list condition) : list dropped_guard :=
  let groups := split_or_groups conditions in
  if (length groups <? 2)%nat then []
  else omap (fun guard =>
    let guarded := groups_where (fun g => _group_has_guard g guard) groups in
    let unguarded := groups_where (fun g => negb (_group_has_guard g guard)) groups in
    match guarded, unguarded with
    | [], _ | _, [] => None
    | _, _ => Some (DroppedGuard guard guarded unguarded)
    end) _GUARD_TYPES.

(** [RULE_HAS_NO_HOPE_OF_MATCHING] *)
Definition _check_rule_has_no_hope_of_matching (conditions : list condition) : bool :=
  match split_or_groups conditions with
  | [] => false
  | groups => forallb _conditions_contain_only_never groups
  end.

End evaluate.

End RuleConditions.
