(* ===== verification/RuleTheorems.v ===== *)
(** * Theorems about the conditions of a rule: what [Condition.validate] accepts evaluates, the
    evaluator, the engine and the analyzer read a list of conditions alike, the analyzer's
    two checks of conditions are right, and a condition survives its JSON form. *)
From S2P Require Import Prelude PyFloat PyValue PyText PyDatetime DatePlaceholders RuleConditions.
From stdpp Require Import gmap.
From Corelib Require Import SpecFloat.
Open Scope Z_scope.

Module RuleTheorems.
Import RuleConditions.

Section theorems.
Context {env : Environment}.

(** ** Every accepted condition evaluates *)

(** The value of every [has_audio_tracks] is not an infinity or a NaN. *)
Fixpoint finite_audio (c : condition) : bool :=
  match kind_of (c_type c), c_value c with
  | Some HAS_AUDIO_TRACKS, PFloat f => Float.is_finite f
  | _, _ => true
  end && match c_conditions c with Some l => forallb finite_audio l | None => true end.

Definition returns {A} (r : result A) : Prop := exists a, r = Ok a.

Lemma returns_Ok {A} (a : A) : returns (Ok a).
Proof. by exists a. Qed.
Hint Resolve returns_Ok : core.

Lemma returns_bind {A B} (r : result A) (f : A -> result B) : returns r -> (forall a, returns (f a)) -> returns (rbind r f).
Proof. intros [a ->] H. apply H. Qed.

Lemma order_with_returns z v op : nonnegative v = true -> returns (order_with z v op).
Proof. unfold order_with. destruct v; cbn; done || eauto. Qed.

Lemma traverse_str l : forallb is_str l = true -> returns (traverse lower_of l).
Proof.
  induction l as [|v l IH]; cbn; [eauto|]. intros [Hv Hl]%andb_true_iff. destruct v; try done.
  destruct (IH Hl) as [r ->]. cbn. eauto.
Qed.

Lemma to_int_returns v : nonnegative v = true ->
  match v with PFloat f => Float.is_finite f = true | _ => True end -> returns (to_int v).
Proof. destruct v as [|b|z|f|s|l|d]; cbn; try done; eauto. destruct f; cbn; try done; eauto. Qed.

(** What an index of channels built by the constructor holds. *)
Definition indexed (chs : list channel) : Prop := forall ch, ch ∈ chs -> returns (group_of ch).

Lemma add_to_group_returns chs m r : foldM add_to_group m chs = Ok r -> indexed chs.
Proof.
  revert m. induction chs as [|ch chs IH]; intros m; cbn; [intros _ ch H; by apply elem_of_nil in H|].
  destruct (group_of ch) as [g|e] eqn:E; cbn -[add_to_group]; [|unfold add_to_group; by rewrite E].
  intros H ch' [-> |Hch]%elem_of_cons; [rewrite E; eauto|].
  destruct (add_to_group m ch) as [m'|e]; [|done]. by apply (IH m').
Qed.

Lemma channel_by_id_elem chs m id ch :
  foldl (fun m ch => <[ch_id ch := ch]> m) (m : gmap Z channel) chs !! id = Some ch -> m !! id = Some ch \/ ch ∈ chs.
Proof.
  revert m. induction chs as [|c chs IH]; intros m H; [by left|]. cbn in H.
  apply IH in H as [H|H]; [|right; by apply elem_of_cons; right].
  apply lookup_insert_Some in H as [[_ ->]|[_ H]]; [right; apply elem_of_cons; by left|by left].
Qed.

Lemma new_evaluator_spec chs engine ev : new_evaluator chs engine = Ok ev ->
  (forall id ch, channel_by_id ev !! id = Some ch -> returns (group_of ch)) /\
  exists groups, foldM add_to_group ∅ chs = Ok groups /\
    channel_names_by_group ev = ((fun chs => ⋃ map (names_of engine) chs) <$> groups) /\
    all_channel_names ev = ⋃ (map_to_list (channel_names_by_group ev)).*2.
Proof.
  unfold new_evaluator. destruct (foldM add_to_group ∅ chs) as [groups|e] eqn:E; [|done]. cbn.
  intros [= <-]. cbn. split; [|by exists groups]. intros id ch H.
  apply channel_by_id_elem in H as [H|H]; [by rewrite lookup_empty in H|]. by apply (add_to_group_returns _ _ _ E).
Qed.

Section sound.
Context (chs : list channel) (engine : option normalizer) (ev : evaluator) (ctx : context).
Hypothesis Hev : new_evaluator chs engine = Ok ev.
Hypothesis Htracks : audio_tracks ctx <> None.

Lemma error_if_nil b type text : error_if b type text = [] -> b = false.
Proof. by destruct b. Qed.

Lemma text_value b v : negb (truthy v) || b = false -> is_str v = negb b -> exists s, v = PStr s /\ s <> EmptyString.
Proof.
  intros [H ->]%orb_false_iff Hs. destruct v as [| | | |s| |]; try done. exists s. split; [done|].
  intros ->. done.
Qed.

Lemma text_returns (v : pyval) type :
  error_if (negb (truthy v) || negb (is_str v)) type " requires a string value" = [] ->
  (forall value cs, returns (_evaluate_regex v value cs)) /\
  (forall value cs, returns (_evaluate_contains v value cs)) /\
  (forall value cs, returns (_evaluate_equals v value cs)) /\
  returns (_evaluate_channel_exists_name ev v) /\
  (forall cs, returns (_evaluate_channel_exists_regex ev v cs)).
Proof.
  intros H%error_if_nil. destruct (text_value _ _ H) as (s & -> & Hs); [by destruct (is_str v)|].
  unfold _evaluate_regex, _evaluate_contains, _evaluate_equals, _evaluate_channel_exists_name,
    _evaluate_channel_exists_regex, expand. cbn [DatePlaceholders.expand_date_placeholders].
  split_and!; intros.
  - case_match; cbn; eauto.
  - case_match; [eauto|]. destruct cs; cbn; eauto.
  - case_match; [eauto|]. destruct cs; cbn; eauto.
  - cbn. eauto.
  - case_match; eauto.
Qed.

Lemma in_group_returns v : is_int v = true ->
  returns (_evaluate_normalized_name_in_group ev ctx v) /\ returns (_evaluate_channel_in_group ev ctx v).
Proof.
  intros Hv. unfold _evaluate_normalized_name_in_group, _evaluate_channel_in_group. split.
  - destruct (negb (truthy v)); [eauto|]. replace (hashable v) with true by (by destruct v).
    cbn [negb]. destruct (g ← key_of v; _); [case_bool_decide; eauto|eauto].
  - destruct (channel_id ctx); [|eauto]. destruct (channel_by_id ev !! _) eqn:E; [|eauto].
    apply (proj1 (new_evaluator_spec _ _ _ Hev)) in E as [g ->]. cbn. eauto.
Qed.

Lemma leaf_returns kind type v cs :
  validate_leaf kind type v = Ok [] ->
  match kind, v with HAS_AUDIO_TRACKS, PFloat f => Float.is_finite f = true | _, _ => True end ->
  returns (evaluate_leaf ev ctx kind v cs).
Proof.
  intros H Hfin. pose proof (text_returns v) as Htext.
  pose proof (in_group_returns v) as Hint.
  assert (Hpattern : forall l, match check_pattern type v with Ok x => Ok (l ++ x) | Raise e => Raise e end = Ok [] -> l = []).
  { intros l. destruct (check_pattern type v); [|done]. by intros [= [-> _]%app_eq_nil]. }
  destruct kind; cbn [validate_leaf evaluate_leaf] in *; eauto;
    try (injection H as H); try (apply Hpattern in H);
    try (destruct (Htext type H) as (? & ? & ? & ? & ?); by eauto);
    try (apply error_if_nil, negb_false_iff in H);
    try (by apply Hint).
  - unfold _evaluate_quality_min. destruct (resolution_height ctx); [by apply order_with_returns|eauto].
  - unfold _evaluate_quality_max. destruct (resolution_height ctx); [by apply order_with_returns|eauto].
  - unfold _evaluate_codec_is. destruct (video_codec ctx); [|eauto].
    destruct v; try (by apply error_if_nil in H); [cbn; eauto|].
    apply error_if_nil, negb_false_iff in H. apply returns_bind; [by apply traverse_str|eauto].
  - unfold _evaluate_audio_tracks. apply returns_bind.
    + destruct (truthy v); [|eauto]. by apply to_int_returns.
    + intros n. destruct (audio_tracks ctx); [eauto|done].
  - unfold _evaluate_channel_has_streams. destruct (channel_id ctx); [|eauto].
    destruct (channel_by_id ev !! _); [by apply order_with_returns|eauto].
  - unfold _evaluate_normalized_name_not_in_group. apply returns_bind; [by apply Hint|eauto].
Qed.
End sound.

Lemma kind_name s k : kind_of s = Some k -> (s, k) ∈ ConditionType.
Proof.
  unfold kind_of. generalize ConditionType. intros l. induction l as [|[s' k'] l IH]; cbn; [done|].
  case_bool_decide as E; [|intros H; apply elem_of_cons; right; by apply IH].
  intros [= ->]. subst. apply elem_of_cons. by left.
Qed.

Lemma kind_name_of s k : kind_of s = Some k ->
  match k with AND => s = "and" | OR => s = "or" | NOT => s = "not" | NEVER => s = "never" | _ => True end.
Proof.
  intros H%kind_name. unfold ConditionType in H.
  repeat (apply elem_of_cons in H as [H|H]; [injection H as -> ->; cbn; done|]). by apply elem_of_nil in H.
Qed.

(** The [condition_type] of a result. *)
Definition label (c : condition) : string :=
  if c_negate c then line ["not("; c_type c; ")"] else c_type c.

(** The call returns, with this label. *)
Definition typed (r : result evaluation) (ty : string) : Prop := exists m, r = Ok (EvaluationResult m ty).

Lemma and_typed f l : Forall (fun c => exists m ty, f c = Ok (EvaluationResult m ty)) l -> typed (_evaluate_and f l) "and".
Proof.
  induction 1 as [|c l (m & ty & Hc) _ IH]; [by exists true|]. cbn. rewrite Hc. cbn.
  destruct m; [exact IH|by exists false].
Qed.

Lemma or_typed f l : Forall (fun c => exists m ty, f c = Ok (EvaluationResult m ty)) l -> typed (_evaluate_or f l) "or".
Proof.
  induction 1 as [|c l (m & ty & Hc) _ IH]; [by exists false|]. cbn. rewrite Hc. cbn.
  destruct m; [by exists true|exact IH].
Qed.

Lemma validate_subs_nil v type i l : validate_subs v type i l = Ok [] -> Forall (fun c => v c = Ok []) l.
Proof.
  revert i. induction l as [|c l IH]; intros i H; constructor; cbn in H.
  - destruct (v c) as [errors|]; [|done]. cbn in H. destruct (validate_subs v type (i + 1) l); [|done].
    cbn in H. injection H as [H _]%app_eq_nil. by destruct errors.
  - destruct (v c) as [errors|]; [|done]. cbn in H. destruct (validate_subs v type (i + 1) l) eqn:E; [|done].
    cbn in H. injection H as [_ ->]%app_eq_nil. by apply (IH (i + 1)).
Qed.

Lemma negated_typed c r : condition_type r = c_type c -> typed (Ok (negated c r)) (label c).
Proof.
  unfold negated, label. destruct r as [m ty]. cbn. intros ->. destruct (c_negate c); by eexists.
Qed.

Lemma finite_leaf c : finite_audio c = true ->
  forall kind, kind_of (c_type c) = Some kind ->
  match kind, c_value c with HAS_AUDIO_TRACKS, PFloat f => Float.is_finite f = true | _, _ => True end.
Proof.
  intros H kind Hk. destruct c as [ty v subs conn cs neg]. cbn in *. rewrite Hk in H.
  destruct kind; try done. destruct v; try done. by apply andb_true_iff in H as [H _].
Qed.

(** C23: on any stream whose number of audio tracks is known, and against any channels an
    evaluator can be built from, a condition without validation errors in which no
    [has_audio_tracks] has an infinite value evaluates: the call does not raise and returns a
    result labelled with the condition's type.  (Validation lets an infinity through, and the
    evaluation raises on it: [infinite_audio_raises].) *)
Theorem validated_evaluates chs engine ev ctx c :
  new_evaluator chs engine = Ok ev -> audio_tracks ctx <> None ->
  validate c = Ok [] -> finite_audio c = true ->
  exists m, evaluate ev ctx c = Ok (EvaluationResult m (label c)).
Proof.
  intros Hev Htracks. induction c as [ty v subs conn cs neg IH] using condition_ind'. intros Hv Hf.
  assert (Hsubs : forall l, subs = Some l -> Forall (fun c => validate c = Ok []) l ->
    Forall (fun c => exists m ty, evaluate ev ctx c = Ok (EvaluationResult m ty)) l).
  { intros l -> Hl. cbn in IH, Hf. apply andb_true_iff in Hf as [_ Hf]. rewrite forallb_forall in Hf.
    rewrite Forall_forall in *. intros c Hc. destruct (IH c Hc) as [m Hm]; [by apply Hl| |by exists m, (label c)].
    by apply Hf, list_elem_of_In. }
  pose proof (finite_leaf _ Hf) as Hleaf. cbn [c_type c_value] in Hleaf.
  cbn [validate c_type c_value c_conditions] in Hv. cbn [evaluate c_type c_value c_conditions c_case_sensitive].
  destruct (kind_of ty) as [kind|] eqn:Ek; [|done]. pose proof (kind_name_of _ _ Ek) as Hname.
  assert (Hdone : forall r, typed r ty -> typed (rbind r (fun r => Ok (negated (Condition ty v subs conn cs neg) r)))
      (label (Condition ty v subs conn cs neg))).
  { intros r [m ->]. by apply negated_typed. }
  apply Hdone.
  destruct kind; cbn [evaluate_leaf] in *;
    try (by destruct (leaf_returns _ _ _ _ Hev Htracks _ _ _ cs Hv (Hleaf _ eq_refl)) as [m Hm];
         cbn [evaluate_leaf] in Hm; rewrite ?Hm; eexists).
  - destruct subs as [[|c l]|]; try done. subst ty. eapply and_typed, Hsubs, validate_subs_nil; done.
  - destruct subs as [[|c l]|]; try done. subst ty. eapply or_typed, Hsubs, validate_subs_nil; done.
  - destruct subs as [[|c [|? ?]]|]; try done. subst ty.
    assert (H : Forall (fun c => validate c = Ok []) [c]) by (by repeat constructor).
    apply (Hsubs _ eq_refl), Forall_inv in H as (m & ty & ->). by eexists.
Qed.

(** ** One reading of a list of conditions *)

(** The usual precedence: what has been and-ed so far, then the rest of the conditions. *)
Fixpoint precedence (m : condition -> bool) (acc : bool) (cs : list condition) : bool :=
  match cs with
  | [] => acc
  | c :: cs => if bool_decide (c_connector c = "or") then acc || precedence m (m c) cs
               else precedence m (acc && m c) cs
  end.

Definition verdict (ev : evaluator) (ctx : context) (c : condition) : bool :=
  match evaluate ev ctx c with Ok r => matched r | Raise _ => false end.

Definition groups_from (closed : list (list condition)) (current cs : list condition) : list (list condition) :=
  let '(closed, current) := foldl add_condition (closed, current) cs in closed ++ [current].

Lemma or_groups_cons c cs : or_groups (c :: cs) = groups_from [] [c] cs.
Proof. done. Qed.

Lemma groups_from_cons closed x current c cs :
  groups_from closed (x :: current) (c :: cs) =
  if bool_decide (c_connector c = "or") then groups_from (closed ++ [x :: current]) [c] cs
  else groups_from closed (x :: current ++ [c]) cs.
Proof. unfold groups_from. cbn. by case_bool_decide. Qed.

Lemma groups_from_match m cs : forall closed x current,
  existsb (forallb m) (groups_from closed (x :: current) cs) =
  existsb (forallb m) closed || precedence m (forallb m (x :: current)) cs.
Proof.
  induction cs as [|c cs IH]; intros closed x current.
  - unfold groups_from. cbn [foldl precedence]. rewrite existsb_app. cbn [existsb]. by rewrite orb_false_r.
  - rewrite groups_from_cons. cbn [precedence]. case_bool_decide; rewrite IH.
    + rewrite existsb_app. cbn [existsb forallb]. by rewrite orb_false_r, andb_true_r, <- orb_assoc.
    + cbn [forallb]. rewrite forallb_app. cbn [forallb]. by rewrite andb_true_r, andb_assoc.
Qed.

Lemma groups_from_concat cs : forall closed x current,
  concat (groups_from closed (x :: current) cs) = concat closed ++ (x :: current) ++ cs /\
  (Forall (fun g => g <> []) closed -> Forall (fun g => g <> []) (groups_from closed (x :: current) cs)).
Proof.
  induction cs as [|c cs IH]; intros closed x current.
  - unfold groups_from. cbn [foldl]. rewrite concat_app. cbn [concat]. rewrite app_nil_r. split; [done|].
    intros H. apply Forall_app. split; [done|]. by repeat constructor.
  - rewrite groups_from_cons. case_bool_decide as Hor.
    + destruct (IH (closed ++ [x :: current]) c []) as [Hc Hn]. rewrite Hc, concat_app. cbn [concat app].
      rewrite app_nil_r, <- app_assoc. split; [done|]. intros Hf. apply Hn, Forall_app. split; [done|].
      by repeat constructor.
    + destruct (IH closed x (current ++ [c])) as [Hc Hn]. rewrite Hc. cbn [app]. rewrite <- app_assoc. done.
Qed.

Lemma nonempty_groups (groups : list (list condition)) :
  Forall (fun g => g <> []) groups -> filter (fun g => g <> []) groups = groups.
Proof. induction 1 as [|g groups Hg _ IH]; [done|]. by rewrite filter_cons_True, IH. Qed.

Lemma split_or_groups_eq c cs : split_or_groups (c :: cs) = or_groups (c :: cs).
Proof.
  unfold split_or_groups. rewrite or_groups_cons. apply nonempty_groups.
  by apply groups_from_concat.
Qed.

Lemma or_groups_concat c cs : concat (or_groups (c :: cs)) = c :: cs.
Proof. rewrite or_groups_cons. by rewrite (proj1 (groups_from_concat cs [] c [])). Qed.

Lemma elem_of_or_groups c cs x : x ∈ c :: cs <-> exists g, g ∈ or_groups (c :: cs) /\ x ∈ g.
Proof.
  rewrite <- (or_groups_concat c cs) at 1. rewrite list_elem_of_In, in_concat.
  by setoid_rewrite list_elem_of_In.
Qed.

Section loops.
Context (ev : evaluator) (ctx : context).

Definition entry (c : condition) (e : log_entry) : Prop :=
  exists r, evaluate ev ctx c = Ok r /\ e = log_condition c r.

Lemma log_group_spec group : forall acc r, log_group ev ctx group acc = Ok r ->
  r.1 = acc.1 && forallb (verdict ev ctx) group /\
  exists log, r.2 = acc.2 ++ log /\ Forall2 entry group log.
Proof.
  induction group as [|c group IH]; intros [m log] r H; cbn in H.
  - injection H as <-. cbn. rewrite andb_true_r. split; [done|]. exists []. by rewrite app_nil_r.
  - destruct (evaluate ev ctx c) as [res|] eqn:E; [|done]. cbn in H. apply IH in H as [H1 (log' & H2 & H3)].
    cbn in *. unfold verdict at 1. rewrite E, H1. split; [destruct (matched res), m; done|].
    exists (log_condition c res :: log'). rewrite H2, <- app_assoc. split; [done|]. constructor; [|done].
    by exists res.
Qed.

Lemma log_groups_spec groups : forall acc r, log_groups ev ctx groups acc = Ok r ->
  r.1 = acc.1 || existsb (forallb (verdict ev ctx)) groups /\
  exists log, r.2 = acc.2 ++ log /\ Forall2 entry (concat groups) log.
Proof.
  induction groups as [|g groups IH]; intros [m log] r H; cbn in H.
  - injection H as <-. cbn. rewrite orb_false_r. split; [done|]. exists []. by rewrite app_nil_r.
  - destruct (log_group ev ctx g (true, log)) as [[gm glog]|] eqn:E; [|done]. cbn in H.
    apply log_group_spec in E as [E1 (l1 & E2 & E3)]. cbn in E1, E2. subst gm glog.
    apply IH in H as [H1 (l2 & H2 & H3)]. cbn in *. rewrite H1. split.
    + by destruct (forallb _ g), m.
    + exists (l1 ++ l2). rewrite H2, <- app_assoc. split; [done|]. by apply Forall2_app.
Qed.

Lemma group_matches_ok group : Forall (fun c => returns (evaluate ev ctx c)) group ->
  group_matches ev ctx group = Ok (forallb (verdict ev ctx) group).
Proof.
  induction 1 as [|c group [r Hr] _ IH]; [done|]. cbn. unfold verdict at 1. rewrite Hr. cbn.
  by destruct (matched r).
Qed.

Lemma any_group_ok groups : Forall (fun c => returns (evaluate ev ctx c)) (concat groups) ->
  any_group ev ctx groups = Ok (existsb (forallb (verdict ev ctx)) groups).
Proof.
  induction groups as [|g groups IH]; [done|]. cbn. intros [Hg Hgs]%Forall_app.
  rewrite (group_matches_ok _ Hg). cbn. destruct (forallb _ g); [done|]. by apply IH.
Qed.

Lemma entries_return cs log : Forall2 entry cs log -> Forall (fun c => returns (evaluate ev ctx c)) cs.
Proof. induction 1 as [|c e cs log (r & Hr & _) _ IH]; constructor; [by exists r|done]. Qed.

(** When a matching group is found, its conditions evaluated to a match. *)
Lemma any_group_true groups : any_group ev ctx groups = Ok true ->
  exists g, g ∈ groups /\ forall c, c ∈ g -> verdict ev ctx c = true.
Proof.
  assert (Hg : forall g, group_matches ev ctx g = Ok true -> forall c, c ∈ g -> verdict ev ctx c = true).
  { induction g as [|c g IH]; cbn; [intros _ c H; by apply elem_of_nil in H|].
    destruct (evaluate ev ctx c) as [r|] eqn:E; [|done]. cbn. destruct (matched r) eqn:Em; [|done].
    intros H c' [-> |Hc]%elem_of_cons; [by unfold verdict; rewrite E|by apply IH]. }
  induction groups as [|g groups IH]; cbn; [done|]. destruct (group_matches ev ctx g) as [m|] eqn:E; [|done].
  cbn. destruct m.
  - intros _. exists g. split; [apply elem_of_cons; by left|by apply Hg].
  - intros H. destruct (IH H) as (g' & Hin & Hc). exists g'. split; [apply elem_of_cons; by right|done].
Qed.
End loops.

(** For a rule whose conditions all evaluate, the engine's loop, which evaluates every
    condition, and [evaluate_conditions], which stops early, reach one verdict; it is the one
    of the usual precedence, and-ing before or-ing, and of the analyzer's groups.  The
    engine's log holds one entry for each condition, in order, with its verdict. *)
Theorem one_reading ev ctx c cs v log :
  rule_match ev ctx (c :: cs) = Ok (v, log) ->
  v = precedence (verdict ev ctx) (verdict ev ctx c) cs /\
  conditions_match ev ctx (c :: cs) = Ok v /\
  v = existsb (forallb (verdict ev ctx)) (split_or_groups (c :: cs)) /\
  map (fun e => (l_connector e, l_matched e)) log =
    map (fun c => (c_connector c, verdict ev ctx c)) (c :: cs).
Proof.
  unfold rule_match. intros [Hv (log' & Hl & Hf)]%log_groups_spec. cbn in Hv, Hl. subst log.
  rewrite or_groups_concat in Hf.
  assert (Hp : v = precedence (verdict ev ctx) (verdict ev ctx c) cs).
  { rewrite Hv, or_groups_cons, groups_from_match. cbn. by rewrite andb_true_r. }
  split_and!; [done| |by rewrite split_or_groups_eq|].
  - cbn [conditions_match]. rewrite any_group_ok, <- Hv; [done|]. rewrite or_groups_concat.
    by eapply entries_return.
  - clear -Hf. induction Hf as [|x e xs es (r & Hr & ->) _ IH]; [done|]. cbn [map]. rewrite IH. f_equal.
    unfold verdict. by rewrite Hr.
Qed.

(** ** The analyzer *)

Lemma has_guard_spec g guard : _group_has_guard g guard = true <-> exists c, c ∈ g /\ c_type c = guard.
Proof.
  unfold _group_has_guard. rewrite existsb_exists. split.
  - intros (c & Hc & H%bool_decide_eq_true). exists c. split; [by apply list_elem_of_In|done].
  - intros (c & Hc & H). exists c. split; [by apply list_elem_of_In|by apply bool_decide_eq_true].
Qed.

Lemma never_verdict ev ctx c : c_type c = "never" -> c_negate c = false -> verdict ev ctx c = false.
Proof. destruct c as [ty v subs conn cs neg]. cbn. intros -> ->. done. Qed.

(** A rule the analyzer calls hopeless matches no stream, provided none of its [never]
    conditions is negated; with a negated one it may match (the example below). *)
Theorem no_hope ev ctx conditions :
  _check_rule_has_no_hope_of_matching conditions = true ->
  (forall c, c ∈ conditions -> c_type c = "never" -> c_negate c = false) ->
  conditions_match ev ctx conditions <> Ok true.
Proof.
  unfold _check_rule_has_no_hope_of_matching. destruct conditions as [|c cs]; [done|]. rewrite split_or_groups_eq.
  intros H Hnever Hm. cbn [conditions_match] in Hm. apply any_group_true in Hm as (g & Hg & Hall).
  assert (Hhas : _conditions_contain_only_never g = true).
  { destruct (or_groups (c :: cs)); [done|]. rewrite forallb_forall in H. by apply H, list_elem_of_In. }
  apply has_guard_spec in Hhas as (c' & Hc & Hty). specialize (Hall c' Hc).
  rewrite never_verdict in Hall; [done|done|]. apply Hnever; [|done].
  apply elem_of_or_groups. by exists g.
Qed.

Lemma groups_where_spec p (groups : list (list condition)) :
  groups_where p groups = [] <-> Forall (fun g => p g = false) groups.
Proof.
  unfold groups_where, enumerate.
  enough (H : forall f : nat -> list condition -> nat * list condition, (forall i g, (f i g).2 = g) ->
    (filter (fun x => p x.2 = true) (imap f groups)).*1 = [] <-> Forall (fun g => p g = false) groups)
    by (by apply H).
  induction groups as [|g groups IH]; intros f Hf; [by split; constructor|].
  rewrite imap_cons, Forall_cons, filter_cons, Hf, <- (IH (f ∘ S)); [|by intros; apply Hf].
  case_decide as E; [split; [done|by intros [? _]; congruence]|]. apply not_true_is_false in E. intuition.
Qed.

(** When the analyzer reports no dropped guard of a type the rule uses, the guard guards:
    on every stream the rule matches, a condition of that type matched. *)
Theorem guards_hold ev ctx conditions guard :
  guard ∈ _GUARD_TYPES -> (exists c, c ∈ conditions /\ c_type c = guard) ->
  guard ∉ map guard_type (_check_andor_drops_guard conditions) ->
  conditions_match ev ctx conditions = Ok true ->
  exists c, c ∈ conditions /\ c_type c = guard /\ verdict ev ctx c = true.
Proof.
  intros Hguard (c0 & Hc0 & Hty0) Hfind Hm. destruct conditions as [|c cs]; [by apply elem_of_nil in Hc0|].
  cbn [conditions_match] in Hm. apply any_group_true in Hm as (g & Hg & Hall).
  assert (Hin : forall g c', g ∈ or_groups (c :: cs) -> c' ∈ g -> c' ∈ c :: cs).
  { intros g' c' Hg' Hc'. apply elem_of_or_groups. by exists g'. }
  enough (Hhas : _group_has_guard g guard = true).
  { apply has_guard_spec in Hhas as (c' & Hc' & Hty). exists c'. split_and!; [by apply (Hin g)|done|by apply Hall]. }
  apply not_false_iff_true. intros Hno. apply Hfind. clear Hfind. unfold _check_andor_drops_guard.
  rewrite split_or_groups_eq. apply elem_of_or_groups in Hc0 as (g0 & Hg0 & Hc0).
  assert (Hg0has : _group_has_guard g0 guard = true) by (apply has_guard_spec; by exists c0).
  destruct (length (or_groups (c :: cs)) <? 2)%nat eqn:El.
  { apply Nat.ltb_lt in El. destruct (or_groups (c :: cs)) as [|g1 [|? ?]]; [by apply elem_of_nil in Hg| |cbn in El; lia].
    apply list_elem_of_singleton in Hg, Hg0. congruence. }
  apply Prelude.elem_of_map.
  destruct (groups_where (fun g => _group_has_guard g guard) (or_groups (c :: cs))) as [|n l] eqn:E1.
  { apply groups_where_spec in E1. rewrite Forall_forall in E1. rewrite (E1 _ Hg0) in Hg0has. done. }
  destruct (groups_where (fun g => negb (_group_has_guard g guard)) (or_groups (c :: cs))) as [|n' l'] eqn:E2.
  { apply groups_where_spec in E2. rewrite Forall_forall in E2. specialize (E2 _ Hg). cbn in E2.
    by rewrite Hno in E2. }
  exists (DroppedGuard guard (n :: l) (n' :: l')). split; [done|]. apply list_elem_of_omap. exists guard.
  split; [done|]. by rewrite E1, E2.
Qed.

(** ** The index of channel names *)

Lemma add_to_group_keys chs m r : foldM add_to_group m chs = Ok r ->
  (forall g l, m !! g = Some l -> g <> 0) -> forall g l, r !! g = Some l -> g <> 0.
Proof.
  revert m. induction chs as [|ch chs IH]; intros m; cbn -[add_to_group]; [by intros [= <-]|].
  destruct (add_to_group m ch) as [m'|] eqn:E; [|done]. cbn. intros H Hm. apply (IH m' H).
  unfold add_to_group in E. destruct (group_of ch) as [[[|z|z]|]|]; try done; injection E as <-;
    try done; intros g l [[<- _]|[_ Hl]]%lookup_insert_Some; (lia || by apply (Hm _ l)).
Qed.

(** The stream's normalized name is found among all the groups exactly when it is found
    in one of them, so [normalized_name_exists] is [normalized_name_in_group] for some group. *)
Theorem exists_in_some_group chs engine ev ctx :
  new_evaluator chs engine = Ok ev ->
  (evaluate_leaf ev ctx NORMALIZED_NAME_EXISTS PNone false = Ok true <->
   exists g, evaluate_leaf ev ctx NORMALIZED_NAME_IN_GROUP (PInt g) false = Ok true).
Proof.
  intros (_ & groups & Hgroups & Hnames & Hall)%new_evaluator_spec. cbn [evaluate_leaf].
  unfold _evaluate_normalized_name_exists, _evaluate_normalized_name_in_group.
  generalize (lower (_normalize_stream_name ev ctx)). intros name.
  transitivity (name ∈ all_channel_names ev).
  { case_bool_decide as E; [rewrite E; set_solver|]. split; [by intros [= H%bool_decide_eq_true]|].
    intros H. f_equal. by apply bool_decide_eq_true. }
  rewrite Hall, elem_of_union_list. split.
  - intros (names & Hin & Hname). apply list_elem_of_fmap in Hin as ([g names'] & -> & Hin%elem_of_map_to_list).
    cbn in Hname. exists g. cbn [hashable negb key_of].
    assert (Hg : g <> 0).
    { rewrite Hnames, lookup_fmap in Hin. destruct (groups !! g) eqn:Eg; [|done].
      eapply (add_to_group_keys _ _ _ Hgroups); [|exact Eg]. intros ? ?. by rewrite lookup_empty. }
    cbn [truthy]. rewrite (proj2 (Z.eqb_neq g 0) Hg). cbn. rewrite Hin.
    case_bool_decide as E; [set_solver|]. f_equal. by apply bool_decide_eq_true.
  - intros [g H]. destruct (negb (truthy (PInt g))); [done|]. cbn in H.
    destruct (channel_names_by_group ev !! g) as [names|] eqn:E; [|done].
    case_bool_decide; [done|]. injection H as H%bool_decide_eq_true. exists names. split; [|done].
    apply list_elem_of_fmap. exists (g, names). split; [done|]. by apply elem_of_map_to_list.
Qed.

End theorems.

(** ** The JSON form *)

(** Compares the literal keys of the goal. *)
Ltac decide_keys :=
  repeat match goal with
         | |- context [bool_decide (@eq string ?a ?b)] =>
             let r := eval vm_compute in (bool_decide (a = b)) in
             match r with
             | true => change (bool_decide (a = b)) with true
             | false => change (bool_decide (a = b)) with false
             end
         end.

(** No empty list of conditions, no empty connector: the dictionary leaves those out. *)
Fixpoint canonical (c : condition) : bool :=
  negb (bool_decide (c_connector c = "")) &&
  match c_conditions c with Some [] => false | Some l => forallb canonical l | None => true end.

Lemma dict_get_app d1 d2 k : dict_get (d1 ++ d2) k = match dict_get d1 k with Some v => Some v | None => dict_get d2 k end.
Proof. induction d1 as [|[k' v] d1 IH]; [done|]. cbn. by case_bool_decide. Qed.

Lemma dict_get_field k' v p k : dict_get (field k' v p) k = if p && bool_decide (k' = k) then Some v else None.
Proof. unfold field. destruct p; cbn; [|done]. by case_bool_decide. Qed.

Lemma read_conditions_get read d :
  read_conditions read d = match dict_get d "conditions" with
                           | None => Some None
                           | Some (PList l) => Some <$> read_all read l
                           | Some _ => None
                           end.
Proof. induction d as [|[k v] d IH]; [done|]. cbn. case_bool_decide; [done|exact IH]. Qed.

Lemma read_all_map read l : Forall (fun c => read (to_dict c) = Some c) l -> read_all read (map to_dict l) = Some l.
Proof. induction 1 as [|c l Hc _ IH]; [done|]. cbn. rewrite Hc. cbn. by rewrite IH. Qed.

(** A condition survives its JSON form: reading what [to_dict] writes gives the condition
    back, with every condition inside it. *)
Theorem dict_round_trip c : canonical c = true -> from_dict (to_dict c) = Some c.
Proof.
  induction c as [ty v subs conn cs neg IH] using condition_ind'. intros Hc.
  cbn [to_dict from_dict c_type c_value c_conditions c_connector c_case_sensitive c_negate].
  set (list_part := match subs with Some ((_ :: _) as l) => [("conditions", PList (map to_dict l))] | _ => [] end).
  cbn in Hc. apply andb_true_iff in Hc as [Hconn Hsubs].
  assert (Hget : forall k, dict_get list_part k =
    if bool_decide ("conditions" = k) then match subs with Some l => Some (PList (map to_dict l)) | None => None end else None).
  { intros k. unfold list_part. destruct subs as [[|c l]|]; [done| |by case_match].
    cbn. by destruct (bool_decide _). }
  rewrite read_conditions_get. unfold get_str, get_bool.
  rewrite !dict_get_app, !dict_get_field, !Hget. cbn [dict_get]. decide_keys. cbn -[to_dict canonical].
  rewrite Hconn. cbn -[to_dict canonical].
  assert (Hread : forall l, subs = Some l -> read_all from_dict (map to_dict l) = Some l).
  { intros l ->. apply read_all_map. cbn in IH. rewrite Forall_forall in *. intros c Hc.
    apply IH; [done|]. destruct l as [|x l]; [by apply elem_of_nil in Hc|].
    rewrite forallb_forall in Hsubs. by apply Hsubs, list_elem_of_In. }
  clear Hget IH Hsubs.
  assert (Hconn' : conn = if bool_decide (conn = "and") then "and" else conn).
  { destruct (bool_decide (conn = "and")) eqn:E; [by apply bool_decide_eq_true in E|done]. }
  destruct (bool_decide (conn = "and")); cbn -[to_dict canonical]; [subst conn|clear Hconn'];
    destruct v, cs, neg, subs as [subl|]; cbn -[to_dict canonical]; rewrite ?(Hread _ eq_refl); reflexivity.
Qed.

(** ** Concrete rules *)

(** Patterns that are plain text, except that an opening bracket is a syntax error; days print
    as their number. *)
#[local] Instance plain_text : Environment := {|
  regex_search ignorecase p text :=
    if contains "[" p then SyntaxError
    else if (if ignorecase then contains (lower p) (lower text) else contains p text) then Found else NotFound;
  regex_error _ p := if contains "[" p then Some "unterminated character set" else None;
  sha256 p := p;
  strftime := DatePlaceholders.plain_days;
  timed_out _ := false |}.

Definition leaf (ty : string) (v : pyval) (connector : string) : condition := Condition ty v None connector false false.
Definition negate (c : condition) : condition :=
  Condition (c_type c) (c_value c) (c_conditions c) (c_connector c) (c_case_sensitive c) (negb (c_negate c)).

Definition news : context :=
  from_dispatcharr_stream "BBC News HD" (Some "UK | News") None None (Some 3) (Some 7)
    (Some (StreamStats (Some "1920x1080") (Some "H264") (Some 2))).

Definition lineup : list channel :=
  [Channel 7 "106 | BBC News" (Some 4) NoKey 1; Channel 8 "Sky" None (Nested (Some 5)) 0].

Definition strip_hd (name : string) : option string :=
  if contains "HD" name then Some (strip (s_take (String.length name - 2) name)) else Some name.

Definition empty_evaluator : evaluator := Evaluator [] None ∅ ∅ ∅ ∅ ∅.
Definition lineup_evaluator : evaluator :=
  match new_evaluator lineup (Some strip_hd) with Ok ev => ev | Raise _ => empty_evaluator end.

(** A condition over most of the condition types. *)
Definition sample : condition :=
  Condition "and" PNone (Some
    [leaf "stream_name_matches" (PStr "news") "and"; leaf "quality_min" (PInt 720) "and";
     Condition "or" PNone (Some [leaf "provider_is" (PList [PInt 1; PInt 3]) "and"; leaf "never" PNone "and"]) "and" false false;
     Condition "not" PNone (Some [leaf "stream_group_is" (PStr "sport") "and"]) "and" false false;
     leaf "codec_is" (PList [PStr "h264"]) "and"; leaf "has_audio_tracks" (PInt 2) "and";
     leaf "normalized_name_in_group" (PInt 4) "and"; leaf "channel_has_streams" (PInt 1) "and";
     leaf "channel_in_group" (PInt 4) "and"; leaf "channel_exists_with_name" (PStr "sky") "and"])
    "or" true true.

Lemma validated_evaluates_witness :
  new_evaluator lineup (Some strip_hd) = Ok lineup_evaluator /\
  exists m, evaluate lineup_evaluator news sample = Ok (EvaluationResult m (label sample)).
Proof.
  assert (H : new_evaluator lineup (Some strip_hd) = Ok lineup_evaluator) by (vm_compute; reflexivity).
  split; [exact H|]. apply (validated_evaluates lineup (Some strip_hd) lineup_evaluator news sample H).
  - discriminate.
  - vm_compute. reflexivity.
  - vm_compute. reflexivity.
Defined.

Example sample_matches :
  evaluate lineup_evaluator news sample = Ok (EvaluationResult false "not(and)") /\
  evaluate lineup_evaluator news (negate sample) = Ok (EvaluationResult true "and").
Proof. split; vm_compute; reflexivity. Qed.

(** A and B or C. *)
Definition rule : list condition :=
  [leaf "normalized_name_in_group" (PInt 5) "and"; leaf "stream_name_contains" (PStr "BBC") "and";
   leaf "stream_group_contains" (PStr "news") "or"].
Abbreviation rule_log :=
  [LogEntry "normalized_name_in_group" (PInt 5) false "and"; LogEntry "stream_name_contains" (PStr "BBC") true "and";
   LogEntry "stream_group_contains" (PStr "news") true "or"].

Lemma one_reading_witness :
  rule_match lineup_evaluator news rule = Ok (true, rule_log) /\ conditions_match lineup_evaluator news rule = Ok true.
Proof.
  assert (H : rule_match lineup_evaluator news rule = Ok (true, rule_log)) by (vm_compute; reflexivity).
  split; [exact H|]. apply (one_reading lineup_evaluator news _ _ _ _ H).
Defined.

Abbreviation hopeless :=
  [leaf "never" PNone "and"; leaf "always" PNone "and"; leaf "never" PNone "or"].

Lemma no_hope_witness : conditions_match lineup_evaluator news hopeless <> Ok true.
Proof.
  apply (no_hope lineup_evaluator news hopeless).
  - vm_compute. reflexivity.
  - intros c Hc _. apply list_elem_of_In in Hc. cbn in Hc. destruct Hc as [<-|[<-|[<-|[]]]]; reflexivity.
Defined.

Abbreviation guarded :=
  [leaf "provider_is" (PInt 3) "and"; leaf "stream_name_contains" (PStr "Sky") "and";
   leaf "provider_is" (PInt 3) "or"; leaf "stream_name_contains" (PStr "BBC") "and"].

Lemma guards_hold_witness :
  exists c, c ∈ guarded /\ c_type c = "provider_is" /\ verdict lineup_evaluator news c = true.
Proof.
  apply (guards_hold lineup_evaluator news guarded "provider_is").
  - apply list_elem_of_In. vm_compute. tauto.
  - exists (leaf "provider_is" (PInt 3) "and"). split; [apply list_elem_of_In; vm_compute; tauto|reflexivity].
  - assert (H : _check_andor_drops_guard guarded = []) by (vm_compute; reflexivity).
    rewrite H. cbn. intros He. apply elem_of_nil in He. exact He.
  - vm_compute. reflexivity.
Defined.

Lemma exists_in_some_group_witness :
  exists g, evaluate_leaf lineup_evaluator news NORMALIZED_NAME_IN_GROUP (PInt g) false = Ok true.
Proof.
  assert (H : new_evaluator lineup (Some strip_hd) = Ok lineup_evaluator) by (vm_compute; reflexivity).
  apply (exists_in_some_group lineup (Some strip_hd) lineup_evaluator news H). vm_compute. reflexivity.
Defined.

Lemma dict_round_trip_witness : from_dict (to_dict sample) = Some sample.
Proof. apply (dict_round_trip sample). vm_compute. reflexivity. Defined.

(** The guard of the first group does not reach the second; the rule above shows the finding. *)
Example guard_dropped :
  _check_andor_drops_guard rule = [DroppedGuard "normalized_name_in_group" [0%nat] [1%nat]].
Proof. vm_compute. reflexivity. Qed.

(** A probed stream without a count of audio channels: asking for its tracks raises. *)
Definition unprobed_audio : context :=
  from_dispatcharr_stream "BBC" None None None None None (Some (StreamStats None None None)).

Example missing_audio_raises :
  (validate (leaf "has_audio_tracks" (PInt 1) "and"),
   evaluate lineup_evaluator unprobed_audio (leaf "has_audio_tracks" (PInt 1) "and")) = (Ok [], Raise TypeError).
Proof. vm_compute. reflexivity. Qed.

(** An infinite number of tracks is valid, and raises. *)
Example infinite_audio_raises :
  (validate (leaf "has_audio_tracks" (PFloat (S754_infinity false)) "and"),
   evaluate lineup_evaluator news (leaf "has_audio_tracks" (PFloat (S754_infinity false)) "and")) =
  (Ok [], Raise OverflowError).
Proof. vm_compute. reflexivity. Qed.

(** Validating a pattern that is not text raises instead of reporting the error it has found. *)
Example missing_pattern_raises : validate (leaf "stream_name_matches" PNone "and") = Raise TypeError.
Proof. vm_compute. reflexivity. Qed.

(** A rule whose only condition is a negated [never] is called hopeless and matches everything. *)
Example negated_never :
  (_check_rule_has_no_hope_of_matching [negate (leaf "never" PNone "and")],
   conditions_match lineup_evaluator news [negate (leaf "never" PNone "and")]) = (true, Ok true).
Proof. vm_compute. reflexivity. Qed.

(** A channel whose group is a null keeps the evaluator from being built. *)
Example null_group_raises : new_evaluator [Channel 1 "A" None Null 0] None = Raise AttributeError.
Proof. vm_compute. reflexivity. Qed.

End RuleTheorems.
