(* ===== verification/NameNormalizer.v ===== *)
(** * The name normalizer ([backend/normalization_engine.py]).

    Rules with a condition and an action, applied group by group in passes until the name no
    longer changes; the core name and the call sign the merge paths compare.  Text is ASCII,
    on which the Unicode policy (NFC, invisible marks, superscripts, confusables) is the
    identity.  The regular-expression engine is a parameter; patterns the module writes
    itself are read off. *)
From S2P Require Import Prelude PyValue PyText PyDatetime.
Open Scope Z_scope.

Module NameNormalizer.

(** ** Text *)

Fixpoint s_drop (n : nat) (s : string) : string :=
  match n, s with
  | O, _ => s
  | S n, String _ s => s_drop n s
  | S _, EmptyString => EmptyString
  end.

(** [text.find(sub)]; [None] is [-1]. *)
Fixpoint find (sub text : string) : option nat :=
  if starts_with sub text then Some O
  else match text with String _ text => S <$> find sub text | EmptyString => None end.

Definition ends_with (suffix text : string) : bool :=
  (String.length suffix <=? String.length text)%nat &&
  bool_decide (s_drop (String.length text - String.length suffix) text = suffix).

Fixpoint last_char (s : string) : option ascii :=
  match s with
  | EmptyString => None
  | String c EmptyString => Some c
  | String _ s => last_char s
  end.

Definition head_char (s : string) : option ascii := match s with String c _ => Some c | EmptyString => None end.
Definition when (p : ascii -> bool) (c : option ascii) : bool := match c with Some c => p c | None => false end.
Definition among (chars : string) (c : ascii) : bool := contains_char c chars.

(** [[:\-|/]], [[\s:\-|/]], the characters of [' \t\n\r:-|/'] and of [' :-|/']. *)
Definition is_delimiter (c : ascii) : bool := among ":-|/" c.
Definition is_separator (c : ascii) : bool := is_space c || is_delimiter c.
Definition is_cut (c : ascii) : bool :=
  among " " c || is_delimiter c || among (String "009" (String "010" (String "013" EmptyString))) c.
Definition is_tag_cut (c : ascii) : bool := among " :-|/" c.

(** [re.sub(r'\s+', ' ', text)] *)
Fixpoint squeeze (in_space : bool) (s : string) : string :=
  match s with
  | EmptyString => EmptyString
  | String c s =>
      if is_space c then (if in_space then squeeze true s else String " " (squeeze true s))
      else String c (squeeze false s)
  end.

(** [re.sub(r'\s+', ' ', text).strip()] *)
Definition clean (s : string) : string := strip (squeeze false s).

(** [re.escape(text)] *)
Definition is_special (c : ascii) : bool :=
  among "()[]{}?*+-|^$\.&~# " c || ((9 <=? code c) && (code c <=? 13))%nat.
Fixpoint escape (s : string) : string :=
  match s with
  | EmptyString => EmptyString
  | String c s => if is_special c then String "\" (String c (escape s)) else String c (escape s)
  end.

(** [re.sub(r'\$(\d+)', r'\\\1', text)] *)
Fixpoint backreferences (s : string) : string :=
  match s with
  | EmptyString => EmptyString
  | String c s' => String (if bool_decide (c = "$"%char) && when is_decimal (head_char s') then "\"%char else c)
                          (backreferences s')
  end.

(** ** Rules *)

(** A condition of a rule's [conditions]. *)
Record compound := Compound { k_type : string; k_value : string; k_case_sensitive : bool; k_negate : bool }.

Record rule := Rule {
  r_id : Z; r_group_id : Z; r_enabled : bool; r_priority : Z;
  condition_type : option string; condition_value : option string; case_sensitive : bool;
  tag_group_id : option Z; tag_match_position : option string; require_delimiter : bool;
  conditions : list compound; condition_logic : string;
  action_type : string; action_value : option string;
  else_action_type : option string; else_action_value : option string; stop_processing : bool }.

Record rule_group := RuleGroup { g_id : Z; g_enabled : bool; g_priority : Z }.

Definition grouped : Type := list (rule_group * list rule).

(** [_load_rules]: the enabled groups and rules by priority, equal ones in the order of their
    rows. *)
Definition load_rules (groups : list rule_group) (rules : list rule) : grouped :=
  map (fun g => (g, py_sorted (fun a b => r_priority a <=? r_priority b)
                  (List.filter (fun r => (r_group_id r =? g_id g) && r_enabled r) rules)))
    (py_sorted (fun a b => g_priority a <=? g_priority b) (List.filter g_enabled groups)).

(** A successful [RuleMatch]. *)
Record rule_match := RuleMatch { match_start : nat; match_end : nat; matched_tag : string }.

(** An entry of [custom_normalization_tags]. *)
Record custom_tag := CustomTag { ct_value : string; ct_mode : string }.

(** An entry of [transformations]: by a rule, or by a tag of the settings. *)
Inductive transformation :=
| ByRule (id : Z) (before after : string)
| LegacyTag (before after : string).

(** What the engine reads: [safe_regex.search] and [safe_regex.match] with the span of their
    match, [safe_regex.sub]; the enabled tags of a tag group with their case sensitivity, the
    tag groups by name; the word sets; the tags of the settings. *)
Class Environment := {
  regex_search : bool -> string -> string -> option (nat * nat);
  regex_match : bool -> string -> string -> option (nat * nat);
  regex_sub : bool -> string -> string -> string -> string;
  load_tag_group : Z -> list (string * bool);
  tag_group_named : string -> option Z;
  small_words : list string;
  generic_words : list string;
  abbreviation_tags : list string;
  custom_tags : list custom_tag }.

(** The span of a match lies in the text; a match from the start starts there. *)
Class RegexLaws {env : Environment} := {
  search_span : forall ic p t s e, regex_search ic p t = Some (s, e) -> (s <= e <= String.length t)%nat;
  match_span : forall ic p t s e, regex_match ic p t = Some (s, e) -> s = O /\ (e <= String.length t)%nat }.

Section engine.
Context {env : Environment}.

Definition DEFAULT_MAX_PATTERN_LEN : nat := 500.

(** [safe_regex.search], [match] and [sub]: a pattern beyond the cap neither matches nor
    replaces. *)
Definition safe_search (ignorecase : bool) (pattern text : string) : option (nat * nat) :=
  if (DEFAULT_MAX_PATTERN_LEN <? String.length pattern)%nat then None else regex_search ignorecase pattern text.
Definition safe_match (ignorecase : bool) (pattern text : string) : option (nat * nat) :=
  if (DEFAULT_MAX_PATTERN_LEN <? String.length pattern)%nat then None else regex_match ignorecase pattern text.
Definition safe_sub (ignorecase : bool) (pattern repl text : string) : string :=
  if (DEFAULT_MAX_PATTERN_LEN <? String.length pattern)%nat then text else regex_sub ignorecase pattern repl text.

(** ** Matching *)

Definition fold_case (sensitive : bool) (s : string) : string := if sensitive then s else lower s.

Definition _match_single_condition (text type pattern : string) (sensitive : bool) : option rule_match :=
  let match_text := fold_case sensitive text in
  let match_pattern := fold_case sensitive pattern in
  let len := String.length text in
  let plen := String.length pattern in
  if bool_decide (type = "always") then Some (RuleMatch 0 len "")
  else if bool_decide (type = "contains") then
    i ← find match_pattern match_text; Some (RuleMatch i (i + plen) "")
  else if bool_decide (type = "starts_with") then
    if starts_with match_pattern match_text && when is_separator (head_char (s_drop plen match_text))
    then Some (RuleMatch 0 plen "") else None
  else if bool_decide (type = "ends_with") then
    if ends_with match_pattern match_text && (plen <? len)%nat && when is_separator (last_char (s_take (len - plen) text))
    then Some (RuleMatch (len - plen) len "") else None
  else if bool_decide (type = "regex") then
    '(s, e) ← safe_search (negb sensitive) pattern text; Some (RuleMatch s e "")
  else None.

(** The separators next to a tag: lenient, or strict. *)
Definition prefix_separated (strict : bool) (rest : string) : bool :=
  if strict then when is_delimiter (head_char (lstrip rest)) else when is_separator (head_char rest).
Definition suffix_separated (strict : bool) (rest : string) : bool :=
  if strict then when is_delimiter (last_char (rstrip rest)) else when is_separator (last_char rest).

Definition sep_pattern : string := "[\s:\-|/]+".

(** One tag of a group, at a position. *)
Definition match_tag (text position : string) (strict : bool) (tag : string * bool) : option rule_match :=
  let '(value, sensitive) := tag in
  let match_text := fold_case sensitive text in
  let match_tag := fold_case sensitive value in
  let len := String.length text in
  let tlen := String.length value in
  if bool_decide (position = "prefix") then
    if starts_with match_tag match_text && prefix_separated strict (s_drop tlen match_text)
    then Some (RuleMatch 0 tlen value) else None
  else if bool_decide (position = "suffix") then
    if ends_with match_tag match_text && (tlen <? len)%nat && suffix_separated strict (s_take (len - tlen) text)
    then Some (RuleMatch (len - tlen) len value)
    else
      let paren := ("(" ++ match_tag ++ ")")%string in
      let plen := String.length paren in
      if ends_with paren match_text && (plen <? len)%nat &&
         when (among " ") (last_char (s_take (len - plen) text))
      then Some (RuleMatch (len - plen - 1) len value) else None
  else
    let tag_pat := escape match_tag in
    match safe_search (negb sensitive) ("(" ++ sep_pattern ++ ")" ++ tag_pat ++ "(?=" ++ sep_pattern ++ "|$)")%string text with
    | Some (s, e) => Some (RuleMatch s e value)
    | None => match safe_match (negb sensitive) (tag_pat ++ "(" ++ sep_pattern ++ ")")%string text with
              | Some (_, e) => Some (RuleMatch 0 e value)
              | None => None
              end
    end.

Fixpoint first_match {A} (f : A -> option rule_match) (l : list A) : option rule_match :=
  match l with
  | [] => None
  | x :: l => match f x with Some m => Some m | None => first_match f l end
  end.

Definition _match_tag_group (text : string) (group : Z) (position : string) (strict : bool) : option rule_match :=
  first_match (match_tag text position strict) (load_tag_group group).

Definition is_some {A} (o : option A) : bool := match o with Some _ => true | None => false end.

Definition condition_holds (text : string) (c : compound) : bool :=
  xorb (k_negate c) (is_some (_match_single_condition text (k_type c) (k_value c) (k_case_sensitive c))).

(** A condition whose match the action may use. *)
Definition primary (text : string) (c : compound) : option rule_match :=
  if k_negate c then None else _match_single_condition text (k_type c) (k_value c) (k_case_sensitive c).

Definition _match_compound_conditions (text : string) (conds : list compound) (logic : string) : option rule_match :=
  let span := default (RuleMatch 0 (String.length text) "") (first_match (primary text) conds) in
  let holds := if bool_decide (logic = "OR") then existsb (condition_holds text) conds
               else forallb (condition_holds text) conds in
  match conds with
  | [] => None
  | _ => if holds then Some span else None
  end.

(** [v or dflt] for an optional text. *)
Definition or_text (v : option string) (dflt : string) : string :=
  match v with Some (String _ _ as s) => s | _ => dflt end.

Definition _match_condition (text : string) (r : rule) : option rule_match :=
  match conditions r with
  | _ :: _ => _match_compound_conditions text (conditions r) (condition_logic r)
  | [] =>
      if bool_decide (condition_type r = Some "tag_group") then
        match tag_group_id r with
        | Some (Zpos _ as g) | Some (Zneg _ as g) =>
            _match_tag_group text g (or_text (tag_match_position r) "contains") (require_delimiter r)
        | _ => None
        end
      else _match_single_condition text (or_text (condition_type r) "always") (or_text (condition_value r) "")
             (case_sensitive r)
  end.

(** ** Capitalization *)

Definition letters (word : string) : string := s_filter is_alpha word.
Fixpoint s_forall (p : ascii -> bool) (s : string) : bool :=
  match s with EmptyString => true | String c s => p c && s_forall p s end.
Fixpoint s_exists (p : ascii -> bool) (s : string) : bool :=
  match s with EmptyString => false | String c s => p c || s_exists p s end.

Definition _is_abbreviation (word : string) : bool :=
  let alpha := letters word in
  let n := String.length alpha in
  if (n =? 0)%nat then false
  else if bool_decide (lower alpha ∈ small_words) then false
  else if (n =? 1)%nat then true
  else if s_exists (among "&") word then true
  else if bool_decide (alpha ∈ abbreviation_tags) || bool_decide (upper word ∈ abbreviation_tags) then true
  else if s_exists is_decimal word then true
  else if (4 <=? n)%nat && (n <=? 5)%nat && when (among "WK") (head_char alpha) then true
  else negb (s_exists (among "AEIOU") alpha).

Fixpoint title_case (capitalize_next : bool) (word : string) : string :=
  match word with
  | EmptyString => EmptyString
  | String c word =>
      if is_alpha c then String (if capitalize_next then to_upper c else to_lower c) (title_case false word)
      else String c (title_case capitalize_next word)
  end.
Definition _title_case_word (word : string) : string := title_case true word.

Definition _smart_title_word (word : string) (is_first : bool) : string :=
  let alpha := letters word in
  let small := bool_decide (lower alpha ∈ small_words) in
  match alpha with
  | EmptyString => word
  | _ =>
      if s_forall is_upper alpha then
        if _is_abbreviation word then word
        else if negb is_first && small then lower word
        else _title_case_word word
      else if s_forall is_lower alpha then
        if negb (when is_alpha (head_char word)) && (String.length alpha <=? 2)%nat then word
        else if negb is_first && small then word
        else _title_case_word word
      else word
  end.

Definition smart_title (text : string) : string :=
  String.concat " " (imap (fun i w => _smart_title_word w (i =? 0)%nat) (split_words text)).

Definition sentence (text : string) : string :=
  match text with String c rest => String (to_upper c) (lower rest) | EmptyString => EmptyString end.

(** The [capitalize] action. *)
Definition capitalize (value text : string) : string :=
  let mode := match value with EmptyString => "title" | _ => lower value end in
  if bool_decide (mode = "upper") then upper text
  else if bool_decide (mode = "lower") then lower text
  else if bool_decide (mode = "sentence") then sentence text
  else smart_title text.

(** ** Actions *)

Definition _would_collapse_to_generic (result : string) : bool :=
  match split_words result with [w] => bool_decide (lower w ∈ generic_words) | _ => false end.

Definition strip_start (text : string) (m : rule_match) : string :=
  let result := strip (lstrip_chars is_separator (s_drop (match_end m) text)) in
  if _would_collapse_to_generic result then text else result.

Definition strip_end (text : string) (m : rule_match) : string :=
  let result := strip (rstrip_chars is_cut (s_take (match_start m) text)) in
  if _would_collapse_to_generic result then text else result.

(** The match reaches the end of the text, or the end of what is not blank. *)
Definition at_end (text : string) (m : rule_match) : bool :=
  (match_end m =? String.length text)%nat || (match_end m =? String.length (rstrip text))%nat.

Definition _apply_action (text : string) (r : rule) (m : rule_match) : string :=
  let value := default "" (action_value r) in
  let action := action_type r in
  if bool_decide (action = "remove") then (s_take (match_start m) text ++ s_drop (match_end m) text)%string
  else if bool_decide (action = "replace") then (s_take (match_start m) text ++ value ++ s_drop (match_end m) text)%string
  else if bool_decide (action = "regex_replace") then
    if bool_decide (condition_type r = Some "regex")
    then safe_sub (negb (case_sensitive r)) (default "" (condition_value r)) (backreferences value) text
    else text
  else if bool_decide (action = "strip_prefix") then
    if (match_start m =? 0)%nat then strip_start text m else text
  else if bool_decide (action = "strip_suffix") then
    if at_end text m then strip_end text m else text
  else if bool_decide (action = "normalize_prefix") then
    if (match_start m =? 0)%nat then
      (rstrip_chars is_cut (s_take (match_end m) text) ++ or_text (Some value) " | " ++
       lstrip_chars is_cut (s_drop (match_end m) text))%string
    else text
  else if bool_decide (action = "capitalize") then capitalize value text
  else text.

Definition _apply_else_action (text : string) (r : rule) : string :=
  let value := default "" (else_action_value r) in
  match or_text (else_action_type r) "" with
  | "replace" => value
  | "regex_replace" =>
      match or_text (condition_value r) "" with
      | EmptyString => text
      | pattern => safe_sub (negb (case_sensitive r)) pattern (backreferences value) text
      end
  | "strip_prefix" => strip (lstrip_chars is_cut text)
  | "strip_suffix" => strip (rstrip_chars is_cut text)
  | "capitalize" => capitalize value text
  | _ => text
  end.

(** ** Passes *)

Definition note (id : Z) (before after : string) (trace : list transformation) : list transformation :=
  if bool_decide (before = after) then trace else trace ++ [ByRule id before after].

(** The rules of a group in turn; one that applies may stop the rest of the group. *)
Fixpoint apply_group (rules : list rule) (acc : string * list transformation) : string * list transformation :=
  match rules with
  | [] => acc
  | r :: rules =>
      let '(current, trace) := acc in
      let next after := (after, note (r_id r) current after trace) in
      match _match_condition current r with
      | Some m => let acc := next (_apply_action current r m) in
                  if stop_processing r then acc else apply_group rules acc
      | None => match or_text (else_action_type r) "" with
                | EmptyString => apply_group rules acc
                | _ => let acc := next (_apply_else_action current r) in
                       if stop_processing r then acc else apply_group rules acc
                end
      end
  end.

Definition _apply_rules_single_pass (groups : grouped) (acc : string * list transformation) :
    string * list transformation :=
  foldl (fun acc g => apply_group g.2 acc) acc groups.

(** One tag of the settings; a suffix that is cut leaves no trace. *)
Definition apply_custom_tag (acc : string * list transformation) (tag : custom_tag) : string * list transformation :=
  let '(current, trace) := acc in
  let value := ct_value tag in
  let len := String.length current in
  let tlen := String.length value in
  let both := bool_decide (ct_mode tag = "both") in
  let suffix := bool_decide (ct_mode tag = "suffix") || both in
  let prefix := bool_decide (ct_mode tag = "prefix") || both in
  let paren := ("(" ++ value ++ ")")%string in
  if (tlen =? 0)%nat then acc
  else if suffix && ends_with (lower value) (lower current) && (tlen <? len)%nat &&
          when is_tag_cut (last_char (s_take (len - tlen) current))
  then (rstrip_chars is_tag_cut (s_take (len - tlen) current), trace)
  else if suffix && ends_with (lower paren) (lower current) && (String.length paren <? len)%nat
  then (rstrip (s_take (len - String.length paren) current), trace)
  else if prefix && starts_with (lower value) (lower current) && when is_tag_cut (head_char (s_drop tlen current))
  then let after := lstrip_chars is_tag_cut (s_drop tlen current) in
       (after, if bool_decide (current = after) then trace else trace ++ [LegacyTag current after])
  else acc.

Definition _apply_legacy_custom_tags (acc : string * list transformation) : string * list transformation :=
  foldl apply_custom_tag acc custom_tags.

(** One pass: the rules, the tags of the settings, the white space. *)
Definition pass (groups : grouped) (acc : string * list transformation) : string * list transformation :=
  let '(current, trace) := _apply_legacy_custom_tags (_apply_rules_single_pass groups acc) in (clean current, trace).

Fixpoint passes (n : nat) (groups : grouped) (acc : string * list transformation) : string * list transformation :=
  match n with
  | O => acc
  | S n => let acc' := pass groups acc in
           if bool_decide (acc'.1 = acc.1) then acc' else passes n groups acc'
  end.

Definition MAX_PASSES : nat := 10.

Record normalization_result := NormalizationResult {
  original : string; normalized : string; transformations : list transformation }.

(** [result.rules_applied] *)
Definition rules_applied (r : normalization_result) : list Z :=
  omap (fun t => match t with ByRule id _ _ => Some id | LegacyTag _ _ => None end) (transformations r).

Definition selected (group_ids : option (list Z)) (groups : grouped) : grouped :=
  match group_ids with
  | None => groups
  | Some ids => List.filter (fun g => bool_decide (g_id g.1 ∈ ids)) groups
  end.

Definition normalize (groups : grouped) (name : string) (group_ids : option (list Z)) : normalization_result :=
  let '(current, trace) := passes MAX_PASSES (selected group_ids groups) (strip name, []) in
  NormalizationResult name current trace.

(** The preview of one rule ([test_rule]): what it matched and what it makes of the text. *)
Record preview := Preview { p_matched : option rule_match; p_after : string; p_else_applied : bool }.

Definition test_rule (text : string) (r : rule) : preview :=
  match _match_condition text r with
  | Some m => Preview (Some m) (clean (_apply_action text r m)) false
  | None => match or_text (else_action_type r) "" with
            | EmptyString => Preview None (clean text) false
            | _ => Preview None (clean (_apply_else_action text r)) true
            end
  end.

(** ** Core names *)

(** The longest prefix of decimal digits, and the rest. *)
Fixpoint span_digits (s : string) : string * string :=
  match s with
  | String c s' => if is_decimal c then let '(a, b) := span_digits s' in (String c a, b) else (EmptyString, s)
  | EmptyString => (EmptyString, s)
  end.

(** What follows [\d+(?:\.\d+)?]: with the fraction first, then without it. *)
Definition after_number (s : string) : list string :=
  match span_digits s with
  | (EmptyString, _) => []
  | (_, rest) => match rest with
                 | String p rest' =>
                     if bool_decide (p = "."%char) then
                       match span_digits rest' with
                       | (EmptyString, _) => [rest]
                       | (_, rest'') => [rest''; rest]
                       end
                     else [rest]
                 | EmptyString => [rest]
                 end
  end.

Fixpoint first_some {A B} (f : A -> option B) (l : list A) : option B :=
  match l with [] => None | x :: l => match f x with Some y => Some y | None => first_some f l end end.

(** [_NUM_PREFIX_DELIM_RE], [_NUM_PREFIX_SPACE_RE] and [_NUM_TRAILING_PAREN_RE] removed. *)
Definition drop_delimited_number (s : string) : string :=
  default s (first_some (fun rest => match lstrip rest with
                                     | String c rest => if among "|:-." c then Some (lstrip rest) else None
                                     | EmptyString => None
                                     end) (after_number s)).

Definition drop_spaced_number (s : string) : string :=
  default s (first_some (fun rest => if when is_space (head_char rest) && when is_alpha (head_char (lstrip rest))
                                     then Some (lstrip rest) else None) (after_number s)).

Definition drop_trailing_number (s : string) : string :=
  let t := rstrip s in
  if when (among ")") (last_char t) then
    let body := s_take (String.length t - 1) t in
    let before := rstrip_chars is_decimal body in
    if (String.length before <? String.length body)%nat && when (among "(") (last_char before)
    then rstrip (s_take (String.length before - 1) before) else s
  else s.

Definition is_id (o : option Z) : option Z := match o with Some 0 | None => None | _ => o end.

(** Strips a country from the start, keeping the name when nothing or one generic word would
    be left. *)
Definition strip_country (group : option Z) (current : string) : string :=
  match (g ← is_id group; _match_tag_group current g "prefix" false) with
  | Some m =>
      if (match_start m =? 0)%nat then
        let result := strip (lstrip_chars is_separator (s_drop (match_end m) current)) in
        if (String.length result =? 0)%nat || _would_collapse_to_generic result then current else result
      else current
  | None => current
  end.

(** The same for a quality or a time zone at the end. *)
Definition strip_trailing_tag (group : option Z) (current : string) : string :=
  match (g ← is_id group; _match_tag_group current g "suffix" false) with
  | Some m =>
      if at_end current m then
        let result := strip (rstrip_chars is_separator (s_take (match_start m) current)) in
        if (String.length result =? 0)%nat || _would_collapse_to_generic result then current else result
      else current
  | None => current
  end.

Definition core_pass (for_matching : bool) (current : string) : string :=
  let current := strip_country (tag_group_named "Country Tags") current in
  let current := strip_trailing_tag (tag_group_named "Quality Tags") current in
  let current := if for_matching then strip_trailing_tag (tag_group_named "Timezone Tags") current else current in
  clean current.

Fixpoint core_passes (n : nat) (for_matching : bool) (current : string) : string :=
  match n with
  | O => current
  | S n => let next := core_pass for_matching current in
           if bool_decide (next = current) then next else core_passes n for_matching next
  end.

(** The name without its channel numbers. *)
Definition without_numbers (name : string) : string :=
  strip (drop_trailing_number (drop_spaced_number (drop_delimited_number (strip name)))).

(** [extract_core_name] without its memo. *)
Definition core_name (name : string) (for_matching : bool) : string :=
  match without_numbers name with
  | EmptyString => strip name
  | current => match core_passes 5 for_matching current with EmptyString => strip name | core => core end
  end.

(** [_core_name_match_cache] *)
Definition memo : Type := list (string * string).
Fixpoint recall (m : memo) (name : string) : option string :=
  match m with [] => None | (k, v) :: m => if bool_decide (k = name) then Some v else recall m name end.

Definition extract_core_name (m : memo) (name : string) (for_matching : bool) : string * memo :=
  match strip name with
  | EmptyString => (EmptyString, m)
  | _ => if for_matching then
           match recall m name with
           | Some core => (core, m)
           | None => let core := core_name name true in (core, (name, core) :: m)
           end
         else (core_name name false, m)
  end.

(** ** Call signs *)

Definition _CALLSIGN_FALSE_POSITIVES : list string := ["WWE"; "WEST"; "KIDZ"; "KIDS"; "WNBA"; "WPT"].
Definition _BROADCAST_NETWORKS : list string :=
  ["ABC"; "CBS"; "NBC"; "FOX"; "PBS"; "CW"; "MY"; "ION"; "UPN"; "WB"; "MNT"; "UNIVISION"; "TELEMUNDO"].

(** [[WK][A-Z]{2,3}], the whole of the text. *)
Definition is_call_sign (s : string) : bool :=
  match s with
  | String c rest => among "WK" c && ((String.length rest =? 2) || (String.length rest =? 3))%nat && s_forall is_upper rest
  | EmptyString => false
  end.

(** The maximal runs of word characters: what lies between two [\b]. *)
Definition is_word (c : ascii) : bool := is_alpha c || is_decimal c || among "_" c.
Fixpoint runs_from (word : string) (s : string) : list string :=
  match s with
  | EmptyString => match word with EmptyString => [] | _ => [word] end
  | String c s =>
      if is_word c then runs_from (word ++ String c EmptyString)%string s
      else match word with EmptyString => runs_from EmptyString s | _ => word :: runs_from EmptyString s end
  end.
Definition word_runs (s : string) : list string := runs_from EmptyString s.

(** [\(([WK][A-Z]{2,3})\)] at [c], with a call sign of [n] letters. *)
Definition paren_at (n : nat) (c : ascii) (rest : string) : option string :=
  if among "(" c && is_call_sign (s_take n rest) && when (among ")") (head_char (s_drop n rest))
  then Some (s_take n rest) else None.

(** The first match in the text. *)
Fixpoint paren_call_sign (s : string) : option string :=
  match s with
  | EmptyString => None
  | String c rest =>
      match paren_at 4 c rest with
      | Some cs => Some cs
      | None => match paren_at 3 c rest with Some cs => Some cs | None => paren_call_sign rest end
      end
  end.

(** [^\d+\s*\|\s*] removed *)
Definition drop_channel_number (s : string) : string :=
  match span_digits s with
  | (EmptyString, _) => s
  | (_, rest) => match lstrip rest with
                 | String c rest' => if among "|" c then lstrip rest' else s
                 | EmptyString => s
                 end
  end.

Definition real_call_sign (cs : string) : bool := negb (bool_decide (cs ∈ _CALLSIGN_FALSE_POSITIVES)).

Definition extract_call_sign (name : string) : option string :=
  let upper_name := upper name in
  let bare := if existsb (fun net => is_some (safe_search false ("\b" ++ net ++ "\b")%string upper_name)) _BROADCAST_NETWORKS ||
                 existsb (fun w => s_forall is_decimal w && (String.length w <=? 2)%nat) (word_runs upper_name)
              then last (List.filter (fun w => is_call_sign w && real_call_sign w) (word_runs upper_name)) else None in
  if (String.length name =? 0)%nat then None
  else if starts_with "TEAMS:" (drop_channel_number upper_name) then None
  else match paren_call_sign upper_name with
       | Some cs => if real_call_sign cs then Some cs else bare
       | None => bare
       end.

End engine.

End NameNormalizer.
