(* ===== verification/NameTheorems.v ===== *)
(** * Theorems about the name normalizer: matches lie in the text, a normalized name is a
    normal form unless the passes ran out, the trace explains the name, a core name keeps
    what tells channels apart, a call sign is one. *)
From S2P Require Import Prelude PyValue PyText NameNormalizer.
Open Scope Z_scope.

Module NameTheorems.
Import NameNormalizer.

(** ** Text *)

Lemma s_take_drop n s : (s_take n s ++ s_drop n s)%string = s.
Proof. revert s. induction n as [|n IH]; intros s; [done|]. destruct s as [|c s]; [done|]. cbn. by rewrite s_app_cons, IH. Qed.

Lemma s_drop_length n s : String.length (s_drop n s) = (String.length s - n)%nat.
Proof. revert s. induction n as [|n IH]; intros s; cbn; [lia|]. destruct s as [|c s]; [done|]. cbn. by rewrite IH. Qed.

Lemma s_drop_0 s : s_drop 0 s = s.
Proof. by destruct s. Qed.

Lemma s_take_all s n : (String.length s <= n)%nat -> s_take n s = s.
Proof. revert s. induction n as [|n IH]; intros [|c s]; cbn; try done; intros H; [lia|]. rewrite IH; [done|lia]. Qed.

Lemma lower_length s : String.length (lower s) = String.length s.
Proof. apply s_map_length. Qed.

Lemma fold_case_length b s : String.length (fold_case b s) = String.length s.
Proof. destruct b; [done|apply lower_length]. Qed.

Lemma starts_with_length p s : starts_with p s = true -> (String.length p <= String.length s)%nat.
Proof.
  unfold starts_with. destruct (drop_prefix p s) eqn:E; [|done]. intros _. apply drop_prefix_Some in E as ->.
  rewrite s_length_app. lia.
Qed.

Lemma find_length sub text i : find sub text = Some i -> (i + String.length sub <= String.length text)%nat.
Proof.
  revert i. induction text as [|c text IH]; intros i; cbn [find].
  - destruct (starts_with sub "") eqn:E; [|done]. intros [= <-]. by apply starts_with_length in E.
  - destruct (starts_with sub (String c text)) eqn:E.
    + intros [= <-]. by apply starts_with_length in E.
    + destruct (find sub text) as [j|]; [|done]. intros [= <-]. specialize (IH j eq_refl). cbn. lia.
Qed.

Lemma lstrip_chars_length p s : (String.length (lstrip_chars p s) <= String.length s)%nat.
Proof. induction s as [|c s IH]; cbn; [lia|]. destruct (p c); cbn; lia. Qed.

Lemma rstrip_chars_length p s : (String.length (rstrip_chars p s) <= String.length s)%nat.
Proof.
  induction s as [|c s IH]; cbn; [lia|].
  destruct (rstrip_chars p s) as [|c' t]; [destruct (p c); cbn; lia|cbn in *; lia].
Qed.

Lemma lstrip_as s : lstrip s = lstrip_chars is_space s.
Proof. induction s as [|c s IH]; cbn; [done|]. by destruct (is_space c). Qed.

Lemma rstrip_as s : rstrip s = rstrip_chars is_space s.
Proof. induction s as [|c s IH]; cbn; [done|]. by rewrite IH. Qed.

Lemma strip_length s : (String.length (strip s) <= String.length s)%nat.
Proof.
  unfold strip. rewrite rstrip_as, lstrip_as. etransitivity; [apply rstrip_chars_length|apply lstrip_chars_length].
Qed.

(** Stripping what does not get shorter changes nothing. *)
Lemma lstrip_chars_same p s : String.length (lstrip_chars p s) = String.length s -> lstrip_chars p s = s.
Proof.
  destruct s as [|c s]; [done|]. cbn. destruct (p c); [|done]. pose proof (lstrip_chars_length p s). lia.
Qed.

Lemma rstrip_chars_same p s : String.length (rstrip_chars p s) = String.length s -> rstrip_chars p s = s.
Proof.
  induction s as [|c s IH]; [done|]. cbn. pose proof (rstrip_chars_length p s).
  destruct (rstrip_chars p s) as [|c' t].
  - destruct (p c); cbn; intros [=]; destruct s; done.
  - cbn. intros [= Hl]. f_equal. apply IH. cbn. lia.
Qed.

Lemma strip_same s : String.length (strip s) = String.length s -> strip s = s.
Proof.
  unfold strip. rewrite rstrip_as, lstrip_as. intros H.
  pose proof (lstrip_chars_length is_space s). pose proof (rstrip_chars_length is_space (lstrip_chars is_space s)).
  rewrite (rstrip_chars_same _ (lstrip_chars is_space s)) by lia. apply lstrip_chars_same. lia.
Qed.

Lemma rstrip_chars_head p c s : p c = false -> exists t, rstrip_chars p (String c s) = String c t.
Proof. intros Hc. cbn. rewrite Hc. destruct (rstrip_chars p s); by eexists. Qed.

Lemma lstrip_chars_first p s : lstrip_chars p s = EmptyString \/ exists c t, lstrip_chars p s = String c t /\ p c = false.
Proof. induction s as [|c s IH]; cbn; [by left|]. destruct (p c) eqn:E; [done|]. right. by exists c, s. Qed.

Lemma rstrip_chars_idem p s : rstrip_chars p (rstrip_chars p s) = rstrip_chars p s.
Proof.
  induction s as [|c s IH]; [done|]. cbn. destruct (rstrip_chars p s) as [|c' t] eqn:E.
  - destruct (p c) eqn:Ec; cbn; [done|]. by rewrite Ec.
  - cbn [rstrip_chars] in *. by rewrite IH.
Qed.

Lemma strip_idem s : strip (strip s) = strip s.
Proof.
  unfold strip. rewrite !rstrip_as, !lstrip_as. destruct (lstrip_chars_first is_space s) as [-> | (c & t & -> & Hc)]; [done|].
  destruct (rstrip_chars_head is_space c t Hc) as [t' Ht].
  assert (lstrip_chars is_space (rstrip_chars is_space (String c t)) = rstrip_chars is_space (String c t)) as ->.
  { rewrite Ht. cbn. by rewrite Hc. }
  apply rstrip_chars_idem.
Qed.

Lemma squeeze_length b s : (String.length (squeeze b s) <= String.length s)%nat.
Proof.
  revert b. induction s as [|c s IH]; intros b; cbn; [lia|].
  pose proof (IH true). pose proof (IH false). destruct (is_space c), b; cbn; lia.
Qed.

Lemma clean_length s : (String.length (clean s) <= String.length s)%nat.
Proof. unfold clean. etransitivity; [apply strip_length|apply squeeze_length]. Qed.

Lemma strip_clean s : strip (clean s) = clean s.
Proof. apply strip_idem. Qed.

Lemma remove_length a b s : (a <= b)%nat -> (String.length (s_take a s ++ s_drop b s) <= String.length s)%nat.
Proof. intros H. rewrite s_length_app, s_take_length, s_drop_length. lia. Qed.

(** White space is single spaces. *)
Fixpoint single_spaced (after_space : bool) (s : string) : bool :=
  match s with
  | EmptyString => true
  | String c s => if is_space c then negb after_space && bool_decide (c = " "%char) && single_spaced true s
                  else single_spaced false s
  end.

Lemma squeeze_spaced b s : single_spaced b (squeeze b s) = true.
Proof.
  revert b. induction s as [|c s IH]; intros b; [done|]. cbn. destruct (is_space c) eqn:E; [|cbn; by rewrite E].
  destruct b; [done|]. cbn. apply IH.
Qed.

Lemma spaced_squeeze b s : single_spaced b s = true -> squeeze b s = s.
Proof.
  revert b. induction s as [|c s IH]; intros b; [done|]. cbn. destruct (is_space c).
  - intros [[Hb Hc]%andb_true_iff Hs]%andb_true_iff. destruct b; [done|]. apply bool_decide_eq_true in Hc as ->.
    by rewrite IH.
  - intros Hs. by rewrite IH.
Qed.

Lemma spaced_weaken b s : single_spaced b s = true -> single_spaced false s = true.
Proof. destruct s as [|c s]; [done|]. cbn. destruct (is_space c), b; done. Qed.

Lemma spaced_lstrip b s : single_spaced b s = true -> single_spaced false (lstrip s) = true.
Proof.
  revert b. induction s as [|c s IH]; intros b H; [done|]. cbn in *. destruct (is_space c) eqn:E.
  - apply andb_true_iff in H as [_ H]. by apply (IH true).
  - cbn. by rewrite E.
Qed.

Lemma spaced_rstrip b s : single_spaced b s = true -> single_spaced b (rstrip s) = true.
Proof.
  revert b. induction s as [|c s IH]; intros b H; [done|]. cbn [rstrip].
  assert (Ht : forall b', single_spaced b' s = true -> single_spaced b' (rstrip s) = true) by (intros b'; apply IH).
  cbn [single_spaced] in H. destruct (is_space c) eqn:E.
  - apply andb_true_iff in H as [H Hs]. specialize (Ht _ Hs). destruct (rstrip s) as [|c' t]; [done|].
    cbn [single_spaced]. rewrite E, H. exact Ht.
  - specialize (Ht _ H). destruct (rstrip s) as [|c' t]; cbn [single_spaced]; rewrite E; [done|exact Ht].
Qed.

Lemma clean_clean c : clean (clean c) = clean c.
Proof.
  unfold clean at 1. rewrite spaced_squeeze; [apply strip_idem|].
  apply spaced_rstrip, (spaced_lstrip false), squeeze_spaced.
Qed.

Section theorems.
Context {env : Environment}.

(** ** Matches *)

Definition within (text : string) (m : rule_match) : Prop :=
  (match_start m <= match_end m <= String.length text)%nat.

Lemma first_match_in {A} (f : A -> option rule_match) l m : first_match f l = Some m -> exists x, x ∈ l /\ f x = Some m.
Proof.
  induction l as [|x l IH]; cbn; [done|]. destruct (f x) eqn:E.
  - intros [= ->]. exists x. split; [apply elem_of_cons; by left|done].
  - intros H. destruct (IH H) as (y & Hy & Hm). exists y. split; [apply elem_of_cons; by right|done].
Qed.

Section spans.
Context {laws : RegexLaws}.

Lemma safe_search_within ic p t s e v : safe_search ic p t = Some (s, e) -> within t (RuleMatch s e v).
Proof. unfold safe_search. case_match; [done|]. intros Hs%search_span. exact Hs. Qed.

Lemma single_within text ty p cs m : _match_single_condition text ty p cs = Some m -> within text m.
Proof.
  unfold _match_single_condition. repeat case_bool_decide; try done.
  - intros [= <-]. unfold within. cbn. lia.
  - destruct (find _ _) as [i|] eqn:E; [|done]. intros [= <-]. apply find_length in E.
    rewrite !fold_case_length in E. unfold within. cbn. lia.
  - case_match eqn:E; [|done]. intros [= <-]. apply andb_true_iff in E as [E%starts_with_length _].
    rewrite !fold_case_length in E. unfold within. cbn. lia.
  - case_match eqn:E; [|done]. intros [= <-]. apply andb_true_iff in E as [[_ E%Nat.ltb_lt]%andb_true_iff _].
    unfold within. cbn. lia.
  - destruct (safe_search _ _ _) as [[s e]|] eqn:E; [|done]. intros [= <-]. by apply (safe_search_within _ _ _ _ _ _ E).
Qed.

Lemma tag_within text pos strict tag m : match_tag text pos strict tag = Some m -> within text m.
Proof.
  destruct tag as [v cs]. unfold match_tag. repeat case_bool_decide.
  - case_match eqn:E; [|done]. intros [= <-]. apply andb_true_iff in E as [E%starts_with_length _].
    rewrite !fold_case_length in E. unfold within. cbn. lia.
  - case_match eqn:E.
    + intros [= <-]. unfold within. cbn. lia.
    + case_match eqn:E'; [|done]. intros [= <-]. unfold within. cbn. lia.
  - destruct (safe_search _ _ _) as [[s e]|] eqn:E; [intros [= <-]; by apply (safe_search_within _ _ _ _ _ _ E)|].
    destruct (safe_match _ _ _) as [[s e]|] eqn:E'; [|done]. intros [= <-]. unfold safe_match in E'.
    destruct (_ <? _)%nat; [done|]. apply match_span in E' as [_ E']. unfold within. cbn. lia.
Qed.

Lemma tag_group_within text g pos strict m : _match_tag_group text g pos strict = Some m -> within text m.
Proof. intros (x & _ & Hm)%first_match_in. by apply tag_within in Hm. Qed.

Lemma condition_within text r m : _match_condition text r = Some m -> within text m.
Proof.
  unfold _match_condition. destruct (conditions r) as [|c cs] eqn:Ec.
  - case_bool_decide; [|apply single_within].
    destruct (tag_group_id r) as [[|p|p]|]; try done; apply tag_group_within.
  - unfold _match_compound_conditions. case_match; [|done]. intros [= <-].
    change (within text (default (RuleMatch 0 (String.length text) "") (first_match (primary text) (c :: cs)))).
    destruct (first_match (primary text) (c :: cs)) as [m|] eqn:E; cbn [default from_option id].
    + apply first_match_in in E as (x & _ & Hm). unfold primary in Hm. destruct (k_negate x); [done|].
      by apply single_within in Hm.
    + unfold within. cbn. lia.
Qed.

(** Whatever condition a rule has, the span of its match lies in the text, so the text
    before it and the text after it are what a removal keeps, and nothing else. *)
Theorem spans_in_range text r m : _match_condition text r = Some m ->
  (match_start m <= match_end m <= String.length text)%nat /\
  (action_type r = "remove" -> exists cut, String.length cut = (match_end m - match_start m)%nat /\
     text = (s_take (match_start m) text ++ cut ++ s_drop (match_end m) text)%string /\
     _apply_action text r m = (s_take (match_start m) text ++ s_drop (match_end m) text)%string).
Proof.
  intros Hm. apply condition_within in Hm. split; [exact Hm|]. intros Ha.
  exists (s_take (match_end m - match_start m) (s_drop (match_start m) text)). split_and!.
  - rewrite s_take_length, s_drop_length. unfold within in Hm. lia.
  - assert (Hdrop : forall n k s, s_drop n (s_drop k s) = s_drop (k + n) s).
    { intros n k. induction k as [|k IH]; intros s; [by rewrite s_drop_0|]. destruct s as [|c s]; [by destruct n|].
      cbn. apply IH. }
    replace (match_end m) with (match_start m + (match_end m - match_start m))%nat at 2 by (unfold within in Hm; lia).
    by rewrite <- Hdrop, s_take_drop, s_take_drop.
  - unfold _apply_action. by rewrite Ha.
Qed.

End spans.

(** ** Passes *)

Definition pass_text (groups : grouped) (text : string) : string := (pass groups (text, [])).1.

Lemma apply_group_text rules : forall c t t', (apply_group rules (c, t)).1 = (apply_group rules (c, t')).1.
Proof.
  induction rules as [|r rules IH]; intros c t t'; [done|]. cbn [apply_group].
  destruct (_match_condition c r); [destruct (stop_processing r); [done|apply IH]|].
  destruct (or_text (else_action_type r) ""); [apply IH|]. destruct (stop_processing r); [done|apply IH].
Qed.

Lemma foldl_text {A} (f : string * list transformation -> A -> string * list transformation) :
  (forall c t t' x, (f (c, t) x).1 = (f (c, t') x).1) ->
  forall l c t t', (foldl f (c, t) l).1 = (foldl f (c, t') l).1.
Proof.
  intros Hf. induction l as [|x l IH]; intros c t t'; [done|]. cbn. specialize (Hf c t t' x).
  destruct (f (c, t) x) as [c1 t1], (f (c, t') x) as [c2 t2]. cbn in Hf. subst c2. apply IH.
Qed.

Lemma pass_text_of groups c t : (pass groups (c, t)).1 = pass_text groups c.
Proof.
  unfold pass_text, pass, _apply_legacy_custom_tags, _apply_rules_single_pass.
  assert (H1 := foldl_text (fun acc (g : rule_group * list rule) => apply_group g.2 acc)
    (fun c t t' g => apply_group_text g.2 c t t') groups c t []).
  destruct (foldl _ (c, t) groups) as [c1 t1], (foldl _ (c, []) groups) as [c2 t2]. cbn in H1. subst c2.
  assert (H2 := foldl_text apply_custom_tag). specialize (H2 ltac:(clear; intros c t t' x; unfold apply_custom_tag;
    repeat case_match; done) custom_tags c1 t1 t2).
  destruct (foldl _ (c1, t1) _), (foldl _ (c1, t2) _). cbn in *. by subst.
Qed.

Lemma pass_clean groups text : exists t, pass_text groups text = clean t.
Proof. unfold pass_text, pass. destruct (_apply_legacy_custom_tags _) as [c t]. by exists c. Qed.

(** The text after [k] passes. *)
Definition stage (groups : grouped) (text : string) (k : nat) : string := Nat.iter k (pass_text groups) text.

Lemma stage_S groups text k : stage groups text (S k) = stage groups (pass_text groups text) k.
Proof. unfold stage. induction k as [|k IH]; [done|]. cbn in *. by rewrite IH. Qed.

Lemma passes_spec groups n : forall c t,
  let r := (passes n groups (c, t)).1 in
  (exists k, (k <= n)%nat /\ r = stage groups c k) /\
  (pass_text groups r = r \/ forall k, (k < n)%nat -> stage groups c (S k) <> stage groups c k).
Proof.
  induction n as [|n IH]; intros c t.
  - cbn. split; [by exists O|]. right. lia.
  - cbn [passes]. destruct (pass groups (c, t)) as [c' t'] eqn:E.
    assert (Hc : c' = pass_text groups c) by (by rewrite <- (pass_text_of groups c t), E). cbn [fst].
    case_bool_decide as Hsame; cbn [fst].
    + split; [exists 1%nat; split; [lia|done]|]. left. congruence.
    + destruct (IH c' t') as [(k & Hk & Hr) Hor]. split.
      * exists (S k). split; [lia|]. by rewrite stage_S, <- Hc.
      * destruct Hor as [Hor|Hor]; [by left|right]. intros [|k'] Hk'; [cbn; congruence|].
        rewrite (stage_S groups c (S k')), (stage_S groups c k'), <- Hc. apply Hor. lia.
Qed.

Lemma passes_S n groups acc : passes (S n) groups acc =
  if bool_decide ((pass groups acc).1 = acc.1) then pass groups acc else passes n groups (pass groups acc).
Proof. done. Qed.

Lemma passes_stripped groups n c t : strip c = c -> strip (passes n groups (c, t)).1 = (passes n groups (c, t)).1.
Proof.
  intros Hc. destruct (passes_spec groups n c t) as [(k & _ & ->) _]. destruct k as [|k]; [done|].
  change (stage groups c (S k)) with (pass_text groups (stage groups c k)).
  destruct (pass_clean groups (stage groups c k)) as [x ->]. apply strip_clean.
Qed.

Lemma normalized_eq groups name ids :
  normalized (normalize groups name ids) = (passes MAX_PASSES (selected ids groups) (strip name, [])).1.
Proof. unfold normalize. by destruct (passes _ _ _). Qed.

Lemma normalize_fixpoint groups text ids : strip text = text -> pass_text (selected ids groups) text = text ->
  normalized (normalize groups text ids) = text.
Proof.
  intros Hs Hp. rewrite normalized_eq, Hs. unfold MAX_PASSES. cbn [passes].
  assert (H1 : (pass (selected ids groups) (text, [])).1 = text) by exact Hp.
  cbn [fst]. rewrite bool_decide_true; [done|]. by rewrite H1.
Qed.

(** Normalizing a name again changes nothing, unless each of the ten passes allowed still
    changed it. *)
Theorem normal_form groups name ids :
  let result := normalized (normalize groups name ids) in
  normalized (normalize groups result ids) = result \/
  forall k, (k < MAX_PASSES)%nat ->
    stage (selected ids groups) (strip name) (S k) <> stage (selected ids groups) (strip name) k.
Proof.
  cbn zeta. pose proof (normalized_eq groups name ids) as Hn.
  destruct (passes_spec (selected ids groups) MAX_PASSES (strip name) []) as [_ [Hfix|Hall]]; [left|by right].
  rewrite <- Hn in Hfix. apply normalize_fixpoint; [|exact Hfix].
  rewrite Hn. apply passes_stripped, strip_idem.
Qed.

(** ** Stripping rules *)

(** The text is the same or has got shorter. *)
Definition shorter (before after : string) : Prop :=
  after = before \/ (String.length after < String.length before)%nat.

Lemma shorter_le a b : shorter a b -> (String.length b <= String.length a)%nat.
Proof. intros [-> | H]; lia. Qed.

Lemma shorter_trans a b c : shorter a b -> shorter b c -> shorter a c.
Proof. intros [-> | H] [-> | H']; [by left|by right|by right|right; lia]. Qed.

Lemma shorter_intro a b : (String.length b <= String.length a)%nat ->
  (String.length b = String.length a -> b = a) -> shorter a b.
Proof. intros H He. destruct (decide (String.length b = String.length a)); [left; by apply He|right; lia]. Qed.

(** Rules that only take away: they remove or strip, and their else branch does no more. *)
Definition strips (r : rule) : Prop :=
  action_type r ∈ ["remove"; "strip_prefix"; "strip_suffix"] /\
  or_text (else_action_type r) "" ∈ [""; "remove"; "strip_prefix"; "strip_suffix"; "normalize_prefix"].

Lemma strip_front_shorter p n s : shorter s (strip (lstrip_chars p (s_drop n s))).
Proof.
  set (d := s_drop n s). pose proof (lstrip_chars_length p d). pose proof (strip_length (lstrip_chars p d)).
  assert (Hd : String.length d = (String.length s - n)%nat) by apply s_drop_length.
  apply shorter_intro; [lia|]. intros He. rewrite strip_same by lia. rewrite lstrip_chars_same by lia.
  unfold d in *. destruct (decide (n = O)) as [-> |]; [apply s_drop_0|]. destruct s as [|c s]; [by destruct n|cbn in *; lia].
Qed.

Lemma strip_back_shorter p n s : shorter s (strip (rstrip_chars p (s_take n s))).
Proof.
  set (d := s_take n s). pose proof (rstrip_chars_length p d). pose proof (strip_length (rstrip_chars p d)).
  assert (Hd : String.length d = Nat.min n (String.length s)) by apply s_take_length.
  apply shorter_intro; [lia|]. intros He. rewrite strip_same by lia. rewrite rstrip_chars_same by lia.
  apply s_take_all. lia.
Qed.

Section stripping.
Context {laws : RegexLaws}.

Lemma action_shorter text r m : strips r -> _match_condition text r = Some m -> shorter text (_apply_action text r m).
Proof.
  intros [Ha _] Hm%condition_within. unfold _apply_action. apply list_elem_of_In in Ha.
  destruct Ha as [<-|[<-|[<-|[]]]]; cbn [bool_decide decide_rel].
  - change (shorter text (s_take (match_start m) text ++ s_drop (match_end m) text)).
    unfold within in Hm. apply shorter_intro; [apply remove_length; lia|].
    rewrite s_length_app, s_take_length, s_drop_length. intros He.
    replace (match_end m) with (match_start m) by lia. apply s_take_drop.
  - change (shorter text (if (match_start m =? 0)%nat then strip_start text m else text)).
    destruct (_ =? _)%nat; [|by left]. unfold strip_start. destruct (_would_collapse_to_generic _); [by left|].
    apply strip_front_shorter.
  - change (shorter text (if at_end text m then strip_end text m else text)).
    destruct (at_end text m); [|by left]. unfold strip_end. destruct (_would_collapse_to_generic _); [by left|].
    apply strip_back_shorter.
Qed.

Lemma else_shorter text r : strips r -> shorter text (_apply_else_action text r).
Proof.
  intros [_ He]. unfold _apply_else_action. apply list_elem_of_In in He.
  destruct He as [<-|[<-|[<-|[<-|[<-|[]]]]]]; try (by left).
  - pose proof (strip_front_shorter is_cut 0 text) as H. by rewrite s_drop_0 in H.
  - pose proof (strip_back_shorter is_cut (String.length text) text) as H. by rewrite s_take_all in H.
Qed.

Lemma group_shorter rules : Forall strips rules -> forall c t, shorter c (apply_group rules (c, t)).1.
Proof.
  induction 1 as [|r rules Hr _ IH]; intros c t; [by left|]. cbn [apply_group].
  destruct (_match_condition c r) as [m|] eqn:Em.
  - pose proof (action_shorter _ _ _ Hr Em). destruct (stop_processing r); [done|].
    eapply shorter_trans; [done|apply IH].
  - destruct (or_text (else_action_type r) "") eqn:Ee; [apply IH|]. pose proof (else_shorter c r Hr).
    destruct (stop_processing r); [done|]. eapply shorter_trans; [done|apply IH].
Qed.

Lemma custom_tag_shorter acc tag : shorter acc.1 (apply_custom_tag acc tag).1.
Proof.
  destruct acc as [c t]. unfold apply_custom_tag. destruct (String.length (ct_value tag) =? 0)%nat eqn:E0; [by left|].
  apply Nat.eqb_neq in E0. case_match eqn:E1; [|case_match eqn:E2; [|case_match eqn:E3; [|by left]]]; right; cbn [fst].
  - pose proof (rstrip_chars_length is_tag_cut (s_take (String.length c - String.length (ct_value tag)) c)) as H.
    rewrite s_take_length in H. apply andb_true_iff in E1 as [[_ E1%Nat.ltb_lt]%andb_true_iff _]. lia.
  - rewrite rstrip_as. set (p := ("(" ++ ct_value tag ++ ")")%string) in *.
    pose proof (rstrip_chars_length is_space (s_take (String.length c - String.length p) c)) as H.
    rewrite s_take_length in H. apply andb_true_iff in E2 as [_ E2%Nat.ltb_lt].
    assert (1 <= String.length p)%nat by (unfold p; rewrite s_length_app; cbn; lia). lia.
  - pose proof (lstrip_chars_length is_tag_cut (s_drop (String.length (ct_value tag)) c)) as H.
    rewrite s_drop_length in H. apply andb_true_iff in E3 as [[_ E3%starts_with_length]%andb_true_iff _].
    rewrite !lower_length in E3. lia.
Qed.

Lemma foldl_shorter {A} (f : string * list transformation -> A -> string * list transformation) (l : list A) :
  (forall acc x, x ∈ l -> shorter acc.1 (f acc x).1) -> forall acc, shorter acc.1 (foldl f acc l).1.
Proof.
  induction l as [|x l IH]; intros Hf acc; [by left|]. cbn. eapply shorter_trans; [apply Hf, elem_of_cons; by left|].
  apply IH. intros acc' y Hy. apply Hf, elem_of_cons. by right.
Qed.

Definition all_strip (groups : grouped) : Prop := forall g r, g ∈ groups -> r ∈ g.2 -> strips r.

Lemma pass_shorter groups c : all_strip groups ->
  (String.length (pass_text groups c) <= String.length c)%nat /\ (clean c = c -> shorter c (pass_text groups c)).
Proof.
  intros Hg. unfold pass_text, pass.
  assert (H : shorter c (_apply_legacy_custom_tags (_apply_rules_single_pass groups (c, []))).1).
  { eapply (shorter_trans _ (_apply_rules_single_pass groups (c, [])).1).
    - refine (foldl_shorter (fun acc (g : rule_group * list rule) => apply_group g.2 acc) groups _ (c, [])).
      intros [x t] g Hin. apply group_shorter, Forall_forall. intros r Hr. by apply (Hg g).
    - apply foldl_shorter. intros acc x _. apply custom_tag_shorter. }
  destruct (_apply_legacy_custom_tags _) as [x t]. cbn in *. pose proof (clean_length x) as Hl. split.
  - apply shorter_le in H. lia.
  - intros Hc. destruct H as [-> | H]; [left; exact Hc|right; lia].
Qed.

Lemma clean_passes_shorter groups n : all_strip groups -> forall c t, clean c = c ->
  let r := (passes n groups (c, t)).1 in
  (String.length r <= String.length c)%nat /\
  (pass_text groups r = r \/ (String.length r + n <= String.length c)%nat).
Proof.
  intros Hg. induction n as [|n IH]; intros c t Hc; [split; [|right]; cbn; lia|]. cbn [passes].
  destruct (pass groups (c, t)) as [c' t'] eqn:E.
  assert (Hc' : c' = pass_text groups c) by (by rewrite <- (pass_text_of groups c t), E). cbn [fst].
  pose proof (pass_shorter groups c Hg) as [Hle Hs]. specialize (Hs Hc). rewrite <- Hc' in Hs, Hle.
  case_bool_decide as Hsame; cbn [fst]; [split; [done|left; congruence]|].
  assert (Hclean : clean c' = c').
  { destruct (pass_clean groups c) as [x Hx]. rewrite Hx in Hc'. rewrite Hc'. apply clean_clean. }
  destruct (IH c' t' Hclean) as [Hl [H|H]]; (split; [lia|]); [by left|right].
  destruct Hs as [Hs|Hs]; [congruence|]. lia.
Qed.

(** Rules that only remove or strip settle: a normalized name is never longer than the
    name, and when fewer than nine characters were dropped it is a normal form, since every
    pass after the first that changes the name shortens it. *)
Theorem stripping_settles groups name ids :
  all_strip groups ->
  let result := normalized (normalize groups name ids) in
  (String.length result <= String.length name)%nat /\
  ((String.length name < String.length result + 9)%nat -> normalized (normalize groups result ids) = result).
Proof.
  intros Hg. cbn zeta. set (G := selected ids groups).
  assert (HG : all_strip G).
  { intros g r Hin. apply Hg. unfold G, selected in Hin. destruct ids; [|done]. apply Prelude.elem_of_list_filter in Hin. by destruct Hin. }
  assert (Hstrip : strip (normalized (normalize groups name ids)) = normalized (normalize groups name ids)).
  { rewrite normalized_eq. apply passes_stripped, strip_idem. }
  revert Hstrip. rewrite normalized_eq. fold G. change MAX_PASSES with (S 9). rewrite passes_S.
  destruct (pass G (strip name, [])) as [c t] eqn:E. cbn [fst].
  assert (Hc : c = pass_text G (strip name)) by (unfold pass_text; by rewrite E).
  pose proof (proj1 (pass_shorter G (strip name) HG)) as Hl. rewrite <- Hc in Hl. pose proof (strip_length name).
  case_bool_decide as Hs; cbn [fst]; intros Hstrip.
  - split; [lia|]. intros _. apply normalize_fixpoint; [done|]. fold G. rewrite Hs at 1. by rewrite <- Hc.
  - destruct (pass_clean G (strip name)) as [x Hx].
    assert (Hclean : clean c = c) by (rewrite Hx in Hc; rewrite Hc; apply clean_clean).
    pose proof (clean_passes_shorter G 9 HG c t Hclean) as [Hle Hor]. cbn zeta in *.
    split; [lia|]. intros Hn. destruct Hor as [Hfix|Hlong]; [by apply normalize_fixpoint|lia].
Qed.
End stripping.

(** ** The trace *)

(** The text is reached from [s0] by the transformations of the trace and by cleaning white
    space, each transformation changing the text the one before it left. *)
Inductive explained (ids : Z -> Prop) (s0 : string) : list transformation -> string -> Prop :=
| ex_start : explained ids s0 [] s0
| ex_rule trace b id a : explained ids s0 trace b -> ids id -> b <> a -> explained ids s0 (trace ++ [ByRule id b a]) a
| ex_tag trace b a : explained ids s0 trace b -> b <> a -> explained ids s0 (trace ++ [LegacyTag b a]) a
| ex_clean trace b : explained ids s0 trace b -> explained ids s0 trace (clean b).

Lemma note_explained ids s0 trace b id a :
  explained ids s0 trace b -> ids id -> explained ids s0 (note id b a trace) a.
Proof. intros H Hid. unfold note. case_bool_decide as E; [by rewrite <- E|by constructor]. Qed.

Lemma group_explained ids s0 rules : (forall r, r ∈ rules -> ids (r_id r)) -> forall c t,
  explained ids s0 t c -> explained ids s0 (apply_group rules (c, t)).2 (apply_group rules (c, t)).1.
Proof.
  intros Hids. induction rules as [|r rules IH]; intros c t H; [done|]. cbn [apply_group].
  assert (Hr : ids (r_id r)) by (apply Hids, elem_of_cons; by left).
  assert (IH' : forall c t, explained ids s0 t c ->
    explained ids s0 (apply_group rules (c, t)).2 (apply_group rules (c, t)).1).
  { apply IH. intros r' Hr'. apply Hids, elem_of_cons. by right. }
  destruct (_match_condition c r) as [m|].
  - assert (H1 := note_explained _ _ _ _ _ (_apply_action c r m) H Hr).
    destruct (stop_processing r); [done|by apply IH'].
  - destruct (or_text (else_action_type r) ""); [by apply IH'|].
    assert (H1 := note_explained _ _ _ _ _ (_apply_else_action c r) H Hr).
    destruct (stop_processing r); [done|by apply IH'].
Qed.

Definition no_suffix_tags : Prop := forall t, t ∈ custom_tags -> ct_mode t <> "suffix" /\ ct_mode t <> "both".

Lemma foldl_explained {A} ids s0 (f : string * list transformation -> A -> string * list transformation) (l : list A) :
  (forall acc x, x ∈ l -> explained ids s0 acc.2 acc.1 -> explained ids s0 (f acc x).2 (f acc x).1) ->
  forall acc, explained ids s0 acc.2 acc.1 -> explained ids s0 (foldl f acc l).2 (foldl f acc l).1.
Proof.
  induction l as [|x l IH]; intros Hf acc H; [done|]. cbn. apply IH.
  - intros acc' y Hy. apply Hf, elem_of_cons. by right.
  - apply Hf; [apply elem_of_cons; by left|done].
Qed.

Lemma custom_tag_explained ids s0 acc tag : ct_mode tag <> "suffix" -> ct_mode tag <> "both" ->
  explained ids s0 acc.2 acc.1 -> explained ids s0 (apply_custom_tag acc tag).2 (apply_custom_tag acc tag).1.
Proof.
  intros Hs Hb H. destruct acc as [c t]. unfold apply_custom_tag.
  rewrite (bool_decide_false (ct_mode tag = "suffix")), (bool_decide_false (ct_mode tag = "both")) by done.
  cbn [orb andb]. destruct (_ =? 0)%nat; [done|]. destruct (_ && _); [|done]. cbn [fst snd].
  case_bool_decide as Ec; [by rewrite <- Ec|by constructor].
Qed.

Definition rule_of (groups : grouped) (id : Z) : Prop := exists g r, g ∈ groups /\ r ∈ g.2 /\ r_id r = id.

Lemma pass_explained groups s0 acc : no_suffix_tags ->
  explained (rule_of groups) s0 acc.2 acc.1 -> explained (rule_of groups) s0 (pass groups acc).2 (pass groups acc).1.
Proof.
  intros Htags H. unfold pass.
  assert (H2 : explained (rule_of groups) s0 (_apply_legacy_custom_tags (_apply_rules_single_pass groups acc)).2
    (_apply_legacy_custom_tags (_apply_rules_single_pass groups acc)).1).
  { apply foldl_explained; [intros acc' t Ht; by apply custom_tag_explained; apply Htags|].
    apply foldl_explained; [|done]. intros [c t] g Hg. apply group_explained. intros r Hr. by exists g, r. }
  destruct (_apply_legacy_custom_tags _) as [c t]. by constructor.
Qed.

(** The trace of a normalization explains its result: the name without its outer white
    space becomes the normalized name by the recorded transformations, each by a rule of the
    selected groups and each changing the text the one before it left, and by cleaning white
    space.  (Provided no tag of the settings cuts suffixes: those cuts are not recorded, as
    the example below shows.) *)
Theorem trace_explains groups name ids : no_suffix_tags ->
  explained (rule_of (selected ids groups)) (strip name)
    (transformations (normalize groups name ids)) (normalized (normalize groups name ids)).
Proof.
  intros Htags. unfold normalize. generalize MAX_PASSES. intros n. set (G := selected ids groups).
  assert (H : forall acc, explained (rule_of G) (strip name) acc.2 acc.1 ->
    explained (rule_of G) (strip name) (passes n G acc).2 (passes n G acc).1).
  { induction n as [|n IH]; intros acc Hacc; [done|]. rewrite passes_S.
    assert (Hp := pass_explained G (strip name) acc Htags Hacc). destruct (bool_decide _); [done|by apply IH]. }
  specialize (H (strip name, []) (ex_start _ _)). destruct (passes n G _) as [c t]. exact H.
Qed.

(** ** Core names *)

Lemma words_squeeze s : (forall w, words_from w (squeeze false s) = words_from w s) /\
  words_from EmptyString (squeeze true s) = words_from EmptyString s.
Proof.
  induction s as [|c s [IH1 IH2]]; [done|]. cbn. destruct (is_space c) eqn:E.
  - split; [|done]. intros w. cbn. by rewrite IH2.
  - split; [intros w|]; cbn; rewrite E; apply IH1.
Qed.

Lemma words_lstrip s : words_from EmptyString (lstrip s) = words_from EmptyString s.
Proof. induction s as [|c s IH]; [done|]. cbn. destruct (is_space c) eqn:E; [done|]. cbn. by rewrite E. Qed.

Lemma words_rstrip s : forall w, words_from w (rstrip s) = words_from w s.
Proof.
  induction s as [|c s IH]; intros w; [done|]. cbn [rstrip]. destruct (rstrip s) as [|c' t] eqn:Er.
  - cbn [words_from]. destruct (is_space c) eqn:E; cbn [words_from]; [|by rewrite E, <- IH].
    specialize (IH EmptyString). cbn in IH. by rewrite <- IH.
  - cbn [words_from]. rewrite <- !IH. done.
Qed.

Lemma split_words_strip s : split_words (strip s) = split_words s.
Proof. unfold split_words, strip. by rewrite words_rstrip, words_lstrip. Qed.

Lemma split_words_clean s : split_words (clean s) = split_words s.
Proof. unfold clean. rewrite split_words_strip. apply words_squeeze. Qed.

Lemma generic_words_eq s s' : split_words s = split_words s' -> _would_collapse_to_generic s = _would_collapse_to_generic s'.
Proof. unfold _would_collapse_to_generic. by intros ->. Qed.

Lemma country_generic g c : _would_collapse_to_generic (strip_country g c) = true -> _would_collapse_to_generic c = true.
Proof.
  unfold strip_country. case_match; [|done]. destruct (match_start _ =? 0)%nat; [|done].
  destruct (_ || _) eqn:E; [done|]. apply orb_false_iff in E as [_ E]. congruence.
Qed.

Lemma trailing_generic g c : _would_collapse_to_generic (strip_trailing_tag g c) = true -> _would_collapse_to_generic c = true.
Proof.
  unfold strip_trailing_tag. case_match; [|done]. destruct (at_end _ _); [|done].
  destruct (_ || _) eqn:E; [done|]. apply orb_false_iff in E as [_ E]. congruence.
Qed.

Lemma core_pass_generic fm c : _would_collapse_to_generic (core_pass fm c) = true -> _would_collapse_to_generic c = true.
Proof.
  unfold core_pass. rewrite (generic_words_eq (clean _) _ (split_words_clean _)).
  destruct fm; intros H; repeat first [apply trailing_generic in H|apply country_generic in H]; exact H.
Qed.

Lemma core_passes_generic n fm c : _would_collapse_to_generic (core_passes n fm c) = true -> _would_collapse_to_generic c = true.
Proof.
  revert c. induction n as [|n IH]; intros c; [done|]. cbn [core_passes]. case_bool_decide.
  - apply core_pass_generic.
  - intros H'%IH. by apply core_pass_generic in H'.
Qed.

(** What the memo holds was computed. *)
Definition memo_sound (m : memo) : Prop := forall name core, recall m name = Some core -> core = core_name name true.

(** The core name keeps what tells channels apart: it is never empty for a name that is
    not blank, and it is a single generic word only when the name without its channel numbers
    already is one (or the name itself, when nothing else is in it); and the memo of the
    matching mode answers what would be computed. *)
Theorem core_name_safe m name for_matching : memo_sound m -> strip name <> EmptyString ->
  let '(core, m') := extract_core_name m name for_matching in
  core = core_name name for_matching /\ memo_sound m' /\ core <> EmptyString /\
  (_would_collapse_to_generic core = true ->
   _would_collapse_to_generic (without_numbers name) = true \/ _would_collapse_to_generic (strip name) = true).
Proof.
  intros Hm Hname.
  assert (Hcore : core_name name for_matching <> EmptyString /\
    (_would_collapse_to_generic (core_name name for_matching) = true ->
     _would_collapse_to_generic (without_numbers name) = true \/ _would_collapse_to_generic (strip name) = true)).
  { unfold core_name. destruct (without_numbers name) as [|c s] eqn:En; [split; [done|by right]|].
    destruct (core_passes 5 for_matching (String c s)) as [|c' s'] eqn:Ec; [split; [done|by right]|].
    split; [done|]. rewrite <- Ec. intros H%core_passes_generic. by left. }
  unfold extract_core_name. destruct (strip name) as [|x y] eqn:Es; [done|]. destruct for_matching; [|by split_and!; try apply Hcore].
  destruct (recall m name) as [core|] eqn:Er.
  - rewrite (Hm _ _ Er) in *. by split_and!; try apply Hcore.
  - split_and!; try apply Hcore; [done|]. intros k v. cbn. case_bool_decide as Ek; [|apply Hm].
    intros [= <-]. by rewrite Ek.
Qed.

(** ** Call signs *)

Definition occurs (part text : string) : Prop := exists a b, text = (a ++ part ++ b)%string.

Lemma runs_occur w s : forall word, w ∈ runs_from word s -> occurs w (word ++ s).
Proof.
  induction s as [|c s IH]; intros word H; cbn in H.
  - destruct word as [|x word]; [by apply elem_of_nil in H|]. apply list_elem_of_singleton in H as ->.
    by exists EmptyString, EmptyString.
  - destruct (is_word c).
    + apply IH in H. by rewrite <- s_app_assoc, s_app_cons in H.
    + assert (Hrest : w ∈ runs_from EmptyString s -> occurs w (word ++ String c s)).
      { intros (a & b & Hab)%IH. exists (word ++ String c a)%string, b.
        rewrite <- s_app_assoc, s_app_cons. by rewrite <- Hab. }
      destruct word as [|x word]; [by apply Hrest|]. apply elem_of_cons in H as [-> | H]; [|by apply Hrest].
      by exists EmptyString, (String c s).
Qed.

Lemma paren_found s cs : paren_call_sign s = Some cs -> is_call_sign cs = true /\ occurs cs s.
Proof.
  assert (Hfound : forall n c s, paren_at n c s = Some cs -> is_call_sign cs = true /\ occurs cs (String c s)).
  { intros n c t. unfold paren_at. destruct (_ && _) eqn:E; [|done]. intros [= <-].
    apply andb_true_iff in E as [[_ E]%andb_true_iff _]. split; [done|].
    exists (String c EmptyString), (s_drop n t). by rewrite s_take_drop. }
  induction s as [|c s IH]; [done|]. cbn [paren_call_sign].
  destruct (paren_at 4 c s) eqn:E4; [intros [= ->]; by apply (Hfound 4%nat)|].
  destruct (paren_at 3 c s) eqn:E3; [intros [= ->]; by apply (Hfound 3%nat)|].
  intros H. destruct (IH H) as [? (a & b & ->)]. split; [done|]. by exists (String c a), b.
Qed.

(** An extracted call sign is one: a W or a K and two or three letters, none of the known
    words that look like one, and it stands in the name. *)
Theorem call_sign_real name cs : extract_call_sign name = Some cs ->
  is_call_sign cs = true /\ (cs ∉ _CALLSIGN_FALSE_POSITIVES) /\ occurs cs (upper name).
Proof.
  unfold extract_call_sign. set (bare := (if _ || _ then _ else None)).
  assert (Hbare : bare = Some cs -> is_call_sign cs = true /\ (cs ∉ _CALLSIGN_FALSE_POSITIVES) /\ occurs cs (upper name)).
  { unfold bare. destruct (_ || _); [|done]. intros Hl. apply last_Some_elem_of in Hl.
    apply Prelude.elem_of_list_filter in Hl as [Hin [Hcs Hreal]%andb_true_iff]. split_and!; [done| |].
    - unfold real_call_sign in Hreal. by apply negb_true_iff, bool_decide_eq_false in Hreal.
    - by apply runs_occur in Hin. }
  clearbody bare. destruct (_ =? 0)%nat; [done|]. destruct (starts_with _ _); [done|].
  destruct (paren_call_sign (upper name)) as [cs'|] eqn:E; [|exact Hbare].
  destruct (real_call_sign cs') eqn:Hreal; [|exact Hbare]. intros [= ->]. apply paren_found in E as [Hcs Ho].
  split_and!; [done| |done]. unfold real_call_sign in Hreal. by apply negb_true_iff, bool_decide_eq_false in Hreal.
Qed.

End theorems.

(** ** A concrete engine *)

(** Patterns that are plain text; three tag groups, and the tags of the settings. *)
#[local] Instance sample_env (tags : list custom_tag) : Environment := {|
  regex_search ic p t := i ← find (fold_case (negb ic) p) (fold_case (negb ic) t); Some (i, i + String.length p)%nat;
  regex_match ic p t := if starts_with (fold_case (negb ic) p) (fold_case (negb ic) t) then Some (O, String.length p) else None;
  regex_sub ic p r t := match find (fold_case (negb ic) p) (fold_case (negb ic) t) with
                        | Some i => (s_take i t ++ r ++ s_drop (i + String.length p) t)%string
                        | None => t
                        end;
  load_tag_group g := if g =? 1 then [("US", false); ("NFL", false)]
                      else if g =? 2 then [("HD", false); ("4K", false)] else [("East", false)];
  tag_group_named n := if bool_decide (n = "Country Tags") then Some 1
                       else if bool_decide (n = "Quality Tags") then Some 2 else Some 3;
  small_words := ["the"; "of"];
  generic_words := ["network"; "tv"];
  abbreviation_tags := ["ESPN"];
  custom_tags := tags |}.

#[local] Instance sample_laws tags : @RegexLaws (sample_env tags).
Proof.
  split; cbn; intros ic p t s e H.
  - destruct (find _ _) as [i|] eqn:E; [|done]. injection H as <- <-. apply find_length in E.
    rewrite !fold_case_length in E. lia.
  - destruct (starts_with _ _) eqn:E; [|done]. injection H as <- <-. apply starts_with_length in E.
    rewrite !fold_case_length in E. lia.
Qed.

Definition sample_rule (id : Z) (ty value action : string) (group : option Z) (position : string) (stop : bool) : rule :=
  Rule id 1 true id (Some ty) (Some value) false group (Some position) false [] "AND" action None None None stop.
Definition strip_hd := sample_rule 1 "tag_group" "" "strip_suffix" (Some 2) "suffix" false.
Definition strip_us := sample_rule 2 "tag_group" "" "strip_prefix" (Some 1) "prefix" false.
Definition upper_case : rule :=
  Rule 3 1 true 3 (Some "always") None false None None false [] "AND" "capitalize" (Some "upper") None None false.
Definition stripping : grouped := load_rules [RuleGroup 1 true 0] [strip_us; strip_hd].
Definition tidy : grouped := load_rules [RuleGroup 1 true 0] [strip_us; upper_case; strip_hd].

Definition normalized_in (tags : list custom_tag) (groups : grouped) (name : string) : normalization_result :=
  normalize (env := sample_env tags) groups name None.

Example a_name :
  normalized_in [] tidy "US |  sky  sports (HD) 4K " =
  NormalizationResult "US |  sky  sports (HD) 4K " "SKY SPORTS"
    [ByRule 1 "US |  sky  sports (HD) 4K" "US |  sky  sports (HD)"; ByRule 2 "US |  sky  sports (HD)" "sky  sports (HD)";
     ByRule 3 "sky  sports (HD)" "SKY  SPORTS (HD)"; ByRule 1 "SKY SPORTS (HD)" "SKY SPORTS"].
Proof. vm_compute. reflexivity. Qed.

Lemma all_stripping : all_strip stripping.
Proof.
  intros g r Hg Hr. apply list_elem_of_In in Hg. cbn in Hg. destruct Hg as [<-|[]].
  apply list_elem_of_In in Hr. cbn in Hr. destruct Hr as [<-|[<-|[]]]; split; apply list_elem_of_In; vm_compute; tauto.
Qed.

Abbreviation bbc := (normalized (normalize (env := sample_env []) stripping "BBC One HD" None)).

Lemma stripping_settles_witness : normalized (normalize (env := sample_env []) stripping bbc None) = bbc.
Proof.
  apply (stripping_settles (laws := sample_laws []) stripping "BBC One HD" None all_stripping).
  vm_compute. lia.
Defined.

(** Twelve tags of one rule: a pass takes one, so the ten passes leave two of them. *)
Fixpoint stacked (n : nat) : string := match n with O => "A" | S n => stacked n ++ " HD" end%string.
Example passes_run_out :
  (normalized (normalized_in [] stripping (stacked 12)), normalized (normalized_in [] stripping (stacked 2))) = ("A HD HD", "A").
Proof. vm_compute. reflexivity. Qed.

Lemma spans_in_range_witness : exists m, _match_condition (env := sample_env []) "Sky HD" strip_hd = Some m /\
  (match_start m <= match_end m <= String.length "Sky HD")%nat.
Proof.
  assert (H : _match_condition (env := sample_env []) "Sky HD" strip_hd = Some (RuleMatch 4 6 "HD")) by (vm_compute; reflexivity).
  exists (RuleMatch 4 6 "HD"). split; [exact H|]. apply (spans_in_range (laws := sample_laws []) "Sky HD" strip_hd _ H).
Defined.

Lemma trace_explains_witness :
  explained (rule_of tidy) "US: x HD"
    (transformations (normalized_in [] tidy "US: x HD ")) (normalized (normalized_in [] tidy "US: x HD ")).
Proof.
  apply (trace_explains (env := sample_env []) tidy "US: x HD " None). intros t Ht. exfalso.
  apply elem_of_nil in Ht. exact Ht.
Defined.

Lemma core_name_safe_witness :
  extract_core_name (env := sample_env []) [] "12 | US: ESPN East HD" true = ("ESPN", [("12 | US: ESPN East HD", "ESPN")]) /\
  core_name (env := sample_env []) "12 | US: ESPN East HD" true <> EmptyString.
Proof.
  assert (H : extract_core_name (env := sample_env []) [] "12 | US: ESPN East HD" true =
    ("ESPN", [("12 | US: ESPN East HD", "ESPN")])) by (vm_compute; reflexivity).
  split; [exact H|].
  pose proof (core_name_safe (env := sample_env []) [] "12 | US: ESPN East HD" true) as Hs.
  destruct Hs as (_ & _ & Hne & _); [intros k v Hk; discriminate Hk|vm_compute; discriminate|exact Hne].
Defined.

(** The generic word is kept apart in a core name, and a rule that strips leaves it alone. *)
Example generic_kept :
  (core_name (env := sample_env []) "NFL Network" false, core_name (env := sample_env []) "NFL RedZone" false,
   normalized (normalized_in [] stripping "NFL Network")) = ("NFL Network", "RedZone", "NFL Network").
Proof. vm_compute. reflexivity. Qed.

Lemma call_sign_real_witness :
  extract_call_sign (env := sample_env []) "ABC 28 Waco KWTX West" = Some "KWTX" /\
  occurs "KWTX" (upper "ABC 28 Waco KWTX West").
Proof.
  assert (H : extract_call_sign (env := sample_env []) "ABC 28 Waco KWTX West" = Some "KWTX") by (vm_compute; reflexivity).
  split; [exact H|]. apply (call_sign_real (env := sample_env []) "ABC 28 Waco KWTX West" "KWTX" H).
Defined.

(** A strip may leave nothing. *)
Example stripped_to_nothing :
  (normalized (normalized_in [] stripping "US:"), normalized (normalized_in [] stripping "- HD")) = ("", "").
Proof. vm_compute. reflexivity. Qed.

(** A rule that stops processing stops its group for this pass: the next group goes on. *)
Definition stopping : grouped :=
  load_rules [RuleGroup 1 true 0; RuleGroup 2 true 1]
    [sample_rule 1 "tag_group" "" "strip_suffix" (Some 2) "suffix" true;
     Rule 4 2 true 0 (Some "always") None false None None false [] "AND" "capitalize" (Some "upper") None None false].
Example stop_is_per_group :
  normalized (normalized_in [] stopping "Sky HD") = "SKY" /\
  transformations (normalized_in [] stopping "Sky HD") = [ByRule 1 "Sky HD" "Sky"; ByRule 4 "Sky" "SKY"].
Proof. split; vm_compute; reflexivity. Qed.

(** A suffix cut by a tag of the settings is missing from the trace; a prefix is not. *)
Example suffix_untraced :
  let tags := [CustomTag "RAW" "both"] in
  (normalized_in tags [] "Sky RAW", normalized_in tags [] "RAW Sky") =
  (NormalizationResult "Sky RAW" "Sky" [], NormalizationResult "RAW Sky" "Sky" [LegacyTag "RAW Sky" "Sky"]).
Proof. vm_compute. reflexivity. Qed.

(** The preview of a rule does not strip the text first: a trailing blank hides the suffix that
    [normalize] removes. *)
Example preview_differs :
  (p_after (test_rule (env := sample_env []) "Sky HD " strip_hd), normalized (normalized_in [] stripping "Sky HD ")) =
  ("Sky HD", "Sky").
Proof. vm_compute. reflexivity. Qed.

End NameTheorems.
