(* ===== verification/RestoreContracts.v ===== *)
(** * The contracts of a restore ([backend/dbas/restore_contracts.py]).

    The report a restore fills (per-category counts with their reasons, the aggregates of what
    the replica is missing), the table from archived ids to destination ids, and the ledger of
    created entities with the order they are compensated in.  Timestamps and the descriptions
    of fields are left out; the aggregates outside the shortfall set are too. *)
From S2P Require Import Prelude PyValue PyText PyState.
From stdpp Require Import list gmap strings.
Open Scope Z_scope.

Module RestoreContracts.

(** ** Vocabulary *)

Inductive EntityType :=
| M3U_ACCOUNT | EPG_SOURCE | CHANNEL_GROUP | CHANNEL_PROFILE | STREAM_PROFILE | CHANNEL | STREAM | USER_AGENT
| SERVER_GROUP | DVR_RULE | UPCOMING_RECORDING | SETTINGS | ECM_SETTINGS | USER | LOGO.

Definition entity_types : list EntityType :=
  [M3U_ACCOUNT; EPG_SOURCE; CHANNEL_GROUP; CHANNEL_PROFILE; STREAM_PROFILE; CHANNEL; STREAM; USER_AGENT; SERVER_GROUP;
   DVR_RULE; UPCOMING_RECORDING; SETTINGS; ECM_SETTINGS; USER; LOGO].

Definition entity_value (t : EntityType) : string :=
  match t with
  | M3U_ACCOUNT => "m3u_account" | EPG_SOURCE => "epg_source" | CHANNEL_GROUP => "channel_group"
  | CHANNEL_PROFILE => "channel_profile" | STREAM_PROFILE => "stream_profile" | CHANNEL => "channel"
  | STREAM => "stream" | USER_AGENT => "user_agent" | SERVER_GROUP => "server_group" | DVR_RULE => "dvr_rule"
  | UPCOMING_RECORDING => "upcoming_recording" | SETTINGS => "settings" | ECM_SETTINGS => "ecm_settings"
  | USER => "user" | LOGO => "logo"
  end.

#[export] Instance EntityType_eq_dec : EqDecision EntityType.
Proof. solve_decision. Defined.

Definition type_index (t : EntityType) : nat := default O (fst <$> list_find (t =.) entity_types).
Definition type_at (n : nat) : EntityType := default M3U_ACCOUNT (entity_types !! n).
#[export] Instance EntityType_countable : Countable EntityType.
Proof. apply (inj_countable' type_index type_at); now intros []. Defined.

Inductive SkipReason :=
| ALREADY_EXISTS_IDENTICAL | ALREADY_EXISTS_NAME_MATCH | EXCLUDED_BY_OPERATOR | CURRENT_ADMIN_PRESERVED
| UNSUPPORTED_IN_THIS_VERSION | SCHEDULE_ALREADY_PAST | DEPENDENCY_UNRESOLVED | DEPENDENCY_DESELECTED.

Inductive FailureReason :=
| VALIDATION_ERROR | DEPENDENCY_MISSING | UPSTREAM_API_ERROR | UPSTREAM_TIMEOUT | CONFLICT
| PASSWORD_HASH_UNSUPPORTED | INTERNAL_ERROR.

Inductive RestoreOutcome := SUCCESS | COMPLETED_WITH_FAILURES | PARTIAL_FAILED_ROLLED_BACK | FAILED_ROLLBACK_INCOMPLETE.

#[export] Instance SkipReason_eq_dec : EqDecision SkipReason.
Proof. solve_decision. Defined.
#[export] Instance FailureReason_eq_dec : EqDecision FailureReason.
Proof. solve_decision. Defined.
#[export] Instance RestoreOutcome_eq_dec : EqDecision RestoreOutcome.
Proof. solve_decision. Defined.

Definition is_degraded_not_failed (o : RestoreOutcome) : bool := bool_decide (o = COMPLETED_WITH_FAILURES).

Inductive ChannelReattachMode := PRESERVE | OVERWRITE.

(** What a request carries as the mode: a member, or a value of the request's JSON. *)
Inductive mode_input := Member (m : ChannelReattachMode) | Value (v : pyval).

Definition coerce (v : mode_input) : ChannelReattachMode :=
  match v with
  | Member m => m
  | Value v => let s := lower (strip (py_str v)) in if bool_decide (s = "overwrite") then OVERWRITE else PRESERVE
  end.

(** ** The report *)

Record SkipDetail := { skip_reason : SkipReason; skip_label : string; skip_source : option Z }.
Record FailureDetail := { failure_reason : FailureReason; failure_label : string; failure_message : string; failure_source : option Z }.

(** The counts of one category.  [caveat] qualifies a preview's. *)
Record category_report := Category {
  entity_type : EntityType; created : Z; updated : Z; skipped : Z; failed : Z;
  would_create : Z; would_update : Z; would_skip : Z;
  skip_details : list SkipDetail; failure_details : list FailureDetail; caveat : option string }.
Definition new_category (t : EntityType) : category_report := Category t 0 0 0 0 0 0 0 [] [] None.

Record LogoMissChannel := { miss_channel_id : option Z; miss_channel_name : string }.
Record LogoMissDetail := { miss_source : option Z; miss_label : string; miss_channels : list LogoMissChannel }.
Record StreamReattachDetail := { reattach_channel : option Z; reattach_name : string; has_playable_stream : bool }.

(** The aggregates of what the source has and the replica lacks, with their drill-downs;
    [None] is "not predicted". *)
Record shortfalls := Shortfalls {
  logo_misses : Z; logo_miss_details : list LogoMissDetail;
  entities_blocked_by_dependency : Z;
  channels_needing_stream_reattach : option Z; channels_with_no_playable_stream : option Z;
  stream_reattach_details : list StreamReattachDetail;
  stream_urls_redacted : option Z; stream_url_redaction_details : list (option Z * string);
  epg_links_unrestored : Z; epg_link_miss_details : list (option Z * string * string);
  account_field_drift : Z; account_convergence_unapplied : Z; account_field_drift_details : list (string * list string * bool) }.
Definition no_shortfalls : shortfalls := Shortfalls 0 [] 0 (Some 0) (Some 0) [] (Some 0) [] 0 [] 0 0 [].

Record report := Report {
  is_dry_run : bool; outcome : option RestoreOutcome; destination_unreadable : option string;
  notes : list string; categories : list category_report; missing : shortfalls }.

Definition new_report (dry_run : bool) : report := Report dry_run None None [] [] no_shortfalls.

Definition with_categories (f : list category_report -> list category_report) (r : report) : report :=
  Report (is_dry_run r) (outcome r) (destination_unreadable r) (notes r) (f (categories r)) (missing r).
Definition with_missing (f : shortfalls -> shortfalls) (r : report) : report :=
  Report (is_dry_run r) (outcome r) (destination_unreadable r) (notes r) (categories r) (f (missing r)).
Definition add_note (n : string) (r : report) : report :=
  Report (is_dry_run r) (outcome r) (destination_unreadable r) (notes r ++ [n]) (categories r) (missing r).
Definition set_outcome (o : option RestoreOutcome) (r : report) : report :=
  Report (is_dry_run r) o (destination_unreadable r) (notes r) (categories r) (missing r).
Definition force_dry_run (r : report) : report :=
  Report true (outcome r) (destination_unreadable r) (notes r) (categories r) (missing r).

(** [report.category(t)]: the category's row, created if absent; the caller then mutates it
    in place. *)
Fixpoint update_category (t : EntityType) (f : category_report -> category_report) (l : list category_report) : list category_report :=
  match l with
  | [] => [f (new_category t)]
  | c :: l => if bool_decide (entity_type c = t) then f c :: l else c :: update_category t f l
  end.

Definition category (t : EntityType) (r : report) : category_report :=
  default (new_category t) (List.find (fun c => bool_decide (entity_type c = t)) (categories r)).

Definition in_category (t : EntityType) (f : category_report -> category_report) : report -> report :=
  with_categories (update_category t f).

Definition count_created (c : category_report) : category_report :=
  Category (entity_type c) (created c + 1) (updated c) (skipped c) (failed c) (would_create c) (would_update c) (would_skip c)
    (skip_details c) (failure_details c) (caveat c).
Definition count_would_create (c : category_report) : category_report :=
  Category (entity_type c) (created c) (updated c) (skipped c) (failed c) (would_create c + 1) (would_update c) (would_skip c)
    (skip_details c) (failure_details c) (caveat c).
Definition set_caveat (s : string) (c : category_report) : category_report :=
  Category (entity_type c) (created c) (updated c) (skipped c) (failed c) (would_create c) (would_update c) (would_skip c)
    (skip_details c) (failure_details c) (Some s).

(** A skip in the count of the run's flavour; its detail, and a failure's, separately (the
    detail is validated between the two). *)
Definition count_skip (dry_run : bool) (c : category_report) : category_report :=
  Category (entity_type c) (created c) (updated c) (skipped c + if dry_run then 0 else 1) (failed c)
    (would_create c) (would_update c) (would_skip c + if dry_run then 1 else 0)
    (skip_details c) (failure_details c) (caveat c).
Definition add_skip_detail (d : SkipDetail) (c : category_report) : category_report :=
  Category (entity_type c) (created c) (updated c) (skipped c) (failed c) (would_create c) (would_update c) (would_skip c)
    (skip_details c ++ [d]) (failure_details c) (caveat c).
Definition count_failure (c : category_report) : category_report :=
  Category (entity_type c) (created c) (updated c) (skipped c) (failed c + 1) (would_create c) (would_update c) (would_skip c)
    (skip_details c) (failure_details c) (caveat c).
Definition add_failure_detail (d : FailureDetail) (c : category_report) : category_report :=
  Category (entity_type c) (created c) (updated c) (skipped c) (failed c) (would_create c) (would_update c) (would_skip c)
    (skip_details c) (failure_details c ++ [d]) (caveat c).

(** ** Shortfalls *)

Definition shortfall_count (m : shortfalls) (field : string) : Z :=
  match field with
  | "channels_with_no_playable_stream" => default 0 (channels_with_no_playable_stream m)
  | "stream_urls_redacted" => default 0 (stream_urls_redacted m)
  | "epg_links_unrestored" => epg_links_unrestored m
  | "logo_misses" => logo_misses m
  | "entities_blocked_by_dependency" => entities_blocked_by_dependency m
  | "account_convergence_unapplied" => account_convergence_unapplied m
  | _ => 0
  end%string.

Definition DELIVERY_SHORTFALL_FIELDS : list string :=
  ["channels_with_no_playable_stream"; "stream_urls_redacted"; "epg_links_unrestored"; "logo_misses";
   "entities_blocked_by_dependency"; "account_convergence_unapplied"].

Definition delivery_shortfalls (r : report) : list (string * Z) :=
  omap (fun name => let count := shortfall_count (missing r) name in if 0 <? count then Some (name, count) else None)
    DELIVERY_SHORTFALL_FIELDS.

(** First seen wins, by id and name. *)
Fixpoint merge_seen (seen : list (option Z * string)) (l : list LogoMissChannel) : list LogoMissChannel :=
  match l with
  | [] => []
  | c :: l =>
      let key := (miss_channel_id c, miss_channel_name c) in
      if bool_decide (key ∈ seen) then merge_seen seen l else c :: merge_seen (key :: seen) l
  end.
Definition _merge_logo_miss_channels (existing incoming : list LogoMissChannel) : list LogoMissChannel :=
  merge_seen [] (existing ++ incoming).

(** The row of a logo that is missed again is updated in place. *)
Fixpoint merge_miss (source : Z) (label : string) (synthetic : bool) (channels : list LogoMissChannel)
    (l : list LogoMissDetail) : option (list LogoMissDetail) :=
  match l with
  | [] => None
  | d :: l =>
      if bool_decide (miss_source d = Some source)
      then Some ({| miss_source := miss_source d; miss_label := if synthetic then miss_label d else label;
                    miss_channels := _merge_logo_miss_channels (miss_channels d) channels |} :: l)
      else l' ← merge_miss source label synthetic channels l; Some (d :: l')
  end.

Definition set_logo (details : list LogoMissDetail) (m : shortfalls) : shortfalls :=
  Shortfalls (Z.of_nat (length details)) details (entities_blocked_by_dependency m) (channels_needing_stream_reattach m)
    (channels_with_no_playable_stream m) (stream_reattach_details m) (stream_urls_redacted m)
    (stream_url_redaction_details m) (epg_links_unrestored m) (epg_link_miss_details m) (account_field_drift m)
    (account_convergence_unapplied m) (account_field_drift_details m).

Definition record_logo_miss (label : string) (source : option Z) (channels : list LogoMissChannel) (synthetic : bool)
    (m : shortfalls) : shortfalls :=
  match (i ← source; merge_miss i label synthetic channels (logo_miss_details m)) with
  | Some details =>
      Shortfalls (logo_misses m) details (entities_blocked_by_dependency m) (channels_needing_stream_reattach m)
        (channels_with_no_playable_stream m) (stream_reattach_details m) (stream_urls_redacted m)
        (stream_url_redaction_details m) (epg_links_unrestored m) (epg_link_miss_details m) (account_field_drift m)
        (account_convergence_unapplied m) (account_field_drift_details m)
  | None => set_logo (logo_miss_details m ++ [{| miss_source := source; miss_label := label; miss_channels := channels |}]) m
  end.

Definition block_entity (m : shortfalls) : shortfalls :=
  Shortfalls (logo_misses m) (logo_miss_details m) (entities_blocked_by_dependency m + 1) (channels_needing_stream_reattach m)
    (channels_with_no_playable_stream m) (stream_reattach_details m) (stream_urls_redacted m)
    (stream_url_redaction_details m) (epg_links_unrestored m) (epg_link_miss_details m) (account_field_drift m)
    (account_convergence_unapplied m) (account_field_drift_details m).

Definition unplayable (l : list StreamReattachDetail) : Z :=
  Z.of_nat (length (List.filter (fun d => negb (has_playable_stream d)) l)).

Definition record_stream_reattach_needed (d : StreamReattachDetail) (m : shortfalls) : shortfalls :=
  let details := stream_reattach_details m ++ [d] in
  Shortfalls (logo_misses m) (logo_miss_details m) (entities_blocked_by_dependency m) (Some (Z.of_nat (length details)))
    (Some (unplayable details)) details (stream_urls_redacted m)
    (stream_url_redaction_details m) (epg_links_unrestored m) (epg_link_miss_details m) (account_field_drift m)
    (account_convergence_unapplied m) (account_field_drift_details m).

Definition mark_stream_health_unpredicted (m : shortfalls) : shortfalls :=
  let redacted := match stream_url_redaction_details m with [] => None | _ => stream_urls_redacted m end in
  let '(needing, silent) := match stream_reattach_details m with
                            | [] => (None, None)
                            | _ => (channels_needing_stream_reattach m, channels_with_no_playable_stream m)
                            end in
  Shortfalls (logo_misses m) (logo_miss_details m) (entities_blocked_by_dependency m) needing silent
    (stream_reattach_details m) redacted
    (stream_url_redaction_details m) (epg_links_unrestored m) (epg_link_miss_details m) (account_field_drift m)
    (account_convergence_unapplied m) (account_field_drift_details m).

Definition record_redacted_stream_urls (observed : list (option Z * string)) (m : shortfalls) : shortfalls :=
  Shortfalls (logo_misses m) (logo_miss_details m) (entities_blocked_by_dependency m) (channels_needing_stream_reattach m)
    (channels_with_no_playable_stream m) (stream_reattach_details m) (Some (Z.of_nat (length observed)))
    observed (epg_links_unrestored m) (epg_link_miss_details m) (account_field_drift m)
    (account_convergence_unapplied m) (account_field_drift_details m).

Definition record_epg_link_unrestored (d : option Z * string * string) (m : shortfalls) : shortfalls :=
  let details := epg_link_miss_details m ++ [d] in
  Shortfalls (logo_misses m) (logo_miss_details m) (entities_blocked_by_dependency m) (channels_needing_stream_reattach m)
    (channels_with_no_playable_stream m) (stream_reattach_details m) (stream_urls_redacted m)
    (stream_url_redaction_details m) (Z.of_nat (length details)) details (account_field_drift m)
    (account_convergence_unapplied m) (account_field_drift_details m).

(** [sorted(set(names))], the names that are not empty. *)
Definition field_names (fields : list string) : list string :=
  py_sorted String.leb (remove_dups (List.filter (fun f => negb (bool_decide (f = ""))) fields)).

Definition record_account_field_drift (name : string) (fields : list string) (applied : bool) (reason : option string)
    (m : shortfalls) : shortfalls :=
  match field_names fields with
  | [] => m
  | names =>
      let n := Z.of_nat (length names) in
      Shortfalls (logo_misses m) (logo_miss_details m) (entities_blocked_by_dependency m) (channels_needing_stream_reattach m)
        (channels_with_no_playable_stream m) (stream_reattach_details m) (stream_urls_redacted m)
        (stream_url_redaction_details m) (epg_links_unrestored m) (epg_link_miss_details m) (account_field_drift m + n)
        (account_convergence_unapplied m + if negb applied && match reason with Some _ => true | None => false end then n else 0)
        (account_field_drift_details m ++ [(name, names, applied)])
  end.

(** *** Every aggregate is the size of its drill-down *)

(** The calls that write the aggregates. *)
Inductive observation :=
| LogoMiss (label : string) (source : option Z) (channels : list LogoMissChannel) (synthetic : bool)
| Blocked
| ReattachNeeded (d : StreamReattachDetail)
| Unpredicted
| RedactedUrls (observed : list (option Z * string))
| GuideLinkLost (d : option Z * string * string)
| FieldDrift (name : string) (fields : list string) (applied : bool) (reason : option string).

Definition observe (m : shortfalls) (o : observation) : shortfalls :=
  match o with
  | LogoMiss label source channels synthetic => record_logo_miss label source channels synthetic m
  | Blocked => block_entity m
  | ReattachNeeded d => record_stream_reattach_needed d m
  | Unpredicted => mark_stream_health_unpredicted m
  | RedactedUrls observed => record_redacted_stream_urls observed m
  | GuideLinkLost d => record_epg_link_unrestored d m
  | FieldDrift name fields applied reason => record_account_field_drift name fields applied reason m
  end.

Definition size {A} (l : list A) : Z := Z.of_nat (length l).
(** A count that a preview may leave open, while it has nothing to show. *)
Definition counts {A} (n : option Z) (l : list A) (value : Z) : Prop :=
  match n with Some n => n = value | None => l = [] end.

Definition drift_total (m : shortfalls) : Z := foldr Z.add 0 (map (fun d => size d.1.2) (account_field_drift_details m)).

Record coherent (m : shortfalls) : Prop := {
  logos_agree : logo_misses m = size (logo_miss_details m);
  links_agree : epg_links_unrestored m = size (epg_link_miss_details m);
  reattach_agree : counts (channels_needing_stream_reattach m) (stream_reattach_details m) (size (stream_reattach_details m));
  silent_agree : counts (channels_with_no_playable_stream m) (stream_reattach_details m) (unplayable (stream_reattach_details m));
  redacted_agree : counts (stream_urls_redacted m) (stream_url_redaction_details m) (size (stream_url_redaction_details m));
  drift_agree : account_field_drift m = drift_total m;
  unapplied_within : account_convergence_unapplied m <= account_field_drift m }.

Lemma merge_miss_length source label synthetic channels l l' :
  merge_miss source label synthetic channels l = Some l' -> length l' = length l.
Proof.
  revert l'. induction l as [|d l IH]; cbn; intros l'; [done|]. case_bool_decide; [by intros [= <-]|].
  destruct (merge_miss source label synthetic channels l) as [k|]; [|done]. cbn. intros [= <-]. cbn. by rewrite (IH k).
Qed.

Lemma sum_snoc l z : foldr Z.add 0 (l ++ [z]) = foldr Z.add 0 l + z.
Proof. induction l as [|x l IH]; cbn; lia. Qed.

Lemma observe_coherent m o : coherent m -> coherent (observe m o).
Proof.
  intros Hm. destruct o as [label source channels synthetic| |d| |observed|d|name fields applied reason]; cbn.
  - unfold record_logo_miss. destruct (mbind _ _) as [details|] eqn:E; [|destruct Hm; by constructor].
    destruct source as [i|]; [|done]. cbn in E. apply merge_miss_length in E. destruct Hm. constructor; try done. cbn. unfold size. by rewrite E.
  - destruct Hm. by constructor.
  - destruct Hm. by constructor.
  - unfold mark_stream_health_unpredicted. destruct Hm as [H1 H2 H3 H4 H5 H6 H7].
    destruct (stream_reattach_details m) eqn:Er, (stream_url_redaction_details m) eqn:Eu;
      constructor; cbn; rewrite ?Er, ?Eu; try done.
  - destruct Hm. by constructor.
  - destruct Hm. by constructor.
  - unfold record_account_field_drift. destruct (field_names fields) as [|n names] eqn:En; [done|]. destruct Hm as [H1 H2 H3 H4 H5 H6 H7].
    constructor; try done; cbn -[Z.of_nat]; unfold drift_total in *; cbn -[Z.of_nat].
    + rewrite map_app, H6. change (map _ [_]) with [size (n :: names)]. by rewrite sum_snoc.
    + destruct (negb applied && _); lia.
Qed.

(** Whatever a run records, in whatever order, each aggregate of the report is the size of
    the drill-down shown under it (a preview's open counts stand over nothing), the silent
    channels counted are those shown without a playable stream, and no more settings are
    counted unapplied than drifted. *)
Theorem aggregates_match_details l : coherent (fold_left observe l no_shortfalls).
Proof.
  assert (H : coherent no_shortfalls) by by constructor. revert H. generalize no_shortfalls.
  induction l as [|o l IH]; intros m Hm; [done|]. by apply IH, observe_coherent.
Qed.

(** ** The remap table *)

Record IdRemapTable := Remap {
  mappings : gmap (EntityType * Z) Z;
  selected_categories : option (gset EntityType) }.
Definition new_remap : IdRemapTable := Remap ∅ None.

Definition record_run_scope (selected : gset EntityType) (t : IdRemapTable) : IdRemapTable := Remap (mappings t) (Some selected).
Definition category_deselected (e : EntityType) (t : IdRemapTable) : bool :=
  match selected_categories t with None => false | Some s => negb (bool_decide (e ∈ s)) end.
Definition add (e : EntityType) (source destination : Z) (t : IdRemapTable) : IdRemapTable :=
  Remap (<[(e, source) := destination]> (mappings t)) (selected_categories t).
Definition resolve (e : EntityType) (source : Z) (t : IdRemapTable) : option Z := mappings t !! (e, source).

(** Which of the two facts an unresolved dependency is. *)
Definition unresolved_reason (recorded_under dependency : EntityType) (remap : IdRemapTable) : SkipReason :=
  if bool_decide (recorded_under = dependency) && category_deselected dependency remap
  then DEPENDENCY_DESELECTED else DEPENDENCY_UNRESOLVED.

(** ** The ledger *)

Record LedgerEntry := Entry {
  sequence : Z; entry_type : EntityType; destination_id : Z; label : string; compensated : bool }.
Definition ledger : Type := list LedgerEntry.

Definition record_created (t : EntityType) (id : Z) (name : string) (l : ledger) : ledger :=
  l ++ [Entry (Z.of_nat (length l)) t id name false].

Definition compensation_order (l : ledger) : list LedgerEntry :=
  py_sorted (fun a b => sequence b <=? sequence a) (List.filter (fun e => negb (compensated e)) l).

Definition entry_of (e : LedgerEntry) : EntityType * Z := (entry_type e, destination_id e).

(** [entry.compensated = True] on the entry of a sequence number. *)
Definition mark_compensated (n : Z) (l : ledger) : ledger :=
  map (fun e => if sequence e =? n then Entry (sequence e) (entry_type e) (destination_id e) (label e) true else e) l.

End RestoreContracts.
