(* ===== verification/Preflight.v ===== *)
(** * Pre-flight of a restore ([backend/dbas/preflight.py]) and the version gate it delegates
    to ([validate_restore_schema_version] of [routers/backup.py]).

    The checks accumulate problems; [run_preflight_ok] states what a plan without problems is,
    independently of how the checks walk it. *)
From S2P Require Import Prelude PyValue PyText PyState RestoreContracts.
From stdpp Require Import list gmap strings.
Open Scope Z_scope.

Module Preflight.
Import RestoreContracts.

(** An archived entity, a [dict]. *)
Definition row : Type := list (string * pyval).

(** [d.get(key)], [None] when absent. *)
Definition field (d : row) (key : string) : pyval := default PNone (dict_get d key).

Definition is_none (v : pyval) : bool := match v with PNone => true | _ => false end.

Definition DEFAULT_MAX_ENTITIES_PER_CATEGORY : Z := 100000.
Definition NAME_UNIQUE_CATEGORIES : list EntityType := [M3U_ACCOUNT; CHANNEL_GROUP; CHANNEL_PROFILE].
Definition CHANNEL_FK_FIELDS : list (string * EntityType) :=
  [("channel_group_id", CHANNEL_GROUP); ("stream_profile_id", STREAM_PROFILE)].

Inductive PreflightProblemKind :=
| UNSUPPORTED_SCHEMA_VERSION | UNRESOLVED_FK_REFERENCE | DUPLICATE_UNIQUE_NAME | COUNT_OUT_OF_BOUNDS.
#[export] Instance PreflightProblemKind_eq_dec : EqDecision PreflightProblemKind.
Proof. solve_decision. Defined.

Record PreflightProblem := Problem {
  kind : PreflightProblemKind; problem_type : option EntityType; problem_label : option string; message : string }.

Record PlanCategory := Slice { slice_type : EntityType; entities : list row; selected : bool }.
Record ImportPlan := Plan { manifest : pyval; plan_categories : list PlanCategory; existing_remap : IdRemapTable }.

(** [plan.category(t)] and [plan.selected_categories()] *)
Definition plan_category (plan : ImportPlan) (t : EntityType) : option PlanCategory :=
  List.find (fun c => bool_decide (slice_type c = t)) (plan_categories plan).
Definition selected_slices (plan : ImportPlan) : list PlanCategory := List.filter selected (plan_categories plan).

Definition _label (entity : row) : string :=
  match List.find (fun key => truthy (field entity key)) ["name"; "username"; "title"] with
  | Some key => py_str (field entity key)
  | None =>
      let ident := field entity "id" in
      if is_none ident then "<unknown>" else String.concat "" ["<id="; py_str ident; ">"]
  end.

(** [{int(e["id"]) for e in entities if e.get("id") is not None}]; [int] may raise. *)
Fixpoint ids_of (l : list row) : result exc (list Z) :=
  match l with
  | [] => Ok []
  | entity :: l =>
      let ident := field entity "id" in
      if is_none ident then ids_of l
      else let! i := int_value ident in let! ids := ids_of l in Ok (i :: ids)
  end.

Definition _source_ids_in_plan (plan : ImportPlan) (t : EntityType) : result exc (list Z) :=
  match plan_category plan t with
  | None => Ok []
  | Some c => if selected c then ids_of (entities c) else Ok []
  end.

(** ** The version gate *)

Definition BACKUP_SCHEMA_VERSION : Z := 1.
Definition UNSUPPORTED_BACKUP_VERSION_MESSAGE : string := "Unsupported backup version".

(** [false] is [UnsupportedBackupVersionError]. *)
Definition validate_restore_schema_version (m : pyval) : bool :=
  match m with
  | PDict d => match field d "schema_version" with PInt v => v <=? BACKUP_SCHEMA_VERSION | _ => false end
  | _ => false
  end.

Definition _validate_schema_version (plan : ImportPlan) : list PreflightProblem :=
  if validate_restore_schema_version (manifest plan) then []
  else [Problem UNSUPPORTED_SCHEMA_VERSION None None UNSUPPORTED_BACKUP_VERSION_MESSAGE].

(** ** Counts *)

Definition count (c : PlanCategory) : Z := Z.of_nat (length (entities c)).

Definition _validate_counts (plan : ImportPlan) (max_per_category : Z) : list PreflightProblem :=
  omap (fun c =>
    if max_per_category <? count c
    then Some (Problem COUNT_OUT_OF_BOUNDS (Some (slice_type c)) None
                 (String.concat "" [entity_value (slice_type c); " count "; str_of_Z (count c); " exceeds the maximum of ";
                    str_of_Z max_per_category; "; refusing as a likely-malformed archive."]))
    else None) (selected_slices plan).

(** ** Names *)

(** The key under which a name must be unique; [None] for a row without one. *)
Definition name_key (entity : row) : option (string * string) :=
  match field entity "name" with
  | PStr raw => let key := lower (strip raw) in if bool_decide (key = "") then None else Some (raw, key)
  | _ => None
  end.

Fixpoint duplicates (t : EntityType) (seen : gset string) (l : list row) : list PreflightProblem :=
  match l with
  | [] => []
  | entity :: l =>
      match name_key entity with
      | None => duplicates t seen l
      | Some (raw, key) =>
          (if bool_decide (key ∈ seen)
           then [Problem DUPLICATE_UNIQUE_NAME (Some t) (Some (_label entity))
                   (String.concat "" ["Duplicate "; entity_value t; " name in archive: '"; raw;
                      "'. Names must be unique within this category."])]
           else []) ++ duplicates t ({[key]} ∪ seen) l
      end
  end.

Definition _validate_unique_names (plan : ImportPlan) : list PreflightProblem :=
  mjoin (map (fun c => if bool_decide (slice_type c ∈ NAME_UNIQUE_CATEGORIES)
                       then duplicates (slice_type c) ∅ (entities c) else []) (selected_slices plan)).

(** ** References *)

Definition check_fk (plan : ImportPlan) (channel : row) (fk : string * EntityType) : result exc (list PreflightProblem) :=
  let '(name, target) := fk in
  let ref := field channel name in
  if is_none ref then Ok []
  else
    let! ref_id := int_value ref in
    let! ids := _source_ids_in_plan plan target in
    let on_dest := match resolve target ref_id (existing_remap plan) with Some _ => true | None => false end in
    if negb (bool_decide (ref_id ∈ ids)) && negb on_dest
    then Ok [Problem UNRESOLVED_FK_REFERENCE (Some CHANNEL) (Some (_label channel))
               (String.concat "" ["Channel '"; _label channel; "' references "; entity_value target; " id="; str_of_Z ref_id;
                  ", which is neither in the archive nor present on the destination."])]
    else Ok [].

Definition check_channel (plan : ImportPlan) (channel : row) : result exc (list PreflightProblem) :=
  let! l := traverse (check_fk plan channel) CHANNEL_FK_FIELDS in Ok (mjoin l).

Definition _validate_fk_references (plan : ImportPlan) : result exc (list PreflightProblem) :=
  match plan_category plan CHANNEL with
  | None => Ok []
  | Some c =>
      if selected c then let! l := traverse (check_channel plan) (entities c) in Ok (mjoin l) else Ok []
  end.

(** ** The whole check; [passed] is "no problems". *)

Definition run_preflight (plan : ImportPlan) (max_entities_per_category : Z) : result exc (list PreflightProblem) :=
  let! fks := _validate_fk_references plan in
  Ok (_validate_schema_version plan ++ _validate_counts plan max_entities_per_category
        ++ _validate_unique_names plan ++ fks).

(** ** What passing means *)

(** The names of a list of rows, as keys. *)
Definition name_keys (l : list row) : list string := omap (fun e => snd <$> name_key e) l.

(** A reference resolves: an archived entity of a selected category has its id, or the
    destination already holds it. *)
Definition resolvable (plan : ImportPlan) (target : EntityType) (i : Z) : Prop :=
  (exists ids, _source_ids_in_plan plan target = Ok ids /\ i ∈ ids) \/
  resolve target i (existing_remap plan) <> None.

Record sound (plan : ImportPlan) (max : Z) : Prop := {
  sound_version : exists d v, manifest plan = PDict d /\ dict_get d "schema_version" = Some (PInt v) /\ v <= BACKUP_SCHEMA_VERSION;
  sound_counts : forall c, c ∈ plan_categories plan -> selected c = true -> count c <= max;
  sound_names : forall c, c ∈ plan_categories plan -> selected c = true -> slice_type c ∈ NAME_UNIQUE_CATEGORIES ->
    NoDup (name_keys (entities c));
  sound_refs : forall c channel name target i, plan_category plan CHANNEL = Some c -> selected c = true ->
    channel ∈ entities c -> (name, target) ∈ CHANNEL_FK_FIELDS ->
    is_none (field channel name) = false -> int_value (field channel name) = Ok i -> resolvable plan target i }.

Lemma elem_of_selected c plan : c ∈ selected_slices plan <-> c ∈ plan_categories plan /\ selected c = true.
Proof. apply Prelude.elem_of_list_filter. Qed.

Lemma duplicates_nil t l : forall seen,
  duplicates t seen l = [] <-> NoDup (name_keys l) /\ forall k, k ∈ name_keys l -> k ∉ seen.
Proof.
  induction l as [|e l IH]; intros seen; cbn.
  { split; [intros _; split; [constructor|intros k Hk; by apply elem_of_nil in Hk]|done]. }
  destruct (name_key e) as [[raw key]|]; cbn; [|apply IH].
  rewrite app_nil, IH, NoDup_cons. case_bool_decide as Hin.
  - split; [by intros [? _]|]. intros [_ Hk]. exfalso. apply (Hk key); [by left|exact Hin].
  - split.
    + intros (_ & Hnd & Hk). split_and!; [intros H; specialize (Hk _ H); set_solver|exact Hnd|].
      intros k [->|Hk']%elem_of_cons; [exact Hin|]. specialize (Hk _ Hk'). set_solver.
    + intros [[Hn Hnd] Hk]. split_and!; [done|exact Hnd|]. intros k Hk'.
      assert (k <> key) by (intros ->; done). specialize (Hk k ltac:(by right)). set_solver.
Qed.

Lemma counts_nil plan max :
  _validate_counts plan max = [] <-> forall c, c ∈ selected_slices plan -> count c <= max.
Proof.
  unfold _validate_counts. induction (selected_slices plan) as [|c l IH]; cbn.
  { split; [intros _ c Hc; by apply elem_of_nil in Hc|done]. }
  destruct (max <? count c) eqn:Hc; to_prop; cbn.
  - split; [done|]. intros H. specialize (H c ltac:(by left)). lia.
  - rewrite IH. split; [intros H x [->|Hx]%elem_of_cons; [lia|auto]|]. intros H x Hx. apply H. by right.
Qed.

Lemma mjoin_nil {A} (l : list (list A)) : mjoin l = [] <-> forall x, x ∈ l -> x = [].
Proof.
  induction l as [|x l IH]; cbn; [split; [intros _ y Hy; by apply elem_of_nil in Hy|done]|].
  rewrite app_nil, IH. split; [intros [-> H] y [->|Hy]%elem_of_cons; auto|].
  intros H. split; [apply H; by left|]. intros y Hy. apply H. by right.
Qed.

Lemma names_nil plan :
  _validate_unique_names plan = [] <->
  forall c, c ∈ selected_slices plan -> slice_type c ∈ NAME_UNIQUE_CATEGORIES -> NoDup (name_keys (entities c)).
Proof.
  unfold _validate_unique_names. rewrite mjoin_nil. split.
  - intros H c Hc Ht. pose proof (H _ (Prelude.elem_of_map_2 _ _ _ Hc)) as E. cbn beta in E.
    rewrite bool_decide_true in E by exact Ht. by apply duplicates_nil in E as [? _].
  - intros H x (c & -> & Hc)%Prelude.elem_of_map. case_bool_decide; [|done].
    apply duplicates_nil. split; [by apply H|]. intros k _. set_solver.
Qed.

Lemma version_nil plan :
  _validate_schema_version plan = [] <->
  exists d v, manifest plan = PDict d /\ dict_get d "schema_version" = Some (PInt v) /\ v <= BACKUP_SCHEMA_VERSION.
Proof.
  unfold _validate_schema_version, validate_restore_schema_version, field.
  split.
  - destruct (manifest plan) as [| | | | | |d]; try done.
    destruct (dict_get d "schema_version") as [[| |v| | | |]|] eqn:E; cbn; try done.
    destruct (v <=? BACKUP_SCHEMA_VERSION) eqn:Hv; [|done]. to_prop. eauto.
  - intros (d & v & -> & -> & Hv). cbn. by rewrite (proj2 (Z.leb_le _ _) Hv).
Qed.

Lemma traverse_nil {A B} (f : A -> result exc (list B)) l :
  (exists r, traverse f l = Ok r /\ mjoin r = []) <-> forall x, x ∈ l -> f x = Ok [].
Proof.
  induction l as [|x l IH]; cbn.
  { split; [intros _ x Hx; by apply elem_of_nil in Hx|]. intros _. by exists []. }
  split.
  - intros (r & Hr & Hj). destruct (f x) as [y|] eqn:Ef; [|done]. cbn in Hr.
    destruct (traverse f l) as [ys|]; [|done]. injection Hr as <-. cbn in Hj. apply app_nil in Hj as [-> Hj].
    intros z [->|Hz]%elem_of_cons; [exact Ef|]. by apply IH; [exists ys|].
  - intros H. rewrite (H x ltac:(by left)). cbn.
    destruct (proj2 IH) as (r & -> & Hj); [intros z Hz; apply H; by right|]. by exists ([] :: r).
Qed.

(** The list of a loop whose problems are joined. *)
Lemma joined_nil {A B} (f : A -> result exc (list B)) l :
  (let! r := traverse f l in Ok (mjoin r)) = Ok [] <-> forall x, x ∈ l -> f x = Ok [].
Proof.
  rewrite <- traverse_nil. split.
  - destruct (traverse f l) as [r|]; cbn; [|done]. intros [= Hj]. by exists r.
  - intros (r & -> & Hj). cbn. by rewrite Hj.
Qed.

(** Every [int] the reference check computes is of an integer. *)
Definition well_typed_refs (plan : ImportPlan) : Prop := is_ok (_validate_fk_references plan) = true.

Lemma check_fk_nil plan channel name target :
  check_fk plan channel (name, target) = Ok [] ->
  is_none (field channel name) = false ->
  forall i, int_value (field channel name) = Ok i -> resolvable plan target i.
Proof.
  unfold check_fk. intros H Hn i Hi. rewrite Hn, Hi in H. cbn in H.
  destruct (_source_ids_in_plan plan target) as [ids|] eqn:Eids; [|done]. cbn in H.
  case_bool_decide as Hin; [left; eauto|]. cbn in H.
  destruct (resolve target i (existing_remap plan)) eqn:Er; [right; by rewrite Er|done].
Qed.

Lemma check_fk_resolvable plan channel fk :
  is_ok (check_fk plan channel fk) = true ->
  (is_none (field channel fk.1) = false ->
   forall i, int_value (field channel fk.1) = Ok i -> resolvable plan fk.2 i) ->
  check_fk plan channel fk = Ok [].
Proof.
  destruct fk as [name target]. unfold check_fk. cbn. intros Hok H. destruct (is_none _); [done|].
  destruct (int_value _) as [i|]; [|done]. cbn in *.
  destruct (_source_ids_in_plan plan target) as [ids|] eqn:Eids; [|done]. cbn in *.
  destruct (H eq_refl i eq_refl) as [(ids' & Eids' & Hin)|Hr].
  - rewrite Eids in Eids'. injection Eids' as <-. rewrite (bool_decide_true (i ∈ ids)) by exact Hin. done.
  - destruct (resolve target i (existing_remap plan)); [by rewrite andb_false_r|done].
Qed.

Lemma traverse_ok_all {A B} (f : A -> result exc B) l x :
  is_ok (traverse f l) = true -> x ∈ l -> is_ok (f x) = true.
Proof.
  destruct (traverse f l) as [r|] eqn:E; [|done]. intros _ Hx. apply traverse_Ok in E.
  apply list_elem_of_lookup in Hx as [i Hi]. destruct (Forall2_lookup_l _ _ _ _ _ E Hi) as (y & _ & Hy). by rewrite Hy.
Qed.

Lemma refs_nil plan :
  well_typed_refs plan ->
  _validate_fk_references plan = Ok [] <->
  forall c channel name target i, plan_category plan CHANNEL = Some c -> selected c = true ->
    channel ∈ entities c -> (name, target) ∈ CHANNEL_FK_FIELDS ->
    is_none (field channel name) = false -> int_value (field channel name) = Ok i -> resolvable plan target i.
Proof.
  unfold well_typed_refs, _validate_fk_references. intros Hok.
  destruct (plan_category plan CHANNEL) as [c|]; [|done].
  destruct (selected c) eqn:Hs; [|split; [intros _ c' ch n t i [= <-] Hs'; congruence|done]].
  assert (Hall : forall channel fk, channel ∈ entities c -> fk ∈ CHANNEL_FK_FIELDS -> is_ok (check_fk plan channel fk) = true).
  { intros channel fk Hc Hf. destruct (traverse (check_channel plan) (entities c)) as [r|] eqn:E; [|done].
    assert (Ho : is_ok (check_channel plan channel) = true) by (eapply traverse_ok_all; [by rewrite E|exact Hc]).
    unfold check_channel in Ho. destruct (traverse (check_fk plan channel) CHANNEL_FK_FIELDS) eqn:E'; [|done].
    eapply traverse_ok_all; [by rewrite E'|exact Hf]. }
  rewrite joined_nil. split.
  - intros H c' channel name target i [= <-] _ Hc Hf Hn Hi. specialize (H _ Hc). unfold check_channel in H.
    rewrite joined_nil in H. by eapply check_fk_nil; [apply H|..].
  - intros H channel Hc. unfold check_channel. apply joined_nil. intros [name target] Hf.
    apply check_fk_resolvable; [by apply Hall|]. cbn. intros Hn i Hi. by eapply H.
Qed.

(** Pre-flight passes a plan exactly when the plan is sound: the manifest's version is an
    integer this build reads, no selected category is over the bound, the names of the
    categories that need unique names are distinct after trimming and lowering, and every
    reference of every selected channel is archived in a selected category or known on the
    destination. *)
Theorem preflight_passes_sound_plans plan max :
  well_typed_refs plan -> run_preflight plan max = Ok [] <-> sound plan max.
Proof.
  intros Hok. pose proof (refs_nil plan Hok) as Hrefs. unfold well_typed_refs in Hok.
  unfold run_preflight. destruct (_validate_fk_references plan) as [fks|]; [|done]. cbn.
  assert (Heq : (Ok (E := exc) fks = Ok []) <-> fks = []) by (split; [by intros [=]|by intros ->]).
  transitivity (_validate_schema_version plan = [] /\ _validate_counts plan max = [] /\ _validate_unique_names plan = [] /\ fks = []).
  { rewrite <- !app_nil. split; [by intros [=]|by intros ->]. }
  rewrite <- Heq, Hrefs, version_nil, counts_nil, names_nil. setoid_rewrite elem_of_selected.
  split.
  - intros (Hv & Hc & Hn & Hr). constructor; [exact Hv| | |exact Hr]; intros; [by apply Hc|by apply Hn].
  - intros [Hv Hc Hn Hr]. split_and!; [exact Hv| | |exact Hr]; intros c [Hin Hs]; [by apply Hc|by apply Hn].
Qed.

Module Demo.
Definition group (i : Z) (name : string) : row := [("id", PInt i); ("name", PStr name)].
Definition channel (i g : Z) (name : string) : row :=
  [("id", PInt i); ("name", PStr name); ("channel_group_id", PInt g)].
Definition plan (version : pyval) : ImportPlan :=
  Plan (PDict [("schema_version", version)])
    [Slice CHANNEL_GROUP [group 3 "News"; group 4 " news "] true; Slice CHANNEL [channel 1 3 "One"; channel 2 9 "Two"] true]
    new_remap.
Definition good : ImportPlan :=
  Plan (PDict [("schema_version", PInt 1)])
    [Slice CHANNEL_GROUP [group 3 "News"; group 4 "Sport"] true; Slice CHANNEL [channel 1 3 "One"; channel 2 9 "Two"] true]
    (add CHANNEL_GROUP 9 70 new_remap).

(** All the problems in one pass. *)
Example all_problems : (let! l := run_preflight (plan (PBool true)) 1 in Ok (map kind l)) =
  Ok [UNSUPPORTED_SCHEMA_VERSION; COUNT_OUT_OF_BOUNDS; COUNT_OUT_OF_BOUNDS; DUPLICATE_UNIQUE_NAME; UNRESOLVED_FK_REFERENCE].
Proof. vm_compute. reflexivity. Qed.

(** A reference that is not a number: the check itself raises. *)
Example malformed_reference :
  run_preflight (Plan (PDict [("schema_version", PInt 1)])
    [Slice CHANNEL [[("name", PStr "One"); ("channel_group_id", PStr "news")]] true] new_remap) 10
  = Raise (Exc Other "ValueError" "invalid literal for int() with base 10: 'news'").
Proof. vm_compute. reflexivity. Qed.

Lemma preflight_passes_sound_plans_witness : well_typed_refs good /\ sound good 10.
Proof.
  split; [vm_compute; reflexivity|].
  apply (preflight_passes_sound_plans good 10); vm_compute; reflexivity.
Defined.
End Demo.
End Preflight.
