(* ===== verification/DestinationRead.v ===== *)
(** * The destination of a restore and the client that observes it
    ([backend/dbas/destination_read.py]).

    [Upstream] is what a restore reaches outside the process: the destination's rows by
    category, and the file of the ledger.  [UpstreamLaws] is what is assumed of them: a read
    changes nothing, an answered create adds the row it returns and a refused one adds none, a
    create whose answer never came may have added a row nobody knows of ([lost]), a delete
    removes its row, and the ledger's file is replaced as a whole.

    The client every step uses wraps these calls: it records the first read that failed, and
    from then on refuses every write except a rollback's deletes. *)
From S2P Require Import Prelude PyValue PyText PyState RestoreContracts Preflight.
From stdpp Require Import list gmap strings.
Open Scope Z_scope.
Open Scope py_scope.

Module DestinationRead.
Import RestoreContracts Preflight.

(** A destination row. *)
Definition key : Type := EntityType * Z.

(** The types of [response.raise_for_status] and of the transport's errors; a request that
    timed out or broke may have been served. *)
Definition answered (e : exc) : bool := match exc_kind e with Timeout | Request => false | _ => true end.

(** [_status_code_of] of [restore_orchestrator.py]: the status of an [HTTPStatusError], else
    the first word of three digits of the text. *)
Definition separators (c : Ascii.ascii) : Ascii.ascii := if has_char c ":-" then " "%char else c.
Definition three_digits (w : string) : option Z :=
  if (String.length w =? 3)%nat then Z.of_N <$> digits w else None.
Definition _status_code_of (e : exc) : option Z :=
  match exc_kind e with
  | HttpStatus s => Some s
  | _ => head (omap three_digits (split_words (s_map separators (exc_text e))))
  end.
Definition _is_already_gone (e : exc) : bool := bool_decide (_status_code_of e = Some 404).

(** ** What is outside *)

Class Upstream := {
  world : Type;
  fetch : EntityType -> world -> result exc pyval * world;
  create_row : EntityType -> pyval -> world -> result exc pyval * world;
  delete_row : EntityType -> Z -> world -> result exc unit * world;
  write_file : ledger -> world -> result exc unit * world;
  remove_file : world -> result exc unit * world;
  (** A field declared [int | None] of a model, given a value. *)
  validate_id : pyval -> result exc (option Z);
  holdings : world -> gset key;
  lost : world -> gset key;
  saved : world -> option ledger }.

(** The same rows, the same unknown ones. *)
Definition same_rows `{Upstream} (w w' : world) : Prop := holdings w' = holdings w /\ lost w' = lost w.

Class UpstreamLaws `{Upstream} := {
  fetch_reads t w : same_rows w (fetch t w).2 /\ saved (fetch t w).2 = saved w;
  create_answers t p w v w' : create_row t p w = (Ok v, w') ->
    exists d i, v = PDict d /\ dict_get d "id" = Some (PInt i) /\ ((t, i) ∉ holdings w) /\
      holdings w' = {[(t, i)]} ∪ holdings w /\ lost w' = lost w;
  create_refused t p w e w' : create_row t p w = (Raise e, w') ->
    same_rows w w' \/
    answered e = false /\ exists i, ((t, i) ∉ holdings w) /\ holdings w' = {[(t, i)]} ∪ holdings w /\ lost w' = {[(t, i)]} ∪ lost w;
  create_file t p w : saved (create_row t p w).2 = saved w;
  delete_removes t i w r w' : delete_row t i w = (r, w') ->
    match r with Ok _ => True | Raise e => _is_already_gone e = true end -> holdings w' = holdings w ∖ {[(t, i)]};
  delete_frame t i w : let w' := (delete_row t i w).2 in
    holdings w' ⊆ holdings w /\ holdings w ∖ {[(t, i)]} ⊆ holdings w' /\ lost w' = lost w /\ saved w' = saved w;
  write_replaces l w r w' : write_file l w = (r, w') ->
    same_rows w w' /\ saved w' = match r with Ok _ => Some l | Raise _ => saved w end;
  remove_removes w r w' : remove_file w = (r, w') ->
    same_rows w w' /\ saved w' = match r with Ok _ => None | Raise _ => saved w end;
  validate_int z : validate_id (PInt z) = Ok (Some z);
  validate_none : validate_id PNone = Ok None }.

Section client.
Context {U : Upstream}.

(** ** The state of a run *)

Record run := Run {
  dest : world; rep : report; led : ledger; table : IdRemapTable; compensating : bool }.

Definition on_dest (w : world) (s : run) : run := Run w (rep s) (led s) (table s) (compensating s).
Definition on_report (f : report -> report) (s : run) : run := Run (dest s) (f (rep s)) (led s) (table s) (compensating s).
Definition on_ledger (f : ledger -> ledger) (s : run) : run := Run (dest s) (rep s) (f (led s)) (table s) (compensating s).
Definition on_table (f : IdRemapTable -> IdRemapTable) (s : run) : run := Run (dest s) (rep s) (led s) (f (table s)) (compensating s).
Definition set_compensating (b : bool) (s : run) : run := Run (dest s) (rep s) (led s) (table s) b.

Definition reaches {A} (f : world -> result exc A * world) : M run A :=
  fun s => let '(r, w') := f (dest s) in (r, on_dest w' s).

(** ** Failed reads *)

Definition mark_destination_unread (reason : string) (r : report) : report :=
  add_note (String.concat "" ["destination not read: "; reason])
    (Report (is_dry_run r) (outcome r) (match destination_unreadable r with Some u => Some u | None => Some reason end)
       (notes r) (categories r) (missing r)).

Definition _destination_error_category (e : exc) : string * option Z :=
  match exc_kind e with
  | Ssrf => ("ssrf_policy", None)
  | HttpStatus status =>
      (if status =? 429 then "rate_limit"
       else if (status =? 401) || (status =? 403) then "authentication"
       else if 500 <=? status then "server_error" else "http_error", Some status)
  | Timeout => ("timeout", None)
  | Request => ("network", None)
  | Other => ("unexpected", None)
  end.

Definition _describe_destination_error (e : exc) : string :=
  match exc_kind e with
  | Ssrf => "the destination is blocked by this instance's outbound SSRF policy"
  | HttpStatus status =>
      if status =? 429 then
        "the destination rate-limited this request (HTTP 429) - this is not a credential problem; wait for its limit window to clear and retry"
      else if (status =? 401) || (status =? 403) then
        String.concat "" ["authentication to the destination was rejected (HTTP "; str_of_Z status;
          ") - check the destination credentials configured on this instance"]
      else if 500 <=? status then String.concat "" ["the destination returned a server error (HTTP "; str_of_Z status; ")"]
      else String.concat "" ["the destination returned HTTP "; str_of_Z status]
  | Timeout => String.concat "" ["the destination did not respond in time ("; exc_name e; ")"]
  | Request => String.concat "" ["the destination could not be reached ("; exc_name e; ")"]
  | Other => String.concat "" ["the destination could not be read ("; exc_name e; ")"]
  end.

Definition DestinationReadError (operation : string) (e : exc) : exc :=
  let '(category, status) := _destination_error_category e in
  Exc Other "DestinationReadError"
    (String.concat "" ["destination read "; operation; " failed (category="; category;
       match status with None => "" | Some s => String.append ", status=" (str_of_Z s) end;
       "): "; _describe_destination_error e]).

Definition DestinationUnreadableError (name reason : string) : exc :=
  Exc Other "DestinationUnreadableError"
    (String.concat "" ["refusing "; name; " after destination read failure: "; reason]).

(** [destination_read_reason]: the probe, [None] when the destination answers it. *)
Definition destination_read_reason : M run (option string) :=
  try_except (reaches (fetch CHANNEL_GROUP);; ret None) (fun e => ret (Some (_describe_destination_error e))).

(** ** The proxy *)

Variable reject_mutations : bool.

Definition _DESTINATION_MUTATION_PREFIXES : list string :=
  ["bulk_"; "create_"; "delete_"; "patch_"; "refresh_"; "trigger_"; "update_"; "upload_"].
Definition _COMPENSATING_DELETE_PREFIXES : list string := ["bulk_delete_"; "delete_"].
Definition has_prefix (prefixes : list string) (name : string) : bool := existsb (fun p => starts_with p name) prefixes.

Definition _guarded_mutation {A} (name : string) (call : M run A) : M run A :=
  do! s := gets id in
  match destination_unreadable (rep s) with
  | Some reason =>
      if has_prefix _COMPENSATING_DELETE_PREFIXES name && compensating s then call
      else raise (DestinationUnreadableError name reason)
  | None => call
  end.

Definition _observed_read {A} (name : string) (call : M run A) : M run A :=
  try_except call (fun e =>
    modify (on_report (mark_destination_unread
      (String.concat "" [name; " could not be read - "; _describe_destination_error e])));;
    raise (DestinationReadError name e)).

Definition client {A} (name : string) (call : M run A) : M run A :=
  if reject_mutations && has_prefix _DESTINATION_MUTATION_PREFIXES name then _guarded_mutation name call
  else if negb (starts_with "get_" name) then call
  else _observed_read name call.

(** [with client.compensation():] *)
Definition compensation {A} (body : M run A) : M run A :=
  fun s => let '(r, s') := body (set_compensating true s) in (r, set_compensating (compensating s) s').

(** ** What the client keeps *)

(** Once a read has failed no row is added and none outside a rollback removed. *)
Definition blocked (s : run) : bool :=
  reject_mutations && match destination_unreadable (rep s) with Some _ => true | None => false end && negb (compensating s).

Lemma client_blocked {A} name (call : M run A) s :
  blocked s = true -> has_prefix _DESTINATION_MUTATION_PREFIXES name = true ->
  exists reason, client name call s = (Raise (DestinationUnreadableError name reason), s).
Proof.
  unfold blocked, client, _guarded_mutation. intros H Hn. to_prop. rewrite H, Hn. cbn.
  destruct (destination_unreadable (rep s)) as [reason|]; [|done]. rewrite H0, andb_false_r. by exists reason.
Qed.

(** A value the client returns is the call's; an exception leaves the state of the call, or
    the one before it, with a changed report at most. *)
Lemma client_ok {A} name (call : M run A) s v s' : client name call s = (Ok v, s') -> call s = (Ok v, s').
Proof.
  unfold client, _guarded_mutation, _observed_read, gets, bind, try_except, modify, raise.
  split_goal; unfold raise, bind; naive_solver.
Qed.

Lemma client_raise {A} name (call : M run A) s e s' :
  client name call s = (Raise e, s') ->
  s' = s \/ exists e0 s1 f, call s = (Raise e0, s1) /\ s' = on_report f s1.
Proof.
  assert (Hid : forall s1 : run, s1 = on_report id s1) by now intros [].
  unfold client, _guarded_mutation, _observed_read, gets, bind, try_except, modify, raise.
  split_goal; unfold raise, bind; intros H; simplify_eq; eauto 8.
Qed.

(** A rollback's deletes go through. *)
Lemma client_compensating {A} name (call : M run A) s :
  has_prefix _COMPENSATING_DELETE_PREFIXES name = true -> starts_with "get_" name = false -> compensating s = true ->
  client name call s = call s.
Proof.
  unfold client, _guarded_mutation, gets, bind. intros Hn Hg Hc. rewrite Hg.
  destruct (reject_mutations && _); [|done]. cbv beta iota. change (id s) with s. rewrite Hn, Hc.
  by destruct (destination_unreadable (rep s)).
Qed.

(** A preorder that the call and a report's marks keep, the client keeps. *)
Lemma moves_client (R : run -> run -> Prop) `{!PreOrder R} {A} name (call : M run A) :
  moves R call -> (forall reason s, R s (on_report (mark_destination_unread reason) s)) -> moves R (client name call).
Proof.
  intros Hc Hr. unfold client. destruct (_ && _).
  - unfold _guarded_mutation. apply moves_bind; [done|apply moves_gets; done|]. intros s.
    destruct (destination_unreadable _); [|done]. destruct (_ && _); [done|by apply moves_raise].
  - destruct (negb _); [done|]. apply moves_try; [done..|]. intros e.
    apply moves_bind; [done|by apply moves_modify|]. intros _. by apply moves_raise.
Qed.
End client.

End DestinationRead.
