(* ===== verification/ImportCategory.v ===== *)
(** * The importer of groups and profiles ([backend/dbas/importers/groups_profiles.py]).

    One engine restores four categories, each described by a [CategoryConfig]: archived rows
    that match a destination row by name are adopted, the others created with their references
    rewritten through the remap table, counted in the report and recorded in the ledger. *)
From S2P Require Import Prelude PyValue PyText PyDict PyState RestoreContracts Preflight DestinationRead.
From stdpp Require Import list gmap strings.
Open Scope Z_scope.
Open Scope py_scope.

Module ImportCategory.
Import RestoreContracts Preflight DestinationRead.

Definition _SOURCE_ID_KEYS : list string := ["id"; "pk"].
Definition _NON_CREATE_KEYS : list string :=
  ["channels"; "channel_count"; "channels_count"; "channelprofilemembership_set"; "channel_count_total"; "created_at"; "updated_at"].

Record CategoryConfig := {
  config_type : EntityType; getter : string; creator : string;
  name_payload : bool;   (** [payload_style == "name"] *)
  remappable_fk_fields : list (string * EntityType);
  name_match_skip_reason : SkipReason;
  dry_run_caveat : option string }.

Definition channel_groups : CategoryConfig := {|
  config_type := CHANNEL_GROUP; getter := "get_channel_groups"; creator := "create_channel_group"; name_payload := true;
  remappable_fk_fields := []; name_match_skip_reason := ALREADY_EXISTS_NAME_MATCH;
  dry_run_caveat := Some "Restoring an M3U account makes its provider groups appear before this category runs, so the apply may create far fewer groups than this preview shows and skip the rest. The end state is the same." |}.
Definition server_groups : CategoryConfig := {|
  config_type := SERVER_GROUP; getter := "get_server_groups"; creator := "create_server_group"; name_payload := false;
  remappable_fk_fields := []; name_match_skip_reason := ALREADY_EXISTS_IDENTICAL; dry_run_caveat := None |}.
Definition channel_profiles : CategoryConfig := {|
  config_type := CHANNEL_PROFILE; getter := "get_channel_profiles"; creator := "create_channel_profile"; name_payload := false;
  remappable_fk_fields := []; name_match_skip_reason := ALREADY_EXISTS_IDENTICAL; dry_run_caveat := None |}.
Definition stream_profiles : CategoryConfig := {|
  config_type := STREAM_PROFILE; getter := "get_stream_profiles"; creator := "create_stream_profile"; name_payload := false;
  remappable_fk_fields := [("user_agent", USER_AGENT)]; name_match_skip_reason := ALREADY_EXISTS_IDENTICAL; dry_run_caveat := None |}.

Definition _CATEGORY_CONFIGS : list (string * CategoryConfig) :=
  [("channel_groups", channel_groups); ("server_groups", server_groups); ("channel_profiles", channel_profiles);
   ("stream_profiles", stream_profiles)].

(** ** Names *)

Definition _row_label (archive_row : row) : string :=
  let name := field archive_row "name" in if truthy name then py_str name else "<unknown>".

Definition non_empty (s : string) : option string := if bool_decide (s = "") then None else Some s.
Definition _norm_name (value : pyval) : option string :=
  match value with PStr s => non_empty (lower (strip s)) | _ => None end.
Definition _channel_group_write_name (value : pyval) : option string :=
  match value with PStr s => non_empty (strip s) | _ => None end.

(** [for row in rows or []]: a [dict] is walked by its keys, a string by its characters. *)
Fixpoint characters (s : string) : list pyval :=
  match s with EmptyString => [] | String c s => PStr (String c "") :: characters s end.
Definition not_iterable (v : pyval) : exc :=
  Exc Other "TypeError" (String.concat "" ["'"; match v with PBool _ => "bool" | PInt _ => "int" | _ => "float" end; "' object is not iterable"]).
Definition iterate (rows : pyval) : result exc (list pyval) :=
  if negb (truthy rows) then Ok []
  else match rows with
       | PList l => Ok l
       | PDict d => Ok (map (fun x => PStr x.1) d)
       | PStr s => Ok (characters s)
       | _ => Raise (not_iterable rows)
       end.

(** The rows of a listing that are [dict]s. *)
Definition dict_rows (l : list pyval) : list row := omap (fun v => match v with PDict d => Some d | _ => None end) l.

(** Lowest id first, for rows of one name. *)
Definition add_by_name (index : gmap string row) (r : row) : result exc (gmap string row) :=
  match _norm_name (field r "name") with
  | None => Ok index
  | Some key =>
      match index !! key with
      | None => Ok (<[key := r]> index)
      | Some current =>
          let cur_id := field current "id" in let new_id := field r "id" in
          if is_none new_id then Ok index
          else if is_none cur_id then Ok (<[key := r]> index)
          else let! n := int_value new_id in let! c := int_value cur_id in
               Ok (if n <? c then <[key := r]> index else index)
      end
  end.
Definition _existing_by_name (rows : list row) : result exc (gmap string row) := foldM add_by_name ∅ rows.

(** The rows whose name no other row has, and the names that several have. *)
Definition add_unique (name : row -> option string) (acc : gmap string row * gset string) (r : row) : gmap string row * gset string :=
  let '(index, ambiguous) := acc in
  match name r with
  | None => acc
  | Some n =>
      if bool_decide (n ∈ ambiguous) then acc
      else match index !! n with
           | Some _ => (delete n index, {[n]} ∪ ambiguous)
           | None => (<[n := r]> index, ambiguous)
           end
  end.
Definition raw_name (r : row) : option string := match field r "name" with PStr s => Some s | _ => None end.
Definition _existing_by_raw_name (rows : list row) : gmap string row := (fold_left (add_unique raw_name) rows (∅, ∅)).1.
Definition _channel_groups_by_write_name (rows : list row) : gmap string row * gset string :=
  fold_left (add_unique (fun r => _channel_group_write_name (field r "name"))) rows (∅, ∅).

Record indexes := Indexes {
  existing_by_name : gmap string row; existing_by_raw_name : gmap string row;
  by_write_name : gmap string row; ambiguous_write_names : gset string }.

Definition index_rows (config : CategoryConfig) (rows : list row) : result exc indexes :=
  let! names := _existing_by_name rows in
  let '(written, ambiguous) :=
    if bool_decide (config_type config = CHANNEL_GROUP) then _channel_groups_by_write_name rows else (∅, ∅) in
  Ok (Indexes names (_existing_by_raw_name rows) written ambiguous).

(** The destination row an archived name is: by its trimmed name, its raw name, its lowered
    name, unless several rows have the trimmed one. *)
Definition find_existing (ix : indexes) (name : pyval) : option row :=
  let write_name := _channel_group_write_name name in
  let ambiguous := match write_name with Some n => bool_decide (n ∈ ambiguous_write_names ix) | None => false end in
  match (n ← write_name; by_write_name ix !! n) with
  | Some r => Some r
  | None =>
      if ambiguous then None
      else match (match name with PStr s => existing_by_raw_name ix !! s | _ => None end) with
           | Some r => Some r
           | None => n ← _norm_name name; existing_by_name ix !! n
           end
  end.

(** ** Failures *)

Definition _failure_reason_for (e : exc) : FailureReason :=
  let text := lower (exc_text e) in
  if contains "already exists" text || contains "unique" text || contains "conflict" text then CONFLICT else UPSTREAM_API_ERROR.

Definition _is_channel_group_name_create_race (config : CategoryConfig) (e : exc) : bool :=
  let text := lower (exc_text e) in
  bool_decide (config_type config = CHANNEL_GROUP) && contains "channel group creation failed: 400 -" text
  && contains (char_of 34 ++ "name" ++ char_of 34)%string text && contains "channel group with this name already exists." text.

Definition noun (t : EntityType) : string := py_replace "_" " " (entity_value t).
Definition _sanitize_failure (e : exc) (noun : string) : string :=
  match strip (exc_text e) with
  | EmptyString => String.concat "" ["Upstream rejected the "; noun; " creation request."]
  | s => s
  end.

(** ** The payload *)

Definition source_of (r : row) : row :=
  List.filter (fun x => negb (bool_decide (x.1 ∈ _SOURCE_ID_KEYS ++ _NON_CREATE_KEYS))) r.

(** [inl t]: the reference into [t] does not resolve. *)
Fixpoint rewrite_fks (archive_row : row) (remap : IdRemapTable) (fks : list (string * EntityType)) (payload : row)
    : result exc (EntityType + row) :=
  match fks with
  | [] => Ok (inr payload)
  | (name, t) :: fks =>
      let source_id := field archive_row name in
      if is_none source_id then rewrite_fks archive_row remap fks payload
      else
        let! i := int_value source_id in
        match resolve t i remap with
        | None => Ok (inl t)
        | Some d => rewrite_fks archive_row remap fks (PyDict.d_set name (PInt d) payload)
        end
  end.
Definition _build_create_payload (archive_row : row) (config : CategoryConfig) (remap : IdRemapTable) : result exc (EntityType + row) :=
  rewrite_fks archive_row remap (remappable_fk_fields config) (source_of archive_row).

(** ** The engine *)

Section engine.
Context {U : Upstream} (reject_mutations : bool) (is_dry_run : bool).

Definition _skip (t : EntityType) (reason : SkipReason) (label : string) (source : pyval) : M run unit :=
  modify (on_report (in_category t (count_skip is_dry_run)));;
  do! i := pure (validate_id source) in
  modify (on_report (in_category t (add_skip_detail {| skip_reason := reason; skip_label := label; skip_source := i |}))).

Definition record_failure (t : EntityType) (reason : FailureReason) (label message : string) (source : pyval) : M run unit :=
  modify (on_report (in_category t count_failure));;
  do! i := pure (validate_id source) in
  modify (on_report (in_category t (add_failure_detail
    {| failure_reason := reason; failure_label := label; failure_message := message; failure_source := i |}))).

(** [report.record_dependency_unresolved(...)] *)
Definition record_dependency_unresolved (recorded_under dependency : EntityType) (label : string) (source : pyval) : M run unit :=
  do! reason := gets (fun s => unresolved_reason recorded_under dependency (table s)) in
  _skip recorded_under reason label source;;
  if bool_decide (reason = DEPENDENCY_DESELECTED) then ret tt
  else modify (on_report (with_missing block_entity)).

(** [remap.add(t, int(source), int(destination))] when both are known. *)
Definition remember (t : EntityType) (source destination : pyval) : M run unit :=
  if is_none source || is_none destination then ret tt
  else
    do! s := pure (int_value source) in
    do! d := pure (int_value destination) in
    modify (on_table (add t s d)).

Variable config : CategoryConfig.

Definition list_existing : M run pyval :=
  client reject_mutations (getter config) (reaches (fetch (config_type config))).

Definition call_create (payload : row) : M run pyval :=
  client reject_mutations (creator config)
    (reaches (create_row (config_type config) (if name_payload config then field payload "name" else PDict payload))).

Definition adopt (label : string) (source : pyval) (existing : row) : M run unit :=
  _skip (config_type config) (name_match_skip_reason config) label source;;
  remember (config_type config) source (field existing "id").

Definition record_row (label : string) (source : pyval) (answer : pyval) : M run unit :=
  let dest_id := match answer with PDict d => field d "id" | _ => PNone end in
  modify (on_report (in_category (config_type config) count_created));;
  if is_none dest_id then ret tt
  else
    do! d := pure (int_value dest_id) in
    remember (config_type config) source (PInt d);;
    modify (on_ledger (record_created (config_type config) d label)).

(** The row that a refused create found in place: the only one of the submitted name. *)
Definition relist : M run pyval := try_except list_existing (fun _ => ret (PList [])).
Definition raced_rows (payload : row) (rows : list row) : list row :=
  List.filter (fun r => bool_decide (_channel_group_write_name (field r "name") = _channel_group_write_name (field payload "name"))) rows.

(** A refused create, and the indexes after it. *)
Definition create_failed (ix : indexes) (label : string) (source : pyval) (payload : row) (e : exc) : M run indexes :=
  let refused := record_failure (config_type config) (_failure_reason_for e) label (_sanitize_failure e (noun (config_type config))) source;; ret ix in
  if _is_channel_group_name_create_race config e then
    do! listing := relist in
    do! rows := pure (iterate listing) in
    match raced_rows payload (dict_rows rows) with
    | [raced] =>
        do! ix := pure (index_rows config (dict_rows rows)) in
        adopt label source raced;; ret ix
    | _ => refused
    end
  else refused.

Definition create_one (ix : indexes) (label : string) (source : pyval) (payload : row) : M run indexes :=
  do! answer := attempt (call_create payload) in
  match answer with
  | Raise e => create_failed ix label source payload e
  | Ok v => record_row label source v;; ret ix
  end.

Definition import_row (ix : indexes) (archive_row : row) : M run indexes :=
  let label := _row_label archive_row in
  let source := field archive_row "id" in
  match find_existing ix (field archive_row "name") with
  | Some existing => adopt label source existing;; ret ix
  | None =>
      do! built := gets (fun s => _build_create_payload archive_row config (table s)) in
      do! payload := pure built in
      match payload with
      | inl unresolved_type => record_dependency_unresolved (config_type config) unresolved_type label source;; ret ix
      | inr payload =>
          if is_dry_run then
            modify (on_report (in_category (config_type config) count_would_create));;
            remember (config_type config) source source;; ret ix
          else create_one ix label source payload
      end
  end.

Fixpoint import_rows (ix : indexes) (rows : list row) : M run unit :=
  match rows with
  | [] => ret tt
  | r :: rows => do! ix := import_row ix r in import_rows ix rows
  end.

Definition _import_category (archive_rows : list row) (selected : bool) : M run unit :=
  modify (on_report (in_category (config_type config) id));;
  if negb selected then
    for_each archive_rows (fun r => _skip (config_type config) EXCLUDED_BY_OPERATOR (_row_label r) (field r "id"))
  else
    (match dry_run_caveat config with
     | Some c => if is_dry_run then modify (on_report (in_category (config_type config) (set_caveat c))) else ret tt
     | None => ret tt
     end);;
    do! existing := relist in
    do! rows := pure (iterate existing) in
    do! ix := pure (index_rows config (dict_rows rows)) in
    import_rows ix archive_rows.
End engine.

Definition _BULK_ORDER : list string := ["channel_groups"; "channel_profiles"; "stream_profiles"].

(** [archive.get(key) or []] and [bool(selected.get(key, False))] *)
Definition import_groups_profiles {U : Upstream} (reject_mutations is_dry_run : bool) (archive : list (string * list row))
    (selected : list (string * bool)) : M run unit :=
  for_each _BULK_ORDER (fun key =>
    match PyDict.d_get key _CATEGORY_CONFIGS with
    | Some config => _import_category reject_mutations is_dry_run config (default [] (PyDict.d_get key archive)) (default false (PyDict.d_get key selected))
    | None => ret tt
    end).
End ImportCategory.
