(* ===== verification/RestoreRun.v ===== *)
(** * The restore ([backend/dbas/restore_orchestrator.py]).

    Pre-flight, the ordered steps, the compensating rollback with its durable ledger, the
    deferred phase and the outcome.  The importers of the categories [ImportCategory] does not
    model, the deferred apply, the placeholder rebind and the wait for guide downloads are
    arguments. *)
From S2P Require Import Prelude PyValue PyText PyDict PyState RestoreContracts Preflight DestinationRead ImportCategory.
From stdpp Require Import list gmap strings.
Open Scope Z_scope.
Open Scope py_scope.

Module RestoreRun.
Import RestoreContracts Preflight DestinationRead ImportCategory.

Definition NON_FATAL_FAILURE_CATEGORIES : list EntityType := [USER; LOGO; UPCOMING_RECORDING].

(** The client's delete of each type; a type without one cannot be compensated. *)
Definition _delete_dispatch (t : EntityType) : option string :=
  match t with
  | M3U_ACCOUNT => Some "delete_m3u_account" | EPG_SOURCE => Some "delete_epg_source"
  | CHANNEL_GROUP => Some "delete_channel_group" | CHANNEL_PROFILE => Some "delete_channel_profile"
  | STREAM_PROFILE => Some "delete_stream_profile" | SERVER_GROUP => Some "delete_server_group"
  | CHANNEL => Some "delete_channel" | STREAM => Some "delete_stream" | USER => Some "delete_user"
  | USER_AGENT => Some "delete_user_agent" | DVR_RULE => Some "delete_dvr_rule"
  | UPCOMING_RECORDING => Some "delete_recording" | LOGO => Some "delete_logo"
  | SETTINGS | ECM_SETTINGS => None
  end.

(** ** Outcomes *)

Record RollbackResult := Rolled { complete : bool; compensated_entries : list LedgerEntry; residue : list LedgerEntry }.

Definition _report_has_failures (r : report) : bool := existsb (fun c => 0 <? failed c) (categories r).
Definition _report_has_delivery_shortfall (r : report) : bool :=
  if is_dry_run r then false else match delivery_shortfalls r with [] => false | _ => true end.
Definition outcome_for_unread_destination (r : report) : option RestoreOutcome :=
  if is_dry_run r || match destination_unreadable r with None => true | Some _ => false end then None
  else Some FAILED_ROLLBACK_INCOMPLETE.
Definition compute_outcome (r : report) (failure_occurred : bool) (rollback : option RollbackResult) : RestoreOutcome :=
  match outcome_for_unread_destination r with
  | Some forced => forced
  | None =>
      if negb (failure_occurred || _report_has_failures r) then
        if _report_has_delivery_shortfall r then COMPLETED_WITH_FAILURES else SUCCESS
      else if negb failure_occurred then COMPLETED_WITH_FAILURES
      else match rollback with
           | Some b => if complete b then PARTIAL_FAILED_ROLLED_BACK else FAILED_ROLLBACK_INCOMPLETE
           | None => FAILED_ROLLBACK_INCOMPLETE
           end
  end.

Section run.
Context {U : Upstream} (reject_mutations : bool).

(** ** The ledger's file *)

Definition persist_ledger : M run unit := do! s := gets id in reaches (write_file (led s)).
(** [FileNotFoundError] is the law's [Ok]: nothing was there. *)
Definition delete_ledger : M run unit := reaches remove_file.

(** ** Rollback *)

Definition compensated_one (e : LedgerEntry) : M run unit :=
  modify (on_ledger (mark_compensated (sequence e)));; persist_ledger.

(** [true] when the entry was compensated. *)
Definition compensate (e : LedgerEntry) : M run bool :=
  match _delete_dispatch (entry_type e) with
  | None => ret false
  | Some name =>
      do! r := attempt (client reject_mutations name (reaches (delete_row (entry_type e) (destination_id e)))) in
      match r with
      | Ok _ => compensated_one e;; ret true
      | Raise x => if _is_already_gone x then compensated_one e;; ret true else ret false
      end
  end.

Fixpoint compensate_all (order : list LedgerEntry) (done left : list LedgerEntry) : M run RollbackResult :=
  match order with
  | [] => ret (Rolled (match left with [] => true | _ => false end) done left)
  | e :: order =>
      do! ok := compensate e in
      if ok then compensate_all order (done ++ [e]) left else compensate_all order done (left ++ [e])
  end.

Definition run_rollback : M run RollbackResult :=
  compensation (do! s := gets id in compensate_all (compensation_order (led s)) [] []).

(** ** The steps *)

Record ApplyContext := {
  ctx_plan : ImportPlan; ctx_is_dry_run : bool; ctx_reattach_mode : ChannelReattachMode }.

(** [ctx.flush_ledger()] *)
Definition flush_ledger (ctx : ApplyContext) : M run unit := if ctx_is_dry_run ctx then ret tt else persist_ledger.

(** What a step defers; [None] is the empty list. *)
Definition importer : Type := ApplyContext -> M run (list pyval).
Record ImporterStep := Step { step_type : EntityType; step_importer : option importer; defers : bool }.

Definition note (text : string) : M run unit := modify (on_report (add_note text)).

(** [if not report.is_dry_run:], read when the run comes to it. *)
Definition unless_dry {A} (otherwise : M run A) (body : M run A) : M run A :=
  do! s := gets id in if is_dry_run (rep s) then otherwise else body.

Definition flush_unless_dry : M run unit := unless_dry (ret tt) persist_ledger.

Definition non_fatal_note (t : EntityType) (n : Z) : string :=
  String.concat "" [str_of_Z n; " "; entity_value t;
    " row(s) could not be restored; this category is non-fatal, so the rest of the restore was applied and nothing was rolled back."].

(** The category a fatal failure happened in, and what the steps deferred. *)
Fixpoint apply_steps (ctx : ApplyContext) (non_fatal : list EntityType) (deferred : list pyval) (steps : list ImporterStep)
    : M run (option EntityType * list pyval) :=
  match steps with
  | [] => ret (None, deferred)
  | st :: steps =>
      match step_importer st with
      | None => apply_steps ctx non_fatal deferred steps
      | Some imp =>
          do! r := attempt (imp ctx) in
          match r with
          | Raise _ => flush_unless_dry;; ret (Some (step_type st), deferred)
          | Ok d =>
              let deferred := deferred ++ d in
              flush_unless_dry;;
              modify (on_report (in_category (step_type st) id));;
              do! s := gets id in
              let n := failed (category (step_type st) (rep s)) in
              if 0 <? n then
                if bool_decide (step_type st ∈ non_fatal)
                then note (non_fatal_note (step_type st) n);; apply_steps ctx non_fatal deferred steps
                else ret (Some (step_type st), deferred)
              else apply_steps ctx non_fatal deferred steps
          end
      end
  end.

(** ** What follows them *)

Definition settings_of (r : report) : option category_report :=
  List.find (fun c => bool_decide (entity_type c = SETTINGS)) (categories r).

Definition rollback_phase (t : EntityType) : M run RollbackResult :=
  note (String.concat "" ["restore failed at category "; entity_value t; "; compensating rollback ran."]);;
  do! b := run_rollback in
  note (if complete b
        then String.concat "" ["rollback completed: "; str_of_Z (Z.of_nat (length (compensated_entries b))); " entity/entities removed."]
        else String.concat "" ["rollback INCOMPLETE: "; str_of_Z (Z.of_nat (length (residue b)));
               " entity/entities could not be removed — manual cleanup required."]);;
  do! s := gets id in
  match settings_of (rep s) with
  | None => ret b
  | Some c =>
      (if 0 <? updated c
       then note (String.concat "" ["NOTE: "; str_of_Z (updated c);
              " applied setting(s) were NOT rolled back — settings changes are not compensatable and remain applied."])
       else ret tt);;
      (if existsb (fun d => bool_decide (failure_reason d = DEPENDENCY_MISSING)) (failure_details c)
       then note "NOTE: this restore failed because one or more settings keys in the archive do not exist on this destination (DEPENDENCY_UNRESOLVED) — retrying the same restore will fail the same way. Edit the category selection to exclude Settings, or restore against a destination whose Dispatcharr version has those keys."
       else ret tt);;
      ret b
  end.

Variable deferred_apply_fn : list pyval -> M run (list pyval).
Variable rebind_placeholder_streams : list row -> bool -> M run unit.

Definition deferred_phase (deferred : list pyval) : M run unit :=
  try_except
    (do! applied := deferred_apply_fn deferred in
     match applied with
     | [] => ret tt
     | _ => note (String.concat "" ["deferred auto-sync applied for "; str_of_Z (Z.of_nat (length applied)); " account(s)."])
     end)
    (fun _ => note "deferred auto-sync phase reported an error; entities intact.").

Definition _rebind_placeholders (plan : ImportPlan) (allow_fuzzy : bool) : M run unit :=
  match (c ← plan_category plan CHANNEL; Some (entities c)) with
  | None | Some [] => ret tt
  | Some archive_channels =>
      try_except (rebind_placeholder_streams archive_channels allow_fuzzy)
        (fun _ => note "the post-refresh stream rebind reported an error; verify that each restored channel has a playable stream attached.")
  end.

Definition _record_run_scope (plan : ImportPlan) : M run unit :=
  modify (on_table (record_run_scope (list_to_set (map slice_type (selected_slices plan))))).

Definition settle (plan : ImportPlan) (allow_fuzzy : bool) (failure : option EntityType) (deferred : list pyval)
    : M run (option RollbackResult) :=
  do! rollback := (match failure with
                   | Some t => unless_dry (ret None) (do! b := rollback_phase t in ret (Some b))
                   | None => ret None
                   end) in
  (match failure, deferred with
   | None, _ :: _ => unless_dry (ret tt) (deferred_phase deferred)
   | _, _ => ret tt
   end);;
  unless_dry (modify (on_report (with_missing mark_stream_health_unpredicted)))
    (match failure with None => _rebind_placeholders plan allow_fuzzy | Some _ => ret tt end);;
  ret rollback.

Definition conclude (failed : bool) (rollback : option RollbackResult) : M run unit :=
  do! s := gets id in
  let result := if is_dry_run (rep s) then None else Some (compute_outcome (rep s) failed rollback) in
  modify (on_report (set_outcome result));;
  if bool_decide (result = Some SUCCESS) then delete_ledger else ret tt.

Definition after_steps (plan : ImportPlan) (allow_fuzzy : bool) (failure : option EntityType) (deferred : list pyval) : M run unit :=
  do! rollback := settle plan allow_fuzzy failure deferred in
  conclude (match failure with Some _ => true | None => false end) rollback.

(** Pre-flight and what it lets through. *)
Definition checked_run (plan : ImportPlan) (steps : list ImporterStep) (max_entities_per_category : option Z)
    (mode : ChannelReattachMode) (allow_fuzzy : bool) (non_fatal : option (list EntityType)) : M run unit :=
  do! problems := pure (run_preflight plan (default DEFAULT_MAX_ENTITIES_PER_CATEGORY max_entities_per_category)) in
  match problems with
  | _ :: _ =>
      for_each problems (fun p => note (String.append "pre-flight refused: " (message p)));;
      modify (on_report (set_outcome None))
  | [] =>
      _record_run_scope plan;;
      do! s := gets id in
      let ctx := {| ctx_plan := plan; ctx_is_dry_run := is_dry_run (rep s); ctx_reattach_mode := mode |} in
      do! r := apply_steps ctx (default NON_FATAL_FAILURE_CATEGORIES non_fatal) [] steps in
      after_steps plan allow_fuzzy r.1 r.2
  end.

(** The guardrail: without an explicit confirmation the run is a dry run. *)
Definition guard (confirm_apply : bool) : M run unit :=
  do! s := gets id in
  if negb confirm_apply && negb (is_dry_run (rep s)) then
    modify (on_report force_dry_run);;
    note "apply not confirmed (confirm_apply=False) — produced a counts-only dry-run; no mutation performed."
  else ret tt.

Definition run_restore (plan : ImportPlan) (steps : list ImporterStep) (confirm_apply : bool)
    (max_entities_per_category : option Z) (mode : ChannelReattachMode) (allow_fuzzy : bool)
    (non_fatal : option (list EntityType)) : M run unit :=
  guard confirm_apply;; checked_run plan steps max_entities_per_category mode allow_fuzzy non_fatal.

(** ** The registries *)

(** The importers of [_importer_step_builders] other than the four of [ImportCategory]. *)
Record builders := {
  m3u : importer; ecm_settings : importer; epg : importer; user_agents : importer; dvr_rules : importer;
  upcoming_recordings : importer; settings : importer; users : importer; channels : importer; logos : importer }.

Definition _entities (ctx : ApplyContext) (t : EntityType) : list row :=
  match plan_category (ctx_plan ctx) t with Some c => entities c | None => [] end.
Definition _selected (ctx : ApplyContext) (t : EntityType) : bool :=
  match plan_category (ctx_plan ctx) t with Some c => selected c | None => false end.

(** [_server_groups], [_channel_groups], [_channel_profiles], [_stream_profiles] *)
Definition category_step (config : CategoryConfig) : importer := fun ctx =>
  _import_category reject_mutations (ctx_is_dry_run ctx) config
    (_entities ctx (config_type config)) (_selected ctx (config_type config));; ret [].

Variable wait_for_epg_downloads : list Z -> M run (list row).

Definition _epg_step_with_download_wait (epg_importer : importer) : importer := fun ctx =>
  do! result := epg_importer ctx in
  if ctx_is_dry_run ctx then ret result
  else
    do! s := gets id in
    let created_ids := map destination_id (List.filter (fun e => bool_decide (entry_type e = EPG_SOURCE)) (led s)) in
    match created_ids with
    | [] => ret result
    | _ =>
        do! summaries := wait_for_epg_downloads created_ids in
        for_each summaries (fun summary =>
          if truthy (field summary "completed") then ret tt
          else note (String.concat "" ["EPG source id="; py_str (field summary "epg_source_id");
                 ": EPG data download did not finish within the bounded wait; channel EPG matching may be incomplete."]));;
        ret result
    end.

Definition registry (epg_step : importer) (s : builders) : list ImporterStep :=
  [Step USER_AGENT (Some (user_agents s)) false; Step SERVER_GROUP (Some (category_step server_groups)) false;
   Step M3U_ACCOUNT (Some (m3u s)) true; Step EPG_SOURCE (Some epg_step) false;
   Step CHANNEL_GROUP (Some (category_step channel_groups)) false;
   Step CHANNEL_PROFILE (Some (category_step channel_profiles)) false;
   Step STREAM_PROFILE (Some (category_step stream_profiles)) false; Step SETTINGS (Some (settings s)) false;
   Step ECM_SETTINGS (Some (ecm_settings s)) false; Step USER (Some (users s)) false; Step CHANNEL (Some (channels s)) false;
   Step DVR_RULE (Some (dvr_rules s)) false; Step UPCOMING_RECORDING (Some (upcoming_recordings s)) false;
   Step LOGO (Some (logos s)) false].
Definition default_importer_steps (s : builders) : list ImporterStep := registry (_epg_step_with_download_wait (epg s)) s.
Definition dry_run_importer_steps (s : builders) : list ImporterStep := registry (epg s) s.

(** The state [run_dry_run] starts from: a fresh ledger, the plan's own table. *)
Definition dry_run_state (plan : ImportPlan) (w : world) : run := Run w (new_report true) [] (existing_remap plan) false.
Definition run_dry_run (plan : ImportPlan) (steps : list ImporterStep) (max : option Z) (mode : ChannelReattachMode) : M run unit :=
  run_restore plan steps false max mode true None.
End run.
End RestoreRun.
