(* ===== verification/RestoreTheorems.v ===== *)
(** * What a restore guarantees.

    [keeps h0] is the contract between the orchestrator and an importer: every row of the
    destination was there before the run, is pending in the ledger, or came from a create whose
    answer was lost; and the ledger names no row that was there before.  The engine of
    [ImportCategory] meets it, and under it a rollback that reports completion leaves the rows
    there were. *)
From S2P Require Import Prelude PyValue PyText PyState RestoreContracts Preflight DestinationRead ImportCategory RestoreRun.
From stdpp Require Import relations list gmap sorting strings.
Open Scope Z_scope.
Open Scope py_scope.

Module RestoreTheorems.
Import RestoreContracts Preflight DestinationRead ImportCategory RestoreRun.

(** ** The ledger *)

#[local] Arguments record_created : simpl never.
#[local] Arguments mark_compensated : simpl never.
#[local] Arguments compensation_order : simpl never.
#[local] Arguments delivery_shortfalls : simpl never.

(** The sequence of an entry is its place. *)
Definition numbered_ledger (l : ledger) : Prop := forall i e, l !! i = Some e -> sequence e = Z.of_nat i.

Definition pending_entries (l : ledger) : list LedgerEntry := List.filter (fun e => negb (compensated e)) l.
Definition pending (l : ledger) : gset key := list_to_set (map entry_of (pending_entries l)).

#[local] Arguments pending : simpl never.

Lemma elem_of_pending k l : k ∈ pending l <-> exists e, e ∈ l /\ compensated e = false /\ entry_of e = k.
Proof.
  unfold pending, pending_entries. rewrite elem_of_list_to_set. split.
  - intros (e & -> & He)%Prelude.elem_of_map. apply Prelude.elem_of_list_filter in He as [? H]. to_prop. eauto.
  - intros (e & He & Hc & <-). apply Prelude.elem_of_map_2, Prelude.elem_of_list_filter. by rewrite Hc.
Qed.

Lemma pending_record t i name l : pending (record_created t i name l) = pending l ∪ {[(t, i)]}.
Proof.
  apply set_eq. intros k. rewrite elem_of_union, elem_of_singleton, !elem_of_pending. unfold record_created. split.
  - intros (e & [He| ->%list_elem_of_singleton]%elem_of_app & Hc & <-); [left; eauto|by right].
  - intros [(e & He & Hc & <-)| ->].
    + exists e. split_and!; [apply elem_of_app; by left|done..].
    + exists (Entry (Z.of_nat (length l)) t i name false). split_and!; [|done..]. apply elem_of_app. right. by left.
Qed.

Lemma numbered_record t i name l : numbered_ledger l -> numbered_ledger (record_created t i name l).
Proof.
  intros Hn j e [Hj|[Hj He]]%lookup_app_Some; [by apply Hn|].
  destruct (j - length l)%nat eqn:E; [|done]. injection He as <-. cbn. lia.
Qed.

Lemma lookup_mark n l j : mark_compensated n l !! j =
  (fun e => if sequence e =? n then Entry (sequence e) (entry_type e) (destination_id e) (label e) true else e) <$> l !! j.
Proof. apply list_lookup_fmap. Qed.

Lemma numbered_mark n l : numbered_ledger l -> numbered_ledger (mark_compensated n l).
Proof.
  intros Hn j e. rewrite lookup_mark. destruct (l !! j) as [x|] eqn:Hx; [|done]. intros [= <-].
  specialize (Hn _ _ Hx). by destruct (sequence x =? n).
Qed.

Lemma elem_of_mark n l e : e ∈ mark_compensated n l ->
  exists x, x ∈ l /\ sequence e = sequence x /\ entry_of e = entry_of x /\
    compensated e = compensated x || (sequence x =? n).
Proof.
  intros (x & -> & Hx)%Prelude.elem_of_map. exists x. destruct (sequence x =? n); rewrite ?orb_true_r, ?orb_false_r; done.
Qed.

Lemma pending_mark n l : pending (mark_compensated n l) ⊆ pending l.
Proof.
  intros k (e & (x & Hx & _ & Hk & Hc)%elem_of_mark & Hc' & <-)%elem_of_pending. apply elem_of_pending.
  rewrite Hc in Hc'. to_prop. exists x. by rewrite Hk.
Qed.

Lemma pending_mark_other e l :
  numbered_ledger l -> e ∈ l -> pending l ⊆ pending (mark_compensated (sequence e) l) ∪ {[entry_of e]}.
Proof.
  intros Hn He k (x & Hx & Hc & <-)%elem_of_pending. rewrite elem_of_union, elem_of_singleton.
  destruct (decide (sequence x = sequence e)) as [Hs|Hs].
  - right. apply list_elem_of_lookup in Hx as [i Hi], He as [j Hj].
    pose proof (Hn _ _ Hi). pose proof (Hn _ _ Hj). assert (i = j) as -> by lia. congruence.
  - left. apply elem_of_pending. exists x. split_and!; [|done..].
    apply Prelude.elem_of_map. exists x. split; [|done]. by rewrite (proj2 (Z.eqb_neq _ _)).
Qed.

(** *** The order of compensation *)

Definition newest_first_leb (a b : LedgerEntry) : bool := sequence b <=? sequence a.

Lemma sorted_snoc k e : (forall x, x ∈ k -> sequence x < sequence e) ->
  py_sorted newest_first_leb (k ++ [e]) = e :: py_sorted newest_first_leb k.
Proof.
  induction k as [|x k IH]; intros H; [done|]. cbn. rewrite IH by (intros y Hy; apply H; by right).
  cbn. unfold newest_first_leb at 1. by rewrite (proj2 (Z.leb_gt _ _) (H x ltac:(by left))).
Qed.

Lemma numbered_snoc l e : numbered_ledger (l ++ [e]) ->
  numbered_ledger l /\ sequence e = Z.of_nat (length l) /\ forall x, x ∈ l -> sequence x < sequence e.
Proof.
  intros Hn. assert (He : sequence e = Z.of_nat (length l)) by (apply Hn; by apply list_lookup_middle).
  assert (Hl : numbered_ledger l) by (intros i x Hi; apply Hn; by apply lookup_app_l_Some).
  split_and!; [done..|]. intros x [i Hi]%list_elem_of_lookup. rewrite (Hl _ _ Hi), He.
  apply lookup_lt_Some in Hi. lia.
Qed.

Lemma pending_entries_snoc l e :
  pending_entries (l ++ [e]) = pending_entries l ++ (if compensated e then [] else [e]).
Proof. unfold pending_entries. rewrite List.filter_app. cbn. by destruct (compensated e). Qed.

(** Newest first: the reverse of the order of creation. *)
Lemma compensation_order_rev l : numbered_ledger l -> compensation_order l = rev (pending_entries l).
Proof.
  induction l as [|e l IH] using rev_ind; [done|]. intros (Hn & _ & Hlt)%numbered_snoc.
  change (compensation_order (l ++ [e])) with (py_sorted newest_first_leb (pending_entries (l ++ [e]))).
  rewrite pending_entries_snoc. destruct (compensated e); [rewrite app_nil_r; by apply IH|].
  rewrite sorted_snoc, rev_app_distr; [cbn; f_equal; by apply IH|].
  intros x Hx. apply Hlt. unfold pending_entries in Hx. by apply Prelude.elem_of_list_filter in Hx as [? _].
Qed.

Lemma numbered_NoDup l : numbered_ledger l -> NoDup (map sequence l).
Proof.
  induction l as [|e l IH] using rev_ind; [constructor|]. intros (Hn & _ & Hlt)%numbered_snoc.
  rewrite map_app. apply NoDup_app. split_and!; [by apply IH| |apply NoDup_singleton].
  intros n (x & -> & Hx)%Prelude.elem_of_map Hn'%list_elem_of_singleton. specialize (Hlt _ Hx). lia.
Qed.

Lemma order_NoDup l : numbered_ledger l -> NoDup (map sequence (compensation_order l)).
Proof.
  intros Hn. assert (H : NoDup (map sequence (pending_entries l))).
  { pose proof (numbered_NoDup l Hn) as H. clear Hn. unfold pending_entries. induction l as [|e l IH]; cbn; [constructor|].
    cbn in H. apply NoDup_cons in H as [Hn H]. destruct (negb _); [|by apply IH]. cbn. apply NoDup_cons. split; [|by apply IH].
    intros (x & Hx & Hin)%Prelude.elem_of_map. apply Hn. rewrite Hx.
    apply Prelude.elem_of_list_filter in Hin as [Hin _]. by apply Prelude.elem_of_map_2. }
  by rewrite (Permutation_map sequence (py_sorted_perm newest_first_leb (pending_entries l))).
Qed.

Lemma compensation_order_perm l : compensation_order l ≡ₚ pending_entries l.
Proof. apply py_sorted_perm. Qed.

Lemma elem_of_compensation_order e l : e ∈ compensation_order l <-> e ∈ l /\ compensated e = false.
Proof.
  rewrite (compensation_order_perm l). unfold pending_entries. rewrite Prelude.elem_of_list_filter.
  by rewrite negb_true_iff.
Qed.

Section theorems.
Context {U : Upstream} {L : UpstreamLaws} (reject_mutations : bool).
Implicit Types (s : run).

(** ** Rows and their records *)

Record tracked (h0 : gset key) s : Prop := {
  tracked_kept : h0 ⊆ holdings (dest s);
  tracked_known : holdings (dest s) ⊆ h0 ∪ pending (led s) ∪ lost (dest s);
  tracked_foreign : pending (led s) ## h0;
  tracked_numbered : numbered_ledger (led s) }.

Definition keeps h0 s s' : Prop := tracked h0 s -> tracked h0 s'.
#[local] Instance keeps_preorder h0 : PreOrder (keeps h0).
Proof. split; [by intros s H|intros s1 s2 s3 H1 H2 H; auto]. Qed.

Lemma keeps_report h0 f s : keeps h0 s (on_report f s).
Proof. intros []. by constructor. Qed.
Lemma keeps_table h0 f s : keeps h0 s (on_table f s).
Proof. intros []. by constructor. Qed.

Lemma tracked_rows h0 s w : same_rows (dest s) w -> tracked h0 s -> tracked h0 (on_dest w s).
Proof. intros [Hh Hl] []. constructor; cbn; by rewrite ?Hh, ?Hl. Qed.

Lemma moves_fetch h0 t : moves (keeps h0) (reaches (fetch t)).
Proof.
  intros s H. unfold reaches. pose proof (fetch_reads t (dest s)) as [Hr _]. destruct (fetch t (dest s)) as [r w].
  by apply tracked_rows.
Qed.

Lemma moves_write h0 : moves (keeps h0) persist_ledger.
Proof.
  intros s H. unfold persist_ledger, bind, gets, reaches. cbn.
  destruct (write_file (led s) (dest s)) as [r w] eqn:E. apply write_replaces in E as [Hr _]. by apply tracked_rows.
Qed.

(** ** What the engine keeps *)

(** The reports the engine writes keep the run's flavour and its failed read. *)
Definition keeps_marks (f : report -> report) : Prop := forall r,
  is_dry_run (f r) = is_dry_run r /\ (destination_unreadable r <> None -> destination_unreadable (f r) <> None).

Hint Extern 3 (keeps_marks _) => split; cbn; tauto : moves.

Section engine.
Context (R : run -> run -> Prop) {pre : PreOrder R} (dry : bool) (config : CategoryConfig).
Hypothesis (report_step : forall f s, keeps_marks f -> R s (on_report f s)) (table_step : forall f s, R s (on_table f s))
  (fetch_step : moves R (reaches (fetch (config_type config)))).

#[local] Hint Resolve pre report_step table_step fetch_step : moves.

Lemma skip_moves t reason label source : moves R (_skip dry t reason label source).
Proof. unfold _skip. auto 10 with moves. Qed.
Lemma failure_moves t reason label text source : moves R (record_failure t reason label text source).
Proof. unfold record_failure. auto 10 with moves. Qed.
Lemma remember_moves t a b : moves R (remember t a b).
Proof. unfold remember. destruct (_ || _); auto 10 with moves. Qed.
#[local] Hint Resolve skip_moves failure_moves remember_moves : moves.

Lemma mark_keeps reason : keeps_marks (mark_destination_unread reason).
Proof. intros r. split; [done|]. cbn. by destruct (destination_unreadable r). Qed.
#[local] Hint Resolve mark_keeps : moves.

Lemma relist_moves : moves R (relist reject_mutations config).
Proof. unfold relist, list_existing. apply moves_try; [done|apply moves_client|]; auto with moves. Qed.
#[local] Hint Resolve relist_moves : moves.

Lemma adopt_moves label source existing : moves R (adopt dry config label source existing).
Proof. unfold adopt. auto with moves. Qed.
#[local] Hint Resolve adopt_moves : moves.

Lemma create_failed_moves ix label source payload e :
  moves R (create_failed reject_mutations dry config ix label source payload e).
Proof.
  unfold create_failed. destruct (_is_channel_group_name_create_race config e); [|auto 10 with moves].
  apply moves_bind; [done|auto with moves|]. intros listing. apply moves_bind; [done|auto with moves|]. intros rows.
  destruct (raced_rows _ _) as [|raced [|]]; auto 15 with moves.
Qed.

Lemma rows_moves rows : forall ix,
  (dry = false -> forall r ix payload, r ∈ rows ->
     moves R (create_one reject_mutations dry config ix (_row_label r) (field r "id") payload)) ->
  moves R (import_rows reject_mutations dry config ix rows).
Proof.
  induction rows as [|r rows IH]; intros ix Hc; cbn [import_rows]; [auto with moves|].
  apply moves_bind; [done| |intros ix'; apply IH; intros Hd r' ix2 p Hr; apply Hc; [done|by right]].
  unfold import_row. destruct (find_existing _ _); [auto 10 with moves|].
  apply moves_bind; [done|auto with moves|]. intros s0. apply moves_bind; [done|auto with moves|].
  intros [u|payload]; [unfold record_dependency_unresolved; apply moves_bind; [done| |auto with moves]|].
  - apply moves_bind; [done|auto with moves|]. intros s1. apply moves_bind; [done|auto with moves|].
    intros _. case_bool_decide; auto with moves.
  - destruct dry; [auto 10 with moves|]. apply Hc; [done|by left].
Qed.

(** The engine keeps what its reads, reports and mappings keep, if a create with its record
    does. *)
Lemma category_moves rows selected :
  (dry = false -> forall r ix payload, r ∈ rows ->
     moves R (create_one reject_mutations dry config ix (_row_label r) (field r "id") payload)) ->
  moves R (_import_category reject_mutations dry config rows selected).
Proof.
  intros Hc. unfold _import_category. apply moves_bind; [done|auto with moves|]. intros _.
  destruct (negb selected); [apply moves_for; [done|auto with moves]|].
  apply moves_bind; [done|destruct (dry_run_caveat config), dry; auto with moves|]. intros _.
  apply moves_bind; [done|auto with moves|]. intros existing. apply moves_bind; [done|auto with moves|]. intros l.
  apply moves_bind; [done|auto with moves|]. intros ix. by apply rows_moves.
Qed.
End engine.

(** ** The engine meets the contract *)

Hint Resolve keeps_report keeps_table keeps_preorder moves_fetch moves_write : moves.

(** A row that the create added and the ledger does not have yet. *)
Definition owed (h0 : gset key) (k : key) s : Prop :=
  h0 ⊆ holdings (dest s) /\ holdings (dest s) ⊆ h0 ∪ pending (led s) ∪ lost (dest s) ∪ {[k]} /\
  pending (led s) ## h0 /\ (k ∉ h0) /\ numbered_ledger (led s).

Lemma create_owes h0 config payload s v s' :
  tracked h0 s -> call_create reject_mutations config payload s = (Ok v, s') ->
  exists d i, v = PDict d /\ field d "id" = PInt i /\ owed h0 (config_type config, i) s'.
Proof.
  intros [] H. apply client_ok in H. unfold reaches in H. destruct (create_row _ _ _) as [r w] eqn:E. injection H as -> <-.
  apply create_answers in E as (d & i & -> & Hi & Hfresh & Hh & Hl). exists d, i. unfold field. rewrite Hi.
  split_and!; [done..|]. unfold owed. cbn. rewrite Hh, Hl. split_and!; [set_solver..|done].
Qed.

Lemma create_keeps h0 config payload s e s' :
  tracked h0 s -> call_create reject_mutations config payload s = (Raise e, s') -> tracked h0 s'.
Proof.
  intros H0 H. apply client_raise in H as [->|(e0 & s1 & f & H & ->)]; [done|]. apply keeps_report.
  unfold reaches in H. destruct (create_row _ _ _) as [r w] eqn:E. injection H as -> <-.
  apply create_refused in E as [Hr|(_ & i & Hi & Hh & Hl)]; [by apply tracked_rows|].
  destruct H0. constructor; cbn; [rewrite Hh; set_solver..|done|done].
Qed.

(** The id of an archived row, if any, is a number. *)
Definition numbered (r : row) : bool := is_none (field r "id") || is_ok (int_value (field r "id")).

Lemma record_row_pays h0 config label r v d i s :
  numbered r = true -> v = PDict d -> field d "id" = PInt i -> owed h0 (config_type config, i) s ->
  tracked h0 (record_row config label (field r "id") v s).2.
Proof.
  intros Hn -> Hi (H1 & H2 & H3 & H4 & H5). unfold record_row. rewrite Hi. unfold bind, modify, remember. cbn.
  assert (Hpay : forall f g, tracked h0 (on_ledger (record_created (config_type config) i label) (on_table f (on_report g s)))).
  { clear Hn. intros f g. constructor; cbn; rewrite ?pending_record; [done| | |by apply numbered_record].
    - clear - H2. intros k Hk. specialize (H2 k Hk). set_solver.
    - clear - H3 H4. set_solver. }
  unfold numbered in Hn. destruct (is_none (field r "id")) eqn:En; cbn in *.
  - specialize (Hpay id). unfold on_table in Hpay. cbn in Hpay. apply Hpay.
  - destruct (int_value (field r "id")) as [z|]; [|done]. cbn. apply Hpay.
Qed.

Lemma create_one_keeps h0 dry config ix r payload :
  numbered r = true -> moves (keeps h0) (create_one reject_mutations dry config ix (_row_label r) (field r "id") payload).
Proof.
  intros Hn s H. unfold create_one, bind, attempt.
  destruct (call_create reject_mutations config payload s) as [[v|e] s'] eqn:E.
  - destruct (create_owes _ _ _ _ _ _ H E) as (d & i & Hv & Hi & Ho).
    pose proof (record_row_pays h0 config (_row_label r) r v d i s' Hn Hv Hi Ho) as Hp.
    by destruct (record_row _ _ _ _ _) as [[]].
  - refine (create_failed_moves (keeps h0) dry config _ _ _ ix _ _ payload e s' _); [auto with moves..|by eapply create_keeps].
Qed.

Lemma import_category_keeps h0 dry config rows selected :
  forallb numbered rows = true -> moves (keeps h0) (_import_category reject_mutations dry config rows selected).
Proof.
  intros Hn. apply category_moves; auto with moves. intros _ r ix payload Hr. apply create_one_keeps.
  rewrite forallb_forall in Hn. apply Hn. by apply list_elem_of_In.
Qed.

(** ** Rollback *)

Lemma dispatch_names t name : _delete_dispatch t = Some name ->
  has_prefix _COMPENSATING_DELETE_PREFIXES name = true /\ starts_with "get_" name = false.
Proof. by destruct t; intros [= <-]. Qed.

(** What a rollback keeps while it works through [order]: the entries left are pending, the
    rows are tracked, and its deletes are let through. *)
Record rolling h0 (order : list LedgerEntry) s : Prop := {
  rolling_tracked : tracked h0 s;
  rolling_scope : compensating s = true;
  rolling_pending : forall e, e ∈ order -> e ∈ led s /\ compensated e = false }.

Lemma tracked_delete h0 e s w' :
  tracked h0 s -> e ∈ led s -> compensated e = false ->
  holdings w' ⊆ holdings (dest s) -> holdings (dest s) ∖ {[entry_of e]} ⊆ holdings w' -> lost w' = lost (dest s) ->
  tracked h0 (on_dest w' s).
Proof.
  intros [] He Hc H1 H2 Hl. assert (entry_of e ∈ pending (led s)) by (apply elem_of_pending; eauto).
  constructor; cbn; rewrite ?Hl; [|by etransitivity|done|done]. intros k Hk. apply H2, elem_of_difference.
  split; [auto|]. intros ->%elem_of_singleton. by eapply tracked_foreign0.
Qed.

Lemma tracked_mark h0 e s :
  tracked h0 s -> e ∈ led s -> (entry_of e ∉ holdings (dest s)) -> tracked h0 (on_ledger (mark_compensated (sequence e)) s).
Proof.
  intros [] He Hh. pose proof (pending_mark (sequence e) (led s)). pose proof (pending_mark_other _ _ tracked_numbered0 He).
  constructor; cbn; [done| | |by apply numbered_mark]; [|set_solver].
  intros k Hk. assert (k <> entry_of e) by (by intros ->). specialize (tracked_known0 k Hk).
  rewrite !elem_of_union in *. specialize (H0 k). rewrite elem_of_union, elem_of_singleton in H0. tauto.
Qed.

(** The entry of another sequence is still there, pending, after a mark. *)
Lemma mark_other x n l : x ∈ l -> sequence x <> n -> x ∈ mark_compensated n l.
Proof. intros Hx Hn. apply Prelude.elem_of_map. exists x. split; [|done]. by rewrite (proj2 (Z.eqb_neq _ _)). Qed.

Lemma compensate_step h0 e order s r s' :
  rolling h0 (e :: order) s -> (forall x, x ∈ order -> sequence x <> sequence e) ->
  compensate reject_mutations e s = (Ok r, s') ->
  rolling h0 order s' /\ led s' = (if r then mark_compensated (sequence e) (led s) else led s).
Proof.
  intros [Ht Hs Hp] Hne. destruct (Hp e) as [He Hc]; [by left|]. unfold compensate.
  destruct (_delete_dispatch (entry_type e)) as [name|] eqn:En.
  2:{ intros [= <- <-]. split; [|done]. constructor; [done..|]. intros x Hx. apply Hp. by right. }
  destruct (dispatch_names _ _ En) as [Hpre Hget]. unfold bind, attempt. rewrite client_compensating by done. unfold reaches.
  destruct (delete_row (entry_type e) (destination_id e) (dest s)) as [d w] eqn:Ed.
  pose proof (delete_frame (entry_type e) (destination_id e) (dest s)) as (Hsub & Hsup & Hlost & _). rewrite Ed in *. cbn in Hsub, Hsup, Hlost.
  pose proof (tracked_delete _ _ _ _ Ht He Hc Hsub Hsup Hlost) as Ht'.
  assert (Hgone : forall w2 r2, holdings w = holdings (dest s) ∖ {[entry_of e]} ->
    compensated_one e (on_dest w s) = (r2, w2) -> rolling h0 order w2 /\ led w2 = mark_compensated (sequence e) (led s)).
  { intros w2 r2 Hh E. unfold compensated_one, bind, modify in E. cbn in E.
    assert (Ht2 : tracked h0 (on_ledger (mark_compensated (sequence e)) (on_dest w s))).
    { apply tracked_mark; [done..|]. cbn. rewrite Hh. set_solver. }
    unfold persist_ledger, bind, gets, reaches in E. cbn in E. destruct (write_file _ _) as [r3 w3] eqn:Ew.
    injection E as <- <-. apply write_replaces in Ew as [Hr _]. split; [|done]. constructor; [exact (tracked_rows h0 (on_ledger (mark_compensated (sequence e)) (on_dest w s)) w3 Hr Ht2)|done|].
    intros x Hx. destruct (Hp x) as [Hin Hcx]; [by right|]. split; [|done]. cbn. apply mark_other; [done|by apply Hne]. }
  destruct d as [[]|x]; cbv beta iota.
  - destruct (compensated_one e (on_dest w s)) as [[[]|] s2] eqn:E; [|done]. intros [= <- <-]. apply (Hgone s2 (Ok tt)); [|reflexivity].
    by apply (delete_removes _ _ _ _ _ Ed).
  - destruct (_is_already_gone x) eqn:Eg.
    + destruct (compensated_one e (on_dest w s)) as [[[]|] s2] eqn:E; [|done]. intros [= <- <-]. apply (Hgone s2 (Ok tt)); [|reflexivity].
      by apply (delete_removes _ _ _ _ _ Ed).
    + intros [= <- <-]. split; [|done]. constructor; [done..|]. intros y Hy. apply Hp. by right.
Qed.

(** The pending entries are those of [order] and [left]; both keep their places. *)
Lemma compensate_all_spec h0 order : forall done left s b s',
  rolling h0 order s -> NoDup (map sequence order) ->
  compensate_all reject_mutations order done left s = (Ok b, s') ->
  tracked h0 s' /\ exists done' left', compensated_entries b = done ++ done' /\ residue b = left ++ left' /\
    complete b = (match residue b with [] => true | _ => false end) /\ order ≡ₚ done' ++ left' /\
    left' = List.filter (fun e => negb (bool_decide (sequence e ∈ map sequence done'))) order /\
    led s' = fold_left (fun l e => mark_compensated (sequence e) l) done' (led s).
Proof.
  induction order as [|e order IH]; intros done left s b s' Hr Hnd; cbn [compensate_all].
  { intros [= <- <-]. split; [apply Hr|]. exists [], []. rewrite !app_nil_r. done. }
  cbn in Hnd. apply NoDup_cons in Hnd as [Hn Hnd]. unfold bind.
  destruct (compensate reject_mutations e s) as [[r|x] s1] eqn:E; [|done].
  apply (compensate_step h0 e order) in E as [Hr1 Hl1]; [|done|].
  2:{ intros x Hx Hs. apply Hn. rewrite <- Hs. by apply Prelude.elem_of_map_2. }
  destruct r; intros H; apply IH in H; try done.
  - destruct H as (Ht & done' & left' & Hd & Hl & Hc & Hp & Hfil & Hled). split; [done|]. exists (e :: done'), left'.
    split_and!; [by rewrite Hd, <- app_assoc|done|done|by rewrite Hp| |by rewrite Hled, Hl1].
    cbn. rewrite bool_decide_true by by left. cbn. rewrite Hfil. apply filter_ext_in. intros x Hx%list_elem_of_In.
    f_equal. apply bool_decide_ext. rewrite elem_of_cons. assert (sequence x <> sequence e) by
      (intros E; apply Hn; rewrite <- E; by apply Prelude.elem_of_map_2). tauto.
  - destruct H as (Ht & done' & left' & Hd & Hl & Hc & Hp & Hfil & Hled). split; [done|]. exists done', (e :: left').
    split_and!; [done|by rewrite Hl, <- app_assoc|done|by rewrite Hp, Permutation_middle| |by rewrite Hled, Hl1].
    cbn. rewrite bool_decide_false; [by rewrite Hfil at 1|]. intros (x & Hx & Hin)%Prelude.elem_of_map. apply Hn. rewrite Hx.
    apply Prelude.elem_of_map_2. rewrite Hp. apply elem_of_app. by left.
Qed.

Lemma pending_entries_mark n l :
  pending_entries (mark_compensated n l) = List.filter (fun e => negb (sequence e =? n)) (pending_entries l).
Proof.
  unfold pending_entries, mark_compensated. induction l as [|e l IH]; [done|]. cbn.
  destruct (sequence e =? n) eqn:E, (compensated e) eqn:Ec; cbn; rewrite ?E, ?Ec; cbn; by rewrite IH.
Qed.

Lemma pending_entries_marks done' : forall l,
  pending_entries (fold_left (fun l e => mark_compensated (sequence e) l) done' l) =
  List.filter (fun e => negb (bool_decide (sequence e ∈ map sequence done'))) (pending_entries l).
Proof.
  induction done' as [|e d IH]; intros l; cbn [fold_left map].
  { induction (pending_entries l) as [|x k IHk]; [done|]. cbn. by rewrite <- IHk at 1. }
  rewrite IH, pending_entries_mark. induction (pending_entries l) as [|x k IHk]; [done|]. cbn.
  destruct (sequence x =? sequence e) eqn:E; to_prop; cbn.
  - rewrite (bool_decide_true (sequence x ∈ _)) by (rewrite E; by left). cbn. exact IHk.
  - rewrite IHk. replace (bool_decide (sequence x ∈ sequence e :: map sequence d)) with (bool_decide (sequence x ∈ map sequence d)); [done|].
    apply bool_decide_ext. rewrite elem_of_cons. tauto.
Qed.

Lemma numbered_marks done' : forall l, numbered_ledger l ->
  numbered_ledger (fold_left (fun l e => mark_compensated (sequence e) l) done' l).
Proof. induction done' as [|e d IH]; intros l Hl; [done|]. cbn. by apply IH, numbered_mark. Qed.

Lemma run_rollback_spec h0 s b s' :
  tracked h0 s -> run_rollback reject_mutations s = (Ok b, s') ->
  tracked h0 s' /\ compensation_order (led s') = residue b /\
  compensated_entries b ++ residue b ≡ₚ compensation_order (led s) /\
  complete b = (match residue b with [] => true | _ => false end).
Proof.
  intros Ht. unfold run_rollback, compensation, bind, gets. cbn.
  destruct (compensate_all _ _ [] [] _) as [[r|] s1] eqn:E; [|done]. intros [= <- <-].
  pose proof (tracked_numbered _ _ Ht) as Hn.
  apply (compensate_all_spec h0) in E; [|constructor; [by destruct Ht|done|]|by apply order_NoDup].
  2:{ intros e He. by apply elem_of_compensation_order. }
  destruct E as (Ht1 & done' & left' & Hd & Hl & Hc & Hp & Hfil & Hled). cbn in Hd, Hl, Hled.
  split_and!; [by destruct Ht1| |by rewrite Hd, Hl, Hp|done]. change (led (set_compensating (compensating s) s1)) with (led s1).
  rewrite compensation_order_rev by (rewrite Hled; by apply numbered_marks).
  rewrite Hled, pending_entries_marks, Hl, Hfil, compensation_order_rev, filter_rev by done. done.
Qed.

(** Nothing of the run is left: no entry pending, the rows there were, and at most those of
    lost answers. *)
Definition undone h0 s : Prop :=
  compensation_order (led s) = [] /\ h0 ⊆ holdings (dest s) /\ holdings (dest s) ⊆ h0 ∪ lost (dest s).

Lemma pending_nil l : compensation_order l = [] -> pending l = ∅.
Proof.
  intros H. apply set_eq. intros k. split; [|set_solver]. intros (e & He & Hc & _)%elem_of_pending.
  assert (Hin : e ∈ compensation_order l) by by apply elem_of_compensation_order. rewrite H in Hin. by apply elem_of_nil in Hin.
Qed.

Lemma tracked_undone h0 s : tracked h0 s -> compensation_order (led s) = [] -> undone h0 s.
Proof.
  intros [] H. pose proof (pending_nil _ H) as Hp. split; [done|]. split; [done|]. rewrite Hp in tracked_known0. set_solver.
Qed.

(** A rollback deletes the pending entries newest first, in the reverse of the order they
    were created in.  What it could not compensate is exactly what the ledger still has
    pending, in the order a resumed rollback will take it; when there is nothing the rows that
    were there before the run are the rows there are, and running it again does nothing. *)
Theorem rollback_newest_first h0 s b s' :
  tracked h0 s -> run_rollback reject_mutations s = (Ok b, s') ->
  compensation_order (led s) = rev (pending_entries (led s)) /\
  compensated_entries b ++ residue b ≡ₚ compensation_order (led s) /\
  compensation_order (led s') = residue b /\
  (complete b = true -> undone h0 s' /\ run_rollback reject_mutations s' = (Ok (Rolled true [] []), s')).
Proof.
  intros Ht H. destruct (run_rollback_spec h0 s b s' Ht H) as (Ht' & Ho & Hp & Hc).
  split_and!; [apply compensation_order_rev, Ht|done|done|]. rewrite Hc. destruct (residue b); [|done]. intros _.
  split; [by apply tracked_undone|]. unfold run_rollback, compensation, bind, gets. cbn. rewrite Ho. cbn. by destruct s'.
Qed.

(** ** The run *)

(** The steps of groups and profiles meet the contract when the archived ids are numbers. *)
Lemma category_step_keeps h0 config ctx :
  forallb numbered (_entities ctx (config_type config)) = true -> moves (keeps h0) (category_step reject_mutations config ctx).
Proof. intros Hn. unfold category_step. apply moves_bind; [apply _|by apply import_category_keeps|auto with moves]. Qed.

(** An importer that records what it creates: one of [ImportCategory]'s, on archived rows whose
    ids are numbers, or another of which it is taken. *)
Inductive recording h0 (plan : ImportPlan) : importer -> Prop :=
| records_category config :
    forallb numbered (match plan_category plan (config_type config) with Some c => entities c | None => [] end) = true ->
    recording h0 plan (category_step reject_mutations config)
| records_other imp : (forall ctx, ctx_plan ctx = plan -> moves (keeps h0) (imp ctx)) -> recording h0 plan imp.

Lemma recording_keeps h0 imp ctx : recording h0 (ctx_plan ctx) imp -> moves (keeps h0) (imp ctx).
Proof. intros [config Hn|imp' H]; [by apply category_step_keeps|by apply H]. Qed.

(** Every importer of a registry records what it creates. *)
Definition tracking h0 (plan : ImportPlan) (steps : list ImporterStep) : Prop :=
  forall st imp, st ∈ steps -> step_importer st = Some imp -> recording h0 plan imp.

Lemma moves_flush h0 : moves (keeps h0) flush_unless_dry.
Proof. unfold flush_unless_dry. apply moves_bind; [apply _|auto with moves|]. intros s. destruct (is_dry_run _); auto with moves. Qed.

Lemma moves_note h0 text : moves (keeps h0) (note text).
Proof. unfold note. auto with moves. Qed.
Hint Resolve moves_flush moves_note : moves.

Lemma apply_steps_keeps h0 ctx nf steps : forall deferred,
  tracking h0 (ctx_plan ctx) steps -> moves (keeps h0) (apply_steps ctx nf deferred steps).
Proof.
  induction steps as [|st steps IH]; intros deferred Hs; cbn [apply_steps]; [auto with moves|].
  assert (IH' : forall d, moves (keeps h0) (apply_steps ctx nf d steps)).
  { intros d. apply IH. intros st' imp Hin. apply Hs. by right. }
  destruct (step_importer st) as [imp|] eqn:Ei; [|done].
  apply moves_bind; [apply _|apply moves_attempt, recording_keeps, (Hs st); [by left|done]|]. intros [d|e]; [|auto 10 with moves].
  apply moves_bind; [apply _|auto with moves|]. intros _. apply moves_bind; [apply _|auto with moves|]. intros _.
  apply moves_bind; [apply _|auto with moves|]. intros s1. destruct (_ <? _); [|done].
  case_bool_decide; auto 10 with moves.
Qed.

Lemma note_eq text s : note text s = (Ok tt, on_report (add_note text) s).
Proof. reflexivity. Qed.

Lemma bind_note {B} text (k : unit -> M run B) s : bind (note text) k s = k tt (on_report (add_note text) s).
Proof. reflexivity. Qed.

Lemma rollback_phase_spec h0 t s b s' :
  tracked h0 s -> rollback_phase reject_mutations t s = (Ok b, s') ->
  tracked h0 s' /\ compensation_order (led s') = residue b /\ complete b = (match residue b with [] => true | _ => false end).
Proof.
  intros Ht. unfold rollback_phase. rewrite bind_note. unfold bind at 1.
  destruct (run_rollback _ _) as [[b1|] s1] eqn:E; [|done].
  apply (run_rollback_spec h0) in E as (Ht1 & Ho & _ & Hc); [|by apply keeps_report].
  rewrite bind_note. unfold bind, gets. cbn -[settings_of]. destruct (settings_of _) as [c|]; cbn.
  2:{ intros [= <- <-]. split_and!; [by apply keeps_report|done..]. }
  destruct (0 <? updated c), (existsb _ _); rewrite ?note_eq; cbn; intros [= <- <-];
    (split_and!; [by repeat apply keeps_report|done..]).
Qed.

Lemma no_failure_outcome r rb : compute_outcome r false rb <> PARTIAL_FAILED_ROLLED_BACK.
Proof.
  unfold compute_outcome, outcome_for_unread_destination. destruct (_ || _); [|discriminate]. cbn.
  destruct (_report_has_failures r), (_report_has_delivery_shortfall r); discriminate.
Qed.

Lemma partial_outcome r rb : compute_outcome r true rb = PARTIAL_FAILED_ROLLED_BACK -> exists b, rb = Some b /\ complete b = true.
Proof.
  unfold compute_outcome. destruct (outcome_for_unread_destination r) eqn:E.
  { intros ->. unfold outcome_for_unread_destination in E. by destruct (_ || _). }
  cbn. destruct rb as [b|]; [|done]. destruct (complete b) eqn:Hc; [eauto|done].
Qed.

Section after.
Variable deferred_apply_fn : list pyval -> M run (list pyval).
Variable rebind : list row -> bool -> M run unit.
#[local] Abbreviation after_steps := (after_steps reject_mutations deferred_apply_fn rebind).
#[local] Abbreviation run_restore := (run_restore reject_mutations deferred_apply_fn rebind).

Lemma conclude_spec failed rb s s' : conclude failed rb s = (Ok tt, s') ->
  led s' = led s /\ outcome (rep s') = (if is_dry_run (rep s) then None else Some (compute_outcome (rep s) failed rb)) /\
  is_dry_run (rep s') = is_dry_run (rep s) /\ categories (rep s') = categories (rep s) /\
  destination_unreadable (rep s') = destination_unreadable (rep s) /\ missing (rep s') = missing (rep s) /\
  (outcome (rep s') <> Some SUCCESS -> dest s' = dest s) /\
  (outcome (rep s') = Some SUCCESS -> same_rows (dest s) (dest s') /\ saved (dest s') = None).
Proof.
  unfold conclude, delete_ledger, reaches, bind, gets, modify. cbn. case_bool_decide as Hr; cbn.
  - destruct (remove_file _) as [r w] eqn:E. intros [= -> <-]. apply remove_removes in E as [Hrows Hs]. by split_and!.
  - intros [= <-]. by split_and!.
Qed.

Lemma no_failure_settles plan fuzzy d s s' :
  after_steps plan fuzzy None d s = (Ok tt, s') -> exists s1, conclude false None s1 = (Ok tt, s').
Proof.
  unfold RestoreRun.after_steps, settle. intros H. unfold bind at 1 in H. destruct (bind _ _ s) as [[rb|] s1] eqn:E; [|done].
  exists s1. replace rb with (None (A := RollbackResult)) in H; [done|]. unfold bind, ret in E. cbn in E.
  repeat (case_hyp E; try discriminate); by injection E.
Qed.

Lemma failure_settles plan fuzzy t d s s' :
  is_dry_run (rep s) = false -> after_steps plan fuzzy (Some t) d s = (Ok tt, s') ->
  exists b s1 f, rollback_phase reject_mutations t s = (Ok b, s1) /\ conclude true (Some b) (on_report f s1) = (Ok tt, s').
Proof.
  intros Hd. unfold RestoreRun.after_steps, settle, unless_dry, bind, gets. cbn -[rollback_phase]. rewrite Hd.
  destruct (rollback_phase reject_mutations t s) as [[b|] s1]; [|done]. cbn. intros H. exists b, s1.
  destruct d; cbn in H; (destruct (is_dry_run (rep s1)); [eexists; split; [done|exact H]|exists id; split; [done|by destruct s1]]).
Qed.

Lemma guard_eq confirm s : exists f, guard confirm s = (Ok tt, on_report f s) /\
  is_dry_run (f (rep s)) = negb confirm || is_dry_run (rep s).
Proof.
  unfold guard, bind at 1, gets. cbv beta iota. change (id s) with s.
  destruct confirm; [exists id; by destruct s|]. destruct (is_dry_run (rep s)) eqn:E; [exists id; by destruct s|].
  by exists (fun r => add_note "apply not confirmed (confirm_apply=False) — produced a counts-only dry-run; no mutation performed." (force_dry_run r)).
Qed.

Lemma notes_eq (l : list PreflightProblem) : forall s, exists f,
  for_each l (fun p => note (String.append "pre-flight refused: " (message p))) s = (Ok tt, on_report f s).
Proof.
  induction l as [|p l IH]; intros s; [by exists id; destruct s|]. cbn [for_each]. rewrite bind_note.
  destruct (IH (on_report (add_note (String.append "pre-flight refused: " (message p))) s)) as [f ->].
  by exists (fun r => f (add_note (String.append "pre-flight refused: " (message p)) r)).
Qed.

(** A run that returns was refused, or ran its steps and what follows. *)
Inductive ran plan steps max fuzzy nf (s : run) (s' : run) : Prop :=
| ran_refused f p l :
    run_preflight plan (default DEFAULT_MAX_ENTITIES_PER_CATEGORY max) = Ok (p :: l) ->
    s' = on_report f s -> outcome (rep s') = None -> ran plan steps max fuzzy nf s s'
| ran_through g ctx r s2 :
    run_preflight plan (default DEFAULT_MAX_ENTITIES_PER_CATEGORY max) = Ok [] ->
    ctx_plan ctx = plan -> ctx_is_dry_run ctx = is_dry_run (rep s) ->
    apply_steps ctx (default NON_FATAL_FAILURE_CATEGORIES nf) [] steps (on_table g s) = (Ok r, s2) ->
    after_steps plan fuzzy r.1 r.2 s2 = (Ok tt, s') -> ran plan steps max fuzzy nf s s'.

Lemma checked_run_ran plan steps max mode fuzzy nf s s' :
  checked_run reject_mutations deferred_apply_fn rebind plan steps max mode fuzzy nf s = (Ok tt, s') ->
  ran plan steps max fuzzy nf s s'.
Proof.
  unfold checked_run, bind at 1, pure. destruct (run_preflight plan _) as [[|p l]|] eqn:Hp; [| |done].
  - unfold _record_run_scope, bind at 1, modify, bind at 1, gets. cbv beta iota zeta. unfold bind.
    destruct (apply_steps _ _ _ _ _) as [[r|] s2] eqn:E; [|done]. intros H.
    eapply ran_through; [exact Hp| | |exact E|exact H]; reflexivity.
  - unfold bind. destruct (notes_eq (p :: l) s) as [f Hf]. rewrite Hf. intros [= <-].
    by apply (ran_refused _ _ _ _ _ _ _ (fun r => set_outcome None (f r)) p l Hp).
Qed.

(** A run that returns did so from the state of its flavour. *)
Lemma run_restore_ran plan steps confirm max mode fuzzy nf s s' :
  run_restore plan steps confirm max mode fuzzy nf s = (Ok tt, s') ->
  exists f, is_dry_run (f (rep s)) = negb confirm || is_dry_run (rep s) /\ ran plan steps max fuzzy nf (on_report f s) s'.
Proof.
  destruct (guard_eq confirm s) as (f & Hg & Hd). unfold RestoreRun.run_restore. unfold bind at 1. rewrite Hg.
  intros H. exists f. split; [done|]. by eapply checked_run_ran.
Qed.

Lemma after_dry plan fuzzy failure d s :
  is_dry_run (rep s) = true ->
  after_steps plan fuzzy failure d s =
    (Ok tt, on_report (fun r => set_outcome None (with_missing mark_stream_health_unpredicted r)) s).
Proof.
  intros Hd. unfold RestoreRun.after_steps, settle, conclude, unless_dry, bind, gets. cbn -[rollback_phase].
  destruct failure, d; do 4 (cbn -[rollback_phase]; rewrite ?Hd); reflexivity.
Qed.

(** C8: a restore that reports [PARTIAL_FAILED_ROLLED_BACK] left the destination as it found
    it: no entry of its ledger is pending, every row that was there still is, and no other is
    but those whose create was never answered.  This is of registries whose importers each
    record what they create: those of groups and profiles do, which is proved, provided that the
    archived ids of their rows are numbers (or absent; see [RestoreDemo.unnumbered_row_survives]);
    of every other importer, which is a parameter, it is a condition ([records_other]). *)
Theorem rolled_back_restore_is_undone plan steps confirm max mode fuzzy nf s s' :
  led s = [] -> tracking (holdings (dest s)) plan steps ->
  run_restore plan steps confirm max mode fuzzy nf s = (Ok tt, s') ->
  outcome (rep s') = Some PARTIAL_FAILED_ROLLED_BACK -> undone (holdings (dest s)) s'.
Proof.
  intros Hl Hs H Ho. set (h0 := holdings (dest s)) in *.
  assert (H0 : tracked h0 s) by (constructor; rewrite ?Hl; [done|set_solver|set_solver|by intros [] e]).
  apply run_restore_ran in H as (f & _ & [f' p l _ _ Hn|g ctx r s2 _ Hc _ Ha Hf]); [congruence|].
  assert (H2 : tracked h0 s2).
  { pose proof (apply_steps_keeps h0 ctx (default NON_FATAL_FAILURE_CATEGORIES nf) steps [] ltac:(by rewrite Hc)) as Hk.
    specialize (Hk (on_table g (on_report f s)) ltac:(by apply keeps_table, keeps_report)). by rewrite Ha in Hk. }
  destruct (is_dry_run (rep s2)) eqn:Hd; [rewrite after_dry in Hf by done; injection Hf as <-; cbn in Ho; congruence|].
  destruct r as [[t|] d]; cbn in Hf.
  2:{ apply no_failure_settles in Hf as (s3 & (_ & Hout & _)%conclude_spec). rewrite Hout in Ho.
      destruct (is_dry_run (rep s3)); [done|]. injection Ho as Ho. by apply no_failure_outcome in Ho. }
  apply failure_settles in Hf as (b & s3 & f3 & Hr & Hcon); [|done].
  apply (rollback_phase_spec h0) in Hr as (H3 & Hord & Hcomp); [|done].
  apply conclude_spec in Hcon as (Hled & Hout & _ & _ & _ & _ & Hdest & _). specialize (Hdest ltac:(by rewrite Ho)).
  rewrite Hout in Ho. destruct (is_dry_run _); [done|]. injection Ho as Ho.
  destruct (partial_outcome _ _ Ho) as (b' & [= <-] & Hb). rewrite Hb in Hcomp.
  assert (Hun : undone h0 s3) by (apply tracked_undone; [done|]; rewrite Hord; by destruct (residue b)).
  unfold undone. by rewrite Hled, Hdest.
Qed.

(** ** Dry runs and refusals *)

(** On a dry run: the same rows, the same file, the same ledger. *)
Definition still s s' : Prop :=
  is_dry_run (rep s) = true ->
  is_dry_run (rep s') = true /\ same_rows (dest s) (dest s') /\ saved (dest s') = saved (dest s) /\ led s' = led s.
#[local] Instance still_preorder : PreOrder still.
Proof.
  split; [by intros s H|]. intros s1 s2 s3 H1 H2 Hd. destruct (H1 Hd) as (Hd2 & [E1 E2] & E3 & E4).
  destruct (H2 Hd2) as (Hd3 & [F1 F2] & F3 & F4). unfold same_rows. split_and!; congruence.
Qed.

Lemma still_report f s : is_dry_run (f (rep s)) = is_dry_run (rep s) -> still s (on_report f s).
Proof. intros Hf Hd. by rewrite <- Hf in Hd. Qed.
Lemma still_table f s : still s (on_table f s).
Proof. by intros Hd. Qed.
Lemma still_fetch t : moves still (reaches (fetch t)).
Proof.
  intros s Hd. unfold reaches. pose proof (fetch_reads t (dest s)) as [Hr Hs]. destruct (fetch t (dest s)) as [r w]. done.
Qed.
Lemma still_flush : moves still flush_unless_dry.
Proof. intros s Hd. unfold flush_unless_dry, bind, gets. cbn. by rewrite Hd. Qed.
Hint Resolve still_preorder still_table still_fetch still_flush : moves.
Hint Extern 3 (still _ (on_report _ _)) => apply still_report; reflexivity : moves.

(** The engine's previews are quiet. *)
Lemma still_category config rows selected : moves still (_import_category reject_mutations true config rows selected).
Proof. apply category_moves; auto with moves; [|done]. intros f s Hf. apply still_report, Hf. Qed.

(** The importers of a plan's steps change nothing on a dry run. *)
Definition quiet (plan : ImportPlan) (steps : list ImporterStep) : Prop :=
  forall st imp ctx, st ∈ steps -> step_importer st = Some imp -> ctx_plan ctx = plan -> ctx_is_dry_run ctx = true ->
    moves still (imp ctx).

Lemma still_steps ctx nf steps : forall deferred,
  quiet (ctx_plan ctx) steps -> ctx_is_dry_run ctx = true -> moves still (apply_steps ctx nf deferred steps).
Proof.
  intros deferred Hs Hc. revert deferred. induction steps as [|st steps IH]; intros deferred; cbn [apply_steps]; [auto with moves|].
  assert (IH' : forall d, moves still (apply_steps ctx nf d steps)).
  { apply IH. intros st' imp c Hin. apply Hs. by right. }
  destruct (step_importer st) as [imp|] eqn:Ei; [|done].
  apply moves_bind; [apply _|apply moves_attempt, (Hs st); [by left|done..]|]. intros [d|e]; [|auto 10 with moves].
  apply moves_bind; [apply _|auto with moves|]. intros _. apply moves_bind; [apply _|auto with moves|]. intros _.
  apply moves_bind; [apply _|auto with moves|]. intros s1. destruct (_ <? _); [|done].
  case_bool_decide; unfold note; auto 10 with moves.
Qed.


(** A restore that is not confirmed, or whose report is a preview's, changes nothing
    outside: the destination's rows, the ledger and its file are as they were, whether it
    returns or raises, and if it returns it has no outcome.  (Given importers that only read
    on a dry run, as those of groups and profiles do.) *)
Theorem dry_run_changes_nothing plan steps confirm max mode fuzzy nf s r s' :
  negb confirm || is_dry_run (rep s) = true -> quiet plan steps ->
  run_restore plan steps confirm max mode fuzzy nf s = (r, s') ->
  same_rows (dest s) (dest s') /\ saved (dest s') = saved (dest s) /\ led s' = led s /\
  (is_ok r = true -> outcome (rep s') = None).
Proof.
  intros Hdry Hq. destruct (guard_eq confirm s) as (f & Hg & Hd). rewrite Hdry in Hd.
  unfold RestoreRun.run_restore. unfold bind at 1. rewrite Hg. unfold checked_run, bind at 1, pure.
  destruct (run_preflight plan _) as [[|p l]|]; [| |by intros [= <- <-]].
  - unfold _record_run_scope, bind at 1, modify, bind at 1, gets. cbv beta iota zeta. unfold bind. intros H.
    set (ctx := {| ctx_plan := plan |}) in H.
    pose proof (still_steps ctx (default NON_FATAL_FAILURE_CATEGORIES nf) steps [] Hq Hd) as Hk. unfold moves in Hk.
    set (s1 := on_table _ (on_report f s)) in H. destruct (Hk s1 Hd) as (Hd2 & Hrows & Hsaved & Hled). clear Hk.
    destruct (apply_steps _ _ _ _ _) as [[x|] s2]; [|by injection H as <- <-]. cbn [fst snd] in *.
    rewrite after_dry in H by done. by injection H as <- <-.
  - unfold bind. destruct (notes_eq (p :: l) (on_report f s)) as [f' Hf]. rewrite Hf. by intros [= <- <-].
Qed.

(** C38: A plan with a pre-flight problem is refused before anything is written: whatever the
    registry and the flags, the destination, the ledger and the remap table are untouched and
    the report has no outcome. *)
Theorem refused_restore_touches_nothing plan steps confirm max mode fuzzy nf s p l :
  run_preflight plan (default DEFAULT_MAX_ENTITIES_PER_CATEGORY max) = Ok (p :: l) ->
  exists s', run_restore plan steps confirm max mode fuzzy nf s = (Ok tt, s') /\
    dest s' = dest s /\ led s' = led s /\ table s' = table s /\ outcome (rep s') = None.
Proof.
  intros Hp. destruct (guard_eq confirm s) as (f & Hg & _). unfold RestoreRun.run_restore. unfold bind at 1. rewrite Hg.
  unfold checked_run, bind at 1, pure. rewrite Hp. unfold bind.
  destruct (notes_eq (p :: l) (on_report f s)) as [f' Hf]. rewrite Hf. by eexists.
Qed.

(** ** Success *)

Definition same_flavour s s' : Prop := is_dry_run (rep s') = is_dry_run (rep s).
#[local] Instance flavour_preorder : PreOrder same_flavour.
Proof. split; [by intros s|]. intros s1 s2 s3. unfold same_flavour. congruence. Qed.

Lemma flavour_report f s : is_dry_run (f (rep s)) = is_dry_run (rep s) -> same_flavour s (on_report f s).
Proof. done. Qed.
Lemma flavour_reaches {A} (f : world -> result exc A * world) : moves same_flavour (reaches f).
Proof. intros s. unfold reaches. by destruct (f (dest s)). Qed.
Lemma flavour_ledger f s : same_flavour s (on_ledger f s).
Proof. done. Qed.
Hint Resolve flavour_preorder flavour_reaches flavour_ledger : moves.
Hint Extern 3 (same_flavour _ (on_report _ _)) => apply flavour_report; reflexivity : moves.

Lemma flavour_persist : moves same_flavour persist_ledger.
Proof. unfold persist_ledger. auto with moves. Qed.
Hint Resolve flavour_persist : moves.

Lemma flavour_run_rollback : moves same_flavour (run_rollback reject_mutations).
Proof.
  assert (Hall : forall order done left, moves same_flavour (compensate_all reject_mutations order done left)).
  { induction order as [|e order IH]; intros done0 left0; cbn [compensate_all]; [auto with moves|].
    apply moves_bind; [apply _| |intros []; auto]. unfold compensate, compensated_one.
    destruct (_delete_dispatch _); [|auto with moves]. apply moves_bind; [apply _|apply moves_attempt, moves_client; auto with moves|].
    intros [|x]; [|destruct (_is_already_gone x)]; auto 10 with moves. }
  intros s. unfold run_rollback, compensation, bind, gets. cbn.
  specialize (Hall (compensation_order (led s)) [] [] (set_compensating true s)).
  by destruct (compensate_all _ _ _ _ _).
Qed.

Lemma flavour_rollback t : moves same_flavour (rollback_phase reject_mutations t).
Proof.
  unfold rollback_phase, note. apply moves_bind; [apply _|auto with moves|]. intros _.
  apply moves_bind; [apply _|apply flavour_run_rollback|].
  intros b. apply moves_bind; [apply _|auto with moves|]. intros _. apply moves_bind; [apply _|auto with moves|]. intros s.
  destruct (settings_of _) as [c|]; [|auto with moves]. destruct (0 <? updated c), (existsb _ _); auto 10 with moves.
Qed.

Lemma flavour_unless {A} (m1 m2 : M run A) : moves same_flavour m1 -> moves same_flavour m2 -> moves same_flavour (unless_dry m1 m2).
Proof. intros H1 H2. unfold unless_dry. apply moves_bind; [apply _|auto with moves|]. intros s. by destruct (is_dry_run _). Qed.
Hint Resolve flavour_unless : moves.

(** The importers, the deferred apply and the rebind leave the report's flavour alone. *)
Definition flavoured plan (steps : list ImporterStep) : Prop :=
  (forall st imp ctx, st ∈ steps -> step_importer st = Some imp -> ctx_plan ctx = plan -> moves same_flavour (imp ctx)) /\
  (forall d, moves same_flavour (deferred_apply_fn d)) /\ (forall l b, moves same_flavour (rebind l b)).

Lemma flavour_flush : moves same_flavour flush_unless_dry.
Proof. unfold flush_unless_dry. auto with moves. Qed.
Hint Resolve flavour_flush : moves.

Lemma flavour_steps plan ctx nf steps : forall deferred,
  flavoured plan steps -> ctx_plan ctx = plan -> moves same_flavour (apply_steps ctx nf deferred steps).
Proof.
  intros deferred (Hs & _) Hc. revert deferred. induction steps as [|st steps IH]; intros deferred; cbn [apply_steps]; [auto with moves|].
  assert (IH' : forall d, moves same_flavour (apply_steps ctx nf d steps)).
  { apply IH. intros st' imp c Hin. apply Hs. by right. }
  destruct (step_importer st) as [imp|] eqn:Ei; [|done].
  apply moves_bind; [apply _|apply moves_attempt, (Hs st); [by left|done..]|]. intros [d|e]; [|auto 10 with moves].
  apply moves_bind; [apply _|auto with moves|]. intros _. apply moves_bind; [apply _|auto with moves|]. intros _.
  apply moves_bind; [apply _|auto with moves|]. intros s1. destruct (_ <? _); [|done].
  case_bool_decide; unfold note; auto 10 with moves.
Qed.

Lemma success_outcome r failed rb :
  is_dry_run r = false -> compute_outcome r failed rb = SUCCESS ->
  destination_unreadable r = None /\ (forall c, c ∈ categories r -> RestoreContracts.failed c <= 0) /\ delivery_shortfalls r = [].
Proof.
  intros Hd. unfold compute_outcome, outcome_for_unread_destination, _report_has_delivery_shortfall. rewrite Hd.
  destruct (destination_unreadable r); [done|]. cbn. destruct failed; cbn; [by destruct rb as [[[]]|]|].
  unfold _report_has_failures. destruct (existsb _ _) eqn:E; [done|]. cbn -[delivery_shortfalls].
  destruct (delivery_shortfalls r); [|done].
  intros _. split_and!; [done| |done]. intros c Hc. destruct (Z.ltb_spec 0 (RestoreContracts.failed c)) as [Hlt|]; [|done].
  exfalso. assert (existsb (fun c => 0 <? RestoreContracts.failed c) (categories r) = true); [|congruence].
  apply existsb_exists. exists c. split; [by apply list_elem_of_In|by apply Z.ltb_lt].
Qed.

Lemma flavour_settle plan fuzzy failure d steps : flavoured plan steps ->
  moves same_flavour (settle reject_mutations deferred_apply_fn rebind plan fuzzy failure d).
Proof.
  intros (_ & Hdef & Hreb). unfold settle. apply moves_bind; [apply _| |intros rb].
  { destruct failure as [t|]; [|auto with moves]. apply flavour_unless; [auto with moves|].
    apply moves_bind; [apply _|apply flavour_rollback|auto with moves]. }
  apply moves_bind; [apply _| |intros _].
  { destruct failure, d; auto with moves. apply flavour_unless; [auto with moves|]. unfold deferred_phase, note.
    apply moves_try; [apply _| |auto with moves]. apply moves_bind; [apply _|done|]. intros []; auto with moves. }
  apply moves_bind; [apply _| |auto with moves]. apply flavour_unless; [auto with moves|]. destruct failure; [auto with moves|].
  unfold _rebind_placeholders, note. destruct (mbind _ _) as [[|]|]; auto with moves.
Qed.

(** The steps of groups and profiles meet the other two contracts. *)
Lemma flavour_create config ix r payload :
  moves same_flavour (create_one reject_mutations false config ix (_row_label r) (field r "id") payload).
Proof.
  unfold create_one. apply moves_bind; [apply _| |].
  { apply moves_attempt, moves_client; auto with moves. }
  intros [v|e]; [|exact (create_failed_moves same_flavour false config (fun f s Hf => proj1 (Hf (rep s))) (fun f s => eq_refl) (flavour_reaches _) _ _ _ _ e)].
  unfold record_row. apply moves_bind; [apply _| |auto with moves]. apply moves_bind; [apply _|auto with moves|]. intros _.
  destruct (is_none _); [auto with moves|]. apply moves_bind; [apply _|auto with moves|]. intros d.
  apply moves_bind; [apply _| |auto with moves]. by apply remember_moves; [apply _|].
Qed.

Lemma category_step_still config ctx : ctx_is_dry_run ctx = true -> moves still (category_step reject_mutations config ctx).
Proof. intros Hd. unfold category_step. rewrite Hd. apply moves_bind; [apply _|apply still_category|auto with moves]. Qed.
Lemma category_step_flavour config ctx : moves same_flavour (category_step reject_mutations config ctx).
Proof.
  unfold category_step. apply moves_bind; [apply _| |auto with moves].
  apply category_moves; [apply _|intros f s Hf; apply (Hf (rep s))|by intros|auto with moves|]. intros Hd r ix payload _.
  rewrite Hd. apply flavour_create.
Qed.

(** A restore that reports [SUCCESS] was confirmed and not a preview, read its destination,
    counts no failure in any category and no shortfall of what it was asked to carry, and has
    removed its ledger's file. *)
Theorem success_is_clean plan steps confirm max mode fuzzy nf s s' :
  flavoured plan steps -> run_restore plan steps confirm max mode fuzzy nf s = (Ok tt, s') ->
  outcome (rep s') = Some SUCCESS ->
  confirm = true /\ is_dry_run (rep s) = false /\ destination_unreadable (rep s') = None /\
  (forall c, c ∈ categories (rep s') -> failed c <= 0) /\ delivery_shortfalls (rep s') = [] /\ saved (dest s') = None.
Proof.
  intros Hfl H Ho. apply run_restore_ran in H as (f & Hd & [f' p l _ _ Hn|g ctx r s2 _ Hc _ Ha Hf]); [congruence|].
  pose proof (flavour_steps plan ctx (default NON_FATAL_FAILURE_CATEGORIES nf) steps [] Hfl Hc (on_table g (on_report f s))) as H2.
  rewrite Ha in H2. unfold same_flavour in H2. cbn in H2. rewrite Hd in H2.
  unfold RestoreRun.after_steps, bind in Hf. destruct (settle _ _ _ _ _ _ _ _) as [[rb|] s3] eqn:Es; [|done].
  pose proof (flavour_settle plan fuzzy r.1 r.2 steps Hfl s2) as H3. rewrite Es in H3. unfold same_flavour in H3. cbn in H3.
  apply conclude_spec in Hf as (_ & Hout & Hd' & Hcat & Hun & Hmi & _ & Hsuc). destruct (Hsuc Ho) as [_ Hsaved].
  rewrite Hout in Ho. destruct (is_dry_run (rep s3)) eqn:Hd3; [done|]. injection Ho as Ho.
  destruct (success_outcome _ _ _ Hd3 Ho) as (Hu & Hf & Hs). rewrite H2 in H3. symmetry in H3.
  apply orb_false_iff in H3 as [Hconf Hdry]. apply negb_false_iff in Hconf. rewrite Hun, Hcat.
  split_and!; try done. unfold delivery_shortfalls in *. by rewrite Hmi.
Qed.
End after.
End theorems.
(** ** A destination that could not be read *)

Section unread.
Context {U : Upstream} {L : UpstreamLaws}.
Implicit Types (s : run).

(** Once a read failed: the same rows, the same file, the same ledger. *)
Definition halted s s' : Prop :=
  destination_unreadable (rep s) <> None -> compensating s = false ->
  destination_unreadable (rep s') <> None /\ compensating s' = false /\
  same_rows (dest s) (dest s') /\ saved (dest s') = saved (dest s) /\ led s' = led s.
#[local] Instance halted_preorder : PreOrder halted.
Proof.
  split; [by intros s H|]. intros s1 s2 s3 H1 H2 Hu Hc. destruct (H1 Hu Hc) as (Hu2 & Hc2 & [E1 E2] & E3 & E4).
  destruct (H2 Hu2 Hc2) as (Hu3 & Hc3 & [F1 F2] & F3 & F4). unfold same_rows. split_and!; congruence.
Qed.

Lemma halted_report f s : keeps_marks f -> halted s (on_report f s).
Proof. intros Hf Hu Hc. split_and!; try done. by apply Hf. Qed.
Lemma halted_table f s : halted s (on_table f s).
Proof. by intros Hu Hc. Qed.
Lemma halted_fetch t : moves halted (reaches (fetch t)).
Proof.
  intros s Hu Hc. unfold reaches. pose proof (fetch_reads t (dest s)) as [Hr Hs]. destruct (fetch t (dest s)) as [r w]. done.
Qed.

Lemma config_methods config : config ∈ map snd _CATEGORY_CONFIGS ->
  has_prefix _DESTINATION_MUTATION_PREFIXES (creator config) = true /\
  has_prefix _DESTINATION_MUTATION_PREFIXES (getter config) = false /\ starts_with "get_" (getter config) = true.
Proof.
  assert (H : Forall (fun c => has_prefix _DESTINATION_MUTATION_PREFIXES (creator c) = true /\
    has_prefix _DESTINATION_MUTATION_PREFIXES (getter c) = false /\ starts_with "get_" (getter c) = true) (map snd _CATEGORY_CONFIGS))
    by repeat constructor.
  rewrite Forall_forall in H. apply H.
Qed.

Lemma halted_create config dry ix r payload : config ∈ map snd _CATEGORY_CONFIGS ->
  moves halted (create_one true dry config ix (_row_label r) (field r "id") payload).
Proof.
  intros Hin s Hu Hc. unfold create_one, bind, attempt, call_create.
  destruct (config_methods config Hin) as (Hn & _).
  assert (Hb : blocked true s = true) by (unfold blocked; rewrite Hc; by destruct (destination_unreadable (rep s))).
  destruct (client_blocked true (creator config) (reaches (create_row (config_type config)
    (if name_payload config then field payload "name" else PDict payload))) s Hb Hn) as (reason & ->).
  exact (create_failed_moves true halted dry config halted_report halted_table (halted_fetch _) ix _ _ payload _ s Hu Hc).
Qed.

Lemma halted_rows config dry ix rows : config ∈ map snd _CATEGORY_CONFIGS ->
  moves halted (import_rows true dry config ix rows).
Proof.
  intros Hin. apply rows_moves; [apply _|apply halted_report|apply halted_table|].
  intros _ r ix' payload _. by apply halted_create.
Qed.

(** The same outside. *)
Definition untouched s s' : Prop :=
  same_rows (dest s) (dest s') /\ saved (dest s') = saved (dest s) /\ led s' = led s /\ compensating s' = compensating s.
#[local] Instance untouched_preorder : PreOrder untouched.
Proof.
  split; [by intros s|]. intros s1 s2 s3 ([E1 E2] & E3 & E4 & E5) ([F1 F2] & F3 & F4 & F5). unfold untouched, same_rows.
  split_and!; congruence.
Qed.
Lemma untouched_fetch t : moves untouched (reaches (fetch t)).
Proof.
  intros s. unfold reaches. pose proof (fetch_reads t (dest s)) as [Hr Hs]. destruct (fetch t (dest s)) as [r w]. by split_and!.
Qed.

Definition unread_for (config : CategoryConfig) s : Prop :=
  destination_unreadable (rep s) <> None \/ is_ok (fetch (config_type config) (dest s)).1 = false.

(** A listing never raises, and after one that failed the destination is marked. *)
Lemma relist_unread config s : config ∈ map snd _CATEGORY_CONFIGS -> unread_for config s ->
  exists v s', relist true config s = (Ok v, s') /\ untouched s s' /\ destination_unreadable (rep s') <> None.
Proof.
  intros Hin Hu. destruct (config_methods config Hin) as (_ & Hm & Hg). unfold relist, list_existing, client. rewrite Hm, Hg. cbn [andb negb].
  pose proof (untouched_fetch (config_type config) s) as Hf. revert Hf.
  unfold _observed_read, try_except, reaches. destruct (fetch (config_type config) (dest s)) as [[v|e] w] eqn:E; intros Hf.
  - exists v, (on_dest w s). split_and!; try done. destruct Hu as [Hu|Hu]; [done|by rewrite E in Hu].
  - eexists _, _. split; [reflexivity|]. split; [exact Hf|]. cbn. by destruct (destination_unreadable (rep s)).
Qed.

(** Once a read of the destination has failed nothing of a category is written: whether
    the read was an earlier one or the category's own listing (which the importer then takes
    for an empty one), and whatever is archived, the rows, the ledger and its file stay as they
    are. *)
Theorem failed_read_stops_writes config dry rows selected s r s' :
  config ∈ map snd _CATEGORY_CONFIGS -> unread_for config s -> compensating s = false ->
  _import_category true dry config rows selected s = (r, s') ->
  same_rows (dest s) (dest s') /\ saved (dest s') = saved (dest s) /\ led s' = led s.
Proof.
  intros Hin Hu Hc. unfold _import_category, bind at 1, modify at 1. set (s0 := on_report _ s).
  assert (H0 : untouched s s0 /\ unread_for config s0 /\ compensating s0 = false) by (split_and!; done).
  clearbody s0. destruct selected; cbn [negb].
  2:{ intros H. pose proof (moves_for untouched rows (fun r => _skip dry (config_type config) EXCLUDED_BY_OPERATOR (_row_label r) (field r "id"))
        ltac:(intros x _; apply skip_moves; [apply _|by intros]) s0) as Hk.
      rewrite H in Hk. assert (Ht : untouched s s') by (etransitivity; [apply H0|exact Hk]). by destruct Ht as (? & ? & ? & _). }
  set (caveat := match dry_run_caveat config with Some c => if dry then _ else _ | None => _ end).
  assert (Hcav : exists s1, caveat s0 = (Ok tt, s1) /\ untouched s0 s1 /\ unread_for config s1 /\ compensating s1 = false).
  { destruct H0 as (_ & Hu0 & Hc0). unfold caveat. destruct (dry_run_caveat config), dry; eexists; (split; [reflexivity|by split_and!]). }
  destruct Hcav as (s1 & Hcav & Ht1 & Hu1 & Hc1). unfold bind at 1. rewrite Hcav. unfold bind at 1.
  destruct (relist_unread config s1 Hin Hu1) as (v & s2 & -> & Ht2 & Hu2).
  assert (Ht : untouched s s2) by (do 2 (etransitivity; [|eassumption]); apply H0).
  assert (Hc2 : compensating s2 = false) by (destruct Ht as (_ & _ & _ & ->); exact Hc).
  assert (Hend : forall s', halted s2 s' -> same_rows (dest s) (dest s') /\ saved (dest s') = saved (dest s) /\ led s' = led s).
  { intros s3 Hh. destruct (Hh Hu2 Hc2) as (_ & _ & [E1 E2] & E3 & E4), Ht as ([F1 F2] & F3 & F4 & _). unfold same_rows. split_and!; congruence. }
  unfold bind, pure. destruct (iterate v) as [l|]; [|intros [= <- <-]; by apply Hend].
  destruct (index_rows config (dict_rows l)) as [ix|]; [|intros [= <- <-]; by apply Hend].
  intros H. apply Hend. pose proof (halted_rows config dry ix rows Hin s2) as Hk. by rewrite H in Hk.
Qed.
End unread.
End RestoreTheorems.
