(* ===== verification/RestorePreview.v ===== *)
(** * A preview predicts its apply.

    The engine of [ImportCategory] run twice from one state, once as a dry run and once for
    real: on a destination that can be read and accepts what it is sent, the counts, the
    reasons and the resolved ids of the preview are those of the apply. *)
From S2P Require Import Prelude PyValue PyText PyState RestoreContracts Preflight DestinationRead ImportCategory.
From stdpp Require Import relations list gmap strings.
Open Scope Z_scope.
Open Scope py_scope.

Module RestorePreview.
Import RestoreContracts Preflight DestinationRead ImportCategory.

(** ** One category of a report *)

Lemma find_update t f l : (forall c, entity_type (f c) = entity_type c) ->
  forall u, default (new_category u) (List.find (fun c => bool_decide (entity_type c = u)) (update_category t f l)) =
    (if bool_decide (t = u) then f (default (new_category u) (List.find (fun c => bool_decide (entity_type c = u)) l))
     else default (new_category u) (List.find (fun c => bool_decide (entity_type c = u)) l)).
Proof.
  intros Hf u. induction l as [|c l IH]; cbn.
  - rewrite Hf. cbn. case_bool_decide as E; [by subst|done].
  - destruct (decide (entity_type c = t)) as [E|E].
    + rewrite (bool_decide_true (entity_type c = t)) by done. cbn. rewrite Hf, E. by case_bool_decide.
    + rewrite (bool_decide_false (entity_type c = t)) by done. cbn. destruct (decide (entity_type c = u)) as [E2|E2].
      * rewrite (bool_decide_true (entity_type c = u)) by done. rewrite bool_decide_false by congruence. done.
      * by rewrite (bool_decide_false (entity_type c = u)).
Qed.

Lemma category_in t f r : (forall c, entity_type (f c) = entity_type c) -> category t (in_category t f r) = f (category t r).
Proof. intros Hf. unfold category, in_category. cbn. by rewrite find_update, bool_decide_true. Qed.

Section preview.
Context {U : Upstream} {L : UpstreamLaws} (reject_mutations : bool) (config : CategoryConfig).
Implicit Types (s : run).
Local Definition t : EntityType := config_type config.
Hypothesis known_config : config ∈ map snd _CATEGORY_CONFIGS.

Definition at_ (s : run) : category_report := category t (rep s).

(** What a preview's state and an apply's have in common, counted from [c0]. *)
Record agree (c0 : category_report) (s s' : run) : Prop := {
  agree_created : would_create (at_ s) - would_create c0 = created (at_ s') - created c0;
  agree_skipped : would_skip (at_ s) - would_skip c0 = skipped (at_ s') - skipped c0;
  agree_details : skip_details (at_ s) = skip_details (at_ s');
  agree_failed : failed (at_ s) = failed c0 /\ failed (at_ s') = failed c0;
  agree_blocked : entities_blocked_by_dependency (missing (rep s)) = entities_blocked_by_dependency (missing (rep s'));
  agree_scope : selected_categories (table s) = selected_categories (table s');
  agree_others : forall u i, u <> t -> resolve u i (table s) = resolve u i (table s');
  agree_known : forall i, resolve t i (table s) = None <-> resolve t i (table s') = None;
  agree_read : destination_unreadable (rep s') = None }.

#[local] Abbreviation step c0 m n := (lockstep (agree c0) m n).

Lemma step_report c0 f g :
  (forall c, entity_type (f c) = entity_type c) -> (forall c, entity_type (g c) = entity_type c) ->
  (forall c d, would_create (f c) - would_create c = created (g d) - created d /\
     would_skip (f c) - would_skip c = skipped (g d) - skipped d) ->
  (forall c d, skip_details c = skip_details d -> skip_details (f c) = skip_details (g d)) ->
  (forall c, failed (f c) = failed c) -> (forall c, failed (g c) = failed c) ->
  step c0 (modify (on_report (in_category t f))) (modify (on_report (in_category t g))).
Proof.
  intros Hf Hg Hc Hs Hd Hd'. apply lockstep_modify. intros s s' [].
  constructor; unfold at_ in *; cbn [on_report rep table]; rewrite ?category_in by done; try done; [| |by apply Hs|by rewrite Hd, Hd'].
  - pose proof (Hc (category t (rep s)) (category t (rep s'))). lia.
  - pose proof (Hc (category t (rep s)) (category t (rep s'))). lia.
Qed.

Lemma step_skip c0 reason label source : step c0 (_skip true t reason label source) (_skip false t reason label source).
Proof.
  unfold _skip. apply lockstep_bind; [|intros _; apply lockstep_bind; [apply lockstep_pure|intros i]];
    apply step_report; try done; intros; cbn; try lia. congruence.
Qed.

Lemma step_add c0 i d d' : step c0 (modify (on_table (add t i d))) (modify (on_table (add t i d'))).
Proof.
  apply lockstep_modify. intros s s' []. constructor; try done; cbn.
  - intros u j Hu. unfold resolve, add in *. cbn. rewrite !lookup_insert_ne by congruence. by apply agree_others0.
  - intros j. unfold resolve, add in *. cbn. destruct (decide (i = j)) as [->|]; [by rewrite !lookup_insert_eq|].
    rewrite !lookup_insert_ne by congruence. apply agree_known0.
Qed.

Lemma step_remember c0 a b : step c0 (remember t a b) (remember t a b).
Proof. unfold remember. destruct (_ || _); eauto using step_add with lockstep. Qed.

Lemma step_adopt c0 label source existing :
  step c0 (adopt true config label source existing) (adopt false config label source existing).
Proof. unfold adopt. apply lockstep_bind; [apply step_skip|intros _; apply step_remember]. Qed.

Lemma step_blocked c0 reason label source :
  let body dry := _skip dry t reason label source;;
    if bool_decide (reason = DEPENDENCY_DESELECTED) then ret tt else modify (on_report (with_missing block_entity)) in
  step c0 (body true) (body false).
Proof.
  apply lockstep_bind; [apply step_skip|]. intros _. case_bool_decide; [apply lockstep_ret|].
  apply lockstep_modify. intros s1 s1' []. constructor; try done. cbn. lia.
Qed.

Lemma step_unresolved c0 u label source :
  step c0 (record_dependency_unresolved true t u label source) (record_dependency_unresolved false t u label source).
Proof.
  apply lockstep_bind; [apply lockstep_gets|intros reason; apply step_blocked].
  intros s s' Ha. unfold unresolved_reason, category_deselected. by rewrite (agree_scope _ _ _ Ha).
Qed.

(** The references of a row resolve alike: none is into the category itself. *)
Lemma same_payload c0 r s s' : agree c0 s s' -> _build_create_payload r config (table s) = _build_create_payload r config (table s').
Proof.
  intros Ha. unfold _build_create_payload. assert (Hne : Forall (fun fk => fk.2 <> t) (remappable_fk_fields config)).
  { assert (H : Forall (fun c => Forall (fun fk => fk.2 <> config_type c) (remappable_fk_fields c)) (map snd _CATEGORY_CONFIGS))
      by (repeat constructor; done). rewrite Forall_forall in H. by apply H. }
  generalize (source_of r). induction Hne as [|[name u] fks Hu _ IH]; intros payload; [done|]. cbn.
  destruct (is_none (field r name)); [apply IH|]. destruct (int_value (field r name)) as [i|]; [|done]. cbn.
  rewrite <- (agree_others _ _ _ Ha u i Hu). destruct (resolve u i (table s)); [apply IH|done].
Qed.

(** The destination takes what it is sent. *)
Hypothesis accepts : forall u p w, is_ok (create_row u p w).1 = true.

Lemma step_provisional c0 a i : step c0 (remember t a a) (remember t a (PInt i)).
Proof.
  unfold remember. destruct (is_none a) eqn:Ha; cbn [orb is_none]; rewrite ?Ha; [apply lockstep_ret|].
  destruct (int_value a) as [z|e]; [|by intros s s' H].
  eapply lockstep_ext; [intros s'; reflexivity|]. apply lockstep_bind; [apply lockstep_pure|]. intros x.
  intros s s' H. exact (step_add c0 x z i s s' H).
Qed.

Lemma step_ledger {A} c0 (a : A) f : step c0 (ret a) (modify (on_ledger f);; ret a).
Proof. intros s s' []. split; [done|]. by constructor. Qed.

Lemma step_record c0 (ix : indexes) label source d i : field d "id" = PInt i ->
  step c0 (modify (on_report (in_category t count_would_create));; remember t source source;; ret ix)
    (record_row config label source (PDict d);; ret ix).
Proof.
  intros Hi. apply (lockstep_ext _ _ _ (modify (on_report (in_category t count_created));; remember t source (PInt i);;
    modify (on_ledger (record_created t i label));; ret ix)).
  { intros s. unfold record_row. rewrite Hi. unfold bind, modify, pure. cbn. by destruct (remember _ _ _ _) as [[]]. }
  apply lockstep_bind; [apply step_report; done || (intros; cbn; lia)|]. intros _.
  apply lockstep_bind; [apply step_provisional|]. intros _. apply step_ledger.
Qed.

Lemma call_accepted payload s : destination_unreadable (rep s) = None ->
  exists d i w, call_create reject_mutations config payload s = (Ok (PDict d), on_dest w s) /\ field d "id" = PInt i.
Proof.
  intros Hr. set (arg := if name_payload config then field payload "name" else PDict payload).
  pose proof (accepts (config_type config) arg (dest s)) as Hok.
  destruct (create_row (config_type config) arg (dest s)) as [[v|] w] eqn:E; [|done].
  destruct (create_answers _ _ _ _ _ E) as (d & i & -> & Hi & _). exists d, i, w. split; [|unfold field; by rewrite Hi].
  assert (Hraw : reaches (create_row (config_type config) arg) s = (Ok (PDict d), on_dest w s)) by (unfold reaches; by rewrite E).
  unfold call_create, client, _guarded_mutation, _observed_read. fold arg. destruct (_ && _).
  - unfold bind, gets. change (id s) with s. by rewrite Hr.
  - destruct (negb _); [done|]. unfold try_except. by rewrite Hraw.
Qed.

Lemma step_create c0 (ix : indexes) label source payload :
  step c0 (modify (on_report (in_category t count_would_create));; remember t source source;; ret ix)
    (create_one reject_mutations false config ix label source payload).
Proof.
  intros s s' Ha. destruct (call_accepted payload s' (agree_read _ _ _ Ha)) as (d & i & w & Hc & Hi).
  assert (H : agree c0 s (on_dest w s')) by (destruct Ha; by constructor).
  pose proof (step_record c0 ix label source d i Hi s (on_dest w s') H) as Hs.
  assert (He : create_one reject_mutations false config ix label source payload s' =
    (record_row config label source (PDict d);; ret ix) (on_dest w s')).
  { unfold create_one. unfold bind at 1, attempt. by rewrite Hc. }
  by rewrite He.
Qed.

Lemma step_row c0 ix r : step c0 (import_row reject_mutations true config ix r) (import_row reject_mutations false config ix r).
Proof.
  unfold import_row. destruct (find_existing ix (field r "name")) as [existing|].
  { apply lockstep_bind; [apply step_adopt|intros _; apply lockstep_ret]. }
  apply lockstep_bind; [apply lockstep_gets; intros s s'; apply same_payload|]. intros built.
  apply lockstep_bind; [apply lockstep_pure|]. intros [u|payload].
  - apply lockstep_bind; [apply step_unresolved|intros _; apply lockstep_ret].
  - apply step_create.
Qed.

Lemma step_rows c0 rows : forall ix,
  step c0 (import_rows reject_mutations true config ix rows) (import_rows reject_mutations false config ix rows).
Proof.
  induction rows as [|r rows IH]; intros ix; [apply lockstep_ret|]. apply lockstep_bind; [apply step_row|]. apply IH.
Qed.

Lemma relist_reads s1 v w : fetch t (dest s1) = (Ok v, w) -> relist reject_mutations config s1 = (Ok v, on_dest w s1).
Proof.
  intros Hf. assert (H : Forall (fun c => has_prefix _DESTINATION_MUTATION_PREFIXES (getter c) = false /\ starts_with "get_" (getter c) = true)
    (map snd _CATEGORY_CONFIGS)) by repeat constructor.
  rewrite Forall_forall in H. destruct (H _ known_config) as [Hm Hg].
  assert (Hraw : reaches (fetch (config_type config)) s1 = (Ok v, on_dest w s1)) by (unfold reaches; unfold t in Hf; by rewrite Hf).
  unfold relist, list_existing, client. rewrite Hm, Hg, andb_false_r. cbn [negb].
  unfold _observed_read, try_except. by rewrite Hraw.
Qed.

Lemma step_listed c0 rows existing :
  let body dry := do! l := pure (iterate existing) in do! ix := pure (index_rows config (dict_rows l)) in
    import_rows reject_mutations dry config ix rows in
  step c0 (body true) (body false).
Proof.
  apply lockstep_bind; [apply lockstep_pure|]. intros l. apply lockstep_bind; [apply lockstep_pure|]. intros ix. apply step_rows.
Qed.

(** On a destination that can be read and takes what it is sent, the preview of a category
    predicts its import: both return or raise alike, what the preview would create and skip is
    what the import creates and skips, for the same reasons and with no failure more, the same
    entities are blocked, and the same archived ids resolve afterwards. *)
Theorem preview_predicts_import rows selected s :
  is_ok (fetch t (dest s)).1 = true -> destination_unreadable (rep s) = None ->
  let preview := _import_category reject_mutations true config rows selected s in
  let import := _import_category reject_mutations false config rows selected s in
  preview.1 = import.1 /\ agree (at_ s) preview.2 import.2.
Proof.
  intros Hread Hu. cbn zeta. unfold _import_category. unfold bind at 1, modify at 1. unfold bind at 3, modify at 2.
  set (s0 := on_report _ s).
  assert (H0 : agree (at_ s) s0 s0).
  { unfold s0. constructor; unfold at_; cbn [on_report rep table]; rewrite ?category_in by done; unfold id; fold t; try done; lia. }
  destruct selected; cbn [negb].
  2:{ exact (lockstep_for (agree (at_ s)) rows (fun r => _skip true t EXCLUDED_BY_OPERATOR (_row_label r) (field r "id"))
        (fun r => _skip false t EXCLUDED_BY_OPERATOR (_row_label r) (field r "id")) (fun r => step_skip _ _ _ _) s0 s0 H0). }
  destruct (fetch t (dest s)) as [[v|] w] eqn:Ef; [|done]. clear Hread.
  assert (Hgo : forall f, agree (at_ s) (on_report f s0) s0 ->
    let body dry := do! existing := relist reject_mutations config in do! l := pure (iterate existing) in
      do! ix := pure (index_rows config (dict_rows l)) in import_rows reject_mutations dry config ix rows in
    (body true (on_report f s0)).1 = (body false s0).1 /\ agree (at_ s) (body true (on_report f s0)).2 (body false s0).2).
  { intros f Hf body. assert (He : forall dry s1, dest s1 = dest s -> body dry s1 =
      (do! l := pure (iterate v) in do! ix := pure (index_rows config (dict_rows l)) in
         import_rows reject_mutations dry config ix rows) (on_dest w s1)).
    { intros dry s1 Hd. unfold body. unfold bind at 1. rewrite (relist_reads s1 v w) by by rewrite Hd. done. }
    rewrite !He by done. apply (step_listed (at_ s) rows v). destruct Hf. by constructor. }
  destruct (dry_run_caveat config) as [c|].
  - refine (Hgo (in_category (config_type config) (set_caveat c)) _). destruct H0. constructor; unfold at_ in *; cbn [on_report rep table] in *;
      fold t; rewrite ?category_in by done; done.
  - exact (Hgo id H0).
Qed.
End preview.
End RestorePreview.
