(* ===== verification/RestoreDemo.v ===== *)
(** * A destination to restore to.

    An instance of [Upstream] that meets its laws: a list of rows with ids it assigns itself,
    refusals and failures chosen by name.  The witnesses of [RestoreTheorems] and
    [RestorePreview] run on it, and so do the examples of what a restore does not undo. *)
From S2P Require Import Prelude PyValue PyText PyDict PyState RestoreContracts Preflight DestinationRead ImportCategory RestoreRun.
From S2P Require Import RestoreTheorems RestorePreview.
From stdpp Require Import list gmap strings.
Open Scope Z_scope.
Open Scope py_scope.

Module RestoreDemo.
Import RestoreContracts Preflight DestinationRead ImportCategory RestoreRun RestoreTheorems RestorePreview.

(** ** The destination *)

Record stored := Stored { stored_key : key; stored_name : pyval }.
Record store := Store { contents : list stored; unheard : gset key; file : option ledger }.

(** What the destination refuses: a create by its name, a listing by its category, a delete by
    its id, a ledger of some length (the disk is full). *)
Record temper := Temper {
  refuses : string -> option exc; hides : EntityType -> bool; sticks : Z -> bool; full : nat -> bool }.
Definition calm : temper := Temper (fun _ => None) (fun _ => false) (fun _ => false) (fun _ => false).

Definition name_sent (p : pyval) : pyval := match p with PDict d => field d "name" | v => v end.
Definition add_row (t : EntityType) (i : Z) (p : pyval) (w : store) : store :=
  Store (contents w ++ [Stored (t, i) (name_sent p)]) (unheard w) (file w).
Definition fresh_id (w : store) : Z := 1 + foldr Z.max 0 (map (fun r => (stored_key r).2) (contents w)).
Definition rows_of (t : EntityType) (w : store) : list pyval :=
  omap (fun r => if bool_decide ((stored_key r).1 = t)
                 then Some (PDict [("id", PInt (stored_key r).2); ("name", stored_name r)]) else None) (contents w).
Definition server_error (status : Z) : exc := Exc (HttpStatus status) "HTTPStatusError" "upstream said no".

Definition demo_create (b : temper) (t : EntityType) (p : pyval) (w : store) : result exc pyval * store :=
  let i := fresh_id w in
  match (match name_sent p with PStr n => refuses b n | _ => None end) with
  | None => (Ok (PDict [("id", PInt i); ("name", name_sent p)]), add_row t i p w)
  | Some e =>
      (Raise e, if answered e then w
                else let w' := add_row t i p w in Store (contents w') ({[(t, i)]} ∪ unheard w') (file w'))
  end.
Definition demo_delete (b : temper) (t : EntityType) (i : Z) (w : store) : result exc unit * store :=
  if sticks b i then (Raise (server_error 500), w)
  else if existsb (fun r => bool_decide (stored_key r = (t, i))) (contents w)
  then (Ok tt, Store (List.filter (fun r => negb (bool_decide (stored_key r = (t, i)))) (contents w)) (unheard w) (file w))
  else (Raise (server_error 404), w).
Definition demo_write (b : temper) (l : ledger) (w : store) : result exc unit * store :=
  if full b (length l) then (Raise (Exc Other "OSError" "No space left on device"), w)
  else (Ok tt, Store (contents w) (unheard w) (Some l)).

#[local] Instance demo (b : temper) : Upstream := {|
  world := store;
  fetch t w := (if hides b t then Raise (server_error 503) else Ok (PList (rows_of t w)), w);
  create_row := demo_create b;
  delete_row := demo_delete b;
  write_file := demo_write b;
  remove_file w := (Ok tt, Store (contents w) (unheard w) None);
  validate_id v := match v with
                   | PInt z => Ok (Some z) | PNone => Ok None
                   | _ => Raise (Exc Other "ValidationError" "Input should be a valid integer") end;
  holdings w := list_to_set (map stored_key (contents w));
  lost := unheard; saved := file |}.

(** *** It meets the laws *)

Lemma fresh_id_new t w : (t, fresh_id w) ∉ (list_to_set (map stored_key (contents w)) : gset key).
Proof.
  rewrite elem_of_list_to_set. intros (r & Hr & Hin)%Prelude.elem_of_map. unfold fresh_id in Hr.
  assert (H : (stored_key r).2 <= foldr Z.max 0 (map (fun r => (stored_key r).2) (contents w))).
  { clear Hr. induction (contents w) as [|x l IH]; [by apply elem_of_nil in Hin|]. cbn.
    apply elem_of_cons in Hin as [->|Hin]; [lia|]. specialize (IH Hin). lia. }
  rewrite <- Hr in H. cbn in H. lia.
Qed.

Lemma holdings_add t i p w :
  (list_to_set (map stored_key (contents (add_row t i p w))) : gset key) = {[(t, i)]} ∪ list_to_set (map stored_key (contents w)).
Proof. cbn. rewrite map_app, list_to_set_app_L. cbn. set_solver. Qed.

Lemma holdings_delete t i (l : list stored) :
  (list_to_set (map stored_key (List.filter (fun r => negb (bool_decide (stored_key r = (t, i)))) l)) : gset key)
  = list_to_set (map stored_key l) ∖ {[(t, i)]}.
Proof.
  induction l as [|r l IH]; [set_solver|]. cbn. case_bool_decide as E; cbn; rewrite IH; set_solver.
Qed.

Lemma not_held t i w : existsb (fun r => bool_decide (stored_key r = (t, i))) (contents w) = false ->
  (t, i) ∉ (list_to_set (map stored_key (contents w)) : gset key).
Proof.
  intros H. rewrite elem_of_list_to_set. intros (r & Hr & Hin)%Prelude.elem_of_map.
  assert (E : existsb (fun r => bool_decide (stored_key r = (t, i))) (contents w) = true); [|congruence].
  apply existsb_exists. exists r. rewrite bool_decide_true by done. split; [by apply list_elem_of_In|done].
Qed.

Lemma demo_delete_spec b t i w r w' : demo_delete b t i w = (r, w') ->
  (match r with Ok _ => True | Raise e => _is_already_gone e = true end ->
     holdings (Upstream := demo b) w' = holdings (Upstream := demo b) w ∖ {[(t, i)]}) /\
  holdings (Upstream := demo b) w' ⊆ holdings (Upstream := demo b) w /\
  holdings (Upstream := demo b) w ∖ {[(t, i)]} ⊆ holdings (Upstream := demo b) w' /\ unheard w' = unheard w /\ file w' = file w.
Proof.
  unfold demo_delete. cbn [holdings demo]. destruct (sticks b i); [intros [= <- <-]; split_and!; [done|set_solver..|done|done]|].
  destruct (existsb _ _) eqn:E; intros [= <- <-]; cbn [contents unheard file].
  - rewrite holdings_delete. split_and!; [done|set_solver..|done|done].
  - apply not_held in E. split_and!; [set_solver..|done|done].
Qed.

#[local] Instance demo_laws (b : temper) : UpstreamLaws (H := demo b).
Proof.
  constructor.
  - by intros t w.
  - intros t p w v w' H. cbn in H. unfold demo_create in H.
    destruct (match name_sent p with PStr n => refuses b n | _ => None end); [done|]. injection H as <- <-.
    eexists _, (fresh_id w). split_and!; [done|done|apply fresh_id_new|apply holdings_add|done].
  - intros t p w e w' H. cbn in H. unfold demo_create in H.
    destruct (match name_sent p with PStr n => refuses b n | _ => None end) as [e'|]; [|done]. injection H as <- <-.
    destruct (answered e') eqn:Ha; [by left|right]. split; [done|]. exists (fresh_id w).
    split_and!; [apply fresh_id_new|apply holdings_add|done].
  - intros t p w. cbn. unfold demo_create. destruct (match name_sent p with PStr n => refuses b n | _ => None end) as [e|]; [|done].
    cbn. by destruct (answered e).
  - intros t i w r w' H. by apply demo_delete_spec in H as [? _].
  - intros t i w. cbn. destruct (demo_delete b t i w) as [r w'] eqn:E. apply demo_delete_spec in E. apply E.
  - intros l w r w' H. cbn in H. unfold demo_write in H. destruct (full b (length l)); injection H as <- <-; done.
  - by intros w r w' [= <- <-].
  - done.
  - done.
Qed.

(** ** A run *)

Definition named (i : Z) (name : string) : row := [("id", PInt i); ("name", PStr name)].
Definition before : store := Store [Stored (CHANNEL_GROUP, 7) (PStr "Old")] ∅ None.

Definition archive (groups : list row) : ImportPlan :=
  Plan (PDict [("schema_version", PInt 1)])
    [Slice SERVER_GROUP [named 1 "Pool"] true; Slice CHANNEL_GROUP groups true; Slice CHANNEL_PROFILE [named 5 "Kids"] true]
    new_remap.

(** A registry of the steps that are modelled. *)
Definition steps (b : temper) : list (ImporterStep (U := demo b)) :=
  [Step SERVER_GROUP (Some (category_step true server_groups)) false;
   Step CHANNEL_GROUP (Some (category_step true channel_groups)) false;
   Step CHANNEL_PROFILE (Some (category_step true channel_profiles)) false;
   Step LOGO None false].

Definition start (b : temper) (dry : bool) (w : store) : run (U := demo b) := Run (U := demo b) w (new_report dry) [] new_remap false.

Definition restore (b : temper) (plan : ImportPlan) (confirm dry : bool) : result exc unit * run (U := demo b) :=
  run_restore (U := demo b) true (fun _ => ret []) (fun _ _ => ret tt) plan (steps b) confirm None PRESERVE true None (start b dry before).

(** What is compared of a run. *)
Definition shown {b : temper} (x : result exc unit * run (U := demo b)) :=
  (is_ok x.1, outcome (rep x.2), map (fun r => (stored_key r)) (contents (dest x.2)), length (led x.2),
   option_map (fun l : ledger => length l) (file (dest x.2))).

Definition group_plan : ImportPlan := archive [named 3 "News"; named 4 "old "; named 9 "Sport"].

(** A clean restore: one group adopted, the rest created, the ledger's file removed. *)
Example clean_restore : shown (restore calm group_plan true false) =
  (true, Some SUCCESS, [(CHANNEL_GROUP, 7); (SERVER_GROUP, 8); (CHANNEL_GROUP, 9); (CHANNEL_GROUP, 10); (CHANNEL_PROFILE, 11)], 4%nat, None).
Proof. vm_compute. reflexivity. Qed.

Example previewed_restore : shown (restore calm group_plan false false) = (true, None, [(CHANNEL_GROUP, 7)], O, None).
Proof. vm_compute. reflexivity. Qed.

Definition refuse_sport : temper :=
  Temper (fun n => if bool_decide (n = "Sport") then Some (server_error 400) else None) (fun _ => false) (fun _ => false) (fun _ => false).

Example rolled_back : shown (restore refuse_sport group_plan true false) =
  (true, Some PARTIAL_FAILED_ROLLED_BACK, [(CHANNEL_GROUP, 7)], 2%nat, Some 2%nat).
Proof. vm_compute. reflexivity. Qed.

(** *** The contracts hold of these steps *)

Lemma steps_importers b st imp : st ∈ steps b -> step_importer st = Some imp ->
  exists config, imp = category_step (U := demo b) true config.
Proof.
  unfold steps. rewrite !elem_of_cons, elem_of_nil.
  intros [->|[->|[->|[->|[]]]]]; cbn; intros H; first [discriminate H|injection H as <-; eauto].
Qed.

Lemma group_plan_numbered t : forallb numbered (match plan_category group_plan t with Some c => entities c | None => [] end) = true.
Proof. destruct t; reflexivity. Qed.

Lemma steps_track b : tracking (U := demo b) true (holdings (Upstream := demo b) before) group_plan (steps b).
Proof.
  intros st imp Hin Hs. destruct (steps_importers b st imp Hin Hs) as [config ->].
  apply records_category, group_plan_numbered.
Qed.

Lemma steps_quiet b : quiet (U := demo b) group_plan (steps b).
Proof.
  intros st imp ctx Hin Hs _ Hd. destruct (steps_importers b st imp Hin Hs) as [config ->]. by apply category_step_still.
Qed.

Lemma steps_flavoured b : flavoured (U := demo b) (fun _ => ret []) (fun _ _ => ret tt) group_plan (steps b).
Proof.
  split; [|split; [by intros d s|by intros l x s]]. intros st imp ctx Hin Hs _.
  destruct (steps_importers b st imp Hin Hs) as [config ->]. apply category_step_flavour.
Qed.

(** ** Witnesses *)

Lemma restore_returns b plan confirm dry : is_ok (restore b plan confirm dry).1 = true ->
  restore b plan confirm dry = (Ok tt, (restore b plan confirm dry).2).
Proof. by destruct (restore b plan confirm dry) as [[[]|] s]. Qed.

Lemma rolled_back_restore_is_undone_witness :
  undone (U := demo refuse_sport) (holdings (Upstream := demo refuse_sport) before) (restore refuse_sport group_plan true false).2.
Proof.
  apply (rolled_back_restore_is_undone (U := demo refuse_sport) true (fun _ => ret []) (fun _ _ => ret tt) group_plan
    (steps refuse_sport) true None PRESERVE true None (start refuse_sport false before)).
  - reflexivity.
  - apply steps_track.
  - apply restore_returns. vm_compute. reflexivity.
  - vm_compute. reflexivity.
Defined.

Lemma dry_run_changes_nothing_witness :
  let s' := (restore calm group_plan false false).2 in
  contents (dest (U := demo calm) s') = contents before /\ led (U := demo calm) s' = [] /\ outcome (rep (U := demo calm) s') = None /\
  same_rows (H := demo calm) before (dest (U := demo calm) s').
Proof.
  cbn zeta. destruct (dry_run_changes_nothing (U := demo calm) true (fun _ => ret []) (fun _ _ => ret tt) group_plan (steps calm)
    false None PRESERVE true None (start calm false before) (Ok tt) (restore calm group_plan false false).2) as (Hr & _ & Hl & Ho).
  - reflexivity.
  - apply steps_quiet.
  - apply restore_returns. vm_compute. reflexivity.
  - split_and!; [vm_compute; reflexivity|exact Hl|apply Ho; reflexivity|exact Hr].
Defined.

Definition twice : ImportPlan := archive [named 3 "News"; named 4 " news "].
Lemma refused_restore_touches_nothing_witness :
  exists p l s', run_preflight twice DEFAULT_MAX_ENTITIES_PER_CATEGORY = Ok (p :: l) /\ kind p = DUPLICATE_UNIQUE_NAME /\
    restore calm twice true false = (Ok tt, s') /\ dest (U := demo calm) s' = before.
Proof.
  destruct (run_preflight twice DEFAULT_MAX_ENTITIES_PER_CATEGORY) as [[|p l]|] eqn:E; [vm_compute in E; discriminate| |vm_compute in E; discriminate].
  destruct (refused_restore_touches_nothing (U := demo calm) true (fun _ => ret []) (fun _ _ => ret tt) twice (steps calm)
    true None PRESERVE true None (start calm false before) p l E) as (s' & Hs & Hd & _).
  exists p, l, s'. split_and!; [done|vm_compute in E; by injection E as <- <-|exact Hs|exact Hd].
Defined.

Lemma success_is_clean_witness :
  let s' := (restore calm group_plan true false).2 in
  (forall c, c ∈ categories (rep (U := demo calm) s') -> failed c <= 0) /\ saved (Upstream := demo calm) (dest (U := demo calm) s') = None.
Proof.
  cbn zeta. destruct (success_is_clean (U := demo calm) true (fun _ => ret []) (fun _ _ => ret tt) group_plan (steps calm)
    true None PRESERVE true None (start calm false before) (restore calm group_plan true false).2) as (_ & _ & _ & Hf & _ & Hs).
  - apply steps_flavoured.
  - apply restore_returns. vm_compute. reflexivity.
  - vm_compute. reflexivity.
  - split; [exact Hf|exact Hs].
Defined.

(** A ledger of three entries on a destination that keeps the second. *)
Definition stubborn : temper := Temper (fun _ => None) (fun _ => false) (fun i => i =? 9) (fun _ => false).
Definition three : ledger :=
  record_created CHANNEL_PROFILE 11 "Kids" (record_created CHANNEL_GROUP 9 "News" (record_created SERVER_GROUP 8 "Pool" [])).
Definition half_way (b : temper) : run (U := demo b) :=
  Run (U := demo b) (Store [Stored (CHANNEL_GROUP, 7) (PStr "Old"); Stored (SERVER_GROUP, 8) (PStr "Pool");
    Stored (CHANNEL_GROUP, 9) (PStr "News"); Stored (CHANNEL_PROFILE, 11) (PStr "Kids")] ∅ (Some three)) (new_report false) three new_remap false.

Lemma half_way_tracked b : tracked (U := demo b) {[(CHANNEL_GROUP, 7)]} (half_way b).
Proof.
  constructor.
  - refine (bool_decide_unpack _ _). vm_compute. exact I.
  - refine (bool_decide_unpack _ _). vm_compute. exact I.
  - refine (bool_decide_unpack _ _). vm_compute. exact I.
  - intros i e H. do 3 (destruct i as [|i]; [by injection H as <-|]). done.
Qed.

Definition no_result : RollbackResult := Rolled true [] [].
Definition rolled (x : result exc RollbackResult) : RollbackResult := match x with Ok b => b | Raise _ => no_result end.
Lemma rolled_eq {S} (x : result exc RollbackResult * S) : is_ok x.1 = true -> x = (Ok (rolled x.1), x.2).
Proof. by destruct x as [[]]. Qed.

Definition rollback_of (b : temper) := run_rollback (U := demo b) true (half_way b).

Lemma rollback_newest_first_witness :
  map destination_id (compensation_order three) = [11; 9; 8] /\
  map destination_id (compensation_order (led (U := demo stubborn) (rollback_of stubborn).2)) = [9] /\
  undone (U := demo calm) {[(CHANNEL_GROUP, 7)]} (rollback_of calm).2.
Proof.
  assert (Hok : forall b, is_ok (rollback_of b).1 = true -> rollback_of b = (Ok (rolled (rollback_of b).1), (rollback_of b).2))
    by (intros b; apply rolled_eq).
  destruct (rollback_newest_first (U := demo calm) true {[(CHANNEL_GROUP, 7)]} (half_way calm) _ _ (half_way_tracked calm)
    (Hok calm ltac:(vm_compute; reflexivity))) as (_ & _ & _ & Hu).
  split_and!; [vm_compute; reflexivity|vm_compute; reflexivity|]. apply Hu. vm_compute. reflexivity.
Defined.

(** A destination that cannot list its groups. *)
Definition hidden_groups : temper := Temper (fun _ => None) (fun t => bool_decide (t = CHANNEL_GROUP)) (fun _ => false) (fun _ => false).
Lemma failed_read_stops_writes_witness :
  let x := _import_category (U := demo hidden_groups) true false channel_groups [named 3 "News"] true (start hidden_groups false before) in
  led (U := demo hidden_groups) x.2 = [] /\ failed (category CHANNEL_GROUP (rep (U := demo hidden_groups) x.2)) = 1.
Proof.
  cbn zeta. split; [|vm_compute; reflexivity].
  apply (failed_read_stops_writes (U := demo hidden_groups) channel_groups false [named 3 "News"] true (start hidden_groups false before)
    (_import_category (U := demo hidden_groups) true false channel_groups [named 3 "News"] true (start hidden_groups false before)).1 _).
  - apply list_elem_of_In. cbn. by left.
  - by right.
  - reflexivity.
  - apply surjective_pairing.
Defined.

Lemma preview_predicts_import_witness :
  let x := _import_category (U := demo calm) true true channel_groups (match plan_category group_plan CHANNEL_GROUP with Some c => entities c | None => [] end) true (start calm false before) in
  let y := _import_category (U := demo calm) true false channel_groups (match plan_category group_plan CHANNEL_GROUP with Some c => entities c | None => [] end) true (start calm false before) in
  x.1 = y.1 /\ would_create (category CHANNEL_GROUP (rep (U := demo calm) x.2)) = 2 /\
  created (category CHANNEL_GROUP (rep (U := demo calm) y.2)) = 2.
Proof.
  cbn zeta. destruct (preview_predicts_import (U := demo calm) true channel_groups ltac:(apply list_elem_of_In; cbn; by left)
    ltac:(intros u p w; cbn; unfold demo_create; cbn; by destruct (name_sent p))
    (match plan_category group_plan CHANNEL_GROUP with Some c => entities c | None => [] end) true (start calm false before)
    eq_refl eq_refl) as [Hr Ha].
  split; [exact Hr|]. split; [vm_compute; reflexivity|].
  pose proof (agree_created _ _ _ _ Ha) as Hc. vm_compute in Hc. vm_compute. exact (eq_sym Hc) || reflexivity.
Defined.

(** ** What a restore does not undo *)

(** An archived id that is not a number: the row is created, its record raises before it is
    made, and the rollback reports the destination restored. *)
Example unnumbered_row_survives :
  shown (restore calm (archive [[("id", PStr "abc"); ("name", PStr "News")]]) true false) =
  (true, Some PARTIAL_FAILED_ROLLED_BACK, [(CHANNEL_GROUP, 7); (CHANNEL_GROUP, 9)], 1%nat, Some 1%nat).
Proof. vm_compute. reflexivity. Qed.

(** A create that timed out was served. *)
Definition slow_sport : temper :=
  Temper (fun n => if bool_decide (n = "Sport") then Some (Exc Timeout "ReadTimeout" "") else None) (fun _ => false) (fun _ => false) (fun _ => false).
Example unanswered_row_survives :
  shown (restore slow_sport group_plan true false) =
  (true, Some PARTIAL_FAILED_ROLLED_BACK, [(CHANNEL_GROUP, 7); (CHANNEL_GROUP, 10)], 2%nat, Some 2%nat).
Proof. vm_compute. reflexivity. Qed.

(** The ledger's file is not written between the creates of a category. *)
Example crash_window_is_a_category :
  let x := _import_category (U := demo calm) true false channel_groups [named 3 "News"; named 9 "Sport"] true (start calm false before) in
  length (led (U := demo calm) x.2) = 2%nat /\ saved (Upstream := demo calm) (dest (U := demo calm) x.2) = None.
Proof. vm_compute. by split. Qed.

(** A ledger that cannot be written leaves the rows: no rollback, no outcome. *)
Definition full_disk : temper := Temper (fun _ => None) (fun _ => false) (fun _ => false) (fun n => (1 <=? n)%nat).
Example full_disk_leaves_rows :
  shown (restore full_disk group_plan true false) = (false, None, [(CHANNEL_GROUP, 7); (SERVER_GROUP, 8)], 1%nat, None).
Proof. vm_compute. reflexivity. Qed.

(** A preview's note on a non-fatal category says that the rest was applied. *)
Example preview_claims_apply : non_fatal_note USER 1 =
  "1 user row(s) could not be restored; this category is non-fatal, so the rest of the restore was applied and nothing was rolled back.".
Proof. reflexivity. Qed.

(** Server groups are named uniquely upstream and not checked before the apply. *)
Example duplicate_server_groups_pass :
  run_preflight (Plan (PDict [("schema_version", PInt 1)]) [Slice SERVER_GROUP [named 1 "Pool"; named 2 "Pool"] true] new_remap) 10 = Ok [].
Proof. reflexivity. Qed.
End RestoreDemo.
