(* ===== verification/PyNet.v ===== *)
(** * Python's [ipaddress] module: addresses, networks and their text

    An address is its integer (32 or 128 bits) with, for IPv6, the zone it is scoped to.  The
    text of an address reads back as the address ([ip_address_str]). *)
From S2P Require Import Prelude PyValue PyText PyDatetime.
From stdpp Require Import list strings.
Open Scope Z_scope.

Inductive ip := V4 (n : Z) | V6 (n : Z) (scope : string).
#[export] Instance ip_eq_dec : EqDecision ip.
Proof. solve_decision. Defined.

Definition width (a : ip) : Z := match a with V4 _ => 32 | V6 _ _ => 128 end.
Definition number (a : ip) : Z := match a with V4 n | V6 n _ => n end.

(** ** Networks *)

(** The address of a network and the length of its prefix. *)
Record network := Net { net_address : ip; net_prefix : Z }.
Definition net4 (a b c d len : Z) : network := Net (V4 (((a * 256 + b) * 256 + c) * 256 + d)) len.
(** A network whose address is [hextets] followed by zeros. *)
Definition net6 (hextets : list Z) (len : Z) : network :=
  Net (V6 (Z.shiftl (fold_left (fun n h => n * 65536 + h) hextets 0) (16 * (8 - Z.of_nat (length hextets)))) "") len.

Definition same_version (a b : ip) : bool :=
  match a, b with V4 _, V4 _ | V6 _ _, V6 _ _ => true | _, _ => false end.

(** [ip in net] *)
Definition in_net (a : ip) (net : network) : bool :=
  let host_bits := width a - net_prefix net in
  same_version a (net_address net) &&
  (Z.shiftr (number a) host_bits =? Z.shiftr (number (net_address net)) host_bits).
Definition in_any (a : ip) (nets : list network) : bool := existsb (in_net a) nets.

Definition private_networks : list network :=
  [net4 0 0 0 0 8; net4 10 0 0 0 8; net4 127 0 0 0 8; net4 169 254 0 0 16; net4 172 16 0 0 12; net4 192 0 0 0 24;
   net4 192 0 0 170 31; net4 192 0 2 0 24; net4 192 168 0 0 16; net4 198 18 0 0 15; net4 198 51 100 0 24;
   net4 203 0 113 0 24; net4 240 0 0 0 4; net4 255 255 255 255 32;
   net6 [0; 0; 0; 0; 0; 0; 0; 1] 128; net6 [] 128; net6 [0; 0; 0; 0; 0; 0xffff] 96; net6 [0x64; 0xff9b; 1] 48;
   net6 [0x100] 64; net6 [0x2001] 23; net6 [0x2001; 0xdb8] 32; net6 [0x2002] 16; net6 [0x3fff] 20;
   net6 [0xfc00] 7; net6 [0xfe80] 10].
Definition private_exceptions : list network :=
  [net4 192 0 0 9 32; net4 192 0 0 10 32;
   net6 [0x2001; 1; 0; 0; 0; 0; 0; 1] 128; net6 [0x2001; 1; 0; 0; 0; 0; 0; 2] 128; net6 [0x2001; 3] 32;
   net6 [0x2001; 4; 0x112] 48; net6 [0x2001; 0x20] 28; net6 [0x2001; 0x30] 28].
Definition reserved_networks : list network :=
  [net4 240 0 0 0 4; net6 [] 8; net6 [0x100] 8; net6 [0x200] 7; net6 [0x400] 6; net6 [0x800] 5; net6 [0x1000] 4;
   net6 [0x4000] 3; net6 [0x6000] 3; net6 [0x8000] 3; net6 [0xa000] 3; net6 [0xc000] 3; net6 [0xe000] 4;
   net6 [0xf000] 5; net6 [0xf800] 6; net6 [0xfe00] 9].

Definition is_private (a : ip) : bool := in_any a private_networks && negb (in_any a private_exceptions).
Definition is_global (a : ip) : bool := negb (in_net a (net4 100 64 0 0 10)) && negb (is_private a).
Definition is_reserved (a : ip) : bool := in_any a reserved_networks.
Definition is_multicast (a : ip) : bool := in_any a [net4 224 0 0 0 4; net6 [0xff00] 8].
Definition is_link_local (a : ip) : bool := in_any a [net4 169 254 0 0 16; net6 [0xfe80] 10].
Definition is_unspecified (a : ip) : bool := number a =? 0.

(** [ip.ipv4_mapped], [ip.sixtofour] of an IPv6 address *)
Definition ipv4_mapped (a : ip) : option ip :=
  match a with
  | V6 n _ => if Z.shiftr n 32 =? 0xffff then Some (V4 (Z.land n 0xffffffff)) else None
  | V4 _ => None
  end.
Definition sixtofour (a : ip) : option ip :=
  match a with
  | V6 n _ => if Z.shiftr n 112 =? 0x2002 then Some (V4 (Z.land (Z.shiftr n 80) 0xffffffff)) else None
  | V4 _ => None
  end.

Definition well_formed (a : ip) : Prop := 0 <= number a < 2 ^ width a.

(** ** Reading an address *)

(** The digits of a number in base [base], as [int(s, base)] reads them. *)
Definition digit_value (c : Ascii.ascii) : Z :=
  let n := Z.of_nat (code c) in
  if (48 <=? n) && (n <=? 57) then n - 48
  else if (97 <=? n) && (n <=? 102) then n - 87
  else if (65 <=? n) && (n <=? 70) then n - 55
  else 16.
Fixpoint based (base acc : Z) (s : string) : option Z :=
  match s with
  | EmptyString => Some acc
  | String c s => if digit_value c <? base then based base (acc * base + digit_value c) s else None
  end.

(** [IPv4Address._parse_octet] *)
Definition parse_octet (s : string) : option Z :=
  if bool_decide (s = "") || (3 <? Z.of_nat (String.length s)) || (bool_decide (s <> "0") && starts_with "0" s) then None
  else n ← based 10 0 s; if n <=? 255 then Some n else None.

Definition v4_of_text (s : string) : option Z :=
  match mapM parse_octet (split_on "."%char s) with
  | Some [a; b; c; d] => Some (((a * 256 + b) * 256 + c) * 256 + d)
  | _ => None
  end.

(** [IPv6Address._parse_hextet] *)
Definition parse_hextet (s : string) : option Z :=
  if bool_decide (s = "") || (4 <? Z.of_nat (String.length s)) then None else based 16 0 s.

Definition is_empty (part : option string) : bool := match part with Some EmptyString => true | _ => false end.

(** The positions of the empty parts strictly between the first and the last. *)
Definition skips (parts : list string) : list nat :=
  List.filter (fun i => is_empty (parts !! i)) (seq 1 (length parts - 2)).

(** How many parts stand before the ["::"], how many it covers, how many stand after it. *)
Definition layout (parts : list string) : option (nat * nat * nat) :=
  let count := length parts in
  let first_empty := is_empty (head parts) in
  let last_empty := is_empty (last parts) in
  match skips parts with
  | [] => if (count =? 8)%nat && negb first_empty && negb last_empty then Some (8, 0, 0)%nat else None
  | [i] =>
      let hi := if first_empty then (i - 1)%nat else i in
      let lo := if last_empty then (count - i - 2)%nat else (count - i - 1)%nat in
      if first_empty && negb (hi =? 0)%nat || last_empty && negb (lo =? 0)%nat || (8 <=? hi + lo)%nat then None
      else Some (hi, 8 - (hi + lo), lo)%nat
  | _ => None
  end.

Definition hextets_value (l : list Z) : Z := fold_left (fun n h => n * 65536 + h) l 0.

(** ['%x' % n] for [n] below 65536 *)
Definition nibble (n : Z) : string := hex_of (Z.to_nat (n mod 16)).
Definition hex_text (n : Z) : string :=
  if n <? 16 then nibble n
  else if n <? 256 then (nibble (n / 16) ++ nibble n)%string
  else if n <? 4096 then (nibble (n / 256) ++ nibble (n / 16) ++ nibble n)%string
  else (nibble (n / 4096) ++ nibble (n / 256) ++ nibble (n / 16) ++ nibble n)%string.

(** A last part with dots is the text of an IPv4 address and stands for two hextets. *)
Definition expand_suffix (parts : list string) : option (list string) :=
  match last parts with
  | Some suffix =>
      if has_char "."%char suffix then
        n ← v4_of_text suffix;
        Some (removelast parts ++ [hex_text (Z.land (Z.shiftr n 16) 0xffff); hex_text (Z.land n 0xffff)])
      else Some parts
  | None => Some parts
  end.

(** [IPv6Address._ip_int_from_string] *)
Definition v6_of_text (s : string) : option Z :=
  let parts := split_on ":"%char s in
  if (length parts <? 3)%nat then None
  else
    parts ← expand_suffix parts;
    if (9 <? length parts)%nat then None
    else
      '(hi, skipped, lo) ← layout parts;
      high ← mapM parse_hextet (take hi parts);
      low ← mapM parse_hextet (drop (length parts - lo) parts);
      Some (hextets_value (high ++ repeat 0 skipped ++ low)).

(** [IPv6Address(s)] *)
Definition v6_address (s : string) : option ip :=
  if has_char "/"%char s then None
  else match split_char "%"%char s with
       | None => n ← v6_of_text s; Some (V6 n "")
       | Some (addr, zone) =>
           if bool_decide (zone = "") || has_char "%"%char zone then None
           else n ← v6_of_text addr; Some (V6 n zone)
       end.

(** [ipaddress.ip_address(s)] *)
Definition ip_address (s : string) : option ip :=
  match v4_of_text s with Some n => Some (V4 n) | None => v6_address s end.

(** ** Writing an address *)

Fixpoint s_join (sep : string) (l : list string) : string :=
  match l with [] => "" | [x] => x | x :: l => (x ++ sep ++ s_join sep l)%string end.

Fixpoint groups (base : Z) (count : nat) (n : Z) (low : list Z) : list Z :=
  match count with O => low | S count => groups base count (n / base) (n mod base :: low) end.

(** The first longest run of ["0"]: where it starts and how long it is. *)
Fixpoint longest (i run best_start best : nat) (l : list string) : nat * nat :=
  match l with
  | [] => (best_start, best)
  | h :: l =>
      if bool_decide (h = "0") then
        if (best <? S run)%nat then longest (S i) (S run) (i - run) (S run) l else longest (S i) (S run) best_start best l
      else longest (S i) 0 best_start best l
  end.

(** [IPv6Address._compress_hextets] *)
Definition compress_hextets (l : list string) : list string :=
  let '(start, run) := longest 0 0 0 0 l in
  if (1 <? run)%nat then
    (if (start =? 0)%nat then [""] else []) ++ take start l ++ [""] ++ drop (start + run) l
    ++ (if (start + run =? length l)%nat then [""] else [])
  else l.

(** [str(ip)] *)
Definition ip_str (a : ip) : string :=
  match a with
  | V4 n => s_join "." (map str_of_Z (groups 256 4 n []))
  | V6 n scope =>
      let text := s_join ":" (compress_hextets (map hex_text (groups 65536 8 n []))) in
      if bool_decide (scope = "") then text else (text ++ "%" ++ scope)%string
  end.

Example addresses :
  map (fun s => ip_str <$> ip_address s) ["192.168.1.10"; "192.168.01.10"; "1.2.3"; "::1"; "::"; "fe80::1%eth0"; "::ffff:10.0.0.1"; "2001:db8:0:0:1:0:0:1";
    "1:2:3:4:5:6:7"; "1::2::3"; "0:0:0:0:0:0:0:1"; "256.1.1.1"; "::1%"; "12345::"; "1:2:3:4:5:6:7::"] =
  [Some "192.168.1.10"; None; None; Some "::1"; Some "::"; Some "fe80::1%eth0"; Some "::ffff:a00:1"; Some "2001:db8::1:0:0:1";
    None; None; Some "::1"; None; None; None; Some "1:2:3:4:5:6:7:0"].
Proof. vm_compute. reflexivity. Qed.

(** ** The text of an address reads back *)

Lemma split_on_plain sep s : has_char sep s = false -> split_on sep s = [s].
Proof.
  induction s as [|c s IH]; cbn [has_char split_on]; [done|].
  intros [Hc Hs]%orb_false_iff. by rewrite Hc, IH.
Qed.

Lemma split_on_app sep a b : has_char sep a = false -> split_on sep (a ++ String sep b) = a :: split_on sep b.
Proof.
  induction a as [|c a IH]; rewrite ?s_app_cons; cbn [has_char split_on]; intros H.
  - change ("" ++ String sep b)%string with (String sep b). cbn [split_on]. by rewrite bool_decide_true.
  - apply orb_false_iff in H as [Hc Ha]. by rewrite Hc, IH.
Qed.

Lemma split_on_join sep l :
  l <> [] -> Forall (fun s => has_char sep s = false) l -> split_on sep (s_join (String sep "") l) = l.
Proof.
  intros Hne H. induction H as [|x l Hx Hl IH]; [done|]. destruct l as [|y l]; [by apply split_on_plain|].
  cbn [s_join]. rewrite s_app_cons. cbn [String.append]. rewrite split_on_app by done. f_equal. by apply IH.
Qed.

Lemma below_256 (P : Z -> bool) n : forallb (fun i => P (Z.of_nat i)) (seq 0 256) = true -> 0 <= n < 256 -> P n = true.
Proof.
  intros H Hn. rewrite forallb_forall in H. specialize (H (Z.to_nat n)). rewrite Z2Nat.id in H by lia.
  apply H, in_seq. lia.
Qed.

Lemma octet_text n : 0 <= n < 256 -> parse_octet (str_of_Z n) = Some n /\ has_char "."%char (str_of_Z n) = false.
Proof.
  intros Hn.
  pose proof (below_256 (fun n => bool_decide (parse_octet (str_of_Z n) = Some n /\ has_char "."%char (str_of_Z n) = false)) n) as H.
  cbv beta in H. rewrite bool_decide_eq_true in H. apply H; [vm_compute; reflexivity|done].
Qed.

Lemma groups_value base count n low :
  0 < base -> 0 <= n < base ^ Z.of_nat count ->
  fold_left (fun n h => n * base + h) (groups base count n low) 0 = fold_left (fun n h => n * base + h) low n.
Proof.
  intros Hb. revert n low. induction count as [|count IH]; intros n low Hn; cbn [groups].
  - rewrite Z.pow_0_r in Hn. by replace n with 0 by lia.
  - rewrite Nat2Z.inj_succ, Z.pow_succ_r in Hn by lia. rewrite IH.
    + cbn [fold_left]. f_equal. rewrite (Z.div_mod n base) at 3 by lia. lia.
    + split; [apply Z.div_pos; lia|]. apply Z.div_lt_upper_bound; lia.
Qed.

Lemma groups_bound base count n low :
  0 < base -> Forall (fun h => 0 <= h < base) low -> Forall (fun h => 0 <= h < base) (groups base count n low).
Proof.
  intros Hb. revert n low. induction count as [|count IH]; intros n low Hl; cbn [groups]; [done|].
  apply IH. constructor; [by apply Z.mod_pos_bound|done].
Qed.

Lemma groups_length base count n low : length (groups base count n low) = (count + length low)%nat.
Proof. revert n low. induction count as [|count IH]; intros n low; cbn [groups]; [done|]. rewrite IH. cbn. lia. Qed.

Lemma v4_of_str n : 0 <= n < 2 ^ 32 -> v4_of_text (ip_str (V4 n)) = Some n.
Proof.
  intros Hn. unfold v4_of_text, ip_str.
  pose proof (groups_bound 256 4 n [] ltac:(lia) ltac:(constructor)) as Hb.
  pose proof (groups_length 256 4 n []) as Hlen.
  pose proof (groups_value 256 4 n [] ltac:(lia) Hn) as Hv. cbn [fold_left] in Hv.
  destruct (groups 256 4 n []) as [|a [|b [|c [|d [|]]]]]; try done. clear Hlen. cbn [fold_left] in Hv.
  repeat match goal with H : Forall _ (_ :: _) |- _ => apply Forall_cons in H as [? H] end.
  rewrite split_on_join; [|done|repeat constructor; by apply octet_text].
  cbn [map mapM]. rewrite !(fun n H => proj1 (octet_text n H)) by done. cbn. f_equal. lia.
Qed.

(** *** Hextets *)

Lemma nibble_spec n : exists c, nibble n = String c EmptyString /\ digit_value c = n mod 16 /\ has_char ":"%char (nibble n) = false
  /\ has_char "."%char (nibble n) = false /\ has_char "%"%char (nibble n) = false /\ has_char "/"%char (nibble n) = false.
Proof.
  unfold nibble. pose proof (Z.mod_pos_bound n 16 ltac:(lia)) as Hn.
  assert (exists k, (k < 16)%nat /\ n mod 16 = Z.of_nat k) as (k & Hk & ->) by (exists (Z.to_nat (n mod 16)); lia).
  rewrite Nat2Z.id. do 16 (destruct k as [|k]; [eexists; split_and!; reflexivity|]). lia.
Qed.

Lemma based_nibble acc n s : based 16 acc (nibble n ++ s) = based 16 (acc * 16 + n mod 16) s.
Proof.
  destruct (nibble_spec n) as (c & -> & Hc & _). rewrite s_app_cons. cbn [based].
  change ("" ++ s)%string with s. rewrite Hc.
  pose proof (Z.mod_pos_bound n 16 ltac:(lia)). case_match; to_prop; [done|lia].
Qed.

Lemma nibble_app n s : exists c, (nibble n ++ s)%string = String c s.
Proof. destruct (nibble_spec n) as (c & -> & _). by exists c; rewrite s_app_cons. Qed.

Lemma nibble_length n s : String.length (nibble n ++ s) = S (String.length s).
Proof. by destruct (nibble_app n s) as [c ->]. Qed.

Lemma parse_hextet_based s :
  (1 <= String.length s <= 4)%nat -> parse_hextet s = based 16 0 s.
Proof.
  intros H. unfold parse_hextet. rewrite bool_decide_false by (intros ->; cbn in H; lia).
  replace (4 <? _) with false by (symmetry; apply Z.ltb_ge; lia). done.
Qed.

Lemma hex_text_shape n : 0 <= n < 65536 -> (1 <= String.length (hex_text n) <= 4)%nat /\ based 16 0 (hex_text n) = Some n.
Proof.
  intros Hn. unfold hex_text. rewrite <- (s_app_nil_r (nibble n)).
  repeat case_match; to_prop; rewrite !nibble_length, !based_nibble; cbn [String.length based]; (split; [lia|]);
    f_equal; Z.div_mod_to_equations; lia.
Qed.

Lemma hex_text_value n : 0 <= n < 65536 -> parse_hextet (hex_text n) = Some n.
Proof. intros Hn. destruct (hex_text_shape n Hn) as [Hl Hv]. by rewrite parse_hextet_based. Qed.

Lemma hex_text_chars n c : c = ":"%char \/ c = "."%char \/ c = "%"%char \/ c = "/"%char -> has_char c (hex_text n) = false.
Proof.
  assert (H : forall m, c = ":"%char \/ c = "."%char \/ c = "%"%char \/ c = "/"%char -> has_char c (nibble m) = false).
  { intros m [->|[->|[->| ->]]]; destruct (nibble_spec m) as (x & _ & _ & ? & ? & ? & ?); done. }
  intros Hc. unfold hex_text. repeat case_match; rewrite ?has_char_app, ?H by done; done.
Qed.

(** *** The run of zeros *)

Lemma longest_zeros full pre run best_start best l :
  full = pre ++ l -> (run <= length pre)%nat -> (best_start + best <= length pre)%nat ->
  (forall j, length pre - run <= j < length pre -> full !! j = Some "0")%nat ->
  (forall j, best_start <= j < best_start + best -> full !! j = Some "0")%nat ->
  forall start count, longest (length pre) run best_start best l = (start, count) ->
  (start + count <= length full)%nat /\ (forall j, start <= j < start + count -> full !! j = Some "0")%nat.
Proof.
  revert pre run best_start best. induction l as [|h l IH]; cbn [longest]; intros pre run bs b -> Hr Hb Hrun Hbest start count.
  - intros [= <- <-]. rewrite length_app. cbn. split; [lia|done].
  - assert (Hpre : forall j, (j < length pre)%nat -> (pre ++ h :: l) !! j = ((pre ++ [h]) ++ l) !! j).
    { intros j _. by rewrite <- app_assoc. }
    assert (Hh : (pre ++ h :: l) !! length pre = Some h) by (by rewrite lookup_app_r, Nat.sub_diag by lia).
    replace (S (length pre)) with (length (pre ++ [h])) by (rewrite length_app; cbn; lia).
    replace (pre ++ h :: l) with ((pre ++ [h]) ++ l) in * by (by rewrite <- app_assoc).
    case_bool_decide as Hz; [case_match; to_prop|]; intros Hl; eapply IH; try exact Hl; try reflexivity; try rewrite length_app; cbn [length]; try lia;
      try (intros j Hj; destruct (decide (j = length pre)) as [->|]; [by rewrite Hh, Hz|first [apply Hrun; lia|apply Hbest; lia]]);
      try (intros j Hj; first [apply Hbest; lia|lia]).
Qed.

Definition plain (t : string) : Prop := has_char ":"%char t = false /\ has_char "."%char t = false.
Definition hextet (t : string) (v : Z) : Prop := (exists c s, t = String c s) /\ plain t /\ parse_hextet t = Some v.

Lemma compressed_plain ts : Forall plain ts -> Forall plain (compress_hextets ts).
Proof.
  intros H. unfold compress_hextets. destruct (longest 0 0 0 0 ts) as [start run].
  assert (He : plain "") by done.
  case_match; [|done]. repeat apply Forall_app_2; try (by repeat constructor).
  - by case_match; repeat constructor.
  - by apply Forall_take.
  - by apply Forall_drop.
  - by case_match; repeat constructor.
Qed.

Lemma no_suffix parts : Forall plain parts -> expand_suffix parts = Some parts.
Proof.
  intros H. unfold expand_suffix. destruct (last parts) as [t|] eqn:Ht; [|done].
  apply last_Some_elem_of in Ht. rewrite Forall_forall in H. by destruct (H t Ht) as [_ ->].
Qed.

Lemma zero_hextet v : hextet "0" v -> v = 0.
Proof. intros (_ & _ & H). by injection H as <-. Qed.

(** The compressed parts of eight hextets read back as the eight. *)
Lemma compressed_reads ts vs :
  length ts = 8%nat -> Forall2 hextet ts vs ->
  (let parts := compress_hextets ts in
   '(hi, skipped, lo) ← layout parts;
   high ← mapM parse_hextet (take hi parts);
   low ← mapM parse_hextet (drop (length parts - lo) parts);
   Some (high ++ repeat 0 skipped ++ low)) = Some vs /\ (3 <= length (compress_hextets ts) <= 9)%nat.
Proof.
  intros Hl H. unfold compress_hextets. destruct (longest 0 0 0 0 ts) as [start run] eqn:Hz.
  apply (longest_zeros ts [] 0 0 0 ts) in Hz as [Hb Hz]; [|done|cbn; lia|cbn; lia|cbn; lia|cbn; lia].
  rewrite Hl in Hb.
  destruct ts as [|t0 [|t1 [|t2 [|t3 [|t4 [|t5 [|t6 [|t7 [|]]]]]]]]]; try done. clear Hl.
  assert (Hzero : forall j t v, [t0; t1; t2; t3; t4; t5; t6; t7] !! j = Some t -> hextet t v -> (start <= j < start + run)%nat -> v = 0).
  { intros j t v Ht Hv Hj. rewrite Hz in Ht by done. injection Ht as <-. by apply zero_hextet. }
  clear Hz. repeat (apply Forall2_cons_inv_l in H as (? & ? & ?Hh & H & ->)). apply Forall2_nil_inv_l in H as ->.
  pose proof (Hzero 0%nat _ _ eq_refl Hh). pose proof (Hzero 1%nat _ _ eq_refl Hh0). pose proof (Hzero 2%nat _ _ eq_refl Hh1).
  pose proof (Hzero 3%nat _ _ eq_refl Hh2). pose proof (Hzero 4%nat _ _ eq_refl Hh3). pose proof (Hzero 5%nat _ _ eq_refl Hh4).
  pose proof (Hzero 6%nat _ _ eq_refl Hh5). pose proof (Hzero 7%nat _ _ eq_refl Hh6). clear Hzero.
  repeat match goal with H : hextet _ _ |- _ => destruct H as ((? & ? & ->) & _ & H) end.
  destruct (1 <? run)%nat eqn:Hrun; to_prop.
  2: { cbn. rewrite Hh, Hh0, Hh1, Hh2, Hh3, Hh4, Hh5, Hh6. split; [done|lia]. }
  do 7 (destruct start as [|start];
    [do 9 (destruct run as [|run]; [first [lia|cbn;
       repeat match goal with H : _ -> ?v = 0 |- _ => first [rewrite H by lia; clear H|clear H] end;
       cbn; rewrite ?Hh, ?Hh0, ?Hh1, ?Hh2, ?Hh3, ?Hh4, ?Hh5, ?Hh6; split; [done|lia]]|]); lia|]); lia.
Qed.

Lemma hextets_read vs :
  length vs = 8%nat -> Forall (fun h => 0 <= h < 65536) vs ->
  v6_of_text (s_join ":" (compress_hextets (map hex_text vs))) = Some (hextets_value vs).
Proof.
  intros Hl Hb.
  assert (Hh : Forall2 hextet (map hex_text vs) vs).
  { clear Hl. induction Hb as [|h vs Hh Hb IH]; cbn [map]; constructor; [|done]. split_and!.
    - destruct (hex_text_shape h Hh) as [Hs _]. destruct (hex_text h); [cbn in Hs; lia|by repeat eexists].
    - split; apply hex_text_chars; auto.
    - by apply hex_text_value. }
  assert (Hp : Forall plain (compress_hextets (map hex_text vs))).
  { apply compressed_plain. rewrite Forall_forall. intros t (v & -> & _)%list_elem_of_fmap. split; apply hex_text_chars; auto. }
  destruct (compressed_reads (map hex_text vs) vs) as [Hr Hlen]; [by rewrite length_map|done|].
  unfold v6_of_text. rewrite split_on_join.
  2: { intros E. rewrite E in Hlen. cbn in Hlen. lia. }
  2: { eapply Forall_impl; [exact Hp|]. by intros t []. }
  destruct (_ <? 3)%nat eqn:Hlt; to_prop; [lia|]. rewrite no_suffix by done. cbn [mbind option_bind].
  destruct (9 <? _)%nat eqn:Hgt; to_prop; [lia|].
  cbv zeta in Hr. destruct (layout _) as [[[hi skipped] lo]|]; [|done]. cbn [mbind option_bind] in Hr |- *.
  destruct (mapM _ (take _ _)) as [high|]; [|done]. cbn [mbind option_bind] in Hr |- *.
  destruct (mapM _ (drop _ _)) as [low|]; [|done]. cbn [mbind option_bind] in Hr |- *. by injection Hr as ->.
Qed.

Lemma has_char_join c l :
  has_char c (s_join ":" l) = true -> c <> ":"%char -> exists t, t ∈ l /\ has_char c t = true.
Proof.
  intros H Hc. induction l as [|x l IH]; [done|]. destruct l as [|y l]; [exists x; split; [by left|done]|].
  cbn [s_join] in H. rewrite !has_char_app in H. apply orb_prop in H as [H|H]; [exists x; split; [by left|done]|].
  apply orb_prop in H as [H|H]; [cbn in H; by rewrite bool_decide_false in H by congruence|].
  destruct (IH H) as (t & Ht & Htc). exists t. split; [by right|done].
Qed.

(** The zone of an address that has one is a word without ["%"] and ["/"]. *)
Definition zone_ok (a : ip) : Prop :=
  match a with V4 _ => True | V6 _ scope => has_char "%"%char scope = false /\ has_char "/"%char scope = false end.

Lemma v6_text_chars n c :
  0 <= n -> c = "%"%char \/ c = "/"%char ->
  has_char c (s_join ":" (compress_hextets (map hex_text (groups 65536 8 n [])))) = false.
Proof.
  intros Hn Hc. apply not_true_iff_false. intros H. apply has_char_join in H as (t & Ht & H); [|by destruct Hc as [-> | ->]].
  assert (He : t = "" \/ t ∈ map hex_text (groups 65536 8 n [])).
  { unfold compress_hextets in Ht. destruct (longest _ _ _ _ _) as [start run]. case_match; [|by right].
    rewrite !elem_of_app in Ht. destruct Ht as [Ht|[Ht|[Ht|[Ht|Ht]]]]; repeat case_match;
      first [by apply not_elem_of_nil in Ht|left; by apply list_elem_of_singleton in Ht
            |right; by apply subseteq_take in Ht|right; by apply subseteq_drop in Ht]. }
  destruct He as [->|(h & -> & _)%Prelude.elem_of_map]; [done|]. rewrite hex_text_chars in H; [done|destruct Hc; auto].
Qed.

Lemma split_on_has c sep s : c <> sep -> has_char c s = existsb (has_char c) (split_on sep s).
Proof.
  intros Hc. induction s as [|x s IH]; [done|]. cbn [has_char split_on]. rewrite IH. destruct (decide (x = sep)) as [->|Hx].
  - rewrite (bool_decide_true (sep = sep)) by done. by rewrite bool_decide_false by congruence.
  - rewrite (bool_decide_false (x = sep)) by done. destruct (split_on sep s) as [|w ws]; cbn [existsb has_char]; [by rewrite !orb_false_r|].
    cbn [existsb has_char]. by rewrite orb_assoc.
Qed.

Lemma octet_no_colon s n : parse_octet s = Some n -> has_char ":"%char s = false.
Proof.
  unfold parse_octet. case_match; [done|]. destruct (based 10 0 s) as [v|] eqn:Hv; [|done]. intros _. clear -Hv.
  revert Hv. generalize 0. induction s as [|c s IH]; [done|]. cbn [based has_char]. intros acc.
  destruct (decide (c = ":"%char)) as [->|Hc]; [done|]. rewrite bool_decide_false by done. case_match; [|done]. apply IH.
Qed.

Lemma v4_no_colon s n : v4_of_text s = Some n -> has_char ":"%char s = false.
Proof.
  unfold v4_of_text. rewrite (split_on_has _ "."%char) by done.
  destruct (mapM parse_octet (split_on "."%char s)) as [octets|] eqn:H; [|done]. intros _.
  apply mapM_Some in H. induction H as [|t v ts vs Ht _ IH]; [done|]. cbn [existsb]. by rewrite (octet_no_colon _ _ Ht), IH.
Qed.

Lemma v6_not_v4 s n : v6_of_text s = Some n -> has_char ":"%char s = true.
Proof.
  intros H. destruct (has_char ":"%char s) eqn:Hc; [done|]. unfold v6_of_text in H. by rewrite split_on_plain in H.
Qed.

(** The text of an address is read as that address and no other. *)
Theorem ip_address_str a : well_formed a -> zone_ok a -> ip_address (ip_str a) = Some a.
Proof.
  unfold well_formed, ip_address. destruct a as [n|n scope]; cbn [number width]; intros Hn Hz.
  { by rewrite v4_of_str. }
  assert (Hv : v6_of_text (s_join ":" (compress_hextets (map hex_text (groups 65536 8 n [])))) = Some n).
  { rewrite hextets_read; [|by rewrite groups_length|by apply groups_bound]. unfold hextets_value. by rewrite groups_value. }
  pose proof (v6_not_v4 _ _ Hv) as Hc. pose proof (v6_text_chars n "%"%char (proj1 Hn) ltac:(auto)) as Hp.
  pose proof (v6_text_chars n "/"%char (proj1 Hn) ltac:(auto)) as Hs. destruct Hz as [Hz1 Hz2]. unfold ip_str.
  destruct (v4_of_text _) as [k|] eqn:H4.
  { apply v4_no_colon in H4. case_bool_decide; [congruence|]. by rewrite has_char_app, Hc in H4. }
  unfold v6_address. case_bool_decide as He.
  - rewrite Hs, (proj2 (split_char_None _ _) Hp), Hv, He. done.
  - rewrite s_app_cons. change ("" ++ scope)%string with scope. rewrite has_char_app. cbn [has_char]. rewrite Hs, Hz2.
    rewrite bool_decide_false by done. cbn [orb]. rewrite split_char_app by done. rewrite Hz1, bool_decide_false by done. cbn [orb]. by rewrite Hv.
Qed.

(** ** Addresses read from text fit their width *)

Lemma based_bound base s : 0 < base -> forall acc v, 0 <= acc -> based base acc s = Some v -> 0 <= v < (acc + 1) * base ^ Z.of_nat (String.length s).
Proof.
  intros Hb. induction s as [|c s IH]; intros acc v Ha; cbn [based String.length].
  - intros [= <-]. rewrite Z.pow_0_r. lia.
  - case_match; [|done]. to_prop. assert (0 <= digit_value c) by (unfold digit_value; repeat case_match; to_prop; lia).
    intros Hv. apply IH in Hv; [|nia]. rewrite Nat2Z.inj_succ, Z.pow_succ_r by lia.
    pose proof (Z.pow_pos_nonneg base (Z.of_nat (String.length s)) Hb ltac:(lia)). nia.
Qed.

Lemma octet_bound s v : parse_octet s = Some v -> 0 <= v < 256.
Proof.
  unfold parse_octet. case_match; [done|]. destruct (based 10 0 s) as [w|] eqn:Hw; [|done]. cbn.
  case_match; [|done]. intros [= <-]. apply based_bound in Hw; [|lia|lia]. to_prop. lia.
Qed.

Lemma v4_bound s n : v4_of_text s = Some n -> 0 <= n < 2 ^ 32.
Proof.
  unfold v4_of_text. destruct (mapM parse_octet _) as [l|] eqn:H; [|done]. apply mapM_Some in H.
  assert (Hb : Forall (fun v => 0 <= v < 256) l).
  { induction H; constructor; [by eapply octet_bound|done]. }
  destruct l as [|a [|b [|c [|d [|]]]]]; try done. intros [= <-].
  repeat (apply Forall_cons in Hb as [? Hb]). lia.
Qed.

Lemma hextet_bound s v : parse_hextet s = Some v -> 0 <= v < 65536.
Proof.
  unfold parse_hextet. case_match eqn:Hl; [done|]. to_prop. intros Hv. apply based_bound in Hv; [|lia|lia].
  assert (16 ^ Z.of_nat (String.length s) <= 16 ^ 4) by (apply Z.pow_le_mono_r; lia). lia.
Qed.

Lemma hextets_value_bound l : Forall (fun v => 0 <= v < 65536) l -> 0 <= hextets_value l < 65536 ^ Z.of_nat (length l).
Proof.
  unfold hextets_value. intros H. cut (forall acc, 0 <= acc -> 0 <= fold_left (fun n h => n * 65536 + h) l acc < (acc + 1) * 65536 ^ Z.of_nat (length l)).
  { intros Hc. specialize (Hc 0 ltac:(lia)). lia. }
  induction H as [|h l Hh Hl IH]; intros acc Ha; cbn [fold_left length].
  - rewrite Z.pow_0_r. lia.
  - specialize (IH (acc * 65536 + h) ltac:(lia)). rewrite Nat2Z.inj_succ, Z.pow_succ_r by lia.
    pose proof (Z.pow_pos_nonneg 65536 (Z.of_nat (length l)) ltac:(lia) ltac:(lia)). nia.
Qed.

Lemma layout_total parts hi skipped lo : layout parts = Some (hi, skipped, lo) -> (hi + skipped + lo = 8)%nat.
Proof.
  unfold layout. destruct (skips parts) as [|i [|]]; [| |done].
  - case_match; [|done]. by intros [= <- <- <-].
  - destruct (_ || (8 <=? _)%nat) eqn:E; [done|]. to_prop. intros [= <- <- <-]. lia.
Qed.

Lemma mapM_hextets l vs : mapM parse_hextet l = Some vs -> Forall (fun v => 0 <= v < 65536) vs /\ length vs = length l.
Proof.
  intros H%mapM_Some. split; [|symmetry; by eapply Forall2_length]. induction H; constructor; [by eapply hextet_bound|done].
Qed.

Lemma v6_bound s n : v6_of_text s = Some n -> 0 <= n < 2 ^ 128.
Proof.
  unfold v6_of_text. case_match; [done|]. destruct (expand_suffix _) as [parts|]; [|done]. cbn [mbind option_bind].
  case_match; [done|]. destruct (layout parts) as [[[hi skipped] lo]|] eqn:Hl; [|done]. cbn [mbind option_bind].
  destruct (mapM _ (take _ _)) as [high|] eqn:Hh; [|done]. cbn [mbind option_bind].
  destruct (mapM _ (drop _ _)) as [low|] eqn:Hw; [|done]. cbn [mbind option_bind]. intros [= <-].
  apply layout_total in Hl. apply mapM_hextets in Hh as [Hh Hhl], Hw as [Hw Hwl].
  rewrite length_take in Hhl. rewrite length_drop in Hwl.
  destruct (hextets_value_bound (high ++ repeat 0 skipped ++ low)) as [H1 H2].
  { rewrite !Forall_app. split_and!; [done| |done]. apply Forall_forall. intros v Hv. apply list_elem_of_In, repeat_spec in Hv as ->. lia. }
  split; [done|]. eapply Z.lt_le_trans; [exact H2|]. change (2 ^ 128) with (65536 ^ 8).
  rewrite !length_app, repeat_length. apply Z.pow_le_mono_r; lia.
Qed.

Theorem ip_address_well_formed s a : ip_address s = Some a -> well_formed a.
Proof.
  unfold ip_address, well_formed. destruct (v4_of_text s) as [n|] eqn:H4.
  { intros [= <-]. by apply v4_bound in H4. }
  unfold v6_address. case_match; [done|]. destruct (split_char _ s) as [[addr zone]|].
  - case_match; [done|]. destruct (v6_of_text addr) as [n|] eqn:H6; [|done]. intros [= <-]. by apply v6_bound in H6.
  - destruct (v6_of_text s) as [n|] eqn:H6; [|done]. intros [= <-]. by apply v6_bound in H6.
Qed.
