(* ===== verification/PyUrl.v ===== *)
(** * Python's [urllib.parse] on ASCII text: [urlsplit], [urljoin]

    As the code uses them, with the checks of bracketed hosts; the errors are [ValueError]s. *)
From S2P Require Import Prelude PyValue PyText PyDatetime PyState PyNet.
From stdpp Require Import list strings.
Open Scope Z_scope.
Open Scope py_scope.

Definition value_error (text : string) : exc := Exc Other "ValueError" text.

(** [s.partition(c)]: the text before the first [c], whether there is one, the text after. *)
Definition partition (c : Ascii.ascii) (s : string) : string * bool * string :=
  match split_char c s with Some (a, b) => (a, true, b) | None => (s, false, "") end.
(** [s.rpartition(c)[2]] *)
Definition after_last (c : Ascii.ascii) (s : string) : string :=
  match last (split_on c s) with Some t => t | None => s end.

Record split_result := Split { scheme : string; netloc : string; path : string; query : string; fragment : string }.

Definition is_c0_or_space (c : Ascii.ascii) : bool := (code c <=? 32)%nat.
(** Tabs and line ends are removed wherever they are. *)
Definition is_removed (c : Ascii.ascii) : bool :=
  has_char c (String (Ascii.ascii_of_nat 9) (String (Ascii.ascii_of_nat 10) (String (Ascii.ascii_of_nat 13) EmptyString))).
Definition is_scheme_char (c : Ascii.ascii) : bool := is_alpha c || is_decimal c || has_char c "+-.".
Definition all_chars (p : Ascii.ascii -> bool) (s : string) : bool := bool_decide (s_filter p s = s).

(** The part before the first character that satisfies [p], and the rest from it on. *)
Fixpoint span_until (p : Ascii.ascii -> bool) (s : string) : string * string :=
  match s with
  | EmptyString => ("", "")
  | String c s' => if p c then ("", s) else let '(a, b) := span_until p s' in (String c a, b)
  end.

(** [_hostinfo]: host and port of a network location. *)
Definition hostinfo (loc : string) : string * option string :=
  let info := after_last "@"%char loc in
  let '(_, bracket, bracketed) := partition "["%char info in
  let '(host, port) :=
    if bracket then let '(host, _, rest) := partition "]"%char bracketed in (host, (partition ":"%char rest).2)
    else let '(host, _, port) := partition ":"%char info in (host, port) in
  (host, if bool_decide (port = "") then None else Some port).

Definition is_hex (c : Ascii.ascii) : bool := digit_value c <? 16.

(** [_check_bracketed_host]: [v] hex digits [.] anything, or an IPv6 address *)
Definition check_bracketed_host (host : string) : result exc unit :=
  if starts_with "v" host then
    match partition "."%char host with
    | (String _ v, true, rest) =>
        if negb (bool_decide (v = "")) && all_chars is_hex v && negb (bool_decide (rest = "")) && negb (has_char (Ascii.ascii_of_nat 10) rest) then Ok tt
        else Raise (value_error "IPvFuture address is invalid")
    | _ => Raise (value_error "IPvFuture address is invalid")
    end
  else
    match ip_address host with
    | Some (V6 _ _) => Ok tt
    | Some (V4 _) => Raise (value_error "An IPv4 address cannot be in brackets")
    | None => Raise (value_error (repr_string host ++ " does not appear to be an IPv4 or IPv6 address"))
    end.

Definition check_bracketed_netloc (loc : string) : result exc unit :=
  let info := after_last "@"%char loc in
  let '(before, bracket, bracketed) := partition "["%char info in
  if bracket then
    let '(host, _, port) := partition "]"%char bracketed in
    if negb (bool_decide (before = "")) || (negb (bool_decide (port = "")) && negb (starts_with ":" port))
    then Raise (value_error "Invalid IPv6 URL")
    else check_bracketed_host host
  else check_bracketed_host (partition ":"%char info).1.1.

(** [urlsplit(url, scheme)] *)
Definition urlsplit_with (default : string) (url : string) : result exc split_result :=
  let url := s_filter (fun c => negb (is_removed c)) (lstrip_chars is_c0_or_space url) in
  let '(sch, rest) :=
    match split_char ":"%char url with
    | Some (String c s as a, b) => if is_alpha c && all_chars is_scheme_char a then (lower a, b) else (default, url)
    | _ => (default, url)
    end in
  let '(loc, rest) :=
    match drop_prefix "//" rest with
    | Some after => span_until (fun c => has_char c "/?#") after
    | None => ("", rest)
    end in
  let! _ := if xorb (has_char "["%char loc) (has_char "]"%char loc) then Raise (value_error "Invalid IPv6 URL")
            else if has_char "["%char loc then check_bracketed_netloc loc else Ok tt in
  let '(rest, _, frag) := partition "#"%char rest in
  let '(rest, _, quer) := partition "?"%char rest in
  Ok (Split sch loc rest quer frag).
Definition urlsplit : string -> result exc split_result := urlsplit_with "".

(** [parts.hostname]: [None] when empty, lowered except for a zone *)
Definition hostname (p : split_result) : option string :=
  let host := (hostinfo (netloc p)).1 in
  if bool_decide (host = "") then None
  else let '(name, percent, zone) := partition "%"%char host in
       Some (lower name ++ (if percent then "%" else "") ++ zone)%string.

(** [parts.port] *)
Definition port (p : split_result) : result exc (option Z) :=
  match (hostinfo (netloc p)).2 with
  | None => Ok None
  | Some text =>
      match (if all_chars is_decimal text then based 10 0 text else None) with
      | Some n => if n <=? 65535 then Ok (Some n) else Raise (value_error "Port out of range 0-65535")
      | None => Raise (value_error ("Port could not be cast to integer value as " ++ repr_string text))
      end
  end.

(** *** [urljoin] *)

Definition uses_relative : list string :=
  [""; "ftp"; "http"; "gopher"; "nntp"; "imap"; "wais"; "file"; "https"; "shttp"; "mms"; "prospero"; "rtsp"; "rtspu"; "sftp";
   "svn"; "svn+ssh"; "ws"; "wss"].
Definition uses_netloc : list string :=
  [""; "ftp"; "http"; "gopher"; "nntp"; "telnet"; "imap"; "wais"; "file"; "mms"; "https"; "shttp"; "snews"; "prospero"; "rtsp";
   "rtspu"; "rsync"; "svn"; "svn+ssh"; "sftp"; "nfs"; "git"; "git+ssh"; "ws"; "wss"].
Definition uses_params : list string :=
  [""; "ftp"; "hdl"; "prospero"; "http"; "imap"; "https"; "shttp"; "rtsp"; "rtspu"; "sip"; "sips"; "mms"; "sftp"; "tel"].
Definition member (x : string) (l : list string) : bool := existsb (fun y => bool_decide (y = x)) l.

(** [_splitparams]: the parameters of the last segment *)
Definition split_params (sch path : string) : string * string :=
  if member sch uses_params then
    match reverse (split_on "/"%char path) with
    | l :: front =>
        let '(segment, semicolon, params) := partition ";"%char l in
        if semicolon then (s_join "/" (reverse (segment :: front)), params) else (path, "")
    | [] => (path, "")
    end
  else (path, "").

(** [urlunparse] *)
Definition unsplit (sch loc path params quer frag : string) : string :=
  let path := if bool_decide (params = "") then path else (path ++ ";" ++ params)%string in
  let url :=
    if negb (bool_decide (loc = "")) || (negb (bool_decide (sch = "")) && member sch uses_netloc && negb (starts_with "//" path)) then
      ("//" ++ loc ++ (if negb (bool_decide (path = "")) && negb (starts_with "/" path) then "/" else "") ++ path)%string
    else path in
  let url := if bool_decide (sch = "") then url else (sch ++ ":" ++ url)%string in
  let url := if bool_decide (quer = "") then url else (url ++ "?" ++ quer)%string in
  if bool_decide (frag = "") then url else (url ++ "#" ++ frag)%string.

Definition drop_last_segment (parts : list string) : list string :=
  if bool_decide (last parts = Some "") then parts else removelast parts.
(** [segments[1:-1] = filter(None, segments[1:-1])] *)
Definition drop_empty_middle (l : list string) : list string :=
  match l with
  | x :: (_ :: _) as rest => x :: List.filter (fun s => negb (bool_decide (s = ""))) (removelast (tail l)) ++ match last rest with Some y => [y] | None => [] end
  | _ => l
  end.
Definition resolve_segments (segments : list string) : list string :=
  fold_left (fun acc seg => if bool_decide (seg = "..") then removelast acc else if bool_decide (seg = ".") then acc else acc ++ [seg])
    segments [].

Definition urljoin (base url : string) : result exc string :=
  if bool_decide (base = "") then Ok url
  else if bool_decide (url = "") then Ok base
  else
    let! b := urlsplit base in
    let! u := urlsplit_with (scheme b) url in
    let '(bpath, bparams) := split_params (scheme b) (path b) in
    let '(upath, params) := split_params (scheme u) (path u) in
    if negb (bool_decide (scheme u = scheme b)) || negb (member (scheme u) uses_relative) then Ok url
    else if member (scheme u) uses_netloc && negb (bool_decide (netloc u = "")) then
      Ok (unsplit (scheme u) (netloc u) upath params (query u) (fragment u))
    else
      let loc := if member (scheme u) uses_netloc then netloc b else netloc u in
      if bool_decide (upath = "") && bool_decide (params = "") then
        Ok (unsplit (scheme u) loc bpath bparams (if bool_decide (query u = "") then query b else query u) (fragment u))
      else
        let base_parts := drop_last_segment (split_on "/"%char bpath) in
        let parts := split_on "/"%char upath in
        let segments := if starts_with "/" upath then parts else drop_empty_middle (base_parts ++ parts) in
        let resolved := resolve_segments segments in
        let resolved := match last segments with
                        | Some s => if bool_decide (s = ".") || bool_decide (s = "..") then resolved ++ [""] else resolved
                        | None => resolved
                        end in
        let joined := s_join "/" resolved in
        Ok (unsplit (scheme u) loc (if bool_decide (joined = "") then "/" else joined) params (query u) (fragment u)).

Example urls :
  (let! p := urlsplit "HTTPS://user:pw@Example.COM:8443/a/b;x?q=1#f" in
   let! n := port p in Ok (scheme p, hostname p, n, path p, query p, fragment p))
  = Ok ("https", Some "example.com", Some 8443, "/a/b;x", "q=1", "f") /\
  map (fun t => urljoin "http://h/a/b/c?q#f" t)
    ["d"; "../d"; "/x/./y"; "//o/z"; "https://p/"; "?k=v"; "#g"; "../../../d"; ""; "d;p"; "."; "ftp:rel"]
  = map Ok ["http://h/a/b/d"; "http://h/a/d"; "http://h/x/y"; "http://o/z"; "https://p/"; "http://h/a/b/c?k=v";
      "http://h/a/b/c?q#g"; "http://h/d"; "http://h/a/b/c?q#f"; "http://h/a/b/d;p"; "http://h/a/b/"; "ftp:rel"] /\
  urlsplit "http://[1.2.3.4]/" = Raise (value_error "An IPv4 address cannot be in brackets") /\
  is_ok (urlsplit "http://x[::1]/") = false /\ (let! p := urlsplit "http://[FE80::1%Eth0]:80/" in Ok (hostname p)) = Ok (Some "fe80::1%Eth0").
Proof. vm_compute. repeat split. Qed.
