(* ===== verification/Ssrf.v ===== *)
(** * The outbound guard: [security/ssrf.py]

    A URL is split, its host resolved once, and every address checked against the policy; the
    target carries the address to connect to.  The resolver is an argument: what
    [getaddrinfo] answers at the time of the call. *)
From S2P Require Import Prelude PyValue PyText PyDatetime PyState PyNet PyUrl.
From stdpp Require Import list strings.
Open Scope Z_scope.
Open Scope py_scope.

Module Ssrf.

Definition MAX_REDIRECTS : Z := 5.
Definition ALLOWED_SCHEMES : list string := ["http"; "https"].

Inductive SSRFMode := LAN_FRIENDLY | PUBLIC_ONLY.
#[export] Instance mode_eq_dec : EqDecision SSRFMode.
Proof. solve_decision. Defined.
Definition mode_value (mode : SSRFMode) : string :=
  match mode with LAN_FRIENDLY => "lan_friendly" | PUBLIC_ONLY => "public_only" end.

Inductive SchemeDowngrade := REFUSE | ALLOW_STREAM_PROBE.
#[export] Instance downgrade_eq_dec : EqDecision SchemeDowngrade.
Proof. solve_decision. Defined.

Definition SSRFError (text : string) : exc := Exc Ssrf "SSRFError" text.

Record ResolvedTarget := Target { t_scheme : string; t_hostname : string; t_port : Z; t_ip : ip; t_url : string }.

Definition default_port (scheme : string) : Z := if bool_decide (scheme = "https") then 443 else 80.
Definition bracketed (host : string) (six : bool) : string := if six then ("[" ++ host ++ "]")%string else host.

Definition host_header (t : ResolvedTarget) : string :=
  let host := bracketed (t_hostname t) (has_char ":"%char (t_hostname t)) in
  if t_port t =? default_port (t_scheme t) then host else (host ++ ":" ++ str_of_Z (t_port t))%string.

(** ** The policy *)

Definition _ALWAYS_ON_V4 : list network := [net4 0 0 0 0 8; net4 169 254 0 0 16; net4 224 0 0 0 4].
Definition _ALWAYS_ON_V6 : list network :=
  [net6 [] 128; net6 [0xfc00] 7; net6 [0xfe80] 10; net6 [0xfec0] 10; net6 [0xff00] 8].
Definition _TOGGLED_V4 : list network :=
  [net4 10 0 0 0 8; net4 172 16 0 0 12; net4 192 168 0 0 16; net4 100 64 0 0 10; net4 127 0 0 0 8].
Definition _TOGGLED_V6 : list network := [net6 [0; 0; 0; 0; 0; 0; 0; 1] 128].

Definition _is_always_on_denied (a : ip) : bool :=
  match a with
  | V4 _ =>
      if in_any a _ALWAYS_ON_V4 then true
      else if is_reserved a || is_multicast a || is_unspecified a then true
      else if is_link_local a then true
      else false
  | V6 _ _ =>
      if in_any a _ALWAYS_ON_V6 then true
      else if in_any a _TOGGLED_V6 then false
      else if is_link_local a || is_multicast a || is_unspecified a then true
      else if is_reserved a then true
      else false
  end.

Definition _is_toggled_band (a : ip) : bool :=
  match a with V4 _ => in_any a _TOGGLED_V4 | V6 _ _ => in_any a _TOGGLED_V6 end.

Definition _unwrap_mapped (a : ip) : ip :=
  match a with
  | V4 _ => a
  | V6 _ _ => match ipv4_mapped a with
              | Some b => b
              | None => match sixtofour a with Some b => b | None => a end
              end
  end.

Definition _ip_allowed (a : ip) (mode : SSRFMode) : bool :=
  let a := _unwrap_mapped a in
  if _is_always_on_denied a then false
  else if _is_toggled_band a then bool_decide (mode = LAN_FRIENDLY)
  else if negb (is_global a) then false
  else true.

(** ** Validation *)

(** The answers of [socket.getaddrinfo(host, port)]: the address texts, or its exception. *)
Definition resolver := string -> Z -> result exc (list string).

Fixpoint unique (seen : list string) (l : list string) : list string :=
  match l with
  | [] => []
  | x :: l => if existsb (fun y => bool_decide (y = x)) seen then unique seen l else x :: unique (x :: seen) l
  end.

Definition _resolve (getaddrinfo : resolver) (host : string) (port : Z) : result exc (list ip) :=
  let! infos := getaddrinfo host port in Ok (omap ip_address (unique [] infos)).

(** [except (socket.gaierror, socket.herror, UnicodeError, OSError)] *)
Definition is_resolution_error (e : exc) : bool :=
  existsb (fun n => bool_decide (n = exc_name e))
    ["gaierror"; "herror"; "OSError"; "TimeoutError"; "ConnectionError"; "PermissionError"; "UnicodeError"; "UnicodeEncodeError"; "UnicodeDecodeError"].

Definition denied_record (mode : SSRFMode) (host : string) (a : ip) : exc :=
  SSRFError (String.concat "" ["Host '"; host; "' resolves to denied address "; ip_str a; " - rejected (DNS-rebinding mitigation, "; mode_value mode; ")"]).

(** [for rec in records: if not _ip_allowed(rec, mode): raise] *)
Fixpoint check_records (mode : SSRFMode) (host : string) (records : list ip) : result exc unit :=
  match records with
  | [] => Ok tt
  | a :: records => if _ip_allowed a mode then check_records mode host records else Raise (denied_record mode host a)
  end.

Definition _validate_parsed (getaddrinfo : resolver) (scheme hostname : string) (port : Z) (url : string) (mode : SSRFMode)
  : result exc ResolvedTarget :=
  if negb (member scheme ALLOWED_SCHEMES) then Raise (SSRFError (String.concat "" ["Disallowed URL scheme '"; scheme; "' (only http/https permitted)"]))
  else if bool_decide (hostname = "") then Raise (SSRFError "Outbound URL has no hostname")
  else
    match ip_address hostname with
    | Some literal =>
        if negb (_ip_allowed literal mode) then
          Raise (SSRFError (String.concat "" ["Destination IP "; hostname; " is denied by SSRF policy ("; mode_value mode; ")"]))
        else Ok (Target scheme hostname port (_unwrap_mapped literal) url)
    | None =>
        match _resolve getaddrinfo hostname port with
        | Raise e =>
            if is_resolution_error e then Raise (SSRFError (String.concat "" ["Could not resolve host '"; hostname; "' - rejected (fail-closed)"]))
            else Raise e
        | Ok [] => Raise (SSRFError (String.concat "" ["Host '"; hostname; "' resolved to no usable address - rejected (fail-closed)"]))
        | Ok (first :: rest) =>
            let! _ := check_records mode hostname (first :: rest) in
            Ok (Target scheme hostname port (_unwrap_mapped first) url)
        end
    end.

(** [except ValueError as exc: raise SSRFError(f"{prefix}: {exc}")] *)
Definition guarded {A} (prefix : string) (r : result exc A) : result exc A :=
  match r with Ok a => Ok a | Raise e => Raise (SSRFError (prefix ++ ": " ++ exc_text e)) end.

Definition _split (url : string) : result exc (string * string * Z) :=
  let! parts := guarded "Could not parse outbound URL" (urlsplit url) in
  let scheme := lower (scheme parts) in
  if negb (member scheme ALLOWED_SCHEMES) then
    Raise (SSRFError (String.concat "" ["Disallowed URL scheme '"; (if bool_decide (scheme = "") then "(none)" else scheme); "' (only http/https permitted)"]))
  else
    let hostname := default "" (hostname parts) in
    let! port := guarded "Invalid port in outbound URL" (port parts) in
    Ok (scheme, hostname, default (default_port scheme) port).

Definition validate_outbound_url (getaddrinfo : resolver) (url : string) (mode : SSRFMode) : result exc ResolvedTarget :=
  let! '(scheme, hostname, port) := _split url in
  _validate_parsed getaddrinfo scheme hostname port url mode.

Definition validate_redirect (getaddrinfo : resolver) (from_url to_url : string) (mode : SSRFMode) (scheme_downgrade : SchemeDowngrade)
  : result exc ResolvedTarget :=
  let! '(from_scheme, _, _) := _split from_url in
  let! parts := urlsplit to_url in
  let to_scheme := lower (scheme parts) in
  if bool_decide (from_scheme = "https") && bool_decide (to_scheme = "http") && negb (bool_decide (scheme_downgrade = ALLOW_STREAM_PROBE))
  then Raise (SSRFError "Refusing redirect that downgrades https to http")
  else validate_outbound_url getaddrinfo to_url mode.

Definition check_redirect_depth (depth : Z) : result exc unit :=
  if MAX_REDIRECTS <? depth then Raise (SSRFError "Redirect chain exceeded cap (5)") else Ok tt.

Record connect_parameters := Connect {
  connect_ip : string; connect_port : Z; server_hostname : string; connect_host_header : string; connect_scheme : string; verify : bool }.
Definition connect_kwargs (t : ResolvedTarget) (verify : bool) : connect_parameters :=
  Connect (ip_str (t_ip t)) (t_port t) (t_hostname t) (host_header t) (t_scheme t) verify.

(** [get_ssrf_mode()] of the setting as stored *)
Definition get_ssrf_mode (raw : string) : SSRFMode :=
  if bool_decide (raw = mode_value PUBLIC_ONLY) then PUBLIC_ONLY else LAN_FRIENDLY.

End Ssrf.
