(* ===== verification/SsrfPolicy.v ===== *)
(** * The policy of the outbound guard as ranges of addresses

    [_ip_allowed] is the composition of the standard library's predicates and five network
    lists; [permitted] is the same decision as a table of ranges.  Both look at an address only
    through comparisons with the ends of ranges, so they agree everywhere because they agree
    at those ends. *)
From S2P Require Import Prelude PyValue PyText PyDatetime PyState PyNet PyUrl Ssrf.
From stdpp Require Import list strings.
Open Scope Z_scope.

Module SsrfPolicy.
Import Ssrf.

(** ** The table *)

Definition at_text (s : string) : Z := match ip_address s with Some a => number a | None => 0 end.
(** From one address to another, both included. *)
Definition between (lo hi : string) (n : Z) : bool := (at_text lo <=? n) && negb (at_text hi + 1 <=? n).
Definition within (ranges : list (string * string)) (n : Z) : bool := existsb (fun '(lo, hi) => between lo hi n) ranges.

(** Allowed on a LAN-friendly installation only. *)
Definition lan_v4 : list (string * string) :=
  [("10.0.0.0", "10.255.255.255"); ("100.64.0.0", "100.127.255.255"); ("127.0.0.0", "127.255.255.255");
   ("172.16.0.0", "172.31.255.255"); ("192.168.0.0", "192.168.255.255")].
Definition lan_v6 : list (string * string) := [("::1", "::1")].
(** Never allowed. *)
Definition never_v4 : list (string * string) :=
  [("0.0.0.0", "0.255.255.255"); ("169.254.0.0", "169.254.255.255"); ("192.0.0.0", "192.0.0.8"); ("192.0.0.11", "192.0.0.255");
   ("192.0.2.0", "192.0.2.255"); ("198.18.0.0", "198.19.255.255"); ("198.51.100.0", "198.51.100.255");
   ("203.0.113.0", "203.0.113.255"); ("224.0.0.0", "255.255.255.255")].
Definition never_v6 : list (string * string) :=
  [("::", "::"); ("::2", "1fff:ffff:ffff:ffff:ffff:ffff:ffff:ffff");
   ("2001::", "2001:1::"); ("2001:1::3", "2001:2:ffff:ffff:ffff:ffff:ffff:ffff");
   ("2001:4::", "2001:4:111:ffff:ffff:ffff:ffff:ffff"); ("2001:4:113::", "2001:1f:ffff:ffff:ffff:ffff:ffff:ffff");
   ("2001:40::", "2001:1ff:ffff:ffff:ffff:ffff:ffff:ffff"); ("2001:db8::", "2001:db8:ffff:ffff:ffff:ffff:ffff:ffff");
   ("3fff::", "3fff:fff:ffff:ffff:ffff:ffff:ffff:ffff"); ("4000::", "ffff:ffff:ffff:ffff:ffff:ffff:ffff:ffff")].

(** The IPv4 address inside [::ffff:0:0/96] or [2002::/16]. *)
Definition destination (a : ip) : ip :=
  match a with
  | V4 _ => a
  | V6 n _ =>
      if between "::ffff:0:0" "::ffff:ffff:ffff" n then V4 (n - at_text "::ffff:0:0")
      else if between "2002::" "2002:ffff:ffff:ffff:ffff:ffff:ffff:ffff" n then V4 ((n - at_text "2002::") / 2 ^ 80)
      else a
  end.

Definition permitted (a : ip) (mode : SSRFMode) : bool :=
  match destination a with
  | V4 n => negb (within never_v4 n) && (negb (within lan_v4 n) || bool_decide (mode = LAN_FRIENDLY))
  | V6 n _ => negb (within never_v6 n) && (negb (within lan_v6 n) || bool_decide (mode = LAN_FRIENDLY))
  end.

(** ** Comparing with the ends is enough *)

(** [r] stands for [n]: they compare alike with every end. *)
Definition stands_for (ends : list Z) (r n : Z) : Prop := forall c, c ∈ ends -> (c <=? n) = (c <=? r).

Lemma representative ends n : 0 <= n -> exists r, r ∈ 0 :: ends /\ 0 <= r <= n /\ stands_for ends r n.
Proof.
  intros Hn. induction ends as [|c ends (r & Hr & Hle & IH)].
  - exists 0. split_and!; [by left|lia|lia|]. by intros c ?%not_elem_of_nil.
  - destruct (decide (r < c <= n)) as [Hc|Hc].
    + exists c. split_and!; [by right; left|lia|lia|]. intros d [->|Hd]%elem_of_cons; [lia|].
      specialize (IH d Hd). destruct (d <=? n) eqn:E1, (d <=? r) eqn:E2, (d <=? c) eqn:E3; to_prop; try done; lia.
    + exists r. split_and!; [|lia|lia|]. { apply elem_of_cons in Hr as [->|Hr]; [by left|by right; right]. }
      intros d [->|Hd]%elem_of_cons; [|by apply IH]. destruct (c <=? n) eqn:E1, (c <=? r) eqn:E2; to_prop; try done; lia.
Qed.

(** The first address of a network and the first after it. *)
Definition ends_of (net : network) : list Z :=
  let size := 2 ^ (width (net_address net) - net_prefix net) in
  let block := number (net_address net) / size in [block * size; (block + 1) * size].

Lemma in_net_ends a net :
  same_version a (net_address net) = true -> net_prefix net <= width a ->
  in_net a net = match ends_of net with [lo; hi] => (lo <=? number a) && negb (hi <=? number a) | _ => false end.
Proof.
  intros Hv Hp. unfold in_net, ends_of. rewrite Hv. cbn [andb].
  assert (Hw : width (net_address net) = width a) by (destruct a, (net_address net); done). rewrite Hw.
  set (h := width a - net_prefix net). assert (Hh : 0 <= h) by (unfold h; lia).
  rewrite !Z.shiftr_div_pow2 by done. pose proof (Z.pow_pos_nonneg 2 h ltac:(lia) Hh). cbv zeta.
  set (size := 2 ^ h) in *. set (block := number (net_address net) / size).
  pose proof (Z.div_mod (number a) size ltac:(lia)). pose proof (Z.mod_pos_bound (number a) size ltac:(lia)).
  destruct (number a / size =? block) eqn:E1, (block * size <=? number a) eqn:E2, ((block + 1) * size <=? number a) eqn:E3; cbn; to_prop; try done; nia.
Qed.

(** Every end the two definitions compare with. *)
Definition all_networks : list network :=
  private_networks ++ private_exceptions ++ reserved_networks ++ [net4 100 64 0 0 10; net4 224 0 0 0 4; net6 [0xff00] 8;
    net4 169 254 0 0 16; net6 [0xfe80] 10] ++ _ALWAYS_ON_V4 ++ _ALWAYS_ON_V6 ++ _TOGGLED_V4 ++ _TOGGLED_V6.
Definition range_ends (ranges : list (string * string)) : list Z :=
  concat (map (fun '(lo, hi) => [at_text lo; at_text hi + 1]) ranges).
Definition all_ranges : list (string * string) :=
  lan_v4 ++ lan_v6 ++ never_v4 ++ never_v6 ++ [("::ffff:0:0", "::ffff:ffff:ffff"); ("2002::", "2002:ffff:ffff:ffff:ffff:ffff:ffff:ffff")].
Definition ends : list Z := Eval vm_compute in 0 :: 1 :: concat (map ends_of all_networks) ++ range_ends all_ranges.

Definition known (c : Z) : bool := existsb (Z.eqb c) ends.
Lemma known_elem c : known c = true -> c ∈ ends.
Proof. intros H. apply existsb_exists in H as (d & Hd & ->%Z.eqb_eq). by apply list_elem_of_In. Qed.

(** Two addresses of one version that compare alike with every end. *)
Record alike (a b : ip) : Prop := {
  alike_version : same_version a b = true;
  alike_ends : forall c, known c = true -> (c <=? number a) = (c <=? number b);
  alike_sign : 0 <= number a /\ 0 <= number b }.

Definition covered (net : network) : bool := (net_prefix net <=? width (net_address net)) && forallb known (ends_of net).

Lemma alike_net a b net : alike a b -> covered net = true -> in_net a net = in_net b net.
Proof.
  intros [Hv He Hs] [Hp Hk]%andb_prop. apply Z.leb_le in Hp.
  destruct (same_version a (net_address net)) eqn:Ha.
  - assert (Hb : same_version b (net_address net) = true) by (destruct a, b, (net_address net); done).
    assert (width a = width (net_address net) /\ width b = width (net_address net)) as [Hwa Hwb] by (destruct a, b, (net_address net); done).
    rewrite !in_net_ends by (done || lia). cbn [ends_of forallb] in *. cbv zeta in *.
    apply andb_prop in Hk as [H1 Hk]. apply andb_prop in Hk as [H2 _]. by rewrite !He by done.
  - assert (Hb : same_version b (net_address net) = false) by (destruct a, b, (net_address net); done).
    unfold in_net. by rewrite Ha, Hb.
Qed.

Lemma alike_any a b nets : alike a b -> forallb covered nets = true -> in_any a nets = in_any b nets.
Proof.
  intros H Hn. induction nets as [|net nets IH]; [done|]. cbn [forallb] in Hn. apply andb_prop in Hn as [H1 H2].
  unfold in_any in *. cbn [existsb]. by rewrite (alike_net a b net H H1), IH.
Qed.

Lemma alike_within a b ranges : alike a b -> forallb known (range_ends ranges) = true -> within ranges (number a) = within ranges (number b).
Proof.
  intros H Hr. induction ranges as [|[lo hi] ranges IH]; [done|].
  change (range_ends ((lo, hi) :: ranges)) with (at_text lo :: at_text hi + 1 :: range_ends ranges) in Hr.
  cbn [forallb] in Hr. apply andb_prop in Hr as [H1 Hr]. apply andb_prop in Hr as [H2 Hr].
  unfold within in *. cbn [existsb]. rewrite IH by done. unfold between. by rewrite !(alike_ends _ _ H) by done.
Qed.

(** The decision on an address that is not unwrapped further. *)
Definition code_decision (a : ip) (mode : SSRFMode) : bool :=
  if _is_always_on_denied a then false
  else if _is_toggled_band a then bool_decide (mode = LAN_FRIENDLY)
  else if negb (is_global a) then false
  else true.
Definition table_decision (a : ip) (mode : SSRFMode) : bool :=
  match a with
  | V4 n => negb (within never_v4 n) && (negb (within lan_v4 n) || bool_decide (mode = LAN_FRIENDLY))
  | V6 n _ => negb (within never_v6 n) && (negb (within lan_v6 n) || bool_decide (mode = LAN_FRIENDLY))
  end.

Lemma alike_unspecified a b : alike a b -> is_unspecified a = is_unspecified b.
Proof.
  intros [_ He Hs]. pose proof (He 1 eq_refl) as H1. unfold is_unspecified.
  destruct (number a =? 0) eqn:E1, (number b =? 0) eqn:E2, (1 <=? number a) eqn:E3, (1 <=? number b) eqn:E4; to_prop; try done; lia.
Qed.

Lemma alike_code a b mode : alike a b -> code_decision a mode = code_decision b mode.
Proof.
  intros H. pose proof (alike_any a b) as Hany. pose proof (alike_net a b) as Hnet.
  unfold code_decision, _is_always_on_denied, _is_toggled_band, is_global, is_private, is_reserved, is_multicast, is_link_local.
  rewrite !(alike_unspecified a b H).
  destruct a, b; try (by destruct H); rewrite ?Hany, ?Hnet by (exact H || (vm_compute; reflexivity)); reflexivity.
Qed.

Lemma alike_table a b mode : alike a b -> table_decision a mode = table_decision b mode.
Proof.
  intros H. pose proof (alike_within a b) as Hw.
  destruct a, b; try (by destruct H); cbn [table_decision number] in *; rewrite !Hw by (exact H || (vm_compute; reflexivity)); reflexivity.
Qed.

(** ** Agreement at the ends *)

Definition wrapped (a : ip) : bool :=
  match a with
  | V4 _ => false
  | V6 n _ => between "::ffff:0:0" "::ffff:ffff:ffff" n || between "2002::" "2002:ffff:ffff:ffff:ffff:ffff:ffff:ffff" n
  end.

Definition agrees (a : ip) : bool :=
  wrapped a || (bool_decide (code_decision a LAN_FRIENDLY = table_decision a LAN_FRIENDLY) &&
                bool_decide (code_decision a PUBLIC_ONLY = table_decision a PUBLIC_ONLY)).

Lemma agree_at_ends : forallb (fun r => agrees (V6 r "") && ((2 ^ 32 <=? r) || agrees (V4 r))) ends = true.
Proof. vm_compute. reflexivity. Qed.

Lemma decisions_agree a mode : well_formed a -> wrapped a = false -> code_decision a mode = table_decision a mode.
Proof.
  intros Hw Hu. unfold well_formed in Hw.
  destruct (representative ends (number a)) as (r & Hr & Hle & Hs); [lia|].
  set (b := match a with V4 _ => V4 r | V6 _ _ => V6 r "" end).
  assert (Hb : alike a b).
  { split; [by destruct a|..]; replace (number b) with r by (by destruct a); [|lia]. intros c Hc. by apply Hs, known_elem. }
  rewrite (alike_code a b mode Hb), (alike_table a b mode Hb).
  assert (Hr' : r ∈ ends). { apply elem_of_cons in Hr as [->|Hr]; [by left|done]. }
  pose proof agree_at_ends as Hall. rewrite forallb_forall in Hall. apply list_elem_of_In in Hr'.
  specialize (Hall r Hr'). apply andb_prop in Hall as [H6 H4].
  assert (Hub : wrapped b = false).
  { destruct a as [|n scope]; [done|]. pose proof (alike_ends _ _ Hb) as Hc. subst b. cbn [wrapped number] in *.
    unfold between in *. rewrite <- !Hc by (vm_compute; reflexivity). exact Hu. }
  assert (Hag : agrees b = true).
  { destruct a; cbn [number width] in *; [|done]. apply orb_prop in H4 as [H4|H4]; [apply Z.leb_le in H4; lia|done]. }
  unfold agrees in Hag. rewrite Hub in Hag. apply andb_prop in Hag as [H1 H2]. to_prop. by destruct mode.
Qed.

Lemma unwrap_destination a : well_formed a -> _unwrap_mapped a = destination a.
Proof.
  destruct a as [n|n scope]; [done|]. unfold well_formed. cbn [number width]. intros Hn.
  unfold _unwrap_mapped, ipv4_mapped, sixtofour, destination, between.
  change (at_text "::ffff:0:0") with (65535 * 2 ^ 32). change (at_text "::ffff:ffff:ffff" + 1) with (65536 * 2 ^ 32).
  change (at_text "2002::") with (0x2002 * 2 ^ 112). change (at_text "2002:ffff:ffff:ffff:ffff:ffff:ffff:ffff" + 1) with (0x2003 * 2 ^ 112).
  change 0xffffffff with (Z.ones 32). rewrite !Z.land_ones, !Z.shiftr_div_pow2 by lia.
  assert (H32 : (n / 2 ^ 32 =? 65535) = (65535 * 2 ^ 32 <=? n) && negb (65536 * 2 ^ 32 <=? n)).
  { destruct (n / 2 ^ 32 =? 65535) eqn:E1, (65535 * 2 ^ 32 <=? n) eqn:E2, (65536 * 2 ^ 32 <=? n) eqn:E3; to_prop; try done;
      Z.div_mod_to_equations; lia. }
  assert (H112 : (n / 2 ^ 112 =? 0x2002) = (0x2002 * 2 ^ 112 <=? n) && negb (0x2003 * 2 ^ 112 <=? n)).
  { destruct (n / 2 ^ 112 =? 0x2002) eqn:E1, (0x2002 * 2 ^ 112 <=? n) eqn:E2, (0x2003 * 2 ^ 112 <=? n) eqn:E3; to_prop; try done;
      Z.div_mod_to_equations; lia. }
  rewrite H32, H112. clear H32 H112.
  destruct (_ && _) eqn:E1; to_prop; [f_equal; Z.div_mod_to_equations; lia|].
  clear E1. destruct (_ && _) eqn:E2; to_prop; [|done]. f_equal. Z.div_mod_to_equations. lia.
Qed.

Lemma destination_well_formed a : well_formed a -> well_formed (destination a) /\ wrapped (destination a) = false.
Proof.
  destruct a as [n|n scope]; [done|]. intros Hn. unfold well_formed in *. cbn [number width] in Hn.
  cbn [destination wrapped]. destruct (between "::ffff:0:0" _ n) eqn:E1; [|destruct (between "2002::" _ n) eqn:E2].
  - unfold between in E1. change (at_text "::ffff:0:0") with (65535 * 2 ^ 32) in *.
    change (at_text "::ffff:ffff:ffff" + 1) with (65536 * 2 ^ 32) in E1. to_prop. cbn [number width wrapped]. split; [lia|done].
  - unfold between in E2. change (at_text "2002::") with (0x2002 * 2 ^ 112) in *.
    change (at_text "2002:ffff:ffff:ffff:ffff:ffff:ffff:ffff" + 1) with (0x2003 * 2 ^ 112) in E2. to_prop. cbn [number width wrapped].
    split; [|done]. Z.div_mod_to_equations. lia.
  - cbn [wrapped number width]. by rewrite E1, E2.
Qed.

(** C28: The guard allows an address exactly when the table does: never in the listed ranges, on a
    LAN-friendly installation only in the private ones, an address inside a mapped or 6to4
    address decided as itself. *)
Theorem policy_exact a mode : well_formed a -> _ip_allowed a mode = permitted a mode.
Proof.
  intros Hw. destruct (destination_well_formed a Hw) as [Hd Hu].
  unfold _ip_allowed, permitted. rewrite unwrap_destination by done. exact (decisions_agree _ mode Hd Hu).
Qed.

(** What is connected to is allowed itself and is not unwrapped further. *)
Lemma allowed_destination a mode : well_formed a -> _ip_allowed a mode = true ->
  _ip_allowed (_unwrap_mapped a) mode = true /\ well_formed (_unwrap_mapped a).
Proof.
  intros Hw Ha. rewrite unwrap_destination by done. destruct (destination_well_formed a Hw) as [Hd Hu]. split; [|done].
  rewrite policy_exact in * by done. unfold permitted in *.
  assert (Hdd : destination (destination a) = destination a).
  { destruct (destination a) as [n|n scope]; [done|]. cbn [wrapped] in Hu. apply orb_false_iff in Hu as [H1 H2]. cbn [destination]. by rewrite H1, H2. }
  by rewrite Hdd.
Qed.

Lemma public_allowed a mode : well_formed a -> _ip_allowed a PUBLIC_ONLY = true -> _ip_allowed a mode = true.
Proof.
  intros Hw. rewrite !policy_exact by done. unfold permitted. destruct mode; [|done].
  destruct (destination a); intros [-> _]%andb_prop; by rewrite bool_decide_true, orb_true_r by done.
Qed.

Example policy_cases :
  map (fun s => match ip_address s with Some a => (_ip_allowed a LAN_FRIENDLY, _ip_allowed a PUBLIC_ONLY) | None => (false, false) end)
    ["8.8.8.8"; "192.168.1.1"; "127.0.0.1"; "::1"; "169.254.169.254"; "::ffff:169.254.169.254"; "::ffff:10.0.0.1"; "2002:a9fe:a9fe::1";
     "fc00::1"; "fe80::1"; "2606:4700::1111"; "0.0.0.0"; "240.0.0.1"; "64:ff9b::808:808"; "2001:0:1::1"; "::169.254.169.254"; "100.64.0.1"]
  = [(true, true); (true, false); (true, false); (true, false); (false, false); (false, false); (true, false); (false, false);
     (false, false); (false, false); (true, true); (false, false); (false, false); (false, false); (false, false); (false, false); (true, false)].
Proof. vm_compute. reflexivity. Qed.
End SsrfPolicy.
