(* ===== verification/StreamOutbound.v ===== *)
(** * Outbound requests: [security/stream_outbound.py], [tasks/dbas_sync_client.py],
      [cloud_storage/upload_security.py]

    A request passes the pinned transport, which validates it and connects to the address the
    validation returned; redirects are followed one by one.  A stream handed to a subprocess
    goes through a relay on the loopback interface that serves what it fetched under tokens.

    What is outside is an argument: what the resolver, the stored setting and the servers
    answer at each moment, how httpx writes a URL, the random tokens.  What was sent is a log. *)
From S2P Require Import Prelude PyValue PyText PyDatetime PyState PyNet PyUrl Ssrf.
From stdpp Require Import list strings gmap.
Open Scope Z_scope.
Open Scope py_scope.

Module StreamOutbound.
Import Ssrf.

(** ** Requests and responses *)

Definition headers := list (string * string).
Definition origin : Type := string * string * option Z.

Record request := Request {
  r_url : string; r_headers : headers;
  r_prepared : option ResolvedTarget;   (* extensions["ssrf_prepared_target"] *)
  r_from : option string }.             (* extensions["ssrf_from_url"] *)

(** What reaches the network: the address connected to, and what the connection presents. *)
Record connection := Connection {
  c_ip : ip; c_port : Z; c_scheme : string; c_sni : string; c_host : string; c_headers : headers; c_pool : nat }.

Record response := Response {
  is_redirect : bool; status_error : option exc;
  resp_headers : headers; chunks : list string }.

Definition get_header (name : string) (h : headers) : option string :=
  snd <$> List.find (fun '(n, _) => bool_decide (lower n = lower name)) h.

(** [_origin(url)] *)
Definition _origin (url : string) : result exc origin :=
  let! parsed := urlsplit url in
  let scheme := lower (scheme parsed) in
  let! port := port parsed in
  let port := match port with
              | Some p => Some p
              | None => if bool_decide (scheme = "https") then Some 443 else if bool_decide (scheme = "http") then Some 80 else None
              end in
  Ok (scheme, lower (default "" (hostname parsed)), port).

Definition is_authorization (h : string * string) : bool := bool_decide (lower h.1 = "authorization").
Definition without_authorization (h : headers) : headers := List.filter (fun x => negb (is_authorization x)) h.

(** ** The state: the moment, and what was sent *)

Record net := Netw { clock : nat; sent : list connection }.

Section outbound.
Variable getaddrinfo : nat -> resolver.
Variable stored_mode : nat -> string.
Variable httpx_url : string -> result exc string.
Variable server : nat -> connection -> result exc response.

Definition tick : M net nat := fun s => (Ok (clock s), Netw (S (clock s)) (sent s)).
Definition send (c : connection) : M net response :=
  fun s => (server (clock s) c, Netw (S (clock s)) (sent s ++ [c])).

(** ** [SSRFPinnedTransport] *)

Record transport := Transport {
  tr_mode : option SSRFMode; scheme_downgrade : SchemeDowngrade; has_factory : bool;
  last_origin : option (string * string * Z); generation : nat }.
Definition new_transport (d : SchemeDowngrade) : transport := Transport None d true None 0.

(** The target of a request: the one it was prepared with, or a validation now. *)
Definition request_target (mode : option SSRFMode) (downgrade : SchemeDowngrade) (r : request) : M net ResolvedTarget :=
  do! now := tick in
  let mode := default (get_ssrf_mode (stored_mode now)) mode in
  match r_prepared r, r_from r with
  | Some target, _ => ret target
  | None, Some from => pure (validate_redirect (getaddrinfo now) from (r_url r) mode downgrade)
  | None, None => pure (validate_outbound_url (getaddrinfo now) (r_url r) mode)
  end.

Definition target_origin (t : ResolvedTarget) : string * string * Z := (t_scheme t, lower (t_hostname t), t_port t).
Definition pinned (t : ResolvedTarget) (h : headers) (pool : nat) : connection :=
  Connection (t_ip t) (t_port t) (t_scheme t) (t_hostname t) (host_header t) h pool.

Definition handle_async_request (t : transport) (r : request) : M net (response * transport) :=
  do! target := request_target (tr_mode t) (scheme_downgrade t) r in
  let moved := match last_origin t with Some o => negb (bool_decide (target_origin target = o)) | None => false end in
  if moved && negb (has_factory t) then raise (SSRFError "Cross-origin request requires an isolated transport")
  else
    let t := Transport (tr_mode t) (scheme_downgrade t) (has_factory t) (Some (target_origin target))
               (if moved then S (generation t) else generation t) in
    do! response := send (pinned target (r_headers r) (generation t)) in
    ret (response, t).

(** ** [stream_request]: redirects one by one *)

Fixpoint follow (fuel : nat) (t : transport) (initial_target : option ResolvedTarget) (current_url : string) (current_headers : headers)
    (from_url : option string) (depth : Z) : M net (response * string) :=
  match fuel with
  | O => raise (Exc Other "RecursionError" "")
  | S fuel =>
      do! url := pure (httpx_url current_url) in
      let prepared := match from_url with None => initial_target | Some _ => None end in
      do! rt := handle_async_request t (Request url current_headers prepared from_url) in
      let '(response, t) := rt in
      match (if is_redirect response then get_header "location" (resp_headers response) else None) with
      | Some (String c s as location) =>
          let depth := depth + 1 in
          do! _ := pure (check_redirect_depth depth) in
          do! next_url := pure (urljoin current_url location) in
          do! here := pure (_origin current_url) in
          do! there := pure (_origin next_url) in
          let current_headers := if bool_decide (here = there) then current_headers else without_authorization current_headers in
          follow fuel t initial_target next_url current_headers (Some current_url) depth
      | _ => ret (response, current_url)
      end
  end.

Definition stream_request (url : string) (h : headers) (supplied : option transport) (initial_target : option ResolvedTarget)
    (downgrade : SchemeDowngrade) : M net (response * string) :=
  match supplied with
  | Some t =>
      if bool_decide (downgrade = REFUSE) then follow 7 t initial_target url h None 0
      else raise (value_error "scheme_downgrade applies to the transport this function builds; pass it to SSRFPinnedTransport when supplying your own transport")
  | None => follow 7 (new_transport downgrade) initial_target url h None 0
  end.

(** [response.raise_for_status()] *)
Definition raise_for_status (r : response) : M net unit :=
  match status_error r with Some e => raise e | None => ret tt end.

(** [prepare_stream_http_url] *)
Definition prepare_stream_http_url (url : string) : M net ResolvedTarget :=
  do! now := tick in pure (validate_outbound_url (getaddrinfo now) url (get_ssrf_mode (stored_mode now))).

(** [validate_stream_subprocess_url] *)
Definition validate_stream_subprocess_url (url : string) : M net unit :=
  do! parsed := pure (urlsplit url) in
  let scheme := lower (scheme parsed) in
  do! now := tick in
  let mode := get_ssrf_mode (stored_mode now) in
  if member scheme ["http"; "https"] then
    do! _ := pure (validate_outbound_url (getaddrinfo now) url mode) in ret tt
  else if negb (member scheme ["udp"; "rtp"; "rtmp"]) then
    raise (SSRFError (String.concat "" ["Disallowed stream URL scheme '"; (if bool_decide (scheme = "") then "(none)" else scheme); "'"]))
  else
    match hostname parsed with
    | None => raise (SSRFError "Stream URL has no hostname")
    | Some name =>
        let host := bracketed name (has_char ":"%char name) in
        do! port := pure (guarded "Invalid port in stream URL" (port parsed)) in
        let authority := match port with Some p => (host ++ ":" ++ str_of_Z p)%string | None => host end in
        do! _ := pure (validate_outbound_url (getaddrinfo now) ("http://" ++ authority ++ "/") mode) in ret tt
    end.

(** ** The transport of the cross-instance client, and the guide download on it *)

(** [_PinnedSSRFTransport.handle_async_request]; [r_from] is the extension [from_url] *)
Definition pinned_handle (r : request) : M net response :=
  do! target := request_target None REFUSE (Request (r_url r) (r_headers r) None (r_from r)) in
  send (pinned target (r_headers r) 0).

Definition http_error (status text : string) : exc := Exc Other "HTTPException" (status ++ " " ++ text).

(** The redirect loop of [_load_xmltv_migration_index], up to the response it reads. *)
Fixpoint xmltv_follow (fuel : nat) (current_url : string) (depth : Z) : M net response :=
  match fuel with
  | O => raise (Exc Other "RecursionError" "")
  | S fuel =>
      do! url := pure (httpx_url current_url) in
      do! response := pinned_handle (Request url [] None None) in
      if is_redirect response then
        match get_header "location" (resp_headers response) with
        | Some (String c s as location) =>
            let depth := depth + 1 in
            do! _ := pure (check_redirect_depth depth) in
            do! next_url := pure (urljoin current_url location) in
            do! now := tick in
            do! _ := pure (validate_redirect (getaddrinfo now) current_url next_url (get_ssrf_mode (stored_mode now)) REFUSE) in
            xmltv_follow fuel next_url depth
        | _ => raise (http_error "502" "XMLTV source returned an invalid redirect.")
        end
      else do! _ := raise_for_status response in ret response
  end.
Definition xmltv_request (url : string) : M net response := xmltv_follow 7 url 0.
End outbound.

(** ** Uploads: [upload_security.py] *)

Definition preresolve_endpoint (getaddrinfo : resolver) (url : string) (mode : option SSRFMode) (stored : string) : result exc ResolvedTarget :=
  validate_outbound_url getaddrinfo url (default (get_ssrf_mode stored) mode).

Definition pinned_request_url (t : ResolvedTarget) (path query : string) : string :=
  let host := bracketed (ip_str (t_ip t)) (match t_ip t with V6 _ _ => true | V4 _ => false end) in
  let base := (t_scheme t ++ "://" ++ host ++ ":" ++ str_of_Z (t_port t))%string in
  let path := if starts_with "/" path then path else ("/" ++ path)%string in
  (base ++ path ++ (if bool_decide (query = "") then "" else "?" ++ query))%string.

End StreamOutbound.
