(* ===== verification/StreamRelay.v ===== *)
(** * The loopback relay: [_LocalStreamRelay], [validated_subprocess_input]

    A subprocess reads a stream through the relay: it is given a loopback URL, and every URL of
    a manifest the relay serves is replaced by a loopback URL of its own.  What the subprocess
    may ask for is what the relay has registered. *)
From S2P Require Import Prelude PyValue PyText PyDatetime PyState PyNet PyUrl Ssrf StreamOutbound.
From stdpp Require Import list strings gmap.
Open Scope Z_scope.
Open Scope py_scope.

Module StreamRelay.
Import Ssrf StreamOutbound.

Definition _MAX_HLS_MANIFEST_BYTES : Z := 2 * 1024 * 1024.
Definition _MAX_RELAY_RESOURCES : nat := 1024.

(** ** [str.splitlines] *)

Definition line_feed : Ascii.ascii := Ascii.ascii_of_nat 10.
Definition carriage_return : Ascii.ascii := Ascii.ascii_of_nat 13.
Definition is_line_end (c : Ascii.ascii) : bool :=
  let n := code c in ((10 <=? n) && (n <=? 13) || (28 <=? n) && (n <=? 30))%nat%bool.

Fixpoint lines_from (line : string) (s : string) : list string :=
  match s with
  | EmptyString => match line with EmptyString => [] | _ => [line] end
  | String c s' =>
      if is_line_end c then
        line :: match s' with
                | String d s'' => if bool_decide (c = carriage_return) && bool_decide (d = line_feed) then lines_from "" s'' else lines_from "" s'
                | EmptyString => []
                end
      else lines_from (line ++ String c EmptyString) s'
  end.
Definition splitlines (s : string) : list string := lines_from "" s.

(** ** The relay *)

(** What does not change: the stream it was made for, what to send with it, and the policy. *)
Record relay_config := Config { initial_url : string; base_headers : headers; relay_downgrade : SchemeDowngrade; initial_token : string }.

Record relay := Relay {
  outside : net;
  targets : gmap string string;          (* token to URL *)
  tokens_by_target : gmap string string; (* URL to token *)
  drawn : nat;                           (* random tokens drawn *)
  initial_response : option (response * string) }.

(** A computation on what is outside the relay. *)
Definition on_net {A} (m : M net A) : M relay A :=
  fun s => let '(r, n) := m (outside s) in (r, Relay n (targets s) (tokens_by_target s) (drawn s) (initial_response s)).

(** A request of the subprocess: the token it names and how it addresses the relay. *)
Record local_request := Local { token : string; local_scheme : string; local_host : string }.

Inductive local_response :=
| Manifest (body : string)
| Stream (status_of : response).

Section relay.
Variable getaddrinfo : nat -> resolver.
Variable stored_mode : nat -> string.
Variable httpx_url : string -> result exc string.
Variable server : nat -> connection -> result exc response.
Variable token_hex : nat -> string.

(** [token = token_hex(); while token in targets: token = token_hex()] *)
Fixpoint fresh_token (fuel k : nat) (taken : gmap string string) : option (string * nat) :=
  match fuel with
  | O => None
  | S fuel => match taken !! token_hex k with Some _ => fresh_token fuel (S k) taken | None => Some (token_hex k, S k) end
  end.

Definition _register (url : string) : M relay string := fun s =>
  match tokens_by_target s !! url with
  | Some existing => (Ok existing, s)
  | None =>
      if (_MAX_RELAY_RESOURCES <=? size (targets s))%nat then (Raise (SSRFError "Stream manifest exceeds the relay resource limit"), s)
      else
        match fresh_token (S _MAX_RELAY_RESOURCES) (drawn s) (targets s) with
        | Some (t, k) => (Ok t, Relay (outside s) (<[t := url]> (targets s)) (<[url := t]> (tokens_by_target s)) k (initial_response s))
        | None => (Raise (Exc Other "RecursionError" ""), s)
        end
  end.

Definition _headers_for (c : relay_config) (url : string) : result exc headers :=
  let! there := _origin url in
  let! home := _origin (initial_url c) in
  Ok (if bool_decide (there = home) then base_headers c else without_authorization (base_headers c)).

(** [_read_hls_manifest]: at most two MiB, announced or read *)
Definition too_large : exc := Exc Other "HTTPRequestEntityTooLarge" "".
Definition _read_hls_manifest (r : response) : result exc string :=
  let length_header := get_header "content-length" (resp_headers r) in
  let! announced := match length_header with
                    | Some t => match py_int t with Some n => Ok n | None => Raise (value_error "invalid literal for int()") end
                    | None => Ok 0
                    end in
  if _MAX_HLS_MANIFEST_BYTES <? announced then Raise too_large
  else
    let body := s_concat (chunks r) in
    if _MAX_HLS_MANIFEST_BYTES <? Z.of_nat (String.length body) then Raise too_large else Ok body.

Definition local_url (q : local_request) (t : string) : string :=
  String.concat "" [local_scheme q; "://"; local_host q; "/resource/"; t].
Definition _local_url (q : local_request) (upstream : string) : M relay string :=
  do! t := _register upstream in ret (local_url q t).

Definition quote : Ascii.ascii := Ascii.ascii_of_nat 34.
Definition URI : string := ("URI=" ++ String quote EmptyString)%string.

(** [_HLS_URI_RE.sub(...)]: every [URI=] with a non-empty quoted value *)
Fixpoint replace_uris (fuel : nat) (q : local_request) (base_url s : string) : M relay string :=
  match fuel, s with
  | S fuel, String c s' =>
      match (match drop_prefix URI s with Some rest => split_char quote rest | None => None end) with
      | Some (String _ _ as value, after) =>
          do! upstream := pure (urljoin base_url value) in
          do! here := _local_url q upstream in
          do! rest := replace_uris fuel q base_url after in
          ret (URI ++ here ++ String quote rest)%string
      | _ => do! rest := replace_uris fuel q base_url s' in ret (String c rest)
      end
  | _, _ => ret s
  end.

Definition rewrite_line (q : local_request) (base_url line : string) : M relay string :=
  let stripped := strip line in
  if negb (bool_decide (stripped = "")) && negb (starts_with "#" stripped) then
    do! upstream := pure (urljoin base_url stripped) in _local_url q upstream
  else if contains URI line then replace_uris (String.length line) q base_url line
  else ret line.

Fixpoint rewrite_lines (q : local_request) (base_url : string) (l : list string) : M relay (list string) :=
  match l with
  | [] => ret []
  | line :: l => do! line := rewrite_line q base_url line in do! l := rewrite_lines q base_url l in ret (line :: l)
  end.

Definition _rewrite_hls (q : local_request) (body base_url : string) : M relay string :=
  do! lines := rewrite_lines q base_url (splitlines body) in
  ret (s_join (String line_feed EmptyString) lines ++ String line_feed EmptyString)%string.

(** [_serve]; [logical_url] is the extension [ssrf_logical_url] *)
Definition _serve (q : local_request) (r : response) (logical_url url : string) : M relay local_response :=
  do! parsed := pure (urlsplit url) in
  let content_type := default "" (get_header "content-type" (resp_headers r)) in
  let is_hls := match drop_suffix ".m3u8" (lower (path parsed)) with Some _ => true | None => false end || contains "mpegurl" (lower content_type) in
  if is_hls then
    do! body := pure (_read_hls_manifest r) in
    do! text := _rewrite_hls q body logical_url in ret (Manifest text)
  else ret (Stream r).

Definition is_http_error (e : exc) : bool :=
  match exc_kind e with HttpStatus _ | Timeout | PyState.Request => true | _ => false end.
Definition bad_gateway : exc := Exc Other "HTTPBadGateway" "Upstream stream resource denied".

Definition take_initial : M relay (option (response * string)) := fun s =>
  (Ok (initial_response s), Relay (outside s) (targets s) (tokens_by_target s) (drawn s) None).

Definition fetch (url : string) (h : headers) (downgrade : SchemeDowngrade) : M relay (response * string) :=
  on_net (do! rl := stream_request getaddrinfo stored_mode httpx_url server url h None None downgrade in
          do! _ := raise_for_status rl.1 in ret rl).

(** [_handle] *)
Definition serve_upstream (c : relay_config) (q : local_request) (url : string) : M relay local_response :=
  try_except
    (do! h := pure (_headers_for c url) in
     do! rl := fetch url h (relay_downgrade c) in
     _serve q rl.1 rl.2 url)
    (fun e => if is_http_error e || match exc_kind e with Ssrf => true | _ => false end then raise bad_gateway else raise e).

Definition _handle (c : relay_config) (q : local_request) : M relay local_response :=
  do! url := gets (fun s => targets s !! token q) in
  match url with
  | None => raise (Exc Other "HTTPNotFound" "")
  | Some url =>
      do! held := gets initial_response in
      match held with
      | Some rl => if bool_decide (token q = initial_token c) then do! _ := take_initial in _serve q rl.1 rl.2 url else serve_upstream c q url
      | None => serve_upstream c q url
      end
  end.

(** [__init__] and [start]: the token of the initial URL is the first registered. *)
Definition new_relay (n : net) : relay := Relay n ∅ ∅ 0 None.
Definition start (url : string) (h : headers) (downgrade : SchemeDowngrade) : M relay relay_config :=
  do! t := _register url in
  let c := Config url h downgrade t in
  do! rl := fetch url h downgrade in
  fun s => (Ok c, Relay (outside s) (targets s) (tokens_by_target s) (drawn s) (Some rl)).

(** What the subprocess asks of the relay, an exception answering one request only. *)
Fixpoint serve_all (c : relay_config) (qs : list local_request) : M relay (list (result exc local_response)) :=
  match qs with
  | [] => ret []
  | q :: qs => do! r := attempt (_handle c q) in do! rs := serve_all c qs in ret (r :: rs)
  end.

(** [validated_subprocess_input]: the argument of the subprocess, and the relay when there is one *)
Record subprocess_input := Input { argument : string; is_http_relay : bool; relay_of : option relay_config }.
Definition validated_subprocess_input (url : string) (h : headers) (downgrade : SchemeDowngrade) (relay_port : Z) : M relay subprocess_input :=
  do! parsed := pure (urlsplit url) in
  if negb (member (lower (scheme parsed)) ["http"; "https"]) then
    do! _ := on_net (validate_stream_subprocess_url getaddrinfo stored_mode url) in ret (Input url false None)
  else
    do! c := start url h downgrade in
    ret (Input (local_url (Local (initial_token c) "http" ("127.0.0.1:" ++ str_of_Z relay_port)) (initial_token c)) true (Some c)).
End relay.
End StreamRelay.
