(* ===== verification/OutboundTheorems.v ===== *)
(** * What outbound requests reach

    Every connection goes to an address the policy permits, whatever the resolver and the
    servers answer from one moment to the next; credentials stay with their origin, a chain of
    redirects is short and does not leave TLS. *)
From S2P Require Import Prelude PyValue PyText PyDatetime PyState PyNet PyUrl Ssrf SsrfPolicy StreamOutbound StreamRelay.
From stdpp Require Import list strings gmap.
Open Scope Z_scope.
Open Scope py_scope.


Module OutboundTheorems.
Import Ssrf SsrfPolicy StreamOutbound StreamRelay.

(** ** Validation *)

(** The hostname a URL names stands for [records]: its own address, or what it resolves to. *)
Inductive host_stands_for (getaddrinfo : resolver) (hostname : string) (port : Z) : list ip -> Prop :=
| literal_host a : ip_address hostname = Some a -> host_stands_for getaddrinfo hostname port [a]
| resolved_host records : ip_address hostname = None -> _resolve getaddrinfo hostname port = Ok records ->
    host_stands_for getaddrinfo hostname port records.

Lemma resolve_well_formed g host port records : _resolve g host port = Ok records -> Forall well_formed records.
Proof.
  unfold _resolve. destruct (g host port) as [infos|]; [|done]. cbn. intros [= <-]. apply Forall_forall. intros a Ha.
  apply list_elem_of_omap in Ha as (s & _ & Hs). by eapply ip_address_well_formed.
Qed.

Lemma stands_well_formed g host port records : host_stands_for g host port records -> Forall well_formed records.
Proof. intros [a Ha|l _ Hl]; [repeat constructor; by eapply ip_address_well_formed|by eapply resolve_well_formed]. Qed.

Lemma check_records_ok mode host records :
  check_records mode host records = Ok tt <-> Forall (fun a => _ip_allowed a mode = true) records.
Proof.
  induction records as [|a records IH]; cbn [check_records]; [by split|]. rewrite Forall_cons.
  destruct (_ip_allowed a mode); [rewrite IH; tauto|]. split; [done|by intros []].
Qed.

Lemma member_elem x l : member x l = true <-> x ∈ l.
Proof.
  unfold member. rewrite existsb_exists. split.
  - intros (y & Hy & E). to_prop. subst. by apply list_elem_of_In.
  - intros H. exists x. split; [by apply list_elem_of_In|by apply bool_decide_true].
Qed.

(** A validated target, spelled out. *)
Record validates (g : resolver) (url : string) (mode : SSRFMode) (t : ResolvedTarget) : Prop := {
  val_parts : exists p n, urlsplit url = Ok p /\ port p = Ok n /\ t_scheme t = lower (scheme p) /\ hostname p = Some (t_hostname t) /\
    t_port t = default (default_port (t_scheme t)) n /\ t_url t = url;
  val_scheme : t_scheme t = "http" \/ t_scheme t = "https";
  val_records : exists first rest, host_stands_for g (t_hostname t) (t_port t) (first :: rest) /\
    Forall (fun a => permitted a mode = true) (first :: rest) /\ t_ip t = destination first }.

Lemma scheme_cases s : member s ALLOWED_SCHEMES = true <-> s = "http" \/ s = "https".
Proof.
  rewrite member_elem. unfold ALLOWED_SCHEMES. rewrite elem_of_cons, list_elem_of_singleton. done.
Qed.

Lemma allowed_permitted mode l : Forall well_formed l ->
  Forall (fun a => _ip_allowed a mode = true) l <-> Forall (fun a => permitted a mode = true) l.
Proof. intros H. rewrite !Forall_forall. rewrite Forall_forall in H. split; intros Ha a Hl; [rewrite <- policy_exact by auto|rewrite policy_exact by auto]; auto. Qed.

Lemma hostname_nonempty p h : hostname p = Some h -> h <> "".
Proof.
  unfold hostname. case_bool_decide as He; [done|]. intros H E. apply He.
  assert (Hl : String.length (hostinfo (netloc p)).1 = 0%nat); [|by destruct (hostinfo (netloc p)).1].
  unfold PyUrl.partition in H. destruct (split_char "%"%char _) as [[a b]|] eqn:Hs; injection H as H; rewrite E in H;
    apply (f_equal String.length) in H; rewrite !s_length_app in H; unfold lower in H; rewrite s_map_length in H; cbn in H; lia.
Qed.

Lemma split_ok_iff url sch host prt : _split url = Ok (sch, host, prt) <->
  exists p n, urlsplit url = Ok p /\ port p = Ok n /\ sch = lower (scheme p) /\ host = default "" (hostname p) /\
    prt = default (default_port sch) n /\ (sch = "http" \/ sch = "https").
Proof.
  unfold _split. split.
  - destruct (urlsplit url) as [p|e]; [|done]. cbn [guarded rbind].
    destruct (member _ _) eqn:Hm; [|done]. cbn [negb]. destruct (port p) as [n|] eqn:Hp; [|done]. cbn [guarded rbind].
    intros [= <- <- <-]. exists p, n. apply scheme_cases in Hm. done.
  - intros (p & n & -> & Hp & -> & -> & -> & Hs). cbn [guarded rbind]. rewrite (proj2 (scheme_cases _) Hs). cbn [negb].
    by rewrite Hp.
Qed.

Lemma parsed_ok_iff g sch host prt url mode t :
  (sch = "http" \/ sch = "https") -> host <> "" ->
  _validate_parsed g sch host prt url mode = Ok t <->
  exists first rest, host_stands_for g host prt (first :: rest) /\ Forall (fun a => permitted a mode = true) (first :: rest) /\
    t = Target sch host prt (destination first) url.
Proof.
  intros Hs Hh. unfold _validate_parsed. rewrite (proj2 (scheme_cases _) Hs), bool_decide_false by done. cbn [negb].
  destruct (ip_address host) as [a|] eqn:Ha.
  - pose proof (ip_address_well_formed _ _ Ha) as Hw. rewrite policy_exact, unwrap_destination by done. split.
    + destruct (permitted a mode) eqn:Hp; [|done]. intros [= <-]. exists a, []. split_and!; [by constructor|by repeat constructor|done].
    + intros (first & rest & Hr & Hp & ->). inversion Hr as [b Hb|l Hn]; [|congruence]. subst.
      assert (a = first) by congruence. subst. apply Forall_cons in Hp as [-> _]. done.
  - destruct (_resolve g host prt) as [records|e] eqn:Hr.
    + pose proof (resolve_well_formed _ _ _ _ Hr) as Hw. destruct records as [|first rest].
      { split; [done|]. intros (first & rest & H & _). inversion H; congruence. }
      pose proof Hw as Hw'. apply Forall_cons in Hw' as [Hf _].
      rewrite unwrap_destination by done. split.
      * destruct (check_records _ _ _) as [[]|] eqn:Hc; [|done]. intros [= <-]. exists first, rest. split_and!; [by constructor| |done].
        apply allowed_permitted; [done|]. by apply check_records_ok in Hc.
      * intros (f & r & H & Hp & ->). inversion H as [|l _ Hl]; [congruence|]. rewrite Hl in Hr. injection Hr as -> ->.
        apply allowed_permitted in Hp; [|done]. apply (check_records_ok mode host) in Hp. by rewrite Hp.
    + split; [by destruct (is_resolution_error e)|]. intros (f & r & H & _). inversion H; congruence.
Qed.

(** The guard returns a target exactly when the URL is an HTTP one with a host and a port, the
    host stands for at least one address and every one of them is permitted; the target is the
    first of them.  In every other case it raises, so nothing is contacted. *)
Theorem validation_exact g url mode t : validate_outbound_url g url mode = Ok t <-> validates g url mode t.
Proof.
  unfold validate_outbound_url. split.
  - destruct (_split url) as [[[sch host] prt]|] eqn:Hsp; [|done]. cbn [rbind]. intros Hv.
    apply split_ok_iff in Hsp as (p & n & Hu & Hn & -> & -> & -> & Hs).
    destruct (hostname p) as [h|] eqn:Hh; cbn [default] in Hv.
    2: { unfold _validate_parsed in Hv. rewrite (proj2 (scheme_cases _) Hs) in Hv. done. }
    apply parsed_ok_iff in Hv as (first & rest & Hst & Hp & ->); [|done|by eapply hostname_nonempty].
    split; [by exists p, n|done|by exists first, rest].
  - intros [(p & n & Hu & Hn & Hsch & Hh & Hport & Hurl) Hs (first & rest & Hst & Hp & Hip)].
    rewrite (proj2 (split_ok_iff url (t_scheme t) (t_hostname t) (t_port t))).
    2: { exists p, n. by rewrite Hh. }
    cbn [rbind]. apply parsed_ok_iff; [done|by eapply hostname_nonempty|]. exists first, rest. split_and!; [done|done|].
    destruct t; cbn in *. by subst.
Qed.

(** ** Origins *)

Lemma validated_origin g url mode t : validates g url mode t -> _origin url = Ok (t_scheme t, lower (t_hostname t), Some (t_port t)).
Proof.
  intros [(p & n & Hu & Hn & Hsch & Hh & Hport & _) Hs _]. unfold _origin. rewrite Hu. cbn [rbind]. rewrite Hn. cbn [rbind].
  rewrite Hh, <- Hsch, Hport. unfold default_port. cbn [default]. do 2 f_equal.
  destruct n as [n|]; [done|]. by destruct Hs as [-> | ->].
Qed.

Lemma validated_permitted g url mode t : validates g url mode t -> well_formed (t_ip t) /\ permitted (t_ip t) mode = true.
Proof.
  intros [_ _ (first & rest & Hst & Hp & ->)]. apply stands_well_formed in Hst. apply Forall_cons in Hst as [Hw _].
  apply Forall_cons in Hp as [Hp _].
  destruct (allowed_destination first mode Hw) as [Ha Hd]; [by rewrite policy_exact|].
  rewrite unwrap_destination in * by done. split; [done|]. by rewrite <- policy_exact.
Qed.

Definition c_origin (c : connection) : origin := (c_scheme c, lower (c_sni c), Some (c_port c)).
Definition carries_authorization (h : headers) : bool := existsb is_authorization h.

Lemma without_authorization_none h : carries_authorization (without_authorization h) = false.
Proof.
  unfold carries_authorization, without_authorization. apply not_true_iff_false. rewrite existsb_exists.
  intros (x & Hx & Ha). apply filter_In in Hx as [_ Hx]. by rewrite Ha in Hx.
Qed.

(** Once a chain is on TLS it stays there. *)
Fixpoint stays_secure (l : list connection) : Prop :=
  match l with [] => True | c :: l => (c_scheme c = "https" -> Forall (fun d => c_scheme d = "https") l) /\ stays_secure l end.

Lemma bind_inv {S A B} (m : M S A) (k : A -> M S B) s r s' :
  bind m k s = (r, s') -> (exists e, m s = (Raise e, s') /\ r = Raise e) \/ (exists a s1, m s = (Ok a, s1) /\ k a s1 = (r, s')).
Proof. unfold bind. destruct (m s) as [[a|e] s1]; [intros H; right; by exists a, s1|intros [= <- <-]; left; by exists e]. Qed.

Lemma pure_inv {S A} (r a : result exc A) (s s' : S) : pure r s = (a, s') -> r = a /\ s = s'.
Proof. by intros [= <- <-]. Qed.

(** [inv_bind H H1]: the two ways a sequence ends; [H1] is its first step. *)
Ltac inv_bind H H1 := apply bind_inv in H as [(? & H & ->)|(? & ? & H1 & H)].

Section chain.
Variable getaddrinfo : nat -> resolver.
Variable stored_mode : nat -> string.
Variable httpx_url : string -> result exc string.
Variable server : nat -> connection -> result exc response.
Local Abbreviation mode_at := (fun k => get_ssrf_mode (stored_mode k)).
Local Abbreviation chain := (follow getaddrinfo stored_mode httpx_url server).

(** A connection whose address some policy in force permitted. *)
Definition guarded_connection (c : connection) : Prop := exists k, well_formed (c_ip c) /\ permitted (c_ip c) (mode_at k) = true.

(** What the target of a request is known to be. *)
Record sound_target (url : string) (from : option string) (d : SchemeDowngrade) (t : ResolvedTarget) : Prop := {
  target_permitted : exists k, well_formed (t_ip t) /\ permitted (t_ip t) (mode_at k) = true;
  target_is_origin : _origin url = Ok (t_scheme t, lower (t_hostname t), Some (t_port t));
  target_secure : forall f o p, from = Some f -> d = REFUSE -> _origin f = Ok ("https", o, p) -> t_scheme t = "https" }.

Lemma redirect_sound g from url mode d t : validate_redirect g from url mode d = Ok t ->
  validates g url mode t /\ (forall o p, d = REFUSE -> _origin from = Ok ("https", o, p) -> t_scheme t = "https").
Proof.
  unfold validate_redirect. destruct (_split from) as [[[fs fh] fp]|] eqn:Hf; [|done]. cbn [rbind].
  destruct (urlsplit url) as [parts|] eqn:Hu; [|done]. cbn [rbind].
  case_match eqn:Hd; [done|]. intros Hv%validation_exact. split; [done|]. intros o p -> Ho.
  apply split_ok_iff in Hf as (q & n & Hq & _ & -> & _). unfold _origin in Ho. rewrite Hq in Ho. cbn [rbind] in Ho.
  destruct (port q); [|done]. cbn [rbind] in Ho. injection Ho as Ho _ _. rewrite Ho in Hd.
  destruct Hv as [(p' & n' & Hu' & _ & Hsch & _) [Hs|Hs] _]; [|done].
  rewrite Hu in Hu'. injection Hu' as <-. rewrite <- Hsch, Hs in Hd. done.
Qed.

Lemma target_sound d r s res s' :
  request_target getaddrinfo stored_mode None d r s = (res, s') -> sent s' = sent s /\
  (forall t, res = Ok t -> r_prepared r = Some t \/ r_prepared r = None /\ sound_target (r_url r) (r_from r) d t).
Proof.
  unfold request_target. intros H. inv_bind H H1; [done|]. cbn in H1. injection H1 as <- <-.
  destruct (r_prepared r) as [p|].
  { injection H as <- <-. split; [done|]. intros t [= ->]. by left. }
  destruct (r_from r) as [f|]; injection H as <- <-; (split; [done|]; intros t Ht; right; split; [done|]).
  - apply redirect_sound in Ht as [Hv Hs]. split; [|by eapply validated_origin|].
    + eexists. by eapply validated_permitted.
    + intros f' o p [= <-] Hd Ho. by eapply Hs.
  - apply validation_exact in Ht. split; [|by eapply validated_origin|done]. eexists. by eapply validated_permitted.
Qed.

(** One request: nothing is sent, or one connection to a sound target. *)
Lemma handle_sound t r s res s' :
  tr_mode t = None -> handle_async_request getaddrinfo stored_mode server t r s = (res, s') ->
  (sent s' = sent s /\ exists e, res = Raise e) \/
  exists target pool, sent s' = sent s ++ [pinned target (r_headers r) pool] /\
    (r_prepared r = Some target \/ r_prepared r = None /\ sound_target (r_url r) (r_from r) (scheme_downgrade t) target) /\
    (forall resp t', res = Ok (resp, t') -> tr_mode t' = None /\ scheme_downgrade t' = scheme_downgrade t).
Proof.
  intros Hm H. unfold handle_async_request in H. rewrite Hm in H. cbn [tr_mode] in H. inv_bind H H1.
  { apply target_sound in H as [Hs _]. left. split; [done|by eexists]. }
  apply target_sound in H1 as [Hs Ht]. cbv zeta in H. case_match.
  { injection H as <- <-. left. split; [done|by eexists]. }
  assert (Hsent : forall u v w, send server u v = w -> sent w.2 = sent v ++ [u]) by (by intros u v w <-).
  right. inv_bind H H1.
  - apply Hsent in H. cbn in H. exists x. eexists. rewrite H, Hs. split_and!; [done|by apply Ht|done].
  - apply Hsent in H1. cbn in H1. cbn in H. injection H as <- <-. exists x. eexists. rewrite H1, Hs. split_and!; [done|by apply Ht|].
    by intros resp t' [= <- <-].
Qed.

(** What a chain of redirects from [current_url] may send. *)
Record sound_chain (home : result exc origin) (downgrade : SchemeDowngrade) (from : option string) (depth : Z) (l : list connection) : Prop := {
  chain_short : Z.of_nat (length l) + depth <= MAX_REDIRECTS + 1;
  chain_guarded : Forall guarded_connection l;
  chain_home : Forall (fun c => carries_authorization (c_headers c) = true -> Ok (c_origin c) = home) l;
  chain_secure : downgrade = REFUSE -> stays_secure l /\
    forall f o p, from = Some f -> _origin f = Ok ("https", o, p) -> Forall (fun c => c_scheme c = "https") l }.

Hypothesis httpx_keeps_origin : forall u v, httpx_url u = Ok v -> _origin v = _origin u.

Lemma sound_chain_nil home d from depth : depth <= MAX_REDIRECTS + 1 -> sound_chain home d from depth [].
Proof. split; [cbn; lia|constructor..|by intros _]. Qed.

(** The first target of a chain: validated for the request, or prepared for the same URL before. *)
Definition sound_first (url : string) (initial : option ResolvedTarget) : Prop :=
  forall t, initial = Some t -> sound_target url None REFUSE t.

Lemma chain_step home d from url current h initial depth target pool l :
  (from = None -> sound_first current initial) -> httpx_url current = Ok url ->
  (carries_authorization h = true -> _origin current = home) ->
  ((match from with None => initial | Some _ => None end) = Some target \/ (match from with None => initial | Some _ => None end) = None /\ sound_target url from d target) ->
  depth <= MAX_REDIRECTS -> sound_chain home d (Some current) (depth + 1) l ->
  sound_chain home d from depth (pinned target h pool :: l).
Proof.
  intros Hf Hu Ha Ht Hd [Hl Hg Hh Hs].
  assert (Hst : sound_target current from d target).
  { destruct Ht as [Ht|[_ [H1 H2 H3]]]; [|split; [done|by rewrite <- (httpx_keeps_origin _ _ Hu)|done]].
    destruct from as [f|]; [done|]. destruct (Hf eq_refl _ Ht) as [H1 H2 H3]. split; [done|done|by intros f o p [=]]. }
  destruct Hst as [H1 H2 H3]. split.
  - cbn [length]. lia.
  - by constructor.
  - constructor; [|done]. cbn. intros Hc. rewrite <- Ha by done. by rewrite H2.
  - intros ->. destruct (Hs eq_refl) as [Hs1 Hs2]. split.
    + cbn. split; [|done]. intros E. eapply Hs2; [done|]. by rewrite H2, E.
    + intros f o p E Ho. constructor; [by eapply H3|]. eapply Hs2; [done|]. rewrite H2. by rewrite (H3 _ _ _ E eq_refl Ho).
Qed.

Lemma follow_sound fuel : forall t initial current h from depth home s res s',
  tr_mode t = None -> (from = None -> sound_first current initial) -> (carries_authorization h = true -> _origin current = home) ->
  0 <= depth <= MAX_REDIRECTS -> chain fuel t initial current h from depth s = (res, s') ->
  exists l, sent s' = sent s ++ l /\ sound_chain home (scheme_downgrade t) from depth l.
Proof.
  induction fuel as [|fuel IH]; intros t initial current h from depth home s res s' Hm Hf Ha Hd H; cbn [follow] in H.
  { injection H as <- <-. exists []. rewrite app_nil_r. split; [done|]. apply sound_chain_nil. lia. }
  assert (Hnil : forall s1, sent s1 = sent s -> exists l, sent s1 = sent s ++ l /\ sound_chain home (scheme_downgrade t) from depth l).
  { intros s1 E. exists []. rewrite app_nil_r. split; [done|]. apply sound_chain_nil. lia. }
  inv_bind H H1; [apply pure_inv in H as [_ <-]; by apply Hnil|]. apply pure_inv in H1 as [Hu <-]. cbv zeta in H.
  inv_bind H H1; [apply handle_sound in H as [[E _]|(target & pool & E & Ht & _)]; [by apply Hnil| |done]|].
  { exists [pinned target h pool]. split; [done|]. eapply chain_step; [done|done|done|done|lia|]. apply sound_chain_nil. lia. }
  apply handle_sound in H1 as [[E [e Hx]]|(target & pool & E & Ht & Hok)]; [done| |done]. destruct x0 as [resp t'].
  destruct (Hok _ _ eq_refl) as [Hm' Hd']. cbn [r_headers r_url r_prepared r_from] in E, Ht.
  assert (Hone : exists l, sent x1 = sent s ++ l /\ sound_chain home (scheme_downgrade t) from depth l).
  { exists [pinned target h pool]. split; [done|]. eapply chain_step; [done|done|done|done|lia|]. apply sound_chain_nil. lia. }
  destruct (if is_redirect resp then _ else None) as [[|c loc]|]; [by injection H as <- <-| |by injection H as <- <-].
  cbv zeta in H. inv_bind H H1; [by apply pure_inv in H as [_ <-]|]. apply pure_inv in H1 as [Hdepth <-].
  unfold check_redirect_depth in Hdepth. case_match; [done|]. to_prop.
  inv_bind H H1; [by apply pure_inv in H as [_ <-]|]. apply pure_inv in H1 as [_ <-]. inv_bind H H1; [by apply pure_inv in H as [_ <-]|]. apply pure_inv in H1 as [Hhere <-].
  inv_bind H H1; [by apply pure_inv in H as [_ <-]|]. apply pure_inv in H1 as [Hthere <-].
  apply (IH _ _ _ _ _ _ home) in H as (l & El & Hl); [|done|done| |lia].
  - exists (pinned target h pool :: l). split; [by rewrite El, E, <- app_assoc|].
    rewrite Hd' in Hl. eapply chain_step; [done|done|done|done|lia|done].
  - case_bool_decide as Eo; [|by rewrite without_authorization_none]. intros Hc. rewrite Hthere, <- Eo, <- Hhere. by apply Ha.
Qed.

(** A stream request made without a prepared target, or with one the guard returned for the
    same URL, reaches only addresses that a policy in force permitted, at most six of them; it
    shows the credentials it was given to the origin it was made for and to no other, and
    without the stream probe's waiver it does not leave TLS. *)
Theorem stream_request_guarded url h initial d s res s' :
  sound_first url initial ->
  stream_request getaddrinfo stored_mode httpx_url server url h None initial d s = (res, s') ->
  exists l, sent s' = sent s ++ l /\ Z.of_nat (length l) <= 6 /\ Forall guarded_connection l /\
    Forall (fun c => carries_authorization (c_headers c) = true -> Ok (c_origin c) = _origin url) l /\
    (d = REFUSE -> stays_secure l).
Proof.
  intros Hf H. apply (follow_sound _ _ _ _ _ _ _ (_origin url)) in H as (l & E & [H1 H2 H3 H4]); [|done..|unfold MAX_REDIRECTS; lia].
  exists l. split_and!; [done|unfold MAX_REDIRECTS in H1; lia|done|done|]. intros Hd. by apply H4.
Qed.

Lemma prepared_sound url s t s' : prepare_stream_http_url getaddrinfo stored_mode url s = (Ok t, s') -> sound_first url (Some t).
Proof.
  intros H t' [= <-]. unfold prepare_stream_http_url in H. apply bind_inv in H as [(? & ? & ?)|(? & ? & _ & H)]; [done|]. apply pure_inv in H as [H _].
  apply validation_exact in H. split; [eexists; by eapply validated_permitted|by eapply validated_origin|done].
Qed.

(** *** The rounds of the loop *)

Lemma bind_ext {S A B} (m : M S A) (k k' : A -> M S B) s : (forall a s1, k a s1 = k' a s1) -> bind m k s = bind m k' s.
Proof. intros H. unfold bind. destruct (m s) as [[a|e] s1]; [apply H|done]. Qed.

Lemma pure_guard {S A} (b : result exc unit) (k k' : M S A) s :
  (b = Ok tt -> k s = k' s) -> bind (pure b) (fun _ => k) s = bind (pure b) (fun _ => k') s.
Proof. unfold bind, pure. destruct b as [[]|e]; [auto|done]. Qed.

Lemma follow_fuel fuel : forall t initial current h from depth s,
  depth <= MAX_REDIRECTS -> MAX_REDIRECTS + 1 - depth <= Z.of_nat fuel ->
  chain (S fuel) t initial current h from depth s = chain fuel t initial current h from depth s.
Proof.
  induction fuel as [|fuel IH]; intros t initial current h from depth s Hd Hf; [lia|].
  set (more := S fuel). cbn [follow]. subst more. apply bind_ext. intros url s1. cbv zeta. apply bind_ext. intros [resp t'] s2.
  destruct (if is_redirect resp then _ else None) as [[|c loc]|]; [done| |done]. cbv zeta.
  apply pure_guard. unfold check_redirect_depth. case_match; [done|]. intros _. to_prop.
  apply bind_ext. intros next s3. apply bind_ext. intros here s4. apply bind_ext. intros there s5. apply IH; lia.
Qed.

(** Whatever the servers answer, six rounds are enough: with more the loop does the same. *)
Theorem redirects_end fuel t initial url h s :
  (6 <= fuel)%nat -> chain fuel t initial url h None 0 s = chain 6 t initial url h None 0 s.
Proof.
  intros Hf. induction Hf as [|fuel Hf IH]; [done|]. rewrite <- IH. apply follow_fuel; unfold MAX_REDIRECTS; lia.
Qed.

(** *** The guide download *)

Lemma pinned_sound url s res s' :
  pinned_handle getaddrinfo stored_mode server (Request url [] None None) s = (res, s') ->
  (sent s' = sent s /\ exists e, res = Raise e) \/
  exists target, sent s' = sent s ++ [pinned target [] 0] /\ sound_target url None REFUSE target.
Proof.
  unfold pinned_handle. cbn [r_url r_headers r_from]. intros H. inv_bind H H1.
  { apply target_sound in H as [E _]. left. split; [done|by eexists]. }
  apply target_sound in H1 as [E Ht]. destruct (Ht _ eq_refl) as [Hp|[_ Hs]]; [done|]. right.
  exists x. injection H as _ <-. by rewrite <- E.
Qed.

(** What the download may send from [current] on. *)
Definition sound_download (current : string) (depth : Z) (l : list connection) : Prop :=
  sound_chain (_origin current) REFUSE None depth l /\
  (forall o p, _origin current = Ok ("https", o, p) -> Forall (fun c => c_scheme c = "https") l).

Lemma download_nil current depth : depth <= MAX_REDIRECTS + 1 -> sound_download current depth [].
Proof. intros H. split; [by apply sound_chain_nil|done]. Qed.

Lemma no_authorization_home home home' d from depth l :
  Forall (fun c => c_headers c = []) l -> sound_chain home d from depth l -> sound_chain home' d from depth l.
Proof.
  intros Hn [H1 H2 _ H4]. split; [done..| |done]. eapply Forall_impl; [exact Hn|]. intros c Hc. by rewrite Hc.
Qed.

Lemma download_cons url current next depth target l :
  httpx_url current = Ok url -> sound_target url None REFUSE target -> depth <= MAX_REDIRECTS -> Forall (fun c => c_headers c = []) l ->
  (forall o p, _origin current = Ok ("https", o, p) -> exists o p, _origin next = Ok ("https", o, p)) ->
  sound_download next (depth + 1) l -> sound_download current depth (pinned target [] 0 :: l).
Proof.
  intros Hu Ht Hd Hn Hs [Hl Hf]. split.
  - eapply (chain_step _ _ _ _ _ [] None); [by intros _ t|done|done|by right|done|].
    apply (no_authorization_home _ (_origin current)) in Hl; [|done]. destruct Hl as [H1 H2 H3 H4]. split; [done..|].
    intros _. split; [by apply H4|]. intros f o p [= <-] Ho. destruct (Hs _ _ Ho) as (o' & p' & Ho'). by eapply Hf.
  - intros o p Ho. destruct Ht as [_ Ht _]. rewrite (httpx_keeps_origin _ _ Hu), Ho in Ht. injection Ht as Ht _ _. constructor; [done|].
    destruct (Hs _ _ Ho) as (o' & p' & Ho'). by eapply Hf.
Qed.

Lemma raise_for_status_net r s a s' : raise_for_status r s = (a, s') -> s' = s.
Proof. unfold raise_for_status. case_match; by intros [= _ <-]. Qed.

Lemma xmltv_sound fuel : forall current depth s res s',
  0 <= depth <= MAX_REDIRECTS -> xmltv_follow getaddrinfo stored_mode httpx_url server fuel current depth s = (res, s') ->
  exists l, sent s' = sent s ++ l /\ Forall (fun c => c_headers c = []) l /\ sound_download current depth l.
Proof.
  induction fuel as [|fuel IH]; intros current depth s res s' Hd H; cbn [xmltv_follow] in H.
  { injection H as <- <-. exists []. rewrite app_nil_r. split_and!; [done|done|apply download_nil; lia]. }
  assert (Hnil : forall s1, sent s1 = sent s -> exists l, sent s1 = sent s ++ l /\ Forall (fun c => c_headers c = []) l /\ sound_download current depth l).
  { intros s1 E. exists []. rewrite app_nil_r. split_and!; [done|done|apply download_nil; lia]. }
  inv_bind H HB; [apply pure_inv in H as [_ <-]; by apply Hnil|]. apply pure_inv in HB as [Hu <-].
  assert (Hone : forall target s1, sound_target x None REFUSE target -> sent s1 = sent s ++ [pinned target [] 0] ->
    exists l, sent s1 = sent s ++ l /\ Forall (fun c => c_headers c = []) l /\ sound_download current depth l).
  { intros target s1 Ht E. exists [pinned target [] 0]. split_and!; [done|by repeat constructor|].
    apply (download_cons x current current); [done|done|lia|done|eauto|apply download_nil; lia]. }
  inv_bind H HB; [apply pinned_sound in H as [[E _]|(target & E & Ht)]; [by apply Hnil|by eapply Hone]|].
  apply pinned_sound in HB as [[E [e He]]|(target & E & Ht)]; [done|].
  case_match.
  2: { inv_bind H HB; [apply raise_for_status_net in H as ->|apply raise_for_status_net in HB as ->; injection H as _ <-]; by eapply Hone. }
  case_match; [case_match|]; [by injection H as _ <-; eapply Hone| |by injection H as _ <-; eapply Hone]. cbv zeta in H.
  inv_bind H HB; [apply pure_inv in H as [_ <-]; by eapply Hone|]. apply pure_inv in HB as [Hdepth <-].
  unfold check_redirect_depth in Hdepth. case_match; [done|]. to_prop.
  inv_bind H HB; [apply pure_inv in H as [_ <-]; by eapply Hone|]. apply pure_inv in HB as [_ <-].
  inv_bind H HB; [done|]. injection HB as <- <-.
  inv_bind H HB; [apply pure_inv in H as [_ <-]; by eapply Hone|]. apply pure_inv in HB as [Hv <-].
  apply redirect_sound in Hv as [Hv Hsec].
  apply IH in H as (l & El & Hn & Hl); [|lia]. exists (pinned target [] 0 :: l). split_and!.
  - cbn in El. by rewrite El, E, <- app_assoc.
  - by constructor.
  - eapply download_cons; [done|done|lia|done| |done]. intros o p Ho. rewrite (validated_origin _ _ _ _ Hv), (Hsec o p) by done. eauto.
Qed.

(** The guide download reaches only permitted addresses, at most six, without credentials and
    never over plain HTTP once it was on TLS. *)
Theorem download_guarded url s res s' :
  xmltv_request getaddrinfo stored_mode httpx_url server url s = (res, s') ->
  exists l, sent s' = sent s ++ l /\ Z.of_nat (length l) <= 6 /\ Forall guarded_connection l /\ stays_secure l /\
    Forall (fun c => c_headers c = []) l.
Proof.
  intros H. apply xmltv_sound in H as (l & E & Hn & [[H1 H2 _ H4] _]); [|unfold MAX_REDIRECTS; lia].
  exists l. split_and!; [done|unfold MAX_REDIRECTS in H1; lia|done|by apply H4|done].
Qed.
End chain.
End OutboundTheorems.
