(* ===== verification/RelayTheorems.v ===== *)
(** * What a subprocess reaches through the relay

    Whatever manifests and redirects the servers answer and whatever the subprocess asks for,
    the relay connects to permitted addresses only; a URL of a manifest it rewrote leads back
    to the URL it stood for. *)
From S2P Require Import Prelude PyValue PyText PyDatetime PyState PyNet PyUrl Ssrf SsrfPolicy StreamOutbound StreamRelay OutboundTheorems.
From stdpp Require Import list strings gmap.
Open Scope Z_scope.
Open Scope py_scope.

Lemma s_app_inj a b c : (a ++ b)%string = (a ++ c)%string -> b = c.
Proof. induction a as [|x a IH]; [done|]. rewrite !s_app_cons. intros [= H]. by apply IH. Qed.

Module RelayTheorems.
Import Ssrf SsrfPolicy StreamOutbound StreamRelay OutboundTheorems.

Section relay.
Variable getaddrinfo : nat -> resolver.
Variable stored_mode : nat -> string.
Variable httpx_url : string -> result exc string.
Variable server : nat -> connection -> result exc response.
Variable token_hex : nat -> string.
Hypothesis httpx_keeps_origin : forall u v, httpx_url u = Ok v -> _origin v = _origin u.

(** ** What is sent *)

Definition sound_sent (home : result exc origin) (c : connection) : Prop :=
  guarded_connection stored_mode c /\ (carries_authorization (c_headers c) = true -> Ok (c_origin c) = home).

(** Between two moments only sound connections were made. *)
Definition reaches (home : result exc origin) (s s' : relay) : Prop :=
  exists l, sent (outside s') = sent (outside s) ++ l /\ Forall (sound_sent home) l.

#[local] Instance reaches_pre home : PreOrder (reaches home).
Proof.
  split.
  - intros s. exists []. by rewrite app_nil_r.
  - intros s1 s2 s3 (l1 & E1 & H1) (l2 & E2 & H2). exists (l1 ++ l2). rewrite E2, E1, <- app_assoc. split; [done|by apply Forall_app].
Qed.

(** A step that leaves the outside alone. *)
Lemma moves_inside {A} home (m : M relay A) : (forall s, outside (m s).2 = outside s) -> moves (reaches home) m.
Proof. intros H s. exists []. by rewrite H, app_nil_r. Qed.

Lemma moves_relay_fetch home url h d : (carries_authorization h = true -> _origin url = home) ->
  moves (reaches home) (fetch getaddrinfo stored_mode httpx_url server url h d).
Proof.
  intros Ha s. unfold fetch, on_net.
  destruct (bind _ _ (outside s)) as [r n] eqn:H. cbn [snd].
  cut (exists l, sent n = sent (outside s) ++ l /\ Forall (sound_sent home) l); [by intros (l & E & Hl); exists l|].
  assert (Hs : forall res n1, stream_request getaddrinfo stored_mode httpx_url server url h None None d (outside s) = (res, n1) ->
    exists l, sent n1 = sent (outside s) ++ l /\ Forall (sound_sent home) l).
  { intros res n1 E. apply (follow_sound _ _ _ _ httpx_keeps_origin _ _ _ _ _ _ _ home) in E as (l & E & [_ H2 H3 _]); [|done|done|done|unfold MAX_REDIRECTS; lia].
    exists l. split; [done|]. rewrite Forall_forall in *. intros c Hc. split; [by apply H2|by apply H3]. }
  inv_bind H H1; [by eapply Hs|]. inv_bind H H2; [apply raise_for_status_net in H as ->|apply raise_for_status_net in H2 as ->; injection H as _ <-]; by eapply Hs.
Qed.

Lemma moves_register home url : moves (reaches home) (_register token_hex url).
Proof. apply moves_inside. intros s. unfold _register. by repeat case_match. Qed.

Create HintDb relay.
#[local] Hint Resolve moves_register moves_ret moves_raise moves_pure moves_bind moves_gets moves_attempt moves_try reaches_pre : relay.

Lemma moves_local_url home q u : moves (reaches home) (_local_url token_hex q u).
Proof. unfold _local_url. auto with relay. Qed.
#[local] Hint Resolve moves_local_url : relay.

Lemma moves_replace home fuel q base s : moves (reaches home) (replace_uris token_hex fuel q base s).
Proof.
  revert s. induction fuel as [|fuel IH]; intros s; cbn [replace_uris]; [apply moves_ret, _|]. destruct s as [|c s]; [apply moves_ret, _|].
  repeat case_match; auto with relay.
Qed.

Lemma moves_line home q base l : moves (reaches home) (rewrite_line token_hex q base l).
Proof. unfold rewrite_line. pose proof moves_replace. repeat case_match; auto with relay. Qed.

Lemma moves_rewrite home q body base : moves (reaches home) (_rewrite_hls token_hex q body base).
Proof.
  unfold _rewrite_hls. apply moves_bind; [apply _| |intros; apply moves_ret, _].
  pose proof moves_line. induction (splitlines body) as [|l ls IH]; cbn [rewrite_lines]; auto with relay.
Qed.

Lemma moves_serve home q r base url : moves (reaches home) (_serve token_hex q r base url).
Proof. unfold _serve. pose proof moves_rewrite. apply moves_bind; [apply _|apply moves_pure, _|]. intros p. cbv zeta. case_match; auto with relay. Qed.
#[local] Hint Resolve moves_serve : relay.

Lemma headers_for_home c url h : _headers_for c url = Ok h -> carries_authorization h = true -> _origin url = _origin (initial_url c).
Proof.
  unfold _headers_for. destruct (_origin url) as [there|]; [|done]. destruct (_origin (initial_url c)) as [home|]; [|done]. cbn.
  intros [= <-]. case_bool_decide as E; [by rewrite E|]. by rewrite without_authorization_none.
Qed.

Lemma moves_upstream c q url : moves (reaches (_origin (initial_url c))) (serve_upstream getaddrinfo stored_mode httpx_url server token_hex c q url).
Proof.
  unfold serve_upstream. apply moves_try; [apply _| |intros e; case_match; apply moves_raise, _].
  intros s. unfold bind, pure. destruct (_headers_for c url) as [h|] eqn:Hh; [|reflexivity].
  change ((bind (fetch getaddrinfo stored_mode httpx_url server url h (relay_downgrade c)) (fun rl => _serve token_hex q rl.1 rl.2 url)) s) with
    (bind (fetch getaddrinfo stored_mode httpx_url server url h (relay_downgrade c)) (fun rl => _serve token_hex q rl.1 rl.2 url) s).
  pose proof (headers_for_home _ _ _ Hh) as Hhome. by apply (moves_bind _ _ _ (moves_relay_fetch _ _ _ _ Hhome) (fun rl => moves_serve _ q rl.1 rl.2 url)).
Qed.

Lemma moves_handle c q : moves (reaches (_origin (initial_url c))) (_handle getaddrinfo stored_mode httpx_url server token_hex c q).
Proof.
  pose proof (moves_upstream c q). unfold _handle. apply moves_bind; [apply _|apply moves_gets, _|]. intros [url|]; [|apply moves_raise, _].
  apply moves_bind; [apply _|apply moves_gets, _|]. intros [rl|]; [|done]. case_match; [|done].
  apply moves_bind; [apply _|by apply moves_inside|auto with relay].
Qed.

Lemma moves_serve_all c qs : moves (reaches (_origin (initial_url c))) (serve_all getaddrinfo stored_mode httpx_url server token_hex c qs).
Proof. pose proof (moves_handle c). induction qs as [|q qs IH]; cbn [serve_all]; auto with relay. Qed.

Lemma moves_start home url h d : _origin url = home -> moves (reaches home) (start getaddrinfo stored_mode httpx_url server token_hex url h d).
Proof.
  intros <-. unfold start. apply moves_bind; [apply _|auto with relay|]. intros t.
  apply moves_bind; [apply _|by apply moves_relay_fetch|]. intros rl. by apply moves_inside.
Qed.

Lemma start_url url h d s c s' : start getaddrinfo stored_mode httpx_url server token_hex url h d s = (Ok c, s') -> initial_url c = url.
Proof.
  unfold start. intros H. apply bind_inv in H as [(? & _ & ?)|(? & ? & _ & H)]; [done|].
  apply bind_inv in H as [(? & _ & ?)|(? & ? & _ & H)]; [done|]. by injection H as <- _.
Qed.

(** A subprocess from the moment its input is prepared, and the requests it makes. *)
Definition session (url : string) (h : headers) (d : SchemeDowngrade) (relay_port : Z) (qs : list local_request)
  : M relay (list (result exc local_response)) :=
  do! i := validated_subprocess_input getaddrinfo stored_mode httpx_url server token_hex url h d relay_port in
  match relay_of i with Some c => serve_all getaddrinfo stored_mode httpx_url server token_hex c qs | None => ret [] end.

Lemma direct_sends_nothing url s : sent (validate_stream_subprocess_url getaddrinfo stored_mode url s).2 = sent s.
Proof.
  unfold validate_stream_subprocess_url, bind, pure, tick, ret, raise. repeat (case_match; simplify_eq/=; try done).
Qed.

Lemma moves_input url h d relay_port :
  moves (reaches (_origin url)) (validated_subprocess_input getaddrinfo stored_mode httpx_url server token_hex url h d relay_port).
Proof.
  unfold validated_subprocess_input. apply moves_bind; [apply _|apply moves_pure, _|]. intros p. case_match.
  - apply moves_bind; [apply _| |intros; apply moves_ret, _]. intros s. exists []. rewrite app_nil_r. split; [|done].
    unfold on_net. pose proof (direct_sends_nothing url (outside s)) as E. by destruct (validate_stream_subprocess_url _ _ _ _).
  - apply moves_bind; [apply _|by apply moves_start|intros; apply moves_ret, _].
Qed.

Lemma input_config url h d relay_port s i s' c :
  validated_subprocess_input getaddrinfo stored_mode httpx_url server token_hex url h d relay_port s = (Ok i, s') ->
  relay_of i = Some c -> initial_url c = url.
Proof.
  unfold validated_subprocess_input. intros H Hc. apply bind_inv in H as [(? & _ & ?)|(p & s1 & _ & H)]; [done|].
  case_match; (apply bind_inv in H as [(? & _ & ?)|(x & s2 & Hx & H)]; [done|]); injection H as <- _; [done|].
  injection Hc as <-. by eapply start_url.
Qed.

(** C20: A relayed stream reaches permitted addresses only, and shows the credentials it was given
    to the origin it was made for and to no other: whatever the servers put into manifests and
    redirects, and whatever the subprocess asks of the relay. *)
Theorem relay_guarded url h d relay_port qs n res s' :
  session url h d relay_port qs (new_relay n) = (res, s') ->
  exists l, sent (outside s') = sent n ++ l /\ Forall (guarded_connection stored_mode) l /\
    Forall (fun c => carries_authorization (c_headers c) = true -> Ok (c_origin c) = _origin url) l.
Proof.
  intros H. cut (reaches (_origin url) (new_relay n) s').
  { intros (l & E & Hl). exists l. split; [done|]. rewrite !Forall_forall in *. split; intros c Hc; by apply Hl. }
  pose proof (moves_input url h d relay_port (new_relay n)) as Hin.
  unfold session in H. apply bind_inv in H as [(e & H & _)|(i & s1 & Hi & H)]; [by rewrite H in Hin|].
  rewrite Hi in Hin. cbn in Hin. etransitivity; [exact Hin|]. destruct (relay_of i) as [c|] eqn:Hc.
  - rewrite <- (input_config _ _ _ _ _ _ _ _ Hi Hc). pose proof (moves_serve_all c qs s1) as Hs. by rewrite H in Hs.
  - by injection H as _ <-.
Qed.

(** A subprocess that is not given the relay is given the URL of a transport of its own, whose
    host stands for permitted addresses at that moment. *)
Theorem direct_input_checked url h d relay_port s i s' :
  validated_subprocess_input getaddrinfo stored_mode httpx_url server token_hex url h d relay_port s = (Ok i, s') -> is_http_relay i = false ->
  argument i = url /\ exists p name, urlsplit url = Ok p /\ lower (scheme p) ∈ ["udp"; "rtp"; "rtmp"] /\ hostname p = Some name /\
    exists now authority t, validates (getaddrinfo now) ("http://" ++ authority ++ "/") (get_ssrf_mode (stored_mode now)) t /\
      starts_with (bracketed name (has_char ":"%char name)) authority = true.
Proof.
  unfold validated_subprocess_input. intros H Hd. apply bind_inv in H as [(? & _ & ?)|(p & s1 & Hp & H)]; [done|].
  apply pure_inv in Hp as [Hp <-]. destruct (member (lower (scheme p)) ["http"; "https"]) eqn:Hm; cbn [negb] in H.
  { apply bind_inv in H as [(? & _ & ?)|(x & s2 & _ & H)]; [done|]. by injection H as <- _. }
  apply bind_inv in H as [(? & _ & ?)|([] & s2 & Hx & H)]; [done|]. injection H as <- _. split; [done|]. exists p.
  unfold on_net in Hx. destruct (validate_stream_subprocess_url _ _ _ _) as [r n] eqn:Hv. injection Hx as -> _.
  unfold validate_stream_subprocess_url in Hv. rewrite Hp in Hv. unfold bind, pure, tick in Hv. rewrite Hm in Hv.
  destruct (member _ ["udp"; "rtp"; "rtmp"]) eqn:Ht; [|done]. apply member_elem in Ht. cbn [negb] in Hv.
  destruct (hostname p) as [name|]; [|done]. exists name. split_and!; [done..|].
  destruct (guarded _ (port p)) as [n'|]; [|done]. cbn in Hv.
  match type of Hv with context [validate_outbound_url ?g (?a ++ ?auth ++ ?z) ?m] => destruct (validate_outbound_url g (a ++ auth ++ z) m) as [t|] eqn:Hval; [|done] end.
  apply validation_exact in Hval. eexists _, _, t. split; [exact Hval|]. unfold starts_with.
  destruct n'; [erewrite (proj2 (drop_prefix_Some _ _ _)); done|].
  by erewrite (proj2 (drop_prefix_Some _ _ "")); [|by rewrite s_app_nil_r].
Qed.

(** ** Tokens and manifests *)

(** The two tables are one bijection of at most 1024 pairs. *)
Record tables_ok (s : relay) : Prop := {
  tables_inverse : forall t u, targets s !! t = Some u <-> tokens_by_target s !! u = Some t;
  tables_bound : (size (targets s) <= _MAX_RELAY_RESOURCES)%nat }.

Definition grows (s s' : relay) : Prop := tables_ok s -> tables_ok s' /\ targets s ⊆ targets s'.
#[local] Instance grows_pre : PreOrder grows.
Proof.
  split; [by intros s|]. intros s1 s2 s3 H1 H2 H. destruct (H1 H) as [Ha Hb]. destruct (H2 Ha) as [Hc Hd]. split; [done|by etransitivity].
Qed.

Lemma fresh_token_spec fuel k taken t k' : fresh_token token_hex fuel k taken = Some (t, k') -> taken !! t = None.
Proof. revert k. induction fuel as [|fuel IH]; intros k; cbn; [done|]. case_match eqn:Ht; [apply IH|]. by intros [= <- _]. Qed.

(** A registered URL has one token for good. *)
Lemma register_spec url s t s' : tables_ok s -> _register token_hex url s = (Ok t, s') ->
  tables_ok s' /\ targets s ⊆ targets s' /\ targets s' !! t = Some url.
Proof.
  intros Hok. unfold _register. destruct (tokens_by_target s !! url) as [e|] eqn:He.
  - intros [= <- <-]. split_and!; [done|done|]. by apply Hok.
  - destruct (_ <=? _)%nat eqn:Hs; [done|]. to_prop. destruct (fresh_token _ _ _ _) as [[u k]|] eqn:Hf; [|done].
    intros [= <- <-]. apply fresh_token_spec in Hf. destruct Hok as [Hi Hb]. cbn [targets tokens_by_target]. split_and!.
    + split; cbn [targets tokens_by_target].
      * intros x y. rewrite !lookup_insert_Some, Hi. split.
        -- intros [[<- <-]|[Hx Hy]]; [by left|]. right. split; [|done]. intros <-. congruence.
        -- intros [[<- <-]|[Hx Hy]]; [by left|]. right. split; [|done]. intros <-. apply Hi in Hy. congruence.
      * rewrite map_size_insert_None by done. lia.
    + by apply insert_subseteq.
    + by rewrite lookup_insert_eq.
Qed.


(** [_register] with enough distinct draws does not search in vain. *)
Lemma register_total url s :
  (forall taken : gmap string string, (size taken <= _MAX_RELAY_RESOURCES)%nat -> forall k, exists j, (j <= _MAX_RELAY_RESOURCES)%nat /\ taken !! token_hex (k + j) = None) ->
  tables_ok s -> (size (targets s) < _MAX_RELAY_RESOURCES)%nat -> exists t s', _register token_hex url s = (Ok t, s').
Proof.
  intros Hdraws Hok Hs. unfold _register. destruct (tokens_by_target s !! url) as [t|]; [by eexists _, _|].
  destruct (_ <=? _)%nat eqn:Hle; to_prop; [lia|].
  destruct (Hdraws (targets s) ltac:(lia) (drawn s)) as (j & Hj & Hfree).
  cut (forall fuel k, (k <= j)%nat -> (j - k < fuel)%nat -> exists r, fresh_token token_hex fuel (drawn s + k) (targets s) = Some r).
  { intros H. destruct (H (S _MAX_RELAY_RESOURCES) 0%nat) as [[t k] Hr]; [lia|lia|]. rewrite Nat.add_0_r in Hr. rewrite Hr. by eexists _, _. }
  intros fuel. induction fuel as [|fuel IH]; intros k Hk Hf; [lia|]. cbn [fresh_token].
  destruct (targets s !! token_hex (drawn s + k)) as [u|] eqn:Hu; [|by eexists].
  assert (k <> j) by congruence. rewrite plus_n_Sm. apply IH; lia.
Qed.

(** What a line of a manifest becomes when [leads t u] holds of the tokens that stand for URLs. *)
Section rewritten.
Variable q : local_request.
Variable base_url : string.
Variable leads : string -> string -> Prop.

(** The relay's URL for what [target] names relative to the manifest. *)
Definition stands_in (target shown : string) : Prop :=
  exists u t, urljoin base_url target = Ok u /\ leads t u /\ shown = local_url q t.

Inductive attributes : string -> string -> Prop :=
| attr_end : attributes "" ""
| attr_uri value shown rest rest' : value <> "" -> has_char quote value = false -> stands_in value shown -> attributes rest rest' ->
    attributes (URI ++ value ++ String quote rest) (URI ++ shown ++ String quote rest')
| attr_other c rest rest' :
    (forall value after, String c rest = (URI ++ value ++ String quote after)%string -> has_char quote value = false -> value = "") ->
    attributes rest rest' -> attributes (String c rest) (String c rest').

Inductive rewritten : string -> string -> Prop :=
| url_line line shown : strip line <> "" -> starts_with "#" (strip line) = false -> stands_in (strip line) shown -> rewritten line shown
| tag_line line line' : strip line = "" \/ starts_with "#" (strip line) = true -> contains URI line = true -> attributes line line' -> rewritten line line'
| plain_line line : strip line = "" \/ starts_with "#" (strip line) = true -> contains URI line = false -> rewritten line line.
End rewritten.

Lemma attributes_mono q base leads leads' s s' :
  (forall t u, leads t u -> leads' t u) -> attributes q base leads s s' -> attributes q base leads' s s'.
Proof.
  intros H Ha. induction Ha as [|value shown rest rest' Hv Hq (u & t & Hu & Ht & ->) _ IH|c rest rest' Hn _ IH]; [constructor| |by constructor].
  constructor; [done|done| |done]. exists u, t. auto.
Qed.

Lemma rewritten_mono q base leads leads' l l' :
  (forall t u, leads t u -> leads' t u) -> rewritten q base leads l l' -> rewritten q base leads' l l'.
Proof.
  intros H [line shown H1 H2 (u & t & Hu & Ht & ->)|line line' H1 H2 H3|line H1 H2].
  - apply url_line; [done|done|]. exists u, t. auto.
  - apply tag_line; [done|done|]. by eapply attributes_mono.
  - by apply plain_line.
Qed.

Definition leads_in (s : relay) (t u : string) : Prop := targets s !! t = Some u.

Lemma leads_grow s s' t u : targets s ⊆ targets s' -> leads_in s t u -> leads_in s' t u.
Proof. intros H. unfold leads_in. intros E. by eapply lookup_weaken. Qed.

Lemma local_url_spec q base target s r s' u :
  tables_ok s -> urljoin base target = Ok u -> _local_url token_hex q u s = (Ok r, s') ->
  tables_ok s' /\ targets s ⊆ targets s' /\ stands_in q base (leads_in s') target r.
Proof.
  intros Hok Hu H. unfold _local_url in H. apply bind_inv in H as [(? & _ & ?)|(t & s1 & Ht & H)]; [done|]. injection H as <- <-.
  apply register_spec in Ht as (H1 & H2 & H3); [|done]. split_and!; [done|done|]. by exists u, t.
Qed.

Lemma replace_spec q base fuel : forall line s r s', (String.length line <= fuel)%nat -> tables_ok s ->
  replace_uris token_hex fuel q base line s = (Ok r, s') ->
  tables_ok s' /\ targets s ⊆ targets s' /\ attributes q base (leads_in s') line r.
Proof.
  induction fuel as [|fuel IH]; intros line s r s' Hl Hok H; cbn [replace_uris] in H.
  { destruct line; [|cbn in Hl; lia]. injection H as <- <-. split_and!; [done|done|constructor]. }
  destruct line as [|c line]; [injection H as <- <-; split_and!; [done|done|constructor]|].
  destruct (match drop_prefix URI (String c line) with Some rest => split_char quote rest | None => None end) as [[value after]|] eqn:Hm.
  2: { apply bind_inv in H as [(? & _ & ?)|(r1 & s1 & Hr & H)]; [done|]. injection H as <- <-.
       apply IH in Hr as (H1 & H2 & H3); [|cbn in Hl; lia|done]. split_and!; [done|done|]. constructor; [|done].
       intros v rest E Hv. rewrite (proj2 (drop_prefix_Some _ _ _) E), split_char_app in Hm by done. done. }
  destruct (drop_prefix URI (String c line)) as [rest|] eqn:Hp; [|done].
  apply drop_prefix_Some in Hp. apply split_char_Some in Hm as [-> Hq]. destruct value as [|x value].
  - apply bind_inv in H as [(? & _ & ?)|(r1 & s1 & Hr & H)]; [done|]. injection H as <- <-.
    apply IH in Hr as (H1 & H2 & H3); [|cbn in Hl; lia|done]. split_and!; [done|done|]. constructor; [|done].
    intros v rest E Hv. rewrite E in Hp. apply s_app_inj in Hp. by destruct v as [|y v]; [|injection Hp as -> _; cbn in Hv].
  - apply bind_inv in H as [(? & _ & ?)|(u & s1 & Hu & H)]; [done|]. apply pure_inv in Hu as [Hu <-].
    apply bind_inv in H as [(? & _ & ?)|(here & s1 & Hh & H)]; [done|].
    apply bind_inv in H as [(? & _ & ?)|(r1 & s2 & Hr & H)]; [done|]. injection H as <- <-.
    eapply local_url_spec in Hh as (Ha & Hb & H3); [|done|done].
    apply (f_equal String.length) in Hp as Hlen. rewrite !s_length_app in Hlen. cbn in Hlen, Hl.
    apply IH in Hr as (H4 & H5 & H6); [|lia|done]. split_and!; [done|by etransitivity|]. rewrite Hp. constructor; [done|done| |done].
    destruct H3 as (u' & t & Hu' & Ht & ->). exists u', t. split_and!; [done|by eapply leads_grow|done].
Qed.

Lemma line_spec q base line s r s' : tables_ok s -> rewrite_line token_hex q base line s = (Ok r, s') ->
  tables_ok s' /\ targets s ⊆ targets s' /\ rewritten q base (leads_in s') line r.
Proof.
  intros Hok H. unfold rewrite_line in H. destruct (negb (bool_decide (strip line = "")) && _) eqn:E.
  - to_prop. apply bind_inv in H as [(? & _ & ?)|(u & s1 & Hu & H)]; [done|]. apply pure_inv in Hu as [Hu <-].
    eapply local_url_spec in H as (Ha & Hb & Hs); [|done|done]. split_and!; [done|done|by apply url_line].
  - assert (Ht : strip line = "" \/ starts_with "#" (strip line) = true).
    { apply andb_false_iff in E as [E|E]; to_prop; [by left|by right]. }
    destruct (contains URI line) eqn:Hc.
    + apply replace_spec in H as (H1 & H2 & H3); [|lia|done]. split_and!; [done|done|by apply tag_line].
    + injection H as <- <-. split_and!; [done|done|by apply plain_line].
Qed.

Lemma lines_spec q base lines : forall s r s', tables_ok s -> rewrite_lines token_hex q base lines s = (Ok r, s') ->
  tables_ok s' /\ targets s ⊆ targets s' /\ Forall2 (rewritten q base (leads_in s')) lines r.
Proof.
  induction lines as [|line lines IH]; intros s r s' Hok H; cbn [rewrite_lines] in H; [injection H as <- <-; by split_and!|].
  apply bind_inv in H as [(? & _ & ?)|(l1 & s1 & H1 & H)]; [done|]. apply bind_inv in H as [(? & _ & ?)|(ls & s2 & H2 & H)]; [done|].
  injection H as <- <-. apply line_spec in H1 as (Ha & Hb & Hc); [|done]. apply IH in H2 as (Hd & He & Hf); [|done].
  split_and!; [done|by etransitivity|]. constructor; [|done]. eapply rewritten_mono; [|exact Hc]. intros t u. by apply leads_grow.
Qed.

(** A manifest the relay serves has, for every URL line and every quoted attribute of the
    original, a URL of the relay whose token leads to what the original named; other lines are
    as they were.  Tokens are never reassigned and there are at most 1024 of them. *)
Theorem manifest_leads_back q body base s text s' :
  tables_ok s -> _rewrite_hls token_hex q body base s = (Ok text, s') ->
  tables_ok s' /\ targets s ⊆ targets s' /\
  exists lines, text = (s_join (String line_feed "") lines ++ String line_feed "")%string /\ Forall2 (rewritten q base (leads_in s')) (splitlines body) lines.
Proof.
  intros Hok H. unfold _rewrite_hls in H. apply bind_inv in H as [(? & _ & ?)|(lines & s1 & Hl & H)]; [done|]. injection H as <- <-.
  apply lines_spec in Hl as (H1 & H2 & H3); [|done]. split_and!; [done|done|]. by exists lines.
Qed.

Lemma new_tables_ok n : tables_ok (new_relay n).
Proof. split; [intros t u; cbn; by rewrite !lookup_empty|]. cbn. rewrite map_size_empty. unfold _MAX_RELAY_RESOURCES. lia. Qed.

End relay.
End RelayTheorems.
