(* ===== verification/PinnedUrl.v ===== *)
(** * The URL an upload is sent to

    [pinned_request_url] writes the validated address into the URL; read back by the rules of
    [urllib] it names that address and port again, so nothing is resolved a second time. *)
From S2P Require Import Prelude PyValue PyText PyDatetime PyState PyNet PyUrl Ssrf StreamOutbound.
From Stdlib Require Import DecimalString.
From stdpp Require Import list strings.
Open Scope Z_scope.
Open Scope py_scope.

Module PinnedUrl.
Import Ssrf StreamOutbound.

(** ** Texts of characters of one kind *)

Fixpoint every (p : Ascii.ascii -> bool) (s : string) : bool :=
  match s with EmptyString => true | String c s => p c && every p s end.

Lemma every_app p a b : every p (a ++ b) = every p a && every p b.
Proof. induction a as [|c a IH]; [done|]. rewrite s_app_cons. cbn [every]. by rewrite IH, andb_assoc. Qed.

Lemma every_weaken (p p' : Ascii.ascii -> bool) s : (forall c, p c = true -> p' c = true) -> every p s = true -> every p' s = true.
Proof. intros H. induction s as [|c s IH]; cbn; [done|]. intros [Hc Hs]%andb_prop. by rewrite H, IH. Qed.

Lemma every_has p s c : every p s = true -> p c = false -> has_char c s = false.
Proof.
  intros H Hc. induction s as [|x s IH]; cbn [every has_char] in *; [done|]. apply andb_prop in H as [Hx Hs].
  rewrite bool_decide_false by congruence. by apply IH.
Qed.

Lemma every_filter p q s : every p s = true -> (forall c, p c = true -> q c = true) -> s_filter q s = s.
Proof. intros H Hq. induction s as [|c s IH]; cbn in *; [done|]. apply andb_prop in H as [Hc Hs]. by rewrite Hq, IH. Qed.

Lemma s_filter_app q a b : s_filter q (a ++ b) = (s_filter q a ++ s_filter q b)%string.
Proof. induction a as [|c a IH]; [done|]. rewrite s_app_cons. cbn. rewrite IH. by destruct (q c). Qed.

Lemma every_lower p s : every p s = true -> (forall c, p c = true -> is_upper c = false) -> lower s = s.
Proof.
  intros H Hu. unfold lower. induction s as [|c s IH]; cbn in *; [done|]. apply andb_prop in H as [Hc Hs].
  rewrite IH by done. unfold to_lower. by rewrite Hu.
Qed.

Lemma every_join p sep l : every p sep = true -> Forall (fun s => every p s = true) l -> every p (s_join sep l) = true.
Proof.
  intros Hsep H. induction H as [|x l Hx Hl IH]; [done|]. destruct l as [|y l]; [done|].
  change (s_join sep (x :: y :: l)) with (x ++ sep ++ s_join sep (y :: l))%string. by rewrite !every_app, Hx, Hsep, IH.
Qed.

Lemma span_until_app p a b : every (fun c => negb (p c)) a = true -> (exists c s, b = String c s /\ p c = true) -> span_until p (a ++ b) = (a, b).
Proof.
  intros Ha (c & s & -> & Hc). induction a as [|x a IH]; [change ("" ++ String c s)%string with (String c s); cbn [span_until]; by rewrite Hc|]. cbn [every] in Ha. apply andb_prop in Ha as [Hx Ha].
  rewrite s_app_cons. cbn [span_until]. apply negb_true_iff in Hx. by rewrite Hx, IH.
Qed.

(** ** The characters of numbers and addresses *)

Lemma based_uint_acc d acc : based 10 (Z.pos acc) (NilEmpty.string_of_uint d) = Some (Z.pos (Pos.of_uint_acc d acc)).
Proof.
  revert acc. induction d as [|d IH|d IH|d IH|d IH|d IH|d IH|d IH|d IH|d IH|d IH]; intros acc; [reflexivity|..];
    cbn [NilEmpty.string_of_uint Pos.of_uint_acc based]; rewrite <- IH;
    lazymatch goal with |- context [digit_value ?c] => let v := eval vm_compute in (digit_value c) in change (digit_value c) with v end;
    lazymatch goal with |- (if ?b then based 10 ?x _ else _) = based 10 ?y _ => change b with true; replace y with x by lia; reflexivity end.
Qed.

Lemma based_uint d : based 10 0 (NilEmpty.string_of_uint d) = Some (Z.of_N (Pos.of_uint d)).
Proof. induction d; try exact (based_uint_acc d _); [reflexivity|exact IHd]. Qed.

Lemma decimal_uint d : every is_decimal (NilEmpty.string_of_uint d) = true.
Proof. by induction d. Qed.

Lemma port_text n : 0 <= n -> every is_decimal (str_of_Z n) = true /\ based 10 0 (str_of_Z n) = Some n /\ str_of_Z n <> "".
Proof.
  intros Hn. split_and!; [| |by apply str_of_Z_nonempty]; destruct (str_of_nat_uint n Hn) as (d & -> & _ & Hd); [apply decimal_uint|].
  rewrite based_uint. change (Pos.of_uint d) with (N.of_uint d). rewrite Hd. f_equal. lia.
Qed.

Definition address_char (c : Ascii.ascii) : bool := is_decimal c || (97 <=? code c)%nat && (code c <=? 102)%nat || has_char c ":.".

Lemma nibble_chars n : every address_char (nibble n) = true.
Proof.
  unfold nibble. pose proof (Z.mod_pos_bound n 16 ltac:(lia)).
  assert (exists k, (k < 16)%nat /\ n mod 16 = Z.of_nat k) as (k & Hk & ->) by (exists (Z.to_nat (n mod 16)); lia).
  rewrite Nat2Z.id. do 16 (destruct k as [|k]; [reflexivity|]). lia.
Qed.

Lemma hex_text_every n : every address_char (hex_text n) = true.
Proof. unfold hex_text. repeat case_match; by rewrite ?every_app, !nibble_chars. Qed.

Lemma compressed_every l : Forall (fun s => every address_char s = true) l -> Forall (fun s => every address_char s = true) (compress_hextets l).
Proof.
  intros H. unfold compress_hextets. destruct (longest 0 0 0 0 l) as [start run]. case_match; [|done].
  repeat apply Forall_app_2; try (by repeat constructor); try (by case_match; repeat constructor); [by apply Forall_take|by apply Forall_drop].
Qed.

Definition no_zone (a : ip) : Prop := match a with V4 _ => True | V6 _ scope => scope = "" end.

Lemma address_text a : well_formed a -> no_zone a -> every address_char (ip_str a) = true.
Proof.
  unfold well_formed. destruct a as [n|n scope]; cbn [number width no_zone]; intros Hn Hz.
  - apply every_join; [done|]. pose proof (groups_bound 256 4 n [] ltac:(lia) ltac:(constructor)) as Hb.
    apply Forall_map. eapply Forall_impl; [exact Hb|]. intros h Hh. destruct (port_text h) as [Hd _]; [cbn in Hh; lia|].
    eapply every_weaken; [|exact Hd]. intros c Hc. unfold address_char. by rewrite Hc.
  - subst scope. cbn [ip_str]. rewrite bool_decide_true by done. apply every_join; [done|]. apply compressed_every.
    apply Forall_map, Forall_forall. intros h _. apply hex_text_every.
Qed.

(** ** Reading the URL back *)

Lemma char_facts c : address_char c = true ->
  is_upper c = false /\ negb (has_char c "/?#") = true /\
  negb (is_removed c) = true.
Proof. intros H. destruct c as [[] [] [] [] [] [] [] []]; done. Qed.

Lemma s_length_pos s : s <> "" -> exists c r, s = String c r.
Proof. destruct s as [|c r]; [done|]. by exists c, r. Qed.

(** [host:port] with an address for a host. *)
Definition authority (a : ip) (prt : Z) : string :=
  (bracketed (ip_str a) (match a with V6 _ _ => true | V4 _ => false end) ++ ":" ++ str_of_Z prt)%string.

Lemma v4_plain n : 0 <= n < 2 ^ 32 -> has_char ":"%char (ip_str (V4 n)) = false.
Proof.
  intros Hn. by eapply v4_no_colon, v4_of_str.
Qed.

Section pinned.
Variable a : ip.
Variable prt : Z.
Hypothesis Hw : well_formed a.
Hypothesis Hz : no_zone a.
Hypothesis Hp : 0 <= prt <= 65535.

Lemma address_lacks c : address_char c = false -> has_char c (ip_str a) = false.
Proof. intros Hc. eapply every_has; [by apply address_text|done]. Qed.

Lemma port_lacks c : is_decimal c = false -> has_char c (str_of_Z prt) = false.
Proof. intros Hc. eapply every_has; [apply port_text; lia|done]. Qed.

Lemma authority_lacks c : address_char c = false -> c <> "["%char -> c <> "]"%char -> has_char c (authority a prt) = false.
Proof.
  intros Hc H1 H2. assert (Hd : is_decimal c = false) by (unfold address_char in Hc; by destruct (is_decimal c)).
  assert (Hcolon : c <> ":"%char) by (by intros ->).
  unfold authority, bracketed. case_match; rewrite !has_char_app, address_lacks, port_lacks by done; cbn [has_char];
    by rewrite !bool_decide_false by congruence.
Qed.

Lemma after_last_plain c s : has_char c s = false -> after_last c s = s.
Proof. intros H. unfold after_last. by rewrite split_on_plain. Qed.

Lemma split_head c s : split_char c (String c s) = Some ("", s).
Proof. cbn [split_char]. by rewrite bool_decide_true. Qed.

Definition four : Prop := match a with V4 _ => True | V6 _ _ => False end.
Definition six : Prop := match a with V4 _ => False | V6 _ _ => True end.
Lemma versions : four \/ six.
Proof. unfold four, six. destruct a; auto. Qed.

Lemma authority_four : four -> authority a prt = (ip_str a ++ String ":"%char (str_of_Z prt))%string.
Proof. unfold four, authority. by destruct a. Qed.

Lemma authority_six : six ->
  authority a prt = String "["%char (ip_str a ++ String "]"%char (String ":"%char (str_of_Z prt)))%string.
Proof.
  unfold six, authority, bracketed. intros H. destruct a; [done|]. change (String ":"%char (str_of_Z prt)) with (":" ++ str_of_Z prt)%string.
  by rewrite <- (s_app_cons "["%char), <- !s_app_assoc.
Qed.

Lemma four_plain : four -> has_char ":"%char (ip_str a) = false.
Proof. unfold four, well_formed in *. destruct a; [by intros _; apply v4_plain|done]. Qed.

Lemma authority_hostinfo : hostinfo (authority a prt) = (ip_str a, Some (str_of_Z prt)).
Proof.
  destruct (port_text prt ltac:(lia)) as (_ & _ & Hne).
  unfold hostinfo. rewrite after_last_plain by (by apply authority_lacks). unfold PyUrl.partition.
  destruct versions as [H|H].
  - rewrite (proj2 (split_char_None "["%char _)).
    2: { rewrite authority_four, has_char_app by done. rewrite address_lacks by done. cbn [has_char]. rewrite port_lacks by done. done. }
    rewrite authority_four by done. rewrite split_char_app by (by apply four_plain). by rewrite bool_decide_false.
  - rewrite authority_six by done. rewrite split_head. rewrite split_char_app by (by apply address_lacks).
    cbn [snd]. rewrite split_head. by rewrite bool_decide_false.
Qed.

Lemma zone_clean : zone_ok a.
Proof. unfold no_zone in *. destruct a; cbn; [done|by subst]. Qed.

Lemma address_reads : ip_address (ip_str a) = Some a.
Proof. apply ip_address_str; [done|apply zone_clean]. Qed.

Lemma address_first : starts_with "v" (ip_str a) = false.
Proof.
  pose proof (address_text a Hw Hz) as Ht. destruct (ip_str a) as [|c r]; [done|]. cbn in Ht. apply andb_prop in Ht as [Hc _].
  unfold starts_with. cbn [drop_prefix]. case_bool_decide; [by subst c|done].
Qed.

(** The brackets of the authority pass the checks of [urlsplit]. *)
Lemma authority_brackets :
  (if xorb (has_char "["%char (authority a prt)) (has_char "]"%char (authority a prt)) then Raise (value_error "Invalid IPv6 URL")
   else if has_char "["%char (authority a prt) then check_bracketed_netloc (authority a prt) else Ok tt) = Ok tt.
Proof.
  destruct versions as [H|H].
  - rewrite authority_four by done. rewrite !has_char_app, !address_lacks by done. cbn [has_char]. by rewrite !port_lacks by done.
  - assert (has_char "["%char (authority a prt) = true /\ has_char "]"%char (authority a prt) = true) as [-> ->].
    { rewrite authority_six by done. cbn [has_char]. rewrite !has_char_app. cbn [has_char].
      rewrite (bool_decide_true ("["%char = "["%char)), (bool_decide_true ("]"%char = "]"%char)) by done. by rewrite !orb_true_r. }
    cbn [xorb]. unfold check_bracketed_netloc. rewrite after_last_plain by (by apply authority_lacks). unfold PyUrl.partition.
    rewrite authority_six by done. rewrite split_head, split_char_app by (by apply address_lacks). cbn [fst snd].
    unfold check_bracketed_host. rewrite address_first, address_reads. unfold six in H. destruct a; [done|].
    rewrite bool_decide_true, bool_decide_false by done. done.
Qed.

Lemma authority_every (p : Ascii.ascii -> bool) :
  (forall c, address_char c = true \/ c = "["%char \/ c = "]"%char -> p c = true) -> every p (authority a prt) = true.
Proof.
  intros H. assert (Ha : every p (ip_str a) = true) by (eapply every_weaken; [|by apply address_text]; auto).
  assert (Hd : every p (str_of_Z prt) = true).
  { eapply every_weaken; [|apply port_text; lia]. intros c Hc. apply H. left. unfold address_char. by rewrite Hc. }
  unfold authority, bracketed. destruct a; rewrite !every_app, Ha, Hd; cbn [every]; by rewrite !H by auto.
Qed.

(** An HTTP URL with this authority, split. *)
Lemma split_authority sch rest :
  sch = "http" \/ sch = "https" ->
  exists p q f, urlsplit (sch ++ "://" ++ authority a prt ++ String "/"%char rest) = Ok (Split sch (authority a prt) p q f).
Proof.
  intros Hs. unfold urlsplit, urlsplit_with.
  assert (Hl : forall x, lstrip_chars is_c0_or_space (sch ++ x) = (sch ++ x)%string) by (intros x; by destruct Hs as [-> | ->]).
  rewrite Hl, !s_filter_app.
  assert (Hcut : s_filter (fun c => negb (is_removed c)) sch = sch) by (by destruct Hs as [-> | ->]). rewrite Hcut.
  assert (Hauth : s_filter (fun c => negb (is_removed c)) (authority a prt) = authority a prt).
  { apply (every_filter (fun c => negb (is_removed c))); [|done]. apply authority_every. intros c [Hc|[-> | ->]]; [by apply char_facts|done..]. }
  rewrite Hauth. change (s_filter (fun c => negb (is_removed c)) "://") with "://".
  change (s_filter (fun c => negb (is_removed c)) (String "/"%char rest)) with (String "/"%char (s_filter (fun c => negb (is_removed c)) rest)).
  set (rest' := s_filter _ rest). rewrite (s_app_cons ":"%char). rewrite split_char_app by (by destruct Hs as [-> | ->]).
  assert (Hhead : exists c r, sch = String c r /\ is_alpha c && all_chars is_scheme_char sch = true /\ lower sch = sch).
  { destruct Hs as [-> | ->]; by eexists _, _. }
  destruct Hhead as (c & r & E & Hc & Hlow). rewrite E. rewrite <- E, Hc, Hlow.
  rewrite (proj2 (drop_prefix_Some "//" _ _)) by reflexivity.
  rewrite span_until_app; [| |by eexists _, _].
  2: { apply authority_every. intros d [Hd|[-> | ->]]; [by apply char_facts|done..]. }
  rewrite authority_brackets. cbn [rbind]. destruct (PyUrl.partition "#"%char _) as [[x y] z].
  destruct (PyUrl.partition "?"%char x) as [[x' y'] z']. by eexists _, _, _.
Qed.

Lemma authority_hostname sch p q f :
  hostname (Split sch (authority a prt) p q f) = Some (ip_str a) /\ port (Split sch (authority a prt) p q f) = Ok (Some prt).
Proof.
  unfold hostname, port. cbn [netloc]. rewrite authority_hostinfo. cbn [fst snd].
  destruct (port_text prt ltac:(lia)) as (Hd & Hb & Hne). split.
  - rewrite bool_decide_false.
    2: { intros E. pose proof address_reads as Hr. by rewrite E in Hr. }
    unfold PyUrl.partition. rewrite (proj2 (split_char_None _ _)) by (by apply address_lacks).
    rewrite (every_lower address_char); [by rewrite s_app_nil_r|by apply address_text|]. intros c Hc. by apply char_facts.
  - assert (Hall : all_chars is_decimal (str_of_Z prt) = true).
    { apply bool_decide_true. by apply (every_filter is_decimal). }
    rewrite Hall, Hb. case_match; [done|]. to_prop. lia.
Qed.
End pinned.

(** The URL an upload goes to names the validated address, port and scheme, whatever the path
    and the query are: reading it back resolves nothing. *)
Theorem pinned_url_names_target t path query :
  well_formed (t_ip t) -> no_zone (t_ip t) -> 0 <= t_port t <= 65535 -> t_scheme t = "http" \/ t_scheme t = "https" ->
  exists p, urlsplit (pinned_request_url t path query) = Ok p /\ scheme p = t_scheme t /\
    (exists h, hostname p = Some h /\ ip_address h = Some (t_ip t)) /\ port p = Ok (Some (t_port t)).
Proof.
  intros Hw Hz Hp Hs. unfold pinned_request_url.
  assert (Hpath : exists r, (if starts_with "/" path then path else ("/" ++ path)%string) = String "/"%char r).
  { destruct (starts_with "/" path) eqn:E; [|by eexists]. unfold starts_with in E. destruct (drop_prefix "/" path) as [r|] eqn:Er; [|done].
    apply drop_prefix_Some in Er as ->. by exists r. }
  destruct Hpath as [r ->].
  destruct (split_authority (t_ip t) (t_port t) Hw Hz Hp (t_scheme t) (r ++ (if bool_decide (query = "") then "" else "?" ++ query)) Hs) as (p & q & f & E).
  unfold authority in E at 1. cbv zeta. rewrite <- !s_app_assoc in E. rewrite (s_app_cons "/"%char r), <- !s_app_assoc, E.
  destruct (authority_hostname (t_ip t) (t_port t) Hw Hz Hp (t_scheme t) p q f) as [H1 H2].
  eexists. split_and!; [reflexivity|done| |done]. eexists. split; [done|]. by apply address_reads.
Qed.
End PinnedUrl.
