(* ===== verification/OutboundDemo.v ===== *)
(** * A world for the outbound guard

    A resolver, some servers and a source of tokens on which the theorems of [SsrfPolicy],
    [OutboundTheorems], [RelayTheorems] and [PinnedUrl] run, and examples of what the guard does not do. *)
From S2P Require Import Prelude PyValue PyText PyDatetime PyState PyNet PyUrl Ssrf SsrfPolicy StreamOutbound StreamRelay.
From S2P Require Import OutboundTheorems RelayTheorems PinnedUrl.
From stdpp Require Import list strings gmap.
Open Scope Z_scope.
Open Scope py_scope.

Module OutboundDemo.
Import Ssrf SsrfPolicy StreamOutbound StreamRelay OutboundTheorems RelayTheorems PinnedUrl.

(** The host [rebind] is public for the first two validations and the metadata service after. *)
Definition names (now : nat) : resolver := fun host _ =>
  if bool_decide (host = "tv.example") then Ok ["93.184.216.34"; "2606:2800:220::1"]
  else if bool_decide (host = "edge.example") then Ok ["8.8.4.4"]
  else if bool_decide (host = "rebind.example") then Ok [if (now <? 2)%nat then "1.1.1.1" else "169.254.169.254"]
  else if bool_decide (host = "nas.local") then Ok ["192.168.1.5"]
  else Raise (Exc Other "gaierror" "").
Definition lan (now : nat) : string := "lan_friendly".
Definition as_is (url : string) : result exc string := Ok url.
Definition token_of (k : nat) : string := ("t" ++ str_of_Z (Z.of_nat k))%string.

Definition answer (chunks : list string) : response := Response false None [("Content-Type", "video/mp2t")] chunks.
Definition playlist (chunks : list string) : response := Response false None [("content-type", "application/vnd.apple.mpegurl")] chunks.
Definition redirect (location : string) : response := Response true None [("Location", location)] [].
Definition eol : string := String line_feed EmptyString.
Definition quoted (s : string) : string := String.concat "" [String quote EmptyString; s; String quote EmptyString].

(** [tv.example] redirects to the edge once and answers a manifest after. *)
Definition servers (now : nat) (c : connection) : result exc response :=
  if bool_decide (c_sni c = "tv.example") then
    if (now <? 2)%nat then Ok (redirect "//edge.example/live.m3u8")
    else Ok (answer ["segment"])
  else if bool_decide (c_sni c = "edge.example") then
    Ok (playlist [("#EXTM3U" ++ eol)%string; ("#EXT-X-KEY:URI=" ++ quoted "key.bin" ++ eol ++ "http://tv.example/seg.ts" ++ eol)%string])
  else if bool_decide (c_sni c = "loop.example") then Ok (redirect "/again")
  else Ok (answer ["x"]).

Definition start_net : net := Netw 0 [].
Definition secret : headers := [("Authorization", "Bearer x"); ("User-Agent", "ecm")].

Lemma as_is_keeps u v : as_is u = Ok v -> _origin v = _origin u.
Proof. by intros [= <-]. Qed.

(** The redirect is followed, the credentials are not sent along. *)
Example redirected :
  let '(r, n) := stream_request names lan as_is servers "https://tv.example/live.m3u8" secret None None REFUSE start_net in
  (match r with Ok (_, url) => url | Raise _ => "" end, map (fun c => (c_ip c, c_port c, c_scheme c, c_sni c, c_headers c, c_pool c)) (sent n))
  = ("https://edge.example/live.m3u8",
     [(V4 1572395042, 443, "https", "tv.example", secret, 0%nat);
      (V4 134743044, 443, "https", "edge.example", [("User-Agent", "ecm")], 1%nat)]).
Proof. vm_compute. reflexivity. Qed.

Example policy_exact_witness : well_formed (V6 281473568538110 "") /\
  _ip_allowed (V6 281473568538110 "") LAN_FRIENDLY = permitted (V6 281473568538110 "") LAN_FRIENDLY.
Proof.
  assert (H : well_formed (V6 281473568538110 "")) by (unfold well_formed; cbn; lia).
  split; [exact H|]. exact (policy_exact _ LAN_FRIENDLY H).
Defined.

Definition live_run := stream_request names lan as_is servers "https://tv.example/live.m3u8" secret None None REFUSE start_net.

Example stream_request_guarded_witness :
  sound_first lan "https://tv.example/live.m3u8" None /\
  exists l, sent live_run.2 = [] ++ l /\ Z.of_nat (length l) <= 6 /\ Forall (guarded_connection lan) l /\
    Forall (fun c => carries_authorization (c_headers c) = true -> Ok (c_origin c) = _origin "https://tv.example/live.m3u8") l /\
    (REFUSE = REFUSE -> stays_secure l).
Proof.
  assert (H : sound_first lan "https://tv.example/live.m3u8" None) by (intros t Ht; discriminate Ht).
  split; [exact H|].
  exact (stream_request_guarded names lan as_is servers as_is_keeps _ secret None REFUSE start_net live_run.1 live_run.2 H
    (surjective_pairing _)).
Defined.

Example redirects_end_witness : (6 <= 9)%nat /\
  follow names lan as_is servers 9 (new_transport REFUSE) None "http://loop.example/" [] None 0 start_net =
  follow names lan as_is servers 6 (new_transport REFUSE) None "http://loop.example/" [] None 0 start_net.
Proof. split; [lia|]. apply redirects_end; lia. Defined.

Definition guide_run := xmltv_request names lan as_is servers "https://tv.example/guide.xml" start_net.

Example download_guarded_witness :
  guide_run = (guide_run.1, guide_run.2) /\
  exists l, sent guide_run.2 = [] ++ l /\ Z.of_nat (length l) <= 6 /\ Forall (guarded_connection lan) l /\ stays_secure l /\
    Forall (fun c => c_headers c = []) l.
Proof.
  assert (H : guide_run = (guide_run.1, guide_run.2)) by apply surjective_pairing.
  split; [exact H|].
  exact (download_guarded names lan as_is servers as_is_keeps _ start_net guide_run.1 guide_run.2 H).
Defined.

(** ** The relay *)

Definition player (t : string) : local_request := Local t "http" "127.0.0.1:9000".
Definition relayed := session names lan as_is servers token_of "https://tv.example/live.m3u8" secret REFUSE 9000
  [player "t0"; player "t2"; player "t7"] (new_relay start_net).

(** What the subprocess sees: a manifest of loopback URLs, a segment, nothing. *)
Example relayed_answers :
  relayed.1 = Ok [Ok (Manifest ("#EXTM3U" ++ eol ++ "#EXT-X-KEY:URI=" ++ quoted "http://127.0.0.1:9000/resource/t1" ++ eol
                                ++ "http://127.0.0.1:9000/resource/t2" ++ eol));
                  Ok (Stream (answer ["segment"])); Raise (Exc Other "HTTPNotFound" "")]
  /\ map c_sni (sent (outside relayed.2)) = ["tv.example"; "edge.example"; "tv.example"].
Proof. vm_compute. split; reflexivity. Qed.

Example relay_guarded_witness :
  relayed = (relayed.1, relayed.2) /\
  exists l, sent (outside relayed.2) = [] ++ l /\ Forall (guarded_connection lan) l /\
    Forall (fun c => carries_authorization (c_headers c) = true -> Ok (c_origin c) = _origin "https://tv.example/live.m3u8") l.
Proof.
  assert (H : relayed = (relayed.1, relayed.2)) by apply surjective_pairing.
  split; [exact H|].
  exact (relay_guarded names lan as_is servers token_of as_is_keeps "https://tv.example/live.m3u8" secret REFUSE 9000
    [player "t0"; player "t2"; player "t7"] start_net relayed.1 relayed.2 H).
Defined.

Definition manifest : string := ("#EXTM3U" ++ eol ++ "a.ts" ++ eol ++ "http://edge.example/b.ts")%string.
Definition rewriting := _rewrite_hls token_of (player "t0") manifest "http://tv.example/live/index.m3u8" (new_relay start_net).

Example manifest_leads_back_witness :
  tables_ok (new_relay start_net) /\ tables_ok rewriting.2 /\ targets (new_relay start_net) ⊆ targets rewriting.2 /\
  exists lines, "#EXTM3U
http://127.0.0.1:9000/resource/t0
http://127.0.0.1:9000/resource/t1
" = (s_join (String line_feed "") lines ++ String line_feed "")%string /\
    Forall2 (rewritten (player "t0") "http://tv.example/live/index.m3u8" (leads_in rewriting.2)) (splitlines manifest) lines.
Proof.
  pose proof (new_tables_ok start_net) as H. split; [exact H|].
  refine (manifest_leads_back token_of (player "t0") manifest "http://tv.example/live/index.m3u8" (new_relay start_net) _ rewriting.2 H _).
  vm_compute. reflexivity.
Defined.

Definition direct := validated_subprocess_input names lan as_is servers token_of "rtp://nas.local:5004/" [] REFUSE 9000 (new_relay start_net).

Example direct_input_checked_witness :
  is_http_relay (Input "rtp://nas.local:5004/" false None) = false /\
  argument (Input "rtp://nas.local:5004/" false None) = "rtp://nas.local:5004/" /\
  exists p name, urlsplit "rtp://nas.local:5004/" = Ok p /\ lower (scheme p) ∈ ["udp"; "rtp"; "rtmp"] /\ hostname p = Some name /\
    exists now authority t, validates (names now) ("http://" ++ authority ++ "/") (get_ssrf_mode (lan now)) t /\
      starts_with (bracketed name (has_char ":"%char name)) authority = true.
Proof.
  split; [reflexivity|].
  refine (direct_input_checked names lan as_is servers token_of "rtp://nas.local:5004/" [] REFUSE 9000 (new_relay start_net)
    (Input "rtp://nas.local:5004/" false None) direct.2 _ eq_refl).
  vm_compute. reflexivity.
Defined.

Definition upload_target : ResolvedTarget := Target "https" "nas.example" 8443 (V6 50552053919387978162022445795852161025 "") "https://nas.example:8443/dav".

Example pinned_url_names_target_witness :
  well_formed (t_ip upload_target) /\ pinned_request_url upload_target "/dav/a b" "x=1" = "https://[2607:f8b0:4005:802::1001]:8443/dav/a b?x=1" /\
  exists p, urlsplit (pinned_request_url upload_target "/dav/a b" "x=1") = Ok p /\ scheme p = t_scheme upload_target /\
    (exists h, hostname p = Some h /\ ip_address h = Some (t_ip upload_target)) /\ port p = Ok (Some (t_port upload_target)).
Proof.
  assert (H : well_formed (t_ip upload_target)) by (unfold well_formed; cbn; lia).
  split; [exact H|]. split; [vm_compute; reflexivity|].
  exact (pinned_url_names_target upload_target "/dav/a b" "x=1" H eq_refl ltac:(cbn; lia) (or_intror eq_refl)).
Defined.

(** ** What the guard does not do *)

(** A host that turns to the metadata service between two hops is refused at the second. *)
Example rebinding_refused :
  let m := fun url => bind (prepare_stream_http_url names lan url) (fun _ => stream_request names lan as_is servers url [] None None REFUSE) in
  let '(r, n) := bind (m "http://rebind.example/") (fun _ => m "http://rebind.example/") start_net in (is_ok r, map c_ip (sent n)) = (false, [V4 16843009]).
Proof. vm_compute. reflexivity. Qed.

(** An IPv4-compatible address is not unwrapped: a public one is refused. *)
Example compatible_not_unwrapped :
  match ip_address "::8.8.8.8" with Some a => (bool_decide (_unwrap_mapped a = a), _ip_allowed a LAN_FRIENDLY) | None => (false, true) end = (true, false).
Proof. vm_compute. reflexivity. Qed.

(** A target URL that cannot be parsed raises [ValueError] out of the redirect check. *)
Example redirect_value_error :
  validate_redirect (names 0) "http://tv.example/" "http://[::1/" LAN_FRIENDLY REFUSE = Raise (value_error "Invalid IPv6 URL").
Proof. vm_compute. reflexivity. Qed.

(** An HTTPS manifest's plain HTTP segment is fetched in the clear although the policy refuses
    downgrades: the policy is asked about redirects only. *)
Example manifest_downgrade : map c_scheme (sent (outside relayed.2)) = ["https"; "https"; "http"].
Proof. vm_compute. reflexivity. Qed.

(** A manifest that is not HLS by its path or type reaches the subprocess with its URLs. *)
Definition dash : response := Response false None [("content-type", "application/dash+xml")] ["<BaseURL>http://169.254.169.254/</BaseURL>"].
Example other_manifests_pass :
  (_serve token_of (player "t0") dash "http://tv.example/a.mpd" "http://tv.example/a.mpd" (new_relay start_net)).1 = Ok (Stream dash).
Proof. vm_compute. reflexivity. Qed.

(** A manifest too large for the relay answers 502 from an upstream fetch, and the raw error when
    it is the response the relay was started with. *)
Definition full_relay : relay := Relay start_net (list_to_map (map (fun k => (token_of k, token_of k)) (seq 0 1024)))
  (list_to_map (map (fun k => (token_of k, token_of k)) (seq 0 1024))) 1024 (Some (playlist ["a.ts"], "http://tv.example/a.m3u8")).
Definition full_config : relay_config := Config "t0" [] REFUSE "t0".
Example first_manifest_error :
  match (_handle names lan as_is servers token_of full_config (player "t0") full_relay).1 with Raise e => exc_kind e = Ssrf | Ok _ => False end.
Proof. vm_compute. reflexivity. Qed.
End OutboundDemo.
