(* ===== verification/NumberAllocation.v ===== *)
(** * The channel numbers a pipeline rule hands out
    ([channel_pipeline_executor.py], [channel_pipeline_schema.py]).

    A rule names its number with a spec: ["auto"], a literal, a ["min-max"] range or a
    template.  The schema decides which specs may be stored; the executor turns one into a
    free number by walking the tenths grid over the set of ticks already occupied. *)
From S2P Require Import Prelude PyFloat PyValue PyText ChannelNumber.
From S2P Require Import DatePlaceholders.
From Corelib Require Import SpecFloat.
From stdpp Require Import gmap.
Import DatePlaceholders ChannelNumber.
Open Scope py_scope.
Open Scope Z_scope.

(** ** Reading numbers in text *)

(** [float(text)] on ASCII text: an optional sign, then [inf], [infinity] or [nan] in any
    case, or digits with an optional point and exponent, underscores allowed between
    digits. *)

(** Digits with single underscores between them: their value and count. *)
Fixpoint digit_part (s : string) (acc : N) (count : nat) : N * nat * string :=
  match s with
  | String c rest =>
      if is_decimal c then digit_part rest (acc * 10 + N.of_nat (code c - 48))%N (S count)
      else match rest with
           | String d rest' =>
               if bool_decide (c = "_"%char) && (0 <? count)%nat && is_decimal d
               then digit_part rest' (acc * 10 + N.of_nat (code d - 48))%N (S count)
               else (acc, count, s)
           | EmptyString => (acc, count, s)
           end
  | EmptyString => (acc, count, s)
  end.

Definition signed_text (s : string) : bool * string :=
  match s with
  | String c rest =>
      if bool_decide (c = "-"%char) then (true, rest)
      else if bool_decide (c = "+"%char) then (false, rest) else (false, s)
  | EmptyString => (false, s)
  end.

(** The exponent, if the rest of the text is one. *)
Definition exponent_part (s : string) : option Z :=
  match s with
  | EmptyString => Some 0
  | String c rest =>
      if bool_decide (to_lower c = "e"%char) then
        let '(negative, rest) := signed_text rest in
        match digit_part rest 0 0 with
        | (n, S _, EmptyString) => Some (if negative then - Z.of_N n else Z.of_N n)
        | _ => None
        end
      else None
  end.

Definition scientific (n : N) (k : Z) : py_float :=
  match n with N0 => S754_zero false | N.pos p => float_of_scientific p k end.

Definition unsigned_float (s : string) : option py_float :=
  if bool_decide (lower s ∈ ["inf"; "infinity"]) then Some (S754_infinity false)
  else if bool_decide (lower s = "nan") then Some S754_nan
  else
    let '(n, whole, rest) := digit_part s 0 0 in
    let '(n, tenths, rest) :=
      match rest with
      | String c rest' =>
          if bool_decide (c = "."%char) then
            let '(m, count, rest'') := digit_part rest' 0 0 in
            ((n * 10 ^ N.of_nat count + m)%N, count, rest'')
          else (n, 0%nat, rest)
      | EmptyString => (n, 0%nat, rest)
      end in
    if (whole + tenths =? 0)%nat then None
    else e ← exponent_part rest; Some (scientific n (e - Z.of_nat tenths)).

Definition float_text (s : string) : option py_float :=
  let '(negative, body) := signed_text (strip s) in
  f ← unsigned_float body; Some (if negative : bool then SFopp f else f).

(** ** The shapes of a spec *)

Definition skip_spaces (s : string) : string := (span is_space s).2.

(** A non-empty run of characters of the class. *)
Definition run_of (p : ascii -> bool) (s : string) : option (string * string) :=
  match span p s with
  | (EmptyString, _) => None
  | r => Some r
  end.

(** [first\s*-\s*second\s*$], where neither part has a space or a hyphen of its own. *)
Definition hyphenated (part : string -> option (string * string)) (s : string) : option (string * string) :=
  '(a, rest) ← part (skip_spaces s);
  match skip_spaces rest with
  | String c rest =>
      if bool_decide (c = "-"%char) then
        '(b, rest) ← part (skip_spaces rest);
        match skip_spaces rest with EmptyString => Some (a, b) | _ => None end
      else None
  | EmptyString => None
  end.

(** [^\s*(\d+)\s*-\s*(\d+)\s*$] *)
Definition range_text : string -> option (string * string) := hyphenated (run_of is_decimal).

(** [\d+(?:\.\d+)?]: the point belongs to it only with a digit behind. *)
Definition decimal_run (s : string) : option (string * string) :=
  '(a, rest) ← run_of is_decimal s;
  match rest with
  | String c rest' =>
      if bool_decide (c = "."%char) then
        match run_of is_decimal rest' with
        | Some (b, rest'') => Some (String.append a (String "."%char b), rest'')
        | None => Some (a, rest)
        end
      else Some (a, rest)
  | EmptyString => Some (a, rest)
  end.

(** [^\s*\d+(?:\.\d+)?\s*-\s*\d+(?:\.\d+)?\s*$] *)
Definition fractional_range_text : string -> option (string * string) := hyphenated decimal_run.

(** [[+-]?[\d.]+] *)
Definition loose_run (s : string) : option (string * string) :=
  run_of (fun c => is_decimal c || bool_decide (c = "."%char)) (signed_text s).2.

(** [^\s*[+-]?[\d.]+\s*-\s*[+-]?[\d.]+\s*$] *)
Definition range_shaped (s : string) : bool := bool_decide (is_Some (hyphenated loose_run s)).

(** ** The schema *)

Inductive spec_error := ChannelNumberRule | PipelineChannelNumberRule.

Definition contract_errors (f : py_float) : list spec_error :=
  if is_valid_channel_number (PFloat f) then [] else [ChannelNumberRule].

Definition validate_channel_number_spec (spec : pyval) : list spec_error :=
  match spec with
  | PInt _ | PFloat _ => if is_valid_channel_number spec then [] else [ChannelNumberRule]
  | PStr s =>
      let text := strip s in
      if bool_decide (text = "auto") || bool_decide (is_Some (range_text text)) then []
      else if bool_decide (is_Some (fractional_range_text text)) then [PipelineChannelNumberRule]
      else match decimal_text text with
      | Some (n, k) => contract_errors (float_of_decimal n k)
      | None =>
          match float_text text with
          | None => []
          | Some f =>
              if is_valid_channel_number (PFloat f) then [PipelineChannelNumberRule]
              else [ChannelNumberRule]
          end
      end
  | _ => []
  end.

(** ** The executor *)

(** The tick of a literal and the step of the walk from it. *)
Definition _channel_number_spec_ticks (spec : pyval) : option (Z * Z) :=
  number ← match spec with
           | PInt _ | PFloat _ => Some spec
           | PStr _ =>
               match parse_channel_number_text spec false with
               | Ok (Some f) => Some (PFloat f)
               | _ => None
               end
           | _ => None
           end;
  if is_valid_channel_number number then
    match channel_number_ticks number with
    | Ok start =>
        Some (start, if start mod CHANNEL_NUMBER_TICKS_PER_UNIT =? 0
                     then CHANNEL_NUMBER_TICKS_PER_UNIT else 1)
    | Raise _ => None
    end
  else None.

Definition _looks_like_a_number_spec (spec : pyval) : bool :=
  match spec with
  | PInt _ | PFloat _ => true
  | PStr s => range_shaped s || bool_decide (is_Some (float_text s))
  | _ => false
  end.

(** What the walk may raise besides the contract's own errors; [OutOfFuel] is not Python's:
    the walk below is given a bound on its length, shown to be enough. *)
Inductive alloc_error := Contract (e : error) | RuntimeError | ValueError | OutOfFuel.

Definition lift {A} (r : result error A) : result alloc_error A :=
  match r with Ok a => Ok a | Raise e => Raise (Contract e) end.

(** [_used_channel_number_ticks] *)
Definition occupied : Type := gset Z.

Definition _mark_channel_number_used (used : occupied) (number : pyval) : occupied :=
  match channel_number_ticks number with Ok t => {[ t ]} ∪ used | Raise _ => used end.

Definition _is_channel_number_used (used : occupied) (number : pyval) : bool :=
  match channel_number_ticks number with Ok t => bool_decide (t ∈ used) | Raise _ => false end.

(** The constructor's marks: the numbers of the channels that exist, [None] apart. *)
Definition initially_used (numbers : list pyval) : occupied :=
  foldl (fun used n => match n with PNone => used | _ => _mark_channel_number_used used n end) ∅ numbers.

(** One turn of the [while]. *)
Fixpoint free_from (fuel : nat) (used : occupied) (tick step : Z) : result alloc_error pyval :=
  match fuel with
  | O => Raise OutOfFuel
  | S fuel =>
      let! number := lift (channel_number_from_ticks tick) in
      let! back := lift (channel_number_ticks number) in
      let unit := CHANNEL_NUMBER_TICKS_PER_UNIT in
      if negb (back =? tick) then
        if tick mod unit =? 0 then Raise RuntimeError
        else free_from fuel used (tick + (unit - tick mod unit)) unit
      else if negb (_is_channel_number_used used number) then Ok number
      else free_from fuel used (tick + step) step
  end.

Definition _next_free_number_from_ticks (used : occupied) (start step : Z) : result alloc_error pyval :=
  free_from (size used + 2) used start step.

(** [int(digits)]: above [MAX_STR_DIGITS] digits [int()] raises [ValueError]. *)
Definition range_bound (s : string) : result alloc_error Z :=
  if (MAX_STR_DIGITS <? String.length s)%nat then Raise ValueError
  else match digits s with Some n => Ok (Z.of_N n) | None => Raise ValueError end.

(** [for num in range(num, max_num + 1)] : the first free number, or none in the range. *)
Fixpoint first_in_range (fuel : nat) (used : occupied) (num max_num : Z) : result alloc_error (option Z) :=
  match fuel with
  | O => Raise OutOfFuel
  | S fuel =>
      if max_num <? num then Ok None
      else if bool_decide (num * CHANNEL_NUMBER_TICKS_PER_UNIT ∈ used)
      then first_in_range fuel used (num + 1) max_num
      else Ok (Some num)
  end.

Definition automatic (used : occupied) : result alloc_error pyval :=
  _next_free_number_from_ticks used CHANNEL_NUMBER_TICKS_PER_UNIT CHANNEL_NUMBER_TICKS_PER_UNIT.

Definition from_range (used : occupied) (min_text max_text : string) : result alloc_error pyval :=
  let! min_num := range_bound min_text in
  let! max_num := range_bound max_text in
  let! found := first_in_range (size used + 1) used min_num max_num in
  match found with
  | Some num => Ok (PInt num)
  | None =>
      _next_free_number_from_ticks used ((max_num + 1) * CHANNEL_NUMBER_TICKS_PER_UNIT)
        CHANNEL_NUMBER_TICKS_PER_UNIT
  end.

Definition _get_next_channel_number (used : occupied) (spec : pyval) : result alloc_error pyval :=
  match _channel_number_spec_ticks spec with
  | Some (start, step) => _next_free_number_from_ticks used start step
  | None =>
      match spec with
      | PStr s =>
          if bool_decide (strip s = "auto") then automatic used
          else match range_text (strip s) with
               | Some (a, b) => from_range used a b
               | None => automatic used
               end
      | _ => automatic used
      end
  end.

(** The spec falls through to automatic numbering. *)
Definition falls_back (spec : pyval) : bool :=
  match _channel_number_spec_ticks spec, spec with
  | Some _, _ => false
  | None, PStr s => negb (bool_decide (strip s = "auto")) && negb (bool_decide (is_Some (range_text (strip s))))
  | None, _ => true
  end.

(** A fallback is logged as a warning when the spec was meant as a number. *)
Definition warns (spec : pyval) : bool := falls_back spec && _looks_like_a_number_spec spec.

(** A run's allocations: each number handed out is marked. *)
Fixpoint allocate (used : occupied) (specs : list pyval) : result alloc_error (list pyval * occupied) :=
  match specs with
  | [] => Ok ([], used)
  | spec :: specs =>
      let! number := _get_next_channel_number used spec in
      let! '(numbers, used) := allocate (_mark_channel_number_used used number) specs in
      Ok (number :: numbers, used)
  end.
