(* ===== verification/AllocationTheorems.v ===== *)
(** * The numbers handed out are free, in contract and the ones the rule asked for.

    The walk ends, on a free tick that has a number of its own; successive allocations are
    distinct; a stored spec that reads as a number is honoured, ranges of a loose shape
    apart. *)
From S2P Require Import Prelude PyFloat PyValue PyText ChannelNumber.
From S2P Require Import DatePlaceholders NumberAllocation NameNormalizer NameTheorems.
From Stdlib Require Import DecimalString.
From Corelib Require Import SpecFloat.
From stdpp Require Import gmap.
Import DatePlaceholders ChannelNumber.
Open Scope py_scope.
Open Scope Z_scope.

(** ** One turn of the walk *)

(** Up to here every tenth still has a float of its own; the next tick shares one. *)
Definition last_tenth : Z := 10 * 2 ^ 49 + 2.

Lemma tenth_or_whole t : 0 <= t -> t mod 10 = 0 \/ t <= last_tenth -> exists v,
  channel_number_from_ticks t = Ok v /\ channel_number_ticks v = Ok t /\
  (t < 10 * 2 ^ 1023 -> is_valid_channel_number v = true).
Proof.
  intros Ht H. destruct (Z.eq_dec (t mod 10) 0) as [E|E].
  - apply Z.mod_divide in E as [k ->]; [|lia].
    exists (PInt k). unfold channel_number_from_ticks, CHANNEL_NUMBER_TICKS_PER_UNIT.
    rewrite Z.mod_mul, Z.div_mul by lia. split_and!; [done|done|intros Hk].
    destruct (Z.lt_ge_cases k (2 ^ 53)); [apply valid_small_int|apply valid_big_int]; lia.
  - destruct H as [H|H]; [done|]. destruct (Z.lt_ge_cases t (10 * 2 ^ 49)) as [C|C].
    + destruct (from_ticks_cases t ltac:(lia)) as [(k & _ & -> & _)|(m & e & -> & He & H0 & Hs)].
      { rewrite Z.mul_comm, Z.mod_mul in E; lia. }
      exists (PFloat (S754_finite false m e)).
      split_and!; [done|by apply (tenth_ticks m e t)|intros _; by apply (tenth_valid m e t)].
    + unfold last_tenth in H.
      assert (t = 10 * 2 ^ 49 + 1 \/ t = 10 * 2 ^ 49 + 2) as [-> | ->].
      { assert (t <> 10 * 2 ^ 49) by (intros ->; done). lia. }
      all: eexists; split_and!; [reflexivity|reflexivity|reflexivity].
Qed.

(** The tick above the last tenth falls back to whole numbers. *)
Lemma collapsed_turn fuel used step :
  free_from (S fuel) used (last_tenth + 1) step = free_from fuel used (10 * 2 ^ 49 + 10) 10.
Proof. reflexivity. Qed.

(** Where the walk may stand, and what is left of its length. *)
Definition on_grid (tick step : Z) : Prop :=
  0 <= tick /\ (step = 10 /\ tick mod 10 = 0 \/ step = 1 /\ tick <= last_tenth + 1).

Definition occupied_above (used : occupied) (tick : Z) : occupied := filter (Z.le tick) used.

Definition turns (used : occupied) (tick step : Z) : nat :=
  size (occupied_above used tick) + (if step =? 1 then 2 else 1).

Lemma above_subset used tick tick' : tick <= tick' -> occupied_above used tick' ⊆ occupied_above used tick.
Proof. intros H t. unfold occupied_above. rewrite !elem_of_filter. intros [? ?]. split; [lia|done]. Qed.

Lemma turns_less used tick tick' step : tick ∈ used -> tick < tick' ->
  (turns used tick' step < turns used tick step)%nat.
Proof.
  intros Hin Hlt. unfold turns. apply Nat.add_lt_mono_r, subset_size. split.
  - apply above_subset. lia.
  - intros H. specialize (H tick). unfold occupied_above in H. rewrite !elem_of_filter in H.
    destruct H as [? _]; [by split|lia].
Qed.

(** What the walk answers: a free tick, at or above its start, and (for whole steps, and
    below the last tenth) the first free one. *)
Definition walk_answer (used : occupied) (tick step : Z) (v : pyval) : Prop :=
  exists t, tick <= t /\ channel_number_from_ticks t = Ok v /\ channel_number_ticks v = Ok t /\ (t ∉ used) /\
    (t < 10 * 2 ^ 1023 -> is_valid_channel_number v = true) /\
    (forall k, 0 <= k -> tick + step * k < t -> (step = 10 \/ t < 10 * 2 ^ 49) -> tick + step * k ∈ used).

Lemma walk_answer_here used tick step v :
  channel_number_from_ticks tick = Ok v -> channel_number_ticks v = Ok tick -> tick ∉ used ->
  (tick < 10 * 2 ^ 1023 -> is_valid_channel_number v = true) -> 0 < step -> walk_answer used tick step v.
Proof. intros. exists tick. split_and!; [lia|done|done|done|done|]. intros k ? ?. assert (0 <= step * k) by (apply Z.mul_nonneg_nonneg; lia). lia. Qed.

Lemma walk_answer_next used tick step v : 0 < step -> tick ∈ used ->
  walk_answer used (tick + step) step v -> walk_answer used tick step v.
Proof.
  intros Hs Hin (t & Hle & Hf & Hb & Hu & Hv & Hmin).
  exists t. split_and!; [lia|done|done|done|done|]. intros k Hk Hlt Ht.
  destruct (Z.eq_dec k 0) as [->|]; [by replace (tick + step * 0) with tick by lia|].
  replace (tick + step * k) with (tick + step + step * (k - 1)) by lia. apply Hmin; [lia|lia|done].
Qed.

Lemma walk_answer_collapse used v :
  walk_answer used (10 * 2 ^ 49 + 10) 10 v -> walk_answer used (last_tenth + 1) 1 v.
Proof.
  unfold last_tenth. intros (t & Hle & Hf & Hb & Hu & Hv & _).
  exists t. split_and!; [lia|done|done|done|done|]. intros k _ _ [?|?]; lia.
Qed.

Lemma turns_collapse used : (turns used (10 * 2 ^ 49 + 10) 10 < turns used (last_tenth + 1) 1)%nat.
Proof.
  unfold turns. change (10 =? 1) with false. change (1 =? 1) with true. cbn.
  enough (size (occupied_above used (10 * 2 ^ 49 + 10)) <= size (occupied_above used (last_tenth + 1)))%nat by (cbn in *; lia).
  apply subseteq_size, above_subset. unfold last_tenth. lia.
Qed.

Lemma unused_number used v t : channel_number_ticks v = Ok t -> _is_channel_number_used used v = bool_decide (t ∈ used).
Proof. intros H. unfold _is_channel_number_used. by rewrite H. Qed.

(** Enough turns answer. *)
Lemma free_from_answers fuel : forall used tick step,
  on_grid tick step -> (turns used tick step <= fuel)%nat ->
  exists v, free_from fuel used tick step = Ok v /\ walk_answer used tick step v.
Proof.
  induction fuel as [|fuel IH]; intros used tick step [H0 Hg] Hf; [unfold turns in Hf; destruct (step =? 1); lia|].
  destruct (Z.eq_dec tick (last_tenth + 1)) as [->|Hl].
  { assert (step = 1) as -> by (destruct Hg as [[_ Hg]|[? _]]; [done|done]).
    rewrite collapsed_turn. destruct (IH used (10 * 2 ^ 49 + 10) 10) as (v & E & Hv).
    - split; [lia|left; done].
    - pose proof (turns_collapse used). lia.
    - exists v. split; [done|by apply walk_answer_collapse]. }
  destruct (tenth_or_whole tick H0) as (v & E & B & V); [lia|].
  assert (Hu : free_from (S fuel) used tick step =
    if bool_decide (tick ∈ used) then free_from fuel used (tick + step) step else Ok v).
  { cbn [free_from]. rewrite E. cbn. rewrite B. cbn. rewrite Z.eqb_refl, (unused_number _ _ _ B).
    by case_bool_decide. }
  rewrite Hu. case_bool_decide as Hin; [|exists v; split; [done|apply walk_answer_here; try done; lia]].
  destruct (IH used (tick + step) step) as (w & Ew & Hw).
  - split; [lia|]. destruct Hg as [[-> Hm]|[-> Hm]]; [left|right; lia].
    split; [done|]. by rewrite Z.add_mod, Hm by lia.
  - pose proof (turns_less used tick (tick + step) step Hin). lia.
  - exists w. split; [done|apply walk_answer_next; [lia|done|done]].
Qed.

(** The bound the executor's walk is given is enough. *)
Lemma next_free_answers used start step : on_grid start step -> exists v,
  _next_free_number_from_ticks used start step = Ok v /\ walk_answer used start step v.
Proof.
  intros Hg. apply free_from_answers; [done|]. unfold turns.
  assert (size (occupied_above used start) <= size used)%nat by
    (apply subseteq_size; intros t; unfold occupied_above; rewrite elem_of_filter; by intros [? ?]).
  destruct (step =? 1); lia.
Qed.

(** ** Specs *)

(** A literal number in contract is not negative, so its tick is not. *)
Lemma round_positive f : match f with S754_finite s _ _ => s = false | _ => True end -> 0 <= Float.round_int f.
Proof.
  destruct f as [| | |s m e]; cbn; try lia. intros ->. unfold Float.signed. cbn.
  destruct (0 <=? e) eqn:E; [apply Z.mul_nonneg_nonneg; [lia|apply Z.pow_nonneg; lia]|].
  apply Float.rne_nonneg; [lia|]. apply Z.pow_pos_nonneg; lia.
Qed.

Lemma round_aux_sign mx ex lx :
  match binary_round_aux Float.prec Float.emax false mx ex lx with S754_finite s _ _ => s = false | _ => True end.
Proof.
  unfold binary_round_aux. destruct (shr_fexp _ _ mx ex lx) as [r1 e1].
  destruct (shr_fexp _ _ _ e1 _) as [r2 e2]. destruct (shr_m r2); try done. by destruct (_ <=? _).
Qed.

(** Literals the theorems cover: an [int] the floats reach, a number below the last tenth or
    without a tenth. *)
Definition supported_literal (spec : pyval) : bool :=
  match spec with PInt n => Z.abs n <? 2 ^ 1023 | _ => true end &&
  match _channel_number_spec_ticks spec with
  | Some (start, _) => (start mod 10 =? 0) || (start <=? last_tenth)
  | None => true
  end.

(** Ranges whose bounds [int()] converts. *)
Definition supported_range (spec : pyval) : bool :=
  match spec with
  | PStr s => match range_text (strip s) with
              | Some (a, b) => (String.length a <=? MAX_STR_DIGITS)%nat && (String.length b <=? MAX_STR_DIGITS)%nat
              | None => true
              end
  | _ => true
  end.

Definition supported (spec : pyval) : bool := supported_literal spec && supported_range spec.

Lemma float_ticks_nonneg f t :
  is_valid_channel_number (PFloat f) = true -> channel_number_ticks (PFloat f) = Ok t -> 0 <= t.
Proof.
  unfold is_valid_channel_number, channel_number_ticks; cbn [is_number to_float negb].
  destruct (Float.is_finite f) eqn:Hf; [|done]. cbn [negb].
  destruct (Float.ltb f (S754_zero false)) eqn:Hl; [done|]. intros _.
  destruct (Float.leb EXACT_INTEGER_FLOOR (Float.abs f)); intros [= <-].
  - destruct f as [| | |[] m e]; cbn in *; try done. unfold Float.signed.
    destruct (0 <=? e) eqn:E; [apply Z.mul_nonneg_nonneg; [|done]|].
    + apply Z.mul_nonneg_nonneg; [lia|apply Z.pow_nonneg; lia].
    + apply Z.mul_nonneg_nonneg; [|done]. apply Z.div_pos; [lia|]. apply Z.pow_pos_nonneg; lia.
  - destruct f as [[]| | |[] m e]; try done.
    apply round_positive. apply round_aux_sign.
Qed.

Lemma literal_on_grid spec start step : supported_literal spec = true ->
  _channel_number_spec_ticks spec = Some (start, step) -> on_grid start step.
Proof.
  unfold supported_literal. intros Hs E. rewrite E in Hs. apply andb_prop in Hs as [Hn Hs].
  unfold _channel_number_spec_ticks in E.
  assert (0 <= start /\ step = if start mod 10 =? 0 then 10 else 1) as [H0 ->].
  { destruct spec as [| |n|f|s| |]; try done; cbn [mbind option_bind] in E;
      [|destruct (is_valid_channel_number (PFloat f)) eqn:V; [|done]
       |destruct (parse_channel_number_text (PStr s) false) as [[f|]|] eqn:P; try done; cbn [mbind option_bind] in E;
        destruct (is_valid_channel_number (PFloat f)) eqn:V; [|done]].
    - rewrite int_contract in E by (apply Z.ltb_lt in Hn; lia). destruct (0 <=? n) eqn:Hp; [|done].
      cbn in E. unfold CHANNEL_NUMBER_TICKS_PER_UNIT in *. injection E as <- <-. split; [lia|done].
    - destruct (channel_number_ticks (PFloat f)) eqn:T; [|done]. injection E as <- <-.
      split; [by apply (float_ticks_nonneg f)|done].
    - destruct (channel_number_ticks (PFloat f)) eqn:T; [|done]. injection E as <- <-.
      split; [by apply (float_ticks_nonneg f)|done]. }
  split; [done|]. destruct (Z.eqb_spec (start mod 10) 0); [by left|right].
  cbn in Hs. split; [done|]. apply Z.leb_le in Hs. lia.
Qed.

Lemma first_in_range_answers fuel : forall used num max_num,
  0 <= num -> (size (occupied_above used (num * 10)) < fuel)%nat ->
  exists r, first_in_range fuel used num max_num = Ok r /\
    match r with
    | Some n => num <= n <= max_num /\ (n * 10 ∉ used) /\ (forall i, num <= i < n -> i * 10 ∈ used)
    | None => forall i, num <= i <= max_num -> i * 10 ∈ used
    end.
Proof.
  induction fuel as [|fuel IH]; intros used num max_num H0 Hf; [lia|]. cbn [first_in_range].
  destruct (Z.ltb_spec max_num num) as [C|C]; [exists None; split; [done|intros; lia]|].
  unfold CHANNEL_NUMBER_TICKS_PER_UNIT. case_bool_decide as Hin.
  - pose proof (turns_less used (num * 10) ((num + 1) * 10) 10 Hin ltac:(lia)) as Ht.
    unfold turns in Ht. change (10 =? 1) with false in Ht. cbn iota in Ht.
    destruct (IH used (num + 1) max_num ltac:(lia) ltac:(lia)) as ([n|] & -> & Hr).
    + exists (Some n). destruct Hr as (Hb & Hu & Hm). split_and!; [done|lia|lia|done|].
      intros i Hi. destruct (Z.eq_dec i num) as [->|]; [done|apply Hm; lia].
    + exists None. split; [done|]. intros i Hi. destruct (Z.eq_dec i num) as [->|]; [done|apply Hr; lia].
  - exists (Some num). split_and!; [done|lia|lia|done|]. intros i Hi. lia.
Qed.

Lemma above_size used tick : (size (occupied_above used tick) <= size used)%nat.
Proof. apply subseteq_size. intros t. unfold occupied_above. rewrite elem_of_filter. by intros [? ?]. Qed.

(** A number off the set, with its tick. *)
Definition free_number (used : occupied) (v : pyval) (t : Z) : Prop :=
  0 <= t /\ channel_number_ticks v = Ok t /\ (t ∉ used) /\
  (t < 10 * 2 ^ 1023 -> is_valid_channel_number v = true).

Lemma walk_free used start step v : 0 <= start -> walk_answer used start step v -> exists t, free_number used v t.
Proof. intros H0 (t & Hle & _ & Hb & Hu & Hv & _). exists t. split_and!; [lia|done..]. Qed.

Lemma automatic_free used : exists v t, automatic used = Ok v /\ free_number used v t.
Proof.
  destruct (next_free_answers used 10 10) as (v & E & Hv); [split; [lia|by left]|].
  destruct (walk_free used 10 10 v ltac:(lia) Hv) as [t Ht]. by exists v, t.
Qed.

(** Runs of digits are what [int()] reads. *)
Lemma span_all p s : forall a rest, span p s = (a, rest) -> NameNormalizer.s_forall p a = true.
Proof.
  induction s as [|c s IH]; intros a rest; cbn; [by intros [= <- <-]|].
  destruct (p c) eqn:E; [|by intros [= <- <-]]. destruct (span p s) as [b r] eqn:Hs. intros [= <- <-].
  cbn. by rewrite E, (IH b r).
Qed.

Lemma decimal_reads s : NameNormalizer.s_forall is_decimal s = true -> is_Some (NilEmpty.uint_of_string s).
Proof.
  induction s as [|c s IH]; cbn; [by eexists|]. intros [Hc Hs]%andb_prop.
  destruct (IH Hs) as [d ->]. destruct c as [[] [] [] [] [] [] [] []]; try discriminate Hc; by eexists.
Qed.

Lemma run_of_reads s a rest : run_of is_decimal s = Some (a, rest) -> exists n, digits a = Some n.
Proof.
  unfold run_of. destruct (span is_decimal s) as [b r] eqn:Hs. destruct b as [|c b]; [done|].
  intros [= <- <-]. destruct (decimal_reads (String c b) (span_all _ _ _ _ Hs)) as [d Hd].
  exists (N.of_uint d). unfold digits. by rewrite Hd.
Qed.

Lemma range_text_reads s a b : range_text s = Some (a, b) ->
  (exists n, digits a = Some n) /\ exists m, digits b = Some m.
Proof.
  unfold range_text, hyphenated. intros H.
  destruct (run_of is_decimal (skip_spaces s)) as [[a' rest]|] eqn:Ha; cbn in H; [|done].
  destruct (skip_spaces rest) as [|c rest']; [done|]. case_bool_decide; [|done].
  destruct (run_of is_decimal (skip_spaces rest')) as [[b' rest'']|] eqn:Hb; cbn in H; [|done].
  destruct (skip_spaces rest''); [|done]. injection H as -> ->. split; eapply run_of_reads; eassumption.
Qed.

Lemma range_bound_ok s n : digits s = Some n -> (String.length s <=? MAX_STR_DIGITS)%nat = true ->
  range_bound s = Ok (Z.of_N n).
Proof.
  intros Hd Hl. unfold range_bound. rewrite Hd. apply Nat.leb_le in Hl.
  by rewrite (proj2 (Nat.ltb_ge _ _)) by done.
Qed.

Lemma from_range_free used a b n m : range_bound a = Ok (Z.of_N n) -> range_bound b = Ok (Z.of_N m) ->
  exists v t, from_range used a b = Ok v /\ free_number used v t.
Proof.
  intros Ha Hb. unfold from_range. rewrite Ha, Hb. cbn.
  destruct (first_in_range_answers (size used + 1) used (Z.of_N n) (Z.of_N m)) as ([i|] & E & Hi);
    [lia|pose proof (above_size used (Z.of_N n * 10)); lia| |]; rewrite E; cbn.
  - exists (PInt i), (i * 10). destruct Hi as (Hi & Hu & _). unfold free_number; split_and!; [done|lia|done|done|].
    intros Hlt. rewrite int_contract by lia. lia.
  - destruct (next_free_answers used ((Z.of_N m + 1) * 10) 10) as (v & Ev & Hv).
    + split; [lia|left; split; [done|]]. by rewrite Z.mod_mul.
    + destruct (walk_free used ((Z.of_N m + 1) * 10) 10 v ltac:(lia) Hv) as [t Ht]. by exists v, t.
Qed.

Lemma number_free used spec : supported spec = true ->
  exists v t, _get_next_channel_number used spec = Ok v /\ free_number used v t.
Proof.
  unfold supported. intros [Hl Hr]%andb_prop. unfold _get_next_channel_number.
  destruct (_channel_number_spec_ticks spec) as [[start step]|] eqn:E.
  { pose proof (literal_on_grid _ _ _ Hl E) as Hg. destruct (next_free_answers used start step Hg) as (v & Ev & Hv).
    destruct (walk_free _ _ _ _ (proj1 Hg) Hv) as [t Ht]. by exists v, t. }
  destruct spec as [| | | |s| |]; try apply automatic_free.
  case_bool_decide; [apply automatic_free|]. cbn in Hr.
  destruct (range_text (strip s)) as [[a b]|] eqn:Er; [|apply automatic_free].
  destruct (range_text_reads _ _ _ Er) as [[n Hn] [m Hm]]. apply andb_prop in Hr as [Ha Hb].
  eapply from_range_free; eauto using range_bound_ok.
Qed.

(** ** What a stored spec promises *)

Lemma valid_ticks v : is_number v = true -> is_valid_channel_number v = true -> is_Some (
  match channel_number_ticks v with
  | Ok start => Some (start, if start mod CHANNEL_NUMBER_TICKS_PER_UNIT =? 0 then CHANNEL_NUMBER_TICKS_PER_UNIT else 1)
  | Raise _ => None
  end).
Proof.
  destruct v as [| |z|f| | |]; intros Hn Hv; try discriminate Hn; [by eexists|].
  unfold is_valid_channel_number in Hv; cbn [is_number to_float negb] in Hv.
  unfold channel_number_ticks. destruct (Float.is_finite f); [|done].
  cbn [negb]. destruct (Float.leb EXACT_INTEGER_FLOOR (Float.abs f)); by eexists.
Qed.

Lemma number_ticks v : is_number v = true -> is_valid_channel_number v = true ->
  is_Some (_channel_number_spec_ticks v).
Proof.
  intros Hn Hv. pose proof (valid_ticks v Hn Hv) as Hs.
  destruct v; try done; unfold _channel_number_spec_ticks; cbn [mbind option_bind]; by rewrite Hv.
Qed.

Lemma literal_text_ticks s n k : decimal_text (strip s) = Some (n, k) ->
  is_valid_channel_number (PFloat (float_of_decimal n k)) = true ->
  is_Some (_channel_number_spec_ticks (PStr s)).
Proof.
  intros Hd Hv. assert (E : parse_channel_number_text (PStr s) false = Ok (Some (float_of_decimal n k))).
  { unfold parse_channel_number_text. rewrite bool_decide_eq_false_2 by (intros E; rewrite E in Hd; done).
    rewrite Hd. unfold validate_channel_number. by rewrite Hv. }
  unfold _channel_number_spec_ticks. rewrite E. cbn [mbind option_bind]. rewrite Hv. by apply valid_ticks.
Qed.

Lemma ticks_no_fallback spec : is_Some (_channel_number_spec_ticks spec) -> warns spec = false.
Proof. intros [p E]. unfold warns, falls_back. by rewrite E. Qed.

Lemma float_text_strip s : float_text (strip s) = float_text s.
Proof. unfold float_text. by rewrite NameTheorems.strip_idem. Qed.

(** C30: the schema stores no number the executor will not honour: of the specs it accepts,
    the only ones the executor meets with its warning (a spec meant as a number, numbered
    automatically all the same) are texts of two signed or oddly pointed numbers joined by
    a hyphen, which neither of the two ranges describes. *)
Theorem stored_spec_is_honoured spec :
  validate_channel_number_spec spec = [] -> warns spec = true ->
  exists s, spec = PStr s /\ range_shaped s = true /\ fractional_range_text (strip s) = None.
Proof.
  intros Hv Hw. destruct spec as [|b|n|f|s|l|d]; try done.
  1, 2: cbn [validate_channel_number_spec] in Hv; rewrite ticks_no_fallback in Hw; [done|apply number_ticks; [done|]];
    by destruct (is_valid_channel_number _).
  exists s. split; [done|].
  assert (Hf : falls_back (PStr s) = true /\ _looks_like_a_number_spec (PStr s) = true) by by apply andb_prop.
  destruct Hf as [Hf Hl]. unfold falls_back in Hf.
  destruct (_channel_number_spec_ticks (PStr s)) eqn:E; [done|].
  cbn [validate_channel_number_spec] in Hv. destruct (_ || _) eqn:Ha; [by destruct (bool_decide (strip s = "auto")), (bool_decide (is_Some (range_text (strip s))))|].
  destruct (bool_decide (is_Some (fractional_range_text (strip s)))) eqn:Hfr; [done|].
  apply bool_decide_eq_false, eq_None_not_Some in Hfr. split; [|done].
  cbn in Hl. apply orb_prop in Hl as [Hl|Hl]; [done|exfalso].
  destruct (decimal_text (strip s)) as [[n k]|] eqn:Hd.
  - unfold contract_errors in Hv. destruct (is_valid_channel_number _) eqn:V; [|done].
    destruct (literal_text_ticks s n k Hd V) as [p Hp]. by rewrite Hp in E.
  - rewrite float_text_strip in Hv. apply bool_decide_eq_true in Hl as [g Hg]. rewrite Hg in Hv.
    destruct (is_valid_channel_number (PFloat g)); discriminate Hv.
Qed.

Lemma stored_spec_is_honoured_witness :
  exists s, PStr "+1-2" = PStr s /\ range_shaped s = true /\ fractional_range_text (strip s) = None.
Proof. apply stored_spec_is_honoured; reflexivity. Defined.

(** The exception is real: this spec is stored without an error, is numbered automatically
    and warned about, and saving the rule again reports nothing. *)
Example loose_range_slips :
  validate_channel_number_spec (PStr "+800-899") = [] /\ warns (PStr "+800-899") = true /\
  _get_next_channel_number ∅ (PStr "+800-899") = Ok (PInt 1) /\
  _get_next_channel_number ∅ (PStr "800-899") = Ok (PInt 800).
Proof. repeat split; reflexivity. Qed.

(** ** A run's allocations *)

Lemma marked used v t : channel_number_ticks v = Ok t -> _mark_channel_number_used used v = {[ t ]} ∪ used.
Proof. intros E. unfold _mark_channel_number_used. by rewrite E. Qed.

(** C32: for every set of occupied numbers and every spec, the executor answers with a number
    that occupies a tick no channel has, so that no two channels share a number, and that is
    in the channel-number contract (up to the magnitudes floats reach); the walk never runs
    out of turns, raises or hands back an occupied number. *)
Theorem number_handed_out_is_free used spec : supported spec = true ->
  exists v t, _get_next_channel_number used spec = Ok v /\
    channel_number_ticks v = Ok t /\ (t ∉ used) /\ _is_channel_number_used used v = false /\
    (t < 10 * 2 ^ 1023 -> is_valid_channel_number v = true).
Proof.
  intros Hs. destruct (number_free used spec Hs) as (v & t & E & _ & Ht & Hu & Hv). exists v, t.
  split_and!; [done|done|done| |done]. rewrite (unused_number _ _ _ Ht). by apply bool_decide_eq_false.
Qed.

Lemma number_handed_out_is_free_witness :
  exists v t, _get_next_channel_number {[ 10; 20; 30 ]} (PStr "1-2") = Ok v /\
    channel_number_ticks v = Ok t /\ (t ∉ ({[ 10; 20; 30 ]} : occupied)) /\
    _is_channel_number_used {[ 10; 20; 30 ]} v = false /\
    (t < 10 * 2 ^ 1023 -> is_valid_channel_number v = true).
Proof. apply number_handed_out_is_free. reflexivity. Defined.

(** The numbers one run hands out, one after the other, are pairwise distinct, are none
    of the numbers that existed before it, and are recorded, whatever mixture of specs the
    run's rules carry. *)
Theorem allocations_are_distinct specs : Forall (fun spec => supported spec = true) specs ->
  forall used, exists numbers ts used', allocate used specs = Ok (numbers, used') /\
    Forall2 (fun v t => channel_number_ticks v = Ok t) numbers ts /\
    NoDup ts /\ (forall t, t ∈ ts -> t ∉ used) /\ used' = list_to_set ts ∪ used.
Proof.
  induction 1 as [|spec specs Hs _ IH]; intros used; cbn [allocate].
  { exists [], [], used. split_and!; [done|constructor|constructor| |set_solver].
    intros t Ht. by apply elem_of_nil in Ht. }
  destruct (number_free used spec Hs) as (v & t & -> & _ & Ht & Hu & _). cbn.
  rewrite (marked _ _ _ Ht).
  destruct (IH ({[ t ]} ∪ used)) as (numbers & ts & used' & -> & Hf & Hn & Hd & ->). cbn.
  exists (v :: numbers), (t :: ts), (list_to_set ts ∪ ({[ t ]} ∪ used)).
  split_and!; [done|by constructor| | |set_solver].
  - constructor; [|done]. intros Hin. specialize (Hd t Hin). set_solver.
  - intros t' [->|Hin]%elem_of_cons; [done|]. specialize (Hd t' Hin). set_solver.
Qed.

Lemma allocations_are_distinct_witness : exists numbers ts used',
  allocate {[ 10; 11 ]} [PStr "1.1"; PStr "auto"; PStr "1.1"; PInt 2] = Ok (numbers, used') /\
  Forall2 (fun v t => channel_number_ticks v = Ok t) numbers ts /\
  NoDup ts /\ (forall t, t ∈ ts -> t ∉ ({[ 10; 11 ]} : occupied)) /\ used' = list_to_set ts ∪ {[ 10; 11 ]}.
Proof. apply allocations_are_distinct. repeat constructor. Defined.

(** A literal spec is honoured: the number handed out lies on the grid at or above the
    literal, and every number of the literal's own step (tenths for a tenth, whole numbers
    for a whole one) between the two is occupied; a free literal is handed out itself. *)
Theorem literal_is_honoured used spec start step :
  supported spec = true -> _channel_number_spec_ticks spec = Some (start, step) ->
  exists v t, _get_next_channel_number used spec = Ok v /\ channel_number_ticks v = Ok t /\ start <= t /\
    (start ∉ used -> start < 10 * 2 ^ 49 -> t = start) /\
    (step = 10 \/ t < 10 * 2 ^ 49 -> forall k, 0 <= k -> start + step * k < t -> start + step * k ∈ used).
Proof.
  intros [Hl _]%andb_prop E. pose proof (literal_on_grid _ _ _ Hl E) as Hg.
  unfold _get_next_channel_number. rewrite E.
  destruct (next_free_answers used start step Hg) as (v & Ev & Hv).
  destruct (Hv) as (t & Hle & _ & Hb & Hu & _ & Hmin). exists v, t. split_and!; [done|done|done| |eauto].
  intros Hfree Hlt. unfold _next_free_number_from_ticks in Ev. rewrite Nat.add_comm in Ev. cbn in Ev.
  destruct (tenth_or_whole start (proj1 Hg)) as (w & Ew & Bw & _); [unfold last_tenth; lia|].
  rewrite Ew in Ev. cbn in Ev. rewrite Bw in Ev. cbn in Ev.
  rewrite Z.eqb_refl, (unused_number _ _ _ Bw), bool_decide_eq_false_2 in Ev by done.
  injection Ev as ->. congruence.
Qed.

Lemma literal_is_honoured_witness : exists v t,
  _get_next_channel_number {[ 11 ]} (PStr "1.1") = Ok v /\ channel_number_ticks v = Ok t /\ 11 <= t /\
    ((11 : Z) ∉ ({[ 11 ]} : occupied) -> 11 < 10 * 2 ^ 49 -> t = 11) /\
    (1 = 10 \/ t < 10 * 2 ^ 49 -> forall k, 0 <= k -> 11 + 1 * k < t -> 11 + 1 * k ∈ ({[ 11 ]} : occupied)).
Proof. apply (literal_is_honoured _ (PStr "1.1") 11 1); reflexivity. Defined.

(** Spellings. *)
Example specs_answered :
  let used : occupied := {[ 10; 20; 30; 11; 12; 8000 ]} in
  map (_get_next_channel_number used) [PStr "auto"; PStr "1.1"; PStr " 800 "; PStr "1-2"; PStr "{auto}"; PStr "1e3"; PBool true]
  = [Ok (PInt 4); Ok (PFloat (Float.of_ratio 13 10)); Ok (PInt 801); Ok (PInt 4); Ok (PInt 4); Ok (PInt 4); Ok (PInt 4)].
Proof. vm_compute. reflexivity. Qed.
