(* ===== verification/GuideMatch.v ===== *)
(** * The guide entry of a channel
    ([channel_pipeline_executor.py]: [_match_epg_data]; [epg_matching.py]: [detect_region]).

    Among the entries of one guide source, the one with the channel's own guide id, or else the
    best by name: equal names before names that begin one another, within each tier the
    channel's region before none before another, then the closest length.  Text is ASCII. *)
From S2P Require Import Prelude PyFloat PyValue PyText DatePlaceholders NameNormalizer NumberAllocation.
From stdpp Require Import list gmap strings.
Open Scope Z_scope.
Open Scope py_scope.

Module GuideMatch.
Import DatePlaceholders.

Definition QUALITY_SUFFIXES : list string :=
  ["FHD"; "UHD"; "4K"; "HD"; "SD"; "1080P"; "1080I"; "720P"; "480P"; "2160P"; "HEVC"; "H264"; "H265"].

(** ** Regions *)

(** [[^a-z0-9]] removed from the lower case. *)
Definition is_alnum (c : Ascii.ascii) : bool := is_alpha c || is_decimal c.
Definition folded_alnum (s : string) : string := s_filter is_alnum (lower s).

(** [re.findall(r'\(([^)]+)\)', text)] and the text without them. *)
Definition paren_group (rest : string) : option (string * string) :=
  match span (fun d => negb (bool_decide (d = ")"%char))) rest with
  | (String d inner, String _ rest') => Some (String d inner, rest')
  | _ => None
  end.
Fixpoint parens (fuel : nat) (s : string) : list string * string :=
  match fuel, s with
  | S fuel, String c rest =>
      let skip := let '(groups, others) := parens fuel rest in (groups, String c others) in
      if bool_decide (c = "("%char) then
        match paren_group rest with
        | Some (group, rest') => let '(groups, others) := parens fuel rest' in (group :: groups, others)
        | None => skip
        end
      else skip
  | _, _ => ([], s)
  end.
Definition paren_groups (s : string) : list string := (parens (String.length s) s).1.
Definition without_parens (s : string) : string := (parens (String.length s) s).2.

Definition _REGION_CODE (word : string) : option string :=
  if bool_decide (word = "east") then Some "E"
  else if bool_decide (word = "west") then Some "W"
  else if bool_decide (word = "pacific") then Some "W"
  else if bool_decide (word = "central") then Some "C"
  else if bool_decide (word = "mountain") then Some "M"
  else None.

Definition _QUALITY_TOKENS : list string := map lower QUALITY_SUFFIXES.

(** [re.findall(r"[A-Za-z0-9]+", name)] *)
Fixpoint alnum_words (word s : string) : list string :=
  let done := match word with EmptyString => [] | _ => [word] end in
  match s with
  | EmptyString => done
  | String c rest => if is_alnum c then alnum_words (word +:+ String c EmptyString) rest else done ++ alnum_words EmptyString rest
  end.

Definition is_digits (s : string) : bool := negb (bool_decide (s = EmptyString)) && NameNormalizer.s_forall is_decimal s.

(** From the last word backwards. *)
Fixpoint last_meaningful (reversed : list string) : option string :=
  match reversed with
  | [] => None
  | w :: ws => if bool_decide (lower w ∈ _QUALITY_TOKENS) || is_digits w then last_meaningful ws else Some w
  end.

Fixpoint first_code (groups : list string) : option string :=
  match groups with
  | [] => None
  | g :: gs => match _REGION_CODE (folded_alnum g) with Some r => Some r | None => first_code gs end
  end.

Definition detect_region (tvg_id name : option string) : option string :=
  match match tvg_id with Some t => first_code (paren_groups t) | None => None end with
  | Some r => Some r
  | None =>
      match name with
      | Some n => match last_meaningful (rev (alnum_words EmptyString n)) with
                  | Some w => _REGION_CODE (lower w)
                  | None => None
                  end
      | None => None
      end
  end.

(** ** Names *)

Definition _QUALITY_SUFFIXES : list string :=
  ["fhd"; "uhd"; "4k"; "hd"; "sd"; "1080p"; "1080i"; "720p"; "480p"; "2160p"; "hevc"; "h264"; "h265"].
Definition _TIMEZONE_SUFFIXES : list string := ["east"; "west"; "et"; "pt"; "ct"; "mt"].
Definition _LEAGUE_SUFFIXES : list string :=
  ["nfl"; "nba"; "mlb"; "nhl"; "mls"; "wnba"; "ncaa"; "cfb"; "cbb"; "epl"; "premierleague"; "laliga"; "bundesliga"; "seriea";
   "ligue1"; "uefa"; "fifa"; "f1"; "nascar"; "pga"; "atp"; "wta"; "wwe"; "ufc"; "aew"; "boxing"].
Definition league_prefixes : list string :=
  ["nfl"; "nba"; "mlb"; "nhl"; "mls"; "wnba"; "ncaa"; "cfb"; "cbb"; "epl"; "uefa"; "fifa"; "f1"; "nascar"; "pga"; "atp"; "wta";
   "wwe"; "ufc"; "aew"; "boxing"].

(** [\s*[...]\s*] at the start. *)
Definition separated (separators : list Ascii.ascii) (s : string) : option string :=
  match skip_spaces s with
  | String c rest => if bool_decide (c ∈ separators) then Some (skip_spaces rest) else None
  | EmptyString => None
  end.

(** [^\d+(?:\.\d+)?\s*[|\-:.]\s*]: when nothing separates after the decimals, the point itself
    does. *)
Definition strip_numbered (s : string) : string :=
  let separators := ["|"; "-"; ":"; "."]%char in
  match decimal_run s with
  | None => s
  | Some (_, rest) =>
      match separated separators rest with
      | Some stripped => stripped
      | None => match run_of is_decimal s with
                | Some (_, rest) => default s (separated separators rest)
                | None => s
                end
      end
  end.

(** [^\d+(?:\.\d+)?\s+(?=[A-Za-z])] *)
Definition strip_spaced_number (s : string) : string :=
  match decimal_run s with
  | Some (_, String c rest) =>
      if is_space c then
        match skip_spaces rest with
        | String d stripped => if is_alpha d then String d stripped else s
        | EmptyString => s
        end
      else s
  | _ => s
  end.

(** [^[A-Z]{2}\s*[:|]\s*] *)
Definition strip_country_code (s : string) : string :=
  match s with
  | String a (String b rest) => if is_upper a && is_upper b then default s (separated [":"; "|"]%char rest) else s
  | _ => s
  end.

(** [_LEAGUE_PREFIXES_RE], no prefix of which begins another. *)
Definition league_rest (s : string) (prefix : string) : option string :=
  if starts_with prefix (lower s) then separated [":"; "|"]%char (NameNormalizer.s_drop (String.length prefix) s) else None.
Definition strip_league (s : string) : string :=
  default s (NameNormalizer.first_some (league_rest s) league_prefixes).

(** [[\s\-_|:]*suffix\s*$], ignoring case. *)
Definition suffix_cut (c : Ascii.ascii) : bool := is_space c || bool_decide (c ∈ ["-"; "_"; "|"; ":"]%char).
Definition strip_suffix (s suffix : string) : string :=
  let trimmed := rstrip_chars is_space s in
  match drop_suffix suffix (lower trimmed) with
  | Some kept => rstrip_chars suffix_cut (s_take (String.length kept) trimmed)
  | None => s
  end.

Definition _normalize_for_epg (name : string) : string :=
  let n := strip_league (strip_country_code (strip_spaced_number (strip_numbered (strip name)))) in
  let n := foldl strip_suffix n (_QUALITY_SUFFIXES ++ _TIMEZONE_SUFFIXES) in
  let n := py_replace "&" "and" (py_replace "+" "plus" n) in
  (span is_decimal (folded_alnum n)).2.

(** The text before the last dot, and the text behind it. *)
Fixpoint rsplit_dot (s : string) : option (string * string) :=
  match s with
  | EmptyString => None
  | String c rest =>
      match rsplit_dot rest with
      | Some (a, b) => Some (String c a, b)
      | None => if bool_decide (c = "."%char) then Some (EmptyString, rest) else None
      end
  end.

Definition _parse_tvg_id (tvg_id : string) : string :=
  let name_part :=
    match rsplit_dot tvg_id with
    | Some (before, after) =>
        let suffix := lower after in
        let n := String.length suffix in
        if bool_decide (suffix ∈ _LEAGUE_SUFFIXES) then before
        else if (2 <=? n)%nat && (n <=? 3)%nat && NameNormalizer.s_forall is_alpha suffix then before
        else tvg_id
    | None => tvg_id
    end in
  _normalize_for_epg (without_parens name_part).

(** ** The match *)

Record epg_entry := EpgEntry {
  e_id : Z; e_tvg_id : option string; e_name : option string; e_icon_url : option string; e_icon : option string }.

(** [0]: the channel's region, or the channel has none; [1]: none; [2]: another. *)
Definition _region_rank (channel_region : option string) (e : epg_entry) : nat :=
  match channel_region with
  | None => 0
  | Some r =>
      match detect_region (e_tvg_id e) (e_name e) with
      | Some r' => if bool_decide (r' = r) then 0 else 2
      | None => 1
      end
  end.

(** A candidate's entry, rank and difference in length. *)
Record candidate := Candidate { k_entry : epg_entry; k_rank : nat; k_diff : nat }.

Definition distance (a b : string) : nat :=
  (String.length a - String.length b) + (String.length b - String.length a).

Definition norm_tvg (e : epg_entry) : string := match e_tvg_id e with Some (String c t) => _parse_tvg_id (String c t) | _ => EmptyString end.
Definition norm_name (e : epg_entry) : string := match e_name e with Some (String c t) => _normalize_for_epg (String c t) | _ => EmptyString end.

(** The call sign in the guide id's first parentheses is the name, with or without its
    quality. *)
Definition call_sign_base (s : string) : string :=
  default s (NameNormalizer.first_some (fun suffix => drop_suffix suffix s) ["fhd"; "uhd"; "hd"; "sd"]).
Definition signed_as (norm_channel : string) (e : epg_entry) : bool :=
  match paren_groups (default EmptyString (e_tvg_id e)) with
  | g :: _ => let call_sign := folded_alnum g in
              bool_decide (norm_channel = call_sign) || bool_decide (norm_channel = call_sign_base call_sign)
  | [] => false
  end.

Definition begin_one_another (norm_channel key : string) : bool :=
  (4 <=? String.length norm_channel)%nat && negb (bool_decide (key = EmptyString)) &&
  (starts_with norm_channel key || starts_with key norm_channel).

Definition add_entry (norm_channel : string) (region : option string) (acc : list candidate * list candidate) (e : epg_entry) :
    list candidate * list candidate :=
  let '(exact_matches, prefix_matches) := acc in
  let rank := _region_rank region e in
  let tvg := norm_tvg e in
  let name := norm_name e in
  if bool_decide (norm_channel = tvg) || bool_decide (norm_channel = name) then
    (exact_matches ++ [Candidate e rank (distance tvg norm_channel)], prefix_matches)
  else if signed_as norm_channel e then (exact_matches ++ [Candidate e rank 0], prefix_matches)
  else
    let prefix_matches := if begin_one_another norm_channel tvg
      then prefix_matches ++ [Candidate e rank (distance tvg norm_channel)] else prefix_matches in
    let prefix_matches := if begin_one_another norm_channel name &&
        negb (existsb (fun k => e_id (k_entry k) =? e_id e) prefix_matches)
      then prefix_matches ++ [Candidate e rank (distance name norm_channel)] else prefix_matches in
    (exact_matches, prefix_matches).

(** [l.sort(key=lambda x: (x[2], x[3])); l[0][0]] *)
Definition before (a b : candidate) : bool :=
  (k_rank a <? k_rank b)%nat || (k_rank a =? k_rank b)%nat && (k_diff a <? k_diff b)%nat.
Fixpoint best_of (best : candidate) (l : list candidate) : candidate :=
  match l with
  | [] => best
  | k :: l => best_of (if before k best then k else best) l
  end.

Definition single {A} (l : list A) : option A := match l with [a] => Some a | _ => None end.

Definition _match_epg_data (tvg_id : option string) (name : string) (source_entries : list epg_entry) : option epg_entry :=
  let same := match tvg_id with
    | Some (String c t) => List.find (fun e => bool_decide (e_tvg_id e = tvg_id)) source_entries
    | _ => None
    end in
  match same with
  | Some e => Some e
  | None =>
      let norm_channel := _normalize_for_epg name in
      if bool_decide (norm_channel = EmptyString) then single source_entries
      else
        match foldl (add_entry norm_channel (detect_region tvg_id (Some name))) ([], []) source_entries with
        | (k :: exact_matches, _) => Some (k_entry (best_of k exact_matches))
        | ([], k :: prefix_matches) => Some (k_entry (best_of k prefix_matches))
        | ([], []) => single source_entries
        end
  end.

End GuideMatch.
