(* ===== verification/GuideTheorems.v ===== *)
(** * The guide entry that is chosen is the best there is. *)
From S2P Require Import Prelude PyFloat PyValue PyText GuideMatch.
From stdpp Require Import list gmap strings.
Open Scope py_scope.

Module GuideTheorems.
Import GuideMatch.

(** ** What an entry is worth to a channel *)

(** Its tier (equal names, then names that begin one another), its region's rank, its distance
    in length; [None] when it has nothing to do with the channel. *)
Definition grade (norm_channel : string) (region : option string) (e : epg_entry) : option (nat * nat * nat) :=
  let rank := _region_rank region e in
  if bool_decide (norm_channel = norm_tvg e) || bool_decide (norm_channel = norm_name e)
  then Some (0, rank, distance (norm_tvg e) norm_channel)
  else if signed_as norm_channel e then Some (0, rank, 0)
  else if begin_one_another norm_channel (norm_tvg e) then Some (1, rank, distance (norm_tvg e) norm_channel)
  else if begin_one_another norm_channel (norm_name e) then Some (1, rank, distance (norm_name e) norm_channel)
  else None.

(** Tier first, then rank, then distance. *)
Definition better (a b : nat * nat * nat) : Prop :=
  let '(t, r, d) := a in let '(t', r', d') := b in
  t < t' \/ t = t' /\ (r < r' \/ r = r' /\ d < d').

(** ** The candidates are the graded entries *)

Section match_.
Variables (norm : string) (region : option string).

Definition in_tier (t : nat) (e : epg_entry) : option candidate :=
  match grade norm region e with
  | Some (t', r, d) => if bool_decide (t' = t) then Some (Candidate e r d) else None
  | None => None
  end.

Lemma tier_id t e k : in_tier t e = Some k -> k_entry k = e.
Proof. unfold in_tier. destruct (grade _ _ e) as [[[t' r] d]|]; [|done]. case_bool_decide; [|done]. by intros [= <-]. Qed.

Lemma no_namesake t l e : (e_id e ∉ map e_id l) ->
  existsb (fun k => Z.eqb (e_id (k_entry k)) (e_id e)) (omap (in_tier t) l) = false.
Proof.
  intros H. apply not_true_iff_false. intros (k & Hk & E)%existsb_exists. apply Z.eqb_eq in E. apply H. rewrite <- E.
  apply list_elem_of_In, list_elem_of_omap in Hk as (e' & He & Hk). apply tier_id in Hk as ->. by apply Prelude.elem_of_map_2.
Qed.

Lemma collected l : NoDup (map e_id l) ->
  foldl (add_entry norm region) ([], []) l = (omap (in_tier 0) l, omap (in_tier 1) l).
Proof.
  induction l as [|e l IH] using rev_ind; intros Hn; [done|].
  rewrite map_app in Hn. apply NoDup_app in Hn as (Hl & Hd & _).
  assert (He : e_id e ∉ map e_id l) by (intros H; apply (Hd _ H); cbn; apply list_elem_of_here).
  rewrite foldl_app, IH, !omap_app by done. pose proof (no_namesake 1 l e He) as Hx.
  assert (Hs : forall t, omap (in_tier t) [e] = match grade norm region e with
      Some (t', r, d) => if bool_decide (t' = t) then [Candidate e r d] else [] | None => [] end).
  { intros t. cbn. unfold in_tier. by destruct (grade norm region e) as [[[t' r] d]|]; [case_bool_decide|]. }
  rewrite !Hs. cbn [foldl]. unfold add_entry, grade.
  destruct (_ || _); cbn; [by rewrite app_nil_r|]. destruct (signed_as norm e); cbn; [by rewrite app_nil_r|].
  destruct (begin_one_another norm (norm_tvg e)) eqn:Et; cbn.
  - rewrite existsb_app, Hx. cbn. rewrite Z.eqb_refl. cbn. rewrite andb_false_r. by rewrite app_nil_r.
  - rewrite Hx, andb_true_r. destruct (begin_one_another norm (norm_name e)); cbn; by rewrite ?app_nil_r.
Qed.

(** ** The first of the best *)

Lemma before_spec a b : before a b = true <-> k_rank a < k_rank b \/ k_rank a = k_rank b /\ k_diff a < k_diff b.
Proof. unfold before. by rewrite orb_true_iff, andb_true_iff, !Nat.ltb_lt, Nat.eqb_eq. Qed.

Lemma best_first l : forall k, exists l1 l2, k :: l = l1 ++ best_of k l :: l2 /\
  (forall x, x ∈ l1 -> before (best_of k l) x = true) /\ (forall x, x ∈ l2 -> before x (best_of k l) = false).
Proof.
  assert (Ht : forall a b c, before a b = true -> before b c = true -> before a c = true).
  { intros a b c. rewrite !before_spec. lia. }
  assert (Hc : forall a b c, before a b = true -> before c b = false -> before a c = true).
  { intros a b c. rewrite <- not_true_iff_false, !before_spec. lia. }
  induction l as [|c l IH]; intros k; cbn [best_of].
  { exists [], []. split_and!; [done|by intros x ?%elem_of_nil..]. }
  destruct (before c k) eqn:E.
  - destruct (IH c) as (l1 & l2 & El & H1 & H2). exists (k :: l1), l2. split_and!; [by rewrite El| |done].
    intros x [->|Hx]%elem_of_cons; [|by apply H1].
    destruct l1 as [|y l1]; cbn in El; injection El as Ec El; [by rewrite <- Ec|].
    apply (Ht _ c); [|done]. apply H1. rewrite Ec. apply list_elem_of_here.
  - destruct (IH k) as (l1 & l2 & El & H1 & H2). destruct l1 as [|y l1]; cbn in El; injection El as Ek El.
    + exists [], (c :: l2). rewrite <- Ek in H2 |- *. split_and!; [by subst l2|by intros x ?%elem_of_nil|].
      intros x [->|Hx]%elem_of_cons; [done|by apply H2].
    + exists (k :: c :: l1), l2. subst y. split_and!; [cbn; by rewrite <- El| |done].
      assert (Hk : before (best_of k l) k = true) by apply H1, list_elem_of_here.
      intros x [->|[->|Hx]%elem_of_cons]%elem_of_cons; [done| |apply H1; by right]. by apply (Hc _ k).
Qed.

Lemma omap_split {A B} (f : A -> option B) l : forall l1 b l2, omap f l = l1 ++ b :: l2 ->
  exists m1 a m2, l = m1 ++ a :: m2 /\ f a = Some b /\ omap f m1 = l1 /\ omap f m2 = l2.
Proof.
  induction l as [|a l IH]; intros l1 b l2; cbn; [by destruct l1|].
  destruct (f a) as [b'|] eqn:E.
  - destruct l1 as [|c l1]; cbn; intros [= -> El].
    + exists [], a, l. by rewrite El.
    + destruct (IH l1 b l2 El) as (m1 & a' & m2 & -> & Ea & <- & <-). exists (a :: m1), a', m2. cbn. by rewrite E.
  - intros El. destruct (IH l1 b l2 El) as (m1 & a' & m2 & -> & Ea & <- & <-). exists (a :: m1), a', m2. cbn. by rewrite E.
Qed.

Lemma tier_in t e r d (l : list epg_entry) : e ∈ l -> grade norm region e = Some (t, r, d) -> Candidate e r d ∈ omap (in_tier t) l.
Proof. intros He E. apply list_elem_of_omap. exists e. split; [done|]. unfold in_tier. by rewrite E, bool_decide_eq_true_2. Qed.

Lemma tier_grade t e k : in_tier t e = Some k -> grade norm region e = Some (t, k_rank k, k_diff k).
Proof.
  unfold in_tier. destruct (grade _ _ e) as [[[t' r] d]|]; [|done]. case_bool_decide; [|done]. intros [= <-]. by subst.
Qed.

Lemma graded_tier e t r d : grade norm region e = Some (t, r, d) -> t = 0 \/ t = 1.
Proof. unfold grade. repeat case_match; intros [= <- _ _]; auto. Qed.

Lemma best_in_tier t (l : list epg_entry) k ks : omap (in_tier t) l = k :: ks ->
  (forall e t' r d, e ∈ l -> grade norm region e = Some (t', r, d) -> t <= t') ->
  exists m1 e m2, l = m1 ++ e :: m2 /\ k_entry (best_of k ks) = e /\ exists g, grade norm region e = Some g /\
    (forall e' g', e' ∈ m1 -> grade norm region e' = Some g' -> better g g') /\
    (forall e' g', e' ∈ m2 -> grade norm region e' = Some g' -> ~ better g' g).
Proof.
  intros E Hmin. destruct (best_first ks k) as (l1 & l2 & El & H1 & H2). rewrite El in E.
  destruct (omap_split _ _ _ _ _ E) as (m1 & e & m2 & -> & Ee & E1 & E2). exists m1, e, m2. split; [done|].
  split; [by apply tier_id in Ee|]. apply tier_grade in Ee. eexists. split; [exact Ee|].
  split; intros e' [[t' r'] d'] He' Eg; assert (Ht : t <= t') by (eapply Hmin; [|exact Eg]; set_solver).
  - destruct (decide (t' = t)) as [->|Hne]; [|left; lia]. right. split; [done|].
    pose proof (H1 (Candidate e' r' d') ltac:(rewrite <- E1; by apply tier_in)) as H. apply before_spec in H. cbn in H. lia.
  - intros [Hlt|[-> H']]; [lia|].
    pose proof (H2 (Candidate e' r' d') ltac:(rewrite <- E2; by apply tier_in)) as H. apply not_true_iff_false in H. rewrite before_spec in H. cbn in H. lia.
Qed.

Lemma empty_tier t (l : list epg_entry) e r d : omap (in_tier t) l = [] -> e ∈ l -> grade norm region e <> Some (t, r, d).
Proof. intros E He Eg. pose proof (tier_in t e r d l He Eg) as H. rewrite E in H. by apply elem_of_nil in H. Qed.
End match_.

(** C34: the guide entry assigned to a channel that none carries the id of is the first of the
    best: no entry of the source has an equal name when it has not, none of the same tier is
    nearer its region, none of the same region nearer in length; an entry that has nothing to
    do with the channel is assigned only when it is alone in its source, and none is assigned
    only when no entry has anything to do with the channel. *)
Theorem guide_entry_is_best tvg_id name entries : NoDup (map e_id entries) ->
  (forall e, e ∈ entries -> e_tvg_id e = tvg_id -> tvg_id = None \/ tvg_id = Some EmptyString) ->
  _normalize_for_epg name <> EmptyString ->
  let graded := grade (_normalize_for_epg name) (detect_region tvg_id (Some name)) in
  match _match_epg_data tvg_id name entries with
  | Some e => exists m1 m2, entries = m1 ++ e :: m2 /\
      match graded e with
      | Some g => (forall e' g', e' ∈ m1 -> graded e' = Some g' -> better g g') /\
                  (forall e' g', e' ∈ m2 -> graded e' = Some g' -> ~ better g' g)
      | None => m1 = [] /\ m2 = []
      end
  | None => (forall e, e ∈ entries -> graded e = None) /\ List.length entries <> 1
  end.
Proof.
  intros Hn Hown Hname graded. unfold _match_epg_data.
  assert (Es : match tvg_id with Some (String _ _) => List.find (fun e => bool_decide (e_tvg_id e = tvg_id)) entries | _ => None end = None).
  { destruct tvg_id as [[|c t]|]; try done. destruct (List.find _ _) as [e|] eqn:E; [|done].
    apply find_some in E as [He E]. apply bool_decide_eq_true in E. apply list_elem_of_In in He.
    by destruct (Hown e He E). }
  rewrite Es, bool_decide_eq_false_2 by done. rewrite collected by done. clear Es.
  destruct (omap (in_tier _ _ 0) entries) as [|k ks] eqn:E0; [destruct (omap (in_tier _ _ 1) entries) as [|k ks] eqn:E1|].
  - assert (Hnone : forall e, e ∈ entries -> graded e = None).
    { intros e He. destruct (graded e) as [[[t r] d]|] eqn:Eg; [exfalso|done].
      destruct (graded_tier _ _ _ _ _ _ Eg) as [-> | ->]; [by eapply (empty_tier _ _ 0)|by eapply (empty_tier _ _ 1)]. }
    destruct entries as [|e [|e' l]]; cbn; [by split| |by split].
    exists [], []. split; [done|]. rewrite (Hnone e) by apply list_elem_of_here. done.
  - destruct (best_in_tier _ _ 1 entries k ks E1) as (m1 & e & m2 & -> & He & g & Eg & H1 & H2).
    { intros e t r d He Eg. destruct (graded_tier _ _ _ _ _ _ Eg) as [-> | ->]; [|done]. by destruct (empty_tier _ _ 0 _ _ _ _ E0 He Eg). }
    exists m1, m2. rewrite He. unfold graded. rewrite Eg. by split.
  - destruct (best_in_tier _ _ 0 entries k ks E0) as (m1 & e & m2 & -> & He & g & Eg & H1 & H2); [lia|].
    exists m1, m2. rewrite He. unfold graded. rewrite Eg. by split.
Qed.

Definition west : epg_entry := EpgEntry 1 (Some "USANetwork.us") (Some "USA Network") None None.
Definition pacific : epg_entry := EpgEntry 2 (Some "USANetwork(Pacific)(USAP).us") (Some "USA Network (Pacific)") None None.

Example pacific_chosen : option_map e_id (_match_epg_data None "107 | USA Network West HD" [west; pacific]) = Some 2%Z.
Proof. vm_compute. reflexivity. Qed.

Lemma guide_entry_is_best_witness :
  let graded := grade (_normalize_for_epg "107 | USA Network West HD") (detect_region None (Some "107 | USA Network West HD")) in
  match _match_epg_data None "107 | USA Network West HD" [west; pacific] with
  | Some e => exists m1 m2, [west; pacific] = m1 ++ e :: m2 /\
      match graded e with
      | Some g => (forall e' g', e' ∈ m1 -> graded e' = Some g' -> better g g') /\
                  (forall e' g', e' ∈ m2 -> graded e' = Some g' -> ~ better g' g)
      | None => m1 = [] /\ m2 = []
      end
  | None => (forall e, e ∈ [west; pacific] -> graded e = None) /\ List.length [west; pacific] <> 1
  end.
Proof.
  apply guide_entry_is_best.
  - by apply (bool_decide_unpack _).
  - intros e _ _. by left.
  - vm_compute. congruence.
Defined.

(** The four characters that keep short names apart are asked of the channel only: the
    one-letter name of an entry begins any name with that letter. *)
Example short_names_begin_all :
  option_map e_id (_match_epg_data None "ESPN" [EpgEntry 1 None (Some "Fox") None None; EpgEntry 2 None (Some "E!") None None]) = Some 2%Z.
Proof. vm_compute. reflexivity. Qed.

End GuideTheorems.
