(* ===== verification/ExecutorTypes.v ===== *)
(** * The pipeline executor's data ([channel_pipeline_executor.py]).

    The results of actions and how a stream's context accumulates them, the channels the
    executor knows (shared objects: the indexes of [ExecutorIndex] hold their places, so that
    a change through one index is seen through all), the calls it makes, and its state. *)
From S2P Require Import Prelude PyFloat PyValue PyText PyDict PyState NumberAllocation GuideMatch.
From stdpp Require Import list gmap strings.
Open Scope Z_scope.
Open Scope py_scope.

Module ExecutorTypes.
Import GuideMatch.

(** ** Results *)

Record ActionResult := Result {
  r_success : bool; r_type : string; r_description : string;
  r_entity : option string; r_id : option Z; r_name : option string;
  r_created : bool; r_modified : bool; r_skipped : bool;
  r_previous : option (list (string * pyval)); r_error : option string; r_details : list string;
  r_deferred : bool; r_rollbackable : bool }.

(** [ActionResult(success=..., action_type=..., description=...)] *)
Definition plain (success : bool) (type description : string) : ActionResult :=
  Result success type description None None None false false false None None [] false true.
Definition failed_with (error : string) (r : ActionResult) : ActionResult :=
  Result (r_success r) (r_type r) (r_description r) (r_entity r) (r_id r) (r_name r) (r_created r) (r_modified r)
    (r_skipped r) (r_previous r) (Some error) (r_details r) (r_deferred r) (r_rollbackable r).
Definition about (entity : string) (id : option Z) (name : option string) (r : ActionResult) : ActionResult :=
  Result (r_success r) (r_type r) (r_description r) (Some entity) id name (r_created r) (r_modified r)
    (r_skipped r) (r_previous r) (r_error r) (r_details r) (r_deferred r) (r_rollbackable r).
Definition creating (r : ActionResult) : ActionResult :=
  Result (r_success r) (r_type r) (r_description r) (r_entity r) (r_id r) (r_name r) true (r_modified r)
    (r_skipped r) (r_previous r) (r_error r) (r_details r) (r_deferred r) (r_rollbackable r).
Definition modifying (changed : bool) (previous : option (list (string * pyval))) (r : ActionResult) : ActionResult :=
  Result (r_success r) (r_type r) (r_description r) (r_entity r) (r_id r) (r_name r) (r_created r) changed
    (r_skipped r) previous (r_error r) (r_details r) (r_deferred r) (r_rollbackable r).
Definition skipping (r : ActionResult) : ActionResult :=
  Result (r_success r) (r_type r) (r_description r) (r_entity r) (r_id r) (r_name r) (r_created r) (r_modified r)
    true (r_previous r) (r_error r) (r_details r) (r_deferred r) (r_rollbackable r).
Definition with_details (details : list string) (r : ActionResult) : ActionResult :=
  Result (r_success r) (r_type r) (r_description r) (r_entity r) (r_id r) (r_name r) (r_created r) (r_modified r)
    (r_skipped r) (r_previous r) (r_error r) details (r_deferred r) (r_rollbackable r).

Definition deferring (r : ActionResult) : ActionResult :=
  Result (r_success r) (r_type r) (r_description r) (r_entity r) (r_id r) (r_name r) (r_created r) (r_modified r)
    (r_skipped r) (r_previous r) (r_error r) (r_details r) true (r_rollbackable r).
Definition irreversible (r : ActionResult) : ActionResult :=
  Result (r_success r) (r_type r) (r_description r) (r_entity r) (r_id r) (r_name r) (r_created r) (r_modified r)
    (r_skipped r) (r_previous r) (r_error r) (r_details r) (r_deferred r) false.

(** What the context keeps of a result for the rollback. *)
Record touched := Touched { t_type : option string; t_id : option Z; t_name : option string;
  t_previous : option (list (string * pyval)) }.

Record sort_request := SortRequest { s_order : string; s_start : pyval; s_strip : bool; s_country : bool }.

Record ExecutionContext := Context {
  dry_run : bool;
  results : list ActionResult;
  created_entities : list touched;
  modified_entities : list touched;
  channels_created : nat; channels_updated : nat; groups_created : nat;
  streams_merged : nat; streams_skipped : nat; streams_removed : nat;
  merged_channel_ids : gset Z;
  current_channel_id : option Z;
  current_group_id : option Z;
  created_channel_ids : gset Z;
  custom_variables : list (string * pyval);
  sort_group_requests : gmap Z sort_request;
  non_reversible_channel_ids : gset Z;
  default_profile_failures : list (Z * list Z);
  pending_merges_added : nat;
  probe_stream_ids : list Z;
  ownership_unestablished : gset Z;
  group_settings : option (option (gmap Z pyval)) }.

(** [ExecutionContext(dry_run=...)] *)
Definition new_context (dry : bool) : ExecutionContext :=
  Context dry [] [] [] 0 0 0 0 0 0 ∅ None None ∅ [] ∅ ∅ [] 0 [] ∅ None.

Definition on_probe_stream_ids (g : list Z -> list Z) (c : ExecutionContext) : ExecutionContext :=
  Context (dry_run c) (results c) (created_entities c) (modified_entities c) (channels_created c) (channels_updated c)
    (groups_created c) (streams_merged c) (streams_skipped c) (streams_removed c) (merged_channel_ids c)
    (current_channel_id c) (current_group_id c) (created_channel_ids c) (custom_variables c) (sort_group_requests c)
    (non_reversible_channel_ids c) (default_profile_failures c) (pending_merges_added c) (g (probe_stream_ids c))
    (ownership_unestablished c) (group_settings c).
Definition on_ownership_unestablished (g : gset Z -> gset Z) (c : ExecutionContext) : ExecutionContext :=
  Context (dry_run c) (results c) (created_entities c) (modified_entities c) (channels_created c) (channels_updated c)
    (groups_created c) (streams_merged c) (streams_skipped c) (streams_removed c) (merged_channel_ids c)
    (current_channel_id c) (current_group_id c) (created_channel_ids c) (custom_variables c) (sort_group_requests c)
    (non_reversible_channel_ids c) (default_profile_failures c) (pending_merges_added c) (probe_stream_ids c) (g
    (ownership_unestablished c)) (group_settings c).
Definition on_group_settings (g : option (option (gmap Z pyval)) -> option (option (gmap Z pyval))) (c : ExecutionContext) : ExecutionContext :=
  Context (dry_run c) (results c) (created_entities c) (modified_entities c) (channels_created c) (channels_updated c)
    (groups_created c) (streams_merged c) (streams_skipped c) (streams_removed c) (merged_channel_ids c)
    (current_channel_id c) (current_group_id c) (created_channel_ids c) (custom_variables c) (sort_group_requests c)
    (non_reversible_channel_ids c) (default_profile_failures c) (pending_merges_added c) (probe_stream_ids c)
    (ownership_unestablished c) (g (group_settings c)).
Definition on_current_channel_id (g : option Z -> option Z) (c : ExecutionContext) : ExecutionContext :=
  Context (dry_run c) (results c) (created_entities c) (modified_entities c) (channels_created c) (channels_updated
    c) (groups_created c) (streams_merged c) (streams_skipped c) (streams_removed c) (merged_channel_ids c) (g
    (current_channel_id c)) (current_group_id c) (created_channel_ids c) (custom_variables c) (sort_group_requests
    c) (non_reversible_channel_ids c) (default_profile_failures c) (pending_merges_added c)
    (probe_stream_ids c) (ownership_unestablished c) (group_settings c).
Definition on_current_group_id (g : option Z -> option Z) (c : ExecutionContext) : ExecutionContext :=
  Context (dry_run c) (results c) (created_entities c) (modified_entities c) (channels_created c) (channels_updated
    c) (groups_created c) (streams_merged c) (streams_skipped c) (streams_removed c) (merged_channel_ids c)
    (current_channel_id c) (g (current_group_id c)) (created_channel_ids c) (custom_variables c)
    (sort_group_requests c) (non_reversible_channel_ids c) (default_profile_failures c) (pending_merges_added c)
    (probe_stream_ids c) (ownership_unestablished c) (group_settings c).
Definition on_created_channel_ids (g : gset Z -> gset Z) (c : ExecutionContext) : ExecutionContext :=
  Context (dry_run c) (results c) (created_entities c) (modified_entities c) (channels_created c) (channels_updated
    c) (groups_created c) (streams_merged c) (streams_skipped c) (streams_removed c) (merged_channel_ids c)
    (current_channel_id c) (current_group_id c) (g (created_channel_ids c)) (custom_variables c)
    (sort_group_requests c) (non_reversible_channel_ids c) (default_profile_failures c) (pending_merges_added c)
    (probe_stream_ids c) (ownership_unestablished c) (group_settings c).
Definition on_custom_variables (g : list (string * pyval) -> list (string * pyval)) (c : ExecutionContext) : ExecutionContext :=
  Context (dry_run c) (results c) (created_entities c) (modified_entities c) (channels_created c) (channels_updated
    c) (groups_created c) (streams_merged c) (streams_skipped c) (streams_removed c) (merged_channel_ids c)
    (current_channel_id c) (current_group_id c) (created_channel_ids c) (g (custom_variables c))
    (sort_group_requests c) (non_reversible_channel_ids c) (default_profile_failures c) (pending_merges_added c)
    (probe_stream_ids c) (ownership_unestablished c) (group_settings c).
Definition on_default_profile_failures (g : list (Z * list Z) -> list (Z * list Z)) (c : ExecutionContext) : ExecutionContext :=
  Context (dry_run c) (results c) (created_entities c) (modified_entities c) (channels_created c) (channels_updated
    c) (groups_created c) (streams_merged c) (streams_skipped c) (streams_removed c) (merged_channel_ids c)
    (current_channel_id c) (current_group_id c) (created_channel_ids c) (custom_variables c) (sort_group_requests
    c) (non_reversible_channel_ids c) (g (default_profile_failures c)) (pending_merges_added c)
    (probe_stream_ids c) (ownership_unestablished c) (group_settings c).
Definition on_pending_merges_added (g : nat -> nat) (c : ExecutionContext) : ExecutionContext :=
  Context (dry_run c) (results c) (created_entities c) (modified_entities c) (channels_created c) (channels_updated
    c) (groups_created c) (streams_merged c) (streams_skipped c) (streams_removed c) (merged_channel_ids c)
    (current_channel_id c) (current_group_id c) (created_channel_ids c) (custom_variables c) (sort_group_requests
    c) (non_reversible_channel_ids c) (default_profile_failures c) (g (pending_merges_added c))
    (probe_stream_ids c) (ownership_unestablished c) (group_settings c).
Definition on_sort_group_requests (g : gmap Z sort_request -> gmap Z sort_request) (c : ExecutionContext) : ExecutionContext :=
  Context (dry_run c) (results c) (created_entities c) (modified_entities c) (channels_created c) (channels_updated
    c) (groups_created c) (streams_merged c) (streams_skipped c) (streams_removed c) (merged_channel_ids c)
    (current_channel_id c) (current_group_id c) (created_channel_ids c) (custom_variables c) (g
    (sort_group_requests c)) (non_reversible_channel_ids c) (default_profile_failures c) (pending_merges_added c)
    (probe_stream_ids c) (ownership_unestablished c) (group_settings c).
Definition text_is (o : option string) (s : string) : bool := bool_decide (o = Some s).

(** The counters a result moves. *)
Definition one (b : bool) : nat := if b then 1%nat else 0%nat.
Definition opt_set (b : bool) (id : option Z) : gset Z :=
  match id with Some z => if b then {[ z ]} else ∅ | None => ∅ end.

Definition add_result (r : ActionResult) (c : ExecutionContext) : ExecutionContext :=
  let channel := text_is (r_entity r) "channel" in
  let group := text_is (r_entity r) "group" in
  let merge := bool_decide (r_type r = "merge_stream") in
  let removal := text_is (r_entity r) "stream" && bool_decide (r_type r = "remove_from_channel") in
  let m := r_modified r in
  Context (dry_run c) (results c ++ [r])
    (created_entities c ++
       if r_created r then
         if channel then [Touched (Some "channel") (r_id r) (r_name r) None]
         else if group then [Touched (Some "group") (r_id r) (r_name r) None] else []
       else [])
    (modified_entities c ++
       if m && r_rollbackable r then [Touched (r_entity r) (r_id r) (r_name r) (r_previous r)] else [])
    (channels_created c + one (r_created r && channel))
    (channels_updated c + one (m && channel && negb merge))
    (groups_created c + one (r_created r && negb channel && group))
    (streams_merged c + one (m && channel && merge))
    (streams_skipped c + one (r_skipped r))
    (streams_removed c + one (m && negb channel && removal))
    (merged_channel_ids c ∪ opt_set (m && channel && merge) (r_id r))
    (current_channel_id c) (current_group_id c) (created_channel_ids c) (custom_variables c)
    (sort_group_requests c)
    (non_reversible_channel_ids c ∪ opt_set (m && negb (r_rollbackable r) && channel) (r_id r))
    (default_profile_failures c) (pending_merges_added c)
    (probe_stream_ids c) (ownership_unestablished c) (group_settings c).

(** ** Streams and channels *)

Record stream := Stream {
  stream_id : Z; stream_name : string; group_name : option string; tvg_id : option string;
  tvg_name : option string; logo_url : option string; m3u_account_id : option Z;
  m3u_account_name : option string; resolution_height : option Z; normalized_name : option string;
  stream_channel : option Z }.

(** A channel's stream: an id, or a dict with one. *)
Inductive stream_ref := Bare (id : Z) | Full (id : Z).
Definition ref_id (r : stream_ref) : Z := match r with Bare z | Full z => z end.

(** The API's channel, its unassigned number [PNone]; its other fields by name. *)
Record channel := Channel {
  c_id : Z; c_name : string; c_number : pyval; c_group : option Z; c_streams : list stream_ref;
  c_auto_created : bool; c_tvg_id : option string; c_logo_url : option string;
  c_fields : gmap string pyval }.

Definition current_streams (ch : channel) : list Z := map ref_id (c_streams ch).

Definition set_name (name : string) (ch : channel) : channel :=
  Channel (c_id ch) name (c_number ch) (c_group ch) (c_streams ch) (c_auto_created ch) (c_tvg_id ch) (c_logo_url ch) (c_fields ch).
Definition set_number (number : pyval) (ch : channel) : channel :=
  Channel (c_id ch) (c_name ch) number (c_group ch) (c_streams ch) (c_auto_created ch) (c_tvg_id ch) (c_logo_url ch) (c_fields ch).
Definition set_group (group : option Z) (ch : channel) : channel :=
  Channel (c_id ch) (c_name ch) (c_number ch) group (c_streams ch) (c_auto_created ch) (c_tvg_id ch) (c_logo_url ch) (c_fields ch).
Definition set_streams (streams : list Z) (ch : channel) : channel :=
  Channel (c_id ch) (c_name ch) (c_number ch) (c_group ch) (map Bare streams) (c_auto_created ch) (c_tvg_id ch) (c_logo_url ch) (c_fields ch).
Definition mark_auto_created (ch : channel) : channel :=
  Channel (c_id ch) (c_name ch) (c_number ch) (c_group ch) (c_streams ch) true (c_tvg_id ch) (c_logo_url ch) (c_fields ch).
Definition set_guide (logo tvg : option string) (ch : channel) : channel :=
  Channel (c_id ch) (c_name ch) (c_number ch) (c_group ch) (c_streams ch) (c_auto_created ch) tvg logo (c_fields ch).

Definition set_field (key : string) (v : pyval) (ch : channel) : channel :=
  Channel (c_id ch) (c_name ch) (c_number ch) (c_group ch) (c_streams ch) (c_auto_created ch) (c_tvg_id ch) (c_logo_url ch)
    (<[key := v]> (c_fields ch)).
(** [channel.get(key)] of such a field *)
Definition field_of (ch : channel) (key : string) : pyval := default PNone (c_fields ch !! key).

Record group := Group { g_id : Z; g_name : string }.

(** ** Calls *)

Record journal_entry := JournalEntry {
  j_category : string; j_action : string; j_entity_id : option Z; j_entity_name : option string;
  j_description : string; j_before : pyval; j_after : pyval; j_batch : string }.

(** Dispatcharr's API as the executor uses it, the journal, and the queue of merges awaiting
    the operator ([check_and_enqueue_pending_merge]: enqueued, and the candidate chosen with
    its confidence as [:.2f] writes it). *)
Inductive call : Type -> Type :=
| CreateChannel (data : list (string * pyval)) : call channel
| UpdateChannel (id : Z) (data : list (string * pyval)) : call unit
| GetChannel (id : Z) : call channel
| DeleteChannel (id : Z) : call unit
| GetChannelStreams (id : Z) : call (list (option Z))
| CreateLogo (name url : string) : call (option Z)
| FindLogoByUrl (url : string) : call (option (option Z))
| CreateChannelGroup (name : string) : call group
| UpdateProfileChannel (profile channel : Z) (enabled : bool) : call unit
| GetAllGroupSettings : call (gmap Z pyval)
| AcquireGroupLock (group : Z) : call unit
| ReleaseGroupLock (group : Z) : call unit
| GetChannels (page : Z) : call (list channel * Z)
| DeleteChannelGroup (id : Z) : call unit
| LogEntries (entries : list journal_entry) : call bool
| EnqueuePendingMerge (stream : string) (group : option Z) (candidates : list (Z * string)) (dry : bool) :
    call (bool * option (Z * string)).

(** ** The normalization engine, the settings *)

Record Engine := { normalize : string -> option (list Z) -> result exc string;
  extract_core_name : string -> result exc string;
  extract_call_sign : string -> result exc (option string) }.

(** [services.dedup_matcher]'s verdict on a stream and a channel: its score, whether
    [is_admissible] admits it at a threshold, and the fields the journal keeps of it (the score
    rounded to four places, the signal, the call signs, the override). *)
Record Score := { score : py_float; admissible : py_float -> bool -> bool; rounded : pyval; evidence : list (string * pyval) }.

Record Settings := { include_channel_number_in_name : bool; channel_number_separator : string;
  default_channel_profile_ids : list Z }.

(** A failure of [safe_regex.sub]. *)
Record SubFailure := Failure { f_kind : string; f_message : string }.

(** The executor's constants and its surroundings: [perform] makes a call in the world [W];
    [regex_sub] is the engine behind [safe_regex.sub],
    [regex_search] and [regex_groups] the one behind [safe_regex.search] ([false] and [None] on its
    failures; the whole match and its groups). *)
Class Environment (W : Type) := {
  perform : forall {A}, call A -> W -> result exc A * W;
  regex_sub : string -> string -> string -> result SubFailure string;
  regex_search : string -> string -> bool;
  regex_groups : string -> string -> option (string * list (option string));
  score_one : string -> string -> option string -> option string -> Score;
  engine : option Engine;
  settings : option Settings;
  all_profile_ids : option (list Z);
  triggered_by : string;
  execution_id : option Z;
  plan_only : bool }.

(** ** State *)

(** A single-slot map and its multi-candidate companion, from a key to places. *)
Record slots := Slots { slot : gmap string nat; candidates : gmap string (list nat) }.

(** The channels, the existing ones first, and the indexes into them: [_channel_by_id], [_created_channels] (a dict in
  insertion order), and the five pairs of a single-slot map and its candidates. *)
Record Channels := Chans {
  heap : list channel;
  by_id : gmap Z nat;
  created_by_name : list (string * nat);
  base_names : slots;
  names : slots;
  normalized_names : slots;
  core_names : slots;
  folded : slots;
  callsigns : gmap string nat }.

Record Groups := Grps {
  group_by_id : gmap Z string;
  group_by_name : gmap string group;
  created_groups : list (string * group) }.

Record Numbers := Nums {
  used : occupied;
  assigned : gmap Z pyval }.

(** What tells a hand-built channel from the pipeline's own. *)
Record Gate := MkGate {
  managed : gset Z;
  last_manual_block : option nat;
  journaled_blocks : gset Z }.

(** The buffered journal and the name-transform failures. *)
Record Notes := MkNotes {
  last_transform_error : option string;
  journaled_transforms : gset (string * string * string);
  journal : list journal_entry }.

(** The profile memberships read at the run's start. *)
Record Profiles := MkProfiles {
  membership : option (gmap Z (gset Z));
  run_start : gset Z }.

(** The per-provider counts, and what pruning needs. *)
Record Merges := MkMerges {
  m3u_counts : gmap (Z * Z) nat;
  seeded : gset Z;
  merged_into : gmap Z (gset Z);
  prune_enabled : gset Z }.

(** What a guide assignment asks for: the source, and whether the entry's guide id is set. *)
Record epg_params := EpgParams { ep_source : option Z; ep_set_tvg_id : bool }.

(** The guide entries by source, the dummy sources, the assignments put off until a refresh,
    and those to be verified after the run. *)
Record Guide := MkGuide {
  epg_data_by_source : gmap Z (list epg_entry);
  dummy_sources : gset Z;
  deferred : list (Z * epg_params * stream);
  verifications : list (Z * list (string * pyval)) }.

Record Executor := MkExecutor {
  existing_count : nat;
  chans : Channels;
  groups : Groups;
  nums : Numbers;
  gate : Gate;
  notes : Notes;
  profiles : Profiles;
  merges : Merges;
  next_dry_run_id : Z;
  logo_cache : gmap string (option Z);
  guide : Guide }.

(** Updates of one field. *)
Definition on_heap (g : list channel -> list channel) (c : Channels) : Channels :=
  Chans (g (heap c)) (by_id c) (created_by_name c) (base_names c) (names c) (normalized_names c) (core_names c)
    (folded c) (callsigns c).
Definition on_by_id (g : gmap Z nat -> gmap Z nat) (c : Channels) : Channels :=
  Chans (heap c) (g (by_id c)) (created_by_name c) (base_names c) (names c) (normalized_names c) (core_names c)
    (folded c) (callsigns c).
Definition on_created_by_name (g : list (string * nat) -> list (string * nat)) (c : Channels) : Channels :=
  Chans (heap c) (by_id c) (g (created_by_name c)) (base_names c) (names c) (normalized_names c) (core_names c)
    (folded c) (callsigns c).
Definition on_base_names (g : slots -> slots) (c : Channels) : Channels :=
  Chans (heap c) (by_id c) (created_by_name c) (g (base_names c)) (names c) (normalized_names c) (core_names c)
    (folded c) (callsigns c).
Definition on_names (g : slots -> slots) (c : Channels) : Channels :=
  Chans (heap c) (by_id c) (created_by_name c) (base_names c) (g (names c)) (normalized_names c) (core_names c)
    (folded c) (callsigns c).
Definition on_folded (g : slots -> slots) (c : Channels) : Channels :=
  Chans (heap c) (by_id c) (created_by_name c) (base_names c) (names c) (normalized_names c) (core_names c) (g
    (folded c)) (callsigns c).
Definition on_created_groups (g : list (string * group) -> list (string * group)) (c : Groups) : Groups :=
  Grps (group_by_id c) (group_by_name c) (g (created_groups c)).
Definition on_used (g : occupied -> occupied) (c : Numbers) : Numbers :=
  Nums (g (used c)) (assigned c).
Definition on_assigned (g : gmap Z pyval -> gmap Z pyval) (c : Numbers) : Numbers :=
  Nums (used c) (g (assigned c)).
Definition on_managed (g : gset Z -> gset Z) (c : Gate) : Gate :=
  MkGate (g (managed c)) (last_manual_block c) (journaled_blocks c).
Definition on_last_manual_block (g : option nat -> option nat) (c : Gate) : Gate :=
  MkGate (managed c) (g (last_manual_block c)) (journaled_blocks c).
Definition on_journaled_blocks (g : gset Z -> gset Z) (c : Gate) : Gate :=
  MkGate (managed c) (last_manual_block c) (g (journaled_blocks c)).
Definition on_last_transform_error (g : option string -> option string) (c : Notes) : Notes :=
  MkNotes (g (last_transform_error c)) (journaled_transforms c) (journal c).
Definition on_journaled_transforms (g : gset (string * string * string) -> gset (string * string * string)) (c :
  Notes) : Notes :=
  MkNotes (last_transform_error c) (g (journaled_transforms c)) (journal c).
Definition on_journal (g : list journal_entry -> list journal_entry) (c : Notes) : Notes :=
  MkNotes (last_transform_error c) (journaled_transforms c) (g (journal c)).
Definition on_membership (g : option (gmap Z (gset Z)) -> option (gmap Z (gset Z))) (c : Profiles) : Profiles :=
  MkProfiles (g (membership c)) (run_start c).
Definition on_run_start (g : gset Z -> gset Z) (c : Profiles) : Profiles :=
  MkProfiles (membership c) (g (run_start c)).
Definition on_m3u_counts (g : gmap (Z * Z) nat -> gmap (Z * Z) nat) (c : Merges) : Merges :=
  MkMerges (g (m3u_counts c)) (seeded c) (merged_into c) (prune_enabled c).
Definition on_seeded (g : gset Z -> gset Z) (c : Merges) : Merges :=
  MkMerges (m3u_counts c) (g (seeded c)) (merged_into c) (prune_enabled c).
Definition on_merged_into (g : gmap Z (gset Z) -> gmap Z (gset Z)) (c : Merges) : Merges :=
  MkMerges (m3u_counts c) (seeded c) (g (merged_into c)) (prune_enabled c).
Definition on_prune_enabled (g : gset Z -> gset Z) (c : Merges) : Merges :=
  MkMerges (m3u_counts c) (seeded c) (merged_into c) (g (prune_enabled c)).
Definition on_chans (g : Channels -> Channels) (e : Executor) : Executor :=
  MkExecutor (existing_count e) (g (chans e)) (groups e) (nums e) (gate e) (notes e) (profiles e) (merges e)
    (next_dry_run_id e) (logo_cache e) (guide e).
Definition on_groups (g : Groups -> Groups) (e : Executor) : Executor :=
  MkExecutor (existing_count e) (chans e) (g (groups e)) (nums e) (gate e) (notes e) (profiles e) (merges e)
    (next_dry_run_id e) (logo_cache e) (guide e).
Definition on_nums (g : Numbers -> Numbers) (e : Executor) : Executor :=
  MkExecutor (existing_count e) (chans e) (groups e) (g (nums e)) (gate e) (notes e) (profiles e) (merges e)
    (next_dry_run_id e) (logo_cache e) (guide e).
Definition on_gate (g : Gate -> Gate) (e : Executor) : Executor :=
  MkExecutor (existing_count e) (chans e) (groups e) (nums e) (g (gate e)) (notes e) (profiles e) (merges e)
    (next_dry_run_id e) (logo_cache e) (guide e).
Definition on_notes (g : Notes -> Notes) (e : Executor) : Executor :=
  MkExecutor (existing_count e) (chans e) (groups e) (nums e) (gate e) (g (notes e)) (profiles e) (merges e)
    (next_dry_run_id e) (logo_cache e) (guide e).
Definition on_profiles (g : Profiles -> Profiles) (e : Executor) : Executor :=
  MkExecutor (existing_count e) (chans e) (groups e) (nums e) (gate e) (notes e) (g (profiles e)) (merges e)
    (next_dry_run_id e) (logo_cache e) (guide e).
Definition on_merges (g : Merges -> Merges) (e : Executor) : Executor :=
  MkExecutor (existing_count e) (chans e) (groups e) (nums e) (gate e) (notes e) (profiles e) (g (merges e))
    (next_dry_run_id e) (logo_cache e) (guide e).
Definition on_next_dry_run_id (g : Z -> Z) (e : Executor) : Executor :=
  MkExecutor (existing_count e) (chans e) (groups e) (nums e) (gate e) (notes e) (profiles e) (merges e) (g
    (next_dry_run_id e)) (logo_cache e) (guide e).
Definition on_logo_cache (g : gmap string (option Z) -> gmap string (option Z)) (e : Executor) : Executor :=
  MkExecutor (existing_count e) (chans e) (groups e) (nums e) (gate e) (notes e) (profiles e) (merges e)
    (next_dry_run_id e) (g (logo_cache e)) (guide e).

Definition on_guide (g : Guide -> Guide) (e : Executor) : Executor :=
  MkExecutor (existing_count e) (chans e) (groups e) (nums e) (gate e) (notes e) (profiles e) (merges e)
    (next_dry_run_id e) (logo_cache e) (g (guide e)).
Definition on_epg_data (g : gmap Z (list epg_entry) -> gmap Z (list epg_entry)) (c : Guide) : Guide :=
  MkGuide (g (epg_data_by_source c)) (dummy_sources c) (deferred c) (verifications c).
Definition on_deferred (g : list (Z * epg_params * stream) -> list (Z * epg_params * stream)) (c : Guide) : Guide :=
  MkGuide (epg_data_by_source c) (dummy_sources c) (g (deferred c)) (verifications c).
Definition on_verifications (g : list (Z * list (string * pyval)) -> list (Z * list (string * pyval))) (c : Guide) : Guide :=
  MkGuide (epg_data_by_source c) (dummy_sources c) (deferred c) (g (verifications c)).

Record state (W : Type) := State { exec : Executor; ctx : ExecutionContext; world : W }.
Arguments State {W} _ _ _.
Arguments exec {W} _.
Arguments ctx {W} _.
Arguments world {W} _.

(** *** Computations *)

(** [try: m finally: after] *)
Definition always {S A} (m : M S A) (after : M S unit) : M S A :=
  fun s => let '(r, s) := m s in let '(_, s) := after s in (r, s).

Section computations.
Context {W : Type} `{!Environment W}.

(** A call, the executor and the context as they are. *)
Definition api {A} (c : call A) : M (state W) A :=
  fun s => let '(r, w) := perform c (world s) in (r, State (exec s) (ctx s) w).
Definition on_exec (g : Executor -> Executor) : M (state W) unit := modify (fun s => State (g (exec s)) (ctx s) (world s)).
Definition on_ctx (g : ExecutionContext -> ExecutionContext) : M (state W) unit :=
  modify (fun s => State (exec s) (g (ctx s)) (world s)).
Definition executor : M (state W) Executor := gets exec.
Definition context : M (state W) ExecutionContext := gets ctx.

Definition on_channel (place : nat) (g : channel -> channel) : M (state W) unit :=
  on_exec (on_chans (on_heap (alter g place))).
End computations.

End ExecutorTypes.
