(* ===== verification/ExecutorIndex.v ===== *)
(** * The channels the executor knows, and how it finds them
    ([channel_pipeline_executor.py]: the constructor's indexes, the two lookups by name and
    the gates every candidate passes).

    A channel is found through a place in the heap.  A lookup tries, per index, the single
    slot and then every other candidate of the key; each must be in scope and, unless the rule
    opted in, not hand-built. *)
From S2P Require Import Prelude PyFloat PyValue PyText PyDict PyState ChannelNumber DatePlaceholders.
From S2P Require Import NameNormalizer NumberAllocation GuideMatch ExecutorTypes.
From stdpp Require Import list gmap strings.
Open Scope Z_scope.
Open Scope py_scope.

Module ExecutorIndex.
Import DatePlaceholders GuideMatch ExecutorTypes.

(** ** Keys *)

(** [fold_match_key] ([match_fold.py]): no whitespace, one case. *)
Definition fold_match_key (name : string) : string := lower (s_filter (fun c => negb (is_space c)) name).

(** [re.sub(r'^\d+\s*\|\s*', '', name)] *)
Definition strip_number_prefix (name : string) : string :=
  match span is_decimal name with
  | (EmptyString, _) => name
  | (_, rest) =>
      match skip_spaces rest with
      | String c rest => if bool_decide (c = "|"%char) then skip_spaces rest else name
      | EmptyString => name
      end
  end.

(** [re.sub(r'\(([^)]+)\)', r'\1', text)], one parenthesis after another. *)
Fixpoint open_parens (fuel : nat) (s : string) : string :=
  match fuel, s with
  | S fuel, String c rest =>
      if bool_decide (c = "("%char) then
        match span (fun d => negb (bool_decide (d = ")"%char))) rest with
        | (String d inner, String _ rest') => String d inner +:+ open_parens fuel rest'
        | _ => String c (open_parens fuel rest)
        end
      else String c (open_parens fuel rest)
  | _, _ => s
  end.
Definition deparenthesized (key : string) : string := NameNormalizer.clean (open_parens (String.length key) key).

(** ** Building the indexes *)

(** [_add_candidate]: no place twice under one key, no empty key. *)
Definition _add_candidate (m : gmap string (list nat)) (key : string) (place : nat) : gmap string (list nat) :=
  match key with
  | EmptyString => m
  | _ => let places := default [] (m !! key) in
         if bool_decide (place ∈ places) then m else <[key := places ++ [place]]> m
  end.

(** [m.setdefault(key, place)] *)
Definition setdefault {V} (key : string) (v : V) (m : gmap string V) : gmap string V :=
  match m !! key with Some _ => m | None => <[key := v]> m end.

(** First seen keeps the slot. *)
Definition first_seen (key : string) (place : nat) (s : slots) : slots :=
  Slots (setdefault key place (slot s)) (_add_candidate (candidates s) key place).
(** Last seen takes it. *)
Definition last_seen (key : string) (place : nat) (s : slots) : slots :=
  Slots (<[key := place]> (slot s)) (_add_candidate (candidates s) key place).
Definition no_slots : slots := Slots ∅ ∅.

(** [for c in self.existing_channels: ...] over the places. *)
Definition index_by (step : nat -> channel -> slots -> slots) (channels : list channel) : slots :=
  foldl (fun s p => step p.1 p.2 s) no_slots (imap pair channels).

Definition index_names : list channel -> slots := index_by (fun p c => last_seen (lower (c_name c)) p).

Definition index_base_names : list channel -> slots :=
  index_by (fun p c s =>
    let stripped := strip_number_prefix (c_name c) in
    if bool_decide (stripped = c_name c) then s else first_seen (lower stripped) p s).

Definition index_folded : list channel -> slots :=
  index_by (fun p c s =>
    let stripped := strip_number_prefix (c_name c) in
    let s := first_seen (fold_match_key (c_name c)) p s in
    if bool_decide (stripped = c_name c) then s else first_seen (fold_match_key stripped) p s).

Definition index_normalized (e : option Engine) : list channel -> slots :=
  index_by (fun p c s =>
    let stripped := strip_number_prefix (c_name c) in
    match e with
    | Some e =>
        match normalize e stripped None with
        | Ok n => if bool_decide (n = EmptyString) || bool_decide (lower n = lower stripped) then s
                  else first_seen (lower n) p s
        | Raise _ => s
        end
    | None => s
    end).

(** The variants without parentheses are indexed after the names themselves. *)
Definition add_deparenthesized (s : slots) : slots :=
  let both {V} (m : gmap string V) (add : string -> V -> gmap string V -> gmap string V) :=
    foldl (fun acc '(key, v) =>
      let bare := deparenthesized key in if bool_decide (bare = key) then acc else add bare v acc)
      m (map_to_list m) in
  Slots (both (slot s) setdefault)
    (both (candidates s) (fun key places m => foldl (fun m p => _add_candidate m key p) m places)).

Definition index_core_names (e : option Engine) (channels : list channel) : slots :=
  add_deparenthesized (index_by (fun p c s =>
    match e with
    | Some e =>
        match extract_core_name e (strip_number_prefix (c_name c)) with
        | Ok EmptyString | Raise _ => s
        | Ok core => first_seen (lower core) p s
        end
    | None => s
    end) channels).

Definition index_call_signs (e : option Engine) (channels : list channel) : gmap string nat :=
  foldl (fun m p =>
    match e with
    | Some e => match extract_call_sign e (c_name p.2) with
                | Ok (Some (String c s)) => setdefault (String c s) p.1 m
                | _ => m
                end
    | None => m
    end) ∅ (imap pair channels).

Definition new_channels (e : option Engine) (channels : list channel) : Channels :=
  Chans channels
    (foldl (fun m p => <[c_id p.2 := p.1]> m) ∅ (imap pair channels))
    [] (index_base_names channels) (index_names channels) (index_normalized e channels)
    (index_core_names e channels) (index_folded channels) (index_call_signs e channels).

(** The guide entries by source (each with the source it names), and the dummy sources: those
    whose URL is the program's own. *)
Record epg_source := EpgSource { source_id : Z; source_url : string }.
Definition by_source (data : list (option Z * epg_entry)) : gmap Z (list epg_entry) :=
  foldl (fun m '(source, e) =>
    match source with Some z => <[z := default [] (m !! z) ++ [e]]> m | None => m end) ∅ data.
Definition is_dummy (s : epg_source) : bool := contains "/api/dummy-epg/xmltv" (source_url s).
Definition new_guide (epg_data : list (option Z * epg_entry)) (epg_sources : list epg_source) : Guide :=
  MkGuide (by_source epg_data) (list_to_set (map source_id (List.filter is_dummy epg_sources))) [] [].

(** [ActionExecutor(client, existing_channels, existing_groups, ...)] *)
Definition new_executor (e : option Engine) (channels : list channel) (existing_groups : list group)
    (members : option (gmap Z (gset Z))) (managed_channel_ids : list Z) (guide_data : Guide) : Executor :=
  MkExecutor (List.length channels) (new_channels e channels)
    (Grps (foldl (fun m g => <[g_id g := g_name g]> m) ∅ existing_groups)
       (foldl (fun m g => <[lower (g_name g) := g]> m) ∅ existing_groups) [])
    (Nums (initially_used (map c_number channels)) ∅)
    (MkGate (list_to_set managed_channel_ids) None ∅)
    (MkNotes None ∅ [])
    (MkProfiles members (list_to_set (map c_id channels)))
    (MkMerges ∅ ∅ ∅ ∅) (-1) ∅ guide_data.

(** ** The gates *)

Definition at_place (x : Executor) (place : nat) : option channel := heap (chans x) !! place.

Definition _is_manual_channel (x : Executor) (ch : channel) : bool :=
  negb (c_auto_created ch) && negb (bool_decide (c_id ch ∈ managed (gate x))).

(** What a lookup asks of its candidates. *)
Record lookup := Lookup { scope_group_id : option Z; block_manual : bool }.

Definition scope_allows (q : lookup) (ch : channel) : bool :=
  match scope_group_id q with None => true | Some g => bool_decide (c_group ch = Some g) end.
Definition manual_allows (q : lookup) (x : Executor) (ch : channel) : bool :=
  negb (block_manual q && _is_manual_channel x ch).

(** [_in_scope], which remembers the hand-built channel it turned away. *)
Definition _in_scope (q : lookup) (x : Executor) (place : option nat) (blocked : option nat) : bool * option nat :=
  match place with
  | None => (false, blocked)
  | Some p =>
      match at_place x p with
      | None => (false, blocked)
      | Some ch =>
          if negb (scope_allows q ch) then (false, blocked)
          else if negb (manual_allows q x ch) then (false, Some p)
          else (true, blocked)
      end
  end.

(** [for cand in candidates: if cand is not primary and _in_scope(cand): return cand] *)
Fixpoint scan (q : lookup) (x : Executor) (primary : option nat) (places : list nat) (blocked : option nat) :
    option nat * option nat :=
  match places with
  | [] => (None, blocked)
  | p :: places =>
      if bool_decide (primary = Some p) then scan q x primary places blocked
      else let '(ok, blocked) := _in_scope q x (Some p) blocked in
           if ok : bool then (Some p, blocked) else scan q x primary places blocked
  end.

Definition _pick (q : lookup) (x : Executor) (primary : option nat) (places : list nat) (blocked : option nat) :
    option nat * option nat :=
  let '(ok, blocked) := _in_scope q x primary blocked in
  if ok : bool then (primary, blocked) else scan q x primary places blocked.

(** [d.get(key)] of a dict in insertion order. *)
Definition find_key {V} (key : string) (d : list (string * V)) : option V := d_get key d.

Definition pick_from (q : lookup) (x : Executor) (key : string) (s : slots) :=
  _pick q x (slot s !! key) (default [] (candidates s !! key)).

(** The stages of a lookup, tried until one answers. *)
Definition stage : Type := option nat -> option nat * option nat.
Fixpoint stages (l : list stage) (blocked : option nat) : option nat * option nat :=
  match l with
  | [] => (None, blocked)
  | f :: l => match f blocked with
              | (Some p, blocked) => (Some p, blocked)
              | (None, blocked) => stages l blocked
              end
  end.

(** [(text or "").strip().lower()], [""] when the engine raised. *)
Definition engine_key (r : result exc string) : string :=
  match r with Ok t => lower (strip t) | Raise _ => EmptyString end.

Definition or_else {A} (a b : option A) : option A := match a with Some _ => a | None => b end.
Definition listed (key : string) (s : slots) : list nat := default [] (candidates s !! key).

(** The two fallbacks of a name that is indexed nowhere. *)
Definition fuzzy_stages (e : Engine) (q : lookup) (x : Executor) (name : string) : list stage :=
  let c := chans x in
  let key := lower name in
  let normalized := engine_key (normalize e name None) in
  let core := engine_key (extract_core_name e name) in
  (if bool_decide (normalized = EmptyString) || bool_decide (normalized = key) then []
   else [_pick q x
           (or_else (slot (names c) !! normalized) (or_else (slot (base_names c) !! normalized)
             (or_else (slot (normalized_names c) !! normalized) (slot (core_names c) !! normalized))))
           (listed normalized (names c) ++ listed normalized (base_names c) ++
            listed normalized (normalized_names c) ++ listed normalized (core_names c))]) ++
  (if bool_decide (core = EmptyString) || bool_decide (core = key) then []
   else [pick_from q x core (core_names c)]).

Definition _find_channel_by_name (e : option Engine) (x : Executor) (name : string) (q : lookup)
    (exact_only fold_key : bool) : option nat * option nat :=
  let c := chans x in
  let key := lower name in
  let folded_key := fold_match_key name in
  stages
    ([fun blocked => let created := find_key key (created_by_name c) in
                     let '(ok, blocked) := _in_scope q x created blocked in
                     (if ok : bool then created else None, blocked);
      pick_from q x key (base_names c);
      pick_from q x key (names c);
      pick_from q x key (normalized_names c)] ++
     match e with
     | Some e => if exact_only then [] else fuzzy_stages e q x name
     | None => []
     end ++
     (if fold_key && negb (bool_decide (folded_key = EmptyString)) then [pick_from q x folded_key (folded c)] else []))
    None.

(** [_find_unique_channel_by_exact_identity]: the one eligible channel among all that carry
    the key, by id; none when there are several.  The marker is not reset here. *)
Fixpoint eligible (q : lookup) (x : Executor) (places : list nat) (seen : gset Z) (blocked : option nat) :
    list nat * option nat :=
  match places with
  | [] => ([], blocked)
  | p :: places =>
      match at_place x p with
      | None => eligible q x places seen blocked
      | Some ch =>
          if bool_decide (c_id ch ∈ seen) then eligible q x places seen blocked
          else
            let '(ok, blocked) := _in_scope q x (Some p) blocked in
            let '(rest, blocked) := eligible q x places ({[ c_id ch ]} ∪ seen) blocked in
            ((if ok : bool then [p] else []) ++ rest, blocked)
      end
  end.

Definition _find_unique_channel_by_exact_identity (x : Executor) (name : string) (q : lookup) :
    option nat * option nat :=
  let c := chans x in
  let key := lower name in
  let places := match find_key key (created_by_name c) with Some p => [p] | None => [] end ++
                listed key (base_names c) ++ listed key (names c) ++ listed key (normalized_names c) in
  match eligible q x places ∅ (last_manual_block (gate x)) with
  | ([p], blocked) => (Some p, blocked)
  | (_, blocked) => (None, blocked)
  end.

(** [_find_channel_by_tvg_id]: the first existing channel with the id, then the created. *)
Definition _find_channel_by_tvg_id (x : Executor) (tvg : string) : option nat :=
  let has p := match at_place x p with Some ch => bool_decide (c_tvg_id ch = Some tvg) | None => false end in
  match tvg with
  | EmptyString => None
  | _ => List.find has (seq 0 (existing_count x) ++ map snd (created_by_name (chans x)))
  end.

(** [_find_channel_by_regex]; an oversize or invalid pattern finds nothing. *)
Definition _find_channel_by_regex {W} `{!Environment W} (x : Executor) (pattern : string) : option nat :=
  if (NameNormalizer.DEFAULT_MAX_PATTERN_LEN <? String.length pattern)%nat then None
  else
    let has p := match at_place x p with Some ch => regex_search pattern (c_name ch) | None => false end in
    List.find has (seq 0 (existing_count x) ++ map snd (created_by_name (chans x))).

(** ** Groups *)

Definition _find_group_by_name (x : Executor) (name : string) : option group :=
  match find_key (lower name) (created_groups (groups x)) with
  | Some g => Some g
  | None => group_by_name (groups x) !! lower name
  end.

(** The name of a group id, [None] for no id or [0]. *)
Definition _get_group_name (x : Executor) (id : option Z) : option string :=
  match id with
  | None | Some 0 => None
  | Some g =>
      match group_by_id (groups x) !! g with
      | Some n => Some n
      | None => match List.find (fun p => bool_decide (g_id p.2 = g)) (created_groups (groups x)) with
                | Some p => Some (g_name p.2)
                | None => None
                end
      end
  end.

(** ** Channels by id *)

Definition truthy_id (o : option Z) : option Z := match o with Some 0 => None | _ => o end.

Definition by_channel_id (x : Executor) (id : Z) : option (nat * channel) :=
  place ← by_id (chans x) !! id; ch ← at_place x place; Some (place, ch).

End ExecutorIndex.
