(* ===== verification/ProfileMembership.v ===== *)
(** * Exclusive channel-profile membership ([channel_pipeline_executor.py]).

    A channel is put in exactly the selected profiles by flipping the profiles whose state
    differs, one call each; a failed flip is reported and leaves that profile as it was. *)
From S2P Require Import Prelude PyFloat PyValue PyText PyDict PyState ExecutorTypes.
From stdpp Require Import list gmap strings.
Open Scope Z_scope.
Open Scope py_scope.

Module ProfileMembership.
Import ExecutorTypes.

(** [ProfileMembershipResult] *)
Record reconciliation := Reconciled { enabled_count : nat; disabled_count : nat; failed_profile_ids : list Z }.
Definition changed (r : reconciliation) : bool := negb (enabled_count r + disabled_count r =? 0)%nat.

(** [list(dict.fromkeys(l))] *)
Fixpoint dedup (seen : list Z) (l : list Z) : list Z :=
  match l with
  | [] => []
  | x :: l => if bool_decide (x ∈ seen) then dedup seen l else x :: dedup (x :: seen) l
  end.

Section membership.
Context {W : Type} `{!Environment W}.

Definition universe : list Z := default [] all_profile_ids.

Definition _current_profile_membership (p : Profiles) (channel_id : Z) : gset Z :=
  match membership p with
  | None => ∅
  | Some m =>
      match m !! channel_id with
      | Some s => s
      | None => if bool_decide (channel_id ∈ run_start p) then ∅ else list_to_set universe
      end
  end.

(** The profiles to enable and to disable. *)
Definition _profile_flip_plan (p : Profiles) (channel_id : Z) (selected_ids : list Z) : list Z * list Z :=
  let ordered_ids := dedup [] (universe ++ selected_ids) in
  let desired pid := bool_decide (pid ∈ selected_ids) in
  match membership p with
  | None => (List.filter desired ordered_ids, List.filter (fun pid => negb (desired pid)) ordered_ids)
  | Some _ =>
      let now pid := bool_decide (pid ∈ _current_profile_membership p channel_id) in
      (List.filter (fun pid => desired pid && negb (now pid)) ordered_ids,
       List.filter (fun pid => negb (desired pid) && now pid) ordered_ids)
  end.

(** The flips one after the other: what was reached, and the membership after the ones that
    succeeded. *)
Fixpoint flip_all (channel_id : Z) (flips : list (Z * bool)) (current : gset Z) (r : reconciliation) :
    M (state W) (reconciliation * gset Z) :=
  match flips with
  | [] => ret (r, current)
  | (pid, enable) :: flips =>
      do! outcome := attempt (api (UpdateProfileChannel pid channel_id enable)) in
      match outcome with
      | Ok _ =>
          if enable : bool
          then flip_all channel_id flips ({[ pid ]} ∪ current)
                 (Reconciled (S (enabled_count r)) (disabled_count r) (failed_profile_ids r))
          else flip_all channel_id flips (current ∖ {[ pid ]})
                 (Reconciled (enabled_count r) (S (disabled_count r)) (failed_profile_ids r))
      | Raise _ =>
          flip_all channel_id flips current
            (Reconciled (enabled_count r) (disabled_count r) (failed_profile_ids r ++ [pid]))
      end
  end.

Definition remember (channel_id : Z) (current : gset Z) (p : Profiles) : Profiles :=
  match membership p with
  | None => p
  | Some m => MkProfiles (Some (<[channel_id := current]> m)) ({[ channel_id ]} ∪ run_start p)
  end.

Definition _apply_exclusive_profile_membership (channel_id : Z) (selected_ids : list Z) : M (state W) reconciliation :=
  do! x := executor in
  let '(enable_pids, disable_pids) := _profile_flip_plan (profiles x) channel_id selected_ids in
  do! r := flip_all channel_id (map (fun p => (p, true)) enable_pids ++ map (fun p => (p, false)) disable_pids)
             (_current_profile_membership (profiles x) channel_id) (Reconciled 0 0 []) in
  on_exec (on_profiles (remember channel_id r.2));;
  ret r.1.

(** The description of the result, [""] when nothing is configured or nothing flipped. *)
Definition _assign_default_profiles (channel_id : Z) : M (state W) string :=
  match settings, all_profile_ids with
  | Some st, Some (_ :: _) =>
      match default_channel_profile_ids st with
      | [] => ret ""
      | ids =>
          do! r := _apply_exclusive_profile_membership channel_id ids in
          (match failed_profile_ids r with
           | [] => ret tt
           | failed => on_ctx (on_default_profile_failures (fun l => l ++ [(channel_id, failed)]))
           end);;
          ret (if changed r then
                 "profiles: enabled in " +:+ str_of_Z (Z.of_nat (enabled_count r)) +:+
                 ", disabled in " +:+ str_of_Z (Z.of_nat (disabled_count r))
               else "")
      end
  | _, _ => ret ""
  end.

End membership.
End ProfileMembership.
