(* ===== verification/ExecutorActions.v ===== *)
(** * The pipeline executor's actions ([channel_pipeline_executor.py]).

    Creating a channel (or merging into, updating, renaming, skipping the one that exists),
    creating a group, numbering a channel, moving a stream within or out of its channel, and
    the accounting every action's result passes through.  A dry run takes the same decisions
    on simulated objects and makes no call that writes.  Dashes and arrows of the texts are
    written in ASCII. *)
From S2P Require Import Prelude PyFloat PyValue PyText PyDict PyState ChannelNumber DatePlaceholders.
From S2P Require Import NameNormalizer NumberAllocation ExecutorTypes ExecutorIndex ProfileMembership.
From stdpp Require Import list gmap strings.
Open Scope Z_scope.
Open Scope py_scope.

Module ExecutorActions.
Import DatePlaceholders ExecutorTypes ExecutorIndex ProfileMembership.

(** ** Parameters *)

(** A [create_channel] action's parameters as the rule schema leaves them. *)
Record create_params := CreateParams {
  p_name_template : string;
  p_transform_pattern : option string;
  p_transform_replacement : string;
  p_if_exists : string;
  p_group_id : option Z;
  p_channel_number : pyval }.

(** What a rule adds to each of its actions. *)
Record rule_options := Options {
  rule_target_group_id : option Z;
  normalization_group_ids : list Z;
  match_scope_target_group : bool;
  rule_scope_group_id : option Z;
  allow_manual_channel_merge : bool;
  fold_key : bool }.

(** [a or b] of ids. *)
Definition or_id (a b : option Z) : option Z := match a with None | Some 0 => b | _ => a end.

Definition quoted (s : string) : string := "'" +:+ s +:+ "'".
Definition id_text (o : option Z) : string := match o with Some z => str_of_Z z | None => "None" end.
Definition null_id (o : option Z) : pyval := match o with Some z => PInt z | None => PNone end.
Definition has_text (o : option string) : bool := match o with Some (String _ _) => true | _ => false end.

(** [str(number)] *)
Definition number_text (n : pyval) : string :=
  match n with PInt z => str_of_Z z | PFloat f => str_of_float f | _ => "None" end.

(** The exceptions of the allocator. *)
Definition exc_of (e : alloc_error) : exc :=
  match e with
  | Contract ChannelNumber.OverflowError => Exc Other "OverflowError" "integer division result too large for a float"
  | Contract _ => Exc Other "InvalidChannelNumberError" "invalid channel number"
  | RuntimeError => Exc Other "RuntimeError" "the tenths grid cannot be walked"
  | ValueError => Exc Other "ValueError" "Exceeds the limit for integer string conversion"
  | OutOfFuel => Exc Other "OutOfFuel" ""
  end.

(** ** Templates *)

(** [str(value) if value else ""] *)
Definition template_value (v : pyval) : string :=
  if truthy v then match v with PStr s => s | PInt z => str_of_Z z | _ => "" end else "".

Definition expand_pairs (pairs : list (string * pyval)) (text : string) : string :=
  fold_left (fun text p =>
    let placeholder := "{" +:+ p.1 +:+ "}" in
    if contains placeholder text then py_replace placeholder (template_value p.2) text else text) pairs text.

(** [TemplateVariables.expand_template] *)
Definition expand_template (template : string) (context : list (string * pyval)) (custom : list (string * pyval)) : string :=
  strip (expand_pairs (map (fun p => ("var:" +:+ p.1, p.2)) custom) (expand_pairs context template)).

(** The quality a height stands for. *)
Definition quality_of (height : option Z) : string :=
  match height with
  | None | Some 0 => ""
  | Some h => if 2160 <=? h then "4K" else if 1080 <=? h then "1080p" else if 720 <=? h then "720p"
              else if 480 <=? h then "480p" else str_of_Z h +:+ "p"
  end.

Section actions.
Context {W : Type} `{!Environment W}.

(** The stream's name under the rule's normalization groups. *)
Definition template_name (st : stream) (groups : list Z) : string :=
  let raw := stream_name st in
  let or_raw o := match o with Some (String c s) => String c s | _ => raw end in
  if has_text (normalized_name st) then or_raw (normalized_name st)
  else match groups, engine with
  | _ :: _, Some e => match normalize e raw (Some groups) with Ok n => or_raw (Some n) | Raise _ => raw end
  | _, _ => raw
  end.

Definition _build_template_context (st : stream) (c : ExecutionContext) (groups : list Z) : list (string * pyval) :=
  let text o := PStr (default "" o) in
  [("stream_name", PStr (stream_name st)); ("stream_group", text (group_name st)); ("tvg_id", text (tvg_id st));
   ("tvg_name", text (tvg_name st)); ("quality", PStr (quality_of (resolution_height st)));
   ("quality_raw", match resolution_height st with None | Some 0 => PStr "" | Some h => PInt h end);
   ("provider", text (m3u_account_name st));
   ("provider_id", match m3u_account_id st with None | Some 0 => PStr "" | Some a => PInt a end);
   ("normalized_name", PStr (template_name st groups))] ++
  map (fun p => ("var:" +:+ p.1, p.2)) (custom_variables c).

(** ** The journal *)

Definition _journal_flush_threshold : nat := 100.

Definition _flush_journal_buffer : M (state W) unit :=
  if plan_only then on_exec (on_notes (on_journal (fun _ => [])))
  else
    do! x := executor in
    match journal (notes x) with
    | [] => ret tt
    | pending =>
        do! kept := api (LogEntries pending) in
        if kept : bool then on_exec (on_notes (on_journal (fun _ => []))) else ret tt
    end.

(** Append, and flush a full buffer. *)
Definition note_entry (e : string -> journal_entry) : M (state W) unit :=
  match execution_id with
  | None => ret tt
  | Some id =>
      on_exec (on_notes (on_journal (fun l => l ++ [e (str_of_Z id)])));;
      do! x := executor in
      if (_journal_flush_threshold <=? List.length (journal (notes x)))%nat then _flush_journal_buffer else ret tt
  end.

Definition _journal_manual_channel_adoption (ch : channel) (st : stream) (type : string) : M (state W) unit :=
  note_entry (JournalEntry "auto_creation" "manual_channel_adopted" (Some (c_id ch)) (Some (c_name ch))
    ("Auto-creation adopted MANUAL channel " +:+ quoted (c_name ch) +:+ " (id=" +:+ str_of_Z (c_id ch) +:+
     ") as merge target for stream " +:+ quoted (stream_name st) +:+ " (allow_manual_channel_merge=True)")
    (PDict [("auto_created", PBool false); ("action_type", PStr type)])
    (PDict [("stream_id", PInt (stream_id st))])).

Definition _journal_manual_channel_block (ch : channel) (st : stream) (type : string) : M (state W) unit :=
  do! x := executor in
  if match execution_id with None => true | _ => false end || bool_decide (c_id ch ∈ journaled_blocks (gate x)) then ret tt
  else
    on_exec (on_gate (on_journaled_blocks (fun s => {[ c_id ch ]} ∪ s)));;
    note_entry (JournalEntry "auto_creation" "manual_channel_merge_blocked" (Some (c_id ch)) (Some (c_name ch))
      ("Auto-creation matched MANUAL channel " +:+ quoted (c_name ch) +:+ " (id=" +:+ str_of_Z (c_id ch) +:+
       ") as merge target for stream " +:+ quoted (stream_name st) +:+
       " but allow_manual_channel_merge is off - treated as not found (the rule may create a new auto channel instead; " +:+
       "enable allow_manual_channel_merge on the rule to merge into hand-built channels)")
      (PDict [("auto_created", PBool false); ("action_type", PStr type)])
      (PDict [("stream_id", PInt (stream_id st)); ("blocked", PBool true)])).

Definition ids_value (ids : list Z) : pyval := PList (map PInt ids).

Definition _journal_merge (ch_id : Z) (ch_name : string) (st : stream) (before after : list Z)
    (provenance : option pyval) : M (state W) unit :=
  note_entry (JournalEntry "auto_creation" "merge_stream" (Some ch_id) (Some ch_name)
    ((match stream_name st with
      | EmptyString => "Merged stream " +:+ str_of_Z (stream_id st)
      | name => "Merged stream " +:+ quoted name +:+ " (id " +:+ str_of_Z (stream_id st) +:+ ")"
      end) +:+ " into channel " +:+ quoted ch_name)
    (PDict [("stream_ids", ids_value before)]) (PDict ([("stream_ids", ids_value after)] ++
      match provenance with Some v => if truthy v then [("match", v)] else [] | None => [] end))).

(** ** Names *)

Definition _journal_name_transform_failure (pattern replacement : string) (f : SubFailure) : M (state W) unit :=
  do! x := executor in
  let key := (pattern, replacement, f_kind f) in
  if match execution_id with None => true | _ => false end || bool_decide (key ∈ journaled_transforms (notes x)) then ret tt
  else
    on_exec (on_notes (on_journaled_transforms (fun s => {[ key ]} ∪ s)));;
    note_entry (JournalEntry "auto_creation" "name_transform_failed" None (Some pattern)
      ("Name transform failed during auto-creation run (" +:+ f_kind f +:+ "): " +:+ f_message f +:+ " - pattern /" +:+
       pattern +:+ "/ with replacement " +:+ quoted replacement +:+ "; affected stream names were left untransformed")
      (PDict [("pattern", PStr pattern); ("replacement", PStr replacement); ("failure_kind", PStr (f_kind f))]) PNone).

(** [safe_regex.sub] with its failure. *)
Definition safe_sub (pattern replacement text : string) : result SubFailure string :=
  if (NameNormalizer.DEFAULT_MAX_PATTERN_LEN <? String.length pattern)%nat then
    Raise (Failure "oversize" ("pattern length " +:+ str_of_Z (Z.of_nat (String.length pattern)) +:+
                               " exceeds max_pattern_len=500"))
  else regex_sub pattern replacement text.

Definition set_transform_error (o : option string) : M (state W) unit :=
  on_exec (on_notes (on_last_transform_error (fun _ => o))).

Definition _apply_name_transform (name : string) (pattern : option string) (replacement : string) : M (state W) string :=
  set_transform_error None;;
  match pattern with
  | Some (String c pat) =>
      let p := String c pat in
      match safe_sub p (NameNormalizer.backreferences replacement) name with
      | Ok name => ret (strip name)
      | Raise f =>
          let hint := if bool_decide (f_kind f = "template")
            then " - check that every $N in the replacement matches a capture group in the pattern" else "" in
          set_transform_error (Some ("Name transform failed (" +:+ f_kind f +:+ "): " +:+ f_message f +:+ hint +:+
            ". Pattern /" +:+ p +:+ "/ with replacement " +:+ quoted replacement +:+ " left " +:+ quoted name +:+ " unchanged."));;
          _journal_name_transform_failure p replacement f;;
          ret (strip name)
      end
  | _ => ret (strip name)
  end.

(** [^\d+(?:\.\d+)?\s*[|\-:]\s*] *)
Definition strip_any_prefix (name : string) : string :=
  match decimal_run name with
  | None => name
  | Some (_, rest) =>
      match skip_spaces rest with
      | String c rest => if bool_decide (c ∈ ["|"%char; "-"%char; ":"%char]) then skip_spaces rest else name
      | EmptyString => name
      end
  end.

(** [int(n)] when it is [n]. *)
Definition whole_text (n : pyval) : string :=
  match n with
  | PFloat f => if Float.is_integer f then str_of_Z (Float.trunc f) else str_of_float f
  | _ => number_text n
  end.

Definition _apply_channel_number_in_name (channel_name : string) (channel_number : pyval) : string :=
  match settings with
  | Some st =>
      if include_channel_number_in_name st then
        let separator := match channel_number_separator st with EmptyString => "-" | s => s end in
        let stripped := match strip (strip_any_prefix channel_name) with EmptyString => channel_name | s => s end in
        whole_text channel_number +:+ " " +:+ separator +:+ " " +:+ stripped
      else channel_name
  | None => channel_name
  end.

(** ** Logos *)

Fixpoint last_segment (s acc : string) : string :=
  match s with
  | EmptyString => acc
  | String c rest => last_segment rest (if bool_decide (c = "/"%char) then EmptyString else acc +:+ String c EmptyString)
  end.

Definition remember_logo (url : string) (id : option Z) : M (state W) unit :=
  on_exec (on_logo_cache (fun m => <[url := id]> m)).

Definition _resolve_logo_id (logo_url name_hint : string) : M (state W) (option Z) :=
  match logo_url with
  | EmptyString => ret None
  | _ =>
      do! x := executor in
      match logo_cache x !! logo_url with
      | Some id => ret id
      | None =>
          let logo_name := match name_hint with EmptyString => last_segment logo_url "" | h => h end in
          do! r := attempt (api (CreateLogo logo_name logo_url)) in
          match r with
          | Ok (Some (Zpos p)) => remember_logo logo_url (Some (Zpos p));; ret (Some (Zpos p))
          | Ok _ => ret None
          | Raise e =>
              let error_str := lower (exc_text e) in
              if contains "already exists" error_str || contains "400" error_str then
                try_except
                  (do! existing := api (FindLogoByUrl logo_url) in
                   match existing with
                   | Some id => remember_logo logo_url id;; ret id
                   | None => ret None
                   end)
                  (fun _ => ret None)
              else ret None
          end
      end
  end.

(** ** Channels that exist *)

Definition track_m3u_count (ch_id : Z) (st : stream) : M (state W) unit :=
  match m3u_account_id st with
  | None => ret tt
  | Some account =>
      on_exec (on_merges (on_m3u_counts (fun m => <[(ch_id, account) := S (default 0%nat (m !! (ch_id, account)))]> m)))
  end.

Definition select_channel (id : Z) : M (state W) unit := on_ctx (on_current_channel_id (fun _ => Some id)).

Definition _add_stream_to_channel (place : nat) (ch : channel) (st : stream) (provenance : option pyval) :
    M (state W) ActionResult :=
  let streams := current_streams ch in
  let here r := about "channel" (Some (c_id ch)) (Some (c_name ch)) r in
  let count := Z.of_nat (List.length streams) in
  let after := streams ++ [stream_id st] in
  if bool_decide (stream_id st ∈ streams) then
    select_channel (c_id ch);;
    ret (skipping (here (plain true "merge_stream"
      ("Stream already in channel " +:+ quoted (c_name ch) +:+ " (" +:+ str_of_Z count +:+ " streams)"))))
  else
    do! c := context in
    if dry_run c then
      on_channel place (set_streams after);;
      track_m3u_count (c_id ch) st;;
      select_channel (c_id ch);;
      ret (modifying true None (here (plain true "merge_stream"
        ("Would add stream to channel " +:+ quoted (c_name ch) +:+ " (stream " +:+ str_of_Z (count + 1) +:+ ")"))))
    else
      try_except
        (api (UpdateChannel (c_id ch) [("streams", ids_value after)]);;
         on_channel place (set_streams after);;
         track_m3u_count (c_id ch) st;;
         select_channel (c_id ch);;
         _journal_merge (c_id ch) (c_name ch) st streams after provenance;;
         ret (modifying true (Some [("streams", ids_value streams)]) (here (plain true "merge_stream"
           ("Added stream to channel " +:+ quoted (c_name ch) +:+ " (stream " +:+ str_of_Z (count + 1) +:+ ")")))))
        (fun e => ret (failed_with (exc_text e) (plain false "merge_stream" "Failed to add stream to channel"))).

Definition text_value (o : option string) : pyval := match o with Some s => PStr s | None => PNone end.

Definition _update_channel (place : nat) (ch : channel) (st : stream) : M (state W) ActionResult :=
  let here r := about "channel" (Some (c_id ch)) (Some (c_name ch)) r in
  select_channel (c_id ch);;
  do! c := context in
  if dry_run c then
    ret (modifying true None (here (plain true "update_channel" ("Would update channel " +:+ quoted (c_name ch)))))
  else
    let logo := has_text (logo_url st) && negb (has_text (c_logo_url ch)) in
    let tvg := has_text (tvg_id st) && negb (has_text (c_tvg_id ch)) in
    let updates := (if logo then [("logo_url", text_value (logo_url st))] else []) ++
                   (if tvg then [("tvg_id", text_value (tvg_id st))] else []) in
    try_except
      ((if logo || tvg then
          api (UpdateChannel (c_id ch) updates);;
          on_channel place (set_guide (if logo then logo_url st else c_logo_url ch) (if tvg then tvg_id st else c_tvg_id ch))
        else ret tt);;
       ret (modifying (logo || tvg) (Some [("logo_url", text_value (c_logo_url ch)); ("tvg_id", text_value (c_tvg_id ch))])
         (here (plain true "update_channel" ("Updated channel " +:+ quoted (c_name ch))))))
      (fun e => ret (failed_with (exc_text e) (plain false "update_channel" "Failed to update channel"))).

(** The indexes after a rename: the old spelling loses its slot and this channel. *)
Definition reindex (place : nat) (old_name new_name : string) (c : Channels) : Channels :=
  let old_key := lower old_name in
  let moved := Slots (<[lower new_name := place]> (delete old_key (slot (names c))))
    (_add_candidate
       (match candidates (names c) !! old_key with
        | Some (_ :: _ as l) => <[old_key := List.filter (fun p => negb (bool_decide (p = place))) l]> (candidates (names c))
        | _ => candidates (names c)
        end) (lower new_name) place) in
  on_folded (first_seen (fold_match_key new_name) place) (on_names (fun _ => moved) c).

(** Rename the channel that was found, when normalization spells it differently; the details
    of the outcome. *)
Definition rename_existing (place : nat) (ch : channel) (channel_name : string) : M (state W) (list string) :=
  let core := strip_number_prefix (c_name ch) in
  let base := s_take (String.length (c_name ch) - String.length core) (c_name ch) in
  let new_name := base +:+ channel_name in
  let arrow := quoted (c_name ch) +:+ " -> " +:+ quoted new_name in
  if bool_decide (lower core = lower channel_name) then ret []
  else
    do! c := context in
    if dry_run c then on_channel place (set_name new_name);; ret ["Would rename channel: " +:+ arrow]
    else
      try_except
        (api (UpdateChannel (c_id ch) [("name", PStr new_name)]);;
         on_channel place (set_name new_name);;
         on_exec (on_chans (reindex place (c_name ch) new_name));;
         ret ["Renamed channel: " +:+ arrow])
        (fun e => ret ["Failed to rename channel: " +:+ exc_text e]).

(** ** Channels that do not *)

(** [_maybe_enqueue_pending_merge] *)
Definition same_group (x : Executor) (group : option Z) : list (Z * string) :=
  let existing := firstn (existing_count x) (heap (chans x)) in
  map (fun ch => (c_id ch, c_name ch))
    (List.filter (fun ch => match group with None => true | Some _ => bool_decide (c_group ch = group) end &&
                            negb (bool_decide (c_name ch = EmptyString))) existing).

Definition _maybe_enqueue_pending_merge (st : stream) (channel_name : string) (group : option Z) :
    M (state W) (option ActionResult) :=
  do! x := executor in
  do! c := context in
  if negb (bool_decide (triggered_by = "m3u_refresh")) || dry_run c then ret None
  else match same_group x group with
  | [] => ret None
  | pool =>
      do! outcome := api (EnqueuePendingMerge (stream_name st) group pool plan_only) in
      if negb outcome.1 then ret None
      else
        on_ctx (on_pending_merges_added S);;
        let description :=
          match outcome.2 with
          | Some (id, confidence) =>
              "Stream " +:+ quoted (stream_name st) +:+ " enqueued as pending merge candidate for existing channel id=" +:+
              str_of_Z id +:+ " (confidence=" +:+ confidence +:+ "); channel creation deferred to operator review"
          | None => "Stream " +:+ quoted (stream_name st) +:+ " already in pending merges queue; channel creation deferred"
          end in
        ret (Some (with_details [description]
          (skipping (about "channel" None (Some channel_name) (plain true "create_channel" description)))))
  end.

(** The indexes a channel created in this run is put in. *)
Definition register (place : nat) (id : Z) (channel_name base_name : string) (c : Channels) : Channels :=
  let key := lower channel_name in
  let base := lower base_name in
  let c := on_created_by_name (d_set key place) (on_by_id (fun m => <[id := place]> m) c) in
  let c := on_names (fun s => Slots (slot s) (_add_candidate (candidates s) key place)) c in
  let c := if bool_decide (base = key) then c else on_base_names (last_seen base place) c in
  on_folded (fun s => first_seen (fold_match_key base_name) place (first_seen (fold_match_key channel_name) place s)) c.

(** A new channel in the heap, under its names, its number taken. *)
Definition adopt (ch : channel) (channel_name base_name : string) (number : pyval) : M (state W) unit :=
  do! x := executor in
  let place := List.length (heap (chans x)) in
  on_exec (on_chans (fun c => register place (c_id ch) channel_name base_name (on_heap (fun h => h ++ [ch]) c)));;
  on_exec (on_nums (on_used (fun u => _mark_channel_number_used u number))).

Definition now_created (id : Z) : M (state W) unit :=
  select_channel id;; on_ctx (on_created_channel_ids (fun s => {[ id ]} ∪ s)).

Definition group_label (x : Executor) (group : option Z) : string :=
  match _get_group_name x group with
  | Some (String c s) => quoted (String c s)
  | _ => id_text group
  end.

Definition simulate_creation (st : stream) (channel_name base_name : string) (number : pyval) (group : option Z)
    (label : string) (details : list string) : M (state W) ActionResult :=
  do! x := executor in
  let dry_id := next_dry_run_id x in
  on_exec (on_next_dry_run_id (fun z => z - 1));;
  adopt (Channel dry_id channel_name number group [Bare (stream_id st)] true
           (if has_text (tvg_id st) then tvg_id st else None) None ∅) channel_name base_name number;;
  now_created dry_id;;
  ret (with_details details (creating (about "channel" None (Some channel_name) (plain true "create_channel"
    ("Would create channel " +:+ quoted channel_name +:+ " (#" +:+ number_text number +:+ ") in group " +:+ label))))).

Definition creation_data (st : stream) (channel_name : string) (number : pyval) (group logo : option Z) : list (string * pyval) :=
  [("name", PStr channel_name); ("channel_number", number); ("channel_group_id", null_id group);
   ("streams", ids_value [stream_id st])] ++
  match logo with None | Some 0 => [] | Some id => [("logo_id", PInt id)] end ++
  (if has_text (tvg_id st) then [("tvg_id", text_value (tvg_id st))] else []).

(** The created channel is the stream's; its default profiles are part of the description. *)
Definition finish_creation (ch : channel) (channel_name : string) (number : pyval) (label : string) (details : list string) :
    M (state W) ActionResult :=
  now_created (c_id ch);;
  do! profile_desc := _assign_default_profiles (c_id ch) in
  ret (with_details details (creating (about "channel" (Some (c_id ch)) (Some channel_name) (plain true "create_channel"
    ("Created channel " +:+ quoted channel_name +:+ " (#" +:+ number_text number +:+ ") in group " +:+ label +:+
     match profile_desc with EmptyString => "" | d => ", " +:+ d end))))).

Definition create_upstream (st : stream) (channel_name base_name : string) (number : pyval) (group : option Z)
    (label : string) (details : list string) : M (state W) ActionResult :=
  try_except
    (do! logo := (if has_text (logo_url st) then _resolve_logo_id (default "" (logo_url st)) channel_name else ret None) in
     do! response := api (CreateChannel (creation_data st channel_name number group logo)) in
     let new_channel := mark_auto_created response in
     on_exec (on_gate (on_managed (fun s => {[ c_id new_channel ]} ∪ s)));;
     adopt new_channel channel_name base_name number;;
     on_exec (on_nums (on_assigned (fun m => <[c_id new_channel := number]> m)));;
     finish_creation new_channel channel_name number label details)
    (fun e => ret (failed_with (exc_text e) (plain false "create_channel" ("Failed to create channel " +:+ quoted channel_name)))).

(** ** [create_channel] *)

(** The name under the rule's normalization groups, with the log's details. *)
Definition normalized_creation_name (name : string) (groups : list Z) : string * list string :=
  match groups, engine with
  | _ :: _, Some e =>
      match normalize e name (Some groups) with
      | Ok n => if bool_decide (n = name) then (name, [])
                else (n, ["Name normalized: " +:+ quoted name +:+ " -> " +:+ quoted n])
      | Raise x => (name, ["Normalization did not run for " +:+ quoted name +:+ ", so the name was used as given: " +:+ exc_text x])
      end
  | _, _ => (name, [])
  end.

(** The lookup that decides between adopting and creating. *)
Definition creation_lookup (p : create_params) (o : rule_options) (c : ExecutionContext) : lookup :=
  let group := or_id (p_group_id p) (or_id (current_group_id c) (rule_target_group_id o)) in
  Lookup (if match_scope_target_group o then or_id (rule_scope_group_id o) group else None)
    (negb (allow_manual_channel_merge o)).

(** The channel found, its place, and the details on what the gate turned away. *)
Definition find_for_creation (st : stream) (o : rule_options) (name : string) (q : lookup) :
    M (state W) (option (nat * channel) * list string) :=
  do! x := executor in
  let '(found, blocked) := _find_channel_by_name engine x name q false (fold_key o) in
  on_exec (on_gate (on_last_manual_block (fun _ => blocked)));;
  match found with
  | Some place =>
      match at_place x place with
      | Some ch =>
          (if allow_manual_channel_merge o && _is_manual_channel x ch
           then _journal_manual_channel_adoption ch st "create_channel" else ret tt);;
          ret (Some (place, ch), [])
      | None => ret (None, [])
      end
  | None =>
      match p ← blocked; at_place x p with
      | Some ch =>
          _journal_manual_channel_block ch st "create_channel";;
          ret (None, ["Matched manual channel " +:+ quoted (c_name ch) +:+ " (id=" +:+ str_of_Z (c_id ch) +:+
                      ") but allow_manual_channel_merge is off - treated as not found, so a new auto channel is created " +:+
                      "instead of merging into the hand-built channel (enable allow_manual_channel_merge on the rule to merge)"])
      | None => ret (None, [])
      end
  end.

(** What becomes of the channel that exists; [None] when the parameter names no way, and a
    channel is created after all. *)
Definition use_existing (place : nat) (ch : channel) (st : stream) (p : create_params) (channel_name : string)
    (details : list string) : M (state W) (option ActionResult) :=
  if bool_decide (p_if_exists p = "skip") then
    select_channel (c_id ch);;
    ret (Some (with_details details (skipping (about "channel" (Some (c_id ch)) (Some channel_name)
      (plain true "create_channel" ("Channel " +:+ quoted channel_name +:+ " already exists, skipped"))))))
  else if bool_decide (p_if_exists p ∈ ["merge"; "merge_only"]) then
    do! r := _add_stream_to_channel place ch st None in ret (Some (with_details (details ++ r_details r) r))
  else if bool_decide (p_if_exists p = "update") then
    do! r := _update_channel place ch st in ret (Some r)
  else ret None.

Definition create_new (st : stream) (p : create_params) (group : option Z) (channel_name : string)
    (details : list string) : M (state W) ActionResult :=
  do! x := executor in
  do! number := pure (match _get_next_channel_number (used (nums x)) (p_channel_number p) with
                      | Ok n => Ok n | Raise e => Raise (exc_of e) end) in
  let full_name := _apply_channel_number_in_name channel_name number in
  let label := group_label x group in
  do! deferred := try_except (_maybe_enqueue_pending_merge st full_name group) (fun _ => ret None) in
  match deferred with
  | Some r => ret (with_details (details ++ r_details r) r)
  | None =>
      do! c := context in
      if dry_run c then simulate_creation st full_name channel_name number group label details
      else create_upstream st full_name channel_name number group label details
  end.

(** The existing channel as the actions after the rename see it. *)
Definition channel_now (place : nat) (ch : channel) : M (state W) channel :=
  do! x := executor in ret (default ch (at_place x place)).

Definition _execute_create_channel (p : create_params) (st : stream) (o : rule_options)
    (template_ctx : list (string * pyval)) : M (state W) ActionResult :=
  do! c := context in
  do! pre_norm := _apply_name_transform (expand_template (p_name_template p) template_ctx (custom_variables c))
                    (p_transform_pattern p) (p_transform_replacement p) in
  do! x := executor in
  let failure := match last_transform_error (notes x) with Some e => [e] | None => [] end in
  let '(channel_name, normalization) := normalized_creation_name pre_norm (normalization_group_ids o) in
  let group := or_id (p_group_id p) (or_id (current_group_id c) (rule_target_group_id o)) in
  do! found := find_for_creation st o channel_name (creation_lookup p o c) in
  let details := failure ++ normalization ++ found.2 in
  do! outcome :=
    match found.1 with
    | None => ret (None, details)
    | Some (place, ch) =>
        let details := details ++
          match _get_group_name x (c_group ch) with
          | Some (String c s) => ["Existing channel found in group " +:+ quoted (String c s)]
          | _ => []
          end ++
          if bool_decide (pre_norm = channel_name) then []
          else [quoted pre_norm +:+ " became " +:+ quoted channel_name +:+ " after normalization and matched an existing channel. " +:+
                "To create separate channels instead: use separate rules with different target groups " +:+
                "(e.g., one per country), or adjust the name template to keep the distinguishing text."] in
        do! renamed := match normalization_group_ids o, engine with
                       | _ :: _, Some _ => rename_existing place ch channel_name
                       | _, _ => ret []
                       end in
        do! ch := channel_now place ch in
        do! used := use_existing place ch st p channel_name (details ++ renamed) in
        ret (used, details ++ renamed)
    end in
  match outcome.1 with
  | Some r => ret r
  | None =>
      if bool_decide (p_if_exists p = "merge_only") then
        ret (with_details outcome.2 (skipping (about "channel" None (Some channel_name)
          (plain true "create_channel" ("Channel " +:+ quoted channel_name +:+ " not found, skipped (merge only)")))))
      else create_new st p group channel_name outcome.2
  end.

End actions.
End ExecutorActions.
