(* ===== verification/ExecutorAssign.v ===== *)
(** * What the pipeline executor assigns ([channel_pipeline_executor.py]).

    Logos, guide ids, guide entries and their verification, stream profiles, exclusive
    channel-profile membership under the group's lock with the ownership marker, custom
    variables, and the removal of empty groups. *)
From S2P Require Import Prelude PyFloat PyValue PyText PyDict PyState ChannelNumber DatePlaceholders.
From S2P Require Import NameNormalizer NumberAllocation GuideMatch ExecutorTypes ExecutorIndex ProfileMembership ExecutorActions.
From stdpp Require Import list gmap strings.
Open Scope Z_scope.
Open Scope py_scope.

Module ExecutorAssign.
Import DatePlaceholders GuideMatch ExecutorTypes ExecutorIndex ProfileMembership ExecutorActions.

Section assign.
Context {W : Type} `{!Environment W}.

(** ** The channel an action is about *)

Definition no_channel (type : string) : ActionResult :=
  failed_with "No channel to update" (plain false type ("No channel context for " +:+ type)).

(** [if not exec_ctx.current_channel_id: return ...] *)
Definition with_current (type : string) (k : ExecutionContext -> Z -> M (state W) ActionResult) : M (state W) ActionResult :=
  do! c := context in
  match truthy_id (current_channel_id c) with
  | None => ret (no_channel type)
  | Some id => k c id
  end.

(** [self._channel_by_id.get(id, {})] *)
Definition cached (x : Executor) (id : Z) : option channel := option_map snd (by_channel_id x id).
Definition in_cache (id : Z) (g : channel -> channel) : M (state W) unit :=
  do! x := executor in
  match by_channel_id x id with Some (place, _) => on_channel place g | None => ret tt end.

Definition of_channel (id : Z) (r : ActionResult) : ActionResult := about "channel" (Some id) None r.

Definition failing (type what : string) (e : exc) : ActionResult := failed_with (exc_text e) (plain false type ("Failed to assign " +:+ what)).

(** ** Logos *)

(** The entry's logo. *)
Definition entry_logo (e : epg_entry) : option string := if has_text (e_icon_url e) then e_icon_url e else e_icon e.

Definition entries_of (x : Executor) (source : Z) : list epg_entry := default [] (epg_data_by_source (guide x) !! source).

Definition matched (o : option channel) (entries : list epg_entry) : option epg_entry :=
  _match_epg_data (ch ← o; c_tvg_id ch) (match o with Some ch => c_name ch | None => EmptyString end) entries.

Definition cached_name (o : option channel) (dflt : string) : string := match o with Some ch => c_name ch | None => dflt end.

(** The logo's URL, or the result that ends the action. *)
Definition logo_choice (value : string) (epg_id : option Z) (st : stream) (template_ctx : list (string * pyval))
    (c : ExecutionContext) (x : Executor) (id : Z) : ActionResult + option string :=
  if bool_decide (value = "from_stream") then inr (logo_url st)
  else if bool_decide (value = "from_epg") then
    match truthy_id epg_id with
    | None => inl (failed_with "Missing epg_id for from_epg" (plain false "assign_logo" "No EPG source specified for from_epg logo"))
    | Some source =>
        match entries_of x source with
        | [] => inl (failed_with ("EPG source " +:+ str_of_Z source +:+ " has no data entries")
                  (plain false "assign_logo" ("No EPG data entries found for source " +:+ str_of_Z source)))
        | entries =>
            match matched (cached x id) entries with
            | None => inl (skipping (plain true "assign_logo" ("No matching EPG data for " +:+ quoted (cached_name (cached x id) "unknown") +:+
                                                               " in source " +:+ str_of_Z source)))
            | Some e => inr (entry_logo e)
            end
        end
    end
  else inr (Some (expand_template value template_ctx (custom_variables c))).

Definition _execute_assign_logo (value : string) (epg_id : option Z) (st : stream) (template_ctx : list (string * pyval)) :
    M (state W) ActionResult :=
  with_current "assign_logo" (fun c id =>
    do! x := executor in
    match logo_choice value epg_id st template_ctx c x id with
    | inl r => ret r
    | inr None | inr (Some EmptyString) => ret (skipping (plain true "assign_logo" "No logo URL to assign"))
    | inr (Some url) =>
        if dry_run c then
          ret (modifying true None (of_channel id (plain true "assign_logo" ("Would assign logo: " +:+ s_take 50 url +:+ "..."))))
        else
          let previous := [("logo_id", match cached x id with Some ch => field_of ch "logo_id" | None => PNone end);
                           ("logo_url", text_value (ch ← cached x id; c_logo_url ch))] in
          try_except
            (do! logo_id := _resolve_logo_id url (cached_name (cached x id) "") in
             match truthy_id logo_id with
             | None => ret (skipping (plain true "assign_logo" ("Could not resolve logo URL to logo_id: " +:+ s_take 60 url)))
             | Some logo =>
                 api (UpdateChannel id [("logo_id", PInt logo)]);;
                 in_cache id (set_field "logo_id" (PInt logo));;
                 ret (modifying true (Some previous) (of_channel id (plain true "assign_logo" "Assigned logo to channel")))
             end)
            (fun e => ret (failing "assign_logo" "logo" e))
    end).

(** ** Guide ids *)

Definition set_tvg_id (tvg : string) (ch : channel) : channel := set_guide (c_logo_url ch) (Some tvg) ch.

Definition _execute_assign_tvg_id (value : string) (st : stream) (template_ctx : list (string * pyval)) : M (state W) ActionResult :=
  with_current "assign_tvg_id" (fun c id =>
    match (if bool_decide (value = "from_stream") then tvg_id st else Some (expand_template value template_ctx (custom_variables c))) with
    | None | Some EmptyString => ret (skipping (plain true "assign_tvg_id" "No tvg_id to assign"))
    | Some tvg =>
        if dry_run c then
          in_cache id (set_tvg_id tvg);;
          ret (modifying true None (of_channel id (plain true "assign_tvg_id" ("Would assign tvg_id: " +:+ tvg))))
        else
          do! x := executor in
          let previous := [("tvg_id", text_value (ch ← cached x id; c_tvg_id ch))] in
          try_except
            (api (UpdateChannel id [("tvg_id", PStr tvg)]);;
             in_cache id (set_tvg_id tvg);;
             ret (modifying true (Some previous) (of_channel id (plain true "assign_tvg_id" ("Assigned tvg_id " +:+ quoted tvg +:+ " to channel")))))
            (fun e => ret (failing "assign_tvg_id" "tvg_id" e))
    end).

(** ** Guide entries *)

Definition defer (id : Z) (p : epg_params) (st : stream) (source : Z) : M (state W) ActionResult :=
  on_exec (on_guide (on_deferred (fun l => l ++ [(id, p, st)])));;
  ret (deferring (of_channel id (plain true "assign_epg"
    ("Deferred: will assign EPG from dummy source " +:+ str_of_Z source +:+ " after refresh")))).

(** [{"epg_data_id": ...}], and the entry's guide id when asked for *)
Definition epg_payload (p : epg_params) (e : epg_entry) : list (string * pyval) :=
  ("epg_data_id", PInt (e_id e)) ::
  if ep_set_tvg_id p && has_text (e_tvg_id e) then [("tvg_id", text_value (e_tvg_id e))] else [].

(** [channel.update(payload)] *)
Definition take_entry (p : epg_params) (e : epg_entry) (ch : channel) : channel :=
  let ch := set_field "epg_data_id" (PInt (e_id e)) ch in
  if ep_set_tvg_id p && has_text (e_tvg_id e) then set_guide (c_logo_url ch) (e_tvg_id e) ch else ch.

Definition created_now (x : Executor) (id : Z) : bool :=
  existsb (fun p => match at_place x p.2 with Some ch => c_id ch =? id | None => false end) (created_by_name (chans x)).

Definition assign_entry (p : epg_params) (source id : Z) (e : epg_entry) (dry : bool) : M (state W) ActionResult :=
  let tvg := ep_set_tvg_id p && has_text (e_tvg_id e) in
  let named := "EPG data " +:+ str_of_Z (e_id e) +:+ " (source " +:+ str_of_Z source +:+ ") to channel" in
  if dry then
    (if tvg then in_cache id (fun ch => set_guide (c_logo_url ch) (e_tvg_id e) ch) else ret tt);;
    ret (modifying true None (of_channel id (plain true "assign_epg" ("Would assign " +:+ named +:+
      if tvg then " and set tvg_id to " +:+ quoted (default "" (e_tvg_id e)) else ""))))
  else
    do! x := executor in
    let previous := ("epg_data_id", match cached x id with Some ch => field_of ch "epg_data_id" | None => PNone end) ::
                    if tvg then [("tvg_id", text_value (ch ← cached x id; c_tvg_id ch))] else [] in
    try_except
      (api (UpdateChannel id (epg_payload p e));;
       in_cache id (take_entry p e);;
       (if created_now x id then on_exec (on_guide (on_verifications (fun l => l ++ [(id, epg_payload p e)]))) else ret tt);;
       ret (modifying true (Some previous) (of_channel id (plain true "assign_epg" ("Assigned " +:+ named)))))
      (fun e => ret (failing "assign_epg" "EPG" e)).

Definition _execute_assign_epg (p : epg_params) (st : stream) (defer_on_no_match : bool) : M (state W) ActionResult :=
  with_current "assign_epg" (fun c id =>
    match ep_source p with
    | None => ret (failed_with "Missing epg_id" (plain false "assign_epg" "No epg_id specified"))
    | Some source =>
        do! x := executor in
        let dummy := bool_decide (source ∈ dummy_sources (guide x)) in
        match entries_of x source with
        | [] =>
            if dummy then defer id p st source
            else ret (failed_with ("EPG source " +:+ str_of_Z source +:+ " has no data entries")
                   (plain false "assign_epg" ("No EPG data entries found for source " +:+ str_of_Z source)))
        | entries =>
            match matched (cached x id) entries with
            | Some e => assign_entry p source id e (dry_run c)
            | None =>
                if defer_on_no_match && dummy then defer id p st source
                else ret (failed_with "No EPG data match found" (plain false "assign_epg"
                       ("No matching EPG data for " +:+ quoted (cached_name (cached x id) "unknown") +:+ " in source " +:+ str_of_Z source)))
            end
        end
    end).

Definition reload_epg_data (data : list (option Z * epg_entry)) : M (state W) unit :=
  on_exec (on_guide (on_epg_data (fun _ => by_source data))).

(** The assignments that were overwritten upstream are sent again: how many stood, were sent
    again, failed. *)
Definition id_value (v : pyval) : option Z := match v with PInt z => Some z | _ => None end.

Fixpoint verify_all (l : list (Z * list (string * pyval))) (counts : nat * nat * nat) : M (state W) (nat * nat * nat) :=
  match l with
  | [] => ret counts
  | (id, payload) :: l =>
      let '(verified_ok, re_patched, failed) := counts in
      do! outcome := attempt
        (do! ch := api (GetChannel id) in
         if bool_decide (id_value (field_of ch "epg_data_id") = id_value (default PNone (dict_get payload "epg_data_id"))) then ret true
         else api (UpdateChannel id payload);; ret false) in
      verify_all l match outcome with
                   | Ok true => (S verified_ok, re_patched, failed)
                   | Ok false => (verified_ok, S re_patched, failed)
                   | Raise _ => (verified_ok, re_patched, S failed)
                   end
  end.

Definition verify_epg_assignments : M (state W) (nat * nat * nat) :=
  do! x := executor in
  do! counts := verify_all (verifications (guide x)) (0, 0, 0)%nat in
  on_exec (on_guide (on_verifications (fun _ => [])));;
  ret counts.

(** ** Stream profiles *)

Definition _execute_assign_profile (profile : option Z) : M (state W) ActionResult :=
  with_current "assign_profile" (fun c id =>
    match truthy_id profile with
    | None => ret (failed_with "Missing profile_id" (plain false "assign_profile" "No profile_id specified"))
    | Some profile =>
        let keep := in_cache id (set_field "stream_profile_id" (PInt profile)) in
        if dry_run c then
          keep;;
          ret (modifying true None (of_channel id (plain true "assign_profile" ("Would assign stream profile " +:+ str_of_Z profile))))
        else
          do! x := executor in
          let previous := [("stream_profile_id", match cached x id with Some ch => field_of ch "stream_profile_id" | None => PNone end)] in
          try_except
            (api (UpdateChannel id [("stream_profile_id", PInt profile)]);;
             keep;;
             ret (modifying true (Some previous)
               (of_channel id (plain true "assign_profile" ("Assigned stream profile " +:+ str_of_Z profile +:+ " to channel")))))
            (fun e => ret (failing "assign_profile" "profile" e))
    end).

(** ** Channel profiles *)

(** [_build_override_maps]'s second map ([event_sync_preflight.py]): a group to the group its
    channels are placed in; a setting that is no object raises. *)
Definition override_target (setting : pyval) : result exc (option Z) :=
  match setting with
  | PDict d =>
      Ok (match dict_get d "custom_properties" with
          | Some (PDict cp) => match dict_get cp "group_override" with
                               | Some (PInt z) => Some z
                               | Some (PBool b) => Some (Z.b2z b)
                               | _ => None
                               end
          | _ => None
          end)
  | _ => Raise (Exc Other "AttributeError" "object has no attribute 'get'")
  end.

Fixpoint source_to_target (settings : list (Z * pyval)) : result exc (gmap Z Z) :=
  match settings with
  | [] => Ok ∅
  | (g, setting) :: settings =>
      let! target := override_target setting in
      let! m := source_to_target settings in
      Ok (match target with Some t => <[g := t]> m | None => m end)
  end.

Definition resolve_effective_master_group_id (settings : gmap Z pyval) (group : Z) : result exc Z :=
  let! m := source_to_target (map_to_list settings) in Ok (default group (m !! group)).

(** The channel's group: [channel_group], an id when the API sent one, or else
    [channel_group_id]. *)
Definition group_of (o : option channel) : option Z :=
  ch ← o; match field_of ch "channel_group" with PInt z => Some z | _ => c_group ch end.

(** The settings are fetched once per context; the group the lock is on, and whether there is
    a group at all. *)
Definition fetched_settings : M (state W) (option (gmap Z pyval)) :=
  do! c := context in
  match group_settings c with
  | Some o => ret o
  | None =>
      on_ctx (on_group_settings (fun _ => Some None));;
      do! r := attempt (api GetAllGroupSettings) in
      let o := match r with Ok m => Some m | Raise _ => None end in
      on_ctx (on_group_settings (fun _ => Some o));;
      ret o
  end.

Definition _resolve_channel_effective_group (id : Z) : M (state W) (option Z * bool) :=
  do! settings := fetched_settings in
  do! x := executor in
  let group := group_of (cached x id) in
  let has_group := match group with Some _ => true | None => false end in
  ret (match settings, group with
       | Some m, Some g => if bool_decide (m = ∅) then (None, has_group)
                           else match resolve_effective_master_group_id m g with Ok z => (Some z, true) | Raise _ => (None, true) end
       | _, _ => (None, has_group)
       end).

(** *** The ownership marker *)

Definition OWNER_KEY : string := "ecm_profile_owner".
Definition OWNER_VALUE : string := "pipeline".
Definition RULE_KEY : string := "ecm_profile_owner_rule_id".

Definition properties_of (o : option channel) : list (string * pyval) :=
  match option_map (fun ch => field_of ch "custom_properties") o with Some (PDict d) => d | _ => [] end.

Definition owned_by (rule_id : option Z) (cp : list (string * pyval)) : bool :=
  match dict_get cp OWNER_KEY with Some (PStr s) => bool_decide (s = OWNER_VALUE) | _ => false end &&
  match dict_get cp RULE_KEY, rule_id with
  | None, None | Some PNone, None => true
  | Some v, Some r => py_eq_int v r
  | _, _ => false
  end.

Definition marked (rule_id : option Z) (cp : list (string * pyval)) : list (string * pyval) :=
  let cp := d_set OWNER_KEY (PStr OWNER_VALUE) cp in
  match rule_id with Some r => d_set RULE_KEY (PInt r) cp | None => cp end.

Definition _mark_channel_profile_ownership (id : Z) (rule_id : option Z) : M (state W) bool :=
  do! x := executor in
  if owned_by rule_id (properties_of (cached x id)) then ret true
  else
    do! fresh := attempt (api (GetChannel id)) in
    match fresh with
    | Raise _ => ret false
    | Ok ch =>
        let cp := properties_of (Some ch) in
        if owned_by rule_id cp then in_cache id (set_field "custom_properties" (PDict cp));; ret true
        else
          do! r := attempt (api (UpdateChannel id [("custom_properties", PDict (marked rule_id cp))])) in
          match r with
          | Raise _ => ret false
          | Ok _ => in_cache id (set_field "custom_properties" (PDict (marked rule_id cp)));; ret true
          end
    end.

(** *** The write under the lock *)

Definition ids_text (ids : list Z) : string := String.concat ", " (map str_of_Z ids).

Definition marker_warning : string := "ownership marker write failed; profile precedence not established".

Definition membership_result (id : Z) (r : reconciliation) (established : bool) : ActionResult :=
  let here b e d := irreversible (modifying (changed r) None (of_channel id (match e with Some t => failed_with t | None => fun r => r end
                      (plain b "assign_channel_profile" d)))) in
  let counts := "enabled in " +:+ str_of_Z (Z.of_nat (enabled_count r)) +:+ ", disabled in " +:+ str_of_Z (Z.of_nat (disabled_count r)) in
  match failed_profile_ids r with
  | _ :: _ as failed =>
      here false (Some ("Failed to update channel profile(s): " +:+ ids_text failed))
        ("Incomplete channel-profile assignment: " +:+ counts +:+ "; failed to update profile(s): " +:+ ids_text failed)
  | [] =>
      let base := if changed r then "Assigned channel profiles: " +:+ counts else "Channel profiles already correct (no change)" in
      if established then here true None base
      else here true (Some marker_warning) (base +:+ " (" +:+ marker_warning +:+ ")")
  end.

Definition _assign_channel_profile_write (id : Z) (rule_id : option Z) (ids : list Z) : M (state W) ActionResult :=
  try_except
    (do! established := _mark_channel_profile_ownership id rule_id in
     (if established : bool then ret tt else on_ctx (on_ownership_unestablished (fun s => {[ id ]} ∪ s)));;
     do! r := _apply_exclusive_profile_membership id ids in
     ret (membership_result id r established))
    (fun e => ret (failed_with (exc_text e) (plain false "assign_channel_profile" "Failed to assign channel profile(s)"))).

(** [async with lock: m] *)
Definition with_lock {A} (group : option Z) (m : M (state W) A) : M (state W) A :=
  match group with
  | None => m
  | Some g => api (AcquireGroupLock g);; always m (api (ReleaseGroupLock g))
  end.

(** [sorted(set(ids))] *)
Definition sorted_ids (ids : list Z) : list Z := merge_sort Z.le (elements (list_to_set ids : gset Z)).

Definition previewed_membership (p : Profiles) (id : Z) (ids : list Z) : ActionResult :=
  let '(enable_pids, disable_pids) := _profile_flip_plan p id ids in
  let flips := (List.length enable_pids + List.length disable_pids)%nat in
  let count n := str_of_Z (Z.of_nat n) in
  let selected := count (size (list_to_set ids : gset Z)) in
  let others := count (size ((list_to_set universe : gset Z) ∖ list_to_set ids)) in
  let names := "[" +:+ ids_text (sorted_ids ids) +:+ "]" in
  modifying (negb (flips =? 0)%nat) None (of_channel id (plain true "assign_channel_profile"
    (if (flips =? 0)%nat then
       "Channel already has EXCLUSIVE membership in exactly the " +:+ selected +:+ " selected profile(s) " +:+ names +:+
       " and no others - no change (would still enforce removal from all " +:+ others +:+ " other channel profile(s))"
     else
       "Would enforce EXCLUSIVE channel-profile membership: enable in " +:+ selected +:+ " selected profile(s) " +:+ names +:+
       " and REMOVE from all " +:+ others +:+ " other channel profile(s) (this run flips " +:+ count flips +:+ ": enable " +:+
       count (List.length enable_pids) +:+ ", disable " +:+ count (List.length disable_pids) +:+ ")"))).

Definition _execute_assign_channel_profile (ids : list Z) (rule_id : option Z) : M (state W) ActionResult :=
  with_current "assign_channel_profile" (fun c id =>
    match ids with
    | [] => ret (failed_with "Missing channel_profile_ids" (plain false "assign_channel_profile" "No channel_profile_ids specified"))
    | _ =>
        match all_profile_ids with
        | None => ret (of_channel id (failed_with
                    "Channel profile universe unavailable (fetch failed); exclusive membership cannot be enforced. Retry once profiles are reachable."
                    (plain false "assign_channel_profile" "Cannot assign channel profiles: profile universe unavailable")))
        | Some _ =>
            if dry_run c then do! x := executor in ret (previewed_membership (profiles x) id ids)
            else
              do! g := _resolve_channel_effective_group id in
              match g with
              | (None, true) => ret (of_channel id (failed_with "group lock key unresolvable; failed closed (no write)"
                                  (plain false "assign_channel_profile" "Channel profile assignment deferred: group lock unresolvable")))
              | (group, _) => with_lock group (_assign_channel_profile_write id rule_id ids)
              end
        end
    end).

(** [apply_channel_profile_to_channels]: the same for each of several channels. *)
Fixpoint assign_each (channels : list Z) (ids : list Z) (rule_id : option Z) : M (state W) (list ActionResult) :=
  match channels with
  | [] => ret []
  | id :: channels =>
      select_channel id;;
      do! r := _execute_assign_channel_profile ids rule_id in
      on_ctx (add_result r);;
      do! rest := assign_each channels ids rule_id in
      ret (r :: rest)
  end.

Definition apply_channel_profile_to_channels (ids channels : list Z) (rule_id : option Z) : M (state W) (list ActionResult) :=
  do! c := context in
  always (assign_each (dedup [] channels) ids rule_id) (on_ctx (on_current_channel_id (fun _ => current_channel_id c))).

(** ** Custom variables *)

Record variable_params := VariableParams {
  v_name : string; v_mode : string; v_source : string; v_pattern : string; v_replacement : string; v_template : string }.

(** [str(template_ctx.get(source_field, ""))] *)
Definition source_value (p : variable_params) (template_ctx : list (string * pyval)) : string :=
  py_str (default (PStr EmptyString) (dict_get template_ctx (v_source p))).

Definition safe_groups (pattern text : string) : option (string * list (option string)) :=
  if (NameNormalizer.DEFAULT_MAX_PATTERN_LEN <? String.length pattern)%nat then None else regex_groups pattern text.

Definition variable_value (p : variable_params) (template_ctx : list (string * pyval)) (custom : list (string * pyval)) : option pyval :=
  let source := source_value p template_ctx in
  if bool_decide (v_mode p = "regex_extract") then
    Some (match safe_groups (v_pattern p) source with
          | None => PStr EmptyString
          | Some (whole, []) => PStr whole
          | Some (_, first :: _) => text_value first
          end)
  else if bool_decide (v_mode p = "regex_replace") then
    Some (PStr (match safe_sub (v_pattern p) (NameNormalizer.backreferences (v_replacement p)) source with
                | Ok s => s | Raise _ => source end))
  else if bool_decide (v_mode p = "literal") then Some (PStr (expand_template (v_template p) template_ctx custom))
  else None.

Definition _execute_set_variable (p : variable_params) (template_ctx : list (string * pyval)) : M (state W) ActionResult :=
  do! c := context in
  match variable_value p template_ctx (custom_variables c) with
  | None => let text := "Unknown variable mode: " +:+ v_mode p in ret (failed_with text (plain false "set_variable" text))
  | Some v =>
      on_ctx (on_custom_variables (d_set (v_name p) v));;
      ret (plain true "set_variable" ("Set variable " +:+ quoted (v_name p) +:+ " = " +:+ quoted (py_str v)))
  end.

(** ** Empty groups *)

(** Page after page, until all are there or one is empty. *)
Fixpoint all_pages (fuel : nat) (page : Z) (found : list channel) : M (state W) (list channel) :=
  match fuel with
  | O => raise (Exc Other "OutOfFuel" "")
  | S fuel =>
      do! answer := api (GetChannels page) in
      let '(channels, count) := answer in
      let found := found ++ channels in
      if (count <=? Z.of_nat (List.length found)) || match channels with [] => true | _ => false end then ret found
      else all_pages fuel (page + 1) found
  end.

Definition delete_group_if_empty (fuel : nat) (id : Z) : M (state W) ActionResult :=
  do! x := executor in
  let name := default ("ID:" +:+ str_of_Z id) (group_by_id (groups x) !! id) in
  let here r := about "group" (Some id) (Some name) r in
  try_except
    (do! channels := all_pages fuel 1 [] in
     match List.filter (fun ch => bool_decide (id_value (field_of ch "channel_group") = Some id)) channels with
     | _ :: _ as inside =>
         ret (skipping (here (plain true "delete_empty_group" ("Group " +:+ quoted name +:+ " still has " +:+
           str_of_Z (Z.of_nat (List.length inside)) +:+ " channels, kept"))))
     | [] =>
         api (DeleteChannelGroup id);;
         ret (here (plain true "delete_empty_group" ("Deleted empty group " +:+ quoted name)))
     end)
    (fun e => ret
       (if contains "404" (exc_text e) || contains "not found" (lower (exc_text e))
        then about "group" (Some id) None (plain true "delete_empty_group" ("Group " +:+ str_of_Z id +:+ " already deleted"))
        else failed_with (exc_text e) (plain false "delete_empty_group" ("Failed to delete group " +:+ str_of_Z id)))).

End assign.
End ExecutorAssign.
