(* ===== verification/ExecutorRun.v ===== *)
(** * The pipeline executor's remaining actions and the dispatch
    ([channel_pipeline_executor.py]).

    Merging a stream into a channel that exists, groups, numbers, the order of a channel's
    streams, pruning and removal after the run, and [execute], through which every action
    of a rule passes. *)
From S2P Require Import Prelude PyFloat PyValue PyText PyDict PyState ChannelNumber DatePlaceholders.
From S2P Require Import NameNormalizer NumberAllocation ExecutorTypes ExecutorIndex ProfileMembership ExecutorActions ExecutorAssign.
From stdpp Require Import list gmap strings.
Open Scope Z_scope.
Open Scope py_scope.

Module ExecutorRun.
Import DatePlaceholders ExecutorTypes ExecutorIndex ProfileMembership ExecutorActions ExecutorAssign.

(** ** Parameters *)

Record merge_params := MergeParams {
  m_target : string;
  m_find_by : option string;
  m_find_value : option string;
  m_max_streams : Z;
  m_remove_non_matching : bool;
  m_loose : bool;
  m_min_score : option py_float;
  m_allow_no_callsign : bool;
  m_tie_break : string;
  m_not_in_group : list Z;
  m_in_group : list Z }.

Record group_params := GroupParams {
  gp_name_template : string; gp_pattern : option string; gp_replacement : string; gp_if_exists : string }.

Record sort_params := SortParams { sp_group : option Z; sp_request : sort_request }.

(** Actions by type; [Unknown] is a type the enumeration does not have. *)
Inductive action :=
| CREATE_CHANNEL (p : create_params)
| CREATE_GROUP (p : group_params)
| MERGE_STREAMS (p : merge_params)
| ASSIGN_LOGO (value : string) (epg_id : option Z)
| ASSIGN_TVG_ID (value : string)
| ASSIGN_EPG (p : epg_params)
| ASSIGN_PROFILE (profile : option Z)
| ASSIGN_CHANNEL_PROFILE (ids : list Z)
| SET_CHANNEL_NUMBER (value : pyval)
| SET_VARIABLE (p : variable_params)
| PROBE_STREAMS
| SORT_GROUP (p : sort_params)
| REMOVE_FROM_CHANNEL
| SET_STREAM_PRIORITY (priority : string)
| SKIP
| STOP_PROCESSING
| LOG_MATCH (message : string)
| Unknown (type : string).

Section run.
Context {W : Type} `{!Environment W}.

(** ** Groups *)

Definition _execute_create_group (p : group_params) (template_ctx : list (string * pyval)) : M (state W) ActionResult :=
  do! c := context in
  do! group_name := _apply_name_transform (expand_template (gp_name_template p) template_ctx (custom_variables c))
                      (gp_pattern p) (gp_replacement p) in
  do! x := executor in
  let details := match last_transform_error (notes x) with Some e => [e] | None => [] end in
  let here id r := with_details details (about "group" id (Some group_name) r) in
  match group_name with
  | EmptyString =>
      ret (with_details details (failed_with "Empty group name"
        (plain false "create_group" "Group name is empty after template expansion")))
  | _ =>
      match _find_group_by_name x group_name with
      | Some g =>
          on_ctx (on_current_group_id (fun _ => Some (g_id g)));;
          ret (skipping (here (Some (g_id g)) (plain true "create_group"
            (if bool_decide (gp_if_exists p = "use_existing") then "Using existing group " +:+ quoted group_name
             else "Group " +:+ quoted group_name +:+ " already exists, skipped"))))
      | None =>
          if dry_run c then
            on_exec (on_groups (on_created_groups (d_set (lower group_name) (Group (-1) group_name))));;
            ret (creating (here None (plain true "create_group" ("Would create group " +:+ quoted group_name))))
          else
            try_except
              (do! g := api (CreateChannelGroup group_name) in
               on_exec (on_groups (on_created_groups (d_set (lower group_name) g)));;
               on_ctx (on_current_group_id (fun _ => Some (g_id g)));;
               ret (creating (here (Some (g_id g)) (plain true "create_group" ("Created group " +:+ quoted group_name)))))
              (fun e => ret (with_details details (failed_with (exc_text e)
                 (plain false "create_group" ("Failed to create group " +:+ quoted group_name)))))
      end
  end.

(** ** Numbers *)

Definition _execute_set_channel_number (value : pyval) : M (state W) ActionResult :=
  do! c := context in
  match truthy_id (current_channel_id c) with
  | None => ret (failed_with "No channel to update" (plain false "set_channel_number" "No channel context for set_channel_number"))
  | Some id =>
      do! x := executor in
      let here r := about "channel" (Some id) None r in
      match assigned (nums x) !! id with
      | Some n => ret (skipping (here (plain true "set_channel_number" ("Channel already numbered #" +:+ number_text n +:+ " this run"))))
      | None =>
          do! number := pure (match _get_next_channel_number (used (nums x)) value with
                              | Ok n => Ok n | Raise e => Raise (exc_of e) end) in
          let assign := on_exec (on_nums (on_assigned (fun m => <[id := number]> m))) in
          let write := match by_channel_id x id with Some (place, _) => on_channel place (set_number number) | None => ret tt end in
          if dry_run c then
            assign;; write;;
            ret (modifying true None (here (plain true "set_channel_number" ("Would set channel number to " +:+ number_text number))))
          else
            let previous := match by_channel_id x id with Some (_, ch) => c_number ch | None => PNone end in
            try_except
              (api (UpdateChannel id [("channel_number", number)]);;
               write;;
               on_exec (on_nums (on_used (fun u => _mark_channel_number_used u number)));;
               assign;;
               ret (modifying true (Some [("channel_number", previous)])
                 (here (plain true "set_channel_number" ("Set channel number to " +:+ number_text number)))))
              (fun e => ret (failed_with (exc_text e) (plain false "set_channel_number" "Failed to set channel number")))
      end
  end.

(** ** Sorting *)

Definition or_none (a b : option Z) : option Z := match a with Some _ => a | None => b end.

Definition _execute_sort_group (p : sort_params) (rule_target : option Z) : M (state W) ActionResult :=
  do! x := executor in
  do! c := context in
  let of_channel := id ← truthy_id (current_channel_id c); p ← by_channel_id x id; c_group p.2 in
  match or_none (sp_group p) (or_none (current_group_id c) (or_none of_channel rule_target)) with
  | None => ret (failed_with ("No group_id could be resolved - provide an explicit group_id param, run this after " +:+
              "create_channel/create_group/merge_streams, or set the rule's target group") (plain false "sort_group" "sort_group could not resolve a target group"))
  | Some g =>
      on_ctx (on_sort_group_requests (fun m => <[g := sp_request p]> m));;
      ret (about "group" (Some g) None (plain true "sort_group"
        ("Queued group " +:+ str_of_Z g +:+ " for alphabetical sort (" +:+ s_order (sp_request p) +:+ ")")))
  end.

(** ** A stream in its channel *)

(** The channel a stream is in: the executor's, with its place, or the API's. *)
Definition channel_of_stream (id : Z) : M (state W) (option nat * channel) :=
  do! x := executor in
  match by_channel_id x id with
  | Some (place, ch) => ret (Some place, ch)
  | None => do! ch := api (GetChannel id) in ret (None, ch)
  end.

Definition write_streams (place : option nat) (streams : list Z) : M (state W) unit :=
  match place with Some p => on_channel p (set_streams streams) | None => ret tt end.

Definition skipped_plain (type description : string) : ActionResult := skipping (plain true type description).

(** The two actions on a stream's own channel share everything up to the new order. *)
Definition with_stream_channel (type : string) (st : stream)
    (k : option nat -> channel -> list Z -> M (state W) ActionResult) : M (state W) ActionResult :=
  match truthy_id (stream_channel st) with
  | None => ret (skipped_plain type "Stream not assigned to any channel, skipped")
  | Some id =>
      do! r := attempt (channel_of_stream id) in
      match r with
      | Raise e => ret (failed_with (exc_text e) (plain false type ("Failed to fetch channel " +:+ str_of_Z id)))
      | Ok (place, ch) =>
          let streams := current_streams ch in
          if bool_decide (stream_id st ∈ streams) then k place ch streams
          else ret (skipped_plain type ("Stream not in channel " +:+ quoted (c_name ch) +:+ ", skipped"))
      end
  end.

Definition without (id : Z) (streams : list Z) : list Z := List.filter (fun s => negb (bool_decide (s = id))) streams.

Definition _execute_remove_from_channel (st : stream) : M (state W) ActionResult :=
  with_stream_channel "remove_from_channel" st (fun place ch streams =>
    let here r := about "stream" (Some (stream_id st)) (Some (stream_name st)) r in
    let left := without (stream_id st) streams in
    do! c := context in
    if dry_run c then
      ret (modifying true None (here (plain true "remove_from_channel" ("Would remove stream from channel " +:+ quoted (c_name ch)))))
    else
      try_except
        (api (UpdateChannel (default 0 (stream_channel st)) [("streams", ids_value left)]);;
         write_streams place left;;
         ret (modifying true (Some [("streams", ids_value streams)])
           (here (plain true "remove_from_channel" ("Removed stream from channel " +:+ quoted (c_name ch))))))
        (fun e => ret (failed_with (exc_text e)
           (plain false "remove_from_channel" ("Failed to remove stream from channel " +:+ quoted (c_name ch)))))).

Definition reordered (priority : string) (id : Z) (streams : list Z) : list Z :=
  if bool_decide (priority = "highest") then id :: without id streams else without id streams ++ [id].

Definition _execute_set_stream_priority (priority : string) (st : stream) : M (state W) ActionResult :=
  with_stream_channel "set_stream_priority" st (fun place ch streams =>
    let id := default 0 (stream_channel st) in
    let here r := about "channel" (Some id) (Some (c_name ch)) r in
    let moved := reordered priority (stream_id st) streams in
    if bool_decide (moved = streams) then
      ret (skipped_plain "set_stream_priority" ("Stream already at " +:+ priority +:+ " priority in " +:+ quoted (c_name ch) +:+ ", skipped"))
    else
      do! c := context in
      if dry_run c then
        ret (modifying true None (here (plain true "set_stream_priority"
          ("Would move stream to " +:+ priority +:+ " priority in channel " +:+ quoted (c_name ch)))))
      else
        try_except
          (api (UpdateChannel id [("streams", ids_value moved)]);;
           write_streams place moved;;
           ret (modifying true (Some [("streams", ids_value streams)]) (here (plain true "set_stream_priority"
             ("Moved stream to " +:+ priority +:+ " priority in channel " +:+ quoted (c_name ch))))))
          (fun e => ret (failed_with (exc_text e)
             (plain false "set_stream_priority" ("Failed to set stream priority in channel " +:+ quoted (c_name ch)))))).

(** ** [merge_streams] *)

(** The lookups, with the marker they leave. *)
Definition note_block (blocked : option nat) : M (state W) unit := on_exec (on_gate (on_last_manual_block (fun _ => blocked))).

Definition find_by_name (name : string) (q : lookup) : M (state W) (option nat) :=
  do! x := executor in
  let '(found, blocked) := _find_channel_by_name engine x name q false false in
  note_block blocked;; ret found.

Definition find_unique (name : string) (q : lookup) : M (state W) (option nat) :=
  do! x := executor in
  let '(found, blocked) := _find_unique_channel_by_exact_identity x name q in
  note_block blocked;; ret found.

Definition marker : M (state W) (option nat) := gets (fun s => last_manual_block (gate (exec s))).

(** [_resolve_scored_fuzzy]: the best admitted channel of the allowed groups. *)
Definition better (tie_break : string) (s : Score) (ch : channel) (best : nat * channel * Score) : bool :=
  let '(_, ch', s') := best in
  Float.ltb (score s') (score s) ||
  Float.eqb (score s) (score s') && bool_decide (tie_break = "lowest_id") && String.ltb (str_of_Z (c_id ch)) (str_of_Z (c_id ch')).

Definition _resolve_scored_fuzzy (x : Executor) (st : stream) (min_score : py_float) (allowed : list Z)
    (allow_no_callsign : bool) (tie_break : string) : option (nat * channel * Score) :=
  foldl (fun best place =>
    match at_place x place with
    | None => best
    | Some ch =>
        if negb (match c_group ch with Some g => bool_decide (g ∈ allowed) | None => false end) ||
           bool_decide (c_name ch = EmptyString) then best
        else
          let s := score_one (stream_name st) (c_name ch) (tvg_id st) (c_tvg_id ch) in
          if negb (admissible s min_score allow_no_callsign) then best
          else match best with
               | None => Some (place, ch, s)
               | Some b => if better tie_break s ch b then Some (place, ch, s) else best
               end
    end) None (seq 0 (existing_count x)).

Definition scored_provenance (min_score : py_float) (allowed : list Z) (rule_id : option Z) (s : Score) : pyval :=
  PDict ([("score", rounded s); ("effective_threshold", PFloat min_score)] ++ evidence s ++
         [("rule_id", null_id rule_id); ("allowlist_groups", ids_value allowed)]).

(** One word list begins the other. *)
Definition begins (a b : list string) : bool :=
  let '(shorter, longer) := if (List.length a <=? List.length b)%nat then (a, b) else (b, a) in
  bool_decide (firstn (List.length shorter) longer = shorter).

Definition prefix_matches (x : Executor) (core : string) : list nat :=
  let words := split_words (NameNormalizer.clean (lower (open_parens (String.length core) core))) in
  if (List.length words <? 2)%nat then []
  else List.concat (map (fun '(key, place) =>
         let ch_words := split_words key in
         if (2 <=? List.length ch_words)%nat && begins words ch_words then [place] else [])
         (map_to_list (slot (core_names (chans x))))).

Definition core_slot (x : Executor) (key : string) : option nat := slot (core_names (chans x)) !! lower key.

(** The legacy cascade: the core name, without its parentheses, as a word prefix of just one. *)
Definition anyone : lookup := Lookup None true.
Definition slot_or_name (key : string) : M (state W) (option nat) :=
  do! x := executor in
  match core_slot x key with Some p => ret (Some p) | None => find_by_name key anyone end.

Definition core_fallback (e : Engine) (st : stream) : M (state W) (option nat) :=
  match extract_core_name e (stream_name st) with
  | Raise _ | Ok EmptyString => ret None
  | Ok core =>
      do! found := slot_or_name core in
      match found with
      | Some p => ret (Some p)
      | None =>
          let bare := deparenthesized core in
          do! found := (if bool_decide (lower bare = lower core) then ret None else slot_or_name bare) in
          match found with
          | Some p => ret (Some p)
          | None => do! x := executor in
                    match prefix_matches x core with [p] => ret (Some p) | _ => ret None end
          end
      end
  end.

Definition call_sign_fallback (e : Engine) (st : stream) : M (state W) (option nat) :=
  do! x := executor in
  match extract_call_sign e (stream_name st) with
  | Ok (Some (String c s)) => ret (callsigns (chans x) !! String c s)
  | _ => ret None
  end.

(** [first] if it found one, or else [second]. *)
Definition or_try (first second : M (state W) (option nat)) : M (state W) (option nat) :=
  do! found := first in match found with Some p => ret (Some p) | None => second end.

Definition scored_fuzzy (p : merge_params) : bool := m_loose p && match m_min_score p with Some _ => true | None => false end.

(** The explicit ways of [existing_channel]; with [name_exact], what the gate turned away. *)
Definition explicit_find (p : merge_params) (st : stream) (q : lookup) (template_ctx : list (string * pyval)) :
    M (state W) (option nat * option nat) :=
  do! c := context in
  do! x := executor in
  if negb (bool_decide (m_target p = "existing_channel")) then ret (None, None)
  else if bool_decide (m_find_by p = Some "name_exact") then
    do! found := find_by_name (expand_template (default "" (m_find_value p)) template_ctx (custom_variables c)) q in
    do! blocked := marker in
    ret (found, match found with None => blocked | Some _ => None end)
  else if bool_decide (m_find_by p = Some "name_regex") then ret (_find_channel_by_regex x (default "" (m_find_value p)), None)
  else if bool_decide (m_find_by p = Some "tvg_id") then
    ret (_find_channel_by_tvg_id x (if has_text (m_find_value p) then default "" (m_find_value p) else default "" (tvg_id st)), None)
  else ret (None, None).

(** [target_channel_not_in_group], [target_channel_in_group] *)
Definition group_refused (p : merge_params) (ch : channel) : option string :=
  let member l := match c_group ch with Some g => bool_decide (g ∈ l) | None => false end in
  let name := "Skipped: target channel " +:+ quoted (c_name ch) in
  if member (m_not_in_group p) then
    Some (name +:+ " is in excluded group " +:+ id_text (c_group ch) +:+ " (target_channel_not_in_group)")
  else match m_in_group p with
       | [] => None
       | l => if member l then None
              else Some (name +:+ " group " +:+ id_text (c_group ch) +:+ " is not in allowed groups [" +:+
                           String.concat ", " (map str_of_Z l) +:+ "] (target_channel_in_group)")
       end.

(** [_ensure_channel_m3u_counts] *)
Definition count_accounts (id : Z) (accounts : list (option Z)) (m : gmap (Z * Z) nat) : gmap (Z * Z) nat :=
  foldl (fun m a => match a with Some z => <[(id, z) := S (default 0%nat (m !! (id, z)))]> m | None => m end) m accounts.

Definition _ensure_channel_m3u_counts (id : Z) : M (state W) unit :=
  do! x := executor in
  if bool_decide (id ∈ seeded (merges x)) then ret tt
  else
    on_exec (on_merges (on_seeded (fun s => {[ id ]} ∪ s)));;
    do! r := attempt (api (GetChannelStreams id)) in
    match r with
    | Ok accounts => on_exec (on_merges (on_m3u_counts (count_accounts id accounts)))
    | Raise _ => ret tt
    end.

(** The stream goes in, unless its provider has its share. *)
Definition merge_into (p : merge_params) (place : nat) (ch : channel) (st : stream) (provenance : option pyval) :
    M (state W) ActionResult :=
  let id := c_id ch in
  on_exec (on_merges (on_merged_into (fun m => <[id := {[ stream_id st ]} ∪ default ∅ (m !! id)]> m)));;
  (if m_remove_non_matching p then on_exec (on_merges (on_prune_enabled (fun s => {[ id ]} ∪ s))) else ret tt);;
  match m3u_account_id st with
  | Some account =>
      if 0 <? m_max_streams p then
        _ensure_channel_m3u_counts id;;
        do! x := executor in
        let current := Z.of_nat (default 0%nat (m3u_counts (merges x) !! (id, account))) in
        let provider := match m3u_account_name st with Some (String c s) => String c s | _ => "provider #" +:+ str_of_Z account end in
        if m_max_streams p <=? current then
          ret (skipping (about "channel" (Some id) (Some (c_name ch)) (plain true "merge_streams"
            ("Skipped: " +:+ quoted (c_name ch) +:+ " already has " +:+ str_of_Z current +:+ " stream(s) from " +:+ provider +:+
             " (limit: " +:+ str_of_Z (m_max_streams p) +:+ "/provider)"))))
        else _add_stream_to_channel place ch st provenance
      else _add_stream_to_channel place ch st provenance
  | None => _add_stream_to_channel place ch st provenance
  end.

Definition blocked_text (ch : channel) : string :=
  "matched manual channel " +:+ quoted (c_name ch) +:+ " (id=" +:+ str_of_Z (c_id ch) +:+ ") but allow_manual_channel_merge is off".

(** No channel to merge into. *)
Definition nothing_to_merge (p : merge_params) (st : stream) (blocked : option channel) : M (state W) ActionResult :=
  let existing := bool_decide (m_target p = "existing_channel") in
  match blocked with
  | Some ch =>
      let here r := about "channel" (Some (c_id ch)) (Some (c_name ch)) r in
      _journal_manual_channel_block ch st "merge_streams";;
      ret (if existing then failed_with "Channel not found for merge (manual channel blocked)"
             (here (plain false "merge_streams" ("Merge blocked: " +:+ blocked_text ch +:+
                " - treated as not found (enable it on the rule to merge into hand-built channels)")))
           else skipping (here (plain true "merge_streams" ("Skipped: " +:+ blocked_text ch +:+
             " - treated as not found; stream not merged (merge_streams only adds to existing channels; " +:+
             "enable allow_manual_channel_merge on the rule to merge into hand-built channels)"))))
  | None =>
      ret (if existing then failed_with "Channel not found for merge"
             (plain false "merge_streams" ("No channel found matching " +:+ default "None" (m_find_by p) +:+ "=" +:+
                                           quoted (default "None" (m_find_value p))))
           else skipped_plain "merge_streams"
             "No existing channel found - stream skipped (merge_streams only adds to existing channels)")
  end.

(** Where the stream would go: a place, the scorer's provenance, and a hand-built channel the
    gate turned away on the way. *)
Definition resolve_merge (p : merge_params) (st : stream) (o : rule_options) (rule_id : option Z)
    (template_ctx : list (string * pyval)) : M (state W) (option nat * option pyval * option nat) :=
  let q := Lookup (if match_scope_target_group o then rule_scope_group_id o else None) (negb (allow_manual_channel_merge o)) in
  let loose := m_loose p && negb (scored_fuzzy p) && match normalization_group_ids o with [] => false | _ => true end in
  do! explicit := explicit_find p st q template_ctx in
  do! x := executor in
  let scored := match explicit.1, m_min_score p with
    | None, Some min_score =>
        if scored_fuzzy p then _resolve_scored_fuzzy x st min_score (m_in_group p) (m_allow_no_callsign p) (m_tie_break p) else None
    | _, _ => None
    end in
  let provenance := match scored, m_min_score p with
    | Some (_, _, s), Some min_score => Some (scored_provenance min_score (m_in_group p) rule_id s)
    | _, _ => None
    end in
  let found := match scored with Some (place, _, _) => Some place | None => explicit.1 end in
  do! step := match found with
    | None =>
        if negb (scored_fuzzy p) && bool_decide (m_target p = "auto") then
          do! f := find_unique (template_name st (normalization_group_ids o)) q in
          do! m := marker in
          ret (f, match f, explicit.2 with None, None => m | _, b => b end)
        else ret (None, explicit.2)
    | Some place => ret (Some place, explicit.2)
    end in
  do! found := match step.1, engine with
    | None, Some e => if loose then or_try (core_fallback e st) (call_sign_fallback e st) else ret None
    | f, _ => ret f
    end in
  ret (found, provenance, step.2).

Definition _execute_merge_streams (p : merge_params) (st : stream) (o : rule_options) (rule_id : option Z)
    (template_ctx : list (string * pyval)) : M (state W) ActionResult :=
  if negb (bool_decide (m_target p ∈ ["existing_channel"; "auto"])) then nothing_to_merge p st None
  else
    do! resolved := resolve_merge p st o rule_id template_ctx in
    let '(found, provenance, blocked) := resolved in
    do! x := executor in
    do! m := marker in
    let scope := if match_scope_target_group o then rule_scope_group_id o else None in
    let missed b := nothing_to_merge p st (place ← b; at_place x place) in
    match place ← found; ch ← at_place x place; Some (place, ch) with
    | None => missed (match blocked with None => m | b => b end)
    | Some (place, ch) =>
        let manual := _is_manual_channel x ch in
        if negb (allow_manual_channel_merge o) && manual then missed (Some place)
        else
          (if manual then _journal_manual_channel_adoption ch st "merge_streams" else ret tt);;
          if negb (scope_allows (Lookup scope false) ch) then missed blocked
          else match group_refused p ch with
               | Some reason => ret (skipping (about "channel" (Some (c_id ch)) (Some (c_name ch)) (plain true "merge_streams" reason)))
               | None => merge_into p place ch st provenance
               end
    end.

(** ** After the run *)

(** What pruning says of one channel: nothing, what it would do, what it did. *)
Inductive prune_report := WouldPrune (id : Z) (removed : nat) | Pruned (id : Z) (removed : nat) | PruneFailed (id : Z) (error : string).

Definition kept_streams (x : Executor) (id : Z) (streams : list Z) : list Z :=
  List.filter (fun s => bool_decide (s ∈ default ∅ (merged_into (merges x) !! id))) streams.

Definition prune_channel (dry : bool) (id : Z) : M (state W) (list prune_report) :=
  do! x := executor in
  do! r := attempt (channel_of_stream id) in
  match r with
  | Raise _ => ret []
  | Ok (place, ch) =>
      let streams := current_streams ch in
      let kept := kept_streams x id streams in
      let removed := (List.length streams - List.length kept)%nat in
      if bool_decide (kept = streams) then ret []
      else if dry then ret [WouldPrune id removed]
      else
        try_except
          (api (UpdateChannel id [("streams", ids_value kept)]);; write_streams place kept;; ret [Pruned id removed])
          (fun e => ret [PruneFailed id (exc_text e)])
  end.

Fixpoint prune_all (dry : bool) (ids : list Z) : M (state W) (list prune_report) :=
  match ids with
  | [] => ret []
  | id :: ids => do! a := prune_channel dry id in do! b := prune_all dry ids in ret (a ++ b)
  end.

Definition prune_merge_streams (dry : bool) : M (state W) (list prune_report) :=
  do! x := executor in prune_all dry (elements (prune_enabled (merges x))).

Definition already_gone (e : exc) : bool := contains "404" (exc_text e) || contains "not found" (lower (exc_text e)).

Definition known_name (x : Executor) (id : Z) : string :=
  match by_channel_id x id with Some (_, ch) => c_name ch | None => "ID:" +:+ str_of_Z id end.

Definition remove_channel (id : Z) : M (state W) ActionResult :=
  do! x := executor in
  try_except
    (api (DeleteChannel id);;
     ret (about "channel" (Some id) (Some (known_name x id))
       (plain true "remove_channel" ("Deleted orphaned channel " +:+ quoted (known_name x id)))))
    (fun e => ret
       (if already_gone e then about "channel" (Some id) None (plain true "remove_channel" ("Channel " +:+ str_of_Z id +:+ " already deleted"))
        else failed_with (exc_text e) (plain false "remove_channel" ("Failed to delete channel " +:+ str_of_Z id)))).

Definition move_channel_to_uncategorized (id : Z) : M (state W) ActionResult :=
  do! x := executor in
  try_except
    (api (UpdateChannel id [("channel_group_id", PNone)]);;
     match by_channel_id x id with Some (place, _) => on_channel place (set_group None) | None => ret tt end;;
     ret (modifying true None (about "channel" (Some id) (Some (known_name x id))
       (plain true "move_channel" ("Moved orphaned channel " +:+ quoted (known_name x id) +:+ " to Uncategorized")))))
    (fun e => ret
       (if already_gone e then about "channel" (Some id) None (plain true "move_channel" ("Channel " +:+ str_of_Z id +:+ " already deleted"))
        else failed_with (exc_text e) (plain false "move_channel" ("Failed to move channel " +:+ str_of_Z id)))).

(** ** [execute] *)

Definition run_action (a : action) (st : stream) (o : rule_options) (rule_id : option Z)
    (template_ctx : list (string * pyval)) : M (state W) ActionResult :=
  match a with
  | CREATE_CHANNEL p => _execute_create_channel p st o template_ctx
  | CREATE_GROUP p => _execute_create_group p template_ctx
  | MERGE_STREAMS p => _execute_merge_streams p st o rule_id template_ctx
  | ASSIGN_LOGO value epg_id => _execute_assign_logo value epg_id st template_ctx
  | ASSIGN_TVG_ID value => _execute_assign_tvg_id value st template_ctx
  | ASSIGN_EPG p => _execute_assign_epg p st false
  | ASSIGN_PROFILE profile => _execute_assign_profile profile
  | ASSIGN_CHANNEL_PROFILE ids => _execute_assign_channel_profile ids rule_id
  | SET_CHANNEL_NUMBER v => _execute_set_channel_number v
  | SET_VARIABLE p => _execute_set_variable p template_ctx
  | PROBE_STREAMS =>
      on_ctx (on_probe_stream_ids (fun l => l ++ [stream_id st]));;
      ret (plain true "probe_streams" "Stream queued for probing after pipeline")
  | SORT_GROUP p => _execute_sort_group p (rule_target_group_id o)
  | REMOVE_FROM_CHANNEL => _execute_remove_from_channel st
  | SET_STREAM_PRIORITY priority => _execute_set_stream_priority priority st
  | SKIP => ret (skipping (plain true "skip" "Stream skipped by rule"))
  | STOP_PROCESSING => ret (plain true "stop_processing" "Stop processing further rules")
  | LOG_MATCH message => do! c := context in ret (plain true "log_match" (expand_template message template_ctx (custom_variables c)))
  | Unknown type => ret (failed_with "Unhandled action type" (plain false type ("Unhandled action type: " +:+ type)))
  end.

Definition unknown_type (type : string) : ActionResult :=
  failed_with ("Unknown action type: " +:+ type) (plain false type ("Unknown action type: " +:+ type)).

(** An unknown type is answered before anything is recorded. *)
Definition execute (a : action) (st : stream) (o : rule_options) (rule_id : option Z) : M (state W) ActionResult :=
  match a with
  | Unknown type => ret (unknown_type type)
  | _ =>
      do! c := context in
      do! r := run_action a st o rule_id (_build_template_context st c (normalization_group_ids o)) in
      on_ctx (add_result r);;
      ret r
  end.

(** The actions a rule runs on a stream, until one raises. *)
Fixpoint execute_all (l : list (action * stream)) (o : rule_options) (rule_id : option Z) : M (state W) (list ActionResult) :=
  match l with
  | [] => ret []
  | (a, st) :: l => do! r := execute a st o rule_id in do! rest := execute_all l o rule_id in ret (r :: rest)
  end.

End run.
End ExecutorRun.
