(* ===== verification/ExecutorLogic.v ===== *)
(** * A program logic for the executor's computations.

    [keeps Q m]: from a state with the invariant, [m] ends in one, related to the first, and
    answers something that satisfies [Q], whether or not it raises.  One rule per construct,
    and a tactic that walks a computation by them. *)
From S2P Require Import Prelude PyFloat PyValue PyText PyDict PyState ExecutorTypes.
From stdpp Require Import list gmap strings relations.
Open Scope Z_scope.
Open Scope py_scope.

Module ExecutorLogic.
Import ExecutorTypes.

Definition any {A} (_ : A) : Prop := True.

Section logic.
Context {S : Type} (I : S -> Prop) (R : S -> S -> Prop) `{!PreOrder R}.

Definition answers {A} (Q : A -> Prop) (r : result exc A) : Prop := match r with Ok a => Q a | Raise _ => True end.

Definition keeps {A} (Q : A -> Prop) (m : M S A) : Prop :=
  forall s, I s -> I (m s).2 /\ R s (m s).2 /\ answers Q (m s).1.

Lemma keeps_ret {A} (Q : A -> Prop) (a : A) : Q a -> keeps Q (ret a).
Proof. now intros Ha s Hs. Qed.
Lemma keeps_pure {A} (Q : A -> Prop) (r : result exc A) : answers Q r -> keeps Q (pure r).
Proof. now intros Hr s Hs. Qed.
Lemma keeps_gets {A} (Q : A -> Prop) (f : S -> A) : (forall s, I s -> Q (f s)) -> keeps Q (gets f).
Proof. intros Hf s Hs. split_and!; [done|reflexivity|cbn; auto]. Qed.
Lemma keeps_modify (Q : unit -> Prop) f : Q tt -> (forall s, I s -> I (f s) /\ R s (f s)) -> keeps Q (modify f).
Proof. intros HQ Hf s Hs. destruct (Hf s Hs). split_and!; done. Qed.

Lemma keeps_weaken {A} (Q Q' : A -> Prop) (m : M S A) : keeps Q m -> (forall a, Q a -> Q' a) -> keeps Q' m.
Proof.
  intros Hm HQ s Hs. destruct (Hm s Hs) as (Hi & Hr & Ha). split_and!; [done|done|].
  destruct (m s).1; [by apply HQ|done].
Qed.

Lemma keeps_bind {A B} (Q : A -> Prop) (Q' : B -> Prop) (m : M S A) (k : A -> M S B) :
  keeps Q m -> (forall a, Q a -> keeps Q' (k a)) -> keeps Q' (bind m k).
Proof.
  intros Hm Hk s Hs. destruct (Hm s Hs) as (Hi & Hr & Ha). unfold bind.
  destruct (m s) as [[a|e] s'] eqn:E; cbn in *; [|by split_and!].
  destruct (Hk a Ha s' Hi) as (Hi' & Hr' & Ha'). split_and!; [done|by etransitivity|done].
Qed.

Lemma keeps_try {A} (Q : A -> Prop) (m : M S A) (h : exc -> M S A) :
  keeps Q m -> (forall e, keeps Q (h e)) -> keeps Q (try_except m h).
Proof.
  intros Hm Hh s Hs. destruct (Hm s Hs) as (Hi & Hr & Ha). unfold try_except.
  destruct (m s) as [[a|e] s'] eqn:E; cbn in *; [by split_and!|].
  destruct (Hh e s' Hi) as (Hi' & Hr' & Ha'). split_and!; [done|by etransitivity|done].
Qed.

Lemma keeps_attempt {A} (Q : A -> Prop) (m : M S A) : keeps Q m -> keeps (answers Q) (attempt m).
Proof.
  intros Hm s Hs. destruct (Hm s Hs) as (Hi & Hr & Ha). unfold attempt.
  destruct (m s) as [r s'] eqn:E; cbn in *. by split_and!.
Qed.

Lemma keeps_always {A} (Q : A -> Prop) (m : M S A) (after : M S unit) :
  keeps Q m -> keeps any after -> keeps Q (always m after).
Proof.
  intros Hm Ha s Hs. destruct (Hm s Hs) as (Hi & Hr & Hq). unfold always.
  destruct (m s) as [r s'] eqn:E; cbn in *. destruct (Ha s' Hi) as (Hi' & Hr' & _).
  destruct (after s') as [u s'']; cbn in *. split_and!; [done|by etransitivity|done].
Qed.
End logic.
Arguments keeps {S} I R {A} Q m.

(** ** On the executor's state *)

Section executor.
Context {W : Type} `{!Environment W}.
Variables (IX : Executor -> W -> Prop) (IC : ExecutionContext -> Prop).
Variables (FX : Executor -> Executor -> Prop) (RW : W -> W -> Prop).
Context `{!PreOrder FX, !PreOrder RW}.

Definition holds (s : state W) : Prop := IX (exec s) (world s) /\ IC (ctx s).
Definition follows (s s' : state W) : Prop := FX (exec s) (exec s') /\ RW (world s) (world s').

#[global] Instance follows_pre : PreOrder follows.
Proof.
  split; [intros s; split; reflexivity|]. intros s t u [H1 H2] [H3 H4]. split; etransitivity; eassumption.
Qed.

Abbreviation runs := (keeps holds follows).

Lemma runs_executor : runs (fun x => exists w, IX x w) executor.
Proof. unfold executor, context. apply keeps_gets; [apply _|]. intros s [H _]. by eexists. Qed.
Lemma runs_context : runs IC context.
Proof. unfold executor, context. apply keeps_gets; [apply _|]. by intros s [_ H]. Qed.

Lemma runs_on_exec g : (forall x w, IX x w -> IX (g x) w /\ FX x (g x)) -> runs any (on_exec (W := W) g).
Proof.
  intros Hg. unfold on_exec, on_ctx. apply keeps_modify; [done|]. intros s [H Hc]. destruct (Hg _ _ H). split; [by split|split; [done|reflexivity]].
Qed.
Lemma runs_on_ctx g : (forall c, IC c -> IC (g c)) -> runs any (on_ctx (W := W) g).
Proof.
  intros Hg. unfold on_exec, on_ctx. apply keeps_modify; [done|]. intros s [H Hc]. split; [split; [done|by apply Hg]|split; reflexivity].
Qed.
Lemma runs_api {A} (Q : A -> Prop) (c : call A) :
  (forall x w, IX x w -> IX x (perform c w).2 /\ RW w (perform c w).2 /\ answers Q (perform c w).1) -> runs Q (api c).
Proof.
  intros Hc s [H HC]. destruct (Hc _ _ H) as (H1 & H2 & H3). unfold api. destruct (perform c (world s)) as [r w]; cbn in *.
  split_and!; [by split|by split|done].
Qed.
Lemma runs_any {A} (Q : A -> Prop) (m : M (state W) A) : runs Q m -> runs any m.
Proof. intros H. eapply keeps_weaken; [exact H|done]. Qed.
End executor.

(** Walk a computation: bind by bind, branch by branch. *)
Create HintDb runs.

Ltac runs_step :=
  lazymatch goal with
  | |- keeps _ _ _ (let _ := _ in _) => cbv zeta
  | |- keeps _ _ _ (bind _ _) =>
      first [ eapply keeps_bind; [apply _|solve [eauto 2 with runs]|intros ? ?]
            | refine (keeps_bind _ _ any _ _ _ _ _); [|intros ? _] ]
  | |- keeps _ _ _ (always _ _) => apply keeps_always; [apply _| |]
  | |- keeps _ _ _ (try_except _ _) => apply keeps_try; [apply _| |intros ?]
  | |- keeps _ _ any (attempt _) => eapply keeps_weaken; [apply (keeps_attempt _ _ any)|done]
  | |- keeps _ _ any (pure _) => apply keeps_pure; [apply _|unfold answers, any; repeat case_match; exact Logic.I]
  | |- keeps _ _ any (ret _) => apply keeps_ret; [apply _|done]
  | |- keeps _ _ _ (if ?b then _ else _) => destruct b eqn:?
  | |- keeps _ _ _ (match ?b with _ => _ end) => destruct b eqn:?
  end.

End ExecutorLogic.
