(* ===== verification/ExecutorSafety.v ===== *)
(** * Hand-built channels are left alone, and dry runs write nothing.

    A rule that did not opt in never changes a channel that is neither marked as created by
    the pipeline nor in its ledger: no call touches it and the executor's copy of it stays as
    it is, whatever actions run and whatever the engine and the API answer.  Two actions have
    no such gate, because they look for no channel: they act on the one their stream is in.  A
    channel whose own streams a script removes or reorders is outside the claim. *)
From S2P Require Import Prelude PyFloat PyValue PyText PyDict PyState ChannelNumber DatePlaceholders.
From S2P Require Import NumberAllocation ExecutorTypes ExecutorIndex ProfileMembership ExecutorActions ExecutorAssign ExecutorRun.
From S2P Require Import ExecutorLogic.
From stdpp Require Import list gmap strings.
Open Scope Z_scope.
Open Scope py_scope.

Module ExecutorSafety.
Import ExecutorTypes ExecutorIndex ProfileMembership ExecutorActions ExecutorAssign ExecutorRun ExecutorLogic.

(** ** What a lookup answers *)

Definition passes (q : lookup) (x : Executor) (p : nat) : Prop :=
  exists ch, at_place x p = Some ch /\ scope_allows q ch = true /\ manual_allows q x ch = true.

Lemma in_scope_passes q x place blocked b : _in_scope q x place blocked = (true, b) ->
  exists p, place = Some p /\ passes q x p.
Proof.
  unfold _in_scope. destruct place as [p|]; [|done]. destruct (at_place x p) as [ch|] eqn:E; [|done].
  destruct (scope_allows q ch) eqn:Es; [|done]. destruct (manual_allows q x ch) eqn:Em; [|done].
  intros _. exists p. split; [done|]. by exists ch.
Qed.

Lemma scan_passes q x primary places : forall blocked p b,
  scan q x primary places blocked = (Some p, b) -> passes q x p.
Proof.
  induction places as [|p' places IH]; intros blocked p b; cbn [scan]; [done|].
  case_bool_decide; [apply IH|].
  destruct (_in_scope q x (Some p') blocked) as [[] b'] eqn:E; [|apply IH].
  intros [= <- <-]. apply in_scope_passes in E as (p & [= <-] & Hp). done.
Qed.

Lemma pick_passes q x primary places blocked p b :
  _pick q x primary places blocked = (Some p, b) -> passes q x p.
Proof.
  unfold _pick. destruct (_in_scope q x primary blocked) as [[] b'] eqn:E; [|apply scan_passes].
  intros [= -> <-]. apply in_scope_passes in E as (p' & [= <-] & Hp). done.
Qed.

Lemma stages_passes q x l : Forall (fun f : stage => forall blocked p b, f blocked = (Some p, b) -> passes q x p) l ->
  forall blocked p b, stages l blocked = (Some p, b) -> passes q x p.
Proof.
  induction 1 as [|f l Hf _ IH]; intros blocked p b; cbn; [done|].
  destruct (f blocked) as [[p'|] b'] eqn:E; [|apply IH]. intros [= <- <-]. by eapply Hf.
Qed.

Lemma fuzzy_passes e q x name :
  Forall (fun f : stage => forall blocked p b, f blocked = (Some p, b) -> passes q x p) (fuzzy_stages e q x name).
Proof.
  unfold fuzzy_stages. apply Forall_app; split; destruct (_ || _); try constructor; try constructor;
    intros blocked p b; apply pick_passes.
Qed.

Lemma found_passes e x name q exact fold p b :
  _find_channel_by_name e x name q exact fold = (Some p, b) -> passes q x p.
Proof.
  unfold _find_channel_by_name. apply stages_passes. apply Forall_app; split; [|apply Forall_app; split].
  - constructor; [|repeat constructor; intros blocked p' b'; apply pick_passes].
    intros blocked p' b'. destruct (_in_scope q x _ blocked) as [[] b''] eqn:E; [|done].
    apply in_scope_passes in E as (p'' & -> & Hp). by intros [= <- <-].
  - destruct e as [e|]; [|constructor]. destruct exact; [constructor|apply fuzzy_passes].
  - destruct (fold && _); repeat constructor. intros blocked p' b'. apply pick_passes.
Qed.

Lemma eligible_passes q x places : forall seen blocked l b,
  eligible q x places seen blocked = (l, b) -> Forall (passes q x) l.
Proof.
  induction places as [|p places IH]; intros seen blocked l b; cbn [eligible]; [intros [= <- <-]; constructor|].
  destruct (at_place x p) as [ch|] eqn:Ep; [|apply IH]. case_bool_decide; [apply IH|].
  destruct (_in_scope q x (Some p) blocked) as [ok b1] eqn:E.
  destruct (eligible q x places _ b1) as [rest b2] eqn:Er. intros [= <- <-].
  specialize (IH _ _ _ _ Er). destruct ok; [|done]. constructor; [|done].
  apply in_scope_passes in E as (p' & [= <-] & Hp). done.
Qed.

Lemma unique_passes x name q p b :
  _find_unique_channel_by_exact_identity x name q = (Some p, b) -> passes q x p.
Proof.
  unfold _find_unique_channel_by_exact_identity.
  destruct (eligible q x _ ∅ _) as [[|p' [|]] b'] eqn:E; try done. intros [= -> <-].
  apply eligible_passes in E. by inversion E.
Qed.

(** ** Who may be changed *)

(** The channel a call changes. *)
Definition touches {A} (c : call A) : option Z :=
  match c with
  | UpdateChannel id _ | DeleteChannel id => Some id
  | UpdateProfileChannel _ id _ => Some id
  | _ => None
  end.

(** The channel the stream came from, for the two actions that act on it; the others look for
    their channel. *)
Definition own_channel (p : action * stream) : option Z :=
  match p.1 with REMOVE_FROM_CHANNEL | SET_STREAM_PRIORITY _ => truthy_id (stream_channel p.2) | _ => None end.

Section hand_built.
Context {W : Type} `{!Environment W}.
(** The hand-built channels' ids, and their places among the channels that exist. *)
Variables (kept : gset Z) (places : gset nat).
Variable RW : W -> W -> Prop.
Context `{!PreOrder RW}.
Hypothesis calls_permitted : forall A (c : call A) w,
  (forall id, touches c = Some id -> id ∉ kept) -> RW w (perform c w).2.
Hypothesis creates_fresh : forall data w ch w', perform (CreateChannel data) w = (Ok ch, w') -> c_id ch ∉ kept.

(** The channels at those places, and only they, carry those ids; none is the pipeline's. *)
Record guarded (x : Executor) : Prop := {
  g_managed : forall id, id ∈ kept -> id ∉ managed (gate x);
  g_places : forall p ch, at_place x p = Some ch -> p ∈ places <-> c_id ch ∈ kept;
  g_known : forall p, p ∈ places -> is_Some (at_place x p);
  g_manual : forall p ch, at_place x p = Some ch -> p ∈ places -> c_auto_created ch = false;
  g_by_id : forall id p, by_id (chans x) !! id = Some p -> exists ch, at_place x p = Some ch /\ c_id ch = id;
  g_dry : forall id, id ∈ kept -> next_dry_run_id x < id }.

Definition unselected (c : ExecutionContext) : Prop := forall id, current_channel_id c = Some id -> id ∉ kept.
Definition untouched (x x' : Executor) : Prop := forall p, p ∈ places -> at_place x' p = at_place x p.

#[global] Instance untouched_pre : PreOrder untouched.
Proof. split; [by intros x p|]. intros x y z H1 H2 p Hp. by rewrite H2, H1. Qed.

Abbreviation safe := (keeps (holds (fun x (_ : W) => guarded x) unselected) (follows untouched RW)).

(** *** Steps *)

Definition quiet (g : Executor -> Executor) : Prop := forall x,
  chans (g x) = chans x /\ managed (gate (g x)) = managed (gate x) /\ next_dry_run_id (g x) <= next_dry_run_id x.

Lemma quiet_guarded g x : quiet g -> guarded x -> guarded (g x) /\ untouched x (g x).
Proof.
  intros Hg [H1 H2 H3 H4 H5 H6]. destruct (Hg x) as (Ec & Em & En). split.
  - split; unfold at_place; rewrite ?Ec, ?Em; try done. intros id Hid. specialize (H6 id Hid). lia.
  - intros p _. unfold at_place. by rewrite Ec.
Qed.

Lemma safe_quiet g : quiet g -> safe any (on_exec g).
Proof. intros Hg. apply runs_on_exec; [apply _..|]. intros x _ Hx. by apply quiet_guarded. Qed.

Lemma safe_executor : safe guarded executor.
Proof. eapply keeps_weaken; [apply runs_executor; apply _|]. by intros x [_ Hx]. Qed.
Lemma safe_context : safe unselected context.
Proof. apply runs_context; apply _. Qed.
Hint Resolve safe_executor safe_context : runs.

Lemma safe_ctx g : (forall c, current_channel_id (g c) = current_channel_id c) -> safe any (on_ctx g).
Proof. intros Hg. apply runs_on_ctx; [apply _..|]. intros c Hc id. rewrite Hg. apply Hc. Qed.

Lemma safe_select id : id ∉ kept -> safe any (select_channel id).
Proof. intros Hid. apply runs_on_ctx; [apply _..|]. intros c _ id' [= <-]. done. Qed.

Lemma safe_api {A} (c : call A) : (forall id, touches c = Some id -> id ∉ kept) -> safe any (api c).
Proof. intros Hc. apply runs_api; [apply _..|]. intros x w Hx. split_and!; [done|by apply calls_permitted|by destruct (perform c w).1]. Qed.

Lemma safe_create data : safe (fun ch => c_id ch ∉ kept) (api (CreateChannel data)).
Proof.
  apply runs_api; [apply _..|]. intros x w Hx. split_and!; [done|by apply calls_permitted|].
  destruct (perform (CreateChannel data) w) as [[ch|e] w'] eqn:E; [|done]. by eapply creates_fresh.
Qed.

(** A channel that is not hand-built may be changed in place. *)
Lemma safe_on_channel p g : p ∉ places -> (forall ch, c_id (g ch) = c_id ch) -> safe any (on_channel p g).
Proof.
  intros Hp Hid. apply runs_on_exec; [apply _..|]. intros x _ [H1 H2 H3 H4 H5 H6].
  assert (Ho : forall p', p' <> p -> at_place (on_chans (on_heap (alter g p)) x) p' = at_place x p')
    by (intros p' Hne; unfold at_place; cbn; by rewrite list_lookup_alter_ne).
  assert (Hs : at_place (on_chans (on_heap (alter g p)) x) p = g <$> at_place x p)
    by (unfold at_place; cbn; by rewrite list_lookup_alter_eq).
  split; [|intros p' Hp'; apply Ho; by intros ->]. split; [done| | | | |done].
  - intros p' ch. destruct (decide (p' = p)) as [->|Hne]; [|rewrite Ho by done; apply H2].
    rewrite Hs. destruct (at_place x p) as [ch'|] eqn:E; [|done]. intros [= <-]. rewrite Hid. by apply H2.
  - intros p' Hp'. rewrite Ho by (by intros ->). by apply H3.
  - intros p' ch E Hp'. rewrite Ho in E by (by intros ->). by eapply H4.
  - intros id p' E. destruct (H5 id p' E) as (ch & Ep & Ei). destruct (decide (p' = p)) as [->|Hne].
    + rewrite Hs, Ep. exists (g ch). by rewrite Hid.
    + rewrite Ho by done. by exists ch.
Qed.

Lemma passes_open q x p : guarded x -> block_manual q = true -> passes q x p -> p ∉ places.
Proof.
  intros [H1 H2 H3 H4 H5 H6] Hq (ch & Ep & _ & Hm) Hp. unfold manual_allows, _is_manual_channel in Hm.
  rewrite Hq, (H4 p ch Ep Hp), bool_decide_eq_false_2 in Hm; [done|]. by apply H1, (H2 p ch).
Qed.

Lemma open_id x p ch : guarded x -> at_place x p = Some ch -> p ∉ places -> c_id ch ∉ kept.
Proof. intros Hg Ep Hp Hid. by apply Hp, (g_places x Hg p ch). Qed.

Lemma safe_indexes g : (forall c, heap (g c) = heap c /\ by_id (g c) = by_id c) -> safe any (on_exec (on_chans g)).
Proof.
  intros Hg. apply runs_on_exec; [apply _..|]. intros x _ [H1 H2 H3 H4 H5 H6]. destruct (Hg (chans x)) as [Eh Ei].
  split; [|intros p _; unfold at_place; cbn; by rewrite Eh].
  split; unfold at_place in *; cbn; rewrite ?Eh, ?Ei; done.
Qed.

Lemma register_heap p id a b c : heap (register p id a b c) = heap c.
Proof. unfold register. cbn. by destruct (bool_decide _). Qed.
Lemma register_by_id p id a b c : by_id (register p id a b c) = <[id := p]> (by_id c).
Proof. unfold register. cbn. by destruct (bool_decide _). Qed.

Lemma adopt_guarded x ch a b n : guarded x -> c_id ch ∉ kept ->
  let x' := on_nums n (on_chans (fun c => register (List.length (heap (chans x))) (c_id ch) a b
                                            (on_heap (fun h => h ++ [ch]) c)) x) in
  guarded x' /\ untouched x x'.
Proof.
  intros [H1 H2 H3 H4 H5 H6] Hid x'.
  assert (Hh : heap (chans x') = heap (chans x) ++ [ch]) by (subst x'; cbn [on_nums on_chans chans]; by rewrite register_heap).
  assert (Hb : by_id (chans x') = <[c_id ch := List.length (heap (chans x))]> (by_id (chans x)))
    by (subst x'; cbn [on_nums on_chans chans]; by rewrite register_by_id).
  assert (Hold : forall p c, at_place x p = Some c -> at_place x' p = Some c)
    by (intros p c E; unfold at_place in *; rewrite Hh; by apply lookup_app_l_Some).
  assert (Hnew : forall p c, at_place x' p = Some c -> at_place x p = Some c \/ p = List.length (heap (chans x)) /\ c = ch).
  { intros p c E. unfold at_place in *. rewrite Hh in E. apply lookup_app_Some in E as [E|[Hle E]]; [by left|right].
    apply list_lookup_singleton_Some in E as [E <-]. split; [lia|done]. }
  assert (Hfresh : List.length (heap (chans x)) ∉ places).
  { intros Hp. destruct (H3 _ Hp) as [c E]. unfold at_place in E. apply lookup_lt_Some in E. lia. }
  split; [|intros p Hp; destruct (H3 p Hp) as [c E]; by rewrite E, (Hold p c E)].
  split; [done| | | | |done].
  - intros p c E. destruct (Hnew p c E) as [E'|[-> ->]]; [by apply H2|]. by split.
  - intros p Hp. destruct (H3 p Hp) as [c E]. exists c. by apply Hold.
  - intros p c E Hp. destruct (Hnew p c E) as [E'|[-> ->]]; [by eapply H4|done].
  - intros id p E. rewrite Hb in E. destruct (decide (id = c_id ch)) as [->|Hne].
    + rewrite lookup_insert_eq in E. injection E as <-. exists ch. split; [|done].
      unfold at_place. rewrite Hh. by apply list_lookup_middle.
    + rewrite lookup_insert_ne in E by done. destruct (H5 id p E) as (c & Ec & Ei). exists c. split; [by apply Hold|done].
Qed.

Lemma safe_adopt ch a b n : c_id ch ∉ kept -> safe any (adopt ch a b n).
Proof.
  intros Hid s [Hx Hc]. destruct (adopt_guarded (exec s) ch a b (on_used (fun u => _mark_channel_number_used u n)) Hx Hid) as [Hg Hu].
  unfold adopt. cbn. split_and!; [by split|by split|done].
Qed.

Lemma safe_manage id : id ∉ kept -> safe any (on_exec (on_gate (on_managed (fun s => {[ id ]} ∪ s)))).
Proof.
  intros Hid. apply runs_on_exec; [apply _..|]. intros x _ [H1 H2 H3 H4 H5 H6]. split; [|by intros p _].
  split; try done. intros id' Hk. cbn. specialize (H1 id' Hk). set_solver.
Qed.

(** *** Actions *)

Ltac quiet := apply safe_quiet; intros ?; split_and!; [reflexivity|reflexivity|first [apply Z.le_refl|cbn -[Z.sub]; lia]].
Ltac safe_leaf :=
  first
  [ solve [eauto 2 with runs]
  | quiet
  | apply safe_ctx; reflexivity
  | apply safe_api; intros ? [=]; done
  | solve [apply safe_select; eauto 2]
  | apply keeps_ret; [apply _|done] ].
Ltac safe := intros; repeat first [runs_step | safe_leaf].

Lemma safe_flush : safe any _flush_journal_buffer.
Proof. unfold _flush_journal_buffer. safe. Qed.
Hint Resolve safe_flush : runs.

Lemma safe_note e : safe any (note_entry e).
Proof. unfold note_entry. safe. Qed.
Hint Resolve safe_note : runs.

Lemma safe_transform_error o : safe any (set_transform_error o).
Proof. unfold set_transform_error. safe. Qed.
Hint Resolve safe_transform_error : runs.

Lemma safe_adoption_note ch st type : safe any (_journal_manual_channel_adoption ch st type).
Proof. apply safe_note. Qed.
Lemma safe_block_note ch st type : safe any (_journal_manual_channel_block ch st type).
Proof. unfold _journal_manual_channel_block. safe. Qed.
Lemma safe_merge_note id name st b a v : safe any (_journal_merge id name st b a v).
Proof. apply safe_note. Qed.
Lemma safe_transform_note p r f : safe any (_journal_name_transform_failure p r f).
Proof. unfold _journal_name_transform_failure. safe. Qed.
Hint Resolve safe_adoption_note safe_block_note safe_merge_note safe_transform_note : runs.

Lemma safe_transform name p r : safe any (_apply_name_transform name p r).
Proof. unfold _apply_name_transform. safe. Qed.

Lemma safe_logo url hint : safe any (_resolve_logo_id url hint).
Proof. unfold _resolve_logo_id, remember_logo. safe. Qed.
Hint Resolve safe_transform safe_logo : runs.

Lemma safe_track id st : safe any (track_m3u_count id st).
Proof. unfold track_m3u_count. safe. Qed.
Hint Resolve safe_track : runs.

Lemma safe_update_call id data : id ∉ kept -> safe any (api (UpdateChannel id data)).
Proof. intros Hid. apply safe_api. by intros ? [= <-]. Qed.

Lemma safe_add p ch st v : p ∉ places -> c_id ch ∉ kept -> safe any (_add_stream_to_channel p ch st v).
Proof.
  intros Hp Hid. pose proof (safe_update_call (c_id ch)). pose proof (safe_on_channel p).
  unfold _add_stream_to_channel. safe; eauto.
Qed.

Lemma safe_update p ch st : p ∉ places -> c_id ch ∉ kept -> safe any (_update_channel p ch st).
Proof.
  intros Hp Hid. pose proof (safe_update_call (c_id ch)). pose proof (safe_on_channel p).
  unfold _update_channel. safe; eauto.
Qed.

Lemma safe_reindex p a b : safe any (on_exec (on_chans (reindex p a b))).
Proof. by apply safe_indexes. Qed.

Lemma safe_rename p ch name : p ∉ places -> c_id ch ∉ kept -> safe any (rename_existing p ch name).
Proof.
  intros Hp Hid. pose proof (safe_update_call (c_id ch)). pose proof (safe_on_channel p). pose proof safe_reindex.
  unfold rename_existing. safe; eauto.
Qed.

Lemma safe_pending st name g : safe any (_maybe_enqueue_pending_merge st name g).
Proof. unfold _maybe_enqueue_pending_merge. safe. Qed.
Hint Resolve safe_pending : runs.

Lemma safe_flips id flips : id ∉ kept -> forall current r, safe any (flip_all id flips current r).
Proof.
  intros Hid. assert (Hc : forall p b, safe any (api (UpdateProfileChannel p id b))) by
    (intros p b; apply safe_api; by intros ? [= <-]).
  induction flips as [|[p b] flips IH]; intros current r; cbn [flip_all]; [safe|].
  safe; eauto.
Qed.

Lemma safe_profiles id ids : id ∉ kept -> safe any (_apply_exclusive_profile_membership id ids).
Proof. intros Hid. pose proof (safe_flips id). unfold _apply_exclusive_profile_membership. safe; eauto. Qed.

Lemma safe_defaults id : id ∉ kept -> safe any (_assign_default_profiles id).
Proof. intros Hid. pose proof (safe_profiles id). unfold _assign_default_profiles. safe; eauto. Qed.

Lemma safe_now_created id : id ∉ kept -> safe any (now_created id).
Proof. intros Hid. pose proof (safe_select id). unfold now_created. safe; eauto. Qed.

Lemma dry_id_open x : guarded x -> next_dry_run_id x ∉ kept.
Proof. intros Hg Hid. pose proof (g_dry x Hg _ Hid). lia. Qed.

Lemma safe_simulate st a b n g label details : safe any (simulate_creation st a b n g label details).
Proof.
  unfold simulate_creation. eapply keeps_bind; [apply _|apply safe_executor|intros x Hx].
  pose proof (dry_id_open x Hx) as Hid. pose proof (safe_now_created _ Hid).
  assert (Ha : forall ch a b n, c_id ch = next_dry_run_id x -> safe any (adopt ch a b n)) by
    (intros ch a' b' n' E; apply safe_adopt; by rewrite E).
  safe; eauto.
Qed.

Lemma safe_upstream st a b n g label details : safe any (create_upstream st a b n g label details).
Proof.
  unfold create_upstream. apply keeps_try; [apply _| |safe].
  refine (keeps_bind _ _ any _ _ _ _ _); [safe|intros logo _].
  eapply keeps_bind; [apply _|apply safe_create|intros ch Hid].
  pose proof (safe_manage (c_id ch) Hid). pose proof (safe_now_created (c_id ch) Hid).
  pose proof (safe_defaults (c_id ch) Hid). pose proof (safe_adopt (mark_auto_created ch) a b n Hid).
  cbn zeta. unfold finish_creation. safe; eauto.
Qed.
Hint Resolve safe_simulate safe_upstream : runs.

Lemma safe_create_new st p g name details : safe any (create_new st p g name details).
Proof. unfold create_new. safe. Qed.
Hint Resolve safe_create_new : runs.

(** What a search finds may be changed. *)
Definition open_found (r : option (nat * channel) * list string) : Prop :=
  match r.1 with Some (p, ch) => (p ∉ places) /\ c_id ch ∉ kept | None => True end.

Lemma safe_find st o name q : block_manual q = true -> safe open_found (find_for_creation st o name q).
Proof.
  intros Hq. unfold find_for_creation. eapply keeps_bind; [apply _|apply safe_executor|intros x Hx].
  destruct (_find_channel_by_name _ x name q false (fold_key o)) as [found blocked] eqn:E.
  refine (keeps_bind _ _ any _ _ _ _ _); [safe|intros ? _].
  destruct found as [p|].
  - apply found_passes in E. pose proof (passes_open q x p Hx Hq E) as Hp.
    destruct (at_place x p) as [ch|] eqn:Ep; [|by apply keeps_ret; [apply _|]].
    pose proof (open_id x p ch Hx Ep Hp).
    refine (keeps_bind _ _ any _ _ _ _ _); [safe|intros ? _]. by apply keeps_ret; [apply _|].
  - destruct (blocked ≫= at_place x) as [ch|]; [|by apply keeps_ret; [apply _|]].
    refine (keeps_bind _ _ any _ _ _ _ _); [safe|intros ? _]. by apply keeps_ret; [apply _|].
Qed.

Lemma safe_channel_now p ch : p ∉ places -> c_id ch ∉ kept -> safe (fun ch' => c_id ch' ∉ kept) (channel_now p ch).
Proof.
  intros Hp Hid. unfold channel_now. eapply keeps_bind; [apply _|apply safe_executor|intros x Hx].
  apply keeps_ret; [apply _|]. destruct (at_place x p) as [ch'|] eqn:E; [|done]. by eapply open_id.
Qed.

Lemma safe_use p ch st ps name details : p ∉ places -> c_id ch ∉ kept -> safe any (use_existing p ch st ps name details).
Proof.
  intros Hp Hid. pose proof (safe_select (c_id ch) Hid). pose proof (safe_add p ch st None Hp Hid).
  pose proof (safe_update p ch st Hp Hid). unfold use_existing. safe; eauto.
Qed.

Lemma safe_create_channel p st o t : allow_manual_channel_merge o = false -> safe any (_execute_create_channel p st o t).
Proof.
  intros Ho. unfold _execute_create_channel.
  eapply keeps_bind; [apply _|apply safe_context|intros c Hc].
  refine (keeps_bind _ _ any _ _ _ _ _); [safe|intros pre _].
  eapply keeps_bind; [apply _|apply safe_executor|intros x Hx].
  destruct (normalized_creation_name pre (normalization_group_ids o)) as [name notes]. cbn zeta.
  eapply keeps_bind; [apply _|apply safe_find; cbn; by rewrite Ho|intros found Hf].
  refine (keeps_bind _ _ any _ _ _ _ _); [|safe].
  unfold open_found in Hf. destruct found as [[[place ch]|] more]; cbn [fst snd] in *; [|safe].
  destruct Hf as [Hp Hid]. pose proof (safe_rename place ch name Hp Hid).
  refine (keeps_bind _ _ any _ _ _ _ _); [safe; eauto|intros renamed _].
  eapply keeps_bind; [apply _|by apply safe_channel_now|intros ch' Hid'].
  refine (keeps_bind _ _ any _ _ _ _ _); [by apply safe_use|safe].
Qed.
Hint Resolve safe_create_channel : runs.

Lemma safe_create_group p t : safe any (_execute_create_group p t).
Proof. unfold _execute_create_group. safe. Qed.
Hint Resolve safe_create_group : runs.

Lemma by_id_open x id p ch : guarded x -> id ∉ kept -> by_channel_id x id = Some (p, ch) -> p ∉ places.
Proof.
  intros Hg Hid E. unfold by_channel_id in E.
  destruct (by_id (chans x) !! id) as [p'|] eqn:Ei; cbn in E; [|done].
  destruct (g_by_id x Hg id p' Ei) as (ch' & Ep & Ec). rewrite Ep in E. cbn in E. injection E as <- <-.
  intros Hp. apply Hid. rewrite <- Ec. by apply (g_places x Hg p' ch').
Qed.

Lemma safe_set_number v : safe any (_execute_set_channel_number v).
Proof.
  unfold _execute_set_channel_number. eapply keeps_bind; [apply _|apply safe_context|intros c Hc].
  destruct (truthy_id (current_channel_id c)) as [id|] eqn:Et; [|safe].
  assert (Hid : id ∉ kept) by (apply Hc; destruct (current_channel_id c) as [[]|]; done).
  eapply keeps_bind; [apply _|apply safe_executor|intros x Hx]. cbn zeta.
  assert (Hw : forall n, safe any (match by_channel_id x id with Some (p, _) => on_channel p (set_number n) | None => ret tt end)).
  { intros n. destruct (by_channel_id x id) as [[p ch]|] eqn:E; [|safe]. apply safe_on_channel; [by eapply by_id_open|done]. }
  pose proof (safe_update_call id) as Hu. destruct (assigned (nums x) !! id) as [n|]; [safe|].
  refine (keeps_bind _ _ any _ _ _ _ _); [safe|]. intros nb _. specialize (Hw nb).
  destruct (dry_run c); [|apply keeps_try; [apply _| |safe]].
  - do 2 (refine (keeps_bind _ _ any _ _ _ _ _); [first [exact Hw|safe]|intros ? _]). safe.
  - refine (keeps_bind _ _ any _ _ _ _ _); [by apply Hu|intros ? _].
    refine (keeps_bind _ _ any _ _ _ _ _); [exact Hw|intros ? _]. safe.
Qed.

(** Actions on the current channel. *)
Lemma safe_current type k : (forall c id, unselected c -> id ∉ kept -> safe any (k c id)) -> safe any (with_current type k).
Proof.
  intros Hk. unfold with_current. eapply keeps_bind; [apply _|apply safe_context|intros c Hc].
  destruct (truthy_id (current_channel_id c)) as [id|] eqn:Et; [|safe].
  apply Hk; [done|]. apply Hc. destruct (current_channel_id c) as [[]|]; done.
Qed.

Lemma safe_in_cache id g : id ∉ kept -> (forall ch, c_id (g ch) = c_id ch) -> safe any (in_cache id g).
Proof.
  intros Hid Hg. unfold in_cache. eapply keeps_bind; [apply _|apply safe_executor|intros x Hx].
  destruct (by_channel_id x id) as [[p ch]|] eqn:E; [|safe]. apply safe_on_channel; [by eapply by_id_open|done].
Qed.

Lemma take_entry_id p e ch : c_id (take_entry p e ch) = c_id ch.
Proof. unfold take_entry. by destruct (_ && _). Qed.

Ltac on_current :=
  intros c id Hc Hid; pose proof (safe_update_call id); pose proof (fun g => safe_in_cache id g Hid);
  safe; eauto using take_entry_id.

Lemma safe_assign_logo v e st t : safe any (_execute_assign_logo v e st t).
Proof. apply safe_current. on_current. Qed.
Lemma safe_assign_tvg_id v st t : safe any (_execute_assign_tvg_id v st t).
Proof. apply safe_current. on_current. Qed.
Lemma safe_assign_entry p source id e dry : id ∉ kept -> safe any (assign_entry p source id e dry).
Proof.
  intros Hid. pose proof (safe_update_call id). pose proof (fun g => safe_in_cache id g Hid).
  unfold assign_entry. safe; eauto using take_entry_id.
Qed.
Lemma safe_assign_epg p st d : safe any (_execute_assign_epg p st d).
Proof.
  apply safe_current. intros c id Hc Hid. pose proof (fun p s e d => safe_assign_entry p s id e d Hid).
  unfold defer. safe; eauto.
Qed.
Lemma safe_assign_profile p : safe any (_execute_assign_profile p).
Proof. apply safe_current. on_current. Qed.
Lemma safe_mark id r : id ∉ kept -> safe any (_mark_channel_profile_ownership id r).
Proof.
  intros Hid. pose proof (safe_update_call id). pose proof (fun g => safe_in_cache id g Hid).
  unfold _mark_channel_profile_ownership. safe; eauto.
Qed.
Lemma safe_profile_write id r ids : id ∉ kept -> safe any (_assign_channel_profile_write id r ids).
Proof. intros Hid. pose proof (safe_mark id). pose proof (safe_profiles id). unfold _assign_channel_profile_write. safe; eauto. Qed.
Lemma safe_assign_channel_profile ids r : safe any (_execute_assign_channel_profile ids r).
Proof.
  apply safe_current. intros c id Hc Hid. pose proof (safe_profile_write id).
  unfold _resolve_channel_effective_group, fetched_settings, with_lock. safe; eauto.
Qed.
Lemma safe_set_variable p t : safe any (_execute_set_variable p t).
Proof. unfold _execute_set_variable. safe. Qed.
Hint Resolve safe_assign_logo safe_assign_tvg_id safe_assign_epg safe_assign_profile safe_assign_channel_profile safe_set_variable : runs.

Lemma safe_sort p t : safe any (_execute_sort_group p t).
Proof. unfold _execute_sort_group. safe. Qed.
Hint Resolve safe_set_number safe_sort : runs.

Lemma safe_note_block b : safe any (note_block b).
Proof. unfold note_block. safe. Qed.
Lemma safe_marker : safe any marker.
Proof. apply keeps_gets; [apply _|done]. Qed.
Hint Resolve safe_note_block safe_marker : runs.

Lemma safe_find_by_name name q : safe any (find_by_name name q).
Proof. unfold find_by_name. safe. Qed.
Lemma safe_find_unique name q : safe any (find_unique name q).
Proof. unfold find_unique. safe. Qed.
Hint Resolve safe_find_by_name safe_find_unique : runs.

Lemma safe_resolve p st o r t : safe any (resolve_merge p st o r t).
Proof. unfold resolve_merge, explicit_find, or_try, core_fallback, call_sign_fallback, slot_or_name. safe. Qed.
Hint Resolve safe_resolve : runs.

Lemma safe_counts id : safe any (_ensure_channel_m3u_counts id).
Proof. unfold _ensure_channel_m3u_counts. safe. Qed.
Hint Resolve safe_counts : runs.

Lemma safe_merge_into p place ch st v : place ∉ places -> c_id ch ∉ kept -> safe any (merge_into p place ch st v).
Proof. intros Hp Hid. pose proof (safe_add place ch st v Hp Hid). unfold merge_into. safe; eauto. Qed.

Lemma safe_nothing p st b : safe any (nothing_to_merge p st b).
Proof. unfold nothing_to_merge. safe. Qed.
Hint Resolve safe_nothing : runs.

Lemma safe_merge p st o r t : allow_manual_channel_merge o = false -> safe any (_execute_merge_streams p st o r t).
Proof.
  intros Ho. unfold _execute_merge_streams. destruct (negb _); [safe|].
  refine (keeps_bind _ _ any _ _ _ _ _); [safe|intros [[found v] blocked] _].
  eapply keeps_bind; [apply _|apply safe_executor|intros x Hx].
  refine (keeps_bind _ _ any _ _ _ _ _); [safe|intros m _]. cbn zeta.
  destruct (found ≫= _) as [[place ch]|] eqn:E; [|safe]. rewrite Ho. cbn [negb andb].
  destruct (_is_manual_channel x ch) eqn:Em; [safe|].
  assert (Ep : at_place x place = Some ch).
  { destruct found as [p'|]; cbn in E; [|done]. destruct (at_place x p') eqn:E'; cbn in E; [|done]. by injection E as <- <-. }
  assert (Hp : place ∉ places).
  { apply (passes_open (Lookup None true) x place Hx eq_refl). exists ch. split_and!; [done|done|].
    unfold manual_allows. by rewrite Em. }
  pose proof (open_id x place ch Hx Ep Hp) as Hid. pose proof (safe_merge_into p place ch st v Hp Hid). safe; eauto.
Qed.
Hint Resolve safe_merge : runs.

(** A stream's own channel, when it may be changed. *)
Lemma safe_channel_of id : id ∉ kept ->
  safe (fun r => match r.1 with Some p => p ∉ places | None => True end) (channel_of_stream id).
Proof.
  intros Hid. unfold channel_of_stream. eapply keeps_bind; [apply _|apply safe_executor|intros x Hx].
  destruct (by_channel_id x id) as [[p ch]|] eqn:E; [apply keeps_ret; [apply _|]; by eapply by_id_open|].
  refine (keeps_bind _ _ any _ _ _ _ _); [safe|intros ch _]. by apply keeps_ret; [apply _|].
Qed.

Lemma safe_write_streams place l : match place with Some p => p ∉ places | None => True end -> safe any (write_streams place l).
Proof. intros Hp. unfold write_streams. destruct place; [by apply safe_on_channel|safe]. Qed.

Lemma safe_with_channel type st k :
  (forall id, truthy_id (stream_channel st) = Some id -> id ∉ kept) ->
  (forall id place ch l, truthy_id (stream_channel st) = Some id -> match place with Some p => p ∉ places | None => True end ->
     safe any (k place ch l)) -> safe any (with_stream_channel type st k).
Proof.
  intros Hid Hk. unfold with_stream_channel. destruct (truthy_id (stream_channel st)) as [id|]; [|safe].
  eapply keeps_bind; [apply _|by apply keeps_attempt, safe_channel_of, Hid|].
  intros [[place ch]|e] Hp; [|safe]. cbn in Hp. cbv zeta. case_bool_decide; [by apply (Hk id)|safe].
Qed.

Lemma truthy_default o id : truthy_id o = Some id -> default 0 o = id.
Proof. by destruct o as [[]|]; intros [= <-]. Qed.

Lemma safe_remove st : (forall id, truthy_id (stream_channel st) = Some id -> id ∉ kept) -> safe any (_execute_remove_from_channel st).
Proof.
  intros Hid. apply safe_with_channel; [done|]. intros id place ch l Hc Hp. rewrite (truthy_default _ _ Hc).
  pose proof (fun d => safe_update_call id d (Hid id Hc)). pose proof (fun l => safe_write_streams place l Hp). safe; eauto.
Qed.
Lemma safe_priority p st : (forall id, truthy_id (stream_channel st) = Some id -> id ∉ kept) -> safe any (_execute_set_stream_priority p st).
Proof.
  intros Hid. apply safe_with_channel; [done|]. intros id place ch l Hc Hp. rewrite (truthy_default _ _ Hc).
  pose proof (fun d => safe_update_call id d (Hid id Hc)). pose proof (fun l => safe_write_streams place l Hp). safe; eauto.
Qed.

Lemma safe_run_action a st o r t : allow_manual_channel_merge o = false ->
  (forall id, own_channel (a, st) = Some id -> id ∉ kept) -> safe any (run_action a st o r t).
Proof.
  intros Ho Ha. destruct a; cbn [run_action]; first [by apply safe_remove|by apply safe_priority|idtac]; clear Ha;
    safe; eauto using safe_create_channel, safe_merge.
Qed.

Lemma safe_add_result r : safe any (on_ctx (add_result r)).
Proof. by apply safe_ctx. Qed.

Lemma safe_execute a st o r : allow_manual_channel_merge o = false ->
  (forall id, own_channel (a, st) = Some id -> id ∉ kept) -> safe any (execute a st o r).
Proof.
  intros Ho Ha. pose proof (fun t => safe_run_action a st o r t Ho Ha) as Hrun. pose proof safe_add_result. clear Ha.
  unfold execute. destruct a; safe; eauto.
Qed.

Lemma safe_execute_all l o r : allow_manual_channel_merge o = false ->
  (forall p id, p ∈ l -> own_channel p = Some id -> id ∉ kept) -> safe any (execute_all l o r).
Proof.
  intros Ho. induction l as [|[a st] l IH]; intros Ha; cbn [execute_all]; [safe|].
  pose proof (safe_execute a st o r Ho (fun id => Ha (a, st) id ltac:(by left))) as He.
  specialize (IH (fun p id Hp => Ha p id ltac:(by right))). clear Ha. safe; eauto.
Qed.

End hand_built.

(** ** A run's start *)

(** The channels as the API lists them: one place per id, ids not negative. *)
Definition listed_well (channels : list channel) : Prop :=
  NoDup (map c_id channels) /\ Forall (fun ch => 0 <= c_id ch) channels.

(** Neither marked nor in the ledger. *)
Definition hand_built (ledger : list Z) (ch : channel) : bool := negb (c_auto_created ch) && negb (bool_decide (c_id ch ∈ ledger)).

(** Hand-built, and not the own channel of a stream that a script removes or reorders. *)
Definition spared (ledger : list Z) (l : list (action * stream)) (ch : channel) : bool :=
  hand_built ledger ch && negb (bool_decide (c_id ch ∈ omap own_channel l)).

(** The channels of some kind: their ids, their places. *)
Definition ids_where (kind : channel -> bool) (channels : list channel) : gset Z :=
  list_to_set (map c_id (List.filter kind channels)).
Definition places_where (kind : channel -> bool) (channels : list channel) : gset nat :=
  list_to_set (map fst (List.filter (fun p => kind p.2) (imap pair channels))).

Lemma elem_of_filtered {A} (f : A -> bool) l x : x ∈ List.filter f l <-> x ∈ l /\ f x = true.
Proof. by rewrite !list_elem_of_In, filter_In. Qed.

Lemma id_where kind channels id : id ∈ ids_where kind channels <-> exists ch, ch ∈ channels /\ kind ch = true /\ c_id ch = id.
Proof.
  unfold ids_where. rewrite elem_of_list_to_set, Prelude.elem_of_map.
  split; [intros (ch & -> & [? ?]%elem_of_filtered); by exists ch|].
  intros (ch & Hin & Hb & <-). exists ch. split; [done|by apply elem_of_filtered].
Qed.

Lemma elem_of_places {A} (l : list A) p x : (p, x) ∈ imap pair l <-> l !! p = Some x.
Proof.
  rewrite elem_of_lookup_imap. split; [intros (i & y & [= -> ->] & E); done|intros E; by exists p, x].
Qed.

Lemma place_where kind channels p : p ∈ places_where kind channels <-> exists ch, channels !! p = Some ch /\ kind ch = true.
Proof.
  unfold places_where. rewrite elem_of_list_to_set, Prelude.elem_of_map. split.
  - intros ([p' ch] & -> & [H1%elem_of_places Hb]%elem_of_filtered). by exists ch.
  - intros (ch & E & Hb). exists (p, ch). split; [done|]. apply elem_of_filtered. split; [by apply elem_of_places|done].
Qed.

Lemma built_by_id (l : list (nat * channel)) (m : gmap Z nat) id p :
  foldl (fun m p => <[c_id p.2 := p.1]> m) m l !! id = Some p -> m !! id = Some p \/ exists ch, (p, ch) ∈ l /\ c_id ch = id.
Proof.
  revert m. induction l as [|[p' ch] l IH]; intros m; cbn; [by left|]. intros H.
  destruct (IH _ H) as [E|(ch' & Hin & Hid)]; [|right; exists ch'; split; [by right|done]].
  destruct (decide (c_id ch = id)) as [<-|Hne].
  - rewrite lookup_insert_eq in E. injection E as ->. right. exists ch. split; [left|done].
  - rewrite lookup_insert_ne in E by done. by left.
Qed.

Lemma one_place channels p p' ch ch' : NoDup (map c_id channels) ->
  channels !! p = Some ch -> channels !! p' = Some ch' -> c_id ch = c_id ch' -> p = p'.
Proof.
  intros Hn E E' Hid. apply (NoDup_lookup (map c_id channels) p p' (c_id ch) Hn);
    rewrite list_lookup_fmap; [by rewrite E|by rewrite E', Hid].
Qed.

Lemma start_guarded e channels existing_groups members ledger guide_data kind :
  listed_well channels -> (forall ch, kind ch = true -> hand_built ledger ch = true) ->
  guarded (ids_where kind channels) (places_where kind channels) (new_executor e channels existing_groups members ledger guide_data).
Proof.
  intros [Hn Hp] Hk. split; unfold at_place; cbn.
  - intros id (ch & _ & Hb%Hk & <-)%id_where. unfold hand_built in Hb. apply andb_prop in Hb as [_ Hb].
    rewrite elem_of_list_to_set. apply negb_true_iff, bool_decide_eq_false in Hb. done.
  - intros p ch E. rewrite place_where, id_where. split.
    + intros (ch' & E' & Hb). exists ch. rewrite E in E'. injection E' as <-.
      split_and!; [by eapply list_elem_of_lookup_2|done|done].
    + intros (ch' & [p' E']%list_elem_of_lookup_1 & Hb & Hid).
      rewrite (one_place channels p p' ch ch') by done. by exists ch'.
  - intros p (ch & E & _)%place_where. by exists ch.
  - intros p ch E (ch' & E' & Hb)%place_where. rewrite E in E'. injection E' as <-.
    apply Hk in Hb. unfold hand_built in Hb. by destruct (c_auto_created ch).
  - intros id p E. apply built_by_id in E as [E|(ch & Hin%elem_of_places & Hid)]; [by rewrite lookup_empty in E|by exists ch].
  - intros id (ch & Hin & _ & <-)%id_where. rewrite Forall_forall in Hp. specialize (Hp ch Hin). lia.
Qed.

(** C10: a rule that did not opt in leaves hand-built channels alone: whatever sequence of
    actions runs, dry or live, and whatever the normalization engine, the regular expressions,
    the scorer and the API answer, every call that changes a channel names one that is the
    pipeline's own, and each hand-built channel is kept unchanged by the executor too.
    Excepted are the channels that hold a stream which one of the actions removes from its own
    channel or reorders there ([own_channel]: the code gates neither action). *)
Theorem hand_built_channels_left_alone {W} `{!Environment W} (RW : W -> W -> Prop) `{!PreOrder RW}
    channels existing_groups members ledger guide_data dry l o rule w :
  listed_well channels -> allow_manual_channel_merge o = false ->
  (forall A (c : call A) w, (forall id, touches c = Some id -> id ∉ ids_where (spared ledger l) channels) -> RW w (perform c w).2) ->
  (forall data w ch w', perform (CreateChannel data) w = (Ok ch, w') -> c_id ch ∉ ids_where (spared ledger l) channels) ->
  let s := (execute_all l o rule (State (new_executor engine channels existing_groups members ledger guide_data) (new_context dry) w)).2 in
  RW w (world s) /\
  forall p ch, channels !! p = Some ch -> spared ledger l ch = true -> at_place (exec s) p = Some ch.
Proof.
  intros Hl Ho Hcalls Hfresh s.
  assert (Ha : forall p id, p ∈ l -> own_channel p = Some id -> id ∉ ids_where (spared ledger l) channels).
  { intros p id Hp Hid (ch & _ & Hs & <-)%id_where. unfold spared in Hs. apply andb_prop in Hs as [_ Hs].
    apply negb_true_iff, bool_decide_eq_false in Hs. apply Hs, list_elem_of_omap. by exists p. }
  destruct (safe_execute_all _ (places_where (spared ledger l) channels) RW Hcalls Hfresh l o rule Ho Ha
    (State (new_executor engine channels existing_groups members ledger guide_data) (new_context dry) w)) as (_ & [Hu Hr] & _).
  { split; [|by intros id]. apply start_guarded; [done|]. intros ch Hs. unfold spared in Hs. by apply andb_prop in Hs as [? _]. }
  split; [exact Hr|]. intros p ch E Hb. unfold s. rewrite (Hu p) by (apply place_where; by exists ch). exact E.
Qed.

End ExecutorSafety.
