(* ===== verification/ExecutorPreview.v ===== *)
(** * A dry run makes no call that writes, the journal's apart. *)
From S2P Require Import Prelude PyFloat PyValue PyText PyDict PyState ChannelNumber DatePlaceholders.
From S2P Require Import NumberAllocation ExecutorTypes ExecutorIndex ProfileMembership ExecutorActions ExecutorAssign ExecutorRun.
From S2P Require Import ExecutorLogic.
From stdpp Require Import list gmap strings.
Open Scope Z_scope.
Open Scope py_scope.

Module ExecutorPreview.
Import ExecutorTypes ExecutorIndex ProfileMembership ExecutorActions ExecutorAssign ExecutorRun ExecutorLogic.

(** The calls that leave the API as it is. *)
Definition reads {A} (c : call A) : bool :=
  match c with
  | GetChannel _ | GetChannelStreams _ | GetAllGroupSettings | GetChannels _ | FindLogoByUrl _ | LogEntries _ => true
  | _ => false
  end.

Section preview.
Context {W : Type} `{!Environment W}.
Variable RW : W -> W -> Prop.
Context `{!PreOrder RW}.
Hypothesis reads_permitted : forall A (c : call A) w, reads c = true -> RW w (perform c w).2.

Definition total (_ _ : Executor) : Prop := True.
#[global] Instance total_pre : PreOrder total.
Proof. by split. Qed.

Definition dry (c : ExecutionContext) : Prop := dry_run c = true.
Abbreviation calm := (keeps (holds (fun _ (_ : W) => True) dry) (follows total RW)).

Lemma calm_executor : calm any executor.
Proof. eapply keeps_weaken; [apply runs_executor; apply _|done]. Qed.
Lemma calm_context : calm dry context.
Proof. apply runs_context; apply _. Qed.
Lemma calm_exec g : calm any (on_exec g).
Proof. apply runs_on_exec; [apply _..|done]. Qed.
Lemma calm_ctx g : (forall c, dry_run (g c) = dry_run c) -> calm any (on_ctx g).
Proof. intros Hg. apply runs_on_ctx; [apply _..|]. intros c. unfold dry. by rewrite Hg. Qed.
Lemma calm_api {A} (c : call A) : reads c = true -> calm any (api c).
Proof. intros Hc. apply runs_api; [apply _..|]. intros x w _. split_and!; [done|by apply reads_permitted|by destruct (perform c w).1]. Qed.
Hint Resolve calm_executor calm_context calm_exec : runs.

(** The live branches do not run. *)
Ltac calm_leaf :=
  first
  [ solve [eauto 2 with runs]
  | match goal with H : dry ?c, E : dry_run ?c = false |- _ => unfold dry in H; congruence end
  | apply calm_ctx; reflexivity
  | apply calm_api; reflexivity
  | apply keeps_gets; [apply _|done]
  | apply keeps_ret; [apply _|done] ].
Ltac calm := intros; repeat first [runs_step | calm_leaf].

Lemma calm_note e : calm any (note_entry e).
Proof. unfold note_entry, _flush_journal_buffer. calm. Qed.
Hint Resolve calm_note : runs.
Lemma calm_adoption_note ch st type : calm any (_journal_manual_channel_adoption ch st type).
Proof. apply calm_note. Qed.
Lemma calm_block_note ch st type : calm any (_journal_manual_channel_block ch st type).
Proof. unfold _journal_manual_channel_block. calm. Qed.
Lemma calm_merge_note id name st b a v : calm any (_journal_merge id name st b a v).
Proof. apply calm_note. Qed.
Hint Resolve calm_adoption_note calm_block_note calm_merge_note : runs.

Lemma calm_transform name p r : calm any (_apply_name_transform name p r).
Proof. unfold _apply_name_transform, set_transform_error, _journal_name_transform_failure. calm. Qed.
Hint Resolve calm_transform : runs.

Lemma calm_add p ch st v : calm any (_add_stream_to_channel p ch st v).
Proof. unfold _add_stream_to_channel, on_channel, track_m3u_count, select_channel. calm. Qed.
Lemma calm_update_existing p ch st : calm any (_update_channel p ch st).
Proof. unfold _update_channel, select_channel. calm. Qed.
Lemma calm_rename p ch name : calm any (rename_existing p ch name).
Proof. unfold rename_existing, on_channel. calm. Qed.
Hint Resolve calm_add calm_update_existing calm_rename : runs.

Lemma calm_find st o name q : calm any (find_for_creation st o name q).
Proof. unfold find_for_creation. calm. Qed.
Lemma calm_use p ch st ps name details : calm any (use_existing p ch st ps name details).
Proof. unfold use_existing, select_channel. calm. Qed.
Lemma calm_channel_now p ch : calm any (channel_now p ch).
Proof. unfold channel_now. calm. Qed.
Hint Resolve calm_find calm_use calm_channel_now : runs.

Lemma calm_pending st name g : calm any (_maybe_enqueue_pending_merge st name g).
Proof.
  unfold _maybe_enqueue_pending_merge. eapply keeps_bind; [apply _|apply calm_executor|intros x _].
  eapply keeps_bind; [apply _|apply calm_context|intros c Hc]. rewrite Hc, orb_true_r. calm.
Qed.
Hint Resolve calm_pending : runs.

Lemma calm_simulate st a b n g label details : calm any (simulate_creation st a b n g label details).
Proof. unfold simulate_creation, adopt, now_created, select_channel. calm. Qed.
Hint Resolve calm_simulate : runs.
Lemma calm_create_new st p g name details : calm any (create_new st p g name details).
Proof. unfold create_new. calm. Qed.
Hint Resolve calm_create_new : runs.
Lemma calm_create_channel p st o t : calm any (_execute_create_channel p st o t).
Proof. unfold _execute_create_channel. calm. Qed.

Lemma calm_create_group p t : calm any (_execute_create_group p t).
Proof. unfold _execute_create_group. calm. Qed.
Lemma calm_set_number v : calm any (_execute_set_channel_number v).
Proof. unfold _execute_set_channel_number, on_channel. cbn zeta. calm. Qed.
Lemma calm_sort p t : calm any (_execute_sort_group p t).
Proof. unfold _execute_sort_group. calm. Qed.

Lemma calm_channel_of id : calm any (channel_of_stream id).
Proof. unfold channel_of_stream. calm. Qed.
Lemma calm_with_channel type st k : (forall p ch l, calm any (k p ch l)) -> calm any (with_stream_channel type st k).
Proof. intros Hk. pose proof calm_channel_of. unfold with_stream_channel. calm; eauto. Qed.
Lemma calm_remove st : calm any (_execute_remove_from_channel st).
Proof. unfold _execute_remove_from_channel. apply calm_with_channel. calm. Qed.
Lemma calm_priority p st : calm any (_execute_set_stream_priority p st).
Proof. unfold _execute_set_stream_priority. apply calm_with_channel. calm. Qed.

Lemma calm_current type k : (forall c id, dry c -> calm any (k c id)) -> calm any (with_current type k).
Proof. intros Hk. unfold with_current. eapply keeps_bind; [apply _|apply calm_context|intros c Hc]. calm; eauto. Qed.
Lemma calm_in_cache id g : calm any (in_cache id g).
Proof. unfold in_cache. calm. Qed.
Hint Resolve calm_in_cache : runs.
Lemma calm_assign_logo v e st t : calm any (_execute_assign_logo v e st t).
Proof. apply calm_current. calm. Qed.
Lemma calm_assign_tvg_id v st t : calm any (_execute_assign_tvg_id v st t).
Proof. apply calm_current. calm. Qed.
Lemma calm_assign_epg p st d : calm any (_execute_assign_epg p st d).
Proof. apply calm_current. unfold defer, assign_entry. calm. Qed.
Lemma calm_assign_profile p : calm any (_execute_assign_profile p).
Proof. apply calm_current. calm. Qed.
Lemma calm_assign_channel_profile ids r : calm any (_execute_assign_channel_profile ids r).
Proof. apply calm_current. calm. Qed.
Lemma calm_set_variable p t : calm any (_execute_set_variable p t).
Proof. unfold _execute_set_variable. calm. Qed.
Hint Resolve calm_assign_logo calm_assign_tvg_id calm_assign_epg calm_assign_profile calm_assign_channel_profile calm_set_variable : runs.

Lemma calm_by_name name q : calm any (find_by_name name q).
Proof. unfold find_by_name, note_block. calm. Qed.
Lemma calm_unique name q : calm any (find_unique name q).
Proof. unfold find_unique, note_block. calm. Qed.
Lemma calm_marker : calm any marker.
Proof. unfold marker. calm. Qed.
Hint Resolve calm_by_name calm_unique calm_marker : runs.
Lemma calm_resolve p st o r t : calm any (resolve_merge p st o r t).
Proof. unfold resolve_merge, explicit_find, or_try, core_fallback, call_sign_fallback, slot_or_name. calm. Qed.
Lemma calm_merge_into p place ch st v : calm any (merge_into p place ch st v).
Proof. unfold merge_into, _ensure_channel_m3u_counts. calm. Qed.
Lemma calm_nothing p st b : calm any (nothing_to_merge p st b).
Proof. unfold nothing_to_merge. calm. Qed.
Hint Resolve calm_resolve calm_merge_into calm_nothing : runs.
Lemma calm_merge p st o r t : calm any (_execute_merge_streams p st o r t).
Proof. unfold _execute_merge_streams. calm. Qed.

Lemma calm_execute a st o r : calm any (execute a st o r).
Proof.
  assert (Ha : forall t, calm any (run_action a st o r t)).
  { intros t. destruct a; cbn [run_action];
      eauto using calm_create_channel, calm_create_group, calm_merge, calm_set_number, calm_sort, calm_remove, calm_priority; calm. }
  assert (Hr : forall res, calm any (on_ctx (add_result res))) by (intros res; by apply calm_ctx).
  unfold execute. destruct a; calm; eauto.
Qed.

Lemma calm_execute_all l o r : calm any (execute_all l o r).
Proof. induction l as [|[a st] l IH]; cbn [execute_all]; [calm|]. pose proof (calm_execute a st o r). calm; eauto. Qed.

Lemma calm_prune ids : calm any (prune_all true ids).
Proof.
  pose proof calm_channel_of. induction ids as [|id ids IH]; cbn [prune_all]; [calm|].
  unfold prune_channel. calm; eauto.
Qed.
End preview.

(** C14: a dry run leaves Dispatcharr and the queue of pending merges as they are: whatever
    actions run on whatever streams, and through the pruning after them, only reads and the
    journal's own writes are made. *)
Theorem dry_run_writes_nothing {W} `{!Environment W} (RW : W -> W -> Prop) `{!PreOrder RW} l o rule x w :
  (forall A (c : call A) w, reads c = true -> RW w (perform c w).2) ->
  RW w (world (bind (execute_all l o rule) (fun _ => prune_merge_streams true) (State x (new_context true) w)).2).
Proof.
  intros Hr.
  enough (H : keeps (holds (fun _ (_ : W) => True) dry) (follows total RW) any
    (bind (execute_all l o rule) (fun _ => prune_merge_streams true))).
  { destruct (H (State x (new_context true) w)) as (_ & [_ Hw] & _); [by split|exact Hw]. }
  refine (keeps_bind _ _ any _ _ _ _ _); [by apply calm_execute_all|intros ? _].
  unfold prune_merge_streams. eapply keeps_bind; [apply _|by apply calm_executor|intros y _]. by apply calm_prune.
Qed.

End ExecutorPreview.
