(* ===== verification/ExecutorNumbers.v ===== *)
(** * The channels a run numbers have numbers of their own.

    Whatever actions a live run takes, a channel it created or numbered shares its number with
    no other channel the executor knows, and carries the number the executor recorded. *)
From S2P Require Import Prelude PyFloat PyValue PyText PyDict PyState ChannelNumber DatePlaceholders.
From S2P Require Import NumberAllocation ExecutorTypes ExecutorIndex ProfileMembership ExecutorActions ExecutorAssign ExecutorRun.
From S2P Require Import ExecutorLogic ExecutorSafety.
From stdpp Require Import list gmap strings.
Open Scope Z_scope.
Open Scope py_scope.

Module ExecutorNumbers.
Import ChannelNumber ExecutorTypes ExecutorIndex ProfileMembership ExecutorActions ExecutorAssign ExecutorRun ExecutorLogic ExecutorSafety.

(** ** What the allocator answers is free *)

Definition fresh (u : occupied) (v : pyval) : Prop := exists t, channel_number_ticks v = Ok t /\ t ∉ u.

Lemma free_from_fresh fuel u : forall tick step v, free_from fuel u tick step = Ok v -> fresh u v.
Proof.
  induction fuel as [|fuel IH]; intros tick step v; cbn [free_from]; [done|].
  destruct (channel_number_from_ticks tick) as [n|]; cbn; [|done].
  destruct (channel_number_ticks n) as [back|] eqn:Eb; cbn; [|done].
  destruct (negb (back =? tick)); [destruct (_ =? 0); [done|apply IH]|].
  unfold _is_channel_number_used. rewrite Eb. case_bool_decide; cbn; [apply IH|].
  intros [= <-]. by exists back.
Qed.

Lemma in_range_fresh fuel u : forall n m k, first_in_range fuel u n m = Ok (Some k) -> fresh u (PInt k).
Proof.
  induction fuel as [|fuel IH]; intros n m k; cbn [first_in_range]; [done|].
  destruct (m <? n); [done|]. case_bool_decide; [apply IH|]. intros [= <-]. by exists (n * CHANNEL_NUMBER_TICKS_PER_UNIT).
Qed.

Lemma next_number_fresh u spec v : _get_next_channel_number u spec = Ok v -> fresh u v.
Proof.
  unfold _get_next_channel_number, automatic, _next_free_number_from_ticks.
  destruct (_channel_number_spec_ticks spec) as [[a b]|]; [apply free_from_fresh|].
  destruct spec; try apply free_from_fresh. case_bool_decide; [apply free_from_fresh|].
  destruct (range_text _) as [[a b]|]; [|apply free_from_fresh]. unfold from_range.
  destruct (range_bound a); cbn; [|done]. destruct (range_bound b); cbn; [|done].
  destruct (first_in_range _ _ _ _) as [[k|]|] eqn:E; cbn; [|apply free_from_fresh|done].
  intros [= <-]. by eapply in_range_fresh.
Qed.

Lemma mark_fresh u v t : channel_number_ticks v = Ok t -> _mark_channel_number_used u v = {[ t ]} ∪ u.
Proof. unfold _mark_channel_number_used. by intros ->. Qed.

(** ** The API *)

(** Dispatcharr's channels by id: a created channel is new, and has the number it was
    created with (written as the API writes it: [5] may come back as [5.0]). *)
Definition same_number (a b : pyval) : Prop := channel_number_ticks a = channel_number_ticks b.

Class ChannelApi (W : Type) `{!Environment W} := {
  known : W -> gset Z;
  known_grows : forall A (c : call A) w, known w ⊆ known (perform c w).2;
  create_law : forall data w ch w', perform (CreateChannel data) w = (Ok ch, w') ->
    (c_id ch ∉ known w) /\ c_id ch ∈ known w' /\
    forall n, dict_get data "channel_number" = Some n -> same_number (c_number ch) n }.

(** ** The invariant *)

Record numbered {W} `{!Environment W, !ChannelApi W} (x : Executor) (w : W) : Prop := {
  n_used : forall p ch t, at_place x p = Some ch -> channel_number_ticks (c_number ch) = Ok t -> t ∈ used (nums x);
  n_distinct : forall p q ch ch' t, p <> q -> at_place x p = Some ch -> at_place x q = Some ch' ->
    is_Some (assigned (nums x) !! c_id ch) -> channel_number_ticks (c_number ch) = Ok t ->
    channel_number_ticks (c_number ch') <> Ok t;
  n_recorded : forall p ch n, at_place x p = Some ch -> assigned (nums x) !! c_id ch = Some n -> same_number (c_number ch) n;
  n_ids : forall p q ch ch', at_place x p = Some ch -> at_place x q = Some ch' -> c_id ch = c_id ch' -> p = q;
  n_known : forall p ch, at_place x p = Some ch -> c_id ch ∈ known w;
  n_by_id : forall id p, by_id (chans x) !! id = Some p -> exists ch, at_place x p = Some ch /\ c_id ch = id;
  n_indexed : forall p ch, at_place x p = Some ch -> by_id (chans x) !! c_id ch = Some p }.

Section numbers.
Context {W : Type} `{!Environment W, !ChannelApi W}.

(** What is known of the numbers besides. *)
Variable extra : Numbers -> Prop.

Definition inv (x : Executor) (w : W) : Prop := numbered x w /\ extra (nums x).
Definition live (c : ExecutionContext) : Prop := dry_run c = false.
Definition grows (w w' : W) : Prop := known w ⊆ known w'.
#[global] Instance grows_pre : PreOrder grows.
Proof. split; [intros w; unfold grows; set_solver|]. intros a b c. unfold grows. set_solver. Qed.
Definition whatever (_ _ : Executor) : Prop := True.
#[global] Instance whatever_pre : PreOrder whatever.
Proof. by split. Qed.

Abbreviation sound := (keeps (holds inv live) (follows whatever grows)).

Lemma numbered_grows x w w' : numbered x w -> known w ⊆ known w' -> numbered x w'.
Proof. intros [H1 H2 H3 H4 H5 H6 H7] Hw. split; try done. intros p ch E. by apply Hw, (H5 p ch). Qed.

Lemma sound_executor : sound any executor.
Proof. eapply keeps_weaken; [apply runs_executor; apply _|done]. Qed.
Lemma sound_context : sound live context.
Proof. apply runs_context; apply _. Qed.
Lemma sound_api {A} (c : call A) : sound any (api c).
Proof.
  apply runs_api; [apply _..|]. intros x w [Hx He]. split_and!; [|apply known_grows|by destruct (perform c w).1].
  split; [|done]. eapply numbered_grows; [done|apply known_grows].
Qed.
Lemma sound_ctx g : (forall c, dry_run (g c) = dry_run c) -> sound any (on_ctx g).
Proof. intros Hg. apply runs_on_ctx; [apply _..|]. intros c. unfold live. by rewrite Hg. Qed.
Hint Resolve sound_executor sound_context : runs.

Lemma sound_exec g : (forall x, heap (chans (g x)) = heap (chans x) /\ by_id (chans (g x)) = by_id (chans x) /\ nums (g x) = nums x) ->
  sound any (on_exec g).
Proof.
  intros Hg. apply runs_on_exec; [apply _..|]. intros x w [[H1 H2 H3 H4 H5 H6 H7] He]. destruct (Hg x) as (Eh & Ei & En).
  split; [|done]. split; [|by rewrite En]. split; unfold at_place in *; rewrite ?Eh, ?Ei, ?En; done.
Qed.

(** A change in place that leaves id and number. *)
Lemma lookup_alter_inv {A} (f : A -> A) (l : list A) (p q : nat) y : alter f p l !! q = Some y ->
  exists z, l !! q = Some z /\ (y = z \/ y = f z).
Proof.
  destruct (decide (q = p)) as [->|Hne]; [rewrite list_lookup_alter_eq|rewrite list_lookup_alter_ne by done]; [|by exists y; auto].
  destruct (l !! p) as [z|]; [|done]. intros [= <-]. by exists z; auto.
Qed.

Lemma sound_on_channel p g : (forall ch, c_id (g ch) = c_id ch /\ c_number (g ch) = c_number ch) -> sound any (on_channel p g).
Proof.
  intros Hg. apply runs_on_exec; [apply _..|]. intros x w [[H1 H2 H3 H4 H5 H6 H7] He]. split; [|done]. split; [|done].
  assert (Hold : forall q ch, at_place (on_chans (on_heap (alter g p)) x) q = Some ch ->
            exists ch0, at_place x q = Some ch0 /\ c_id ch = c_id ch0 /\ c_number ch = c_number ch0).
  { intros q ch E. apply lookup_alter_inv in E as (z & Ez & [->| ->]); exists z; [done|]. destruct (Hg z). by split. }
  split; cbn [nums on_chans chans] in *.
  - intros q ch t (c & E & _ & ->)%Hold. by eapply H1.
  - intros a b ch ch' t Hne (c & E & -> & ->)%Hold (c' & E' & _ & ->)%Hold. by eapply H2.
  - intros q ch n (c & E & -> & ->)%Hold. by eapply H3.
  - intros a b ch ch' (c & E & -> & _)%Hold (c' & E' & -> & _)%Hold. by eapply H4.
  - intros q ch (c & E & -> & _)%Hold. by eapply H5.
  - intros id q E. destruct (H6 id q E) as (c & Ec & <-). unfold at_place in *. cbn.
    destruct (decide (q = p)) as [->|Hne]; [rewrite list_lookup_alter_eq, Ec|rewrite list_lookup_alter_ne by done; by exists c].
    exists (g c). split; [done|]. by destruct (Hg c).
  - intros q ch (c & E & -> & _)%Hold. by apply H7.
Qed.

Ltac sound_leaf :=
  first
  [ solve [eauto 2 with runs]
  | match goal with H : live ?c, E : dry_run ?c = true |- _ => unfold live in H; congruence end
  | apply sound_exec; intros ?; split_and!; reflexivity
  | apply sound_on_channel; intros ?; split; reflexivity
  | apply sound_ctx; reflexivity
  | apply sound_api
  | apply keeps_gets; [apply _|done]
  | apply keeps_ret; [apply _|done] ].
Ltac sound := intros; repeat first [runs_step | sound_leaf].

Lemma sound_note e : sound any (note_entry e).
Proof. unfold note_entry, _flush_journal_buffer. sound. Qed.
Hint Resolve sound_note : runs.
Lemma sound_merge_note id name st b a v : sound any (_journal_merge id name st b a v).
Proof. apply sound_note. Qed.
Lemma sound_adoption_note ch st type : sound any (_journal_manual_channel_adoption ch st type).
Proof. apply sound_note. Qed.
Lemma sound_block_note ch st type : sound any (_journal_manual_channel_block ch st type).
Proof. unfold _journal_manual_channel_block. sound. Qed.
Hint Resolve sound_merge_note sound_adoption_note sound_block_note : runs.

Lemma sound_transform name p r : sound any (_apply_name_transform name p r).
Proof. unfold _apply_name_transform, set_transform_error, _journal_name_transform_failure. sound. Qed.
Lemma sound_logo url hint : sound any (_resolve_logo_id url hint).
Proof. unfold _resolve_logo_id, remember_logo. sound. Qed.
Lemma sound_pending st name g : sound any (_maybe_enqueue_pending_merge st name g).
Proof. unfold _maybe_enqueue_pending_merge. sound. Qed.
Hint Resolve sound_transform sound_logo sound_pending : runs.

Lemma sound_add p ch st v : sound any (_add_stream_to_channel p ch st v).
Proof. unfold _add_stream_to_channel, track_m3u_count, select_channel. sound. Qed.
Lemma sound_update p ch st : sound any (_update_channel p ch st).
Proof. unfold _update_channel, select_channel. sound. Qed.
Lemma sound_rename p ch name : sound any (rename_existing p ch name).
Proof. unfold rename_existing. sound. Qed.
Lemma sound_find st o name q : sound any (find_for_creation st o name q).
Proof. unfold find_for_creation. sound. Qed.
Hint Resolve sound_add sound_update sound_rename sound_find : runs.
Lemma sound_use p ch st ps name details : sound any (use_existing p ch st ps name details).
Proof. unfold use_existing, select_channel. sound. Qed.
Lemma sound_channel_now p ch : sound any (channel_now p ch).
Proof. unfold channel_now. sound. Qed.
Lemma sound_flips id flips : forall current r, sound any (flip_all id flips current r).
Proof. induction flips as [|[p b] flips IH]; intros current r; cbn [flip_all]; [sound|]. sound; eauto. Qed.
Hint Resolve sound_use sound_channel_now sound_flips : runs.
Lemma sound_defaults id : sound any (_assign_default_profiles id).
Proof. unfold _assign_default_profiles, _apply_exclusive_profile_membership. sound. Qed.
Hint Resolve sound_defaults : runs.
End numbers.

(** ** The two steps that number a channel *)

Section steps.
Context {W : Type} `{!Environment W, !ChannelApi W}.

Definition renumbered (x : Executor) (id : Z) (n : pyval) : Executor :=
  on_nums (on_assigned (fun m => <[id := n]> m)) (on_nums (on_used (fun u => _mark_channel_number_used u n))
    (match by_channel_id x id with Some (p, _) => on_chans (on_heap (alter (set_number n) p)) x | None => x end)).

Lemma by_channel_place x (w : W) id p ch : numbered x w -> by_channel_id x id = Some (p, ch) ->
  at_place x p = Some ch /\ c_id ch = id.
Proof.
  intros Hx E. unfold by_channel_id in E. destruct (by_id (chans x) !! id) as [p'|] eqn:Ei; cbn in E; [|done].
  destruct (n_by_id x w Hx id p' Ei) as (ch' & Ep & Ec). rewrite Ep in E. cbn in E. by injection E as <- <-.
Qed.

Lemma no_channel_place x (w : W) id p ch : numbered x w -> by_channel_id x id = None -> at_place x p = Some ch -> c_id ch <> id.
Proof.
  intros Hx E Ep <-. unfold by_channel_id in E. rewrite (n_indexed x w Hx p ch Ep) in E. cbn in E.
  by rewrite Ep in E.
Qed.

Lemma renumbered_place x (w : W) id n p ch : numbered x w -> at_place (renumbered x id n) p = Some ch ->
  (c_id ch = id /\ c_number ch = n /\ exists ch0, at_place x p = Some ch0 /\ c_id ch0 = id) \/
  (c_id ch <> id /\ at_place x p = Some ch).
Proof.
  intros Hx. unfold renumbered. destruct (by_channel_id x id) as [[p' ch']|] eqn:E; unfold at_place; cbn.
  - destruct (by_channel_place x w id p' ch' Hx E) as [Ep Ei].
    destruct (decide (p = p')) as [->|Hne].
    + rewrite list_lookup_alter_eq. unfold at_place in Ep. rewrite Ep. intros [= <-]. left. split_and!; [done|done|by exists ch'].
    + rewrite list_lookup_alter_ne by done. intros Ep'. right. split; [|done]. intros Hid. apply Hne.
      apply (n_ids x w Hx p p' ch ch'); [done|done|congruence].
  - intros Ep. right. split; [by eapply no_channel_place|done].
Qed.

Lemma renumber_numbered x (w : W) id n : numbered x w -> fresh (used (nums x)) n -> numbered (renumbered x id n) w.
Proof.
  intros Hx (t & Ht & Hu). pose proof (renumbered_place x w id n) as Hp.
  assert (Eu : used (nums (renumbered x id n)) = {[ t ]} ∪ used (nums x)).
  { unfold renumbered. destruct (by_channel_id x id) as [[p' ch']|]; cbn; by apply mark_fresh. }
  assert (Ea : assigned (nums (renumbered x id n)) = <[id := n]> (assigned (nums x)))
    by (unfold renumbered; by destruct (by_channel_id x id) as [[p' ch']|]).
  assert (Ei : by_id (chans (renumbered x id n)) = by_id (chans x))
    by (unfold renumbered; by destruct (by_channel_id x id) as [[p' ch']|]).
  assert (Hid : forall p ch, at_place (renumbered x id n) p = Some ch -> exists ch0, at_place x p = Some ch0 /\ c_id ch0 = c_id ch).
  { intros p ch [(<- & _ & c & Ec & <-)|(_ & Ec)]%Hp; [by exists c|by exists ch|done]. }
  split.
  - intros p ch t' [(_ & -> & _)|(_ & E)]%Hp; [rewrite Ht; intros [= <-]; rewrite Eu; set_solver| |done].
    intros Ht'. rewrite Eu. apply elem_of_union_r. by eapply n_used.
  - intros p q ch ch' t' Hne [(Hi & Hn & c & Ec & Hc)|(Hi & E)]%Hp [(Hi' & Hn' & c' & Ec' & Hc')|(Hi' & E')]%Hp Hs Ht'; try done.
    + destruct Hne. apply (n_ids x w Hx p q c c'); congruence.
    + rewrite Hn, Ht in Ht'. injection Ht' as <-. intros H. apply Hu. by eapply n_used.
    + rewrite Hn', Ht. intros [= H]. apply Hu. rewrite H. apply (n_used x w Hx p ch t' E Ht').
    + rewrite Ea, lookup_insert_ne in Hs by done. by eapply (n_distinct x w Hx p q).
  - intros p ch m [(Hi & Hn & _)|(Hi & E)]%Hp; [| |done]; rewrite Ea.
    + rewrite Hi, lookup_insert_eq. intros [= <-]. by rewrite Hn.
    + rewrite lookup_insert_ne by done. by eapply n_recorded.
  - intros p q ch ch' (c & Ec & E)%Hid (c' & Ec' & E')%Hid H. apply (n_ids x w Hx p q c c'); congruence.
  - intros p ch (c & Ec & <-)%Hid. by eapply n_known.
  - intros id' p. rewrite Ei. intros E. destruct (n_by_id x w Hx id' p E) as (c & Ec & <-).
    unfold renumbered. destruct (by_channel_id x id) as [[p' ch']|]; [|by exists c]. unfold at_place in *; cbn.
    destruct (decide (p = p')) as [->|Hne]; [rewrite list_lookup_alter_eq, Ec; by exists (set_number n c)|].
    rewrite list_lookup_alter_ne by done. by exists c.
  - intros p ch (c & Ec & <-)%Hid. rewrite Ei. by eapply n_indexed.
Qed.

(** A created channel, adopted. *)
Definition created_state (x : Executor) (ch : channel) (a b : string) (n : pyval) : Executor :=
  on_nums (on_assigned (fun m => <[c_id ch := n]> m)) (on_nums (on_used (fun u => _mark_channel_number_used u n))
    (on_chans (fun c => register (List.length (heap (chans x))) (c_id ch) a b (on_heap (fun h => h ++ [ch]) c)) x)).

Lemma created_place x ch a b n p c : at_place (created_state x ch a b n) p = Some c ->
  at_place x p = Some c \/ p = List.length (heap (chans x)) /\ c = ch.
Proof.
  unfold created_state, at_place. cbn [chans on_nums on_chans]. rewrite register_heap. cbn.
  intros [E|[Hle E]]%lookup_app_Some; [by left|right].
  apply list_lookup_singleton_Some in E as [E <-]. split; [lia|done].
Qed.

Lemma old_place x ch a b n p c : at_place x p = Some c -> at_place (created_state x ch a b n) p = Some c.
Proof.
  unfold created_state, at_place. cbn [chans on_nums on_chans]. rewrite register_heap. cbn. apply lookup_app_l_Some.
Qed.

Lemma new_place x ch a b n : at_place (created_state x ch a b n) (List.length (heap (chans x))) = Some ch.
Proof. unfold created_state, at_place. cbn [chans on_nums on_chans]. rewrite register_heap. cbn. by apply list_lookup_middle. Qed.

Lemma created_numbered x (w w' : W) ch a b n : numbered x w -> known w ⊆ known w' -> (c_id ch ∉ known w) -> c_id ch ∈ known w' ->
  same_number (c_number ch) n -> fresh (used (nums x)) n -> numbered (created_state x ch a b n) w'.
Proof.
  intros Hx Hw Hnew Hk Hn (t & Ht & Hu). pose proof (created_place x ch a b n) as Hp.
  assert (Eu : used (nums (created_state x ch a b n)) = {[ t ]} ∪ used (nums x)) by by apply mark_fresh.
  assert (Ei : by_id (chans (created_state x ch a b n)) = <[c_id ch := List.length (heap (chans x))]> (by_id (chans x)))
    by (unfold created_state; cbn [chans on_nums on_chans]; by rewrite register_by_id).
  assert (Hne : forall p c, at_place x p = Some c -> c_id c <> c_id ch).
  { intros p c E Hid. apply Hnew. rewrite <- Hid. by eapply n_known. }
  split.
  - intros p c t' [E|[-> ->]]%Hp Ht'; rewrite Eu; [apply elem_of_union_r; by eapply n_used|].
    rewrite Hn, Ht in Ht'. injection Ht' as <-. set_solver.
  - intros p q c c' t' Hpq [E|[-> ->]]%Hp [E'|[-> ->]]%Hp Hs Ht'.
    + cbn in Hs. rewrite lookup_insert_ne in Hs by (intros H; by apply (Hne p c)). by eapply (n_distinct x w Hx p q).
    + rewrite Hn, Ht. intros [= ->]. apply Hu. by eapply n_used.
    + rewrite Hn, Ht in Ht'. injection Ht' as <-. intros H. apply Hu. by eapply n_used.
    + done.
  - intros p c m [E|[-> ->]]%Hp; cbn; [rewrite lookup_insert_ne by (intros H; by apply (Hne p c)); by eapply n_recorded|].
    rewrite lookup_insert_eq. by intros [= <-].
  - intros p q c c' [E|[-> ->]]%Hp [E'|[-> ->]]%Hp Hid; [by eapply n_ids| | |done].
    + by apply Hne in E.
    + symmetry in Hid. by apply Hne in E'.
  - intros p c [E|[-> ->]]%Hp; [by apply Hw; eapply n_known|done].
  - intros id p. rewrite Ei. destruct (decide (id = c_id ch)) as [->|Hd].
    + rewrite lookup_insert_eq. intros [= <-]. exists ch. split; [apply new_place|done].
    + rewrite lookup_insert_ne by done. intros E. destruct (n_by_id x w Hx id p E) as (c & Ec & <-).
      exists c. split; [by apply old_place|done].
  - intros p c [E|[-> ->]]%Hp; rewrite Ei; [|by rewrite lookup_insert_eq].
    rewrite lookup_insert_ne by (intros H; by apply (Hne p c)). by eapply n_indexed.
Qed.

(** ** From a state whose free number is known *)

Definition anything (_ : Numbers) : Prop := True.
Definition with_used (u : occupied) (n : Numbers) : Prop := used n = u.
Definition post {A} (s : state W) (r : result exc A * state W) : Prop :=
  holds (inv anything) live r.2 /\ grows (world s) (world r.2).

Lemma forget u s : holds (inv (with_used u)) live s -> holds (inv anything) live s.
Proof. intros [[Hx _] Hc]. split; [split; [exact Hx|exact Logic.I]|exact Hc]. Qed.

Lemma holds_any x c w : numbered x w -> live c -> holds (inv anything) live (State x c w).
Proof. intros Hx Hc. split; [split; [exact Hx|exact Logic.I]|exact Hc]. Qed.

Lemma post_bind {A B} u (m : M (state W) A) (k : A -> M (state W) B) s :
  keeps (holds (inv (with_used u)) live) (follows whatever grows) any m ->
  (forall a s1, holds (inv (with_used u)) live s1 -> post s1 (k a s1)) ->
  holds (inv (with_used u)) live s -> post s (bind m k s).
Proof.
  intros Hm Hk Hs. destruct (Hm s Hs) as (Hi & [_ Hr] & _). unfold bind. destruct (m s) as [[a|e] s1]; cbn in *.
  - destruct (Hk a s1 Hi) as [Hp Hg]. split; [done|by etransitivity].
  - split; [by eapply forget|done].
Qed.

Lemma post_keeps {A} (m : M (state W) A) s :
  keeps (holds (inv anything) live) (follows whatever grows) any m -> holds (inv anything) live s -> post s (m s).
Proof. intros Hm Hs. destruct (Hm s Hs) as (Hi & [_ Hr] & _). by split. Qed.

Lemma post_try {A} (m : M (state W) A) h s : post s (m s) ->
  (forall e, keeps (holds (inv anything) live) (follows whatever grows) any (h e)) -> post s (try_except m h s).
Proof.
  intros [Hi Hg] Hh. unfold try_except. destruct (m s) as [[a|e] s1]; cbn in *; [done|].
  destruct (post_keeps (h e) s1 (Hh e) Hi) as [Hi' Hg']. split; [done|by etransitivity].
Qed.

Lemma post_create {B} u data a b number (k : channel -> M (state W) B) s :
  holds (inv (with_used u)) live s -> fresh u number -> dict_get data "channel_number" = Some number ->
  (forall ch, keeps (holds (inv anything) live) (follows whatever grows) any (k ch)) ->
  post s (bind (api (CreateChannel data)) (fun response =>
    let new_channel := mark_auto_created response in
    on_exec (on_gate (on_managed (fun s => {[ c_id new_channel ]} ∪ s)));;
    adopt new_channel a b number;;
    on_exec (on_nums (on_assigned (fun m => <[c_id new_channel := number]> m)));;
    k new_channel) s).
Proof.
  intros Hs Hf Hd Hk. destruct Hs as [[Hx Hu] Hc]. unfold bind at 1, api.
  pose proof (known_grows _ (CreateChannel data) (world s)) as Hg.
  destruct (perform (CreateChannel data) (world s)) as [[ch|e] w'] eqn:E; cbn in Hg |- *.
  - destruct (create_law data (world s) ch w' E) as (Hn & Hk' & He). specialize (He number Hd).
    set (x' := on_gate (on_managed (fun s => {[ c_id ch ]} ∪ s)) (exec s)).
    assert (Hp : numbered (created_state x' (mark_auto_created ch) a b number) w').
    { apply (created_numbered x' (world s)); [|done|done|done|by symmetry|by rewrite <- Hu in Hf].
      destruct Hx as [H1 H2 H3 H4 H5 H6 H7]. split; done. }
    destruct (post_keeps (k (mark_auto_created ch)) (State (created_state x' (mark_auto_created ch) a b number) (ctx s) w'))
      as [Hi Hg']; [apply Hk|by apply holds_any|]. split; [exact Hi|]. etransitivity; [exact Hg|exact Hg'].
  - split; [|done]. apply holds_any; [|done]. by eapply numbered_grows.
Qed.

Lemma bind_executor {A} (k : Executor -> M (state W) A) s : bind executor k s = k (exec s) s.
Proof. done. Qed.
Lemma bind_context {A} (k : ExecutionContext -> M (state W) A) s : bind context k s = k (ctx s) s.
Proof. done. Qed.
Lemma bind_pure {A B} (r : result exc A) (k : A -> M (state W) B) s :
  bind (pure r) k s = match r with Ok a => k a s | Raise e => (Raise e, s) end.
Proof. by destruct r. Qed.

Lemma creation_number st name number g logo : dict_get (creation_data st name number g logo) "channel_number" = Some number.
Proof. done. Qed.

Ltac quick := repeat first
  [ runs_step | solve [eauto 2 using sound_defaults, sound_executor, sound_context with runs]
  | apply sound_ctx; reflexivity | apply sound_api
  | apply sound_exec; intros ?; split_and!; reflexivity | apply keeps_ret; [apply _|done] ].

Lemma post_upstream u st a b number g label details s :
  holds (inv (with_used u)) live s -> fresh u number -> post s (create_upstream st a b number g label details s).
Proof.
  intros Hs Hf. unfold create_upstream. apply post_try; [|intros e; quick].
  apply (post_bind u); [destruct (has_text _); [apply sound_logo|quick]| |done].
  intros logo s1 Hs1. 
  apply (post_create u (creation_data st a number g logo) a b number
    (fun ch => finish_creation ch a number label details)); [done|done|apply creation_number|].
  intros ch. unfold finish_creation, now_created, select_channel. quick.
Qed.

Lemma post_create_new st p g name details s : holds (inv anything) live s -> post s (create_new st p g name details s).
Proof.
  intros Hs. unfold create_new. rewrite bind_executor, bind_pure.
  destruct (_get_next_channel_number (used (nums (exec s))) (p_channel_number p)) as [number|e] eqn:E; [|by split].
  cbn zeta. assert (Hs' : holds (inv (with_used (used (nums (exec s))))) live s) by (destruct Hs as [[Hx _] Hc]; split; [split; [exact Hx|done]|exact Hc]).
  apply next_number_fresh in E. apply (post_bind (used (nums (exec s)))); [|intros r s1 Hs1|done].
  { apply keeps_try; [apply _|apply sound_pending|intros e; quick]. }
  destruct r as [r|]; [split; [by eapply forget|done]|].
  rewrite bind_context. assert (Hc1 := proj2 Hs1). unfold live in Hc1. rewrite Hc1.
  by apply (post_upstream (used (nums (exec s)))).
Qed.

Lemma post_set_number v s : holds (inv anything) live s -> post s (_execute_set_channel_number v s).
Proof.
  intros Hs. assert (Hs0 := Hs). destruct Hs as [[Hx _] Hc]. unfold _execute_set_channel_number. rewrite bind_context.
  destruct (truthy_id (current_channel_id (ctx s))) as [id|]; [|by split].
  rewrite bind_executor. cbn zeta. destruct (assigned (nums (exec s)) !! id); [by split|].
  rewrite bind_pure. destruct (_get_next_channel_number (used (nums (exec s))) v) as [number|e] eqn:E; [|by split].
  unfold live in Hc. rewrite Hc. apply next_number_fresh in E.
  apply post_try; [|intros e; quick]. unfold bind at 1, api.
  pose proof (known_grows _ (UpdateChannel id [("channel_number", number)]) (world s)) as Hg.
  destruct (perform (UpdateChannel id [("channel_number", number)]) (world s)) as [[[]|e] w'] eqn:Ep; cbn in Hg |- *.
  2: { split; [|done]. apply holds_any; [by eapply numbered_grows|done]. }
  pose proof (renumber_numbered (exec s) w' id number (numbered_grows _ _ _ Hx Hg) E) as Hr.
  unfold renumbered in Hr. destruct (by_channel_id (exec s) id) as [[p ch]|]; (split; [by apply holds_any|exact Hg]).
Qed.

(** ** Every action *)

Abbreviation sound := (keeps (holds (inv anything) live) (follows whatever grows)).

Lemma keeps_of_post {A} (m : M (state W) A) : (forall s, holds (inv anything) live s -> post s (m s)) -> sound any m.
Proof. intros Hm s Hs. destruct (Hm s Hs) as [Hi Hg]. split_and!; [done|by split|by destruct (m s).1]. Qed.

Lemma sound_create_new st p g name details : sound any (create_new st p g name details).
Proof. apply keeps_of_post. intros s. apply post_create_new. Qed.
Lemma sound_set_number v : sound any (_execute_set_channel_number v).
Proof. apply keeps_of_post. intros s. apply post_set_number. Qed.

Ltac leaf :=
  first
  [ solve [eauto 2 using sound_executor, sound_context, sound_transform, sound_find, sound_rename, sound_channel_now, sound_use,
      sound_adoption_note, sound_block_note, sound_add, sound_create_new, sound_set_number with runs]
  | match goal with H : live ?c, E : dry_run ?c = true |- _ => unfold live in H; congruence end
  | apply sound_exec; intros ?; split_and!; reflexivity
  | apply sound_on_channel; intros ?; split; reflexivity
  | apply sound_ctx; reflexivity
  | apply sound_api
  | apply keeps_gets; [apply _|done]
  | apply keeps_ret; [apply _|done] ].
Ltac sound := intros; repeat first [runs_step | leaf].

Lemma sound_create_channel p st o t : sound any (_execute_create_channel p st o t).
Proof. unfold _execute_create_channel. sound. Qed.
Lemma sound_create_group p t : sound any (_execute_create_group p t).
Proof. unfold _execute_create_group. sound. Qed.
Lemma sound_sort p t : sound any (_execute_sort_group p t).
Proof. unfold _execute_sort_group. sound. Qed.
Lemma sound_channel_of id : sound any (channel_of_stream id).
Proof. unfold channel_of_stream. sound. Qed.
Lemma sound_with_channel type st k : (forall p ch l, sound any (k p ch l)) -> sound any (with_stream_channel type st k).
Proof. intros Hk. pose proof sound_channel_of. unfold with_stream_channel. sound; eauto. Qed.
Lemma sound_remove st : sound any (_execute_remove_from_channel st).
Proof. unfold _execute_remove_from_channel, write_streams. apply sound_with_channel. sound. Qed.
Lemma sound_priority p st : sound any (_execute_set_stream_priority p st).
Proof. unfold _execute_set_stream_priority, write_streams. apply sound_with_channel. sound. Qed.
Lemma sound_resolve p st o r t : sound any (resolve_merge p st o r t).
Proof.
  unfold resolve_merge, explicit_find, or_try, core_fallback, call_sign_fallback, slot_or_name, find_by_name, find_unique, note_block, marker.
  sound.
Qed.
Lemma sound_merge_into p place ch st v : sound any (merge_into p place ch st v).
Proof. unfold merge_into, _ensure_channel_m3u_counts. sound. Qed.
Lemma sound_nothing p st b : sound any (nothing_to_merge p st b).
Proof. unfold nothing_to_merge. sound. Qed.
Lemma sound_merge p st o r t : sound any (_execute_merge_streams p st o r t).
Proof.
  pose proof sound_resolve. pose proof sound_merge_into. pose proof sound_nothing.
  unfold _execute_merge_streams, marker. sound; eauto.
Qed.

Lemma sound_current type k : (forall c id, live c -> sound any (k c id)) -> sound any (with_current type k).
Proof. intros Hk. unfold with_current. eapply keeps_bind; [apply _|apply sound_context|intros c Hc]. sound; eauto. Qed.
Lemma sound_in_cache id g : (forall ch, c_id (g ch) = c_id ch /\ c_number (g ch) = c_number ch) -> sound any (in_cache id g).
Proof. intros Hg. pose proof (fun p => sound_on_channel anything p g Hg). unfold in_cache. sound; eauto. Qed.
Lemma take_entry_number p e ch : c_id (take_entry p e ch) = c_id ch /\ c_number (take_entry p e ch) = c_number ch.
Proof. unfold take_entry. by destruct (_ && _). Qed.

Ltac cached := repeat first [ apply sound_in_cache; first [intros ?; split; reflexivity | exact (take_entry_number _ _)] | runs_step | leaf ].
Lemma sound_assign_logo v e st t : sound any (_execute_assign_logo v e st t).
Proof. apply sound_current. intros c id Hc. pose proof sound_logo. cached. Qed.
Lemma sound_assign_tvg_id v st t : sound any (_execute_assign_tvg_id v st t).
Proof. apply sound_current. intros c id Hc. cached. Qed.
Lemma sound_assign_epg p st d : sound any (_execute_assign_epg p st d).
Proof. apply sound_current. intros c id Hc. unfold defer, assign_entry. cached. Qed.
Lemma sound_assign_profile p : sound any (_execute_assign_profile p).
Proof. apply sound_current. intros c id Hc. cached. Qed.
Lemma sound_mark id r : sound any (_mark_channel_profile_ownership id r).
Proof. unfold _mark_channel_profile_ownership. cached. Qed.
Lemma sound_profile_write id r ids : sound any (_assign_channel_profile_write id r ids).
Proof.
  pose proof sound_mark. pose proof (sound_flips anything).
  unfold _assign_channel_profile_write, _apply_exclusive_profile_membership. cached; eauto.
Qed.
Lemma sound_assign_channel_profile ids r : sound any (_execute_assign_channel_profile ids r).
Proof.
  pose proof sound_profile_write. apply sound_current. intros c id Hc.
  unfold _resolve_channel_effective_group, fetched_settings, with_lock. cached; eauto.
Qed.
Lemma sound_set_variable p t : sound any (_execute_set_variable p t).
Proof. unfold _execute_set_variable. cached. Qed.

Lemma sound_execute a st o r : sound any (execute a st o r).
Proof.
  assert (Ha : forall t, sound any (run_action a st o r t)).
  { intros t. destruct a; cbn [run_action];
      eauto using sound_create_channel, sound_create_group, sound_merge, sound_set_number, sound_sort, sound_remove, sound_priority, sound_assign_logo,
        sound_assign_tvg_id, sound_assign_epg, sound_assign_profile, sound_assign_channel_profile, sound_set_variable; sound. }
  unfold execute. destruct a; sound; eauto.
Qed.

Lemma sound_execute_all l o r : sound any (execute_all l o r).
Proof. induction l as [|[a st] l IH]; cbn [execute_all]; [sound|]. pose proof (sound_execute a st o r). sound; eauto. Qed.

(** ** A run's start *)

Lemma initially_used_mono l : forall u t, t ∈ u ->
  t ∈ foldl (fun used n => match n with PNone => used | _ => _mark_channel_number_used used n end) u l.
Proof.
  induction l as [|v l IH]; intros u t Ht; cbn; [done|]. apply IH.
  unfold _mark_channel_number_used. destruct v; try done; destruct (channel_number_ticks _); set_solver.
Qed.

Lemma initially_used_all l : forall u v t, v ∈ l -> channel_number_ticks v = Ok t ->
  t ∈ foldl (fun used n => match n with PNone => used | _ => _mark_channel_number_used used n end) u l.
Proof.
  induction l as [|v' l IH]; intros u v t Hin Ht; [by apply elem_of_nil in Hin|]. cbn.
  apply elem_of_cons in Hin as [<-|Hin]; [|by eapply IH]. apply initially_used_mono.
  assert (E : _mark_channel_number_used u v = {[ t ]} ∪ u) by by apply mark_fresh.
  destruct v; try done; rewrite E; set_solver.
Qed.

Lemma built_has l : forall (m : gmap Z nat) p (ch : channel), (p, ch) ∈ l ->
  (forall q ch', (q, ch') ∈ l -> c_id ch' = c_id ch -> q = p) ->
  foldl (fun m p => <[c_id p.2 := p.1]> m) m l !! c_id ch = Some p.
Proof.
  induction l as [|[q c] l IH] using rev_ind; intros m p ch Hin Hu; [by apply elem_of_nil in Hin|].
  rewrite foldl_app. cbn. destruct (decide (c_id c = c_id ch)) as [E|Hne].
  - rewrite E, lookup_insert_eq. f_equal. apply (Hu q c); [set_solver|done].
  - rewrite lookup_insert_ne by done. apply IH.
    + apply elem_of_app in Hin as [Hin|Hin%list_elem_of_singleton]; [done|congruence].
    + intros q' ch' H. apply Hu. set_solver.
Qed.

Lemma start_numbered e channels existing_groups members ledger guide_data (w : W) : NoDup (map c_id channels) ->
  (forall ch, ch ∈ channels -> c_id ch ∈ known w) ->
  numbered (new_executor e channels existing_groups members ledger guide_data) w.
Proof.
  intros Hn Hk. split; unfold at_place; cbn.
  - intros p ch t E Ht. apply (initially_used_all _ _ (c_number ch)); [|done].
    apply Prelude.elem_of_map_2. by eapply list_elem_of_lookup_2.
  - intros p q ch ch' t _ _ _ [n E]. by rewrite lookup_empty in E.
  - intros p ch n _ E. by rewrite lookup_empty in E.
  - intros p q ch ch' E E'. by apply one_place with channels.
  - intros p ch E. apply Hk. by eapply list_elem_of_lookup_2.
  - intros id p E. apply built_by_id in E as [E|(ch & Hin%elem_of_places & Hid)]; [by rewrite lookup_empty in E|by exists ch].
  - intros p ch E. apply built_has; [by apply elem_of_places|].
    intros q ch' Hin%elem_of_places Hid. by eapply one_place.
Qed.
End steps.

(** C12: in a live run, whatever actions run, a channel the run created or numbered shares its
    number with no other channel the executor knows, existing or created, and still carries
    the number recorded for it; no assumption is made on the numbers the API already holds,
    nor on which calls succeed. *)
Theorem numbered_channels_share_no_number {W} `{!Environment W, !ChannelApi W}
    channels existing_groups members ledger guide_data l o rule w :
  NoDup (map c_id channels) -> (forall ch, ch ∈ channels -> c_id ch ∈ known w) ->
  let x := exec (execute_all l o rule
    (State (new_executor engine channels existing_groups members ledger guide_data) (new_context false) w)).2 in
  forall p ch n, at_place x p = Some ch -> assigned (nums x) !! c_id ch = Some n ->
    same_number (c_number ch) n /\
    forall q ch' t, q <> p -> at_place x q = Some ch' -> channel_number_ticks n = Ok t ->
      channel_number_ticks (c_number ch') <> Ok t.
Proof.
  intros Hn Hk x p ch n Ep Ea.
  destruct (sound_execute_all l o rule
    (State (new_executor engine channels existing_groups members ledger guide_data) (new_context false) w)) as ([[Hx _] _] & _ & _).
  { split; [split; [by apply start_numbered|done]|done]. }
  assert (En := n_recorded _ _ Hx p ch n Ep Ea). split; [done|]. intros q ch' t Hne Eq Ht.
  unfold same_number in En. rewrite <- En in Ht. by eapply (n_distinct _ _ Hx p q); eauto.
Qed.

End ExecutorNumbers.
