(* ===== verification/ExecutorDemo.v ===== *)
(** * The pipeline executor in a concrete world.

    Channels by id, created ids counted up from 1000, no normalization engine and no
    settings.  The general theorems are applied there, and concrete runs show where a preview
    and a run part. *)
From S2P Require Import Prelude PyFloat PyValue PyText PyDict PyState ChannelNumber DatePlaceholders.
From S2P Require Import NumberAllocation GuideMatch ExecutorTypes ExecutorIndex ProfileMembership ExecutorActions ExecutorAssign ExecutorRun.
From S2P Require Import ExecutorLogic ExecutorSafety ExecutorPreview ExecutorNumbers.
From Stdlib Require Import SpecFloat.
From stdpp Require Import list gmap strings.
Open Scope Z_scope.
Open Scope py_scope.

Module ExecutorDemo.
Import ChannelNumber GuideMatch ExecutorTypes ExecutorIndex ProfileMembership ExecutorActions ExecutorAssign ExecutorRun ExecutorSafety ExecutorPreview ExecutorNumbers.

(** ** The world *)

Record upstream := Upstream { up : gmap Z channel; ids : gset Z; next_id : nat; pending_merges : nat }.

Definition stream_ids (v : pyval) : list Z :=
  match v with PList l => omap (fun v => match v with PInt z => Some z | _ => None end) l | _ => [] end.

(** A key of the request replaces the channel's field. *)
Definition updated (data : list (string * pyval)) (ch : channel) : channel :=
  let ch := match dict_get data "channel_number" with Some n => set_number n ch | None => ch end in
  let ch := match dict_get data "streams" with Some l => set_streams (stream_ids l) ch | None => ch end in
  match dict_get data "name" with Some (PStr s) => set_name s ch | _ => ch end.

Definition made (id : Z) (data : list (string * pyval)) : channel :=
  updated data (Channel id "" PNone
    match dict_get data "channel_group_id" with Some (PInt g) => Some g | _ => None end [] false None None ∅).

Definition not_found : exc := Exc Other "HTTPStatusError" "404 Not Found".

Definition create (data : list (string * pyval)) (w : upstream) : result exc channel * upstream :=
  let id := 1000 + Z.of_nat (next_id w) in
  if bool_decide (id ∈ ids w) then (Raise not_found, w)
  else (Ok (made id data), Upstream (<[id := made id data]> (up w)) ({[ id ]} ∪ ids w) (S (next_id w)) (pending_merges w)).

Definition update (id : Z) (data : list (string * pyval)) (w : upstream) : result exc unit * upstream :=
  match up w !! id with
  | Some ch => (Ok tt, Upstream (<[id := updated data ch]> (up w)) (ids w) (next_id w) (pending_merges w))
  | None => (Raise not_found, w)
  end.

Definition answer {A} (c : call A) (w : upstream) : result exc A * upstream :=
  match c in call A return result exc A * upstream with
  | CreateChannel data => create data w
  | UpdateChannel id data => update id data w
  | GetChannel id => (match up w !! id with Some ch => Ok ch | None => Raise not_found end, w)
  | DeleteChannel id => (Ok tt, Upstream (delete id (up w)) (ids w) (next_id w) (pending_merges w))
  | GetChannelStreams _ => (Ok [], w)
  | CreateLogo _ _ => (Ok None, w)
  | FindLogoByUrl _ => (Ok None, w)
  | CreateChannelGroup name => (Ok (Group 50 name), w)
  | UpdateProfileChannel _ _ _ => (Ok tt, w)
  | LogEntries _ => (Ok true, w)
  | GetAllGroupSettings => (Ok ∅, w)
  | AcquireGroupLock _ | ReleaseGroupLock _ => (Ok tt, w)
  | GetChannels _ => (Ok (map snd (map_to_list (up w)), Z.of_nat (size (up w))), w)
  | DeleteChannelGroup _ => (Ok tt, w)
  | EnqueuePendingMerge _ _ _ _ => (Ok (false, None), Upstream (up w) (ids w) (next_id w) (S (pending_merges w)))
  end.

#[export] Instance demo : Environment upstream := {|
  perform := @answer;
  regex_sub := fun _ _ s => Ok s;
  regex_search := fun _ _ => false;
  regex_groups := fun _ _ => None;
  score_one := fun _ _ _ _ => {| score := S754_zero false; admissible := fun _ _ => false; rounded := PNone; evidence := [] |};
  engine := None; settings := None; all_profile_ids := None;
  triggered_by := "manual"; execution_id := Some 7; plan_only := false |}.

Lemma made_number id data n : dict_get data "channel_number" = Some n -> c_number (made id data) = n.
Proof. intros E. unfold made, updated. rewrite E. by repeat case_match. Qed.

Lemma made_id id data : c_id (made id data) = id.
Proof. unfold made, updated. by repeat case_match. Qed.

#[export, refine] Instance demo_api : ChannelApi upstream := {| known := ids |}.
Proof.
  - intros A c w. destruct c; cbn; unfold create, update; repeat case_match; cbn; set_solver.
  - intros data w ch w'. unfold perform, demo, answer, create. case_bool_decide as E; [done|]. intros [= <- <-].
    rewrite made_id. split_and!; [done|cbn; set_solver|]. intros n Hn. by rewrite (made_number _ _ n Hn).
Defined.

(** ** Channels, streams, rules *)

Definition no_guide : Guide := MkGuide ∅ ∅ [] [].

Definition built : channel := Channel 1 "News One" (PInt 100) (Some 5) [Bare 11] false None None ∅.
Definition piped : channel := Channel 2 "Sport" (PInt 101) (Some 5) [Bare 12] true None None ∅.
Definition there : list channel := [built; piped].
Definition world0 : upstream := Upstream (list_to_map (map (fun ch => (c_id ch, ch)) there)) {[ 1; 2 ]} 0 0.

Definition feed (id : Z) (name : string) : stream := Stream id name (Some "UK") None None None (Some 3) (Some "acme") None None None.
Definition feed_in (id stream : Z) (name : string) : ExecutorTypes.stream := Stream stream name (Some "UK") None None None (Some 3) (Some "acme") None None (Some id).
Definition creation (if_exists : string) (number : pyval) : action :=
  CREATE_CHANNEL (CreateParams "{stream_name}" None "" if_exists None number).
Definition merging (target : string) : action :=
  MERGE_STREAMS (MergeParams target (Some "name_exact") (Some "{stream_name}") 0 false false None false "" [] []).
Definition cautious : rule_options := Options (Some 5) [] false None false false.
Definition permissive : rule_options := Options (Some 5) [] false None true false.

Definition start (dry : bool) : state upstream := State (new_executor None there [] None [] no_guide) (new_context dry) world0.
Definition run (dry : bool) (o : rule_options) (l : list (action * stream)) : result exc (list ActionResult) * state upstream :=
  execute_all l o (Some 1) (start dry).
Definition described (r : result exc (list ActionResult) * state upstream) : list string :=
  match r.1 with Ok l => map r_description l | Raise e => [exc_text e] end.

(** A created channel whose name is the hand-built one's, a merge, a number for it. *)
Definition script : list (action * stream) :=
  [(creation "merge" (PStr "auto"), feed 21 "News One"); (merging "auto", feed 22 "Sport");
   (SET_CHANNEL_NUMBER (PStr "100-200"), feed 22 "Sport"); (merging "existing_channel", feed 23 "News One")].
(** The same, then two actions on the pipeline channel a stream is in. *)
Definition pruning : list (action * stream) :=
  script ++ [(SET_STREAM_PRIORITY "lowest", feed_in 2 12 "Sport"); (REMOVE_FROM_CHANNEL, feed_in 2 22 "Sport")].

(** The hand-built channel is as it was. *)
Definition same_built (w w' : upstream) : Prop := up w' !! 1 = up w !! 1.
#[export] Instance same_built_pre : PreOrder same_built.
Proof. split; [by intros w|]. intros a b c H1 H2. unfold same_built in *. by rewrite H2. Qed.

Lemma only_built : ids_where (spared [] pruning) there = {[ 1 ]}.
Proof. reflexivity. Qed.

Lemma others_only {A} (c : call A) w : touches c <> Some 1 -> same_built w (answer c w).2.
Proof.
  intros Hc. unfold same_built. destruct c; cbn in *; unfold create, update; repeat case_match; try done; cbn;
    try (rewrite lookup_insert_ne by (lia || congruence)); try (rewrite lookup_delete_ne by congruence); done.
Qed.

Example script_runs : described (run false cautious script) =
  [ "Created channel 'News One' (#1) in group 5"; "Added stream to channel 'Sport' (stream 2)";
    "Set channel number to 102"; "Added stream to channel 'News One' (stream 2)" ].
Proof. vm_compute. reflexivity. Qed.

(** ** The theorems there *)

Example pruning_runs : drop 4 (described (run false cautious pruning)) =
  ["Moved stream to lowest priority in channel 'Sport'"; "Removed stream from channel 'Sport'"].
Proof. vm_compute. reflexivity. Qed.

(** The gate that a rule must opt out of is not asked when a stream names its own channel. *)
Example own_stream_removed :
  let s := (run false cautious [(REMOVE_FROM_CHANNEL, feed_in 1 11 "News One")]).2 in
  c_streams <$> at_place (exec s) 0 = Some [].
Proof. vm_compute. reflexivity. Qed.

Lemma hand_built_channels_left_alone_witness :
  let s := (run false cautious pruning).2 in
  up (world s) !! 1 = Some built /\ at_place (exec s) 0 = Some built.
Proof.
  destruct (hand_built_channels_left_alone same_built there [] None [] no_guide false pruning cautious (Some 1) world0) as [Hr Hp].
  - split; [by apply (bool_decide_unpack _)|by apply (bool_decide_unpack _)].
  - reflexivity.
  - intros A c w Hc. rewrite only_built in Hc. apply others_only. intros E. specialize (Hc 1 E). set_solver.
  - intros data w ch w'. rewrite only_built. cbn. unfold create. case_bool_decide; [done|]. intros [= <- <-].
    rewrite made_id, elem_of_singleton. lia.
  - split; [exact Hr|]. apply (Hp 0%nat built); reflexivity.
Defined.

Lemma dry_run_writes_nothing_witness :
  world (bind (execute_all script permissive (Some 1)) (fun _ => prune_merge_streams true) (start true)).2 = world0.
Proof.
  symmetry. apply (dry_run_writes_nothing eq script permissive (Some 1) (exec (start true)) world0).
  intros A c w. by destruct c.
Defined.

Lemma there_known ch : ch ∈ there -> c_id ch ∈ known world0.
Proof. revert ch. apply Forall_forall. repeat constructor; vm_compute; reflexivity. Qed.

Lemma numbered_channels_share_no_number_witness :
  let x := exec (run false cautious script).2 in
  at_place x 1 = Some (Channel 2 "Sport" (PInt 102) (Some 5) [Bare 12; Bare 22] true None None ∅) /\
  forall q ch', q <> 1%nat -> at_place x q = Some ch' -> channel_number_ticks (c_number ch') <> Ok 1020.
Proof.
  split; [vm_compute; reflexivity|]. intros q ch' Hq E.
  destruct (numbered_channels_share_no_number there [] None [] no_guide script cautious (Some 1) world0) with (p := 1%nat)
    (ch := Channel 2 "Sport" (PInt 102) (Some 5) [Bare 12; Bare 22] true None None ∅) (n := PInt 102) as [_ H].
  - by apply (bool_decide_unpack _).
  - exact there_known.
  - vm_compute. reflexivity.
  - vm_compute. reflexivity.
  - by apply (H q ch' 1020 Hq E).
Defined.
(** ** Where a preview and a run part *)

Definition film : channel := Channel 3 "Film" (PInt 100) (Some 5) [Bare 13] true None None ∅.
Definition pair : list channel := [piped; film].
Definition world1 : upstream := Upstream (list_to_map (map (fun ch => (c_id ch, ch)) pair)) {[ 2; 3 ]} 0 0.
Definition run_pair (dry : bool) (o : rule_options) (l : list (action * stream)) : result exc (list ActionResult) * state upstream :=
  execute_all l o (Some 1) (State (new_executor None pair [] None [] no_guide) (new_context dry) world1).
Definition selecting (name : string) : action * stream := (creation "skip" (PStr "auto"), feed 21 name).
Definition numbering (spec : pyval) : action * stream := (SET_CHANNEL_NUMBER spec, feed 21 "").

(** Two channels given numbers from one range: the run uses two of them, the preview one. *)
Example preview_numbers_twice :
  let l := [selecting "Sport"; numbering (PStr "200-300"); selecting "Film"; numbering (PStr "200-300")] in
  described (run_pair false cautious l) =
    ["Channel 'Sport' already exists, skipped"; "Set channel number to 200";
     "Channel 'Film' already exists, skipped"; "Set channel number to 201"] /\
  described (run_pair true cautious l) =
    ["Channel 'Sport' already exists, skipped"; "Would set channel number to 200";
     "Channel 'Film' already exists, skipped"; "Would set channel number to 200"].
Proof. vm_compute. split; reflexivity. Qed.

(** A channel created with a number: the run keeps it, the preview renumbers. *)
Example preview_renumbers :
  let l := [(creation "skip" (PInt 7), feed 31 "Fresh"); numbering (PInt 300)] in
  described (run_pair false cautious l) =
    ["Created channel 'Fresh' (#7) in group 5"; "Channel already numbered #7 this run"] /\
  described (run_pair true cautious l) =
    ["Would create channel 'Fresh' (#7) in group 5"; "Would set channel number to 300"].
Proof. vm_compute. split; reflexivity. Qed.

(** Its own number counts against a channel: run after run it moves and moves back. *)
Example numbering_drifts :
  let once w n := execute_all [selecting "Film"; numbering (PInt 100)] cautious (Some 1)
    (State (new_executor None [piped; set_number n film] [] None [] no_guide) (new_context false) w) in
  let first := once world1 (PInt 100) in
  let number r := option_map c_number (at_place (exec (snd r)) 1) in
  number first = Some (PInt 102) /\ number (once (world first.2) (PInt 102)) = Some (PInt 100).
Proof. vm_compute. split; reflexivity. Qed.

(** A group created on the way: the run puts the channel there, the preview elsewhere. *)
Example preview_misses_the_group :
  let l := [(CREATE_GROUP (GroupParams "Local" None "" "use_existing"), feed 31 "Fresh"); (creation "skip" (PInt 7), feed 31 "Fresh")] in
  described (run_pair false cautious l) = ["Created group 'Local'"; "Created channel 'Fresh' (#7) in group 'Local'"] /\
  described (run_pair true cautious l) = ["Would create group 'Local'"; "Would create channel 'Fresh' (#7) in group 5"].
Proof. vm_compute. split; reflexivity. Qed.

(** An update with nothing to update: modified in the preview only. *)
Example preview_updates_nothing :
  let modified dry := match (run_pair dry cautious [(creation "update" (PStr "auto"), feed 21 "Sport")]).1 with
    | Ok l => map r_modified l | Raise _ => [] end in
  modified false = [false] /\ modified true = [true].
Proof. vm_compute. split; reflexivity. Qed.

(** The hand-built channel the last lookup turned away is blamed for a stream it has nothing
    to do with. *)
Example block_is_stale :
  described (run true cautious [(creation "merge_only" (PStr "auto"), feed 21 "News One"); (merging "auto", feed 22 "Weather")]) =
    [ "Channel 'News One' not found, skipped (merge only)";
      "Skipped: matched manual channel 'News One' (id=1) but allow_manual_channel_merge is off - treated as not found; " +:+
      "stream not merged (merge_streams only adds to existing channels; " +:+
      "enable allow_manual_channel_merge on the rule to merge into hand-built channels)" ].
Proof. vm_compute. reflexivity. Qed.

(** A preview notes in the journal an adoption that has not happened. *)
Example preview_journals :
  map j_action (journal (notes (exec (run true permissive [(creation "merge" (PStr "auto"), feed 21 "News One")]).2))) =
    ["manual_channel_adopted"].
Proof. vm_compute. reflexivity. Qed.

End ExecutorDemo.
