(* ===== verification/AssignTheorems.v ===== *)
(** * What the executor's assignments promise.

    A channel the executor reports as assigned to profiles is in exactly those, and what the
    executor knows of the memberships stays what they are; the profile flips are made while the
    lock of the channel's group is held, and the lock is given back whatever happens. *)
From S2P Require Import Prelude PyFloat PyValue PyText PyDict PyState ChannelNumber DatePlaceholders.
From S2P Require Import NumberAllocation GuideMatch ExecutorTypes ExecutorIndex ProfileMembership ExecutorActions ExecutorAssign ExecutorRun.
From S2P Require Import ExecutorLogic ExecutorDemo.
From stdpp Require Import list gmap strings.
Open Scope Z_scope.
Open Scope py_scope.

Module AssignTheorems.
Import GuideMatch ExecutorTypes ExecutorIndex ProfileMembership ExecutorActions ExecutorAssign ExecutorRun ExecutorLogic ExecutorDemo.

(** ** Exclusive membership *)

(** Dispatcharr's memberships: a flip that succeeds is made, one that fails is not, and
    nothing else changes who is where. *)
Class ProfileApi (W : Type) `{!Environment W} := {
  profiles_of : W -> Z -> gset Z;
  flip_law : forall p ch b w w', perform (UpdateProfileChannel p ch b) w = (Ok tt, w') ->
    forall ch', profiles_of w' ch' = if bool_decide (ch' = ch)
                                     then (if b : bool then {[ p ]} ∪ profiles_of w ch else profiles_of w ch ∖ {[ p ]})
                                     else profiles_of w ch';
  failed_flip_law : forall p ch b w e w', perform (UpdateProfileChannel p ch b) w = (Raise e, w') ->
    forall ch', profiles_of w' ch' = profiles_of w ch';
  other_calls : forall A (c : call A) w ch,
    match c with UpdateProfileChannel _ _ _ => True | _ => profiles_of (perform c w).2 ch = profiles_of w ch end }.

Lemma elem_of_dedup l : forall seen x, x ∈ dedup seen l <-> x ∈ l /\ x ∉ seen.
Proof.
  induction l as [|y l IH]; intros seen x; cbn [dedup]; [set_solver|].
  case_bool_decide; rewrite ?elem_of_cons, IH, ?elem_of_cons; [|destruct (decide (x = y)); naive_solver].
  split; [naive_solver|]. intros [[->|Hx] Hs]; [done|by split].
Qed.

Lemma NoDup_dedup l : forall seen, NoDup (dedup seen l).
Proof.
  induction l as [|y l IH]; intros seen; cbn [dedup]; [constructor|].
  case_bool_decide; [done|]. constructor; [|done]. rewrite elem_of_dedup. set_solver.
Qed.

Definition all_related {A} (_ _ : A) : Prop := True.
#[local] Instance all_related_pre {A} : PreOrder (@all_related A).
Proof. by split. Qed.

Section exclusive.
Context {W : Type} `{!Environment W, !ProfileApi W}.

(** The memberships the executor read are the API's, as far as the profiles concerned go. *)
Definition mirrors (x : Executor) (w : W) (id : Z) (ids : list Z) : Prop :=
  membership (profiles x) <> None ->
  forall pid, pid ∈ universe ++ ids -> pid ∈ _current_profile_membership (profiles x) id <-> pid ∈ profiles_of w id.

(** The same of a group of channels and a group of profiles: what one assignment leaves the
    next is planned on. *)
Definition agrees (channels known : gset Z) (x : Executor) (w : W) : Prop :=
  membership (profiles x) <> None -> forall ch pid, ch ∈ channels -> pid ∈ known ->
    pid ∈ _current_profile_membership (profiles x) ch <-> pid ∈ profiles_of w ch.

Lemma agrees_mirrors channels known x w id ids :
  agrees channels known x w -> id ∈ channels -> (forall pid, pid ∈ universe ++ ids -> pid ∈ known) -> mirrors x w id ids.
Proof. intros Ha Hid Hk Hne pid Hpid. apply Ha; auto. Qed.

(** *** The flips, whichever fail *)

(** The flips never raise, and the membership they return has moved as the channel's. *)
Lemma flip_all_tracks id flips : forall current r s r0 s', flip_all id flips current r s = (r0, s') ->
  exists r', r0 = Ok r' /\ exec s' = exec s /\
    (forall ch, ch <> id -> profiles_of (world s') ch = profiles_of (world s) ch) /\
    forall pid, (pid ∈ current <-> pid ∈ profiles_of (world s) id) -> pid ∈ r'.2 <-> pid ∈ profiles_of (world s') id.
Proof.
  induction flips as [|[p b] flips IH]; cbn [flip_all]; intros current r s r0 s' E.
  { injection E as <- <-. by eexists. }
  unfold bind, attempt, api in E. destruct (perform (UpdateProfileChannel p id b) (world s)) as [[[]|e] w1] eqn:Ew.
  - pose proof (flip_law _ _ _ _ _ Ew) as Hw.
    destruct b; apply IH in E as (r' & -> & Ex & Ho & Ht); exists r'; (split_and!; [done|exact Ex| |]);
      try (intros ch Hch; rewrite Ho by done; cbn [world]; by rewrite Hw, bool_decide_eq_false_2);
      intros pid Hp; apply Ht; cbn [world]; rewrite Hw, bool_decide_eq_true_2 by done; set_solver.
  - pose proof (failed_flip_law _ _ _ _ _ _ Ew) as Hw.
    apply IH in E as (r' & -> & Ex & Ho & Ht). exists r'. split_and!; [done|exact Ex| |].
    + intros ch Hch. rewrite Ho by done. apply Hw.
    + intros pid Hp. apply Ht. cbn [world]. by rewrite Hw.
Qed.

Lemma current_remember id m p ch : membership p <> None ->
  _current_profile_membership (remember id m p) ch = if bool_decide (ch = id) then m else _current_profile_membership p ch.
Proof.
  unfold _current_profile_membership, remember. destruct (membership p) as [k|]; [|done]. intros _. cbn.
  destruct (decide (ch = id)) as [->|Hne]; [by rewrite lookup_insert_eq, bool_decide_eq_true_2|].
  rewrite lookup_insert_ne, (bool_decide_eq_false_2 (ch = id)) by done.
  destruct (k !! ch); [done|]. repeat case_bool_decide; set_solver.
Qed.

Lemma remember_known id m p : membership (remember id m p) <> None -> membership p <> None.
Proof. unfold remember. by destruct (membership p) eqn:E; [|rewrite E]. Qed.

(** *** The flips, when none fails *)

Definition flipped (s s' : state W) (id : Z) (flips : list (Z * bool)) : Prop :=
  (forall ch, ch <> id -> profiles_of (world s') ch = profiles_of (world s) ch) /\
  (forall pid b, (pid, b) ∈ flips -> pid ∈ profiles_of (world s') id <-> b = true) /\
  (forall pid, pid ∉ map fst flips -> pid ∈ profiles_of (world s') id <-> pid ∈ profiles_of (world s) id).

Lemma flip_all_failed id flips : forall current r s r' s',
  flip_all id flips current r s = (Ok r', s') -> exists l, failed_profile_ids r'.1 = failed_profile_ids r ++ l.
Proof.
  induction flips as [|[p b] flips IH]; intros current r s r' s'; cbn [flip_all].
  { intros [= <- <-]. exists []. by rewrite app_nil_r. }
  unfold bind, attempt. destruct (api _ s) as [[[]|e] s1]; cbn.
  - destruct b; intros H; by apply IH in H.
  - intros [l E]%IH. exists (p :: l). rewrite E. cbn. by rewrite <- app_assoc.
Qed.

Lemma flip_all_flipped id flips : NoDup (map fst flips) -> forall current r s r' s',
  flip_all id flips current r s = (Ok r', s') -> failed_profile_ids r'.1 = [] -> flipped s s' id flips.
Proof.
  induction flips as [|[p b] flips IH]; cbn [map fst flip_all]; intros Hn current r s r' s' E Hf.
  { injection E as <- <-. split_and!; [done|set_solver|done]. }
  apply NoDup_cons in Hn as [Hp Hn]. unfold bind, attempt, api in E.
  destruct (perform (UpdateProfileChannel p id b) (world s)) as [[[]|e] w1] eqn:Ew.
  2: { apply flip_all_failed in E as [l El]. rewrite El in Hf. cbn in Hf. by destruct (failed_profile_ids r). }
  pose proof (flip_law _ _ _ _ _ Ew) as Hw.
  assert (H : flipped (State (exec s) (ctx s) w1) s' id flips) by (destruct b; by eapply IH).
  destruct H as (H1 & H2 & H3). cbn in H1, H2, H3. split_and!.
  - intros ch Hch. by rewrite H1, Hw, bool_decide_eq_false_2.
  - intros pid b' [[= -> ->]|Hin]%elem_of_cons; [|by apply H2]. rewrite H3, Hw, bool_decide_eq_true_2 by done.
    destruct b; set_solver.
  - intros pid [Hne Hpid]%not_elem_of_cons. rewrite H3, Hw, bool_decide_eq_true_2 by done. destruct b; set_solver.
Qed.

(** *** The plan *)

Definition flips_of (plan : list Z * list Z) : list (Z * bool) :=
  map (fun p => (p, true)) plan.1 ++ map (fun p => (p, false)) plan.2.

Lemma flips_ids plan : map fst (flips_of plan) = plan.1 ++ plan.2.
Proof. unfold flips_of. rewrite map_app, !map_map. cbn. by rewrite !map_id. Qed.

Lemma elem_of_filter_bool (f : Z -> bool) l x : x ∈ List.filter f l <-> x ∈ l /\ f x = true.
Proof. by rewrite !list_elem_of_In, filter_In. Qed.

Lemma plan_distinct p id ids : NoDup (map fst (flips_of (_profile_flip_plan p id ids))).
Proof.
  rewrite flips_ids. pose proof (NoDup_dedup (universe ++ ids) []) as Hn.
  assert (Hf : forall f g : Z -> bool, (forall z, f z = true -> g z = true -> False) ->
    NoDup (List.filter f (dedup [] (universe ++ ids)) ++ List.filter g (dedup [] (universe ++ ids)))).
  { intros f g Hfg. apply NoDup_app. split_and!; [by apply NoDup_ListNoDup, List.NoDup_filter, NoDup_ListNoDup| |
      by apply NoDup_ListNoDup, List.NoDup_filter, NoDup_ListNoDup].
    intros z [_ Hz]%elem_of_filter_bool [_ Hz']%elem_of_filter_bool. by eapply Hfg. }
  unfold _profile_flip_plan. destruct (membership p); cbn; apply Hf; intros z; repeat case_bool_decide; done.
Qed.

Lemma plan_exact x w (s s' : state W) id ids : world s = w -> mirrors x w id ids ->
  flipped s s' id (flips_of (_profile_flip_plan (profiles x) id ids)) ->
  forall pid, pid ∈ universe ++ ids -> pid ∈ profiles_of (world s') id <-> pid ∈ ids.
Proof.
  intros <- Hm (_ & H2 & H3) pid Hpid.
  assert (Ho : pid ∈ dedup [] (universe ++ ids)) by (apply elem_of_dedup; set_solver).
  unfold mirrors in Hm. unfold flips_of in H2. rewrite flips_ids in H3. unfold _profile_flip_plan in *.
  destruct (membership (profiles x)) as [m|] eqn:Em; cbn [fst snd] in *.
  - specialize (Hm ltac:(done) pid Hpid).
    destruct (decide (pid ∈ ids)) as [Hd|Hd], (decide (pid ∈ _current_profile_membership (profiles x) id)) as [Hc|Hc].
    + split; [done|intros _]. apply H3; [|by apply Hm].
      rewrite elem_of_app, !elem_of_filter_bool. repeat case_bool_decide; cbn; naive_solver.
    + split; [done|intros _]. apply (H2 pid true); [|done]. apply elem_of_app; left. apply Prelude.elem_of_map.
      exists pid. split; [done|]. apply elem_of_filter_bool. by rewrite bool_decide_eq_true_2, bool_decide_eq_false_2.
    + split; [|done]. intros H. exfalso. assert (Hf : false = true); [|done]. apply (H2 pid false); [|done].
      apply elem_of_app; right. apply Prelude.elem_of_map. exists pid. split; [done|].
      apply elem_of_filter_bool. by rewrite bool_decide_eq_false_2, bool_decide_eq_true_2.
    + split; [|done]. rewrite H3; [by intros ?%Hm|].
      rewrite elem_of_app, !elem_of_filter_bool. repeat case_bool_decide; cbn; naive_solver.
  - destruct (decide (pid ∈ ids)) as [Hd|Hd].
    + split; [done|intros _]. apply (H2 pid true); [|done]. apply elem_of_app; left. apply Prelude.elem_of_map.
      exists pid. split; [done|]. apply elem_of_filter_bool. by rewrite bool_decide_eq_true_2.
    + split; [|done]. intros H. exfalso. assert (Hf : false = true); [|done]. apply (H2 pid false); [|done].
      apply elem_of_app; right. apply Prelude.elem_of_map. exists pid. split; [done|].
      apply elem_of_filter_bool. by rewrite bool_decide_eq_false_2.
Qed.
(** *** The steps around them *)

Section steps.
(** What depends on the executor's memberships and the API's only. *)
Variable IX : Executor -> W -> Prop.
Hypothesis stable : forall x x' w w', profiles x' = profiles x -> (forall ch, profiles_of w' ch = profiles_of w ch) ->
  IX x w -> IX x' w'.
Abbreviation steady := (keeps (holds IX any) (follows all_related all_related) any).

Lemma steady_api {A} (c : call A) : match c with UpdateProfileChannel _ _ _ => False | _ => True end -> steady (api c).
Proof.
  intros Hc. apply runs_api; [apply _..|]. intros x w Hx. split_and!; [|done|by destruct (perform c w).1].
  eapply stable; [done| |exact Hx]. intros ch. pose proof (other_calls _ c w ch) as H. by destruct c.
Qed.
Lemma steady_on_exec g : (forall x, profiles (g x) = profiles x) -> steady (on_exec g).
Proof. intros Hg. apply runs_on_exec; [apply _..|]. intros x w Hx. split; [|done]. by eapply stable; [apply Hg|..]. Qed.
Lemma steady_executor : steady executor.
Proof. eapply keeps_weaken; [apply runs_executor; apply _|done]. Qed.
Lemma steady_context : steady context.
Proof. eapply keeps_weaken; [apply runs_context; apply _|done]. Qed.
Lemma steady_on_ctx g : steady (on_ctx g).
Proof. apply runs_on_ctx; [apply _..|done]. Qed.
Hint Resolve steady_executor steady_context steady_on_ctx : runs.

Ltac steady_leaf :=
  first [ solve [eauto 2 with runs] | apply steady_api; exact Logic.I | apply steady_on_exec; reflexivity | apply keeps_ret; [apply _|done] ].
Ltac steady := intros; repeat first [runs_step | steady_leaf].

Lemma steady_in_cache id g : steady (in_cache id g).
Proof. unfold in_cache, on_channel. steady. Qed.
Hint Resolve steady_in_cache : runs.
Lemma steady_mark id rule : steady (_mark_channel_profile_ownership id rule).
Proof. unfold _mark_channel_profile_ownership. steady. Qed.
Lemma steady_group id : steady (_resolve_channel_effective_group id).
Proof. unfold _resolve_channel_effective_group, fetched_settings. steady. Qed.
Lemma steady_established id (b : bool) : steady (if b then ret tt else on_ctx (on_ownership_unestablished (fun s => {[ id ]} ∪ s))).
Proof. destruct b; steady. Qed.

(** What the state is after a step that keeps it. *)
Lemma steady_after {A} (m : M (state W) A) s r s' : steady m -> holds IX any s -> m s = (r, s') -> holds IX any s'.
Proof. intros Hm Hs E. destruct (Hm s Hs) as (Hi & _). by rewrite E in Hi. Qed.

(** A whole assignment keeps what its flips keep. *)
Lemma steady_assign ids rule id c :
  (forall ids, steady (_apply_exclusive_profile_membership id ids)) ->
  truthy_id (current_channel_id c) = Some id -> dry_run c = false ->
  forall x w, IX x w -> holds IX any (_execute_assign_channel_profile ids rule (State x c w)).2.
Proof.
  intros Ha Hid Hdry x w Hx. pose proof steady_mark. pose proof steady_established.
  assert (Hw : steady (_assign_channel_profile_write id rule ids)) by (unfold _assign_channel_profile_write; steady; eauto).
  unfold _execute_assign_channel_profile, with_current, bind at 1, context, gets. cbn [ctx]. rewrite Hid.
  destruct ids as [|i ids]; [done|]. destruct all_profile_ids as [u|]; [|done]. rewrite Hdry.
  apply (fun H : steady _ => proj1 (H (State x c w) (conj Hx Logic.I))).
  eapply keeps_bind; [apply _|apply steady_group|]. intros [[g|] []] _; unfold with_lock; steady; eauto.
Qed.
End steps.

(** *** An assignment, whatever it returns *)

Section agreement.
Variables (channels known : gset Z) (id : Z) (now : Z -> gset Z).

Definition agreeing (x : Executor) (w : W) : Prop :=
  agrees channels known x w /\ forall other, other <> id -> profiles_of w other = now other.

Lemma agreeing_stable x x' w w' : profiles x' = profiles x -> (forall ch, profiles_of w' ch = profiles_of w ch) ->
  agreeing x w -> agreeing x' w'.
Proof.
  intros Ex Ew [Ha Ho]. split; [|intros other Hne; rewrite Ew; by apply Ho].
  intros Hne ch pid Hch Hpid. rewrite Ex in *. rewrite Ew. by apply Ha.
Qed.

Lemma agreeing_apply ids :
  keeps (holds agreeing any) (follows all_related all_related) any (_apply_exclusive_profile_membership id ids).
Proof.
  intros s [[Ha Ho] _]. destruct (_apply_exclusive_profile_membership id ids s) as [r s'] eqn:E. revert E. cbn [fst snd].
  unfold _apply_exclusive_profile_membership, bind at 1, executor, gets.
  destruct (_profile_flip_plan (profiles (exec s)) id ids) as [on off]. unfold bind at 1.
  destruct (flip_all id _ _ _ s) as [r0 s1] eqn:E. apply flip_all_tracks in E as (r1 & -> & Ex & Hoth & Ht). intros [= <- <-].
  refine (conj (conj _ Logic.I) (conj (conj Logic.I Logic.I) Logic.I)). split; cbn; [|intros other Hne; rewrite Hoth; auto].
  intros Hne ch pid Hch Hpid. cbn in Hne. rewrite Ex in Hne. apply remember_known in Hne. cbn [profiles on_profiles].
  rewrite Ex, current_remember by done. case_bool_decide as E; [subst; apply Ht, Ha; done|].
  rewrite Hoth by done. by apply Ha.
Qed.
End agreement.

(** *** An assignment reported as successful *)

Variables (P : Profiles) (now : Z -> gset Z).
Definition steady_state (x : Executor) (w : W) : Prop := profiles x = P /\ forall ch, profiles_of w ch = now ch.

Lemma steady_stable x x' w w' : profiles x' = profiles x -> (forall ch, profiles_of w' ch = profiles_of w ch) ->
  steady_state x w -> steady_state x' w'.
Proof. intros Ex Ew [HP Hn]. split; [by rewrite Ex|intros ch; by rewrite Ew]. Qed.

Definition exactly (id : Z) (ids : list Z) (w : W) : Prop :=
  (forall pid, pid ∈ universe ++ ids -> pid ∈ profiles_of w id <-> pid ∈ ids) /\
  forall other, other <> id -> profiles_of w other = now other.

Lemma applied_exactly id ids s r s' :
  holds steady_state any s -> (forall x w, steady_state x w -> mirrors x w id ids) ->
  _apply_exclusive_profile_membership id ids s = (Ok r, s') -> failed_profile_ids r = [] -> exactly id ids (world s').
Proof.
  intros [Hs _] Hm. unfold _apply_exclusive_profile_membership, bind at 1, executor, gets.
  pose proof (plan_distinct (profiles (exec s)) id ids) as Hn. pose proof (Hm _ _ Hs) as Hmx.
  pose proof (plan_exact (exec s) (world s) s) as Hp. unfold flips_of in Hn, Hp.
  specialize (fun s' => Hp s' id ids eq_refl Hmx).
  destruct (_profile_flip_plan (profiles (exec s)) id ids) as [on off]; cbn [fst snd] in *. unfold bind at 1.
  destruct (flip_all id _ _ _ s) as [[r'|e] s1] eqn:E; [|done].
  intros [= <- <-] Hf. cbn. pose proof (flip_all_flipped id _ Hn _ _ _ _ _ E Hf) as Hfl.
  split; [by apply Hp|]. intros other Ho. destruct Hfl as (H1 & _). rewrite H1 by done. apply Hs.
Qed.

Lemma success_of id r established : r_success (membership_result id r established) = true -> failed_profile_ids r = [].
Proof. unfold membership_result. by destruct (failed_profile_ids r). Qed.

Lemma written_exactly id rule ids s r s' :
  holds steady_state any s -> (forall x w, steady_state x w -> mirrors x w id ids) ->
  _assign_channel_profile_write id rule ids s = (Ok r, s') -> r_success r = true -> exactly id ids (world s').
Proof.
  intros Hs Hm. unfold _assign_channel_profile_write, try_except, bind at 1.
  destruct (_mark_channel_profile_ownership id rule s) as [[est|e] s1] eqn:E1; [|by intros [= <- <-]].
  pose proof (steady_after _ _ _ _ _ (steady_mark _ steady_stable id rule) Hs E1) as Hs1. unfold bind at 1.
  pose proof (steady_established steady_state id est) as Hst. set (m := if est then _ else _) in *.
  destruct (m s1) as [[[]|e] s2] eqn:E2; [|by intros [= <- <-]].
  pose proof (steady_after _ _ _ _ _ Hst Hs1 E2) as Hs2. unfold bind.
  destruct (_apply_exclusive_profile_membership id ids s2) as [[rec|e] s3] eqn:E3; [|by intros [= <- <-]].
  intros [= <- <-] Hok. apply (applied_exactly _ _ _ _ _ Hs2 Hm E3). by apply success_of in Hok.
Qed.

Lemma locked_exactly group id rule ids s r s' :
  holds steady_state any s -> (forall x w, steady_state x w -> mirrors x w id ids) ->
  with_lock group (_assign_channel_profile_write id rule ids) s = (Ok r, s') -> r_success r = true -> exactly id ids (world s').
Proof.
  intros Hs Hm. unfold with_lock. destruct group as [g|]; [|by apply written_exactly].
  unfold bind. destruct (api (AcquireGroupLock g) s) as [[[]|e] s1] eqn:E1; [|done].
  pose proof (steady_after _ _ _ _ _ (steady_api _ steady_stable (AcquireGroupLock g) Logic.I) Hs E1) as Hs1. unfold always.
  destruct (_assign_channel_profile_write id rule ids s1) as [r' s2] eqn:E2.
  destruct (api (ReleaseGroupLock g) s2) as [u s3] eqn:E3. intros [= -> <-] Hok.
  destruct (written_exactly _ _ _ _ _ _ Hs1 Hm E2 Hok) as [H1 H2].
  assert (Hw : forall ch, profiles_of (world s3) ch = profiles_of (world s2) ch).
  { intros ch. unfold api in E3. pose proof (other_calls _ (ReleaseGroupLock g) (world s2) ch) as H. cbn in H.
    destruct (perform (ReleaseGroupLock g) (world s2)) as [u' w'] eqn:Ep. injection E3 as _ <-. exact H. }
  split; [intros pid Hpid; rewrite Hw; by apply H1|intros o Ho; rewrite Hw; by apply H2].
Qed.
End exclusive.

Lemma assigned_exactly {W} `{!Environment W, !ProfileApi W} ids rule x c w id r s :
  truthy_id (current_channel_id c) = Some id -> dry_run c = false -> mirrors x w id ids ->
  _execute_assign_channel_profile ids rule (State x c w) = (Ok r, s) -> r_success r = true ->
  forall pid, pid ∈ universe ++ ids -> pid ∈ profiles_of (world s) id <-> pid ∈ ids.
Proof.
  intros Hid Hdry Hm. unfold _execute_assign_channel_profile, with_current, bind at 1, context, gets. cbn [ctx].
  rewrite Hid. destruct ids as [|i ids]; [by intros [= <- <-]|].
  destruct all_profile_ids as [u|]; [|by intros [= <- <-]]. rewrite Hdry. unfold bind at 1.
  assert (Hs : holds (steady_state (profiles x) (profiles_of w)) any (State x c w)) by done.
  destruct (_resolve_channel_effective_group id (State x c w)) as [[g|e] s1] eqn:E1; [|done].
  pose proof (steady_after _ _ _ _ _ (steady_group _ (steady_stable _ _) id) Hs E1) as Hs1.
  destruct g as [[g|] []]; try (by intros [= <- <-]);
    (intros E Hok; refine (proj1 (locked_exactly (profiles x) (profiles_of w) _ _ _ _ _ _ _ Hs1 _ E Hok)));
    intros x' w' [Ex Ew] Hne pid Hpid; rewrite Ex in *; rewrite Ew; by apply Hm.
Qed.

(** C15: a live profile assignment, by an executor whose memberships agree with the API's (on
    the [channels] and the profiles [known], with the profiles there are and those selected
    among them; when the memberships could not be read nothing is asked), reported as
    successful leaves the channel in exactly the selected profiles, of all the profiles there
    are.  Whatever it reports, or raises, and whichever calls fail, no other channel's profiles
    change, and the executor's memberships agree again, so that the next assignment starts
    from what this one did. *)
Theorem assigned_profiles_exact {W} `{!Environment W, !ProfileApi W} channels known ids rule x c w id r s :
  truthy_id (current_channel_id c) = Some id -> dry_run c = false ->
  id ∈ channels -> (forall pid, pid ∈ universe ++ ids -> pid ∈ known) -> agrees channels known x w ->
  _execute_assign_channel_profile ids rule (State x c w) = (r, s) ->
  agrees channels known (exec s) (world s) /\
  (forall other, other <> id -> profiles_of (world s) other = profiles_of w other) /\
  forall a, r = Ok a -> r_success a = true -> forall pid, pid ∈ universe ++ ids -> pid ∈ profiles_of (world s) id <-> pid ∈ ids.
Proof.
  intros Hid Hdry Hch Hk Ha E.
  pose proof (steady_assign (agreeing channels known id (profiles_of w)) (agreeing_stable _ _ _ _) ids rule id c
    (agreeing_apply channels known id (profiles_of w)) Hid Hdry x w (conj Ha (fun _ _ => eq_refl))) as [[Ha' Ho] _].
  rewrite E in Ha', Ho. split_and!; [exact Ha'|exact Ho|]. intros a -> Hok.
  exact (assigned_exactly ids rule x c w id a s Hid Hdry (agrees_mirrors _ _ _ _ _ _ Ha Hch Hk) E Hok).
Qed.

(** *** A world with three profiles *)

Record roster := Roster { upstream_of : upstream; enlistments : gmap Z (gset Z) }.
Definition members (w : roster) (ch : Z) : gset Z := default ∅ (enlistments w !! ch).
Definition flip (p ch : Z) (b : bool) (w : roster) : result exc unit * roster :=
  (Ok tt, Roster (upstream_of w) (<[ch := if b then {[ p ]} ∪ members w ch else members w ch ∖ {[ p ]}]> (enlistments w))).

(** Two groups, the channels of the first placed in the second. *)
Definition overridden : gmap Z pyval :=
  {[ 5 := PDict [("custom_properties", PDict [("group_override", PInt 6)])]; 6 := PDict [] ]}.

Definition enrol {A} (c : call A) (w : roster) : result exc A * roster :=
  match c in call A return result exc A * roster with
  | UpdateProfileChannel p ch b => flip p ch b w
  | GetAllGroupSettings => (Ok overridden, w)
  | c => let '(r, u) := answer c (upstream_of w) in (r, Roster u (enlistments w))
  end.

#[export] Instance enrolled : Environment roster := {|
  perform := @enrol;
  regex_sub := fun _ _ s => Ok s; regex_search := fun _ _ => false; regex_groups := fun _ _ => None;
  score_one := @score_one upstream demo;
  engine := None; settings := None; all_profile_ids := Some [1; 2; 3];
  triggered_by := "manual"; execution_id := Some 7; plan_only := false |}.

#[export, refine] Instance enrolled_api : ProfileApi roster := {| profiles_of := members |}.
Proof.
  - intros p ch b w w' [= <-] ch'. unfold members. cbn.
    case_bool_decide as E; [subst; by rewrite lookup_insert_eq|by rewrite lookup_insert_ne].
  - by intros p ch b w e w' [=].
  - intros A c w ch. destruct c; cbn; try done; unfold create, update; by repeat case_match.
Defined.

Definition enlisted : gmap Z (gset Z) := {[ 2 := {[ 2; 3 ]} ]}.
Definition reader : Executor :=
  new_executor None there [] (Some enlisted) [] no_guide.
Definition chosen : ExecutionContext := on_current_channel_id (fun _ => Some 2) (new_context false).
Definition assigning : result exc ActionResult * state roster :=
  _execute_assign_channel_profile [1; 3] (Some 9) (State reader chosen (Roster world0 enlisted)).

(** A second assignment of the same channel, by the executor the first one left. *)
Definition reassigning (s : state roster) : result exc ActionResult * state roster :=
  _execute_assign_channel_profile [2] (Some 9) (State (exec s) chosen (world s)).

Lemma assigned_profiles_exact_witness :
  exists r s r' s', assigning = (Ok r, s) /\ reassigning s = (Ok r', s') /\
    (2 ∉ profiles_of (world s) 2) /\ 1 ∈ profiles_of (world s) 2 /\ 3 ∈ profiles_of (world s) 2 /\
    2 ∈ profiles_of (world s') 2 /\ (1 ∉ profiles_of (world s') 2) /\ 3 ∉ profiles_of (world s') 2.
Proof.
  assert (Ha : agrees {[ 2 ]} {[ 1; 2; 3 ]} reader (Roster world0 enlisted)).
  { intros _ ch pid ->%elem_of_singleton _. reflexivity. }
  destruct assigning as [[r|e] s] eqn:E; [|vm_compute in E; discriminate].
  assert (Hok : r_success r = true /\ match (reassigning s).1 with Ok a => r_success a | Raise _ => false end = true)
    by (vm_compute in E; injection E as <- <-; vm_compute; split; reflexivity).
  destruct Hok as [Hok Hok'].
  destruct (assigned_profiles_exact {[ 2 ]} {[ 1; 2; 3 ]} [1; 3] (Some 9) reader chosen (Roster world0 enlisted) 2 (Ok r) s
    eq_refl eq_refl ltac:(set_solver) ltac:(set_solver) Ha E) as (Ha' & _ & H).
  destruct (reassigning s) as [[r'|e] s'] eqn:E'; [|done].
  destruct (assigned_profiles_exact {[ 2 ]} {[ 1; 2; 3 ]} [2] (Some 9) (exec s) chosen (world s) 2 (Ok r') s'
    eq_refl eq_refl ltac:(set_solver) ltac:(set_solver) Ha' E') as (_ & _ & H').
  specialize (H r eq_refl Hok). specialize (H' r' eq_refl Hok').
  exists r, s, r', s'. rewrite !H, !H' by set_solver. split_and!; [done|done|set_solver..].
Defined.
(** ** The group's lock *)

Inductive event := Locked (group : Z) | Unlocked (group : Z) | Flipped (profile channel : Z) | Called.
Definition event_of {A} (c : call A) (r : result exc A) : event :=
  match c, r with
  | AcquireGroupLock g, Ok _ => Locked g
  | ReleaseGroupLock g, _ => Unlocked g
  | UpdateProfileChannel p ch _, _ => Flipped p ch
  | _, _ => Called
  end.

Definition is_lock (e : event) : bool := match e with Locked _ | Unlocked _ => true | _ => false end.
Definition is_flip (e : event) : bool := match e with Flipped _ _ => true | _ => false end.

(** A world that keeps a log of the calls. *)
Record recorded (W : Type) := Recorded { inner : W; log : list event }.
Arguments Recorded {W} _ _.
Arguments inner {W} _.
Arguments log {W} _.

#[export] Instance recording {W} `{!Environment W} : Environment (recorded W) := {|
  perform := fun A (c : call A) w => let '(r, w') := perform c (inner w) in (r, Recorded w' (log w ++ [event_of c r]));
  regex_sub := @regex_sub W _; regex_search := @regex_search W _; regex_groups := @regex_groups W _;
  score_one := @score_one W _; engine := @engine W _; settings := @settings W _; all_profile_ids := @all_profile_ids W _;
  triggered_by := @triggered_by W _; execution_id := @execution_id W _; plan_only := @plan_only W _ |}.

(** The group whose lock a channel's profiles are assigned under. *)
Definition lock_group (x : Executor) (c : ExecutionContext) (id g : Z) : Prop :=
  exists settings group, group_settings c = Some (Some settings) /\ group_of (cached x id) = Some group /\
    resolve_effective_master_group_id settings group = Ok g.

Section locking.
Context {W : Type} `{!Environment W}.

(** Only calls that [ok] admits are added to the log. *)
Definition adds (ok : event -> bool) (w w' : recorded W) : Prop := exists l, log w' = log w ++ l /\ forallb ok l = true.
#[local] Instance adds_pre ok : PreOrder (adds ok).
Proof.
  split; [intros w; exists []; by rewrite app_nil_r|]. intros a b c (l & E & Hl) (k & E' & Hk).
  exists (l ++ k). rewrite forallb_app, Hl, Hk, E', E. by rewrite app_assoc.
Qed.

Definition idle (e : event) : bool := negb (is_lock e) && negb (is_flip e).
Definition lock_free (e : event) : bool := negb (is_lock e).

Lemma api_adds {A} (c : call A) (s : state (recorded W)) r s' : api c s = (r, s') ->
  exec s' = exec s /\ ctx s' = ctx s /\ log (world s') = log (world s) ++ [event_of c r].
Proof. unfold api. cbn. destruct (perform c (inner (world s))). by intros [= <- <-]. Qed.

(** *** What is written under the lock *)

Variable G : option (option (gmap Z pyval)).
Definition settled (c : ExecutionContext) : Prop := group_settings c = G.
Abbreviation writing := (keeps (holds (fun _ (_ : recorded W) => True) settled) (follows all_related (adds lock_free)) any).

Lemma writing_api {A} (c : call A) : match c with AcquireGroupLock _ | ReleaseGroupLock _ => False | _ => True end -> writing (api c).
Proof.
  intros Hc. apply runs_api; [apply _..|]. intros x w _. split_and!; [done| |by destruct (perform c w).1].
  cbn. destruct (perform c (inner w)) as [r w']. exists [event_of c r]. split; [done|]. by destruct c, r.
Qed.
Lemma writing_executor : writing executor.
Proof. eapply keeps_weaken; [apply runs_executor; apply _|done]. Qed.
Lemma writing_on_exec g : writing (on_exec g).
Proof. by apply runs_on_exec; [apply _..|]. Qed.
Lemma writing_on_ctx g : (forall c, group_settings (g c) = group_settings c) -> writing (on_ctx g).
Proof. intros Hg. apply runs_on_ctx; [apply _..|]. intros c. unfold settled. by rewrite Hg. Qed.
Hint Resolve writing_executor writing_on_exec : runs.

Ltac writing_leaf :=
  first [ solve [eauto 2 with runs] | apply writing_api; exact Logic.I | apply writing_on_ctx; reflexivity | apply keeps_ret; [apply _|done] ].
Ltac writing := intros; repeat first [runs_step | writing_leaf].

Lemma writing_in_cache id g : writing (in_cache id g).
Proof. unfold in_cache, on_channel. writing. Qed.
Hint Resolve writing_in_cache : runs.
Lemma writing_mark id rule : writing (_mark_channel_profile_ownership id rule).
Proof. unfold _mark_channel_profile_ownership. writing. Qed.
Lemma writing_flips id l : forall current r, writing (flip_all id l current r).
Proof. induction l as [|[p b] l IH]; intros current r; cbn [flip_all]; [writing|]. writing; eauto. Qed.
Lemma writing_profiles id rule ids : writing (_assign_channel_profile_write id rule ids).
Proof.
  pose proof writing_mark. pose proof writing_flips.
  unfold _assign_channel_profile_write, _apply_exclusive_profile_membership. writing; eauto.
Qed.
End locking.

(** *** Which lock *)

Section which.
Context {W : Type} `{!Environment W}.

Definition resolved (s s' : state (recorded W)) : Prop :=
  exec s' = exec s /\ exists l, log (world s') = log (world s) ++ l /\ forallb idle l = true.

Lemma fetched_adds (s s' : state (recorded W)) r : fetched_settings s = (r, s') ->
  exists o, r = Ok o /\ group_settings (ctx s') = Some o /\ resolved s s'.
Proof.
  unfold fetched_settings, bind, context, gets, on_ctx, modify, attempt. destruct (group_settings (ctx s)) as [o|] eqn:E.
  { intros [= <- <-]. exists o. split_and!; [done|done|]. split; [done|]. exists []. by rewrite app_nil_r. }
  match goal with |- context [api GetAllGroupSettings ?s0] => destruct (api GetAllGroupSettings s0) as [a s1] eqn:Ea end. apply api_adds in Ea as (Ex & _ & El).
  intros [= <- <-]. eexists. split_and!; [done|done|]. split; [exact Ex|]. exists [Called]. by destruct a.
Qed.

Lemma resolved_group id (s s' : state (recorded W)) r : _resolve_channel_effective_group id s = (r, s') ->
  resolved s s' /\ exists g has, r = Ok (g, has) /\
    match g with Some g => lock_group (exec s) (ctx s') id g | None => has = false -> group_of (cached (exec s) id) = None end.
Proof.
  unfold _resolve_channel_effective_group, bind at 1. destruct (fetched_settings s) as [r1 s1] eqn:E.
  apply fetched_adds in E as (o & -> & Eg & Ex & l & El). unfold bind, executor, gets. rewrite Ex. intros [= <- <-].
  split; [split; [done|by exists l]|]. unfold lock_group.
  destruct o as [m|]; [|destruct (group_of (cached (exec s) id)); by do 2 eexists].
  destruct (group_of (cached (exec s) id)) as [group|]; [|by do 2 eexists].
  case_bool_decide; [by do 2 eexists|].
  destruct (resolve_effective_master_group_id m group) as [g|] eqn:Er; do 2 eexists; (split; [reflexivity|]); [by exists m, group|done].
Qed.
End which.

(** No flip and no lock; or the channel is in no group; or the flips are between the taking of
    the lock of the channel's group and its giving back. *)
Definition disciplined (x : Executor) (c' : ExecutionContext) (id : Z) (l : list event) : Prop :=
  forallb idle l = true \/
  (group_of (cached x id) = None /\ forallb lock_free l = true) \/
  exists g pre body, l = pre ++ [Locked g] ++ body ++ [Unlocked g] /\ lock_group x c' id g /\
    forallb idle pre = true /\ forallb lock_free body = true.

(** C18: whatever the calls answer, the profiles of a channel in a group are only ever flipped
    while the lock of its effective group is held (the group its channels are placed in, by the
    settings read once); the lock is taken once, and given back however the writes end; when
    the group cannot be told, nothing is flipped. *)
Theorem profile_flips_hold_the_lock {W} `{!Environment W} ids rule x c (w : W) id :
  truthy_id (current_channel_id c) = Some id ->
  let s := (_execute_assign_channel_profile ids rule (State x c (Recorded w []))).2 in
  disciplined x (ctx s) id (log (world s)).
Proof.
  intros Hid s. subst s. destruct (_execute_assign_channel_profile _ _ _) as [r0 s] eqn:E. revert E. cbn [snd].
  unfold _execute_assign_channel_profile, with_current, bind at 1, context, gets. cbn [ctx]. rewrite Hid.
  destruct ids as [|i ids]; [intros [= <- <-]; by left|]. destruct all_profile_ids as [u|]; [|intros [= <- <-]; by left].
  destruct (dry_run c); [intros [= <- <-]; by left|]. unfold bind at 1.
  destruct (_resolve_channel_effective_group id _) as [r s1] eqn:E1.
  apply resolved_group in E1 as ((Ex & pre & El & Hpre) & g & has & -> & Hg). cbn [exec world log] in *. cbn in El.
  pose proof (writing_profiles (group_settings (ctx s1)) id rule (i :: ids)) as Hw.
  destruct g as [g|]; [|destruct has; [intros [= <- <-]; left; by rewrite <- El in Hpre|]].
  - unfold with_lock, bind. destruct (api (AcquireGroupLock g) s1) as [[[]|e] s2] eqn:E2; apply api_adds in E2 as (_ & Ec2 & El2).
    2: { intros [= <- <-]. left. by rewrite El2, El, forallb_app, Hpre. }
    unfold always. destruct (Hw s2) as ([_ Hc] & [_ (body & Eb & Hb)] & _); [split; [done|]; unfold settled; by rewrite Ec2|].
    destruct (_assign_channel_profile_write id rule (i :: ids) s2) as [r3 s3]; cbn in Hc, Eb.
    destruct (api (ReleaseGroupLock g) s3) as [r4 s4] eqn:E4. apply api_adds in E4 as (_ & Ec4 & El4). intros [= <- <-].
    right; right. exists g, pre, body. split_and!; [|by unfold lock_group; rewrite Ec4, Hc|done|done].
    rewrite El4, Eb, El2, El. by rewrite <- !app_assoc.
  - unfold with_lock. destruct (Hw s1) as (_ & [_ (body & Eb & Hb)] & _); [done|].
    intros E. rewrite E in Eb. cbn in Eb. right; left. split; [by apply Hg|].
    rewrite Eb, El, forallb_app, Hb, andb_true_r. apply forallb_forall. intros e He.
    eapply forallb_forall in Hpre; [|exact He]. by apply andb_true_iff in Hpre as [? _].
Qed.

Definition assigning_logged : result exc ActionResult * state (recorded roster) :=
  _execute_assign_channel_profile [1; 3] (Some 9) (State reader chosen (Recorded (Roster world0 enlisted) [])).

Lemma profile_flips_hold_the_lock_witness :
  log (world assigning_logged.2) = [Called; Locked 6; Called; Called; Flipped 1 2; Flipped 2 2; Unlocked 6] /\
  disciplined reader (ctx assigning_logged.2) 2 (log (world assigning_logged.2)).
Proof.
  split; [vm_compute; reflexivity|].
  exact (profile_flips_hold_the_lock [1; 3] (Some 9) reader chosen (Roster world0 enlisted) 2 eq_refl).
Defined.
(** ** Where words and deeds part *)

(** A group with a channel, deleted as empty: the channel says which group it is in by
    [channel_group_id] only. *)
Example group_looks_empty :
  option_map c_group (up world0 !! 1) = Some (Some 5) /\
  match (delete_group_if_empty 5 5 (start false)).1 with Ok r => r_description r | Raise e => exc_text e end =
    "Deleted empty group 'ID:5'".
Proof. vm_compute. split; reflexivity. Qed.

(** No entry matches and the source has two: the first is not taken. *)
Example no_fallback_to_first :
  let entries := [EpgEntry 1 None (Some "Alpha") None None; EpgEntry 2 None (Some "Beta") None None] in
  let x := new_executor None there [] None [] (MkGuide {[ 4 := entries ]} ∅ [] []) in
  match (_execute_assign_epg (EpgParams (Some 4) false) (feed 21 "Sport") false (State x chosen world0)).1 with
  | Ok r => r_description r | Raise e => exc_text e end = "No matching EPG data for 'Sport' in source 4".
Proof. vm_compute. reflexivity. Qed.
End AssignTheorems.
