(* ===== verification/HoareLogic.v ===== *)
(** * Triples for computations that change a state and may raise.

    [hoare P m Q E]: from a state with [P], [m] ends in one with [Q] of its answer, or with [E]
    when it raises.  One rule per construct; [stays I m] when [I] holds throughout. *)
From S2P Require Import Prelude PyFloat PyValue PyText PyDict PyState ExecutorTypes.
From stdpp Require Import list.
Open Scope py_scope.

Module HoareLogic.

Section triples.
Context {S : Type}.
Implicit Types (P E : S -> Prop).

Definition hoare {A} P (m : M S A) (Q : A -> S -> Prop) E : Prop :=
  forall s, P s -> match (m s).1 with Ok a => Q a (m s).2 | Raise _ => E (m s).2 end.

Definition stays {A} P (m : M S A) : Prop := hoare P m (fun _ => P) P.

Lemma hoare_ret {A} P (a : A) (Q : A -> S -> Prop) E : (forall s, P s -> Q a s) -> hoare P (ret a) Q E.
Proof. now intros H s Hs; apply H. Qed.

Lemma hoare_raise {A} P e (Q : A -> S -> Prop) E : (forall s, P s -> E s) -> hoare P (raise e) Q E.
Proof. now intros H s Hs; apply H. Qed.

Lemma hoare_pure {A} P (r : result exc A) Q E :
  (forall s, P s -> match r with Ok a => Q a s | Raise _ => E s end) -> hoare P (pure r) Q E.
Proof. now intros H s Hs; apply H. Qed.

Lemma hoare_bind {A B} P (m : M S A) (k : A -> M S B) Q Q' E :
  hoare P m Q E -> (forall a, hoare (Q a) (k a) Q' E) -> hoare P (bind m k) Q' E.
Proof.
  intros Hm Hk s Hs. specialize (Hm s Hs). unfold bind. destruct (m s) as [[a|e] s1]; cbn in *; [by apply Hk|done].
Qed.

Lemma hoare_try {A} P (m : M S A) (h : exc -> M S A) Q E E' :
  hoare P m Q E -> (forall e, hoare E (h e) Q E') -> hoare P (try_except m h) Q E'.
Proof.
  intros Hm Hh s Hs. specialize (Hm s Hs). unfold try_except. destruct (m s) as [[a|e] s1]; cbn in *; [done|by apply Hh].
Qed.

Lemma hoare_attempt {A} P (m : M S A) Q E E' :
  hoare P m Q E -> hoare P (attempt m) (fun r s => match r with Ok a => Q a s | Raise _ => E s end) E'.
Proof. intros Hm s Hs. specialize (Hm s Hs). unfold attempt. by destruct (m s) as [[a|e] s1]. Qed.

Lemma hoare_always {A} P (m : M S A) (after : M S unit) Q E Q' E' :
  hoare P m Q E -> (forall a, hoare (Q a) after (fun _ => Q' a) (Q' a)) -> hoare E after (fun _ => E') E' ->
  hoare P (ExecutorTypes.always m after) Q' E'.
Proof.
  intros Hm Hq He s Hs. specialize (Hm s Hs). unfold ExecutorTypes.always. destruct (m s) as [[a|e] s1]; cbn in *.
  - specialize (Hq a s1 Hm). destruct (after s1) as [[[]|e] s2]; exact Hq.
  - specialize (He s1 Hm). destruct (after s1) as [[[]|e'] s2]; exact He.
Qed.

Lemma hoare_weaken {A} P P' (m : M S A) Q Q' E E' :
  hoare P m Q E -> (forall s, P' s -> P s) -> (forall a s, Q a s -> Q' a s) -> (forall s, E s -> E' s) -> hoare P' m Q' E'.
Proof. intros Hm HP HQ HE s Hs. specialize (Hm s (HP s Hs)). destruct (m s) as [[a|e] s1]; cbn in *; auto. Qed.

Lemma hoare_both {A} P P' (m : M S A) Q Q' E E' :
  hoare P m Q E -> hoare P' m Q' E' ->
  hoare (fun s => P s /\ P' s) m (fun a s => Q a s /\ Q' a s) (fun s => E s /\ E' s).
Proof. intros H H' s [Hs Hs']. specialize (H s Hs). specialize (H' s Hs'). by destruct (m s) as [[a|e] s1]. Qed.

Lemma hoare_post {A} P (m : M S A) Q Q' E : hoare P m Q E -> (forall a s, Q a s -> Q' a s) -> hoare P m Q' E.
Proof. intros Hm HQ. by eapply hoare_weaken. Qed.

Lemma hoare_for_each {A} P (l : list A) body E :
  (forall x, x ∈ l -> hoare P (body x) (fun _ => P) E) -> hoare P (for_each l body) (fun _ => P) E.
Proof.
  intros Hb. induction l as [|x l IH]; cbn [for_each]; [by apply hoare_ret|].
  apply hoare_bind with (Q := fun _ => P); [apply Hb; left|intros u]. apply IH. intros y Hy. apply Hb. by right.
Qed.

(** A fact that does not depend on the state. *)
Lemma hoare_fact {A} (F : Prop) P (m : M S A) Q E : (F -> hoare P m Q E) -> hoare (fun s => F /\ P s) m Q E.
Proof. intros H s [Hf Hs]. by apply H. Qed.

Lemma stays_bind {A B} P (m : M S A) (k : A -> M S B) : stays P m -> (forall a, stays P (k a)) -> stays P (bind m k).
Proof. intros Hm Hk. by eapply hoare_bind. Qed.
Lemma stays_attempt {A} P (m : M S A) : stays P m -> stays P (attempt m).
Proof. intros Hm. eapply hoare_post; [exact (hoare_attempt P m _ P P Hm)|]. by intros [a|e] s. Qed.
End triples.

End HoareLogic.
