(* ===== verification/ProfileReconcile.v ===== *)
(** * Group-level channel-profile reconciliation ([services/profile_reconcile.py],
    [services/m3u_group_state.py]).

    The profiles selected for a group are applied to its channels, the pipeline's own left
    out: the selection and its owners, the locked body, the lock that follows the group's
    effective id, the targets of a sweep and of a save, the convergence of the accounts' rows. *)
From S2P Require Import Prelude PyFloat PyValue PyText PyDict PyState ExecutorTypes ExecutorAssign.
From stdpp Require Import list gmap strings.
Open Scope Z_scope.
Open Scope py_scope.

Module ProfileReconcile.

(** A group's settings by its id, the ones of the account rows collapsed into one. *)
Definition group_settings : Type := gmap Z pyval.
Definition effective (s : group_settings) (group : Z) : result exc Z := ExecutorAssign.resolve_effective_master_group_id s group.

(** ** The selection *)

(** [-?[0-9]+] *)
Definition integer_text (s : string) : option Z :=
  match s with
  | String "-" s => n ← digits s; Some (- Z.of_N n)
  | _ => n ← digits s; Some (Z.of_N n)
  end.

Definition coerce_profile_id (v : pyval) : option Z :=
  match v with PInt z => Some z | PStr s => integer_text (strip s) | _ => None end.

Definition field (v : pyval) (key : string) : option pyval := match v with PDict d => dict_get d key | _ => None end.

Definition _selection_from_setting (setting : option pyval) : option (list Z) :=
  match (s ← setting; cp ← field s "custom_properties"; field cp "channel_profile_ids") with
  | Some (PList raw) => match omap coerce_profile_id raw with [] => None | selection => Some selection end
  | _ => None
  end.

Definition in_conflict (setting : option pyval) : bool :=
  match (s ← setting; field s "_ecm_channel_profile_conflict") with Some v => truthy v | None => false end.

(** ** Owners *)

Record member := Member { m_id : option Z; m_properties : pyval }.

Inductive ownership := unowned | owned | released.
#[export] Instance ownership_eq : EqDecision ownership.
Proof. solve_decision. Defined.

Definition marker (cp : list (string * pyval)) : bool :=
  match dict_get cp ExecutorAssign.OWNER_KEY with Some (PStr s) => bool_decide (s = ExecutorAssign.OWNER_VALUE) | _ => false end.

(** [None]: the live rules are unknown. *)
Definition _ownership_state (m : member) (live_rule_ids : option (gset Z)) : ownership :=
  match m_properties m with
  | PDict cp =>
      if marker cp then
        match live_rule_ids, dict_get cp ExecutorAssign.RULE_KEY with
        | Some live, Some (PInt rule) => if bool_decide (rule ∈ live) then owned else released
        | _, _ => owned
        end
      else unowned
  | _ => unowned
  end.

(** ** Calls *)

(** A rule's row: its actions as JSON text, [None] when the text is no JSON. *)
Record rule_row := RuleRow { rule_id : Z; rule_enabled : bool; rule_actions : option (option pyval) }.

(** A page of a group's channels, and whether another follows. *)
Record page := Page { results : list member; next : bool }.

Record account := Account { a_id : option Z; a_groups : list (list (string * pyval)) }.

(** Dispatcharr's API, the locks, the rules' table, the review queue, [cancel_check]. *)
Inductive call : Type -> Type :=
| GetGroupChannels (page_number group : Z) : call page
| GetMember (id : Z) : call member
| UpdateProperties (id : Z) (properties : list (string * pyval)) : call unit
| GetChannelProfiles : call (list (option Z))
| BulkUpdateProfile (profile : Z) (channels : list Z) (enabled : bool) : call unit
| GetGroupSettings : call group_settings
| AcquireLock (group : Z) : call unit
| ReleaseLock (group : Z) : call unit
| RuleRows : call (list rule_row)
| ReviewConflict (group : Z) : call unit
| ReviewConflicts : call unit
| GetAccounts : call (option (list account))
| UpdateGroupSettings (account : Z) (rows : list (list (string * pyval))) : call unit
| CancelRequested : call bool.

Class Client (W : Type) := { request : forall {A}, call A -> W -> result exc A * W }.

(** ** Outcomes *)

Inductive status := no_selection | no_channels | conflicted | stale_selection | reconciled | partial_failure | degraded.
#[export] Instance status_eq : EqDecision status.
Proof. solve_decision. Defined.

Record outcome := Outcome {
  o_status : status; o_effective : option Z; o_scoped : nat; o_excluded : nat; o_released : nat; o_enabled : nat;
  o_disabled : nat; o_failed : list Z; o_conflict : bool; o_error : option string }.

Definition sorted_failures (l : list Z) : list Z := merge_sort Z.le l.

Section reconcile.
Context {W : Type} `{!Client W}.

Definition api {A} (c : call A) : M W A := request c.

(** *** Which rules are live *)

Definition assigns_profiles (action : pyval) : bool :=
  match field action "type" with Some (PStr s) => bool_decide (s = "assign_channel_profile") | _ => false end.

(** [None]: the actions are no iterable. *)
Definition assigning (r : rule_row) : option bool :=
  match rule_actions r with
  | None => Some false
  | Some None => Some false
  | Some (Some (PList l)) => Some (existsb assigns_profiles l)
  | Some (Some (PDict _)) | Some (Some (PStr _)) => Some false
  | Some (Some _) => None
  end.

Fixpoint live_ids (rows : list rule_row) : result exc (gset Z) :=
  match rows with
  | [] => Ok ∅
  | r :: rows =>
      match assigning r with
      | None => Raise (Exc Other "TypeError" "object is not iterable")
      | Some b => let! ids := live_ids rows in Ok (if b then {[ rule_id r ]} ∪ ids else ids)
      end
  end.

Definition _query_live_profile_assigning_rule_ids : M W (gset Z) :=
  do! rows := api RuleRows in pure (live_ids (List.filter rule_enabled rows)).

Definition _resolve_live_rule_ids : M W (option (gset Z)) :=
  do! r := attempt _query_live_profile_assigning_rule_ids in
  ret (match r with Ok ids => Some ids | Raise _ => None end).

(** *** Cancellation, enumeration *)

Definition cancelled : exc := Exc Other "_ReconcileCancelled" "".
Definition is_cancelled (e : exc) : bool := bool_decide (exc_name e = "_ReconcileCancelled").

Definition _check_cancel : M W unit :=
  do! b := api CancelRequested in if b : bool then raise cancelled else ret tt.

(** [get_channels(page_size=...)] and the cap on the pages read. *)
Definition _CHANNEL_PAGE_SIZE : nat := 100.
Definition _MAX_CHANNEL_PAGES : nat := Z.to_nat 1000.

Fixpoint pages_from (fuel : nat) (number group : Z) (channels : list member) : M W (list member) :=
  match fuel with
  | O => ret channels
  | S fuel =>
      _check_cancel;;
      do! response := api (GetGroupChannels number group) in
      let channels := channels ++ results response in
      if match results response with [] => true | _ => negb (next response) end then ret channels
      else pages_from fuel (number + 1) group channels
  end.

Definition _fetch_group_channels (group : Z) : M W (list member) := pages_from _MAX_CHANNEL_PAGES 1 group [].

Definition owned_now (live : option (gset Z)) (m : member) : option Z :=
  if bool_decide (_ownership_state m live = owned) then m_id m else None.

Definition _recheck_newly_owned (group : Z) (live : option (gset Z)) : M W (gset Z) :=
  do! channels := _fetch_group_channels group in ret (list_to_set (omap (owned_now live) channels)).

(** *** Markers of released channels *)

Definition unmarked (cp : list (string * pyval)) : list (string * pyval) :=
  d_del ExecutorAssign.RULE_KEY (d_del ExecutorAssign.OWNER_KEY cp).

Definition _clear_ownership_marker (m : member) : M W unit :=
  match m_id m with
  | None => ret tt
  | Some id =>
      do! fresh := attempt (api (GetMember id)) in
      match fresh with
      | Ok (Member _ (PDict cp)) =>
          if d_mem ExecutorAssign.OWNER_KEY cp || d_mem ExecutorAssign.RULE_KEY cp
          then (do! _ := attempt (api (UpdateProperties id (unmarked cp))) in ret tt) else ret tt
      | _ => ret tt
      end
  end.

(** *** The channels *)

(** How many are owned, which were released, and the ids to reconcile. *)
Fixpoint classify (live : option (gset Z)) (channels : list member) : nat * list member * list Z :=
  match channels with
  | [] => (0%nat, [], [])
  | m :: channels =>
      let '(owned_count, released_channels, ids) := classify live channels in
      match m_id m with
      | None => (owned_count, released_channels, ids)
      | Some id =>
          match _ownership_state m live with
          | owned => (S owned_count, released_channels, ids)
          | unowned => (owned_count, released_channels, id :: ids)
          | released => (owned_count, m :: released_channels, id :: ids)
          end
      end
  end.

(** A bulk write per profile: those that were made, those that failed. *)
Fixpoint bulk_each (enabled : bool) (channels : list Z) (profiles : list Z) (made failed : list Z) : M W (list Z * list Z) :=
  match profiles with
  | [] => ret (made, failed)
  | p :: profiles =>
      _check_cancel;;
      do! r := attempt (api (BulkUpdateProfile p channels enabled)) in
      match r with
      | Ok _ => bulk_each enabled channels profiles (made ++ [p]) failed
      | Raise _ => bulk_each enabled channels profiles made (failed ++ [p])
      end
  end.

Definition without (dropped : gset Z) (ids : list Z) : list Z := List.filter (fun id => negb (bool_decide (id ∈ dropped))) ids.
Definition within (dropped : gset Z) (ids : list Z) : nat := List.length (List.filter (fun id => bool_decide (id ∈ dropped)) ids).

(** Every outcome past the classification. *)
Definition outcome_of (gid : Z) (excluded released : nat) (s : status) (scoped enabled disabled : nat) (failed : list Z)
    (error : option string) : outcome :=
  Outcome s (Some gid) scoped excluded released enabled disabled (sorted_failures failed) false error.

(** The profiles there are could not be read: the selected ones are enabled, none disabled. *)
Definition enable_selected_only (gid : Z) (live : option (gset Z)) (selection ids : list Z) (excluded released : nat) : M W outcome :=
  do! r := attempt (_recheck_newly_owned gid live) in
  match r with
  | Raise _ => ret (outcome_of gid excluded released degraded 0 0 0 [] (Some "enable-only ownership re-check fetch failed; no writes issued"))
  | Ok newly_owned =>
      let excluded := (excluded + within newly_owned ids)%nat in
      match without newly_owned ids with
      | [] => ret (outcome_of gid excluded released no_channels 0 0 0 [] None)
      | ids =>
          do! r := bulk_each true ids selection [] [] in let '(made, failed) := r in
          ret (outcome_of gid excluded released degraded (List.length ids) (List.length made) 0 failed
                 (Some "profile universe unavailable; exclusivity not enforced"))
      end
  end.

Definition apply_exclusively (gid : Z) (live : option (gset Z)) (selection universe_ids ids : list Z) (excluded released : nat) :
    M W outcome :=
  let chosen p := bool_decide (p ∈ selection) in
  match List.filter chosen universe_ids with
  | [] => ret (outcome_of gid excluded released stale_selection 0 0 0 [] None)
  | valid =>
      do! r := attempt (_recheck_newly_owned gid live) in
      match r with
      | Raise _ => ret (outcome_of gid excluded released degraded 0 0 0 [] (Some "ownership re-check fetch failed; no writes issued"))
      | Ok newly_owned =>
          let excluded := (excluded + within newly_owned ids)%nat in
          match without newly_owned ids with
          | [] => ret (outcome_of gid excluded released no_channels 0 0 0 [] None)
          | ids =>
              do! r := bulk_each true ids valid [] [] in let '(enabled_ok, failed_enable) := r in
              match failed_enable with
              | _ :: _ => ret (outcome_of gid excluded released partial_failure (List.length ids) (List.length enabled_ok) 0 failed_enable None)
              | [] =>
                  do! r := bulk_each false ids (List.filter (fun p => negb (chosen p)) universe_ids) [] [] in let '(disabled_ok, failed_disable) := r in
                  ret (outcome_of gid excluded released (match failed_disable with [] => reconciled | _ => partial_failure end)
                         (List.length ids) (List.length enabled_ok) (List.length disabled_ok) failed_disable None)
              end
          end
      end
  end.

Definition _reconcile_group_locked (settings : group_settings) (group gid : Z) (live : option (gset Z)) : M W outcome :=
  let setting := settings !! group in
  if in_conflict setting then
    ret (Outcome conflicted (Some gid) 0 0 0 0 0 [] true (Some "channel-profile membership is frozen pending review"))
  else match _selection_from_setting setting with
  | None => ret (Outcome no_selection None 0 0 0 0 0 [] false None)
  | Some selection =>
      do! channels := _fetch_group_channels gid in
      let '(owned_count, released_channels, ids) := classify live channels in
      for_each released_channels _clear_ownership_marker;;
      let released := List.length released_channels in
      match ids with
      | [] => ret (outcome_of gid owned_count released no_channels 0 0 0 [] None)
      | _ =>
          do! profiles := attempt (api GetChannelProfiles) in
          match profiles with
          | Raise _ => enable_selected_only gid live selection ids owned_count released
          | Ok profiles => apply_exclusively gid live selection (omap id profiles) ids owned_count released
          end
      end
  end.

(** *** Under the lock of the group's effective id *)

Definition failed_closed (gid : Z) (error : string) : outcome := Outcome degraded (Some gid) 0 0 0 0 0 [] false (Some error).

(** What is done under the lock of [lock_key]: an outcome, or fresher settings by which the
    lock is another group's. *)
Definition under_lock (settings : group_settings) (group lock_key : Z) (revalidate : bool) (live : option (gset Z)) :
    M W (group_settings + outcome) :=
  do! fresh := if revalidate then attempt (api GetGroupSettings) else ret (Ok settings) in
  match fresh with
  | Raise _ => ret (inr (failed_closed lock_key "revalidation fetch failed; no writes issued"))
  | Ok settings =>
      do! gid := pure (effective settings group) in
      if gid =? lock_key then
        try_except
          ((if in_conflict (settings !! group) then (do! _ := attempt (api (ReviewConflict gid)) in ret tt) else ret tt);;
           do! o := _reconcile_group_locked settings group gid live in ret (inr o))
          (fun e => if is_cancelled e then ret (inr (failed_closed gid "cancelled mid-reconcile")) else raise e)
      else ret (inl settings)
  end.

Definition _LOCK_REACQUIRE_MAX : nat := 3.

Fixpoint attempts (n : nat) (settings : group_settings) (group : Z) (revalidate : bool) (live : option (gset Z)) : M W outcome :=
  do! lock_key := pure (effective settings group) in
  match n with
  | O => ret (failed_closed lock_key "effective group unstable under lock; no writes issued")
  | S n =>
      api (AcquireLock lock_key);;
      do! r := ExecutorTypes.always (under_lock settings group lock_key revalidate live) (api (ReleaseLock lock_key)) in
      match r with inr o => ret o | inl settings => attempts n settings group revalidate live end
  end.

(** [live]: [None] when the caller left the rules to be looked up. *)
Definition reconcile_group_profiles (settings : group_settings) (group : Z) (live : option (option (gset Z))) (revalidate : bool) :
    M W outcome :=
  do! live := match live with Some live => ret live | None => _resolve_live_rule_ids end in
  attempts _LOCK_REACQUIRE_MAX settings group revalidate live.

(** ** Which groups *)

Definition groups_with_selection (settings : group_settings) : list Z :=
  omap (fun p => match _selection_from_setting (Some p.2) with Some _ => Some p.1 | None => None end) (map_to_list settings).

(** [sorted(set(l))] *)
Definition sorted_set (l : list Z) : list Z := merge_sort Z.le (elements (list_to_set l : gset Z)).

Fixpoint winners (settings : group_settings) (gids : list Z) (m : gmap Z Z) : result exc (gmap Z Z) :=
  match gids with
  | [] => Ok m
  | g :: gids =>
      let! gid := effective settings g in
      winners settings gids (if bool_decide (m !! gid = None) || (g =? gid) then <[gid := g]> m else m)
  end.

Definition dedupe_gids_by_effective_group (settings : group_settings) (gids : list Z) : result exc (list Z) :=
  let! m := winners settings (sorted_set gids) ∅ in
  Ok (omap (fun gid => m !! gid) (sorted_set (map fst (map_to_list m)))).

Definition resolve_save_reconcile_targets (settings : group_settings) (edited_gids : list Z) : result exc (list Z) :=
  let! sweep_winners := dedupe_gids_by_effective_group settings (groups_with_selection settings) in
  let! touched := traverse (effective settings) edited_gids in
  let! effectives := traverse (effective settings) sweep_winners in
  Ok (omap (fun p => if bool_decide (p.2 ∈ touched) then Some p.1 else None) (zip sweep_winners effectives)).

End reconcile.
End ProfileReconcile.
