(* ===== verification/ProfileSweep.v ===== *)
(** * Convergence of the accounts' rows and the sweep over all groups
    ([services/profile_reconcile.py]).

    The winning selection of every group is written to the accounts' rows that differ from it,
    under the groups' locks; then every effective group is reconciled once.  A sweep that
    finds another under way is dropped. *)
From S2P Require Import Prelude PyFloat PyValue PyText PyDict PyState ExecutorTypes ExecutorAssign ProfileReconcile.
From stdpp Require Import list gmap strings.
Open Scope Z_scope.
Open Scope py_scope.

Module ProfileSweep.
Import ProfileReconcile.

Definition row : Type := list (string * pyval).

(** ** Rows *)

Definition GROUP_SETTINGS_UPSERT_FIELDS : list string :=
  ["enabled"; "auto_channel_sync"; "auto_sync_channel_start"; "auto_sync_channel_end"; "custom_properties"].

Definition carried (current merged : row) (key : string) : row :=
  match dict_get current key with
  | Some v => if d_mem key merged then merged else d_set key v merged
  | None => merged
  end.

(** A partial row over the stored one: what it does not say is kept. *)
Definition merge_group_settings_row (current : option row) (incoming : row) : row :=
  let current := default [] current in
  let merged := match dict_get current "id" with Some PNone | None => incoming | Some _ => carried current incoming "id" end in
  foldl (carried current) merged GROUP_SETTINGS_UPSERT_FIELDS.

(** The winning selection of each group, sorted and without repetition; a group in conflict has
    none. *)
Definition winning (settings : group_settings) : gmap Z (list Z) :=
  omap (fun setting => if in_conflict (Some setting) then None else option_map sorted_set (_selection_from_setting (Some setting))) settings.

(** [(row.get("custom_properties") or {})]: anything else that is no dict raises when it is read. *)
Definition properties_of (r : row) : result exc row :=
  match dict_get r "custom_properties" with
  | Some (PDict cp) => Ok cp
  | Some v => if truthy v then Raise (Exc Other "AttributeError" "object has no attribute 'get'") else Ok []
  | None => Ok []
  end.

Definition ints (l : list Z) : pyval := PList (map PInt l).
(** [raw == list(desired)] for a row that selects what is desired. *)
Definition is_int (v : pyval) (z : Z) : bool := match v with PInt z' => z' =? z | _ => false end.
Fixpoint is_ints (l : list pyval) (desired : list Z) : bool :=
  match l, desired with
  | [], [] => true
  | v :: l, z :: desired => is_int v z && is_ints l desired
  | _, _ => false
  end.
Definition canonical (raw : option pyval) (desired : list Z) : bool :=
  match raw with Some (PList l) => is_ints l desired | _ => false end.

Definition group_of_row (r : row) : option Z := match dict_get r "channel_group" with Some (PInt g) => Some g | _ => None end.

(** The row as it is to be, when it differs. *)
Definition rewritten (cp : row) (desired : list Z) (r : row) : row :=
  d_set "custom_properties" (PDict (d_del "_ecm_channel_profile_conflict" (d_set "channel_profile_ids" (ints desired) cp))) r.

Definition row_to_write (win : gmap Z (list Z)) (r : row) : result exc (option (Z * row)) :=
  match (g ← group_of_row r; desired ← win !! g; Some (g, desired)) with
  | None => Ok None
  | Some (g, desired) =>
      let! cp := properties_of r in
      let current := sorted_set (default [] (_selection_from_setting (Some (PDict r)))) in
      if bool_decide (current = desired) && canonical (dict_get cp "channel_profile_ids") desired then Ok None
      else Ok (Some (g, rewritten cp desired r))
  end.

Fixpoint rows_to_write (win : gmap Z (list Z)) (rows : list row) : result exc (list (Z * row)) :=
  match rows with
  | [] => Ok []
  | r :: rows =>
      let! o := row_to_write win r in
      let! rest := rows_to_write win rows in
      Ok (match o with Some p => p :: rest | None => rest end)
  end.

Section sweep.
Context {W : Type} `{!Client W}.

(** [async with acquire_effective_group_locks(gids): m]: the locks in ascending order. *)
Fixpoint with_locks {A} (gids : list Z) (m : M W A) : M W A :=
  match gids with
  | [] => m
  | g :: gids => api (AcquireLock g);; ExecutorTypes.always (with_locks gids m) (api (ReleaseLock g))
  end.

(** How many accounts were written, how many failed; [true] when the accounts could not be
    listed. *)
Record normalization := Normalized { normalized_accounts : nat; failed_accounts : nat; fetch_failed : bool }.

Fixpoint normalize_accounts (settings : group_settings) (accounts : list account) (done : normalization) : M W normalization :=
  match accounts with
  | [] => ret done
  | a :: accounts =>
      do! stop := api CancelRequested in
      if stop : bool then ret done
      else match a_id a with
      | None => normalize_accounts settings accounts done
      | Some aid =>
          do! rows := pure (rows_to_write (winning settings) (a_groups a)) in
          match rows with
          | [] => normalize_accounts settings accounts done
          | _ =>
              do! gids := pure (traverse (effective settings) (map fst rows)) in
              do! r := attempt (with_locks (sorted_set gids) (api (UpdateGroupSettings aid (map snd rows)))) in
              normalize_accounts settings accounts
                match r with
                | Ok _ => Normalized (S (normalized_accounts done)) (failed_accounts done) (fetch_failed done)
                | Raise _ => Normalized (normalized_accounts done) (S (failed_accounts done)) (fetch_failed done)
                end
          end
      end
  end.

Definition normalize_group_selections (settings : group_settings) : M W normalization :=
  if bool_decide (winning settings = ∅) then ret (Normalized 0 0 false)
  else
    do! accounts := attempt (api GetAccounts) in
    match accounts with
    | Raise _ | Ok None => ret (Normalized 0 1 true)
    | Ok (Some accounts) => normalize_accounts settings accounts (Normalized 0 0 false)
    end.

(** ** The sweep *)

Record tally := Tally {
  groups_reconciled : nat; groups_partial_failure : nat; groups_degraded : nat; groups_errored : nat; groups_conflicted : nat;
  accounts_normalized : nat; accounts_normalize_failed : nat; selected_groups : nat; channels_scoped : nat }.

Definition counted (r : result exc outcome) (t : tally) : tally :=
  let count a b c e f scoped := Tally (groups_reconciled t + a) (groups_partial_failure t + b) (groups_degraded t + c) (groups_errored t + e)
    (groups_conflicted t + f) (accounts_normalized t) (accounts_normalize_failed t) (selected_groups t) (channels_scoped t + scoped) in
  match r with
  | Raise _ => count 0 0 0 1 0 0
  | Ok o =>
      match o_status o with
      | reconciled => count 1 0 0 0 0 (o_scoped o)
      | partial_failure => count 0 1 0 0 0 (o_scoped o)
      | degraded => count 0 0 1 0 0 (o_scoped o)
      | conflicted => count 0 0 0 0 1 0
      | no_selection | no_channels | stale_selection => t
      end
  end%nat.

Fixpoint sweep_groups (settings : group_settings) (live : option (gset Z)) (revalidate : bool) (gids : list Z) (t : tally) : M W tally :=
  match gids with
  | [] => ret t
  | g :: gids =>
      do! stop := api CancelRequested in
      if stop : bool then ret t
      else
        do! r := attempt (reconcile_group_profiles settings g (Some live) revalidate) in
        sweep_groups settings live revalidate gids (counted r t)
  end.

(** [revalidate]: the client can read the settings again. *)
Definition _run_selected_group_sweep (given : option group_settings) (revalidate : bool) : M W tally :=
  do! settings := match given with Some s => ret (Ok s) | None => attempt (api GetGroupSettings) end in
  match settings with
  | Raise _ => ret (Tally 0 0 0 1 0 0 0 0 0)
  | Ok settings =>
      (do! _ := attempt (api ReviewConflicts) in ret tt);;
      do! n := attempt (normalize_group_selections settings) in
      let n := match n with Ok n => n | Raise _ => Normalized 0 0 false end in
      do! live := _resolve_live_rule_ids in
      let target_gids := groups_with_selection settings in
      do! gids := pure (dedupe_gids_by_effective_group settings target_gids) in
      sweep_groups settings live revalidate gids
        (Tally 0 0 0 0 0 (normalized_accounts n) (failed_accounts n) (List.length target_gids) 0)
  end.

(** ** One sweep at a time *)

Record process := Process { _sweep_in_progress : bool; world : W }.

Definition in_world {A} (m : M W A) : M process A :=
  fun s => let '(r, w) := m (world s) in (r, Process (_sweep_in_progress s) w).

(** [None]: queued behind the sweep under way. *)
Definition reconcile_all_selected_groups (given : option group_settings) (revalidate : bool) : M process (option tally) :=
  do! busy := gets _sweep_in_progress in
  if busy : bool then ret None
  else
    modify (fun s => Process true (world s));;
    do! t := ExecutorTypes.always (in_world (_run_selected_group_sweep given revalidate)) (modify (fun s => Process false (world s))) in
    ret (Some t).

End sweep.
End ProfileSweep.
