(* ===== verification/ReconcileTheorems.v ===== *)
(** * What profile reconciliation promises.

    However calls fail and whenever it is cancelled, it leaves no channel without a profile; a
    group it reports as reconciled is in exactly its profiles; the channels the pipeline owns
    are left alone. *)
From S2P Require Import Prelude PyFloat PyValue PyText PyDict PyState ExecutorTypes ExecutorAssign ProfileReconcile.
From S2P Require Import ProfileSweep HoareLogic.
From stdpp Require Import list gmap strings.
Open Scope Z_scope.
Open Scope py_scope.

Module ReconcileTheorems.
Import ProfileReconcile ProfileSweep HoareLogic.

Lemma dict_get_d_get (d : list (string * pyval)) k : dict_get d k = d_get k d.
Proof. induction d as [|[k' v] d IH]; cbn; [done|]. by rewrite IH. Qed.

Lemma marker_unmarked cp : marker (unmarked cp) = false.
Proof.
  unfold marker, unmarked. rewrite dict_get_d_get, !d_get_del.
  rewrite (bool_decide_eq_true_2 (ExecutorAssign.OWNER_KEY = ExecutorAssign.OWNER_KEY)) by done.
  by destruct (bool_decide (_ = ExecutorAssign.RULE_KEY)).
Qed.

(** ** Memberships *)

(** Dispatcharr's memberships.  A bulk write that succeeds is made; one that fails may have
    been made in part; no other call changes them. *)
Class Memberships (W : Type) `{!Client W} := {
  profiles_of : W -> Z -> gset Z;
  bulk_made : forall p channels b w w', request (BulkUpdateProfile p channels b) w = (Ok tt, w') ->
    forall ch, profiles_of w' ch = if bool_decide (ch ∈ channels)
                                   then (if b : bool then {[ p ]} ∪ profiles_of w ch else profiles_of w ch ∖ {[ p ]})
                                   else profiles_of w ch;
  bulk_failed : forall p channels b w e w', request (BulkUpdateProfile p channels b) w = (Raise e, w') ->
    forall ch, profiles_of w' ch = profiles_of w ch \/
      ch ∈ channels /\ profiles_of w' ch = if b : bool then {[ p ]} ∪ profiles_of w ch else profiles_of w ch ∖ {[ p ]};
  others_keep : forall A (c : call A) w ch,
    match c with BulkUpdateProfile _ _ _ => True | _ => profiles_of (request c w).2 ch = profiles_of w ch end }.

Section memberships.
Context {W : Type} `{!Client W, !Memberships W}.

Definition is_bulk {A} (c : call A) : bool := match c with BulkUpdateProfile _ _ _ => true | _ => false end.

(** What depends on the memberships only. *)
Definition about (P : (Z -> gset Z) -> Prop) (w : W) : Prop := P (profiles_of w).
Definition pointwise (P : (Z -> gset Z) -> Prop) : Prop := forall f g, (forall ch, f ch = g ch) -> P f -> P g.

Lemma quiet_call {A} (c : call A) P : is_bulk c = false -> pointwise P -> stays (about P) (api c).
Proof.
  intros Hc HP w Hw. unfold api, about in *. assert (H : P (profiles_of (request c w).2)).
  { apply (HP (profiles_of w)); [|done]. intros ch. pose proof (others_keep _ c w ch) as Hk. by destruct c. }
  by destruct (request c w).1.
Qed.

Section quiet.
Variable P : (Z -> gset Z) -> Prop.
Hypothesis HP : pointwise P.
Abbreviation quiet := (stays (about P)).

Ltac quiet_step :=
  lazymatch goal with
  | |- stays _ (bind _ _) => apply stays_bind; [|intros ?]
  | |- stays _ (attempt _) => apply stays_attempt
  | |- stays _ (api _) => apply quiet_call; [reflexivity|done]
  | |- stays _ (ret _) => by apply hoare_ret
  | |- stays _ (raise _) => by apply hoare_raise
  | |- stays _ (pure _) => apply hoare_pure; intros ? ?; by case_match
  | |- stays _ (if ?b then _ else _) => destruct b
  | |- stays _ (match ?b with _ => _ end) => destruct b
  end.
Ltac quiet := repeat first [quiet_step | eauto 2].

Lemma quiet_cancel : quiet _check_cancel.
Proof. unfold _check_cancel. quiet. Qed.
Lemma quiet_pages n : forall number g l, quiet (pages_from n number g l).
Proof. induction n as [|n IH]; intros number g l; cbn [pages_from]; pose proof quiet_cancel; quiet. Qed.
Lemma quiet_fetch g : quiet (_fetch_group_channels g).
Proof. apply quiet_pages. Qed.
Lemma quiet_recheck g live : quiet (_recheck_newly_owned g live).
Proof. pose proof quiet_fetch. unfold _recheck_newly_owned. quiet. Qed.
Lemma quiet_clear m : quiet (_clear_ownership_marker m).
Proof. unfold _clear_ownership_marker. quiet. Qed.
Lemma quiet_live : quiet _resolve_live_rule_ids.
Proof. unfold _resolve_live_rule_ids, _query_live_profile_assigning_rule_ids. quiet. Qed.
End quiet.

(** ** Bulk writes *)

(** Writes that enable only add; writes that disable only take their profiles away. *)
Lemma bulk_adds (f : Z -> gset Z) p channels (w : W) ch :
  f ch ⊆ profiles_of w ch -> f ch ⊆ profiles_of (request (BulkUpdateProfile p channels true) w).2 ch.
Proof.
  intros H. destruct (request _ w) as [[[]|e] w'] eqn:E; cbn.
  - rewrite (bulk_made _ _ _ _ _ E). case_bool_decide; set_solver.
  - destruct (bulk_failed _ _ _ _ _ _ E ch) as [-> | [_ ->]]; set_solver.
Qed.

Lemma bulk_spares q p channels b (w : W) ch :
  q <> p \/ b = true -> q ∈ profiles_of w ch -> q ∈ profiles_of (request (BulkUpdateProfile p channels b) w).2 ch.
Proof.
  intros Hq H. destruct (request _ w) as [[[]|e] w'] eqn:E; cbn.
  - rewrite (bulk_made _ _ _ _ _ E). case_bool_decide; [|done]. destruct b; set_solver.
  - destruct (bulk_failed _ _ _ _ _ _ E ch) as [-> | [_ ->]]; [done|]. destruct b; set_solver.
Qed.

Lemma bulk_outside p channels b (w : W) ch :
  ch ∉ channels -> profiles_of (request (BulkUpdateProfile p channels b) w).2 ch = profiles_of w ch.
Proof.
  intros Hch. destruct (request _ w) as [[[]|e] w'] eqn:E; cbn.
  - rewrite (bulk_made _ _ _ _ _ E). by rewrite bool_decide_eq_false_2.
  - by destruct (bulk_failed _ _ _ _ _ _ E ch) as [-> | [? _]].
Qed.

(** *** No channel is stranded *)

(** A channel that had a profile has one. *)
Definition housed (start : Z -> gset Z) (f : Z -> gset Z) : Prop := forall ch, start ch <> ∅ -> f ch <> ∅.
(** Nothing has been taken away. *)
Definition grown (start : Z -> gset Z) (f : Z -> gset Z) : Prop := forall ch, start ch ⊆ f ch.

Lemma pointwise_housed start : pointwise (housed start).
Proof. intros f g Hfg Hf ch. rewrite <- Hfg. apply Hf. Qed.
Lemma pointwise_grown start : pointwise (grown start).
Proof. intros f g Hfg Hf ch. rewrite <- Hfg. apply Hf. Qed.
Lemma grown_housed start f : grown start f -> housed start f.
Proof. intros H ch Hs Hf. apply Hs. specialize (H ch). set_solver. Qed.

Section writing.
Variables (start : Z -> gset Z) (channels : list Z).

Definition untouched (f : Z -> gset Z) : Prop := forall ch, ch ∉ channels -> f ch = start ch.
Definition everywhere (profiles : list Z) (f : Z -> gset Z) : Prop := forall p ch, p ∈ profiles -> ch ∈ channels -> p ∈ f ch.
Definition nowhere (profiles : list Z) (f : Z -> gset Z) : Prop := forall p ch, p ∈ profiles -> ch ∈ channels -> p ∉ f ch.

(** While profiles are enabled; while others are disabled. *)
Definition adding (made : list Z) (f : Z -> gset Z) : Prop := grown start f /\ untouched f /\ everywhere made f.
Definition removing (valid made : list Z) (f : Z -> gset Z) : Prop := everywhere valid f /\ untouched f /\ nowhere made f.

Lemma pointwise_adding made : pointwise (adding made).
Proof.
  intros f g Hfg (Hg & Hu & He). split_and!; [by eapply pointwise_grown|intros ch Hch; rewrite <- Hfg; by apply Hu|].
  intros p ch Hp Hch. rewrite <- Hfg. by apply He.
Qed.
Lemma pointwise_removing valid made : pointwise (removing valid made).
Proof.
  intros f g Hfg (He & Hu & Hn). split_and!; [|intros ch Hch; rewrite <- Hfg; by apply Hu|];
    intros p ch Hp Hch; rewrite <- Hfg; first [by apply He|by apply Hn].
Qed.

Lemma adding_one p made r : adding made (profiles_of r) ->
  let a := request (BulkUpdateProfile p channels true) r in
  adding (match a.1 with Ok _ => made ++ [p] | Raise _ => made end) (profiles_of a.2).
Proof.
  intros (Hg & Hu & He). cbn zeta. set (a := request _ r). split_and!.
  - intros ch. apply bulk_adds, Hg.
  - intros ch Hch. unfold a. rewrite bulk_outside by done. by apply Hu.
  - intros q ch Hq Hch. destruct a.1 as [[]|e] eqn:E; [|apply bulk_spares; [by right|by apply He]].
    apply elem_of_app in Hq as [Hq|Hq]; [apply bulk_spares; [by right|by apply He]|].
    apply list_elem_of_singleton in Hq as ->. unfold a in *. destruct (request _ r) as [x w'] eqn:Er. cbn in E. subst x.
    cbn. rewrite (bulk_made _ _ _ _ _ Er), bool_decide_eq_true_2 by done. set_solver.
Qed.

Lemma removing_one p valid made r : p ∉ valid -> removing valid made (profiles_of r) ->
  let a := request (BulkUpdateProfile p channels false) r in
  removing valid (match a.1 with Ok _ => made ++ [p] | Raise _ => made end) (profiles_of a.2).
Proof.
  intros Hp (He & Hu & Hn). cbn zeta. set (a := request _ r). split_and!.
  - intros q ch Hq Hch. apply bulk_spares; [left; by intros ->|by apply He].
  - intros ch Hch. unfold a. rewrite bulk_outside by done. by apply Hu.
  - assert (Hd : forall q ch, q ∉ profiles_of r ch -> q ∉ profiles_of a.2 ch).
    { intros q ch Hq. unfold a. destruct (request _ r) as [[[]|e] w'] eqn:Er; cbn.
      - rewrite (bulk_made _ _ _ _ _ Er). case_bool_decide; set_solver.
      - destruct (bulk_failed _ _ _ _ _ _ Er ch) as [-> | [_ ->]]; set_solver. }
    intros q ch Hq Hch. destruct a.1 as [[]|e] eqn:E; [|by apply Hd, Hn].
    apply elem_of_app in Hq as [Hq|Hq]; [by apply Hd, Hn|].
    apply list_elem_of_singleton in Hq as ->. unfold a in *. destruct (request _ r) as [x w'] eqn:Er. cbn in E. subst x.
    cbn. rewrite (bulk_made _ _ _ _ _ Er), bool_decide_eq_true_2 by done. set_solver.
Qed.

(** A run of bulk writes of one kind. *)
Lemma bulk_run b (Inv : list Z -> (Z -> gset Z) -> Prop) profiles :
  (forall made, pointwise (Inv made)) -> (forall made f, Inv made f -> Inv [] f) ->
  (forall p made w, p ∈ profiles -> Inv made (profiles_of w) ->
     let a := request (BulkUpdateProfile p channels b) w in
     Inv (match a.1 with Ok _ => made ++ [p] | Raise _ => made end) (profiles_of a.2)) ->
  forall made failed,
  hoare (about (Inv made)) (bulk_each b channels profiles made failed)
    (fun r w => Inv r.1 (profiles_of w) /\ exists l, r.2 = failed ++ l /\ (l = [] -> r.1 = made ++ profiles)) (about (Inv [])).
Proof.
  intros HP H0 H1. induction profiles as [|p profiles IH]; intros made failed; cbn [bulk_each].
  { apply hoare_ret. intros w H. split; [done|]. exists []. by rewrite !app_nil_r. }
  eapply hoare_bind; [eapply hoare_weaken; [apply (quiet_cancel _ (HP made))|done|intros ? ? H; exact H|intros w; apply H0]|].
  intros []. eapply hoare_bind with (Q := fun r => about (Inv (match r with Ok _ => made ++ [p] | Raise _ => made end))).
  - intros w H. unfold attempt, api, about. specialize (H1 p made w ltac:(left) H). cbn zeta in H1.
    destruct (request _ w) as [r w'] eqn:E. exact H1.
  - assert (Ht : forall made failed, hoare (about (Inv made)) (bulk_each b channels profiles made failed)
      (fun r w => Inv r.1 (profiles_of w) /\ exists l, r.2 = failed ++ l /\ (l = [] -> r.1 = made ++ profiles)) (about (Inv []))).
    { apply IH. intros q made' w Hq. apply H1. by right. }
    intros [[]|e]; (eapply hoare_post; [apply Ht|]); cbn; intros [m f] w (Hi & l & El & Hl); (split; [done|]).
    + exists l. split; [done|]. intros Hnil. by rewrite (Hl Hnil), <- app_assoc.
    + exists (p :: l). split; [by rewrite El, <- app_assoc|done].
Qed.

Lemma enabling_run profiles :
  hoare (about (adding [])) (bulk_each true channels profiles [] [])
    (fun r w => adding r.1 (profiles_of w) /\ (r.2 = [] -> r.1 = profiles)) (about (adding [])).
Proof.
  eapply hoare_post; [apply (bulk_run true adding)|].
  - apply pointwise_adding.
  - intros made f (Hg & Hu & _). split_and!; [done|done|]. intros p ch Hp. by apply elem_of_nil in Hp.
  - intros p made w _. apply adding_one.
  - intros r w (H & l & El & Hl). split; [done|]. intros Hn. apply Hl. cbn in El. congruence.
Qed.

Lemma disabling_run valid profiles : (forall p, p ∈ profiles -> p ∉ valid) ->
  hoare (about (removing valid [])) (bulk_each false channels profiles [] [])
    (fun r w => removing valid r.1 (profiles_of w) /\ (r.2 = [] -> r.1 = profiles)) (about (removing valid [])).
Proof.
  intros Hv. eapply hoare_post; [apply (bulk_run false (removing valid))|].
  - apply pointwise_removing.
  - intros made f (Hg & Hu & _). split_and!; [done|done|]. intros p ch Hp. by apply elem_of_nil in Hp.
  - intros p made w Hp. apply removing_one. by apply Hv.
  - intros r w (H & l & El & Hl). split; [done|]. intros Hn. apply Hl. cbn in El. congruence.
Qed.

Lemma adding_housed made f : adding made f -> housed start f.
Proof. intros (Hg & _). by apply grown_housed. Qed.
Lemma removing_housed p valid made f : p ∈ valid -> removing valid made f -> housed start f.
Proof.
  intros Hp (He & Hu & _) ch Hs. destruct (decide (ch ∈ channels)) as [Hin|Hn]; [|by rewrite Hu].
  specialize (He p ch Hp Hin). set_solver.
Qed.
End writing.

(** ** No channel loses its last profile *)

Definition houses (w w' : W) : Prop := housed (profiles_of w) (profiles_of w').
#[export] Instance houses_pre : PreOrder houses.
Proof. split; [by intros w ch|]. intros a b c H1 H2 ch H. by apply H2, H1. Qed.

Lemma housing_of_hoare {A} (m : M W A) : (forall start, hoare (about (fun f => forall ch, f ch = start ch)) m
  (fun _ => about (housed start)) (about (housed start))) -> moves houses m.
Proof. intros Hm w. specialize (Hm (profiles_of w) w (fun ch => eq_refl)). unfold houses. by destruct (m w) as [[a|e] w']. Qed.

Lemma housing_quiet {A} (m : M W A) : (forall P, pointwise P -> stays (about P) m) -> moves houses m.
Proof.
  intros Hm. apply housing_of_hoare. intros start.
  eapply hoare_weaken; [apply Hm, (pointwise_housed start)|by intros w Hw ch; rewrite Hw|done|done].
Qed.

Lemma housing_call {A} (c : call A) : is_bulk c = false -> moves houses (api c).
Proof. intros Hc. apply housing_quiet. intros P HP. by apply quiet_call. Qed.

Lemma housing_enable channels profiles : moves houses (bulk_each true channels profiles [] []).
Proof.
  apply housing_of_hoare. intros start. eapply hoare_weaken; [apply (enabling_run start channels)| | |].
  - intros w Hw. split_and!; [by intros ch; rewrite Hw|by intros ch _|]. intros p ch Hp. by apply elem_of_nil in Hp.
  - intros r w [H _]. by eapply adding_housed.
  - intros w H. by eapply adding_housed.
Qed.

Ltac housing_step :=
  lazymatch goal with
  | |- moves _ (bind _ _) => apply moves_bind; [apply _| |intros ?]
  | |- moves _ (attempt _) => apply moves_attempt
  | |- moves _ (try_except _ _) => apply moves_try; [apply _| |intros ?]
  | |- moves _ (for_each _ _) => apply moves_for; [apply _|intros ? _]
  | |- moves _ (api _) => apply housing_call; reflexivity
  | |- moves _ (ret _) => apply moves_ret; apply _
  | |- moves _ (raise _) => apply moves_raise; apply _
  | |- moves _ (pure _) => apply moves_pure; apply _
  | |- moves _ (let _ := _ in _) => cbv zeta
  | |- moves _ (if ?b then _ else _) => destruct b
  | |- moves _ (match ?b with _ => _ end) => destruct b
  end.
Ltac housing := repeat first [housing_step | solve [eauto 2]].

Lemma housing_recheck g live : moves houses (_recheck_newly_owned g live).
Proof. apply housing_quiet. intros P HP. by apply quiet_recheck. Qed.

Lemma housing_exclusive gid live selection universe ids excluded n :
  moves houses (apply_exclusively gid live selection universe ids excluded n).
Proof.
  unfold apply_exclusively. cbv zeta. destruct (List.filter _ universe) as [|p0 valid] eqn:Ev; [housing|].
  pose proof housing_recheck as Hr. apply moves_bind; [apply _|housing|]. clear Hr. intros [newly|e]; [|housing].
  destruct (without newly ids) as [|i rest] eqn:Ei; [housing|]. rewrite <- Ei. clear Ei.
  apply housing_of_hoare. intros start.
  eapply hoare_bind; [eapply hoare_weaken; [apply (enabling_run start (without newly ids))| |intros r w H; exact H|]|].
  - intros w Hw. split_and!; [by intros ch; rewrite Hw|by intros ch _|]. intros p ch Hp. by apply elem_of_nil in Hp.
  - intros w H. by eapply adding_housed.
  - intros [made failed]. destruct failed as [|q failed].
    2: { apply hoare_ret. intros w [H _]. by eapply adding_housed. }
    assert (Hv : p0 ∈ p0 :: valid) by left.
    eapply hoare_bind; [eapply hoare_weaken; [apply (disabling_run start (without newly ids) (p0 :: valid))| |intros r w H; exact H|]|].
    + intros p Hp Hp'. rewrite <- Ev in Hp'. apply list_elem_of_In, filter_In in Hp as [_ Hp].
      apply list_elem_of_In, filter_In in Hp' as [_ Hp']. by rewrite Hp' in Hp.
    + intros w [(Hg & Hu & He) Hm]. rewrite (Hm eq_refl) in He. split_and!; [done|done|].
      intros p ch Hp. by apply elem_of_nil in Hp.
    + intros w H. by eapply removing_housed.
    + intros [off failed]. apply hoare_ret. intros w [H _]. by eapply removing_housed.
Qed.

Lemma housing_locked settings group gid live : moves houses (_reconcile_group_locked settings group gid live).
Proof.
  pose proof housing_exclusive. pose proof housing_recheck. pose proof housing_enable.
  assert (Hf : forall g, moves houses (_fetch_group_channels g)) by (intros g; apply housing_quiet; intros P HP; by apply quiet_fetch).
  assert (Hc : forall m, moves houses (_clear_ownership_marker m)) by (intros m; apply housing_quiet; intros P HP; by apply quiet_clear).
  unfold _reconcile_group_locked, enable_selected_only. housing.
Qed.

Lemma housing_always {A} (m : M W A) after : moves houses m -> moves houses after -> moves houses (ExecutorTypes.always m after).
Proof.
  intros Hm Ha w. unfold ExecutorTypes.always. specialize (Hm w). destruct (m w) as [r w1]; cbn in *.
  specialize (Ha w1). destruct (after w1) as [u w2]; cbn in *. by etransitivity.
Qed.

Lemma housing_attempts n group revalidate live : forall settings, moves houses (attempts n settings group revalidate live).
Proof.
  pose proof (fun s => housing_locked s group). induction n as [|n IH]; intros settings; cbn [attempts]; [housing|].
  apply moves_bind; [apply _|housing|intros key]. apply moves_bind; [apply _|housing|intros u].
  apply moves_bind; [apply _| |intros r; housing]. apply housing_always; [|housing]. unfold under_lock. housing.
Qed.

Lemma housing_group settings group live revalidate : moves houses (reconcile_group_profiles settings group live revalidate).
Proof.
  pose proof housing_attempts. unfold reconcile_group_profiles. apply moves_bind; [apply _| |intros l; housing].
  destruct live; [housing|]. apply housing_quiet. intros P HP. by apply quiet_live.
Qed.

Lemma housing_locks {A} gids (m : M W A) : moves houses m -> moves houses (with_locks gids m).
Proof. intros Hm. induction gids as [|g gids IH]; cbn [with_locks]; [done|]. housing. apply housing_always; housing. Qed.

Lemma housing_sweep given revalidate : moves houses (_run_selected_group_sweep given revalidate).
Proof.
  assert (Hn : forall s l d, moves houses (normalize_accounts s l d)).
  { intros s l. induction l as [|a l IH]; intros d; cbn [normalize_accounts]; [housing|].
    housing. apply housing_locks. housing. }
  assert (Hg : forall s live l t, moves houses (sweep_groups s live revalidate l t)).
  { intros s live l. pose proof housing_group. induction l as [|g l IH]; intros t; cbn [sweep_groups]; housing. }
  assert (Hl : moves houses _resolve_live_rule_ids) by (apply housing_quiet; intros P HP; by apply quiet_live).
  unfold _run_selected_group_sweep, normalize_group_selections. housing.
Qed.
End memberships.

(** C9: whichever calls fail, wherever it is cancelled and whatever the settings say, a sweep
    leaves no channel that had a profile without one: profiles are only taken away after the
    selected ones that exist have been given. *)
Theorem no_channel_is_stranded {W} `{!Client W, !Memberships W} given revalidate busy w ch :
  profiles_of w ch <> ∅ ->
  profiles_of (world (reconcile_all_selected_groups given revalidate (Process busy w)).2) ch <> ∅.
Proof.
  unfold reconcile_all_selected_groups, bind, gets. cbn. destruct busy; [done|]. intros Hch.
  unfold ExecutorTypes.always, in_world, modify. cbn. pose proof (housing_sweep given revalidate w ch Hch) as H.
  destruct (_run_selected_group_sweep given revalidate w) as [[t|e] w']; exact H.
Qed.

(** ** A reconciled group is in exactly its profiles *)

(** The group's channels as Dispatcharr lists them, page by page, and the profiles there are;
    a channel's properties are replaced by an update, nothing else changes the list. *)
Definition relabel (id : Z) (cp : list (string * pyval)) (m : member) : member :=
  if bool_decide (m_id m = Some id) then Member (m_id m) (PDict cp) else m.

Class Listing (W : Type) `{!Client W} := {
  group_members : W -> Z -> list member;
  profile_ids : list Z;
  listed_page : forall n g w p w', request (GetGroupChannels (Z.of_nat (S n)) g) w = (Ok p, w') ->
    results p = take _CHANNEL_PAGE_SIZE (drop (_CHANNEL_PAGE_SIZE * n) (group_members w g)) /\
    next p = (_CHANNEL_PAGE_SIZE * S n <? List.length (group_members w g))%nat;
  listed_profiles : forall w l w', request GetChannelProfiles w = (Ok l, w') -> omap id l = profile_ids;
  listed_update : forall id cp w r w', request (UpdateProperties id cp) w = (r, w') -> forall g,
    group_members w' g = match r with Ok _ => map (relabel id cp) (group_members w g) | Raise _ => group_members w g end;
  listed_still : forall A (c : call A) w g,
    match c with UpdateProperties _ _ => True | _ => group_members (request c w).2 g = group_members w g end }.

Section listing.
Context {W : Type} `{!Client W, !Listing W}.
Variable live : option (gset Z).
Variable M0 : Z -> list member.

Definition listing (w : W) : Prop := forall g, group_members w g = M0 g.

Lemma listing_call {A} (c : call A) : match c with UpdateProperties _ _ => False | _ => True end -> stays listing (api c).
Proof.
  intros Hc w Hw. assert (H : listing (request c w).2).
  { intros g. rewrite <- (Hw g). pose proof (listed_still _ c w g) as Hk. by destruct c. }
  unfold api. by destruct (request c w) as [[a|e] w'].
Qed.

Lemma listing_cancel : stays listing _check_cancel.
Proof.
  unfold _check_cancel. apply stays_bind; [by apply listing_call|]. intros []; [by apply hoare_raise|by apply hoare_ret].
Qed.

Lemma fetch_pages g fuel : forall n acc, (List.length (M0 g) <= _CHANNEL_PAGE_SIZE * (n + fuel))%nat ->
  hoare listing (pages_from fuel (Z.of_nat (S n)) g acc)
    (fun l w => listing w /\ l = acc ++ drop (_CHANNEL_PAGE_SIZE * n) (M0 g)) listing.
Proof.
  induction fuel as [|fuel IH]; intros n acc Hlen; cbn [pages_from].
  { apply hoare_ret. intros w Hw. split; [done|]. rewrite drop_ge, app_nil_r by (rewrite Nat.add_0_r in Hlen; exact Hlen). done. }
  eapply hoare_bind; [apply listing_cancel|intros u].
  eapply hoare_bind with (Q := fun p w => listing w /\
    results p = take _CHANNEL_PAGE_SIZE (drop (_CHANNEL_PAGE_SIZE * n) (M0 g)) /\
    next p = (_CHANNEL_PAGE_SIZE * S n <? List.length (M0 g))%nat).
  - intros w Hw. pose proof (listing_call (GetGroupChannels (Z.of_nat (S n)) g) Logic.I w Hw) as H. unfold api in *.
    destruct (request _ w) as [[p|e] w'] eqn:E; cbn in *; [|done]. apply listed_page in E. rewrite (Hw g) in E. by destruct E.
  - intros p. apply hoare_weaken with (P := fun w => (results p = take _CHANNEL_PAGE_SIZE (drop (_CHANNEL_PAGE_SIZE * n) (M0 g)) /\
      next p = (_CHANNEL_PAGE_SIZE * S n <? List.length (M0 g))%nat) /\ listing w)
      (Q := fun l w => listing w /\ l = acc ++ drop (_CHANNEL_PAGE_SIZE * n) (M0 g)) (E := listing); [|tauto|done|done].
    apply hoare_fact. intros [Er En].
    assert (Hd : drop (_CHANNEL_PAGE_SIZE * n) (M0 g) = results p ++ drop (_CHANNEL_PAGE_SIZE * S n) (M0 g)).
    { rewrite Er. replace (_CHANNEL_PAGE_SIZE * S n)%nat with (_CHANNEL_PAGE_SIZE * n + _CHANNEL_PAGE_SIZE)%nat by lia.
      by rewrite <- drop_drop, take_drop. }
    destruct (results p) as [|r rs] eqn:Ep.
    + apply hoare_ret. intros w Hw. split; [done|]. symmetry in Er. apply take_nil_inv in Er as [Er|Er]; [done|]. by rewrite Er, app_nil_r.
    + rewrite <- Ep in *. rewrite En. destruct (_ <? _)%nat eqn:El; cbn [negb].
      * eapply hoare_post; [replace (Z.of_nat (S n) + 1) with (Z.of_nat (S (S n))) by lia; apply IH; lia|].
        intros l w [Hw ->]. split; [done|]. by rewrite Hd, app_assoc.
      * apply hoare_ret. intros w Hw. split; [done|]. rewrite Hd.
        rewrite (drop_ge _ (_ * S n)) by (apply Nat.ltb_ge in El; exact El). by rewrite app_nil_r.
Qed.

(** *** While markers are cleared *)

Definition is_owned (m : member) : bool := bool_decide (_ownership_state m live = owned).

(** The same channels, fewer of them owned. *)
Definition fewer_owned (w : W) : Prop :=
  forall g, Forall2 (fun m m' => m_id m' = m_id m /\ (is_owned m' = true -> is_owned m = true)) (M0 g) (group_members w g).

Lemma fewer_call {A} (c : call A) : match c with UpdateProperties _ _ => False | _ => True end -> stays fewer_owned (api c).
Proof.
  intros Hc w Hw. assert (H : fewer_owned (request c w).2).
  { intros g. pose proof (listed_still _ c w g) as Hk. specialize (Hw g). destruct c; by rewrite ?Hk. }
  unfold api. by destruct (request c w) as [[a|e] w'].
Qed.

Lemma unmarked_unowned id cp : is_owned (Member id (PDict (unmarked cp))) = false.
Proof. unfold is_owned, _ownership_state. cbn. by rewrite marker_unmarked. Qed.

Lemma fewer_update id cp : stays fewer_owned (api (UpdateProperties id (unmarked cp))).
Proof.
  intros w Hw. assert (H : fewer_owned (request (UpdateProperties id (unmarked cp)) w).2).
  { destruct (request _ w) as [r w'] eqn:E. intros g. cbn. rewrite (listed_update _ _ _ _ _ E). specialize (Hw g).
    destruct r as [u|e]; [|done]. apply Forall2_fmap_r. eapply Forall2_impl; [exact Hw|]. cbn. intros m m' [Hid Ho].
    unfold relabel. case_bool_decide; [|done]. split; [done|]. by rewrite unmarked_unowned. }
  unfold api. by destruct (request _ w) as [[a|e] w'].
Qed.

Lemma fewer_clear m : stays fewer_owned (_clear_ownership_marker m).
Proof.
  unfold _clear_ownership_marker. destruct (m_id m) as [id|]; [|by apply hoare_ret].
  apply stays_bind; [by apply stays_attempt, fewer_call|]. intros [[i []]|e]; try by apply hoare_ret.
  destruct (_ || _); [|by apply hoare_ret].
  apply stays_bind; [apply stays_attempt, fewer_update|]. intros r. by apply hoare_ret.
Qed.
End listing.

Section exact.
Context {W : Type} `{!Client W, !Memberships W, !Listing W}.
Variable live : option (gset Z).

Lemma elem_of_classified (l : list member) : forall id, id ∈ (classify live l).2 <-> exists m, m ∈ l /\ m_id m = Some id /\ is_owned live m = false.
Proof.
  induction l as [|m l IH]; intros id; cbn [classify]; [split; [by intros ?%elem_of_nil|by intros (m & ?%elem_of_nil & _)]|].
  destruct (classify live l) as [[n r] ids] eqn:E. cbn [snd] in IH.
  assert (Hm : (exists m', m' ∈ m :: l /\ m_id m' = Some id /\ is_owned live m' = false) <->
    (m_id m = Some id /\ is_owned live m = false) \/ id ∈ ids).
  { rewrite IH. split; [intros (m' & [->|H]%elem_of_cons & H'); [by left|right; by exists m']|].
    intros [H|(m' & H & H')]; [exists m; split; [left|done]|exists m'; split; [by right|done]]. }
  rewrite Hm. unfold is_owned. destruct (m_id m) as [id'|]; cbn; [|split; [by right|intros [[? _]|?]; done]].
  destruct (_ownership_state m live); cbn; rewrite ?elem_of_cons; split; naive_solver.
Qed.

Lemma elem_of_owned_now (l : list member) id : id ∈ omap (owned_now live) l <-> exists m, m ∈ l /\ m_id m = Some id /\ is_owned live m = true.
Proof.
  rewrite list_elem_of_omap. unfold owned_now, is_owned. split; intros (m & Hm & H); exists m; (split; [done|]);
    case_bool_decide; naive_solver.
Qed.

Lemma elem_of_without_dropped dropped ids id : id ∈ without dropped ids <-> id ∈ ids /\ id ∉ dropped.
Proof. unfold without. rewrite list_elem_of_In, filter_In, <- list_elem_of_In. case_bool_decide; naive_solver. Qed.

(** With one entry per channel, what became owned is not among what was not. *)
Lemma kept_all (l l' : list member) ids (newly : gset Z) : NoDup (omap m_id l) ->
  Forall2 (fun m m' => m_id m' = m_id m /\ (is_owned live m' = true -> is_owned live m = true)) l l' ->
  (forall id, id ∈ ids <-> exists m, m ∈ l /\ m_id m = Some id /\ is_owned live m = false) ->
  (forall id, id ∈ newly <-> exists m, m ∈ l' /\ m_id m = Some id /\ is_owned live m = true) ->
  forall id, id ∈ without newly ids <-> id ∈ ids.
Proof.
  intros Hn Hl Hi Hw id. rewrite elem_of_without_dropped, Hw, Hi. split; [naive_solver|].
  intros (m & Hm & Eid & Eo). split; [by exists m|]. intros (m1 & Hm1 & Eid1 & Eo1).
  apply list_elem_of_lookup in Hm1 as [k Hk]. destruct (Forall2_lookup_r _ _ _ _ _ Hl Hk) as (m2 & Hk2 & [E2 Ho2]).
  assert (m2 = m); [|subst; by rewrite Ho2 in Eo].
  apply list_elem_of_lookup_2 in Hk2. rewrite E2 in Eid1. clear -Hn Hk2 Hm Eid1 Eid.
  induction l as [|x l IH]; [by apply elem_of_nil in Hm|]. cbn in Hn.
  apply elem_of_cons in Hm as [->|Hm], Hk2 as [->|Hk2]; [done| | |].
  - rewrite Eid in Hn. apply NoDup_cons in Hn as [Hn _]. destruct Hn. apply list_elem_of_omap. by exists m2.
  - rewrite Eid1 in Hn. apply NoDup_cons in Hn as [Hn _]. destruct Hn. apply list_elem_of_omap. by exists m.
  - destruct (m_id x); [apply NoDup_cons in Hn as [_ Hn]|]; by apply IH.
Qed.

(** *** The locked body *)

Variables (start : Z -> gset Z) (M0 : Z -> list member) (selection : list Z).

Definition here (w : W) : Prop := forall ch, profiles_of w ch = start ch.
Lemma here_call {A} (m : M W A) : (forall P, pointwise P -> stays (about P) m) -> stays here m.
Proof. intros Hm. apply (Hm (fun f => forall ch, f ch = start ch)). intros f g Hfg Hf ch. by rewrite <- Hfg. Qed.

Definition exact_on (ids : list Z) (w : W) : Prop :=
  (forall ch p, ch ∈ ids -> p ∈ profile_ids -> p ∈ profiles_of w ch <-> p ∈ selection) /\
  forall ch, ch ∉ ids -> profiles_of w ch = start ch.

Definition anywhere (_ : W) : Prop := True.
Definition reports (ids : list Z) (o : outcome) (w : W) : Prop := o_status o = reconciled -> exact_on ids w.

Lemma other_status ids P o : o_status o <> reconciled -> hoare P (ret o) (reports ids) anywhere.
Proof. intros H. apply hoare_ret. by intros w _ E. Qed.

Lemma exact_writes ids ids' gid excluded n :
  (forall id, id ∈ ids' <-> id ∈ ids) ->
  let chosen p := bool_decide (p ∈ selection) in
  hoare here
    (do! r := bulk_each true ids' (List.filter chosen profile_ids) [] [] in let '(enabled_ok, failed_enable) := r in
     match failed_enable with
     | _ :: _ => ret (outcome_of gid excluded n partial_failure (List.length ids') (List.length enabled_ok) 0 failed_enable None)
     | [] =>
         do! r := bulk_each false ids' (List.filter (fun p => negb (chosen p)) profile_ids) [] [] in let '(disabled_ok, failed_disable) := r in
         ret (outcome_of gid excluded n (match failed_disable with [] => reconciled | _ => partial_failure end)
                (List.length ids') (List.length enabled_ok) (List.length disabled_ok) failed_disable None)
     end) (reports ids) anywhere.
Proof.
  intros Hids chosen. set (valid := List.filter chosen profile_ids). set (rest := List.filter _ profile_ids).
  assert (Hv : forall p, p ∈ valid <-> p ∈ profile_ids /\ p ∈ selection).
  { intros p. unfold valid, chosen. rewrite list_elem_of_In, filter_In, <- list_elem_of_In. case_bool_decide; naive_solver. }
  assert (Hr : forall p, p ∈ rest <-> p ∈ profile_ids /\ p ∉ selection).
  { intros p. unfold rest, chosen. rewrite list_elem_of_In, filter_In, <- list_elem_of_In. case_bool_decide; naive_solver. }
  eapply hoare_bind; [eapply hoare_weaken; [apply (enabling_run start ids' valid)| |intros r w H; exact H|done]|].
  { intros w Hw. split_and!; [by intros ch; rewrite Hw|by intros ch _|]. intros p ch Hp. by apply elem_of_nil in Hp. }
  intros [made failed]. destruct failed as [|q failed]; [|by apply other_status].
  eapply hoare_bind; [eapply hoare_weaken; [apply (disabling_run start ids' valid rest)| |intros r w H; exact H|done]|].
  { intros p Hp Hp'. apply Hr in Hp as [_ Hp]. by apply Hv in Hp' as [_ Hp']. }
  { intros w [(Hg & Hu & He) Hm]. rewrite (Hm eq_refl) in He. split_and!; [done|done|]. intros p ch Hp. by apply elem_of_nil in Hp. }
  intros [off [|q failed]]; [|by apply other_status]. apply hoare_ret. intros w [(He & Hu & Hn) Ho] _. rewrite (Ho eq_refl) in Hn.
  split; [|intros ch Hch; apply Hu; by rewrite Hids]. intros ch p Hch Hp. apply Hids in Hch.
  destruct (decide (p ∈ selection)) as [Hs|Hs]; (split; [|try done]).
  - done.
  - intros _. apply He; [by apply Hv|done].
  - intros Hin. exfalso. apply (Hn p ch); [by apply Hr|done|done].
Qed.

Lemma goes_anywhere {A} (m : M W A) : hoare anywhere m (fun _ => anywhere) anywhere.
Proof. intros v _. by destruct (m v).1. Qed.

Lemma never_reconciled gid lives selected ids excluded n :
  hoare anywhere (enable_selected_only gid lives selected ids excluded n) (fun o _ => o_status o <> reconciled) anywhere.
Proof.
  unfold enable_selected_only. eapply hoare_bind; [apply goes_anywhere|].
  intros [newly|e]; [|by apply hoare_ret]. cbv zeta. destruct (without newly ids) as [|i rest]; [by apply hoare_ret|].
  eapply hoare_bind; [apply goes_anywhere|]. intros [made failed]. by apply hoare_ret.
Qed.

Definition settled (w : W) : Prop := here w /\ fewer_owned live M0 w.
Definition complete (gid : Z) : Prop :=
  (List.length (M0 gid) <= _CHANNEL_PAGE_SIZE * _MAX_CHANNEL_PAGES)%nat /\ NoDup (omap m_id (M0 gid)).

Lemma fetched gid M : (List.length (M gid) <= _CHANNEL_PAGE_SIZE * _MAX_CHANNEL_PAGES)%nat ->
  hoare (listing M) (_fetch_group_channels gid) (fun l w => listing M w /\ l = M gid) (listing M).
Proof. intros Hlen. eapply hoare_post; [apply (fetch_pages M gid _MAX_CHANNEL_PAGES 0 []); exact Hlen|]. by intros l w [Hw ->]. Qed.

Lemma rechecked gid : complete gid -> hoare settled (_recheck_newly_owned gid live)
  (fun newly w => here w /\ exists l', Forall2 (fun m m' => m_id m' = m_id m /\ (is_owned live m' = true -> is_owned live m = true)) (M0 gid) l' /\
     forall id, id ∈ newly <-> exists m, m ∈ l' /\ m_id m = Some id /\ is_owned live m = true) anywhere.
Proof.
  intros [Hlen _] w [Hw Hf]. assert (Hlen' : (List.length (group_members w gid) <= _CHANNEL_PAGE_SIZE * _MAX_CHANNEL_PAGES)%nat).
  { pose proof (Forall2_length _ _ _ (Hf gid)) as E. by rewrite <- E. }
  enough (H : hoare (fun w' => here w' /\ listing (group_members w) w') (_recheck_newly_owned gid live)
    (fun newly w' => here w' /\ newly = list_to_set (omap (owned_now live) (group_members w gid))) anywhere).
  { specialize (H w (conj Hw (fun g => eq_refl))). destruct (_recheck_newly_owned gid live w) as [[newly|e] w1]; [|done].
    cbn in *. destruct H as [Hh ->]. split; [done|]. exists (group_members w gid). split; [apply Hf|].
    intros id. by rewrite elem_of_list_to_set, elem_of_owned_now. }
  unfold _recheck_newly_owned. eapply hoare_bind; [eapply hoare_weaken; [apply (hoare_both _ _ _ _ _ _ _
    (here_call _ (fun P HP => quiet_fetch P HP gid)) (fetched gid (group_members w) Hlen'))|done|intros a s H; exact H|done]|].
  intros l. apply hoare_ret. by intros w' [Hh [_ ->]].
Qed.

Lemma exact_apply gid ids excluded n : complete gid ->
  (forall id, id ∈ ids <-> exists m, m ∈ M0 gid /\ m_id m = Some id /\ is_owned live m = false) ->
  hoare settled (apply_exclusively gid live selection profile_ids ids excluded n) (reports ids) anywhere.
Proof.
  intros Hc Hids. unfold apply_exclusively. cbv zeta.
  destruct (List.filter _ profile_ids) as [|p0 valid] eqn:Ev; [by apply other_status|]. rewrite <- Ev. clear Ev.
  eapply hoare_bind; [exact (hoare_attempt settled _ _ anywhere anywhere (rechecked gid Hc))|].
  intros [newly|e]; [|by apply other_status].
  intros w [Hw (l' & Hl & Hn)]. assert (Hk : forall id, id ∈ without newly ids <-> id ∈ ids) by (eapply kept_all; [apply Hc|done..]).
  destruct (without newly ids) as [|i rest] eqn:Ei; [done|]. rewrite <- Ei in *.
  by apply (exact_writes ids (without newly ids) gid (excluded + within newly ids)%nat n Hk w).
Qed.
End exact.

(** C13: when a group is reported as reconciled, every channel of the group that the pipeline
    does not own is in exactly the selected of the profiles there are, and every other channel
    is where it was; for groups of up to the cap of a thousand pages, whatever other calls
    fail. *)
Theorem reconciled_group_is_exact {W} `{!Client W, !Memberships W, !Listing W} settings group gid live selection w o w' :
  _selection_from_setting (settings !! group) = Some selection ->
  (List.length (group_members w gid) <= _CHANNEL_PAGE_SIZE * _MAX_CHANNEL_PAGES)%nat ->
  NoDup (omap m_id (group_members w gid)) ->
  _reconcile_group_locked settings group gid live w = (Ok o, w') -> o_status o = reconciled ->
  let ours ch := exists m, m ∈ group_members w gid /\ m_id m = Some ch /\ _ownership_state m live <> owned in
  (forall ch p, ours ch -> p ∈ profile_ids -> p ∈ profiles_of w' ch <-> p ∈ selection) /\
  forall ch, ~ ours ch -> profiles_of w' ch = profiles_of w ch.
Proof.
  intros Hsel Hlen Hn E Hok ours. set (M0 := group_members w). set (start := profiles_of w).
  assert (Hc : complete M0 gid) by (by split).
  set (ids := (classify live (M0 gid)).2).
  assert (Hids : forall ch, ch ∈ ids <-> ours ch).
  { intros ch. unfold ids, ours. rewrite elem_of_classified. unfold is_owned.
    split; intros (m & H1 & H2 & H3); exists m; (split_and!; [done|done|]); by apply bool_decide_eq_false in H3 || apply bool_decide_eq_false. }
  enough (H : hoare (fun v => here start v /\ listing M0 v) (_reconcile_group_locked settings group gid live)
    (reports start selection ids) anywhere).
  { specialize (H w (conj (fun ch => eq_refl) (fun g => eq_refl))). rewrite E in H. destruct (H Hok) as [H1 H2].
    split; [intros ch p Hch; apply H1; by apply Hids|intros ch Hch; apply H2; by rewrite Hids]. }
  unfold _reconcile_group_locked. cbv zeta. destruct (in_conflict _); [by apply other_status|]. rewrite Hsel.
  eapply hoare_bind; [eapply hoare_weaken; [apply (hoare_both _ _ _ _ _ _ _
    (here_call start _ (fun P HP => quiet_fetch P HP gid)) (fetched gid M0 Hlen))|done|intros a s H; exact H|done]|].
  intros l. destruct (classify live l) as [[n rel] ids'] eqn:El.
  eapply hoare_bind with (Q := fun _ v => ids' = ids /\ settled live start M0 v).
  { intros v [Hh [Hl ->]]. unfold ids. rewrite El. cbn.
    assert (Hs : hoare (settled live start M0) (for_each rel _clear_ownership_marker) (fun _ => settled live start M0) (settled live start M0)).
    { apply hoare_for_each. intros m _. apply hoare_both; [by apply here_call; intros P HP; apply quiet_clear|apply fewer_clear]. }
    assert (H0 : settled live start M0 v).
    { split; [done|]. intros g. rewrite (Hl g). apply Forall_Forall2_diag, Forall_true. by intros m. }
    specialize (Hs v H0). destruct (for_each rel _clear_ownership_marker v) as [[u|e] v']; [by split|exact Logic.I]. }
  intros u. apply hoare_fact. intros ->. destruct ids as [|i rest] eqn:Ei; [by apply other_status|]. rewrite <- Ei in *. clear Ei i rest.
  eapply hoare_bind with (Q := fun r v => match r with Ok profiles => omap id profiles = profile_ids | Raise _ => True end /\ settled live start M0 v).
  { intros v Hv. assert (Hs : stays (settled live start M0) (api GetChannelProfiles)).
    { apply hoare_both; [apply here_call; intros P HP; by apply quiet_call|by apply fewer_call]. }
    specialize (Hs v Hv). unfold attempt, api in *. destruct (request GetChannelProfiles v) as [[profiles|e] v'] eqn:Ep; cbn in *;
      (split; [|done]); [by eapply listed_profiles|done]. }
  intros [profiles|e]; [apply hoare_fact; intros ->; by apply exact_apply; [|intros ch; apply elem_of_classified]|].
  eapply hoare_weaken; [apply (never_reconciled gid live selection ids)|done|intros o' v Ho Hr; by destruct Ho|done].
Qed.
End ReconcileTheorems.
