(* ===== verification/ReconcileOwners.v ===== *)
(** * Reconciliation and the pipeline.

    The pipeline claims a channel by its marker, under the lock of the channel's group.  As
    long as it does, no reconciliation moves a channel the pipeline has claimed, nor takes its
    claim away. *)
From S2P Require Import Prelude PyFloat PyValue PyText PyDict PyState ExecutorTypes ExecutorAssign ProfileReconcile.
From S2P Require Import ProfileSweep HoareLogic ReconcileTheorems.
From stdpp Require Import list gmap strings.
Open Scope Z_scope.
Open Scope py_scope.

Module ReconcileOwners.
Import ProfileReconcile ProfileSweep HoareLogic ReconcileTheorems.

(** The channels the pipeline has claimed for rules that are live, and the lock this task
    holds.  While it holds the lock of a channel's group nobody claims the channel; a listing
    shows the claims there are. *)
Class Claims (W : Type) `{!Client W} (live : option (gset Z)) := {
  claimed : W -> gset Z;
  held : W -> option Z;
  lives_in : Z -> Z;
  lock_taken : forall g w w', request (AcquireLock g) w = (Ok tt, w') -> held w' = Some g;
  lock_kept : forall A (c : call A) w,
    match c with AcquireLock _ | ReleaseLock _ => True | _ => held (request c w).2 = held w end;
  claims_wait : forall A (c : call A) w ch, held w = Some (lives_in ch) -> ch ∉ claimed w ->
    match c with
    | AcquireLock _ | ReleaseLock _ => True
    | UpdateProperties _ cp => marker cp = false -> ch ∉ claimed (request c w).2
    | _ => ch ∉ claimed (request c w).2
    end;
  claims_shown : forall n g w p w' m ch, request (GetGroupChannels n g) w = (Ok p, w') -> m ∈ results p -> m_id m = Some ch ->
    lives_in ch = g /\ (_ownership_state m live <> owned -> ch ∉ claimed w') }.

Section owners.
Context {W : Type} `{!Client W} (live : option (gset Z)) `{!Claims W live}.

(** A write to a claimed channel is not permitted. *)
Definition permitted {A} (c : call A) (w : W) : Prop :=
  match c with
  | BulkUpdateProfile _ channels _ => forall ch, ch ∈ channels -> ch ∉ claimed w
  | UpdateProperties id _ => id ∉ claimed w
  | _ => True
  end.

Variable RW : W -> W -> Prop.
Context `{!PreOrder RW}.
Hypothesis calls_permitted : forall A (c : call A) w, permitted c w -> RW w (request c w).2.
Variable w0 : W.

Definition reached (w : W) : Prop := RW w0 w.

(** Under the lock of [g]: the channels of [F] are the group's, and none is claimed. *)
Definition secured (g : Z) (F : list Z) (w : W) : Prop :=
  held w = Some g /\ (forall ch, ch ∈ F -> lives_in ch = g /\ ch ∉ claimed w) /\ reached w.

Lemma secured_reached g F w : secured g F w -> reached w.
Proof. by intros (_ & _ & H). Qed.
Lemma secured_subset g F F' w : (forall ch, ch ∈ F' -> ch ∈ F) -> secured g F w -> secured g F' w.
Proof. intros Hs (H1 & H2 & H3). split_and!; [done| |done]. intros ch Hch. by apply H2, Hs. Qed.

(** Calls that neither take locks nor claim. *)
Definition calm {A} (c : call A) : bool :=
  match c with AcquireLock _ | ReleaseLock _ => false | UpdateProperties _ cp => negb (marker cp) | _ => true end.

Lemma secured_request {A} (c : call A) g F w : calm c = true -> permitted c w -> secured g F w -> secured g F (request c w).2.
Proof.
  intros Hc Hp (H1 & H2 & H3). split_and!.
  - rewrite <- H1. pose proof (lock_kept _ c w) as H. by destruct c.
  - intros ch Hch. destruct (H2 ch Hch) as [<- Hn]. split; [done|].
    pose proof (claims_wait _ c w ch H1 Hn) as H. destruct c; try done. by apply H, negb_true_iff.
  - unfold reached. etransitivity; [exact H3|by apply calls_permitted].
Qed.

Lemma secured_call {A} (c : call A) g F : calm c = true -> (forall w, secured g F w -> permitted c w) -> stays (secured g F) (api c).
Proof.
  intros Hc Hp w Hw. pose proof (secured_request c g F w Hc (Hp w Hw) Hw) as H. unfold api. by destruct (request c w) as [[a|e] w'].
Qed.

Ltac secured_step :=
  lazymatch goal with
  | |- stays _ (bind _ _) => apply stays_bind; [|intros ?]
  | |- stays _ (attempt _) => apply stays_attempt
  | |- stays _ (api _) => apply secured_call; [reflexivity|done]
  | |- stays _ (ret _) => by apply hoare_ret
  | |- stays _ (raise _) => by apply hoare_raise
  | |- stays _ (pure _) => apply hoare_pure; intros ? ?; by case_match
  | |- stays _ (let _ := _ in _) => cbv zeta
  | |- stays _ (if ?b then _ else _) => destruct b
  | |- stays _ (match ?b with _ => _ end) => destruct b
  end.
Ltac secured := repeat first [secured_step | solve [eauto 3]].

Lemma secured_cancel g F : stays (secured g F) _check_cancel.
Proof. unfold _check_cancel. secured. Qed.

(** *** What a listing secures *)

Definition free (l : list member) : list Z :=
  omap (fun m => if bool_decide (_ownership_state m live = owned) then None else m_id m) l.

Lemma elem_of_free l ch : ch ∈ free l <-> exists m, m ∈ l /\ m_id m = Some ch /\ _ownership_state m live <> owned.
Proof.
  unfold free. rewrite list_elem_of_omap. split; intros (m & Hm & H); exists m; (split; [done|]); case_bool_decide; naive_solver.
Qed.

Lemma secured_pages g F fuel : forall n acc,
  hoare (secured g (F ++ free acc)) (pages_from fuel n g acc) (fun l => secured g (F ++ free l)) (secured g F).
Proof.
  assert (Hsub : forall acc w, secured g (F ++ free acc) w -> secured g F w).
  { intros acc w. apply secured_subset. intros ch Hch. apply elem_of_app. by left. }
  induction fuel as [|fuel IH]; intros n acc; cbn [pages_from]; [by apply hoare_ret|].
  eapply hoare_bind; [eapply hoare_weaken; [apply secured_cancel|done|intros ? ? H; exact H|apply Hsub]|intros u].
  eapply hoare_bind with (Q := fun p => secured g (F ++ free (acc ++ results p))).
  - intros w Hw. pose proof (secured_request (GetGroupChannels n g) g _ w eq_refl Logic.I Hw) as H. unfold api.
    destruct (request _ w) as [[p|e] w'] eqn:E; cbn in *; [|by eapply Hsub].
    destruct H as (H1 & H2 & H3). split_and!; [done| |done]. intros ch Hch.
    unfold free in Hch. rewrite omap_app, app_assoc, elem_of_app in Hch. destruct Hch as [Hch|Hch]; [by apply H2|].
    apply elem_of_free in Hch as (m & Hm & Eid & Ho). destruct (claims_shown _ _ _ _ _ _ _ E Hm Eid) as [Hg Hc]. split; [done|by apply Hc].
  - intros p. destruct (match results p with [] => true | _ :: _ => _ end); [by apply hoare_ret|apply IH].
Qed.

Lemma secured_fetch g F : hoare (secured g F) (_fetch_group_channels g) (fun l => secured g (F ++ free l)) (secured g F).
Proof.
  eapply hoare_weaken; [apply (secured_pages g F _MAX_CHANNEL_PAGES 1 [])|intros w; by rewrite app_nil_r|done|done].
Qed.

Lemma secured_refetch g F : stays (secured g F) (_fetch_group_channels g).
Proof.
  eapply hoare_post; [apply secured_fetch|]. intros l w. apply secured_subset. intros ch Hch. apply elem_of_app. by left.
Qed.

Lemma secured_recheck g F : stays (secured g F) (_recheck_newly_owned g live).
Proof. pose proof secured_refetch. unfold _recheck_newly_owned. secured. Qed.

(** *** Writes *)

Lemma secured_clear g F m : (forall ch, m_id m = Some ch -> ch ∈ F) -> stays (secured g F) (_clear_ownership_marker m).
Proof.
  intros Hm. unfold _clear_ownership_marker. destruct (m_id m) as [id|] eqn:E; [|by apply hoare_ret].
  apply stays_bind; [secured|]. intros [[i []]|e]; try by apply hoare_ret.
  destruct (_ || _); [|by apply hoare_ret]. apply stays_bind; [|intros r; by apply hoare_ret].
  apply stays_attempt, secured_call; [cbn; by rewrite marker_unmarked|]. intros w (_ & H & _). by apply H, Hm.
Qed.

Lemma secured_bulk g F b ids profiles : (forall ch, ch ∈ ids -> ch ∈ F) -> forall made failed,
  stays (secured g F) (bulk_each b ids profiles made failed).
Proof.
  intros Hi. induction profiles as [|p profiles IH]; intros made failed; cbn [bulk_each]; [by apply hoare_ret|].
  apply stays_bind; [apply secured_cancel|intros u]. apply stays_bind; [|intros [[]|e]; apply IH].
  apply stays_attempt, secured_call; [done|]. intros w (_ & H & _) ch Hch. by apply H, Hi.
Qed.

Lemma without_in dropped ids ch : ch ∈ without dropped ids -> ch ∈ ids.
Proof. unfold without. rewrite !list_elem_of_In, filter_In. by intros [H _]. Qed.

Lemma secured_enable_only g F selection ids excluded n : (forall ch, ch ∈ ids -> ch ∈ F) ->
  stays (secured g F) (enable_selected_only g live selection ids excluded n).
Proof.
  intros Hi. unfold enable_selected_only. apply stays_bind; [apply stays_attempt, secured_recheck|].
  intros [newly|e]; [|by apply hoare_ret]. cbv zeta. destruct (without newly ids) as [|i rest] eqn:Ei; [by apply hoare_ret|].
  apply stays_bind; [|intros [made failed]; by apply hoare_ret]. apply secured_bulk.
  intros ch Hch. rewrite <- Ei in Hch. by eapply Hi, without_in.
Qed.

Lemma secured_exclusive g F selection universe ids excluded n : (forall ch, ch ∈ ids -> ch ∈ F) ->
  stays (secured g F) (apply_exclusively g live selection universe ids excluded n).
Proof.
  intros Hi. unfold apply_exclusively. cbv zeta. destruct (List.filter _ universe) as [|p0 valid]; [by apply hoare_ret|].
  apply stays_bind; [apply stays_attempt, secured_recheck|]. intros [newly|e]; [|by apply hoare_ret].
  destruct (without newly ids) as [|i rest] eqn:Ei; [by apply hoare_ret|].
  assert (Hk : forall ch, ch ∈ i :: rest -> ch ∈ F) by (intros ch Hch; rewrite <- Ei in Hch; by eapply Hi, without_in).
  apply stays_bind; [by apply secured_bulk|]. intros [made [|q failed]]; [|by apply hoare_ret].
  apply stays_bind; [by apply secured_bulk|]. intros [off failed]. by apply hoare_ret.
Qed.

Lemma released_members l m : m ∈ (classify live l).1.2 -> m ∈ l /\ _ownership_state m live = released.
Proof.
  induction l as [|m' l IH]; cbn [classify]; [by intros ?%elem_of_nil|].
  destruct (classify live l) as [[n r] ids]. cbn [fst snd] in IH.
  destruct (m_id m') as [id|]; [destruct (_ownership_state m' live) eqn:Eo|]; cbn [fst snd]; intros Hm;
    try (apply IH in Hm as [Hm ?]; split; [by right|done]).
  apply elem_of_cons in Hm as [->|Hm]; [split; [left|done]|apply IH in Hm as [Hm ?]; split; [by right|done]].
Qed.

Lemma secured_locked settings group g : stays (secured g []) (_reconcile_group_locked settings group g live).
Proof.
  unfold _reconcile_group_locked. cbv zeta. destruct (in_conflict _); [by apply hoare_ret|].
  destruct (_selection_from_setting _) as [selection|]; [|by apply hoare_ret].
  eapply hoare_bind; [apply secured_fetch|]. intros l. cbn [app].
  pose proof (elem_of_classified live l) as Hids. pose proof (released_members l) as Hrel.
  destruct (classify live l) as [[n rel] ids] eqn:E. cbn [fst snd] in *.
  assert (Hi : forall ch, ch ∈ ids -> ch ∈ free l).
  { intros ch Hch. apply elem_of_free. apply Hids in Hch as (m & Hm & Eid & Ho). exists m. split_and!; [done|done|].
    by apply bool_decide_eq_false in Ho. }
  eapply hoare_weaken with (P := secured g (free l)) (Q := fun _ => secured g (free l)) (E := secured g (free l)); [|done| |].
  2, 3: intros; eapply secured_subset; [|done]; by intros ch ?%elem_of_nil.
  apply stays_bind.
  { apply hoare_for_each. intros m Hm. apply secured_clear. intros ch Eid. apply elem_of_free.
    destruct (Hrel m Hm) as [Hl Eo]. exists m. split_and!; [done|done|by rewrite Eo]. }
  intros u. destruct ids as [|i rest] eqn:Ei; [by apply hoare_ret|]. rewrite <- Ei in *. clear Ei i rest.
  apply stays_bind; [secured|]. intros [profiles|e]; [by apply secured_exclusive|by apply secured_enable_only].
Qed.

(** *** The lock *)

Lemma secured_under_lock settings group key revalidate : stays (secured key []) (under_lock settings group key revalidate live).
Proof.
  pose proof (fun s => secured_locked s group key) as Hl. unfold under_lock. apply stays_bind; [secured|].
  intros [fresh|e]; [|by apply hoare_ret]. apply stays_bind; [secured|]. intros gid.
  destruct (gid =? key) eqn:E; [|by apply hoare_ret]. apply Z.eqb_eq in E as ->.
  eapply hoare_try.
  - apply stays_bind; [secured|]. intros u. apply stays_bind; [apply Hl|]. intros o. by apply hoare_ret.
  - intros e. cbn. destruct (is_cancelled e); [by apply hoare_ret|by apply hoare_raise].
Qed.

Lemma reached_call {A} (c : call A) : (forall w, permitted c w) -> stays reached (api c).
Proof.
  intros Hc w Hw. assert (H : reached (request c w).2) by (unfold reached; etransitivity; [exact Hw|by apply calls_permitted]).
  unfold api. by destruct (request c w) as [[a|e] w'].
Qed.

Lemma reached_attempts n group revalidate : forall settings, stays reached (attempts n settings group revalidate live).
Proof.
  induction n as [|n IH]; intros settings; cbn [attempts].
  - apply stays_bind; [apply hoare_pure; intros w Hw; by case_match|]. intros key. by apply hoare_ret.
  - apply stays_bind; [apply hoare_pure; intros w Hw; by case_match|]. intros key.
    eapply hoare_bind with (Q := fun _ => secured key []).
    { intros w Hw. pose proof (reached_call (AcquireLock key) (fun _ => Logic.I) w Hw) as H. unfold api in *.
      destruct (request (AcquireLock key) w) as [[[]|e] w'] eqn:E; cbn in *; [|done].
      split_and!; [by eapply lock_taken|by intros ch ?%elem_of_nil|done]. }
    intros u. eapply hoare_bind; [eapply hoare_always; [apply secured_under_lock| |]|].
    + intros a. eapply hoare_weaken; [by apply (reached_call (ReleaseLock key))|apply secured_reached|by intros ? ? H; exact H|done].
    + eapply hoare_weaken; [by apply (reached_call (ReleaseLock key))|apply secured_reached|done|done].
    + intros [next|o]; [apply IH|by apply hoare_ret].
Qed.
End owners.

(** C11: whichever calls fail and whatever changes meanwhile, a group's reconciliation makes no
    bulk write with a channel that is claimed at that moment for a rule it was told is live,
    and rewrites no such channel's properties; provided the pipeline claims channels under
    their group's lock.  Which rules are live is what the sweep read before it came to the
    group ([live]): a channel claimed for a rule that was enabled after that is not protected,
    and is not protected by the code either ([ReconcileDemo.stale_live_rules]). *)
Theorem pipeline_channels_left_alone {W} `{!Client W} (live : option (gset Z)) `{!Claims W live} (RW : W -> W -> Prop) `{!PreOrder RW}
    settings group revalidate w :
  (forall A (c : call A) w, permitted live c w -> RW w (request c w).2) ->
  RW w (reconcile_group_profiles settings group (Some live) revalidate w).2.
Proof.
  intros Hp. pose proof (reached_attempts live RW Hp w _LOCK_REACQUIRE_MAX group revalidate settings w) as H.
  assert (H0 : reached RW w w) by (unfold reached; reflexivity). specialize (H H0).
  unfold reconcile_group_profiles, bind, ret.
  by destruct (attempts _LOCK_REACQUIRE_MAX settings group revalidate live w) as [[o|e] w'].
Qed.
End ReconcileOwners.
