(* ===== verification/SweepTheorems.v ===== *)
(** * Rows converge, groups have one winner.

    A row the convergence wrote needs no second write, and says what the winning selection
    says; of the groups whose channels live in one place one is reconciled, the same whoever
    asks. *)
From S2P Require Import Prelude PyFloat PyValue PyText PyDict PyState ExecutorTypes ExecutorAssign ProfileReconcile.
From S2P Require Import ProfileSweep HoareLogic ReconcileTheorems.
From stdpp Require Import list gmap strings sorting.
Open Scope Z_scope.
Open Scope py_scope.

Module SweepTheorems.
Import ProfileReconcile ProfileSweep ReconcileTheorems.

(** ** Sorted sets *)

Lemma elem_of_sorted_set l x : x ∈ sorted_set l <-> x ∈ l.
Proof. unfold sorted_set. by rewrite merge_sort_Permutation, elem_of_elements, elem_of_list_to_set. Qed.

Lemma sorted_set_ext l l' : (forall x, x ∈ l <-> x ∈ l') -> sorted_set l = sorted_set l'.
Proof.
  intros H. unfold sorted_set. assert (E : (list_to_set l : gset Z) = list_to_set l') by (apply leibniz_equiv; set_solver).
  by rewrite E.
Qed.

Lemma sorted_set_twice l : sorted_set (sorted_set l) = sorted_set l.
Proof. apply sorted_set_ext. intros x. apply elem_of_sorted_set. Qed.

Lemma sorted_set_sorted l : StronglySorted Z.le (sorted_set l).
Proof. unfold sorted_set. apply (StronglySorted_merge_sort Z.le). Qed.

Lemma sorted_set_nil l : sorted_set l = [] -> l = [].
Proof.
  intros E. destruct l as [|x l]; [done|]. assert (H : x ∈ sorted_set (x :: l)) by (apply elem_of_sorted_set; left).
  rewrite E in H. by apply elem_of_nil in H.
Qed.

(** ** Rows *)

Lemma coerced_ints l : omap coerce_profile_id (map PInt l) = l.
Proof. induction l as [|z l IH]; cbn; [done|]. by rewrite IH. Qed.

Lemma is_ints_ints l : is_ints (map PInt l) l = true.
Proof. induction l as [|z l IH]; cbn; [done|]. by rewrite Z.eqb_refl. Qed.

Lemma rewritten_properties cp desired r :
  dict_get (rewritten cp desired r) "custom_properties" =
  Some (PDict (d_del "_ecm_channel_profile_conflict" (d_set "channel_profile_ids" (ints desired) cp))).
Proof. unfold rewritten. by rewrite dict_get_d_get, d_get_set_same. Qed.

Lemma rewritten_field cp desired r k : k <> "custom_properties" -> dict_get (rewritten cp desired r) k = dict_get r k.
Proof. intros Hk. unfold rewritten. rewrite !dict_get_d_get, d_get_set. by rewrite bool_decide_eq_false_2. Qed.

Lemma rewritten_ids cp desired :
  dict_get (d_del "_ecm_channel_profile_conflict" (d_set "channel_profile_ids" (ints desired) cp)) "channel_profile_ids" = Some (ints desired).
Proof. rewrite dict_get_d_get, d_get_del, bool_decide_eq_false_2 by done. by rewrite d_get_set_same. Qed.

Lemma rewritten_selection cp desired r : desired <> [] ->
  _selection_from_setting (Some (PDict (rewritten cp desired r))) = Some desired.
Proof.
  intros Hd. unfold _selection_from_setting. cbn [mbind option_bind field]. rewrite rewritten_properties.
  cbn [mbind option_bind field]. rewrite rewritten_ids. unfold ints. rewrite coerced_ints. destruct desired; [by destruct Hd|done].
Qed.

Lemma winning_selection settings g desired : winning settings !! g = Some desired ->
  exists setting l, settings !! g = Some setting /\ in_conflict (Some setting) = false /\
    _selection_from_setting (Some setting) = Some l /\ desired = sorted_set l /\ desired <> [].
Proof.
  unfold winning, group_settings in *. rewrite lookup_omap. destruct (settings !! g) as [setting|]; cbn [mbind option_bind]; [|done].
  destruct (in_conflict (Some setting)) eqn:Ec; [done|].
  destruct (_selection_from_setting (Some setting)) as [l|] eqn:Es; [|done]. intros [= <-].
  exists setting, l. split_and!; try done. intros E%sorted_set_nil. subst l.
  unfold _selection_from_setting in Es. repeat case_match; congruence.
Qed.

Lemma written_settled settings g desired cp r : winning settings !! g = Some desired -> group_of_row r = Some g ->
  row_to_write (winning settings) (rewritten cp desired r) = Ok None.
Proof.
  intros Hw Hg. destruct (winning_selection _ _ _ Hw) as (setting & l & _ & _ & _ & Ed & Hd).
  assert (Eg : group_of_row (rewritten cp desired r) = Some g) by (unfold group_of_row; by rewrite rewritten_field).
  unfold row_to_write. rewrite Eg. cbn [mbind option_bind]. rewrite Hw. cbn [mbind option_bind]. unfold properties_of. rewrite rewritten_properties. cbn [rbind].
  rewrite rewritten_selection by done. cbn [default]. unfold id. rewrite Ed, sorted_set_twice, bool_decide_eq_true_2 by done.
  rewrite rewritten_ids. cbn. by rewrite is_ints_ints.
Qed.

Lemma written_from win rows out g row' : rows_to_write win rows = Ok out -> (g, row') ∈ out ->
  exists r cp desired, r ∈ rows /\ group_of_row r = Some g /\ win !! g = Some desired /\ properties_of r = Ok cp /\ row' = rewritten cp desired r.
Proof.
  revert out. induction rows as [|r rows IH]; intros out; cbn [rows_to_write]; [intros [= <-] ?%elem_of_nil; done|].
  unfold row_to_write. destruct (group_of_row r) as [g'|] eqn:Eg; cbn [mbind option_bind].
  - destruct (win !! g') as [desired|] eqn:Ew; cbn [mbind option_bind].
    + destruct (properties_of r) as [cp|e] eqn:Ep; cbn [rbind]; [|done]. cbv zeta.
      destruct (_ && _); cbn [rbind]; (destruct (rows_to_write win rows) as [rest|e] eqn:Er; cbn [rbind]; [|done]); intros [= <-].
      * intros H. destruct (IH rest eq_refl H) as (r' & cp' & d' & Hr & H'). exists r', cp', d'. split; [by right|done].
      * intros [[= -> ->]|H]%elem_of_cons; [exists r, cp, desired; split_and!; [left|done..]|].
        destruct (IH rest eq_refl H) as (r' & cp' & d' & Hr & H'). exists r', cp', d'. split; [by right|done].
    + destruct (rows_to_write win rows) as [rest|e] eqn:Er; cbn [rbind]; [|done]. intros [= <-] H.
      destruct (IH rest eq_refl H) as (r' & cp' & d' & Hr & H'). exists r', cp', d'. split; [by right|done].
  - destruct (rows_to_write win rows) as [rest|e] eqn:Er; cbn [rbind]; [|done]. intros [= <-] H.
    destruct (IH rest eq_refl H) as (r' & cp' & d' & Hr & H'). exists r', cp', d'. split; [by right|done].
Qed.

(** C29: a row that convergence writes for an account selects the group's winning profiles,
    keeps every other field and property, and is not written again: a second pass finds
    nothing to do in it. *)
Theorem written_rows_converge settings rows out g row' :
  rows_to_write (winning settings) rows = Ok out -> (g, row') ∈ out ->
  row_to_write (winning settings) row' = Ok None /\
  exists r cp cp', r ∈ rows /\ properties_of r = Ok cp /\ properties_of row' = Ok cp' /\
    _selection_from_setting (Some (PDict row')) = winning settings !! g /\
    (forall k, k <> "custom_properties" -> dict_get row' k = dict_get r k) /\
    forall k, k <> "channel_profile_ids" -> k <> "_ecm_channel_profile_conflict" -> dict_get cp' k = dict_get cp k.
Proof.
  intros E Hin. destruct (written_from _ _ _ _ _ E Hin) as (r & cp & desired & Hr & Hg & Hw & Hp & ->).
  split; [by eapply written_settled|]. destruct (winning_selection _ _ _ Hw) as (_ & _ & _ & _ & _ & _ & Hd).
  eexists r, cp, _. split_and!; [done|done|unfold properties_of; by rewrite rewritten_properties| | |].
  - by rewrite rewritten_selection, Hw.
  - intros k Hk. by apply rewritten_field.
  - intros k H1 H2. rewrite !dict_get_d_get, d_get_del, bool_decide_eq_false_2, d_get_set, bool_decide_eq_false_2 by done. done.
Qed.

(** ** Winners *)

Section winners.
Variable settings : group_settings.

(** Among [gids], the group reconciled for the channels that live in [e]: [e] itself when its
    channels live there, the least of the groups placed there otherwise. *)
Definition chosen (gids : list Z) (e w : Z) : Prop :=
  w ∈ gids /\ effective settings w = Ok e /\
  (effective settings e = Ok e -> e ∈ gids -> w = e) /\
  (~ (effective settings e = Ok e /\ e ∈ gids) -> forall g, g ∈ gids -> effective settings g = Ok e -> w <= g).

Definition tracks (done : list Z) (m : gmap Z Z) : Prop :=
  (forall e w, m !! e = Some w -> chosen done e w) /\ forall g, g ∈ done -> exists e, effective settings g = Ok e /\ is_Some (m !! e).

Lemma chosen_other done g e0 e w : effective settings g = Ok e0 -> e <> e0 -> chosen done e w -> chosen (done ++ [g]) e w.
Proof.
  intros Eg Hne (H1 & H2 & H3 & H4). assert (Hin : forall x, x ∈ done ++ [g] -> effective settings x = Ok e -> x ∈ done).
  { intros x [Hx|Hx%list_elem_of_singleton]%elem_of_app Ex; [done|]. subst x. congruence. }
  split_and!; [set_solver|done|intros He Hd; by apply H3; [|apply Hin]|].
  intros Hn x Hx Ex. apply H4; [|by apply Hin|done]. intros [He Hd]. apply Hn. split; [done|set_solver].
Qed.

Lemma tracks_step done g m e : tracks done m -> g ∉ done -> (forall x, x ∈ done -> x <= g) -> effective settings g = Ok e ->
  tracks (done ++ [g]) (if bool_decide (m !! e = None) || (g =? e) then <[e := g]> m else m).
Proof.
  intros [Ht Hd] Hg Hle Eg. split.
  - intros e' w Hw. destruct (decide (e' = e)) as [->|Hne].
    2: { apply (chosen_other done g e); [done|done|]. apply Ht. destruct (_ || _); [by rewrite lookup_insert_ne in Hw|done]. }
    destruct (bool_decide (m !! e = None)) eqn:En; cbn [orb] in Hw.
    + apply bool_decide_eq_true in En. rewrite lookup_insert_eq in Hw. injection Hw as <-.
      assert (Hno : forall x, x ∈ done ++ [g] -> effective settings x = Ok e -> x = g).
      { intros x [Hx|Hx%list_elem_of_singleton]%elem_of_app Ex; [|done]. destruct (Hd x Hx) as (e' & Ee & [y Ey]). congruence. }
      split_and!; [set_solver|done|intros He Hin; symmetry; by apply Hno|intros _ x Hx Ex]. by rewrite (Hno x Hx Ex).
    + apply bool_decide_eq_false in En. destruct (g =? e) eqn:Ee.
      * apply Z.eqb_eq in Ee as <-. rewrite lookup_insert_eq in Hw. injection Hw as <-.
        split_and!; [set_solver|done|done|]. intros Hn. destruct Hn. split; [done|set_solver].
      * apply Z.eqb_neq in Ee. destruct (Ht e w Hw) as (H1 & H2 & H3 & H4).
        split_and!; [set_solver|done|intros He [Hin|Hin%list_elem_of_singleton]%elem_of_app; [by apply H3|congruence]|].
        intros Hn x [Hx|Hx%list_elem_of_singleton]%elem_of_app Ex; [|subst x; by apply Hle].
        apply H4; [|done|done]. intros [He Hin]. apply Hn. split; [done|set_solver].
  - intros x [Hx|Hx%list_elem_of_singleton]%elem_of_app.
    + destruct (Hd x Hx) as (e' & Ee & Hs). exists e'. split; [done|]. destruct (_ || _); [|done].
      destruct (decide (e' = e)) as [->|Hne]; [by rewrite lookup_insert_eq|by rewrite lookup_insert_ne].
    + subst x. exists e. split; [done|]. destruct (bool_decide (m !! e = None)) eqn:En; cbn [orb]; [by rewrite lookup_insert_eq|].
      apply bool_decide_eq_false in En. destruct (g =? e); [by rewrite lookup_insert_eq|]. by destruct (m !! e).
Qed.

Lemma winners_tracked gids : forall done m m', tracks done m -> NoDup (done ++ gids) -> StronglySorted Z.le (done ++ gids) ->
  winners settings gids m = Ok m' -> tracks (done ++ gids) m'.
Proof.
  induction gids as [|g gids IH]; intros done m m' Ht Hn Hs; cbn [winners]; [intros [= <-]; by rewrite app_nil_r|].
  destruct (effective settings g) as [e|] eqn:Eg; cbn [rbind]; [|done]. intros E.
  rewrite cons_middle, app_assoc in *. eapply (IH (done ++ [g])); [|done|done|exact E].
  apply tracks_step; [done| | |done].
  - rewrite <- app_assoc in Hn. apply NoDup_app in Hn as (_ & Hn & _). intros Hg. by apply (Hn g Hg); left.
  - intros x Hx. rewrite <- app_assoc in Hs. apply StronglySorted_app in Hs as (H & _ & _). apply H; [done|]. left.
Qed.
End winners.

(** C35: of the groups given, exactly one is reconciled for each place their channels live in:
    the group of that place when it is among them, the least of those placed there otherwise. *)
Theorem one_winner_per_place settings gids ws : dedupe_gids_by_effective_group settings gids = Ok ws ->
  (forall g, g ∈ gids -> exists e w, effective settings g = Ok e /\ w ∈ ws /\ chosen settings gids e w) /\
  (forall w, w ∈ ws -> exists e, chosen settings gids e w) /\
  (forall w w', w ∈ ws -> w' ∈ ws -> effective settings w = effective settings w' -> w = w').
Proof.
  unfold dedupe_gids_by_effective_group. destruct (winners settings (sorted_set gids) ∅) as [m|] eqn:E; cbn [rbind]; [|done].
  intros [= <-]. assert (Ht : tracks settings (sorted_set gids) m).
  { apply (winners_tracked settings (sorted_set gids) [] ∅ m); [split; [done|by intros g ?%elem_of_nil]| |apply sorted_set_sorted|done].
    unfold sorted_set. rewrite merge_sort_Permutation. apply NoDup_elements. }
  destruct Ht as [Ht Hd]. assert (Hc : forall e w, chosen settings (sorted_set gids) e w -> chosen settings gids e w).
  { intros e w (H1 & H2 & H3 & H4). split_and!; [by apply elem_of_sorted_set|done|intros He Hin; apply H3; [done|by apply elem_of_sorted_set]|].
    intros Hn g Hg. apply H4; [|by apply elem_of_sorted_set]. by rewrite elem_of_sorted_set. }
  assert (Hw : forall w, w ∈ omap (fun gid => m !! gid) (sorted_set (map fst (map_to_list m))) <-> exists e, m !! e = Some w).
  { intros w. rewrite list_elem_of_omap. split; [intros (e & _ & He); by exists e|intros [e He]; exists e; split; [|done]].
    apply elem_of_sorted_set, Prelude.elem_of_map. exists (e, w). split; [done|by apply elem_of_map_to_list]. }
  split_and!.
  - intros g Hg. destruct (Hd g) as (e & Ee & [w Ew]); [by apply elem_of_sorted_set|]. exists e, w.
    split_and!; [done|apply Hw; by exists e|by apply Hc, Ht].
  - intros w [e Ew]%Hw. exists e. by apply Hc, Ht.
  - intros w w' [e Ew]%Hw [e' Ew']%Hw He. destruct (Ht e w Ew) as (_ & H1 & _), (Ht e' w' Ew') as (_ & H2 & _). congruence.
Qed.

(** A save reconciles the sweep's own winners: those, and only those, whose channels live
    where a group it edited places its channels. *)
Theorem save_reconciles_sweep_winners settings edited ws ts :
  dedupe_gids_by_effective_group settings (groups_with_selection settings) = Ok ws ->
  resolve_save_reconcile_targets settings edited = Ok ts ->
  forall w, w ∈ ts <-> w ∈ ws /\ exists g, g ∈ edited /\ effective settings g = effective settings w.
Proof.
  intros Ew Et w. unfold resolve_save_reconcile_targets in Et. rewrite Ew in Et. cbn [rbind] in Et.
  destruct (traverse (effective settings) edited) as [touched|] eqn:E1; cbn [rbind] in Et; [|done].
  destruct (traverse (effective settings) ws) as [effs|] eqn:E2; cbn [rbind] in Et; [|done]. injection Et as <-.
  apply traverse_Ok in E1, E2.
  assert (Htouched : forall e, e ∈ touched <-> exists g, g ∈ edited /\ effective settings g = Ok e).
  { intros e. split.
    - intros [i Hi]%list_elem_of_lookup. destruct (Forall2_lookup_r _ _ _ _ _ E1 Hi) as (g & Hg & Ee). exists g.
      split; [by eapply list_elem_of_lookup_2|done].
    - intros (g & [i Hi]%list_elem_of_lookup & Ee). destruct (Forall2_lookup_l _ _ _ _ _ E1 Hi) as (e' & He & Ee').
      rewrite Ee in Ee'. injection Ee' as ->. by eapply list_elem_of_lookup_2. }
  clear Ew E1. revert w. induction E2 as [|w0 e0 ws effs E0 E2 IH]; intros w; cbn.
  { split; [by intros ?%elem_of_nil|by intros [?%elem_of_nil _]]. }
  destruct (bool_decide (e0 ∈ touched)) eqn:Eb.
  - apply bool_decide_eq_true in Eb. rewrite !elem_of_cons, IH. apply Htouched in Eb as (g & Hg & Ee).
    split; [intros [->|[H1 H2]]; [split; [by left|exists g; split; [done|congruence]]|split; [by right|done]]|].
    intros [[->|H1] H2]; [by left|right; by split].
  - apply bool_decide_eq_false in Eb. rewrite elem_of_cons, IH. split; [intros [H1 H2]; split; [by right|done]|].
    intros [[->|H1] H2]; [|by split]. destruct Eb. destruct H2 as (g & Hg & Ee). apply Htouched. exists g. split; [done|congruence].
Qed.
End SweepTheorems.
