(* ===== verification/ReconcileDemo.v ===== *)
(** * Profile reconciliation in a concrete world.

    One group's channels, three profiles.  The general theorems are applied there; concrete
    runs show a rule enabled after the sweep looked, a cancellation taken for a failure, and a
    convergence that raises. *)
From S2P Require Import Prelude PyFloat PyValue PyText PyDict PyState ExecutorTypes ExecutorAssign ProfileReconcile.
From S2P Require Import ProfileSweep HoareLogic ReconcileTheorems ReconcileOwners SweepTheorems.
From stdpp Require Import list gmap strings.
Open Scope Z_scope.
Open Scope py_scope.

Module ReconcileDemo.
Import ProfileReconcile ProfileSweep HoareLogic ReconcileTheorems ReconcileOwners SweepTheorems.

(** ** The marks the pipeline sets are the ones read here *)

Lemma dict_get_set k v (d : list (string * pyval)) : dict_get (d_set k v d) k = Some v.
Proof. by rewrite dict_get_d_get, d_get_set_same. Qed.
Lemma dict_get_other k k' v (d : list (string * pyval)) : k <> k' -> dict_get (d_set k v d) k' = dict_get d k'.
Proof. intros H. by rewrite !dict_get_d_get, d_get_set, bool_decide_eq_false_2. Qed.

(** A channel the executor marked for a rule is left to the pipeline exactly as long as the
    rule is live, or while it is not known which rules are; taking the mark away makes it a
    plain channel; neither touches another property. *)
Theorem marks_are_read_back rule live cp id :
  (_ownership_state (Member id (PDict (ExecutorAssign.marked (Some rule) cp))) live = owned <->
    forall rules, live = Some rules -> rule ∈ rules) /\
  _ownership_state (Member id (PDict (unmarked (ExecutorAssign.marked (Some rule) cp)))) live = unowned /\
  forall k, k <> ExecutorAssign.OWNER_KEY -> k <> ExecutorAssign.RULE_KEY ->
    dict_get (ExecutorAssign.marked (Some rule) cp) k = dict_get cp k /\
    dict_get (unmarked (ExecutorAssign.marked (Some rule) cp)) k = dict_get cp k.
Proof.
  split_and!.
  - unfold _ownership_state. cbn [m_properties]. unfold marker, ExecutorAssign.marked.
    rewrite dict_get_other, dict_get_set, bool_decide_eq_true_2 by done. rewrite dict_get_set.
    destruct live as [rules|]; [|by split]. case_bool_decide as E; split; [by intros _ ? [= <-]|done|done|intros H; by destruct E; apply H].
  - unfold _ownership_state. cbn [m_properties]. by rewrite marker_unmarked.
  - intros k H1 H2. assert (Hm : dict_get (ExecutorAssign.marked (Some rule) cp) k = dict_get cp k).
    { unfold ExecutorAssign.marked. by rewrite !dict_get_other by congruence. }
    split; [done|]. rewrite <- Hm. unfold unmarked. rewrite !dict_get_d_get, !d_get_del.
    by rewrite !bool_decide_eq_false_2.
Qed.

(** ** The world *)

Record town := Town {
  residents : list (Z * pyval);           (** the channels of group 6 and their properties *)
  enlisted : Z -> gset Z;                 (** the profiles each is in *)
  lock : option Z;
  stored : group_settings;
  rules : list rule_row;
  stop : nat -> bool;                     (** whether a poll asks to cancel *)
  polls : nat;
  broken : list Z }.                      (** the profiles whose writes fail *)

Definition on_enlisted (g : (Z -> gset Z) -> Z -> gset Z) (w : town) : town :=
  Town (residents w) (g (enlisted w)) (lock w) (stored w) (rules w) (stop w) (polls w) (broken w).

Definition roll (w : town) (g : Z) : list member :=
  if g =? 6 then map (fun p => Member (Some p.1) p.2) (residents w) else [].

Definition property_of (w : town) (id : Z) : option pyval := d_get id (residents w).
Definition replaced (id : Z) (cp : list (string * pyval)) (w : town) : town :=
  Town (map (fun p => if p.1 =? id then (p.1, PDict cp) else p) (residents w)) (enlisted w) (lock w) (stored w) (rules w) (stop w)
    (polls w) (broken w).

Definition failure : exc := Exc Other "HTTPStatusError" "502 Bad Gateway".

Definition reply {A} (c : call A) (w : town) : result exc A * town :=
  match c in call A return result exc A * town with
  | GetGroupChannels n g =>
      let k := Z.to_nat (n - 1) in
      (Ok (Page (take _CHANNEL_PAGE_SIZE (drop (_CHANNEL_PAGE_SIZE * k) (roll w g))) (_CHANNEL_PAGE_SIZE * S k <? List.length (roll w g))%nat), w)
  | GetMember id => (match property_of w id with Some p => Ok (Member (Some id) p) | None => Raise failure end, w)
  | UpdateProperties id cp =>
      match property_of w id with Some _ => (Ok tt, replaced id cp w) | None => (Raise failure, w) end
  | GetChannelProfiles => (Ok [Some 1; Some 2; Some 3], w)
  | BulkUpdateProfile p channels b =>
      if bool_decide (p ∈ broken w) then (Raise failure, w)
      else (Ok tt, on_enlisted (fun f ch => if bool_decide (ch ∈ channels) then (if b : bool then {[ p ]} ∪ f ch else f ch ∖ {[ p ]}) else f ch) w)
  | GetGroupSettings => (Ok (stored w), w)
  | AcquireLock g => (Ok tt, Town (residents w) (enlisted w) (Some g) (stored w) (rules w) (stop w) (polls w) (broken w))
  | ReleaseLock _ => (Ok tt, Town (residents w) (enlisted w) None (stored w) (rules w) (stop w) (polls w) (broken w))
  | RuleRows => (Ok (rules w), w)
  | ReviewConflict _ | ReviewConflicts => (Ok tt, w)
  | GetAccounts => (Ok (Some []), w)
  | UpdateGroupSettings _ _ => (Ok tt, w)
  | CancelRequested => (Ok (stop w (polls w)), Town (residents w) (enlisted w) (lock w) (stored w) (rules w) (stop w) (S (polls w)) (broken w))
  end.

#[export] Instance town_client : Client town := {| request := @reply |}.

#[export, refine] Instance town_memberships : Memberships town := {| profiles_of := enlisted |}.
Proof.
  - intros p channels b w w'. cbn. case_bool_decide; [done|]. by intros [= <-] ch.
  - intros p channels b w e w'. cbn. case_bool_decide; [|done]. intros [= _ <-] ch. by left.
  - intros A c w ch. destruct c; cbn; try done; by repeat case_match.
Defined.

Lemma roll_update id cp w g : roll (replaced id cp w) g = map (relabel id cp) (roll w g).
Proof.
  unfold roll. destruct (g =? 6); [|done]. cbn. rewrite !map_map. apply map_ext. intros [i p]. cbn. unfold relabel. cbn.
  destruct (i =? id) eqn:E; cbn; [apply Z.eqb_eq in E as ->; by rewrite bool_decide_eq_true_2|].
  apply Z.eqb_neq in E. by rewrite bool_decide_eq_false_2 by congruence.
Qed.

#[export, refine] Instance town_listing : Listing town := {| group_members := roll; profile_ids := [1; 2; 3] |}.
Proof.
  - intros n g w p w'. cbn -[_CHANNEL_PAGE_SIZE Z.of_nat]. intros [= <- _]. cbn -[_CHANNEL_PAGE_SIZE Z.of_nat].
    by replace (Z.to_nat (Z.of_nat (S n) - 1)) with n by lia.
  - by intros w l w' [= <- <-].
  - intros id cp w r w'. cbn. destruct (property_of w id); intros [= <- <-] g; [apply roll_update|done].
  - intros A c w g. destruct c; cbn; try done; by repeat case_match.
Defined.

(** *** Claims *)

Definition claims (live : option (gset Z)) (w : town) : gset Z :=
  list_to_set (List.filter (fun id => forallb (fun p => negb (p.1 =? id) || is_owned live (Member (Some p.1) p.2)) (residents w))
                 (map fst (residents w))).

Lemma elem_of_claims live w ch : ch ∈ claims live w <->
  (exists p, (ch, p) ∈ residents w) /\ forall p, (ch, p) ∈ residents w -> is_owned live (Member (Some ch) p) = true.
Proof.
  unfold claims. rewrite elem_of_list_to_set, list_elem_of_In, filter_In, <- list_elem_of_In, Prelude.elem_of_map, forallb_forall.
  split.
  - intros [([i p] & -> & Hp) H]. cbn in *. split; [by exists p|]. intros q Hq%list_elem_of_In. specialize (H _ Hq). cbn in H.
    by rewrite Z.eqb_refl in H.
  - intros [[p Hp] H]. split; [by exists (ch, p)|]. intros [i q] Hq%list_elem_of_In. cbn. destruct (i =? ch) eqn:E; [|done].
    apply Z.eqb_eq in E as ->. by apply H.
Qed.

Lemma claims_replaced live id cp w ch : marker cp = false -> ch ∉ claims live w -> ch ∉ claims live (replaced id cp w).
Proof.
  intros Hm Hc [[p Hp] H]%elem_of_claims. cbn in Hp, H. apply Hc, elem_of_claims.
  apply Prelude.elem_of_map in Hp as ([i q] & E & Hq). cbn in E. destruct (i =? id) eqn:Ei; injection E as -> ->.
  - exfalso. specialize (H (PDict cp)). assert (Ho : is_owned live (Member (Some i) (PDict cp)) = true).
    { apply H. apply Prelude.elem_of_map. exists (i, q). cbn. by rewrite Ei. }
    unfold is_owned, _ownership_state in Ho. cbn in Ho. by rewrite Hm in Ho.
  - split; [by exists q|]. intros q' Hq'. apply H. apply Prelude.elem_of_map. exists (i, q'). cbn. by rewrite Ei.
Qed.

#[export, refine] Instance town_claims live : Claims town live := {| claimed := claims live; held := lock; lives_in := fun _ => 6 |}.
Proof.
  - by intros g w w' [= <-].
  - intros A c w. destruct c; cbn; try done; by repeat case_match.
  - intros A c w ch _ Hc. destruct c; cbn; try done; [intros Hm; case_match; [by apply claims_replaced|done]|by case_match].
  - intros n g w p w' m ch. cbn -[_CHANNEL_PAGE_SIZE]. intros [= <- <-]. cbn -[_CHANNEL_PAGE_SIZE].
    intros Hm Hid. apply elem_of_take in Hm as (i & Hm & _). rewrite lookup_drop in Hm. apply list_elem_of_lookup_2 in Hm.
    unfold roll in Hm. destruct (g =? 6) eqn:E; [|by apply elem_of_nil in Hm]. apply Z.eqb_eq in E as ->. split; [done|].
    apply Prelude.elem_of_map in Hm as ([i' q] & -> & Hq). cbn in Hid. injection Hid as ->. intros Ho Hc.
    apply elem_of_claims in Hc as [_ H]. specialize (H q Hq). by apply bool_decide_eq_true in H.
Defined.

(** ** The theorems there *)

Definition group5 : pyval := PDict [("custom_properties", PDict [("group_override", PInt 6); ("channel_profile_ids", PList [PStr " 1 "; PInt 2; PInt 77])])].
Definition settings0 : group_settings := {[ 5 := group5; 6 := PDict [] ]}.
Definition pipeline_mark (rule : Z) : pyval := PDict (ExecutorAssign.marked (Some rule) [("logo", PStr "x")]).
Definition assign_rule : rule_row := RuleRow 9 true (Some (Some (PList [PDict [("type", PStr "assign_channel_profile")]]))).

(** Channel 7 is the group's own, 8 the pipeline's by rule 9; both in profiles 2 and 3. *)
Definition town0 (broken : list Z) (stop : nat -> bool) : town :=
  Town [(7, PNone); (8, pipeline_mark 9)] (fun ch => if (ch =? 7) || (ch =? 8) then {[ 2; 3 ]} else ∅) None settings0 [assign_rule] stop 0 broken.
Definition calm_town : town := town0 [] (fun _ => false).

Definition seen {A} (r : result exc A * town) : list (list Z) := map (fun ch => List.filter (fun p => bool_decide (p ∈ enlisted r.2 ch)) [1; 2; 3; 77]) [7; 8].

Example swept : seen (reconcile_group_profiles settings0 5 None true calm_town) = [[1; 2]; [2; 3]].
Proof. vm_compute. reflexivity. Qed.

Lemma no_channel_is_stranded_witness :
  let busy w := Process false w in
  let w := town0 [1] (fun n => Nat.eqb n 6) in
  enlisted w 7 <> ∅ /\ enlisted (world (reconcile_all_selected_groups None true (busy w)).2) 7 <> ∅.
Proof.
  intros busy w. assert (H : enlisted w 7 <> ∅) by (by apply (bool_decide_unpack _)).
  split; [exact H|]. exact (no_channel_is_stranded None true false w 7 H).
Defined.

Lemma ran_ok {A} (P : A -> bool) (r : result exc A * town) : match r.1 with Ok a => P a | Raise _ => false end = true ->
  exists a w', r = (Ok a, w') /\ P a = true /\ r.2 = w'.
Proof. destruct r as [[a|e] w']; cbn; intros H; [by exists a, w'|done]. Qed.

Lemma reconciled_group_is_exact_witness :
  let r := _reconcile_group_locked settings0 5 6 (Some {[ 9 ]}) calm_town in
  (3 ∉ enlisted r.2 7) /\ 1 ∈ enlisted r.2 7 /\ enlisted r.2 8 = enlisted calm_town 8.
Proof.
  intros r. destruct (ran_ok (fun o => bool_decide (o_status o = reconciled)) r) as (o & w' & E & Hok%bool_decide_eq_true & ->);
    [vm_compute; reflexivity|].
  destruct (reconciled_group_is_exact settings0 5 6 (Some {[ 9 ]}) [1; 2; 77] calm_town o w') as [H1 H2].
  - vm_compute. reflexivity.
  - apply Nat.leb_le. vm_compute. reflexivity.
  - by apply (bool_decide_unpack _).
  - exact E.
  - exact Hok.
  - assert (Ho : exists m, m ∈ group_members calm_town 6 /\ m_id m = Some 7 /\ _ownership_state m (Some {[ 9 ]}) <> owned).
    { exists (Member (Some 7) PNone). split; [left|split; [reflexivity|discriminate]]. }
    assert (I3 : 3 ∈ [1; 2; 3]) by (by apply (bool_decide_unpack _)). assert (I1 : 1 ∈ [1; 2; 3]) by left.
    split; [intros H; apply (H1 7 3 Ho I3) in H; revert H; by apply (bool_decide_unpack (3 ∉ [1; 2; 77]))|].
    split; [apply (H1 7 1 Ho I1); left|].
    apply H2. intros (m & Hm & Em & Hn). apply elem_of_cons in Hm as [->|Hm]; [discriminate|].
    apply list_elem_of_singleton in Hm as ->. apply Hn. vm_compute. reflexivity.
Defined.

(** Whatever happens to the others, the pipeline's channel stays where it is. *)
Definition pipeline_left (w w' : town) : Prop :=
  8 ∈ claims (Some {[ 9 ]}) w -> 8 ∈ claims (Some {[ 9 ]}) w' /\ enlisted w' 8 = enlisted w 8.
#[export] Instance pipeline_left_pre : PreOrder pipeline_left.
Proof. split; [by intros w|]. intros a b c H1 H2 H. destruct (H1 H) as [Hb E1]. destruct (H2 Hb) as [Hc E2]. split; [done|congruence]. Qed.

Lemma claims_kept live id cp w ch : ch <> id -> ch ∈ claims live w -> ch ∈ claims live (replaced id cp w).
Proof.
  intros Hne [[p Hp] H]%elem_of_claims. apply elem_of_claims.
  assert (Hi : forall q, (ch, q) ∈ residents (replaced id cp w) <-> (ch, q) ∈ residents w).
  { intros q. cbn. rewrite Prelude.elem_of_map. split.
    - intros ([i q'] & E & Hq). cbn in E. destruct (i =? id) eqn:Ei; injection E as -> ->; [apply Z.eqb_eq in Ei; congruence|done].
    - intros Hq. exists (ch, q). cbn. by apply Z.eqb_neq in Hne as ->. }
  split; [exists p; by apply Hi|]. intros q Hq. by apply H, Hi.
Qed.

Lemma pipeline_has_8 : 8 ∈ claims (Some {[ 9 ]}) calm_town.
Proof. apply elem_of_claims. split; [exists (pipeline_mark 9); right; left|]. intros p [H|H%list_elem_of_singleton]%elem_of_cons; [done|]. injection H as ->. vm_compute. reflexivity. Qed.

Lemma pipeline_channels_left_alone_witness :
  let w' := (reconcile_group_profiles settings0 5 (Some (Some {[ 9 ]})) true calm_town).2 in
  8 ∈ claims (Some {[ 9 ]}) w' /\ enlisted w' 8 = enlisted calm_town 8.
Proof.
  apply (pipeline_channels_left_alone (Some {[ 9 ]}) pipeline_left settings0 5 true calm_town).
  - intros A c w Hp H8. destruct c; cbn in *; try done.
    + destruct (property_of w id); [|done]. split; [|done]. apply claims_kept; [|done]. intros <-. by apply Hp.
    + case_bool_decide; [done|]. split; [done|]. cbn. case_bool_decide as E; [|done]. by destruct (Hp 8 E).
  - exact pipeline_has_8.
Defined.

Definition winner_settings : group_settings := {[ 4 := group5; 5 := group5; 6 := PDict [] ]}.

Lemma one_winner_per_place_witness :
  dedupe_gids_by_effective_group winner_settings [5; 4] = Ok [4] /\ exists e, chosen winner_settings [5; 4] e 4.
Proof.
  assert (E : dedupe_gids_by_effective_group winner_settings [5; 4] = Ok [4]) by (vm_compute; reflexivity).
  split; [exact E|]. destruct (one_winner_per_place _ _ _ E) as (_ & H & _). apply H. left.
Defined.

Lemma save_reconciles_sweep_winners_witness :
  resolve_save_reconcile_targets winner_settings [5] = Ok [4] /\ exists g, g ∈ [5] /\ effective winner_settings g = effective winner_settings 4.
Proof.
  assert (E : dedupe_gids_by_effective_group winner_settings (groups_with_selection winner_settings) = Ok [4]) by (vm_compute; reflexivity).
  assert (Et : resolve_save_reconcile_targets winner_settings [5] = Ok [4]) by (vm_compute; reflexivity).
  split; [exact Et|]. destruct (save_reconciles_sweep_winners winner_settings [5] [4] [4] E Et 4) as [H _]. apply H. left.
Defined.

Definition old_row : row := [("channel_group", PInt 5); ("enabled", PBool true); ("custom_properties", PDict [("note", PStr "kept"); ("channel_profile_ids", PList [PStr "1"])])].

Lemma written_rows_converge_witness :
  exists row', rows_to_write (winning settings0) [old_row] = Ok [(5, row')] /\ row_to_write (winning settings0) row' = Ok None.
Proof.
  destruct (rows_to_write (winning settings0) [old_row]) as [out|e] eqn:E; [|vm_compute in E; discriminate].
  assert (Ho : exists row', out = [(5, row')]) by (vm_compute in E; injection E as <-; eexists; reflexivity).
  destruct Ho as [row' ->]. exists row'. split; [reflexivity|].
  destruct (written_rows_converge settings0 [old_row] [(5, row')] 5 row' E ltac:(left)) as [H _]. exact H.
Defined.

(** ** Where words and deeds part *)

(** A rule enabled after the sweep read which rules are live: its channel is taken from it, and
    its mark removed. *)
Example stale_live_rules :
  let r := reconcile_group_profiles settings0 5 (Some (Some ∅)) true calm_town in
  negb (bool_decide (3 ∈ enlisted r.2 8)) = true /\ property_of r.2 8 = Some (PDict [("logo", PStr "x")]).
Proof. vm_compute. split; reflexivity. Qed.

(** Cancelled while it looks for owners again, it reports that the channels could not be read. *)
Example cancellation_taken_for_failure :
  match (reconcile_group_profiles settings0 5 None true (town0 [] (fun n => Nat.eqb n 1))).1 with
  | Ok o => o_error o | Raise _ => None end = Some "ownership re-check fetch failed; no writes issued".
Proof. vm_compute. reflexivity. Qed.

(** A row whose properties are no dict: convergence raises. *)
Definition bad_row : row := [("channel_group", PInt 5); ("custom_properties", PStr "x")].
Example convergence_raises :
  match rows_to_write (winning settings0) [bad_row] with Ok _ => false | Raise _ => true end = true.
Proof. vm_compute. reflexivity. Qed.
End ReconcileDemo.
