(* ===== verification/TaskEngine.v ===== *)
(** * The task engine ([backend/task_engine.py], [backend/task_scheduler.py], the configuration
    half of [backend/task_registry.py]).

    The event loop interleaves the scheduler's ticks, the runs of the tasks and the requests
    at the engine's awaits; a [step] of the model is what happens between two of them, with the
    end of a task's work and the recording of its result in one.  What a task does is a
    parameter, and so is the schedule calculator; the database always answers.  Enabling a
    task writes its gate; the schedules that the registry creates or enables with it are
    writes of a schedule like an operator's. *)
From S2P Require Import Prelude.
From stdpp Require Import gmap strings.
Open Scope Z_scope.

Module TaskEngine.

(** ** Results ([task_scheduler.py]) *)

(** [details] and [skipped_count] take no part in what follows. *)
Record task_result := TaskResult {
  success : bool; message : string; completed_at : option Z; success_count : Z; failed_count : Z;
  error : option string; suppress_completion_notification : bool; completed_degraded : bool }.

Inductive outcome := SUCCESS | WARNING | ERROR | CANCELLED.

Definition task_outcome (r : task_result) : outcome :=
  if bool_decide (error r = Some "CANCELLED") then CANCELLED
  else if success r then (if 0 <? failed_count r then WARNING else SUCCESS)
  else if completed_degraded r then WARNING
  else ERROR.

Definition outcome_value (o : outcome) : string :=
  match o with SUCCESS => "success" | WARNING => "warning" | ERROR => "error" | CANCELLED => "cancelled" end.

Definition completion_notification_type (r : task_result) : string :=
  match task_outcome r with CANCELLED => "warning" | o => outcome_value o end.

Definition execution_status (r : task_result) : string :=
  match task_outcome r with
  | CANCELLED => "cancelled" | ERROR => "failed" | WARNING => "completed_with_warnings" | SUCCESS => "completed"
  end.

Definition execution_succeeded (r : task_result) : bool :=
  match task_outcome r with SUCCESS | WARNING => true | _ => false end.

(** How the work of a task ends: [execute] returns, and the hook after it may raise; or it
    raises. *)
Inductive work := Returned (r : task_result) (hook_error : option string) | Raised (e : string).

(** A result that never got to run. *)
Definition refusal (msg err : string) : task_result := TaskResult false msg None 0 0 (Some err) false false.

Definition set_failure (r : task_result) (e : string) (now : Z) : task_result :=
  TaskResult false (String.concat "" ["Task failed with error: "; e]) (Some now) (success_count r) (failed_count r)
    (Some e) (suppress_completion_notification r) (completed_degraded r).

(** What [run] makes of the work, given whether cancellation was asked for. *)
Definition run_result (w : work) (cancel_requested : bool) (now : Z) : task_result :=
  match w with
  | Raised e => set_failure (TaskResult false "" None 0 0 None false false) e now
  | Returned r hook =>
      let r := TaskResult (success r) (message r) (Some now) (success_count r) (failed_count r) (error r)
                 (suppress_completion_notification r) (completed_degraded r) in
      let r' := if cancel_requested
                then TaskResult false "Task was cancelled" (Some now) (success_count r) (failed_count r)
                       (Some "CANCELLED") (suppress_completion_notification r) (completed_degraded r)
                else r in
      match hook with
      | Some e => if cancel_requested || success r then set_failure r' e now else r'
      | None => r'
      end
  end.

(** ** State *)

(** A row of [task_schedules]: when it runs, and the parameters it runs its task with. *)
Record schedule_row {params spec : Type} := Schedule {
  sc_id : Z; sc_task : string; sc_enabled : bool; sc_spec : spec; sc_next_run_at : option Z;
  sc_last_run_at : option Z; sc_parameters : option params }.
Arguments schedule_row : clear implicits.

(** A row of [scheduled_tasks]. *)
Record parent := Parent { pt_enabled : bool; pt_next_run_at : option Z }.

(** A row of [task_executions]. *)
Record execution := Execution {
  x_id : Z; x_task : string; x_status : string; x_success : option bool; x_completed_at : option Z; x_error : option string }.

(** The task classes and the calculator: the parameters of a run are prepared, a task's
    configuration is updated from them (which may raise, and then leaves it as the second
    component says), and restored from the snapshot the engine took; it may be persisted, as
    the merge of what was saved; a schedule's next run is computed from its last one. *)
Class Tasks := {
  config : Type;
  params : Type;
  spec : Type;
  default_config : string -> config;
  prepare_parameters : string -> bool -> option Z -> option params -> option params;
  update_config : string -> params -> config -> config * option string;
  restore_invocation_config : string -> config -> config -> config;
  persist_config : string -> bool;
  merge_config : option params -> params -> option params;
  calculate_next_run : spec -> option Z -> Z -> option (option Z) }.
Definition schedule `{Tasks} : Type := schedule_row params spec.

Definition overlay `{Tasks} (task : string) (o : option params) (c : config) : config :=
  match o with Some p => (update_config task p c).1 | None => c end.

(** What the engine needs of a task: on the configurations it can have, restoring a snapshot
    restores it, and applying what was saved gives what the saves gave, as long as the task
    took each of them in. *)
Class TaskLaws `{Tasks} := {
  valid : string -> config -> Prop;
  accepts : string -> params -> Prop;
  default_valid : forall task, valid task (default_config task);
  update_valid : forall task p c, valid task c -> valid task (update_config task p c).1;
  restores : forall task snapshot c,
    valid task snapshot -> valid task c -> restore_invocation_config task snapshot c = snapshot;
  accepted : forall task p c, accepts task p -> (update_config task p c).2 = None;
  merge_accepted : forall task saved p q,
    (forall q, saved = Some q -> accepts task q) -> accepts task p ->
    merge_config saved p = Some q -> accepts task q;
  merge_applies : forall task saved p,
    (forall q, saved = Some q -> accepts task q) -> accepts task p ->
    overlay task (merge_config saved p) (default_config task) = overlay task (Some p) (overlay task saved (default_config task)) }.

Section engine.
Context {tasks : Tasks}.

(** The live singleton of a task: its configuration, whether its [_status] is [RUNNING],
    [_cancel_requested]. *)
Record instance := Instance { i_config : config; i_running : bool; i_cancel_requested : bool }.

(** Where a run is: before [_status] is set; in [execute]; in the notifications after it, with
    its result or the error still to be recorded. *)
Inductive stage := Entered | Executing | Ending (r : task_result) | Failing (e : string).

(** A run in progress: its execution row, the schedule it runs for, the snapshot. *)
Record run := Run { r_execution : Z; r_schedule : option Z; r_snapshot : config; r_stage : stage }.

(** A coroutine of [_execute_task_with_schedules] or of [run_task]: the runs still to make,
    the results so far with the schedule of each, the run in progress. *)
Record coroutine := Coroutine {
  p_task : string; p_scheduled : bool; p_queue : list (option Z * option params);
  p_results : list (option Z * option Z); p_run : option run }.

Record engine := Engine {
  now : Z; max_concurrent : nat; active_tasks : gset string; instances : gmap string instance;
  coroutines : gmap nat coroutine; next_coroutine : nat; schedules : list (schedule);
  parents : gmap string parent; stored_configs : gmap string params;
  executions : list execution; next_execution : Z }.

Definition with_active (a : gset string) (s : engine) : engine :=
  Engine (now s) (max_concurrent s) a (instances s) (coroutines s) (next_coroutine s) (schedules s) (parents s)
    (stored_configs s) (executions s) (next_execution s).
Definition with_instance (t : string) (i : instance) (s : engine) : engine :=
  Engine (now s) (max_concurrent s) (active_tasks s) (<[t := i]> (instances s)) (coroutines s) (next_coroutine s)
    (schedules s) (parents s) (stored_configs s) (executions s) (next_execution s).
Definition with_coroutines (c : gmap nat coroutine) (s : engine) : engine :=
  Engine (now s) (max_concurrent s) (active_tasks s) (instances s) c (next_coroutine s) (schedules s) (parents s)
    (stored_configs s) (executions s) (next_execution s).
Definition with_schedules (l : list (schedule)) (p : gmap string parent) (s : engine) : engine :=
  Engine (now s) (max_concurrent s) (active_tasks s) (instances s) (coroutines s) (next_coroutine s) l p
    (stored_configs s) (executions s) (next_execution s).
Definition with_executions (l : list execution) (s : engine) : engine :=
  Engine (now s) (max_concurrent s) (active_tasks s) (instances s) (coroutines s) (next_coroutine s) (schedules s)
    (parents s) (stored_configs s) l (next_execution s).

(** Another coroutine on the event loop. *)
Definition spawn (c : coroutine) (s : engine) : engine :=
  Engine (now s) (max_concurrent s) (active_tasks s) (instances s) (<[next_coroutine s := c]> (coroutines s))
    (S (next_coroutine s)) (schedules s) (parents s) (stored_configs s) (executions s) (next_execution s).

(** ** The scheduler's tick ([_check_and_run_due_tasks]) *)

Definition due (time : Z) (sc : schedule) : bool :=
  sc_enabled sc && match sc_next_run_at sc with Some n => n <=? time | None => false end.

(** [tasks_to_run]: the due schedules of each task, tasks in the order of their first one. *)
Fixpoint group_by_task (l : list (schedule)) : list (string * list (schedule)) :=
  match l with
  | [] => []
  | sc :: l' =>
      let groups := group_by_task l' in
      let mine := default [] (snd <$> List.find (fun g => bool_decide (g.1 = sc_task sc)) groups) in
      (sc_task sc, sc :: mine) :: List.filter (fun g => negb (bool_decide (g.1 = sc_task sc))) groups
  end.

Definition parent_enabled (s : engine) (t : string) : bool :=
  match parents s !! t with Some p => pt_enabled p | None => true end.

Definition jobs_of (l : list (schedule)) : list (option Z * option params) :=
  map (fun sc => (Some (sc_id sc), sc_parameters sc)) l.

Fixpoint start_due (groups : list (string * list (schedule))) (s : engine) : engine :=
  match groups with
  | [] => s
  | (t, triggered) :: groups =>
      if (max_concurrent s <=? size (active_tasks s))%nat then s
      else if bool_decide (t ∈ active_tasks s) then start_due groups s
      else match instances s !! t with
           | None => start_due groups s
           | Some _ =>
               if parent_enabled s t then start_due groups (spawn (Coroutine t true (jobs_of triggered) [] None) s)
               else start_due groups s
           end
  end.

Definition _check_and_run_due_tasks (s : engine) : engine :=
  start_due (group_by_task (List.filter (due (now s)) (schedules s))) s.

(** ** Running a task ([_execute_task]) *)

Definition set_row (id : Z) (f : execution -> execution) (l : list execution) : list execution :=
  map (fun x => if x_id x =? id then f x else x) l.

Definition record_result (r : task_result) (x : execution) : execution :=
  Execution (x_id x) (x_task x) (execution_status r) (Some (execution_succeeded r)) (completed_at r) (error r).
Definition record_failure (e : string) (time : Z) (x : execution) : execution :=
  Execution (x_id x) (x_task x) "failed" (Some false) (Some time) (Some e).

(** The run begins ([fault] is what preparing it raises, its parameters aside); the task's own
    [run] refuses if the task is running. *)
Definition begin_run (c : coroutine) (schedule_id : option Z) (parameters : option params) (fault : option string)
    (i : instance) (s : engine) : run * engine :=
  let x := Execution (next_execution s) (p_task c) "running" None None None in
  let '(conf, failure) :=
    match fault, prepare_parameters (p_task c) (p_scheduled c) schedule_id parameters with
    | Some e, _ => (i_config i, Some e)
    | None, Some p => update_config (p_task c) p (i_config i)
    | None, None => (i_config i, None)
    end in
  let refused := refusal "Task is already running" "ALREADY_RUNNING" in
  let '(stage, x) :=
    match failure with
    | Some e => (Failing e, x)
    | None => if i_running i then (Ending refused, record_result refused x) else (Entered, x)
    end in
  (Run (next_execution s) schedule_id (i_config i) stage,
   Engine (now s) (max_concurrent s) ({[p_task c]} ∪ active_tasks s)
     (<[p_task c := Instance conf (i_running i) (i_cancel_requested i)]> (instances s)) (coroutines s)
     (next_coroutine s) (schedules s) (parents s) (stored_configs s) (executions s ++ [x]) (next_execution s + 1)).

(** The rows of the schedules that ran: [last_run_at] of each, [next_run_at] of the enabled;
    none when a next run cannot be computed. *)
Definition advance_row (time : Z) (result : option Z * option Z) (sc : schedule) : option schedule :=
  if bool_decide (Some (sc_id sc) = result.1) then
    next ← (if sc_enabled sc then calculate_next_run (sc_spec sc) result.2 time else Some (sc_next_run_at sc));
    Some (Schedule _ _ (sc_id sc) (sc_task sc) (sc_enabled sc) (sc_spec sc) next result.2 (sc_parameters sc))
  else Some sc.

Fixpoint advance (time : Z) (scs : list schedule) (results : list (option Z * option Z)) : option (list schedule) :=
  match results with
  | [] => Some scs
  | result :: results => scs ← mapM (advance_row time result) scs; advance time scs results
  end.

(** The earliest of the times. *)
Definition earliest (l : list Z) : option Z := match l with [] => None | x :: l => Some (foldl Z.min x l) end.

(** The end of a coroutine: with results, the triggered schedules and the parent are updated,
    in one transaction. *)
Definition conclude (p : nat) (c : coroutine) (s : engine) : engine :=
  let s := with_coroutines (delete p (coroutines s)) s in
  match p_scheduled c, p_results c with
  | false, _ | _, [] => s
  | true, results =>
      match advance (now s) (schedules s) results with
      | None => s
      | Some scs =>
          let nexts := omap (fun sc => if bool_decide (sc_task sc = p_task c) && sc_enabled sc
                                       then sc_next_run_at sc else None) scs in
          let parents' := match parents s !! p_task c with
                          | Some pt => <[p_task c := Parent (pt_enabled pt) (earliest nexts)]> (parents s)
                          | None => parents s
                          end in
          with_schedules scs parents' s
      end
  end.

(** The next runs of a coroutine, up to the first await: a task that is running answers at
    once, and so does one that is not registered. *)
Fixpoint next_runs (p : nat) (c : coroutine) (queue : list (option Z * option params))
    (results : list (option Z * option Z)) (fault : option string) (s : engine) : engine :=
  match queue with
  | [] => conclude p (Coroutine (p_task c) (p_scheduled c) [] results None) s
  | (sid, parameters) :: queue =>
      match instances s !! p_task c with
      | None => next_runs p c queue results fault s
      | Some i =>
          if bool_decide (p_task c ∈ active_tasks s)
          then next_runs p c queue (results ++ [(sid, None)]) fault s
          else let '(r, s) := begin_run c sid parameters fault i s in
               with_coroutines (<[p := Coroutine (p_task c) (p_scheduled c) queue results (Some r)]> (coroutines s)) s
      end
  end.

Definition resume (p : nat) (c : coroutine) (fault : option string) (s : engine) : engine :=
  next_runs p c (p_queue c) (p_results c) fault s.

Definition set_stage (p : nat) (c : coroutine) (r : run) (g : stage) (s : engine) : engine :=
  with_coroutines (<[p := Coroutine (p_task c) (p_scheduled c) (p_queue c) (p_results c)
    (Some (Run (r_execution r) (r_schedule r) (r_snapshot r) g))]> (coroutines s)) s.

(** The end of a run: the failure is recorded if it is not, the configuration is restored, the
    task is free; the next runs follow without an await. *)
Definition end_run (p : nat) (c : coroutine) (r : run) (fault : option string) (s : engine) : engine :=
  let '(completed, rows) :=
    match r_stage r with
    | Ending res => (completed_at res, executions s)
    | Failing e => (Some (now s), set_row (r_execution r) (record_failure e (now s)) (executions s))
    | Entered | Executing => (None, executions s)
    end in
  let i := default (Instance (default_config (p_task c)) false false) (instances s !! p_task c) in
  let i := Instance (restore_invocation_config (p_task c) (r_snapshot r) (i_config i)) (i_running i) (i_cancel_requested i) in
  let s := with_active (active_tasks s ∖ {[p_task c]}) (with_instance (p_task c) i (with_executions rows s)) in
  resume p (Coroutine (p_task c) (p_scheduled c) (p_queue c) (p_results c ++ [(r_schedule r, completed)]) None) fault s.

(** ** Steps *)

Inductive op :=
| Tick                                                       (** the scheduler's check *)
| RunTask (task : string) (schedule_id : option Z) (parameters : option params) (fault : option string)
| Begin (p : nat) (fault : option string)                    (** a spawned coroutine gets the loop *)
| Validated (p : nat) (problem : option string)              (** [validate_config] answers *)
| Executed (p : nat) (w : work)                              (** [execute] and its hook end *)
| Close (p : nat) (fault : option string)                    (** the notifications are sent *)
| Cancel (task : string)
| Configure (task : string) (intent : params)                (** PATCH with a [task_config] *)
| Enable (task : string) (enabled : bool)
| PutSchedule (sc : schedule)
| DropSchedule (id : Z)
| Clock (dt : N)
| Restart.                                                   (** the process dies and starts *)

Inductive reply := Done | NotFound | NotRunning | Cancelling.

(** Manual parameters win over those of the schedule. *)
Definition manual_parameters (s : engine) (t : string) (sid : option Z) (parameters : option params) : option params :=
  match parameters with
  | Some _ => parameters
  | None => id ← sid; sc ← List.find (fun sc => (sc_id sc =? id) && bool_decide (sc_task sc = t)) (schedules s);
            sc_parameters sc
  end.

Definition run_task (t : string) (sid : option Z) (parameters : option params) (fault : option string) (s : engine) : engine :=
  let job := (match parameters with Some _ => None | None => sid end, manual_parameters s t sid parameters) in
  let c := Coroutine t false [job] [] None in
  resume (next_coroutine s) c fault (spawn c s).

(** [cancel_task], then the task's own [cancel]. *)
Definition cancel_task (t : string) (s : engine) : engine * reply :=
  match instances s !! t with
  | None => (s, NotFound)
  | Some i =>
      if negb (bool_decide (t ∈ active_tasks s)) then (s, NotRunning)
      else if i_running i then (with_instance t (Instance (i_config i) true true) s, Cancelling)
      else (s, NotRunning)
  end.

(** A PATCH of a task's configuration: the live instance, and the stored accumulation; what
    the task does not take (it raises) is not stored. *)
Definition update_task_config (t : string) (intent : params) (s : engine) : engine :=
  match instances s !! t with
  | None => s
  | Some i =>
      let '(conf, failure) := update_config t intent (i_config i) in
      let s := with_instance t (Instance conf (i_running i) (i_cancel_requested i)) s in
      match failure with
      | Some _ => s
      | None =>
          Engine (now s) (max_concurrent s) (active_tasks s) (instances s) (coroutines s) (next_coroutine s) (schedules s)
            (parents s)
            (if persist_config t
             then partial_alter (fun _ => merge_config (stored_configs s !! t) intent) t (stored_configs s)
             else stored_configs s)
            (executions s) (next_execution s)
      end
  end.

(** The configuration a restart gives a task. *)
Definition hydrated (s : engine) (t : string) : config :=
  overlay t (if persist_config t then stored_configs s !! t else None) (default_config t).

Definition terminate (time : Z) (x : execution) : execution :=
  if bool_decide (x_status x = "running")
  then Execution (x_id x) (x_task x) "terminated" (Some false) (Some time) (x_error x) else x.

(** The next process: nothing runs, the stale rows are terminated, the instances are built
    from what is stored. *)
Definition restart (s : engine) : engine :=
  Engine (now s) (max_concurrent s) ∅ (map_imap (fun t _ => Some (Instance (hydrated s t) false false)) (instances s))
    ∅ (next_coroutine s) (schedules s) (parents s) (stored_configs s) (map (terminate (now s)) (executions s)) (next_execution s).

Definition step (s : engine) (o : op) : engine :=
  match o with
  | Tick => _check_and_run_due_tasks s
  | RunTask t sid parameters fault => run_task t sid parameters fault s
  | Begin p fault =>
      match coroutines s !! p with
      | Some c => match p_run c with None => resume p c fault s | Some _ => s end
      | None => s
      end
  | Validated p problem =>
      match coroutines s !! p with
      | Some c =>
          match p_run c with
          | Some r =>
              match r_stage r, problem, instances s !! p_task c with
              | Entered, Some e, _ =>
                  let res := refusal (String.concat "" ["Configuration validation failed: "; e]) "CONFIG_INVALID" in
                  set_stage p c r (Ending res)
                    (with_executions (set_row (r_execution r) (record_result res) (executions s)) s)
              | Entered, None, Some i =>
                  set_stage p c r Executing (with_instance (p_task c) (Instance (i_config i) true false) s)
              | _, _, _ => s
              end
          | None => s
          end
      | None => s
      end
  | Executed p w =>
      match coroutines s !! p with
      | Some c =>
          match p_run c with
          | Some r =>
              match r_stage r, instances s !! p_task c with
              | Executing, Some i =>
                  let res := run_result w (i_cancel_requested i) (now s) in
                  set_stage p c r (Ending res)
                    (with_executions (set_row (r_execution r) (record_result res) (executions s))
                       (with_instance (p_task c) (Instance (i_config i) false (i_cancel_requested i)) s))
              | _, _ => s
              end
          | None => s
          end
      | None => s
      end
  | Close p fault =>
      match coroutines s !! p with
      | Some c => match p_run c with
                  | Some r => match r_stage r with
                              | Ending _ | Failing _ => end_run p c r fault s
                              | _ => s
                              end
                  | None => s
                  end
      | None => s
      end
  | Cancel t => (cancel_task t s).1
  | Configure t intent => update_task_config t intent s
  | Enable t enabled =>
      match parents s !! t, instances s !! t with
      | Some pt, Some _ => with_schedules (schedules s) (<[t := Parent enabled (pt_next_run_at pt)]> (parents s)) s
      | _, _ => s
      end
  | PutSchedule sc => with_schedules (sc :: List.filter (fun x => negb (sc_id x =? sc_id sc)) (schedules s)) (parents s) s
  | DropSchedule id => with_schedules (List.filter (fun x => negb (sc_id x =? id)) (schedules s)) (parents s) s
  | Clock dt => Engine (now s + Z.of_N dt) (max_concurrent s) (active_tasks s) (instances s) (coroutines s)
                  (next_coroutine s) (schedules s) (parents s) (stored_configs s) (executions s) (next_execution s)
  | Restart => restart s
  end.

Definition run_ops (ops : list op) (s : engine) : engine := foldl step s ops.

(** The engine as it starts: the registered tasks with their defaults. *)
Definition fresh (time : Z) (limit : nat) (registered : gset string) (scs : list (schedule)) (ps : gmap string parent) : engine :=
  Engine time limit ∅ (set_to_map (fun t => (t, Instance (default_config t) false false)) registered) ∅ O scs ps ∅ [] 0.

End engine.

End TaskEngine.
