(* ===== verification/TaskConfigs.v ===== *)
(** * The configuration surfaces of the tasks ([backend/tasks/*.py]: the constructor's defaults,
    [get_config], [update_config], [restore_invocation_config]) and what the registry stores of
    them ([_persist_task_config], [_strip_unset_config_keys]).

    A task's configuration is the attributes its [get_config] reads, by their configuration
    keys.  The three tasks with an ephemeral or external surface ([dbas_restore], [dbas_sync],
    [m3u_digest]) and [dbas_backup], whose surface leaves transients out, are not here.  This
    file discharges the interface of [TaskEngine] with them and with the schedule calculator. *)
From S2P Require Import Prelude PyFloat PyValue PyDatetime PyState Schedule PipelineWritePlan TaskEngine.
From stdpp Require Import gmap strings.
Open Scope Z_scope.

Module TaskConfigs.

Abbreviation dict := (gmap string pyval).

(** What a line of an [update_config] does with a key's value: assign an attribute, ignore the
    value, or raise. *)
Inductive effect := Assign (v : pyval) | Ignore | Fails (e : string).
Definition setter : Type := string * (pyval -> effect).

(** The lines [if key in config: ...], in order; the first that raises ends them. *)
Fixpoint apply_setters (l : list setter) (intent self : dict) : dict * option string :=
  match l with
  | [] => (self, None)
  | (k, f) :: l =>
      match intent !! k with
      | None => apply_setters l intent self
      | Some v => match f v with
                  | Assign v' => apply_setters l intent (<[k := v']> self)
                  | Ignore => apply_setters l intent self
                  | Fails e => (self, Some e)
                  end
      end
  end.

(** ** The right-hand sides *)

Definition plain (v : pyval) : effect := Assign v.
(** [v or []] *)
Definition or_empty (v : pyval) : effect := Assign (if truthy v then v else PList []).
(** [v if v is not None else []] *)
Definition none_empty (v : pyval) : effect := Assign (match v with PNone => PList [] | _ => v end).
Definition as_bool (v : pyval) : effect := Assign (PBool (truthy v)).

Definition as_int (v : pyval) : effect :=
  match PipelineWritePlan.int_of v with Ok n => Assign (PInt n) | Raise _ => Fails (int_error v) end.
(** [max(1, int(v))] *)
Definition at_least_one (v : pyval) : effect :=
  match PipelineWritePlan.int_of v with Ok n => Assign (PInt (Z.max 1 n)) | Raise _ => Fails (int_error v) end.
(** [int(v)], kept at its current value when that is no number or below 1; an infinite float
    is an [OverflowError], which the handler does not name. *)
Definition positive_days (v : pyval) : effect :=
  match PipelineWritePlan.int_of v with
  | Ok n => if 1 <=? n then Assign (PInt n) else Ignore
  | Raise PipelineWritePlan.OverflowError => Fails (int_error v)
  | Raise _ => Ignore
  end.

(** ** The surfaces *)

Definition stream_probe : list setter :=
  [("channel_groups", none_empty); ("auto_sync_groups", as_bool); ("timeout", plain); ("max_concurrent", plain)].
Definition stream_probe_defaults : list (string * pyval) :=
  [("channel_groups", PNone); ("auto_sync_groups", PBool false); ("timeout", PNone); ("max_concurrent", PNone)].

Definition black_screen_scan : list setter :=
  [("sample_duration", plain); ("max_concurrent", plain); ("channel_groups", none_empty); ("auto_sync_groups", as_bool)].
Definition black_screen_scan_defaults : list (string * pyval) :=
  [("sample_duration", PNone); ("max_concurrent", PNone); ("channel_groups", PNone); ("auto_sync_groups", PBool false)].

Definition channel_pipeline : list setter :=
  [("dry_run", plain); ("m3u_account_ids", or_empty); ("rule_ids", or_empty); ("run_on_refresh", plain)].
Definition channel_pipeline_defaults : list (string * pyval) :=
  [("dry_run", PBool false); ("m3u_account_ids", PList []); ("rule_ids", PList []); ("run_on_refresh", PBool false)].

Definition cleanup : list setter :=
  [("probe_history_days", plain); ("task_history_days", plain); ("journal_days", plain);
   ("auto_creation_blob_days", plain); ("health_checks_days", plain); ("notifications_days", plain); ("vacuum_db", plain)].
Definition cleanup_defaults : list (string * pyval) :=
  [("probe_history_days", PInt 30); ("task_history_days", PInt 30); ("journal_days", PInt 90);
   ("auto_creation_blob_days", PInt 30); ("health_checks_days", PInt 7); ("notifications_days", PInt 30);
   ("vacuum_db", PBool true)].

Definition epg_refresh : list setter := [("source_ids", or_empty)].
Definition epg_refresh_defaults : list (string * pyval) := [("source_ids", PList [])].

Definition failed_stream_reprobe : list setter := [("timeout", plain); ("max_concurrent", plain)].
Definition failed_stream_reprobe_defaults : list (string * pyval) := [("timeout", PNone); ("max_concurrent", PNone)].

Definition NOISE_RETENTION_DEFAULT_DAYS : Z := 3.
Definition journal_noise_purge : list setter :=
  [("retention_days", positive_days); ("purge_watch_events", as_bool); ("purge_pipeline_rule_pairs", as_bool);
   ("purge_run_on_refresh_skipped", as_bool); ("purge_task_start_complete", as_bool)].
Definition journal_noise_purge_defaults : list (string * pyval) :=
  [("retention_days", PInt NOISE_RETENTION_DEFAULT_DAYS); ("purge_watch_events", PBool true);
   ("purge_pipeline_rule_pairs", PBool true); ("purge_run_on_refresh_skipped", PBool true);
   ("purge_task_start_complete", PBool true)].

(** [m3u_change_monitor] and [m3u_refresh] have the same surface. *)
Definition m3u_accounts : list setter := [("account_ids", or_empty); ("skip_inactive", plain)].
Definition m3u_accounts_defaults : list (string * pyval) := [("account_ids", PList []); ("skip_inactive", PBool true)].

Definition popularity_calculation : list setter :=
  [("period_days", plain); ("evaluate_rules", plain); ("rules_dry_run", plain)].
Definition popularity_calculation_defaults : list (string * pyval) :=
  [("period_days", PInt 7); ("evaluate_rules", PBool false); ("rules_dry_run", PBool false)].

Definition stats_v2_rollup : list setter :=
  [("raw_retention_days", as_int); ("max_days_per_run", as_int); ("prune_batch_size", as_int)].
Definition stats_v2_rollup_defaults : list (string * pyval) :=
  [("raw_retention_days", PInt 30); ("max_days_per_run", PInt 60); ("prune_batch_size", PInt 50000)].

Definition yaml_backup : list setter := [("sections", plain); ("retention_count", at_least_one)].
Definition yaml_backup_defaults : list (string * pyval) := [("sections", PList []); ("retention_count", PInt 10)].

(** A task class by its [task_id]: its setters, its defaults, and whether it overrides
    [restore_invocation_config] with plain assignments. *)
Record surface := Surface { setters : list setter; defaults : list (string * pyval); overrides : bool }.

Definition surfaces : list (string * surface) :=
  [("stream_probe", Surface stream_probe stream_probe_defaults true);
   ("black_screen_scan", Surface black_screen_scan black_screen_scan_defaults true);
   ("auto_creation", Surface channel_pipeline channel_pipeline_defaults false);
   ("cleanup", Surface cleanup cleanup_defaults false);
   ("epg_refresh", Surface epg_refresh epg_refresh_defaults false);
   ("failed_stream_reprobe", Surface failed_stream_reprobe failed_stream_reprobe_defaults false);
   ("journal_noise_purge", Surface journal_noise_purge journal_noise_purge_defaults false);
   ("m3u_change_monitor", Surface m3u_accounts m3u_accounts_defaults false);
   ("m3u_refresh", Surface m3u_accounts m3u_accounts_defaults false);
   ("popularity_calculation", Surface popularity_calculation popularity_calculation_defaults false);
   ("stats_v2_rollup", Surface stats_v2_rollup stats_v2_rollup_defaults false);
   ("yaml_backup", Surface yaml_backup yaml_backup_defaults false)].

(** A task with nothing to configure ([struck_stream_cleanup], [rule_lint_scan], ...). *)
Definition no_surface : surface := Surface [] [] false.

Definition surface_of (task : string) : surface :=
  default no_surface (snd <$> List.find (fun x => bool_decide (x.1 = task)) surfaces).

Definition default_config (task : string) : dict := list_to_map (defaults (surface_of task)).

Definition update_config (task : string) (intent self : dict) : dict * option string :=
  apply_setters (setters (surface_of task)) intent self.

(** The engine logs what a restore raises. *)
Definition restore_invocation_config (task : string) (snapshot self : dict) : dict :=
  if overrides (surface_of task)
  then (apply_setters (map (fun x => (x.1, plain)) (setters (surface_of task))) snapshot self).1
  else (update_config task snapshot self).1.

(** ** What is stored *)

Definition is_none (v : pyval) : bool := match v with PNone => true | _ => false end.

Definition _strip_unset_config_keys (c : dict) : dict := filter (fun x => is_none x.2 = false) c.

(** [{**previous, **explicit_config}] without the keys that are unset; an empty one is stored
    as null. *)
Definition merge_config (previous : option dict) (explicit_config : dict) : option dict :=
  let merged := _strip_unset_config_keys (explicit_config ∪ default ∅ previous) in
  if (size merged =? 0)%nat then None else Some merged.

(** ** What a surface keeps *)

Definition surface_keys (l : list setter) : gset string := list_to_set (map fst l).

(** A setter takes its own results for what they are. *)
Definition settles (f : pyval -> effect) : Prop := forall v v', f v = Assign v' -> f v' = Assign v'.

(** The configurations a task can have: its attributes, each of which its setter (if it is
    what restores it) takes for what it is. *)
Definition valid (task : string) (c : dict) : Prop :=
  let s := surface_of task in
  dom c = surface_keys (setters s) /\
  (overrides s = false -> forall k f, (k, f) ∈ setters s -> exists v, c !! k = Some v /\ f v = Assign v).

(** A save that the task takes in: it unsets no key, and every setter assigns. *)
Definition accepts (task : string) (intent : dict) : Prop :=
  forall k v, intent !! k = Some v ->
    is_none v = false /\ forall f, (k, f) ∈ setters (surface_of task) -> exists v', f v = Assign v'.

(** The setter of a key. *)
Definition setter_of (l : list setter) (k : string) : option (pyval -> effect) :=
  snd <$> List.find (fun x => bool_decide (x.1 = k)) l.

Lemma setter_of_elem l k f : NoDup (map fst l) -> (k, f) ∈ l <-> setter_of l k = Some f.
Proof.
  unfold setter_of; induction l as [|[k0 g] l IH]; cbn; intros Hnd.
  - split; [intros []%elem_of_nil|discriminate].
  - apply NoDup_cons in Hnd as [Hk0 Hnd]; rewrite elem_of_cons, (IH Hnd).
    case_bool_decide as Hk; cbn in *; [subst|].
    + split; [intros [Heq|Hin]; [now simplify_eq|]|intros; simplify_eq; now left].
      exfalso; apply Hk0; apply (IH Hnd), (Prelude.elem_of_map_2 fst) in Hin; exact Hin.
    + split; [intros [Heq|Hin]; [now simplify_eq|done]|intros; now right].
Qed.

Lemma setter_of_keys l k : setter_of l k = None -> k ∉ (surface_keys l).
Proof.
  unfold setter_of, surface_keys; rewrite elem_of_list_to_set; intros Hn Hin.
  apply list_elem_of_In, in_map_iff in Hin as ([k' f] & <- & Hin); cbn in *.
  destruct (List.find (fun x : setter => bool_decide (x.1 = k')) l) as [?|] eqn:Hf; [unfold setter in Hf; rewrite Hf in Hn; discriminate|].
  pose proof (List.find_none _ _ Hf _ Hin) as Hne; now apply bool_decide_eq_false in Hne.
Qed.

(** What the setters leave in an attribute: what was there, or what the key's setter assigned. *)
Lemma apply_setters_cases l intent self k : NoDup (map fst l) ->
  (apply_setters l intent self).1 !! k = self !! k \/
  exists f v v', setter_of l k = Some f /\ intent !! k = Some v /\ f v = Assign v' /\
    (apply_setters l intent self).1 !! k = Some v'.
Proof.
  unfold setter_of; revert self; induction l as [|[k0 f] l IH]; intros self Hnd; [now left|].
  cbn [map fst] in Hnd; apply NoDup_cons in Hnd as [Hk0 Hnd]; cbn [apply_setters List.find fst].
  destruct (intent !! k0) as [v|] eqn:Hv; [destruct (f v) as [v'| |e] eqn:Hf|];
    [pose proof (IH (<[k0:=v']> self) Hnd) as IH'|pose proof (IH self Hnd) as IH'|now left|pose proof (IH self Hnd) as IH'].
  all: destruct (bool_decide (k0 = k)) eqn:Hk; to_prop; [subst k0|]; cbn [snd fmap option_fmap option_map] in *.
  all: destruct IH' as [Heq|(g & w & w' & Hg & Hr)];
    [|try (exfalso; apply Hk0; apply (setter_of_elem _ _ _ Hnd), (Prelude.elem_of_map_2 fst) in Hg; exact Hg); right; eauto].
  all: rewrite ?lookup_insert_eq in Heq; rewrite ?lookup_insert_ne in Heq by done; rewrite Heq; eauto 8.
Qed.

(** When every setter assigns, every named key that has a setter is assigned. *)
Lemma apply_setters_lookup l intent self k : NoDup (map fst l) ->
  (forall k v f, intent !! k = Some v -> (k, f) ∈ l -> exists v', f v = Assign v') ->
  (apply_setters l intent self).1 !! k =
  match setter_of l k, intent !! k with
  | Some f, Some v => match f v with Assign v' => Some v' | _ => None end
  | _, _ => self !! k
  end.
Proof.
  unfold setter_of; revert self; induction l as [|[k0 f] l IH]; intros self Hnd Ha; [reflexivity|].
  cbn [map fst] in Hnd; apply NoDup_cons in Hnd as [Hk0 Hnd]; cbn [apply_setters List.find fst].
  assert (Ha' : forall k v f, intent !! k = Some v -> (k, f) ∈ l -> exists v', f v = Assign v')
    by (intros; eapply Ha; [eassumption|now right]).
  assert (Hn : setter_of l k0 = None).
  { destruct (setter_of l k0) as [g|] eqn:Hg; [|done].
    apply (setter_of_elem _ _ _ Hnd), (Prelude.elem_of_map_2 fst) in Hg; done. }
  destruct (intent !! k0) as [v|] eqn:Hv.
  - destruct (Ha k0 v f Hv ltac:(now left)) as [v' Hf]; rewrite Hf, (IH _ Hnd Ha').
    destruct (bool_decide (k0 = k)) eqn:Hk; to_prop; [subst k0|].
    + unfold setter_of in Hn; rewrite Hn; cbn; now rewrite Hv, Hf, lookup_insert_eq.
    + rewrite lookup_insert_ne by assumption; reflexivity.
  - rewrite (IH _ Hnd Ha'); destruct (bool_decide (k0 = k)) eqn:Hk; to_prop; [subst k0|reflexivity].
    unfold setter_of in Hn; rewrite Hn; cbn; now rewrite Hv.
Qed.

Lemma apply_setters_accepted l intent self :
  (forall k v f, intent !! k = Some v -> (k, f) ∈ l -> exists v', f v = Assign v') -> (apply_setters l intent self).2 = None.
Proof.
  revert self; induction l as [|[k f] l IH]; intros self Ha; [reflexivity|]; cbn.
  assert (Ha' : forall k v f, intent !! k = Some v -> (k, f) ∈ l -> exists v', f v = Assign v')
    by (intros; eapply Ha; [eassumption|now right]).
  destruct (intent !! k) as [v|] eqn:Hv; [|now apply IH].
  destruct (Ha k v f Hv ltac:(now left)) as [v' ->]; now apply IH.
Qed.

Lemma plain_settles : settles plain.
Proof. now intros v v' [= ->]. Qed.
Lemma or_empty_settles : settles or_empty.
Proof. intros v v' [= <-]; unfold or_empty; destruct (truthy v) eqn:Hv; [now rewrite Hv|reflexivity]. Qed.
Lemma none_empty_settles : settles none_empty.
Proof. intros v v' [= <-]; now destruct v. Qed.
Lemma as_bool_settles : settles as_bool.
Proof. now intros v v' [= <-]. Qed.
Lemma as_int_settles : settles as_int.
Proof. intros v v'; unfold as_int; destruct (PipelineWritePlan.int_of v); [now intros [= <-]|discriminate]. Qed.
Lemma at_least_one_settles : settles at_least_one.
Proof.
  intros v v'; unfold at_least_one; destruct (PipelineWritePlan.int_of v); [intros [= <-]|discriminate].
  cbn [PipelineWritePlan.int_of]; do 2 f_equal; lia.
Qed.
Lemma positive_days_settles : settles positive_days.
Proof.
  intros v v'; unfold positive_days; destruct (PipelineWritePlan.int_of v) as [n|[]]; try discriminate.
  destruct (1 <=? n) eqn:Hn; [intros [= <-]|discriminate]; cbn; now rewrite Hn.
Qed.

Create HintDb setters.
#[export] Hint Resolve plain_settles or_empty_settles none_empty_settles as_bool_settles as_int_settles
  at_least_one_settles positive_days_settles : setters.

(** What every surface of the table satisfies. *)
Record surface_ok (s : surface) : Prop := {
  keys_distinct : NoDup (map fst (setters s));
  all_settle : Forall (fun x => settles x.2) (setters s);
  default_keys : map fst (defaults s) = map fst (setters s);
  defaults_settle : overrides s = false -> Forall2 (fun x y => y.2 x.2 = Assign x.2) (defaults s) (setters s) }.

Ltac check_surface :=
  split; cbn [snd setters defaults overrides];
  [refine (bool_decide_unpack _ _); vm_compute; exact I
  |repeat constructor; cbn; auto with setters
  |reflexivity
  |first [discriminate|intros _; repeat constructor]].

Lemma surfaces_ok : Forall (fun x => surface_ok x.2) surfaces.
Proof. unfold surfaces; repeat (apply Forall_cons_2; [check_surface|]); apply Forall_nil_2. Qed.

Lemma surface_of_ok task : surface_ok (surface_of task).
Proof.
  unfold surface_of; destruct (List.find _ surfaces) as [[t s]|] eqn:Hf.
  - apply List.find_some in Hf as [Hin _]; apply list_elem_of_In in Hin.
    pose proof surfaces_ok as Hok; rewrite Forall_forall in Hok; exact (Hok _ Hin).
  - split; cbn; constructor.
Qed.

Lemma settles_of task k f : (k, f) ∈ setters (surface_of task) -> settles f.
Proof. intros Hin; pose proof (all_settle _ (surface_of_ok task)) as Ha; rewrite Forall_forall in Ha; exact (Ha _ Hin). Qed.

Lemma default_dom task : (dom (default_config task) : gset string) = surface_keys (setters (surface_of task)).
Proof.
  unfold default_config; rewrite dom_list_to_map_L; unfold surface_keys; f_equal.
  exact (default_keys _ (surface_of_ok task)).
Qed.

Lemma default_settles task : overrides (surface_of task) = false ->
  forall k f, (k, f) ∈ setters (surface_of task) -> exists v, default_config task !! k = Some v /\ f v = Assign v.
Proof.
  intros Ho k f Hin; destruct (surface_of_ok task) as [Hnd _ Hk Hd]; specialize (Hd Ho); unfold default_config.
  assert (Hex : exists v, (k, v) ∈ defaults (surface_of task) /\ f v = Assign v).
  { clear Hnd; revert Hk Hin; induction Hd as [|[k1 v1] [k2 f2] l l' Hv Hd IH]; cbn; intros Hk Hin; [now apply elem_of_nil in Hin|].
    injection Hk as -> Hk; apply elem_of_cons in Hin as [[= -> ->]|Hin]; [exists v1; split; [now left|done]|].
    destruct (IH Hk Hin) as (v & ? & ?); exists v; split; [now right|done]. }
  destruct Hex as (v & Hv & Hf); exists v; split; [|exact Hf].
  apply elem_of_list_to_map_1; [|exact Hv]; change (NoDup (map fst (defaults (surface_of task)))); now rewrite Hk.
Qed.

(** ** The laws *)

Lemma default_config_valid task : valid task (default_config task).
Proof. split; [apply default_dom|intros; now apply default_settles]. Qed.

Lemma apply_setters_dom l intent self : NoDup (map fst l) ->
  surface_keys l ⊆ dom self -> (dom (apply_setters l intent self).1 : gset string) = dom self.
Proof.
  intros Hnd Hsub; apply set_eq; intros k; rewrite !elem_of_dom.
  destruct (apply_setters_cases l intent self k Hnd) as [->|(f & v & v' & Hf & _ & _ & ->)]; [done|].
  split; [intros _|eauto]; apply elem_of_dom, Hsub; apply elem_of_list_to_set.
  apply (setter_of_elem _ _ _ Hnd), (Prelude.elem_of_map_2 fst) in Hf; exact Hf.
Qed.

Lemma update_config_valid task p c : valid task c -> valid task (update_config task p c).1.
Proof.
  intros [Hdom Hs]; pose proof (keys_distinct _ (surface_of_ok task)) as Hnd; split.
  - unfold update_config; rewrite apply_setters_dom; [exact Hdom|exact Hnd|now rewrite Hdom].
  - intros Ho k f Hin; unfold update_config.
    destruct (apply_setters_cases (setters (surface_of task)) p c k Hnd) as [->|(g & v & v' & Hg & _ & Hv & ->)];
      [now apply Hs|].
    apply (setter_of_elem _ _ _ Hnd) in Hin as Hf; rewrite Hf in Hg; injection Hg as <-.
    exists v'; split; [done|]; exact (settles_of _ _ _ Hin _ _ Hv).
Qed.

(** Plain assignments from a snapshot with the surface's keys give the snapshot. *)
Lemma assign_all l (snapshot c : dict) : NoDup (map fst l) ->
  (forall k f, (k, f) ∈ l -> exists v, snapshot !! k = Some v /\ f v = Assign v) ->
  (dom snapshot : gset string) = surface_keys l -> (dom c : gset string) = surface_keys l ->
  (apply_setters l snapshot c).1 = snapshot.
Proof.
  intros Hnd Hs Hd Hc; apply map_eq; intros k; rewrite apply_setters_lookup; [|exact Hnd|].
  - destruct (setter_of l k) as [f|] eqn:Hf.
    + apply (setter_of_elem _ _ _ Hnd) in Hf; destruct (Hs k f Hf) as (v & -> & ->); reflexivity.
    + apply setter_of_keys in Hf; transitivity (@None pyval); [|symmetry]; apply not_elem_of_dom; [rewrite Hc|rewrite Hd]; exact Hf.
  - intros k' v f Hv Hf; destruct (Hs k' f Hf) as (v' & Hv' & Ha); rewrite Hv in Hv'; injection Hv' as <-; eauto.
Qed.

Lemma restore_restores task snapshot c : valid task snapshot -> valid task c -> restore_invocation_config task snapshot c = snapshot.
Proof.
  intros [Hd Hs] [Hc _]; pose proof (keys_distinct _ (surface_of_ok task)) as Hnd; unfold restore_invocation_config.
  destruct (overrides (surface_of task)) eqn:Ho; [|now apply assign_all; auto].
  set (l := map (fun x => (x.1, plain)) (setters (surface_of task))).
  assert (Hl : map fst l = map fst (setters (surface_of task)))
    by (unfold l; rewrite map_map; now apply map_ext).
  apply assign_all; [now rewrite Hl| |unfold surface_keys; now rewrite Hl|unfold surface_keys; now rewrite Hl].
  intros k f Hin; apply (Prelude.elem_of_map_2 fst) in Hin as Hk; rewrite Hl in Hk.
  apply Prelude.elem_of_map in Hin as (x & [= -> ->] & _); cbn in Hk.
  assert (Hk' : x.1 ∈ (dom snapshot : gset string)) by (rewrite Hd; now apply elem_of_list_to_set).
  apply elem_of_dom in Hk' as [v Hv]; now exists v.
Qed.

Lemma update_accepted task p c : accepts task p -> (update_config task p c).2 = None.
Proof. intros Ha; apply apply_setters_accepted; intros k v f Hv Hf; now apply (Ha k v Hv). Qed.

Lemma accepts_union task p q : accepts task p -> accepts task q -> accepts task (p ∪ q).
Proof.
  intros Hp Hq k v Hv; apply lookup_union_Some_raw in Hv as [Hv|[_ Hv]]; [now apply Hp|now apply Hq].
Qed.

Lemma strip_accepted task p : accepts task p -> _strip_unset_config_keys p = p.
Proof. intros Hp; apply map_filter_id; intros k v Hv; cbn; now apply (Hp k v). Qed.

Lemma accepts_saved task saved : (forall q : dict, saved = Some q -> accepts task q) -> accepts task (default ∅ saved).
Proof. intros Hs; destruct saved as [q|]; [now apply Hs|]; intros k v Hv; cbn in Hv; now rewrite lookup_empty in Hv. Qed.

Lemma merge_config_accepted task saved p q :
  (forall q, saved = Some q -> accepts task q) -> accepts task p -> merge_config saved p = Some q -> accepts task q.
Proof.
  intros Hs Hp; unfold merge_config; pose proof (accepts_union _ _ _ Hp (accepts_saved _ _ Hs)) as Hu.
  rewrite (strip_accepted _ _ Hu); destruct (_ =? _)%nat; [discriminate|now intros [= <-]].
Qed.

(** Saves one after the other give what their merge gives. *)
Lemma update_merged task p q c : accepts task p -> accepts task q ->
  (update_config task (p ∪ q) c).1 = (update_config task p (update_config task q c).1).1.
Proof.
  intros Hp Hq; pose proof (keys_distinct _ (surface_of_ok task)) as Hnd; unfold update_config.
  apply map_eq; intros k; rewrite !apply_setters_lookup by (try exact Hnd; intros k' v f Hv Hf;
    first [now apply (Hp k' v)|now apply (Hq k' v)|now apply (accepts_union _ _ _ Hp Hq k' v)]).
  destruct (setter_of (setters (surface_of task)) k) as [f|] eqn:Hf; [|reflexivity].
  destruct (p !! k) as [v|] eqn:Hv; [now rewrite (lookup_union_Some_l _ _ _ _ Hv)|].
  rewrite (lookup_union_r _ _ _ Hv); reflexivity.
Qed.

Lemma update_empty task c : (update_config task ∅ c).1 = c.
Proof.
  apply map_eq; intros k; unfold update_config; pose proof (keys_distinct _ (surface_of_ok task)) as Hnd.
  destruct (apply_setters_cases (setters (surface_of task)) ∅ c k Hnd) as [->|(f & v & v' & _ & Hv & _)]; [done|].
  now rewrite lookup_empty in Hv.
Qed.

Lemma merge_config_applies task saved p : (forall q, saved = Some q -> accepts task q) -> accepts task p ->
  match merge_config saved p with Some q => (update_config task q (default_config task)).1 | None => default_config task end =
  (update_config task p (match saved with Some q => (update_config task q (default_config task)).1 | None => default_config task end)).1.
Proof.
  intros Hs Hp; pose proof (accepts_saved _ _ Hs) as Hd; pose proof (accepts_union _ _ _ Hp Hd) as Hu.
  transitivity ((update_config task (p ∪ default ∅ saved) (default_config task)).1).
  - unfold merge_config; rewrite (strip_accepted _ _ Hu).
    destruct (_ =? _)%nat eqn:He; [|reflexivity]; to_prop; apply map_size_empty_inv in He; now rewrite He, update_empty.
  - rewrite (update_merged _ _ _ _ Hp Hd); destruct saved; cbn; [reflexivity|now rewrite update_empty].
Qed.

End TaskConfigs.

(** ** The instance *)

Section instance.
Import TaskConfigs.
Variable zones : string -> option Schedule.zone.
Variable now_in : Z -> Schedule.zone -> Schedule.local.

(** The engine's call of the calculator passes no week parity. *)
Definition engine_next_run (s : Schedule.schedule) (last_run : option Z) (now : Z) : option (option Z) :=
  let s := Schedule.Build_schedule (Schedule.schedule_type s) (Schedule.interval_seconds s) (Schedule.schedule_time s)
             (Schedule.timezone s) (Schedule.days_of_week s) (Schedule.day_of_month s) None in
  match Schedule.calculate_next_run zones now (now_in now) s last_run with Ok n => Some n | Raise _ => None end.

#[export] Instance tasks : TaskEngine.Tasks := {|
  TaskEngine.config := dict; TaskEngine.params := dict; TaskEngine.spec := Schedule.schedule;
  TaskEngine.default_config := default_config;
  TaskEngine.prepare_parameters := fun _ _ _ p => p;
  TaskEngine.update_config := update_config;
  TaskEngine.restore_invocation_config := restore_invocation_config;
  TaskEngine.persist_config := fun _ => true;
  TaskEngine.merge_config := merge_config;
  TaskEngine.calculate_next_run := engine_next_run |}.

#[export] Instance task_laws : TaskEngine.TaskLaws := {|
  TaskEngine.valid := valid; TaskEngine.accepts := accepts;
  TaskEngine.default_valid := default_config_valid;
  TaskEngine.update_valid := update_config_valid;
  TaskEngine.restores := restore_restores;
  TaskEngine.accepted := update_accepted;
  TaskEngine.merge_accepted := merge_config_accepted;
  TaskEngine.merge_applies := merge_config_applies |}.

End instance.
