(* ===== verification/TaskTheorems.v ===== *)
(** * The theorems of the task engine: one run per task, what a run leaves behind in its task's
    configuration and in the history, which due schedules a tick starts, and the engine with the
    task surfaces of [TaskConfigs]. *)
From S2P Require Import Prelude PyValue PyDatetime Schedule TaskEngine TaskConfigs.
From stdpp Require Import functions list gmap strings.
Open Scope Z_scope.

Module TaskInvariant.
Import TaskEngine.

Section invariant.
Context {tasks : Tasks} {laws : TaskLaws}.

(** The run [r] of task [t] is in progress, in coroutine [p]. *)
Definition holds (s : engine) (p : nat) (t : string) (r : run) : Prop :=
  exists c, coroutines s !! p = Some c /\ p_run c = Some r /\ p_task c = t.

Definition executing (g : stage) : bool := match g with Executing => true | _ => false end.
(** The row of the run is still ["running"]. *)
Definition unrecorded (g : stage) : bool := match g with Ending _ => false | _ => true end.

Definition running_row (x : execution) : Prop := x_status x = "running".

(** [b] gives the configuration that the saves made of each task. *)
Record Inv (b : string -> config) (s : engine) : Prop := {
  ids_below : forall p, is_Some (coroutines s !! p) -> (p < next_coroutine s)%nat;
  run_active : forall p t r, holds s p t r -> t ∈ active_tasks s /\
    exists i, instances s !! t = Some i /\ i_running i = executing (r_stage r);
  active_run : forall t, t ∈ active_tasks s -> exists p r, holds s p t r;
  one_run : forall p q t r r', holds s p t r -> holds s q t r' -> p = q;
  idle_task : forall t i, instances s !! t = Some i -> t ∉ active_tasks s -> i_running i = false /\ i_config i = b t;
  snapshot : forall p t r, holds s p t r -> r_snapshot r = b t;
  baseline_valid : forall t, valid t (b t);
  instance_valid : forall t i, instances s !! t = Some i -> valid t (i_config i);
  rows_distinct : NoDup (map x_id (executions s));
  rows_below : forall x, x ∈ executions s -> x_id x < next_execution s;
  run_row : forall p t r, holds s p t r -> exists x, x ∈ executions s /\ x_id x = r_execution r /\ x_task x = t /\
    (running_row x <-> unrecorded (r_stage r) = true);
  row_run : forall x, x ∈ executions s -> running_row x -> exists p r, holds s p (x_task x) r /\ r_execution r = x_id x }.

Lemma holds_inj s p t t' r r' : holds s p t r -> holds s p t' r' -> t = t' /\ r = r'.
Proof. intros (c & Hc & Hr & <-) (c' & Hc' & Hr' & <-); rewrite Hc in Hc'; injection Hc' as <-; split; congruence. Qed.

Lemma holds_insert (m : gmap nat coroutine) s p c q t r :
  holds (with_coroutines (<[p := c]> m) s) q t r <->
  (q = p /\ p_run c = Some r /\ p_task c = t) \/ (q <> p /\ holds (with_coroutines m s) q t r).
Proof.
  unfold holds; cbn; destruct (decide (q = p)) as [->|Hne].
  - rewrite lookup_insert_eq; split; [intros (c' & [= <-] & ?); now left|intros [(_ & ?)|[[] _]]; eauto; done].
  - rewrite lookup_insert_ne by done; split; [intros H; now right|intros [[] |[_ H]]; done].
Qed.

Lemma holds_delete s p q t r :
  holds (with_coroutines (delete p (coroutines s)) s) q t r <-> q <> p /\ holds s q t r.
Proof.
  unfold holds; cbn; destruct (decide (q = p)) as [->|Hne].
  - rewrite lookup_delete_eq; split; [intros (c' & [=] & _)|now intros [[] _]].
  - rewrite lookup_delete_ne by done; split; [now intros H|now intros [_ H]].
Qed.

(** The steps that neither touch tasks nor rows, and keep the runs in progress. *)
Lemma Inv_frame b s s' : Inv b s ->
  active_tasks s' = active_tasks s -> instances s' = instances s -> executions s' = executions s ->
  next_execution s' = next_execution s -> (forall p t r, holds s' p t r <-> holds s p t r) ->
  (forall p, is_Some (coroutines s' !! p) -> (p < next_coroutine s')%nat) -> Inv b s'.
Proof.
  intros [] Ha Hi Hx Hn Hh Hid; split; rewrite ?Ha, ?Hi, ?Hx, ?Hn; auto.
  - intros p t r Hr; apply Hh in Hr; eauto.
  - intros t Ht; destruct (active_run0 t Ht) as (p & r & Hr); exists p, r; now apply Hh.
  - intros p q t r r' Hr Hr'; apply Hh in Hr, Hr'; eauto.
  - intros p t r Hr; apply Hh in Hr; eauto.
  - intros p t r Hr; apply Hh in Hr; eauto.
  - intros x Hin Hrun; destruct (row_run0 x Hin Hrun) as (p & r & Hr & He); exists p, r; split; [now apply Hh|done].
Qed.

(** A coroutine with no run comes or goes. *)
Lemma Inv_forget b s p : Inv b s -> (forall t r, ~ holds s p t r) ->
  Inv b (with_coroutines (delete p (coroutines s)) s).
Proof.
  intros HI Hn; apply (Inv_frame b s); try done.
  - intros q t r; rewrite holds_delete; split; [now intros [_ ?]|intros Hr; split; [intros ->; now apply (Hn t r)|done]].
  - intros q; cbn; rewrite lookup_delete_is_Some; intros [_ Hq]; exact (ids_below _ _ HI q Hq).
Qed.

Lemma Inv_spawn b s c : Inv b s -> p_run c = None -> Inv b (spawn c s).
Proof.
  intros HI Hc; apply (Inv_frame b s); try done.
  - intros q t r; unfold holds; cbn; destruct (decide (q = next_coroutine s)) as [->|Hne].
    + rewrite lookup_insert_eq; split; [intros (c' & [= <-] & Hr & _); congruence|].
      intros (c' & Hc' & _); exfalso; pose proof (ids_below _ _ HI (next_coroutine s) (ex_intro _ _ Hc')); lia.
    + now rewrite lookup_insert_ne by done.
  - intros q; cbn; rewrite lookup_insert_is_Some; intros [<-|[_ Hq]]; [lia|].
    pose proof (ids_below _ _ HI q Hq); lia.
Qed.

(** A run begins. *)
Lemma Inv_begin b s s' p t i i' r x :
  Inv b s -> (forall t r, ~ holds s p t r) -> (p < next_coroutine s')%nat -> next_coroutine s' = next_coroutine s ->
  t ∉ active_tasks s -> instances s !! t = Some i ->
  active_tasks s' = {[t]} ∪ active_tasks s -> instances s' = <[t := i']> (instances s) ->
  i_running i' = executing (r_stage r) -> valid t (i_config i') -> r_snapshot r = i_config i ->
  executions s' = executions s ++ [x] -> next_execution s' = next_execution s + 1 ->
  x_id x = next_execution s -> r_execution r = x_id x -> x_task x = t -> (running_row x <-> unrecorded (r_stage r) = true) ->
  (forall q t' r', holds s' q t' r' <-> (q = p /\ t' = t /\ r' = r) \/ (q <> p /\ holds s q t' r')) ->
  (forall q, is_Some (coroutines s' !! q) -> q = p \/ is_Some (coroutines s !! q)) -> Inv b s'.
Proof.
  intros HI Hp Hlt Hnc Hact Hi Ha Hins Hrun Hval Hsnap Hx Hnx Hxid Hre Hxt Hrow Hh Hco.
  assert (Hother : forall q t' r', holds s q t' r' -> t' <> t) by (intros q t' r' Hr ->; now apply run_active with (1 := HI) in Hr as [? _]).
  destruct HI; split; rewrite ?Ha, ?Hins, ?Hx, ?Hnx.
  - intros q Hq; apply Hco in Hq as [->|Hq]; [done|]; rewrite Hnc; auto.
  - intros q t' r' Hr; apply Hh in Hr as [(-> & -> & ->)|[_ Hr]].
    + split; [set_solver|]; exists i'; now rewrite lookup_insert_eq.
    + pose proof (Hother _ _ _ Hr); apply run_active0 in Hr as (? & i1 & ? & ?); split; [set_solver|].
      exists i1; now rewrite lookup_insert_ne.
  - intros t'; rewrite elem_of_union, elem_of_singleton; intros [->|Ht'].
    + exists p, r; apply Hh; auto.
    + destruct (active_run0 t' Ht') as (q & r' & Hr); exists q, r'; apply Hh; right; split; [|done].
      intros ->; now apply (Hp t' r').
  - intros q q' t' r1 r2 H1 H2; apply Hh in H1, H2.
    destruct H1 as [(-> & -> & _)|[_ H1]], H2 as [(-> & Heq & _)|[_ H2]]; [done| | |eauto].
    + now destruct (Hother _ _ _ H2).
    + now destruct (Hother _ _ _ H1).
  - intros t' i1; destruct (decide (t' = t)) as [->|Hne]; [set_solver|].
    rewrite lookup_insert_ne by done; intros ? Hn; apply idle_task0; [done|set_solver].
  - intros q t' r' Hr; apply Hh in Hr as [(-> & -> & ->)|[_ Hr]]; [|eauto].
    rewrite Hsnap; now apply idle_task0.
  - done.
  - intros t' i1; destruct (decide (t' = t)) as [->|Hne];
      [rewrite lookup_insert_eq; now intros [= <-]|rewrite lookup_insert_ne by done; eauto].
  - rewrite map_app; cbn; apply NoDup_app; split; [done|split; [|apply NoDup_singleton]].
    intros n Hin; rewrite list_elem_of_singleton; intros ->; apply Prelude.elem_of_map in Hin as (y & Hy & Hin).
    apply rows_below0 in Hin; lia.
  - intros y; rewrite elem_of_app, list_elem_of_singleton; intros [Hy| ->]; [apply rows_below0 in Hy|]; lia.
  - intros q t' r' Hr; apply Hh in Hr as [(-> & -> & ->)|[_ Hr]].
    + exists x; rewrite elem_of_app, list_elem_of_singleton; auto.
    + destruct (run_row0 _ _ _ Hr) as (y & Hy & ?); exists y; rewrite elem_of_app; auto.
  - intros y; rewrite elem_of_app, list_elem_of_singleton; intros [Hy| ->] Hyr.
    + destruct (row_run0 y Hy Hyr) as (q & r' & Hr & He); exists q, r'; split; [apply Hh|done]; right; split; [|done].
      intros ->; now apply (Hp _ _ Hr).
    + exists p, r; split; [apply Hh; auto|done].
Qed.

(** ** Rows *)

Lemma elem_of_set_row id f l x :
  x ∈ set_row id f l <-> exists y, y ∈ l /\ x = if x_id y =? id then f y else y.
Proof. unfold set_row; rewrite Prelude.elem_of_map; split; intros (y & ? & ?); exists y; split; done. Qed.

Lemma set_row_ids id f l : (forall y, x_id (f y) = x_id y) -> map x_id (set_row id f l) = map x_id l.
Proof.
  intros Hf; unfold set_row; rewrite map_map; apply map_ext; intros y; destruct (_ =? _); [apply Hf|done].
Qed.

Lemma same_row l x y : NoDup (map x_id l) -> x ∈ l -> y ∈ l -> x_id x = x_id y -> x = y.
Proof.
  induction l as [|z l IH]; cbn; [now intros _ []%elem_of_nil|]; intros [Hz Hnd]%NoDup_cons Hx Hy He.
  apply elem_of_cons in Hx as [->|Hx], Hy as [->|Hy]; [done| | |now apply IH].
  - exfalso; apply Hz; rewrite He; now apply Prelude.elem_of_map_2.
  - exfalso; apply Hz; rewrite <- He; now apply Prelude.elem_of_map_2.
Qed.

Lemma other_row b s p q t t' r r' : Inv b s -> holds s p t r -> holds s q t' r' -> q <> p -> r_execution r' <> r_execution r.
Proof.
  intros HI Hr Hr' Hne He; destruct (run_row _ _ HI _ _ _ Hr) as (x & Hx & Hxi & Hxt & _).
  destruct (run_row _ _ HI _ _ _ Hr') as (y & Hy & Hyi & Hyt & _).
  pose proof (same_row _ _ _ (rows_distinct _ _ HI) Hx Hy ltac:(congruence)) as ->.
  apply Hne, (one_run _ _ HI q p t r' r); congruence.
Qed.

(** The rows after [f] rewrote that of the run of [p], whose stage is now [g] (or which is
    over, [None]). *)
Lemma rows_rewritten b s p t r f (g : option stage) : Inv b s -> holds s p t r ->
  (forall y, x_id (f y) = x_id y /\ x_task (f y) = x_task y) ->
  (forall y, y ∈ executions s -> x_id y = r_execution r -> running_row (f y) <-> (unrecorded <$> g) = Some true) ->
  let l := set_row (r_execution r) f (executions s) in
  NoDup (map x_id l) /\ (forall x, x ∈ l -> x_id x < next_execution s) /\
  (forall q t' r', q <> p -> holds s q t' r' ->
     exists x, x ∈ l /\ x_id x = r_execution r' /\ x_task x = t' /\ (running_row x <-> unrecorded (r_stage r') = true)) /\
  (forall g', g = Some g' ->
     exists x, x ∈ l /\ x_id x = r_execution r /\ x_task x = t /\ (running_row x <-> unrecorded g' = true)) /\
  (forall x, x ∈ l -> running_row x ->
     (x_id x = r_execution r /\ x_task x = t /\ is_Some g) \/ exists q r', q <> p /\ holds s q (x_task x) r' /\ r_execution r' = x_id x).
Proof.
  intros HI Hr Hf Hg l; destruct (run_row _ _ HI _ _ _ Hr) as (x0 & Hx0 & Hid0 & Ht0 & _); split_and!.
  - unfold l; rewrite set_row_ids; [exact (rows_distinct _ _ HI)|intros; apply Hf].
  - intros x (y & Hy & ->)%elem_of_set_row; apply (rows_below _ _ HI) in Hy.
    destruct (_ =? _); [rewrite (proj1 (Hf y))|]; done.
  - intros q t' r' Hne Hr'; destruct (run_row _ _ HI _ _ _ Hr') as (y & Hy & Hyi & ? & ?).
    exists y; split_and!; try done; apply elem_of_set_row; exists y; split; [done|].
    pose proof (other_row _ _ _ _ _ _ _ _ HI Hr Hr' Hne); rewrite Hyi.
    now rewrite (proj2 (Z.eqb_neq _ _)).
  - intros g' ->; exists (f x0); destruct (Hf x0) as [Hfi Hft]; split_and!; try congruence.
    + apply elem_of_set_row; exists x0; split; [done|]; now rewrite Hid0, Z.eqb_refl.
    + rewrite (Hg x0 Hx0 Hid0); cbn; split; congruence.
  - intros x (y & Hy & ->)%elem_of_set_row; destruct (x_id y =? r_execution r) eqn:He; to_prop; intros Hrun.
    + left; pose proof (same_row _ _ _ (rows_distinct _ _ HI) Hx0 Hy ltac:(congruence)) as ->.
      destruct (Hf y) as [Hfi Hft]; split_and!; try congruence.
      apply (Hg y Hy He) in Hrun; destruct g; [now eexists|discriminate].
    + right; destruct (row_run _ _ HI y Hy Hrun) as (q & r' & Hr' & He'); exists q, r'; split_and!; try done.
      intros ->; destruct (holds_inj _ _ _ _ _ _ Hr Hr') as [_ <-]; congruence.
Qed.

(** ** A run goes on, or ends *)

Lemma Inv_change b s s' p t r r' i i' f : Inv b s -> holds s p t r -> instances s !! t = Some i ->
  r_execution r' = r_execution r -> r_snapshot r' = r_snapshot r ->
  i_config i' = i_config i -> i_running i' = executing (r_stage r') ->
  (forall y, x_id (f y) = x_id y /\ x_task (f y) = x_task y) ->
  (forall y, y ∈ executions s -> x_id y = r_execution r -> running_row (f y) <-> unrecorded (r_stage r') = true) ->
  active_tasks s' = active_tasks s -> instances s' = <[t := i']> (instances s) ->
  executions s' = set_row (r_execution r) f (executions s) -> next_execution s' = next_execution s ->
  next_coroutine s' = next_coroutine s ->
  (forall q t' r1, holds s' q t' r1 <-> (q = p /\ t' = t /\ r1 = r') \/ (q <> p /\ holds s q t' r1)) ->
  (forall q, is_Some (coroutines s' !! q) -> is_Some (coroutines s !! q)) -> Inv b s'.
Proof.
  intros HI Hr Hi Hex Hsn Hcf Hrun Hf Hg Ha Hins Hx Hnx Hnc Hh Hco.
  destruct (rows_rewritten b s p t r f (Some (r_stage r')) HI Hr Hf) as (Hd & Hb & Hrr & Hrg & Hrun').
  { intros y Hy He; rewrite (Hg y Hy He); cbn; split; congruence. }
  assert (Hother : forall q t' r1, q <> p -> holds s q t' r1 -> t' <> t)
    by (intros q t' r1 Hne Hq ->; now apply Hne, (one_run _ _ HI q p t r1 r)).
  destruct HI; split; rewrite ?Ha, ?Hins, ?Hx, ?Hnx, ?Hnc; auto.
  - intros q t' r1 Hq; apply Hh in Hq as [(-> & -> & ->)|[Hne Hq]].
    + split; [now apply (run_active0 p t r)|]; exists i'; now rewrite lookup_insert_eq.
    + pose proof (Hother _ _ _ Hne Hq); rewrite lookup_insert_ne by done; now apply (run_active0 q).
  - intros t' Ht'; destruct (active_run0 t' Ht') as (q & r1 & Hq).
    destruct (decide (q = p)) as [->|Hne]; [|exists q, r1; apply Hh; auto].
    exists p, r'; apply Hh; left; destruct (holds_inj _ _ _ _ _ _ Hr Hq); auto.
  - intros q q' t' r1 r2 H1 H2; apply Hh in H1, H2.
    destruct H1 as [(-> & -> & _)|[Hn1 H1]], H2 as [(-> & Heq & _)|[Hn2 H2]]; [done| | |eauto].
    + now destruct (Hother _ _ _ Hn2 H2).
    + now destruct (Hother _ _ _ Hn1 H1).
  - intros t' i1; destruct (decide (t' = t)) as [->|Hne]; [|rewrite lookup_insert_ne by done; auto].
    intros _ Hn; destruct (run_active0 _ _ _ Hr); contradiction.
  - intros q t' r1 Hq; apply Hh in Hq as [(-> & -> & ->)|[_ Hq]]; [|eauto].
    rewrite Hsn; eauto.
  - intros t' i1; destruct (decide (t' = t)) as [->|Hne]; [|rewrite lookup_insert_ne by done; eauto].
    rewrite lookup_insert_eq; intros [= <-]; rewrite Hcf; eauto.
  - intros q t' r1 Hq; apply Hh in Hq as [(-> & -> & ->)|[Hne Hq]]; [|eauto].
    rewrite Hex; eauto.
  - intros x Hin Hxr; destruct (Hrun' x Hin Hxr) as [(Hid & Htk & _)|(q & r1 & Hne & Hq & He)].
    + exists p, r'; rewrite Hex; split; [apply Hh; auto|done].
    + exists q, r1; split; [apply Hh; auto|done].
Qed.

Lemma Inv_end b s s' p t r i i' f : Inv b s -> holds s p t r -> instances s !! t = Some i ->
  i_running i = false -> i_running i' = false -> i_config i' = b t ->
  (forall y, x_id (f y) = x_id y /\ x_task (f y) = x_task y) ->
  (forall y, y ∈ executions s -> x_id y = r_execution r -> ~ running_row (f y)) ->
  active_tasks s' = active_tasks s ∖ {[t]} -> instances s' = <[t := i']> (instances s) ->
  executions s' = set_row (r_execution r) f (executions s) -> next_execution s' = next_execution s ->
  next_coroutine s' = next_coroutine s ->
  (forall q t' r1, holds s' q t' r1 <-> (q <> p /\ holds s q t' r1)) ->
  (forall q, is_Some (coroutines s' !! q) -> is_Some (coroutines s !! q)) -> Inv b s'.
Proof.
  intros HI Hr Hi Hst Hst' Hcf Hf Hg Ha Hins Hx Hnx Hnc Hh Hco.
  destruct (rows_rewritten b s p t r f None HI Hr Hf) as (Hd & Hb & Hrr & _ & Hrun').
  { intros y Hy He; split; [intros Hrun; now destruct (Hg y Hy He)|discriminate]. }
  assert (Hother : forall q t' r1, q <> p -> holds s q t' r1 -> t' <> t)
    by (intros q t' r1 Hne Hq ->; now apply Hne, (one_run _ _ HI q p t r1 r)).
  destruct HI; split; rewrite ?Ha, ?Hins, ?Hx, ?Hnx, ?Hnc; auto.
  - intros q t' r1 Hq; apply Hh in Hq as [Hne Hq]; pose proof (Hother _ _ _ Hne Hq).
    rewrite lookup_insert_ne by done; destruct (run_active0 _ _ _ Hq); split; [set_solver|done].
  - intros t' [Ht' Hne]%elem_of_difference; destruct (active_run0 t' Ht') as (q & r1 & Hq); exists q, r1; apply Hh.
    split; [|done]; intros ->; destruct (holds_inj _ _ _ _ _ _ Hr Hq) as [<- _]; set_solver.
  - intros q q' t' r1 r2 [_ H1]%Hh [_ H2]%Hh; eauto.
  - intros t' i1; destruct (decide (t' = t)) as [->|Hne];
      [rewrite lookup_insert_eq; now intros [= <-]|rewrite lookup_insert_ne by done].
    intros ? Hn; apply idle_task0; [done|set_solver].
  - intros q t' r1 [_ Hq]%Hh; eauto.
  - intros t' i1; destruct (decide (t' = t)) as [->|Hne]; [|rewrite lookup_insert_ne by done; eauto].
    rewrite lookup_insert_eq; intros [= <-]; now rewrite Hcf.
  - intros q t' r1 [Hne Hq]%Hh; eauto.
  - intros x Hin Hxr; destruct (Hrun' x Hin Hxr) as [(_ & _ & [? [=]])|(q & r1 & Hne & Hq & He)].
    exists q, r1; split; [apply Hh; auto|done].
Qed.

(** ** The operations *)

Lemma execution_status_done r : execution_status r <> "running".
Proof. unfold execution_status; now destruct (task_outcome r). Qed.

Lemma record_result_row r y :
  (x_id (record_result r y) = x_id y /\ x_task (record_result r y) = x_task y) /\ ~ running_row (record_result r y).
Proof. split; [done|apply execution_status_done]. Qed.

(** The next runs of a coroutine begin one run, or conclude. *)
Lemma next_runs_cases p c queue results fault s :
  (exists results', next_runs p c queue results fault s = conclude p (Coroutine (p_task c) (p_scheduled c) [] results' None) s) \/
  (exists sid parameters queue' results' i r s', instances s !! p_task c = Some i /\ (p_task c ∉ active_tasks s) /\
     begin_run c sid parameters fault i s = (r, s') /\
     next_runs p c queue results fault s =
       with_coroutines (<[p := Coroutine (p_task c) (p_scheduled c) queue' results' (Some r)]> (coroutines s')) s').
Proof.
  revert results; induction queue as [|[sid parameters] queue IH]; intros results; cbn [next_runs]; [left; eauto|].
  destruct (instances s !! p_task c) as [i|] eqn:Hi; [|exact (IH results)].
  case_bool_decide as Hact; [exact (IH _)|].
  destruct (begin_run c sid parameters fault i s) as [r s'] eqn:Hb; right.
  exists sid, parameters, queue, results, i, r, s'; done.
Qed.

Lemma conclude_fields p c s :
  let s' := conclude p c s in
  active_tasks s' = active_tasks s /\ instances s' = instances s /\ executions s' = executions s /\
  next_execution s' = next_execution s /\ next_coroutine s' = next_coroutine s /\ coroutines s' = delete p (coroutines s) /\
  stored_configs s' = stored_configs s.
Proof.
  unfold conclude; destruct (p_scheduled c), (p_results c); try done; cbn -[advance].
  now destruct (advance (now s) (schedules s) _).
Qed.

(** [s] without its coroutine [p]: all that the next runs of [p] depend on. *)
Definition without (p : nat) (s : engine) : engine := with_coroutines (delete p (coroutines s)) s.

Lemma holds_without_self p s t r : ~ holds (without p s) p t r.
Proof. intros [[] _]%holds_delete; done. Qed.

Lemma begin_run_fields c sid parameters fault i s r s' : begin_run c sid parameters fault i s = (r, s') ->
  exists i' x, active_tasks s' = {[p_task c]} ∪ active_tasks s /\ instances s' = <[p_task c := i']> (instances s) /\
    i_running i' = i_running i /\ (valid (p_task c) (i_config i) -> valid (p_task c) (i_config i')) /\
    r_snapshot r = i_config i /\ executions s' = executions s ++ [x] /\ next_execution s' = next_execution s + 1 /\
    x_id x = next_execution s /\ r_execution r = x_id x /\ x_task x = p_task c /\ executing (r_stage r) = false /\
    (running_row x <-> unrecorded (r_stage r) = true) /\ coroutines s' = coroutines s /\ next_coroutine s' = next_coroutine s.
Proof.
  unfold begin_run; intros Hb.
  set (u := match fault with Some e => _ | None => _ end) in Hb.
  assert (Hv : valid (p_task c) (i_config i) -> valid (p_task c) u.1).
  { unfold u; destruct fault; [done|]; destruct (prepare_parameters _ _ _ _); [apply update_valid|done]. }
  destruct u as [conf [e|]]; [|destruct (i_running i) eqn:Hi];
    injection Hb as <- <-; exists (Instance conf (i_running i) (i_cancel_requested i)); eexists; cbn; rewrite ?Hi; split_and!; try reflexivity; try exact Hv; now unfold running_row.
Qed.

Lemma Inv_next_runs b p c queue results fault s : Inv b (without p s) -> (p < next_coroutine s)%nat ->
  Inv b (next_runs p c queue results fault s).
Proof.
  intros HI Hlt; destruct (next_runs_cases p c queue results fault s) as
    [(results' & ->)|(sid & ps & queue' & results' & i & r & s' & Hi & Hact & Hb & ->)].
  - destruct (conclude_fields p (Coroutine (p_task c) (p_scheduled c) [] results' None) s) as (Ha & Hi & Hx & Hn & Hc & Hm & _).
    apply (Inv_frame b (without p s)); try done; unfold holds; rewrite Hm, ?Hc; [done|exact (ids_below _ _ HI)].
  - destruct (begin_run_fields _ _ _ _ _ _ _ _ Hb) as (i' & x & Ha & Hin & Hst & Hv & Hsn & Hx & Hn & Hxi & Hr & Hxt & Hex & Hrow & Hm & Hc).
    destruct (idle_task _ _ HI _ _ Hi Hact) as [Hidle _]; pose proof (instance_valid _ _ HI _ _ Hi) as Hvi.
    eapply (Inv_begin b (without p s)) with (p := p) (t := p_task c) (i := i) (i' := i') (r := r) (x := x);
      try done; cbn; rewrite ?Hc; try done.
    + intros; apply holds_without_self.
    + congruence.
    + now apply Hv.
    + intros q t' r'; rewrite holds_insert; cbn; rewrite Hm.
      split; (intros [(-> & Heq & Ht)|[Hne Hq]]; [left; split_and!; congruence|right; split; [done|]]).
      * unfold holds in *; cbn in *; now rewrite lookup_delete_ne by done.
      * unfold holds in *; cbn in *; now rewrite lookup_delete_ne in Hq by done.
    + intros q; rewrite Hm, lookup_insert_is_Some'; intros [->|Hq]; [now left|].
      destruct (decide (q = p)); [now left|right]; now rewrite lookup_delete_ne.
Qed.

Lemma Inv_resume b p c fault s : Inv b s -> coroutines s !! p = Some c -> p_run c = None -> Inv b (resume p c fault s).
Proof.
  intros HI Hc Hr; apply Inv_next_runs; [|exact (ids_below _ _ HI p (ex_intro _ _ Hc))].
  apply Inv_forget; [done|]; intros t r (c' & Hc' & Hr' & _); rewrite Hc in Hc'; injection Hc' as <-; congruence.
Qed.

Lemma Inv_start_due b groups s : Inv b s -> Inv b (start_due groups s).
Proof.
  revert s; induction groups as [|[t l] groups IH]; intros s HI; cbn; [done|].
  destruct (_ <=? _)%nat; [done|]; case_bool_decide; [auto|]; destruct (instances s !! t); [|auto].
  destruct (parent_enabled s t); [|auto]; now apply IH, Inv_spawn.
Qed.

Lemma holds_set_stage p c r g s q t r1 : coroutines s !! p = Some c -> p_run c = Some r ->
  holds (set_stage p c r g s) q t r1 <->
  (q = p /\ t = p_task c /\ r1 = Run (r_execution r) (r_schedule r) (r_snapshot r) g) \/ (q <> p /\ holds s q t r1).
Proof.
  intros Hc Hr; unfold set_stage; rewrite holds_insert; cbn; split.
  - intros [(-> & [= <-] & <-)|[Hne Hq]]; [now left|right; split; [done|exact Hq]].
  - intros [(-> & -> & ->)|[Hne Hq]]; [now left|right; split; [done|exact Hq]].
Qed.

Lemma set_row_same id l : set_row id (fun y => y) l = l.
Proof. unfold set_row; induction l as [|x l IH]; cbn; [done|]; rewrite IH; now destruct (_ =? _). Qed.

Lemma same_instance s t i : instances s !! t = Some i -> with_instance t i s = s.
Proof. intros Hi; unfold with_instance; rewrite (insert_id _ _ _ Hi); now destruct s. Qed.

Lemma same_rows s id : with_executions (set_row id (fun y => y) (executions s)) s = s.
Proof. rewrite set_row_same; now destruct s. Qed.

(** A step of the run of [p] that moves it to stage [g]. *)
Lemma Inv_set_stage b s p c r g i i' f : Inv b s -> coroutines s !! p = Some c -> p_run c = Some r ->
  instances s !! p_task c = Some i -> i_config i' = i_config i -> i_running i' = executing g ->
  (forall y, x_id (f y) = x_id y /\ x_task (f y) = x_task y) ->
  (forall y, y ∈ executions s -> x_id y = r_execution r -> running_row (f y) <-> unrecorded g = true) ->
  Inv b (set_stage p c r g (with_executions (set_row (r_execution r) f (executions s)) (with_instance (p_task c) i' s))).
Proof.
  intros HI Hc Hr Hi Hcf Hrun Hf Hg.
  eapply (Inv_change b s) with (p := p) (t := p_task c) (r := r) (i := i) (i' := i') (f := f)
    (r' := Run (r_execution r) (r_schedule r) (r_snapshot r) g); try done; [now exists c| |].
  - intros q t' r1; rewrite (holds_set_stage p c r g _ q t' r1); [done| |done]; exact Hc.
  - intros q; cbn; rewrite lookup_insert_is_Some'; intros [->|Hq]; [now exists c|exact Hq].
Qed.

Lemma row_stage b s p c r y : Inv b s -> coroutines s !! p = Some c -> p_run c = Some r ->
  y ∈ executions s -> x_id y = r_execution r -> running_row y <-> unrecorded (r_stage r) = true.
Proof.
  intros HI Hc Hr Hy Hid; destruct (run_row _ _ HI p (p_task c) r) as (x & Hx & Hxi & _ & Hrow); [now exists c|].
  now rewrite (same_row _ _ _ (rows_distinct _ _ HI) Hy Hx ltac:(congruence)).
Qed.

(** What the saves and the restarts make of the tasks' configurations. *)
Definition baseline_step (s : engine) (o : op) (b : string -> config) : string -> config :=
  match o with
  | Configure t intent =>
      match instances s !! t with
      | Some _ => if bool_decide (t ∈ active_tasks s) then b else <[t := (update_config t intent (b t)).1]> b
      | None => b
      end
  | Restart => hydrated s
  | _ => b
  end.

Lemma Inv_instance b b' s s' t i i' : Inv b s -> instances s !! t = Some i -> i_running i' = i_running i ->
  (t ∉ active_tasks s -> i_config i' = b' t) -> (t ∈ active_tasks s -> b' t = b t) ->
  (forall u, u <> t -> b' u = b u) -> valid t (b' t) -> valid t (i_config i') ->
  active_tasks s' = active_tasks s -> instances s' = <[t := i']> (instances s) -> executions s' = executions s ->
  next_execution s' = next_execution s -> coroutines s' = coroutines s -> next_coroutine s' = next_coroutine s ->
  Inv b' s'.
Proof.
  intros HI Hi Hrun Hidle Hact Hb Hvb Hvi Ha Hins Hx Hnx Hco Hnc.
  assert (Hh : forall p u r, holds s' p u r <-> holds s p u r) by (intros; unfold holds; now rewrite Hco).
  destruct HI; split; rewrite ?Ha, ?Hins, ?Hx, ?Hnx, ?Hco, ?Hnc; auto.
  - intros p u r Hr%Hh; destruct (run_active0 _ _ _ Hr) as (? & i1 & Hi1 & ?); split; [done|].
    destruct (decide (u = t)) as [->|Hne]; [exists i'; rewrite lookup_insert_eq|exists i1; now rewrite lookup_insert_ne].
    split; congruence.
  - intros u Hu; destruct (active_run0 u Hu) as (p & r & Hr); exists p, r; now apply Hh.
  - intros p q u r r' Hr%Hh Hr'%Hh; eauto.
  - intros u i1; destruct (decide (u = t)) as [->|Hne].
    + rewrite lookup_insert_eq; intros [= <-] Hn; split; [|auto]; rewrite Hrun; exact (proj1 (idle_task0 _ _ Hi Hn)).
    + rewrite lookup_insert_ne by done; rewrite Hb by done; auto.
  - intros p u r Hr%Hh; rewrite (snapshot0 _ _ _ Hr); destruct (decide (u = t)) as [->|Hne]; [|now rewrite Hb].
    symmetry; apply Hact; eapply run_active0, Hr.
  - intros u; destruct (decide (u = t)) as [->|Hne]; [done|]; now rewrite Hb.
  - intros u i1; destruct (decide (u = t)) as [->|Hne]; [rewrite lookup_insert_eq; now intros [= <-]|].
    rewrite lookup_insert_ne by done; eauto.
  - intros p u r Hr%Hh; eauto.
  - intros x Hin Hxr; destruct (row_run0 x Hin Hxr) as (p & r & Hr & He); exists p, r; split; [now apply Hh|done].
Qed.

Lemma Inv_configure b s t intent : Inv b s ->
  Inv (baseline_step s (Configure t intent) b) (update_task_config t intent s).
Proof.
  intros HI; unfold update_task_config; cbn [baseline_step].
  destruct (instances s !! t) as [i|] eqn:Hi; [|done].
  set (b' := if bool_decide (t ∈ active_tasks s) then b else _).
  assert (Hb : forall u, u <> t -> b' u = b u).
  { intros u Hu; unfold b'; case_bool_decide; [done|]; now rewrite fn_lookup_insert_ne. }
  assert (Hbv : valid t (b' t)).
  { unfold b'; case_bool_decide; [apply HI|]; rewrite fn_lookup_insert; apply update_valid, HI. }
  destruct (update_config t intent (i_config i)) as [conf failure] eqn:Hu.
  assert (Hi' : conf = (update_config t intent (i_config i)).1) by now rewrite Hu.
  assert (Hidle : t ∉ active_tasks s -> conf = b' t).
  { intros Hn; rewrite Hi'; unfold b'; rewrite bool_decide_eq_false_2 by done; rewrite fn_lookup_insert.
    now rewrite (proj2 (idle_task _ _ HI _ _ Hi Hn)). }
  assert (Hvc : valid t conf) by (rewrite Hi'; apply update_valid; exact (instance_valid _ _ HI _ _ Hi)).
  destruct failure; (eapply (Inv_instance b b' s) with (t := t) (i := i)
    (i' := Instance conf (i_running i) (i_cancel_requested i)); try done; try exact Hidle);
    unfold b'; intros; now rewrite bool_decide_eq_true_2.
Qed.

Lemma hydrated_valid s t : valid t (hydrated s t).
Proof. unfold hydrated, overlay; destruct (if persist_config t then _ else _); [apply update_valid|]; apply default_valid. Qed.

Lemma Inv_restart b s : Inv b s -> Inv (hydrated s) (restart s).
Proof.
  intros HI; assert (Hrow : forall y, (x_id (terminate (now s) y) = x_id y) /\ ~ running_row (terminate (now s) y)).
  { intros y; unfold terminate, running_row; case_bool_decide; cbn; split; done. }
  assert (Hmap : map x_id (map (terminate (now s)) (executions s)) = map x_id (executions s))
    by (rewrite map_map; apply map_ext; intros; apply Hrow).
  assert (Hno : forall p t r, ~ holds (restart s) p t r) by (intros p t r (c & Hc & _); cbn in Hc; now rewrite lookup_empty in Hc).
  assert (Hin : forall t i, instances (restart s) !! t = Some i -> i = Instance (hydrated s t) false false).
  { intros t i; cbn; rewrite map_lookup_imap; destruct (instances s !! t); cbn; [now intros [= <-]|discriminate]. }
  split; try (intros; exfalso; eapply Hno; eassumption).
  - intros p; cbn; rewrite lookup_empty; now intros [? [=]].
  - intros t; cbn; now rewrite elem_of_empty.
  - intros t i ->%Hin _; done.
  - apply hydrated_valid.
  - intros t i ->%Hin; apply hydrated_valid.
  - cbn; rewrite Hmap; apply HI.
  - intros x; cbn; intros (y & -> & Hy)%Prelude.elem_of_map; rewrite (proj1 (Hrow y)); exact (rows_below _ _ HI y Hy).
  - intros x; cbn; intros (y & -> & Hy)%Prelude.elem_of_map Hr; now destruct (Hrow y).
Qed.

(** What [end_run] does to the row: a failure is recorded. *)
Definition closing (time : Z) (g : stage) : execution -> execution :=
  match g with Failing e => record_failure e time | _ => fun y => y end.

Lemma closing_row b s p c r : Inv b s -> coroutines s !! p = Some c -> p_run c = Some r ->
  executing (r_stage r) = false -> r_stage r <> Entered ->
  (forall y, x_id (closing (now s) (r_stage r) y) = x_id y /\ x_task (closing (now s) (r_stage r) y) = x_task y) /\
  (forall y, y ∈ executions s -> x_id y = r_execution r -> ~ running_row (closing (now s) (r_stage r) y)).
Proof.
  intros HI Hc Hr Hex Hne; split; [intros y; now destruct (r_stage r)|]; intros y Hy Hid Hrun.
  destruct (r_stage r) as [| |res|e] eqn:Hst; try done; cbn in *.
  apply (row_stage _ _ _ _ _ _ HI Hc Hr Hy Hid) in Hrun; rewrite Hst in Hrun; done.
Qed.

Lemma Inv_end_run b s p c r fault : Inv b s -> coroutines s !! p = Some c -> p_run c = Some r ->
  executing (r_stage r) = false -> r_stage r <> Entered -> Inv b (end_run p c r fault s).
Proof.
  intros HI Hc Hr Hex Hne; destruct (closing_row _ _ _ _ _ HI Hc Hr Hex Hne) as [Hf Hg].
  assert (Hh : holds s p (p_task c) r) by now exists c.
  destruct (run_active _ _ HI _ _ _ Hh) as (Hact & i & Hi & Hrun).
  set (i' := Instance (restore_invocation_config (p_task c) (r_snapshot r) (i_config i)) (i_running i) (i_cancel_requested i)).
  set (s1 := with_active (active_tasks s ∖ {[p_task c]}) (with_instance (p_task c) i'
               (with_executions (set_row (r_execution r) (closing (now s) (r_stage r)) (executions s)) s))).
  assert (Hcf : i_config i' = b (p_task c)).
  { cbn; rewrite (snapshot _ _ HI _ _ _ Hh); apply restores; [apply HI|exact (instance_valid _ _ HI _ _ Hi)]. }
  assert (HI1 : Inv b (without p s1)).
  { eapply (Inv_end b s) with (p := p) (t := p_task c) (r := r) (i := i) (i' := i'); try done.
    - congruence.
    - cbn; congruence.
    - intros q t' r1; exact (holds_delete s1 p q t' r1).
    - intros q; cbn; rewrite lookup_delete_is_Some; now intros [_ ?]. }
  destruct (r_stage r) as [| |res|e] eqn:Hst; try done; unfold end_run; rewrite Hst; rewrite Hi; cbn [default fst snd];
    (apply Inv_next_runs; [|exact (ids_below _ _ HI p (ex_intro _ _ Hc))]); [|exact HI1].
  unfold s1, closing in HI1; rewrite set_row_same in HI1; exact HI1.
Qed.

Lemma Inv_validated b s p problem : Inv b s -> Inv b (step s (Validated p problem)).
Proof.
  intros HI; cbn [step]; destruct (coroutines s !! p) as [c|] eqn:Hc; [|done].
  destruct (p_run c) as [r|] eqn:Hr; [|done].
  destruct (run_active _ _ HI p (p_task c) r ltac:(now exists c)) as (_ & i & Hi & Hrun).
  destruct (r_stage r) as [| |res|e] eqn:Hst; try done; destruct problem as [e|]; rewrite ?Hi.
  - rewrite <- (same_instance s _ _ Hi) at 2.
    apply (Inv_set_stage b s p c r (Ending _) i i); done.
  - rewrite <- (same_rows (with_instance _ _ s) (r_execution r)).
    eapply (Inv_set_stage b s p c r Executing i); try done.
    intros y Hy Hid; rewrite (row_stage _ _ _ _ _ _ HI Hc Hr Hy Hid), Hst; done.
Qed.

Lemma Inv_executed b s p w : Inv b s -> Inv b (step s (Executed p w)).
Proof.
  intros HI; cbn [step]; destruct (coroutines s !! p) as [c|] eqn:Hc; [|done].
  destruct (p_run c) as [r|] eqn:Hr; [|done]; destruct (r_stage r) as [| |res|e] eqn:Hst; try done.
  destruct (instances s !! p_task c) as [i|] eqn:Hi; [|done].
  apply (Inv_set_stage b s p c r (Ending _) i); try done.
  intros y _ _; split; [now intros []%record_result_row|discriminate].
Qed.

Lemma Inv_cancel b s t : Inv b s -> Inv b (cancel_task t s).1.
Proof.
  intros HI; unfold cancel_task; destruct (instances s !! t) as [i|] eqn:Hi; [|done].
  destruct (negb _) eqn:Ha; [done|]; to_prop; destruct (i_running i) eqn:Hr; [|done].
  eapply (Inv_instance b b s) with (t := t) (i := i) (i' := Instance (i_config i) true true); try done.
  - apply HI.
  - exact (instance_valid _ _ HI _ _ Hi).
Qed.

Lemma Inv_step b s o : Inv b s -> Inv (baseline_step s o b) (step s o).
Proof.
  intros HI; destruct o as [|t sid ps fault|p fault|p problem|p w|p fault|t|t intent|t en|sc|id|dt|];
    cbn [baseline_step]; cbn [step].
  - now apply Inv_start_due.
  - unfold run_task; apply Inv_resume; [now apply Inv_spawn|cbn; apply lookup_insert_eq|done].
  - destruct (coroutines s !! p) as [c|] eqn:Hc; [|done]; destruct (p_run c) eqn:Hr; [done|]; now apply Inv_resume.
  - now apply Inv_validated.
  - now apply Inv_executed.
  - destruct (coroutines s !! p) as [c|] eqn:Hc; [|done]; destruct (p_run c) as [r|] eqn:Hr; [|done].
    destruct (r_stage r) eqn:Hst; try done; apply Inv_end_run; rewrite ?Hst; done.
  - now apply Inv_cancel.
  - now apply Inv_configure.
  - destruct (parents s !! t), (instances s !! t); try done; now apply (Inv_frame b s); try apply HI.
  - now apply (Inv_frame b s); try apply HI.
  - now apply (Inv_frame b s); try apply HI.
  - now apply (Inv_frame b s); try apply HI.
  - now apply (Inv_restart b).
Qed.

Lemma Inv_fresh time limit registered scs ps : Inv default_config (fresh time limit registered scs ps).
Proof.
  assert (Hno : forall p t r, ~ holds (fresh time limit registered scs ps) p t r)
    by (intros p t r (c & Hc & _); cbn in Hc; now rewrite lookup_empty in Hc).
  assert (Hin : forall t i, instances (fresh time limit registered scs ps) !! t = Some i -> i = Instance (default_config t) false false).
  { intros t i; cbn; intros Hi; apply lookup_set_to_map in Hi; [|done]; destruct Hi as (t' & _ & [= -> <-]); done. }
  split; try (intros; exfalso; eapply Hno; eassumption).
  - intros p; cbn; rewrite lookup_empty; now intros [? [=]].
  - intros t; cbn; now rewrite elem_of_empty.
  - intros t i ->%Hin _; done.
  - apply default_valid.
  - intros t i ->%Hin; apply default_valid.
  - constructor.
  - intros x Hx; now apply elem_of_nil in Hx.
  - intros x Hx; now apply elem_of_nil in Hx.
Qed.

(** The configurations after [ops]. *)
Fixpoint baseline (ops : list op) (s : engine) (b : string -> config) : string -> config :=
  match ops with [] => b | o :: ops => baseline ops (step s o) (baseline_step s o b) end.

Lemma Inv_run_ops ops b s : Inv b s -> Inv (baseline ops s b) (run_ops ops s).
Proof. revert b s; induction ops as [|o ops IH]; intros b s HI; [done|]; apply (IH _ (step s o)), Inv_step, HI. Qed.

End invariant.

End TaskInvariant.

Module TaskRuns.
Import TaskEngine TaskInvariant.

Section runs.
Context {tasks : Tasks} {laws : TaskLaws}.

(** The states the engine reaches from its start. *)
Definition reached (time : Z) (limit : nat) (registered : gset string) (scs : list schedule) (ps : gmap string parent)
    (ops : list op) : engine := run_ops ops (fresh time limit registered scs ps).

Lemma reached_Inv time limit registered scs ps ops :
  Inv (baseline ops (fresh time limit registered scs ps) default_config) (reached time limit registered scs ps ops).
Proof. apply Inv_run_ops, Inv_fresh. Qed.

(** C6: whatever the interleaving of ticks, manual runs, cancellations, configuration
    changes and restarts, [active_tasks] holds exactly the tasks with a run in progress, and no
    task has two; a task whose [run] is executing is one of them. *)
Theorem one_run_per_task time limit registered scs ps ops :
  let s := reached time limit registered scs ps ops in
  (forall t, t ∈ active_tasks s <-> exists p r, holds s p t r) /\
  (forall p q t r r', holds s p t r -> holds s q t r' -> p = q) /\
  (forall t i, instances s !! t = Some i -> i_running i = true -> t ∈ active_tasks s).
Proof.
  cbn; pose proof (reached_Inv time limit registered scs ps ops) as HI; split_and!.
  - intros t; split; [apply HI|intros (p & r & Hr); exact (proj1 (run_active _ _ HI _ _ _ Hr))].
  - apply HI.
  - intros t i Hi Hr; destruct (decide (t ∈ active_tasks (reached time limit registered scs ps ops))) as [|Hn]; [done|].
    destruct (idle_task _ _ HI _ _ Hi Hn); congruence.
Qed.

(** C24: a task at rest has exactly the configuration made by the restarts (each hydrates it
    from what is stored) and by the saves made while it was at rest, in their order; nothing of
    the parameters its runs were given is left, however they ended, since every run restores the
    configuration it found.  With what the run changed goes a save made during it: that one is
    not among the saves counted ([baseline_step]), and the live task has lost it when the run
    ends, until a restart ([TaskDemo.save_during_run]). *)
Theorem runs_leave_configuration time limit registered scs ps ops t i :
  let s := reached time limit registered scs ps ops in
  instances s !! t = Some i -> t ∉ active_tasks s ->
  i_config i = baseline ops (fresh time limit registered scs ps) default_config t.
Proof. intros s Hi Hn; exact (proj2 (idle_task _ _ (reached_Inv time limit registered scs ps ops) _ _ Hi Hn)). Qed.

(** A row of the history is ["running"] exactly while its run is in progress and has
    not been recorded: no run that ended, and no restart, leaves a row running. *)
Theorem running_rows time limit registered scs ps ops x :
  let s := reached time limit registered scs ps ops in
  x ∈ executions s ->
  (x_status x = "running" <-> exists p r, holds s p (x_task x) r /\ r_execution r = x_id x /\ unrecorded (r_stage r) = true) /\
  (x ∈ executions (step s Restart) -> x_status x <> "running").
Proof.
  intros s Hx; pose proof (reached_Inv time limit registered scs ps ops) as HI; fold s in HI; split; [split|].
  - intros Hr; destruct (row_run _ _ HI x Hx Hr) as (p & r & Hh & He); exists p, r; split_and!; try done.
    destruct (run_row _ _ HI _ _ _ Hh) as (y & Hy & Hyi & _ & Hyr).
    rewrite (same_row _ _ _ (rows_distinct _ _ HI) Hx Hy ltac:(congruence)) in Hr; now apply Hyr.
  - intros (p & r & Hh & He & Hu); destruct (run_row _ _ HI _ _ _ Hh) as (y & Hy & Hyi & _ & Hyr).
    rewrite (same_row _ _ _ (rows_distinct _ _ HI) Hx Hy ltac:(congruence)); now apply Hyr.
  - intros Hx' Hr; pose proof (Inv_restart _ _ HI) as HR.
    destruct (row_run _ _ HR x Hx' Hr) as (p & r & (c & Hc & _) & _); cbn in Hc; now rewrite lookup_empty in Hc.
Qed.

(** ** Saves and restarts *)

(** Every save of [ops] is one that its task takes in, made while the task is at rest. *)
Fixpoint quiet_saves (ops : list op) (s : engine) : Prop :=
  match ops with
  | [] => True
  | o :: ops =>
      match o with Configure t intent => (t ∉ active_tasks s) /\ accepts t intent | _ => True end /\
      quiet_saves ops (step s o)
  end.

(** What is stored of a task gives the configuration [b] of it. *)
Definition stored_gives (b : string -> config) (s : engine) : Prop :=
  forall t, persist_config t = true ->
    overlay t (stored_configs s !! t) (default_config t) = b t /\ (forall q, stored_configs s !! t = Some q -> accepts t q).

Lemma next_runs_stored p c queue results fault s :
  stored_configs (next_runs p c queue results fault s) = stored_configs s.
Proof.
  destruct (next_runs_cases p c queue results fault s) as
    [(results' & ->)|(sid & ps & queue' & results' & i & r & s' & _ & _ & Hb & ->)].
  - apply conclude_fields.
  - unfold begin_run in Hb; cbn; repeat case_hyp Hb; now injection Hb as <- <-.
Qed.

Lemma start_due_stored groups s : stored_configs (start_due groups s) = stored_configs s.
Proof.
  revert s; induction groups as [|[t l] groups IH]; intros s; cbn; [done|].
  destruct (_ <=? _)%nat; [done|]; case_bool_decide; [done|]; destruct (instances s !! t); [|done].
  destruct (parent_enabled s t); [|done]; now rewrite IH.
Qed.

Lemma step_stored s o : match o with Configure _ _ => True | _ => stored_configs (step s o) = stored_configs s end.
Proof.
  destruct o as [|t sid ps fault|p fault|p problem|p w|p fault|t|t intent|t en|sc|id|dt|]; cbn [step]; try done.
  - apply start_due_stored.
  - unfold run_task, resume; now rewrite next_runs_stored.
  - destruct (coroutines s !! p) as [c|]; [|done]; destruct (p_run c); [done|]; apply next_runs_stored.
  - repeat case_match; done.
  - repeat case_match; done.
  - destruct (coroutines s !! p) as [c|]; [|done]; destruct (p_run c) as [r|]; [|done].
    assert (He : stored_configs (end_run p c r fault s) = stored_configs s)
      by (unfold end_run, resume; destruct (r_stage r); now rewrite next_runs_stored).
    now destruct (r_stage r).
  - unfold cancel_task; repeat case_match; done.
  - repeat case_match; done.
Qed.

Lemma stored_configure b s t intent : Inv b s -> stored_gives b s -> (t ∉ active_tasks s) -> accepts t intent ->
  stored_gives (baseline_step s (Configure t intent) b) (update_task_config t intent s).
Proof.
  intros HI Hs Ha Hacc; unfold update_task_config; cbn [baseline_step].
  destruct (instances s !! t) as [i|] eqn:Hi; [|done]; rewrite bool_decide_eq_false_2 by done.
  pose proof (accepted t intent (i_config i) Hacc) as Hno; destruct (update_config t intent (i_config i)) as [conf fl].
  cbn in Hno; subst fl; intros u Hu; cbn [stored_configs]; destruct (Hs u Hu) as [Hov Hsa].
  destruct (decide (u = t)) as [->|Hne].
  - rewrite Hu, lookup_partial_alter_eq, fn_lookup_insert; split.
    + etransitivity; [exact (merge_applies t _ intent Hsa Hacc)|now rewrite Hov].
    + intros q Hq; exact (merge_accepted t _ intent q Hsa Hacc Hq).
  - rewrite fn_lookup_insert_ne by done; destruct (persist_config t); rewrite ?lookup_partial_alter_ne by done; done.
Qed.

Lemma stored_step b s o : Inv b s -> stored_gives b s ->
  match o with Configure t intent => (t ∉ active_tasks s) /\ accepts t intent | _ => True end ->
  stored_gives (baseline_step s o b) (step s o).
Proof.
  intros HI Hs Ho; pose proof (step_stored s o) as Hst; destruct o as [| | | | | | |t intent| | | | |];
    try (intros t Ht; rewrite Hst; now apply Hs).
  - now apply stored_configure.
  - intros t Ht; rewrite Hst; split; [|now apply Hs]; cbn; unfold hydrated; now rewrite Ht.
Qed.

Lemma stored_run ops b s : Inv b s -> stored_gives b s -> quiet_saves ops s ->
  stored_gives (baseline ops s b) (run_ops ops s).
Proof.
  revert b s; induction ops as [|o ops IH]; intros b s HI Hs Hq; [done|].
  destruct Hq as [Ho Hq]; apply (IH _ (step s o)); [now apply Inv_step|now apply stored_step|done].
Qed.

(** C21: when every save was taken in by its task, at rest, a restart gives every
    persisted task at rest the very configuration it has. *)
Theorem saves_survive_restart time limit registered scs ps ops t i :
  let s := reached time limit registered scs ps ops in
  quiet_saves ops (fresh time limit registered scs ps) -> persist_config t = true ->
  instances s !! t = Some i -> t ∉ active_tasks s ->
  instances (step s Restart) !! t = Some (Instance (i_config i) false false).
Proof.
  intros s Hq Hp Hi Hn; pose proof (reached_Inv time limit registered scs ps ops) as HI; fold s in HI.
  assert (H0 : stored_gives default_config (fresh time limit registered scs ps))
    by (intros u _; cbn; rewrite lookup_empty; now split).
  destruct (stored_run ops _ _ (Inv_fresh time limit registered scs ps) H0 Hq t Hp) as [Hst _]; fold s in Hst.
  cbn; rewrite map_lookup_imap, Hi; cbn; unfold hydrated; rewrite Hp.
  unfold s in *; unfold reached in *; rewrite Hst; now rewrite (proj2 (idle_task _ _ HI _ _ Hi Hn)).
Qed.

(** ** The tick *)

(** The values of a list, each once, in the order of their first occurrences. *)
Fixpoint firsts (l : list string) : list string :=
  match l with [] => [] | x :: l => x :: List.filter (fun y => negb (bool_decide (y = x))) (firsts l) end.

Definition due_schedules (s : engine) : list schedule := List.filter (due (now s)) (schedules s).
Definition of_task (t : string) (l : list schedule) : list schedule := List.filter (fun sc => bool_decide (sc_task sc = t)) l.

(** A task that may be started: at rest, registered, its gate open. *)
Definition startable (s : engine) (t : string) : bool :=
  negb (bool_decide (t ∈ active_tasks s)) && match instances s !! t with Some _ => true | None => false end && parent_enabled s t.

Lemma of_task_group l : group_by_task l = map (fun t => (t, of_task t l)) (firsts (map sc_task l)).
Proof.
  induction l as [|sc l IH]; cbn [group_by_task map firsts]; [done|]; rewrite IH; f_equal.
  - unfold of_task at 2; cbn [List.filter]; rewrite bool_decide_eq_true_2 by done; do 2 f_equal; clear IH.
    destruct (decide (sc_task sc ∈ firsts (map sc_task l))) as [Hin|Hn].
    + induction (firsts (map sc_task l)) as [|x k IH]; [now apply elem_of_nil in Hin|]; cbn.
      destruct (bool_decide (x = sc_task sc)) eqn:Hx; to_prop; [subst; cbn|]; [done|].
      apply elem_of_cons in Hin as [Heq|Hin]; [congruence|exact (IH Hin)].
    + transitivity (@nil schedule).
      * destruct (List.find _ _) as [[t k]|] eqn:Hf; [|done].
        apply List.find_some in Hf as [Hin Ht]; to_prop; cbn in Ht; subst t.
        apply in_map_iff in Hin as (t & [= -> _] & Hin); apply list_elem_of_In in Hin; done.
      * clear -Hn; assert (Hm : forall x, x ∈ firsts (map sc_task l) <-> x ∈ map sc_task l).
        { clear Hn; induction (map sc_task l) as [|y k IH]; intros x; cbn; [done|].
          rewrite !elem_of_cons, Prelude.elem_of_list_filter, IH, negb_true_iff, bool_decide_eq_false.
          destruct (decide (x = y)); intuition. }
        rewrite Hm in Hn; clear Hm; unfold of_task; induction l as [|y l IH]; cbn in *; [done|].
        rewrite not_elem_of_cons in Hn; destruct Hn; rewrite bool_decide_eq_false_2 by done; auto.
  - assert (Hf : forall k, List.filter (fun g : string * list schedule => negb (bool_decide (g.1 = sc_task sc))) (map (fun t => (t, of_task t l)) k) =
       map (fun t => (t, of_task t (sc :: l))) (List.filter (fun y => negb (bool_decide (y = sc_task sc))) k)); [|apply Hf].
    induction k as [|x k IHk]; [done|]; cbn; case_bool_decide; cbn; [exact IHk|]; rewrite IHk; f_equal; f_equal.
    unfold of_task; cbn; now rewrite bool_decide_eq_false_2.
Qed.

Lemma start_due_spawns groups s : (size (active_tasks s) < max_concurrent s)%nat ->
  start_due groups s =
  foldl (fun s g => spawn (Coroutine g.1 true (jobs_of g.2) [] None) s) s (List.filter (fun g => startable s g.1) groups).
Proof.
  revert s; induction groups as [|[t l] groups IH]; intros s Hlt; [done|]; cbn [start_due List.filter fst].
  rewrite (proj2 (Nat.leb_gt _ _) Hlt); unfold startable at 1.
  case_bool_decide; cbn [negb andb]; [now apply IH|].
  destruct (instances s !! t); cbn [andb]; [|now apply IH].
  destruct (parent_enabled s t); [|now apply IH]; rewrite IH by done; reflexivity.
Qed.

(** The coroutines a tick with a free slot starts. *)
Definition start_jobs (s : engine) : engine :=
  foldl (fun s' t => spawn (Coroutine t true (jobs_of (of_task t (due_schedules s))) [] None) s') s
    (List.filter (startable s) (firsts (map sc_task (due_schedules s)))).

Lemma tick_jobs s : (size (active_tasks s) < max_concurrent s)%nat -> _check_and_run_due_tasks s = start_jobs s.
Proof.
  intros Hlt; unfold _check_and_run_due_tasks, start_jobs; fold (due_schedules s).
  rewrite start_due_spawns by done; rewrite of_task_group.
  generalize (firsts (map sc_task (due_schedules s))) as k; intros k.
  assert (Hf : List.filter (fun g : string * list schedule => startable s g.1) (map (fun t => (t, of_task t (due_schedules s))) k) =
    map (fun t => (t, of_task t (due_schedules s))) (List.filter (startable s) k)).
  { induction k as [|x k IH]; [reflexivity|]; cbn; destruct (startable s x); cbn; now rewrite IH. }
  rewrite Hf; clear Hf; generalize (List.filter (startable s) k) as k'; generalize (due_schedules s) as d.
  intros d k'; clear k Hlt; revert s; induction k' as [|x k' IH]; intros s; [reflexivity|]; exact (IH _).
Qed.

(** A tick with a free slot starts one coroutine for every task that has a due
    schedule, is at rest, registered and enabled, with all its due schedules, in the order the
    database gives them; a tick without one starts none. *)
Theorem tick_starts_due s :
  _check_and_run_due_tasks s =
  if (max_concurrent s <=? size (active_tasks s))%nat then s
  else foldl (fun s' t => spawn (Coroutine t true (jobs_of (of_task t (due_schedules s))) [] None) s') s
         (List.filter (startable s) (firsts (map sc_task (due_schedules s)))).
Proof.
  destruct (_ <=? _)%nat eqn:Hle; to_prop; [|now apply tick_jobs].
  unfold _check_and_run_due_tasks; fold (due_schedules s); destruct (group_by_task (due_schedules s)) as [|[t l] groups]; [done|].
  cbn; now rewrite (proj2 (Nat.leb_le _ _) Hle).
Qed.

Lemma spawned_lookup l s (f : string -> coroutine) t : t ∈ l ->
  exists p, coroutines (foldl (fun s t => spawn (f t) s) s l) !! p = Some (f t) /\ (next_coroutine s <= p)%nat.
Proof.
  assert (Hkeep : forall l s p, (p < next_coroutine s)%nat ->
    coroutines (foldl (fun s t => spawn (f t) s) s l) !! p = coroutines s !! p).
  { clear; induction l as [|x l IH]; intros s p Hlt; [done|]; cbn [foldl]; rewrite IH by (cbn; lia).
    cbn; now rewrite lookup_insert_ne by lia. }
  revert s; induction l as [|x l IH]; intros s Ht; [now apply elem_of_nil in Ht|]; cbn [foldl].
  apply elem_of_cons in Ht as [->|Ht].
  - exists (next_coroutine s); rewrite Hkeep by (cbn; lia); cbn; now rewrite lookup_insert_eq.
  - destruct (IH (spawn (f x) s) Ht) as (p & Hp & Hle); exists p; split; [exact Hp|cbn in Hle; lia].
Qed.

Lemma elem_of_firsts x l : x ∈ l -> x ∈ firsts l.
Proof.
  induction l as [|y l IH]; [done|]; cbn; rewrite !elem_of_cons, Prelude.elem_of_list_filter, negb_true_iff, bool_decide_eq_false.
  destruct (decide (x = y)); intuition.
Qed.

Lemma foldl_spawn_same k d s : let s' := foldl (fun s' t => spawn (Coroutine t true (d t) [] None) s') s k in
  instances s' = instances s /\ active_tasks s' = active_tasks s.
Proof. revert s; induction k as [|x k IH]; intros s; [done|]; exact (IH (spawn _ s)). Qed.

(** *** A coroutine and its queue *)

(** Coroutine [p] runs task [t] for [sid], with the jobs of [q] still to run. *)
Definition at_job (s : engine) (p : nat) (t : string) (sid : option Z) (q : list (option Z * option params)) : Prop :=
  exists c r i, coroutines s !! p = Some c /\ p_run c = Some r /\ r_schedule r = sid /\ p_task c = t /\ p_queue c = q /\
    instances s !! t = Some i /\ t ∈ active_tasks s.

(** The steps that bring the run of [p] to its end: its configuration is validated, its work
    ends, the notifications are sent (and the next run prepared). *)
Definition finish (p : nat) (e : option string * work * option string) : list op :=
  [Validated p e.1.1; Executed p e.1.2; Close p e.2].

Lemma next_job p c sid ps q results fault s i :
  instances s !! p_task c = Some i -> p_task c ∉ active_tasks s ->
  at_job (next_runs p c ((sid, ps) :: q) results fault s) p (p_task c) sid q.
Proof.
  intros Hi Ha; cbn [next_runs]; rewrite Hi, bool_decide_eq_false_2 by done.
  destruct (begin_run c sid ps fault i s) as [r s'] eqn:Hb.
  destruct (begin_run_fields _ _ _ _ _ _ _ _ Hb) as (i' & x & Hact & Hins & _).
  assert (Hs : r_schedule r = sid) by (unfold begin_run in Hb; repeat case_hyp Hb; now injection Hb as <- <-).
  eexists _, r, i'; split_and!; [apply lookup_insert_eq|done|exact Hs|done|done| |].
  - cbn; rewrite Hins; apply lookup_insert_eq.
  - cbn; rewrite Hact; set_solver.
Qed.

Lemma end_next p c r sid ps q fault s i :
  p_queue c = (sid, ps) :: q -> instances s !! p_task c = Some i ->
  at_job (end_run p c r fault s) p (p_task c) sid q.
Proof.
  intros Hq Hi; unfold end_run, resume; destruct (match r_stage r with Ending _ => _ | _ => _ end) as [completed rows].
  cbn [p_queue p_results]; rewrite Hq; set (c' := Coroutine _ _ _ _ _); change (p_task c) with (p_task c').
  eapply next_job; cbn; [apply lookup_insert_eq|set_solver].
Qed.

(** However the run of a job ends, the next job follows. *)
Lemma finish_next s p t sid jid ps q e :
  at_job s p t sid ((jid, ps) :: q) -> at_job (run_ops (finish p e) s) p t jid q.
Proof.
  intros (c & r & i & Hc & Hr & _ & <- & Hq & Hi & Ha); destruct e as [[problem w] fault].
  cbn [run_ops foldl finish fst snd].
  destruct (r_stage r) as [| |res|err] eqn:Hst; [destruct problem as [e|]| | |];
    repeat (cbn [step]; rewrite ?Hc, ?Hr, ?Hst, ?Hi; cbn [set_stage with_coroutines coroutines with_executions with_instance p_run r_stage
      instances p_task]; rewrite ?lookup_insert_eq);
    match goal with |- at_job (end_run p ?c' _ _ _) _ _ _ _ => change (p_task c) with (p_task c') end;
    eapply end_next; cbn; rewrite ?lookup_insert_eq; done.
Qed.

Lemma finish_each q : forall s p t first ends job,
  at_job s p t first q -> (first :: map fst q) !! length ends = Some job ->
  exists q', at_job (run_ops (List.concat (map (finish p) ends)) s) p t job q'.
Proof.
  induction q as [|[jid ps] q IH]; intros s p t first [|e ends] job Hj Hl; cbn in Hl; [| |assert (first = job) as <- by congruence; eexists; exact Hj|].
  - assert (first = job) as <- by congruence; eexists; exact Hj.
  - now destruct (length ends).
  - cbn [map List.concat]; unfold run_ops; rewrite foldl_app.
    apply (IH _ _ _ jid); [exact (finish_next _ _ _ _ _ _ _ e Hj)|done].
Qed.

(** C33: every due schedule of an enabled, registered task at rest runs: with a free slot, the
    next tick leaves a coroutine for the task; when the event loop gives it its turn, and the
    runs it makes for the task's earlier due schedules end, each however it may, the task is
    active with a run for this very schedule in progress.  (Nothing else is taken to step
    meanwhile.) *)
Theorem due_schedule_runs s sc fault :
  sc ∈ schedules s -> due (now s) sc = true -> startable s (sc_task sc) = true ->
  (size (active_tasks s) < max_concurrent s)%nat ->
  exists p earlier, (earlier < length (of_task (sc_task sc) (due_schedules s)))%nat /\
    forall ends, length ends = earlier ->
      let s' := run_ops ([Tick; Begin p fault] ++ List.concat (map (finish p) ends)) s in
      exists r, holds s' p (sc_task sc) r /\ r_schedule r = Some (sc_id sc) /\ sc_task sc ∈ active_tasks s'.
Proof.
  intros Hin Hdue Hst Hlt; set (t := sc_task sc) in *.
  assert (Hd : sc ∈ of_task t (due_schedules s))
    by (unfold of_task, due_schedules; rewrite !Prelude.elem_of_list_filter, bool_decide_eq_true; done).
  assert (Ht : t ∈ List.filter (startable s) (firsts (map sc_task (due_schedules s)))).
  { apply Prelude.elem_of_list_filter; split; [|done]; apply elem_of_firsts, Prelude.elem_of_map_2.
    apply Prelude.elem_of_list_filter; done. }
  destruct (spawned_lookup _ s (fun t => Coroutine t true (jobs_of (of_task t (due_schedules s))) [] None) t Ht) as (p & Hp & _).
  pose proof (tick_jobs s Hlt) as Htick; fold (start_jobs s) in Hp.
  destruct (foldl_spawn_same (List.filter (startable s) (firsts (map sc_task (due_schedules s))))
    (fun t => jobs_of (of_task t (due_schedules s))) s) as [Hsi Hsa]; fold (start_jobs s) in Hsi, Hsa.
  unfold startable in Hst; fold t in Hst; to_prop; destruct (instances s !! t) as [i|] eqn:Hi; [|done].
  apply list_elem_of_lookup_1 in Hd as [k Hk]; exists p, k; split; [now apply lookup_lt_Some in Hk|].
  intros ends Hl; cbv zeta; unfold run_ops; rewrite foldl_app.
  set (s1 := foldl step s [Tick; Begin p fault]).
  assert (Hj : exists first q, at_job s1 p t first q /\ first :: map fst q = map (fun x => Some (sc_id x)) (of_task t (due_schedules s))).
  { unfold s1; cbn [foldl step]; rewrite Htick, Hp; cbn [p_run]; unfold resume; cbn [p_queue p_results].
    destruct (of_task t (due_schedules s)) as [|sc1 l]; [now rewrite lookup_nil in Hk|].
    exists (Some (sc_id sc1)), (jobs_of l); split; [|unfold jobs_of; cbn; now rewrite map_map].
    apply (next_job p (Coroutine t true (jobs_of (sc1 :: l)) [] None)) with (i := i); cbn; rewrite ?Hsi, ?Hsa; done. }
  destruct Hj as (first & q & Hj & Hq).
  destruct (finish_each q s1 p t first ends (Some (sc_id sc)) Hj) as (q' & c & r & i' & Hc & Hr & Hs & Htk & _ & _ & Ha).
  { rewrite Hq, Hl; etransitivity; [exact (list_lookup_fmap (fun x => Some (sc_id x)) (of_task t (due_schedules s)) k)|].
    now setoid_rewrite Hk. }
  exists r; split_and!; [now exists c|done|exact Ha].
Qed.

End runs.

End TaskRuns.

(** ** The engine with the surfaces of [TaskConfigs] *)

Module TaskDemo.
Import TaskEngine TaskInvariant TaskRuns.

Definition utc : Schedule.zone := {| Schedule.utcoffset := fun _ _ => 0 |}.
Definition the_tasks : Tasks := TaskConfigs.tasks (fun _ => Some utc) (fun n _ => Schedule.Build_local n false).
#[local] Existing Instance the_tasks.
Definition the_laws : TaskLaws := TaskConfigs.task_laws (fun _ => Some utc) (fun n _ => Schedule.Build_local n false).
#[local] Existing Instance the_laws.

Definition second : Z := 1000000.
(** The clock at the start: the 738,000th day, at noon. *)
Definition noon : Z := Datetime.DAY * 738000 + 43200 * second.
Definition every_minute : Schedule.schedule :=
  Schedule.Build_schedule "interval" (Some 60) None None None None None.
Definition at_minute (id : Z) (t : string) (ps : option params) : schedule :=
  TaskEngine.Schedule _ _ id t true every_minute (Some noon) None ps.

Definition dict_of (l : list (string * pyval)) : params := list_to_map l.
Definition ok : task_result := TaskResult true "done" None 1 0 None false false.

Definition registered : gset string := {["stream_probe"; "journal_noise_purge"; "cleanup"; "epg_refresh"; "yaml_backup"]}.
Definition start (scs : list schedule) : engine :=
  fresh noon 3 registered scs (<["cleanup" := Parent true (Some 0)]> ∅).
Definition after (scs : list schedule) (ops : list op) : engine := run_ops ops (start scs).

(** A scheduled run, from its tick to its end. *)
Definition whole_run (p : nat) : list op := [Tick; Begin p None; Validated p None; Executed p (Returned ok None); Close p None].
Definition one_schedule : list schedule := [at_minute 7 "cleanup" (Some (dict_of [("journal_days", PInt 1)]))].
Definition two_schedules : list schedule := [at_minute 7 "cleanup" (Some (dict_of [("journal_days", PInt 1)])); at_minute 8 "cleanup" None].

Definition days (s : engine) (t k : string) : option pyval := i ← instances s !! t; (i_config i : TaskConfigs.dict) !! k.

Example run_end_to_end :
  let mid := after one_schedule (firstn 3 (whole_run 0)) in
  let s := after one_schedule (whole_run 0) in
  (days mid "cleanup" "journal_days", days s "cleanup" "journal_days", map sc_next_run_at (schedules s),
   map (fun x => (x_task x, x_status x)) (executions mid), map (fun x => (x_task x, x_status x)) (executions s),
   elements (active_tasks mid), elements (active_tasks s)) =
  (Some (PInt 1), Some (PInt 90), [Some (noon + 60 * second)],
   [("cleanup", "running")], [("cleanup", "completed")], ["cleanup"], []).
Proof. vm_compute; reflexivity. Qed.

(** The limit of three is checked while nothing started is counted yet: five tasks run. *)
Example limit_overrun :
  let scs := [at_minute 1 "stream_probe" None; at_minute 2 "journal_noise_purge" None; at_minute 3 "cleanup" None;
              at_minute 4 "epg_refresh" None; at_minute 5 "yaml_backup" None] in
  let s := after scs [Tick; Begin 0 None; Begin 1 None; Begin 2 None; Begin 3 None; Begin 4 None] in
  (max_concurrent s, size (active_tasks s)) = (3, 5)%nat.
Proof. vm_compute; reflexivity. Qed.

(** A manual run that begins between the tick and the scheduled coroutine: the schedule is
    advanced by a run that was refused, and forgets its last run. *)
Example refused_run_advances :
  let s := after one_schedule [Tick; RunTask "cleanup" None None None; Begin 0 None] in
  (map (fun sc => (sc_next_run_at sc, sc_last_run_at sc)) (schedules s), length (executions s)) =
  ([(Some (noon + 60 * second), None)], 1%nat).
Proof. vm_compute; reflexivity. Qed.

(** A save during a run is stored, and undone in the live task when the run ends. *)
Example save_during_run :
  let s := after [] [RunTask "cleanup" None None None; Configure "cleanup" (dict_of [("journal_days", PInt 5)]);
                     Validated 0 None; Executed 0 (Returned ok None); Close 0 None] in
  (days s "cleanup" "journal_days", days (step s Restart) "cleanup" "journal_days") = (Some (PInt 90), Some (PInt 5)).
Proof. vm_compute; reflexivity. Qed.

(** A save the task ignores is stored over the one it took; the restart forgets both. *)
Example ignored_save_is_stored :
  let s := after [] [Configure "journal_noise_purge" (dict_of [("retention_days", PInt 9)]);
                     Configure "journal_noise_purge" (dict_of [("retention_days", PInt 0)])] in
  (days s "journal_noise_purge" "retention_days", days (step s Restart) "journal_noise_purge" "retention_days") =
  (Some (PInt 9), Some (PInt 3)).
Proof. vm_compute; reflexivity. Qed.

(** Unsetting the groups of the prober: nothing is probed until the restart, everything
    after. *)
Example unset_groups :
  let s := after [] [Configure "stream_probe" (dict_of [("channel_groups", PNone)])] in
  (days s "stream_probe" "channel_groups", days (step s Restart) "stream_probe" "channel_groups") =
  (Some (PList []), Some PNone).
Proof. vm_compute; reflexivity. Qed.

(** ** Witnesses *)

Lemma some_of {A} (o : option A) : match o with Some _ => true | None => false end = true -> exists x, o = Some x.
Proof. destruct o as [x|]; [now exists x|discriminate]. Qed.

Abbreviation manual := [RunTask "cleanup" None (Some (dict_of [("journal_days", PInt 1)])) None; Validated 0 None].
Abbreviation mid_run := (reached noon 3 registered [] ∅ manual).

Lemma one_run_per_task_witness : "cleanup" ∈ active_tasks mid_run /\ exists p r, holds mid_run p "cleanup" r.
Proof.
  assert (Ha : "cleanup" ∈ active_tasks mid_run) by (refine (bool_decide_unpack _ _); vm_compute; exact I).
  split; [exact Ha|]; exact (proj1 (proj1 (one_run_per_task noon 3 registered [] ∅ manual) "cleanup") Ha).
Defined.

Abbreviation done_run := (manual ++ [Executed 0 (Returned ok None); Close 0 None]).
Abbreviation rested := (reached noon 3 registered [] ∅ done_run).

Lemma runs_leave_configuration_witness : exists i, instances rested !! "cleanup" = Some i /\
  i_config i = baseline done_run (fresh noon 3 registered [] ∅) default_config "cleanup".
Proof.
  destruct (some_of (instances rested !! "cleanup")) as [i Hi]; [vm_compute; reflexivity|].
  exists i; split; [exact Hi|apply (runs_leave_configuration noon 3 registered [] ∅ done_run "cleanup" i Hi)].
  refine (bool_decide_unpack _ _); vm_compute; exact I.
Defined.

Lemma running_rows_witness : Forall (fun x => x_status x = "running" <->
    exists p r, holds mid_run p (x_task x) r /\ r_execution r = x_id x /\ unrecorded (r_stage r) = true) (executions mid_run) /\
  map x_status (executions mid_run) = ["running"].
Proof.
  split; [|vm_compute; reflexivity]; apply Forall_forall; intros x Hx.
  exact (proj1 (running_rows noon 3 registered [] ∅ manual x Hx)).
Defined.

Abbreviation saves := [Configure "cleanup" (dict_of [("journal_days", PInt 5)]); Configure "cleanup" (dict_of [("vacuum_db", PBool false)])].
Abbreviation saved := (reached noon 3 registered [] ∅ saves).

Lemma accepts_cleanup k v : TaskConfigs.is_none v = false -> accepts "cleanup" (dict_of [(k, v)]).
Proof.
  intros Hv k' v' Hk; cbn in Hk; apply lookup_insert_Some in Hk as [[<- <-]|[_ Hk]];
    [|now rewrite lookup_empty in Hk]; split; [exact Hv|]; intros f Hf.
  assert (Hp : f = TaskConfigs.plain); [|subst f; now eexists].
  cbn in Hf; repeat (apply elem_of_cons in Hf as [[= _ ->]|Hf]; [reflexivity|]); now apply elem_of_nil in Hf.
Qed.

Lemma saves_survive_restart_witness : exists i, instances saved !! "cleanup" = Some i /\
  instances (step saved Restart) !! "cleanup" = Some (Instance (i_config i) false false).
Proof.
  destruct (some_of (instances saved !! "cleanup")) as [i Hi]; [vm_compute; reflexivity|].
  exists i; split; [exact Hi|].
  apply (saves_survive_restart noon 3 registered [] ∅ saves "cleanup" i); [|reflexivity|exact Hi|].
  - split; [split|split; [split|exact I]]; try (refine (bool_decide_unpack _ _); vm_compute; exact I);
      now apply accepts_cleanup.
  - refine (bool_decide_unpack _ _); vm_compute; exact I.
Defined.

Lemma due_schedule_runs_witness : exists p earlier, (earlier < 2)%nat /\
  forall ends, length ends = earlier -> exists r,
    holds (run_ops ([Tick; Begin p None] ++ List.concat (map (finish p) ends)) (start two_schedules)) p "cleanup" r /\
    r_schedule r = Some 8.
Proof.
  destruct (due_schedule_runs (start two_schedules) (at_minute 8 "cleanup" None) None) as (p & earlier & He & Hr).
  - right; now left.
  - reflexivity.
  - vm_compute; reflexivity.
  - vm_compute; lia.
  - exists p, earlier; split; [exact He|]; intros ends Hl; destruct (Hr ends Hl) as (r & Hh & Hs & _); now exists r.
Defined.

End TaskDemo.
